(* ===== verification/_CoqProject ===== *)
-Q . S2P
Prelude.v
ByteOrder.v
Flow.v
PacketProto.v
PacketProtoDecoder.v
ChunkBuffer.v
PacketBuffer.v
ProtoFlow.v
LinkedLists.v
BPending.v
FairQueue.v
StreamSender.v
Connector.v
SingleBuffer.v
InactivityMonitor.v
InetProto.v
Device.v
SocksClient.v
UdpGw.v
SocksPort.v
SocksUdpGw.v
TcpClient.v
BAVL.v
BAVLSpec.v
CAvl.v
Timers.v
Reactor.v
ReactorSpec.v
ReactorProps.v
ReactorPort.v
Connection.v
ConnectionProps.v
ConnTrees.v
Options.v
Startup.v
IPAddr6.v
DnsNames.v
DnsDecompress.v
DnsCompress.v
NameText.v
NamePrint.v
DnsHash.v
DnsHashProps.v
CacheLock.v
AgeList.v
AgeSort.v
AgeListProps.v
Cent.v
CentProps.v
