(* ===== verification/Prelude.v ===== *)
(** * Verification library for the native core of OpenFluxAndroid

    ** The program

    OpenFluxAndroid is an Android VPN application. Its native core, in C under
    [src/app/src/main/jni], is badvpn's [tun2socks] (directory [badvpn]), which
    takes the IP packets of a TUN device and carries them over a SOCKS5 server:

    - TCP connections are ended by the lwIP stack and relayed, each over a SOCKS
      connection of its own (the [client_*] functions of [tun2socks/tun2socks.c]
      over [socksclient/BSocksClient.c]);
    - DNS queries are rewritten to a DNS gateway and the answers back, with a
      table of the ports in use ([process_device_dns_packet]);
    - other UDP datagrams go to a UDP gateway server
      ([tun2socks/SocksUdpGwClient.c], [udpgw_client/UdpGwClient.c]) as messages
      framed by PacketProto over one SOCKS connection, or are refused with ICMP
      when no gateway is configured;
    - the parts are joined by asynchronous interfaces ([flow/*]) that call each
      other through jobs ([base/BPending.c]) run by the reactor.

    Beside it runs [pdnsd] (directory [pdnsd]), a caching DNS proxy, as an executable
    of its own.

    The build is that of [Android.mk]: [ANDROID], [NDEBUG] and
    [BADVPN_LITTLE_ENDIAN] are defined, [ANDROID_UDP] is not. Assertions of the
    sources are kept in the models, although [NDEBUG] drops them: that none fails
    is part of what is proved.

    ** How code is modelled

    Pure functions are functions. Stateful objects are records, and their
    operations take and return them. [None] stands for what must not happen: a
    failed [ASSERT], an access outside of a buffer or to an object that is not
    there, a loop that runs out of its fuel; theorems that an operation is safe
    say that the result is [Some]. A failure that the code reports is a value of
    the result. Bytes are integers from 0 to 255 in lists, machine integers are
    in [Z] with the wrap-around written out where the code can wrap. The
    kernel, the clock, the sockets, lwIP and [malloc] are the environment: their callbacks are
    events and their answers are arguments of the operations, and the theorems
    are about every sequence of events that the interfaces allow.

    ** Files

    - [Prelude]: notations, tactics, hints, lists, memory blocks, [misc/compare.h].
    - [ByteOrder]: [misc/byteorder.h], [read_write_int.h], [bsize.h],
      [balign.h], [minmax.h].
    - [Flow]: the packet and stream interfaces of [flow/]; [Flow.packet_pass_protocol]
      is the protocol that user and provider follow.
    - [PacketProto], [PacketProtoDecoder], [ProtoFlow]: the framing, its decoder,
      and BufferWriter, PacketProtoEncoder and PacketProtoFlow. The format is a
      class that the decoder's proofs use. The decoder delivers exactly the
      packets encoded in its input however it is split, and stops on an oversized
      one; the encoding flow puts exactly the encodings of the written packets
      out, in order.
    - [ChunkBuffer], [PacketBuffer], [SingleBuffer], [StreamSender], [Connector],
      [InactivityMonitor]: the buffers and pipes between them. A circular buffer
      of packets is a bounded queue; no pipe loses, reorders or invents bytes.
    - [LinkedLists]: [structure/LinkedList1.h] and the instance of the template
      SLinkedList in use, on nodes in memory: they implement sequences.
    - [BPending]: the job group on its linked list is a stack without duplicates.
    - [FairQueue]: PacketPassFairQueue, safe through wrap-around of its clock, and
      no waiting flow is overtaken more than its share.
    - [InetProto]: IPv4, IPv6 and UDP headers and checksums: the parsers accept
      exactly the packets that the formats allow.
    - [Device]: the packets of the TUN device, both directions: every packet has
      one fate, but for a query without memory for its entry; translation of DNS queries and answers is inverse; what is
      submitted, rejected or delivered is exactly described.
    - [SocksClient], [SocksPort]: BSocksClient against a description of the
      handshake, and the class of promises its owners rely on.
    - [UdpGw], [SocksUdpGw]: the gateway client is a table of bounded size in
      order of use, and the client over SOCKS reconnects through every failure.
    - [TcpClient]: the relay: safe in every order of closing, no byte lost in
      either direction, never stuck, and the window never exceeded.
    - [BAVL], [BAVLSpec]: the AVL tree of [structure/BAVL.h] with its pointers,
      equivalent to a sorted list, balanced, and its searches logarithmic.
    - [CAvl]: the AVL tree template ([structure/CAvl_impl.h], [SAvl_impl.h]) in the
      instances in use does exactly what [BAVL] does.
    - [Timers], [Reactor], [ReactorSpec], [ReactorProps]: the event loop of
      [system/BReactor_badvpn.c]: timers on their tree and expired list, whose links
      share a union; descriptors with pointers into the results of [epoll_wait];
      limits; and the loop, round by round. It implements a specification of
      deadlines, queues and counters ([ReactorSpec.rspec]); timers are never early
      and waits end; only registered descriptors are dispatched.
    - [ReactorPort], [Connection], [ConnectionProps]: [system/BConnection_unix.c] as
      programs that call the reactor through a class, which [Reactor] and its
      specification implement: connecting and the two directions of a socket that does
      not block are safe, exact and never stuck, on the model of the reactor.
    - [ConnTrees]: the comparators of the connection trees, trees as finite maps,
      and the DNS table of [tun2socks.c] on allocated structures, which
      implements the map that [Device] uses.
    - [Options], [Startup]: the command line accepted exactly by its grammar, and
      the start of the gateway client from accepted options.
    - [IPAddr6]: IPv6 addresses as text ([misc/ipaddr6.h]): every text is read
      safely, and what is printed is read back.
    - [DnsNames], [DnsDecompress], [DnsCompress], [NameText], [NamePrint]: the domain
      names of [pdnsd], the DNS proxy that runs beside [tun2socks]
      ([pdnsd/src/dns.c], [helpers.c]): a received name is decompressed exactly as
      [DnsNames.encodes] defines it, what is compressed is read back, and names as text.
    - [DnsHash], [DnsHashProps]: the hash table of [pdnsd]'s cache ([hash.c]) is a
      finite map from names without case, also while it is iterated.
    - [CacheLock]: the readers-writer lock of the cache ([cache.c]), with any number
      of threads: exclusion, and no lost wake-up but after a time-out.
    - [AgeList], [AgeSort], [AgeListProps]: the doubly linked list of the cache's record
      sets by age, on pointers: insertion, removal and a merge sort that is insertion sort.
    - [Cent], [CentProps]: an entry of the cache ([cache.c], [cache.h], [rr_types.h]) is a table
      of record sets that counts its bytes and sets; adding, purging, conflicts.

    Theorems with a number (C1, C2, ...) are the properties of the program; each
    with hypotheses is followed by a witness that applies it to a concrete case.

    ** Bounds and fuel

    Loops that the sources do not bound by their syntax take fuel, and the
    theorems show that the fuel given is enough: walks in a tree take the number
    of nodes in memory plus one (a path never repeats a node), [find_unused_conid]
    the number of identifiers, the command line the number of arguments, freeing
    loops the number of connections, the decoder and the relay the bytes left,
    expiring timers the nodes of the tree, and resetting limits their number;
    a domain name has at most 127 labels and 255 pointers.
    Sizes of buffers are parameters with the sources' conditions as hypotheses, or
    the sources' constants.

    ** Assumptions

    Parameters of the model with hypotheses are code that is not the program's:
    lwIP's [pbuf] allocation and its callbacks (their rules are the [enabled]
    conditions of [TcpClient]), the kernel's [epoll_wait], which returns registered
    descriptors ([ReactorSpec.round_legal]) and takes its timeout, the clock, which does
    not go back ([ReactorProps.clock_ops]), its sockets, which fail a call after an error
    ([Connection.ready]), the contents of uninitialised memory, the answers
    of [malloc]-like calls, and the generated list of log channels. [long] and [time_t]
    have 64 bits ([Options], [Cent]).

    ** Not modelled

    The rest of the operating-system layer (listeners, datagram sockets, the TUN
    device, signals, in [system/] and [tuntap/]), lwIP, the logger and debug counters,
    [process_arguments] and the rest of [main] (name resolution, the password file,
    signals, daemonizing), the resolver, configuration and cache file of [pdnsd],
    [libancillary], the other badvpn programs (not built), and the Java side. The components above the
    reactor take its events as arguments: jobs, timers and descriptors are those of
    [ReactorSpec] in that order, which their theorems do not need. The
    tree SAvl that PacketPassFairQueue keeps its flows in is the list of its elements
    there, as [CAvl.savl_is_bavl] and [BAVLSpec.bavl_refines] justify, and a
    [LinkedList1] of a component is the list of its nodes, as
    [LinkedLists.linked_list_refines] does. *)

From Stdlib Require Export ZArith Lia.
From stdpp Require Export base list gmap numbers option.
#[global] Open Scope Z_scope.

(** ** Notations

    [ASSERT b ;; k] is the sources' [ASSERT(b)] followed by [k]: the model
    stops with [None] when the assertion is false. *)

Declare Scope flux_scope.
Delimit Scope flux_scope with flux.

Notation "'ASSERT' b ';;' k" := (if b then k else None)
  (at level 10, b at level 99, k at level 200, only parsing) : flux_scope.
Notation "'let*' x ':=' e 'in' k" := (match e with Some x => k | None => None end)
  (at level 10, x pattern, e at level 100, k at level 200, only parsing) : flux_scope.
#[global] Open Scope flux_scope.

(** ** Machine integers *)

Definition INT_MAX : Z := 2147483647.
Definition UINT16_MAX : Z := 65535.
Definition UINT64_MAX : Z := 18446744073709551615.
Definition SIZE_MAX : Z := UINT64_MAX.

Definition u8 (x : Z) : Z := x mod 256.
Definition u16 (x : Z) : Z := x mod 65536.
Definition u32 (x : Z) : Z := x mod 4294967296.
Definition u64 (x : Z) : Z := x mod 18446744073709551616.

(** Conversion to a 32-bit [int]. *)
Definition to_int (x : Z) : Z := (x + 2147483648) mod 4294967296 - 2147483648.

(** [misc/compare.h]: the three-way comparison. *)
Definition B_COMPARE (a b : Z) : Z := Z.b2z (a >? b) - Z.b2z (a <? b).

(** ** Byte sequences and memory

    A byte is an integer in [0, 256); an allocated C object is the list of its
    bytes; pointers into it are offsets. Reading or writing out of range is
    undefined behaviour in C and [None] here. *)

Definition zlen {A} (l : list A) : Z := Z.of_nat (length l).

Definition byte_ok (b : Z) : Prop := 0 <= b < 256.
Definition bytes_ok (l : list Z) : Prop := Forall byte_ok l.

Definition slice (off len : Z) (m : list Z) : list Z :=
  take (Z.to_nat len) (drop (Z.to_nat off) m).

Definition in_range (off len : Z) (m : list Z) : bool :=
  (0 <=? off) && (0 <=? len) && (off + len <=? zlen m).

Definition mem_read (off len : Z) (m : list Z) : option (list Z) :=
  if in_range off len m then Some (slice off len m) else None.

Definition mem_write (off : Z) (bs m : list Z) : option (list Z) :=
  if in_range off (zlen bs) m
  then Some (take (Z.to_nat off) m ++ bs ++ drop (Z.to_nat (off + zlen bs)) m)
  else None.

(** [m[i]] *)
Definition byte_at (m : list Z) (i : Z) : option Z := if 0 <=? i then m !! Z.to_nat i else None.

(** [memmove (m + dst) (m + src) n] inside one object. *)
Definition mem_move (dst src n : Z) (m : list Z) : option (list Z) :=
  let* bs := mem_read src n m in mem_write dst bs m.

#[global] Arguments zlen : simpl never.
#[global] Arguments slice : simpl never.
#[global] Arguments in_range : simpl never.
#[global] Arguments byte_at : simpl never.
#[global] Arguments mem_read : simpl never.
#[global] Arguments mem_write : simpl never.
#[global] Arguments mem_move : simpl never.

(** ** Automation *)

Create HintDb flux.
Create Rewrite HintDb flux.

Ltac zl := unfold zlen in *; rewrite ?length_app, ?length_take, ?length_drop in *; simpl length in *; lia.

(** Invert a hypothesis [_ = Some _] whose left side is a chain of tests. *)
Ltac inv_some :=
  repeat match goal with
  | H : Some _ = Some _ |- _ => injection H as H; subst
  | H : (_, _) = (_, _) |- _ => injection H as H; subst
  | H : None = Some _ |- _ => discriminate H
  | H : Some _ = None |- _ => discriminate H
  end.

Ltac assert_true :=
  match goal with
  | |- context [if ?b then _ else None] =>
      let E := fresh "E" in assert (b = true) as E by (unfold in_range; lia); rewrite E; clear E
  end.

(** ** Lemmas on lengths and memory *)

Lemma zlen_nonneg {A} (l : list A) : 0 <= zlen l.
Proof. zl. Qed.

Lemma zlen_nil {A} : zlen (@nil A) = 0.
Proof. reflexivity. Qed.

Lemma zlen_cons {A} (x : A) l : zlen (x :: l) = 1 + zlen l.
Proof. zl. Qed.

Lemma zlen_app {A} (l k : list A) : zlen (l ++ k) = zlen l + zlen k.
Proof. zl. Qed.

Lemma zlen_zero_inv {A} (l : list A) : zlen l = 0 -> l = [].
Proof. destruct l; [done | unfold zlen; simpl; lia]. Qed.

#[export] Hint Rewrite @zlen_nil @zlen_cons @zlen_app : flux.
#[export] Hint Resolve zlen_nonneg : flux.

Lemma to_int_id x : -2147483648 <= x <= INT_MAX -> to_int x = x.
Proof. unfold to_int, INT_MAX. intros. rewrite Z.mod_small by lia. lia. Qed.

Lemma in_range_spec off len m :
  in_range off len m = true <-> 0 <= off /\ 0 <= len /\ off + len <= zlen m.
Proof. unfold in_range. lia. Qed.

Lemma lookup_slice off len m i :
  0 <= off ->
  slice off len m !! i =
    if (Z.of_nat i <? len) then m !! (Z.to_nat off + i)%nat else None.
Proof.
  intros Ho. unfold slice. rewrite lookup_take.
  destruct (Z.ltb_spec (Z.of_nat i) len).
  - rewrite decide_True by lia. by rewrite lookup_drop.
  - by rewrite decide_False by lia.
Qed.

Lemma zlen_slice off len m :
  0 <= off -> 0 <= len -> off + len <= zlen m -> zlen (slice off len m) = len.
Proof. intros. unfold slice. zl. Qed.

Lemma slice_zero off m : slice off 0 m = [].
Proof. reflexivity. Qed.

Lemma slice_all m : slice 0 (zlen m) m = m.
Proof. unfold slice. simpl. apply take_ge. zl. Qed.

Lemma slice_add off a b m :
  0 <= off -> 0 <= a -> 0 <= b ->
  slice off (a + b) m = slice off a m ++ slice (off + a) b m.
Proof.
  intros. unfold slice.
  rewrite !Z2Nat.inj_add by lia.
  rewrite <- drop_drop.
  by rewrite take_take_drop.
Qed.

Lemma slice_slice o l o' l' m :
  0 <= o -> 0 <= o' -> 0 <= l' -> o' + l' <= l ->
  slice o' l' (slice o l m) = slice (o + o') l' m.
Proof.
  intros. apply list_eq. intros i. rewrite !lookup_slice by lia.
  destruct (Z.ltb_spec (Z.of_nat i) l'); [|done].
  rewrite (proj2 (Z.ltb_lt _ _)) by lia. f_equal. lia.
Qed.

Lemma slice_app_l off len m m' :
  0 <= off -> off + len <= zlen m -> slice off len (m ++ m') = slice off len m.
Proof.
  intros. apply list_eq. intros i. rewrite !lookup_slice by lia.
  destruct (Z.ltb_spec (Z.of_nat i) len); [|done].
  apply lookup_app_l. zl.
Qed.

Lemma slice_app_exact off len m m' :
  off = zlen m -> len = zlen m' -> slice off len (m ++ m') = m'.
Proof.
  intros -> ->. unfold slice. rewrite drop_app_length' by (unfold zlen; lia).
  apply take_ge. unfold zlen. lia.
Qed.

Lemma mem_write_Some off bs m :
  0 <= off -> off + zlen bs <= zlen m ->
  exists m', mem_write off bs m = Some m' /\ zlen m' = zlen m.
Proof.
  intros. unfold mem_write. pose proof (zlen_nonneg bs).
  rewrite (proj2 (in_range_spec _ _ _)) by lia. eexists. split; [done|].
  unfold zlen in *. rewrite !length_app, length_take, length_drop. lia.
Qed.

Lemma mem_write_zlen off bs m m' :
  mem_write off bs m = Some m' ->
  zlen m' = zlen m /\ 0 <= off /\ off + zlen bs <= zlen m.
Proof.
  unfold mem_write. destruct (in_range _ _ _) eqn:E; [|done].
  apply in_range_spec in E. intros [= <-].
  unfold zlen in *. rewrite !length_app, length_take, length_drop. lia.
Qed.

Lemma lookup_mem_write off bs m m' i :
  mem_write off bs m = Some m' ->
  m' !! i = if (Z.of_nat i <? off) then m !! i
            else if (Z.of_nat i <? off + zlen bs) then bs !! (i - Z.to_nat off)%nat
            else m !! i.
Proof.
  intros Hw. pose proof (mem_write_zlen _ _ _ _ Hw) as (Hl & Ho & Hb).
  revert Hw. unfold mem_write. destruct (in_range _ _ _) eqn:E; [|done]. intros [= <-].
  assert (length (take (Z.to_nat off) m) = Z.to_nat off) as Hlt by (rewrite length_take; zl).
  destruct (Z.ltb_spec (Z.of_nat i) off).
  { rewrite lookup_app_l by lia. rewrite lookup_take. by rewrite decide_True by lia. }
  rewrite lookup_app_r by lia. rewrite Hlt.
  destruct (Z.ltb_spec (Z.of_nat i) (off + zlen bs)).
  { rewrite lookup_app_l by zl. done. }
  rewrite lookup_app_r by zl. rewrite lookup_drop. f_equal. zl.
Qed.

Lemma slice_write_same off bs m m' :
  mem_write off bs m = Some m' -> slice off (zlen bs) m' = bs.
Proof.
  intros Hw. pose proof (mem_write_zlen _ _ _ _ Hw) as (Hl & Ho & Hb).
  apply list_eq. intros i. rewrite lookup_slice by lia.
  destruct (Z.ltb_spec (Z.of_nat i) (zlen bs)).
  - rewrite (lookup_mem_write _ _ _ _ _ Hw).
    rewrite (proj2 (Z.ltb_ge _ _)) by lia. rewrite (proj2 (Z.ltb_lt _ _)) by lia.
    f_equal. lia.
  - symmetry. apply lookup_ge_None. zl.
Qed.

Lemma slice_write_disj o l off bs m m' :
  mem_write off bs m = Some m' -> 0 <= o ->
  (o + l <= off \/ off + zlen bs <= o) -> slice o l m' = slice o l m.
Proof.
  intros Hw Ho Hd. pose proof (mem_write_zlen _ _ _ _ Hw) as (Hl & Hoff & Hb).
  apply list_eq. intros i. rewrite !lookup_slice by lia.
  destruct (Z.ltb_spec (Z.of_nat i) l); [|done].
  rewrite (lookup_mem_write _ _ _ _ _ Hw).
  destruct (Z.ltb_spec (Z.of_nat (Z.to_nat o + i)) off); [done|].
  rewrite (proj2 (Z.ltb_ge _ _)) by lia. done.
Qed.

Lemma mem_read_Some off len m :
  0 <= off -> 0 <= len -> off + len <= zlen m -> mem_read off len m = Some (slice off len m).
Proof. intros. unfold mem_read. by rewrite (proj2 (in_range_spec _ _ _)) by lia. Qed.

Lemma byte_at_Some m i : 0 <= i < zlen m -> exists c, byte_at m i = Some c.
Proof.
  intros H. unfold byte_at. rewrite (proj2 (Z.leb_le 0 i)) by lia. apply lookup_lt_is_Some_2. unfold zlen in H. lia.
Qed.

Lemma byte_at_range m i c : byte_at m i = Some c -> 0 <= i < zlen m.
Proof. unfold byte_at. destruct (Z.leb_spec 0 i); [|done]. intros E%lookup_lt_Some. zl. Qed.

Lemma byte_at_ok m i c : bytes_ok m -> byte_at m i = Some c -> byte_ok c.
Proof. unfold byte_at. destruct (0 <=? i); [|done]. intros H E. by eapply Forall_lookup in E. Qed.

Lemma byte_at_app_l m m' i : i < zlen m -> byte_at (m ++ m') i = byte_at m i.
Proof. intros. unfold byte_at. destruct (Z.leb_spec 0 i); [|done]. apply lookup_app_l. zl. Qed.

Lemma byte_at_app_r m m' i : zlen m <= i -> byte_at (m ++ m') i = byte_at m' (i - zlen m).
Proof.
  intros. pose proof (zlen_nonneg m). unfold byte_at. rewrite !(proj2 (Z.leb_le _ _)) by lia.
  rewrite lookup_app_r by zl. f_equal. zl.
Qed.

Lemma byte_at_here m c m' i : i = zlen m -> byte_at (m ++ c :: m') i = Some c.
Proof. intros ->. rewrite byte_at_app_r by lia. by rewrite Z.sub_diag. Qed.

Lemma mem_write_mid a b b' c off :
  off = zlen a -> zlen b = zlen b' -> mem_write off b' (a ++ b ++ c) = Some (a ++ b' ++ c).
Proof.
  intros -> Hl. pose proof (zlen_nonneg a). pose proof (zlen_nonneg b). pose proof (zlen_nonneg c). unfold mem_write.
  rewrite (proj2 (in_range_spec _ _ _)) by (rewrite !zlen_app; lia). do 2 f_equal.
  - apply take_app_length'. zl.
  - f_equal. rewrite Z2Nat.inj_add by lia. rewrite <- drop_drop.
    rewrite (drop_app_length' a) by zl. apply drop_app_length'. zl.
Qed.

Lemma mem_read_mid a b c off len :
  off = zlen a -> len = zlen b -> mem_read off len (a ++ b ++ c) = Some b.
Proof.
  intros -> ->. pose proof (zlen_nonneg a). pose proof (zlen_nonneg b). pose proof (zlen_nonneg c).
  rewrite mem_read_Some by (rewrite ?zlen_app; lia). f_equal. rewrite app_assoc.
  rewrite slice_app_l by (rewrite ?zlen_app; lia). by apply slice_app_exact.
Qed.

Lemma bytes_ok_app l k : bytes_ok (l ++ k) <-> bytes_ok l /\ bytes_ok k.
Proof. apply Forall_app. Qed.

Lemma bytes_ok_slice o n m : bytes_ok m -> bytes_ok (slice o n m).
Proof. intros. unfold slice. apply Forall_take, Forall_drop; done. Qed.

Lemma bytes_ok_write off bs m m' :
  mem_write off bs m = Some m' -> bytes_ok bs -> bytes_ok m -> bytes_ok m'.
Proof.
  unfold mem_write. destruct (in_range _ _ _); [|done]. intros [= <-] ??.
  apply Forall_app; split; [by apply Forall_take|].
  apply Forall_app; split; [done | by apply Forall_drop].
Qed.

#[export] Hint Resolve bytes_ok_slice : flux.

(** A concrete allocator: memory is available and zeroed. *)
Definition zalloc (n : Z) : option (list Z) :=
  if 0 <=? n then Some (replicate (Z.to_nat n) 0) else None.

Lemma zalloc_size n m : zalloc n = Some m -> zlen m = n.
Proof.
  unfold zalloc. destruct (Z.leb_spec 0 n); [|done]. intros [= <-].
  unfold zlen. rewrite length_replicate. lia.
Qed.

(** ** Linked lists of objects

    A [LinkedList1] as the list of the addresses of its nodes:
    [LinkedList1_Append] is [++ [p]], [LinkedList1_Remove] is [list_remove]. *)

Definition list_remove (p : Z) (l : list Z) : list Z := List.filter (fun q => negb (q =? p)) l.

Lemma elem_list_remove p q l : q ∈ list_remove p l <-> q ∈ l /\ q <> p.
Proof.
  unfold list_remove. rewrite !list_elem_of_In, filter_In. split; intros [H1 H2]; (split; [done|]).
  - apply negb_true_iff, Z.eqb_neq in H2. done.
  - by apply negb_true_iff, Z.eqb_neq.
Qed.

Lemma list_remove_notin p l : p ∉ l -> list_remove p l = l.
Proof.
  intros Hp. unfold list_remove. induction l as [|q l IH]; [done|]. simpl.
  apply not_elem_of_cons in Hp as [Hq Hp]. rewrite (proj2 (Z.eqb_neq q p)) by done. simpl. f_equal. by apply IH.
Qed.

Lemma NoDup_list_remove p l : NoDup l -> NoDup (list_remove p l).
Proof. intros H. apply NoDup_ListNoDup, NoDup_filter, NoDup_ListNoDup. done. Qed.

Lemma length_list_remove p l : NoDup l -> p ∈ l -> zlen (list_remove p l) = zlen l - 1.
Proof.
  induction l as [|q l IH]; intros Hnd Hp; [inversion Hp|].
  apply list.NoDup_cons in Hnd as [Hq Hnd]. unfold list_remove. simpl. fold (list_remove p l).
  apply elem_of_cons in Hp. destruct (Z.eqb_spec q p) as [->|Hne]; simpl.
  - rewrite list_remove_notin by done. rewrite zlen_cons. lia.
  - destruct Hp as [->|Hp]; [done|]. rewrite !zlen_cons, IH by done. lia.
Qed.

#[global] Arguments list_remove : simpl never.
