(* ===== verification/ByteOrder.v ===== *)
(** * Byte order and size arithmetic

    [misc/byteorder.h], [misc/read_write_int.h], [misc/bsize.h],
    [misc/balign.h] and [misc/minmax.h], for the little-endian 64-bit builds
    ([BADVPN_LITTLE_ENDIAN], [SIZE_MAX = 2^64-1]). A [uint16_t] or [uint32_t]
    struct member is the host value of its bytes, so copying a packed struct to
    a byte buffer writes [le16]/[le32] of its members. *)

From S2P Require Import Prelude.

(** ** Host integers in memory *)

Definition le16 (x : Z) : list Z := [x mod 256; (x / 256) mod 256].
Definition le32 (x : Z) : list Z :=
  [x mod 256; (x / 256) mod 256; (x / 65536) mod 256; (x / 16777216) mod 256].

Definition ld8 (m : list Z) (o : Z) : Z := nth (Z.to_nat o) m 0.
Definition ld16 (m : list Z) (o : Z) : Z := ld8 m o + 256 * ld8 m (o + 1).
Definition ld32 (m : list Z) (o : Z) : Z :=
  ld8 m o + 256 * ld8 m (o + 1) + 65536 * ld8 m (o + 2) + 16777216 * ld8 m (o + 3).

#[global] Arguments le16 : simpl never.
#[global] Arguments le32 : simpl never.
#[global] Arguments ld8 : simpl never.
#[global] Arguments ld16 : simpl never.
#[global] Arguments ld32 : simpl never.

(** ** Byte order conversion *)

Definition badvpn_reverse16 (x : Z) : Z := 256 * (x mod 256) + (x / 256) mod 256.
Definition badvpn_reverse32 (x : Z) : Z :=
  16777216 * (x mod 256) + 65536 * ((x / 256) mod 256) +
  256 * ((x / 65536) mod 256) + (x / 16777216) mod 256.

(** The argument conversions to [uint16_t] and [uint32_t] are the callers'. *)
Definition hton16 (x : Z) : Z := badvpn_reverse16 (u16 x).
Definition hton32 (x : Z) : Z := badvpn_reverse32 (u32 x).
Definition ntoh16 (x : Z) : Z := hton16 x.
Definition ntoh32 (x : Z) : Z := hton32 x.
Definition htol16 (x : Z) : Z := u16 x.
Definition ltoh16 (x : Z) : Z := htol16 x.

Definition badvpn_read_be16 (m : list Z) (o : Z) : Z :=
  Z.lor (Z.shiftl (ld8 m o) 8) (Z.shiftl (ld8 m (o + 1)) 0).

(** ** Minimum, maximum, division rounding up *)

Definition bmin_int (a b : Z) : Z := if a <? b then a else b.
Definition bmax_uint64 (a b : Z) : Z := if a >? b then a else b.

Definition bdivide_up (a b : Z) : Z :=
  let r := a mod b in if r >? 0 then a / b + 1 else a / b.

(** ** Arithmetic with overflow detection *)

Record bsize_t := mkbsize { is_overflow : bool; bsize_value : Z }.

Definition bsize_fromsize (v : Z) : bsize_t := mkbsize false v.
Definition bsize_fromint (v : Z) : bsize_t := mkbsize ((v <? 0) || (SIZE_MAX <? v)) (u64 v).
Definition bsize_toint (s : bsize_t) : option Z :=
  if is_overflow s || (INT_MAX <? bsize_value s) then None else Some (bsize_value s).
Definition bsize_add (s1 s2 : bsize_t) : bsize_t :=
  mkbsize (is_overflow s1 || is_overflow s2 || (SIZE_MAX - bsize_value s1 <? bsize_value s2))
    (u64 (bsize_value s1 + bsize_value s2)).
Definition bsize_max (s1 s2 : bsize_t) : bsize_t :=
  mkbsize (is_overflow s1 || is_overflow s2)
    (if bsize_value s2 <? bsize_value s1 then bsize_value s1 else bsize_value s2).
Definition bsize_mul (s1 s2 : bsize_t) : bsize_t :=
  mkbsize (is_overflow s1 || is_overflow s2 ||
           (negb (bsize_value s1 =? 0) && (SIZE_MAX / bsize_value s1 <? bsize_value s2)))
    (u64 (bsize_value s1 * bsize_value s2)).

(** ** Lemmas *)

Ltac dm := Z.div_mod_to_equations; lia.

Lemma zlen_le16 x : zlen (le16 x) = 2.
Proof. reflexivity. Qed.

Lemma zlen_le32 x : zlen (le32 x) = 4.
Proof. reflexivity. Qed.

#[export] Hint Rewrite zlen_le16 zlen_le32 : flux.

Lemma le16_ok x : bytes_ok (le16 x).
Proof.
  unfold le16, bytes_ok. repeat apply Forall_cons_2; try apply Forall_nil_2;
    apply Z.mod_pos_bound; lia.
Qed.

Lemma le32_ok x : bytes_ok (le32 x).
Proof.
  unfold le32, bytes_ok. repeat apply Forall_cons_2; try apply Forall_nil_2;
    apply Z.mod_pos_bound; lia.
Qed.

#[export] Hint Resolve le16_ok le32_ok : flux.

Lemma ld8_app_l m m' o : 0 <= o < zlen m -> ld8 (m ++ m') o = ld8 m o.
Proof. intros. unfold ld8. apply app_nth1. zl. Qed.

Lemma ld8_app_r m m' o : zlen m <= o -> ld8 (m ++ m') o = ld8 m' (o - zlen m).
Proof.
  intros. unfold ld8. rewrite app_nth2 by zl. f_equal. zl.
Qed.

Lemma ld8_slice o n m i : 0 <= o -> 0 <= i < n -> ld8 (slice o n m) i = ld8 m (o + i).
Proof.
  intros. unfold ld8, slice. rewrite !nth_lookup, lookup_take.
  rewrite decide_True by lia. rewrite lookup_drop. do 2 f_equal. lia.
Qed.

Lemma ld16_slice o n m i : 0 <= o -> 0 <= i -> i + 1 < n -> ld16 (slice o n m) i = ld16 m (o + i).
Proof.
  intros. unfold ld16. rewrite !ld8_slice by lia. by rewrite Z.add_assoc.
Qed.

Lemma ld32_slice o n m i : 0 <= o -> 0 <= i -> i + 3 < n -> ld32 (slice o n m) i = ld32 m (o + i).
Proof.
  intros. unfold ld32. rewrite !ld8_slice by lia. by rewrite !Z.add_assoc.
Qed.

Lemma ld8_ok m o : bytes_ok m -> byte_ok (ld8 m o).
Proof.
  intros Hm. unfold ld8. rewrite nth_lookup.
  destruct (m !! Z.to_nat o) eqn:E; simpl; [|unfold byte_ok; lia].
  eapply Forall_lookup_1 in E; eauto.
Qed.

Lemma ld16_bounds m o : bytes_ok m -> 0 <= ld16 m o < 65536.
Proof.
  intros Hm. unfold ld16. pose proof (ld8_ok m o Hm). pose proof (ld8_ok m (o+1) Hm).
  unfold byte_ok in *. lia.
Qed.

Lemma ld32_bounds m o : bytes_ok m -> 0 <= ld32 m o < 4294967296.
Proof.
  intros Hm. unfold ld32. pose proof (ld8_ok m o Hm). pose proof (ld8_ok m (o+1) Hm).
  pose proof (ld8_ok m (o+2) Hm). pose proof (ld8_ok m (o+3) Hm).
  unfold byte_ok in *. lia.
Qed.

Lemma ld16_le16 x : 0 <= x < 65536 -> ld16 (le16 x) 0 = x.
Proof. intros. unfold ld16, le16, ld8. simpl. dm. Qed.

Lemma ld32_le32 x : 0 <= x < 4294967296 -> ld32 (le32 x) 0 = x.
Proof. intros. unfold ld32, le32, ld8. simpl. dm. Qed.

Lemma le16_ld16 m o :
  bytes_ok m -> 0 <= o -> o + 2 <= zlen m -> le16 (ld16 m o) = slice o 2 m.
Proof.
  intros Hm Ho Hl. unfold ld16, le16, slice.
  pose proof (ld8_ok m o Hm) as Ha. pose proof (ld8_ok m (o+1) Hm) as Hb. unfold byte_ok in *.
  set (a := ld8 m o) in *. set (b := ld8 m (o+1)) in *.
  replace ((a + 256 * b) mod 256) with a by dm.
  replace ((a + 256 * b) / 256) with b by dm.
  rewrite (Z.mod_small b) by lia.
  assert (m !! Z.to_nat o = Some a) as E1.
  { unfold a, ld8.
    destruct (nth_lookup_or_length m (Z.to_nat o) 0); [done | zl]. }
  assert (m !! S (Z.to_nat o) = Some b) as E2.
  { unfold b, ld8. replace (Z.to_nat (o+1)) with (S (Z.to_nat o)) by lia.
    destruct (nth_lookup_or_length m (S (Z.to_nat o)) 0); [done | zl]. }
  rewrite (drop_S _ _ _ E1), (drop_S _ _ _ E2). done.
Qed.

Lemma reverse16_invol x : 0 <= x < 65536 -> badvpn_reverse16 (badvpn_reverse16 x) = x.
Proof. intros. unfold badvpn_reverse16. dm. Qed.

Lemma reverse16_range x : 0 <= badvpn_reverse16 x < 65536.
Proof. unfold badvpn_reverse16. dm. Qed.

Lemma reverse32_range x : 0 <= badvpn_reverse32 x < 4294967296.
Proof. unfold badvpn_reverse32. dm. Qed.

Lemma hton16_range x : 0 <= hton16 x < 65536.
Proof. apply reverse16_range. Qed.

Lemma ntoh16_hton16 x : 0 <= x < 65536 -> ntoh16 (hton16 x) = x.
Proof.
  intros. unfold ntoh16, hton16, u16. rewrite (Z.mod_small x) by lia.
  rewrite Z.mod_small by apply reverse16_range. by apply reverse16_invol.
Qed.

Lemma hton16_ntoh16 x : 0 <= x < 65536 -> hton16 (ntoh16 x) = x.
Proof. intros. apply ntoh16_hton16. done. Qed.

Lemma hton16_small x : 0 <= x < 65536 -> hton16 x = badvpn_reverse16 x.
Proof. intros. unfold hton16, u16. by rewrite Z.mod_small by lia. Qed.

Lemma read_be16_alt m o :
  bytes_ok m -> badvpn_read_be16 m o = 256 * ld8 m o + ld8 m (o + 1).
Proof.
  intros Hm. unfold badvpn_read_be16.
  pose proof (ld8_ok m o Hm) as Ha. pose proof (ld8_ok m (o+1) Hm) as Hb. unfold byte_ok in *.
  rewrite Z.shiftl_0_r, Z.shiftl_mul_pow2 by lia.
  assert (Z.land (ld8 m o * 2 ^ 8) (ld8 m (o+1)) = 0) as Hz.
  { apply Z.bits_inj'. intros n Hn. rewrite Z.land_spec, Z.bits_0.
    destruct (Z.ltb_spec n 8).
    - rewrite Z.mul_pow2_bits_low by lia. done.
    - rewrite andb_comm. rewrite (Z.bits_above_log2 (ld8 m (o+1)) n); [done|lia|].
      destruct (Z.eq_dec (ld8 m (o+1)) 0) as [->|]; [simpl; lia|].
      apply Z.log2_lt_pow2; [lia|]. apply Z.lt_le_trans with (2^8); [simpl; lia|].
      apply Z.pow_le_mono_r; lia. }
  pose proof (Z.add_lor_land (ld8 m o * 2 ^ 8) (ld8 m (o+1))) as E. rewrite Hz in E. lia.
Qed.

Lemma bdivide_up_spec a b :
  0 <= a -> 0 < b -> a <= b * bdivide_up a b < a + b.
Proof.
  intros. unfold bdivide_up. destruct (a mod b >? 0) eqn:E; dm.
Qed.

Lemma bdivide_up_mono a a' b :
  0 <= a -> a <= a' -> 0 < b -> bdivide_up a b <= bdivide_up a' b.
Proof.
  intros. pose proof (bdivide_up_spec a b ltac:(lia) ltac:(lia)).
  pose proof (bdivide_up_spec a' b ltac:(lia) ltac:(lia)). nia.
Qed.

Lemma bdivide_up_nonneg a b : 0 <= a -> 0 < b -> 0 <= bdivide_up a b.
Proof. intros. pose proof (bdivide_up_spec a b ltac:(lia) ltac:(lia)). nia. Qed.
