(* ===== verification/Flow.v ===== *)
(** * The asynchronous data interfaces of [badvpn/flow]

    [PacketPassInterface], [PacketRecvInterface], [StreamPassInterface] and
    [StreamRecvInterface] (the [.h] files hold the operations, the [.c] files
    the job handlers). An interface joins a user, who starts operations, and a
    provider, who completes them; both directions go through [BPending] jobs.
    A job is a flag of the interface record here: set by [BPending_Set], unset
    by [BPending_Unset] and cleared when the job group executes it, which may
    happen at any later time and in any order. Handlers are not part of the
    records: running a job returns the arguments of the handler it calls, and
    the component that owns the interface is stepped with them. *)

From S2P Require Import Prelude.

Inductive if_state := ST_NONE | ST_OPERATION_PENDING | ST_BUSY | ST_DONE_PENDING.

#[export] Instance if_state_eq_dec : EqDecision if_state.
Proof. solve_decision. Defined.

Definition st_is (a b : if_state) : bool := bool_decide (a = b).

(** ** PacketPassInterface *)

(** [A] is the type of the data pointers the user passes. *)
Record PacketPassInterface (A : Type) := mkPPI {
  ppi_mtu : Z;
  ppi_handler_requestcancel : bool; (* handler_requestcancel != NULL *)
  ppi_handler_done : bool;          (* handler_done != NULL *)
  ppi_job_operation : bool;
  ppi_job_operation_data : option A;
  ppi_job_operation_len : Z;
  ppi_job_requestcancel : bool;
  ppi_job_done : bool;
  ppi_state : if_state;
  ppi_cancel_requested : bool
}.
Arguments mkPPI {A}.
Arguments ppi_mtu {A}.
Arguments ppi_handler_requestcancel {A}.
Arguments ppi_handler_done {A}.
Arguments ppi_job_operation {A}.
Arguments ppi_job_operation_data {A}.
Arguments ppi_job_operation_len {A}.
Arguments ppi_job_requestcancel {A}.
Arguments ppi_job_done {A}.
Arguments ppi_state {A}.
Arguments ppi_cancel_requested {A}.

Section PacketPass.
Context {A : Type}.
Implicit Types i : PacketPassInterface A.

Definition PacketPassInterface_Init (mtu : Z) : option (PacketPassInterface A) :=
  ASSERT (0 <=? mtu) ;;
  Some (mkPPI mtu false false false None 0 false false ST_NONE false).

Definition PacketPassInterface_EnableCancel i : option (PacketPassInterface A) :=
  ASSERT (negb (ppi_handler_requestcancel i)) ;;
  ASSERT (negb (ppi_handler_done i)) ;;
  Some (mkPPI (ppi_mtu i) true (ppi_handler_done i) (ppi_job_operation i)
          (ppi_job_operation_data i) (ppi_job_operation_len i) (ppi_job_requestcancel i)
          (ppi_job_done i) (ppi_state i) (ppi_cancel_requested i)).

Definition PacketPassInterface_Sender_Init i : option (PacketPassInterface A) :=
  ASSERT (negb (ppi_handler_done i)) ;;
  Some (mkPPI (ppi_mtu i) (ppi_handler_requestcancel i) true (ppi_job_operation i)
          (ppi_job_operation_data i) (ppi_job_operation_len i) (ppi_job_requestcancel i)
          (ppi_job_done i) (ppi_state i) (ppi_cancel_requested i)).

Definition PacketPassInterface_Done i : option (PacketPassInterface A) :=
  ASSERT (st_is (ppi_state i) ST_BUSY) ;;
  Some (mkPPI (ppi_mtu i) (ppi_handler_requestcancel i) (ppi_handler_done i)
          (ppi_job_operation i) (ppi_job_operation_data i) (ppi_job_operation_len i)
          false true ST_DONE_PENDING (ppi_cancel_requested i)).

Definition PacketPassInterface_Sender_Send i (data : A) (data_len : Z)
  : option (PacketPassInterface A) :=
  ASSERT (0 <=? data_len) ;;
  ASSERT (data_len <=? ppi_mtu i) ;;
  ASSERT (st_is (ppi_state i) ST_NONE) ;;
  ASSERT (ppi_handler_done i) ;;
  Some (mkPPI (ppi_mtu i) (ppi_handler_requestcancel i) (ppi_handler_done i)
          true (Some data) data_len (ppi_job_requestcancel i) (ppi_job_done i)
          ST_OPERATION_PENDING false).

Definition PacketPassInterface_Sender_RequestCancel i : option (PacketPassInterface A) :=
  ASSERT (st_is (ppi_state i) ST_OPERATION_PENDING || st_is (ppi_state i) ST_BUSY
          || st_is (ppi_state i) ST_DONE_PENDING) ;;
  ASSERT (ppi_handler_requestcancel i) ;;
  if ppi_cancel_requested i then Some i
  else if st_is (ppi_state i) ST_OPERATION_PENDING then
    Some (mkPPI (ppi_mtu i) (ppi_handler_requestcancel i) (ppi_handler_done i)
            false (ppi_job_operation_data i) (ppi_job_operation_len i)
            (ppi_job_requestcancel i) true ST_DONE_PENDING true)
  else if st_is (ppi_state i) ST_BUSY then
    Some (mkPPI (ppi_mtu i) (ppi_handler_requestcancel i) (ppi_handler_done i)
            (ppi_job_operation i) (ppi_job_operation_data i) (ppi_job_operation_len i)
            true (ppi_job_done i) (ppi_state i) true)
  else
    Some (mkPPI (ppi_mtu i) (ppi_handler_requestcancel i) (ppi_handler_done i)
            (ppi_job_operation i) (ppi_job_operation_data i) (ppi_job_operation_len i)
            (ppi_job_requestcancel i) (ppi_job_done i) (ppi_state i) true).

(** The job handlers of [PacketPassInterface.c], run when the job is pending
    (the group has just cleared it). *)
Definition PacketPassInterface_job_operation i
  : option (PacketPassInterface A * (option A * Z)) :=
  ASSERT (st_is (ppi_state i) ST_OPERATION_PENDING) ;;
  Some (mkPPI (ppi_mtu i) (ppi_handler_requestcancel i) (ppi_handler_done i)
          false (ppi_job_operation_data i) (ppi_job_operation_len i)
          (ppi_job_requestcancel i) (ppi_job_done i) ST_BUSY (ppi_cancel_requested i),
        (ppi_job_operation_data i, ppi_job_operation_len i)).

Definition PacketPassInterface_job_requestcancel i : option (PacketPassInterface A) :=
  ASSERT (st_is (ppi_state i) ST_BUSY) ;;
  ASSERT (ppi_cancel_requested i) ;;
  ASSERT (ppi_handler_requestcancel i) ;;
  Some (mkPPI (ppi_mtu i) (ppi_handler_requestcancel i) (ppi_handler_done i)
          (ppi_job_operation i) (ppi_job_operation_data i) (ppi_job_operation_len i)
          false (ppi_job_done i) (ppi_state i) (ppi_cancel_requested i)).

Definition PacketPassInterface_job_done i : option (PacketPassInterface A) :=
  ASSERT (st_is (ppi_state i) ST_DONE_PENDING) ;;
  Some (mkPPI (ppi_mtu i) (ppi_handler_requestcancel i) (ppi_handler_done i)
          (ppi_job_operation i) (ppi_job_operation_data i) (ppi_job_operation_len i)
          (ppi_job_requestcancel i) false ST_NONE (ppi_cancel_requested i)).

(** What the users and the job group may do to a connected interface. The user
    calls [Send] and [RequestCancel], the provider calls [Done]; a job event is
    enabled exactly when its flag is set. *)
Inductive ppi_event :=
| PSend (data : A) (len : Z)
| PRequestCancel
| PDone
| PJobOperation
| PJobRequestCancel
| PJobDone.

Definition ppi_exec i (e : ppi_event) : option (PacketPassInterface A) :=
  match e with
  | PSend d l => PacketPassInterface_Sender_Send i d l
  | PRequestCancel => PacketPassInterface_Sender_RequestCancel i
  | PDone => PacketPassInterface_Done i
  | PJobOperation =>
      if ppi_job_operation i
      then let* r := PacketPassInterface_job_operation i in Some r.1 else None
  | PJobRequestCancel =>
      if ppi_job_requestcancel i then PacketPassInterface_job_requestcancel i else None
  | PJobDone => if ppi_job_done i then PacketPassInterface_job_done i else None
  end.

Fixpoint ppi_run i (es : list ppi_event) : option (PacketPassInterface A) :=
  match es with
  | [] => Some i
  | e :: es => let* r := ppi_exec i e in ppi_run r es
  end.

(** The jobs are exactly those the state asks for. *)
Record ppi_ok i : Prop := {
  ppi_ok_op : ppi_job_operation i = st_is (ppi_state i) ST_OPERATION_PENDING;
  ppi_ok_done : ppi_job_done i = st_is (ppi_state i) ST_DONE_PENDING;
  ppi_ok_cancel : ppi_job_requestcancel i = true ->
    ppi_state i = ST_BUSY /\ ppi_cancel_requested i = true /\
    ppi_handler_requestcancel i = true;
  ppi_ok_len : ppi_state i <> ST_NONE -> 0 <= ppi_job_operation_len i <= ppi_mtu i;
  ppi_ok_data : ppi_state i <> ST_NONE -> is_Some (ppi_job_operation_data i)
}.

Definition is_send (e : ppi_event) : bool := match e with PSend _ _ => true | _ => false end.
Definition is_job_done (e : ppi_event) : bool := match e with PJobDone => true | _ => false end.
Definition is_job_operation (e : ppi_event) : bool :=
  match e with PJobOperation => true | _ => false end.

Definition count (p : ppi_event -> bool) (es : list ppi_event) : Z :=
  zlen (List.filter p es).

Definition pending_ops i : Z := if st_is (ppi_state i) ST_NONE then 0 else 1.

End PacketPass.

(** ** PacketRecvInterface *)

Record PacketRecvInterface (A : Type) := mkPRI {
  pri_mtu : Z;
  pri_handler_done : bool;
  pri_job_operation : bool;
  pri_job_operation_data : option A;
  pri_job_done : bool;
  pri_job_done_len : Z;
  pri_state : if_state
}.
Arguments mkPRI {A}.
Arguments pri_mtu {A}.
Arguments pri_handler_done {A}.
Arguments pri_job_operation {A}.
Arguments pri_job_operation_data {A}.
Arguments pri_job_done {A}.
Arguments pri_job_done_len {A}.
Arguments pri_state {A}.

Section PacketRecv.
Context {A : Type}.
Implicit Types i : PacketRecvInterface A.

Definition PacketRecvInterface_Init (mtu : Z) : option (PacketRecvInterface A) :=
  ASSERT (0 <=? mtu) ;; Some (mkPRI mtu false false None false 0 ST_NONE).

Definition PacketRecvInterface_Receiver_Init i : option (PacketRecvInterface A) :=
  ASSERT (negb (pri_handler_done i)) ;;
  Some (mkPRI (pri_mtu i) true (pri_job_operation i) (pri_job_operation_data i)
          (pri_job_done i) (pri_job_done_len i) (pri_state i)).

Definition PacketRecvInterface_Done i (data_len : Z) : option (PacketRecvInterface A) :=
  ASSERT (0 <=? data_len) ;;
  ASSERT (data_len <=? pri_mtu i) ;;
  ASSERT (st_is (pri_state i) ST_BUSY) ;;
  Some (mkPRI (pri_mtu i) (pri_handler_done i) (pri_job_operation i)
          (pri_job_operation_data i) true data_len ST_DONE_PENDING).

Definition PacketRecvInterface_Receiver_Recv i (data : A) : option (PacketRecvInterface A) :=
  ASSERT (st_is (pri_state i) ST_NONE) ;;
  ASSERT (pri_handler_done i) ;;
  Some (mkPRI (pri_mtu i) (pri_handler_done i) true (Some data)
          (pri_job_done i) (pri_job_done_len i) ST_OPERATION_PENDING).

Definition PacketRecvInterface_job_operation i
  : option (PacketRecvInterface A * option A) :=
  ASSERT (st_is (pri_state i) ST_OPERATION_PENDING) ;;
  Some (mkPRI (pri_mtu i) (pri_handler_done i) false (pri_job_operation_data i)
          (pri_job_done i) (pri_job_done_len i) ST_BUSY, pri_job_operation_data i).

Definition PacketRecvInterface_job_done i : option (PacketRecvInterface A * Z) :=
  ASSERT (st_is (pri_state i) ST_DONE_PENDING) ;;
  Some (mkPRI (pri_mtu i) (pri_handler_done i) (pri_job_operation i)
          (pri_job_operation_data i) false (pri_job_done_len i) ST_NONE,
        pri_job_done_len i).

End PacketRecv.

(** ** StreamPassInterface and StreamRecvInterface

    The two headers hold the same code under different names. *)

Record StreamInterface (A : Type) := mkSI {
  si_handler_done : bool;
  si_job_operation : bool;
  si_job_operation_data : option A;
  si_job_operation_len : Z;
  si_job_done : bool;
  si_job_done_len : Z;
  si_state : if_state
}.
Arguments mkSI {A}.
Arguments si_handler_done {A}.
Arguments si_job_operation {A}.
Arguments si_job_operation_data {A}.
Arguments si_job_operation_len {A}.
Arguments si_job_done {A}.
Arguments si_job_done_len {A}.
Arguments si_state {A}.

Section Stream.
Context {A : Type}.
Implicit Types i : StreamInterface A.

Definition StreamInterface_Init : StreamInterface A := mkSI false false None 0 false 0 ST_NONE.

Definition StreamInterface_user_Init i : option (StreamInterface A) :=
  ASSERT (negb (si_handler_done i)) ;;
  Some (mkSI true (si_job_operation i) (si_job_operation_data i)
          (si_job_operation_len i) (si_job_done i) (si_job_done_len i) (si_state i)).

Definition StreamInterface_Done i (data_len : Z) : option (StreamInterface A) :=
  ASSERT (st_is (si_state i) ST_BUSY) ;;
  ASSERT (0 <? data_len) ;;
  ASSERT (data_len <=? si_job_operation_len i) ;;
  Some (mkSI (si_handler_done i) (si_job_operation i) (si_job_operation_data i)
          (si_job_operation_len i) true data_len ST_DONE_PENDING).

Definition StreamInterface_start i (data : A) (data_len : Z) : option (StreamInterface A) :=
  ASSERT (0 <? data_len) ;;
  ASSERT (st_is (si_state i) ST_NONE) ;;
  ASSERT (si_handler_done i) ;;
  Some (mkSI (si_handler_done i) true (Some data) data_len
          (si_job_done i) (si_job_done_len i) ST_OPERATION_PENDING).

Definition StreamInterface_job_operation i
  : option (StreamInterface A * (option A * Z)) :=
  ASSERT (st_is (si_state i) ST_OPERATION_PENDING) ;;
  Some (mkSI (si_handler_done i) false (si_job_operation_data i) (si_job_operation_len i)
          (si_job_done i) (si_job_done_len i) ST_BUSY,
        (si_job_operation_data i, si_job_operation_len i)).

Definition StreamInterface_job_done i : option (StreamInterface A * Z) :=
  ASSERT (st_is (si_state i) ST_DONE_PENDING) ;;
  Some (mkSI (si_handler_done i) (si_job_operation i) (si_job_operation_data i)
          (si_job_operation_len i) false (si_job_done_len i) ST_NONE, si_job_done_len i).

Definition StreamPassInterface_Init := StreamInterface_Init.
Definition StreamPassInterface_Sender_Init := StreamInterface_user_Init.
Definition StreamPassInterface_Done := StreamInterface_Done.
Definition StreamPassInterface_Sender_Send := StreamInterface_start.
Definition StreamPassInterface_job_operation := StreamInterface_job_operation.
Definition StreamPassInterface_job_done := StreamInterface_job_done.

Definition StreamRecvInterface_Init := StreamInterface_Init.
Definition StreamRecvInterface_Receiver_Init := StreamInterface_user_Init.
Definition StreamRecvInterface_Done := StreamInterface_Done.
Definition StreamRecvInterface_Receiver_Recv := StreamInterface_start.
Definition StreamRecvInterface_job_operation := StreamInterface_job_operation.
Definition StreamRecvInterface_job_done := StreamInterface_job_done.

End Stream.

(** ** Properties of the interfaces *)

Lemma st_is_true a b : st_is a b = true <-> a = b.
Proof. unfold st_is. apply bool_decide_eq_true. Qed.

Lemma st_is_false a b : st_is a b = false <-> a <> b.
Proof. unfold st_is. apply bool_decide_eq_false. Qed.

(** Splits the assertions of an operation, turning state tests into equations. *)
Ltac step_cases :=
  repeat match goal with
  | H : context [if ?b then _ else _] |- _ => destruct b eqn:?
  | H : context [match ?x with Some _ => _ | None => _ end] |- _ => destruct x eqn:?
  end; inv_some;
  repeat match goal with
  | H : st_is _ _ = true |- _ => apply st_is_true in H
  | H : st_is _ _ = false |- _ => apply st_is_false in H
  end.

Section PacketPassFacts.
Context {A : Type}.
Implicit Types i : PacketPassInterface A.

Lemma ppi_exec_ok i e j : ppi_ok i -> ppi_exec i e = Some j -> ppi_ok j.
Proof.
  intros [Hop Hdone Hc Hlen Hdata] He.
  unfold ppi_exec, PacketPassInterface_Sender_Send, PacketPassInterface_Sender_RequestCancel,
    PacketPassInterface_Done, PacketPassInterface_job_operation,
    PacketPassInterface_job_requestcancel, PacketPassInterface_job_done in He.
  destruct i as [mtu hc hd jo jd jl jc jdn st cr], e; simpl in *; step_cases; simpl in *;
    destruct st; try congruence; split; simpl in *; try done; intros Hx;
    try (by split_and!); try (by apply Hlen); try (by apply Hdata); try (by eexists); try lia;
    destruct (Hc Hx) as (?&?&?); done.
Qed.

Lemma ppi_exec_account i e j :
  ppi_ok i -> ppi_exec i e = Some j ->
  pending_ops i + Z.b2z (is_send e) = pending_ops j + Z.b2z (is_job_done e) /\
  Z.b2z (ppi_job_operation j) + Z.b2z (is_job_operation e)
    <= Z.b2z (ppi_job_operation i) + Z.b2z (is_send e) /\
  ppi_mtu j = ppi_mtu i.
Proof.
  intros [Hop Hdone Hc Hlen Hdata] He.
  unfold ppi_exec, PacketPassInterface_Sender_Send, PacketPassInterface_Sender_RequestCancel,
    PacketPassInterface_Done, PacketPassInterface_job_operation,
    PacketPassInterface_job_requestcancel, PacketPassInterface_job_done in He.
  destruct i as [mtu hc hd jo jd jl jc jdn st cr], e; simpl in *; step_cases; simpl in *;
    destruct st; try congruence; subst; unfold pending_ops; simpl; try done;
    destruct (Hc eq_refl) as [? _]; congruence.
Qed.

Lemma ppi_exec_frame i e j :
  ppi_exec i e = Some j ->
  ppi_mtu j = ppi_mtu i /\ ppi_handler_done j = ppi_handler_done i /\
  ppi_handler_requestcancel j = ppi_handler_requestcancel i.
Proof.
  unfold ppi_exec, PacketPassInterface_Sender_Send, PacketPassInterface_Sender_RequestCancel,
    PacketPassInterface_Done, PacketPassInterface_job_operation,
    PacketPassInterface_job_requestcancel, PacketPassInterface_job_done.
  intros He. destruct e; step_cases; done.
Qed.

Lemma count_cons (p : ppi_event (A:=A) -> bool) e es :
  count p (e :: es) = Z.b2z (p e) + count p es.
Proof. unfold count. simpl. destruct (p e); unfold zlen; simpl; lia. Qed.

Lemma ppi_run_account i es j :
  ppi_ok i -> ppi_run i es = Some j ->
  ppi_ok j /\
  pending_ops i + count is_send es = count is_job_done es + pending_ops j /\
  count is_job_operation es + Z.b2z (ppi_job_operation j)
    <= Z.b2z (ppi_job_operation i) + count is_send es.
Proof.
  revert i. induction es as [|e es IH]; intros i Hok Hrun; simpl in Hrun.
  { inv_some. unfold count, zlen. simpl. split_and!; [done | lia | lia]. }
  destruct (ppi_exec i e) as [k|] eqn:He; [|done].
  pose proof (ppi_exec_ok _ _ _ Hok He) as Hk.
  destruct (ppi_exec_account _ _ _ Hok He) as (H1 & H2 & _).
  destruct (IH _ Hk Hrun) as (Hj & H3 & H4).
  rewrite !count_cons. split_and!; [done | lia | lia].
Qed.

Lemma ppi_jobs_runnable i :
  ppi_ok i ->
  (ppi_job_operation i = true -> is_Some (PacketPassInterface_job_operation i)) /\
  (ppi_job_requestcancel i = true -> is_Some (PacketPassInterface_job_requestcancel i)) /\
  (ppi_job_done i = true -> is_Some (PacketPassInterface_job_done i)).
Proof.
  intros [Hop Hdone Hc Hlen Hdata]. split_and!; intros Hj.
  - unfold PacketPassInterface_job_operation. rewrite Hop in Hj. rewrite Hj. by eexists.
  - unfold PacketPassInterface_job_requestcancel. destruct (Hc Hj) as (-> & -> & ->). by eexists.
  - unfold PacketPassInterface_job_done. rewrite Hdone in Hj. rewrite Hj. by eexists.
Qed.

(** A freshly initialised interface with its user attached. *)
Definition ppi_fresh (mtu : Z) : option (PacketPassInterface A) :=
  let* r := PacketPassInterface_Init mtu in PacketPassInterface_Sender_Init r.

Lemma ppi_fresh_ok mtu i :
  ppi_fresh mtu = Some i -> ppi_ok i /\ pending_ops i = 0 /\ ppi_job_operation i = false.
Proof.
  unfold ppi_fresh, PacketPassInterface_Init. destruct (0 <=? mtu); [|done].
  intros [= <-]. split_and!; [|done..]. split; simpl; done.
Qed.

(** In every history of a [PacketPassInterface] (sends, cancel requests,
    completions and jobs in any order that respects the calling rules) the job
    handlers' assertions hold whenever their job runs, every send is answered by
    exactly one done callback (the one outstanding operation apart), and the
    provider's handler runs at most once per send. *)
Theorem packet_pass_protocol mtu es (i j : PacketPassInterface A)
    (Hinit : ppi_fresh mtu = Some i) (Hrun : ppi_run i es = Some j) :
  ppi_ok j /\
  count is_send es = count is_job_done es + pending_ops j /\
  count is_job_operation es <= count is_send es /\
  (ppi_job_operation j = true -> is_Some (PacketPassInterface_job_operation j)) /\
  (ppi_job_requestcancel j = true -> is_Some (PacketPassInterface_job_requestcancel j)) /\
  (ppi_job_done j = true -> is_Some (PacketPassInterface_job_done j)).
Proof.
  destruct (ppi_fresh_ok _ _ Hinit) as (Hok & Hp & Hop).
  destruct (ppi_run_account _ _ _ Hok Hrun) as (Hj & H1 & H2).
  rewrite Hop, Hp in *. destruct (ppi_jobs_runnable _ Hj) as (?&?&?).
  destruct (ppi_job_operation j); simpl in *; split_and!; try done; lia.
Qed.

End PacketPassFacts.

Lemma packet_pass_protocol_witness :
  exists i j : PacketPassInterface Z,
    ppi_run i [PSend 7 3; PJobOperation; PDone; PJobDone; PSend 8 2] = Some j /\ pending_ops j = 1.
Proof.
  destruct (ppi_fresh (A:=Z) 10) as [i|] eqn:E; [|discriminate E].
  destruct (ppi_run i [PSend 7 3; PJobOperation; PDone; PJobDone; PSend 8 2]) as [j|] eqn:R;
    [|injection E as <-; discriminate R].
  exists i, j. split; [done|].
  destruct (packet_pass_protocol 10 _ i j E R) as (_ & H & _). unfold count, zlen in H. simpl in H. lia.
Defined.

(** ** The operations step by step, for the components that use an interface *)

Section Steps.
Context {A : Type}.

Lemma ppi_send (i : PacketPassInterface A) d l :
  ppi_handler_done i = true -> ppi_state i = ST_NONE -> 0 <= l <= ppi_mtu i ->
  exists j, PacketPassInterface_Sender_Send i d l = Some j /\
    ppi_state j = ST_OPERATION_PENDING /\ ppi_job_operation_data j = Some d /\
    ppi_job_operation_len j = l /\ ppi_handler_done j = true /\ ppi_mtu j = ppi_mtu i.
Proof.
  intros Hh Hs Hl. unfold PacketPassInterface_Sender_Send. assert_true. assert_true.
  rewrite Hs, Hh. by eexists.
Qed.

Lemma ppi_op (i : PacketPassInterface A) :
  ppi_state i = ST_OPERATION_PENDING ->
  exists j, PacketPassInterface_job_operation i =
      Some (j, (ppi_job_operation_data i, ppi_job_operation_len i)) /\
    ppi_state j = ST_BUSY /\ ppi_job_operation_data j = ppi_job_operation_data i /\
    ppi_job_operation_len j = ppi_job_operation_len i /\
    ppi_handler_done j = ppi_handler_done i /\ ppi_mtu j = ppi_mtu i.
Proof. intros Hs. unfold PacketPassInterface_job_operation. rewrite Hs. by eexists. Qed.

Lemma ppi_done (i : PacketPassInterface A) :
  ppi_state i = ST_BUSY ->
  exists j, PacketPassInterface_Done i = Some j /\
    ppi_state j = ST_DONE_PENDING /\ ppi_job_operation_data j = ppi_job_operation_data i /\
    ppi_job_operation_len j = ppi_job_operation_len i /\
    ppi_handler_done j = ppi_handler_done i /\ ppi_mtu j = ppi_mtu i.
Proof. intros Hs. unfold PacketPassInterface_Done. rewrite Hs. by eexists. Qed.

Lemma ppi_jobdone (i : PacketPassInterface A) :
  ppi_state i = ST_DONE_PENDING ->
  exists j, PacketPassInterface_job_done i = Some j /\
    ppi_state j = ST_NONE /\ ppi_handler_done j = ppi_handler_done i /\ ppi_mtu j = ppi_mtu i.
Proof. intros Hs. unfold PacketPassInterface_job_done. rewrite Hs. by eexists. Qed.

Lemma ppi_cancel (i : PacketPassInterface A) :
  ppi_state i <> ST_NONE -> ppi_handler_requestcancel i = true ->
  exists j, PacketPassInterface_Sender_RequestCancel i = Some j /\
    ppi_state j <> ST_NONE /\ (ppi_state j = ST_BUSY <-> ppi_state i = ST_BUSY) /\
    ppi_job_operation_data j = ppi_job_operation_data i /\
    ppi_job_operation_len j = ppi_job_operation_len i.
Proof.
  intros Hs Hc. unfold PacketPassInterface_Sender_RequestCancel. rewrite Hc.
  destruct (ppi_state i) eqn:Es; [done|..]; simpl; destruct (ppi_cancel_requested i);
    eexists; (split; [done|]); simpl; rewrite ?Es; done.
Qed.

Lemma ppi_cancel_job (i : PacketPassInterface A) :
  ppi_ok i -> ppi_job_requestcancel i = true ->
  exists j, PacketPassInterface_job_requestcancel i = Some j /\
    ppi_state j = ppi_state i /\ ppi_state i = ST_BUSY /\ ppi_handler_requestcancel i = true /\
    ppi_job_operation_data j = ppi_job_operation_data i /\
    ppi_job_operation_len j = ppi_job_operation_len i.
Proof.
  intros Hok Hj. destruct (ppi_ok_cancel _ Hok Hj) as (H1 & H2 & H3).
  unfold PacketPassInterface_job_requestcancel. rewrite H1, H2, H3. simpl. by eexists.
Qed.

Lemma pri_recv (i : PacketRecvInterface A) d :
  pri_handler_done i = true -> pri_state i = ST_NONE ->
  exists j, PacketRecvInterface_Receiver_Recv i d = Some j /\
    pri_state j = ST_OPERATION_PENDING /\ pri_job_operation_data j = Some d /\
    pri_handler_done j = true /\ pri_mtu j = pri_mtu i.
Proof.
  intros Hh Hs. unfold PacketRecvInterface_Receiver_Recv. rewrite Hs, Hh. by eexists.
Qed.

Lemma pri_op (i : PacketRecvInterface A) :
  pri_state i = ST_OPERATION_PENDING ->
  exists j, PacketRecvInterface_job_operation i = Some (j, pri_job_operation_data i) /\
    pri_state j = ST_BUSY /\ pri_job_operation_data j = pri_job_operation_data i /\
    pri_handler_done j = pri_handler_done i /\ pri_mtu j = pri_mtu i.
Proof. intros Hs. unfold PacketRecvInterface_job_operation. rewrite Hs. by eexists. Qed.

Lemma pri_done (i : PacketRecvInterface A) l :
  pri_state i = ST_BUSY -> 0 <= l <= pri_mtu i ->
  exists j, PacketRecvInterface_Done i l = Some j /\
    pri_state j = ST_DONE_PENDING /\ pri_job_operation_data j = pri_job_operation_data i /\
    pri_job_done_len j = l /\
    pri_handler_done j = pri_handler_done i /\ pri_mtu j = pri_mtu i.
Proof.
  intros Hs Hl. unfold PacketRecvInterface_Done. assert_true. assert_true. rewrite Hs. by eexists.
Qed.

Lemma pri_jobdone (i : PacketRecvInterface A) :
  pri_state i = ST_DONE_PENDING ->
  exists j, PacketRecvInterface_job_done i = Some (j, pri_job_done_len i) /\
    pri_state j = ST_NONE /\ pri_handler_done j = pri_handler_done i /\ pri_mtu j = pri_mtu i.
Proof. intros Hs. unfold PacketRecvInterface_job_done. rewrite Hs. by eexists. Qed.

Lemma si_start (i : StreamInterface A) d l :
  si_handler_done i = true -> si_state i = ST_NONE -> 0 < l ->
  exists j, StreamInterface_start i d l = Some j /\
    si_state j = ST_OPERATION_PENDING /\ si_job_operation_data j = Some d /\
    si_job_operation_len j = l /\ si_handler_done j = true.
Proof.
  intros Hh Hs Hl. unfold StreamInterface_start. assert_true. rewrite Hs, Hh. by eexists.
Qed.

Lemma si_op (i : StreamInterface A) :
  si_state i = ST_OPERATION_PENDING ->
  exists j, StreamInterface_job_operation i =
      Some (j, (si_job_operation_data i, si_job_operation_len i)) /\
    si_state j = ST_BUSY /\ si_job_operation_data j = si_job_operation_data i /\
    si_job_operation_len j = si_job_operation_len i /\ si_handler_done j = si_handler_done i.
Proof. intros Hs. unfold StreamInterface_job_operation. rewrite Hs. by eexists. Qed.

Lemma si_done (i : StreamInterface A) l :
  si_state i = ST_BUSY -> 0 < l <= si_job_operation_len i ->
  exists j, StreamInterface_Done i l = Some j /\
    si_state j = ST_DONE_PENDING /\ si_job_operation_data j = si_job_operation_data i /\
    si_job_operation_len j = si_job_operation_len i /\ si_job_done_len j = l /\
    si_handler_done j = si_handler_done i.
Proof.
  intros Hs Hl. unfold StreamInterface_Done. rewrite Hs. cbn.
  assert_true. assert_true. by eexists.
Qed.

Lemma si_jobdone (i : StreamInterface A) :
  si_state i = ST_DONE_PENDING ->
  exists j, StreamInterface_job_done i = Some (j, si_job_done_len i) /\
    si_state j = ST_NONE /\ si_handler_done j = si_handler_done i.
Proof. intros Hs. unfold StreamInterface_job_done. rewrite Hs. by eexists. Qed.

End Steps.
