(* ===== verification/PacketProto.v ===== *)
(** * The PacketProto wire format ([protocol/packetproto.h])

    A packet on the stream is a 16-bit little-endian payload length followed by
    the payload. [pp_encode] is the format the encoder writes; [pp_codec] is what
    a decoder relies on, stated as a type class so that the decoder's proofs use
    the format only through it. *)

From S2P Require Import Prelude ByteOrder.

Definition sizeof_packetproto_header : Z := 2.
Definition PACKETPROTO_ENCLEN (len : Z) : Z := sizeof_packetproto_header + len.
Definition PACKETPROTO_MAXPAYLOAD : Z := UINT16_MAX.

(** One packet as [PacketProtoEncoder.c: input_handler_done] lays it out. *)
Definition pp_encode (p : list Z) : list Z := le16 (htol16 (zlen p)) ++ p.

Definition pp_stream (ps : list (list Z)) : list Z := mjoin (pp_encode <$> ps).

#[global] Arguments pp_encode : simpl never.
#[global] Arguments pp_stream : simpl never.

(** What a stream decoder needs of a length-prefixed format: the header has a
    fixed size, tells the payload's length, and the payload follows it. *)
Class PacketCodec (hdr : Z) (enc : list Z -> list Z) (hdr_len : list Z -> Z) (maxlen : Z) := {
  codec_hdr_pos : 0 < hdr;
  codec_len : forall p, zlen (enc p) = hdr + zlen p;
  codec_payload : forall p, slice hdr (zlen p) (enc p) = p;
  codec_hdr : forall p rest, zlen p <= maxlen -> hdr_len (enc p ++ rest) = zlen p
}.

#[export] Instance pp_codec :
  PacketCodec sizeof_packetproto_header pp_encode (fun s => ltoh16 (ld16 s 0)) PACKETPROTO_MAXPAYLOAD.
Proof.
  split.
  - unfold sizeof_packetproto_header. lia.
  - intros p. unfold pp_encode, sizeof_packetproto_header. by autorewrite with flux.
  - intros p. unfold pp_encode. by apply slice_app_exact.
  - intros p rest Hp. unfold PACKETPROTO_MAXPAYLOAD, UINT16_MAX in Hp.
    pose proof (zlen_nonneg p).
    unfold pp_encode, ltoh16, htol16, u16. rewrite <- app_assoc.
    unfold ld16. rewrite !ld8_app_l by (rewrite zlen_le16; lia).
    change (ld8 ?m 0 + 256 * ld8 ?m (0+1)) with (ld16 m 0).
    rewrite (Z.mod_small (zlen p)) by lia. rewrite ld16_le16 by lia.
    by rewrite Z.mod_small by lia.
Qed.

Lemma pp_stream_nil : pp_stream [] = [].
Proof. reflexivity. Qed.

Lemma pp_stream_cons p ps : pp_stream (p :: ps) = pp_encode p ++ pp_stream ps.
Proof. reflexivity. Qed.

Lemma pp_stream_app ps qs : pp_stream (ps ++ qs) = pp_stream ps ++ pp_stream qs.
Proof. unfold pp_stream. by rewrite fmap_app, join_app. Qed.

Lemma pp_encode_zlen p : zlen (pp_encode p) = 2 + zlen p.
Proof. apply (codec_len (hdr:=sizeof_packetproto_header)). Qed.

Lemma pp_encode_nonempty p : 2 <= zlen (pp_encode p).
Proof. rewrite pp_encode_zlen. pose proof (zlen_nonneg p). lia. Qed.

(** A non-empty stream of packets starts with a whole packet. *)
Lemma pp_stream_head ps b r : pp_stream ps = b :: r -> exists p qs, ps = p :: qs.
Proof. destruct ps; [done|]. eauto. Qed.

Lemma pp_hdr p rest :
  zlen p <= PACKETPROTO_MAXPAYLOAD -> ltoh16 (ld16 (pp_encode p ++ rest) 0) = zlen p.
Proof. apply (codec_hdr (PacketCodec := pp_codec)). Qed.

Lemma pp_payload p : slice sizeof_packetproto_header (zlen p) (pp_encode p) = p.
Proof. apply (codec_payload (PacketCodec := pp_codec)). Qed.
