(* ===== verification/PacketProtoDecoder.v ===== *)
(** * [flow/PacketProtoDecoder.c]

    The decoder owns a buffer of [buf_size] bytes. Data pointers given to the
    input and output interfaces are offsets into it. *)

From S2P Require Import Prelude ByteOrder Flow PacketProto.

Record PacketProtoDecoder := mkDec {
  input : StreamInterface Z;
  output : PacketPassInterface Z;
  output_mtu : Z;
  buf_size : Z;
  buf_start : Z;
  buf_used : Z;
  buf : list Z
}.

(** The end of [process_data], reached when no packet was submitted: reset or
    wrap the buffer around, and receive. *)
Definition process_data_receive (enc : PacketProtoDecoder) (was_error : bool)
  : option (PacketProtoDecoder * bool) :=
  let* r := (if was_error then Some (0, 0, buf enc)
             else if buf_start enc + buf_used enc =? buf_size enc then
               let* m := mem_move 0 (buf_start enc) (buf_used enc) (buf enc) in
               Some (0, buf_used enc, m)
             else Some (buf_start enc, buf_used enc, buf enc)) in
  let '(start, used, m) := r in
  let* i := StreamRecvInterface_Receiver_Recv (input enc) (start + used)
              (buf_size enc - (start + used)) in
  Some (mkDec i (output enc) (output_mtu enc) (buf_size enc) start used m, was_error).

(** [process_data]: the second component tells whether [handler_error] is called. *)
Definition process_data (enc : PacketProtoDecoder) : option (PacketProtoDecoder * bool) :=
  let data := buf_start enc in
  let left := buf_used enc in
  if left <? sizeof_packetproto_header then process_data_receive enc false
  else
    let* header := mem_read data sizeof_packetproto_header (buf enc) in
    let data := data + sizeof_packetproto_header in
    let left := left - sizeof_packetproto_header in
    let data_len := ltoh16 (ld16 header 0) in
    if output_mtu enc <? data_len then process_data_receive enc true
    else if left <? data_len then process_data_receive enc false
    else
      let* o := PacketPassInterface_Sender_Send (output enc) data data_len in
      Some (mkDec (input enc) o (output_mtu enc) (buf_size enc)
              (buf_start enc + (sizeof_packetproto_header + data_len))
              (buf_used enc - (sizeof_packetproto_header + data_len)) (buf enc), false).

Definition input_handler_done (enc : PacketProtoDecoder) (data_len : Z)
  : option (PacketProtoDecoder * bool) :=
  ASSERT (0 <? data_len) ;;
  ASSERT (data_len <=? buf_size enc - (buf_start enc + buf_used enc)) ;;
  process_data (mkDec (input enc) (output enc) (output_mtu enc) (buf_size enc)
                  (buf_start enc) (buf_used enc + data_len) (buf enc)).

Definition output_handler_done (enc : PacketProtoDecoder) : option (PacketProtoDecoder * bool) :=
  process_data enc.

(** [malloc] is the allocator; the inner [None] is the failed initialisation. *)
Definition PacketProtoDecoder_Init (malloc : Z -> option (list Z))
    (input : StreamInterface Z) (output : PacketPassInterface Z)
  : option (option PacketProtoDecoder) :=
  let* input := StreamRecvInterface_Receiver_Init input in
  let* output := PacketPassInterface_Sender_Init output in
  let output_mtu := bmin_int (ppi_mtu output) PACKETPROTO_MAXPAYLOAD in
  let buf_size := PACKETPROTO_ENCLEN output_mtu in
  match malloc buf_size with
  | None => Some None
  | Some m =>
      let* input := StreamRecvInterface_Receiver_Recv input 0 buf_size in
      Some (Some (mkDec input output output_mtu buf_size 0 0 m))
  end.

Definition PacketProtoDecoder_Reset (enc : PacketProtoDecoder) : PacketProtoDecoder :=
  mkDec (input enc) (output enc) (output_mtu enc) (buf_size enc)
    (buf_start enc + buf_used enc) 0 (buf enc).

(** ** Histories

    The input provider takes the receive operation ([DInOperation]), writes some
    bytes to the requested place and completes ([DInData]); the packet receiver
    is called with the packet ([DOutOperation], where it is read from the
    buffer) and completes ([DOutDone]); done jobs call the decoder back. *)

Inductive dec_event :=
| DInOperation
| DInData (bs : list Z)
| DInJobDone
| DOutOperation
| DOutDone
| DOutJobDone.

Inductive dec_obs := OPacket (p : list Z) | OError.

Definition with_input (enc : PacketProtoDecoder) i m :=
  mkDec i (output enc) (output_mtu enc) (buf_size enc) (buf_start enc) (buf_used enc) m.
Definition with_output (enc : PacketProtoDecoder) o :=
  mkDec (input enc) o (output_mtu enc) (buf_size enc) (buf_start enc) (buf_used enc) (buf enc).

Definition report (r : option (PacketProtoDecoder * bool))
  : option (PacketProtoDecoder * list dec_obs) :=
  let* r := r in Some (r.1, if r.2 then [OError] else []).

Definition dec_exec (enc : PacketProtoDecoder) (e : dec_event)
  : option (PacketProtoDecoder * list dec_obs) :=
  match e with
  | DInOperation =>
      let* r := StreamRecvInterface_job_operation (input enc) in
      Some (with_input enc r.1 (buf enc), [])
  | DInData bs =>
      let* i := StreamRecvInterface_Done (input enc) (zlen bs) in
      let* dst := si_job_operation_data (input enc) in
      let* m := mem_write dst bs (buf enc) in
      Some (with_input enc i m, [])
  | DInJobDone =>
      let* r := StreamRecvInterface_job_done (input enc) in
      report (input_handler_done (with_input enc r.1 (buf enc)) r.2)
  | DOutOperation =>
      let* r := PacketPassInterface_job_operation (output enc) in
      let '(o, (data, len)) := r in
      let* off := data in
      let* p := mem_read off len (buf enc) in
      Some (with_output enc o, [OPacket p])
  | DOutDone =>
      let* o := PacketPassInterface_Done (output enc) in Some (with_output enc o, [])
  | DOutJobDone =>
      let* o := PacketPassInterface_job_done (output enc) in
      report (output_handler_done (with_output enc o))
  end.

Fixpoint dec_run (enc : PacketProtoDecoder) (es : list dec_event)
  : option (PacketProtoDecoder * list dec_obs) :=
  match es with
  | [] => Some (enc, [])
  | e :: es =>
      let* r := dec_exec enc e in
      let* s := dec_run r.1 es in
      Some (s.1, r.2 ++ s.2)
  end.

(** The bytes the stream delivered in a history, and the packets it handed over. *)
Definition stream_of (es : list dec_event) : list Z :=
  mjoin ((fun e => match e with DInData bs => bs | _ => [] end) <$> es).
Definition packets_of (os : list dec_obs) : list (list Z) :=
  mjoin ((fun o => match o with OPacket p => [p] | OError => [] end) <$> os).

(** The decoder waits for more of the stream: nothing else can happen to it. *)
Definition dec_idle (enc : PacketProtoDecoder) : bool :=
  st_is (ppi_state (output enc)) ST_NONE &&
  (st_is (si_state (input enc)) ST_OPERATION_PENDING || st_is (si_state (input enc)) ST_BUSY).

(** Which events the users of the interfaces and the job group may cause. *)
Definition dec_enabled (enc : PacketProtoDecoder) (e : dec_event) : bool :=
  match e with
  | DInOperation => st_is (si_state (input enc)) ST_OPERATION_PENDING
  | DInData bs => st_is (si_state (input enc)) ST_BUSY && (0 <? zlen bs) &&
                  (zlen bs <=? si_job_operation_len (input enc))
  | DInJobDone => st_is (si_state (input enc)) ST_DONE_PENDING
  | DOutOperation => st_is (ppi_state (output enc)) ST_OPERATION_PENDING
  | DOutDone => st_is (ppi_state (output enc)) ST_BUSY
  | DOutJobDone => st_is (ppi_state (output enc)) ST_DONE_PENDING
  end.

(** ** The invariant *)

(** A buffer content from which no packet can be taken yet. *)
Definition incomplete (s : list Z) : Prop :=
  zlen s < 2 \/ zlen s < 2 + ltoh16 (ld16 s 0).

Record dec_sizes (enc : PacketProtoDecoder) : Prop := {
  ds_mtu : 0 <= output_mtu enc <= PACKETPROTO_MAXPAYLOAD;
  ds_out_mtu : output_mtu enc <= ppi_mtu (output enc);
  ds_size : buf_size enc = 2 + output_mtu enc;
  ds_buf : zlen (buf enc) = buf_size enc;
  ds_start : 0 <= buf_start enc;
  ds_used : 0 <= buf_used enc;
  ds_end : buf_start enc + buf_used enc <= buf_size enc;
  ds_in_user : si_handler_done (input enc) = true;
  ds_out_user : ppi_handler_done (output enc) = true
}.

(** Receiving: a request for the free tail of the buffer is outstanding. *)
Record dec_receiving (enc : PacketProtoDecoder) : Prop := {
  dr_out : ppi_state (output enc) = ST_NONE;
  dr_in : si_state (input enc) <> ST_NONE;
  dr_data : si_job_operation_data (input enc) = Some (buf_start enc + buf_used enc);
  dr_len : si_job_operation_len (input enc) = buf_size enc - (buf_start enc + buf_used enc);
  dr_pos : buf_start enc + buf_used enc < buf_size enc;
  dr_done : si_state (input enc) = ST_DONE_PENDING ->
            0 < si_job_done_len (input enc) <= si_job_operation_len (input enc);
  dr_incomplete : incomplete (slice (buf_start enc) (buf_used enc) (buf enc))
}.

(** Sending: the receiver of packets holds a pointer to the last packet, which
    lies in the consumed part of the buffer. *)
Definition dec_sending (enc : PacketProtoDecoder) (off : Z) : Prop :=
  si_state (input enc) = ST_NONE /\
  ppi_state (output enc) <> ST_NONE /\
  ppi_job_operation_data (output enc) = Some off /\
  0 <= off /\ 0 <= ppi_job_operation_len (output enc) <= output_mtu enc /\
  off + ppi_job_operation_len (output enc) <= buf_start enc.

Definition dec_ok (enc : PacketProtoDecoder) : Prop :=
  dec_sizes enc /\ (dec_receiving enc \/ exists off, dec_sending enc off).

(** Packets submitted to the output whose handler has not been called. *)
Definition inflight (enc : PacketProtoDecoder) : list (list Z) :=
  match ppi_state (output enc), ppi_job_operation_data (output enc) with
  | ST_OPERATION_PENDING, Some off => [slice off (ppi_job_operation_len (output enc)) (buf enc)]
  | _, _ => []
  end.

(** Bytes received and not yet part of a submitted packet. *)
Definition unparsed (enc : PacketProtoDecoder) : list Z :=
  slice (buf_start enc) (buf_used enc) (buf enc) ++
  match si_state (input enc) with
  | ST_DONE_PENDING =>
      slice (buf_start enc + buf_used enc) (si_job_done_len (input enc)) (buf enc)
  | _ => []
  end.

(** [s] is the stream received so far and [ps] the packets handed over. *)
Definition dec_rel (enc : PacketProtoDecoder) (s : list Z) (ps : list (list Z)) : Prop :=
  s = pp_stream (ps ++ inflight enc) ++ unparsed enc.

(** ** Lemmas *)

Lemma ltoh16_range x : 0 <= ltoh16 x < 65536.
Proof. unfold ltoh16, htol16, u16. apply Z.mod_pos_bound. lia. Qed.

Lemma incomplete_nil : incomplete [].
Proof. left. rewrite zlen_nil. lia. Qed.

Lemma recv_start i d l :
  si_handler_done i = true -> si_state i = ST_NONE -> 0 < l ->
  StreamRecvInterface_Receiver_Recv (A:=Z) i d l =
    Some (mkSI true true (Some d) l (si_job_done i) (si_job_done_len i) ST_OPERATION_PENDING).
Proof.
  intros Hh Hs Hl. unfold StreamRecvInterface_Receiver_Recv, StreamInterface_start.
  rewrite Hh, Hs. rewrite (proj2 (Z.ltb_lt _ _) Hl). done.
Qed.

Lemma process_data_receive_ok enc was_error :
  dec_sizes enc -> si_state (input enc) = ST_NONE -> ppi_state (output enc) = ST_NONE ->
  (was_error = false -> buf_used enc < buf_size enc /\
     incomplete (slice (buf_start enc) (buf_used enc) (buf enc))) ->
  exists enc', process_data_receive enc was_error = Some (enc', was_error) /\
    dec_sizes enc' /\ dec_receiving enc' /\ inflight enc' = [] /\
    (was_error = false -> unparsed enc' = slice (buf_start enc) (buf_used enc) (buf enc)) /\
    (was_error = true -> buf_start enc' = 0 /\ buf_used enc' = 0).
Proof.
  intros [Hm Ho Hs Hb Hst Hu He Hi Hou] Hin Hout Hne. unfold process_data_receive.
  destruct was_error.
  { rewrite recv_start by (done || lia).
    eexists; split; [reflexivity|]. split_and!.
    - split; simpl; done || lia.
    - split; simpl; try (done || lia); apply incomplete_nil.
    - unfold inflight. simpl. by rewrite Hout.
    - done.
    - done. }
  destruct (Hne eq_refl) as [Hlt Hinc].
  destruct (Z.eqb_spec (buf_start enc + buf_used enc) (buf_size enc)) as [Hw|Hw].
  - unfold mem_move. rewrite mem_read_Some by lia.
    assert (zlen (slice (buf_start enc) (buf_used enc) (buf enc)) = buf_used enc) as Hz
      by (apply zlen_slice; lia).
    destruct (mem_write_Some 0 (slice (buf_start enc) (buf_used enc) (buf enc)) (buf enc))
      as (m & Hw' & Hl); [lia | lia |]. rewrite Hw'.
    pose proof (slice_write_same _ _ _ _ Hw') as Hsame. rewrite Hz in Hsame.
    rewrite recv_start by (done || lia).
    eexists; split; [reflexivity|]. split_and!.
    + split; simpl; done || lia.
    + split; simpl; try (done || lia); by rewrite Hsame.
    + unfold inflight. simpl. by rewrite Hout.
    + intros _. unfold unparsed. simpl. by rewrite Hsame, app_nil_r.
    + done.
  - rewrite recv_start by (done || lia).
    eexists; split; [reflexivity|]. split_and!.
    + split; simpl; done || lia.
    + split; simpl; done || lia.
    + unfold inflight. simpl. by rewrite Hout.
    + intros _. unfold unparsed. simpl. by rewrite app_nil_r.
    + done.
Qed.

(** What one call of [process_data] does, on every branch. *)
Lemma process_data_spec enc (s := slice (buf_start enc) (buf_used enc) (buf enc)) :
  dec_sizes enc -> si_state (input enc) = ST_NONE -> ppi_state (output enc) = ST_NONE ->
  exists enc' err, process_data enc = Some (enc', err) /\ dec_ok enc' /\
    (err = false -> bytes_ok s -> s = pp_stream (inflight enc') ++ unparsed enc') /\
    (err = true -> 2 <= zlen s /\ output_mtu enc < ltoh16 (ld16 s 0) /\
       dec_receiving enc' /\ buf_start enc' = 0 /\ buf_used enc' = 0) /\
    output_mtu enc' = output_mtu enc.
Proof.
  intros Hsz Hin Hout. pose proof Hsz as [Hm Ho Hs Hb Hst Hu He Hi Hou].
  assert (zlen s = buf_used enc) as Hz by (apply zlen_slice; lia).
  unfold process_data, sizeof_packetproto_header.
  assert (forall w, (w = false -> buf_used enc < buf_size enc /\ incomplete s) ->
    (w = true -> 2 <= zlen s /\ output_mtu enc < ltoh16 (ld16 s 0)) ->
    exists enc' err, process_data_receive enc w = Some (enc', err) /\ dec_ok enc' /\
    (err = false -> bytes_ok s -> s = pp_stream (inflight enc') ++ unparsed enc') /\
    (err = true -> 2 <= zlen s /\ output_mtu enc < ltoh16 (ld16 s 0) /\
       dec_receiving enc' /\ buf_start enc' = 0 /\ buf_used enc' = 0) /\
    output_mtu enc' = output_mtu enc) as Hrecv.
  { intros w Hw1 Hw2.
    destruct (process_data_receive_ok enc w Hsz Hin Hout Hw1) as (e' & He' & Hsz' & Hr & Hf & Hn & Hy).
    exists e', w. split_and!; [done | by split; [|left] | | |].
    - intros -> _. rewrite Hf, pp_stream_nil. simpl. symmetry. by apply Hn.
    - intros ->. destruct (Hw2 eq_refl), (Hy eq_refl). by split_and!.
    - revert He'. unfold process_data_receive. repeat case_match; intros; by inv_some. }
  destruct (Z.ltb_spec (buf_used enc) 2).
  { apply Hrecv; [|done]. intros _. split; [lia|]. left. lia. }
  rewrite mem_read_Some by lia.
  assert (ld16 (slice (buf_start enc) 2 (buf enc)) 0 = ld16 s 0) as Hh.
  { unfold s. rewrite !ld16_slice by lia. done. }
  rewrite Hh. pose proof (ltoh16_range (ld16 s 0)) as Hr.
  destruct (Z.ltb_spec (output_mtu enc) (ltoh16 (ld16 s 0))).
  { apply Hrecv; [done|]. intros _. lia. }
  destruct (Z.ltb_spec (buf_used enc - 2) (ltoh16 (ld16 s 0))).
  { apply Hrecv; [|done]. intros _. split; [lia|]. right. lia. }
  unfold PacketPassInterface_Sender_Send.
  rewrite (proj2 (Z.leb_le 0 _)), (proj2 (Z.leb_le _ (ppi_mtu _))), Hout, Hou by lia. simpl.
  set (len := ltoh16 (ld16 s 0)) in *.
  eexists _, false. split; [reflexivity|]. split_and!; [|intros _ Hok | done | done].
  { split; [split; simpl; try done; lia|]. right. exists (buf_start enc + 2).
    split_and!; simpl; try done; lia. }
  unfold inflight, unparsed.
  cbn [output input buf buf_start buf_used ppi_state ppi_job_operation_data ppi_job_operation_len].
  rewrite Hin, (app_nil_r (slice _ _ _)).
  rewrite pp_stream_cons, pp_stream_nil, app_nil_r. unfold pp_encode.
  rewrite zlen_slice by lia.
  assert (le16 (htol16 len) = slice 0 2 s) as ->.
  { rewrite <- (le16_ld16 s 0) by (done || lia). f_equal.
    pose proof (ld16_bounds s 0 Hok). unfold len, ltoh16, htol16, u16.
    rewrite Zmod_mod. apply Z.mod_small. lia. }
  unfold s. rewrite slice_slice by lia. rewrite Z.add_0_r.
  rewrite <- ?app_assoc.
  replace (buf_start enc + (2 + len)) with ((buf_start enc + 2) + len) by lia.
  rewrite <- (slice_add _ len) by lia. rewrite <- slice_add by lia. f_equal. lia.
Qed.

(** A stream that, after the packets [ps], announces a payload above [mtu]. *)
Definition oversized (mtu : Z) (s : list Z) (ps : list (list Z)) : Prop :=
  exists q, s = pp_stream ps ++ q /\ 2 <= zlen q /\ mtu < ltoh16 (ld16 q 0).

(** What an executed event tells about the stream [s] and the packets [ps]. *)
Definition dec_post (mtu : Z) (enc' : PacketProtoDecoder) (os : list dec_obs)
    (s : list Z) (ps : list (list Z)) : Prop :=
  ((OError ∉ os) /\ dec_rel enc' s (ps ++ packets_of os)) \/ (os = [OError] /\ oversized mtu s ps).

Lemma process_rel enc s ps :
  dec_sizes enc -> si_state (input enc) = ST_NONE -> ppi_state (output enc) = ST_NONE ->
  exists enc' os, report (process_data enc) = Some (enc', os) /\ dec_ok enc' /\
    output_mtu enc' = output_mtu enc /\
    (bytes_ok s -> s = pp_stream ps ++ slice (buf_start enc) (buf_used enc) (buf enc) ->
     dec_post (output_mtu enc) enc' os s ps).
Proof.
  intros Hsz Hin Hout.
  destruct (process_data_spec enc Hsz Hin Hout) as (e' & err & Hp & Hok & Hn & Hy & Hmtu).
  exists e', (if err then [OError] else []). split_and!; [by unfold report; rewrite Hp | done | done |].
  intros Hb Hs. destruct err.
  - right. split; [done|]. destruct (Hy eq_refl) as (H1 & H2 & _). eexists; by split_and!.
  - left. split; [by apply not_elem_of_nil|]. unfold dec_rel, packets_of. simpl.
    rewrite app_nil_r, pp_stream_app, <- app_assoc, <- Hn; [done|done|].
    rewrite Hs in Hb. by apply bytes_ok_app in Hb as [_ Hb].
Qed.

Lemma sizes_with_input enc i m :
  dec_sizes enc -> si_handler_done i = true -> zlen m = buf_size enc -> dec_sizes (with_input enc i m).
Proof. intros [] ? ?. split; simpl; done. Qed.

Lemma sizes_with_output enc o :
  dec_sizes enc -> ppi_handler_done o = true -> ppi_mtu o = ppi_mtu (output enc) ->
  dec_sizes (with_output enc o).
Proof. intros [] ? ?. split; simpl; try done. lia. Qed.

(** Receiving steps: the stream's provider takes the request or fills it. *)
Lemma exec_in_operation enc s ps :
  dec_sizes enc -> dec_receiving enc -> si_state (input enc) = ST_OPERATION_PENDING ->
  exists enc' os, dec_exec enc DInOperation = Some (enc', os) /\ dec_ok enc' /\
    output_mtu enc' = output_mtu enc /\
    (dec_rel enc s ps -> dec_post (output_mtu enc) enc' os s ps).
Proof.
  intros Hsz Hr Hst. simpl. unfold StreamRecvInterface_job_operation, StreamInterface_job_operation.
  rewrite Hst. simpl. eexists _, []. split; [done|].
  split_and!; [|done|].
  - split; [apply sizes_with_input; [done | apply Hsz | apply Hsz]|].
    left. destruct Hr. split; simpl; done.
  - intros Hrel. left. split; [by apply not_elem_of_nil|]. unfold dec_rel in *.
    unfold unparsed in *. rewrite Hst in Hrel. unfold packets_of. simpl. by rewrite app_nil_r.
Qed.

Lemma exec_in_data enc bs s ps :
  dec_sizes enc -> dec_receiving enc -> dec_enabled enc (DInData bs) = true ->
  exists enc' os, dec_exec enc (DInData bs) = Some (enc', os) /\ dec_ok enc' /\
    output_mtu enc' = output_mtu enc /\
    (dec_rel enc s ps -> dec_post (output_mtu enc) enc' os (s ++ bs) ps).
Proof.
  intros Hsz Hr He. destruct Hr as [Ho Hi Hd Hl Hp Hdn Hinc].
  pose proof Hsz as [Hm Hom Hs Hb Hst Hu Hend Hih Hoh].
  simpl in He. apply andb_prop in He as [He Hle]. apply andb_prop in He as [Hbusy Hpos].
  apply st_is_true in Hbusy.
  simpl. unfold StreamRecvInterface_Done, StreamInterface_Done.
  rewrite Hbusy, Hpos, Hle, Hd. simpl.
  destruct (mem_write_Some (buf_start enc + buf_used enc) bs (buf enc)) as (m & Hw & Hlm);
    [lia | lia |]. rewrite Hw.
  assert (slice (buf_start enc) (buf_used enc) m = slice (buf_start enc) (buf_used enc) (buf enc))
    as Hold by (eapply slice_write_disj; [done | lia | left; lia]).
  pose proof (slice_write_same _ _ _ _ Hw) as Hnew.
  eexists _, []. split; [reflexivity|]. split_and!; [|done|].
  - split; [apply sizes_with_input; [done..|lia]|].
    left. split; simpl; try done; [lia|by rewrite Hold].
  - intros Hrel. left. split; [by apply not_elem_of_nil|].
    unfold dec_rel, inflight, unparsed, packets_of in *. simpl in *.
    rewrite Hbusy in Hrel. rewrite Ho in *. rewrite Hold, Hnew, Hrel.
    by rewrite !app_nil_r, app_assoc.
Qed.

Lemma exec_in_job_done enc s ps :
  dec_sizes enc -> dec_receiving enc -> si_state (input enc) = ST_DONE_PENDING ->
  exists enc' os, dec_exec enc DInJobDone = Some (enc', os) /\ dec_ok enc' /\
    output_mtu enc' = output_mtu enc /\
    (bytes_ok s -> dec_rel enc s ps -> dec_post (output_mtu enc) enc' os s ps).
Proof.
  intros Hsz [Ho Hi Hd Hl Hp Hdn Hinc] Hst.
  pose proof Hsz as [Hm Hom Hs Hb Hst' Hu Hend Hih Hoh].
  specialize (Hdn Hst). simpl. unfold StreamRecvInterface_job_done, StreamInterface_job_done.
  rewrite Hst. simpl. unfold input_handler_done. simpl.
  rewrite (proj2 (Z.ltb_lt _ _)) by lia. rewrite (proj2 (Z.leb_le _ _)) by lia.
  match goal with |- context [process_data ?e] => set (e0 := e) end.
  assert (dec_sizes e0) as Hsz0 by (split; simpl; try done; lia).
  destruct (process_rel e0 s ps Hsz0) as (e' & os & Hr & Hok & Hmt & Hpost); [done..|].
  exists e', os. split_and!; [done..|]. intros Hbs Hrel. apply Hpost; [done|].
  unfold dec_rel, inflight, unparsed in Hrel. rewrite Ho, Hst, app_nil_r in Hrel.
  simpl. rewrite slice_add by lia. done.
Qed.

(** Sending steps: the packet's receiver is called and completes. *)
Lemma exec_out_operation enc off s ps :
  dec_sizes enc -> dec_sending enc off -> ppi_state (output enc) = ST_OPERATION_PENDING ->
  exists enc' os, dec_exec enc DOutOperation = Some (enc', os) /\ dec_ok enc' /\
    output_mtu enc' = output_mtu enc /\
    (dec_rel enc s ps -> dec_post (output_mtu enc) enc' os s ps).
Proof.
  intros Hsz (Hi & Ho & Hd & Hoff & Hlen & Hle) Hst.
  pose proof Hsz as [Hm Hom Hs Hb Hst' Hu Hend Hih Hoh].
  simpl. unfold PacketPassInterface_job_operation. rewrite Hst, Hd. simpl.
  rewrite mem_read_Some by lia.
  eexists _, [_]. split; [reflexivity|]. split_and!; [|done|].
  - split; [by apply sizes_with_output|]. right. exists off. split_and!; simpl; done || lia.
  - intros Hrel. left. split; [intros Hx%list_elem_of_singleton; done|].
    unfold dec_rel, inflight, unparsed, packets_of in *. simpl in *.
    rewrite Hst, Hd in Hrel. by rewrite app_nil_r.
Qed.

Lemma exec_out_done enc off s ps :
  dec_sizes enc -> dec_sending enc off -> ppi_state (output enc) = ST_BUSY ->
  exists enc' os, dec_exec enc DOutDone = Some (enc', os) /\ dec_ok enc' /\
    output_mtu enc' = output_mtu enc /\
    (dec_rel enc s ps -> dec_post (output_mtu enc) enc' os s ps).
Proof.
  intros Hsz (Hi & Ho & Hd & Hoff & Hlen & Hle) Hst.
  simpl. unfold PacketPassInterface_Done. rewrite Hst. simpl.
  eexists _, []. split; [reflexivity|]. split_and!; [|done|].
  - split; [apply sizes_with_output; [done|apply Hsz|done]|]. right. exists off. split_and!; simpl; done || lia.
  - intros Hrel. left. split; [by apply not_elem_of_nil|].
    unfold dec_rel, inflight, unparsed, packets_of in *. simpl in *.
    rewrite Hst in Hrel. by rewrite app_nil_r.
Qed.

Lemma exec_out_job_done enc off s ps :
  dec_sizes enc -> dec_sending enc off -> ppi_state (output enc) = ST_DONE_PENDING ->
  exists enc' os, dec_exec enc DOutJobDone = Some (enc', os) /\ dec_ok enc' /\
    output_mtu enc' = output_mtu enc /\
    (bytes_ok s -> dec_rel enc s ps -> dec_post (output_mtu enc) enc' os s ps).
Proof.
  intros Hsz (Hi & Ho & Hd & Hoff & Hlen & Hle) Hst.
  simpl. unfold PacketPassInterface_job_done. rewrite Hst. simpl. unfold output_handler_done.
  match goal with |- context [process_data ?e] => set (e0 := e) end.
  assert (dec_sizes e0) as Hsz0 by (apply sizes_with_output; [done|apply Hsz|done]).
  destruct (process_rel e0 s ps Hsz0) as (e' & os & Hr & Hok & Hmt & Hpost); [done..|].
  exists e', os. split_and!; [done..|]. intros Hbs Hrel. apply Hpost; [done|].
  unfold dec_rel, inflight, unparsed in Hrel. by rewrite Hst, Hi, !app_nil_r in Hrel.
Qed.

Lemma dec_step enc e s ps :
  dec_ok enc -> dec_enabled enc e = true ->
  exists enc' os, dec_exec enc e = Some (enc', os) /\ dec_ok enc' /\
    output_mtu enc' = output_mtu enc /\
    (bytes_ok s -> dec_rel enc s ps ->
     dec_post (output_mtu enc) enc' os (s ++ stream_of [e]) ps).
Proof.
  intros [Hsz [Hr|[off Hs]]] He.
  - pose proof (dr_out _ Hr) as Ho. destruct e; simpl in He; try (rewrite Ho in He; discriminate He).
    + apply st_is_true in He.
      destruct (exec_in_operation enc s ps Hsz Hr He) as (e' & os & ? & ? & ? & Hp).
      exists e', os. change (stream_of [DInOperation]) with (@nil Z). rewrite app_nil_r. auto.
    + destruct (exec_in_data enc bs s ps Hsz Hr He) as (e' & os & ? & ? & ? & Hp).
      exists e', os. replace (stream_of [DInData bs]) with bs; [auto|].
      unfold stream_of. simpl. by rewrite app_nil_r.
    + apply st_is_true in He.
      destruct (exec_in_job_done enc s ps Hsz Hr He) as (e' & os & ? & ? & ? & Hp).
      exists e', os. change (stream_of [DInJobDone]) with (@nil Z). rewrite app_nil_r. auto.
  - pose proof Hs as (Hi & _). destruct e; simpl in He; try (rewrite Hi in He; discriminate He).
    + apply st_is_true in He.
      destruct (exec_out_operation enc off s ps Hsz Hs He) as (e' & os & ? & ? & ? & Hp).
      exists e', os. change (stream_of [DOutOperation]) with (@nil Z). rewrite app_nil_r. auto.
    + apply st_is_true in He.
      destruct (exec_out_done enc off s ps Hsz Hs He) as (e' & os & ? & ? & ? & Hp).
      exists e', os. change (stream_of [DOutDone]) with (@nil Z). rewrite app_nil_r. auto.
    + apply st_is_true in He.
      destruct (exec_out_job_done enc off s ps Hsz Hs He) as (e' & os & ? & ? & ? & Hp).
      exists e', os. change (stream_of [DOutJobDone]) with (@nil Z). rewrite app_nil_r. auto.
Qed.

Lemma dec_exec_enabled enc e r : dec_exec enc e = Some r -> dec_enabled enc e = true.
Proof.
  destruct e; simpl; unfold StreamRecvInterface_job_operation, StreamInterface_job_operation,
    StreamRecvInterface_Done, StreamInterface_Done, StreamRecvInterface_job_done,
    StreamInterface_job_done, PacketPassInterface_job_operation, PacketPassInterface_Done,
    PacketPassInterface_job_done; intros H; step_cases; reflexivity.
Qed.

(** Packets handed over never exceed the output's MTU. *)
Lemma dec_exec_small enc e enc' os :
  dec_ok enc -> dec_exec enc e = Some (enc', os) ->
  Forall (fun p => zlen p <= output_mtu enc) (packets_of os).
Proof.
  intros Hok He. pose proof (dec_exec_enabled _ _ _ He) as Hen.
  destruct e; simpl in He, Hen; unfold report in He; try (repeat case_match; inv_some; by constructor).
  destruct Hok as [Hsz [Hr|[off (Hi & Ho & Hd & Hoff & Hlen & Hle)]]].
  { rewrite (dr_out _ Hr) in Hen. discriminate. }
  destruct Hsz. unfold PacketPassInterface_job_operation in He. rewrite Hen, Hd in He. simpl in He.
  rewrite mem_read_Some in He by lia. inv_some. unfold packets_of. simpl.
  constructor; [|by constructor]. rewrite zlen_slice by lia. lia.
Qed.

Lemma packets_of_app os os' : packets_of (os ++ os') = packets_of os ++ packets_of os'.
Proof. unfold packets_of. by rewrite fmap_app, join_app. Qed.

Lemma stream_of_cons e es : stream_of (e :: es) = stream_of [e] ++ stream_of es.
Proof. unfold stream_of. simpl. by rewrite app_nil_r. Qed.

(** Some prefix of the stream announces a packet that is too large. *)
Definition bad_stream (mtu : Z) (s : list Z) : Prop :=
  exists s1 s2 ps, s = s1 ++ s2 /\ Forall (fun p => zlen p <= mtu) ps /\ oversized mtu s1 ps.

Lemma dec_run_rel es : forall enc s ps enc' os,
  dec_ok enc -> dec_run enc es = Some (enc', os) ->
  dec_ok enc' /\ output_mtu enc' = output_mtu enc /\
  Forall (fun p => zlen p <= output_mtu enc) (packets_of os) /\
  (bytes_ok (s ++ stream_of es) -> Forall (fun p => zlen p <= output_mtu enc) ps -> dec_rel enc s ps ->
   (OError ∉ os -> dec_rel enc' (s ++ stream_of es) (ps ++ packets_of os)) /\
   (OError ∈ os -> bad_stream (output_mtu enc) (s ++ stream_of es))).
Proof.
  induction es as [|e es IH]; intros enc s ps enc' os Hok Hrun; simpl in Hrun.
  { inv_some. split_and!; [done..|by constructor|]. intros _ _ Hrel.
    unfold packets_of, stream_of. simpl. rewrite !app_nil_r. split; [done|].
    intros Hx. by apply not_elem_of_nil in Hx. }
  destruct (dec_exec enc e) as [[enc1 os1]|] eqn:He; [|done]. simpl in Hrun.
  destruct (dec_run enc1 es) as [[enc2 os2]|] eqn:Hr2; [|done]. simpl in Hrun. inv_some.
  pose proof (dec_exec_enabled _ _ _ He) as Hen.
  destruct (dec_step enc e s ps Hok Hen) as (enc1' & os1' & He' & Hok1 & Hmtu & Hpost).
  rewrite He in He'. inv_some.
  pose proof (dec_exec_small _ _ _ _ Hok He) as Hsm.
  destruct (IH enc1' (s ++ stream_of [e]) (ps ++ packets_of os1') enc' os2 Hok1 Hr2)
    as (Hok2 & Hmtu2 & Hsm2 & Hrest).
  rewrite Hmtu in Hsm2, Hrest.
  split_and!; [done | congruence | rewrite packets_of_app; by apply Forall_app|].
  rewrite stream_of_cons, packets_of_app, (app_assoc s), (app_assoc ps).
  intros Hb Hsmall Hrel. apply bytes_ok_app in Hb as Hb'. destruct Hb' as [Hb1 _].
  apply bytes_ok_app in Hb1 as [Hb1 _].
  destruct (Hpost Hb1 Hrel) as [[Hno Hrel1]|[-> Hov]].
  - destruct (Hrest Hb) as [Hg Hbad]; [by apply Forall_app | done|].
    rewrite elem_of_app. split; [intros Hn; apply Hg | intros Hn; apply Hbad]; tauto.
  - split; [intros Hn; destruct Hn; left|]. intros _. eexists _, _, ps. by split_and!.
Qed.

(** Unique parsing: two packet sequences with a common stream prefix agree. *)
Lemma pp_stream_prefix ps : forall q qs,
  Forall (fun p => zlen p <= PACKETPROTO_MAXPAYLOAD) ps ->
  Forall (fun p => zlen p <= PACKETPROTO_MAXPAYLOAD) qs ->
  pp_stream ps ++ q `prefix_of` pp_stream qs ->
  exists rs, qs = ps ++ rs /\ q `prefix_of` pp_stream rs.
Proof.
  induction ps as [|p ps IH]; intros q qs Hps Hqs Hpre.
  { exists qs. by split. }
  destruct qs as [|p' qs].
  { destruct Hpre as [r Hr]. apply (f_equal zlen) in Hr.
    rewrite pp_stream_nil, pp_stream_cons in Hr. autorewrite with flux in Hr.
    pose proof (pp_encode_nonempty p). pose proof (zlen_nonneg (pp_stream ps)).
    pose proof (zlen_nonneg q). pose proof (zlen_nonneg r). lia. }
  apply Forall_cons_1 in Hps as [Hp Hps]. apply Forall_cons_1 in Hqs as [Hp' Hqs].
  rewrite !pp_stream_cons, <- app_assoc in Hpre. destruct Hpre as [r Hr].
  rewrite <- app_assoc in Hr.
  pose proof (pp_hdr p' (pp_stream qs) Hp') as E. rewrite Hr, (pp_hdr p _ Hp) in E.
  assert (pp_encode p' = pp_encode p /\ pp_stream qs = (pp_stream ps ++ q) ++ r) as [E1 E2].
  { apply app_inj_1; [|done]. pose proof (pp_encode_zlen p). pose proof (pp_encode_zlen p').
    unfold zlen in *. lia. }
  assert (p' = p) as ->.
  { rewrite <- (pp_payload p'), <- (pp_payload p). by rewrite E1, E. }
  destruct (IH q qs Hps Hqs) as (rs & -> & ?); [by exists r|].
  exists rs. by split.
Qed.

(** A non-empty stream of small packets is not [incomplete] nor oversized. *)
Lemma pp_stream_complete ps mtu :
  Forall (fun p => zlen p <= mtu) ps -> mtu <= PACKETPROTO_MAXPAYLOAD ->
  incomplete (pp_stream ps) -> ps = [].
Proof.
  intros Hps Hm Hinc. destruct ps as [|p ps]; [done|exfalso].
  apply Forall_cons_1 in Hps as [Hp _]. rewrite pp_stream_cons in Hinc.
  unfold incomplete in Hinc. rewrite (pp_hdr p) in Hinc by lia.
  rewrite zlen_app, pp_encode_zlen in Hinc. pose proof (zlen_nonneg p).
  pose proof (zlen_nonneg (pp_stream ps)). lia.
Qed.

Lemma small_max mtu (ps : list (list Z)) :
  mtu <= PACKETPROTO_MAXPAYLOAD -> Forall (fun p => zlen p <= mtu) ps ->
  Forall (fun p => zlen p <= PACKETPROTO_MAXPAYLOAD) ps.
Proof. intros Hm Hps. eapply Forall_impl; [|exact Hps]. simpl. lia. Qed.

Lemma good_stream_not_bad ps s mtu :
  Forall (fun p => zlen p <= mtu) ps -> mtu <= PACKETPROTO_MAXPAYLOAD ->
  s `prefix_of` pp_stream ps -> ~ bad_stream mtu s.
Proof.
  intros Hps Hm Hpre (s1 & s2 & qs & -> & Hqs & q & -> & Hl & Hov).
  assert (pp_stream qs ++ q `prefix_of` pp_stream ps) as Hpre'.
  { destruct Hpre as [z Hz]. exists (s2 ++ z). by rewrite Hz, <- !app_assoc. }
  destruct (pp_stream_prefix qs q ps) as (rs & -> & [r Hr]);
    [by apply (small_max mtu)..|done|].
  destruct rs as [|p rs].
  { apply (f_equal zlen) in Hr. rewrite pp_stream_nil, zlen_nil, zlen_app in Hr.
    pose proof (zlen_nonneg r). lia. }
  apply Forall_app in Hps as [_ Hps]. apply Forall_cons_1 in Hps as [Hp _].
  rewrite pp_stream_cons in Hr.
  assert (ltoh16 (ld16 (q ++ r) 0) = ltoh16 (ld16 q 0)) as E.
  { f_equal. unfold ld16. rewrite !ld8_app_l by lia. done. }
  rewrite <- Hr, (pp_hdr p) in E by lia. lia.
Qed.

Lemma pp_stream_ok ps : Forall bytes_ok ps -> bytes_ok (pp_stream ps).
Proof.
  induction 1; [by constructor|]. rewrite pp_stream_cons. apply bytes_ok_app. split; [|done].
  unfold pp_encode. apply bytes_ok_app. auto with flux.
Qed.

Lemma dec_inflight_small enc :
  dec_ok enc -> Forall (fun p => zlen p <= output_mtu enc) (inflight enc).
Proof.
  intros [Hsz Hc]. unfold inflight. repeat case_match; try by constructor.
  destruct Hc as [Hr|[off (Hi & Ho & Hd & Hoff & Hlen & Hle)]];
    [by rewrite (dr_out _ Hr) in *|]. destruct Hsz. simplify_eq.
  constructor; [|by constructor]. rewrite zlen_slice by lia. lia.
Qed.

Lemma dec_idle_spec enc :
  dec_ok enc -> dec_idle enc = true -> inflight enc = [] /\ incomplete (unparsed enc).
Proof.
  intros [_ Hc] Hi. unfold dec_idle in Hi. apply andb_prop in Hi as [Ho Hi].
  apply st_is_true in Ho. destruct Hc as [Hr|[off (_ & Ho' & _)]]; [|done].
  unfold inflight, unparsed. rewrite Ho. split; [done|].
  apply orb_prop in Hi as [Hi|Hi]; apply st_is_true in Hi; rewrite Hi, app_nil_r; apply Hr.
Qed.

(** ** Termination *)

(** Events that are not arrivals of stream data. *)
Definition internal (e : dec_event) : bool := match e with DInData _ => false | _ => true end.

(** A bound on the number of events left until more data is needed. *)
Definition dec_measure (enc : PacketProtoDecoder) : Z :=
  match ppi_state (output enc) with
  | ST_OPERATION_PENDING => 4 * buf_used enc + 5
  | ST_BUSY => 4 * buf_used enc + 4
  | ST_DONE_PENDING => 4 * buf_used enc + 3
  | ST_NONE =>
      match si_state (input enc) with
      | ST_OPERATION_PENDING => 1
      | ST_DONE_PENDING => 4 * (buf_used enc + si_job_done_len (input enc)) + 3
      | _ => 0
      end
  end.

Lemma process_data_measure enc enc' os :
  ppi_state (output enc) = ST_NONE -> 0 <= buf_used enc ->
  report (process_data enc) = Some (enc', os) -> dec_measure enc' < 4 * buf_used enc + 3.
Proof.
  intros Ho Hu. unfold report, process_data.
  assert (forall w r, process_data_receive enc w = Some r -> dec_measure r.1 = 1) as Hrecv.
  { intros w r. unfold process_data_receive, StreamRecvInterface_Receiver_Recv, StreamInterface_start.
    intros H. step_cases; repeat case_match; simplify_eq; unfold dec_measure; simpl; by rewrite Ho. }
  pose proof (ltoh16_range (ld16 (slice (buf_start enc) 2 (buf enc)) 0)).
  unfold sizeof_packetproto_header, PacketPassInterface_Sender_Send, mem_read in *. intros Hx.
  repeat case_match; simplify_eq; try (erewrite Hrecv by eassumption; lia);
    unfold dec_measure; simpl; lia.
Qed.

Lemma dec_exec_measure enc e enc' os :
  dec_ok enc -> internal e = true -> dec_exec enc e = Some (enc', os) ->
  dec_measure enc' < dec_measure enc.
Proof.
  intros [Hsz Hc] Hint He. pose proof (dec_exec_enabled _ _ _ He) as Hen. destruct Hsz.
  destruct Hc as [[Ho Hi Hd Hl Hp Hdn Hinc]|[off (Hi & Ho & Hd & Hoff & Hlen & Hle)]];
    destruct e; try discriminate Hint; simpl in Hen; apply st_is_true in Hen; try congruence;
    unfold dec_measure at 2; rewrite ?Ho, ?Hi, Hen; simpl in He;
    unfold StreamRecvInterface_job_operation, StreamInterface_job_operation,
      StreamRecvInterface_job_done, StreamInterface_job_done, PacketPassInterface_job_operation,
      PacketPassInterface_Done, PacketPassInterface_job_done, input_handler_done,
      output_handler_done in He; rewrite Hen in He; simpl in He.
  - inv_some. unfold dec_measure. simpl. rewrite Ho. lia.
  - specialize (Hdn Hen). rewrite (proj2 (Z.ltb_lt _ _)) in He by lia.
    rewrite (proj2 (Z.leb_le _ _)) in He by lia.
    apply process_data_measure in He; simpl in *; [lia | done | lia].
  - rewrite Hd in He. repeat case_match; inv_some. unfold dec_measure. simpl. lia.
  - inv_some. unfold dec_measure. simpl. lia.
  - apply process_data_measure in He; simpl in *; [lia | done | lia].
Qed.

Lemma dec_run_measure es : forall enc enc' os,
  dec_ok enc -> forallb internal es = true -> dec_run enc es = Some (enc', os) ->
  zlen es + dec_measure enc' <= dec_measure enc.
Proof.
  induction es as [|e es IH]; intros enc enc' os Hok Hint Hrun; simpl in *.
  { inv_some. rewrite zlen_nil. lia. }
  apply andb_prop in Hint as [He Hes].
  destruct (dec_exec enc e) as [[enc1 os1]|] eqn:Hx; [|done]. simpl in Hrun.
  destruct (dec_run enc1 es) as [[enc2 os2]|] eqn:Hr; [|done]. inv_some. simpl.
  pose proof (dec_exec_measure _ _ _ _ Hok He Hx).
  destruct (dec_step enc e [] [] Hok (dec_exec_enabled _ _ _ Hx)) as (? & ? & Hx' & Hok1 & _).
  rewrite Hx in Hx'. inv_some. specialize (IH _ _ _ Hok1 Hes Hr). rewrite zlen_cons. lia.
Qed.

Lemma dec_measure_nonneg enc : dec_ok enc -> 0 <= dec_measure enc.
Proof.
  intros [[] Hc]. unfold dec_measure. repeat case_match; try lia.
  destruct Hc as [[Ho Hi Hd Hl Hp Hdn Hinc]|[off (Hi & Ho & _)]]; [|congruence].
  match goal with E : si_state _ = ST_DONE_PENDING |- _ => specialize (Hdn E) end. lia.
Qed.

Lemma dec_not_idle_enabled enc :
  dec_ok enc -> dec_idle enc = false -> exists e, internal e = true /\ dec_enabled enc e = true.
Proof.
  intros [_ Hc] Hi. unfold dec_idle in Hi.
  destruct Hc as [[Ho Hi' _ _ _ _ _]|[off (Hin & Ho & _)]].
  - rewrite Ho in Hi. destruct (si_state (input enc)) eqn:E; try done.
    exists DInJobDone. simpl. by rewrite E.
  - destruct (ppi_state (output enc)) eqn:E; [done|..].
    + exists DOutOperation. simpl. by rewrite E.
    + exists DOutDone. simpl. by rewrite E.
    + exists DOutJobDone. simpl. by rewrite E.
Qed.

(** ** The decoder's theorems *)

(** A decoder as [PacketProtoDecoder_Init] leaves it, over fresh interfaces. *)
Definition dec_fresh (malloc : Z -> option (list Z)) (mtu : Z) : option PacketProtoDecoder :=
  let* o := PacketPassInterface_Init mtu in
  let* r := PacketProtoDecoder_Init malloc StreamRecvInterface_Init o in r.

Section Decoder.
(** The allocator returns objects of the size asked for. *)
Context (malloc : Z -> option (list Z)).
Hypothesis malloc_size : forall n m, malloc n = Some m -> zlen m = n.

Lemma dec_fresh_ok mtu enc :
  dec_fresh malloc mtu = Some enc ->
  dec_ok enc /\ output_mtu enc = Z.min mtu PACKETPROTO_MAXPAYLOAD /\ dec_rel enc [] [].
Proof.
  unfold dec_fresh, PacketPassInterface_Init. destruct (Z.leb_spec 0 mtu) as [Hm|]; [|done].
  unfold PacketProtoDecoder_Init. simpl.
  assert (bmin_int mtu PACKETPROTO_MAXPAYLOAD = Z.min mtu PACKETPROTO_MAXPAYLOAD) as ->.
  { unfold bmin_int. destruct (Z.ltb_spec mtu PACKETPROTO_MAXPAYLOAD); lia. }
  unfold PACKETPROTO_ENCLEN, sizeof_packetproto_header, PACKETPROTO_MAXPAYLOAD, UINT16_MAX.
  set (om := Z.min mtu 65535). destruct (malloc (2 + om)) as [m|] eqn:Em; [|done].
  apply malloc_size in Em. rewrite recv_start by (simpl; done || lia). intros [= <-].
  split; [|done]. split; [split; simpl; try done; unfold PACKETPROTO_MAXPAYLOAD, UINT16_MAX; lia|].
  left. split; simpl; try done; try lia. apply incomplete_nil.
Qed.

(** On any byte stream, split in any way by the connection, the decoder
    never fails an assertion, never touches memory outside its buffer and never
    gets stuck: every event the interfaces allow is executed, and a packet it
    hands over never exceeds the output's MTU. *)
Theorem decoder_safe mtu enc es enc' os e
    (Hinit : dec_fresh malloc mtu = Some enc) (Hrun : dec_run enc es = Some (enc', os))
    (Hen : dec_enabled enc' e = true) :
  is_Some (dec_exec enc' e) /\ Forall (fun p => zlen p <= Z.min mtu PACKETPROTO_MAXPAYLOAD) (packets_of os).
Proof.
  destruct (dec_fresh_ok _ _ Hinit) as (Hok & Hm & _).
  destruct (dec_run_rel es enc [] [] enc' os Hok Hrun) as (Hok' & _ & Hsm & _).
  rewrite Hm in Hsm. split; [|done].
  destruct (dec_step enc' e [] [] Hok' Hen) as (e'' & os' & -> & _). by eexists.
Qed.

(** C3. Round trip. If what the stream delivered is a prefix of the PacketProto
    encoding of [ps] (packets that fit the MTU), the decoder reports no error and
    has handed over a prefix of [ps], in order and byte for byte; once the whole
    encoding has arrived and the decoder waits for more, it has handed over
    exactly [ps]. *)
Theorem decoder_roundtrip mtu enc es enc' os ps
    (Hinit : dec_fresh malloc mtu = Some enc) (Hrun : dec_run enc es = Some (enc', os))
    (Hps : Forall (fun p => bytes_ok p /\ zlen p <= Z.min mtu PACKETPROTO_MAXPAYLOAD) ps)
    (Hpre : stream_of es `prefix_of` pp_stream ps) :
  (OError ∉ os) /\ packets_of os `prefix_of` ps /\
  (stream_of es = pp_stream ps -> dec_idle enc' = true -> packets_of os = ps).
Proof.
  destruct (dec_fresh_ok _ _ Hinit) as (Hok & Hm & Hrel0).
  destruct (dec_run_rel es enc [] [] enc' os Hok Hrun) as (Hok' & Hm' & Hsm & Hpost).
  rewrite Hm in *. simpl in Hpost.
  assert (Forall (fun p => zlen p <= Z.min mtu PACKETPROTO_MAXPAYLOAD) ps) as Hsmall
    by (eapply Forall_impl; [|exact Hps]; by intros ? [? ?]).
  assert (bytes_ok (stream_of es)) as Hb.
  { destruct Hpre as [r Hr]. assert (bytes_ok (pp_stream ps)) as Hbs.
    { apply pp_stream_ok. eapply Forall_impl; [|exact Hps]. by intros ? [? ?]. }
    rewrite Hr in Hbs. by apply bytes_ok_app in Hbs as [? _]. }
  destruct Hpost as [Hgood Hbad]; [done | by constructor | done|].
  assert (OError ∉ os) as Hno.
  { intros Hin. eapply good_stream_not_bad; [exact Hsmall | lia | exact Hpre | by apply Hbad]. }
  specialize (Hgood Hno). unfold dec_rel in Hgood.
  rewrite Hgood in Hpre. pose proof (dec_inflight_small _ Hok') as Hfl. rewrite Hm' in Hfl.
  destruct (pp_stream_prefix (packets_of os ++ inflight enc') (unparsed enc') ps)
    as (rs & Hps' & Hrs); [apply (small_max (Z.min mtu PACKETPROTO_MAXPAYLOAD)); [lia|]..| |].
  { by apply Forall_app. } { done. } { done. }
  split_and!; [done | rewrite Hps', <- app_assoc; by apply prefix_app_r|].
  intros Hall Hidle. rewrite Hgood, Hps', !pp_stream_app in Hall.
  apply app_inv_head in Hall. destruct (dec_idle_spec _ Hok' Hidle) as (Hnf & Hinc).
  rewrite Hall in Hinc. apply (pp_stream_complete rs (Z.min mtu PACKETPROTO_MAXPAYLOAD)) in Hinc;
    [| |lia].
  - by rewrite Hps', Hnf, Hinc, !app_nil_r.
  - rewrite Hps' in Hsmall. by apply Forall_app in Hsmall as [_ ?].
Qed.

(** C40. Termination. Once the stream stops, the decoder comes to rest: any
    history without new data is no longer than [dec_measure], and as long as it is
    not waiting for data some event is enabled and executes. *)
Theorem decoder_terminates mtu enc es enc' os es' r
    (Hinit : dec_fresh malloc mtu = Some enc) (Hrun : dec_run enc es = Some (enc', os))
    (Hint : forallb internal es' = true) (Hrun' : dec_run enc' es' = Some r) :
  zlen es' <= dec_measure enc' /\
  (dec_idle r.1 = false -> exists e, internal e = true /\ is_Some (dec_exec r.1 e)).
Proof.
  destruct (dec_fresh_ok _ _ Hinit) as (Hok & _).
  destruct (dec_run_rel es enc [] [] enc' os Hok Hrun) as (Hok' & _).
  destruct r as [enc'' os'']. destruct (dec_run_rel es' enc' [] [] enc'' os'' Hok' Hrun') as (Hok'' & _).
  pose proof (dec_run_measure _ _ _ _ Hok' Hint Hrun'). pose proof (dec_measure_nonneg _ Hok'').
  split; [lia|]. intros Hi. destruct (dec_not_idle_enabled _ Hok'' Hi) as (e & ? & Hen).
  exists e. split; [done|]. destruct (dec_step _ e [] [] Hok'' Hen) as (? & ? & Hx & _).
  simpl. rewrite Hx. by eexists.
Qed.

End Decoder.

(** ** Witnesses: two packets, delivered in four chunks; the buffer
    wraps around in the middle of the second. *)

Definition demo_events : list dec_event :=
  [DInOperation; DInData [3]; DInJobDone;
   DInOperation; DInData [0; 10; 11; 12; 2]; DInJobDone;
   DOutOperation; DOutDone; DOutJobDone;
   DInOperation; DInData [0; 20]; DInJobDone;
   DInOperation; DInData [21]; DInJobDone;
   DOutOperation; DOutDone; DOutJobDone].

Lemma decoder_roundtrip_witness :
  exists enc enc' os, dec_run enc demo_events = Some (enc', os) /\
    packets_of os = [[10; 11; 12]; [20; 21]].
Proof.
  destruct (dec_fresh zalloc 6) as [enc|] eqn:E; [|vm_compute in E; discriminate E].
  destruct (dec_run enc demo_events) as [[enc' os]|] eqn:R.
  2: { exfalso. revert R. vm_compute in E. injection E as <-. vm_compute. discriminate. }
  exists enc, enc', os. split; [done|].
  apply (decoder_roundtrip zalloc zalloc_size 6 enc demo_events enc' os [[10; 11; 12]; [20; 21]] E R).
  - repeat constructor; vm_compute; by intros.
  - exists []. reflexivity.
  - reflexivity.
  - vm_compute in E. injection E as <-. vm_compute in R. injection R as <- <-. reflexivity.
Defined.

Lemma decoder_safe_witness :
  exists enc enc' os, dec_run enc demo_events = Some (enc', os) /\ is_Some (dec_exec enc' DInOperation).
Proof.
  destruct (dec_fresh zalloc 6) as [enc|] eqn:E; [|vm_compute in E; discriminate E].
  destruct (dec_run enc demo_events) as [[enc' os]|] eqn:R.
  2: { exfalso. revert R. vm_compute in E. injection E as <-. vm_compute. discriminate. }
  exists enc, enc', os. split; [done|].
  apply (decoder_safe zalloc zalloc_size 6 enc demo_events enc' os DInOperation E R).
  vm_compute in E. injection E as <-. vm_compute in R. injection R as <- <-. reflexivity.
Defined.

Lemma decoder_terminates_witness :
  exists enc enc' os, dec_run enc (take 6 demo_events) = Some (enc', os) /\ 3 <= dec_measure enc'.
Proof.
  destruct (dec_fresh zalloc 6) as [enc|] eqn:E; [|vm_compute in E; discriminate E].
  destruct (dec_run enc (take 6 demo_events)) as [[enc' os]|] eqn:R.
  2: { exfalso. revert R. vm_compute in E. injection E as <-. vm_compute. discriminate. }
  destruct (dec_run enc' [DOutOperation; DOutDone; DOutJobDone]) as [r|] eqn:R'.
  2: { exfalso. revert R'. vm_compute in E. injection E as <-. vm_compute in R.
       injection R as <- <-. vm_compute. discriminate. }
  exists enc, enc', os. split; [done|].
  exact (proj1 (decoder_terminates zalloc zalloc_size 6 enc (take 6 demo_events) enc' os
                  [DOutOperation; DOutDone; DOutJobDone] r E R eq_refl R')).
Defined.
