(* ===== verification/ChunkBuffer.v ===== *)
(** * [structure/ChunkBuffer2.h]: a circular buffer of whole packets

    The buffer is an array of [size] blocks of 4 bytes ([struct ChunkBuffer2_block],
    one [int]); a packet is a header block holding its length followed by the
    blocks of its data, never split over the end of the array. Pointers are byte
    offsets into the array. *)

From S2P Require Import Prelude ByteOrder.

Definition sizeof_block : Z := 4.

Record ChunkBuffer2 := mkCB {
  cb_buffer : list Z;
  cb_size : Z;
  cb_wrap : Z;
  cb_start : Z;
  cb_used : Z;
  cb_mtu : Z;
  cb_input_dest : option Z;
  cb_input_avail : Z;
  cb_output_dest : option Z;
  cb_output_avail : Z
}.

Definition ChunkBuffer2_end (b : ChunkBuffer2) : Z :=
  if cb_used b >=? cb_wrap b - cb_start b then cb_used b - (cb_wrap b - cb_start b) else cb_start b + cb_used b.

Definition set_input (b : ChunkBuffer2) (dest : option Z) (avail : Z) : ChunkBuffer2 :=
  mkCB (cb_buffer b) (cb_size b) (cb_wrap b) (cb_start b) (cb_used b) (cb_mtu b) dest avail
    (cb_output_dest b) (cb_output_avail b).
Definition set_output (b : ChunkBuffer2) (dest : option Z) (avail : Z) : ChunkBuffer2 :=
  mkCB (cb_buffer b) (cb_size b) (cb_wrap b) (cb_start b) (cb_used b) (cb_mtu b) (cb_input_dest b) (cb_input_avail b)
    dest avail.

Definition ChunkBuffer2_update_input (b : ChunkBuffer2) : ChunkBuffer2 :=
  let end_ := ChunkBuffer2_end b in
  if cb_size b - end_ - 1 <? cb_mtu b then set_input b None (-1)
  else
    let free := if cb_used b >=? cb_wrap b - cb_start b then cb_start b - end_ else cb_size b - end_ in
    if free >? 0 then set_input b (Some (sizeof_block * (end_ + 1))) (to_int ((free - 1) * sizeof_block))
    else set_input b None (-1).

(** [buffer[i].len] *)
Definition block_len (b : ChunkBuffer2) (i : Z) : option Z :=
  let* h := mem_read (sizeof_block * i) sizeof_block (cb_buffer b) in Some (to_int (ld32 h 0)).

Definition ChunkBuffer2_update_output (b : ChunkBuffer2) : option ChunkBuffer2 :=
  if cb_used b >? 0 then
    let* datalen := block_len b (cb_start b) in
    ASSERT (0 <=? datalen) ;;
    let blocklen := bdivide_up datalen sizeof_block in
    ASSERT (blocklen <=? cb_used b - 1) ;;
    ASSERT (blocklen <=? cb_wrap b - cb_start b - 1) ;;
    Some (set_output b (Some (sizeof_block * (cb_start b + 1))) datalen)
  else Some (set_output b None (-1)).

Definition ChunkBuffer2_calc_blocks (chunk_len num : Z) : Z :=
  let chunk_data_blocks := bdivide_up chunk_len sizeof_block in
  if chunk_data_blocks >? INT_MAX - 1 then -1
  else
    let chunk_blocks := 1 + chunk_data_blocks in
    if num >? INT_MAX - 1 then -1
    else
      let num_chunks := num + 1 in
      if chunk_blocks >? INT_MAX / num_chunks then -1
      else chunk_blocks * num_chunks.

Definition ChunkBuffer2_Init (buffer : list Z) (blocks mtu : Z) : option ChunkBuffer2 :=
  ASSERT (blocks >? 0) ;;
  ASSERT (0 <=? mtu) ;;
  let b := mkCB buffer blocks blocks 0 0 (bdivide_up mtu sizeof_block) None 0 None 0 in
  ChunkBuffer2_update_output (ChunkBuffer2_update_input b).

Definition ChunkBuffer2_SubmitPacket (b : ChunkBuffer2) (len : Z) : option ChunkBuffer2 :=
  ASSERT (bool_decide (is_Some (cb_input_dest b))) ;;
  ASSERT (0 <=? len) ;;
  ASSERT (len <=? cb_input_avail b) ;;
  let end_ := ChunkBuffer2_end b in
  let blocklen := bdivide_up len sizeof_block in
  ASSERT (blocklen <=? cb_size b - end_ - 1) ;;
  ASSERT ((cb_used b <? cb_wrap b - cb_start b) || (blocklen <=? cb_start b - end_ - 1)) ;;
  let* m := mem_write (sizeof_block * end_) (le32 len) (cb_buffer b) in
  let used' := cb_used b + (1 + blocklen) in
  let wrap' := if (used' <=? cb_wrap b - cb_start b) &&
                  (cb_mtu b >? cb_size b - (end_ + 1 + blocklen) - 1)
               then end_ + 1 + blocklen else cb_wrap b in
  let b' := mkCB m (cb_size b) wrap' (cb_start b) used' (cb_mtu b)
              (cb_input_dest b) (cb_input_avail b) (cb_output_dest b) (cb_output_avail b) in
  let b' := ChunkBuffer2_update_input b' in
  if used' =? 1 + blocklen then ChunkBuffer2_update_output b' else Some b'.

Definition ChunkBuffer2_ConsumePacket (b : ChunkBuffer2) : option ChunkBuffer2 :=
  ASSERT (bool_decide (is_Some (cb_output_dest b))) ;;
  ASSERT (1 <=? cb_wrap b - cb_start b) ;;
  ASSERT (1 <=? cb_used b) ;;
  let* len := block_len b (cb_start b) in
  let blocklen := bdivide_up len sizeof_block in
  ASSERT (blocklen <=? cb_wrap b - cb_start b - 1) ;;
  ASSERT (blocklen <=? cb_used b - 1) ;;
  let data_wrapped := cb_used b >=? cb_wrap b - cb_start b in
  let start' := cb_start b + (1 + blocklen) in
  let used' := cb_used b - (1 + blocklen) in
  let '(start', wrap') := if start' =? cb_wrap b then (0, cb_size b) else (start', cb_wrap b) in
  let b' := mkCB (cb_buffer b) (cb_size b) wrap' start' used' (cb_mtu b)
              (cb_input_dest b) (cb_input_avail b) (cb_output_dest b) (cb_output_avail b) in
  let b' := if data_wrapped then ChunkBuffer2_update_input b' else b' in
  ChunkBuffer2_update_output b'.

(** ** The queue of packets a buffer holds *)

(** Blocks a packet takes, header included. *)
Definition pkt_blocks (p : list Z) : Z := 1 + bdivide_up (zlen p) sizeof_block.

Definition pkt_at (m : list Z) (pos : Z) (p : list Z) : Prop :=
  0 <= pos /\ 4 * pos + 4 <= zlen m /\ zlen p <= INT_MAX /\
  ld32 (slice (4 * pos) 4 m) 0 = zlen p /\ slice (4 * (pos + 1)) (zlen p) m = p.

(** Packets laid out one after the other in the blocks [pos, e), each starting
    where a packet of [mtu] blocks would have fitted. *)
Fixpoint seg (m : list Z) (last : Z) (pos : Z) (ps : list (list Z)) (e : Z) : Prop :=
  match ps with
  | [] => pos = e
  | p :: ps => pkt_at m pos p /\ pos <= last /\ pos + pkt_blocks p <= e /\
               seg m last (pos + pkt_blocks p) ps e
  end.

Definition last_start (b : ChunkBuffer2) : Z := cb_size b - (cb_mtu b + 1).

(** Data not wrapped: the packets are in [start, start + used). *)
Definition cb_straight (b : ChunkBuffer2) (q : list (list Z)) : Prop :=
  cb_wrap b = cb_size b /\ cb_start b + cb_used b <= last_start b /\
  seg (cb_buffer b) (last_start b) (cb_start b) q (cb_start b + cb_used b).

(** Data wrapped: the older packets [q1] fill [start, wrap), the younger ones
    [q2] the blocks [0, e). *)
Definition cb_wrapped (b : ChunkBuffer2) (q1 q2 : list (list Z)) (e : Z) : Prop :=
  cb_used b = cb_wrap b - cb_start b + e /\ 0 <= e <= cb_start b /\ cb_start b < cb_wrap b <= cb_size b /\
  last_start b < cb_wrap b /\ cb_start b <= last_start b /\
  seg (cb_buffer b) (last_start b) (cb_start b) q1 (cb_wrap b) /\
  seg (cb_buffer b) (last_start b) 0 q2 e.

Record cb_ok (b : ChunkBuffer2) : Prop := {
  cbok_mem : zlen (cb_buffer b) = 4 * cb_size b;
  cbok_size : 4 * cb_size b <= INT_MAX;
  cbok_mtu : 0 <= cb_mtu b;
  cbok_start : 0 <= cb_start b;
  cbok_used : 0 <= cb_used b
}.

Definition cb_data (b : ChunkBuffer2) (q : list (list Z)) : Prop :=
  cb_ok b /\ (cb_straight b q \/ exists q1 q2 e, q = q1 ++ q2 /\ cb_wrapped b q1 q2 e).

(** Free blocks at the place where the next packet goes. *)
Definition cb_free (b : ChunkBuffer2) : Z :=
  if cb_used b >=? cb_wrap b - cb_start b then cb_start b - ChunkBuffer2_end b else cb_size b - ChunkBuffer2_end b.

(** The pointers agree with the queue: [input_dest]/[input_avail] describe the free
    space after the last packet, [output_dest]/[output_avail] the first packet. *)
Definition cb_io (b : ChunkBuffer2) (q : list (list Z)) : Prop :=
  (if cb_free b >? 0
   then cb_input_dest b = Some (4 * (ChunkBuffer2_end b + 1)) /\ cb_input_avail b = (cb_free b - 1) * 4
   else cb_input_dest b = None /\ cb_input_avail b = -1) /\
  match q with
  | [] => cb_output_dest b = None /\ cb_output_avail b = -1
  | p :: _ => cb_output_dest b = Some (4 * (cb_start b + 1)) /\ cb_output_avail b = zlen p /\
              slice (4 * (cb_start b + 1)) (zlen p) (cb_buffer b) = p
  end.

(** The refinement relation: [b] represents the queue [q]. *)
Definition cb_rel (b : ChunkBuffer2) (q : list (list Z)) : Prop := cb_data b q /\ cb_io b q.

Definition with_buffer (b : ChunkBuffer2) (m : list Z) : ChunkBuffer2 :=
  mkCB m (cb_size b) (cb_wrap b) (cb_start b) (cb_used b) (cb_mtu b)
    (cb_input_dest b) (cb_input_avail b) (cb_output_dest b) (cb_output_avail b).

(** ** Lemmas on packet layouts *)

Lemma with_buffer_id b : with_buffer b (cb_buffer b) = b.
Proof. by destruct b. Qed.

Lemma pkt_blocks_spec p :
  1 <= pkt_blocks p /\ 4 + zlen p <= 4 * pkt_blocks p < 4 + zlen p + 4.
Proof.
  unfold pkt_blocks, sizeof_block. pose proof (zlen_nonneg p).
  pose proof (bdivide_up_spec (zlen p) 4 ltac:(lia) ltac:(lia)). lia.
Qed.

(** [m] and [m'] have the same bytes in the blocks [a, b). *)
Definition same_blocks (m m' : list Z) (a b : Z) : Prop :=
  zlen m' = zlen m /\
  forall o l, 4 * a <= o -> o + l <= 4 * b -> slice o l m' = slice o l m.

Lemma same_blocks_write off bs m m' a b :
  mem_write off bs m = Some m' -> 0 <= a ->
  (4 * b <= off \/ off + zlen bs <= 4 * a) -> same_blocks m m' a b.
Proof.
  intros Hw Ha Hd. split; [by destruct (mem_write_zlen _ _ _ _ Hw)|].
  intros o l Ho Hl. eapply slice_write_disj; [done|lia|lia].
Qed.

Lemma same_blocks_trans m m' m'' a b :
  same_blocks m m' a b -> same_blocks m' m'' a b -> same_blocks m m'' a b.
Proof. intros [H1 H2] [H3 H4]. split; [lia|]. intros. rewrite H4, H2; done. Qed.

Lemma pkt_at_frame m m' pos p a b :
  same_blocks m m' a b -> a <= pos -> pos + pkt_blocks p <= b -> pkt_at m pos p -> pkt_at m' pos p.
Proof.
  intros [Hl Hs] Ha Hb (H0 & H1 & H2 & H3 & H4). pose proof (pkt_blocks_spec p).
  pose proof (zlen_nonneg p).
  unfold pkt_at. rewrite !Hs by lia. split_and!; try done; lia.
Qed.

Lemma seg_frame m m' last ps a b : forall pos,
  same_blocks m m' a b -> a <= pos -> seg m last pos ps b -> seg m' last pos ps b.
Proof.
  induction ps as [|p ps IH]; intros pos Hs Ha; simpl; [done|].
  intros (Hp & Hlast & Hb & Hr). pose proof (pkt_blocks_spec p). split_and!; [|done..|].
  - by eapply pkt_at_frame.
  - apply IH; [done|lia|done].
Qed.

Lemma seg_le m last ps e : forall pos, seg m last pos ps e -> pos <= e.
Proof.
  induction ps as [|p ps IH]; intros pos; simpl; [lia|].
  intros (_ & _ & _ & Hr). pose proof (pkt_blocks_spec p). apply IH in Hr. lia.
Qed.

Lemma seg_nil m last pos ps : seg m last pos ps pos -> ps = [].
Proof.
  destruct ps as [|p ps]; [done|]. simpl. pose proof (pkt_blocks_spec p). lia.
Qed.

Lemma seg_snoc m last ps p e : forall pos,
  seg m last pos ps e -> pkt_at m e p -> e <= last -> seg m last pos (ps ++ [p]) (e + pkt_blocks p).
Proof.
  induction ps as [|x ps IH]; intros pos; simpl.
  - intros -> ??. split_and!; [done|lia|lia|done].
  - intros (H1 & H2 & H3 & H4) Hp He. pose proof (pkt_blocks_spec p).
    split_and!; [done|done|lia|by apply IH].
Qed.

Lemma block_len_pkt b pos p : pkt_at (cb_buffer b) pos p -> block_len b pos = Some (zlen p).
Proof.
  intros (H0 & H1 & H2 & H3 & H4). unfold block_len, sizeof_block.
  rewrite mem_read_Some by lia. rewrite H3. pose proof (zlen_nonneg p).
  rewrite to_int_id by lia. done.
Qed.

(** ** The pointers are recomputed correctly *)

Definition in_ok (b : ChunkBuffer2) : Prop :=
  if cb_free b >? 0
  then cb_input_dest b = Some (4 * (ChunkBuffer2_end b + 1)) /\ cb_input_avail b = (cb_free b - 1) * 4
  else cb_input_dest b = None /\ cb_input_avail b = -1.

Definition out_ok (b : ChunkBuffer2) (q : list (list Z)) : Prop :=
  match q with
  | [] => cb_output_dest b = None /\ cb_output_avail b = -1
  | p :: _ => cb_output_dest b = Some (4 * (cb_start b + 1)) /\ cb_output_avail b = zlen p /\
              slice (4 * (cb_start b + 1)) (zlen p) (cb_buffer b) = p
  end.

Lemma cb_io_split b q : cb_io b q <-> in_ok b /\ out_ok b q.
Proof. done. Qed.

(** Where the next packet goes and how much room there is, case by case. *)
Lemma straight_end b q :
  cb_ok b -> cb_straight b q ->
  ChunkBuffer2_end b = cb_start b + cb_used b /\ cb_free b = cb_size b - (cb_start b + cb_used b) /\
  (cb_used b >=? cb_wrap b - cb_start b) = false.
Proof.
  intros [] (Hw & Hl & _). unfold cb_free, ChunkBuffer2_end, last_start in *.
  assert ((cb_used b >=? cb_wrap b - cb_start b) = false) as -> by lia. lia.
Qed.

Lemma wrapped_end b q1 q2 e :
  cb_ok b -> cb_wrapped b q1 q2 e ->
  ChunkBuffer2_end b = e /\ cb_free b = cb_start b - e /\
  (cb_used b >=? cb_wrap b - cb_start b) = true.
Proof.
  intros [] (Hu & He & _). unfold cb_free, ChunkBuffer2_end in *.
  assert ((cb_used b >=? cb_wrap b - cb_start b) = true) as -> by lia. lia.
Qed.

Lemma cb_end_bound b q :
  cb_data b q -> 0 <= ChunkBuffer2_end b <= last_start b /\ cb_free b <= cb_size b - ChunkBuffer2_end b.
Proof.
  intros [Hok [Hs | (q1 & q2 & e & _ & Hw)]].
  - destruct (straight_end b q Hok Hs) as (-> & -> & _). destruct Hok, Hs as (?&?&?). lia.
  - destruct (wrapped_end b _ _ _ Hok Hw) as (-> & -> & _).
    destruct Hok, Hw as (?&?&?&?&?&?). lia.
Qed.

Lemma cb_data_set_input b q d a : cb_data b q -> cb_data (set_input b d a) q.
Proof. intros [[] H]. split; [split; done|exact H]. Qed.

Lemma cb_data_set_output b q d a : cb_data b q -> cb_data (set_output b d a) q.
Proof. intros [[] H]. split; [split; done|exact H]. Qed.

Lemma update_input_spec b q :
  cb_data b q ->
  exists d a, ChunkBuffer2_update_input b = set_input b d a /\ in_ok (set_input b d a).
Proof.
  intros Hd. pose proof (cb_end_bound _ _ Hd) as (He & Hf). destruct Hd as [[] _].
  unfold ChunkBuffer2_update_input. unfold last_start in *.
  rewrite (proj2 (Z.ltb_ge _ _)) by lia.
  change (if cb_used b >=? cb_wrap b - cb_start b then cb_start b - ChunkBuffer2_end b
          else cb_size b - ChunkBuffer2_end b) with (cb_free b).
  unfold in_ok, sizeof_block. destruct (cb_free b >? 0) eqn:E; do 2 eexists; (split; [done|]);
    change (cb_free (set_input b ?x ?y)) with (cb_free b); rewrite E; simpl; [|done].
  rewrite to_int_id by lia. done.
Qed.

Lemma cb_head b p q :
  cb_data b (p :: q) ->
  pkt_at (cb_buffer b) (cb_start b) p /\ pkt_blocks p <= cb_used b /\
  pkt_blocks p <= cb_wrap b - cb_start b.
Proof.
  intros [[] [(Hw & Hl & Hs) | (q1 & q2 & e & Hq & Hw)]].
  - simpl in Hs. destruct Hs as (? & ? & ? & _). unfold last_start in *. split_and!; [done|lia|lia].
  - destruct Hw as (?&?&?&?&?&Hs1&Hs2). destruct q1 as [|p' q1].
    + simpl in Hs1. lia.
    + injection Hq as -> ->. simpl in Hs1. destruct Hs1 as (? & ? & ? & _). split_and!; [done|lia|lia].
Qed.

Lemma cb_used_zero b q : cb_data b q -> cb_used b = 0 <-> q = [].
Proof.
  intros Hd. split.
  - intros Hu. destruct q as [|p q]; [done|]. destruct (cb_head _ _ _ Hd) as (_ & ? & _).
    pose proof (pkt_blocks_spec p). lia.
  - intros ->. destruct Hd as [[] [(Hw & Hl & Hs) | (q1 & q2 & e & Hq & Hw)]].
    + simpl in Hs. lia.
    + symmetry in Hq. apply app_nil in Hq as [-> ->].
      destruct Hw as (?&?&?&?&?&Hs1&Hs2). simpl in Hs1. lia.
Qed.

Lemma update_output_spec b q :
  cb_data b q ->
  exists d a, ChunkBuffer2_update_output b = Some (set_output b d a) /\ out_ok (set_output b d a) q.
Proof.
  intros Hd. pose proof (cb_used_zero _ _ Hd) as Hz.
  unfold ChunkBuffer2_update_output. destruct q as [|p q].
  - rewrite (proj2 Hz) by done. simpl. by do 2 eexists.
  - destruct (cb_head _ _ _ Hd) as (Hp & Hu & Hw). pose proof (pkt_blocks_spec p).
    rewrite (Z.gtb_ltb _ _), (proj2 (Z.ltb_lt _ _)) by lia.
    rewrite (block_len_pkt _ _ _ Hp). unfold pkt_blocks in *. pose proof (zlen_nonneg p).
    assert_true. assert_true. assert_true.
    do 2 eexists. split; [done|]. unfold sizeof_block. simpl. split_and!; [done..|].
    by destruct Hp as (_&_&_&_&?).
Qed.

(** ** Init, submit and consume refine the queue operations *)

Lemma cb_init_rel m blocks mtu :
  zlen m = 4 * blocks -> 4 * blocks <= INT_MAX -> 0 <= mtu -> bdivide_up mtu 4 < blocks ->
  exists b, ChunkBuffer2_Init m blocks mtu = Some b /\ cb_rel b [] /\
    cb_size b = blocks /\ cb_mtu b = bdivide_up mtu 4.
Proof.
  intros Hm Hb Ht Hlt. pose proof (bdivide_up_nonneg mtu 4 ltac:(lia) ltac:(lia)).
  unfold ChunkBuffer2_Init. assert_true. assert_true. unfold sizeof_block.
  set (b0 := mkCB _ _ _ _ _ _ _ _ _ _).
  assert (cb_data b0 []) as Hd.
  { split; [split; simpl; lia|]. left. unfold cb_straight, last_start. simpl. lia. }
  destruct (update_input_spec _ _ Hd) as (d & a & -> & Hin).
  destruct (update_output_spec _ _ (cb_data_set_input _ _ d a Hd)) as (d' & a' & -> & Hout).
  eexists. split; [done|]. split_and!; [|done..]. split.
  - by apply cb_data_set_output, cb_data_set_input.
  - split; done.
Qed.

(** Writing inside the free blocks leaves the queued packets alone. *)
Lemma cb_data_write b q off bs m' :
  cb_data b q -> mem_write off bs (cb_buffer b) = Some m' ->
  4 * ChunkBuffer2_end b <= off -> off + zlen bs <= 4 * (ChunkBuffer2_end b + cb_free b) ->
  cb_data (with_buffer b m') q.
Proof.
  intros [Hok Hd] Hw Ho1 Ho2. pose proof Hok as [].
  destruct (mem_write_zlen _ _ _ _ Hw) as (Hl & _).
  split; [split; simpl; try done; lia|].
  destruct Hd as [Hs | (q1 & q2 & e & Hq & Hwr)].
  - left. destruct (straight_end _ _ Hok Hs) as (He & Hf & _). rewrite He, Hf in *.
    destruct Hs as (? & ? & Hseg). split_and!; [done..|].
    eapply seg_frame; [|done|exact Hseg]. eapply same_blocks_write; [done|simpl; lia|simpl; lia].
  - right. exists q1, q2, e. split; [done|].
    destruct (wrapped_end _ _ _ _ Hok Hwr) as (He & Hf & _). rewrite He, Hf in *.
    destruct Hwr as (? & ? & ? & ? & ? & Hs1 & Hs2). split_and!; try done; simpl; try lia.
    + eapply seg_frame; [|apply Z.le_refl|exact Hs1]. eapply same_blocks_write; [done|simpl; lia|simpl; lia].
    + eapply seg_frame; [|done|exact Hs2]. eapply same_blocks_write; [done|simpl; lia|simpl; lia].
Qed.

Lemma out_ok_data b q :
  cb_data b q -> out_ok b q <->
  match q with
  | [] => cb_output_dest b = None /\ cb_output_avail b = -1
  | p :: _ => cb_output_dest b = Some (4 * (cb_start b + 1)) /\ cb_output_avail b = zlen p
  end.
Proof.
  intros Hd. destruct q as [|p q]; simpl; [done|].
  destruct (cb_head _ _ _ Hd) as ((_&_&_&_&Hp) & _). split; [by intros (?&?&_) | by intros [? ?]; split_and!].
Qed.

Lemma cb_in_some b q d :
  cb_rel b q -> cb_input_dest b = Some d ->
  0 < cb_free b /\ d = 4 * (ChunkBuffer2_end b + 1) /\ cb_input_avail b = (cb_free b - 1) * 4.
Proof.
  intros [_ [Hin _]] Hd. destruct (cb_free b >? 0) eqn:E; destruct Hin as [Hi Ha].
  - rewrite Hi in Hd. injection Hd as <-. lia.
  - congruence.
Qed.

Lemma cb_write_at b q d off bs :
  cb_rel b q -> cb_input_dest b = Some d -> d <= off -> off + zlen bs <= d + cb_input_avail b ->
  exists m', mem_write off bs (cb_buffer b) = Some m' /\ cb_rel (with_buffer b m') q.
Proof.
  intros Hr Hd Ho Hp. destruct (cb_in_some _ _ _ Hr Hd) as (Hf & -> & Ha).
  destruct Hr as [Hdata [Hin Hout]]. destruct (cb_end_bound _ _ Hdata) as (He & Hfs).
  pose proof Hdata as [[] _]. pose proof (zlen_nonneg bs).
  destruct (mem_write_Some off bs (cb_buffer b)) as (m' & Hw & Hl); [lia..|].
  exists m'. split; [done|].
  assert (cb_data (with_buffer b m') q) as Hd' by (eapply cb_data_write; eauto; lia).
  split; [done|]. split; [done|].
  apply (out_ok_data _ _ Hd'). by apply (out_ok_data _ _ Hdata).
Qed.

Lemma cb_write b q d p :
  cb_rel b q -> cb_input_dest b = Some d -> zlen p <= cb_input_avail b ->
  exists m', mem_write d p (cb_buffer b) = Some m' /\ cb_rel (with_buffer b m') q /\
    slice d (zlen p) m' = p.
Proof.
  intros Hr Hd Hp. destruct (cb_write_at b q d d p Hr Hd) as (m' & Hw & Hr'); [lia..|].
  exists m'. split_and!; [done|done|by eapply slice_write_same].
Qed.

(** The state after [SubmitPacket] has stored the header and moved its fields. *)
Definition submitted (b : ChunkBuffer2) (m : list Z) (blocklen : Z) : ChunkBuffer2 :=
  mkCB m (cb_size b)
    (if (cb_used b + (1 + blocklen) <=? cb_wrap b - cb_start b) &&
        (cb_mtu b >? cb_size b - (ChunkBuffer2_end b + 1 + blocklen) - 1)
     then ChunkBuffer2_end b + 1 + blocklen else cb_wrap b)
    (cb_start b) (cb_used b + (1 + blocklen)) (cb_mtu b)
    (cb_input_dest b) (cb_input_avail b) (cb_output_dest b) (cb_output_avail b).

Lemma submitted_data b q p m :
  cb_data b q -> pkt_at m (ChunkBuffer2_end b) p -> pkt_blocks p <= cb_free b ->
  cb_data (with_buffer b m) q -> cb_data (submitted b m (pkt_blocks p - 1)) (q ++ [p]).
Proof.
  intros [Hok Hd] Hp Hfit [Hok' Hd']. pose proof Hok as []. pose proof Hok' as [Hm _ _ _ _].
  pose proof (pkt_blocks_spec p).
  split; [split; simpl in *; lia|].
  destruct Hd as [Hs | (q1 & q2 & e & Hq & Hwr)].
  - destruct (straight_end _ _ Hok Hs) as (He & Hf & Hc). rewrite He, Hf in *.
    destruct Hd' as [Hs' | (q1 & q2 & e & Hq & Hwr)].
    2: { destruct (wrapped_end _ _ _ _ Hok' Hwr) as (_ & _ & Hc').
         exfalso. revert Hc Hc'. cbn. intros -> ?. done. }
    destruct Hs as (Hw & Hl & _). destruct Hs' as (_ & _ & Hseg). cbn in Hseg, Hl.
    assert (seg m (last_start b) (cb_start b) (q ++ [p]) (cb_start b + cb_used b + pkt_blocks p)) as Hseg'.
    { by apply seg_snoc. }
    unfold last_start in *.
    destruct (cb_mtu b >? cb_size b - (cb_start b + cb_used b + 1 + (pkt_blocks p - 1)) - 1) eqn:Em.
    + right. exists (q ++ [p]), [], 0. rewrite app_nil_r. split; [done|].
      unfold submitted, cb_wrapped, last_start. rewrite He, Em, andb_true_r. cbn.
      rewrite (proj2 (Z.leb_le _ _)) by lia.
      split_and!; try lia. rewrite <- !Z.add_assoc.
      replace (1 + (pkt_blocks p - 1)) with (pkt_blocks p) by lia. by rewrite Z.add_assoc.
    + left. unfold submitted, cb_straight, last_start. rewrite He, Em, andb_false_r. cbn.
      split_and!; [done|lia|].
      by replace (cb_start b + (cb_used b + (1 + (pkt_blocks p - 1))))
        with (cb_start b + cb_used b + pkt_blocks p) by lia.
  - right. destruct (wrapped_end _ _ _ _ Hok Hwr) as (He & Hf & Hc). rewrite He, Hf in *.
    destruct Hd' as [Hs' | (q1' & q2' & e' & Hq' & Hwr')].
    { destruct (straight_end _ _ Hok' Hs') as (_ & _ & Hc').
      exfalso. revert Hc Hc'. cbn. intros -> ?. done. }
    destruct (wrapped_end _ _ _ _ Hok' Hwr') as (He' & _).
    change (ChunkBuffer2_end (with_buffer b m)) with (ChunkBuffer2_end b) in He'.
    assert (e' = e) as -> by lia. clear He'.
    destruct Hwr' as (Hu & H2 & H3 & H4 & H5 & Hs1 & Hs2). cbn in *.
    exists q1', (q2' ++ [p]), (e + pkt_blocks p). rewrite Hq', <- app_assoc. split; [done|].
    unfold submitted, cb_wrapped, last_start in *. cbn in *.
    rewrite (proj2 (Z.leb_gt _ _)) by lia. cbn.
    split_and!; try lia; [done|]. apply seg_snoc; [done|done|lia].
Qed.

Lemma submit_rel b q d p :
  cb_rel b q -> cb_input_dest b = Some d -> zlen p <= cb_input_avail b ->
  slice d (zlen p) (cb_buffer b) = p ->
  exists b', ChunkBuffer2_SubmitPacket b (zlen p) = Some b' /\ cb_rel b' (q ++ [p]) /\
    cb_size b' = cb_size b /\ cb_mtu b' = cb_mtu b /\
    (q <> [] -> cb_output_dest b' = cb_output_dest b).
Proof.
  intros Hr Hd Hp Hsl. destruct (cb_in_some _ _ _ Hr Hd) as (Hf & -> & Ha).
  destruct Hr as [Hdata [Hin Hout]]. destruct (cb_end_bound _ _ Hdata) as (He & Hfs).
  pose proof Hdata as [[] Hcase]. pose proof (zlen_nonneg p). pose proof (pkt_blocks_spec p).
  assert (pkt_blocks p <= cb_free b) as Hfit by lia.
  unfold ChunkBuffer2_SubmitPacket. rewrite Hd, bool_decide_true by eauto.
  assert_true. assert_true. unfold pkt_blocks in *.
  set (bl := bdivide_up (zlen p) sizeof_block) in *.
  assert_true.
  assert ((cb_used b <? cb_wrap b - cb_start b) || (bl <=? cb_start b - ChunkBuffer2_end b - 1) = true) as ->.
  { unfold cb_free in Hfit. destruct (cb_used b >=? cb_wrap b - cb_start b) eqn:E; lia. }
  destruct (mem_write_Some (4 * ChunkBuffer2_end b) (le32 (zlen p)) (cb_buffer b)) as (m & Hw & Hl);
    [lia | rewrite zlen_le32; lia |].
  unfold sizeof_block at 1. rewrite Hw.
  assert (pkt_at m (ChunkBuffer2_end b) p) as Hpk.
  { split_and!; [lia|lia|lia| |].
    - pose proof (slice_write_same _ _ _ _ Hw) as Hsw. rewrite zlen_le32 in Hsw.
      rewrite Hsw. apply ld32_le32.
      unfold INT_MAX in *. lia.
    - rewrite <- Hsl at 2. eapply slice_write_disj; [exact Hw|lia|]. rewrite zlen_le32. lia. }
  assert (cb_data (with_buffer b m) q) as Hwb.
  { eapply cb_data_write; [done..|lia|]. rewrite zlen_le32. lia. }
  pose proof (submitted_data b q p m Hdata Hpk ltac:(unfold pkt_blocks; lia) Hwb) as Hsub.
  unfold pkt_blocks in Hsub. fold bl in Hsub. replace (1 + bl - 1) with bl in Hsub by lia.
  unfold submitted in Hsub. rewrite Hd in Hsub.
  match type of Hsub with cb_data ?x _ => set (b1 := x) in * end.
  destruct (update_input_spec _ _ Hsub) as (d1 & a1 & Hui & Hin1). rewrite Hui.
  pose proof (cb_data_set_input _ _ d1 a1 Hsub) as Hsub1.
  destruct (cb_used b + (1 + bl) =? 1 + bl) eqn:Eu.
  - destruct (update_output_spec _ _ Hsub1) as (d2 & a2 & Huo & Hout2). rewrite Huo.
    eexists. split; [done|]. split_and!; [|done..|].
    { split; [by apply cb_data_set_output|]. split; done. }
    intros Hq. destruct Hq. apply (cb_used_zero _ _ Hdata). lia.
  - eexists. split; [done|]. split_and!; [|done..]. split; [done|]. split; [done|].
    apply (out_ok_data _ _ Hsub1). apply (out_ok_data _ _ Hdata) in Hout.
    destruct q as [|p0 q]; [|exact Hout].
    pose proof (proj2 (cb_used_zero _ _ Hdata) eq_refl). lia.
Qed.

(** The state after [ConsumePacket] has moved its fields. *)
Definition consumed (b : ChunkBuffer2) (n : Z) : ChunkBuffer2 :=
  let '(s, w) := if cb_start b + n =? cb_wrap b then (0, cb_size b) else (cb_start b + n, cb_wrap b) in
  mkCB (cb_buffer b) (cb_size b) w s (cb_used b - n) (cb_mtu b)
    (cb_input_dest b) (cb_input_avail b) (cb_output_dest b) (cb_output_avail b).

Lemma consumed_data b p q :
  cb_data b (p :: q) ->
  cb_data (consumed b (pkt_blocks p)) q /\
  ChunkBuffer2_end (consumed b (pkt_blocks p)) = ChunkBuffer2_end b /\
  cb_free b <= cb_free (consumed b (pkt_blocks p)) /\
  ((cb_used b >=? cb_wrap b - cb_start b) = false ->
   cb_free (consumed b (pkt_blocks p)) = cb_free b).
Proof.
  intros Hd. destruct (cb_head _ _ _ Hd) as (Hp & Hu & Hw). pose proof (pkt_blocks_spec p) as Hpb.
  destruct Hd as [Hok Hd]. pose proof Hok as [].
  destruct Hd as [Hs | (q1 & q2 & e & Hq & Hwr)].
  - destruct (straight_end _ _ Hok Hs) as (He & Hf & Hc). rewrite He, Hf.
    destruct Hs as (Hw1 & Hw2 & (_ & _ & Hle & Hseg)). unfold last_start in *.
    assert ((cb_start b + pkt_blocks p =? cb_wrap b) = false) as E by lia.
    assert (cb_ok (consumed b (pkt_blocks p)) /\ cb_straight (consumed b (pkt_blocks p)) q) as [Hok2 Hs2].
    { unfold consumed. rewrite E. split; [split; simpl; lia|]. split_and!; simpl; [lia| unfold last_start; simpl; lia|].
      by replace (cb_start b + pkt_blocks p + (cb_used b - pkt_blocks p)) with (cb_start b + cb_used b) by lia. }
    destruct (straight_end _ _ Hok2 Hs2) as (He2 & Hf2 & _). rewrite He2, Hf2.
    split; [by split; [|left]|]. unfold consumed. rewrite E. simpl. lia.
  - destruct (wrapped_end _ _ _ _ Hok Hwr) as (He & Hf & Hc). rewrite He, Hf, Hc.
    destruct Hwr as (Hu2 & H2 & H3 & H4 & H5 & Hs1 & Hs2).
    destruct q1 as [|p' q1]; [simpl in Hs1; lia|]. injection Hq as <- ->.
    destruct Hs1 as (_ & _ & Hle & Hseg).
    destruct (Z.eqb_spec (cb_start b + pkt_blocks p) (cb_wrap b)) as [E|E].
    + rewrite E in Hseg. apply seg_nil in Hseg as ->.
      assert (cb_ok (consumed b (pkt_blocks p)) /\ cb_straight (consumed b (pkt_blocks p)) q2) as [Hok2 Hst].
      { unfold consumed. rewrite (proj2 (Z.eqb_eq _ _) E). split; [split; simpl; lia|].
        split_and!; simpl; [lia|unfold last_start in *; simpl; lia|].
        by replace (cb_used b - pkt_blocks p) with e by lia. }
      destruct (straight_end _ _ Hok2 Hst) as (He2 & Hf2 & _). rewrite He2, Hf2.
      split; [by split; [|left]|]. unfold consumed. rewrite (proj2 (Z.eqb_eq _ _) E). simpl. lia.
    + destruct q1 as [|p1 q1]; [simpl in Hseg; lia|].
      assert (cb_ok (consumed b (pkt_blocks p)) /\
              cb_wrapped (consumed b (pkt_blocks p)) (p1 :: q1) q2 e) as [Hok2 Hst].
      { unfold consumed. rewrite (proj2 (Z.eqb_neq _ _) E). split; [split; simpl; lia|].
        pose proof Hseg as (_ & ? & _). split_and!; simpl; try done; try lia. }
      destruct (wrapped_end _ _ _ _ Hok2 Hst) as (He2 & Hf2 & _). rewrite He2, Hf2.
      split; [split; [done|right; by exists (p1 :: q1), q2, e]|].
      unfold consumed. rewrite (proj2 (Z.eqb_neq _ _) E). simpl. lia.
Qed.

Lemma consume_rel b p q :
  cb_rel b (p :: q) ->
  exists b', ChunkBuffer2_ConsumePacket b = Some b' /\ cb_rel b' q /\
    cb_buffer b' = cb_buffer b /\ cb_size b' = cb_size b /\ cb_mtu b' = cb_mtu b /\
    cb_input_avail b <= cb_input_avail b' /\
    (forall d, cb_input_dest b = Some d -> cb_input_dest b' = Some d).
Proof.
  intros [Hdata [Hin Hout]]. destruct (consumed_data _ _ _ Hdata) as (Hc & He & Hf & Hfe).
  destruct (cb_head _ _ _ Hdata) as (Hp & Hu & Hw). pose proof (pkt_blocks_spec p) as Hpb.
  unfold ChunkBuffer2_ConsumePacket. destruct Hout as (Hod & _).
  rewrite Hod, bool_decide_true by eauto. assert_true. assert_true.
  rewrite (block_len_pkt _ _ _ Hp). change (1 + bdivide_up (zlen p) sizeof_block) with (pkt_blocks p).
  unfold pkt_blocks in Hu, Hw, Hpb. assert_true. assert_true. fold (pkt_blocks p) in Hu, Hw, Hpb.
  set (c := consumed b (pkt_blocks p)) in *.
  assert ((let '(start', wrap') := if cb_start b + pkt_blocks p =? cb_wrap b then (0, cb_size b)
     else (cb_start b + pkt_blocks p, cb_wrap b) in
     ChunkBuffer2_update_output
       (if cb_used b >=? cb_wrap b - cb_start b
        then ChunkBuffer2_update_input
          (mkCB (cb_buffer b) (cb_size b) wrap' start' (cb_used b - pkt_blocks p) (cb_mtu b)
             (cb_input_dest b) (cb_input_avail b) (Some (4 * (cb_start b + 1))) (cb_output_avail b))
        else mkCB (cb_buffer b) (cb_size b) wrap' start' (cb_used b - pkt_blocks p) (cb_mtu b)
             (cb_input_dest b) (cb_input_avail b) (Some (4 * (cb_start b + 1))) (cb_output_avail b)))
     = ChunkBuffer2_update_output
         (if cb_used b >=? cb_wrap b - cb_start b then ChunkBuffer2_update_input c else c)) as ->.
  { unfold c, consumed. rewrite Hod.
    destruct (_ =? _); done. }
  assert (cb_buffer c = cb_buffer b /\ cb_size c = cb_size b /\ cb_mtu c = cb_mtu b /\
          cb_input_dest c = cb_input_dest b /\ cb_input_avail c = cb_input_avail b) as (C1 & C2 & C3 & C4 & C5).
  { unfold c, consumed. destruct (_ =? _); done. }
  assert (exists c', (if cb_used b >=? cb_wrap b - cb_start b then ChunkBuffer2_update_input c else c) = c' /\
    cb_data c' q /\ in_ok c' /\ cb_free c' = cb_free c /\ ChunkBuffer2_end c' = ChunkBuffer2_end c /\
    cb_buffer c' = cb_buffer b /\ cb_size c' = cb_size b /\ cb_mtu c' = cb_mtu b)
    as (c' & -> & Hc' & Hin' & Hf' & He' & B1 & B2 & B3).
  { destruct (cb_used b >=? cb_wrap b - cb_start b) eqn:E.
    - destruct (update_input_spec _ _ Hc) as (d & a & -> & ?). eexists. split; [done|].
      split_and!; try done. by apply cb_data_set_input.
    - exists c. split; [done|]. split_and!; try done. unfold in_ok. rewrite C4, C5, He, Hfe by done. exact Hin. }
  destruct (update_output_spec _ _ Hc') as (d2 & a2 & -> & Hout2).
  eexists. split; [done|]. split; [split; [by apply cb_data_set_output|split; done]|].
  split_and!; [done..| |].
  - simpl. unfold in_ok in Hin'. revert Hin Hin'.
    destruct (cb_free b >? 0) eqn:E1; destruct (cb_free c' >? 0) eqn:E2; intros [_ ?] [_ ?]; lia.
  - intros d Hd. simpl. unfold in_ok in Hin'. revert Hin Hin'.
    destruct (cb_free b >? 0) eqn:E1; intros [Hi _]; [|congruence].
    destruct (cb_free c' >? 0) eqn:E2; [|lia]. intros [-> _]. rewrite He', He, <- Hi. done.
Qed.

(** ** Capacity *)

Lemma calc_blocks_spec chunk_len num r :
  0 <= chunk_len <= INT_MAX -> 0 <= num <= INT_MAX ->
  ChunkBuffer2_calc_blocks chunk_len num = r ->
  r = -1 \/ (r = (1 + bdivide_up chunk_len 4) * (num + 1) /\ 0 < r <= INT_MAX).
Proof.
  intros Hc Hn <-. unfold ChunkBuffer2_calc_blocks, sizeof_block.
  pose proof (bdivide_up_nonneg chunk_len 4 ltac:(lia) ltac:(lia)).
  destruct (_ >? _); [by left|]. destruct (num >? _); [by left|].
  destruct (1 + bdivide_up chunk_len 4 >? INT_MAX / (num + 1)) eqn:E; [by left|]. right.
  split; [done|]. split; [nia|].
  assert (1 + bdivide_up chunk_len 4 <= INT_MAX / (num + 1)) as Hle by lia.
  apply Z.le_trans with ((INT_MAX / (num + 1)) * (num + 1)); [nia|].
  rewrite Z.mul_comm. apply Z.mul_div_le. lia.
Qed.

Lemma seg_blocks m last bound e ps : forall pos,
  Forall (fun p => pkt_blocks p <= bound) ps -> seg m last pos ps e ->
  e - pos <= bound * zlen ps.
Proof.
  induction ps as [|p ps IH]; intros pos Hf; simpl.
  - intros ->. rewrite zlen_nil. lia.
  - intros (_ & _ & _ & Hs). apply Forall_cons_1 in Hf as [Hp Hf].
    specialize (IH _ Hf Hs). rewrite zlen_cons. lia.
Qed.

Lemma pkt_blocks_bound p n : zlen p <= n -> pkt_blocks p <= 1 + bdivide_up n 4.
Proof.
  intros. unfold pkt_blocks, sizeof_block. pose proof (zlen_nonneg p).
  pose proof (bdivide_up_mono (zlen p) n 4). lia.
Qed.

(** With fewer than [num] packets queued there is room for another one. *)
Lemma cb_capacity b q n num :
  cb_rel b q -> 0 <= n -> cb_mtu b = bdivide_up n 4 -> cb_size b = (1 + bdivide_up n 4) * (num + 1) ->
  Forall (fun p => zlen p <= n) q -> zlen q < num ->
  exists d, cb_input_dest b = Some d /\ n <= cb_input_avail b.
Proof.
  intros [[Hok Hd] [Hin _]] Hn Hm Hs Hf Hq.
  pose proof (bdivide_up_spec n 4 ltac:(lia) ltac:(lia)).
  assert (1 + bdivide_up n 4 <= cb_free b) as Hfree.
  { destruct Hd as [Hst | (q1 & q2 & e & -> & Hw)].
    - destruct (straight_end _ _ Hok Hst) as (_ & -> & _). destruct Hst as (_ & ? & _).
      unfold last_start in *. lia.
    - destruct (wrapped_end _ _ _ _ Hok Hw) as (_ & -> & _).
      destruct Hw as (? & ? & ? & ? & ? & Hs1 & Hs2). unfold last_start in *.
      rewrite zlen_app in Hq. apply Forall_app in Hf as [Hf1 Hf2].
      assert (forall l, Forall (fun p => zlen p <= n) l ->
        Forall (fun p => pkt_blocks p <= 1 + bdivide_up n 4) l) as Hb.
      { intros l Hl. eapply Forall_impl; [|exact Hl]. intros. by apply pkt_blocks_bound. }
      pose proof (seg_blocks _ _ _ _ _ _ (Hb _ Hf1) Hs1).
      pose proof (seg_blocks _ _ _ _ _ _ (Hb _ Hf2) Hs2). nia. }
  rewrite Z.gtb_ltb, (proj2 (Z.ltb_lt _ _)) in Hin by lia. destruct Hin as [-> ->].
  eexists. split; [done|]. lia.
Qed.

(** ** The buffer as a FIFO *)

Inductive cb_op := CbPut (p : list Z) | CbGet.

(** Writing a packet at [input_dest] and submitting it; reading the packet at
    [output_dest] and consuming it. *)
Definition cb_exec (b : ChunkBuffer2) (o : cb_op) : option (ChunkBuffer2 * list (list Z)) :=
  match o with
  | CbPut p =>
      let* d := cb_input_dest b in
      let* m := mem_write d p (cb_buffer b) in
      let* b' := ChunkBuffer2_SubmitPacket (with_buffer b m) (zlen p) in
      Some (b', [])
  | CbGet =>
      let* d := cb_output_dest b in
      let* p := mem_read d (cb_output_avail b) (cb_buffer b) in
      let* b' := ChunkBuffer2_ConsumePacket b in
      Some (b', [p])
  end.

(** The specification: a queue of at most [num] packets of at most [n] bytes. *)
Definition fifo_exec (n num : Z) (q : list (list Z)) (o : cb_op)
  : option (list (list Z) * list (list Z)) :=
  match o with
  | CbPut p => if (zlen q <? num) && (zlen p <=? n) then Some (q ++ [p], []) else None
  | CbGet => match q with [] => None | p :: q => Some (q, [p]) end
  end.

Fixpoint run_ops {S} (exec : S -> cb_op -> option (S * list (list Z))) (s : S) (ops : list cb_op)
  : option (S * list (list Z)) :=
  match ops with
  | [] => Some (s, [])
  | o :: ops =>
      let* r := exec s o in
      let* r' := run_ops exec r.1 ops in
      Some (r'.1, r.2 ++ r'.2)
  end.

Definition cb_sim (n num : Z) (b : ChunkBuffer2) (q : list (list Z)) : Prop :=
  cb_rel b q /\ cb_mtu b = bdivide_up n 4 /\ cb_size b = (1 + bdivide_up n 4) * (num + 1) /\
  Forall (fun p => zlen p <= n) q.

Lemma cb_exec_sim n num b q o q' out :
  0 <= n -> cb_sim n num b q -> fifo_exec n num q o = Some (q', out) ->
  exists b', cb_exec b o = Some (b', out) /\ cb_sim n num b' q'.
Proof.
  intros Hn (Hr & Hm & Hs & Hf) He. destruct o as [p|]; simpl in *.
  - destruct ((zlen q <? num) && (zlen p <=? n)) eqn:E; [|done]. inv_some.
    destruct (cb_capacity _ _ _ _ Hr Hn Hm Hs Hf ltac:(lia)) as (d & Hd & Ha). rewrite Hd.
    destruct (cb_write b q d p Hr Hd ltac:(lia)) as (m' & Hw & Hr' & Hsl). rewrite Hw.
    destruct (submit_rel _ _ d p Hr' Hd) as (b' & Hsub & Hr2 & Hs2 & Hm2 & _); [simpl; lia|done|].
    rewrite Hsub. eexists. split; [done|]. split_and!; [done|rewrite Hm2; done|rewrite Hs2; done|].
    apply Forall_app; split; [done|]. apply Forall_cons_2; [lia|done].
  - destruct q as [|p q]; [done|]. inv_some.
    pose proof Hr as [Hd [_ (Ho & Hav & Hsl)]]. rewrite Ho, Hav.
    destruct (cb_head _ _ _ Hd) as ((? & ? & ? & ?) & ? & ?). pose proof (pkt_blocks_spec p).
    pose proof (zlen_nonneg p).
    assert (4 * (cb_start b + 1) + zlen p <= zlen (cb_buffer b)) as Hin.
    { destruct Hd as [[] [(? & ? & _) | (?&?&?&_&(?&?&?&?))]]; unfold last_start in *; lia. }
    rewrite mem_read_Some, Hsl by lia.
    destruct (consume_rel _ _ _ Hr) as (b' & -> & Hr' & _ & Hs' & Hm' & _).
    eexists. split; [done|]. apply Forall_cons_1 in Hf as [? ?].
    split_and!; [done|by rewrite Hm'|by rewrite Hs'|done].
Qed.

Lemma cb_run_sim n num ops : forall b q q' outs,
  0 <= n -> cb_sim n num b q -> run_ops (fifo_exec n num) q ops = Some (q', outs) ->
  exists b', run_ops cb_exec b ops = Some (b', outs) /\ cb_sim n num b' q'.
Proof.
  induction ops as [|o ops IH]; intros b q q' outs Hn Hs Hr; cbn [run_ops] in *.
  { inv_some. eauto. }
  destruct (fifo_exec n num q o) as [[q1 o1]|] eqn:E; [|done].
  destruct (run_ops _ (q1, o1).1 ops) as [[q2 o2]|] eqn:E2; [|done]. simpl in Hr. inv_some.
  destruct (cb_exec_sim _ _ _ _ _ _ _ Hn Hs E) as (b1 & -> & Hs1).
  destruct (IH _ _ _ _ Hn Hs1 E2) as (b2 & Hb2 & Hs2). simpl. rewrite Hb2. eauto.
Qed.

(** C11. A [ChunkBuffer2] of [ChunkBuffer2_calc_blocks(n, num)] blocks implements a
    FIFO queue of [num] packets of up to [n] bytes: every sequence of writes and
    reads the queue allows runs without failing an assertion or touching memory
    outside the buffer, and reads out exactly the queue's packets, whatever the
    wrap-around positions. *)
Theorem chunkbuffer_fifo (m : list Z) (n num : Z) (ops : list cb_op) q outs
    (Hn : 0 <= n <= INT_MAX) (Hnum : 0 < num <= INT_MAX)
    (Hm : zlen m = 4 * ChunkBuffer2_calc_blocks n num) (Hmax : zlen m <= INT_MAX)
    (Hspec : run_ops (fifo_exec n num) [] ops = Some (q, outs)) :
  exists b b', ChunkBuffer2_Init m (ChunkBuffer2_calc_blocks n num) n = Some b /\
    run_ops cb_exec b ops = Some (b', outs) /\ cb_rel b' q.
Proof.
  destruct (calc_blocks_spec n num _ ltac:(lia) ltac:(lia) eq_refl) as [E | [E Hpos]].
  { pose proof (zlen_nonneg m). lia. }
  pose proof (bdivide_up_nonneg n 4 ltac:(lia) ltac:(lia)).
  destruct (cb_init_rel m (ChunkBuffer2_calc_blocks n num) n) as (b & Hi & Hr & Hs & Ht);
    [done|lia|lia|nia|].
  assert (cb_sim n num b []) as Hsim by (split_and!; [done|done|by rewrite Hs|done]).
  destruct (cb_run_sim n num ops b [] q outs ltac:(lia) Hsim Hspec) as (b' & Hb' & (Hr' & _)).
  eauto.
Qed.

Lemma chunkbuffer_fifo_witness :
  let ops := [CbPut [1;2;3;4;5]; CbPut [6]; CbGet; CbPut [7;8;9;10;11]; CbGet; CbPut [12;13]; CbGet] in
  exists b b' q outs,
    ChunkBuffer2_Init (repeat 0 36) (ChunkBuffer2_calc_blocks 5 2) 5 = Some b /\
    run_ops cb_exec b ops = Some (b', outs) /\ outs = [[1;2;3;4;5]; [6]; [7;8;9;10;11]] /\ cb_rel b' q.
Proof.
  intros ops.
  assert (run_ops (fifo_exec 5 2) [] ops = Some ([[12;13]], [[1;2;3;4;5]; [6]; [7;8;9;10;11]]))
    as H by reflexivity.
  destruct (chunkbuffer_fifo (repeat 0 36) 5 2 ops _ _ ltac:(unfold INT_MAX; lia)
    ltac:(unfold INT_MAX; lia) ltac:(reflexivity) ltac:(unfold INT_MAX, zlen; simpl; lia) H)
    as (b & b' & H1 & H2 & H3).
  exists b, b', [[12;13]], [[1;2;3;4;5]; [6]; [7;8;9;10;11]]. auto.
Defined.
