(* ===== verification/PacketBuffer.v ===== *)
(** * [flow/PacketBuffer.c]: a FIFO between a packet source and a packet sink

    Packets are received into a [ChunkBuffer2] and sent from it; the data
    pointers given to both interfaces are offsets into the buffer's array. *)

From S2P Require Import Prelude ByteOrder Flow ChunkBuffer.

Record PacketBuffer := mkPB {
  input : PacketRecvInterface Z;
  input_mtu : Z;
  output : PacketPassInterface Z;
  buf : ChunkBuffer2
}.

Definition input_handler_done (b : PacketBuffer) (in_len : Z) : option PacketBuffer :=
  ASSERT (0 <=? in_len) ;;
  ASSERT (in_len <=? input_mtu b) ;;
  let was_empty := cb_output_avail (buf b) <? 0 in
  let* cb := ChunkBuffer2_SubmitPacket (buf b) in_len in
  let* inp := (if cb_input_avail cb >=? input_mtu b
               then let* d := cb_input_dest cb in PacketRecvInterface_Receiver_Recv (input b) d
               else Some (input b)) in
  let* out := (if was_empty
               then let* d := cb_output_dest cb in
                    PacketPassInterface_Sender_Send (output b) d (cb_output_avail cb)
               else Some (output b)) in
  Some (mkPB inp (input_mtu b) out cb).

Definition output_handler_done (b : PacketBuffer) : option PacketBuffer :=
  let was_full := cb_input_avail (buf b) <? input_mtu b in
  let* cb := ChunkBuffer2_ConsumePacket (buf b) in
  let* inp := (if was_full && (cb_input_avail cb >=? input_mtu b)
               then let* d := cb_input_dest cb in PacketRecvInterface_Receiver_Recv (input b) d
               else Some (input b)) in
  let* out := (if cb_output_avail cb >=? 0
               then let* d := cb_output_dest cb in
                    PacketPassInterface_Sender_Send (output b) d (cb_output_avail cb)
               else Some (output b)) in
  Some (mkPB inp (input_mtu b) out cb).

(** [malloc] allocates the array of blocks; the inner [None] is [fail0]. *)
Definition PacketBuffer_Init (malloc : Z -> option (list Z))
    (input : PacketRecvInterface Z) (output : PacketPassInterface Z) (num_packets : Z)
  : option (option PacketBuffer) :=
  ASSERT (ppi_mtu output >=? pri_mtu input) ;;
  ASSERT (num_packets >? 0) ;;
  let* inp := PacketRecvInterface_Receiver_Init input in
  let input_mtu := pri_mtu inp in
  let* out := PacketPassInterface_Sender_Init output in
  let num_blocks := ChunkBuffer2_calc_blocks input_mtu num_packets in
  if num_blocks <? 0 then Some None
  else match malloc (num_blocks * sizeof_block) with
  | None => Some None
  | Some m =>
      let* cb := ChunkBuffer2_Init m num_blocks input_mtu in
      let* d := cb_input_dest cb in
      let* inp := PacketRecvInterface_Receiver_Recv inp d in
      Some (Some (mkPB inp input_mtu out cb))
  end.

(** ** Histories

    The source takes the receive operation, writes a packet at the requested
    place and completes; the sink is called with a packet, which it reads from
    the buffer, and completes; done jobs call the component back. *)

Inductive pb_event :=
| BInOperation
| BInData (p : list Z)
| BInJobDone
| BOutOperation
| BOutDone
| BOutJobDone.

Definition pb_exec (b : PacketBuffer) (e : pb_event) : option (PacketBuffer * list (list Z)) :=
  match e with
  | BInOperation =>
      let* r := PacketRecvInterface_job_operation (input b) in
      Some (mkPB r.1 (input_mtu b) (output b) (buf b), [])
  | BInData p =>
      let* inp := PacketRecvInterface_Done (input b) (zlen p) in
      let* dst := pri_job_operation_data (input b) in
      let* m := mem_write dst p (cb_buffer (buf b)) in
      Some (mkPB inp (input_mtu b) (output b) (with_buffer (buf b) m), [])
  | BInJobDone =>
      let* r := PacketRecvInterface_job_done (input b) in
      let* b' := input_handler_done (mkPB r.1 (input_mtu b) (output b) (buf b)) r.2 in
      Some (b', [])
  | BOutOperation =>
      let* r := PacketPassInterface_job_operation (output b) in
      let '(o, (data, len)) := r in
      let* off := data in
      let* p := mem_read off len (cb_buffer (buf b)) in
      Some (mkPB (input b) (input_mtu b) o (buf b), [p])
  | BOutDone =>
      let* o := PacketPassInterface_Done (output b) in
      Some (mkPB (input b) (input_mtu b) o (buf b), [])
  | BOutJobDone =>
      let* o := PacketPassInterface_job_done (output b) in
      let* b' := output_handler_done (mkPB (input b) (input_mtu b) o (buf b)) in
      Some (b', [])
  end.

Fixpoint pb_run (b : PacketBuffer) (es : list pb_event) : option (PacketBuffer * list (list Z)) :=
  match es with
  | [] => Some (b, [])
  | e :: es =>
      let* r := pb_exec b e in
      let* s := pb_run r.1 es in
      Some (s.1, r.2 ++ s.2)
  end.

(** What the source, the sink and the job group may do. *)
Definition pb_enabled (b : PacketBuffer) (e : pb_event) : bool :=
  match e with
  | BInOperation => st_is (pri_state (input b)) ST_OPERATION_PENDING
  | BInData p => st_is (pri_state (input b)) ST_BUSY && (zlen p <=? pri_mtu (input b))
  | BInJobDone => st_is (pri_state (input b)) ST_DONE_PENDING
  | BOutOperation => st_is (ppi_state (output b)) ST_OPERATION_PENDING
  | BOutDone => st_is (ppi_state (output b)) ST_BUSY
  | BOutJobDone => st_is (ppi_state (output b)) ST_DONE_PENDING
  end.

Definition received (es : list pb_event) : list (list Z) :=
  mjoin ((fun e => match e with BInData p => [p] | _ => [] end) <$> es).

(** ** The invariant *)

Record pb_ok (num : Z) (b : PacketBuffer) (q : list (list Z)) : Prop := {
  pb_sim : cb_sim (input_mtu b) num (buf b) q;
  pb_mtu : 0 <= input_mtu b;
  pb_in_mtu : pri_mtu (input b) = input_mtu b;
  pb_out_mtu : input_mtu b <= ppi_mtu (output b);
  pb_in_user : pri_handler_done (input b) = true;
  pb_out_user : ppi_handler_done (output b) = true;
  pb_in : if cb_input_avail (buf b) >=? input_mtu b
          then pri_state (input b) <> ST_NONE /\
               pri_job_operation_data (input b) = cb_input_dest (buf b)
          else pri_state (input b) = ST_NONE;
  pb_in_done : pri_state (input b) = ST_DONE_PENDING ->
               0 <= pri_job_done_len (input b) <= input_mtu b;
  pb_out : match q with
           | [] => ppi_state (output b) = ST_NONE
           | p :: _ => ppi_state (output b) <> ST_NONE /\
               ppi_job_operation_data (output b) = cb_output_dest (buf b) /\
               ppi_job_operation_len (output b) = zlen p
           end
}.

(** The packet the source has written and the component has not taken yet. *)
Definition arriving (b : PacketBuffer) : list (list Z) :=
  match pri_state (input b), cb_input_dest (buf b) with
  | ST_DONE_PENDING, Some d => [slice d (pri_job_done_len (input b)) (cb_buffer (buf b))]
  | _, _ => []
  end.

(** The queued packets the sink has not been called with. *)
Definition waiting (b : PacketBuffer) (q : list (list Z)) : list (list Z) :=
  match ppi_state (output b) with
  | ST_OPERATION_PENDING => q
  | _ => tl q
  end.

Definition undelivered (b : PacketBuffer) (q : list (list Z)) : list (list Z) :=
  waiting b q ++ arriving b.

(** ** Lemmas *)

Lemma cb_avail_dest b q : cb_rel b q -> 0 <= cb_input_avail b -> exists d, cb_input_dest b = Some d.
Proof.
  intros [_ [Hin _]] Ha. destruct (cb_free b >? 0); destruct Hin as [-> Hav]; [eauto|lia].
Qed.

Lemma cb_dest_range b q d :
  cb_rel b q -> cb_input_dest b = Some d -> 0 <= d /\ d + cb_input_avail b <= zlen (cb_buffer b).
Proof.
  intros Hr Hd. destruct (cb_in_some _ _ _ Hr Hd) as (Hf & -> & ->).
  destruct Hr as [Hdata _]. pose proof (cb_end_bound _ _ Hdata). destruct Hdata as [[] _]. lia.
Qed.

Lemma cb_out_empty b q : cb_rel b q -> (cb_output_avail b <? 0) = bool_decide (q = []).
Proof.
  intros [_ [_ Ho]]. destruct q as [|p q].
  - destruct Ho as [_ ->]. done.
  - destruct Ho as (_ & -> & _). pose proof (zlen_nonneg p).
    rewrite bool_decide_false by done. lia.
Qed.

Lemma cb_out_read b p q :
  cb_rel b (p :: q) ->
  exists d, cb_output_dest b = Some d /\ mem_read d (zlen p) (cb_buffer b) = Some p.
Proof.
  intros [Hd [_ (Ho & Hav & Hsl)]]. rewrite Ho. eexists. split; [done|].
  destruct (cb_head _ _ _ Hd) as ((? & ? & ? & ?) & ? & ?). pose proof (pkt_blocks_spec p).
  pose proof (zlen_nonneg p).
  assert (4 * (cb_start b + 1) + zlen p <= zlen (cb_buffer b)) as Hin.
  { destruct Hd as [[] [(? & ? & _) | (?&?&?&_&(?&?&?&?))]]; unfold last_start in *; lia. }
  by rewrite mem_read_Some, Hsl by lia.
Qed.

Lemma cb_sim_intro n num b q b' q' :
  cb_sim n num b q -> cb_rel b' q' -> cb_size b' = cb_size b -> cb_mtu b' = cb_mtu b ->
  Forall (fun p => zlen p <= n) q' -> cb_sim n num b' q'.
Proof. intros (_ & H1 & H2 & _) ????. unfold cb_sim. split_and!; congruence. Qed.

Section Steps.
Variable num : Z.

(** Each event preserves the invariant and moves packets along the queue. *)
Definition pb_step_ok (b : PacketBuffer) (q : list (list Z)) (e : pb_event) : Prop :=
  exists b' q' outs, pb_exec b e = Some (b', outs) /\ pb_ok num b' q' /\
    undelivered b q ++ received [e] = outs ++ undelivered b' q'.

Lemma pb_in_operation b q :
  pb_ok num b q -> pri_state (input b) = ST_OPERATION_PENDING -> pb_step_ok b q BInOperation.
Proof.
  intros [Hs ? ? ? ? ? Hi Hid Ho] Hst. unfold pb_step_ok. simpl.
  destruct (pri_op (input b) Hst) as (j & -> & Hj & Hjd & ? & ?).
  eexists _, q, []. split; [done|]. split.
  - split; simpl; try congruence; try done.
    + rewrite Hst in Hi. destruct (cb_input_avail (buf b) >=? input_mtu b).
      * rewrite Hj, Hjd. split; [done|]. by destruct Hi.
      * done.
  - unfold undelivered, arriving. simpl. by rewrite Hst, Hj, app_nil_r.
Qed.

Lemma pb_in_data b q p :
  pb_ok num b q -> pri_state (input b) = ST_BUSY -> zlen p <= pri_mtu (input b) ->
  pb_step_ok b q (BInData p).
Proof.
  intros [Hs ? Hm ? ? ? Hi Hid Ho] Hst Hp. unfold pb_step_ok. cbn [pb_exec].
  destruct (pri_done (input b) (zlen p) Hst) as (j & -> & Hj & Hjd & Hjl & ? & ?).
  { pose proof (zlen_nonneg p). lia. }
  rewrite Hst in Hi. destruct (cb_input_avail (buf b) >=? input_mtu b) eqn:Ea; [|done].
  destruct Hi as [_ Hd]. pose proof Hs as (Hr & _ & _ & Hf).
  destruct (cb_avail_dest _ _ Hr) as (d & Hdd); [lia|]. rewrite Hd, Hdd.
  destruct (cb_write _ _ _ p Hr Hdd) as (m' & -> & Hr' & Hsl); [lia|].
  eexists _, q, []. split; [done|]. split.
  - split; simpl; try congruence; try done.
    + by apply (cb_sim_intro _ _ _ _ _ _ Hs).
    + rewrite Ea, Hj, Hjd. split; [done|]. congruence.
    + intros _. pose proof (zlen_nonneg p). lia.
  - unfold undelivered, arriving, waiting. simpl. rewrite Hst, Hj, Hdd, Hjl, Hsl.
    by rewrite app_nil_r.
Qed.

(** Scheduling a receive when there is room for a packet. *)
Lemma resume_input inp mtu cb q :
  cb_rel cb q -> 0 <= mtu -> pri_mtu inp = mtu -> pri_handler_done inp = true ->
  pri_state inp = ST_NONE ->
  exists inp', (if cb_input_avail cb >=? mtu
      then let* d := cb_input_dest cb in PacketRecvInterface_Receiver_Recv inp d else Some inp) = Some inp' /\
    pri_mtu inp' = mtu /\ pri_handler_done inp' = true /\ pri_state inp' <> ST_DONE_PENDING /\
    (if cb_input_avail cb >=? mtu
     then pri_state inp' <> ST_NONE /\ pri_job_operation_data inp' = cb_input_dest cb
     else pri_state inp' = ST_NONE).
Proof.
  intros Hr Hm Hi Hh Hn. destruct (cb_input_avail cb >=? mtu) eqn:Ea.
  - destruct (cb_avail_dest _ _ Hr) as (d' & ->); [lia|].
    destruct (pri_recv inp d' Hh Hn) as (i' & -> & K1 & K2 & K3 & K4).
    exists i'. split; [done|]. rewrite K1. split_and!; done || congruence.
  - exists inp. split; [done|]. rewrite Hn. split_and!; done.
Qed.

(** Scheduling the send of the first packet. *)
Lemma start_output out p cb q :
  cb_rel cb (p :: q) -> zlen p <= ppi_mtu out -> ppi_handler_done out = true ->
  ppi_state out = ST_NONE ->
  exists out', (let* d := cb_output_dest cb in
      PacketPassInterface_Sender_Send out d (cb_output_avail cb)) = Some out' /\
    ppi_mtu out' = ppi_mtu out /\ ppi_handler_done out' = true /\
    ppi_state out' = ST_OPERATION_PENDING /\ ppi_job_operation_data out' = cb_output_dest cb /\
    ppi_job_operation_len out' = zlen p.
Proof.
  intros Hr Hl Hh Hn. destruct (cb_out_read _ _ _ Hr) as (d' & Hd' & _).
  destruct Hr as [_ [_ (_ & Hav & _)]]. rewrite Hd', Hav. pose proof (zlen_nonneg p).
  destruct (ppi_send out d' (zlen p)) as (o' & -> & K1 & K2 & K3 & K4 & K5); [done|done|lia|].
  exists o'. split_and!; done.
Qed.

Lemma pb_in_job_done b q :
  pb_ok num b q -> pri_state (input b) = ST_DONE_PENDING -> pb_step_ok b q BInJobDone.
Proof.
  intros [Hs ? Hm ? ? ? Hi Hid Ho] Hst. unfold pb_step_ok. cbn [pb_exec].
  destruct (pri_jobdone (input b) Hst) as (j & -> & Hj & Hjh & Hjm).
  specialize (Hid Hst). set (len := pri_job_done_len (input b)) in *.
  rewrite Hst in Hi. destruct (cb_input_avail (buf b) >=? input_mtu b) eqn:Ea; [|done].
  destruct Hi as [_ Hd]. pose proof Hs as (Hr & Hcm & Hcs & Hf).
  destruct (cb_avail_dest _ _ Hr) as (d & Hdd); [lia|].
  destruct (cb_dest_range _ _ _ Hr Hdd) as [Hd0 Hd1].
  set (p := slice d len (cb_buffer (buf b))).
  assert (zlen p = len) as Hpl by (apply zlen_slice; lia).
  assert (arriving b = [p]) as Harr by (unfold arriving; by rewrite Hst, Hdd).
  destruct (submit_rel _ _ _ p Hr Hdd) as (cb' & Hsub & Hr' & Hsz & Hmt & Hstab);
    [lia|by rewrite Hpl|]. rewrite Hpl in Hsub.
  assert (cb_sim (input_mtu b) num cb' (q ++ [p])) as Hs'.
  { eapply cb_sim_intro; [exact Hs|done..|]. apply Forall_app; split; [done|].
    apply Forall_cons_2; [lia|done]. }
  unfold input_handler_done. cbn [input output input_mtu buf fst snd].
  assert_true. assert_true. rewrite Hsub.
  destruct (resume_input j (input_mtu b) cb' (q ++ [p])) as (inp & -> & I1 & I2 & I3 & I4);
    [done|done|congruence|congruence|done|].
  rewrite (cb_out_empty _ _ Hr). destruct q as [|p0 q].
  - rewrite bool_decide_true by done.
    destruct (start_output (output b) p cb' []) as (out & -> & O1 & O2 & O3 & O4 & O5);
      [done|lia|done|done|].
    eexists _, [p], []. split; [done|]. split.
    + split; simpl; try done; try congruence; by rewrite O3.
    + unfold undelivered. rewrite Harr. unfold waiting, arriving. simpl. rewrite O3, Ho.
      by destruct (pri_state inp).
  - rewrite bool_decide_false by done. destruct Ho as (O1 & O2 & O3).
    eexists _, (p0 :: q ++ [p]), []. split; [done|]. split.
    + split; simpl; try done. split_and!; [done| |done]. rewrite O2. symmetry. by apply Hstab.
    + unfold undelivered. rewrite Harr. unfold waiting, arriving. simpl.
      rewrite !app_nil_r. destruct (pri_state inp), (ppi_state (output b)); simpl;
        rewrite ?app_nil_r; done.
Qed.

Lemma pb_out_operation b q :
  pb_ok num b q -> ppi_state (output b) = ST_OPERATION_PENDING -> pb_step_ok b q BOutOperation.
Proof.
  intros [Hs ? ? ? ? ? Hi Hid Ho] Hst. unfold pb_step_ok. cbn [pb_exec].
  destruct (ppi_op (output b) Hst) as (j & -> & Hj & Hjd & Hjl & ? & ?).
  destruct q as [|p q]; [congruence|]. destruct Ho as (O1 & O2 & O3).
  pose proof Hs as (Hr & _). destruct (cb_out_read _ _ _ Hr) as (d & Hd & Hrd).
  rewrite O2, O3, Hd, Hrd. eexists _, (p :: q), [p]. split; [done|]. split.
  - split; simpl; try done; try congruence. split_and!; congruence.
  - unfold undelivered, waiting, arriving. simpl. rewrite Hst, Hj. by rewrite app_nil_r.
Qed.

Lemma pb_out_done b q :
  pb_ok num b q -> ppi_state (output b) = ST_BUSY -> pb_step_ok b q BOutDone.
Proof.
  intros [Hs ? ? ? ? ? Hi Hid Ho] Hst. unfold pb_step_ok. cbn [pb_exec].
  destruct (ppi_done (output b) Hst) as (j & -> & Hj & Hjd & Hjl & ? & ?).
  destruct q as [|p q]; [congruence|]. destruct Ho as (O1 & O2 & O3).
  eexists _, (p :: q), []. split; [done|]. split.
  - split; simpl; try done; try congruence. split_and!; congruence.
  - unfold undelivered, waiting, arriving. simpl. rewrite Hst, Hj. by rewrite app_nil_r.
Qed.

Lemma pb_out_job_done b q :
  pb_ok num b q -> ppi_state (output b) = ST_DONE_PENDING -> pb_step_ok b q BOutJobDone.
Proof.
  intros [Hs ? Hm Hmo ? ? Hi Hid Ho] Hst. unfold pb_step_ok. cbn [pb_exec].
  destruct (ppi_jobdone (output b) Hst) as (j & -> & Hj & Hjh & Hjm).
  destruct q as [|p q]; [congruence|]. destruct Ho as (O1 & O2 & O3).
  pose proof Hs as (Hr & Hcm & Hcs & Hf). apply Forall_cons_1 in Hf as [_ Hf].
  destruct (consume_rel _ _ _ Hr) as (cb' & Hc & Hr' & Hbuf & Hsz & Hmt & Hav & Hdst).
  assert (cb_sim (input_mtu b) num cb' q) as Hs' by by eapply cb_sim_intro.
  unfold output_handler_done. cbn [input output input_mtu buf]. rewrite Hc.
  assert (exists inp, (if (cb_input_avail (buf b) <? input_mtu b) && (cb_input_avail cb' >=? input_mtu b)
      then let* d := cb_input_dest cb' in PacketRecvInterface_Receiver_Recv (input b) d
      else Some (input b)) = Some inp /\
    pri_mtu inp = input_mtu b /\ pri_handler_done inp = true /\
    (pri_state inp = ST_DONE_PENDING -> 0 <= pri_job_done_len inp <= input_mtu b) /\
    (if cb_input_avail cb' >=? input_mtu b
     then pri_state inp <> ST_NONE /\ pri_job_operation_data inp = cb_input_dest cb'
     else pri_state inp = ST_NONE) /\
    (forall o, arriving (mkPB inp (input_mtu b) o cb') = arriving b)) as (inp & -> & I1 & I2 & I3 & I4 & I5).
  { destruct (cb_input_avail (buf b) >=? input_mtu b) eqn:Ea.
    - destruct Hi as [Hi1 Hi2]. rewrite (proj2 (Z.ltb_ge _ _)) by lia. exists (input b).
      split; [done|]. destruct (cb_avail_dest _ _ Hr) as (d & Hd); [lia|].
      rewrite Z.geb_leb, (proj2 (Z.leb_le _ _)) by lia. rewrite Hi2, (Hdst _ Hd), Hd.
      split_and!; try done. intros o. unfold arriving. simpl. by rewrite (Hdst _ Hd), Hd, Hbuf.
    - rewrite (proj2 (Z.ltb_lt _ _)) by lia. rewrite andb_true_l.
      destruct (resume_input (input b) (input_mtu b) cb' q) as (inp & -> & K1 & K2 & K3 & K4); [done..|].
      exists inp. split_and!; try done. intros o. unfold arriving. simpl. rewrite Hi.
      by destruct (pri_state inp). }
  rewrite Z.geb_leb, Z.leb_antisym, (cb_out_empty _ _ Hr').
  unfold undelivered. destruct q as [|p1 q].
  - rewrite bool_decide_true by done. eexists _, [], []. split; [done|]. split.
    + split; simpl; try done; congruence.
    + rewrite I5. unfold waiting. simpl. by rewrite Hst, Hj, app_nil_r.
  - rewrite bool_decide_false by done. cbn [negb]. apply Forall_cons_1 in Hf as [Hp1 _].
    destruct (start_output j p1 cb' q) as (out & -> & K1 & K2 & K3 & K4 & K5);
      [done|lia|congruence|done|].
    eexists _, (p1 :: q), []. split; [done|]. split.
    + split; simpl; try done; [lia|]. rewrite K3. done.
    + rewrite I5. unfold waiting. simpl. by rewrite Hst, K3, app_nil_r.
Qed.

Lemma pb_step b q e : pb_ok num b q -> pb_enabled b e = true -> pb_step_ok b q e.
Proof.
  intros Hok He. destruct e; simpl in He.
  - apply pb_in_operation; [done|by apply st_is_true].
  - apply andb_prop in He as [? ?]. apply pb_in_data; [done|by apply st_is_true|lia].
  - apply pb_in_job_done; [done|by apply st_is_true].
  - apply pb_out_operation; [done|by apply st_is_true].
  - apply pb_out_done; [done|by apply st_is_true].
  - apply pb_out_job_done; [done|by apply st_is_true].
Qed.

End Steps.

Lemma pb_exec_enabled b e r : pb_exec b e = Some r -> pb_enabled b e = true.
Proof.
  destruct e; simpl; unfold PacketRecvInterface_job_operation, PacketRecvInterface_Done,
    PacketRecvInterface_job_done, PacketPassInterface_job_operation, PacketPassInterface_Done,
    PacketPassInterface_job_done; intros H;
  repeat match type of H with context [if ?c then _ else _] => destruct c eqn:? end; try done; simpl.
Qed.

Lemma received_cons e es : received (e :: es) = received [e] ++ received es.
Proof. unfold received. simpl. by rewrite app_nil_r. Qed.

Lemma pb_run_ok num es : forall b q b' outs,
  pb_ok num b q -> pb_run b es = Some (b', outs) ->
  exists q', pb_ok num b' q' /\ undelivered b q ++ received es = outs ++ undelivered b' q'.
Proof.
  induction es as [|e es IH]; intros b q b' outs Hok Hrun; cbn [pb_run] in Hrun.
  { inv_some. exists q. split; [done|]. by rewrite app_nil_r. }
  destruct (pb_exec b e) as [[b1 o1]|] eqn:E1; [|done].
  destruct (pb_run (b1, o1).1 es) as [[b2 o2]|] eqn:E2; [|done]. simpl in Hrun. inv_some.
  destruct (pb_step num b q e Hok (pb_exec_enabled _ _ _ E1)) as (b1' & q1 & o1' & Hx & Hok1 & Hu).
  rewrite E1 in Hx. injection Hx as <- <-.
  destruct (IH _ _ _ _ Hok1 E2) as (q2 & Hok2 & Hu2). exists q2. split; [done|].
  rewrite received_cons, app_assoc, Hu, <- app_assoc, Hu2. by rewrite app_assoc.
Qed.

Lemma pb_init_ok malloc inp out num b :
  (forall n m, malloc n = Some m -> zlen m = n) ->
  pri_state inp = ST_NONE -> ppi_state out = ST_NONE -> 0 <= pri_mtu inp <= INT_MAX ->
  num <= INT_MAX -> 4 * ChunkBuffer2_calc_blocks (pri_mtu inp) num <= INT_MAX ->
  PacketBuffer_Init malloc inp out num = Some (Some b) ->
  pb_ok num b [] /\ undelivered b [] = [].
Proof.
  intros Hma Hin Hout Hmtu Hnum Hmax. unfold PacketBuffer_Init.
  destruct (ppi_mtu out >=? pri_mtu inp) eqn:E1; [|done].
  destruct (num >? 0) eqn:E2; [|done].
  unfold PacketRecvInterface_Receiver_Init, PacketPassInterface_Sender_Init.
  destruct (negb (pri_handler_done inp)); [|done].
  destruct (negb (ppi_handler_done out)); [|done].
  set (i0 := mkPRI _ _ _ _ _ _ _). set (o0 := mkPPI _ _ _ _ _ _ _ _ _ _).
  change (pri_mtu i0) with (pri_mtu inp).
  destruct (calc_blocks_spec (pri_mtu inp) num _ ltac:(lia) ltac:(lia) eq_refl) as [Ec | [Ec Hpos]].
  { by rewrite Ec. }
  rewrite (proj2 (Z.ltb_ge _ _)) by lia.
  destruct (malloc _) as [m|] eqn:Em; [|done]. apply Hma in Em. unfold sizeof_block in Em.
  pose proof (bdivide_up_nonneg (pri_mtu inp) 4 ltac:(lia) ltac:(lia)).
  destruct (cb_init_rel m (ChunkBuffer2_calc_blocks (pri_mtu inp) num) (pri_mtu inp))
    as (cb & -> & Hr & Hs & Ht); [lia|lia|lia|nia|].
  destruct (cb_capacity cb [] (pri_mtu inp) num) as (d & Hd & Ha); try done; [lia|congruence|rewrite zlen_nil; lia|].
  rewrite Hd. destruct (pri_recv i0 d) as (j & -> & J1 & J2 & J3 & J4); [done|done|].
  intros [= <-]. split.
  - split; simpl; try done; try lia.
    + split_and!; try done. congruence.
    + rewrite Z.geb_leb, (proj2 (Z.leb_le _ _)) by lia. rewrite J1, J2, Hd. done.
    + rewrite J1. done.
  - unfold undelivered, waiting, arriving. simpl. rewrite J1, Hout. done.
Qed.

(** A [PacketBuffer] is a lossless FIFO. In every history from its
    initialisation: the packets handed to the sink are a prefix of the packets
    received, in order and byte for byte; nothing is left over once the sink is
    idle; the source is only held up when at least [num_packets] packets are
    queued; and every event the interfaces allow is executed without a failing
    assertion or an access outside the buffer. *)
Theorem packet_buffer_fifo malloc inp out num b es b' outs
    (Hmalloc : forall n m, malloc n = Some m -> zlen m = n)
    (Hin : pri_state inp = ST_NONE) (Hout : ppi_state out = ST_NONE)
    (Hmtu : 0 <= pri_mtu inp <= INT_MAX) (Hnum : num <= INT_MAX)
    (Hmax : 4 * ChunkBuffer2_calc_blocks (pri_mtu inp) num <= INT_MAX)
    (Hinit : PacketBuffer_Init malloc inp out num = Some (Some b))
    (Hrun : pb_run b es = Some (b', outs)) :
  exists q, cb_rel (buf b') q /\
    received es = outs ++ undelivered b' q /\
    (ppi_state (output b') = ST_NONE -> q = []) /\
    (pri_state (input b') = ST_NONE -> num <= zlen q) /\
    forall e, pb_enabled b' e = true -> is_Some (pb_exec b' e).
Proof.
  destruct (pb_init_ok _ _ _ _ _ Hmalloc Hin Hout Hmtu Hnum Hmax Hinit) as [Hok Hu0].
  destruct (pb_run_ok _ _ _ _ _ _ Hok Hrun) as (q & Hok' & Hu). rewrite Hu0 in Hu.
  pose proof Hok' as [(Hr & Hcm & Hcs & Hf) ? ? ? ? ? Hi _ Ho].
  exists q. split_and!; [done|done| | |].
  - intros Hn. destruct q as [|p q]; [done|]. by destruct Ho.
  - intros Hn. destruct (decide (num <= zlen q)) as [|Hlt]; [done|exfalso].
    destruct (cb_capacity _ _ _ _ Hr ltac:(eassumption) Hcm Hcs Hf ltac:(lia)) as (d & _ & Ha).
    rewrite Z.geb_leb, (proj2 (Z.leb_le _ _)) in Hi by lia. by destruct Hi.
  - intros e He. destruct (pb_step _ _ _ _ Hok' He) as (? & ? & ? & -> & _). eauto.
Qed.

Definition demo_events : list pb_event :=
  [BInOperation; BInData [1;2;3]; BInJobDone; BInOperation; BInData [4];
   BOutOperation; BInJobDone; BOutDone; BOutJobDone; BOutOperation].

Lemma packet_buffer_fifo_witness :
  exists inp out b b' outs,
    PacketBuffer_Init zalloc inp out 2 = Some (Some b) /\
    pb_run b demo_events = Some (b', outs) /\ (exists q, received demo_events = outs ++ undelivered b' q) /\
    outs = [[1;2;3]; [4]].
Proof.
  set (inp := mkPRI (A:=Z) 5 false false None false 0 ST_NONE).
  set (out := mkPPI (A:=Z) 5 false false false None 0 false false ST_NONE false).
  destruct (PacketBuffer_Init zalloc inp out 2) as [[b|]|] eqn:Hi; [|discriminate Hi..].
  destruct (pb_run b demo_events) as [[b' outs]|] eqn:Hr.
  2: { exfalso. revert Hr. injection Hi as <-. vm_compute. discriminate. }
  exists inp, out, b, b', outs. split_and!; [done..| |].
  - destruct (packet_buffer_fifo zalloc inp out 2 b demo_events b' outs zalloc_size eq_refl eq_refl
      ltac:(vm_compute; split; discriminate) ltac:(vm_compute; discriminate)
      ltac:(vm_compute; discriminate) Hi Hr) as (q & _ & Hx & _). by exists q.
  - revert Hr. injection Hi as <-. vm_compute. intros [= _ <-]. done.
Defined.
