(* ===== verification/ProtoFlow.v ===== *)
(** * [flow/BufferWriter.c], [flow/PacketProtoEncoder.c], [flow/PacketProtoFlow.c]

    A [PacketProtoFlow] lets its user write packets asynchronously: a
    [BufferWriter] hands out the place for the next packet, a
    [PacketProtoEncoder] puts the length in front of it, and a [PacketBuffer]
    queues it. The three share one buffer (the [PacketBuffer]'s): the pointer to
    the next free place travels from the buffer through the encoder, which skips
    the header, to the writer, and the packet travels back.

    Two interfaces join the parts: [BufferWriter.recv_interface] (writer to
    encoder) and [PacketProtoEncoder.output] (encoder to buffer). Each is kept
    once, in [ainput] and in [buffer]'s [input]. *)

From S2P Require Import Prelude ByteOrder Flow PacketProto ChunkBuffer PacketBuffer.

(** ** BufferWriter *)

Record BufferWriter := mkBW {
  recv_interface : PacketRecvInterface Z;
  out_have : bool;
  out : option Z;
  d_mtu : Z;
  d_writing : bool
}.

Definition BufferWriter_output_handler_recv (o : BufferWriter) (data : option Z) : option BufferWriter :=
  ASSERT (negb (out_have o)) ;;
  Some (mkBW (recv_interface o) true data (d_mtu o) (d_writing o)).

Definition BufferWriter_Init (mtu : Z) : option BufferWriter :=
  ASSERT (0 <=? mtu) ;;
  let* r := PacketRecvInterface_Init mtu in
  Some (mkBW r false None mtu false).

Definition BufferWriter_StartPacket (o : BufferWriter) : option (BufferWriter * option (option Z)) :=
  ASSERT (negb (d_writing o)) ;;
  if negb (out_have o) then Some (o, None)
  else Some (mkBW (recv_interface o) (out_have o) (out o) (d_mtu o) true, Some (out o)).

Definition BufferWriter_EndPacket (o : BufferWriter) (len : Z) : option BufferWriter :=
  ASSERT (0 <=? len) ;;
  ASSERT (len <=? d_mtu o) ;;
  ASSERT (out_have o) ;;
  ASSERT (d_writing o) ;;
  let* r := PacketRecvInterface_Done (recv_interface o) len in
  Some (mkBW r false (out o) (d_mtu o) false).

(** ** PacketProtoEncoder

    The record holds the encoder's own field; [input] and [output] are the
    interfaces it is joined to. *)

Record PacketProtoEncoder := mkEnc { output_packet : option Z }.

Definition PacketProtoEncoder_output_handler_recv (enc : PacketProtoEncoder)
    (input : PacketRecvInterface Z) (data : option Z)
  : option (PacketProtoEncoder * PacketRecvInterface Z) :=
  ASSERT (bool_decide (output_packet enc = None)) ;;
  let* d := data in
  let* input := PacketRecvInterface_Receiver_Recv input (d + sizeof_packetproto_header) in
  Some (mkEnc (Some d), input).

Definition PacketProtoEncoder_input_handler_done (enc : PacketProtoEncoder)
    (output : PacketRecvInterface Z) (mem : list Z) (in_len : Z)
  : option (PacketProtoEncoder * PacketRecvInterface Z * list Z) :=
  let* d := output_packet enc in
  let* mem := mem_write d (le16 (htol16 in_len)) mem in
  let* output := PacketRecvInterface_Done output (PACKETPROTO_ENCLEN in_len) in
  Some (mkEnc None, output, mem).

Definition PacketProtoEncoder_Init (input : PacketRecvInterface Z)
  : option (PacketProtoEncoder * PacketRecvInterface Z * PacketRecvInterface Z) :=
  ASSERT (pri_mtu input <=? PACKETPROTO_MAXPAYLOAD) ;;
  let* input := PacketRecvInterface_Receiver_Init input in
  let* output := PacketRecvInterface_Init (PACKETPROTO_ENCLEN (pri_mtu input)) in
  Some (mkEnc None, input, output).

(** ** PacketProtoFlow *)

Record PacketProtoFlow := mkFlow {
  ainput : BufferWriter;
  encoder : PacketProtoEncoder;
  buffer : PacketBuffer
}.

Definition with_interface (o : BufferWriter) r :=
  mkBW r (out_have o) (out o) (d_mtu o) (d_writing o).

Definition PacketProtoFlow_Init (malloc : Z -> option (list Z)) (input_mtu num_packets : Z)
    (output : PacketPassInterface Z) : option (option PacketProtoFlow) :=
  ASSERT (0 <=? input_mtu) ;;
  ASSERT (input_mtu <=? PACKETPROTO_MAXPAYLOAD) ;;
  ASSERT (num_packets >? 0) ;;
  ASSERT (ppi_mtu output >=? PACKETPROTO_ENCLEN input_mtu) ;;
  let* w := BufferWriter_Init input_mtu in
  let* r := PacketProtoEncoder_Init (recv_interface w) in
  let '(enc, winp, eout) := r in
  let* ob := PacketBuffer_Init malloc eout output num_packets in
  match ob with
  | None => Some None
  | Some b => Some (Some (mkFlow (with_interface w winp) enc b))
  end.

(** ** Histories *)

Inductive flow_event :=
| FBufferRecv     (* job of the encoder's output: the buffer asks for a packet *)
| FWriterRecv     (* job of the writer's interface: the encoder asks for a packet *)
| FWrite (p : list Z) (* the user writes a packet, if there is a place for it *)
| FWriterDone     (* done job of the writer's interface *)
| FEncoderDone    (* done job of the encoder's output *)
| FOutOperation | FOutDone | FOutJobDone. (* the sink of the buffer *)

Inductive flow_obs := FAccepted (p : list Z) | FRefused (p : list Z) | FSent (p : list Z).

Definition with_buf_input (b : PacketBuffer) i m :=
  mkPB i (input_mtu b) (output b) (with_buffer (buf b) m).

Definition lift_pb (f : PacketProtoFlow) (e : pb_event) : option (PacketProtoFlow * list flow_obs) :=
  let* r := pb_exec (buffer f) e in
  Some (mkFlow (ainput f) (encoder f) r.1, FSent <$> r.2).

Definition flow_exec (f : PacketProtoFlow) (e : flow_event) : option (PacketProtoFlow * list flow_obs) :=
  let b := buffer f in let w := ainput f in
  match e with
  | FBufferRecv =>
      let* r := PacketRecvInterface_job_operation (input b) in
      let* s := PacketProtoEncoder_output_handler_recv (encoder f) (recv_interface w) r.2 in
      Some (mkFlow (with_interface w s.2) s.1 (with_buf_input b r.1 (cb_buffer (buf b))), [])
  | FWriterRecv =>
      let* r := PacketRecvInterface_job_operation (recv_interface w) in
      let* w' := BufferWriter_output_handler_recv (with_interface w r.1) r.2 in
      Some (mkFlow w' (encoder f) b, [])
  | FWrite p =>
      let* r := BufferWriter_StartPacket w in
      match r.2 with
      | None => Some (mkFlow r.1 (encoder f) b, [FRefused p])
      | Some dst =>
          let* d := dst in
          let* m := mem_write d p (cb_buffer (buf b)) in
          let* w' := BufferWriter_EndPacket r.1 (zlen p) in
          Some (mkFlow w' (encoder f) (with_buf_input b (input b) m), [FAccepted p])
      end
  | FWriterDone =>
      let* r := PacketRecvInterface_job_done (recv_interface w) in
      let* s := PacketProtoEncoder_input_handler_done (encoder f) (input b) (cb_buffer (buf b)) r.2 in
      let '(enc, eout, m) := s in
      Some (mkFlow (with_interface w r.1) enc (with_buf_input b eout m), [])
  | FEncoderDone => lift_pb f BInJobDone
  | FOutOperation => lift_pb f BOutOperation
  | FOutDone => lift_pb f BOutDone
  | FOutJobDone => lift_pb f BOutJobDone
  end.

(** The calling rules: jobs run when set, packets written fit the MTU. *)
Definition flow_enabled (f : PacketProtoFlow) (e : flow_event) : bool :=
  match e with
  | FBufferRecv => st_is (pri_state (input (buffer f))) ST_OPERATION_PENDING
  | FWriterRecv => st_is (pri_state (recv_interface (ainput f))) ST_OPERATION_PENDING
  | FWrite p => zlen p <=? d_mtu (ainput f)
  | FWriterDone => st_is (pri_state (recv_interface (ainput f))) ST_DONE_PENDING
  | FEncoderDone => st_is (pri_state (input (buffer f))) ST_DONE_PENDING
  | FOutOperation => st_is (ppi_state (output (buffer f))) ST_OPERATION_PENDING
  | FOutDone => st_is (ppi_state (output (buffer f))) ST_BUSY
  | FOutJobDone => st_is (ppi_state (output (buffer f))) ST_DONE_PENDING
  end.

Fixpoint flow_run (f : PacketProtoFlow) (es : list flow_event)
  : option (PacketProtoFlow * list flow_obs) :=
  match es with
  | [] => Some (f, [])
  | e :: es =>
      if flow_enabled f e then
        let* r := flow_exec f e in
        let* s := flow_run r.1 es in
        Some (s.1, r.2 ++ s.2)
      else None
  end.

Definition accepted (os : list flow_obs) : list (list Z) :=
  mjoin ((fun o => match o with FAccepted p => [p] | _ => [] end) <$> os).
Definition sent (os : list flow_obs) : list (list Z) :=
  mjoin ((fun o => match o with FSent p => [p] | _ => [] end) <$> os).

(** ** The invariant *)

(** The packet between the writer and the encoder. *)
Definition written (f : PacketProtoFlow) : list (list Z) :=
  match pri_state (recv_interface (ainput f)), pri_job_operation_data (recv_interface (ainput f)) with
  | ST_DONE_PENDING, Some d =>
      [slice d (pri_job_done_len (recv_interface (ainput f))) (cb_buffer (buf (buffer f)))]
  | _, _ => []
  end.

(** The encoder has passed the buffer's request on to the writer. *)
Record flow_writing (f : PacketProtoFlow) (d : Z) : Prop := {
  fw_in : pri_state (input (buffer f)) = ST_BUSY;
  fw_dest : cb_input_dest (buf (buffer f)) = Some d;
  fw_packet : output_packet (encoder f) = Some d;
  fw_state : pri_state (recv_interface (ainput f)) <> ST_NONE;
  fw_data : pri_job_operation_data (recv_interface (ainput f)) = Some (d + 2);
  fw_have : out_have (ainput f) = st_is (pri_state (recv_interface (ainput f))) ST_BUSY;
  fw_out : out_have (ainput f) = true -> out (ainput f) = Some (d + 2);
  fw_len : pri_state (recv_interface (ainput f)) = ST_DONE_PENDING ->
           0 <= pri_job_done_len (recv_interface (ainput f)) <= d_mtu (ainput f)
}.

Record flow_resting (f : PacketProtoFlow) : Prop := {
  fr_in : pri_state (input (buffer f)) <> ST_BUSY;
  fr_packet : output_packet (encoder f) = None;
  fr_state : pri_state (recv_interface (ainput f)) = ST_NONE;
  fr_have : out_have (ainput f) = false
}.

Record flow_ok (num : Z) (f : PacketProtoFlow) (q : list (list Z)) : Prop := {
  fo_buffer : pb_ok num (buffer f) q;
  fo_mtu : input_mtu (buffer f) = 2 + d_mtu (ainput f);
  fo_dmtu : 0 <= d_mtu (ainput f) <= PACKETPROTO_MAXPAYLOAD;
  fo_wmtu : pri_mtu (recv_interface (ainput f)) = d_mtu (ainput f);
  fo_user : pri_handler_done (recv_interface (ainput f)) = true;
  fo_idle : d_writing (ainput f) = false;
  fo_case : flow_resting f \/ exists d, flow_writing f d
}.

Definition flow_pending (f : PacketProtoFlow) (q : list (list Z)) : list (list Z) :=
  undelivered (buffer f) q ++ (pp_encode <$> written f).

(** ** Lemmas *)

(** What the sink's events leave alone: the source side of the buffer. *)
Lemma pb_out_frame num b q e b' o :
  pb_ok num b q -> (e = BOutOperation \/ e = BOutDone \/ e = BOutJobDone) ->
  pb_exec b e = Some (b', o) ->
  (pri_state (input b) <> ST_NONE -> input b' = input b) /\
  (pri_state (input b) = ST_NONE -> pri_state (input b') <> ST_BUSY) /\
  input_mtu b' = input_mtu b /\ cb_buffer (buf b') = cb_buffer (buf b) /\
  (forall d, cb_input_dest (buf b) = Some d -> cb_input_dest (buf b') = Some d).
Proof.
  intros Hok He Hx. destruct He as [-> | [-> | ->]]; simpl in Hx.
  - destruct (PacketPassInterface_job_operation (output b)) as [[o' [[off|] len]]|]; [|done..].
    simpl in Hx. destruct (mem_read _ _ _); [|done]. inv_some. split_and!; try done; simpl; congruence.
  - destruct (PacketPassInterface_Done (output b)); [|done]. inv_some.
    split_and!; try done; simpl; congruence.
  - destruct (PacketPassInterface_job_done (output b)) as [oi|]; [|done].
    unfold output_handler_done in Hx. cbn [input output input_mtu buf] in Hx.
    pose proof Hok as [(Hr & _) ? ? ? ? ? Hi _ Ho].
    destruct q as [|p q].
    { destruct Hr as [_ [_ [Hod _]]]. unfold ChunkBuffer2_ConsumePacket in Hx. by rewrite Hod in Hx. }
    destruct (consume_rel _ _ _ Hr) as (cb' & Hc & _ & Hb & _ & _ & _ & Hd). rewrite Hc in Hx.
    destruct ((cb_input_avail (buf b) <? input_mtu b) && (cb_input_avail cb' >=? input_mtu b)) eqn:E.
    + destruct (cb_input_dest cb') as [d'|] eqn:Ed'; [|done].
      assert ((cb_input_avail (buf b) >=? input_mtu b) = false) as E' by lia. rewrite E' in Hi.
      destruct (pri_recv (input b) d') as (i' & Hi' & Hi2 & _); [done..|]. rewrite Hi' in Hx.
      destruct (if cb_output_avail cb' >=? 0 then _ else _); [|done]. inv_some. simpl.
      split_and!; try done; [by rewrite Hi2 | by rewrite Ed'].
    + destruct (if cb_output_avail cb' >=? 0 then _ else _); [|done]. inv_some. simpl.
      split_and!; try done; congruence.
Qed.

Lemma pb_in_job_done_state b b' o :
  pb_exec b BInJobDone = Some (b', o) ->
  pri_state (input b') <> ST_BUSY /\ input_mtu b' = input_mtu b.
Proof.
  simpl. unfold PacketRecvInterface_job_done. destruct (st_is _ _); [|done].
  unfold input_handler_done. cbn [input output input_mtu buf fst snd]. intros Hx.
  destruct (0 <=? _); [|done]. destruct (_ <=? input_mtu b); [|done].
  destruct (ChunkBuffer2_SubmitPacket _ _) as [cb|]; [|done].
  destruct (cb_input_avail cb >=? input_mtu b).
  - destruct (cb_input_dest cb) as [d|]; [|done]. simpl in Hx.
    unfold PacketRecvInterface_Receiver_Recv in Hx. simpl in Hx.
    destruct (pri_handler_done (input b)); [|done].
    destruct (if cb_output_avail (buf b) <? 0 then _ else _); [|done]. inv_some. done.
  - destruct (if cb_output_avail (buf b) <? 0 then _ else _); [|done]. inv_some. done.
Qed.

(** While the source fills the place it was given, the queue is not disturbed. *)
Lemma pb_write_busy num b q d off bs :
  pb_ok num b q -> pri_state (input b) = ST_BUSY -> cb_input_dest (buf b) = Some d ->
  d <= off -> off + zlen bs <= d + input_mtu b ->
  exists m', mem_write off bs (cb_buffer (buf b)) = Some m' /\
    pb_ok num (with_buf_input b (input b) m') q /\
    undelivered (with_buf_input b (input b) m') q = undelivered b q.
Proof.
  intros [Hs ? Hm ? ? ? Hi Hid Ho] Hst Hd H1 H2. pose proof Hs as (Hr & _ & _ & Hf).
  destruct (cb_input_avail (buf b) >=? input_mtu b) eqn:Ea; [|congruence].
  destruct (cb_write_at _ _ _ off bs Hr Hd) as (m' & Hw & Hr'); [lia..|].
  exists m'. split; [done|]. split.
  - split; try done; [|simpl; by rewrite Ea]. by apply (cb_sim_intro _ _ _ _ _ _ Hs).
  - unfold undelivered, waiting, arriving. simpl. by rewrite Hst.
Qed.

Lemma pb_finish num b q d j len :
  pb_ok num b q -> pri_state (input b) = ST_BUSY -> cb_input_dest (buf b) = Some d ->
  0 <= len <= input_mtu b -> PacketRecvInterface_Done (input b) len = Some j ->
  pb_ok num (with_buf_input b j (cb_buffer (buf b))) q /\
  undelivered (with_buf_input b j (cb_buffer (buf b))) q =
    undelivered b q ++ [slice d len (cb_buffer (buf b))].
Proof.
  intros [Hs ? Hm ? ? ? Hi Hid Ho] Hst Hd Hl Hdn.
  destruct (pri_done (input b) len Hst) as (j' & Hj' & Hj & Hjd & Hjl & ? & ?); [lia|].
  rewrite Hdn in Hj'. injection Hj' as <-. split.
  - rewrite Hst in Hi. destruct (cb_input_avail (buf b) >=? input_mtu b) eqn:Ea; [|done].
    destruct Hi as [_ Hi]. split; try done; simpl; try congruence.
    + by rewrite with_buffer_id.
    + rewrite Ea, Hj, Hjd. done.
  - unfold undelivered, waiting, arriving. simpl. rewrite Hst, Hj, Hd, Hjl. by rewrite app_nil_r.
Qed.

Section Steps.
Variable num : Z.

Definition flow_step_ok (f : PacketProtoFlow) (q : list (list Z)) (e : flow_event) : Prop :=
  exists f' q' os, flow_exec f e = Some (f', os) /\ flow_ok num f' q' /\
    flow_pending f q ++ (pp_encode <$> accepted os) = sent os ++ flow_pending f' q'.

Lemma accepted_fsent l : accepted (FSent <$> l) = [].
Proof. unfold accepted. induction l; simpl; [done|exact IHl]. Qed.

Lemma sent_fsent l : sent (FSent <$> l) = l.
Proof. unfold sent. induction l as [|x l IH]; simpl; [done|]. by f_equal. Qed.

(** The sink's events. *)
Lemma flow_out f q e ev :
  flow_ok num f q -> (e = BOutOperation \/ e = BOutDone \/ e = BOutJobDone) ->
  pb_enabled (buffer f) e = true -> flow_exec f ev = lift_pb f e -> flow_step_ok f q ev.
Proof.
  intros [Hb Hm Hdm Hwm Hu Hid Hc] He Hen Hev.
  destruct (pb_step num _ _ _ Hb Hen) as (b' & q' & outs & Hx & Hb' & Hund).
  destruct (pb_out_frame _ _ _ _ _ _ Hb He Hx) as (F1 & F2 & F3 & F4 & F5).
  assert (received [e] = []) as Hrec by by destruct He as [-> | [-> | ->]].
  rewrite Hrec, app_nil_r in Hund.
  unfold flow_step_ok. rewrite Hev. unfold lift_pb. rewrite Hx.
  eexists _, q', _. split; [done|]. split.
  - split; cbn [ainput encoder buffer fst snd]; try done; [congruence|].
    destruct Hc as [[R1 R2 R3 R4] | [d [W1 W2 W3 W4 W5 W6 W7 W8]]].
    + left. split; simpl; try done.
      destruct (decide (pri_state (input (buffer f)) = ST_NONE)) as [E|E]; [by apply F2|].
      by rewrite F1.
    + right. exists d. split; simpl; try done; [|by apply F5]. rewrite F1 by congruence. done.
  - cbn [fst snd]. rewrite accepted_fsent, sent_fsent, app_nil_r. unfold flow_pending. rewrite Hund.
    unfold written. simpl. rewrite F4. by rewrite app_assoc.
Qed.

Lemma flow_encoder_done f q :
  flow_ok num f q -> pri_state (input (buffer f)) = ST_DONE_PENDING -> flow_step_ok f q FEncoderDone.
Proof.
  intros [Hb Hm Hdm Hwm Hu Hid Hc] Hst.
  assert (pb_enabled (buffer f) BInJobDone = true) as Hen by by apply st_is_true.
  destruct (pb_step num _ _ _ Hb Hen) as (b' & q' & outs & Hx & Hb' & Hund).
  destruct (pb_in_job_done_state _ _ _ Hx) as [Hn Hmt].
  unfold flow_step_ok. cbn [flow_exec]. unfold lift_pb. rewrite Hx.
  destruct Hc as [[R1 R2 R3 R4] | [d [W1 W2 W3 W4 W5 W6 W7 W8]]]; [|congruence].
  eexists _, q', _. split; [done|]. split.
  - split; cbn [ainput encoder buffer fst snd]; try done; [congruence|]. left. by split.
  - cbn [fst snd]. rewrite accepted_fsent, sent_fsent, app_nil_r. unfold flow_pending.
    change (received [BInJobDone]) with (@nil (list Z)) in Hund. rewrite app_nil_r in Hund.
    rewrite Hund. unfold written. simpl. rewrite R3. by rewrite app_assoc.
Qed.

Lemma flow_buffer_recv f q :
  flow_ok num f q -> pri_state (input (buffer f)) = ST_OPERATION_PENDING -> flow_step_ok f q FBufferRecv.
Proof.
  intros [Hb Hm Hdm Hwm Hu Hid Hc] Hst.
  destruct Hc as [[R1 R2 R3 R4] | [d [W1 W2 W3 W4 W5 W6 W7 W8]]]; [|congruence].
  pose proof Hb as [(Hr & ? & ? & ?) ? ? ? ? ? Hi Hdn Ho]. rewrite Hst in Hi.
  destruct (cb_input_avail (buf (buffer f)) >=? input_mtu (buffer f)) eqn:Ea; [|done].
  destruct Hi as [_ Hi]. destruct (cb_avail_dest _ _ Hr) as (d & Hd); [lia|].
  unfold flow_step_ok. cbn [flow_exec].
  destruct (pri_op _ Hst) as (j & -> & Hj & Hjd & ? & ?). cbn [fst snd].
  unfold PacketProtoEncoder_output_handler_recv. rewrite R2, Hi, Hd.
  rewrite bool_decide_true by done.
  destruct (pri_recv (recv_interface (ainput f)) (d + sizeof_packetproto_header) Hu R3)
    as (w & -> & W1 & W2 & W3 & W4).
  unfold with_buf_input. rewrite with_buffer_id. eexists _, q, []. split; [done|]. split.
  - split; simpl; try done; try congruence.
    + split; simpl; try done; try congruence. rewrite Ea, Hj, Hjd. done.
    + right. exists d. split; simpl; try done; try congruence. rewrite W1. done.
  - unfold flow_pending, undelivered, written, arriving, waiting. simpl.
    rewrite Hst, Hj, R3, W1. simpl. by rewrite !app_nil_r.
Qed.

Lemma flow_writer_recv f q :
  flow_ok num f q -> pri_state (recv_interface (ainput f)) = ST_OPERATION_PENDING ->
  flow_step_ok f q FWriterRecv.
Proof.
  intros [Hb Hm Hdm Hwm Hu Hid Hc] Hst.
  destruct Hc as [[R1 R2 R3 R4] | [d [W1 W2 W3 W4 W5 W6 W7 W8]]]; [congruence|].
  unfold flow_step_ok. cbn [flow_exec].
  destruct (pri_op _ Hst) as (j & -> & Hj & Hjd & ? & ?). cbn [fst snd].
  rewrite Hst in W6. unfold BufferWriter_output_handler_recv. simpl. rewrite W6.
  eexists _, q, []. split; [done|]. split.
  - split; simpl; try done; try congruence. right. exists d.
    split; simpl; try done; try congruence; rewrite Hj; done.
  - unfold flow_pending, written. simpl. rewrite Hst, Hj. by rewrite app_nil_r.
Qed.

Lemma flow_write f q p :
  flow_ok num f q -> zlen p <= d_mtu (ainput f) -> flow_step_ok f q (FWrite p).
Proof.
  intros [Hb Hm Hdm Hwm Hu Hid Hc] Hp. unfold flow_step_ok. cbn [flow_exec].
  unfold BufferWriter_StartPacket. rewrite Hid. cbn [negb].
  destruct (out_have (ainput f)) eqn:Eh; cbn [negb fst snd].
  2: { replace (mkFlow (ainput f) (encoder f) (buffer f)) with f by by destruct f.
       eexists f, q, _. split; [done|]. split; [by split|].
       unfold accepted, sent, flow_pending, written. simpl. by rewrite app_nil_r. }
  destruct Hc as [[R1 R2 R3 R4] | [d [W1 W2 W3 W4 W5 W6 W7 W8]]]; [congruence|].
  rewrite Eh in W6. symmetry in W6. apply st_is_true in W6. specialize (W7 Eh). rewrite W7.
  pose proof (zlen_nonneg p).
  destruct (pb_write_busy num (buffer f) q d (d + 2) p Hb W1 W2) as (m & Hw & Hb' & Hund); [lia..|].
  rewrite Hw. unfold BufferWriter_EndPacket. simpl. rewrite ?Eh, ?Hid. assert_true. assert_true.
  destruct (pri_done (recv_interface (ainput f)) (zlen p) W6) as (j & -> & Hj & Hjd & Hjl & ? & ?); [lia|].
  eexists _, q, _. split; [done|]. split.
  - split; simpl; try done; try congruence. right. exists d.
    split; simpl; try done; try congruence; rewrite ?Hj, ?Hjd, ?Hjl; done.
  - unfold flow_pending, written, accepted, sent. simpl. rewrite Hund, W6, Hj, Hjd, W5, Hjl. simpl.
    rewrite (slice_write_same _ _ _ _ Hw). by rewrite app_nil_r.
Qed.

Lemma flow_writer_done f q :
  flow_ok num f q -> pri_state (recv_interface (ainput f)) = ST_DONE_PENDING ->
  flow_step_ok f q FWriterDone.
Proof.
  intros [Hb Hm Hdm Hwm Hu Hid Hc] Hst.
  destruct Hc as [[R1 R2 R3 R4] | [d [W1 W2 W3 W4 W5 W6 W7 W8]]]; [congruence|].
  specialize (W8 Hst). unfold flow_step_ok. cbn [flow_exec].
  destruct (pri_jobdone _ Hst) as (j & -> & Hj & Hjh & Hjm). cbn [fst snd].
  set (len := pri_job_done_len (recv_interface (ainput f))) in *.
  unfold PacketProtoEncoder_input_handler_done. rewrite W3.
  destruct (pb_write_busy num (buffer f) q d d (le16 (htol16 len)) Hb W1 W2)
    as (m & Hw & Hb' & Hund); [lia|rewrite zlen_le16; lia|]. rewrite Hw.
  pose proof Hb as [(Hr & _) _ Hbm _ _ _ Hbi _ _].
  destruct (pri_done (input (buffer f)) (PACKETPROTO_ENCLEN len) W1) as (i & Hdn & Hi1 & _).
  { unfold PACKETPROTO_ENCLEN, sizeof_packetproto_header. lia. }
  rewrite Hdn.
  destruct (pb_finish num _ q d i (PACKETPROTO_ENCLEN len) Hb' W1 W2) as [Hb2 Hund2];
    [unfold PACKETPROTO_ENCLEN, sizeof_packetproto_header; simpl; lia | done |].
  change (with_buf_input (with_buf_input (buffer f) (input (buffer f)) m) i
            (cb_buffer (buf (with_buf_input (buffer f) (input (buffer f)) m))))
    with (with_buf_input (buffer f) i m) in Hb2, Hund2.
  eexists _, q, []. split; [done|]. split.
  - split; simpl; try done; try congruence. left.
    split; simpl; try done; [congruence|]. by rewrite W6, Hst.
  - unfold flow_pending. cbn [ainput encoder buffer]. rewrite Hund2, Hund.
    unfold written. simpl. rewrite Hst, Hj, W5. simpl. rewrite !app_nil_r. do 2 f_equal.
    fold len. destruct (cb_dest_range _ _ _ Hr W2) as [Hd0 Hd1].
    rewrite W1 in Hbi. destruct (_ >=? _) eqn:Ea in Hbi; [|done].
    assert (zlen (slice (d + 2) len (cb_buffer (buf (buffer f)))) = len) as Hpl
      by (apply zlen_slice; lia).
    unfold pp_encode, PACKETPROTO_ENCLEN, sizeof_packetproto_header. rewrite Hpl.
    rewrite slice_add by lia.
    pose proof (slice_write_same _ _ _ _ Hw) as Hh. rewrite zlen_le16 in Hh. rewrite Hh. f_equal.
    symmetry. eapply slice_write_disj; [done|lia|]. rewrite zlen_le16. lia.
Qed.

Lemma flow_step f q e : flow_ok num f q -> flow_enabled f e = true -> flow_step_ok f q e.
Proof.
  intros Hok He. destruct e; simpl in He.
  - apply flow_buffer_recv; [done|by apply st_is_true].
  - apply flow_writer_recv; [done|by apply st_is_true].
  - apply flow_write; [done|lia].
  - apply flow_writer_done; [done|by apply st_is_true].
  - apply flow_encoder_done; [done|by apply st_is_true].
  - apply (flow_out f q BOutOperation); auto.
  - apply (flow_out f q BOutDone); auto.
  - apply (flow_out f q BOutJobDone); auto.
Qed.

End Steps.


Lemma accepted_app os os' : accepted (os ++ os') = accepted os ++ accepted os'.
Proof. unfold accepted. by rewrite fmap_app, join_app. Qed.

Lemma sent_app os os' : sent (os ++ os') = sent os ++ sent os'.
Proof. unfold sent. by rewrite fmap_app, join_app. Qed.

Lemma flow_run_ok num es : forall f q f' os,
  flow_ok num f q -> flow_run f es = Some (f', os) ->
  exists q', flow_ok num f' q' /\
    flow_pending f q ++ (pp_encode <$> accepted os) = sent os ++ flow_pending f' q'.
Proof.
  induction es as [|e es IH]; intros f q f' os Hok Hrun; cbn [flow_run] in Hrun.
  { inv_some. exists q. split; [done|]. by rewrite app_nil_r. }
  destruct (flow_enabled f e) eqn:En; [|done].
  destruct (flow_step num f q e Hok En) as (f1 & q1 & o1 & Hx & Hok1 & Hu). rewrite Hx in Hrun.
  destruct (flow_run (f1, o1).1 es) as [[f2 o2]|] eqn:E2; [|done]. simpl in Hrun. inv_some.
  destruct (IH _ _ _ _ Hok1 E2) as (q2 & Hok2 & Hu2). exists q2. split; [done|].
  rewrite accepted_app, sent_app, fmap_app, app_assoc, Hu, <- app_assoc, Hu2. by rewrite app_assoc.
Qed.

Lemma flow_init_ok malloc mtu num out f :
  (forall n m, malloc n = Some m -> zlen m = n) -> ppi_state out = ST_NONE -> num <= INT_MAX ->
  4 * ChunkBuffer2_calc_blocks (PACKETPROTO_ENCLEN mtu) num <= INT_MAX ->
  PacketProtoFlow_Init malloc mtu num out = Some (Some f) ->
  flow_ok num f [] /\ flow_pending f [] = [].
Proof.
  intros Hma Hout Hnum Hmax. unfold PacketProtoFlow_Init.
  destruct (0 <=? mtu) eqn:E1; [|done]. destruct (mtu <=? _) eqn:E2; [|done].
  destruct (num >? 0) eqn:E3; [|done]. destruct (_ >=? _) eqn:E4; [|done].
  unfold BufferWriter_Init, PacketRecvInterface_Init. rewrite E1. cbn [recv_interface].
  unfold PacketProtoEncoder_Init. cbn [pri_mtu]. rewrite E2. simpl.
  assert (0 <= PACKETPROTO_ENCLEN mtu <= INT_MAX) as Hr.
  { unfold PACKETPROTO_ENCLEN, sizeof_packetproto_header, PACKETPROTO_MAXPAYLOAD, UINT16_MAX, INT_MAX in *. lia. }
  unfold PacketRecvInterface_Init. rewrite (proj2 (Z.leb_le _ _)) by lia.
  destruct (PacketBuffer_Init _ _ _ _) as [[b|]|] eqn:Eb; [|done..]. intros [= <-].
  assert (pb_ok num b [] /\ undelivered b [] = []) as [Hb Hu] by by eapply pb_init_ok; [..|exact Eb].
  pose proof Hb as [_ _ Hbm _ _ _ _ _ _].
  assert (input_mtu b = PACKETPROTO_ENCLEN mtu /\ pri_state (input b) = ST_OPERATION_PENDING) as [Em Es].
  { revert Eb. unfold PacketBuffer_Init, PacketRecvInterface_Receiver_Init.
    repeat (match goal with |- context [if ?c then _ else _] => destruct c; [|done] end || simpl).
    destruct (PacketPassInterface_Sender_Init out); [|done]. destruct (_ <? 0); [done|].
    destruct (malloc _); [|done]. destruct (ChunkBuffer2_Init _ _ _) as [cb|]; [|done].
    destruct (cb_input_dest cb); [|done]. simpl. intros [= <-]. done. }
  split.
  - split; simpl; try done.
    + lia.
    + left. split; simpl; try done. by rewrite Es.
  - unfold flow_pending, written. simpl. by rewrite Hu.
Qed.

(** C12. A [PacketProtoFlow] sends, in order and without loss, the encodings of
    exactly the packets its user could write: in every history the packets given
    to the sink followed by those still inside are the encodings of the accepted
    packets; a packet is only refused while an earlier one is on its way through
    the encoder or at least [num_packets] are queued; and no assertion fails and
    no access leaves the buffer whatever the interleaving of writer, encoder,
    buffer and sink. *)
Theorem proto_flow_encodes malloc mtu num sink f es f' os
    (Hmalloc : forall n m, malloc n = Some m -> zlen m = n)
    (Hout : ppi_state sink = ST_NONE) (Hnum : num <= INT_MAX)
    (Hmax : 4 * ChunkBuffer2_calc_blocks (PACKETPROTO_ENCLEN mtu) num <= INT_MAX)
    (Hinit : PacketProtoFlow_Init malloc mtu num sink = Some (Some f))
    (Hrun : flow_run f es = Some (f', os)) :
  exists q, cb_rel (buf (buffer f')) q /\
    pp_encode <$> accepted os = sent os ++ flow_pending f' q /\
    (pri_state (input (buffer f')) = ST_NONE -> num <= zlen q) /\
    (pri_state (input (buffer f')) = ST_BUSY ->
       pri_state (recv_interface (ainput f')) = ST_BUSY ->
       forall p, zlen p <= d_mtu (ainput f') ->
       exists g, flow_exec f' (FWrite p) = Some (g, [FAccepted p])) /\
    forall e, flow_enabled f' e = true -> is_Some (flow_exec f' e).
Proof.
  destruct (flow_init_ok _ _ _ _ _ Hmalloc Hout Hnum Hmax Hinit) as [Hok Hp].
  destruct (flow_run_ok _ _ _ _ _ _ Hok Hrun) as (q & Hok' & Hu). rewrite Hp in Hu.
  pose proof Hok' as [[(Hr & Hcm & Hcs & Hf) ? ? ? ? ? Hi _ Ho] Hm Hdm Hwm Hus Hid Hc].
  exists q. split_and!; [done|done| | |].
  - intros Hn. destruct (decide (num <= zlen q)) as [|Hlt]; [done|exfalso].
    destruct (cb_capacity _ _ _ _ Hr ltac:(eassumption) Hcm Hcs Hf ltac:(lia)) as (d & _ & Ha).
    rewrite Z.geb_leb, (proj2 (Z.leb_le _ _)) in Hi by lia. by destruct Hi.
  - intros Hb Hw p Hl.
    assert (flow_enabled f' (FWrite p) = true) as En by (simpl; lia).
    destruct (flow_step num f' q _ Hok' En) as (g & q' & o & Hx & _). exists g. rewrite Hx.
    revert Hx. cbn [flow_exec]. unfold BufferWriter_StartPacket. rewrite Hid. cbn [negb].
    destruct Hc as [[R1 R2 R3 R4] | [d [W1 W2 W3 W4 W5 W6 W7 W8]]]; [done|].
    rewrite W6, Hw. cbn [st_is negb bool_decide]. simpl.
    destruct (out (ainput f')); [|done]. destruct (mem_write _ _ _); [|done].
    destruct (BufferWriter_EndPacket _ _); [|done]. by intros [= <- <-].
  - intros e He. destruct (flow_step _ _ _ _ Hok' He) as (? & ? & ? & -> & _). eauto.
Qed.

Definition demo_events : list flow_event :=
  [FBufferRecv; FWrite [9]; FWriterRecv; FWrite [1;2;3]; FWriterDone; FEncoderDone; FOutOperation;
   FBufferRecv; FWriterRecv; FOutDone; FWrite [4]; FWriterDone; FOutJobDone; FEncoderDone; FOutOperation].

Lemma proto_flow_encodes_witness :
  exists sink f f' os,
    PacketProtoFlow_Init zalloc 5 2 sink = Some (Some f) /\
    flow_run f demo_events = Some (f', os) /\
    (exists q, pp_encode <$> accepted os = sent os ++ flow_pending f' q) /\
    os = [FRefused [9]; FAccepted [1;2;3]; FSent [3;0;1;2;3]; FAccepted [4]; FSent [1;0;4]].
Proof.
  set (sink := mkPPI (A:=Z) 7 false false false None 0 false false ST_NONE false).
  destruct (PacketProtoFlow_Init zalloc 5 2 sink) as [[f|]|] eqn:Hi; [|discriminate Hi..].
  destruct (flow_run f demo_events) as [[f' os]|] eqn:Hr.
  2: { exfalso. revert Hr. injection Hi as <-. vm_compute. discriminate. }
  exists sink, f, f', os. split_and!; [done..| |].
  - destruct (proto_flow_encodes zalloc 5 2 sink f demo_events f' os zalloc_size eq_refl
      ltac:(vm_compute; discriminate) ltac:(vm_compute; discriminate) Hi Hr) as (q & _ & Hx & _).
    by exists q.
  - revert Hr. injection Hi as <-. vm_compute. intros [= _ <-]. done.
Defined.
