(* ===== verification/LinkedLists.v ===== *)
(** * Doubly linked lists: [structure/LinkedList1.h], [structure/SLinkedList_impl.h]

    Nodes live inside other objects; the memory of the nodes is a map from object
    addresses to their two pointers, and a list object is its first (and last)
    pointer. [None] is a pointer followed to an object that is not there. The
    lemmas relate the memory to the list of the addresses ([dseg], [list_rel],
    [llist_rel]); the theorem is that [LinkedList1] implements lists. *)

From S2P Require Import Prelude.

Section Nodes.
Context {A : Type} `{Countable A}.

(** ** Nodes *)

Record ListNode := mkNode { node_prev : option A; node_next : option A }.

#[export] Instance node_eq_dec : EqDecision ListNode.
Proof. solve_decision. Defined.

Abbreviation heap := (gmap A ListNode).

Definition set_prev (h : heap) (a : A) (p : option A) : option heap :=
  let* n := h !! a in Some (<[a := mkNode p (node_next n)]> h).
Definition set_next (h : heap) (a : A) (p : option A) : option heap :=
  let* n := h !! a in Some (<[a := mkNode (node_prev n) p]> h).

(** ** [SLinkedList], without its last pointer: the list object is [first]. *)

Definition SLinkedList_Init : option A := None.

Definition SLinkedList_Prepend (h : heap) (first : option A) (entry : A)
  : option (heap * option A) :=
  let* h := set_prev h entry None in
  let* h := set_next h entry first in
  let* h := match first with Some f => set_prev h f (Some entry) | None => Some h end in
  Some (h, Some entry).

Definition SLinkedList_Remove (h : heap) (first : option A) (entry : A)
  : option (heap * option A) :=
  let* n := h !! entry in
  let* r := match node_prev n with
            | Some p => let* h := set_next h p (node_next n) in Some (h, first)
            | None => Some (h, node_next n)
            end in
  let '(h, first) := r in
  let* n := h !! entry in
  let* h := match node_next n with
            | Some x => set_prev h x (node_prev n)
            | None => Some h
            end in
  Some (h, first).

Definition SLinkedList_First (first : option A) : option A := first.
Definition SLinkedList_IsEmpty (first : option A) : bool := bool_decide (first = None).

(** ** [LinkedList1]. A node that is inserted is uninitialised: its entry is made. *)

Record LinkedList1 := mkList { l_first : option A; l_last : option A }.

Definition LinkedList1_Init : LinkedList1 := mkList None None.
Definition LinkedList1_IsEmpty (l : LinkedList1) : bool := bool_decide (l_first l = None).
Definition LinkedList1_GetFirst (l : LinkedList1) : option A := l_first l.
Definition LinkedList1_GetLast (l : LinkedList1) : option A := l_last l.

Definition set_first (l : LinkedList1) (x : option A) : LinkedList1 := mkList x (l_last l).
Definition set_last (l : LinkedList1) (x : option A) : LinkedList1 := mkList (l_first l) x.

Definition LinkedList1_Prepend (h : heap) (l : LinkedList1) (node : A) : option (heap * LinkedList1) :=
  let h := <[node := mkNode None (l_first l)]> h in
  let* r := match l_first l with
            | Some f => let* h := set_prev h f (Some node) in Some (h, l)
            | None => Some (h, set_last l (Some node))
            end in
  Some (r.1, set_first r.2 (Some node)).

Definition LinkedList1_Append (h : heap) (l : LinkedList1) (node : A) : option (heap * LinkedList1) :=
  let h := <[node := mkNode (l_last l) None]> h in
  let* r := match l_last l with
            | Some f => let* h := set_next h f (Some node) in Some (h, l)
            | None => Some (h, set_first l (Some node))
            end in
  Some (r.1, set_last r.2 (Some node)).

Definition LinkedList1_InsertBefore (h : heap) (l : LinkedList1) (node target : A) : option (heap * LinkedList1) :=
  let* t := h !! target in
  let h := <[node := mkNode (node_prev t) (Some target)]> h in
  let* r := match node_prev t with
            | Some p => let* h := set_next h p (Some node) in Some (h, l)
            | None => Some (h, set_first l (Some node))
            end in
  let* h := set_prev r.1 target (Some node) in
  Some (h, r.2).

Definition LinkedList1_InsertAfter (h : heap) (l : LinkedList1) (node target : A) : option (heap * LinkedList1) :=
  let* t := h !! target in
  let h := <[node := mkNode (Some target) (node_next t)]> h in
  let* r := match node_next t with
            | Some n => let* h := set_prev h n (Some node) in Some (h, l)
            | None => Some (h, set_last l (Some node))
            end in
  let* h := set_next r.1 target (Some node) in
  Some (h, r.2).

Definition LinkedList1_Remove (h : heap) (l : LinkedList1) (node : A) : option (heap * LinkedList1) :=
  let* n := h !! node in
  let* r := match node_prev n with
            | Some p => let* h := set_next h p (node_next n) in Some (h, l)
            | None => Some (h, set_first l (node_next n))
            end in
  let '(h, l) := r in
  let* n := h !! node in
  match node_next n with
  | Some x => let* h := set_prev h x (node_prev n) in Some (h, l)
  | None => Some (h, set_last l (node_prev n))
  end.

Definition LinkedList1_InsertListAfter (h : heap) (l ins_list : LinkedList1) (target : option A)
  : option (heap * LinkedList1) :=
  match l_first ins_list with
  | None => Some (h, l)
  | Some ifirst =>
      let* t_next := (match target with
                      | Some t => let* n := h !! t in Some (node_next n)
                      | None => Some (l_first l)
                      end) in
      let* h := set_prev h ifirst target in
      let* ilast := l_last ins_list in
      let* h := set_next h ilast t_next in
      let* r := match target with
                | Some t => let* h := set_next h t (Some ifirst) in Some (h, l)
                | None => Some (h, set_first l (Some ifirst))
                end in
      match t_next with
      | Some t => let* h := set_prev r.1 t (Some ilast) in Some (h, r.2)
      | None => Some (r.1, set_last r.2 (Some ilast))
      end
  end.

Definition LinkedList1Node_Next (h : heap) (node : A) : option (option A) := let* n := h !! node in Some (node_next n).
Definition LinkedList1Node_Prev (h : heap) (node : A) : option (option A) := let* n := h !! node in Some (node_prev n).

(** ** Lists in memory *)

Definition or_else (x y : option A) : option A := match x with Some _ => x | None => y end.

(** [dseg h prev l nxt]: the nodes of [l] are linked in order, between a node
    [prev] and a node [nxt]. *)
Fixpoint dseg (h : heap) (prev : option A) (l : list A) (nxt : option A) : Prop :=
  match l with
  | [] => True
  | x :: t => h !! x = Some (mkNode prev (or_else (head t) nxt)) /\ dseg h (Some x) t nxt
  end.

Definition list_rel (h : heap) (first : option A) (l : list A) : Prop :=
  first = head l /\ NoDup l /\ dseg h None l None.

Definition llist_rel (h : heap) (o : LinkedList1) (l : list A) : Prop :=
  l_last o = list.last l /\ list_rel h (l_first o) l.

(** [p->n = v] and [p->p = v] if there is a [p]. *)
Definition relink_prev (p : option A) (n : ListNode) := mkNode p (node_next n).
Definition relink_next (x : option A) (n : ListNode) := mkNode (node_prev n) x.
Definition alter_next (p v : option A) (h : heap) : heap := match p with Some p => alter (relink_next v) p h | None => h end.
Definition alter_prev (p v : option A) (h : heap) : heap := match p with Some p => alter (relink_prev v) p h | None => h end.

Lemma set_prev_alter h a n p : h !! a = Some n -> set_prev h a p = Some (alter (relink_prev p) a h).
Proof.
  intros Ha. unfold set_prev. rewrite Ha. f_equal. apply map_eq. intros x.
  destruct (decide (x = a)) as [->|Hne].
  - rewrite lookup_insert_eq, lookup_alter_eq, Ha. done.
  - rewrite lookup_insert_ne, lookup_alter_ne by congruence. done.
Qed.

Lemma set_next_alter h a n p : h !! a = Some n -> set_next h a p = Some (alter (relink_next p) a h).
Proof.
  intros Ha. unfold set_next. rewrite Ha. f_equal. apply map_eq. intros x.
  destruct (decide (x = a)) as [->|Hne].
  - rewrite lookup_insert_eq, lookup_alter_eq, Ha. done.
  - rewrite lookup_insert_ne, lookup_alter_ne by congruence. done.
Qed.

Lemma alter_next_ne p v h y : p <> Some y -> alter_next p v h !! y = h !! y.
Proof. intros Hp. destruct p as [p|]; [|done]. apply lookup_alter_ne. congruence. Qed.
Lemma alter_prev_ne p v h y : p <> Some y -> alter_prev p v h !! y = h !! y.
Proof. intros Hp. destruct p as [p|]; [|done]. apply lookup_alter_ne. congruence. Qed.
Lemma dom_alter_next p v h : dom (alter_next p v h) = dom h.
Proof. destruct p; [apply dom_alter_L|done]. Qed.
Lemma dom_alter_prev p v h : dom (alter_prev p v h) = dom h.
Proof. destruct p; [apply dom_alter_L|done]. Qed.

Lemma dseg_frame h h' prev l nxt :
  (forall x, x ∈ l -> h' !! x = h !! x) -> dseg h prev l nxt -> dseg h' prev l nxt.
Proof.
  revert prev. induction l as [|x t IH]; intros prev Hf; simpl; [done|].
  intros [Hx Ht]. split.
  - rewrite Hf by set_solver. done.
  - apply IH; [|done]. intros y Hy. apply Hf. set_solver.
Qed.

Lemma dseg_app h prev l1 l2 nxt :
  dseg h prev (l1 ++ l2) nxt <->
  dseg h prev l1 (or_else (head l2) nxt) /\ dseg h (or_else (list.last l1) prev) l2 nxt.
Proof.
  revert prev. induction l1 as [|x t IH]; intros prev; simpl; [tauto|].
  rewrite IH. destruct t as [|y t]; [simpl; tauto|].
  assert (exists z, list.last (y :: t) = Some z) as [z Hz].
  { destruct (list.last (y :: t)) eqn:E; [eauto|]. by apply last_None in E. }
  change (list.last (x :: y :: t)) with (list.last (y :: t)). rewrite Hz. simpl. tauto.
Qed.

Lemma dseg_lookup h prev l1 x l2 nxt :
  dseg h prev (l1 ++ x :: l2) nxt ->
  h !! x = Some (mkNode (or_else (list.last l1) prev) (or_else (head l2) nxt)).
Proof. intros Hd. apply dseg_app in Hd as [_ [Hx _]]. done. Qed.

Lemma or_none x : or_else x None = x.
Proof. by destruct x. Qed.

(** Changing where a segment begins and ends. *)
Lemma dseg_relink_begin h prev prev' l nxt :
  NoDup l -> dseg h prev l nxt -> dseg (alter_prev (head l) prev' h) prev' l nxt.
Proof.
  destruct l as [|x t]; simpl; [done|]. intros Hnd [Hx Ht]. apply list.NoDup_cons in Hnd as [Hn _].
  rewrite lookup_alter_eq, Hx. split; [done|]. eapply dseg_frame; [|exact Ht].
  intros y Hy. apply lookup_alter_ne. intros ->. done.
Qed.

Lemma dseg_relink_end h prev l nxt nxt' :
  NoDup l -> dseg h prev l nxt -> dseg (alter_next (list.last l) nxt' h) prev l nxt'.
Proof.
  destruct l as [|p l _] using rev_ind; [done|].
  intros Hnd Hd. rewrite last_snoc. apply list.NoDup_app in Hnd as (_ & Hn & _).
  apply dseg_app in Hd as [H1 [H2 _]]. apply dseg_app. split.
  - eapply dseg_frame; [|exact H1]. intros y Hy. apply lookup_alter_ne. intros ->.
    apply (Hn y Hy). set_solver.
  - simpl. rewrite lookup_alter_eq, H2. done.
Qed.

Lemma last_elem (l : list A) y : list.last l = Some y -> y ∈ l.
Proof. apply last_Some_elem_of. Qed.
Lemma head_elem (l : list A) y : head l = Some y -> y ∈ l.
Proof. destruct l; [done|]. intros [= ->]. by left. Qed.

(** Two ends of a list joined with a segment between them: every operation
    writes the two nodes next to the change. *)
Definition join (h : heap) (l1 mid l2 : list A) : heap :=
  alter_prev (head l2) (list.last (l1 ++ mid)) (alter_next (list.last l1) (head (mid ++ l2)) h).

Lemma join_other h l1 mid l2 y : y ∉ l1 -> y ∉ l2 -> join h l1 mid l2 !! y = h !! y.
Proof.
  intros H1 H2. unfold join. rewrite alter_prev_ne by (intros ?%head_elem; done).
  apply alter_next_ne. by intros ?%last_elem.
Qed.

Lemma dom_join h l1 mid l2 : dom (join h l1 mid l2) = dom h.
Proof. unfold join. by rewrite dom_alter_prev, dom_alter_next. Qed.

Lemma join_dseg h l1 mid l2 x y :
  NoDup (l1 ++ mid ++ l2) -> dseg h None l1 x -> dseg h (list.last l1) mid (head l2) -> dseg h y l2 None ->
  dseg (join h l1 mid l2) None (l1 ++ mid ++ l2) None.
Proof.
  intros Hnd H1 Hm H2. apply list.NoDup_app in Hnd as (N1 & D1 & Nm). apply list.NoDup_app in Nm as (Nm & Dm & N2).
  unfold join. apply dseg_app. rewrite !or_none. split; [|apply dseg_app; rewrite !or_none; split].
  - eapply dseg_frame; [|exact (dseg_relink_end _ _ _ _ (head (mid ++ l2)) N1 H1)]. intros z Hz. apply alter_prev_ne.
    intros E%head_elem. apply (D1 z Hz). set_solver.
  - eapply dseg_frame; [|exact Hm]. intros z Hz. rewrite alter_prev_ne, alter_next_ne; [done|..].
    + intros E%last_elem. apply (D1 z E). set_solver.
    + intros E%head_elem. by apply (Dm z Hz).
  - replace (or_else (list.last mid) (list.last l1)) with (list.last (l1 ++ mid)) by (rewrite last_app; by destruct (list.last mid)).
    eapply dseg_relink_begin; [done|]. eapply dseg_frame; [|exact H2]. intros z Hz. apply alter_next_ne.
    intros E%last_elem. apply (D1 z E). set_solver.
Qed.

Lemma dseg_node h prev l nxt y : dseg h prev l nxt -> y ∈ l -> exists n, h !! y = Some n.
Proof.
  revert prev. induction l as [|x t IH]; intros prev; [by intros _ ?%elem_of_nil|]. intros [Hx Ht] [->|Hy]%elem_of_cons; eauto.
Qed.

(** Writing the next or previous pointer of a node that may not exist. *)
Lemma set_next_opt {B} h prev l nxt v (k : heap -> B) (z : B) :
  dseg h prev l nxt ->
  (match list.last l with Some p => (let* h := set_next h p v in Some (k h)) | None => Some z end) =
  Some (match list.last l with Some _ => k (alter_next (list.last l) v h) | None => z end).
Proof.
  intros Hd. destruct (list.last l) as [p|] eqn:E; [|done]. destruct (dseg_node _ _ _ _ p Hd) as (n & Hn); [by apply last_elem|].
  by rewrite (set_next_alter _ _ _ _ Hn).
Qed.

Lemma set_prev_opt {B} h prev l nxt v (k : heap -> B) (z : B) :
  dseg h prev l nxt ->
  (match head l with Some p => (let* h := set_prev h p v in Some (k h)) | None => Some z end) =
  Some (match head l with Some _ => k (alter_prev (head l) v h) | None => z end).
Proof.
  intros Hd. destruct (head l) as [p|] eqn:E; [|done]. destruct (dseg_node _ _ _ _ p Hd) as (n & Hn); [by apply head_elem|].
  by rewrite (set_prev_alter _ _ _ _ Hn).
Qed.

Lemma dseg_alter_next h prev l nxt p v : p ∉ l -> dseg h prev l nxt -> dseg (alter_next (Some p) v h) prev l nxt.
Proof. intros Hp. apply dseg_frame. intros y Hy. apply alter_next_ne. congruence. Qed.

(** The list object after a change between [l1] and [l2]. *)
Definition joined (l1 mid l2 : list A) : LinkedList1 := mkList (head (l1 ++ mid ++ l2)) (list.last (l1 ++ mid ++ l2)).

Lemma joined_rel h l1 mid l2 x y :
  NoDup (l1 ++ mid ++ l2) -> dseg h None l1 x -> dseg h (list.last l1) mid (head l2) -> dseg h y l2 None ->
  llist_rel (join h l1 mid l2) (joined l1 mid l2) (l1 ++ mid ++ l2).
Proof. intros Hn H1 Hm H2. split; [done|]. split; [done|]. split; [done|]. by eapply join_dseg. Qed.

Lemma rel_split h o l1 x l2 : llist_rel h o (l1 ++ x :: l2) ->
  h !! x = Some (mkNode (list.last l1) (head l2)) /\ dseg h None l1 (Some x) /\ dseg h (Some x) l2 None /\ (x ∉ l1) /\ (x ∉ l2) /\ NoDup (l1 ++ l2) /\
  l_first o = head (l1 ++ x :: l2) /\ l_last o = list.last (l1 ++ x :: l2).
Proof.
  intros (El & Ef & Hnd & Hd). pose proof (dseg_lookup _ _ _ _ _ _ Hd) as Hx. rewrite !or_none in Hx.
  apply dseg_app in Hd as [H1 [_ H2]]. apply list.NoDup_app in Hnd as (N1 & D & N2). apply list.NoDup_cons in N2 as [Hx2 N2].
  split_and!; try done; [intros Hx1; apply (D x Hx1); by left|]. apply list.NoDup_app. split_and!; [done| |done].
  intros y Hy Hy2. apply (D y Hy). by right.
Qed.

Lemma LinkedList1_Remove_ok h o l1 x l2 :
  llist_rel h o (l1 ++ x :: l2) ->
  LinkedList1_Remove h o x = Some (join h l1 [] l2, joined l1 [] l2) /\
  llist_rel (join h l1 [] l2) (joined l1 [] l2) (l1 ++ l2).
Proof.
  intros R. destruct (rel_split _ _ _ _ _ R) as (Hx & H1 & H2 & Hx1 & Hx2 & Hnd & Ef & El). split; [|by eapply (joined_rel h l1 [] l2)].
  unfold LinkedList1_Remove. rewrite Hx. cbn [node_prev node_next]. rewrite (set_next_opt _ _ _ _ _ (fun h => (h, o)) _ H1).
  unfold join, joined. rewrite app_nil_r. cbn [app]. destruct o as [f la]. cbn [l_first l_last] in Ef, El. subst f la.
  set (h1 := alter_next (list.last l1) (head l2) h).
  assert (dseg h1 (Some x) l2 None) as H2'.
  { eapply dseg_frame; [|exact H2]. intros y Hy. apply alter_next_ne. intros E%last_elem. apply list.NoDup_app in Hnd as (_ & D & _). by apply (D y). }
  assert (h1 !! x = h !! x) as Ex by (apply alter_next_ne; by intros E%last_elem).
  destruct l1 as [|z l1' _] using rev_ind.
  - subst h1. cbn [list.last alter_next]. rewrite Hx. cbn [node_next node_prev list.last].
    rewrite (set_prev_opt _ _ _ _ _ (fun h => (h, set_first _ _)) _ H2). destruct l2; [done|]. done.
  - subst h1. rewrite last_snoc in *. rewrite Ex, Hx. cbn [node_next node_prev].
    rewrite (set_prev_opt _ _ _ _ _ (fun h => (h, _)) _ H2'). destruct l2 as [|w l2]; cbn [head].
    + rewrite app_nil_r, !last_snoc. cbn [head]. unfold set_last. cbn [l_first]. do 3 f_equal. by destruct l1'.
    + do 3 f_equal; [by destruct l1'|by rewrite !last_app_cons].
Qed.

(** Inserting a node: [h] with the node written is [h0]. *)
Lemma insert_rel h l1 x l2 n1 n2 :
  NoDup (l1 ++ l2) -> x ∉ l1 ++ l2 -> dseg h None l1 n1 -> dseg h n2 l2 None ->
  let h0 := <[x := mkNode (list.last l1) (head l2)]> h in
  dseg h0 None l1 n1 /\ dseg h0 n2 l2 None /\ llist_rel (join h0 l1 [x] l2) (joined l1 [x] l2) (l1 ++ x :: l2).
Proof.
  intros Hnd Hx H1 H2 h0. rewrite elem_of_app in Hx.
  assert (forall l p q, (forall y, y ∈ l -> y ∈ l1 ++ l2) -> dseg h p l q -> dseg h0 p l q) as Hf.
  { intros l p q Hl. apply dseg_frame. intros y Hy. apply lookup_insert_ne. intros ->. apply Hl, elem_of_app in Hy. tauto. }
  assert (dseg h0 None l1 n1) as H1' by (apply Hf; [|done]; intros y Hy; apply elem_of_app; by left).
  assert (dseg h0 n2 l2 None) as H2' by (apply Hf; [|done]; intros y Hy; apply elem_of_app; by right).
  split_and!; [done|done|]. eapply (joined_rel h0 l1 [x] l2); [|exact H1'| |exact H2'].
  - apply list.NoDup_app in Hnd as (N1 & D & N2). apply list.NoDup_app. split_and!; [done| |].
    + intros y Hy [->|Hy2]%elem_of_cons; [tauto|]. by apply (D y).
    + apply list.NoDup_cons. tauto.
  - simpl. split; [|done]. unfold h0. by rewrite lookup_insert_eq.
Qed.

Lemma LinkedList1_Prepend_ok h o l x :
  llist_rel h o l -> x ∉ l ->
  let h' := join (<[x := mkNode None (head l)]> h) [] [x] l in
  LinkedList1_Prepend h o x = Some (h', joined [] [x] l) /\ llist_rel h' (joined [] [x] l) (x :: l).
Proof.
  intros (El & Ef & Hnd & Hd) Hx h'. destruct (insert_rel h [] x l None None Hnd Hx) as (_ & H2 & R); [done|done|].
  split; [|exact R]. cbn [list.last] in H2. unfold LinkedList1_Prepend. rewrite Ef. rewrite (set_prev_opt _ _ _ _ _ (fun h => (h, o)) _ H2).
  cbn. subst h'. unfold join, joined. cbn. destruct l as [|y l]; [done|]. cbn. unfold set_first. rewrite El. done.
Qed.

Lemma LinkedList1_Append_ok h o l x :
  llist_rel h o l -> x ∉ l ->
  let h' := join (<[x := mkNode (list.last l) None]> h) l [x] [] in
  LinkedList1_Append h o x = Some (h', joined l [x] []) /\ llist_rel h' (joined l [x] []) (l ++ [x]).
Proof.
  intros (El & Ef & Hnd & Hd) Hx h'. destruct (insert_rel h l x [] None None) as (H1 & _ & R); [by rewrite app_nil_r..|done|done|].
  split; [|exact R]. cbn [head] in H1. unfold LinkedList1_Append. rewrite El. rewrite (set_next_opt _ _ _ _ _ (fun h => (h, o)) _ H1).
  subst h'. unfold join, joined. cbn. rewrite last_snoc. destruct l as [|y l _] using rev_ind; [done|]. rewrite last_snoc. cbn.
  unfold set_last. do 3 f_equal. rewrite Ef. by destruct l.
Qed.

Lemma last_app_cons_some (l1 l2 : list A) x : exists y, list.last (l1 ++ x :: l2) = Some y /\ list.last (x :: l2) = Some y.
Proof.
  rewrite last_app_cons. destruct (list.last (x :: l2)) eqn:E; [eauto|]. by apply last_None in E.
Qed.

Lemma LinkedList1_InsertBefore_ok h o l1 t l2 x :
  llist_rel h o (l1 ++ t :: l2) -> x ∉ l1 ++ t :: l2 ->
  let h' := join (<[x := mkNode (list.last l1) (Some t)]> h) l1 [x] (t :: l2) in
  LinkedList1_InsertBefore h o x t = Some (h', joined l1 [x] (t :: l2)) /\ llist_rel h' (joined l1 [x] (t :: l2)) (l1 ++ x :: t :: l2).
Proof.
  intros R Hx h'. destruct (rel_split _ _ _ _ _ R) as (Ht & H1 & H2 & Ht1 & Ht2 & _ & Ef & El). destruct R as (_ & _ & Hnd & Hd).
  apply dseg_app in Hd as [_ H2t]. rewrite or_none in H2t.
  destruct (insert_rel h l1 x (t :: l2) _ _ Hnd Hx H1 H2t) as (H1' & H2' & R). split; [|exact R].
  unfold LinkedList1_InsertBefore. rewrite Ht. cbn [node_prev]. cbn [head] in H1', H2'. rewrite (set_next_opt _ _ _ _ _ (fun h => (h, o)) _ H1').
  set (h0 := <[x := _]> h) in *. assert (alter_next (list.last l1) (Some x) h0 !! t = h0 !! t) as Et by (apply alter_next_ne; by intros E%last_elem).
  destruct H2' as [Ht' _]. rewrite Ht' in Et. assert (x <> t) as Hne by (intros ->; apply Hx; set_solver).
  subst h'. unfold join, joined. cbn [head app]. rewrite last_snoc, !last_app_cons.
  destruct l1 as [|z l1' _] using rev_ind; rewrite ?last_snoc in *; cbn [fst snd list.last] in *; rewrite (set_prev_alter _ _ _ _ Et).
  - unfold set_first. rewrite El. done.
  - do 3 f_equal. destruct o as [f la]; cbn [l_first l_last] in *. subst. f_equal; [by destruct l1'|]. by rewrite last_app_cons.
Qed.

Lemma LinkedList1_InsertAfter_ok h o l1 t l2 x :
  llist_rel h o (l1 ++ t :: l2) -> x ∉ l1 ++ t :: l2 ->
  let h0 := <[x := mkNode (Some t) (head l2)]> h in
  exists h', LinkedList1_InsertAfter h o x t = Some (h', joined (l1 ++ [t]) [x] l2) /\ llist_rel h' (joined (l1 ++ [t]) [x] l2) (l1 ++ t :: x :: l2).
Proof.
  intros R Hx h0. destruct (rel_split _ _ _ _ _ R) as (Ht & H1 & H2 & Ht1 & Ht2 & _ & Ef & El). destruct R as (_ & _ & Hnd & Hd).
  replace (l1 ++ t :: l2) with ((l1 ++ [t]) ++ l2) in Hnd, Hd, Hx by (by rewrite <- app_assoc). apply dseg_app in Hd as [H1t _]. rewrite or_none in H1t.
  destruct (insert_rel h (l1 ++ [t]) x l2 _ _ Hnd Hx H1t H2) as (H1' & H2' & R). rewrite last_snoc in H1', H2', R.
  exists (join h0 (l1 ++ [t]) [x] l2). split; [|by rewrite <- app_assoc in R]. unfold LinkedList1_InsertAfter. rewrite Ht. cbn [node_next].
  fold h0 in H1', H2' |- *. rewrite (set_prev_opt _ _ _ _ _ (fun h => (h, o)) _ H2'). apply dseg_app in H1' as [_ [Ht' _]].
  assert (alter_prev (head l2) (Some x) h0 !! t = h0 !! t) as Et by (apply alter_prev_ne; by intros E%head_elem). rewrite Ht' in Et.
  unfold join, joined. replace ((l1 ++ [t]) ++ [x] ++ l2) with (l1 ++ t :: x :: l2) by (by rewrite <- app_assoc). rewrite !last_snoc. cbn [app head].
  assert (head (l1 ++ t :: x :: l2) = l_first o) as E1 by (rewrite Ef; by destruct l1).
  assert (alter_next (Some t) (Some x) (alter_prev (head l2) (Some x) h0) = alter_prev (head l2) (Some x) (alter_next (Some t) (Some x) h0)) as Ec.
  { destruct l2 as [|y l2]; [done|]. cbn. rewrite alter_alter_ne; [done|]. intros ->. apply Ht2. by left. }
  destruct l2 as [|y l2]; cbn [head fst snd] in *.
  - rewrite (set_next_alter _ _ _ _ Ht'). unfold set_last. rewrite E1, last_app_cons. done.
  - rewrite (set_next_alter _ _ _ _ Et). rewrite <- Ec. cbn [alter_next]. do 3 f_equal. destruct o; cbn [l_first l_last] in *. subst. f_equal; [done|].
    by rewrite !last_app_cons.
Qed.

(** Where [target] is: the end of [l1]. *)
Lemma LinkedList1_InsertListAfter_ok h o ins l1 l2 mid :
  llist_rel h o (l1 ++ l2) -> llist_rel h ins mid -> (forall y, y ∈ mid -> y ∉ l1 ++ l2) ->
  exists h', LinkedList1_InsertListAfter h o ins (list.last l1) = Some (h', if decide (mid = []) then o else joined l1 mid l2) /\
    llist_rel h' (if decide (mid = []) then o else joined l1 mid l2) (l1 ++ mid ++ l2) /\
    (forall y, y ∉ l1 ++ mid ++ l2 -> h' !! y = h !! y).
Proof.
  intros (El & Ef & Hnd & Hd) (Eml & Emf & Hndm & Hm) Hdis. unfold LinkedList1_InsertListAfter. rewrite Emf, Eml.
  destruct mid as [|x m] eqn:Emid; cbn [head]; [rewrite decide_True by done; exists h; by split_and!|]. rewrite decide_False by done. rewrite <- Emid in *.
  assert (head mid = Some x) as Ex by by subst. destruct (list.last mid) as [z|] eqn:Ez; [|by apply last_None in Ez; subst].
  assert (NoDup (l1 ++ mid ++ l2)) as Hnd'.
  { apply list.NoDup_app in Hnd as (N1 & D & N2). apply list.NoDup_app. split_and!; [done| |apply list.NoDup_app; split_and!; [done| |done]].
    - intros y Hy [Hy2|Hy2]%elem_of_app; [|by apply (D y)]. apply (Hdis y Hy2). apply elem_of_app. by left.
    - intros y Hy Hy2. apply (Hdis y Hy). apply elem_of_app. by right. }
  assert ((match list.last l1 with Some t => let* n := h !! t in Some (node_next n) | None => Some (l_first o) end) = Some (head l2)) as ->.
  { destruct l1 as [|t l1' _] using rev_ind; [by rewrite Ef|]. rewrite last_snoc. apply dseg_app in Hd as [Hd _]. apply dseg_app in Hd as [_ [-> _]].
    cbn [node_next]. by rewrite or_none. }
  pose proof (dseg_relink_begin _ _ (list.last l1) _ _ Hndm Hm) as Hm1. destruct (dseg_node _ _ _ _ x Hm (head_elem _ _ Ex)) as (nx & Hnx).
  rewrite (set_prev_alter _ _ _ _ Hnx). rewrite Ex in Hm1. cbn [alter_prev] in Hm1.
  pose proof (dseg_relink_end _ _ _ _ (head l2) Hndm Hm1) as Hm2. destruct (dseg_node _ _ _ _ z Hm1 (last_elem _ _ Ez)) as (nz & Hnz).
  rewrite (set_next_alter _ _ _ _ Hnz). rewrite Ez in Hm2. cbn [alter_next] in Hm2. set (h2 := alter _ z _) in *.
  assert (forall y, y ∉ mid -> h2 !! y = h !! y) as Hfr.
  { intros y Hy. subst h2. rewrite !lookup_alter_ne; [done| |]; intros ->; apply Hy; [by apply head_elem|by apply last_elem]. }
  apply dseg_app in Hd as [H1 H2].
  assert (dseg h2 None l1 (or_else (head l2) None)) as H1'.
  { eapply dseg_frame; [|exact H1]. intros y Hy. apply Hfr. intros Hy2. apply (Hdis y Hy2), elem_of_app. by left. }
  assert (dseg h2 (or_else (list.last l1) None) l2 None) as H2'.
  { eapply dseg_frame; [|exact H2]. intros y Hy. apply Hfr. intros Hy2. apply (Hdis y Hy2), elem_of_app. by right. }
  exists (join h2 l1 mid l2). split_and!; [|by eapply joined_rel|].
  2: { intros y Hy. rewrite !elem_of_app in Hy. rewrite join_other by tauto. apply Hfr. tauto. }
  rewrite (set_next_opt _ _ _ _ _ (fun h => (h, o)) _ H1'). set (h3 := alter_next (list.last l1) (Some x) h2).
  assert (dseg h3 (or_else (list.last l1) None) l2 None) as H2''.
  { eapply dseg_frame; [|exact H2']. intros y Hy. apply alter_next_ne. intros E%last_elem. apply list.NoDup_app in Hnd as (_ & D & _). by apply (D y). }
  assert (join h2 l1 mid l2 = alter_prev (head l2) (Some z) h3) as ->.
  { unfold join, h3. rewrite last_app, Ez. by replace (head (mid ++ l2)) with (Some x) by by subst. }
  assert (list.last (l1 ++ mid) = Some z) as Elz by by rewrite last_app, Ez.
  assert (head (l1 ++ mid ++ l2) = or_else (head l1) (Some x)) as Eh by (subst; by destruct l1).
  unfold joined. rewrite Eh. destruct l2 as [|y l2]; cbn [head] in *.
  - rewrite !app_nil_r in *. rewrite Elz. subst h3. destruct l1 as [|t l1' _] using rev_ind; [done|]. rewrite last_snoc in *. cbn [fst snd]. unfold set_last. rewrite Ef. by destruct l1'.
  - destruct H2'' as [Hy _]. rewrite !app_assoc, last_app_cons, <- (last_app_cons l1 l2 y), <- El. subst h3.
    destruct l1 as [|t l1' _] using rev_ind; rewrite ?last_snoc in *; cbn [fst snd list.last] in *; cbn [alter_next] in Hy |- *; rewrite (set_prev_alter _ _ _ _ Hy); [done|].
    do 3 f_equal. destruct o; cbn [l_first l_last] in *. subst. by destruct l1'.
Qed.

(** ** [SLinkedList] does what [LinkedList1] does to the nodes and the first pointer. *)

Lemma SLinkedList_Remove_eq h o x :
  SLinkedList_Remove h (l_first o) x = (let* r := LinkedList1_Remove h o x in Some (r.1, l_first r.2)).
Proof.
  unfold SLinkedList_Remove, LinkedList1_Remove. destruct (h !! x) as [[p n]|]; [|done]. cbn [node_prev node_next].
  destruct p as [p|]; [destruct (set_next h p n) as [h1|]; [|done]|];
    (match goal with |- context [?h !! x] => destruct (h !! x) as [[p' n']|]; [|done] end); cbn [node_prev node_next];
    (destruct n' as [y|]; [by destruct (set_prev _ y p')|done]).
Qed.

Lemma SLinkedList_Prepend_eq h o x n :
  h !! x = Some n -> SLinkedList_Prepend h (l_first o) x = (let* r := LinkedList1_Prepend h o x in Some (r.1, l_first r.2)).
Proof.
  intros Hx. unfold SLinkedList_Prepend, LinkedList1_Prepend. unfold set_prev at 1. rewrite Hx.
  unfold set_next. rewrite lookup_insert_eq, insert_insert_eq. cbn [node_prev node_next].
  destruct (l_first o) as [f|]; [|done]. by destruct (set_prev _ f (Some x)).
Qed.

Lemma list_llist_rel h first l : list_rel h first l -> llist_rel h (mkList first (list.last l)) l.
Proof. by split. Qed.

Lemma remove_rel h first l1 x l2 :
  list_rel h first (l1 ++ x :: l2) ->
  exists h', SLinkedList_Remove h first x = Some (h', head (l1 ++ l2)) /\
    list_rel h' (head (l1 ++ l2)) (l1 ++ l2) /\ dom h' = dom h /\
    (forall y, y ∉ l1 ++ l2 -> h' !! y = h !! y).
Proof.
  intros R%list_llist_rel. pose proof (SLinkedList_Remove_eq h (mkList first (list.last (l1 ++ x :: l2))) x) as E.
  destruct (LinkedList1_Remove_ok _ _ _ _ _ R) as (E' & _ & R'). rewrite E' in E. eexists. split_and!; [exact E|exact R'|apply dom_join|].
  intros y Hy. rewrite elem_of_app in Hy. apply join_other; tauto.
Qed.

Lemma prepend_rel h first l x n :
  list_rel h first l -> x ∉ l -> h !! x = Some n ->
  exists h', SLinkedList_Prepend h first x = Some (h', Some x) /\
    list_rel h' (Some x) (x :: l) /\ dom h' = dom h /\ (forall y, y ∉ x :: l -> h' !! y = h !! y).
Proof.
  intros R%list_llist_rel Hx Hn. pose proof (SLinkedList_Prepend_eq h (mkList first (list.last l)) x n Hn) as E.
  destruct (LinkedList1_Prepend_ok _ _ _ _ R Hx) as (E' & _ & R'). rewrite E' in E. eexists. split_and!; [exact E|exact R'| |].
  - cbn [fst]. rewrite dom_join, dom_insert_L. apply elem_of_dom_2 in Hn. set_solver.
  - cbn [fst]. intros y Hy. apply not_elem_of_cons in Hy as [Hyx Hy]. rewrite join_other by (try done; apply not_elem_of_nil). by apply lookup_insert_ne.
Qed.

(** ** The operations on lists *)

Inductive list_op :=
  | LPrepend (node : A) | LAppend (node : A) | LInsertBefore (node target : A) | LInsertAfter (node target : A)
  | LRemove (node : A)
  | LInsertListAfter (nodes : list A) (target : option A).  (* a list made of the nodes, then spliced in *)

(** A fresh list of the nodes, by appending. *)
Fixpoint make_list (h : heap) (l : LinkedList1) (nodes : list A) : option (heap * LinkedList1) :=
  match nodes with
  | [] => Some (h, l)
  | x :: nodes => let* (h, l) := LinkedList1_Append h l x in make_list h l nodes
  end.

Definition list_exec (s : heap * LinkedList1) (op : list_op) : option (heap * LinkedList1) :=
  let '(h, l) := s in
  match op with
  | LPrepend x => LinkedList1_Prepend h l x
  | LAppend x => LinkedList1_Append h l x
  | LInsertBefore x t => LinkedList1_InsertBefore h l x t
  | LInsertAfter x t => LinkedList1_InsertAfter h l x t
  | LRemove x => LinkedList1_Remove h l x
  | LInsertListAfter xs t =>
      let* (h, ins) := make_list h LinkedList1_Init xs in LinkedList1_InsertListAfter h l ins t
  end.

(** The list split before an element. *)
Fixpoint split_at (t : A) (l : list A) : list A * list A :=
  match l with
  | [] => ([], [])
  | x :: l => if decide (x = t) then ([], x :: l) else let r := split_at t l in (x :: r.1, r.2)
  end.

Definition list_spec (l : list A) (op : list_op) : list A :=
  match op with
  | LPrepend x => x :: l
  | LAppend x => l ++ [x]
  | LInsertBefore x t => let r := split_at t l in r.1 ++ x :: r.2
  | LInsertAfter x t => let r := split_at t l in r.1 ++ t :: x :: tail r.2
  | LRemove x => let r := split_at x l in r.1 ++ tail r.2
  | LInsertListAfter xs None => xs ++ l
  | LInsertListAfter xs (Some t) => let r := split_at t l in r.1 ++ t :: xs ++ tail r.2
  end.

(** What the callers see to: inserted nodes are not in the list, targets are. *)
Definition list_legal (l : list A) (op : list_op) : bool :=
  match op with
  | LPrepend x | LAppend x => bool_decide (x ∉ l)
  | LInsertBefore x t | LInsertAfter x t => bool_decide (x ∉ l) && bool_decide (t ∈ l)
  | LRemove x => bool_decide (x ∈ l)
  | LInsertListAfter xs t =>
      bool_decide (NoDup xs) && forallb (fun x => bool_decide (x ∉ l)) xs &&
      match t with Some t => bool_decide (t ∈ l) | None => true end
  end.

Fixpoint list_exec_all (s : heap * LinkedList1) (ops : list list_op) : option (heap * LinkedList1) :=
  match ops with [] => Some s | op :: ops => let* s := list_exec s op in list_exec_all s ops end.
Fixpoint list_all_legal (l : list A) (ops : list list_op) : bool :=
  match ops with [] => true | op :: ops => list_legal l op && list_all_legal (list_spec l op) ops end.

Lemma split_at_elem t l : t ∈ l -> exists l2, split_at t l = ((split_at t l).1, t :: l2) /\ l = (split_at t l).1 ++ t :: l2.
Proof.
  induction l as [|x l IH]; simpl; [by intros ?%elem_of_nil|]. intros Ht. case_decide as Hx.
  - subst. by exists l.
  - apply elem_of_cons in Ht as [->|Ht]; [done|]. destruct (IH Ht) as (l2 & E & El). exists l2. rewrite E. cbn [fst snd]. split; [done|].
    cbn [app]. by f_equal.
Qed.

Lemma make_list_ok nodes : forall h o l, llist_rel h o l -> NoDup (l ++ nodes) ->
  exists h' o', make_list h o nodes = Some (h', o') /\ llist_rel h' o' (l ++ nodes) /\ (forall y, y ∉ l ++ nodes -> h' !! y = h !! y).
Proof.
  induction nodes as [|x nodes IH]; intros h o l R Hnd; cbn [make_list].
  { exists h, o. rewrite app_nil_r in *. by split_and!. }
  assert (x ∉ l) as Hx by (apply list.NoDup_app in Hnd as (_ & D & _); intros Hx; apply (D x Hx); by left).
  destruct (LinkedList1_Append_ok _ _ _ _ R Hx) as (-> & R'). replace (l ++ x :: nodes) with ((l ++ [x]) ++ nodes) in * by by rewrite <- app_assoc.
  destruct (IH _ _ _ R' Hnd) as (h' & o' & E & R2 & Hf). exists h', o'. split_and!; [done|done|]. intros y Hy. rewrite Hf by done.
  rewrite !elem_of_app, list_elem_of_singleton in Hy. rewrite join_other by (try apply not_elem_of_nil; tauto). apply lookup_insert_ne. naive_solver.
Qed.

Lemma list_step h o l op : llist_rel h o l -> list_legal l op = true ->
  exists h' o', list_exec (h, o) op = Some (h', o') /\ llist_rel h' o' (list_spec l op).
Proof.
  intros R Hl. destruct op as [x|x|x t|x t|x|xs t]; cbn [list_legal list_exec list_spec] in *; rewrite ?andb_true_iff, ?bool_decide_eq_true in Hl.
  - destruct (LinkedList1_Prepend_ok _ _ _ _ R Hl) as (E & R'). eauto.
  - destruct (LinkedList1_Append_ok _ _ _ _ R Hl) as (E & R'). eauto.
  - destruct Hl as [Hx Ht]. destruct (split_at_elem t l Ht) as (l2 & E & El). rewrite E. cbn [fst snd]. rewrite El in R, Hx.
    destruct (LinkedList1_InsertBefore_ok _ _ _ _ _ _ R Hx) as (E' & R'). eauto.
  - destruct Hl as [Hx Ht]. destruct (split_at_elem t l Ht) as (l2 & E & El). rewrite E. cbn [fst snd tail]. rewrite El in R, Hx.
    destruct (LinkedList1_InsertAfter_ok _ _ _ _ _ _ R Hx) as (h' & E' & R'). eauto.
  - destruct (split_at_elem x l Hl) as (l2 & E & El). rewrite E. cbn [fst snd tail]. rewrite El in R.
    destruct (LinkedList1_Remove_ok _ _ _ _ _ R) as (E' & R'). eauto.
  - destruct Hl as [[Hnd Hxs] Ht]. assert (forall y, y ∈ xs -> y ∉ l) as Hdis.
    { intros y Hy. apply list_elem_of_In in Hy. apply (proj1 (forallb_forall _ _) Hxs) in Hy. by apply bool_decide_eq_true in Hy. }
    destruct (make_list_ok xs h LinkedList1_Init [] ltac:(split_and!; [done|split_and!; [done|constructor|done]]) Hnd) as (h1 & ins & -> & Ri & Hf).
    assert (llist_rel h1 o l) as R1.
    { destruct R as (? & ? & ? & ?). split_and!; [done|]. split_and!; [done|done|]. eapply dseg_frame; [|done]. intros y Hy. apply Hf. intros Hy2. by apply (Hdis y). }
    destruct t as [t|].
    + apply bool_decide_eq_true in Ht. destruct (split_at_elem t l Ht) as (l2 & E & El). rewrite E. cbn [fst snd tail]. rewrite El in R1, Hdis.
      replace ((split_at t l).1 ++ t :: l2) with (((split_at t l).1 ++ [t]) ++ l2) in * by by rewrite <- app_assoc.
      destruct (LinkedList1_InsertListAfter_ok _ _ _ _ _ _ R1 Ri Hdis) as (h' & E' & R' & _). rewrite last_snoc in E'. rewrite <- app_assoc in R'. eauto.
    + destruct (LinkedList1_InsertListAfter_ok _ _ _ [] l _ R1 Ri Hdis) as (h' & E' & R' & _). eauto.
Qed.

Definition list_ref (l : list A) (ops : list list_op) : list A := foldl list_spec l ops.

(** [LinkedList1] implements lists: any sequence of prepending, appending,
    inserting before and after, removing, and splicing in another list runs
    without following a dangling pointer, and then the walk from either end meets
    the nodes of the reference list: the first and last pointers are its ends, and
    each node's pointers lead to its neighbours (or to nothing at the ends). *)
Theorem linked_list_refines h ops :
  list_all_legal [] ops = true ->
  exists h' o, list_exec_all (h, LinkedList1_Init) ops = Some (h', o) /\
    let l := list_ref [] ops in
    LinkedList1_GetFirst o = head l /\ LinkedList1_GetLast o = list.last l /\ LinkedList1_IsEmpty o = bool_decide (l = []) /\
    forall l1 x l2, l = l1 ++ x :: l2 ->
      LinkedList1Node_Next h' x = Some (head l2) /\ LinkedList1Node_Prev h' x = Some (list.last l1).
Proof.
  intros Hl. assert (forall ops h o l, llist_rel h o l -> list_all_legal l ops = true ->
    exists h' o', list_exec_all (h, o) ops = Some (h', o') /\ llist_rel h' o' (list_ref l ops)) as Hall.
  { clear. induction ops as [|op ops IH]; intros h o l R Hl; [by exists h, o|]. cbn [list_all_legal] in Hl. apply andb_true_iff in Hl as [Hl1 Hl2].
    destruct (list_step _ _ _ _ R Hl1) as (h1 & o1 & E & R1). cbn [list_exec_all]. rewrite E. exact (IH _ _ _ R1 Hl2). }
  destruct (Hall ops h LinkedList1_Init [] ltac:(split_and!; [done|split_and!; [done|constructor|done]]) Hl) as (h' & o & E & R). exists h', o. split; [done|].
  intros l. fold l in R. pose proof R as (El & Ef & _). unfold LinkedList1_GetFirst, LinkedList1_GetLast, LinkedList1_IsEmpty, LinkedList1Node_Next, LinkedList1Node_Prev.
  split_and!; [done|done|rewrite Ef; by destruct l|]. intros l1 x l2 Es. rewrite Es in R. destruct (rel_split _ _ _ _ _ R) as (-> & _). done.
Qed.
End Nodes.

Lemma linked_list_refines_witness :
  let ops := [LAppend 1; LPrepend 2; LInsertBefore 3 1; LInsertAfter 4 1; LRemove 2; LInsertListAfter [5; 6] (Some 3); LInsertListAfter [7] None] in
  list_ref [] ops = [7; 3; 5; 6; 1; 4] /\
  exists h' o, list_exec_all (∅ : gmap Z ListNode, LinkedList1_Init) ops = Some (h', o) /\
    let l := list_ref [] ops in
    LinkedList1_GetFirst o = head l /\ LinkedList1_GetLast o = list.last l /\ LinkedList1_IsEmpty o = bool_decide (l = []) /\
    forall l1 x l2, l = l1 ++ x :: l2 ->
      LinkedList1Node_Next h' x = Some (head l2) /\ LinkedList1Node_Prev h' x = Some (list.last l1).
Proof. intros ops. split; [vm_compute; reflexivity|]. apply (linked_list_refines ∅ ops). vm_compute. reflexivity. Defined.
