(* ===== verification/BPending.v ===== *)
(** * [base/BPending.c]: the job queue, on [structure/SLinkedList_impl.h]

    Jobs are nodes of a doubly linked list threaded through the job objects
    themselves. The memory is a map from object addresses to their [prev] and
    [next] pointers; following a pointer to an object that does not exist is
    [None]. A job that is not pending has a [next] pointer to itself. *)

From S2P Require Import Prelude LinkedLists.

Abbreviation addr := positive.

(** The list of jobs is a [SLinkedList] of [LinkedLists]. *)
Abbreviation heap := (gmap addr (ListNode (A := addr))).

(** ** The job group and its jobs *)

Record BPendingGroup := mkGroup {
  g_heap : heap;
  g_jobs : option addr;
  g_pending_ctr : Z;            (* number of initialised jobs *)
  g_pending : gmap addr bool    (* the debug field [pending] of each job *)
}.

Definition BPendingGroup_Init : BPendingGroup := mkGroup ∅ SLinkedList_Init 0 ∅.

Definition BPendingGroup_HasJobs (g : BPendingGroup) : bool := negb (SLinkedList_IsEmpty (g_jobs g)).
Definition BPendingGroup_PeekJob (g : BPendingGroup) : option addr := SLinkedList_First (g_jobs g).

(** [o->pending_node.next != o] *)
Definition next_not_self (h : heap) (o : addr) : option bool :=
  let* n := h !! o in Some (negb (bool_decide (node_next n = Some o))).

(** Returns the job whose handler is called. *)
Definition BPendingGroup_ExecuteJob (g : BPendingGroup) : option (BPendingGroup * addr) :=
  ASSERT (negb (SLinkedList_IsEmpty (g_jobs g))) ;;
  let* p := SLinkedList_First (g_jobs g) in
  let* ns := next_not_self (g_heap g) p in
  ASSERT ns ;;
  let* pending := g_pending g !! p in
  ASSERT (pending : bool) ;;
  let* r := SLinkedList_Remove (g_heap g) (g_jobs g) p in
  let '(h, first) := r in
  let* h := set_next h p (Some p) in
  Some (mkGroup h first (g_pending_ctr g) (<[p := false]> (g_pending g)), p).

Definition BSmallPending_Init (g : BPendingGroup) (o : addr) : BPendingGroup :=
  mkGroup (<[o := mkNode None (Some o)]> (g_heap g)) (g_jobs g) (g_pending_ctr g + 1)
    (<[o := false]> (g_pending g)).

(** The assertion that opens most operations: the debug flag agrees with the node. *)
Definition pending_agrees (g : BPendingGroup) (o : addr) : option bool :=
  let* ns := next_not_self (g_heap g) o in
  let* pending := g_pending g !! o in
  ASSERT (bool_decide (pending = ns)) ;; Some ns.

Definition BSmallPending_Free (g : BPendingGroup) (o : addr) : option BPendingGroup :=
  let* ns := pending_agrees g o in
  let* r := (if ns : bool then SLinkedList_Remove (g_heap g) (g_jobs g) o
             else Some (g_heap g, g_jobs g)) in
  Some (mkGroup (delete o r.1) r.2 (g_pending_ctr g - 1) (delete o (g_pending g))).

Definition BSmallPending_Set (g : BPendingGroup) (o : addr) : option BPendingGroup :=
  let* ns := pending_agrees g o in
  let* r := (if ns : bool then SLinkedList_Remove (g_heap g) (g_jobs g) o
             else Some (g_heap g, g_jobs g)) in
  let* r := SLinkedList_Prepend r.1 r.2 o in
  Some (mkGroup r.1 r.2 (g_pending_ctr g) (<[o := true]> (g_pending g))).

Definition BSmallPending_Unset (g : BPendingGroup) (o : addr) : option BPendingGroup :=
  let* ns := pending_agrees g o in
  if ns : bool then
    let* r := SLinkedList_Remove (g_heap g) (g_jobs g) o in
    let* h := set_next r.1 o (Some o) in
    Some (mkGroup h r.2 (g_pending_ctr g) (<[o := false]> (g_pending g)))
  else Some g.

Definition BSmallPending_IsSet (g : BPendingGroup) (o : addr) : option bool := pending_agrees g o.

(** [BPending] adds the group pointer to [BSmallPending]; its operations pass it on. *)
Definition BPending_Init := BSmallPending_Init.
Definition BPending_Free := BSmallPending_Free.
Definition BPending_Set := BSmallPending_Set.
Definition BPending_Unset := BSmallPending_Unset.
Definition BPending_IsSet := BSmallPending_IsSet.

(** ** The specification: a stack of jobs without duplicates *)

Inductive job_op := JInit (o : addr) | JFree (o : addr) | JSet (o : addr) | JUnset (o : addr) | JExecute.

Record jobs := mkJobs { objs : gset addr; stack : list addr }.

Definition without (o : addr) (l : list addr) : list addr := filter (fun x => x <> o) l.

Definition spec_exec (s : jobs) (op : job_op) : option (jobs * list addr) :=
  match op with
  | JInit o => if decide (o ∈ objs s) then None else Some (mkJobs ({[o]} ∪ objs s) (stack s), [])
  | JFree o => if decide (o ∈ objs s)
               then Some (mkJobs (objs s ∖ {[o]}) (without o (stack s)), []) else None
  | JSet o => if decide (o ∈ objs s)
              then Some (mkJobs (objs s) (o :: without o (stack s)), []) else None
  | JUnset o => if decide (o ∈ objs s)
                then Some (mkJobs (objs s) (without o (stack s)), []) else None
  | JExecute => match stack s with
                | [] => None
                | o :: l => Some (mkJobs (objs s) l, [o])
                end
  end.

Definition group_exec (g : BPendingGroup) (op : job_op) : option (BPendingGroup * list addr) :=
  match op with
  | JInit o => Some (BPending_Init g o, [])
  | JFree o => let* g := BPending_Free g o in Some (g, [])
  | JSet o => let* g := BPending_Set g o in Some (g, [])
  | JUnset o => let* g := BPending_Unset g o in Some (g, [])
  | JExecute => let* r := BPendingGroup_ExecuteJob g in Some (r.1, [r.2])
  end.

Fixpoint run_jobs {S} (exec : S -> job_op -> option (S * list addr)) (s : S) (ops : list job_op)
  : option (S * list addr) :=
  match ops with
  | [] => Some (s, [])
  | o :: ops =>
      let* r := exec s o in
      let* r' := run_jobs exec r.1 ops in
      Some (r'.1, r.2 ++ r'.2)
  end.

(** ** The group in memory and the stack *)

Record group_rel (g : BPendingGroup) (s : jobs) : Prop := {
  gr_list : list_rel (g_heap g) (g_jobs g) (stack s);
  gr_dom : dom (g_heap g) = objs s;
  gr_sub : forall x, x ∈ stack s -> x ∈ objs s;
  gr_self : forall x, x ∈ objs s -> x ∉ stack s ->
              exists n, g_heap g !! x = Some n /\ node_next n = Some x;
  gr_pending : forall x, x ∈ objs s -> g_pending g !! x = Some (bool_decide (x ∈ stack s));
  gr_ctr : g_pending_ctr g = Z.of_nat (size (objs s))
}.

(** ** Taking a job out of the stack *)

Lemma without_notin o l : o ∉ l -> without o l = l.
Proof.
  intros Hn. unfold without. induction l as [|x l IH]; [done|]. rewrite filter_cons.
  apply not_elem_of_cons in Hn as [Hne Hn]. rewrite decide_True by congruence. by rewrite IH.
Qed.

Lemma without_split o l1 l2 : o ∉ l1 -> o ∉ l2 -> without o (l1 ++ o :: l2) = l1 ++ l2.
Proof.
  intros H1 H2. unfold without. rewrite list.filter_app, filter_cons.
  rewrite decide_False by (intros H; by apply H).
  fold (without o l1) (without o l2). by rewrite !without_notin.
Qed.

Lemma elem_of_without x o l : x ∈ without o l <-> x ∈ l /\ x <> o.
Proof. unfold without. rewrite list_elem_of_filter. tauto. Qed.

Lemma rel_in_heap g s x : group_rel g s -> x ∈ objs s -> exists n, g_heap g !! x = Some n.
Proof. intros [_ Hd _ _ _ _] Hx. rewrite <- Hd in Hx. by apply elem_of_dom in Hx. Qed.

Lemma rel_agrees g s x :
  group_rel g s -> x ∈ objs s -> pending_agrees g x = Some (bool_decide (x ∈ stack s)).
Proof.
  intros Hr Hx. pose proof Hr as [(Hf & Hnd & Hd) Hdom Hsub Hself Hp _].
  unfold pending_agrees, next_not_self. rewrite (Hp x Hx).
  destruct (decide (x ∈ stack s)) as [Hin|Hin].
  - rewrite bool_decide_true by done. apply list_elem_of_split in Hin as (l1 & l2 & Hs).
    rewrite Hs in Hd, Hnd. rewrite (dseg_lookup _ _ _ _ _ _ Hd). cbn [node_next].
    apply list.NoDup_app in Hnd as (_ & _ & Hnd). apply list.NoDup_cons in Hnd as [Hn _].
    assert (bool_decide (or_else (head l2) None = Some x) = false) as ->; [|done].
    apply bool_decide_eq_false. destruct l2 as [|y l2]; simpl; [done|].
    intros [= ->]. apply Hn. by left.
  - rewrite bool_decide_false by done. destruct (Hself x Hx Hin) as (n & -> & ->).
    by rewrite (bool_decide_true (Some x = Some x)) by done.
Qed.

(** Taking a job out of the list, pending or not. *)
Lemma unlink_rel g s x :
  group_rel g s -> x ∈ objs s ->
  exists h' first', (if bool_decide (x ∈ stack s) then SLinkedList_Remove (g_heap g) (g_jobs g) x
      else Some (g_heap g, g_jobs g)) = Some (h', first') /\
    list_rel h' first' (without x (stack s)) /\ dom h' = objs s /\
    (forall y, y ∉ without x (stack s) -> h' !! y = g_heap g !! y).
Proof.
  intros [Hl Hdom Hsub Hself Hp _] Hx. destruct (decide (x ∈ stack s)) as [Hin|Hin].
  - rewrite bool_decide_true by done. pose proof Hl as (_ & Hnd & _).
    apply list_elem_of_split in Hin as (l1 & l2 & Hs). rewrite Hs in *.
    pose proof Hnd as Hnd'. apply list.NoDup_app in Hnd' as (_ & Hn1 & Hn2).
    apply list.NoDup_cons in Hn2 as [Hn2 _].
    rewrite without_split; [|intros ?; apply (Hn1 x); [done|by left]|done].
    destruct (remove_rel _ _ _ _ _ Hl) as (h' & -> & Hl' & Hd' & Hf').
    eexists _, _. split; [done|]. split_and!; [done|congruence|done].
  - rewrite bool_decide_false by done. eexists _, _. split; [done|].
    rewrite without_notin by done. split_and!; done.
Qed.

Lemma init_step g s o s' out :
  group_rel g s -> spec_exec s (JInit o) = Some (s', out) ->
  exists g', group_exec g (JInit o) = Some (g', out) /\ group_rel g' s'.
Proof.
  intros [(Hf & Hnd & Hd) Hdom Hsub Hself Hp Hc] Hs. simpl in Hs.
  destruct (decide (o ∈ objs s)) as [|Hn]; [done|]. inv_some.
  assert (o ∉ stack s) as Hos by (intros H; apply Hn, Hsub, H).
  eexists. split; [done|]. split; cbn [BPending_Init BSmallPending_Init g_heap g_jobs g_pending g_pending_ctr objs stack].
  - split; [done|]. split; [done|]. eapply dseg_frame; [|exact Hd].
    intros y Hy. apply lookup_insert_ne. congruence.
  - rewrite dom_insert_L. by rewrite Hdom.
  - intros x Hx. apply elem_of_union. right. by apply Hsub.
  - intros x Hx Hxs. destruct (decide (x = o)) as [->|Hne].
    + rewrite lookup_insert_eq. by eexists.
    + rewrite lookup_insert_ne by congruence. apply Hself; [|done]. set_solver.
  - intros x Hx. destruct (decide (x = o)) as [->|Hne].
    + rewrite lookup_insert_eq, bool_decide_false by done. done.
    + rewrite lookup_insert_ne by congruence. apply Hp. set_solver.
  - rewrite Hc, size_union by set_solver. rewrite size_singleton. lia.
Qed.

Lemma free_step g s o s' out :
  group_rel g s -> spec_exec s (JFree o) = Some (s', out) ->
  exists g', group_exec g (JFree o) = Some (g', out) /\ group_rel g' s'.
Proof.
  intros Hr Hs. simpl in Hs. destruct (decide (o ∈ objs s)) as [Ho|]; [|done]. inv_some.
  destruct (unlink_rel _ _ _ Hr Ho) as (h' & f' & Hu & (Hf & Hnd & Hd) & Hdom & Hfr).
  simpl. unfold BPending_Free, BSmallPending_Free. rewrite (rel_agrees _ _ _ Hr Ho), Hu.
  destruct Hr as [_ _ Hsub Hself Hp Hc]. eexists. split; [done|].
  split; cbn [g_heap g_jobs g_pending g_pending_ctr objs stack fst snd].
  - split; [done|]. split; [done|]. eapply dseg_frame; [|exact Hd].
    intros y Hy. apply lookup_delete_ne. apply elem_of_without in Hy as [_ Hy]. congruence.
  - rewrite dom_delete_L. by rewrite Hdom.
  - intros x Hx. apply elem_of_without in Hx as [Hx Hne]. apply elem_of_difference.
    split; [by apply Hsub|]. set_solver.
  - intros x Hx Hxs. apply elem_of_difference in Hx as [Hx Hne].
    assert (x <> o) as Hxo by set_solver. rewrite lookup_delete_ne by congruence.
    rewrite Hfr by done. apply Hself; [done|]. intros Hin. apply Hxs. by apply elem_of_without.
  - intros x Hx. apply elem_of_difference in Hx as [Hx Hne].
    assert (x <> o) as Hxo by set_solver. rewrite lookup_delete_ne by congruence.
    rewrite (Hp x Hx). f_equal. apply bool_decide_ext. rewrite elem_of_without. tauto.
  - rewrite Hc, size_difference by set_solver. rewrite size_singleton.
    assert (0 < size (objs s))%nat; [|lia].
    destruct (decide (size (objs s) = 0%nat)) as [E|]; [|lia].
    apply size_empty_inv in E. set_solver.
Qed.

Lemma set_step g s o s' out :
  group_rel g s -> spec_exec s (JSet o) = Some (s', out) ->
  exists g', group_exec g (JSet o) = Some (g', out) /\ group_rel g' s'.
Proof.
  intros Hr Hs. simpl in Hs. destruct (decide (o ∈ objs s)) as [Ho|]; [|done]. inv_some.
  destruct (unlink_rel _ _ _ Hr Ho) as (h' & f' & Hu & Hl & Hdom & Hfr).
  simpl. unfold BPending_Set, BSmallPending_Set. rewrite (rel_agrees _ _ _ Hr Ho), Hu. cbn [fst snd].
  assert (o ∉ without o (stack s)) as Hno by (intros H; by apply elem_of_without in H as [_ ?]).
  destruct (h' !! o) as [n|] eqn:En; [|apply not_elem_of_dom in En; rewrite Hdom in En; done].
  destruct (prepend_rel _ _ _ _ _ Hl Hno En) as (h2 & -> & Hl2 & Hd2 & Hf2).
  destruct Hr as [_ _ Hsub Hself Hp Hc]. eexists. split; [done|].
  assert (forall x, x ∈ o :: without o (stack s) <-> x = o \/ (x ∈ stack s /\ x <> o)) as Hin.
  { intros x. rewrite elem_of_cons, elem_of_without. tauto. }
  split; cbn [g_heap g_jobs g_pending g_pending_ctr objs stack fst snd]; try done.
  - congruence.
  - intros x Hx. apply Hin in Hx as [->|[Hx _]]; [done|by apply Hsub].
  - intros x Hx Hxs. rewrite Hf2 by done. rewrite Hin in Hxs. rewrite Hfr.
    + apply Hself; [done|]. destruct (decide (x = o)); naive_solver.
    + rewrite elem_of_without. naive_solver.
  - intros x Hx. destruct (decide (x = o)) as [->|Hne].
    + rewrite lookup_insert_eq, bool_decide_true; [done|]. by left.
    + rewrite lookup_insert_ne by congruence. rewrite (Hp x Hx). f_equal. apply bool_decide_ext.
      rewrite Hin. tauto.
Qed.

Lemma unset_step g s o s' out :
  group_rel g s -> spec_exec s (JUnset o) = Some (s', out) ->
  exists g', group_exec g (JUnset o) = Some (g', out) /\ group_rel g' s'.
Proof.
  intros Hr Hs. simpl in Hs. destruct (decide (o ∈ objs s)) as [Ho|]; [|done]. inv_some.
  destruct (unlink_rel _ _ _ Hr Ho) as (h' & f' & Hu & Hl & Hdom & Hfr).
  simpl. unfold BPending_Unset, BSmallPending_Unset. rewrite (rel_agrees _ _ _ Hr Ho).
  destruct (bool_decide (o ∈ stack s)) eqn:Eb.
  2: { apply bool_decide_eq_false in Eb. rewrite without_notin by done. exists g. split; [done|].
       by destruct s. }
  rewrite Hu. cbn [fst snd].
  assert (o ∉ without o (stack s)) as Hno by (intros H; by apply elem_of_without in H as [_ ?]).
  destruct (h' !! o) as [n|] eqn:En; [|apply not_elem_of_dom in En; rewrite Hdom in En; done].
  rewrite (set_next_alter _ _ _ _ En).
  destruct Hr as [_ _ Hsub Hself Hp Hc]. eexists. split; [done|].
  split; cbn [g_heap g_jobs g_pending g_pending_ctr objs stack fst snd]; try done.
  - destruct Hl as (? & ? & Hd). split; [done|]. split; [done|]. eapply dseg_frame; [|exact Hd].
    intros y Hy. apply lookup_alter_ne. congruence.
  - by rewrite dom_alter_L.
  - intros x Hx. apply elem_of_without in Hx as [Hx _]. by apply Hsub.
  - intros x Hx Hxs. destruct (decide (x = o)) as [->|Hne].
    + rewrite lookup_alter_eq, En. by eexists.
    + rewrite lookup_alter_ne by congruence. rewrite Hfr by done. apply Hself; [done|].
      intros ?. apply Hxs. by apply elem_of_without.
  - intros x Hx. destruct (decide (x = o)) as [->|Hne].
    + by rewrite lookup_insert_eq, bool_decide_false by done.
    + rewrite lookup_insert_ne by congruence. rewrite (Hp x Hx). f_equal. apply bool_decide_ext.
      rewrite elem_of_without. tauto.
Qed.

(** Executing a job is taking the first one out, with its handler called. *)
Lemma execute_unset g s o l :
  group_rel g s -> stack s = o :: l ->
  exists g', group_exec g JExecute = Some (g', [o]) /\ group_exec g (JUnset o) = Some (g', []).
Proof.
  intros Hr Hs. pose proof Hr as [(Hf & _) _ Hsub _ Hp _].
  assert (o ∈ stack s) as Hin by (rewrite Hs; by left). pose proof (Hsub o Hin) as Ho.
  pose proof (rel_agrees _ _ _ Hr Ho) as Ha. rewrite bool_decide_true in Ha by done.
  destruct (unset_step g s o (mkJobs (objs s) (without o (stack s))) []) as (g' & Hu & _).
  { done. }
  { simpl. by rewrite decide_True. }
  exists g'. split; [|done]. revert Hu. simpl.
  unfold BPending_Unset, BSmallPending_Unset, BPendingGroup_ExecuteJob, SLinkedList_IsEmpty, SLinkedList_First.
  rewrite Ha. rewrite Hs in Hf. simpl in Hf.
  unfold pending_agrees in Ha. destruct (next_not_self (g_heap g) o) as [ns|] eqn:En; [|done].
  rewrite (Hp o Ho), (bool_decide_true (o ∈ stack s)) in Ha by done.
  rewrite Hf, En. rewrite (bool_decide_false (Some o = None)) by done. cbn [negb].
  destruct (bool_decide (true = ns)) eqn:Et; [|done]. apply bool_decide_eq_true in Et. subst ns.
  rewrite (Hp o Ho), (bool_decide_true (o ∈ stack s)) by done.
  destruct (SLinkedList_Remove _ _ _) as [[h f]|]; [|done]. simpl.
  destruct (set_next h o (Some o)); [|done]. by intros [= <-].
Qed.

Lemma group_step g s op s' out :
  group_rel g s -> spec_exec s op = Some (s', out) ->
  exists g', group_exec g op = Some (g', out) /\ group_rel g' s'.
Proof.
  intros Hr Hs. destruct op as [o|o|o|o|].
  - by eapply init_step.
  - by eapply free_step.
  - by eapply set_step.
  - by eapply unset_step.
  - simpl in Hs. destruct (stack s) as [|o l] eqn:El; [done|]. inv_some.
    destruct (execute_unset _ _ _ _ Hr El) as (g' & Hx & Hu). exists g'. split; [done|].
    pose proof Hr as [(_ & Hnd & _) _ Hsub _ _ _]. rewrite El in Hnd. apply list.NoDup_cons in Hnd as [Hn _].
    destruct (unset_step g s o (mkJobs (objs s) l) [] Hr) as (g2 & Hu2 & Hr2).
    { simpl. rewrite decide_True by (apply Hsub; rewrite El; by left). rewrite El.
      change (o :: l) with ([] ++ o :: l). rewrite without_split; [done|apply not_elem_of_nil|done]. }
    rewrite Hu in Hu2. by injection Hu2 as <-.
Qed.

Lemma group_run ops : forall g s s' outs,
  group_rel g s -> run_jobs spec_exec s ops = Some (s', outs) ->
  exists g', run_jobs group_exec g ops = Some (g', outs) /\ group_rel g' s'.
Proof.
  induction ops as [|o ops IH]; intros g s s' outs Hr Hrun; cbn [run_jobs] in *.
  { inv_some. eauto. }
  destruct (spec_exec s o) as [[s1 o1]|] eqn:E; [|done].
  destruct (run_jobs _ (s1, o1).1 ops) as [[s2 o2]|] eqn:E2; [|done]. simpl in Hrun. inv_some.
  destruct (group_step _ _ _ _ _ Hr E) as (g1 & -> & Hr1).
  destruct (IH _ _ _ _ Hr1 E2) as (g2 & Hg2 & Hr2). simpl. rewrite Hg2. eauto.
Qed.

Lemma group_init_rel : group_rel BPendingGroup_Init (mkJobs ∅ []).
Proof.
  split; cbn [stack objs BPendingGroup_Init g_heap g_jobs g_pending g_pending_ctr].
  - split_and!; [done|constructor|done].
  - apply dom_empty_L.
  - intros x Hx. by apply not_elem_of_nil in Hx.
  - intros x Hx. by apply not_elem_of_empty in Hx.
  - intros x Hx. by apply not_elem_of_empty in Hx.
  - done.
Qed.

(** C14. The job group is a stack of jobs without duplicates. For every sequence
    of initialising, setting, unsetting, freeing and executing jobs that
    respects the calling rules, the linked list in memory stays well formed, no
    assertion fails and no dangling pointer is followed; the jobs are executed in
    exactly the order of the abstract stack (last set first, setting a pending
    job again moves it to the front, an unset or freed job never runs); and
    [BPending_IsSet] tells whether the job is pending. *)
Theorem bpending_refines ops s outs
    (Hspec : run_jobs spec_exec (mkJobs ∅ []) ops = Some (s, outs)) :
  exists g, run_jobs group_exec BPendingGroup_Init ops = Some (g, outs) /\
    group_rel g s /\
    BPendingGroup_PeekJob g = head (stack s) /\
    BPendingGroup_HasJobs g = bool_decide (stack s <> []) /\
    forall o, o ∈ objs s -> BPending_IsSet g o = Some (bool_decide (o ∈ stack s)).
Proof.
  destruct (group_run _ _ _ _ _ group_init_rel Hspec) as (g & Hg & Hr).
  exists g. split; [done|]. pose proof Hr as [(Hf & _) _ _ _ _ _].
  unfold BPendingGroup_PeekJob, BPendingGroup_HasJobs, SLinkedList_First, SLinkedList_IsEmpty.
  split_and!; [done|done| |].
  - rewrite Hf. by destruct (stack s).
  - intros o Ho. by apply rel_agrees.
Qed.

Definition demo_jobs : list job_op :=
  [JInit 1; JInit 2; JInit 3; JSet 1; JSet 2; JSet 3; JSet 1; JUnset 2; JExecute; JSet 2; JFree 3; JExecute]%positive.

Lemma bpending_refines_witness :
  exists g, run_jobs group_exec BPendingGroup_Init demo_jobs = Some (g, [1; 2]%positive) /\
    BPendingGroup_HasJobs g = false.
Proof.
  destruct (run_jobs spec_exec (mkJobs ∅ []) demo_jobs) as [[s outs]|] eqn:E;
    [|vm_compute in E; discriminate E].
  destruct (bpending_refines demo_jobs s outs E) as (g & Hg & _ & _ & Hh & _).
  exists g. vm_compute in E. injection E as <- <-. split; [exact Hg|exact Hh].
Defined.
