(* ===== verification/FairQueue.v ===== *)
(** * [flow/PacketPassFairQueue.c]: fair sharing of one output by many flows

    Flows are identified by their addresses. The tree of queued flows
    ([structure/SAvl]) is the list of its nodes in order; insertion walks it with
    [compare_flows], so that the list is only known to be sorted as far as the
    invariant says. Flow times are 64-bit and wrap around. *)

From S2P Require Import Prelude ByteOrder Flow.

Definition FAIRQUEUE_MAX_TIME : Z := UINT64_MAX.

Record PacketPassFairQueueFlow := mkFlow {
  handler_busy : bool; (* handler_busy != NULL *)
  input : PacketPassInterface Z;
  time : Z;
  is_queued : bool;
  queued_data : option Z;
  queued_data_len : Z
}.

Record PacketPassFairQueue := mkFQ {
  output : PacketPassInterface Z;
  use_cancel : bool;
  packet_weight : Z;
  sending_flow : option Z;
  sending_len : Z;
  previous_flow : option Z;
  queued_tree : list Z;
  flows : gmap Z PacketPassFairQueueFlow;
  freeing : bool;
  schedule_job : bool
}.

Definition with_input (f : PacketPassFairQueueFlow) i :=
  mkFlow (handler_busy f) i (time f) (is_queued f) (queued_data f) (queued_data_len f).
Definition with_time (f : PacketPassFairQueueFlow) t :=
  mkFlow (handler_busy f) (input f) t (is_queued f) (queued_data f) (queued_data_len f).
Definition with_flows (m : PacketPassFairQueue) fs :=
  mkFQ (output m) (use_cancel m) (packet_weight m) (sending_flow m) (sending_len m)
    (previous_flow m) (queued_tree m) fs (freeing m) (schedule_job m).
Definition with_output (m : PacketPassFairQueue) o :=
  mkFQ o (use_cancel m) (packet_weight m) (sending_flow m) (sending_len m)
    (previous_flow m) (queued_tree m) (flows m) (freeing m) (schedule_job m).


Definition compare_flows (fs : gmap Z PacketPassFairQueueFlow) (f1 f2 : Z) : option Z :=
  let* a := fs !! f1 in
  let* b := fs !! f2 in
  let cmp := B_COMPARE (time a) (time b) in
  Some (if negb (cmp =? 0) then cmp else B_COMPARE f1 f2).

(** Insertion into the tree; [None] inside when an equal node exists. *)
Fixpoint Tree_Insert (fs : gmap Z PacketPassFairQueueFlow) (l : list Z) (f : Z) : option (option (list Z)) :=
  match l with
  | [] => Some (Some [f])
  | x :: t =>
      let* c := compare_flows fs f x in
      if c <? 0 then Some (Some (f :: x :: t))
      else if c =? 0 then Some None
      else let* r := Tree_Insert fs t f in
           Some (match r with Some t' => Some (x :: t') | None => None end)
  end.

Definition Tree_GetFirst (l : list Z) : option Z := head l.
Definition Tree_Remove (l : list Z) (f : Z) : list Z := filter (fun x => x <> f) l.
Definition Tree_IsEmpty (l : list Z) : bool := bool_decide (l = []).

Definition flow_time (m : PacketPassFairQueue) (f : Z) : option Z :=
  let* x := flows m !! f in Some (time x).

Definition get_current_time (m : PacketPassFairQueue) : option Z :=
  match sending_flow m with
  | Some f => flow_time m f
  | None =>
      let* r := match Tree_GetFirst (queued_tree m) with
                | None => Some (0, false)
                | Some f => let* x := flows m !! f in ASSERT (is_queued x) ;; Some (time x, true)
                end in
      let '(t, have) := r in
      let* r := match previous_flow m with
                | None => Some (t, have)
                | Some p => let* pt := flow_time m p in
                            Some (if negb have || (pt <? t) then (pt, true) else (t, have))
                end in
      let '(t, have) := r in
      Some (if have : bool then t else 0)
  end.

(** The subtraction loop over all flows: the just finished [flow] may underflow. *)
Definition subtract_time (flow subtract : Z) (fs : gmap Z PacketPassFairQueueFlow)
  : gmap Z PacketPassFairQueueFlow :=
  map_imap (fun id f =>
    Some (with_time f (if (subtract >? time f) && negb (id =? flow) then 0 else u64 (time f - subtract)))) fs.

(** The loop's assertion. *)
Definition subtract_ok (flow subtract : Z) (fs : gmap Z PacketPassFairQueueFlow) : bool :=
  forallb (fun '(id, f) => negb ((subtract >? time f) && negb (id =? flow)) || negb (is_queued f))
    (map_to_list fs).

Definition increment_sent_flow (m : PacketPassFairQueue) (flow amount : Z) : option PacketPassFairQueue :=
  let* f := flows m !! flow in
  ASSERT (amount <=? FAIRQUEUE_MAX_TIME) ;;
  ASSERT (negb (is_queued f)) ;;
  ASSERT (bool_decide (sending_flow m = None)) ;;
  let* fs := (if amount >? FAIRQUEUE_MAX_TIME - time f then
                let* subtract := match Tree_GetFirst (queued_tree m) with
                                 | None => Some (time f)
                                 | Some g => let* x := flows m !! g in ASSERT (is_queued x) ;; Some (time x)
                                 end in
                ASSERT (subtract_ok flow subtract (flows m)) ;;
                Some (subtract_time flow subtract (flows m))
              else Some (flows m)) in
  let* f := fs !! flow in
  Some (with_flows m (<[flow := with_time f (u64 (time f + amount))]> fs)).

Definition schedule (m : PacketPassFairQueue) : option PacketPassFairQueue :=
  ASSERT (bool_decide (sending_flow m = None)) ;;
  ASSERT (bool_decide (previous_flow m = None)) ;;
  ASSERT (negb (freeing m)) ;;
  ASSERT (negb (Tree_IsEmpty (queued_tree m))) ;;
  let* q := Tree_GetFirst (queued_tree m) in
  let* f := flows m !! q in
  ASSERT (is_queued f) ;;
  let* d := queued_data f in
  let* o := PacketPassInterface_Sender_Send (output m) d (queued_data_len f) in
  Some (mkFQ o (use_cancel m) (packet_weight m) (Some q) (queued_data_len f) (previous_flow m)
          (Tree_Remove (queued_tree m) q)
          (<[q := mkFlow (handler_busy f) (input f) (time f) false (queued_data f) (queued_data_len f)]> (flows m))
          (freeing m) (schedule_job m)).

Definition schedule_job_handler (m : PacketPassFairQueue) : option PacketPassFairQueue :=
  ASSERT (bool_decide (sending_flow m = None)) ;;
  ASSERT (negb (freeing m)) ;;
  let m := mkFQ (output m) (use_cancel m) (packet_weight m) (sending_flow m) (sending_len m)
             None (queued_tree m) (flows m) (freeing m) (schedule_job m) in
  if negb (Tree_IsEmpty (queued_tree m)) then schedule m else Some m.

Definition input_handler_send (m : PacketPassFairQueue) (flow : Z) (data : option Z) (data_len : Z)
  : option PacketPassFairQueue :=
  let* f := flows m !! flow in
  ASSERT (negb (bool_decide (sending_flow m = Some flow))) ;;
  ASSERT (negb (is_queued f)) ;;
  ASSERT (negb (freeing m)) ;;
  let* r := (if bool_decide (previous_flow m = Some flow) then Some (None, time f)
             else let* now := get_current_time m in Some (previous_flow m, bmax_uint64 (time f) now)) in
  let '(prev, t) := r in
  let f := mkFlow (handler_busy f) (input f) t false data data_len in
  let* ins := Tree_Insert (<[flow := f]> (flows m)) (queued_tree m) flow in
  let* tree := ins in
  let f := mkFlow (handler_busy f) (input f) t true data data_len in
  let m := mkFQ (output m) (use_cancel m) (packet_weight m) (sending_flow m) (sending_len m)
             prev tree (<[flow := f]> (flows m)) (freeing m) (schedule_job m) in
  if bool_decide (sending_flow m = None) && negb (schedule_job m) then schedule m else Some m.

(** The flag tells whether the flow's one-shot busy handler is called. *)
Definition output_handler_done (m : PacketPassFairQueue) : option (PacketPassFairQueue * bool) :=
  let* flow := sending_flow m in
  ASSERT (bool_decide (previous_flow m = None)) ;;
  ASSERT (negb (schedule_job m)) ;;
  ASSERT (negb (freeing m)) ;;
  let* f := flows m !! flow in
  ASSERT (negb (is_queued f)) ;;
  let m := mkFQ (output m) (use_cancel m) (packet_weight m) None (sending_len m)
             (Some flow) (queued_tree m) (flows m) (freeing m) (schedule_job m) in
  let* m := increment_sent_flow m flow (packet_weight m + sending_len m) in
  let* f := flows m !! flow in
  let* i := PacketPassInterface_Done (input f) in
  let f' := mkFlow false i (time f) (is_queued f) (queued_data f) (queued_data_len f) in
  Some (mkFQ (output m) (use_cancel m) (packet_weight m) (sending_flow m) (sending_len m)
          (previous_flow m) (queued_tree m) (<[flow := f']> (flows m)) (freeing m) true,
        handler_busy f).

(** The inner [None]: the output MTU is too large. *)
Definition PacketPassFairQueue_Init (output : PacketPassInterface Z) (use_cancel : bool) (packet_weight : Z)
  : option (option PacketPassFairQueue) :=
  ASSERT (packet_weight >? 0) ;;
  ASSERT (negb use_cancel || ppi_handler_requestcancel output) ;;
  if negb ((ppi_mtu output <=? FAIRQUEUE_MAX_TIME) &&
           (packet_weight <=? FAIRQUEUE_MAX_TIME - ppi_mtu output)) then Some None
  else
    let* o := PacketPassInterface_Sender_Init output in
    Some (Some (mkFQ o use_cancel packet_weight None 0 None [] ∅ false false)).

Definition PacketPassFairQueue_Free (m : PacketPassFairQueue) : bool :=
  bool_decide (flows m = ∅) && Tree_IsEmpty (queued_tree m) &&
  bool_decide (previous_flow m = None) && bool_decide (sending_flow m = None).

Definition PacketPassFairQueue_PrepareFree (m : PacketPassFairQueue) : PacketPassFairQueue :=
  mkFQ (output m) (use_cancel m) (packet_weight m) (sending_flow m) (sending_len m)
    (previous_flow m) (queued_tree m) (flows m) true (schedule_job m).

Definition PacketPassFairQueue_GetMTU (m : PacketPassFairQueue) : Z := ppi_mtu (output m).

Definition PacketPassFairQueueFlow_Init (m : PacketPassFairQueue) (flow : Z) : option PacketPassFairQueue :=
  ASSERT (negb (freeing m)) ;;
  let* i := PacketPassInterface_Init (PacketPassFairQueue_GetMTU m) in
  Some (with_flows m (<[flow := mkFlow false i 0 false None 0]> (flows m))).

Definition PacketPassFairQueueFlow_Free (m : PacketPassFairQueue) (flow : Z) : option PacketPassFairQueue :=
  let* f := flows m !! flow in
  ASSERT (freeing m || negb (bool_decide (sending_flow m = Some flow))) ;;
  Some (mkFQ (output m) (use_cancel m) (packet_weight m)
          (if bool_decide (sending_flow m = Some flow) then None else sending_flow m) (sending_len m)
          (if bool_decide (previous_flow m = Some flow) then None else previous_flow m)
          (if is_queued f then Tree_Remove (queued_tree m) flow else queued_tree m)
          (delete flow (flows m)) (freeing m) (schedule_job m)).

Definition PacketPassFairQueueFlow_IsBusy (m : PacketPassFairQueue) (flow : Z) : option bool :=
  ASSERT (negb (freeing m)) ;; Some (bool_decide (sending_flow m = Some flow)).

Definition PacketPassFairQueueFlow_RequestCancel (m : PacketPassFairQueue) (flow : Z)
  : option PacketPassFairQueue :=
  ASSERT (bool_decide (sending_flow m = Some flow)) ;;
  ASSERT (use_cancel m) ;;
  ASSERT (negb (freeing m)) ;;
  ASSERT (negb (schedule_job m)) ;;
  let* o := PacketPassInterface_Sender_RequestCancel (output m) in
  Some (with_output m o).

Definition PacketPassFairQueueFlow_SetBusyHandler (m : PacketPassFairQueue) (flow : Z) (handler : bool)
  : option PacketPassFairQueue :=
  ASSERT (bool_decide (sending_flow m = Some flow)) ;;
  ASSERT (negb (freeing m)) ;;
  let* f := flows m !! flow in
  Some (with_flows m (<[flow := mkFlow handler (input f) (time f) (is_queued f) (queued_data f)
                                  (queued_data_len f)]> (flows m))).

(** ** Histories *)

Inductive fq_event :=
| QFlowInit (f : Z)              (* a flow is created and its user attached *)
| QFlowFree (f : Z)
| QSend (f d len : Z)            (* the user of a flow sends a packet *)
| QInOperation (f : Z)           (* job of the flow's input *)
| QInJobDone (f : Z)             (* done job of the flow's input *)
| QScheduleJob
| QOutOperation | QOutDone | QOutJobDone
| QRequestCancel (f : Z) | QCancelJob
| QSetBusyHandler (f : Z) (h : bool).

(** The observations: the flow served, and busy handlers called. *)
Inductive fq_obs := QServed (f : option Z) (d : option Z) (len : Z) | QBusyHandler.

Definition on_input (m : PacketPassFairQueue) (f : Z)
    (op : PacketPassInterface Z -> option (PacketPassInterface Z)) : option PacketPassFairQueue :=
  let* x := flows m !! f in
  let* i := op (input x) in
  Some (with_flows m (<[f := with_input x i]> (flows m))).

Definition fq_exec (m : PacketPassFairQueue) (e : fq_event) : option (PacketPassFairQueue * list fq_obs) :=
  match e with
  | QFlowInit f =>
      ASSERT (bool_decide (flows m !! f = None)) ;;
      let* m := PacketPassFairQueueFlow_Init m f in
      let* m := on_input m f PacketPassInterface_Sender_Init in Some (m, [])
  | QFlowFree f => let* m := PacketPassFairQueueFlow_Free m f in Some (m, [])
  | QSend f d len =>
      let* m := on_input m f (fun i => PacketPassInterface_Sender_Send i d len) in Some (m, [])
  | QInOperation f =>
      let* x := flows m !! f in
      let* r := PacketPassInterface_job_operation (input x) in
      let '(i, (data, len)) := r in
      let* m := input_handler_send (with_flows m (<[f := with_input x i]> (flows m))) f data len in
      Some (m, [])
  | QInJobDone f => let* m := on_input m f PacketPassInterface_job_done in Some (m, [])
  | QScheduleJob =>
      ASSERT (schedule_job m) ;;
      let* m := schedule_job_handler (mkFQ (output m) (use_cancel m) (packet_weight m) (sending_flow m)
        (sending_len m) (previous_flow m) (queued_tree m) (flows m) (freeing m) false) in
      Some (m, [])
  | QOutOperation =>
      let* r := PacketPassInterface_job_operation (output m) in
      Some (with_output m r.1, [QServed (sending_flow m) r.2.1 r.2.2])
  | QOutDone => let* o := PacketPassInterface_Done (output m) in Some (with_output m o, [])
  | QOutJobDone =>
      let* o := PacketPassInterface_job_done (output m) in
      let* r := output_handler_done (with_output m o) in
      Some (r.1, if r.2 then [QBusyHandler] else [])
  | QRequestCancel f => let* m := PacketPassFairQueueFlow_RequestCancel m f in Some (m, [])
  | QCancelJob =>
      ASSERT (ppi_job_requestcancel (output m)) ;;
      let* o := PacketPassInterface_job_requestcancel (output m) in Some (with_output m o, [])
  | QSetBusyHandler f h => let* m := PacketPassFairQueueFlow_SetBusyHandler m f h in Some (m, [])
  end.

(** What the users, the sink and the job group may do; the queue is not being freed. *)
Definition fq_enabled (m : PacketPassFairQueue) (e : fq_event) : bool :=
  let st f s := match flows m !! f with Some x => st_is (ppi_state (input x)) s | None => false end in
  match e with
  | QFlowInit f => bool_decide (flows m !! f = None)
  | QFlowFree f => bool_decide (flows m !! f <> None) && bool_decide (sending_flow m <> Some f)
  | QSend f d len => st f ST_NONE && (0 <=? len) && (len <=? ppi_mtu (output m))
  | QInOperation f => st f ST_OPERATION_PENDING
  | QInJobDone f => st f ST_DONE_PENDING
  | QScheduleJob => schedule_job m
  | QOutOperation => st_is (ppi_state (output m)) ST_OPERATION_PENDING
  | QOutDone => st_is (ppi_state (output m)) ST_BUSY
  | QOutJobDone => st_is (ppi_state (output m)) ST_DONE_PENDING
  | QRequestCancel f => bool_decide (sending_flow m = Some f) && use_cancel m
  | QCancelJob => ppi_job_requestcancel (output m)
  | QSetBusyHandler f h => bool_decide (sending_flow m = Some f)
  end.

Fixpoint fq_run (m : PacketPassFairQueue) (es : list fq_event) : option (PacketPassFairQueue * list fq_obs) :=
  match es with
  | [] => Some (m, [])
  | e :: es =>
      if fq_enabled m e then
        let* r := fq_exec m e in
        let* s := fq_run r.1 es in
        Some (s.1, r.2 ++ s.2)
      else None
  end.

(** ** The invariant *)

Definition tm (fs : gmap Z PacketPassFairQueueFlow) (f : Z) : option Z := time <$> fs !! f.

(** The order of [compare_flows]. *)
Definition klt (fs : gmap Z PacketPassFairQueueFlow) (a b : Z) : Prop :=
  match tm fs a, tm fs b with
  | Some s, Some t => s < t \/ (s = t /\ a < b)
  | _, _ => False
  end.

Fixpoint tsorted (fs : gmap Z PacketPassFairQueueFlow) (l : list Z) : Prop :=
  match l with
  | [] => True
  | x :: t => (forall y, y ∈ t -> klt fs x y) /\ tsorted fs t
  end.

Record flow_ok (m : PacketPassFairQueue) (f : Z) (x : PacketPassFairQueueFlow) : Prop := {
  fl_time : 0 <= time x <= FAIRQUEUE_MAX_TIME;
  fl_mtu : ppi_mtu (input x) = ppi_mtu (output m);
  fl_user : ppi_handler_done (input x) = true;
  fl_ppi : ppi_ok (input x);
  fl_busy : (ppi_state (input x) = ST_BUSY) <-> (is_queued x = true \/ sending_flow m = Some f);
  fl_queued : is_queued x = true ->
    0 <= queued_data_len x <= ppi_mtu (output m) /\ is_Some (queued_data x);
  fl_tree : f ∈ queued_tree m <-> (is_queued x = true)
}.

Definition sending_ok (m : PacketPassFairQueue) : Prop :=
  match sending_flow m with
  | Some f => exists t, tm (flows m) f = Some t /\ (f ∉ queued_tree m) /\
      ppi_state (output m) <> ST_NONE /\ 0 <= sending_len m <= ppi_mtu (output m) /\
      previous_flow m = None /\ schedule_job m = false /\
      forall g u, g ∈ queued_tree m -> tm (flows m) g = Some u -> t <= u
  | None => ppi_state (output m) = ST_NONE /\ (queued_tree m <> [] -> schedule_job m = true)
  end.

Record fq_ok (m : PacketPassFairQueue) : Prop := {
  fq_flows : forall f x, flows m !! f = Some x -> flow_ok m f x;
  fq_tree : forall f, f ∈ queued_tree m -> is_Some (flows m !! f);
  fq_sorted : tsorted (flows m) (queued_tree m);
  fq_sending : sending_ok m;
  fq_previous : forall p, previous_flow m = Some p ->
    schedule_job m = true /\ (p ∉ queued_tree m) /\ is_Some (flows m !! p);
  fq_out_user : ppi_handler_done (output m) = true;
  fq_out : ppi_ok (output m);
  fq_mtu : 0 <= ppi_mtu (output m);
  fq_weight : 0 < packet_weight m /\ packet_weight m + ppi_mtu (output m) <= FAIRQUEUE_MAX_TIME;
  fq_cancel : use_cancel m = true -> ppi_handler_requestcancel (output m) = true;
  fq_live : freeing m = false
}.

(** ** Lemmas on the tree *)

Lemma klt_ext fs fs' a b : tm fs' a = tm fs a -> tm fs' b = tm fs b -> klt fs a b -> klt fs' a b.
Proof. intros Ha Hb. unfold klt. by rewrite Ha, Hb. Qed.

Lemma tsorted_ext fs fs' l : (forall x, x ∈ l -> tm fs' x = tm fs x) -> tsorted fs l -> tsorted fs' l.
Proof.
  induction l as [|x l IH]; intros He; simpl; [done|]. intros [Hx Hl]. split.
  - intros y Hy. eapply klt_ext; [apply He; by left|apply He; by right|by apply Hx].
  - apply IH; [|done]. intros y Hy. apply He. by right.
Qed.

Lemma tsorted_filter fs f l : tsorted fs l -> tsorted fs (Tree_Remove l f).
Proof.
  unfold Tree_Remove. induction l as [|x l IH]; [done|]. intros [Hx Hl]. rewrite filter_cons.
  destruct (decide (x <> f)); [|by apply IH]. split; [|by apply IH].
  intros y Hy. apply list_elem_of_filter in Hy as [_ Hy]. by apply Hx.
Qed.

Lemma elem_of_remove f g l : g ∈ Tree_Remove l f <-> (g ∈ l /\ g <> f).
Proof. unfold Tree_Remove. rewrite list_elem_of_filter. tauto. Qed.

Lemma klt_trans fs a b c : klt fs a b -> klt fs b c -> klt fs a c.
Proof. unfold klt. destruct (tm fs a), (tm fs b), (tm fs c); try done. lia. Qed.

Lemma B_COMPARE_spec a b :
  (B_COMPARE a b <? 0) = (a <? b) /\ (B_COMPARE a b =? 0) = (a =? b).
Proof. unfold B_COMPARE. destruct (a >? b) eqn:E1, (a <? b) eqn:E2; simpl; lia. Qed.

Lemma compare_flows_spec fs a b s t :
  tm fs a = Some s -> tm fs b = Some t ->
  exists c, compare_flows fs a b = Some c /\
    (c < 0 <-> klt fs a b) /\ (c = 0 <-> s = t /\ a = b) /\ (0 < c <-> klt fs b a).
Proof.
  unfold tm, klt, compare_flows. intros Ha Hb.
  destruct (fs !! a) as [x|] eqn:E1; [|done]. destruct (fs !! b) as [y|] eqn:E2; [|done].
  unfold tm in *. rewrite E1, E2 in *. simpl in *. injection Ha as <-. injection Hb as <-.
  eexists. split; [done|]. unfold B_COMPARE.
  destruct (time x >? time y) eqn:X1, (time x <? time y) eqn:X2; simpl; try lia.
  destruct (a >? b) eqn:Y1, (a <? b) eqn:Y2; simpl; lia.
Qed.

(** Inserting a flow that is not in the tree succeeds and keeps it sorted. *)
Lemma Tree_Insert_ok fs l f :
  (forall x, x ∈ l -> is_Some (fs !! x)) -> is_Some (fs !! f) -> f ∉ l -> tsorted fs l ->
  exists l', Tree_Insert fs l f = Some (Some l') /\ tsorted fs l' /\
    (forall x, x ∈ l' <-> x = f \/ x ∈ l).
Proof.
  intros Hin Hf. induction l as [|x l IH]; intros Hn Hs; cbn [Tree_Insert].
  { exists [f]. split_and!; [done|split; [|done]; intros y Hy; by apply not_elem_of_nil in Hy|].
    intros y. rewrite list_elem_of_singleton. split; [auto|]. intros [?|Hy]; [done|].
    by apply not_elem_of_nil in Hy. }
  apply not_elem_of_cons in Hn as [Hne Hn]. destruct Hs as [Hx Hl].
  destruct Hf as [xf Hf]. destruct (Hin x) as [xx Hxx]; [by left|].
  destruct (compare_flows_spec fs f x (time xf) (time xx)) as (c & -> & C1 & C2 & C3);
    [unfold tm; by rewrite Hf|unfold tm; by rewrite Hxx|].
  destruct (Z.ltb_spec c 0) as [Hc|Hc].
  { exists (f :: x :: l). split_and!; [done| |].
    - split; [|by split]. intros y Hy. apply elem_of_cons in Hy as [->|Hy]; [by apply C1|].
      eapply klt_trans; [by apply C1|by apply Hx].
    - intros y. by rewrite elem_of_cons. }
  destruct (Z.eqb_spec c 0) as [Hz|Hz]; [apply C2 in Hz as [_ ?]; congruence|].
  destruct IH as (l' & -> & Hs' & Hm'); [intros y Hy; apply Hin; by right|done|done|].
  exists (x :: l'). split_and!; [done| |].
  - split; [|done]. intros y Hy. apply Hm' in Hy as [->|Hy]; [apply C3; lia|by apply Hx].
  - intros y. rewrite !elem_of_cons, Hm'. tauto.
Qed.

(** ** Updates that keep the invariant *)

Lemma flow_ok_ext m m' f x :
  ppi_mtu (output m') = ppi_mtu (output m) -> sending_flow m' = sending_flow m ->
  queued_tree m' = queued_tree m -> flow_ok m f x -> flow_ok m' f x.
Proof. intros H1 H2 H3 []. split; rewrite ?H1, ?H2, ?H3; done. Qed.

Lemma tm_insert fs f x g : tm (<[f := x]> fs) g = if decide (g = f) then Some (time x) else tm fs g.
Proof.
  unfold tm. destruct (decide (g = f)) as [->|].
  - by rewrite lookup_insert_eq.
  - by rewrite lookup_insert_ne by congruence.
Qed.

Lemma tm_insert_same fs f x x' g :
  fs !! f = Some x -> time x' = time x -> tm (<[f := x']> fs) g = tm fs g.
Proof.
  intros Hf Ht. rewrite tm_insert. destruct (decide (g = f)) as [->|]; [|done].
  unfold tm. rewrite Hf. simpl. by rewrite Ht.
Qed.

Lemma fq_ok_update_flow m f x x' :
  fq_ok m -> flows m !! f = Some x -> flow_ok m f x' -> time x' = time x ->
  fq_ok (with_flows m (<[f := x']> (flows m))).
Proof.
  intros [Hfl Htr Hso Hse Hpr Hou Hpo Hmt Hw Hca Hli] Hx Hok Ht.
  assert (forall g, tm (<[f := x']> (flows m)) g = tm (flows m) g) as Htm
    by (intros g; by eapply tm_insert_same).
  split; cbn [with_flows flows queued_tree output previous_flow schedule_job packet_weight
              use_cancel freeing]; try done.
  - intros g y Hy. destruct (decide (g = f)) as [->|Hne].
    + rewrite lookup_insert_eq in Hy. injection Hy as <-. by apply (flow_ok_ext m).
    + rewrite lookup_insert_ne in Hy by congruence. apply (flow_ok_ext m); try done. by apply Hfl.
  - intros g Hg. destruct (decide (g = f)) as [->|Hne].
    + rewrite lookup_insert_eq. by eexists.
    + rewrite lookup_insert_ne by congruence. by apply Htr.
  - eapply tsorted_ext; [|exact Hso]. intros g _. apply Htm.
  - unfold sending_ok in *. cbn [with_flows sending_flow output queued_tree sending_len previous_flow
      schedule_job flows]. destruct (sending_flow m) as [s|]; [|done].
    destruct Hse as (t & S1 & S2 & S3 & S4 & S5 & S6 & S7). exists t. rewrite Htm.
    split_and!; try done; try lia. intros g u Hg. rewrite Htm. by apply S7.
  - intros p Hp. destruct (Hpr p Hp) as (P1 & P2 & P3). split_and!; try done.
    destruct (decide (p = f)) as [->|Hne].
    + rewrite lookup_insert_eq. by eexists.
    + by rewrite lookup_insert_ne by congruence.
Qed.

Lemma fq_ok_with_output m o :
  fq_ok m -> ppi_mtu o = ppi_mtu (output m) -> ppi_handler_done o = ppi_handler_done (output m) ->
  ppi_handler_requestcancel o = ppi_handler_requestcancel (output m) -> ppi_ok o ->
  (ppi_state o = ST_NONE <-> ppi_state (output m) = ST_NONE) -> fq_ok (with_output m o).
Proof.
  intros [Hfl Htr Hso Hse Hpr Hou Hpo Hmt Hw Hca Hli] H1 H2 H3 H4 H5.
  split; simpl; try done; try congruence.
  - intros g y Hy. apply (flow_ok_ext m); try done. by apply Hfl.
  - unfold sending_ok in *. simpl. destruct (sending_flow m) as [s|].
    + destruct Hse as (t & S1 & S2 & S3 & S4 & S5 & S6 & S7). exists t.
      split_and!; try done; try lia. by rewrite H5.
    + rewrite H5. done.
  - intros ?. rewrite H3. auto.
Qed.

(** An interface operation on a flow's input that neither starts nor ends its
    processing by the queue. *)
Lemma fq_on_input m f x e j :
  fq_ok m -> flows m !! f = Some x -> ppi_exec (input x) e = Some j ->
  (ppi_state j = ST_BUSY <-> ppi_state (input x) = ST_BUSY) ->
  fq_ok (with_flows m (<[f := with_input x j]> (flows m))).
Proof.
  intros Hok Hx He Hb. pose proof (fq_flows _ Hok f x Hx) as [F1 F2 F3 F4 F5 F6 F7].
  destruct (ppi_exec_frame _ _ _ He) as (E1 & E2 & E3).
  eapply fq_ok_update_flow; [done|done| |done].
  split; simpl; try done; try congruence.
  - by eapply ppi_exec_ok.
  - rewrite Hb. done.
Qed.

(** An operation on the output. *)
Lemma fq_on_output m e j :
  fq_ok m -> ppi_exec (output m) e = Some j ->
  (ppi_state j = ST_NONE <-> ppi_state (output m) = ST_NONE) -> fq_ok (with_output m j).
Proof.
  intros Hok He Hs. destruct (ppi_exec_frame _ _ _ He) as (E1 & E2 & E3).
  apply fq_ok_with_output; try done. eapply ppi_exec_ok; [|exact He]. apply Hok.
Qed.

(** ** The handlers *)

(** The state [schedule] starts from: nothing is being sent. *)
Record fq_ready (m : PacketPassFairQueue) : Prop := {
  rd_flows : forall f x, flows m !! f = Some x -> flow_ok m f x;
  rd_tree : forall f, f ∈ queued_tree m -> is_Some (flows m !! f);
  rd_sorted : tsorted (flows m) (queued_tree m);
  rd_sending : sending_flow m = None;
  rd_previous : previous_flow m = None;
  rd_job : schedule_job m = false;
  rd_none : ppi_state (output m) = ST_NONE;
  rd_out_user : ppi_handler_done (output m) = true;
  rd_out : ppi_ok (output m);
  rd_mtu : 0 <= ppi_mtu (output m);
  rd_weight : 0 < packet_weight m /\ packet_weight m + ppi_mtu (output m) <= FAIRQUEUE_MAX_TIME;
  rd_cancel : use_cancel m = true -> ppi_handler_requestcancel (output m) = true;
  rd_live : freeing m = false
}.

Lemma ready_empty_ok m : fq_ready m -> queued_tree m = [] -> fq_ok m.
Proof.
  intros [] He. split; try done.
  - unfold sending_ok. rewrite rd_sending0. done.
  - congruence.
Qed.

Lemma tsorted_head fs x l g s t :
  tsorted fs (x :: l) -> g ∈ l -> tm fs x = Some s -> tm fs g = Some t -> s <= t.
Proof. intros [Hx _] Hg Hs Ht. specialize (Hx g Hg). unfold klt in Hx. rewrite Hs, Ht in Hx. lia. Qed.

Lemma schedule_spec m q l :
  fq_ready m -> queued_tree m = q :: l ->
  exists m', schedule m = Some m' /\ fq_ok m' /\ sending_flow m' = Some q /\
    (forall g, tm (flows m') g = tm (flows m) g) /\
    (forall g, g ∈ queued_tree m' <-> (g ∈ queued_tree m /\ g <> q)).
Proof.
  intros [Hfl Htr Hso Hse Hpr Hj Hn Hou Hpo Hmt Hw Hca Hli] Hq.
  unfold schedule. rewrite Hse, Hpr, Hli, Hq.
  destruct (Htr q) as [x Hx]; [rewrite Hq; by left|]. simpl. rewrite Hx.
  pose proof (Hfl q x Hx) as [F1 F2 F3 F4 F5 F6 F7].
  assert (is_queued x = true) as Hqx by (apply F7; rewrite Hq; by left). rewrite Hqx.
  destruct (F6 Hqx) as [Hlen [d Hd]]. rewrite Hd.
  destruct (ppi_send (output m) d (queued_data_len x)) as (o & Ho & O1 & O2 & O3 & O4 & O5); [done..|].
  pose proof (ppi_exec_frame (output m) (PSend d (queued_data_len x)) o Ho) as (_ & _ & O6).
  pose proof (ppi_exec_ok (output m) (PSend d (queued_data_len x)) o Hpo Ho) as O7.
  rewrite Ho. eexists. split; [done|].
  set (x' := mkFlow _ _ _ _ _ _).
  assert (forall g, tm (<[q := x']> (flows m)) g = tm (flows m) g) as Htm
    by (intros g; by eapply tm_insert_same).
  assert (forall g, g ∈ Tree_Remove (q :: l) q <-> (g ∈ queued_tree m /\ g <> q)) as Hrem
    by (intros g; by rewrite elem_of_remove, Hq).
  split_and!; [|done|exact Htm|intros g; cbn [queued_tree]; by rewrite elem_of_remove].
  split; cbn [flows queued_tree output previous_flow schedule_job packet_weight use_cancel freeing];
    try done; try congruence.
  - intros g y Hy. destruct (decide (g = q)) as [->|Hne].
    + rewrite lookup_insert_eq in Hy. injection Hy as <-.
      split; cbn [time input is_queued sending_flow output queued_tree queued_data queued_data_len x'];
        try done; [congruence| |].
      * split; [auto|]. intros _. apply F5. by left.
      * rewrite Hrem. split; [|done]. by intros [_ ?].
    + rewrite lookup_insert_ne in Hy by congruence. destruct (Hfl g y Hy) as [G1 G2 G3 G4 G5 G6 G7].
      split; cbn [sending_flow output queued_tree]; try done; [congruence| |by rewrite O5|].
      * rewrite G5, Hse. split; [by intros [?|?]; auto|]. intros [?|[= ->]]; [by auto|done].
      * rewrite Hrem, <- G7. tauto.
  - intros g Hg. apply Hrem in Hg as [Hg Hne]. rewrite lookup_insert_ne by congruence. by apply Htr.
  - eapply tsorted_ext; [intros g _; apply Htm|]. apply tsorted_filter. by rewrite <- Hq.
  - unfold sending_ok. cbn [sending_flow flows queued_tree output sending_len previous_flow schedule_job].
    exists (time x). rewrite Htm. split_and!; try done; try lia.
    + unfold tm. by rewrite Hx.
    + rewrite Hrem. by intros [_ ?].
    + by rewrite O1.
    + intros g u Hg. rewrite Htm. apply Hrem in Hg as [Hg Hne]. rewrite Hq in Hg, Hso.
      apply elem_of_cons in Hg as [->|Hg]; [done|]. intros Hu.
      eapply (tsorted_head _ q l g); try done. unfold tm. by rewrite Hx.
  - intros ?. rewrite O6. auto.
Qed.

Definition with_job (m : PacketPassFairQueue) (b : bool) : PacketPassFairQueue :=
  mkFQ (output m) (use_cancel m) (packet_weight m) (sending_flow m) (sending_len m)
    (previous_flow m) (queued_tree m) (flows m) (freeing m) b.

Lemma job_not_sending m : fq_ok m -> schedule_job m = true -> sending_flow m = None.
Proof.
  intros [_ _ _ Hse _ _ _ _ _ _ _] Hj. unfold sending_ok in Hse.
  destruct (sending_flow m); [|done]. destruct Hse as (? & _ & _ & _ & _ & _ & Hjf & _). congruence.
Qed.

Lemma schedule_job_spec m :
  fq_ok m -> schedule_job m = true ->
  exists m', schedule_job_handler (with_job m false) = Some m' /\ fq_ok m' /\
    sending_flow m' = head (queued_tree m) /\ previous_flow m' = None /\
    (forall g, tm (flows m') g = tm (flows m) g) /\
    (forall g, g ∈ queued_tree m' <-> (g ∈ queued_tree m /\ Some g <> sending_flow m')).
Proof.
  intros Hok Hj. pose proof (job_not_sending _ Hok Hj) as Hs.
  destruct Hok as [Hfl Htr Hso Hse Hpr Hou Hpo Hmt Hw Hca Hli].
  unfold schedule_job_handler. cbn [with_job sending_flow freeing queued_tree]. rewrite Hs, Hli.
  rewrite bool_decide_true by done. cbn [negb].
  set (m0 := mkFQ _ _ _ _ _ _ _ _ _ _).
  assert (fq_ready m0) as Hrd.
  { unfold sending_ok in Hse. rewrite Hs in Hse. destruct Hse as [Hn _].
    split; try done. intros f x Hx. by apply (flow_ok_ext m); try done; apply Hfl. }
  unfold Tree_IsEmpty. destruct (queued_tree m) as [|q l] eqn:Eq.
  - rewrite bool_decide_true by done. simpl. exists m0. split_and!; try done.
    + by apply ready_empty_ok.
    + intros g. split; [intros H; by apply not_elem_of_nil in H|]. intros [H _]. done.
  - rewrite bool_decide_false by done. cbn [negb].
    destruct (schedule_spec m0 q l Hrd) as (m' & Hsch & Hok' & Hsend & Htm & Htree); [done|].
    rewrite Hsch. exists m'. rewrite Hsend. split_and!; try done.
    + pose proof (fq_sending _ Hok') as Hse'. unfold sending_ok in Hse'. rewrite Hsend in Hse'.
      by destruct Hse' as (?&?&?&?&?&?&?).
    + intros g. rewrite Htree. split; intros [? ?]; split; try done; congruence.
Qed.

(** The current time is the time of some flow, that of the flow being sent if any. *)
Lemma get_current_time_spec m :
  (forall g, g ∈ queued_tree m -> exists y, flows m !! g = Some y /\ is_queued y = true) ->
  (forall p, previous_flow m = Some p -> is_Some (flows m !! p)) ->
  (forall s, sending_flow m = Some s -> is_Some (flows m !! s)) ->
  exists now, get_current_time m = Some now /\ (now = 0 \/ exists g, tm (flows m) g = Some now) /\
    (forall s, sending_flow m = Some s -> tm (flows m) s = Some now).
Proof.
  intros Htr Hpr Hse. unfold get_current_time, flow_time. destruct (sending_flow m) as [s|].
  { destruct (Hse s eq_refl) as [y Hy]. rewrite Hy. exists (time y). unfold tm.
    split_and!; [done| |]; [right; exists s; by rewrite Hy|]. intros ? [= <-]. by rewrite Hy. }
  assert (exists t have, (match Tree_GetFirst (queued_tree m) with
                | None => Some (0, false)
                | Some f => let* x := flows m !! f in ASSERT (is_queued x) ;; Some (time x, true)
                end) = Some (t, have) /\ (t = 0 \/ exists g, tm (flows m) g = Some t)) as (t & have & -> & Ht).
  { destruct (queued_tree m) as [|q l]; simpl; [eauto|].
    destruct (Htr q) as (y & Hy & Hq); [by left|]. rewrite Hy, Hq. eexists _, _. split; [done|].
    right. exists q. unfold tm. by rewrite Hy. }
  destruct (previous_flow m) as [p|].
  - destruct (Hpr p eq_refl) as [y Hy]. rewrite Hy.
    destruct (negb have || (time y <? t)).
    + eexists. split; [done|]. split; [|done]. right. exists p. unfold tm. by rewrite Hy.
    + eexists. split; [done|]. split; [|done]. destruct have; auto.
  - eexists. split; [done|]. split; [|done]. destruct have; auto.
Qed.

(** How [input_handler_send] determines the flow's new time. *)
Lemma raise_time_spec m f x x' :
  fq_ok m -> flows m !! f = Some x -> time x' = time x -> is_queued x' = is_queued x ->
  let m1 := with_flows m (<[f := x']> (flows m)) in
  exists prev t, (if bool_decide (previous_flow m1 = Some f) then Some (None, time x)
     else let* now := get_current_time m1 in Some (previous_flow m1, bmax_uint64 (time x) now)) = Some (prev, t) /\
    time x <= t <= FAIRQUEUE_MAX_TIME /\ prev <> Some f /\ (prev = None \/ prev = previous_flow m) /\
    (forall s u, sending_flow m = Some s -> tm (flows m) s = Some u -> u <= t).
Proof.
  intros Hok Hx Ht Hq m1. pose proof Hok as [Hfl Htr Hso Hse Hpr Hou Hpo Hmt Hw Hca Hli].
  pose proof (Hfl f x Hx) as [F1 _ _ _ _ _ _].
  assert (forall g, tm (flows m1) g = tm (flows m) g) as Htm
    by (intros g; by apply (tm_insert_same _ _ x)).
  assert (forall g, is_Some (flows m !! g) -> is_Some (flows m1 !! g)) as Hsome.
  { intros g [y Hy]. simpl. destruct (decide (g = f)) as [->|]; [rewrite lookup_insert_eq; eauto|].
    rewrite lookup_insert_ne by congruence. eauto. }
  change (previous_flow m1) with (previous_flow m).
  destruct (decide (previous_flow m = Some f)) as [Hp|Hp].
  - rewrite bool_decide_true by done. exists None, (time x). split_and!; try done; try lia; [by left|].
    intros s u Hs. destruct (Hpr f Hp) as (Hj & _). rewrite (job_not_sending _ Hok Hj) in Hs. done.
  - rewrite bool_decide_false by done.
    destruct (get_current_time_spec m1) as (now & -> & Hnow & Hsnd).
    + intros g Hg. destruct (decide (g = f)) as [->|Hne].
      * exists x'. split; [apply lookup_insert_eq|]. rewrite Hq. by apply (Hfl f x Hx).
      * destruct (Htr g Hg) as [y Hy]. exists y. split; [simpl; by rewrite lookup_insert_ne by congruence|].
        by apply (Hfl g y Hy).
    + intros p Hpp. apply Hsome. by apply (Hpr p).
    + intros s Hs. apply Hsome. unfold sending_ok in Hse. simpl in Hs. rewrite Hs in Hse.
      destruct Hse as (u & Hu & _). unfold tm in Hu. destruct (flows m !! s); [eauto|done].
    + assert (0 <= now <= FAIRQUEUE_MAX_TIME) as Hnr.
      { destruct Hnow as [->|[g Hg]]; [unfold FAIRQUEUE_MAX_TIME, UINT64_MAX; lia|].
        rewrite Htm in Hg. unfold tm in Hg. destruct (flows m !! g) as [y|] eqn:Ey; [|done].
        injection Hg as <-. apply (Hfl g y Ey). }
      eexists _, _. split; [done|]. unfold bmax_uint64.
      assert (time x <= (if time x >? now then time x else now) <= FAIRQUEUE_MAX_TIME /\
              now <= (if time x >? now then time x else now)) as [? ?]
        by (destruct (time x >? now) eqn:E; lia).
      split_and!; try done; try lia; [by right|].
      intros s u Hs Hu. specialize (Hsnd s Hs). rewrite Htm, Hu in Hsnd. injection Hsnd as <-. lia.
Qed.

(** The queue after the flow [f] has joined it with time [t]. *)
Definition enqueued (m : PacketPassFairQueue) (f : Z) (x2 : PacketPassFairQueueFlow)
    (prev : option Z) (tree : list Z) : PacketPassFairQueue :=
  mkFQ (output m) (use_cancel m) (packet_weight m) (sending_flow m) (sending_len m)
    prev tree (<[f := x2]> (flows m)) (freeing m) (schedule_job m).

Lemma enqueued_flows m f x2 prev tree :
  fq_ok m -> f ∉ queued_tree m -> sending_flow m <> Some f ->
  (forall g, g ∈ tree <-> (g = f \/ g ∈ queued_tree m)) ->
  0 <= time x2 <= FAIRQUEUE_MAX_TIME -> ppi_mtu (input x2) = ppi_mtu (output m) ->
  ppi_handler_done (input x2) = true -> ppi_ok (input x2) -> ppi_state (input x2) = ST_BUSY ->
  is_queued x2 = true -> 0 <= queued_data_len x2 <= ppi_mtu (output m) -> is_Some (queued_data x2) ->
  let m2 := enqueued m f x2 prev tree in
  (forall g y, flows m2 !! g = Some y -> flow_ok m2 g y) /\
  (forall g, g ∈ queued_tree m2 -> is_Some (flows m2 !! g)).
Proof.
  intros [Hfl Htr _ _ _ _ _ _ _ _ _] Hnt Hns Htree H1 H2 H3 H4 H5 H6 H7 H8 m2. split.
  - intros g y Hy. simpl in Hy. destruct (decide (g = f)) as [->|Hgf].
    + rewrite lookup_insert_eq in Hy. injection Hy as <-. split; try done.
      * split; [by left|done].
      * simpl. rewrite Htree. split; [done|by left].
    + rewrite lookup_insert_ne in Hy by congruence. destruct (Hfl g y Hy) as [G1 G2 G3 G4 G5 G6 G7].
      split; try done. simpl. rewrite Htree, <- G7. split; [by intros [?|?]|by right].
  - intros g Hg. simpl in *. apply Htree in Hg as [->|Hg]; [rewrite lookup_insert_eq; by eexists|].
    rewrite lookup_insert_ne; [by apply Htr|]. intros ->. done.
Qed.

Lemma enqueued_ok m f x2 prev tree :
  fq_ok m -> f ∉ queued_tree m -> prev <> Some f -> (prev = None \/ prev = previous_flow m) ->
  (forall g y, flows (enqueued m f x2 prev tree) !! g = Some y -> flow_ok (enqueued m f x2 prev tree) g y) ->
  (forall g, g ∈ tree -> is_Some (flows (enqueued m f x2 prev tree) !! g)) ->
  (forall g, g ∈ tree <-> (g = f \/ g ∈ queued_tree m)) ->
  tsorted (<[f := x2]> (flows m)) tree ->
  sending_flow m <> Some f -> 
  (forall s u, sending_flow m = Some s -> tm (flows m) s = Some u -> u <= time x2) ->
  (sending_flow m <> None \/ schedule_job m = true) ->
  fq_ok (enqueued m f x2 prev tree).
Proof.
  intros [Hfl Htr Hso Hse Hpr Hou Hpo Hmt Hw Hca Hli] Hnt Hpf Hpm Hfl2 Htr2 Htree Hts Hns Hst Hc.
  assert (forall g, g <> f -> tm (<[f := x2]> (flows m)) g = tm (flows m) g) as Htm
    by (intros g Hg; by rewrite tm_insert, decide_False by done).
  split; try done.
  - unfold sending_ok in *. simpl. destruct (sending_flow m) as [s|].
    + destruct Hse as (u & S1 & S2 & S3 & S4 & S5 & S6 & S7). exists u.
      assert (s <> f) as Hsf by congruence. rewrite Htm by done.
      split_and!; try done; try lia.
      * rewrite Htree. by intros [?|?].
      * destruct Hpm as [->| ->]; done.
      * intros g v Hg Hv. apply Htree in Hg as [->|Hg].
        -- rewrite tm_insert, decide_True in Hv by done. injection Hv as <-. by apply (Hst s).
        -- rewrite Htm in Hv by (intros ->; done). by apply (S7 g).
    + destruct Hse as [? _]. split; [done|]. intros _. by destruct Hc as [?|?].
  - intros p Hp. simpl in Hp. destruct Hpm as [->|Hpm]; [done|].
    destruct (Hpr p) as (P1 & P2 & P3); [congruence|]. split_and!; [done| |].
    + simpl. rewrite Htree. intros [->|?]; [congruence|done].
    + simpl. rewrite lookup_insert_ne; [done|]. intros ->. congruence.
Qed.

Lemma input_send_spec m f x :
  fq_ok m -> flows m !! f = Some x -> ppi_state (input x) = ST_OPERATION_PENDING ->
  exists i d m', PacketPassInterface_job_operation (input x) = Some (i, (Some d, ppi_job_operation_len (input x))) /\
    input_handler_send (with_flows m (<[f := with_input x i]> (flows m))) f (Some d)
      (ppi_job_operation_len (input x)) = Some m' /\
    fq_ok m' /\ (forall g, g <> f -> tm (flows m') g = tm (flows m) g) /\
    (exists t, tm (flows m') f = Some t /\ time x <= t) /\
    (forall g, (g ∈ queued_tree m' \/ sending_flow m' = Some g) <->
               (g = f \/ g ∈ queued_tree m \/ sending_flow m = Some g)).
Proof.
  intros Hok Hx Hst. pose proof (fq_flows _ Hok f x Hx) as [F1 F2 F3 F4 F5 F6 F7].
  destruct (ppi_op (input x) Hst) as (i & Hi & I1 & I2 & I3 & I4 & I5).
  destruct (ppi_ok_data _ F4 ltac:(congruence)) as [d Hd]. rewrite Hd in Hi.
  pose proof (ppi_ok_len _ F4 ltac:(congruence)) as Hlen.
  assert (ppi_ok i) as Hiok.
  { apply (ppi_exec_ok (input x) PJobOperation); [done|]. simpl.
    rewrite (ppi_ok_op _ F4), Hst. simpl. by rewrite Hi. }
  assert (is_queued x = false /\ sending_flow m <> Some f) as [Hnq Hns].
  { split; [destruct (is_queued x) eqn:E; [|done]|intros E];
      (assert (ppi_state (input x) = ST_BUSY) by (apply F5; auto)); congruence. }
  assert (f ∉ queued_tree m) as Hnt by (rewrite F7; congruence).
  exists i, d. set (len := ppi_job_operation_len (input x)) in *.
  destruct (raise_time_spec m f x (with_input x i) Hok Hx eq_refl eq_refl)
    as (prev & t & Hr & Ht & Hpf & Hpm & Hst').
  unfold input_handler_send. set (m1 := with_flows m (<[f := with_input x i]> (flows m))) in *.
  assert (flows m1 !! f = Some (with_input x i)) as -> by apply lookup_insert_eq.
  cbn [is_queued with_input time handler_busy input]. change (sending_flow m1) with (sending_flow m).
  change (freeing m1) with (freeing m). rewrite Hnq, (fq_live _ Hok).
  rewrite (bool_decide_false (sending_flow m = Some f)) by done. cbn [negb]. rewrite Hr.
  subst m1. cbn [with_flows flows queued_tree output use_cancel packet_weight sending_flow sending_len
                 schedule_job freeing].
  rewrite !insert_insert_eq.
  set (x1 := mkFlow _ i t false _ _). set (x2 := mkFlow _ i t true _ _).
  destruct (Tree_Insert_ok (<[f := x1]> (flows m)) (queued_tree m) f) as (tree & -> & Hts & Htree).
  { intros g Hg. rewrite lookup_insert_ne; [by apply (fq_tree _ Hok)|]. intros ->. done. }
  { rewrite lookup_insert_eq. by eexists. }
  { done. }
  { eapply tsorted_ext; [|exact (fq_sorted _ Hok)]. intros g Hg. rewrite tm_insert, decide_False; [done|].
    intros ->. done. }
  rewrite <- (fq_live _ Hok). fold (enqueued m f x2 prev tree).
  destruct (enqueued_flows m f x2 prev tree Hok Hnt Hns Htree) as [Hfl2 Htr2];
    try done; try (simpl; lia || congruence).
  assert (tsorted (<[f := x2]> (flows m)) tree) as Hso2.
  { eapply tsorted_ext; [|exact Hts]. intros g _. by rewrite !tm_insert. }
  assert (forall g, g <> f -> tm (<[f := x2]> (flows m)) g = tm (flows m) g) as Htm2
    by (intros g Hg; by rewrite tm_insert, decide_False by done).
  assert (tm (<[f := x2]> (flows m)) f = Some t) as Htf by (by rewrite tm_insert, decide_True by done).
  change (sending_flow (enqueued m f x2 prev tree)) with (sending_flow m).
  change (schedule_job (enqueued m f x2 prev tree)) with (schedule_job m).
  destruct (bool_decide (sending_flow m = None) && negb (schedule_job m)) eqn:Ecase.
  - apply andb_prop in Ecase as [Es Ej]. apply bool_decide_eq_true in Es. apply negb_true_iff in Ej.
    destruct Hok as [Hfl Htr Hso Hse Hpr Hou Hpo Hmt Hw Hca Hli].
    unfold sending_ok in Hse. rewrite Es in Hse. destruct Hse as [Hn Hemp].
    assert (prev = None) as ->.
    { destruct Hpm as [?| ->]; [done|]. destruct (previous_flow m) as [p|] eqn:Ep; [|done].
      destruct (Hpr p eq_refl). congruence. }
    assert (queued_tree m = []) as Hnil.
    { destruct (queued_tree m); [done|]. rewrite Hemp in Ej; done. }
    rewrite Hnil in Htree.
    destruct tree as [|q l] eqn:Etree.
    { assert (f ∈ @nil Z) as Hin by (apply Htree; by left). by apply not_elem_of_nil in Hin. }
    destruct (schedule_spec (enqueued m f x2 None (q :: l)) q l) as (m' & -> & Hok' & Hs' & Htm' & Htr');
      [by split|done|].
    exists m'. split; [done|]. split; [done|]. split; [done|]. split_and!.
    + intros g Hg. rewrite Htm'. by apply Htm2.
    + exists t. rewrite Htm'. split; [exact Htf|lia].
    + intros g. rewrite Hs', Htr', Hnil, Es. simpl. rewrite Htree.
      assert (q = f) as -> by (destruct (Htree q) as [Hq _]; destruct Hq as [?|Hq];
        [by left|done|by apply not_elem_of_nil in Hq]).
      split; [intros [[? ?]|[= ->]]; [tauto|by left]|].
      intros [->|[H|H]]; [by right|by apply not_elem_of_nil in H|done].
  - exists (enqueued m f x2 prev tree). split; [done|]. split; [done|]. split_and!.
    + apply enqueued_ok; try done.
      destruct (sending_flow m); [by left|]. right. simpl in Ecase. by destruct (schedule_job m).
    + exact Htm2.
    + exists t. split; [exact Htf|lia].
    + intros g. simpl. rewrite Htree. tauto.
Qed.

(** ** Finishing a packet *)

(** Time shifted down by [s], at most to zero. *)
Definition shifted (s t : Z) : Z := if t <? s then 0 else t - s.

Lemma lookup_subtract flow s fs g :
  subtract_time flow s fs !! g =
    (fun f => with_time f (if (s >? time f) && negb (g =? flow) then 0 else u64 (time f - s))) <$> fs !! g.
Proof. unfold subtract_time. rewrite map_lookup_imap. by destruct (fs !! g). Qed.

Lemma u64_id x : 0 <= x <= FAIRQUEUE_MAX_TIME -> u64 x = x.
Proof. unfold u64, FAIRQUEUE_MAX_TIME, UINT64_MAX. intros. apply Z.mod_small. lia. Qed.

Lemma u64_wrap x a : 0 <= x + a <= FAIRQUEUE_MAX_TIME -> u64 (u64 x + a) = x + a.
Proof.
  unfold u64, FAIRQUEUE_MAX_TIME, UINT64_MAX. intros. rewrite Zplus_mod_idemp_l.
  apply Z.mod_small. lia.
Qed.

Lemma with_time_id x : with_time x (time x) = x.
Proof. by destruct x. Qed.

(** What is known of the queue when a packet has just been sent. *)
Record finishing (m : PacketPassFairQueue) (flow : Z) (x : PacketPassFairQueueFlow) (amount : Z) : Prop := {
  fi_flow : flows m !! flow = Some x;
  fi_nq : is_queued x = false;
  fi_sending : sending_flow m = None;
  fi_amount : 0 < amount <= FAIRQUEUE_MAX_TIME;
  fi_times : forall g y, flows m !! g = Some y -> 0 <= time y <= FAIRQUEUE_MAX_TIME;
  fi_tree : forall g y, flows m !! g = Some y -> g ∈ queued_tree m <-> is_queued y = true;
  fi_in : forall g, g ∈ queued_tree m -> is_Some (flows m !! g);
  fi_sorted : tsorted (flows m) (queued_tree m);
  fi_min : forall g u, g ∈ queued_tree m -> tm (flows m) g = Some u -> time x <= u
}.

Lemma increment_spec m flow x amount :
  finishing m flow x amount ->
  exists fs s, increment_sent_flow m flow amount = Some (with_flows m fs) /\ 0 <= s /\
    0 <= time x + amount - s <= FAIRQUEUE_MAX_TIME /\
    fs !! flow = Some (with_time x (time x + amount - s)) /\
    (forall g, g <> flow -> fs !! g = (fun y => with_time y (shifted s (time y))) <$> flows m !! g) /\
    (forall g u, g ∈ queued_tree m -> tm (flows m) g = Some u -> s <= u) /\
    (time x + amount <= FAIRQUEUE_MAX_TIME -> s = 0).
Proof.
  intros [Hx Hnq Hs Ham Hti Htr Hin Hso Hmin]. pose proof (Hti _ _ Hx) as Htx.
  unfold increment_sent_flow. rewrite Hx, Hnq, Hs. rewrite bool_decide_true by done. cbn [negb].
  assert_true. destruct (amount >? FAIRQUEUE_MAX_TIME - time x) eqn:Eov.
  - assert (exists s, (match Tree_GetFirst (queued_tree m) with
        | None => Some (time x)
        | Some g => let* y := flows m !! g in ASSERT (is_queued y) ;; Some (time y) end) = Some s /\
      time x <= s <= FAIRQUEUE_MAX_TIME /\
      (forall g u, g ∈ queued_tree m -> tm (flows m) g = Some u -> s <= u)) as (s & -> & Hsr & Hsu).
    { destruct (queued_tree m) as [|q l] eqn:Eq; simpl.
      - exists (time x). split; [done|]. split; [lia|]. intros g u Hg. by apply not_elem_of_nil in Hg.
      - destruct (Hin q) as [y Hy]; [by left|]. rewrite Hy.
        rewrite (proj1 (Htr q y Hy)) by by left. exists (time y).
        assert (tm (flows m) q = Some (time y)) as Hq by (unfold tm; by rewrite Hy).
        split; [done|]. split; [split; [apply (Hmin q); [by left|done]|by apply (Hti q)]|].
        intros g u Hg Hu. apply elem_of_cons in Hg as [->|Hg]; [rewrite Hq in Hu; injection Hu; lia|].
        by eapply (tsorted_head _ q l g). }
    assert (subtract_ok flow s (flows m) = true) as ->.
    { unfold subtract_ok. apply forallb_forall. intros [g y] Hg.
      apply list_elem_of_In, elem_of_map_to_list in Hg.
      destruct (is_queued y) eqn:Ey; [|by rewrite orb_true_r]. rewrite orb_false_r.
      assert (s <= time y).
      { apply (Hsu g); [by apply (Htr g y)|]. unfold tm. by rewrite Hg. }
      apply negb_true_iff, andb_false_iff. left. lia. }
    rewrite lookup_subtract, Hx. simpl. rewrite Z.eqb_refl, andb_false_r.
    exists (<[flow := with_time x (time x + amount - s)]> (subtract_time flow s (flows m))), s.
    rewrite u64_wrap by lia. split_and!; try lia.
    + do 4 f_equal. lia.
    + apply lookup_insert_eq.
    + intros g Hg. rewrite lookup_insert_ne by congruence. rewrite lookup_subtract.
      destruct (flows m !! g) as [y|] eqn:Ey; [|done]. simpl. do 2 f_equal. unfold shifted.
      rewrite (proj2 (Z.eqb_neq _ _)) by done. rewrite andb_true_r, Z.gtb_ltb.
      pose proof (Hti g y Ey). destruct (time y <? s) eqn:E; [done|]. apply u64_id. lia.
    + done.
  - rewrite Hx. exists (<[flow := with_time x (time x + amount)]> (flows m)), 0.
    rewrite u64_id by lia. split_and!; try lia.
    + done.
    + rewrite lookup_insert_eq. do 2 f_equal. lia.
    + intros g Hg. rewrite lookup_insert_ne by congruence.
      destruct (flows m !! g) as [y|] eqn:Ey; [|done]. simpl. f_equal. unfold shifted.
      pose proof (Hti g y Ey). rewrite (proj2 (Z.ltb_ge _ _)) by lia.
      rewrite Z.sub_0_r. by rewrite with_time_id.
    + intros g u Hg Hu. unfold tm in Hu. destruct (flows m !! g) as [y|] eqn:Ey; [|done].
      injection Hu as <-. by apply (Hti g).
Qed.

Lemma tsorted_shift fs fs' s l :
  (forall g u, g ∈ l -> tm fs g = Some u -> tm fs' g = Some (u - s)) -> tsorted fs l -> tsorted fs' l.
Proof.
  induction l as [|x l IH]; intros Hs; simpl; [done|]. intros [Hx Hl]. split.
  - intros y Hy. specialize (Hx y Hy). unfold klt in *.
    destruct (tm fs x) as [a|] eqn:Ea; [|done]. destruct (tm fs y) as [b|] eqn:Eb; [|done].
    rewrite (Hs x a), (Hs y b); [lia|by right|done|by left|done].
  - apply IH; [|done]. intros g u Hg. apply Hs. by right.
Qed.

(** The new times after a completion: the served flow pays for its packet, and
    all times move down by a common [s] (which is 0 unless the clock would
    overflow), stopping at zero for flows that are not waiting. *)
Definition times_after (m m' : PacketPassFairQueue) (flow amount s : Z) : Prop :=
  (forall t, tm (flows m) flow = Some t -> tm (flows m') flow = Some (t + amount - s)) /\
  (forall g, g <> flow -> tm (flows m') g = shifted s <$> tm (flows m) g) /\
  (forall g u, g ∈ queued_tree m -> tm (flows m) g = Some u -> s <= u) /\ 0 <= s /\
  (forall t, tm (flows m) flow = Some t -> t + amount <= FAIRQUEUE_MAX_TIME -> s = 0).

Lemma output_done_spec m flow :
  fq_ok m -> sending_flow m = Some flow -> ppi_state (output m) = ST_DONE_PENDING ->
  exists o m' b s, PacketPassInterface_job_done (output m) = Some o /\
    output_handler_done (with_output m o) = Some (m', b) /\ fq_ok m' /\
    sending_flow m' = None /\ previous_flow m' = Some flow /\ queued_tree m' = queued_tree m /\
    schedule_job m' = true /\ times_after m m' flow (packet_weight m + sending_len m) s.
Proof.
  intros Hok Hs Hst. pose proof Hok as [Hfl Htr Hso Hse Hpr Hou Hpo Hmt Hw Hca Hli].
  unfold sending_ok in Hse. rewrite Hs in Hse. destruct Hse as (t & S1 & S2 & S3 & S4 & S5 & S6 & S7).
  destruct (ppi_jobdone _ Hst) as (o & Ho & O1 & O2 & O3).
  assert (ppi_exec (output m) PJobDone = Some o) as Hex.
  { simpl. rewrite (ppi_ok_done _ Hpo), Hst. simpl. exact Ho. }
  pose proof (ppi_exec_ok _ _ _ Hpo Hex) as Hook. destruct (ppi_exec_frame _ _ _ Hex) as (_ & _ & O4).
  unfold tm in S1. destruct (flows m !! flow) as [x|] eqn:Hx; [|done]. injection S1 as <-.
  pose proof (Hfl flow x Hx) as [F1 F2 F3 F4 F5 F6 F7].
  assert (is_queued x = false) as Hnq by (destruct (is_queued x); [by destruct S2; apply F7|done]).
  exists o. unfold output_handler_done.
  cbn [with_output sending_flow previous_flow schedule_job freeing flows]. rewrite Hs, S5, S6, Hli, Hx, Hnq.
  rewrite bool_decide_true by done. cbn [negb with_output packet_weight sending_len output use_cancel queued_tree].
  set (m1 := mkFQ _ _ _ None _ _ _ _ _ _). set (amount := packet_weight m + sending_len m).
  assert (finishing m1 flow x amount) as Hfi.
  { split; try done.
    - unfold amount. lia.
    - intros g y Hy. apply (Hfl g y Hy).
    - intros g y Hy. apply (Hfl g y Hy). }
  destruct (increment_spec _ _ _ _ Hfi) as (fs & s & -> & Hs0 & Hr & Hf & Hg & Hsu & Hov).
  cbn [with_flows flows]. rewrite Hf. cbn [with_time input].
  destruct (ppi_done (input x)) as (i & Hi & I1 & I2 & I3 & I4 & I5); [apply F5; by right|].
  rewrite Hi. cbn [with_flows handler_busy with_time time is_queued queued_data queued_data_len output use_cancel
    packet_weight sending_flow sending_len previous_flow queued_tree freeing m1].
  pose proof (ppi_exec_ok (input x) PDone i F4 Hi) as Hiok.
  set (x2 := mkFlow _ _ _ _ _ _). eexists _, _, s. split; [done|]. split; [done|].
  assert (forall g u, g <> flow -> tm (flows m) g = Some u -> tm (<[flow := x2]> fs) g = Some (shifted s u)) as Htm.
  { intros g u Hne Hu. rewrite tm_insert, decide_False by done. unfold tm in *. rewrite Hg by done.
    simpl. destruct (flows m !! g); [|done]. simpl in *. by injection Hu as <-. }
  split_and!; try done.
  2: { unfold times_after. cbn [flows queued_tree]. split_and!; try done.
       - intros t0 Ht0. unfold tm in Ht0. rewrite Hx in Ht0. injection Ht0 as <-.
         by rewrite tm_insert, decide_True by done.
       - intros g Hne. destruct (tm (flows m) g) as [u|] eqn:Eu; [by apply Htm|].
         rewrite tm_insert, decide_False by done. unfold tm in *. rewrite Hg by done. simpl.
         by destruct (flows m !! g).
       - intros t0 Ht0. unfold tm in Ht0. rewrite Hx in Ht0. by injection Ht0 as <-. }
  split; cbn [flows queued_tree output previous_flow schedule_job packet_weight use_cancel freeing];
    try done; try congruence.
  - intros g y Hy. destruct (decide (g = flow)) as [->|Hne].
    + rewrite lookup_insert_eq in Hy. injection Hy as <-.
      split; cbn [time input is_queued queued_data queued_data_len x2 output sending_flow queued_tree];
        try done; try congruence.
      * rewrite I1. split; [done|]. intros [?|?]; congruence.
    + rewrite lookup_insert_ne in Hy by congruence. rewrite Hg in Hy by done. simpl in Hy.
      destruct (flows m !! g) as [y0|] eqn:Ey; [|done]. injection Hy as <-.
      destruct (Hfl g y0 Ey) as [G1 G2 G3 G4 G5 G6 G7].
      split; cbn [with_time time input is_queued queued_data queued_data_len output sending_flow queued_tree];
        try done; try congruence.
      * unfold shifted. destruct (time y0 <? s) eqn:E; lia.
      * rewrite G5. split; [intros [?|E]; [by left|]|intros [?|?]; [by left|done]]. congruence.
      * by rewrite O3.
  - intros g Hgt. destruct (decide (g = flow)) as [->|Hne]; [done|].
    rewrite lookup_insert_ne by congruence. rewrite Hg by done. simpl. by apply fmap_is_Some, Htr.
  - eapply tsorted_shift; [|exact Hso]. intros g u Hgt Hu. rewrite (Htm g u); [| |done].
    + unfold shifted. pose proof (Hsu g u Hgt Hu). rewrite (proj2 (Z.ltb_ge _ _)) by lia. done.
    + intros ->. done.
  - intros p [= <-]. split_and!; try done. rewrite lookup_insert_eq. by eexists.
  - intros ?. rewrite O4. auto.
Qed.

(** ** Every event *)

(** Nothing but the arrival, departure and completion of packets moves flows. *)
Definition unmoved (m m' : PacketPassFairQueue) : Prop :=
  queued_tree m' = queued_tree m /\ sending_flow m' = sending_flow m /\
  forall g, tm (flows m') g = tm (flows m) g.

Lemma flow_init_step m f :
  fq_ok m -> flows m !! f = None ->
  exists m', fq_exec m (QFlowInit f) = Some (m', []) /\ fq_ok m' /\
    queued_tree m' = queued_tree m /\ sending_flow m' = sending_flow m.
Proof.
  intros [Hfl Htr Hso Hse Hpr Hou Hpo Hmt Hw Hca Hli] Hn. cbn [fq_exec].
  rewrite bool_decide_true by done. unfold PacketPassFairQueueFlow_Init. rewrite Hli. cbn [negb].
  unfold PacketPassInterface_Init, PacketPassFairQueue_GetMTU. rewrite (proj2 (Z.leb_le _ _) Hmt).
  unfold on_input. cbn [with_flows flows]. rewrite lookup_insert_eq. simpl. rewrite insert_insert_eq.
  set (x := with_input _ _). eexists. split; [done|]. split; [|done].
  assert (f ∉ queued_tree m) as Hnt by (intros Hin; destruct (Htr f Hin); congruence).
  assert (forall g, g <> f -> tm (<[f := x]> (flows m)) g = tm (flows m) g) as Htm
    by (intros g Hg; by rewrite tm_insert, decide_False by done).
  assert (sending_flow m <> Some f) as Hns.
  { intros E. unfold sending_ok in Hse. rewrite E in Hse. destruct Hse as (t & Ht & _).
    unfold tm in Ht. by rewrite Hn in Ht. }
  split; simpl; try done.
  - intros g y Hy. destruct (decide (g = f)) as [->|Hne].
    + rewrite lookup_insert_eq in Hy. injection Hy as <-.
      split; simpl; try done.
      split; [done|by intros [?|?]].
    + rewrite lookup_insert_ne in Hy by congruence. by apply (flow_ok_ext m); try done; apply Hfl.
  - intros g Hg. rewrite lookup_insert_ne; [by apply Htr|]. intros ->. done.
  - eapply tsorted_ext; [|exact Hso]. intros g Hg. apply Htm. intros ->. done.
  - unfold sending_ok in *. simpl. destruct (sending_flow m) as [s|]; [|done].
    destruct Hse as (t & S1 & S2 & S3 & S4 & S5 & S6 & S7). exists t.
    rewrite Htm by congruence. split_and!; try done; try lia.
    intros g u Hg. rewrite Htm; [by apply S7|]. intros ->. done.
  - intros p Hp. destruct (Hpr p Hp) as (P1 & P2 & P3). split_and!; try done.
    rewrite lookup_insert_ne; [done|]. intros ->. rewrite Hn in P3. by destruct P3.
Qed.

Lemma flow_free_step m f x :
  fq_ok m -> flows m !! f = Some x -> sending_flow m <> Some f ->
  exists m', fq_exec m (QFlowFree f) = Some (m', []) /\ fq_ok m' /\
    (forall g, g ∈ queued_tree m' <-> (g ∈ queued_tree m /\ g <> f)) /\
    sending_flow m' = sending_flow m /\ flows m' = delete f (flows m).
Proof.
  intros [Hfl Htr Hso Hse Hpr Hou Hpo Hmt Hw Hca Hli] Hx Hns. simpl.
  unfold PacketPassFairQueueFlow_Free. rewrite Hx, Hli. rewrite (bool_decide_false (sending_flow m = Some f)) by done.
  simpl. eexists. split; [done|].
  assert (forall g, g ∈ (if is_queued x then Tree_Remove (queued_tree m) f else queued_tree m) <->
                    (g ∈ queued_tree m /\ g <> f)) as Hrem.
  { intros g. destruct (is_queued x) eqn:E; [apply elem_of_remove|].
    split; [|by intros [? ?]]. intros Hg. split; [done|]. intros ->.
    pose proof (proj1 (fl_tree _ _ _ (Hfl f x Hx)) Hg). congruence. }
  assert (forall g, g <> f -> tm (delete f (flows m)) g = tm (flows m) g) as Htm.
  { intros g Hg. unfold tm. by rewrite lookup_delete_ne by congruence. }
  split_and!; try done.
  split; simpl; try done.
  - intros g y Hy. apply lookup_delete_Some in Hy as [Hne Hy].
    destruct (Hfl g y Hy) as [G1 G2 G3 G4 G5 G6 G7]. split; try done. simpl. rewrite Hrem, <- G7.
    split; [by intros [? _]|]. intros; split; [done|congruence].
  - intros g Hg. apply Hrem in Hg as [Hg Hne]. rewrite lookup_delete_ne by congruence. by apply Htr.
  - eapply tsorted_ext; [intros g Hg; apply Htm; by apply Hrem in Hg as [_ ?]|].
    destruct (is_queued x); [by apply tsorted_filter|done].
  - unfold sending_ok in *. simpl. destruct (sending_flow m) as [s|].
    + destruct Hse as (t & S1 & S2 & S3 & S4 & S5 & S6 & S7). exists t.
      rewrite Htm by congruence. split_and!; try done; try lia.
      * rewrite Hrem. tauto.
      * rewrite S5. by rewrite bool_decide_false by done.
      * intros g u Hg. apply Hrem in Hg as [Hg Hne]. rewrite Htm by done. by apply S7.
    + destruct Hse as [? Hj]. split; [done|]. intros Hne. apply Hj. intros E. apply Hne.
      rewrite E. destruct (is_queued x); done.
  - intros p Hp. destruct (decide (previous_flow m = Some f)) as [E|E].
    + rewrite bool_decide_true in Hp by done. done.
    + rewrite bool_decide_false in Hp by done. destruct (Hpr p Hp) as (P1 & P2 & P3).
      assert (p <> f) by congruence. split_and!; [done| |].
      * rewrite Hrem. tauto.
      * by rewrite lookup_delete_ne by congruence.
Qed.

(** What an event does to the waiting flows. *)
Definition fq_moves (m m' : PacketPassFairQueue) (e : fq_event) : Prop :=
  match e with
  | QFlowInit f => queued_tree m' = queued_tree m
  | QFlowFree f => flows m' = delete f (flows m) /\
      forall g, g ∈ queued_tree m' <-> (g ∈ queued_tree m /\ g <> f)
  | QInOperation f => (forall g, g <> f -> tm (flows m') g = tm (flows m) g) /\
      (exists s t, tm (flows m) f = Some s /\ tm (flows m') f = Some t /\ s <= t) /\ (f ∉ queued_tree m)
  | QScheduleJob => (forall g, tm (flows m') g = tm (flows m) g) /\
      sending_flow m' = head (queued_tree m) /\
      forall g, g ∈ queued_tree m' <-> (g ∈ queued_tree m /\ Some g <> sending_flow m')
  | QOutJobDone => exists flow s, sending_flow m = Some flow /\ queued_tree m' = queued_tree m /\
      times_after m m' flow (packet_weight m + sending_len m) s
  | _ => unmoved m m'
  end.

Lemma st_enabled m f s :
  match flows m !! f with Some x => st_is (ppi_state (input x)) s | None => false end = true ->
  exists x, flows m !! f = Some x /\ ppi_state (input x) = s.
Proof. destruct (flows m !! f) as [x|]; [|done]. intros H%st_is_true. eauto. Qed.

Lemma sending_not_none m f : fq_ok m -> sending_flow m = Some f -> ppi_state (output m) <> ST_NONE.
Proof.
  intros Hok Hs. pose proof (fq_sending _ Hok) as H. unfold sending_ok in H. rewrite Hs in H.
  by destruct H as (?&?&?&?&_).
Qed.

Lemma not_none_sending m : fq_ok m -> ppi_state (output m) <> ST_NONE -> exists f, sending_flow m = Some f.
Proof.
  intros Hok Hs. pose proof (fq_sending _ Hok) as H. unfold sending_ok in H.
  destruct (sending_flow m); [eauto|]. by destruct H.
Qed.

Lemma fq_step_output m e j :
  fq_ok m -> ppi_exec (output m) e = Some j ->
  (ppi_state j = ST_NONE <-> ppi_state (output m) = ST_NONE) ->
  fq_ok (with_output m j) /\ unmoved m (with_output m j).
Proof. intros. split; [by eapply fq_on_output|done]. Qed.

Lemma fq_step_input m f x e j :
  fq_ok m -> flows m !! f = Some x -> ppi_exec (input x) e = Some j ->
  (ppi_state j = ST_BUSY <-> ppi_state (input x) = ST_BUSY) ->
  let m' := with_flows m (<[f := with_input x j]> (flows m)) in fq_ok m' /\ unmoved m m'.
Proof.
  intros Hok Hx He Hb m'. split; [by eapply fq_on_input|]. split_and!; try done.
  intros g. simpl. by apply (tm_insert_same _ _ x).
Qed.

Lemma fq_step_cancel m f :
  fq_ok m -> sending_flow m = Some f -> use_cancel m = true ->
  exists m', fq_exec m (QRequestCancel f) = Some (m', []) /\ fq_ok m' /\ unmoved m m'.
Proof.
  intros Hok Hs Hu. simpl. unfold PacketPassFairQueueFlow_RequestCancel.
  pose proof (fq_sending _ Hok) as H. unfold sending_ok in H. rewrite Hs in H.
  destruct H as (?&?&?&Hn&?&?&Hj&?).
  rewrite Hs, Hu, (fq_live _ Hok), Hj. rewrite bool_decide_true by done. cbn [negb].
  destruct (ppi_cancel (output m) Hn (fq_cancel _ Hok Hu)) as (o & Ho & Hon & _).
  rewrite Ho. eexists. split; [done|]. apply (fq_step_output m PRequestCancel); [done..|]. tauto.
Qed.

Lemma fq_step m e :
  fq_ok m -> fq_enabled m e = true ->
  exists m' os, fq_exec m e = Some (m', os) /\ fq_ok m' /\ fq_moves m m' e.
Proof.
  intros Hok He. destruct e as [f|f|f d len|f|f| | | | |f| |f h]; cbn [fq_enabled] in He.
  - apply bool_decide_eq_true in He. destruct (flow_init_step _ _ Hok He) as (m' & -> & Hok' & Ht & _). eauto.
  - apply andb_prop in He as [H1 H2]. apply bool_decide_eq_true in H1, H2.
    destruct (flows m !! f) as [x|] eqn:Hx; [|done].
    destruct (flow_free_step _ _ _ Hok Hx H2) as (m' & -> & Hok' & Ht & _ & Hd). eexists _, _. by split_and!.
  - apply andb_prop in He as [He H2]. apply andb_prop in He as [H0 H1].
    apply st_enabled in H0 as (x & Hx & Hs). pose proof (fq_flows _ Hok f x Hx) as [F1 F2 F3 F4 F5 F6 F7].
    destruct (ppi_send (input x) d len F3 Hs) as (j & Hj & J1 & _); [lia|].
    simpl. unfold on_input. rewrite Hx, Hj. eexists _, _. split; [done|].
    apply (fq_step_input m f x (PSend d len)); try done. rewrite J1, Hs. done.
  - apply st_enabled in He as (x & Hx & Hs).
    destruct (input_send_spec m f x Hok Hx Hs) as (i & d & m' & Hi & Hh & Hok' & Htm & (t & Htf & Hle) & Htr).
    simpl. rewrite Hx, Hi, Hh. eexists _, _. split; [done|]. split; [done|]. split_and!; [done| |].
    + exists (time x), t. unfold tm at 1. rewrite Hx. done.
    + pose proof (fq_flows _ Hok f x Hx) as [_ _ _ _ F5 _ F7]. rewrite F7. intros E.
      assert (ppi_state (input x) = ST_BUSY) by (apply F5; by left). congruence.
  - apply st_enabled in He as (x & Hx & Hs). pose proof (fq_flows _ Hok f x Hx) as [F1 F2 F3 F4 F5 F6 F7].
    destruct (ppi_jobdone (input x) Hs) as (j & Hj & J1 & _).
    simpl. unfold on_input. rewrite Hx, Hj. eexists _, _. split; [done|].
    apply (fq_step_input m f x PJobDone); try done.
    + simpl. by rewrite (ppi_ok_done _ F4), Hs.
    + rewrite J1, Hs. done.
  - destruct (schedule_job_spec m Hok He) as (m' & Hm & Hok' & Hs & Hp & Htm & Htr).
    cbn [fq_exec]. rewrite He. unfold with_job in Hm. rewrite Hm. eexists _, _. by split_and!.
  - apply st_is_true in He. destruct (ppi_op _ He) as (j & Hj & J1 & _). simpl. rewrite Hj.
    eexists _, _. split; [done|]. apply (fq_step_output m PJobOperation); try done.
    + simpl. by rewrite (ppi_ok_op _ (fq_out _ Hok)), He, Hj.
    + simpl. rewrite J1, He. done.
  - apply st_is_true in He. destruct (ppi_done _ He) as (j & Hj & J1 & _). simpl. rewrite Hj.
    eexists _, _. split; [done|]. apply (fq_step_output m PDone); try done. rewrite J1, He. done.
  - apply st_is_true in He. destruct (not_none_sending m Hok) as [flow Hf]; [congruence|].
    destruct (output_done_spec m flow Hok Hf He) as (o & m' & b & s & Ho & Hh & Hok' & _ & _ & Htr & _ & Hta).
    cbn [fq_exec]. rewrite Ho, Hh. eexists _, _. split; [done|]. split; [done|]. exists flow, s. done.
  - apply andb_prop in He as [H1 H2]. apply bool_decide_eq_true in H1.
    destruct (fq_step_cancel m f Hok H1 H2) as (m' & -> & ? & ?). eauto.
  - destruct (ppi_jobs_runnable _ (fq_out _ Hok)) as (_ & H & _). destruct (H He) as [j Hj].
    cbn [fq_exec]. rewrite He, Hj. eexists _, _. split; [done|].
    apply (fq_step_output m PJobRequestCancel); try done; [simpl; by rewrite He|].
    revert Hj. unfold PacketPassInterface_job_requestcancel. destruct (st_is _ _) eqn:E; [|done].
    apply st_is_true in E. destruct (ppi_cancel_requested _); [|done].
    destruct (ppi_handler_requestcancel _); [|done]. intros [= <-]. simpl. done.
  - apply bool_decide_eq_true in He. cbn [fq_exec]. unfold PacketPassFairQueueFlow_SetBusyHandler.
    rewrite He, (fq_live _ Hok), bool_decide_true by done. cbn [negb].
    pose proof (fq_sending _ Hok) as H. unfold sending_ok in H. rewrite He in H.
    destruct H as (t & Ht & _). unfold tm in Ht. destruct (flows m !! f) as [x|] eqn:Hx; [|done].
    eexists _, _. split; [done|]. split.
    + eapply fq_ok_update_flow; [done|done| |done].
      destruct (fq_flows _ Hok f x Hx) as [F1 F2 F3 F4 F5 F6 F7]. by split.
    + split_and!; try done. intros g. simpl. by apply (tm_insert_same _ _ x).
Qed.

(** ** How long a flow can wait *)

Definition msum (F : Z -> PacketPassFairQueueFlow -> Z) (fs : gmap Z PacketPassFairQueueFlow) : Z :=
  foldr Z.add 0 ((fun p => F p.1 p.2) <$> map_to_list fs).

Lemma foldr_add_perm (l k : list Z) : l ≡ₚ k -> foldr Z.add 0 l = foldr Z.add 0 k.
Proof. induction 1; simpl; lia. Qed.

Lemma msum_insert F fs i x : fs !! i = None -> msum F (<[i := x]> fs) = F i x + msum F fs.
Proof.
  intros Hi. unfold msum.
  rewrite (foldr_add_perm _ _ (fmap_Permutation _ _ _ (map_to_list_insert fs i x Hi))). done.
Qed.

Lemma msum_delete F fs i x : fs !! i = Some x -> msum F fs = F i x + msum F (delete i fs).
Proof.
  intros Hi. rewrite <- (insert_delete_id fs i x Hi) at 1. apply msum_insert. apply lookup_delete_eq.
Qed.

Lemma msum_nonneg F fs : (forall g x, 0 <= F g x) -> 0 <= msum F fs.
Proof.
  intros HF. unfold msum. induction (map_to_list fs) as [|p l IH]; [done|].
  specialize (HF p.1 p.2). rewrite fmap_cons. cbn [foldr]. lia.
Qed.

Lemma msum_le F F' fs' : forall fs,
  (forall g x, 0 <= F g x) ->
  (forall g x', fs' !! g = Some x' -> exists x, fs !! g = Some x /\ F' g x' <= F g x) ->
  msum F' fs' <= msum F fs.
Proof.
  induction fs' as [|i x' fs' Hi IH] using map_ind; intros fs HF Hle.
  { by apply msum_nonneg. }
  destruct (Hle i x') as (x & Hx & Hxx); [apply lookup_insert_eq|].
  rewrite msum_insert, (msum_delete F fs i x) by done.
  assert (msum F' fs' <= msum F (delete i fs)); [|lia].
  apply IH; [done|]. intros g y Hy. destruct (decide (g = i)) as [->|Hne]; [congruence|].
  rewrite lookup_delete_ne by congruence. apply Hle. by rewrite lookup_insert_ne by congruence.
Qed.

(** The completions of other flows that can still precede the waiting flow [f]:
    each one makes a flow that is ahead of [f] pay at least one unit of time. *)
Definition ahead (f tf : Z) (g : Z) (x : PacketPassFairQueueFlow) : Z :=
  if g =? f then 0 else Z.max 0 (tf - time x + 1).

Definition wait_bound (m : PacketPassFairQueue) (f : Z) : Z :=
  match tm (flows m) f with Some tf => msum (ahead f tf) (flows m) | None => 0 end.

Lemma ahead_nonneg f tf g x : 0 <= ahead f tf g x.
Proof. unfold ahead. destruct (g =? f); lia. Qed.

(** Times of the other flows relative to [f] can only grow. *)
Lemma wait_bound_mono m m' f tf tf' :
  tm (flows m) f = Some tf -> tm (flows m') f = Some tf' ->
  (forall g t', g <> f -> tm (flows m') g = Some t' ->
     exists t, tm (flows m) g = Some t /\ tf' - t' <= tf - t) ->
  wait_bound m' f <= wait_bound m f.
Proof.
  intros Hf Hf' Hle. unfold wait_bound. rewrite Hf, Hf'. apply msum_le; [apply ahead_nonneg|].
  intros g x' Hx'. destruct (decide (g = f)) as [->|Hne].
  - unfold tm in Hf. destruct (flows m !! f) as [x|] eqn:Ex; [|done].
    exists x. split; [done|]. unfold ahead. rewrite Z.eqb_refl. lia.
  - destruct (Hle g (time x') Hne) as (t & Ht & Hd); [unfold tm; by rewrite Hx'|].
    unfold tm in Ht. destruct (flows m !! g) as [x|] eqn:Ex; [|done]. injection Ht as <-.
    exists x. split; [done|]. unfold ahead. rewrite (proj2 (Z.eqb_neq _ _)) by done. lia.
Qed.

(** A completion of another flow strictly decreases the bound. *)
Lemma wait_bound_done m m' f tf flow t amount s :
  times_after m m' flow amount s -> f ∈ queued_tree m -> f <> flow -> 0 < amount ->
  tm (flows m) f = Some tf -> tm (flows m) flow = Some t -> t <= tf ->
  wait_bound m' f + 1 <= wait_bound m f.
Proof.
  intros (T1 & T2 & T3 & T4 & _) Hin Hne Ha Hf Ht Hle.
  pose proof (T3 f tf Hin Hf) as Hsf. pose proof (T1 t Ht) as Ht'.
  pose proof (T2 f Hne) as Hf'. rewrite Hf in Hf'. simpl in Hf'. unfold shifted at 1 in Hf'.
  rewrite (proj2 (Z.ltb_ge _ _)) in Hf' by lia.
  unfold wait_bound. rewrite Hf, Hf'.
  unfold tm in Ht, Ht'. destruct (flows m !! flow) as [x|] eqn:Ex; [|done]. injection Ht as <-.
  destruct (flows m' !! flow) as [x'|] eqn:Ex'; [|done]. injection Ht' as Hx'.
  rewrite (msum_delete _ _ _ _ Ex), (msum_delete _ _ _ _ Ex').
  assert (ahead f (tf - s) flow x' + 1 <= ahead f tf flow x).
  { unfold ahead. rewrite (proj2 (Z.eqb_neq _ _)) by congruence. lia. }
  assert (msum (ahead f (tf - s)) (delete flow (flows m')) <= msum (ahead f tf) (delete flow (flows m))); [|lia].
  apply msum_le; [apply ahead_nonneg|]. intros g y' Hy'. apply lookup_delete_Some in Hy' as [Hg Hy'].
  rewrite lookup_delete_ne by congruence. specialize (T2 g ltac:(congruence)). unfold tm in T2.
  rewrite Hy' in T2. destruct (flows m !! g) as [y|] eqn:Ey; [|done]. injection T2 as Hty.
  exists y. split; [done|]. unfold ahead. destruct (g =? f); [done|]. unfold shifted in Hty.
  destruct (time y <? s) eqn:E; lia.
Qed.

(** The flow [f] is waiting in [m] and after each event. *)
Fixpoint keeps_waiting (f : Z) (m : PacketPassFairQueue) (es : list fq_event) : bool :=
  bool_decide (f ∈ queued_tree m) &&
  match es with
  | [] => true
  | e :: es => match fq_exec m e with Some r => keeps_waiting f r.1 es | None => false end
  end.

Definition is_completion (e : fq_event) : bool := match e with QOutJobDone => true | _ => false end.
Definition is_flow_init (e : fq_event) : bool := match e with QFlowInit _ => true | _ => false end.
Definition completions (es : list fq_event) : Z := zlen (List.filter is_completion es).

Lemma fq_ok_tm m f : fq_ok m -> f ∈ queued_tree m -> exists t, tm (flows m) f = Some t.
Proof. intros Hok Hf. destruct (fq_tree _ Hok f Hf) as [x Hx]. exists (time x). unfold tm. by rewrite Hx. Qed.

Lemma wait_bound_step m m' f e :
  fq_ok m -> fq_ok m' -> fq_moves m m' e -> f ∈ queued_tree m -> f ∈ queued_tree m' ->
  is_flow_init e = false ->
  wait_bound m' f + Z.b2z (is_completion e) <= wait_bound m f.
Proof.
  intros Hok Hok' Hm Hf Hf' Hni.
  destruct (fq_ok_tm m f Hok Hf) as [tf Htf]. destruct (fq_ok_tm m' f Hok' Hf') as [tf' Htf'].
  assert (unmoved m m' -> wait_bound m' f + 0 <= wait_bound m f) as Hun.
  { intros (_ & _ & Htm). rewrite Z.add_0_r. apply (wait_bound_mono m m' f tf tf'); try done.
    rewrite Htm, Htf in Htf'. injection Htf' as <-. intros g t' _ Hg. rewrite Htm in Hg. eauto with lia. }
  destruct e as [h|h|h d len|h|h| | | | |h| |h b]; try done; simpl is_completion; cbn [Z.b2z];
    try (by apply Hun).
  - destruct Hm as [Hd Ht]. apply Ht in Hf' as [_ Hne]. rewrite Z.add_0_r.
    assert (forall g, tm (flows m') g = if decide (g = h) then None else tm (flows m) g) as Htm.
    { intros g. unfold tm. rewrite Hd. destruct (decide (g = h)) as [->|];
        [by rewrite lookup_delete_eq|by rewrite lookup_delete_ne by congruence]. }
    apply (wait_bound_mono m m' f tf tf'); try done. rewrite Htm, decide_False, Htf in Htf' by done.
    injection Htf' as <-. intros g t' _ Hg. rewrite Htm in Hg. destruct (decide (g = h)); [done|]. eauto with lia.
  - destruct Hm as (Htm & (s & t & Hs & Ht & Hle) & Hn). rewrite Z.add_0_r.
    assert (f <> h) as Hne by (intros ->; done).
    apply (wait_bound_mono m m' f tf tf'); try done. rewrite Htm, Htf in Htf' by done.
    injection Htf' as <-. intros g t' _ Hg. destruct (decide (g = h)) as [->|Hgh].
    + rewrite Ht in Hg. injection Hg as <-. exists s. split; [done|lia].
    + rewrite Htm in Hg by done. eauto with lia.
  - destruct Hm as (Htm & _ & _). rewrite Z.add_0_r. apply (wait_bound_mono m m' f tf tf'); try done.
    rewrite Htm, Htf in Htf'. injection Htf' as <-. intros g t' _ Hg. rewrite Htm in Hg. eauto with lia.
  - destruct Hm as (flow & s & Hs & Htr & Hta). pose proof (fq_sending _ Hok) as H.
    unfold sending_ok in H. rewrite Hs in H. destruct H as (t & S1 & S2 & S3 & S4 & S5 & S6 & S7).
    eapply wait_bound_done; try done.
    + intros ->. done.
    + pose proof (fq_weight _ Hok). lia.
    + by apply (S7 f).
Qed.

Lemma completions_cons e es : completions (e :: es) = Z.b2z (is_completion e) + completions es.
Proof. unfold completions. simpl. destruct (is_completion e); unfold zlen; simpl; lia. Qed.

Lemma fq_run_bound f es : forall m m' os,
  fq_ok m -> fq_run m es = Some (m', os) -> keeps_waiting f m es = true ->
  forallb (fun e => negb (is_flow_init e)) es = true ->
  completions es + wait_bound m' f <= wait_bound m f.
Proof.
  induction es as [|e es IH]; intros m m' os Hok Hrun Hk Hni; cbn [fq_run keeps_waiting forallb] in *.
  { inv_some. unfold completions, zlen. simpl. lia. }
  apply andb_prop in Hk as [Hf Hk]. apply bool_decide_eq_true in Hf. apply andb_prop in Hni as [Hni Hnis].
  destruct (fq_enabled m e) eqn:En; [|done].
  destruct (fq_step m e Hok En) as (m1 & o1 & Hx & Hok1 & Hmv). rewrite Hx in Hrun, Hk. cbn [fst] in *.
  destruct (fq_run m1 es) as [[m2 o2]|] eqn:E2; [|done]. simpl in Hrun. inv_some.
  specialize (IH _ _ _ Hok1 E2 Hk Hnis).
  assert (f ∈ queued_tree m1) as Hf1.
  { destruct es; simpl in Hk; apply andb_prop in Hk as [Hk _]; by apply bool_decide_eq_true in Hk. }
  rewrite completions_cons. apply negb_true_iff in Hni.
  pose proof (wait_bound_step _ _ _ _ Hok Hok1 Hmv Hf Hf1 Hni). lia.
Qed.

Lemma fq_run_ok es : forall m m' os, fq_ok m -> fq_run m es = Some (m', os) -> fq_ok m'.
Proof.
  induction es as [|e es IH]; intros m m' os Hok Hrun; cbn [fq_run] in Hrun; [by inv_some|].
  destruct (fq_enabled m e) eqn:En; [|done].
  destruct (fq_step m e Hok En) as (m1 & o1 & Hx & Hok1 & _). rewrite Hx in Hrun. cbn [fst] in Hrun.
  destruct (fq_run m1 es) as [[m2 o2]|] eqn:E2; [|done]. simpl in Hrun. inv_some. by eapply IH.
Qed.

(** A fresh queue on an idle output. *)
Definition fq_fresh (mtu weight : Z) : option PacketPassFairQueue :=
  let* o := PacketPassInterface_Init mtu in
  let* r := PacketPassFairQueue_Init o false weight in r.

Lemma fq_fresh_ok mtu weight m : fq_fresh mtu weight = Some m -> fq_ok m.
Proof.
  unfold fq_fresh, PacketPassInterface_Init, PacketPassFairQueue_Init.
  destruct (0 <=? mtu) eqn:E1; [|done]. cbn [ppi_mtu ppi_handler_requestcancel].
  destruct (weight >? 0) eqn:E2; [|done]. cbn [negb orb].
  destruct ((mtu <=? FAIRQUEUE_MAX_TIME) && (weight <=? FAIRQUEUE_MAX_TIME - mtu)) eqn:E3; [|done].
  simpl. intros [= <-]. split; simpl; try done; try lia.
  intros f Hf. by apply not_elem_of_nil in Hf.
Qed.

(** The fair queue runs safely and keeps its output busy. In every history
    from initialisation (flows coming and going, packets arriving, cancel
    requests, completions and jobs in any order): every event the interfaces
    allow is executed without a failing assertion; the flow being sent has the
    smallest time of all flows that wait (so each packet sent is one of the flow
    that has been served least); waiting flows are in increasing order of time;
    and whenever a flow waits, either a packet is being sent or the scheduling
    job is pending. *)
Theorem fair_queue_safe mtu weight m es m' os
    (Hinit : fq_fresh mtu weight = Some m) (Hrun : fq_run m es = Some (m', os)) :
  (forall e, fq_enabled m' e = true -> is_Some (fq_exec m' e)) /\
  (forall f t g u, sending_flow m' = Some f -> tm (flows m') f = Some t ->
     g ∈ queued_tree m' -> tm (flows m') g = Some u -> t <= u) /\
  tsorted (flows m') (queued_tree m') /\
  (queued_tree m' <> [] ->
     (exists f, sending_flow m' = Some f /\ ppi_state (output m') <> ST_NONE) \/ schedule_job m' = true) /\
  (forall f x, flows m' !! f = Some x -> 0 <= time x <= FAIRQUEUE_MAX_TIME).
Proof.
  pose proof (fq_run_ok _ _ _ _ (fq_fresh_ok _ _ _ Hinit) Hrun) as Hok.
  pose proof (fq_sending _ Hok) as Hse. unfold sending_ok in Hse. split_and!.
  - intros e He. destruct (fq_step _ _ Hok He) as (? & ? & -> & _). eauto.
  - intros f t g u Hs Ht Hg Hu. rewrite Hs in Hse. destruct Hse as (t' & S1 & _ & _ & _ & _ & _ & S7).
    rewrite Ht in S1. injection S1 as <-. by apply (S7 g).
  - apply Hok.
  - intros Hne. destruct (sending_flow m') as [f|].
    + left. exists f. by destruct Hse as (? & _ & _ & ? & _).
    + right. by apply Hse.
  - intros f x Hx. by apply (fq_flows _ Hok f x).
Qed.

(** C10. No flow starves. From any reachable state in which the flow [f] waits,
    and as long as it keeps waiting and no new flows are created, at most
    [wait_bound] packets are completed, whatever the other flows do: the 64-bit
    clock's overflow handling included. *)
Theorem fair_queue_no_starvation mtu weight m0 es0 m os0 f es m' os
    (Hinit : fq_fresh mtu weight = Some m0) (Hreach : fq_run m0 es0 = Some (m, os0))
    (Hrun : fq_run m es = Some (m', os)) (Hwait : keeps_waiting f m es = true)
    (Hflows : forallb (fun e => negb (is_flow_init e)) es = true) :
  completions es <= wait_bound m f.
Proof.
  pose proof (fq_run_ok _ _ _ _ (fq_fresh_ok _ _ _ Hinit) Hreach) as Hok.
  pose proof (fq_run_bound f es m m' os Hok Hrun Hwait Hflows).
  assert (0 <= wait_bound m' f); [|lia]. unfold wait_bound. destruct (tm _ f); [|lia].
  apply msum_nonneg, ahead_nonneg.
Qed.

(** The clock overflow handling is exact. When a packet of [flow] completes,
    the flow's time and the times of all waiting flows change by the same
    subtraction: relative to every waiting flow, [flow] has paid exactly
    [packet_weight] plus the packet's length, no time wraps around, and nothing is
    subtracted unless the addition would overflow. *)
Theorem fair_queue_clock mtu weight m0 es m os
    (Hinit : fq_fresh mtu weight = Some m0) (Hrun : fq_run m0 es = Some (m, os))
    (Hdone : ppi_state (output m) = ST_DONE_PENDING) :
  exists flow t m' os', sending_flow m = Some flow /\ tm (flows m) flow = Some t /\
    fq_exec m QOutJobDone = Some (m', os') /\
    exists t', tm (flows m') flow = Some t' /\ 0 <= t' <= FAIRQUEUE_MAX_TIME /\
      (forall g u, g ∈ queued_tree m -> tm (flows m) g = Some u ->
         exists u', tm (flows m') g = Some u' /\ 0 <= u' /\
           t' - u' = t + (packet_weight m + sending_len m) - u) /\
      (t + (packet_weight m + sending_len m) <= FAIRQUEUE_MAX_TIME ->
         t' = t + (packet_weight m + sending_len m) /\
         forall g, g <> flow -> tm (flows m') g = tm (flows m) g).
Proof.
  pose proof (fq_run_ok _ _ _ _ (fq_fresh_ok _ _ _ Hinit) Hrun) as Hok.
  destruct (not_none_sending m Hok) as [flow Hf]; [congruence|].
  destruct (output_done_spec m flow Hok Hf Hdone) as (o & m' & b & s & Ho & Hh & Hok' & _ & _ & Htr & _ & Hta).
  pose proof (fq_sending _ Hok) as Hse. unfold sending_ok in Hse. rewrite Hf in Hse.
  destruct Hse as (t & S1 & S2 & _). destruct Hta as (T1 & T2 & T3 & T4 & T5).
  exists flow, t, m', (if b then [QBusyHandler] else []). split_and!; [done|done| |].
  { cbn [fq_exec]. by rewrite Ho, Hh. }
  eexists. split; [by apply T1|]. split_and!.
  - specialize (T1 t S1). unfold tm in T1. destruct (flows m' !! flow) as [y|] eqn:Ey; [|done].
    injection T1 as <-. by apply (fq_flows _ Hok' flow y).
  - specialize (T1 t S1). unfold tm in T1. destruct (flows m' !! flow) as [y|] eqn:Ey; [|done].
    injection T1 as <-. by apply (fq_flows _ Hok' flow y).
  - intros g u Hg Hu. pose proof (T3 g u Hg Hu). exists (u - s).
    rewrite T2 by (intros ->; done). rewrite Hu. simpl. unfold shifted.
    rewrite (proj2 (Z.ltb_ge _ _)) by lia. split_and!; [done|lia|lia].
  - intros Hle. rewrite (T5 t S1 Hle) in *. split; [lia|]. intros g Hg. rewrite T2 by done.
    destruct (tm (flows m) g) as [u|] eqn:Eu; [|done]. simpl. unfold shifted, tm in *.
    destruct (flows m !! g) as [y|] eqn:Ey; [|done]. injection Eu as <-.
    pose proof (fl_time _ _ _ (fq_flows _ Hok g y Ey)). rewrite (proj2 (Z.ltb_ge _ _)) by lia. f_equal. lia.
Qed.

(** ** Witnesses: two flows compete; the first is sent twice in a row. *)

Definition demo1 : list fq_event :=
  [QFlowInit 1; QFlowInit 2; QSend 1 10 5; QSend 2 20 3; QInOperation 1; QInOperation 2; QOutOperation; QOutDone].
Definition demo2 : list fq_event := [QOutJobDone; QInJobDone 1; QSend 1 11 5; QInOperation 1].

Definition demo_queue : option PacketPassFairQueue :=
  let* m0 := fq_fresh 100 1 in let* r := fq_run m0 demo1 in Some r.1.

Lemma fair_queue_safe_witness :
  exists m0 m os, fq_run m0 (demo1 ++ demo2 ++ [QScheduleJob]) = Some (m, os) /\ sending_flow m = Some 2 /\
    tsorted (flows m) (queued_tree m).
Proof.
  destruct (fq_fresh 100 1) as [m0|] eqn:E0; [|vm_compute in E0; discriminate E0].
  destruct (fq_run m0 (demo1 ++ demo2 ++ [QScheduleJob])) as [[m os]|] eqn:E1.
  2: { exfalso. revert E1. vm_compute in E0. injection E0 as <-. vm_compute. discriminate. }
  exists m0, m, os. split; [done|]. split.
  - revert E1. vm_compute in E0. injection E0 as <-. vm_compute. intros [= <- _]. done.
  - apply (fair_queue_safe 100 1 m0 _ m os E0 E1).
Defined.

Lemma fair_queue_no_starvation_witness :
  exists m0 m os, fq_run m0 demo1 = Some (m, os) /\ completions demo2 <= wait_bound m 2 /\ wait_bound m 2 = 1.
Proof.
  destruct (fq_fresh 100 1) as [m0|] eqn:E0; [|vm_compute in E0; discriminate E0].
  destruct (fq_run m0 demo1) as [[m os]|] eqn:E1.
  2: { exfalso. revert E1. vm_compute in E0. injection E0 as <-. vm_compute. discriminate. }
  destruct (fq_run m demo2) as [[m' os']|] eqn:E2.
  2: { exfalso. revert E2. vm_compute in E0. injection E0 as <-. vm_compute in E1. injection E1 as <- _.
       vm_compute. discriminate. }
  exists m0, m, os. split; [done|]. split.
  - apply (fair_queue_no_starvation 100 1 m0 demo1 m os 2 demo2 m' os' E0 E1 E2); [|reflexivity].
    vm_compute in E0. injection E0 as <-. vm_compute in E1. injection E1 as <- _. vm_compute. reflexivity.
  - vm_compute in E0. injection E0 as <-. vm_compute in E1. injection E1 as <- _. vm_compute. reflexivity.
Defined.

Lemma fair_queue_clock_witness :
  exists m0 m os, fq_run m0 demo1 = Some (m, os) /\
    exists m' os' t', fq_exec m QOutJobDone = Some (m', os') /\ tm (flows m') 1 = Some t' /\ t' = 6.
Proof.
  destruct (fq_fresh 100 1) as [m0|] eqn:E0; [|vm_compute in E0; discriminate E0].
  destruct (fq_run m0 demo1) as [[m os]|] eqn:E1.
  2: { exfalso. revert E1. vm_compute in E0. injection E0 as <-. vm_compute. discriminate. }
  exists m0, m, os. split; [done|].
  assert (ppi_state (output m) = ST_DONE_PENDING /\ sending_flow m = Some 1 /\
          tm (flows m) 1 = Some 0 /\ packet_weight m + sending_len m = 6) as (H1 & H2 & H3 & H4).
  { vm_compute in E0. injection E0 as <-. vm_compute in E1. injection E1 as <- _. vm_compute. done. }
  destruct (fair_queue_clock 100 1 m0 demo1 m os E0 E1 H1) as (flow & t & m' & os' & Hf & Ht & He & t' & Ht' & _ & _ & Hn).
  rewrite H2 in Hf. injection Hf as <-. rewrite H3 in Ht. injection Ht as <-. rewrite H4 in Hn.
  exists m', os', t'. split_and!; [done|done|]. destruct Hn as [-> _]; [vm_compute; discriminate|done].
Defined.
