(* ===== verification/StreamSender.v ===== *)
(** * [flow/PacketStreamSender.c]: packets into a byte stream

    The sender passes each packet to a stream interface, which may take any
    non-empty part of what it is offered at a time. The packet's memory belongs to
    the user; pointers are offsets into it. *)

From S2P Require Import Prelude Flow PacketProto.

Record PacketStreamSender := mkSender {
  input : PacketPassInterface Z;
  output : StreamInterface Z;
  in_ : Z;
  in_used : Z;
  in_len : Z
}.

Definition send_data (s : PacketStreamSender) : option PacketStreamSender :=
  ASSERT (0 <=? in_len s) ;;
  if in_used s <? in_len s then
    let* o := StreamPassInterface_Sender_Send (output s) (in_ s + in_used s) (in_len s - in_used s) in
    Some (mkSender (input s) o (in_ s) (in_used s) (in_len s))
  else
    let* i := PacketPassInterface_Done (input s) in
    Some (mkSender i (output s) (in_ s) (in_used s) (-1)).

Definition input_handler_send (s : PacketStreamSender) (data data_len : Z) : option PacketStreamSender :=
  ASSERT (in_len s =? -1) ;;
  ASSERT (0 <=? data_len) ;;
  send_data (mkSender (input s) (output s) data 0 data_len).

Definition output_handler_done (s : PacketStreamSender) (data_len : Z) : option PacketStreamSender :=
  ASSERT (0 <=? in_len s) ;;
  ASSERT (0 <? data_len) ;;
  ASSERT (data_len <=? in_len s - in_used s) ;;
  send_data (mkSender (input s) (output s) (in_ s) (in_used s + data_len) (in_len s)).

Definition PacketStreamSender_Init (output : StreamInterface Z) (mtu : Z) : option PacketStreamSender :=
  ASSERT (0 <=? mtu) ;;
  let* i := PacketPassInterface_Init mtu in
  let* o := StreamPassInterface_Sender_Init output in
  Some (mkSender i o 0 0 (-1)).

(** ** Histories

    [packet] is the memory of the packet the user has handed over last. *)

Record sender_env := mkEnv { sender : PacketStreamSender; packet : list Z }.

Inductive snd_event :=
| SSend (p : list Z)   (* the user sends a packet *)
| SInOperation | SInJobDone
| SOutOperation
| STake (n : Z)        (* the stream takes the first [n] bytes it was offered *)
| SOutJobDone.

(** The bytes the stream takes. *)
Definition snd_exec (e : sender_env) (ev : snd_event) : option (sender_env * list Z) :=
  let s := sender e in
  let with_in i := mkSender i (output s) (in_ s) (in_used s) (in_len s) in
  let with_out o := mkSender (input s) o (in_ s) (in_used s) (in_len s) in
  match ev with
  | SSend p =>
      let* i := PacketPassInterface_Sender_Send (input s) 0 (zlen p) in
      Some (mkEnv (with_in i) p, [])
  | SInOperation =>
      let* r := PacketPassInterface_job_operation (input s) in
      let '(i, (data, len)) := r in
      let* d := data in
      let* s := input_handler_send (with_in i) d len in
      Some (mkEnv s (packet e), [])
  | SInJobDone =>
      let* i := PacketPassInterface_job_done (input s) in Some (mkEnv (with_in i) (packet e), [])
  | SOutOperation =>
      let* r := StreamPassInterface_job_operation (output s) in Some (mkEnv (with_out r.1) (packet e), [])
  | STake n =>
      let* o := StreamPassInterface_Done (output s) n in
      let* src := si_job_operation_data (output s) in
      let* bs := mem_read src n (packet e) in
      Some (mkEnv (with_out o) (packet e), bs)
  | SOutJobDone =>
      let* r := StreamPassInterface_job_done (output s) in
      let* s := output_handler_done (with_out r.1) r.2 in
      Some (mkEnv s (packet e), [])
  end.

Fixpoint snd_run (e : sender_env) (evs : list snd_event) : option (sender_env * list Z) :=
  match evs with
  | [] => Some (e, [])
  | ev :: evs =>
      let* r := snd_exec e ev in
      let* s := snd_run r.1 evs in
      Some (s.1, r.2 ++ s.2)
  end.

Definition snd_enabled (e : sender_env) (ev : snd_event) : bool :=
  let s := sender e in
  match ev with
  | SSend p => st_is (ppi_state (input s)) ST_NONE && (zlen p <=? ppi_mtu (input s))
  | SInOperation => st_is (ppi_state (input s)) ST_OPERATION_PENDING
  | SInJobDone => st_is (ppi_state (input s)) ST_DONE_PENDING
  | SOutOperation => st_is (si_state (output s)) ST_OPERATION_PENDING
  | STake n => st_is (si_state (output s)) ST_BUSY && (0 <? n) && (n <=? si_job_operation_len (output s))
  | SOutJobDone => st_is (si_state (output s)) ST_DONE_PENDING
  end.

Definition packets_sent (evs : list snd_event) : list (list Z) :=
  mjoin ((fun e => match e with SSend p => [p] | _ => [] end) <$> evs).

(** ** The invariant *)

(** Bytes of the current packet the stream has taken. *)
Definition taken (e : sender_env) : Z :=
  let s := sender e in
  in_used s + match si_state (output s) with ST_DONE_PENDING => si_job_done_len (output s) | _ => 0 end.

(** What is left to send of the current packet. *)
Definition remaining (e : sender_env) : list Z :=
  match ppi_state (input (sender e)) with
  | ST_OPERATION_PENDING => packet e
  | ST_BUSY => drop (Z.to_nat (taken e)) (packet e)
  | _ => []
  end.

Record snd_ok (e : sender_env) : Prop := {
  so_user_in : ppi_handler_done (input (sender e)) = true;
  so_user_out : si_handler_done (output (sender e)) = true;
  so_op : ppi_state (input (sender e)) = ST_OPERATION_PENDING ->
    ppi_job_operation_data (input (sender e)) = Some 0 /\
    ppi_job_operation_len (input (sender e)) = zlen (packet e);
  so_idle : ppi_state (input (sender e)) <> ST_BUSY ->
    in_len (sender e) = -1 /\ si_state (output (sender e)) = ST_NONE;
  so_busy : ppi_state (input (sender e)) = ST_BUSY ->
    in_len (sender e) = zlen (packet e) /\ in_ (sender e) = 0 /\
    0 <= in_used (sender e) < in_len (sender e) /\ si_state (output (sender e)) <> ST_NONE /\
    si_job_operation_data (output (sender e)) = Some (in_used (sender e)) /\
    si_job_operation_len (output (sender e)) = in_len (sender e) - in_used (sender e) /\
    (si_state (output (sender e)) = ST_DONE_PENDING ->
       0 < si_job_done_len (output (sender e)) <= si_job_operation_len (output (sender e)))
}.

(** ** Lemmas *)

Definition snd_step_ok (e : sender_env) (ev : snd_event) : Prop :=
  exists e' bs, snd_exec e ev = Some (e', bs) /\ snd_ok e' /\
    ppi_mtu (input (sender e')) = ppi_mtu (input (sender e)) /\
    remaining e ++ mjoin (packets_sent [ev]) = bs ++ remaining e'.

(** Continuing with a packet of which [in_used] bytes are sent. *)
Lemma send_data_spec s p :
  ppi_handler_done (input s) = true -> si_handler_done (output s) = true ->
  ppi_state (input s) = ST_BUSY -> si_state (output s) = ST_NONE ->
  in_len s = zlen p -> in_ s = 0 -> 0 <= in_used s <= zlen p ->
  exists s', send_data s = Some s' /\ snd_ok (mkEnv s' p) /\ ppi_mtu (input s') = ppi_mtu (input s) /\
    remaining (mkEnv s' p) = drop (Z.to_nat (in_used s)) p.
Proof.
  intros Hi Ho Hb Hn Hl Hz Hu. pose proof (zlen_nonneg p). unfold send_data. assert_true.
  rewrite Hl, Hz, Z.add_0_l. destruct (Z.ltb_spec (in_used s) (zlen p)) as [Hlt|Hge].
  - destruct (si_start (output s) (in_used s) (zlen p - in_used s) Ho Hn) as (o & Hs & O1 & O2 & O3 & O4); [lia|].
    unfold StreamPassInterface_Sender_Send. rewrite Hs. eexists. split; [done|]. split_and!.
    + split; simpl; try done; try congruence. intros _. rewrite O1. split_and!; try done; lia.
    + done.
    + unfold remaining, taken. simpl. rewrite Hb, O1. by rewrite Z.add_0_r.
  - destruct (ppi_done (input s) Hb) as (i & Hs & I1 & I2 & I3 & I4 & I5). rewrite Hs.
    eexists. split; [done|]. split_and!.
    + split; simpl; try done; try congruence.
    + simpl. congruence.
    + unfold remaining. simpl. rewrite I1. symmetry. apply drop_ge. unfold zlen in *. lia.
Qed.

Lemma snd_step e ev : snd_ok e -> snd_enabled e ev = true -> snd_step_ok e ev.
Proof.
  intros [Hui Huo Hop Hid Hbu] He. unfold snd_step_ok. destruct ev; cbn [snd_enabled] in He; cbn [snd_exec].
  - apply andb_prop in He as [H1 H2]. apply st_is_true in H1. pose proof (zlen_nonneg p).
    destruct (ppi_send (input (sender e)) 0 (zlen p) Hui H1) as (j & -> & J1 & J2 & J3 & J4 & J5); [lia|].
    destruct Hid as [Hl Hn]; [congruence|].
    eexists _, []. split; [done|]. split_and!; [|done|].
    + split; simpl; try done; try congruence.
    + unfold remaining. simpl. rewrite H1, J1. unfold packets_sent. simpl. by rewrite !app_nil_r.
  - apply st_is_true in He. destruct (Hop He) as [Hd Hl].
    destruct (ppi_op (input (sender e)) He) as (j & -> & J1 & J2 & J3 & J4 & J5). rewrite Hd, Hl.
    destruct Hid as [Hil Hn]; [congruence|]. pose proof (zlen_nonneg (packet e)).
    unfold input_handler_send. cbn [in_len]. rewrite Hil. cbn [Z.eqb]. assert_true.
    match goal with |- context [send_data ?s0] =>
      destruct (send_data_spec s0 (packet e)) as (s' & -> & Hok & Hm & Hr);
        cbn [input output in_len in_ in_used]; try done; try congruence; try lia end.
    eexists _, []. split; [done|].
    cbn [input output in_len in_ in_used] in *. split_and!; [done|simpl in *; congruence|].
    rewrite Hr. unfold remaining. rewrite He. simpl. by rewrite app_nil_r.
  - apply st_is_true in He. destruct (ppi_jobdone (input (sender e)) He) as (j & -> & J1 & J2 & J3).
    destruct Hid as [Hil Hn]; [congruence|]. eexists _, []. split; [done|]. split_and!; [|done|].
    + split; simpl; try done; try congruence.
    + unfold remaining. simpl. by rewrite He, J1.
  - apply st_is_true in He. destruct (si_op (output (sender e)) He) as (j & Hj & J1 & J2 & J3 & J4).
    unfold StreamPassInterface_job_operation. rewrite Hj.
    assert (ppi_state (input (sender e)) = ST_BUSY) as Hb.
    { destruct (decide (ppi_state (input (sender e)) = ST_BUSY)) as [|Hn]; [done|].
      destruct (Hid Hn). congruence. }
    destruct (Hbu Hb) as (B1 & B2 & B3 & B4 & B5 & B6 & B7).
    eexists _, []. split; [done|]. split_and!; [|done|].
    + split; simpl; try done; try congruence. intros _. rewrite J1. split_and!; try done; try congruence; lia.
    + unfold remaining, taken. simpl. rewrite Hb, He, J1. by rewrite app_nil_r.
  - apply andb_prop in He as [He H2]. apply andb_prop in He as [H0 H1]. apply st_is_true in H0.
    assert (ppi_state (input (sender e)) = ST_BUSY) as Hb.
    { destruct (decide (ppi_state (input (sender e)) = ST_BUSY)) as [|Hn]; [done|].
      destruct (Hid Hn). congruence. }
    destruct (Hbu Hb) as (B1 & B2 & B3 & B4 & B5 & B6 & B7).
    destruct (si_done (output (sender e)) n H0) as (j & Hj & J1 & J2 & J3 & J4 & J5); [lia|].
    unfold StreamPassInterface_Done. rewrite Hj, B5, mem_read_Some by lia.
    eexists _, _. split; [done|]. split_and!; [|done|].
    + split; simpl; try done; try congruence. intros _. rewrite J1. split_and!; try done; try congruence; lia.
    + unfold remaining, taken, slice. simpl. rewrite Hb, H0, J1, J4, !app_nil_r, Z.add_0_r.
      rewrite Z2Nat.inj_add by lia. rewrite <- drop_drop. by rewrite take_drop.
  - apply st_is_true in He. destruct (si_jobdone (output (sender e)) He) as (j & Hj & J1 & J2).
    unfold StreamPassInterface_job_done. rewrite Hj.
    assert (ppi_state (input (sender e)) = ST_BUSY) as Hb.
    { destruct (decide (ppi_state (input (sender e)) = ST_BUSY)) as [|Hn]; [done|].
      destruct (Hid Hn). congruence. }
    destruct (Hbu Hb) as (B1 & B2 & B3 & B4 & B5 & B6 & B7). specialize (B7 He).
    unfold output_handler_done. cbn [in_len in_used fst snd]. assert_true. assert_true. assert_true.
    match goal with |- context [send_data ?s0] =>
      destruct (send_data_spec s0 (packet e)) as (s' & -> & Hok & Hm & Hr);
        cbn [input output in_len in_ in_used]; try done; try congruence; try lia end.
    eexists _, []. split; [done|].
    cbn [input output in_len in_ in_used] in *. split_and!; [done|simpl in *; congruence|].
    rewrite Hr. unfold remaining, taken. rewrite Hb, He. simpl. by rewrite app_nil_r.
Qed.

(** ** The byte stream *)

Lemma snd_exec_enabled e ev r : snd_exec e ev = Some r -> snd_enabled e ev = true.
Proof.
  destruct ev; simpl; unfold PacketPassInterface_Sender_Send, PacketPassInterface_job_operation,
    PacketPassInterface_job_done, StreamPassInterface_job_operation, StreamPassInterface_Done,
    StreamPassInterface_job_done, StreamInterface_job_operation, StreamInterface_Done,
    StreamInterface_job_done; intros H;
  repeat match type of H with context [if ?c then _ else _] => destruct c eqn:? end; try done; simpl; lia.
Qed.

Lemma packets_sent_cons ev evs : packets_sent (ev :: evs) = packets_sent [ev] ++ packets_sent evs.
Proof. unfold packets_sent. simpl. by rewrite app_nil_r. Qed.

Lemma snd_run_ok evs : forall e e' bs,
  snd_ok e -> snd_run e evs = Some (e', bs) ->
  snd_ok e' /\ remaining e ++ mjoin (packets_sent evs) = bs ++ remaining e'.
Proof.
  induction evs as [|ev evs IH]; intros e e' bs Hok Hrun; cbn [snd_run] in Hrun.
  { inv_some. split; [done|]. by rewrite app_nil_r. }
  destruct (snd_exec e ev) as [[e1 b1]|] eqn:E1; [|done].
  destruct (snd_run (e1, b1).1 evs) as [[e2 b2]|] eqn:E2; [|done]. simpl in Hrun. inv_some.
  destruct (snd_step e ev Hok (snd_exec_enabled _ _ _ E1)) as (e1' & b1' & Hx & Hok1 & _ & Hr).
  rewrite E1 in Hx. injection Hx as <- <-.
  destruct (IH _ _ _ Hok1 E2) as [Hok2 Hr2]. split; [done|].
  rewrite packets_sent_cons, join_app, app_assoc, Hr, <- app_assoc, Hr2. by rewrite app_assoc.
Qed.

(** A fresh sender with its user attached. *)
Definition snd_fresh (mtu : Z) : option sender_env :=
  let* s := PacketStreamSender_Init StreamPassInterface_Init mtu in
  let* i := PacketPassInterface_Sender_Init (input s) in
  Some (mkEnv (mkSender i (output s) (in_ s) (in_used s) (in_len s)) []).

Lemma snd_fresh_ok mtu e : snd_fresh mtu = Some e -> snd_ok e /\ remaining e = [].
Proof.
  unfold snd_fresh, PacketStreamSender_Init, PacketPassInterface_Init.
  destruct (0 <=? mtu); [|done]. simpl. intros [= <-]. split; [|done]. by split.
Qed.

(** A [PacketStreamSender] writes exactly the packets it is given to the
    stream: however the stream splits its writes, the bytes it has taken are the
    concatenation of the packets, in order, up to the part of the last packet
    that is still to be sent, of which nothing is left once the packet is
    reported as sent; and every event the interfaces allow is executed without a
    failing assertion or a read outside the packet. *)
Theorem stream_sender_bytes mtu e evs e' bs
    (Hinit : snd_fresh mtu = Some e) (Hrun : snd_run e evs = Some (e', bs)) :
  mjoin (packets_sent evs) = bs ++ remaining e' /\
  (ppi_state (input (sender e')) = ST_DONE_PENDING \/ ppi_state (input (sender e')) = ST_NONE ->
     bs = mjoin (packets_sent evs)) /\
  (forall ev, snd_enabled e' ev = true -> is_Some (snd_exec e' ev)) /\
  (ppi_state (input (sender e')) = ST_BUSY -> si_state (output (sender e')) <> ST_NONE).
Proof.
  destruct (snd_fresh_ok _ _ Hinit) as [Hok Hr0].
  destruct (snd_run_ok _ _ _ _ Hok Hrun) as [Hok' Hr]. rewrite Hr0 in Hr. simpl in Hr.
  split_and!; [done| | |].
  - intros Hs. rewrite Hr. unfold remaining. destruct Hs as [-> | ->]; by rewrite app_nil_r.
  - intros ev Hev. destruct (snd_step e' ev Hok' Hev) as (? & ? & -> & _). eauto.
  - intros Hb. by apply (so_busy _ Hok' Hb).
Qed.

Definition demo_sends : list snd_event :=
  [SSend [1;2;3]; SInOperation; SOutOperation; STake 2; SOutJobDone; SOutOperation; STake 1; SOutJobDone;
   SInJobDone; SSend []; SInOperation; SInJobDone; SSend [4;5]; SInOperation; SOutOperation; STake 1].

Lemma stream_sender_bytes_witness :
  exists e e' bs, snd_run e demo_sends = Some (e', bs) /\
    mjoin (packets_sent demo_sends) = bs ++ remaining e' /\ bs = [1;2;3;4].
Proof.
  destruct (snd_fresh 10) as [e|] eqn:E0; [|vm_compute in E0; discriminate E0].
  destruct (snd_run e demo_sends) as [[e' bs]|] eqn:E1.
  2: { exfalso. revert E1. vm_compute in E0. injection E0 as <-. vm_compute. discriminate. }
  exists e, e', bs. split; [done|]. split.
  - apply (stream_sender_bytes 10 e demo_sends e' bs E0 E1).
  - revert E1. vm_compute in E0. injection E0 as <-. vm_compute. intros [= _ <-]. done.
Defined.
