(* ===== verification/Connector.v ===== *)
(** * [flow/PacketPassConnector.c]: a packet sink that can be exchanged

    Packets sent to the connector go to the output it is currently connected to;
    without an output, or when the output goes away before it has taken the
    packet, the packet waits for the next output. Outputs are numbered in the
    order in which they are connected. *)

From S2P Require Import Prelude Flow.

Record PacketPassConnector := mkConn {
  input : PacketPassInterface Z;
  input_mtu : Z;
  in_len : Z;
  in_ : option Z;
  output : option (PacketPassInterface Z)
}.

Definition input_handler_send (o : PacketPassConnector) (data : option Z) (data_len : Z)
  : option PacketPassConnector :=
  ASSERT (0 <=? data_len) ;;
  ASSERT (data_len <=? input_mtu o) ;;
  ASSERT (in_len o =? -1) ;;
  match output o with
  | Some out =>
      let* d := data in
      let* out := PacketPassInterface_Sender_Send out d data_len in
      Some (mkConn (input o) (input_mtu o) data_len data (Some out))
  | None => Some (mkConn (input o) (input_mtu o) data_len data None)
  end.

Definition output_handler_done (o : PacketPassConnector) : option PacketPassConnector :=
  ASSERT (0 <=? in_len o) ;;
  ASSERT (bool_decide (is_Some (output o))) ;;
  let* i := PacketPassInterface_Done (input o) in
  Some (mkConn i (input_mtu o) (-1) (in_ o) (output o)).

Definition PacketPassConnector_Init (mtu : Z) : option PacketPassConnector :=
  ASSERT (0 <=? mtu) ;;
  let* i := PacketPassInterface_Init mtu in
  Some (mkConn i mtu (-1) None None).

Definition PacketPassConnector_ConnectOutput (o : PacketPassConnector) (out : PacketPassInterface Z)
  : option PacketPassConnector :=
  ASSERT (bool_decide (output o = None)) ;;
  ASSERT (ppi_mtu out >=? input_mtu o) ;;
  let* out := PacketPassInterface_Sender_Init out in
  if in_len o >=? 0 then
    let* d := in_ o in
    let* out := PacketPassInterface_Sender_Send out d (in_len o) in
    Some (mkConn (input o) (input_mtu o) (in_len o) (in_ o) (Some out))
  else Some (mkConn (input o) (input_mtu o) (in_len o) (in_ o) (Some out)).

Definition PacketPassConnector_DisconnectOutput (o : PacketPassConnector) : option PacketPassConnector :=
  ASSERT (bool_decide (is_Some (output o))) ;;
  Some (mkConn (input o) (input_mtu o) (in_len o) (in_ o) None).

(** ** Histories *)

Inductive con_event :=
| KSend (d len : Z) | KInOperation | KInJobDone
| KConnect (out : PacketPassInterface Z) | KDisconnect
| KOutOperation | KOutDone | KOutJobDone.

(** What the environment sees: packets offered to an output, packets an output
    has completed, and completions reported to the user. *)
Inductive con_obs := KOffered (d : option Z) (len : Z) | KCompleted | KReported.

Definition con_exec (o : PacketPassConnector) (e : con_event) : option (PacketPassConnector * list con_obs) :=
  let with_in i := mkConn i (input_mtu o) (in_len o) (in_ o) (output o) in
  let with_out x := mkConn (input o) (input_mtu o) (in_len o) (in_ o) (Some x) in
  match e with
  | KSend d len =>
      let* i := PacketPassInterface_Sender_Send (input o) d len in Some (with_in i, [])
  | KInOperation =>
      let* r := PacketPassInterface_job_operation (input o) in
      let '(i, (data, len)) := r in
      let* o := input_handler_send (with_in i) data len in Some (o, [])
  | KInJobDone =>
      let* i := PacketPassInterface_job_done (input o) in Some (with_in i, [KReported])
  | KConnect out => let* o := PacketPassConnector_ConnectOutput o out in Some (o, [])
  | KDisconnect => let* o := PacketPassConnector_DisconnectOutput o in Some (o, [])
  | KOutOperation =>
      let* x := output o in
      let* r := PacketPassInterface_job_operation x in
      Some (with_out r.1, [KOffered r.2.1 r.2.2])
  | KOutDone =>
      let* x := output o in
      let* x := PacketPassInterface_Done x in Some (with_out x, [])
  | KOutJobDone =>
      let* x := output o in
      let* x := PacketPassInterface_job_done x in
      let* o := output_handler_done (with_out x) in Some (o, [KCompleted])
  end.

Definition fresh_output (mtu : Z) (out : PacketPassInterface Z) : bool :=
  st_is (ppi_state out) ST_NONE && negb (ppi_handler_done out) && (mtu <=? ppi_mtu out).

Definition con_enabled (o : PacketPassConnector) (e : con_event) : bool :=
  let out_is s := match output o with Some x => st_is (ppi_state x) s | None => false end in
  match e with
  | KSend d len => st_is (ppi_state (input o)) ST_NONE && (0 <=? len) && (len <=? input_mtu o)
  | KInOperation => st_is (ppi_state (input o)) ST_OPERATION_PENDING
  | KInJobDone => st_is (ppi_state (input o)) ST_DONE_PENDING
  | KConnect out => bool_decide (output o = None) && fresh_output (input_mtu o) out
  | KDisconnect => bool_decide (is_Some (output o))
  | KOutOperation => out_is ST_OPERATION_PENDING
  | KOutDone => out_is ST_BUSY
  | KOutJobDone => out_is ST_DONE_PENDING
  end.

Fixpoint con_run (o : PacketPassConnector) (es : list con_event) : option (PacketPassConnector * list con_obs) :=
  match es with
  | [] => Some (o, [])
  | e :: es =>
      if con_enabled o e then
        let* r := con_exec o e in
        let* s := con_run r.1 es in
        Some (s.1, r.2 ++ s.2)
      else None
  end.

(** ** The invariant *)

Record con_ok (o : PacketPassConnector) : Prop := {
  co_mtu : ppi_mtu (input o) = input_mtu o;
  co_user : ppi_handler_done (input o) = true;
  co_data : ppi_state (input o) <> ST_NONE ->
    is_Some (ppi_job_operation_data (input o)) /\ 0 <= ppi_job_operation_len (input o) <= input_mtu o;
  (* a packet is held exactly while the input waits for its completion *)
  co_idle : ppi_state (input o) <> ST_BUSY -> in_len o = -1;
  co_busy : ppi_state (input o) = ST_BUSY ->
    in_len o = ppi_job_operation_len (input o) /\ in_ o = ppi_job_operation_data (input o);
  (* and a connected output is working on it *)
  co_out : forall x, output o = Some x ->
    ppi_handler_done x = true /\ input_mtu o <= ppi_mtu x /\
    (ppi_state (input o) <> ST_BUSY -> ppi_state x = ST_NONE) /\
    (ppi_state (input o) = ST_BUSY -> ppi_state x <> ST_NONE /\
       ppi_job_operation_data x = in_ o /\ ppi_job_operation_len x = in_len o)
}.

Definition n_completed (os : list con_obs) : Z :=
  zlen (List.filter (fun o => match o with KCompleted => true | _ => false end) os).
Definition n_reported (os : list con_obs) : Z :=
  zlen (List.filter (fun o => match o with KReported => true | _ => false end) os).
Definition owed (o : PacketPassConnector) : Z :=
  if st_is (ppi_state (input o)) ST_DONE_PENDING then 1 else 0.

(** Every packet offered is the one the user is waiting for. *)
Definition offers_current (o : PacketPassConnector) (os : list con_obs) : Prop :=
  forall d len, KOffered d len ∈ os ->
    ppi_state (input o) = ST_BUSY /\ d = ppi_job_operation_data (input o) /\
    len = ppi_job_operation_len (input o).

Lemma offers_nil o : offers_current o [].
Proof. intros ?? H. by apply not_elem_of_nil in H. Qed.

Definition con_step_ok (o : PacketPassConnector) (e : con_event) : Prop :=
  exists o' os, con_exec o e = Some (o', os) /\ con_ok o' /\ offers_current o os /\
    owed o + n_completed os = n_reported os + owed o' /\ input_mtu o' = input_mtu o.

Lemma con_send o d len :
  con_ok o -> ppi_state (input o) = ST_NONE -> 0 <= len <= input_mtu o -> con_step_ok o (KSend d len).
Proof.
  intros [Hm Hu Hd Hi Hb Ho] H0 Hl. unfold con_step_ok. cbn [con_exec].
  destruct (ppi_send (input o) d len Hu H0) as (j & -> & J1 & J2 & J3 & J4 & J5); [lia|].
  eexists _, []. split; [done|]. split_and!; [|apply offers_nil| |done].
  - split; simpl; try done; try congruence.
    + intros _. rewrite J2, J3. split; [by eexists|lia].
    + intros _. apply Hi. congruence.
    + intros x Hx. destruct (Ho x Hx) as (? & ? & H & _). rewrite J1.
      split_and!; try done. intros _. apply H. congruence.
  - unfold owed. simpl. by rewrite H0, J1.
Qed.

Lemma con_in_operation o :
  con_ok o -> ppi_state (input o) = ST_OPERATION_PENDING -> con_step_ok o KInOperation.
Proof.
  intros [Hm Hu Hd Hi Hb Ho] H0. unfold con_step_ok. cbn [con_exec].
  destruct (ppi_op (input o) H0) as (j & -> & J1 & J2 & J3 & J4 & J5).
  destruct Hd as [[d Hd] Hl]; [congruence|]. unfold input_handler_send.
  cbn [input_mtu in_len output input]. rewrite (Hi ltac:(congruence)). assert_true. assert_true. cbn [Z.eqb].
  destruct (output o) as [x|] eqn:Ex.
  - destruct (Ho x eq_refl) as (O1 & O2 & O3 & _). rewrite Hd.
    destruct (ppi_send x d (ppi_job_operation_len (input o)) O1) as (y & -> & Y1 & Y2 & Y3 & Y4 & Y5);
      [apply O3; congruence|lia|].
    eexists _, []. split; [done|]. split_and!; [|apply offers_nil| |done].
    + split; simpl; try done; try congruence.
      * intros _. rewrite J2, J3, Hd. split; [by eexists|done].
      * intros _. by rewrite J2, J3, Hd.
      * intros x' [= <-]. rewrite J1, Y1, Y2, Y3. split_and!; done || congruence.
    + unfold owed. simpl. by rewrite H0, J1.
  - eexists _, []. split; [done|]. split_and!; [|apply offers_nil| |done].
    + split; simpl; try done; try congruence.
      intros _. rewrite J2, J3, Hd. split; [by eexists|done].
    + unfold owed. simpl. by rewrite H0, J1.
Qed.

Lemma con_in_job_done o :
  con_ok o -> ppi_state (input o) = ST_DONE_PENDING -> con_step_ok o KInJobDone.
Proof.
  intros [Hm Hu Hd Hi Hb Ho] H0. unfold con_step_ok. cbn [con_exec].
  destruct (ppi_jobdone (input o) H0) as (j & -> & J1 & J2 & J3).
  eexists _, _. split; [done|]. split_and!; [| | |done].
  - split; simpl; try done; try congruence.
    + intros _. apply Hi. congruence.
    + intros x Hx. destruct (Ho x Hx) as (? & ? & H & _). split_and!; try done; [|congruence].
      intros _. apply H. congruence.
  - intros d len H. by apply list_elem_of_singleton in H.
  - unfold owed, n_completed, n_reported. simpl. rewrite H0, J1. done.
Qed.

Lemma con_connect o out :
  con_ok o -> output o = None -> fresh_output (input_mtu o) out = true -> con_step_ok o (KConnect out).
Proof.
  intros [Hm Hu Hd Hi Hb Ho] H0 Hf. unfold con_step_ok. cbn [con_exec].
  unfold fresh_output in Hf. apply andb_prop in Hf as [Hf H3]. apply andb_prop in Hf as [H1 H2].
  apply st_is_true in H1. unfold PacketPassConnector_ConnectOutput, PacketPassInterface_Sender_Init.
  rewrite H0, H2, bool_decide_true by done. assert_true. set (x := mkPPI _ _ _ _ _ _ _ _ _ _).
  destruct (decide (ppi_state (input o) = ST_BUSY)) as [Eb|Eb].
  - destruct (Hb Eb) as [B1 B2]. destruct Hd as [[d Hd] Hl]; [congruence|]. rewrite B1, B2, Hd.
    rewrite Z.geb_leb, (proj2 (Z.leb_le _ _)) by lia.
    destruct (ppi_send x d (ppi_job_operation_len (input o))) as (y & -> & Y1 & Y2 & Y3 & Y4 & Y5);
      [done|done|simpl; lia|].
    eexists _, []. split; [done|]. split_and!; [|apply offers_nil| |done].
    + split; simpl; try done; try congruence.
      intros y' [= <-]. rewrite Y1, Y2, Y3, Y5. simpl. split_and!; try done; try congruence; lia.
    + unfold owed, n_completed, n_reported, zlen. simpl. lia.
  - rewrite (Hi Eb). simpl. eexists _, []. split; [done|]. split_and!; [|apply offers_nil| |done].
    + split; simpl; try done; try congruence.
      intros y' [= <-]. simpl. split_and!; try done; lia.
    + unfold owed, n_completed, n_reported, zlen. simpl. lia.
Qed.

Lemma con_disconnect o : con_ok o -> is_Some (output o) -> con_step_ok o KDisconnect.
Proof.
  intros [Hm Hu Hd Hi Hb Ho] H0. unfold con_step_ok. cbn [con_exec].
  unfold PacketPassConnector_DisconnectOutput. rewrite bool_decide_true by done.
  eexists _, []. split; [done|]. split_and!; [by split|apply offers_nil| |done]. unfold owed, n_completed, n_reported, zlen. simpl. lia.
Qed.

(** While the output works on a packet, the user waits for it. *)
Lemma con_output_busy o x :
  con_ok o -> output o = Some x -> ppi_state x <> ST_NONE ->
  ppi_state (input o) = ST_BUSY /\ ppi_handler_done x = true /\ input_mtu o <= ppi_mtu x /\
  ppi_job_operation_data x = ppi_job_operation_data (input o) /\
  ppi_job_operation_len x = ppi_job_operation_len (input o).
Proof.
  intros [Hm Hu Hd Hi Hb Ho] Hx Hn. destruct (Ho x Hx) as (O1 & O2 & O3 & O4).
  destruct (decide (ppi_state (input o) = ST_BUSY)) as [E|E]; [|destruct Hn; auto].
  destruct (Hb E) as [<- <-]. destruct (O4 E) as (_ & -> & ->). done.
Qed.

Lemma con_update_output o x y :
  con_ok o -> output o = Some x -> ppi_state x <> ST_NONE ->
  ppi_state y <> ST_NONE -> ppi_job_operation_data y = ppi_job_operation_data x ->
  ppi_job_operation_len y = ppi_job_operation_len x -> ppi_handler_done y = ppi_handler_done x ->
  ppi_mtu y = ppi_mtu x ->
  con_ok (mkConn (input o) (input_mtu o) (in_len o) (in_ o) (Some y)).
Proof.
  intros Hok Hx Hn Hy Y2 Y3 Y4 Y5. destruct (con_output_busy o x Hok Hx Hn) as (B1 & B2 & B3 & B4 & B5).
  destruct Hok as [Hm Hu Hd Hi Hb Ho]. destruct (Hb B1) as [E1 E2].
  split; simpl; try done. intros y' [= <-]. split_and!; [congruence|lia|congruence|intros _; split_and!; congruence].
Qed.

Lemma con_out_operation o x :
  con_ok o -> output o = Some x -> ppi_state x = ST_OPERATION_PENDING -> con_step_ok o KOutOperation.
Proof.
  intros Hok Hx Hs. unfold con_step_ok. cbn [con_exec]. rewrite Hx.
  destruct (ppi_op x Hs) as (y & -> & Y1 & Y2 & Y3 & Y4 & Y5).
  destruct (con_output_busy o x Hok Hx ltac:(congruence)) as (B1 & B2 & B3 & B4 & B5).
  eexists _, _. split; [done|]. split_and!; [| | |done].
  - apply (con_update_output o x y); try done; congruence.
  - intros d len H. apply list_elem_of_singleton in H. injection H as -> ->. by rewrite B4, B5.
  - unfold owed, n_completed, n_reported, zlen. simpl. lia.
Qed.

Lemma con_out_done o x :
  con_ok o -> output o = Some x -> ppi_state x = ST_BUSY -> con_step_ok o KOutDone.
Proof.
  intros Hok Hx Hs. unfold con_step_ok. cbn [con_exec]. rewrite Hx.
  destruct (ppi_done x Hs) as (y & -> & Y1 & Y2 & Y3 & Y4 & Y5).
  eexists _, []. split; [done|]. split_and!; [|apply offers_nil| |done].
  - apply (con_update_output o x y); try done; congruence.
  - unfold owed, n_completed, n_reported, zlen. simpl. lia.
Qed.

Lemma con_out_job_done o x :
  con_ok o -> output o = Some x -> ppi_state x = ST_DONE_PENDING -> con_step_ok o KOutJobDone.
Proof.
  intros Hok Hx Hs. unfold con_step_ok. cbn [con_exec]. rewrite Hx.
  destruct (ppi_jobdone x Hs) as (y & -> & Y1 & Y2 & Y3).
  destruct (con_output_busy o x Hok Hx ltac:(congruence)) as (B1 & B2 & B3 & B4 & B5).
  destruct Hok as [Hm Hu Hd Hi Hb Ho]. destruct (Hb B1) as [E1 E2]. destruct Hd as [Hd Hl]; [congruence|].
  unfold output_handler_done. cbn [in_len output input]. assert_true. rewrite bool_decide_true by eauto.
  destruct (ppi_done (input o) B1) as (j & -> & J1 & J2 & J3 & J4 & J5).
  eexists _, _. split; [done|]. split_and!; [| | |done].
  - split; simpl; try done; try congruence.
    + intros _. rewrite J2, J3. done.
    + intros y' [= <-]. rewrite J1. split_and!; try done; try congruence.
  - intros d len H. by apply list_elem_of_singleton in H.
  - unfold owed, n_completed, n_reported. simpl. rewrite B1, J1. done.
Qed.

Lemma con_step o e : con_ok o -> con_enabled o e = true -> con_step_ok o e.
Proof.
  intros Hok He. destruct e as [d len| | |out| | | | ]; cbn [con_enabled] in He.
  - apply andb_prop in He as [He H2]. apply andb_prop in He as [H0 H1]. apply st_is_true in H0.
    apply con_send; [done|done|lia].
  - apply con_in_operation; [done|by apply st_is_true].
  - apply con_in_job_done; [done|by apply st_is_true].
  - apply andb_prop in He as [H0 H1]. apply bool_decide_eq_true in H0. by apply con_connect.
  - apply bool_decide_eq_true in He. by apply con_disconnect.
  - destruct (output o) as [x|] eqn:Ex; [|done]. apply st_is_true in He. by eapply con_out_operation.
  - destruct (output o) as [x|] eqn:Ex; [|done]. apply st_is_true in He. by eapply con_out_done.
  - destruct (output o) as [x|] eqn:Ex; [|done]. apply st_is_true in He. by eapply con_out_job_done.
Qed.

Lemma n_completed_app os os' : n_completed (os ++ os') = n_completed os + n_completed os'.
Proof. unfold n_completed. by rewrite List.filter_app, zlen_app. Qed.

Lemma n_reported_app os os' : n_reported (os ++ os') = n_reported os + n_reported os'.
Proof. unfold n_reported. by rewrite List.filter_app, zlen_app. Qed.

Lemma con_run_ok es : forall o o' os,
  con_ok o -> con_run o es = Some (o', os) ->
  con_ok o' /\ owed o + n_completed os = n_reported os + owed o'.
Proof.
  induction es as [|e es IH]; intros o o' os Hok Hrun; cbn [con_run] in Hrun.
  { inv_some. split; [done|]. unfold n_completed, n_reported, zlen. simpl. lia. }
  destruct (con_enabled o e) eqn:En; [|done].
  destruct (con_step o e Hok En) as (o1 & os1 & Hx & Hok1 & _ & Hc & _). rewrite Hx in Hrun. cbn [fst snd] in Hrun.
  destruct (con_run o1 es) as [[o2 os2]|] eqn:E2; [|done]. simpl in Hrun. inv_some.
  destruct (IH _ _ _ Hok1 E2) as [Hok2 Hc2]. split; [done|].
  rewrite n_completed_app, n_reported_app. lia.
Qed.

Definition con_fresh (mtu : Z) : option PacketPassConnector :=
  let* o := PacketPassConnector_Init mtu in
  let* i := PacketPassInterface_Sender_Init (input o) in
  Some (mkConn i (input_mtu o) (in_len o) (in_ o) (output o)).

Lemma con_fresh_ok mtu o : con_fresh mtu = Some o -> con_ok o /\ owed o = 0.
Proof.
  unfold con_fresh, PacketPassConnector_Init, PacketPassInterface_Init.
  destruct (0 <=? mtu); [|done]. simpl. intros [= <-]. split; [|done]. by split.
Qed.

(** A packet given to a [PacketPassConnector] survives disconnections. In
    every history: while the user waits for a packet, that packet (same data,
    same length) is being processed by whatever output is connected, after any
    number of reconnections, and no other packet is ever offered; each completion
    by an output is reported to the user exactly once; and every event is executed
    without a failing assertion. *)
Theorem connector_keeps_packet mtu o es o' os
    (Hinit : con_fresh mtu = Some o) (Hrun : con_run o es = Some (o', os)) :
  (ppi_state (input o') = ST_BUSY -> forall x, output o' = Some x ->
     ppi_state x <> ST_NONE /\ ppi_job_operation_data x = ppi_job_operation_data (input o') /\
     ppi_job_operation_len x = ppi_job_operation_len (input o')) /\
  n_completed os = n_reported os + owed o' /\
  (forall e, con_enabled o' e = true ->
     exists o'' obs, con_exec o' e = Some (o'', obs) /\ offers_current o' obs).
Proof.
  destruct (con_fresh_ok _ _ Hinit) as [Hok H0]. destruct (con_run_ok _ _ _ _ Hok Hrun) as [Hok' Hc].
  split_and!.
  - intros Hb x Hx. destruct (co_out _ Hok' x Hx) as (_ & _ & _ & H). destruct (H Hb) as (H1 & -> & ->).
    destruct (co_busy _ Hok' Hb) as [-> ->]. done.
  - lia.
  - intros e He. destruct (con_step o' e Hok' He) as (o2 & os2 & Hx & _ & Hof & _). eauto.
Qed.

Definition demo_out : PacketPassInterface Z := mkPPI 10 false false false None 0 false false ST_NONE false.
Definition demo_events : list con_event :=
  [KSend 7 3; KInOperation; KConnect demo_out; KOutOperation; KDisconnect; KConnect demo_out;
   KOutOperation; KOutDone; KOutJobDone; KInJobDone; KSend 8 4; KInOperation].

Lemma connector_keeps_packet_witness :
  exists o o' os, con_run o demo_events = Some (o', os) /\ n_completed os = n_reported os + owed o' /\
    os = [KOffered (Some 7) 3; KOffered (Some 7) 3; KCompleted; KReported].
Proof.
  destruct (con_fresh 10) as [o|] eqn:E0; [|vm_compute in E0; discriminate E0].
  destruct (con_run o demo_events) as [[o' os]|] eqn:E1.
  2: { exfalso. revert E1. vm_compute in E0. injection E0 as <-. vm_compute. discriminate. }
  exists o, o', os. split; [done|]. split.
  - apply (connector_keeps_packet 10 o demo_events o' os E0 E1).
  - revert E1. vm_compute in E0. injection E0 as <-. vm_compute. intros [= _ <-]. done.
Defined.
