(* ===== verification/SingleBuffer.v ===== *)
(** * [flow/SinglePacketBuffer.c]: a buffer of one packet

    Receives a packet, sends it, receives the next one. *)

From S2P Require Import Prelude Flow.

Record SinglePacketBuffer := mkSPB {
  input : PacketRecvInterface Z;
  output : PacketPassInterface Z;
  buf : list Z
}.

Definition input_handler_done (o : SinglePacketBuffer) (in_len : Z) : option SinglePacketBuffer :=
  let* out := PacketPassInterface_Sender_Send (output o) 0 in_len in
  Some (mkSPB (input o) out (buf o)).

Definition output_handler_done (o : SinglePacketBuffer) : option SinglePacketBuffer :=
  let* inp := PacketRecvInterface_Receiver_Recv (input o) 0 in
  Some (mkSPB inp (output o) (buf o)).

Definition SinglePacketBuffer_Init (malloc : Z -> option (list Z))
    (input : PacketRecvInterface Z) (output : PacketPassInterface Z)
  : option (option SinglePacketBuffer) :=
  ASSERT (ppi_mtu output >=? pri_mtu input) ;;
  let* inp := PacketRecvInterface_Receiver_Init input in
  let* out := PacketPassInterface_Sender_Init output in
  match malloc (pri_mtu inp) with
  | None => Some None
  | Some m =>
      let* inp := PacketRecvInterface_Receiver_Recv inp 0 in
      Some (Some (mkSPB inp out m))
  end.

(** ** Histories *)

Inductive spb_event :=
| UInOperation | UInData (p : list Z) | UInJobDone | UOutOperation | UOutDone | UOutJobDone.

Definition spb_exec (o : SinglePacketBuffer) (e : spb_event) : option (SinglePacketBuffer * list (list Z)) :=
  match e with
  | UInOperation =>
      let* r := PacketRecvInterface_job_operation (input o) in Some (mkSPB r.1 (output o) (buf o), [])
  | UInData p =>
      let* inp := PacketRecvInterface_Done (input o) (zlen p) in
      let* dst := pri_job_operation_data (input o) in
      let* m := mem_write dst p (buf o) in
      Some (mkSPB inp (output o) m, [])
  | UInJobDone =>
      let* r := PacketRecvInterface_job_done (input o) in
      let* o := input_handler_done (mkSPB r.1 (output o) (buf o)) r.2 in Some (o, [])
  | UOutOperation =>
      let* r := PacketPassInterface_job_operation (output o) in
      let '(out, (data, len)) := r in
      let* d := data in
      let* p := mem_read d len (buf o) in
      Some (mkSPB (input o) out (buf o), [p])
  | UOutDone =>
      let* out := PacketPassInterface_Done (output o) in Some (mkSPB (input o) out (buf o), [])
  | UOutJobDone =>
      let* out := PacketPassInterface_job_done (output o) in
      let* o := output_handler_done (mkSPB (input o) out (buf o)) in Some (o, [])
  end.

Definition spb_enabled (o : SinglePacketBuffer) (e : spb_event) : bool :=
  match e with
  | UInOperation => st_is (pri_state (input o)) ST_OPERATION_PENDING
  | UInData p => st_is (pri_state (input o)) ST_BUSY && (zlen p <=? pri_mtu (input o))
  | UInJobDone => st_is (pri_state (input o)) ST_DONE_PENDING
  | UOutOperation => st_is (ppi_state (output o)) ST_OPERATION_PENDING
  | UOutDone => st_is (ppi_state (output o)) ST_BUSY
  | UOutJobDone => st_is (ppi_state (output o)) ST_DONE_PENDING
  end.

Fixpoint spb_run (o : SinglePacketBuffer) (es : list spb_event) : option (SinglePacketBuffer * list (list Z)) :=
  match es with
  | [] => Some (o, [])
  | e :: es =>
      if spb_enabled o e then
        let* r := spb_exec o e in
        let* s := spb_run r.1 es in
        Some (s.1, r.2 ++ s.2)
      else None
  end.

Definition received (es : list spb_event) : list (list Z) :=
  mjoin ((fun e => match e with UInData p => [p] | _ => [] end) <$> es).

(** ** The invariant: either receiving or sending *)

Record spb_ok (o : SinglePacketBuffer) : Prop := {
  sp_user_in : pri_handler_done (input o) = true;
  sp_user_out : ppi_handler_done (output o) = true;
  sp_buf : zlen (buf o) = pri_mtu (input o);
  sp_mtu : pri_mtu (input o) <= ppi_mtu (output o);
  sp_case :
    (ppi_state (output o) = ST_NONE /\ pri_state (input o) <> ST_NONE /\
     pri_job_operation_data (input o) = Some 0 /\
     (pri_state (input o) = ST_DONE_PENDING -> 0 <= pri_job_done_len (input o) <= pri_mtu (input o))) \/
    (pri_state (input o) = ST_NONE /\ ppi_state (output o) <> ST_NONE /\
     ppi_job_operation_data (output o) = Some 0 /\
     0 <= ppi_job_operation_len (output o) <= pri_mtu (input o))
}.

(** The packet received and not yet handed to the sink. *)
Definition held (o : SinglePacketBuffer) : list (list Z) :=
  match pri_state (input o), ppi_state (output o) with
  | ST_DONE_PENDING, _ => [slice 0 (pri_job_done_len (input o)) (buf o)]
  | _, ST_OPERATION_PENDING => [slice 0 (ppi_job_operation_len (output o)) (buf o)]
  | _, _ => []
  end.

Lemma spb_step o e :
  spb_ok o -> spb_enabled o e = true ->
  exists o' outs, spb_exec o e = Some (o', outs) /\ spb_ok o' /\ held o ++ received [e] = outs ++ held o'.
Proof.
  intros [Hi Ho Hb Hm Hc] He. destruct e; cbn [spb_enabled] in He; cbn [spb_exec].
  - apply st_is_true in He. destruct (pri_op _ He) as (j & -> & J1 & J2 & J3 & J4).
    destruct Hc as [(C1 & C2 & C3 & C4) | (C1 & _)]; [|congruence].
    eexists _, []. split; [done|]. split.
    + split; simpl; try congruence. left. split_and!; congruence.
    + unfold held. simpl. by rewrite He, J1, C1.
  - apply andb_prop in He as [He Hl]. apply st_is_true in He. pose proof (zlen_nonneg p).
    destruct Hc as [(C1 & C2 & C3 & C4) | (C1 & _)]; [|congruence].
    destruct (pri_done _ (zlen p) He) as (j & -> & J1 & J2 & J3 & J4 & J5); [lia|]. rewrite C3.
    destruct (mem_write_Some 0 p (buf o)) as (m & Hw & Hwl); [lia|lia|]. rewrite Hw.
    eexists _, []. split; [done|]. split.
    + split; simpl; try congruence. left. split_and!; try congruence. rewrite J3, J5. intros _. lia.
    + unfold held. simpl. rewrite He, J1, C1, J3. by rewrite (slice_write_same _ _ _ _ Hw).
  - apply st_is_true in He. destruct (pri_jobdone _ He) as (j & -> & J1 & J2 & J3).
    destruct Hc as [(C1 & C2 & C3 & C4) | (C1 & _)]; [|congruence]. specialize (C4 He).
    unfold input_handler_done. cbn [output input buf fst snd].
    destruct (ppi_send (output o) 0 (pri_job_done_len (input o)) Ho C1) as (x & -> & X1 & X2 & X3 & X4 & X5); [lia|].
    eexists _, []. split; [done|]. split.
    + split; simpl; try congruence. right. rewrite X3, J3. split_and!; congruence || lia.
    + unfold held. simpl. rewrite He, J1, X1, X3. by rewrite app_nil_r.
  - apply st_is_true in He. destruct (ppi_op _ He) as (x & -> & X1 & X2 & X3 & X4 & X5).
    destruct Hc as [(C1 & _) | (C1 & C2 & C3 & C4)]; [congruence|]. rewrite C3.
    rewrite mem_read_Some by lia. eexists _, _. split; [done|]. split.
    + split; simpl; try congruence. right. rewrite X3. split_and!; congruence || lia.
    + unfold held. simpl. by rewrite C1, He, X1.
  - apply st_is_true in He. destruct (ppi_done _ He) as (x & -> & X1 & X2 & X3 & X4 & X5).
    destruct Hc as [(C1 & _) | (C1 & C2 & C3 & C4)]; [congruence|]. eexists _, []. split; [done|]. split.
    + split; simpl; try congruence. right. rewrite X3. split_and!; congruence || lia.
    + unfold held. simpl. by rewrite C1, He, X1.
  - apply st_is_true in He. destruct (ppi_jobdone _ He) as (x & -> & X1 & X2 & X3).
    destruct Hc as [(C1 & _) | (C1 & C2 & C3 & C4)]; [congruence|].
    unfold output_handler_done. cbn [output input buf].
    destruct (pri_recv (input o) 0 Hi C1) as (j & -> & J1 & J2 & J3 & J4).
    eexists _, []. split; [done|]. split.
    + split; simpl; try congruence. left. split_and!; congruence.
    + unfold held. simpl. by rewrite C1, He, J1, X1.
Qed.

Lemma spb_received_cons e es : received (e :: es) = received [e] ++ received es.
Proof. unfold received. simpl. by rewrite app_nil_r. Qed.

Lemma spb_run_ok es : forall o o' outs,
  spb_ok o -> spb_run o es = Some (o', outs) ->
  spb_ok o' /\ held o ++ received es = outs ++ held o'.
Proof.
  induction es as [|e es IH]; intros o o' outs Hok Hrun; cbn [spb_run] in Hrun.
  { inv_some. split; [done|]. by rewrite app_nil_r. }
  destruct (spb_enabled o e) eqn:En; [|done].
  destruct (spb_step o e Hok En) as (o1 & u1 & Hx & Hok1 & Hr). rewrite Hx in Hrun. cbn [fst snd] in Hrun.
  destruct (spb_run o1 es) as [[o2 u2]|] eqn:E2; [|done]. simpl in Hrun. inv_some.
  destruct (IH _ _ _ Hok1 E2) as [Hok2 Hr2]. split; [done|].
  rewrite spb_received_cons, app_assoc, Hr, <- app_assoc, Hr2. by rewrite app_assoc.
Qed.

Lemma spb_init_ok malloc inp out o :
  (forall n m, malloc n = Some m -> zlen m = n) -> pri_state inp = ST_NONE -> ppi_state out = ST_NONE ->
  SinglePacketBuffer_Init malloc inp out = Some (Some o) -> spb_ok o /\ held o = [].
Proof.
  intros Hm Hi Ho. unfold SinglePacketBuffer_Init. destruct (_ >=? _) eqn:E; [|done].
  unfold PacketRecvInterface_Receiver_Init, PacketPassInterface_Sender_Init.
  destruct (negb (pri_handler_done inp)); [|done]. destruct (negb (ppi_handler_done out)); [|done].
  simpl. destruct (malloc _) as [m|] eqn:Em; [|done]. apply Hm in Em.
  unfold PacketRecvInterface_Receiver_Recv. simpl. rewrite Hi. simpl. intros [= <-]. split.
  - split; simpl; try done; [lia|]. left. done.
  - unfold held. simpl. by rewrite Ho.
Qed.

(** A [SinglePacketBuffer] passes every packet it receives to its sink, in
    order and unchanged; at any time it is either receiving or sending, never
    both and never stuck with neither; and every event the interfaces allow is
    executed without a failing assertion or an access outside its buffer. *)
Theorem single_buffer_passes malloc inp out o es o' outs
    (Hmalloc : forall n m, malloc n = Some m -> zlen m = n)
    (Hin : pri_state inp = ST_NONE) (Hout : ppi_state out = ST_NONE)
    (Hinit : SinglePacketBuffer_Init malloc inp out = Some (Some o))
    (Hrun : spb_run o es = Some (o', outs)) :
  received es = outs ++ held o' /\
  (pri_state (input o') = ST_NONE <-> ppi_state (output o') <> ST_NONE) /\
  forall e, spb_enabled o' e = true -> is_Some (spb_exec o' e).
Proof.
  destruct (spb_init_ok _ _ _ _ Hmalloc Hin Hout Hinit) as [Hok H0].
  destruct (spb_run_ok _ _ _ _ Hok Hrun) as [Hok' Hr]. rewrite H0 in Hr. split_and!.
  - done.
  - destruct (sp_case _ Hok') as [(? & ? & _) | (? & ? & _)]; tauto.
  - intros e He. destruct (spb_step o' e Hok' He) as (? & ? & -> & _). eauto.
Qed.

Definition demo_events : list spb_event :=
  [UInOperation; UInData [1;2]; UInJobDone; UOutOperation; UOutDone; UOutJobDone; UInOperation; UInData [3]; UInJobDone].

Lemma single_buffer_passes_witness :
  exists inp out o o' outs, SinglePacketBuffer_Init zalloc inp out = Some (Some o) /\
    spb_run o demo_events = Some (o', outs) /\ received demo_events = outs ++ held o' /\ outs = [[1;2]].
Proof.
  set (inp := mkPRI (A:=Z) 5 false false None false 0 ST_NONE).
  set (out := mkPPI (A:=Z) 5 false false false None 0 false false ST_NONE false).
  destruct (SinglePacketBuffer_Init zalloc inp out) as [[o|]|] eqn:Hi; [|discriminate Hi..].
  destruct (spb_run o demo_events) as [[o' outs]|] eqn:Hr.
  2: { exfalso. revert Hr. injection Hi as <-. vm_compute. discriminate. }
  exists inp, out, o, o', outs. split_and!; [done..| |].
  - apply (single_buffer_passes zalloc inp out o demo_events o' outs zalloc_size eq_refl eq_refl Hi Hr).
  - revert Hr. injection Hi as <-. vm_compute. intros [= _ <-]. done.
Defined.
