(* ===== verification/InactivityMonitor.v ===== *)
(** * [flowextra/PacketPassInactivityMonitor.c]

    Passes packets through to an output and calls a handler when the output has
    been idle for a given time. The reactor's timer is a flag: set by
    [BReactor_SetTimer] and [BReactor_SetTimerAfter], cleared by
    [BReactor_RemoveTimer] and when the timer expires. *)

From S2P Require Import Prelude Flow.

Record PacketPassInactivityMonitor := mkMon {
  input : PacketPassInterface Z;
  output : PacketPassInterface Z;
  handler : bool; (* handler != NULL *)
  timer : bool
}.

Definition input_handler_send (o : PacketPassInactivityMonitor) (data : option Z) (data_len : Z)
  : option PacketPassInactivityMonitor :=
  let* d := data in
  let* out := PacketPassInterface_Sender_Send (output o) d data_len in
  Some (mkMon (input o) out (handler o) false).

Definition input_handler_requestcancel (o : PacketPassInactivityMonitor)
  : option PacketPassInactivityMonitor :=
  let* out := PacketPassInterface_Sender_RequestCancel (output o) in
  Some (mkMon (input o) out (handler o) (timer o)).

Definition output_handler_done (o : PacketPassInactivityMonitor) : option PacketPassInactivityMonitor :=
  let* i := PacketPassInterface_Done (input o) in
  Some (mkMon i (output o) (handler o) true).

(** The flag tells whether the handler is called. *)
Definition timer_handler (o : PacketPassInactivityMonitor) : PacketPassInactivityMonitor * bool :=
  (mkMon (input o) (output o) (handler o) true, handler o).

Definition PacketPassInactivityMonitor_Init (output : PacketPassInterface Z) (handler : bool)
  : option PacketPassInactivityMonitor :=
  let* i := PacketPassInterface_Init (ppi_mtu output) in
  let* i := (if ppi_handler_requestcancel output then PacketPassInterface_EnableCancel i else Some i) in
  let* out := PacketPassInterface_Sender_Init output in
  Some (mkMon i out handler true).

Definition PacketPassInactivityMonitor_SetHandler (o : PacketPassInactivityMonitor) (h : bool)
  : PacketPassInactivityMonitor := mkMon (input o) (output o) h (timer o).

Definition PacketPassInactivityMonitor_Force (o : PacketPassInactivityMonitor)
  : PacketPassInactivityMonitor := mkMon (input o) (output o) (handler o) true.

(** ** Histories *)

Inductive mon_event :=
| MSend (d len : Z) | MInOperation | MRequestCancel | MInCancelJob | MInJobDone
| MOutOperation | MOutDone | MOutCancelJob | MOutJobDone
| MTimer | MSetHandler (h : bool) | MForce.

Inductive mon_obs := MOffered (d : option Z) (len : Z) | MReported | MHandler.

Definition mon_exec (o : PacketPassInactivityMonitor) (e : mon_event)
  : option (PacketPassInactivityMonitor * list mon_obs) :=
  let with_in i := mkMon i (output o) (handler o) (timer o) in
  let with_out x := mkMon (input o) x (handler o) (timer o) in
  match e with
  | MSend d len => let* i := PacketPassInterface_Sender_Send (input o) d len in Some (with_in i, [])
  | MInOperation =>
      let* r := PacketPassInterface_job_operation (input o) in
      let '(i, (data, len)) := r in
      let* o := input_handler_send (with_in i) data len in Some (o, [])
  | MRequestCancel =>
      let* i := PacketPassInterface_Sender_RequestCancel (input o) in Some (with_in i, [])
  | MInCancelJob =>
      ASSERT (ppi_job_requestcancel (input o)) ;;
      let* i := PacketPassInterface_job_requestcancel (input o) in
      let* o := input_handler_requestcancel (with_in i) in Some (o, [])
  | MInJobDone =>
      let* i := PacketPassInterface_job_done (input o) in Some (with_in i, [MReported])
  | MOutOperation =>
      let* r := PacketPassInterface_job_operation (output o) in
      Some (with_out r.1, [MOffered r.2.1 r.2.2])
  | MOutDone => let* x := PacketPassInterface_Done (output o) in Some (with_out x, [])
  | MOutCancelJob =>
      ASSERT (ppi_job_requestcancel (output o)) ;;
      let* x := PacketPassInterface_job_requestcancel (output o) in Some (with_out x, [])
  | MOutJobDone =>
      let* x := PacketPassInterface_job_done (output o) in
      let* o := output_handler_done (with_out x) in Some (o, [])
  | MTimer =>
      ASSERT (timer o) ;;
      let r := timer_handler (mkMon (input o) (output o) (handler o) false) in
      Some (r.1, if r.2 then [MHandler] else [])
  | MSetHandler h => Some (PacketPassInactivityMonitor_SetHandler o h, [])
  | MForce => Some (PacketPassInactivityMonitor_Force o, [])
  end.

Definition mon_enabled (o : PacketPassInactivityMonitor) (e : mon_event) : bool :=
  match e with
  | MSend d len => st_is (ppi_state (input o)) ST_NONE && (0 <=? len) && (len <=? ppi_mtu (input o))
  | MInOperation => st_is (ppi_state (input o)) ST_OPERATION_PENDING
  | MRequestCancel => negb (st_is (ppi_state (input o)) ST_NONE) && ppi_handler_requestcancel (input o)
  | MInCancelJob => ppi_job_requestcancel (input o)
  | MInJobDone => st_is (ppi_state (input o)) ST_DONE_PENDING
  | MOutOperation => st_is (ppi_state (output o)) ST_OPERATION_PENDING
  | MOutDone => st_is (ppi_state (output o)) ST_BUSY
  | MOutCancelJob => ppi_job_requestcancel (output o)
  | MOutJobDone => st_is (ppi_state (output o)) ST_DONE_PENDING
  | MTimer => timer o
  | MSetHandler _ | MForce => true
  end.

Fixpoint mon_run (o : PacketPassInactivityMonitor) (es : list mon_event)
  : option (PacketPassInactivityMonitor * list mon_obs) :=
  match es with
  | [] => Some (o, [])
  | e :: es =>
      if mon_enabled o e then
        let* r := mon_exec o e in
        let* s := mon_run r.1 es in
        Some (s.1, r.2 ++ s.2)
      else None
  end.

Definition is_force (e : mon_event) : bool := match e with MForce => true | _ => false end.

(** ** The invariant *)

Record mon_ok (o : PacketPassInactivityMonitor) : Prop := {
  mo_in : ppi_ok (input o);
  mo_out : ppi_ok (output o);
  mo_mtu : ppi_mtu (input o) = ppi_mtu (output o);
  mo_user_in : ppi_handler_done (input o) = true;
  mo_user_out : ppi_handler_done (output o) = true;
  mo_cancel : ppi_handler_requestcancel (input o) = ppi_handler_requestcancel (output o);
  (* the output works exactly while the input waits for it, on the same packet *)
  mo_busy : ppi_state (input o) = ST_BUSY <-> ppi_state (output o) <> ST_NONE;
  mo_same : ppi_state (input o) = ST_BUSY ->
    ppi_job_operation_data (output o) = ppi_job_operation_data (input o) /\
    ppi_job_operation_len (output o) = ppi_job_operation_len (input o);
  (* an idle output is always timed *)
  mo_idle : ppi_state (output o) = ST_NONE -> timer o = true
}.

(** The timer runs exactly while the output is idle. *)
Definition timed (o : PacketPassInactivityMonitor) : Prop :=
  timer o = st_is (ppi_state (output o)) ST_NONE.

Lemma st_is_none_false s : s <> ST_NONE -> st_is s ST_NONE = false.
Proof. intros. by apply st_is_false. Qed.

Definition mon_step_ok (o : PacketPassInactivityMonitor) (e : mon_event) : Prop :=
  exists o' os, mon_exec o e = Some (o', os) /\ mon_ok o' /\
    (timed o -> is_force e = false -> timed o') /\
    (forall d len, MOffered d len ∈ os -> d = ppi_job_operation_data (input o) /\
       len = ppi_job_operation_len (input o)).

Lemma offered_nil (P : option Z -> Z -> Prop) : forall d len, MOffered d len ∈ [] -> P d len.
Proof. intros ?? H. by apply not_elem_of_nil in H. Qed.

(** A step of the input that neither starts nor ends the output's work. *)
Lemma mon_on_input o e j :
  mon_ok o -> ppi_exec (input o) e = Some j ->
  (ppi_state j = ST_BUSY <-> ppi_state (input o) = ST_BUSY) ->
  (ppi_state j = ST_BUSY -> ppi_job_operation_data j = ppi_job_operation_data (input o) /\
                            ppi_job_operation_len j = ppi_job_operation_len (input o)) ->
  mon_ok (mkMon j (output o) (handler o) (timer o)).
Proof.
  intros [] He Hb Hd. destruct (ppi_exec_frame _ _ _ He) as (E1 & E2 & E3).
  split; simpl; try done; try congruence.
  - by eapply ppi_exec_ok; [|exact He].
  - by rewrite Hb.
  - intros H. destruct (Hd H) as [-> ->]. by apply mo_same0, Hb.
Qed.

Lemma mon_on_output o e x :
  mon_ok o -> ppi_exec (output o) e = Some x ->
  (ppi_state x = ST_NONE <-> ppi_state (output o) = ST_NONE) ->
  ppi_job_operation_data x = ppi_job_operation_data (output o) ->
  ppi_job_operation_len x = ppi_job_operation_len (output o) ->
  mon_ok (mkMon (input o) x (handler o) (timer o)).
Proof.
  intros [] He Hb Hd Hl. destruct (ppi_exec_frame _ _ _ He) as (E1 & E2 & E3).
  split; simpl; try done; try congruence.
  - by eapply ppi_exec_ok; [|exact He].
  - by rewrite mo_busy0, Hb.
  - intros H. rewrite Hd, Hl. by apply mo_same0.
  - intros H. apply mo_idle0. by apply Hb.
Qed.

Lemma mon_in_operation o :
  mon_ok o -> ppi_state (input o) = ST_OPERATION_PENDING -> mon_step_ok o MInOperation.
Proof.
  intros Hok He. pose proof Hok as [Mi Mo Mm Mu Mv Mc Mb Ms Ml]. unfold mon_step_ok. cbn [mon_exec].
  destruct (ppi_op _ He) as (j & Hj & J1 & J2 & J3 & J4 & J5). rewrite Hj.
  assert (ppi_exec (input o) PJobOperation = Some j) as Hex.
  { simpl. by rewrite (ppi_ok_op _ Mi), He, Hj. }
  destruct (ppi_ok_data _ Mi ltac:(congruence)) as [d Hd]. pose proof (ppi_ok_len _ Mi ltac:(congruence)) as Hl.
  assert (ppi_state (output o) = ST_NONE) as Hn.
  { destruct (decide (ppi_state (output o) = ST_NONE)) as [|E]; [done|]. apply Mb in E. congruence. }
  rewrite Hd. unfold input_handler_send. cbn [output input handler].
  destruct (ppi_send (output o) d (ppi_job_operation_len (input o)) Mv Hn) as (x & Hx & X1 & X2 & X3 & X4 & X5); [lia|].
  destruct (ppi_exec_frame (output o) (PSend d _) x Hx) as (_ & _ & X6).
  destruct (ppi_exec_frame _ _ _ Hex) as (_ & _ & J6).
  rewrite Hx. eexists _, []. split; [done|]. split_and!; [| |apply offered_nil].
  - split; simpl; try congruence.
    + by eapply ppi_exec_ok; [|exact Hex].
    + by apply (ppi_exec_ok (output o) (PSend d (ppi_job_operation_len (input o)))).
    + rewrite J1, X1. done.
    + intros _. split; congruence.
  - intros _ _. unfold timed. simpl. by rewrite X1.
Qed.

Lemma mon_out_job_done o :
  mon_ok o -> ppi_state (output o) = ST_DONE_PENDING -> mon_step_ok o MOutJobDone.
Proof.
  intros Hok He. pose proof Hok as [Mi Mo Mm Mu Mv Mc Mb Ms Ml]. unfold mon_step_ok. cbn [mon_exec].
  destruct (ppi_jobdone _ He) as (x & Hx & X1 & X2 & X3). rewrite Hx.
  assert (ppi_exec (output o) PJobDone = Some x) as Hex.
  { simpl. by rewrite (ppi_ok_done _ Mo), He. }
  destruct (ppi_exec_frame _ _ _ Hex) as (_ & _ & X6).
  assert (ppi_state (input o) = ST_BUSY) as Hb by (apply Mb; congruence).
  unfold output_handler_done. cbn [input output handler].
  destruct (ppi_done _ Hb) as (j & Hj & J1 & J2 & J3 & J4 & J5). rewrite Hj.
  destruct (ppi_exec_frame (input o) PDone j Hj) as (_ & _ & J6).
  eexists _, []. split; [done|]. split_and!; [| |apply offered_nil].
  - split; simpl; try congruence.
    + by apply (ppi_exec_ok (input o) PDone).
    + by eapply ppi_exec_ok; [|exact Hex].
    + rewrite J1, X1. done.
  - intros _ _. unfold timed. simpl. by rewrite X1.
Qed.

Lemma mon_in_cancel_job o :
  mon_ok o -> ppi_job_requestcancel (input o) = true -> mon_step_ok o MInCancelJob.
Proof.
  intros Hok He. pose proof Hok as [Mi Mo Mm Mu Mv Mc Mb Ms Ml]. unfold mon_step_ok. cbn [mon_exec].
  rewrite He. destruct (ppi_cancel_job _ Mi He) as (j & Hj & J1 & J2 & J3 & J4 & J5). rewrite Hj.
  assert (mon_ok (mkMon j (output o) (handler o) (timer o))) as Hok1.
  { apply (mon_on_input o PJobRequestCancel); [done|simpl; by rewrite He|by rewrite J1|done]. }
  assert (ppi_state (output o) <> ST_NONE) as Hn by by apply Mb.
  unfold input_handler_requestcancel. cbn [output input handler timer].
  destruct (ppi_cancel (output o) Hn ltac:(congruence)) as (x & Hx & X1 & X2 & X3 & X4). rewrite Hx.
  eexists _, []. split; [done|]. split_and!; [| |apply offered_nil].
  - apply (mon_on_output (mkMon j (output o) (handler o) (timer o)) PRequestCancel x); try done.
  - unfold timed. simpl. intros -> _. rewrite !st_is_none_false; done.
Qed.

Lemma mon_step o e : mon_ok o -> mon_enabled o e = true -> mon_step_ok o e.
Proof.
  intros Hok He. pose proof Hok as [Mi Mo Mm Mu Mv Mc Mb Ms Ml].
  destruct e as [d len| | | | | | | | | |h| ]; cbn [mon_enabled] in He.
  - unfold mon_step_ok. cbn [mon_exec].
    apply andb_prop in He as [He H2]. apply andb_prop in He as [H0 H1]. apply st_is_true in H0.
    destruct (ppi_send (input o) d len Mu H0) as (j & Hj & J1 & _); [lia|]. rewrite Hj.
    eexists _, []. split; [done|]. split_and!; [|done|apply offered_nil].
    apply (mon_on_input o (PSend d len)); try done; rewrite J1, ?H0; done.
  - apply mon_in_operation; [done|by apply st_is_true].
  - unfold mon_step_ok. cbn [mon_exec]. apply andb_prop in He as [H0 H1].
    assert (ppi_state (input o) <> ST_NONE) as Hn by (apply st_is_false; by apply negb_true_iff).
    destruct (ppi_cancel (input o) Hn H1) as (j & Hj & J1 & J2 & J3 & J4). rewrite Hj.
    eexists _, []. split; [done|]. split_and!; [|done|apply offered_nil].
    by apply (mon_on_input o PRequestCancel).
  - by apply mon_in_cancel_job.
  - unfold mon_step_ok. cbn [mon_exec]. apply st_is_true in He.
    destruct (ppi_jobdone _ He) as (j & Hj & J1 & _). rewrite Hj.
    eexists _, _. split; [done|]. split_and!; [|done|].
    + apply (mon_on_input o PJobDone); try done; rewrite ?J1, ?He; try done.
      simpl. by rewrite (ppi_ok_done _ Mi), He.
    + intros d len H. by apply list_elem_of_singleton in H.
  - unfold mon_step_ok. cbn [mon_exec]. apply st_is_true in He.
    destruct (ppi_op _ He) as (x & Hx & X1 & X2 & X3 & _). rewrite Hx.
    assert (ppi_state (input o) = ST_BUSY) as Hb by (apply Mb; congruence). destruct (Ms Hb) as [D1 D2].
    eexists _, _. split; [done|]. split_and!.
    + apply (mon_on_output o PJobOperation x); try done; [simpl; by rewrite (ppi_ok_op _ Mo), He, Hx|].
      by rewrite X1, He.
    + unfold timed. simpl. intros -> _. by rewrite He, X1.
    + intros d len H. apply list_elem_of_singleton in H. injection H as -> ->. done.
  - unfold mon_step_ok. cbn [mon_exec]. apply st_is_true in He.
    destruct (ppi_done _ He) as (x & Hx & X1 & X2 & X3 & _). rewrite Hx.
    eexists _, []. split; [done|]. split_and!; [| |apply offered_nil].
    + apply (mon_on_output o PDone x); try done. by rewrite X1, He.
    + unfold timed. simpl. intros -> _. by rewrite He, X1.
  - unfold mon_step_ok. cbn [mon_exec]. rewrite He.
    destruct (ppi_cancel_job _ Mo He) as (x & Hx & X1 & X2 & X3 & X4 & X5). rewrite Hx.
    eexists _, []. split; [done|]. split_and!; [| |apply offered_nil].
    + apply (mon_on_output o PJobRequestCancel x); try done; [simpl; by rewrite He|by rewrite X1].
    + unfold timed. simpl. intros -> _. by rewrite X1.
  - apply mon_out_job_done; [done|by apply st_is_true].
  - unfold mon_step_ok. cbn [mon_exec]. rewrite He. eexists _, _. split; [done|]. split_and!.
    + by split.
    + unfold timed. simpl. intros Ht _. congruence.
    + intros d len H. simpl in H. destruct (handler o);
        [by apply list_elem_of_singleton in H|by apply not_elem_of_nil in H].
  - eexists _, []. split; [done|]. split_and!; [by split|done|apply offered_nil].
  - eexists _, []. split; [done|]. split_and!; [by split|done|apply offered_nil].
Qed.

Lemma mon_run_ok es : forall o o' os,
  mon_ok o -> mon_run o es = Some (o', os) ->
  mon_ok o' /\ (timed o -> forallb (fun e => negb (is_force e)) es = true -> timed o').
Proof.
  induction es as [|e es IH]; intros o o' os Hok Hrun; cbn [mon_run] in Hrun; [by inv_some|].
  destruct (mon_enabled o e) eqn:En; [|done].
  destruct (mon_step o e Hok En) as (o1 & u1 & Hx & Hok1 & Ht & _). rewrite Hx in Hrun. cbn [fst snd] in Hrun.
  destruct (mon_run o1 es) as [[o2 u2]|] eqn:E2; [|done]. simpl in Hrun. inv_some.
  destruct (IH _ _ _ Hok1 E2) as [Hok2 Ht2]. split; [done|]. intros H0 Hf. cbn [forallb] in Hf.
  apply andb_prop in Hf as [Hf1 Hf2]. apply Ht2; [|done]. apply Ht; [done|]. by apply negb_true_iff.
Qed.

(** A monitor with its user attached. *)
Definition mon_fresh (mtu : Z) (cancel h : bool) : option PacketPassInactivityMonitor :=
  let* out := PacketPassInterface_Init mtu in
  let* out := (if cancel then PacketPassInterface_EnableCancel out else Some out) in
  let* o := PacketPassInactivityMonitor_Init out h in
  let* i := PacketPassInterface_Sender_Init (input o) in
  Some (mkMon i (output o) (handler o) (timer o)).

Lemma mon_fresh_ok mtu c h o : mon_fresh mtu c h = Some o -> mon_ok o /\ timed o.
Proof.
  unfold mon_fresh, PacketPassInactivityMonitor_Init, PacketPassInterface_Init.
  destruct (0 <=? mtu) eqn:E; [|done].
  destruct c; simpl; rewrite E; simpl; intros [= <-]; (split; [|done]); split; simpl; try done;
    split; simpl; done.
Qed.

(** The inactivity monitor is transparent and times exactly the idle periods.
    In every history: the output is given exactly the packets the user sends, is
    busy precisely while the user waits, and every event runs without a failing
    assertion; the timer always runs while the output is idle, and, unless
    [Force] is used, never while it is busy, so that the inactivity handler is only
    called after a full idle interval. *)
Theorem inactivity_monitor mtu c h o es o' os
    (Hinit : mon_fresh mtu c h = Some o) (Hrun : mon_run o es = Some (o', os)) :
  (ppi_state (input o') = ST_BUSY <-> ppi_state (output o') <> ST_NONE) /\
  (ppi_state (output o') = ST_NONE -> timer o' = true) /\
  (forallb (fun e => negb (is_force e)) es = true ->
     timer o' = st_is (ppi_state (output o')) ST_NONE) /\
  (forall e, mon_enabled o' e = true ->
     exists o2 obs, mon_exec o' e = Some (o2, obs) /\
       forall d len, MOffered d len ∈ obs -> d = ppi_job_operation_data (input o') /\
         len = ppi_job_operation_len (input o')).
Proof.
  destruct (mon_fresh_ok _ _ _ _ Hinit) as [Hok Ht].
  destruct (mon_run_ok _ _ _ _ Hok Hrun) as [Hok' Ht']. split_and!.
  - apply Hok'.
  - apply Hok'.
  - intros Hf. by apply Ht'.
  - intros e He. destruct (mon_step o' e Hok' He) as (o2 & obs & Hx & _ & _ & Hof). eauto.
Qed.

Definition demo_events : list mon_event :=
  [MTimer; MSend 5 3; MInOperation; MOutOperation; MOutDone; MOutJobDone; MInJobDone; MTimer].

Lemma inactivity_monitor_witness :
  exists o o' os, mon_run o demo_events = Some (o', os) /\
    timer o' = st_is (ppi_state (output o')) ST_NONE /\
    os = [MHandler; MOffered (Some 5) 3; MReported; MHandler].
Proof.
  destruct (mon_fresh 10 true true) as [o|] eqn:E0; [|vm_compute in E0; discriminate E0].
  destruct (mon_run o demo_events) as [[o' os]|] eqn:E1.
  2: { exfalso. revert E1. vm_compute in E0. injection E0 as <-. vm_compute. discriminate. }
  exists o, o', os. split; [done|]. split.
  - apply (inactivity_monitor 10 true true o demo_events o' os E0 E1). reflexivity.
  - revert E1. vm_compute in E0. injection E0 as <-. vm_compute. intros [= _ <-]. done.
Defined.
