(* ===== verification/InetProto.v ===== *)
(** * IPv4, IPv6 and UDP headers and the Internet checksum

    [misc/ipv4_proto.h], [misc/ipv6_proto.h], [misc/udp_proto.h] and
    [inet_checksum] of [tun2socks.c]. Headers are records of the host values of
    the packed struct members; [*_bytes] is the memory of the struct. Byte
    buffers are lists; a data pointer with its length is the list it covers. *)

From S2P Require Import Prelude ByteOrder.

(** ** Sums of 16-bit words *)

(** [for (i = 0; i < n; i++) t += badvpn_read_be16(m + 2 * i)], from [i] on. *)
Fixpoint sum_loop (n : nat) (i : Z) (t : Z) (m : list Z) : Z :=
  match n with
  | O => t
  | S n => sum_loop n (i + 1) (u32 (t + badvpn_read_be16 m (2 * i))) m
  end.

(** [while (t >> 16) t = (t & 0xFFFF) + (t >> 16)]. *)
Fixpoint fold_loop (fuel : nat) (t : Z) : Z :=
  match fuel with
  | O => t
  | S fuel => if Z.shiftr t 16 =? 0 then t
              else fold_loop fuel (u32 (Z.land t 65535 + Z.shiftr t 16))
  end.

(** Two rounds are enough for 32 bits ([fold_loop_spec]); the third only tests. *)
Definition fold16 (t : Z) : Z := fold_loop 3 t.

(** [hton16(~t)] *)
Definition not16 (t : Z) : Z := u16 (Z.lnot t).

(** ** IPv4 *)

Definition IPV4_PROTOCOL_UDP : Z := 17.

Record ipv4_header := mkIPv4 {
  version4_ihl4 : Z;
  ds : Z;
  total_length : Z;
  identification : Z;
  flags3_fragmentoffset13 : Z;
  ttl : Z;
  protocol : Z;
  checksum : Z;
  source_address : Z;
  destination_address : Z
}.

Definition sizeof_ipv4_header : Z := 20.

Definition ipv4_bytes (h : ipv4_header) : list Z :=
  [version4_ihl4 h; ds h] ++ le16 (total_length h) ++ le16 (identification h) ++
  le16 (flags3_fragmentoffset13 h) ++ [ttl h; protocol h] ++ le16 (checksum h) ++
  le32 (source_address h) ++ le32 (destination_address h).

(** [memcpy(&header, data, sizeof(header))] *)
Definition ipv4_of (m : list Z) : ipv4_header :=
  mkIPv4 (ld8 m 0) (ld8 m 1) (ld16 m 2) (ld16 m 4) (ld16 m 6) (ld8 m 8) (ld8 m 9) (ld16 m 10)
    (ld32 m 12) (ld32 m 16).

Definition with_checksum (h : ipv4_header) (c : Z) : ipv4_header :=
  mkIPv4 (version4_ihl4 h) (ds h) (total_length h) (identification h) (flags3_fragmentoffset13 h)
    (ttl h) (protocol h) c (source_address h) (destination_address h).

Definition IPV4_GET_VERSION (h : ipv4_header) : Z := Z.shiftr (Z.land (version4_ihl4 h) 240) 4.
Definition IPV4_GET_IHL (h : ipv4_header) : Z := Z.shiftr (Z.land (version4_ihl4 h) 15) 0.
Definition IPV4_MAKE_VERSION_IHL (size : Z) : Z := size / 4 + Z.shiftl 4 4.

Definition ipv4_checksum (h : ipv4_header) (extra : list Z) : option Z :=
  ASSERT (zlen extra mod 2 =? 0) ;;
  let t := sum_loop 10 0 0 (ipv4_bytes h) in
  let t := sum_loop (Z.to_nat (zlen extra / 2)) 0 t extra in
  Some (hton16 (not16 (fold16 t))).

(** The header, the payload and the header's length; [None] inside is return 0. *)
Definition ipv4_check (data : list Z) : option (option (ipv4_header * list Z * Z)) :=
  if zlen data <? sizeof_ipv4_header then Some None
  else
    let h := ipv4_of data in
    if negb (IPV4_GET_VERSION h =? 4) then Some None
    else
      let header_len := IPV4_GET_IHL h * 4 in
      if header_len <? sizeof_ipv4_header then Some None
      else if header_len >? zlen data then Some None
      else
        let total_len := ntoh16 (total_length h) in
        if total_len <? header_len then Some None
        else if total_len >? zlen data then Some None
        else
          let* computed := ipv4_checksum (with_checksum h (hton16 0))
                             (slice sizeof_ipv4_header (header_len - sizeof_ipv4_header) data) in
          if negb (checksum h =? computed) then Some None
          else Some (Some (h, slice header_len (total_len - header_len) data, header_len)).

(** ** IPv6 *)

Definition IPV6_NEXT_UDP : Z := 17.

Record ipv6_header := mkIPv6 {
  version4_tc4 : Z;
  tc4_fl4 : Z;
  fl : Z;
  payload_length : Z;
  next_header : Z;
  hop_limit : Z;
  source_address6 : list Z;
  destination_address6 : list Z
}.

Definition sizeof_ipv6_header : Z := 40.

Definition ipv6_bytes (h : ipv6_header) : list Z :=
  [version4_tc4 h; tc4_fl4 h] ++ le16 (fl h) ++ le16 (payload_length h) ++
  [next_header h; hop_limit h] ++ source_address6 h ++ destination_address6 h.

Definition ipv6_of (m : list Z) : ipv6_header :=
  mkIPv6 (ld8 m 0) (ld8 m 1) (ld16 m 2) (ld16 m 4) (ld8 m 6) (ld8 m 7) (slice 8 16 m) (slice 24 16 m).

Definition ipv6_check (data : list Z) : option (ipv6_header * list Z) :=
  if zlen data <? sizeof_ipv6_header then None
  else
    let h := ipv6_of data in
    if negb (Z.shiftr (version4_tc4 h) 4 =? 6) then None
    else
      let len := ntoh16 (payload_length h) in
      if len >? zlen data - sizeof_ipv6_header then None
      else Some (h, slice sizeof_ipv6_header len data).

(** ** UDP *)

Record udp_header := mkUdp {
  source_port : Z;
  dest_port : Z;
  length_ : Z;
  udp_cksum : Z
}.

Definition sizeof_udp_header : Z := 8.

Definition udp_bytes (h : udp_header) : list Z :=
  le16 (source_port h) ++ le16 (dest_port h) ++ le16 (length_ h) ++ le16 (udp_cksum h).

Definition udp_of (m : list Z) : udp_header := mkUdp (ld16 m 0) (ld16 m 2) (ld16 m 4) (ld16 m 6).

Definition with_udp_cksum (h : udp_header) (c : Z) : udp_header :=
  mkUdp (source_port h) (dest_port h) (length_ h) c.

Definition udp_checksum_summer (data : list Z) : option Z :=
  ASSERT (zlen data mod 2 =? 0) ;; Some (sum_loop (Z.to_nat (zlen data / 2)) 0 0 data).

(** The payload part of both checksums: an odd last byte is padded with zero. *)
Definition payload_sum (t : Z) (payload : list Z) : option Z :=
  let n := zlen payload in
  if n mod 2 =? 0 then
    let* s := udp_checksum_summer payload in Some (u32 (t + s))
  else
    let* s := udp_checksum_summer (slice 0 (n - 1) payload) in
    let t := u32 (t + s) in
    let* s := udp_checksum_summer (le16 (hton16 (Z.shiftl (ld8 payload (n - 1)) 8))) in
    Some (u32 (t + s)).

Definition finish_checksum (t : Z) : Z :=
  let t := fold16 t in
  let t := if t =? 0 then UINT16_MAX else t in
  hton16 (not16 t).

Definition udp_checksum (h : udp_header) (payload : list Z) (source_addr dest_addr : Z) : option Z :=
  let* s := udp_checksum_summer (le32 source_addr) in let t := u32 s in
  let* s := udp_checksum_summer (le32 dest_addr) in let t := u32 (t + s) in
  let* s := udp_checksum_summer (le16 (hton16 IPV4_PROTOCOL_UDP)) in let t := u32 (t + s) in
  let* s := udp_checksum_summer (le16 (hton16 (sizeof_udp_header + zlen payload))) in let t := u32 (t + s) in
  let* s := udp_checksum_summer (udp_bytes h) in let t := u32 (t + s) in
  let* t := payload_sum t payload in
  Some (finish_checksum t).

Definition udp_ip6_checksum (h : udp_header) (payload source_addr dest_addr : list Z) : option Z :=
  let* s := udp_checksum_summer source_addr in let t := u32 s in
  let* s := udp_checksum_summer dest_addr in let t := u32 (t + s) in
  let* s := udp_checksum_summer (le32 (hton32 (sizeof_udp_header + zlen payload))) in let t := u32 (t + s) in
  let* s := udp_checksum_summer (le32 (hton32 IPV6_NEXT_UDP)) in let t := u32 (t + s) in
  let* s := udp_checksum_summer (udp_bytes h) in let t := u32 (t + s) in
  let* t := payload_sum t payload in
  Some (finish_checksum t).

Definition udp_check (data : list Z) : option (udp_header * list Z) :=
  if zlen data <? sizeof_udp_header then None
  else
    let h := udp_of data in
    let udp_length := ntoh16 (length_ h) in
    if udp_length <? sizeof_udp_header then None
    else if udp_length >? sizeof_udp_header + (zlen data - sizeof_udp_header) then None
    else Some (h, slice sizeof_udp_header (udp_length - sizeof_udp_header) data).

(** ** [tun2socks.c: inet_checksum] *)

(** [for (int i = 0; i + 1 < len; i += 2) sum += (data[i] << 8) | data[i + 1]] *)
Fixpoint inet_loop (fuel : nat) (i : Z) (sum : Z) (data : list Z) : Z :=
  match fuel with
  | O => sum
  | S fuel => if i + 1 <? zlen data
              then inet_loop fuel (i + 2) (u32 (sum + Z.lor (Z.shiftl (ld8 data i) 8) (ld8 data (i + 1)))) data
              else sum
  end.

Definition inet_checksum (data : list Z) : Z :=
  u16 (Z.lnot (fold16 (inet_loop (length data) 0 0 data))).

(** ** The specification: one's complement arithmetic (RFC 1071) *)

(** The sum of the big-endian words of a byte sequence; an odd last byte is the
    high half of a word. *)
Fixpoint words_sum (m : list Z) : Z :=
  match m with
  | a :: b :: m => 256 * a + b + words_sum m
  | [a] => 256 * a
  | [] => 0
  end.

(** One's complement sum: [t] modulo 65535, with 65535 for the non-zero multiples. *)
Definition ones_sum (t : Z) : Z := if t =? 0 then 0 else (t - 1) mod 65535 + 1.

(** What a receiver checks: the words, checksum included, add up to all ones. *)
Definition inet_valid (m : list Z) : Prop := ones_sum (words_sum m) = 65535.

(** ** Lemmas on sums *)

Lemma be16_nonneg m o : bytes_ok m -> 0 <= badvpn_read_be16 m o <= 65535.
Proof.
  intros Hm. rewrite read_be16_alt by done. pose proof (ld8_ok m o Hm). pose proof (ld8_ok m (o+1) Hm).
  unfold byte_ok in *. lia.
Qed.

Lemma words_sum_bounds m : bytes_ok m -> 0 <= words_sum m <= 65535 * (1 + zlen m / 2).
Proof.
  remember (length m) as n eqn:Hn. revert m Hn.
  induction n as [n IH] using lt_wf_ind; intros m Hn Hm.
  destruct m as [|a [|b m]]; simpl.
  - change (zlen (@nil Z) / 2) with 0. lia.
  - apply Forall_cons_1 in Hm as [Ha _]. change (zlen [a] / 2) with 0. unfold byte_ok in *. lia.
  - apply Forall_cons_1 in Hm as [Ha Hm]. apply Forall_cons_1 in Hm as [Hb Hm].
    assert (0 <= words_sum m <= 65535 * (1 + zlen m / 2)) as IHm.
    { apply (IH (length m)); [simpl in Hn; lia|done|done]. }
    rewrite !zlen_cons. replace (1 + (1 + zlen m)) with (zlen m + 1 * 2) by lia.
    rewrite Z.div_add by lia. unfold byte_ok in *. lia.
Qed.

Lemma words_sum_app l k : zlen l mod 2 = 0 -> words_sum (l ++ k) = words_sum l + words_sum k.
Proof.
  remember (length l) as n eqn:Hn. revert l Hn.
  induction n as [n IH] using lt_wf_ind; intros l Hn Hl. destruct l as [|a [|b l]].
  - done.
  - by unfold zlen in Hl.
  - simpl. rewrite (IH (length l)); [lia|simpl in Hn; lia|done|].
    rewrite !zlen_cons in Hl. replace (1 + (1 + zlen l)) with (zlen l + 1 * 2) in Hl by lia.
    by rewrite Z_mod_plus_full in Hl.
Qed.

Lemma ld8_app_cons l x r : ld8 (l ++ x :: r) (zlen l) = x.
Proof. rewrite ld8_app_r by lia. by rewrite Z.sub_diag. Qed.

Lemma be16_app l a b r :
  byte_ok a -> byte_ok b -> badvpn_read_be16 (l ++ a :: b :: r) (zlen l) = 256 * a + b.
Proof.
  intros Ha Hb. unfold badvpn_read_be16. rewrite ld8_app_cons.
  replace (l ++ a :: b :: r) with ((l ++ [a]) ++ b :: r) by by rewrite <- app_assoc.
  replace (zlen l + 1) with (zlen (l ++ [a])) by by rewrite zlen_app.
  rewrite ld8_app_cons.
  pose proof (read_be16_alt [a; b] 0 ltac:(apply Forall_cons_2; [done|]; apply Forall_cons_2; [done|constructor])) as H.
  unfold badvpn_read_be16, ld8 in H. simpl in H. exact H.
Qed.

Lemma sum_loop_spec n : forall i t l r,
  bytes_ok r -> zlen l = 2 * i -> zlen r = 2 * Z.of_nat n -> 0 <= t ->
  t + words_sum r < 4294967296 ->
  sum_loop n i t (l ++ r) = t + words_sum r.
Proof.
  induction n as [|n IH]; intros i t l r Hr Hl Hn Ht Hb; cbn [sum_loop].
  { assert (r = []) as -> by (apply zlen_zero_inv; lia). simpl. lia. }
  destruct r as [|a [|b r]]; [rewrite zlen_nil in Hn; lia|rewrite !zlen_cons, zlen_nil in Hn; lia|].
  pose proof Hr as Hr0. apply Forall_cons_1 in Hr as [Ha Hr]. apply Forall_cons_1 in Hr as [Hb' Hr].
  pose proof (words_sum_bounds r Hr). rewrite !zlen_cons in Hn. simpl in Hb.
  rewrite <- Hl, be16_app by done. unfold u32. unfold byte_ok in *. rewrite Z.mod_small by lia.
  replace (l ++ a :: b :: r) with ((l ++ [a; b]) ++ r) by by rewrite <- app_assoc.
  rewrite IH; [simpl; lia|done| |lia|lia|lia].
  rewrite zlen_app. unfold zlen at 2. simpl. lia.
Qed.

Lemma sum_loop_words m t n :
  bytes_ok m -> zlen m = 2 * Z.of_nat n -> 0 <= t -> t + words_sum m < 4294967296 ->
  sum_loop n 0 t m = t + words_sum m.
Proof. intros. by apply (sum_loop_spec n 0 t [] m). Qed.

Lemma ones_sum_unique t r :
  0 <= t -> 0 <= r <= 65535 -> r mod 65535 = t mod 65535 -> (r = 0 <-> t = 0) -> r = ones_sum t.
Proof. intros Ht Hr Hm Hz. unfold ones_sum. destruct (Z.eqb_spec t 0) as [->|]; [tauto|]. dm. Qed.

Lemma fold_step k t :
  0 <= t < 4294967296 ->
  fold_loop (S k) t = if t <? 65536 then t else fold_loop k (t mod 65536 + t / 65536).
Proof.
  intros Ht. cbn [fold_loop]. rewrite Z.shiftr_div_pow2 by lia.
  change 65535 with (Z.ones 16). rewrite Z.land_ones by lia. change (2 ^ 16) with 65536.
  replace (t / 65536 =? 0) with (t <? 65536).
  2: { destruct (Z.ltb_spec t 65536), (Z.eqb_spec (t / 65536) 0); try done; dm. }
  destruct (t <? 65536); [done|]. f_equal. unfold u32. apply Z.mod_small. dm.
Qed.

Lemma fold_loop_spec t : 0 <= t < 4294967296 -> fold16 t = ones_sum t.
Proof.
  intros Ht. unfold fold16. rewrite fold_step by done.
  destruct (Z.ltb_spec t 65536) as [Hlt|Hge]; [apply ones_sum_unique; lia|].
  set (t1 := t mod 65536 + t / 65536). assert (0 < t1 < 131071) as H1 by (unfold t1; dm).
  assert (t1 mod 65535 = t mod 65535) as E1 by (unfold t1; dm).
  rewrite fold_step by lia. destruct (Z.ltb_spec t1 65536) as [Hl1|Hg1].
  { apply ones_sum_unique; lia. }
  set (t2 := t1 mod 65536 + t1 / 65536). assert (0 < t2 < 65536) as H2 by (unfold t2; dm).
  assert (t2 mod 65535 = t1 mod 65535) as E2 by (unfold t2; dm).
  rewrite fold_step by lia. rewrite (proj2 (Z.ltb_lt _ _)) by lia.
  apply ones_sum_unique; [lia|lia|congruence|lia].
Qed.

Lemma not16_spec t : 0 <= t <= 65535 -> not16 t = 65535 - t.
Proof. intros. unfold not16, u16, Z.lnot. dm. Qed.

Lemma ones_sum_range t : 0 <= t -> 0 <= ones_sum t <= 65535.
Proof. intros. unfold ones_sum. destruct (t =? 0); [lia|dm]. Qed.

(** Adding the complement of a sum makes it all ones. *)
Lemma ones_sum_complement t : 0 <= t -> ones_sum (t + (65535 - ones_sum t)) = 65535.
Proof.
  intros. unfold ones_sum at 2. destruct (Z.eqb_spec t 0) as [->|]; [reflexivity|].
  unfold ones_sum. destruct (Z.eqb_spec (t + (65535 - ((t - 1) mod 65535 + 1))) 0); dm.
Qed.

Lemma words_sum_le16 x : words_sum (le16 x) = badvpn_reverse16 x.
Proof. unfold le16, badvpn_reverse16. simpl. lia. Qed.

Lemma words_sum_hton16 x : 0 <= x < 65536 -> words_sum (le16 (hton16 x)) = x.
Proof. intros. rewrite words_sum_le16, hton16_small by done. by apply reverse16_invol. Qed.

(** ** IPv4 headers *)

Record ipv4_ok (h : ipv4_header) : Prop := {
  i4_vihl : byte_ok (version4_ihl4 h);
  i4_ds : byte_ok (ds h);
  i4_len : 0 <= total_length h < 65536;
  i4_id : 0 <= identification h < 65536;
  i4_frag : 0 <= flags3_fragmentoffset13 h < 65536;
  i4_ttl : byte_ok (ttl h);
  i4_proto : byte_ok (protocol h);
  i4_ck : 0 <= checksum h < 65536;
  i4_src : 0 <= source_address h < 4294967296;
  i4_dst : 0 <= destination_address h < 4294967296
}.

Lemma ipv4_bytes_zlen h : zlen (ipv4_bytes h) = 20.
Proof. reflexivity. Qed.

Lemma ipv4_bytes_ok h : ipv4_ok h -> bytes_ok (ipv4_bytes h).
Proof.
  intros []. unfold ipv4_bytes. repeat (apply bytes_ok_app; split); auto with flux;
    repeat (apply Forall_cons_2; [done|]); constructor.
Qed.

Lemma ipv4_of_ok m : bytes_ok m -> ipv4_ok (ipv4_of m).
Proof. intros. split; simpl; first [by apply ld8_ok | by apply ld16_bounds | by apply ld32_bounds]. Qed.

Lemma ipv4_of_bytes h r : ipv4_ok h -> ipv4_of (ipv4_bytes h ++ r) = h.
Proof.
  intros []. destruct h as [a b c d e f g i j k]. simpl in *.
  unfold ipv4_of, ipv4_bytes, ld32, ld16, ld8, le32, le16. simpl. unfold byte_ok in *. f_equal; dm.
Qed.

Lemma with_checksum_ok h c : ipv4_ok h -> 0 <= c < 65536 -> ipv4_ok (with_checksum h c).
Proof. intros [] ?. by split. Qed.

Lemma ipv4_words h :
  words_sum (ipv4_bytes h) = words_sum (ipv4_bytes (with_checksum h 0)) + words_sum (le16 (checksum h)).
Proof. unfold ipv4_bytes, le16, le32. simpl. rewrite Z.div_0_l, Z.mod_0_l by lia. lia. Qed.

Lemma ipv4_checksum_spec h extra :
  ipv4_ok h -> bytes_ok extra -> zlen extra mod 2 = 0 -> zlen extra <= 65535 ->
  ipv4_checksum h extra = Some (hton16 (65535 - ones_sum (words_sum (ipv4_bytes h ++ extra)))).
Proof.
  intros Hh He Hm Hl. unfold ipv4_checksum. rewrite (proj2 (Z.eqb_eq _ _)) by done. do 2 f_equal.
  pose proof (words_sum_bounds _ (ipv4_bytes_ok h Hh)) as B1. rewrite ipv4_bytes_zlen in B1.
  change (20 / 2) with 10 in B1. pose proof (words_sum_bounds _ He) as B2. pose proof (zlen_nonneg extra).
  assert (zlen extra / 2 <= 32767) by dm.
  rewrite (sum_loop_words _ 0 10); [|by apply ipv4_bytes_ok|by rewrite ipv4_bytes_zlen|lia|lia].
  rewrite Z.add_0_l.
  rewrite sum_loop_words; [|done|dm|lia|lia].
  rewrite <- words_sum_app by done. rewrite fold_loop_spec by (rewrite words_sum_app by done; lia).
  apply not16_spec. apply ones_sum_range. rewrite words_sum_app by done. lia.
Qed.

(** A header with its computed checksum in place sums to all ones. *)
Lemma ipv4_checksum_valid h extra c :
  ipv4_ok h -> bytes_ok extra -> zlen extra mod 2 = 0 -> zlen extra <= 65535 ->
  ipv4_checksum (with_checksum h (hton16 0)) extra = Some c ->
  0 <= c < 65536 /\ inet_valid (ipv4_bytes (with_checksum h c) ++ extra).
Proof.
  intros Hh He Hm Hl Hc. change (hton16 0) with 0 in Hc.
  rewrite ipv4_checksum_spec in Hc by (try apply with_checksum_ok; done || lia).
  apply (inj Some) in Hc. subst c.
  split; [apply hton16_range|]. set (w := words_sum (ipv4_bytes (with_checksum h 0) ++ extra)).
  assert (0 <= w) as Hw.
  { unfold w. rewrite words_sum_app by done. pose proof (words_sum_bounds _ He).
    pose proof (words_sum_bounds _ (ipv4_bytes_ok _ (with_checksum_ok h 0 Hh ltac:(lia)))). lia. }
  pose proof (ones_sum_range w Hw). unfold inet_valid. rewrite words_sum_app by done.
  rewrite ipv4_words. cbn [with_checksum checksum]. rewrite words_sum_hton16 by lia.
  change (with_checksum (with_checksum h ?x) 0) with (with_checksum h 0).
  etransitivity; [|apply (ones_sum_complement w Hw)]. f_equal. unfold w.
  rewrite words_sum_app by done. lia.
Qed.

(** What [ipv4_check] has established when it accepts a packet. *)
Lemma ipv4_check_sound data :
  bytes_ok data ->
  exists r, ipv4_check data = Some r /\
    forall h p hl, r = Some (h, p, hl) ->
      h = ipv4_of data /\ 20 <= zlen data /\ IPV4_GET_VERSION h = 4 /\ hl = IPV4_GET_IHL h * 4 /\
      20 <= hl <= ntoh16 (total_length h) /\ ntoh16 (total_length h) <= zlen data /\
      p = slice hl (ntoh16 (total_length h) - hl) data /\ zlen p = ntoh16 (total_length h) - hl /\
      bytes_ok p.
Proof.
  intros Hd. unfold ipv4_check, sizeof_ipv4_header.
  destruct (Z.ltb_spec (zlen data) 20); [by eexists|].
  destruct (IPV4_GET_VERSION (ipv4_of data) =? 4) eqn:Ev; [|by eexists].
  set (hl := IPV4_GET_IHL (ipv4_of data) * 4). cbn [negb].
  destruct (Z.ltb_spec hl 20); [by eexists|].
  destruct (hl >? zlen data) eqn:E2; [by eexists|].
  set (tl := ntoh16 (total_length (ipv4_of data))).
  destruct (Z.ltb_spec tl hl); [by eexists|]. destruct (tl >? zlen data) eqn:E4; [by eexists|].
  assert (0 <= tl < 65536) as Htl by apply hton16_range.
  rewrite ipv4_checksum_spec.
  - destruct (negb _); [by eexists|]. eexists. split; [done|].
    intros h p hl' [= <- <- <-]. split_and!; try done; try lia.
    + apply zlen_slice; lia.
    + by apply bytes_ok_slice.
  - apply with_checksum_ok; [by apply ipv4_of_ok|]. change (hton16 0) with 0. lia.
  - by apply bytes_ok_slice.
  - rewrite zlen_slice by lia. unfold hl. replace (IPV4_GET_IHL (ipv4_of data) * 4 - 20)
      with ((IPV4_GET_IHL (ipv4_of data) * 2 - 10) * 2) by lia. apply Z_mod_mult.
  - rewrite zlen_slice by lia. lia.
Qed.

(** A packet built from a header without options is accepted as it was built. *)
Lemma ipv4_check_built h p stray c :
  ipv4_ok h -> bytes_ok p -> version4_ihl4 h = 69 -> total_length h = hton16 (20 + zlen p) ->
  20 + zlen p < 65536 -> ipv4_checksum (with_checksum h (hton16 0)) [] = Some c -> checksum h = c ->
  ipv4_check (ipv4_bytes h ++ p ++ stray) = Some (Some (h, p, 20)).
Proof.
  intros Hh Hp Hv Ht Hl Hc Hck. pose proof (zlen_nonneg p). pose proof (zlen_nonneg stray).
  assert (zlen (ipv4_bytes h ++ p ++ stray) = 20 + zlen p + zlen stray) as Hz
    by (rewrite !zlen_app, ipv4_bytes_zlen; lia).
  unfold ipv4_check, sizeof_ipv4_header. rewrite Hz, ipv4_of_bytes by done.
  rewrite (proj2 (Z.ltb_ge _ _)) by lia. unfold IPV4_GET_VERSION, IPV4_GET_IHL. rewrite Hv.
  change (Z.shiftr (Z.land 69 15) 0 * 4) with 20. cbn [Z.land Z.shiftr].
  change (negb (Z.shiftr (Z.land 69 240) 4 =? 4)) with false. change (20 <? 20) with false. cbn [negb].
  rewrite Z.gtb_ltb, (proj2 (Z.ltb_ge _ _)) by lia.
  rewrite Ht, ntoh16_hton16 by lia. rewrite (proj2 (Z.ltb_ge (20 + zlen p) 20)) by lia.
  rewrite Z.gtb_ltb, (proj2 (Z.ltb_ge _ _)) by lia.
  change (slice 20 (20 - 20) ?m) with (@nil Z). rewrite Hc, Hck, Z.eqb_refl. cbn [negb].
  do 3 f_equal. f_equal. rewrite app_assoc. rewrite slice_app_l by (rewrite ?zlen_app, ?ipv4_bytes_zlen; lia).
  apply slice_app_exact; [by rewrite ipv4_bytes_zlen|lia].
Qed.

(** ** UDP headers and checksums *)

Record udp_ok (h : udp_header) : Prop := {
  u_src : 0 <= source_port h < 65536;
  u_dst : 0 <= dest_port h < 65536;
  u_len : 0 <= length_ h < 65536;
  u_ck : 0 <= udp_cksum h < 65536
}.

Lemma udp_bytes_zlen h : zlen (udp_bytes h) = 8.
Proof. reflexivity. Qed.

Lemma udp_bytes_ok h : bytes_ok (udp_bytes h).
Proof. unfold udp_bytes. repeat (apply bytes_ok_app; split); auto with flux. Qed.

Lemma udp_of_ok m : bytes_ok m -> udp_ok (udp_of m).
Proof. intros. split; simpl; by apply ld16_bounds. Qed.

Lemma udp_of_bytes h r : udp_ok h -> udp_of (udp_bytes h ++ r) = h.
Proof.
  intros []. destruct h as [a b c d]. simpl in *.
  unfold udp_of, udp_bytes, ld16, ld8, le16. simpl. f_equal; dm.
Qed.

Lemma udp_words h :
  words_sum (udp_bytes h) = words_sum (udp_bytes (with_udp_cksum h 0)) + words_sum (le16 (udp_cksum h)).
Proof. unfold udp_bytes, le16. simpl. rewrite Z.div_0_l, Z.mod_0_l by lia. lia. Qed.

Lemma summer_spec data :
  bytes_ok data -> zlen data mod 2 = 0 -> zlen data <= 65536 ->
  udp_checksum_summer data = Some (words_sum data).
Proof.
  intros Hd Hm Hl. unfold udp_checksum_summer. rewrite (proj2 (Z.eqb_eq _ _)) by done. f_equal.
  pose proof (words_sum_bounds _ Hd). pose proof (zlen_nonneg data).
  assert (zlen data / 2 <= 32768) by dm. rewrite sum_loop_words; [done|done|dm|lia|lia].
Qed.

Lemma slice_last m n : zlen m = n + 1 -> 0 <= n -> m = slice 0 n m ++ [ld8 m n].
Proof.
  intros Hl Hn. rewrite <- (slice_all m) at 1. rewrite Hl, slice_add by lia. f_equal.
  unfold slice, ld8. change (Z.to_nat 1) with 1%nat.
  destruct (lookup_lt_is_Some_2 m (Z.to_nat (0 + n))) as [x Hx]; [zl|].
  rewrite (take_S_r _ _ x) by by rewrite lookup_drop, Nat.add_0_r. simpl.
  f_equal. symmetry. apply nth_lookup_Some with (d := 0) in Hx. rewrite <- Hx. do 2 f_equal.
Qed.

Lemma words_sum_snoc l x : zlen l mod 2 = 0 -> words_sum (l ++ [x]) = words_sum l + 256 * x.
Proof. intros. by rewrite words_sum_app. Qed.

Lemma payload_sum_spec t p :
  bytes_ok p -> zlen p <= 65535 -> 0 <= t -> t + words_sum p < 4294967296 ->
  payload_sum t p = Some (t + words_sum p).
Proof.
  intros Hp Hl Ht Hb. pose proof (words_sum_bounds _ Hp). pose proof (zlen_nonneg p). unfold payload_sum.
  destruct (Z.eqb_spec (zlen p mod 2) 0) as [He|Ho].
  - rewrite summer_spec by (done || lia). unfold u32. by rewrite Z.mod_small by lia.
  - assert (zlen p mod 2 = 1) as Hodd by dm. assert (1 <= zlen p) by dm.
    set (n := zlen p - 1). assert (zlen (slice 0 n p) = n) as Hsl by (apply zlen_slice; lia).
    assert (n mod 2 = 0) as Hn by (unfold n; dm).
    pose proof (slice_last p n ltac:(lia) ltac:(lia)) as Hsplit.
    pose proof (ld8_ok p n Hp) as Hx. unfold byte_ok in Hx.
    assert (Z.shiftl (ld8 p n) 8 = 256 * ld8 p n) as -> by (rewrite Z.shiftl_mul_pow2 by lia; lia).
    assert (words_sum p = words_sum (slice 0 n p) + 256 * ld8 p n) as Hw.
    { rewrite Hsplit at 1. apply words_sum_snoc. by rewrite Hsl. }
    rewrite Hw in Hb |- *.
    pose proof (words_sum_bounds _ (bytes_ok_slice 0 n p Hp)).
    rewrite (summer_spec (slice 0 n p)) by (rewrite ?Hsl; auto with flux; lia).
    rewrite (summer_spec (le16 _)) by (try apply le16_ok; done || rewrite zlen_le16; lia).
    rewrite words_sum_hton16 by lia. unfold u32.
    rewrite (Z.mod_small (t + _)) by lia. rewrite Z.mod_small by lia. f_equal. lia.
Qed.

(** The pseudo headers the UDP checksum covers (RFC 768, RFC 2460). *)
Definition pseudo4 (src dst len : Z) : list Z :=
  le32 src ++ le32 dst ++ le16 (hton16 17) ++ le16 (hton16 len).
Definition pseudo6 (src dst : list Z) (len : Z) : list Z :=
  src ++ dst ++ le32 (hton32 len) ++ le32 (hton32 17).

Lemma u32_add a b : u32 (u32 a + b) = u32 (a + b).
Proof. apply Zplus_mod_idemp_l. Qed.

Lemma u32_id a : 0 <= a < 4294967296 -> u32 a = a.
Proof. apply Z.mod_small. Qed.

Lemma finish_checksum_spec w :
  0 < w < 4294967296 -> finish_checksum w = hton16 (65535 - ones_sum w).
Proof.
  intros. unfold finish_checksum. rewrite fold_loop_spec by lia. pose proof (ones_sum_range w ltac:(lia)).
  assert (ones_sum w <> 0) by (unfold ones_sum; destruct (Z.eqb_spec w 0); dm).
  rewrite (proj2 (Z.eqb_neq _ _)) by done. by rewrite not16_spec by lia.
Qed.

Lemma pseudo4_words src dst len :
  words_sum (pseudo4 src dst len) = words_sum (le32 src) + words_sum (le32 dst) + 17 + words_sum (le16 (hton16 len)).
Proof. unfold pseudo4. rewrite !words_sum_app by done. change (words_sum (le16 (hton16 17))) with 17. lia. Qed.

Lemma pseudo6_words src dst len :
  zlen src = 16 -> zlen dst = 16 ->
  words_sum (pseudo6 src dst len) = words_sum src + words_sum dst + words_sum (le32 (hton32 len)) + 17.
Proof.
  intros Hs Hd. unfold pseudo6. rewrite !words_sum_app by (rewrite ?Hs, ?Hd; done).
  change (words_sum (le32 (hton32 17))) with 17. lia.
Qed.

(** Bounds on the parts of the sum. *)
Lemma words_le32 x : 0 <= words_sum (le32 x) <= 196605.
Proof. pose proof (words_sum_bounds _ (le32_ok x)). change (zlen (le32 x) / 2) with 2 in *. lia. Qed.

Lemma words_le16 x : 0 <= words_sum (le16 x) <= 131070.
Proof. pose proof (words_sum_bounds _ (le16_ok x)). change (zlen (le16 x) / 2) with 1 in *. lia. Qed.

Lemma words_udp h : 0 <= words_sum (udp_bytes h) <= 327675.
Proof. pose proof (words_sum_bounds _ (udp_bytes_ok h)). change (zlen (udp_bytes h) / 2) with 4 in *. lia. Qed.

Lemma words_payload p : bytes_ok p -> zlen p <= 65535 -> 0 <= words_sum p <= 2147450880.
Proof. intros Hp Hl. pose proof (words_sum_bounds _ Hp). assert (zlen p / 2 <= 32767) by dm. lia. Qed.

Ltac summers :=
  repeat match goal with
  | |- context [udp_checksum_summer ?d] =>
      rewrite (summer_spec d) by first [apply le32_ok | apply le16_ok | apply udp_bytes_ok | done | lia]
  end.

Ltac flat_u32 := repeat (rewrite <- ?Z.add_assoc; rewrite u32_add).

Lemma udp_checksum_spec h p src dst :
  bytes_ok p -> zlen p <= 65527 ->
  udp_checksum h p src dst =
    Some (hton16 (65535 - ones_sum (words_sum (pseudo4 src dst (8 + zlen p) ++ udp_bytes h ++ p)))).
Proof.
  intros Hp Hl. pose proof (words_payload p Hp ltac:(lia)). pose proof (words_udp h).
  pose proof (words_le32 src). pose proof (words_le32 dst).
  pose proof (words_le16 (hton16 (8 + zlen p))).
  rewrite !words_sum_app by done. rewrite pseudo4_words.
  unfold udp_checksum, sizeof_udp_header, IPV4_PROTOCOL_UDP. summers.
  change (words_sum (le16 (hton16 17))) with 17. flat_u32. rewrite u32_id by lia.
  rewrite payload_sum_spec by (done || lia).
  rewrite finish_checksum_spec by lia. do 4 f_equal. lia.
Qed.

Lemma udp_ip6_checksum_spec h p src dst :
  bytes_ok p -> bytes_ok src -> bytes_ok dst -> zlen src = 16 -> zlen dst = 16 -> zlen p <= 65527 ->
  udp_ip6_checksum h p src dst =
    Some (hton16 (65535 - ones_sum (words_sum (pseudo6 src dst (8 + zlen p) ++ udp_bytes h ++ p)))).
Proof.
  intros Hp Hs Hd Ls Ld Hl. pose proof (words_payload p Hp ltac:(lia)). pose proof (words_udp h).
  pose proof (words_payload src Hs ltac:(lia)) as B1. pose proof (words_sum_bounds src Hs) as B1'.
  pose proof (words_sum_bounds dst Hd) as B2'. rewrite Ls in B1'. rewrite Ld in B2'.
  change (16 / 2) with 8 in *. pose proof (words_le32 (hton32 (8 + zlen p))).
  assert (zlen (pseudo6 src dst (8 + zlen p)) = 40) as Hz
    by (unfold pseudo6; rewrite !zlen_app, Ls, Ld; reflexivity).
  rewrite !words_sum_app by first [by rewrite Hz | done]. rewrite pseudo6_words by done.
  unfold udp_ip6_checksum, sizeof_udp_header, IPV6_NEXT_UDP.
  rewrite (summer_spec src), (summer_spec dst) by (rewrite ?Ls, ?Ld; done || lia). summers.
  change (words_sum (le32 (hton32 17))) with 17. flat_u32. rewrite u32_id by lia.
  rewrite payload_sum_spec by (done || lia).
  rewrite finish_checksum_spec by lia. do 4 f_equal. lia.
Qed.

(** A header with its computed checksum in place sums, with the pseudo header
    and the payload, to all ones. *)
Lemma udp_sum_valid ps h p :
  zlen ps mod 2 = 0 -> 0 <= words_sum ps -> bytes_ok p ->
  let c := hton16 (65535 - ones_sum (words_sum (ps ++ udp_bytes (with_udp_cksum h 0) ++ p))) in
  inet_valid (ps ++ udp_bytes (with_udp_cksum h c) ++ p).
Proof.
  intros Hz Hps Hp. set (w := words_sum (ps ++ udp_bytes (with_udp_cksum h 0) ++ p)). intros c.
  pose proof (words_sum_bounds _ Hp). pose proof (words_udp (with_udp_cksum h 0)). pose proof (zlen_nonneg p).
  assert (0 <= w) as Hw by (unfold w; rewrite !words_sum_app by done; lia).
  pose proof (ones_sum_range w Hw). unfold inet_valid. rewrite !words_sum_app by done.
  rewrite udp_words. cbn [with_udp_cksum udp_cksum]. unfold c. rewrite words_sum_hton16 by lia.
  change (with_udp_cksum (with_udp_cksum h ?x) 0) with (with_udp_cksum h 0).
  etransitivity; [|apply (ones_sum_complement w Hw)]. f_equal. unfold w.
  rewrite !words_sum_app by done. lia.
Qed.

(** A datagram is parsed back from the bytes of its header and payload. *)
Lemma udp_check_built h p stray :
  udp_ok h -> length_ h = hton16 (8 + zlen p) -> 8 + zlen p < 65536 ->
  udp_check (udp_bytes h ++ p ++ stray) = Some (h, p).
Proof.
  intros Hh Hl Hb. pose proof (zlen_nonneg p). pose proof (zlen_nonneg stray).
  unfold udp_check, sizeof_udp_header. rewrite !zlen_app, udp_bytes_zlen, udp_of_bytes by done.
  rewrite (proj2 (Z.ltb_ge _ _)) by lia. rewrite Hl, ntoh16_hton16 by lia.
  rewrite (proj2 (Z.ltb_ge _ _)) by lia. rewrite Z.gtb_ltb, (proj2 (Z.ltb_ge _ _)) by lia.
  do 2 f_equal. rewrite app_assoc, slice_app_l by (rewrite ?zlen_app, ?udp_bytes_zlen; lia).
  apply slice_app_exact; [by rewrite udp_bytes_zlen|lia].
Qed.

Lemma udp_check_sound data h p :
  bytes_ok data -> udp_check data = Some (h, p) ->
  h = udp_of data /\ 8 <= zlen data /\ zlen p = ntoh16 (length_ h) - 8 /\
  8 <= ntoh16 (length_ h) <= zlen data /\ p = slice 8 (ntoh16 (length_ h) - 8) data.
Proof.
  intros Hd. unfold udp_check, sizeof_udp_header. destruct (Z.ltb_spec (zlen data) 8); [done|].
  destruct (Z.ltb_spec (ntoh16 (length_ (udp_of data))) 8); [done|].
  destruct (Z.gtb_spec (ntoh16 (length_ (udp_of data))) (8 + (zlen data - 8))); [done|].
  intros [= <- <-]. split_and!; try done; try lia. apply zlen_slice; lia.
Qed.

(** ** When a received checksum is accepted *)

(** The comparison of the received checksum with the computed one is the test
    of RFC 1071, except that a received value of all ones, the other
    representation of zero, never equals the computed one. *)
Lemma checksum_test w v :
  0 < w -> 0 <= v <= 65535 ->
  (v = 65535 - ones_sum w <-> ones_sum (w + v) = 65535 /\ v <> 65535).
Proof.
  intros Hw Hv. unfold ones_sum. rewrite (proj2 (Z.eqb_neq w 0)) by lia.
  rewrite (proj2 (Z.eqb_neq (w + v) 0)) by lia. split; [intros ->|intros [H1 H2]]; dm.
Qed.

Lemma hton16_words x y : 0 <= x < 65536 -> 0 <= y < 65536 -> (x = hton16 y <-> words_sum (le16 x) = y).
Proof.
  intros Hx Hy. rewrite words_sum_le16. split; [intros ->|intros <-].
  - rewrite hton16_small by lia. by apply reverse16_invol.
  - rewrite hton16_small by apply reverse16_range. symmetry. by apply reverse16_invol.
Qed.

Lemma slice_cons2 m o n :
  0 <= o -> 2 <= n -> o + n <= zlen m ->
  bytes_ok m -> slice o n m = le16 (ld16 m o) ++ slice (o + 2) (n - 2) m.
Proof.
  intros. replace n with (2 + (n - 2)) at 1 by lia. rewrite slice_add by lia. f_equal.
  symmetry. apply le16_ld16; [done|lia|lia].
Qed.

(** Reading a header and writing it back gives the bytes read. *)
Lemma le32_ld32 m o : bytes_ok m -> le32 (ld32 m o) = le16 (ld16 m o) ++ le16 (ld16 m (o + 2)).
Proof.
  intros Hm. unfold le32, le16, ld32, ld16. replace (o + 2 + 1) with (o + 3) by lia.
  pose proof (ld8_ok m o Hm). pose proof (ld8_ok m (o + 1) Hm). pose proof (ld8_ok m (o + 2) Hm).
  pose proof (ld8_ok m (o + 3) Hm). unfold byte_ok in *. simpl. repeat (apply (f_equal2 cons); [dm|]). done.
Qed.

Lemma ld8_pair m o : bytes_ok m -> [ld8 m o; ld8 m (o + 1)] = le16 (ld16 m o).
Proof.
  intros Hm. unfold le16, ld16. pose proof (ld8_ok m o Hm). pose proof (ld8_ok m (o + 1) Hm).
  unfold byte_ok in *. repeat (apply (f_equal2 cons); [dm|]). done.
Qed.

Lemma ipv4_bytes_of m : bytes_ok m -> 20 <= zlen m -> ipv4_bytes (ipv4_of m) = slice 0 20 m.
Proof.
  intros Hm Hl. unfold ipv4_bytes, ipv4_of.
  cbn [version4_ihl4 ds total_length identification flags3_fragmentoffset13 ttl protocol checksum
       source_address destination_address].
  change [ld8 m 0; ld8 m 1] with [ld8 m 0; ld8 m (0 + 1)]. change [ld8 m 8; ld8 m 9] with [ld8 m 8; ld8 m (8 + 1)].
  rewrite !ld8_pair, !le32_ld32 by done.
  do 10 (rewrite slice_cons2 by (lia || done)). rewrite <- !app_assoc. simpl. by rewrite slice_zero.
Qed.

Lemma udp_bytes_of m : bytes_ok m -> 8 <= zlen m -> udp_bytes (udp_of m) = slice 0 8 m.
Proof.
  intros Hm Hl. unfold udp_bytes, udp_of; simpl.
  do 4 (rewrite slice_cons2 by (lia || done)). simpl. by rewrite slice_zero.
Qed.

(** The structural conditions on an IPv4 packet. *)
Definition ipv4_wf (data : list Z) : Prop :=
  let h := ipv4_of data in
  20 <= zlen data /\ IPV4_GET_VERSION h = 4 /\ 20 <= IPV4_GET_IHL h * 4 <= ntoh16 (total_length h) /\
  ntoh16 (total_length h) <= zlen data.

Lemma version_word h : byte_ok (version4_ihl4 h) -> IPV4_GET_VERSION h = 4 -> 64 <= version4_ihl4 h < 80.
Proof.
  unfold byte_ok, IPV4_GET_VERSION. intros Hb. change 240 with (Z.shiftl (Z.ones 4) 4).
  rewrite Z.shiftr_land, Z.shiftr_shiftl_l by lia. change (4 - 4) with 0. rewrite Z.shiftl_0_r, Z.land_ones by lia.
  rewrite Z.shiftr_div_pow2 by lia. change (2 ^ 4) with 16. intros. dm.
Qed.

Lemma ipv4_words_pos h extra :
  ipv4_ok h -> bytes_ok extra -> IPV4_GET_VERSION h = 4 -> 0 < words_sum (ipv4_bytes h ++ extra).
Proof.
  intros Hh He Hv. pose proof (version_word h (i4_vihl h Hh) Hv). rewrite words_sum_app by done.
  pose proof (words_sum_bounds _ He). pose proof (zlen_nonneg extra).
  pose proof (ipv4_bytes_ok h Hh) as Hb. unfold ipv4_bytes in *.
  rewrite words_sum_app by done. apply bytes_ok_app in Hb as [_ Hb]. apply words_sum_bounds in Hb.
  simpl (words_sum [_; _]). pose proof (i4_ds h Hh). unfold byte_ok in *. lia.
Qed.

Lemma ipv4_header_words data :
  bytes_ok data -> ipv4_wf data ->
  let h := ipv4_of data in let hl := IPV4_GET_IHL h * 4 in
  ipv4_bytes h ++ slice 20 (hl - 20) data = slice 0 hl data.
Proof.
  intros Hd (H1 & H2 & H3 & H4). cbv zeta. rewrite ipv4_bytes_of by done.
  rewrite <- (slice_add 0 20) by lia. f_equal. lia.
Qed.

(** [ipv4_check] computes exactly this. *)
Lemma ipv4_check_eval data :
  bytes_ok data -> ipv4_wf data ->
  let h := ipv4_of data in let hl := IPV4_GET_IHL h * 4 in
  ipv4_check data =
    Some (if bool_decide (inet_valid (slice 0 hl data) /\ checksum h <> 65535)
          then Some (h, slice hl (ntoh16 (total_length h) - hl) data, hl) else None).
Proof.
  intros Hd Hwf. pose proof (ipv4_header_words data Hd Hwf) as Hw. destruct Hwf as (H1 & H2 & H3 & H4).
  cbv zeta in Hw |- *. set (h := ipv4_of data) in *. set (hl := IPV4_GET_IHL h * 4) in *.
  assert (ipv4_ok h) as Hh by by apply ipv4_of_ok.
  assert (0 <= ntoh16 (total_length h) < 65536) by apply hton16_range.
  unfold ipv4_check, sizeof_ipv4_header. fold h hl. rewrite (proj2 (Z.ltb_ge _ _)) by lia.
  rewrite H2. change (negb (4 =? 4)) with false. cbn [negb].
  rewrite (proj2 (Z.ltb_ge hl 20)) by lia. rewrite Z.gtb_ltb, (proj2 (Z.ltb_ge (zlen data) hl)) by lia.
  rewrite (proj2 (Z.ltb_ge (ntoh16 _) hl)) by lia. rewrite Z.gtb_ltb, (proj2 (Z.ltb_ge (zlen data) (ntoh16 _))) by lia.
  set (ex := slice 20 (hl - 20) data) in *. assert (zlen ex = hl - 20) as Hex by (apply zlen_slice; lia).
  change (hton16 0) with 0.
  rewrite ipv4_checksum_spec; [| |by apply bytes_ok_slice| |lia].
  2: { apply with_checksum_ok; [done|lia]. }
  2: { rewrite Hex. unfold hl. replace (IPV4_GET_IHL h * 4 - 20) with ((IPV4_GET_IHL h * 2 - 10) * 2) by lia.
       apply Z_mod_mult. }
  set (w := words_sum (ipv4_bytes (with_checksum h 0) ++ ex)).
  assert (0 < w) as Hpos.
  { apply ipv4_words_pos; [apply with_checksum_ok; [done|lia]|by apply bytes_ok_slice|done]. }
  pose proof (ones_sum_range w ltac:(lia)) as Hr. pose proof (i4_ck h Hh) as Hck.
  assert (words_sum (slice 0 hl data) = w + words_sum (le16 (checksum h))) as Hsum.
  { unfold w. rewrite <- Hw, !words_sum_app by done. rewrite ipv4_words. lia. }
  pose proof (reverse16_range (checksum h)). pose proof (words_sum_le16 (checksum h)) as Hle.
  assert (checksum h <> 65535 <-> words_sum (le16 (checksum h)) <> 65535) as Hff.
  { rewrite Hle. unfold badvpn_reverse16. split; intros; dm. }
  assert (checksum h = hton16 (65535 - ones_sum w) <-> inet_valid (slice 0 hl data) /\ checksum h <> 65535) as Hiff.
  { rewrite hton16_words by lia. rewrite (checksum_test w) by lia. unfold inet_valid. rewrite Hsum. tauto. }
  destruct (Z.eqb_spec (checksum h) (hton16 (65535 - ones_sum w))); cbn [negb].
  - by rewrite bool_decide_true by tauto.
  - by rewrite bool_decide_false by tauto.
Qed.

Lemma pseudo4_pos src dst len : 17 <= words_sum (pseudo4 src dst len).
Proof.
  rewrite pseudo4_words. pose proof (words_le32 src). pose proof (words_le32 dst).
  pose proof (words_le16 (hton16 len)). lia.
Qed.

Lemma pseudo6_zlen src dst len : zlen src = 16 -> zlen dst = 16 -> zlen (pseudo6 src dst len) = 40.
Proof. intros Hs Hd. unfold pseudo6. rewrite !zlen_app, Hs, Hd. reflexivity. Qed.

Lemma pseudo6_pos src dst len :
  bytes_ok src -> bytes_ok dst -> zlen src = 16 -> zlen dst = 16 -> 17 <= words_sum (pseudo6 src dst len).
Proof.
  intros Bs Bd Hs Hd. rewrite pseudo6_words by done. pose proof (words_le32 (hton32 len)).
  apply words_sum_bounds in Bs, Bd. lia.
Qed.

(** The comparison of a UDP checksum, for either pseudo header. *)
Lemma udp_test ps h p :
  zlen ps mod 2 = 0 -> 0 < words_sum ps -> bytes_ok p -> udp_ok h ->
  (udp_cksum h = hton16 (65535 - ones_sum (words_sum (ps ++ udp_bytes (with_udp_cksum h 0) ++ p))) <->
   inet_valid (ps ++ udp_bytes h ++ p) /\ udp_cksum h <> 65535).
Proof.
  intros Hz Hps Hp Hh. set (w := words_sum (ps ++ udp_bytes (with_udp_cksum h 0) ++ p)).
  pose proof (words_udp (with_udp_cksum h 0)). pose proof (words_sum_bounds _ Hp). pose proof (u_ck h Hh).
  assert (0 < w) as Hw by (unfold w; rewrite !words_sum_app by done; lia).
  pose proof (ones_sum_range w ltac:(lia)). pose proof (reverse16_range (udp_cksum h)).
  pose proof (words_sum_le16 (udp_cksum h)) as Hle.
  assert (words_sum (ps ++ udp_bytes h ++ p) = w + words_sum (le16 (udp_cksum h))) as Hsum.
  { unfold w. rewrite !words_sum_app by done. rewrite (udp_words h). lia. }
  assert (udp_cksum h <> 65535 <-> words_sum (le16 (udp_cksum h)) <> 65535) as Hff.
  { rewrite Hle. unfold badvpn_reverse16. split; intros; dm. }
  rewrite hton16_words by lia. rewrite (checksum_test w) by lia. unfold inet_valid. rewrite Hsum. tauto.
Qed.

Lemma inet_loop_spec fuel : forall l r sum,
  bytes_ok r -> zlen r mod 2 = 0 -> (length r <= fuel)%nat -> 0 <= sum -> sum + words_sum r < 4294967296 ->
  inet_loop fuel (zlen l) sum (l ++ r) = sum + words_sum r.
Proof.
  induction fuel as [|fuel IH]; intros l r sum Hr Hm Hf Hs Hb; cbn [inet_loop].
  { destruct r; [simpl; lia|simpl in Hf; lia]. }
  destruct r as [|a [|b r]].
  - rewrite app_nil_r. destruct (Z.ltb_spec (zlen l + 1) (zlen l)); [lia|]. simpl. lia.
  - by unfold zlen in Hm.
  - apply Forall_cons_1 in Hr as [Ha Hr]. apply Forall_cons_1 in Hr as [Hb' Hr].
    pose proof (words_sum_bounds r Hr). pose proof (zlen_nonneg r). unfold byte_ok in *. simpl in Hb.
    rewrite (proj2 (Z.ltb_lt _ _)) by (rewrite zlen_app, !zlen_cons; lia).
    pose proof (be16_app l a b r Ha Hb') as Hw. unfold badvpn_read_be16 in Hw. rewrite Z.shiftl_0_r in Hw.
    rewrite Hw. rewrite u32_id by lia.
    replace (zlen l + 2) with (zlen (l ++ [a; b])) by by rewrite zlen_app.
    replace (l ++ a :: b :: r) with ((l ++ [a; b]) ++ r) by by rewrite <- app_assoc.
    rewrite IH; [simpl; lia|done| |simpl in Hf; lia|lia|lia].
    rewrite !zlen_cons in Hm. replace (1 + (1 + zlen r)) with (zlen r + 1 * 2) in Hm by lia.
    by rewrite Z_mod_plus_full in Hm.
Qed.

Lemma inet_checksum_spec m :
  bytes_ok m -> zlen m mod 2 = 0 -> zlen m <= 65535 ->
  inet_checksum m = 65535 - ones_sum (words_sum m).
Proof.
  intros Hm Hz Hl. pose proof (words_payload m Hm Hl). unfold inet_checksum.
  pose proof (inet_loop_spec (length m) [] m 0 Hm Hz ltac:(lia) ltac:(lia) ltac:(lia)) as He.
  rewrite zlen_nil in He. simpl app in He. rewrite He. rewrite Z.add_0_l, fold_loop_spec by lia.
  apply not16_spec. apply ones_sum_range. lia.
Qed.

(** ** Properties *)

(** [ipv4_check] accepts a packet exactly when its lengths are consistent
    and its header, options included, passes the Internet checksum, and then
    yields the header, its length and the payload; the one valid header it
    refuses is one whose checksum field is all ones. It never reads out of range. *)
Theorem ipv4_check_exact data :
  bytes_ok data ->
  exists r, ipv4_check data = Some r /\
    forall h p hl, r = Some (h, p, hl) <->
      h = ipv4_of data /\ ipv4_wf data /\ hl = IPV4_GET_IHL h * 4 /\
      p = slice hl (ntoh16 (total_length h) - hl) data /\
      inet_valid (slice 0 hl data) /\ checksum h <> 65535.
Proof.
  intros Hd. destruct (ipv4_check_sound data Hd) as (r & Hr & Hs). exists r. split; [done|].
  intros h p hl. split.
  - intros Hrr. destruct (Hs h p hl Hrr) as (-> & H1 & H2 & -> & H3 & H4 & -> & _).
    assert (ipv4_wf data) as Hwf by (unfold ipv4_wf; split_and!; lia || done).
    pose proof (ipv4_check_eval data Hd Hwf) as He. cbv zeta in He. rewrite Hr in He.
    case_bool_decide as Hb; [|congruence]. by destruct Hb.
  - intros (-> & Hwf & -> & -> & Hv & Hck). pose proof (ipv4_check_eval data Hd Hwf) as He.
    cbv zeta in He. rewrite Hr, bool_decide_true in He by done. congruence.
Qed.

(** The UDP checksum over IPv4 with its pseudo header: what the code
    writes sums to all ones at the receiver, and the code accepts a received
    datagram exactly when it does, except for a checksum field of all ones. *)
Theorem udp_checksum_exact h p src dst :
  udp_ok h -> bytes_ok p -> zlen p <= 65527 ->
  exists c, udp_checksum (with_udp_cksum h 0) p src dst = Some c /\ 0 <= c < 65536 /\
    inet_valid (pseudo4 src dst (8 + zlen p) ++ udp_bytes (with_udp_cksum h c) ++ p) /\
    (udp_cksum h = c <->
       inet_valid (pseudo4 src dst (8 + zlen p) ++ udp_bytes h ++ p) /\ udp_cksum h <> 65535).
Proof.
  intros Hh Hp Hl. rewrite udp_checksum_spec by done. eexists. split; [done|].
  pose proof (pseudo4_pos src dst (8 + zlen p)).
  split_and!; try apply hton16_range.
  - apply udp_sum_valid; [done|lia|done].
  - apply udp_test; [done|lia|done|done].
Qed.

(** The same for UDP over IPv6. *)
Theorem udp_ip6_checksum_exact h p src dst :
  udp_ok h -> bytes_ok p -> zlen p <= 65527 ->
  bytes_ok src -> bytes_ok dst -> zlen src = 16 -> zlen dst = 16 ->
  exists c, udp_ip6_checksum (with_udp_cksum h 0) p src dst = Some c /\ 0 <= c < 65536 /\
    inet_valid (pseudo6 src dst (8 + zlen p) ++ udp_bytes (with_udp_cksum h c) ++ p) /\
    (udp_cksum h = c <->
       inet_valid (pseudo6 src dst (8 + zlen p) ++ udp_bytes h ++ p) /\ udp_cksum h <> 65535).
Proof.
  intros Hh Hp Hl Bs Bd Ls Ld. rewrite udp_ip6_checksum_spec by done. eexists. split; [done|].
  pose proof (pseudo6_pos src dst (8 + zlen p) Bs Bd Ls Ld). pose proof (pseudo6_zlen src dst (8 + zlen p) Ls Ld) as Hz.
  assert (zlen (pseudo6 src dst (8 + zlen p)) mod 2 = 0) by by rewrite Hz.
  split_and!; try apply hton16_range.
  - apply udp_sum_valid; [done|lia|done].
  - apply udp_test; [done|lia|done|done].
Qed.

(** The UDP checksum the code computes is zero, which RFC 768 reserves for
    "no checksum", exactly when the words sum to all ones, and there are such
    datagrams: the substitution of zero is made before the complement is taken. *)
Theorem udp_checksum_zero :
  (forall h p src dst, bytes_ok p -> zlen p <= 65527 ->
     (udp_checksum h p src dst = Some 0 <-> inet_valid (pseudo4 src dst (8 + zlen p) ++ udp_bytes h ++ p))) /\
  udp_checksum (mkUdp (hton16 53) (hton16 4096) (hton16 10) 0) [239; 165] 0 0 = Some 0.
Proof.
  split; [|reflexivity]. intros h p src dst Hp Hl. rewrite udp_checksum_spec by done. unfold inet_valid.
  set (w := words_sum _). assert (0 < w) as Hw.
  { unfold w. rewrite !words_sum_app by done. pose proof (pseudo4_pos src dst (8 + zlen p)).
    pose proof (words_udp h). apply words_sum_bounds in Hp. lia. }
  pose proof (ones_sum_range w ltac:(lia)). pose proof (hton16_words 0 (65535 - ones_sum w) ltac:(lia) ltac:(lia)) as Hh.
  change (words_sum (le16 0)) with 0 in Hh. split; [intros [= Hc]; symmetry in Hc; apply Hh in Hc; lia|].
  intros Ho. f_equal. symmetry. apply Hh. lia.
Qed.

(** ** Witnesses *)

Definition ex_udp : udp_header := mkUdp (hton16 53) (hton16 4096) (hton16 10) 42479.
Definition ex_ipv4 : ipv4_header := mkIPv4 69 0 (hton16 30) 0 0 64 17 0 (hton32 167772161) (hton32 134744072).

Lemma ipv4_check_exact_witness :
  let d := ipv4_bytes (with_checksum ex_ipv4 (hton16 24767)) ++ udp_bytes ex_udp ++ [1; 2] in
  ipv4_check d = Some (Some (with_checksum ex_ipv4 (hton16 24767), udp_bytes ex_udp ++ [1; 2], 20)) /\
  ipv4_wf d /\ inet_valid (slice 0 20 d).
Proof.
  set (d := ipv4_bytes _ ++ _). assert (bytes_ok d) as Hd.
  { unfold d. repeat (apply Forall_cons_2; [unfold byte_ok; vm_compute; split; congruence|]). constructor. }
  destruct (ipv4_check_exact d Hd) as (r & Hr & Hi).
  assert (ipv4_check d = Some (Some (with_checksum ex_ipv4 (hton16 24767), udp_bytes ex_udp ++ [1; 2], 20))) as E by (vm_compute; reflexivity).
  rewrite E in Hr. injection Hr as Hr. symmetry in Hr. apply Hi in Hr.
  destruct Hr as (Hh & Hwf & Hhl & _ & Hv & _). by split_and!.
Defined.

Lemma udp_checksum_exact_witness :
  inet_valid (pseudo4 0 0 10 ++ udp_bytes ex_udp ++ [0; 0]).
Proof.
  destruct (udp_checksum_exact ex_udp [0; 0] 0 0) as (c & Hc & Hr & Hv & Hiff).
  - split; vm_compute; split; congruence.
  - repeat (apply Forall_cons_2; [unfold byte_ok; lia|]). constructor.
  - vm_compute. congruence.
  - apply Hiff. vm_compute in Hc. injection Hc as <-. reflexivity.
Defined.

Lemma udp_ip6_checksum_exact_witness :
  exists c, udp_ip6_checksum (with_udp_cksum ex_udp 0) [7] (replicate 16 1) (replicate 16 2) = Some c /\
    inet_valid (pseudo6 (replicate 16 1) (replicate 16 2) 9 ++ udp_bytes (with_udp_cksum ex_udp c) ++ [7]).
Proof.
  destruct (udp_ip6_checksum_exact ex_udp [7] (replicate 16 1) (replicate 16 2)) as (c & Hc & Hr & Hv & Hiff).
  - split; vm_compute; split; congruence.
  - repeat (apply Forall_cons_2; [unfold byte_ok; lia|]). constructor.
  - vm_compute. congruence.
  - apply Forall_replicate. unfold byte_ok; lia.
  - apply Forall_replicate. unfold byte_ok; lia.
  - reflexivity.
  - reflexivity.
  - exists c. split; [done|exact Hv].
Defined.
