(* ===== verification/Device.v ===== *)
(** * Packets of the TUN device

    The packet processing of [tun2socks/tun2socks.c]: the DNS address
    translation with its connection table, UDP towards and from the UDP
    gateway, ICMP rejection, and the packets exchanged with the TCP/IP stack.
    [None] is a failed assertion, an access outside of [device_write_buf] or
    through a null pointer. *)

From S2P Require Import Prelude ByteOrder InetProto.

(** ** Data *)

(** [BAddr] ([system/BAddr.h]); addresses and ports in network byte order. *)
Inductive BAddr :=
| BADDR_NONE
| BADDR_IPV4 (ip port : Z)
| BADDR_IPV6 (ip : list Z) (port : Z).

#[global] Instance BAddr_eq_dec : EqDecision BAddr.
Proof. solve_decision. Defined.

(** The members of the union are read whatever the type is. *)
Definition ipv4_ip (a : BAddr) : Z := match a with BADDR_IPV4 ip _ => ip | _ => 0 end.
Definition ipv4_port (a : BAddr) : Z := match a with BADDR_IPV4 _ p => p | _ => 0 end.

Record Connection := mkConnection {
  local_addr : BAddr;
  remote_addr : BAddr;
  port : Z;
  count : Z
}.

(** The settings the packet code reads: [options], [dnsgw], [netif_ipaddr],
    [udp_mtu] and the MTU of the device. *)
Record config := mkConfig {
  dnsgw : option (Z * Z);
  udpgw_remote_server_addr : bool;
  udpgw_transparent_dns : bool;
  netif_ip6addr : bool;
  netif_ipaddr : Z;
  udp_mtu : Z;
  device_mtu : Z
}.

Inductive effect :=
| TapSend (packet : list Z)
| UdpSubmit (local remote : BAddr) (is_dns : bool) (data : list Z)
| IpInput (p : list (list Z))
| Ip6Input (p : list (list Z))
| PbufFree (p : list (list Z)).

Record device := mkDevice {
  init : bool;
  connections_tree : gmap Z Connection;
  device_write_buf : list Z;
  effects : list effect
}.

Definition set_tree (d : device) (t : gmap Z Connection) : device :=
  mkDevice (init d) t (device_write_buf d) (effects d).
Definition emit (d : device) (e : effect) : device :=
  mkDevice (init d) (connections_tree d) (device_write_buf d) (effects d ++ [e]).

(** [memcpy(device_write_buf + off, bs, n)] *)
Definition write_buf (off : Z) (bs : list Z) (d : device) : option device :=
  let* b := mem_write off bs (device_write_buf d) in
  Some (mkDevice (init d) (connections_tree d) b (effects d)).

Section Device.
Context (o : config).

(** [BTap_Send(&device, packet, len)] *)
Definition BTap_Send (packet : list Z) (d : device) : option device :=
  ASSERT (zlen packet <=? device_mtu o) ;; Some (emit d (TapSend packet)).

Definition send_buf (len : Z) (d : device) : option device :=
  let* p := mem_read 0 len (device_write_buf d) in BTap_Send p d.

(** [SocksUdpGwClient_SubmitPacket], with the assertions of its callee. *)
Definition submit_packet (l r : BAddr) (is_dns : bool) (data : list Z) (d : device) : option device :=
  ASSERT (zlen data <=? udp_mtu o) ;; Some (emit d (UdpSubmit l r is_dns data)).

(** ** The table of DNS connections, a tree keyed by the port *)

Definition find_connection (port : Z) (d : device) : option Connection := connections_tree d !! port.

Definition remove_connection (con : Connection) (d : device) : device :=
  let con := mkConnection (local_addr con) (remote_addr con) (port con) (count con - 1) in
  if count con <=? 0 then set_tree d (delete (port con) (connections_tree d))
  else set_tree d (<[port con := con]> (connections_tree d)).

(** [m]: whether [malloc], if it is called, gives memory; its result is written to
    without a check. *)
Definition insert_connection (local remote : BAddr) (p : Z) (m : bool) (d : device) : option device :=
  match find_connection p d with
  | Some con =>
      Some (set_tree d (<[port con := mkConnection (local_addr con) (remote_addr con) (port con) (count con + 1)]>
                          (connections_tree d)))
  | None => if m then Some (set_tree d (<[p := mkConnection local remote p 1]> (connections_tree d))) else None
  end.

Definition free_connections (d : device) : device := set_tree d ∅.

(** ** DNS packets *)

Definition with_addrs (h : ipv4_header) (src dst : Z) : ipv4_header :=
  mkIPv4 (version4_ihl4 h) (ds h) (total_length h) (identification h) (flags3_fragmentoffset13 h)
    (ttl h) (protocol h) (checksum h) src dst.
Definition with_ports (h : udp_header) (src dst : Z) : udp_header := mkUdp src dst (length_ h) (udp_cksum h).

(** The translated headers and the new table; [None] inside is [goto fail]. *)
Definition dns_translate (gw_ip gw_port : Z) (iph : ipv4_header) (udph : udp_header) (to_dns from_dns m : bool)
    (d : device) : option (option (ipv4_header * udp_header * device)) :=
  if to_dns then
    let local := BADDR_IPV4 (source_address iph) (source_port udph) in
    let remote := BADDR_IPV4 (destination_address iph) (dest_port udph) in
    let d := mkDevice true (if init d then connections_tree d else ∅) (device_write_buf d) (effects d) in
    let* d := insert_connection local remote (source_port udph) m d in
    Some (Some (with_addrs iph (netif_ipaddr o) gw_ip, with_ports udph (source_port udph) gw_port, d))
  else if from_dns then
    if negb (init d) then Some None
    else match find_connection (dest_port udph) d with
         | Some con =>
             Some (Some (with_addrs iph (ipv4_ip (remote_addr con)) (ipv4_ip (local_addr con)),
                         with_ports udph (ipv4_port (remote_addr con)) (dest_port udph),
                         remove_connection con d))
         | None => Some None
         end
  else Some (Some (iph, udph, d)).

(** Both checksums, then the packet is written and sent. *)
Definition dns_send (iph : ipv4_header) (udph : udp_header) (data : list Z) (d : device) : option device :=
  let iph := with_checksum iph (hton16 0) in
  let* c := ipv4_checksum iph [] in let iph := with_checksum iph c in
  let udph := with_udp_cksum udph (hton16 0) in
  let* c := udp_checksum udph data (source_address iph) (destination_address iph) in
  let udph := with_udp_cksum udph c in
  let* d := write_buf 0 (ipv4_bytes iph) d in
  let* d := write_buf sizeof_ipv4_header (udp_bytes udph) d in
  let* d := write_buf (sizeof_ipv4_header + sizeof_udp_header) data d in
  send_buf (sizeof_ipv4_header + sizeof_udp_header + zlen data) d.

Definition ip_version (data : list Z) : Z := if zlen data >? 0 then Z.shiftr (ld8 data 0) 4 else 0.

Definition process_device_dns_packet (data : list Z) (m : bool) (d : device) : option (bool * device) :=
  match dnsgw o with
  | None => Some (false, d)
  | Some (gw_ip, gw_port) =>
      if negb (ip_version data =? 4) then Some (false, d)
      else if (zlen data <? sizeof_ipv4_header) || negb (ld8 data 9 =? IPV4_PROTOCOL_UDP) then Some (false, d)
      else
        let* r := ipv4_check data in
        match r with
        | None => Some (false, d)
        | Some (iph, data, _) =>
            match udp_check data with
            | None => Some (false, d)
            | Some (udph, data) =>
                let checksum_in_packet := udp_cksum udph in
                let udph := with_udp_cksum udph 0 in
                let* computed := udp_checksum udph data (source_address iph) (destination_address iph) in
                if negb (checksum_in_packet =? computed) then Some (false, d)
                else
                  let to_dns := dest_port udph =? hton16 53 in
                  let from_dns := source_port udph =? gw_port in
                  if negb to_dns && negb from_dns then Some (false, d)
                  else let* t := dns_translate gw_ip gw_port iph udph to_dns from_dns m d in
                       match t with
                       | None => Some (false, d)
                       | Some (iph, udph, d) => let* d := dns_send iph udph data d in Some (true, d)
                       end
            end
        end
  end.

(** ** ICMP rejection *)

Definition icmp_reply_header (orig : ipv4_header) (total_len : Z) : ipv4_header :=
  mkIPv4 (IPV4_MAKE_VERSION_IHL sizeof_ipv4_header) 0 (hton16 total_len) (hton16 0) (hton16 0) 64 1 (hton16 0)
    (destination_address orig) (source_address orig).

Definition reject_device_udp_packet (data : list Z) (d : device) : option (bool * device) :=
  if (zlen data <? sizeof_ipv4_header) || negb (Z.shiftr (ld8 data 0) 4 =? 4) ||
     negb (ld8 data 9 =? IPV4_PROTOCOL_UDP) then Some (false, d)
  else
    let* r := ipv4_check data in
    match r with
    | None => Some (false, d)
    | Some (orig, payload, header_len) =>
        if zlen payload <? sizeof_udp_header then Some (false, d)
        else
          let quote_len := header_len + sizeof_udp_header in
          let icmp_len := 8 + quote_len in
          let total_len := sizeof_ipv4_header + icmp_len in
          if total_len >? device_mtu o then Some (true, d)
          else
            let icmp := sizeof_ipv4_header in
            let* d := write_buf icmp (replicate 8 0) d in
            let* d := write_buf icmp [3] d in
            let* d := write_buf (icmp + 1) [3] d in
            let* quote := mem_read 0 quote_len data in
            let* d := write_buf (icmp + 8) quote d in
            let* m := mem_read icmp icmp_len (device_write_buf d) in
            let icmp_sum := inet_checksum m in
            let* d := write_buf (icmp + 2) [u8 (Z.shiftr icmp_sum 8)] d in
            let* d := write_buf (icmp + 3) [u8 (Z.land icmp_sum 255)] d in
            let reply := icmp_reply_header orig total_len in
            let* c := ipv4_checksum reply [] in
            let reply := with_checksum reply c in
            let* d := write_buf 0 (ipv4_bytes reply) d in
            let* d := send_buf total_len d in
            Some (true, d)
    end.

(** ** UDP towards the gateway *)

(** The addresses, whether the packet is DNS, and the payload; [None] inside is
    [goto fail]. *)
Definition udp_parse4 (data : list Z) : option (option (BAddr * BAddr * bool * list Z)) :=
  if (zlen data <? sizeof_ipv4_header) || negb (ld8 data 9 =? IPV4_PROTOCOL_UDP) then Some None
  else
    let* r := ipv4_check data in
    match r with
    | None => Some None
    | Some (iph, data, _) =>
        match udp_check data with
        | None => Some None
        | Some (udph, data) =>
            let checksum_in_packet := udp_cksum udph in
            let udph := with_udp_cksum udph 0 in
            let* computed := udp_checksum udph data (source_address iph) (destination_address iph) in
            if negb (checksum_in_packet =? computed) then Some None
            else Some (Some (BADDR_IPV4 (source_address iph) (source_port udph),
                             BADDR_IPV4 (destination_address iph) (dest_port udph),
                             udpgw_transparent_dns o && (destination_address iph =? netif_ipaddr o) &&
                               (dest_port udph =? hton16 53),
                             data))
        end
    end.

Definition udp_parse6 (data : list Z) : option (option (BAddr * BAddr * bool * list Z)) :=
  if negb (netif_ip6addr o) then Some None
  else if (zlen data <? sizeof_ipv6_header) || negb (ld8 data 6 =? IPV6_NEXT_UDP) then Some None
  else
    match ipv6_check data with
    | None => Some None
    | Some (iph, data) =>
        match udp_check data with
        | None => Some None
        | Some (udph, data) =>
            let checksum_in_packet := udp_cksum udph in
            let udph := with_udp_cksum udph 0 in
            let* computed := udp_ip6_checksum udph data (source_address6 iph) (destination_address6 iph) in
            if negb (checksum_in_packet =? computed) then Some None
            else Some (Some (BADDR_IPV6 (source_address6 iph) (source_port udph),
                             BADDR_IPV6 (destination_address6 iph) (dest_port udph), false, data))
        end
    end.

Definition process_device_udp_packet (data : list Z) (d : device) : option (bool * device) :=
  if negb (udpgw_remote_server_addr o) then reject_device_udp_packet data d
  else
    let* r := (if ip_version data =? 4 then udp_parse4 data
               else if ip_version data =? 6 then udp_parse6 data
               else Some None) in
    match r with
    | None => Some (false, d)
    | Some (local, remote, is_dns, data) =>
        if zlen data >? udp_mtu o then Some (false, d)
        else let* d := submit_packet local remote is_dns data d in Some (true, d)
    end.

(** ** UDP from the gateway *)

Definition udp_packet4 (local_ip local_port remote_ip remote_port : Z) (data : list Z) : option (list Z * list Z) :=
  let iph := mkIPv4 (IPV4_MAKE_VERSION_IHL sizeof_ipv4_header) 0
               (hton16 (sizeof_ipv4_header + sizeof_udp_header + zlen data)) (hton16 0) (hton16 0) 64
               IPV4_PROTOCOL_UDP (hton16 0) remote_ip local_ip in
  let* c := ipv4_checksum iph [] in let iph := with_checksum iph c in
  let udph := mkUdp remote_port local_port (hton16 (sizeof_udp_header + zlen data)) (hton16 0) in
  let* c := udp_checksum udph data (source_address iph) (destination_address iph) in
  Some (ipv4_bytes iph, udp_bytes (with_udp_cksum udph c)).

Definition udp_packet6 (local_ip : list Z) (local_port : Z) (remote_ip : list Z) (remote_port : Z)
    (data : list Z) : option (list Z * list Z) :=
  let iph := mkIPv6 (Z.shiftl 6 4) 0 (hton16 0) (hton16 (sizeof_udp_header + zlen data)) IPV6_NEXT_UDP 64
               remote_ip local_ip in
  let udph := mkUdp remote_port local_port (hton16 (sizeof_udp_header + zlen data)) (hton16 0) in
  let* c := udp_ip6_checksum udph data (source_address6 iph) (destination_address6 iph) in
  Some (ipv6_bytes iph, udp_bytes (with_udp_cksum udph c)).

(** The three [memcpy] of a packet and [BTap_Send]. *)
Definition write_packet (iph udph data : list Z) (d : device) : option device :=
  let* d := write_buf 0 iph d in
  let* d := write_buf (zlen iph) udph d in
  let* d := write_buf (zlen iph + zlen udph) data d in
  send_buf (zlen iph + zlen udph + zlen data) d.

Definition udpgw_client_handler_received (local remote : BAddr) (data : list Z) (d : device) : option device :=
  ASSERT (udpgw_remote_server_addr o) ;;
  match local, remote with
  | BADDR_IPV4 lip lport, BADDR_IPV4 rip rport =>
      if (zlen data >? UINT16_MAX - (sizeof_ipv4_header + sizeof_udp_header)) ||
         (zlen data >? device_mtu o - (sizeof_ipv4_header + sizeof_udp_header)) then Some d
      else let* (iph, udph) := udp_packet4 lip lport rip rport data in write_packet iph udph data d
  | BADDR_IPV6 lip lport, BADDR_IPV6 rip rport =>
      if negb (netif_ip6addr o) then Some d
      else if (zlen data >? UINT16_MAX - sizeof_udp_header) ||
              (zlen data >? device_mtu o - (sizeof_ipv6_header + sizeof_udp_header)) then Some d
      else let* (iph, udph) := udp_packet6 lip lport rip rport data in write_packet iph udph data d
  | _, _ => None
  end.

(** ** The network interface of the TCP/IP stack

    A pbuf chain is the list of the contents of its chunks. *)

(** The loop over a chain of several chunks; [None] inside is "no space left". *)
Fixpoint output_chunks (p : list (list Z)) (len : Z) (d : device) : option (option Z * device) :=
  match p with
  | [] => Some (Some len, d)
  | c :: p =>
      if zlen c >? device_mtu o - len then Some (None, d)
      else let* d := write_buf len c d in output_chunks p (len + zlen c) d
  end.

Definition common_netif_output (quitting : bool) (p : list (list Z)) (d : device) : option device :=
  if quitting then Some d
  else match p with
       | [] => None
       | [c] => if zlen c >? device_mtu o then Some d else BTap_Send c d
       | _ => let* (r, d) := output_chunks p 0 d in
              match r with None => Some d | Some len => send_buf len d end
       end.

(** [ip_input] and [ip6_input] of lwIP are handed the chain; whether they
    return [ERR_OK]. *)
Context (ip_input ip6_input : list (list Z) -> bool).

Definition netif_input_func (p : list (list Z)) (d : device) : option (bool * device) :=
  let* first := head p in
  let ip_version := if zlen first >? 0 then Z.shiftr (ld8 first 0) 4 else 0 in
  if ip_version =? 4 then Some (ip_input p, emit d (IpInput p))
  else if (ip_version =? 6) && netif_ip6addr o then Some (ip6_input p, emit d (Ip6Input p))
  else Some (true, emit d (PbufFree p)).

(** [pbuf_take] over the chunk lengths of the allocated chain. *)
Fixpoint pbuf_take (lens : list Z) (data : list Z) : list (list Z) :=
  match lens with
  | [] => []
  | n :: lens => take (Z.to_nat n) data :: pbuf_take lens (drop (Z.to_nat n) data)
  end.

(** [pbuf_alloc] of lwIP: the chunk lengths of a chain for so many bytes. *)
Context (pbuf_alloc : Z -> option (list Z)).

(** [PacketPassInterface_Done(&device_read_interface)] comes first and concerns
    the interface only. *)
Definition device_read_handler_send (data : list Z) (m : bool) (d : device) : option device :=
  let* (r, d) := process_device_dns_packet data m d in
  if r : bool then Some d
  else
    let* (r, d) := process_device_udp_packet data d in
    if r : bool then Some d
    else if zlen data >? UINT16_MAX then Some d
    else match pbuf_alloc (zlen data) with
         | None => Some d
         | Some lens =>
             let p := pbuf_take lens data in
             let* (ok, d) := netif_input_func p d in
             if ok : bool then Some d else Some (emit d (PbufFree p))
         end.

(** The packets, and whether the call of [malloc] of each, if any, gives memory. *)
Fixpoint device_run (packets : list (list Z * bool)) (d : device) : option device :=
  match packets with
  | [] => Some d
  | (p, m) :: packets => let* d := device_read_handler_send p m d in device_run packets d
  end.

End Device.

(** ** Packets as the code recognises them *)

(** [data] is an IPv4 packet with a UDP datagram, both accepted by the checks. *)
Definition udp4_packet (data : list Z) (iph : ipv4_header) (udph : udp_header) (p : list Z) : Prop :=
  exists q hl, ipv4_check data = Some (Some (iph, q, hl)) /\ protocol iph = IPV4_PROTOCOL_UDP /\
    udp_check q = Some (udph, p) /\
    udp_checksum (with_udp_cksum udph 0) p (source_address iph) (destination_address iph) = Some (udp_cksum udph).

Definition udp6_packet (data : list Z) (iph : ipv6_header) (udph : udp_header) (p : list Z) : Prop :=
  exists q, ipv6_check data = Some (iph, q) /\ next_header iph = IPV6_NEXT_UDP /\
    udp_check q = Some (udph, p) /\
    udp_ip6_checksum (with_udp_cksum udph 0) p (source_address6 iph) (destination_address6 iph) =
      Some (udp_cksum udph).

Lemma get_version_shift b : byte_ok b -> Z.shiftr (Z.land b 240) 4 = Z.shiftr b 4.
Proof.
  intros Hb. change 240 with (Z.shiftl (Z.ones 4) 4). unfold byte_ok in *.
  rewrite Z.shiftr_land, Z.shiftr_shiftl_l by lia. change (4 - 4) with 0. rewrite Z.shiftl_0_r, Z.land_ones by lia.
  rewrite Z.shiftr_div_pow2 by lia. change (2 ^ 4) with 16. dm.
Qed.

Lemma ipv4_check_facts data iph q hl :
  bytes_ok data -> ipv4_check data = Some (Some (iph, q, hl)) ->
  iph = ipv4_of data /\ ipv4_ok iph /\ 20 <= zlen data /\ Z.shiftr (ld8 data 0) 4 = 4 /\ ip_version data = 4 /\
  ld8 data 9 = protocol iph /\ 20 <= hl /\ hl = IPV4_GET_IHL iph * 4 /\
  hl + zlen q = ntoh16 (total_length iph) /\ hl + zlen q <= zlen data /\ bytes_ok q /\ q = slice hl (zlen q) data.
Proof.
  intros Hd He. destruct (ipv4_check_sound data Hd) as (r & Hr & Hs). rewrite He in Hr. injection Hr as <-.
  destruct (Hs _ _ _ eq_refl) as (-> & H1 & H2 & -> & H3 & H4 & Hq & H5 & H6).
  assert (Z.shiftr (ld8 data 0) 4 = 4) as Hv.
  { rewrite <- get_version_shift by by apply ld8_ok. exact H2. }
  split_and!; try done; try lia.
  - by apply ipv4_of_ok.
  - unfold ip_version. by rewrite Z.gtb_ltb, (proj2 (Z.ltb_lt _ _)) by lia.
  - rewrite Hq at 1. f_equal. lia.
Qed.

Lemma udp4_facts data iph udph p :
  bytes_ok data -> udp4_packet data iph udph p ->
  ipv4_ok iph /\ udp_ok udph /\ bytes_ok p /\ 28 + zlen p <= zlen data /\ zlen p <= 65507 /\
  IPV4_GET_IHL iph * 4 + 8 + zlen p <= ntoh16 (total_length iph) /\ ntoh16 (total_length iph) <= zlen data /\
  ntoh16 (length_ udph) = 8 + zlen p.
Proof.
  intros Hd (q & hl & H1 & H2 & H3 & H4).
  destruct (ipv4_check_facts _ _ _ _ Hd H1) as (-> & Hok & ? & ? & ? & ? & ? & -> & ? & ? & Hq & _).
  destruct (udp_check_sound q udph p Hq H3) as (-> & ? & ? & ? & ->).
  pose proof (hton16_range (total_length (ipv4_of data))). unfold ntoh16 in *.
  split_and!; try done; try lia; [by apply udp_of_ok|by apply bytes_ok_slice].
Qed.

Lemma udp4_unique data iph udph p iph' udph' p' :
  udp4_packet data iph udph p -> udp4_packet data iph' udph' p' -> iph = iph' /\ udph = udph' /\ p = p'.
Proof. intros (q & hl & H1 & _ & H3 & _) (q' & hl' & H1' & _ & H3' & _). by simplify_eq. Qed.

(** Every packet is one of these or falls through all the tests. *)
Inductive udp4_view (data : list Z) : Prop :=
| V4_udp iph udph p : udp4_packet data iph udph p -> udp4_view data
| V4_proto : (zlen data <? 20) || negb (ld8 data 9 =? 17) = true -> udp4_view data
| V4_ip : (zlen data <? 20) || negb (ld8 data 9 =? 17) = false -> ipv4_check data = Some None -> udp4_view data
| V4_badudp iph q hl : (zlen data <? 20) || negb (ld8 data 9 =? 17) = false ->
    ipv4_check data = Some (Some (iph, q, hl)) -> udp_check q = None -> udp4_view data
| V4_sum iph q hl udph p c : (zlen data <? 20) || negb (ld8 data 9 =? 17) = false ->
    ipv4_check data = Some (Some (iph, q, hl)) -> udp_check q = Some (udph, p) ->
    udp_checksum (with_udp_cksum udph 0) p (source_address iph) (destination_address iph) = Some c ->
    udp_cksum udph <> c -> udp4_view data.

Lemma udp4_cases data : bytes_ok data -> udp4_view data.
Proof.
  intros Hd. destruct ((zlen data <? 20) || negb (ld8 data 9 =? 17)) eqn:E0; [by apply V4_proto|].
  destruct (ipv4_check_sound data Hd) as (r & Hr & _). destruct r as [[[iph q] hl]|]; [|by apply V4_ip].
  destruct (ipv4_check_facts _ _ _ _ Hd Hr) as (Hi & Hok & ? & ? & ? & Hp & ? & ? & ? & ? & Hq & _).
  destruct (udp_check q) as [[udph p]|] eqn:Eu; [|by eapply V4_badudp].
  destruct (udp_check_sound q udph p Hq Eu) as (-> & ? & ? & ? & ->).
  pose proof (hton16_range (length_ (udp_of q))). unfold ntoh16 in *.
  pose proof (udp_checksum_spec (with_udp_cksum (udp_of q) 0) (slice 8 (hton16 (length_ (udp_of q)) - 8) q)
    (source_address iph) (destination_address iph) ltac:(by apply bytes_ok_slice) ltac:(lia)) as Hc.
  match type of Hc with _ = Some ?x => set (c := x) in Hc end.
  destruct (decide (udp_cksum (udp_of q) = c)) as [Hck|Hne].
  - rewrite <- Hck in Hc. eapply V4_udp. exists q, hl. split; [done|]. split; [|by split].
    apply orb_false_iff in E0 as [_ E0]. apply negb_false_iff, Z.eqb_eq in E0. rewrite <- Hp. exact E0.
  - eapply V4_sum; done.
Qed.

Lemma udp4_gate data iph udph p :
  bytes_ok data -> udp4_packet data iph udph p ->
  ip_version data = 4 /\ (zlen data <? 20) || negb (ld8 data 9 =? 17) = false.
Proof.
  intros Hd (q & hl & H1 & H2 & _). destruct (ipv4_check_facts _ _ _ _ Hd H1) as (_ & _ & ? & _ & ? & Hp & _).
  split; [done|]. rewrite Hp, H2. rewrite (proj2 (Z.ltb_ge _ _)) by lia. reflexivity.
Qed.

(** ** Building packets *)

Lemma udp4_built iph udph p :
  ipv4_ok iph -> udp_ok udph -> bytes_ok p -> version4_ihl4 iph = 69 -> protocol iph = IPV4_PROTOCOL_UDP ->
  total_length iph = hton16 (28 + zlen p) -> length_ udph = hton16 (8 + zlen p) -> 28 + zlen p < 65536 ->
  exists c1 c2,
    ipv4_checksum (with_checksum iph 0) [] = Some c1 /\
    udp_checksum (with_udp_cksum udph 0) p (source_address iph) (destination_address iph) = Some c2 /\
    udp4_packet (ipv4_bytes (with_checksum iph c1) ++ udp_bytes (with_udp_cksum udph c2) ++ p)
      (with_checksum iph c1) (with_udp_cksum udph c2) p.
Proof.
  intros Hi Hu Hp Hv Hpr Ht Hul Hl. pose proof (zlen_nonneg p).
  rewrite ipv4_checksum_spec; [|apply with_checksum_ok; [done|lia]|constructor|done|done].
  rewrite udp_checksum_spec by (done || lia). eexists _, _. do 2 (split; [reflexivity|]).
  set (c1 := hton16 _). set (c2 := hton16 _).
  assert (0 <= c1 < 65536) as H1 by apply hton16_range. assert (0 <= c2 < 65536) as H2 by apply hton16_range.
  assert (ipv4_ok (with_checksum iph c1)) as Hi1 by by apply with_checksum_ok.
  assert (udp_ok (with_udp_cksum udph c2)) as Hu2 by (destruct Hu; by split).
  exists (udp_bytes (with_udp_cksum udph c2) ++ p), 20. split_and!.
  - rewrite <- (app_nil_r (udp_bytes _ ++ p)) at 1. apply (ipv4_check_built _ _ [] c1); try done.
    + apply bytes_ok_app. split; [apply udp_bytes_ok|done].
    + cbn [with_checksum total_length]. rewrite Ht, zlen_app, udp_bytes_zlen. f_equal. lia.
    + rewrite zlen_app, udp_bytes_zlen. lia.
    + change (with_checksum (with_checksum iph c1) (hton16 0)) with (with_checksum iph 0).
      apply ipv4_checksum_spec; [apply with_checksum_ok; [done|lia]|constructor|done|done].
  - done.
  - rewrite <- (app_nil_r p) at 1. apply udp_check_built; [done|done|lia].
  - change (with_udp_cksum (with_udp_cksum udph c2) 0) with (with_udp_cksum udph 0).
    rewrite udp_checksum_spec by (done || lia). done.
Qed.

(** Three consecutive writes and a read. *)
Lemma write_three a b c m :
  zlen a + zlen b + zlen c <= zlen m ->
  exists m1 m2 m3, mem_write 0 a m = Some m1 /\ mem_write (zlen a) b m1 = Some m2 /\
    mem_write (zlen a + zlen b) c m2 = Some m3 /\ zlen m3 = zlen m /\
    mem_read 0 (zlen a + zlen b + zlen c) m3 = Some (a ++ b ++ c).
Proof.
  intros Hl. pose proof (zlen_nonneg a) as Pa. pose proof (zlen_nonneg b) as Pb. pose proof (zlen_nonneg c) as Pc.
  destruct (mem_write_Some 0 a m) as (m1 & H1 & L1); [lia|lia|].
  destruct (mem_write_Some (zlen a) b m1) as (m2 & H2 & L2); [lia|lia|].
  destruct (mem_write_Some (zlen a + zlen b) c m2) as (m3 & H3 & L3); [lia|lia|].
  exists m1, m2, m3. split_and!; try done; [lia|]. rewrite mem_read_Some by lia. f_equal.
  rewrite !slice_add by lia. rewrite !Z.add_0_l.
  rewrite (slice_write_same _ _ _ _ H3).
  rewrite (slice_write_disj 0 (zlen a) _ _ _ _ H3), (slice_write_disj (zlen a) (zlen b) _ _ _ _ H3) by lia.
  rewrite (slice_write_same _ _ _ _ H2), (slice_write_disj 0 (zlen a) _ _ _ _ H2) by lia.
  rewrite (slice_write_same _ _ _ _ H1). by rewrite <- app_assoc.
Qed.

(** Only the effects and the contents of the buffer may differ. *)
Definition sent (d : device) (p : list Z) (d' : device) : Prop :=
  init d' = init d /\ connections_tree d' = connections_tree d /\
  effects d' = effects d ++ [TapSend p] /\ zlen (device_write_buf d') = zlen (device_write_buf d).

Lemma write_packet_sent o a b c d :
  zlen (device_write_buf d) = device_mtu o -> zlen a + zlen b + zlen c <= device_mtu o ->
  exists d', write_packet o a b c d = Some d' /\ sent d (a ++ b ++ c) d'.
Proof.
  intros Hb Hl. destruct (write_three a b c (device_write_buf d)) as (m1 & m2 & m3 & H1 & H2 & H3 & L & Hr); [lia|].
  unfold write_packet, write_buf. rewrite H1; cbn [device_write_buf]. rewrite H2; cbn [device_write_buf].
  rewrite H3; cbn [device_write_buf]. unfold send_buf; cbn [device_write_buf]. rewrite Hr. unfold BTap_Send.
  rewrite (proj2 (Z.leb_le _ _)) by (rewrite !zlen_app; lia).
  eexists. split; [done|]. by split_and!.
Qed.

Lemma dns_send_sent o iph udph data d :
  ipv4_ok iph -> bytes_ok data ->
  zlen (device_write_buf d) = device_mtu o -> 28 + zlen data <= device_mtu o -> zlen data <= 65507 ->
  exists c1 c2 d', dns_send o iph udph data d = Some d' /\
    ipv4_checksum (with_checksum iph 0) [] = Some c1 /\
    udp_checksum (with_udp_cksum udph 0) data (source_address iph) (destination_address iph) = Some c2 /\
    sent d (ipv4_bytes (with_checksum iph c1) ++ udp_bytes (with_udp_cksum udph c2) ++ data) d'.
Proof.
  intros Hi Hd Hb Hl Hl2. pose proof (ipv4_checksum_spec (with_checksum iph 0) [] ltac:(apply with_checksum_ok; [done|lia])
    ltac:(constructor) eq_refl ltac:(done)) as H1.
  pose proof (udp_checksum_spec (with_udp_cksum udph 0) data (source_address iph) (destination_address iph) Hd ltac:(lia)) as H2.
  match type of H1 with _ = Some ?x => set (c1 := x) in H1 end.
  match type of H2 with _ = Some ?x => set (c2 := x) in H2 end.
  destruct (write_packet_sent o (ipv4_bytes (with_checksum iph c1)) (udp_bytes (with_udp_cksum udph c2)) data d)
    as (d' & Hw & Hs); [done|rewrite ipv4_bytes_zlen, udp_bytes_zlen; lia|].
  exists c1, c2, d'. split_and!; try done.
  unfold dns_send. change (hton16 0) with 0. rewrite H1. cbn [with_checksum source_address destination_address].
  rewrite H2. exact Hw.
Qed.

(** ** The DNS translation *)

Record config_ok (o : config) : Prop := {
  cf_gw : forall ip p, dnsgw o = Some (ip, p) -> 0 <= ip < 4294967296 /\ 0 <= p < 65536;
  cf_ip : 0 <= netif_ipaddr o < 4294967296;
  cf_mtu : 0 <= device_mtu o
}.

Definition conn_ok (key : Z) (con : Connection) : Prop :=
  port con = key /\ 1 <= count con /\
  exists lip lport rip rport, local_addr con = BADDR_IPV4 lip lport /\ remote_addr con = BADDR_IPV4 rip rport /\
    0 <= lip < 4294967296 /\ 0 <= rip < 4294967296 /\ 0 <= rport < 65536 /\ lport = key.

Record device_ok (o : config) (d : device) : Prop := {
  dv_buf : zlen (device_write_buf d) = device_mtu o;
  dv_conns : map_Forall conn_ok (connections_tree d)
}.

Lemma sent_ok o d p d' : sent d p d' -> device_ok o d -> device_ok o d'.
Proof. intros (H1 & H2 & H3 & H4) [Hb Hc]. split; [congruence|by rewrite H2]. Qed.

Lemma dns_eval o data m d iph udph p gip gport :
  bytes_ok data -> udp4_packet data iph udph p -> dnsgw o = Some (gip, gport) ->
  process_device_dns_packet o data m d =
    (let to_dns := dest_port udph =? hton16 53 in
     let from_dns := source_port udph =? gport in
     if negb to_dns && negb from_dns then Some (false, d)
     else let* t := dns_translate o gip gport iph (with_udp_cksum udph 0) to_dns from_dns m d in
          match t with
          | None => Some (false, d)
          | Some (iph, udph, d) => let* d := dns_send o iph udph p d in Some (true, d)
          end).
Proof.
  intros Hd Hp Hg. destruct (udp4_gate _ _ _ _ Hd Hp) as [Hv Hpr]. destruct Hp as (q & hl & H1 & H2 & H3 & H4).
  unfold process_device_dns_packet. rewrite Hg, Hv. change (negb (4 =? 4)) with false. cbv iota.
  unfold sizeof_ipv4_header, IPV4_PROTOCOL_UDP. rewrite Hpr, H1, H3, H4, Z.eqb_refl. reflexivity.
Qed.

Lemma dns_eval_other o data m d :
  bytes_ok data -> (forall iph udph p, ~ udp4_packet data iph udph p) ->
  process_device_dns_packet o data m d = Some (false, d).
Proof.
  intros Hd Hn. unfold process_device_dns_packet, sizeof_ipv4_header, IPV4_PROTOCOL_UDP.
  destruct (dnsgw o) as [[gip gport]|]; [|done]. destruct (negb (ip_version data =? 4)); [done|].
  destruct (udp4_cases data Hd) as [? ? ? Hp|E|E E1|iph q hl E E1 E2|iph q hl udph p c E E1 E2 E3 E4].
  - by apply Hn in Hp.
  - by rewrite E.
  - by rewrite E, E1.
  - by rewrite E, E1, E2.
  - rewrite E, E1, E2, E3. by rewrite (proj2 (Z.eqb_neq _ _)).
Qed.

Lemma udp4_em data : bytes_ok data -> (exists iph udph p, udp4_packet data iph udph p) \/
  (forall iph udph p, ~ udp4_packet data iph udph p).
Proof.
  intros Hd. destruct (udp4_cases data Hd) as [? ? ? Hp|E|E E1|iph q hl E E1 E2|iph q hl udph p c E E1 E2 E3 E4].
  - left. by eexists _, _, _.
  - right. intros iph udph p Hp. apply udp4_gate in Hp as [_ Hp]; [congruence|done].
  - right. intros iph udph p (q & hl & H1 & _). congruence.
  - right. intros iph' udph p (q' & hl' & H1 & _ & H3 & _). simplify_eq.
  - right. intros iph' udph' p' (q' & hl' & H1 & _ & H3 & H4). simplify_eq.
Qed.

Lemma with_addrs_ok h s t :
  ipv4_ok h -> 0 <= s < 4294967296 -> 0 <= t < 4294967296 -> ipv4_ok (with_addrs h s t).
Proof. intros [] ??. by split. Qed.

Lemma insert_connection_ok o lip rip sp dp m d d' :
  0 <= lip < 4294967296 -> 0 <= rip < 4294967296 -> 0 <= dp < 65536 -> device_ok o d ->
  insert_connection (BADDR_IPV4 lip sp) (BADDR_IPV4 rip dp) sp m d = Some d' -> device_ok o d' /\ effects d' = effects d.
Proof.
  intros Hl Hr Hdp [Hb Hc]. unfold insert_connection, find_connection.
  destruct (connections_tree d !! sp) as [con|] eqn:E; [|destruct m; [|done]]; intros [= <-]; (split; [|done]).
  - destruct (Hc _ _ E) as (Hk & Hn & Hx). split; [done|]. cbn [set_tree connections_tree].
    apply map_Forall_insert_2; [|done]. rewrite Hk. repeat split; simpl; [lia|exact Hx].
  - split; [done|]. cbn [set_tree connections_tree]. apply map_Forall_insert_2; [|done].
    repeat split; simpl; [lia|]. by exists lip, sp, rip, dp.
Qed.

Lemma remove_connection_ok o con k d :
  connections_tree d !! k = Some con -> device_ok o d -> device_ok o (remove_connection con d).
Proof.
  intros E [Hb Hc]. destruct (Hc _ _ E) as (Hk & Hn & Hx). unfold remove_connection. cbn [count port].
  destruct (Z.leb_spec (count con - 1) 0); split; try done; cbn [set_tree connections_tree].
  - by apply map_Forall_delete.
  - apply map_Forall_insert_2; [|done]. repeat split; simpl; [lia|]. rewrite Hk. exact Hx.
Qed.

(** Translated headers stay well formed, and so does the table. *)
Lemma dns_translate_ok o gip gport iph udph t f m d iph' udph' d' :
  config_ok o -> dnsgw o = Some (gip, gport) -> device_ok o d -> ipv4_ok iph -> udp_ok udph ->
  dns_translate o gip gport iph udph t f m d = Some (Some (iph', udph', d')) ->
  ipv4_ok iph' /\ udp_ok udph' /\ device_ok o d' /\ effects d' = effects d.
Proof.
  intros Hc Hg Hd Hi Hu. destruct (cf_gw o Hc _ _ Hg) as [Hg1 Hg2]. pose proof (cf_ip o Hc).
  unfold dns_translate. destruct t.
  - destruct (insert_connection _ _ _ _ _) as [d1|] eqn:E; [|done]. intros [= <- <- <-].
    assert (device_ok o d1 /\ effects d1 = effects d) as [H1 H2]; [|split_and!; [by apply with_addrs_ok|by destruct Hu; split|done|done]].
    destruct Hi, Hu. eapply insert_connection_ok in E; try done. destruct Hd as [Hb Hm]. split; [done|]. simpl.
    destruct (init d); [done|apply map_Forall_empty].
  - destruct f; [|by intros [= <- <- <-]]. destruct (init d); [|done]. cbn [negb].
    destruct (find_connection (dest_port udph) d) as [con|] eqn:E; [|done]. intros [= <- <- <-].
    destruct (dv_conns o d Hd _ _ E) as (Hk & Hn & lip & lp & rip & rp & -> & -> & ? & ? & ? & ?). split_and!.
    + by apply with_addrs_ok.
    + destruct Hu. by split.
    + by eapply remove_connection_ok.
    + unfold remove_connection. by destruct (_ <=? _).
Qed.

(** A query from a port that has no entry, so that [malloc] is called. *)
Definition new_query (o : config) (data : list Z) (d : device) : Prop :=
  exists iph udph p, is_Some (dnsgw o) /\ udp4_packet data iph udph p /\ dest_port udph = hton16 53 /\
    (init d = true -> connections_tree d !! source_port udph = None).

Lemma dns_translate_null o gip gport iph udph t f m d :
  dns_translate o gip gport iph udph t f m d = None <->
  t = true /\ m = false /\ (init d = true -> connections_tree d !! source_port udph = None).
Proof.
  unfold dns_translate, insert_connection, find_connection. cbn [connections_tree]. destruct t.
  - destruct (init d); [|rewrite lookup_empty]; [destruct (connections_tree d !! source_port udph)|]; destruct m; cbn; naive_solver.
  - destruct f; [|naive_solver]. destruct (init d); cbn [negb]; [|naive_solver]. destruct (_ !! dest_port udph); naive_solver.
Qed.

(** Without memory a new query writes through a null pointer. *)
Lemma dns_malloc_null o data d : bytes_ok data -> new_query o data d -> process_device_dns_packet o data false d = None.
Proof.
  intros Hb (iph & udph & p & [[gip gport] Hg] & Hp & H53 & Hn). rewrite (dns_eval _ _ _ _ _ _ _ _ _ Hb Hp Hg). cbv zeta.
  rewrite (proj2 (Z.eqb_eq _ _) H53). cbn [negb andb]. by rewrite (proj2 (dns_translate_null o gip gport iph (with_udp_cksum udph 0) true _ false d)).
Qed.

Lemma new_query_em o data d : bytes_ok data -> new_query o data d \/ ~ new_query o data d.
Proof.
  intros Hb. unfold new_query. destruct (udp4_em data Hb) as [(iph & udph & p & Hp)|Hn]; [|right; intros (iph & udph & p & _ & Hp & _); by eapply Hn].
  assert (forall iph' udph' p', udp4_packet data iph' udph' p' -> udph' = udph) as Hu by (intros iph' udph' p' Hp'; by destruct (udp4_unique _ _ _ _ _ _ _ Hp Hp') as (_ & -> & _)).
  destruct (dnsgw o) as [g|]; [|right; intros (? & ? & ? & [? ?] & _); done].
  destruct (decide (dest_port udph = hton16 53)) as [E|E]; [|right; intros (iph' & udph' & p' & _ & Hp' & E' & _); apply Hu in Hp'; congruence].
  destruct (decide (init d = true /\ is_Some (connections_tree d !! source_port udph))) as [[Hi Hs]|Hno].
  - right. intros (iph' & udph' & p' & _ & Hp' & _ & Ht). apply Hu in Hp' as ->. rewrite Ht in Hs by done. by destruct Hs.
  - left. exists iph, udph, p. split_and!; try done. intros Hi. destruct (connections_tree d !! source_port udph); [|done]. exfalso. apply Hno. by split.
Qed.

(** Total behaviour on one packet: only that fails. *)
Lemma dns_step o data m d :
  config_ok o -> device_ok o d -> bytes_ok data -> zlen data <= device_mtu o -> ~ (m = false /\ new_query o data d) ->
  exists r d', process_device_dns_packet o data m d = Some (r, d') /\ device_ok o d' /\
    (r = false -> d' = d) /\
    (r = true -> exists out, effects d' = effects d ++ [TapSend out] /\ zlen out <= zlen data).
Proof.
  intros Hc Hd Hb Hl Hnull. destruct (udp4_em data Hb) as [(iph & udph & p & Hp)|Hn].
  2: { exists false, d. rewrite dns_eval_other by done. by split_and!. }
  destruct (dnsgw o) as [[gip gport]|] eqn:Eg.
  2: { exists false, d. unfold process_device_dns_packet. rewrite Eg. by split_and!. }
  rewrite (dns_eval _ _ _ _ _ _ _ _ _ Hb Hp Eg). destruct (udp4_facts _ _ _ _ Hb Hp) as (Hi & Hu & Hbp & Hl1 & Hl2 & _).
  cbv zeta. destruct (negb _ && negb _). { exists false, d. by split_and!. }
  destruct (dns_translate _ _ _ _ _ _ _ _ _) as [[[[iph' udph'] d1]|]|] eqn:Et.
  2: { exists false, d. by split_and!. }
  2: { apply dns_translate_null in Et as (E53%Z.eqb_eq & -> & Hn). exfalso. apply Hnull. split; [done|]. exists iph, udph, p. by split_and!. }
  assert (udp_ok (with_udp_cksum udph 0)) as Hu0 by (destruct Hu; split; simpl; lia).
  destruct (dns_translate_ok _ _ _ _ _ _ _ _ _ _ _ _ Hc Eg Hd Hi Hu0 Et) as (Hi' & Hu' & Hd1 & He1).
  destruct (dns_send_sent o iph' udph' p d1 Hi' Hbp (dv_buf _ _ Hd1) ltac:(lia) Hl2)
    as (c1 & c2 & d2 & Hs & _ & _ & Hsent). rewrite Hs.
  exists true, d2. split; [done|]. split; [by eapply sent_ok|]. split; [done|]. intros _.
  destruct Hsent as (_ & _ & He & _). eexists. split; [by rewrite He, He1|].
  rewrite !zlen_app, ipv4_bytes_zlen, udp_bytes_zlen. lia.
Qed.

(** ** ICMP rejection *)

Definition set_buf (d : device) (m : list Z) : device := mkDevice (init d) (connections_tree d) m (effects d).

Lemma write_buf_mid d a b b' c off m m' :
  m = a ++ b ++ c -> off = zlen a -> zlen b = zlen b' -> m' = a ++ b' ++ c ->
  write_buf off b' (set_buf d m) = Some (set_buf d m').
Proof. intros -> Ho Hl ->. unfold write_buf; cbn [set_buf device_write_buf]. by rewrite (mem_write_mid a b b' c). Qed.

(** Replace the next write, of [b] between [a] and [c], by its result [m']. *)
Ltac wmid a b c m' :=
  match goal with
  | |- context [write_buf ?off ?b' (set_buf ?d ?m)] =>
      rewrite (write_buf_mid d a b b' c off m m')
        by first [reflexivity | by rewrite <- ?app_assoc | rewrite ?zlen_app, ?zlen_cons, ?zlen_nil; lia]
  end.

Lemma mem_read_app3 m a b c off len :
  m = a ++ b ++ c -> off = zlen a -> len = zlen b -> mem_read off len m = Some b.
Proof. intros ->. apply mem_read_mid. Qed.

(** The bytes of the ICMP message: type, code, checksum, unused, quotation. *)
Definition icmp_unreachable (sum : Z) (quote : list Z) : list Z :=
  [3; 3; sum / 256; sum mod 256; 0; 0; 0; 0] ++ quote.

Lemma icmp_valid quote :
  bytes_ok quote -> zlen quote mod 2 = 0 -> zlen quote <= 60000 ->
  let s := inet_checksum (icmp_unreachable 0 quote) in
  0 <= s <= 65535 /\ bytes_ok (icmp_unreachable s quote) /\ inet_valid (icmp_unreachable s quote).
Proof.
  intros Hq Hm Hl. set (w := words_sum (icmp_unreachable 0 quote)).
  pose proof (words_sum_bounds _ Hq) as Hwq. pose proof (zlen_nonneg quote).
  assert (w = 771 + words_sum quote) as Hw by (unfold w, icmp_unreachable; simpl; rewrite Z.div_0_l, Z.mod_0_l by lia; lia).
  assert (inet_checksum (icmp_unreachable 0 quote) = 65535 - ones_sum w) as ->.
  { apply inet_checksum_spec.
    - unfold icmp_unreachable. apply bytes_ok_app. split; [|done].
      repeat (apply Forall_cons_2; [unfold byte_ok; vm_compute; split; congruence|]). constructor.
    - unfold icmp_unreachable. rewrite zlen_app. change (zlen [3; 3; 0 / 256; 0 mod 256; 0; 0; 0; 0]) with 8.
      replace (8 + zlen quote) with (zlen quote + 4 * 2) by lia. by rewrite Z_mod_plus_full.
    - unfold icmp_unreachable. rewrite zlen_app. change (zlen [3; 3; 0 / 256; 0 mod 256; 0; 0; 0; 0]) with 8. lia. }
  cbv zeta. pose proof (ones_sum_range w ltac:(lia)). set (s := 65535 - ones_sum w). split_and!; try lia.
  - unfold icmp_unreachable. apply bytes_ok_app. split; [|done]. unfold byte_ok, s.
    repeat (apply Forall_cons_2; [unfold byte_ok; dm|]). constructor.
  - unfold inet_valid. etransitivity; [|apply (ones_sum_complement w ltac:(lia))]. f_equal. fold s.
    unfold icmp_unreachable. simpl. rewrite Hw. assert (256 * (s / 256) + s mod 256 = s) by dm. lia.
Qed.

(** What is sent for a datagram that is rejected. *)
Definition reject_packet (orig : ipv4_header) (quote : list Z) (out : list Z) : Prop :=
  exists c, let h := with_checksum (icmp_reply_header orig (28 + zlen quote)) c in
  let icmp := icmp_unreachable (inet_checksum (icmp_unreachable 0 quote)) quote in
  out = ipv4_bytes h ++ icmp /\ ipv4_checksum (icmp_reply_header orig (28 + zlen quote)) [] = Some c.

Lemma split_len (m : list Z) a : 0 <= a <= zlen m -> exists l r, m = l ++ r /\ zlen l = a.
Proof.
  intros Ha. exists (take (Z.to_nat a) m), (drop (Z.to_nat a) m). split; [by rewrite take_drop|]. zl.
Qed.

Lemma zlen8 (l : list Z) : zlen l = 8 -> exists a b c d e f g h, l = [a; b; c; d; e; f; g; h].
Proof.
  intros H. do 8 (destruct l as [|? l]; [rewrite ?zlen_cons, zlen_nil in H; lia|rewrite zlen_cons in H]).
  assert (l = []) as -> by (apply zlen_zero_inv; lia). by eexists _, _, _, _, _, _, _, _.
Qed.

Lemma icmp_reply_ok orig n : ipv4_ok orig -> ipv4_ok (icmp_reply_header orig n).
Proof. intros []. split; simpl; try done; try apply hton16_range; unfold byte_ok; vm_compute; split; congruence. Qed.

(** The writes of [reject_device_udp_packet] into the buffer. *)
Lemma reject_writes o orig quote d :
  ipv4_ok orig -> bytes_ok quote -> zlen quote mod 2 = 0 -> zlen quote <= 60000 ->
  zlen (device_write_buf d) = device_mtu o -> 28 + zlen quote <= device_mtu o ->
  exists out d', reject_packet orig quote out /\ sent d out d' /\
    (let* d := write_buf 20 (replicate 8 0) d in
     let* d := write_buf 20 [3] d in
     let* d := write_buf 21 [3] d in
     let* d := write_buf 28 quote d in
     let* m := mem_read 20 (8 + zlen quote) (device_write_buf d) in
     let icmp_sum := inet_checksum m in
     let* d := write_buf 22 [u8 (Z.shiftr icmp_sum 8)] d in
     let* d := write_buf 23 [u8 (Z.land icmp_sum 255)] d in
     let* c := ipv4_checksum (icmp_reply_header orig (28 + zlen quote)) [] in
     let* d := write_buf 0 (ipv4_bytes (with_checksum (icmp_reply_header orig (28 + zlen quote)) c)) d in
     let* d := send_buf o (28 + zlen quote) d in Some (true, d)) = Some (true, d').
Proof.
  intros Ho Hq Hm Hql Hb Hl. pose proof (zlen_nonneg quote).
  destruct (split_len (device_write_buf d) 20) as (hd & r & E & Lh); [lia|].
  assert (zlen r = device_mtu o - 20) as Lr by (rewrite E, zlen_app in Hb; lia).
  destruct (split_len r 8) as (ic & r2 & -> & Li); [lia|]. rewrite zlen_app in Lr.
  destruct (split_len r2 (zlen quote)) as (qq & tl & -> & Lq); [lia|].
  destruct (zlen8 ic Li) as (x0 & x1 & x2 & x3 & x4 & x5 & x6 & x7 & ->).
  pose proof (ipv4_checksum_spec (icmp_reply_header orig (28 + zlen quote)) [] (icmp_reply_ok _ _ Ho)
    ltac:(constructor) eq_refl ltac:(done)) as Hck.
  match type of Hck with _ = Some ?x => set (c := x) in Hck end.
  destruct (icmp_valid quote Hq Hm Hql) as (Hs & _ & _).
  set (s := inet_checksum (icmp_unreachable 0 quote)) in *.
  assert (u8 (Z.shiftr s 8) = s / 256) as E1.
  { unfold u8. rewrite Z.shiftr_div_pow2 by lia. change (2 ^ 8) with 256. dm. }
  assert (u8 (Z.land s 255) = s mod 256) as E2.
  { unfold u8. change 255 with (Z.ones 8). rewrite Z.land_ones by lia. change (2 ^ 8) with 256. dm. }
  set (h := with_checksum (icmp_reply_header orig (28 + zlen quote)) c).
  set (out := ipv4_bytes h ++ icmp_unreachable s quote).
  exists out, (emit (set_buf d (out ++ tl)) (TapSend out)). split; [by exists c|]. split.
  { split_and!; try done. cbn [set_buf emit device_write_buf]. unfold out, icmp_unreachable.
    rewrite E, !zlen_app, ipv4_bytes_zlen. change (zlen [3; 3; s / 256; s mod 256; 0; 0; 0; 0]) with 8.
    rewrite Lh, Lq. change (zlen [x0; x1; x2; x3; x4; x5; x6; x7]) with 8. lia. }
  replace d with (set_buf d (hd ++ [x0; x1; x2; x3; x4; x5; x6; x7] ++ qq ++ tl))
    by (destruct d; simpl in *; by rewrite E).
  wmid hd [x0; x1; x2; x3; x4; x5; x6; x7] (qq ++ tl) (hd ++ [0; 0; 0; 0; 0; 0; 0; 0] ++ qq ++ tl).
  wmid hd [0] ([0; 0; 0; 0; 0; 0; 0] ++ qq ++ tl) (hd ++ [3; 0; 0; 0; 0; 0; 0; 0] ++ qq ++ tl).
  wmid (hd ++ [3]) [0] ([0; 0; 0; 0; 0; 0] ++ qq ++ tl) (hd ++ [3; 3; 0; 0; 0; 0; 0; 0] ++ qq ++ tl).
  wmid (hd ++ [3; 3; 0; 0; 0; 0; 0; 0]) qq tl (hd ++ [3; 3; 0; 0; 0; 0; 0; 0] ++ quote ++ tl).
  cbn [set_buf device_write_buf].
  rewrite (mem_read_app3 _ hd (icmp_unreachable 0 quote) tl)
    by first [done | lia | unfold icmp_unreachable; rewrite zlen_app; reflexivity].
  fold s. cbv zeta. rewrite E1, E2.
  wmid (hd ++ [3; 3]) [0] ([0; 0; 0; 0; 0] ++ quote ++ tl) (hd ++ [3; 3; s / 256; 0; 0; 0; 0; 0] ++ quote ++ tl).
  wmid (hd ++ [3; 3; s / 256]) [0] ([0; 0; 0; 0] ++ quote ++ tl)
    (hd ++ [3; 3; s / 256; s mod 256; 0; 0; 0; 0] ++ quote ++ tl).
  rewrite Hck. fold h.
  wmid (@nil Z) hd ([3; 3; s / 256; s mod 256; 0; 0; 0; 0] ++ quote ++ tl) (out ++ tl).
  unfold send_buf. cbn [set_buf device_write_buf].
  assert (zlen out = 28 + zlen quote) as Lo.
  { unfold out, icmp_unreachable. rewrite !zlen_app, ipv4_bytes_zlen.
    change (zlen [3; 3; s / 256; s mod 256; 0; 0; 0; 0]) with 8. lia. }
  rewrite (mem_read_app3 _ [] out tl) by done. unfold BTap_Send. by rewrite (proj2 (Z.leb_le _ _)) by lia.
Qed.

Lemma ihl_range h : 0 <= IPV4_GET_IHL h <= 15.
Proof.
  unfold IPV4_GET_IHL. rewrite Z.shiftr_0_r. rewrite (Z.land_ones _ 4) by lia.
  change (2 ^ 4) with 16. dm.
Qed.

(** An ICMP error is due for [data] and [quote] is what it quotes. *)
Definition rejectable (data : list Z) (orig : ipv4_header) (quote : list Z) : Prop :=
  exists payload hl, ipv4_check data = Some (Some (orig, payload, hl)) /\ protocol orig = 17 /\
    8 <= zlen payload /\ quote = slice 0 (hl + 8) data.

Lemma rejectable_quote data orig quote :
  bytes_ok data -> rejectable data orig quote ->
  ipv4_ok orig /\ bytes_ok quote /\ zlen quote = IPV4_GET_IHL orig * 4 + 8 /\ zlen quote mod 2 = 0 /\
  28 <= zlen quote <= 68 /\ zlen quote <= zlen data.
Proof.
  intros Hd (payload & hl & H1 & H2 & H3 & ->).
  destruct (ipv4_check_facts _ _ _ _ Hd H1) as (-> & Hok & ? & ? & ? & ? & ? & -> & ? & ? & Hq & _).
  pose proof (ihl_range (ipv4_of data)). rewrite zlen_slice by lia. split_and!; try done; try lia.
  - by apply bytes_ok_slice.
  - replace (IPV4_GET_IHL (ipv4_of data) * 4 + 8) with ((IPV4_GET_IHL (ipv4_of data) * 2 + 4) * 2) by lia.
    apply Z_mod_mult.
Qed.

Lemma reject_eval o data d orig quote :
  bytes_ok data -> device_ok o d -> rejectable data orig quote ->
  (28 + zlen quote > device_mtu o /\ reject_device_udp_packet o data d = Some (true, d)) \/
  (28 + zlen quote <= device_mtu o /\ exists out d', reject_packet orig quote out /\ sent d out d' /\
     reject_device_udp_packet o data d = Some (true, d')).
Proof.
  intros Hd Hok Hr. destruct (rejectable_quote _ _ _ Hd Hr) as (Ho & Hq & Lq & Mq & Rq & Dq).
  destruct Hr as (payload & hl & H1 & H2 & H3 & Hqe).
  destruct (ipv4_check_facts _ _ _ _ Hd H1) as (Hi & _ & ? & Hv & _ & Hp & ? & Hhl & _).
  unfold reject_device_udp_packet, sizeof_ipv4_header, sizeof_udp_header, IPV4_PROTOCOL_UDP.
  rewrite (proj2 (Z.ltb_ge (zlen data) 20)) by lia. rewrite Hv, Hp, H2. cbn [orb negb Z.eqb Pos.eqb]. rewrite H1.
  rewrite (proj2 (Z.ltb_ge (zlen payload) 8)) by lia.
  assert (hl + 8 = zlen quote) as Hh by lia. rewrite Hh. replace (20 + (8 + zlen quote)) with (28 + zlen quote) by lia.
  destruct (Z.gtb_spec (28 + zlen quote) (device_mtu o)); [left; split; [lia|done]|right; split; [lia|]].
  destruct (reject_writes o orig quote d Ho Hq Mq ltac:(lia) (dv_buf _ _ Hok) ltac:(lia)) as (out & d' & Hrp & Hs & Hw).
  exists out, d'. split_and!; try done. rewrite <- Hw.
  assert (slice 0 (zlen quote) data = quote) as Hsl by (rewrite <- Hh; by symmetry).
  rewrite (mem_read_Some 0 (zlen quote) data) by lia. rewrite Hsl. reflexivity.
Qed.

Lemma reject_eval_other o data d :
  bytes_ok data -> (forall orig quote, ~ rejectable data orig quote) ->
  reject_device_udp_packet o data d = Some (false, d).
Proof.
  intros Hd Hn. unfold reject_device_udp_packet, sizeof_ipv4_header, sizeof_udp_header, IPV4_PROTOCOL_UDP.
  destruct ((zlen data <? 20) || _ || _) eqn:E0; [done|].
  destruct (ipv4_check_sound data Hd) as (r & Hr & _). rewrite Hr. destruct r as [[[orig payload] hl]|]; [|done].
  destruct (ipv4_check_facts _ _ _ _ Hd Hr) as (_ & _ & _ & _ & _ & Hp & _).
  destruct (Z.ltb_spec (zlen payload) 8); [done|]. exfalso. eapply Hn. exists payload, hl.
  split; [done|]. split; [|done]. apply orb_false_iff in E0 as [_ E0].
  apply negb_false_iff, Z.eqb_eq in E0. congruence.
Qed.

Lemma rejectable_em data : bytes_ok data ->
  (exists orig quote, rejectable data orig quote) \/ (forall orig quote, ~ rejectable data orig quote).
Proof.
  intros Hd. destruct (ipv4_check_sound data Hd) as (r & Hr & _). destruct r as [[[orig payload] hl]|].
  - destruct (decide (protocol orig = 17)); [destruct (decide (8 <= zlen payload))|].
    + left. exists orig, (slice 0 (hl + 8) data), payload, hl. done.
    + right. intros o' q (p' & hl' & H1 & _ & H3 & _). simplify_eq. lia.
    + right. intros o' q (p' & hl' & H1 & H2 & _). by simplify_eq.
  - right. intros o' q (p' & hl' & H1 & _). congruence.
Qed.

(** ** UDP towards the gateway *)

Lemma udp_parse4_eval o data iph udph p :
  bytes_ok data -> udp4_packet data iph udph p ->
  udp_parse4 o data =
    Some (Some (BADDR_IPV4 (source_address iph) (source_port udph),
                BADDR_IPV4 (destination_address iph) (dest_port udph),
                udpgw_transparent_dns o && (destination_address iph =? netif_ipaddr o) && (dest_port udph =? hton16 53),
                p)).
Proof.
  intros Hd Hp. destruct (udp4_gate _ _ _ _ Hd Hp) as [_ Hpr]. destruct Hp as (q & hl & H1 & H2 & H3 & H4).
  unfold udp_parse4, sizeof_ipv4_header, IPV4_PROTOCOL_UDP. by rewrite Hpr, H1, H3, H4, Z.eqb_refl.
Qed.

Lemma udp_parse4_other o data :
  bytes_ok data -> (forall iph udph p, ~ udp4_packet data iph udph p) -> udp_parse4 o data = Some None.
Proof.
  intros Hd Hn. unfold udp_parse4, sizeof_ipv4_header, IPV4_PROTOCOL_UDP.
  destruct (udp4_cases data Hd) as [? ? ? Hp|E|E E1|iph q hl E E1 E2|iph q hl udph p c E E1 E2 E3 E4].
  - by apply Hn in Hp.
  - by rewrite E.
  - by rewrite E, E1.
  - by rewrite E, E1, E2.
  - rewrite E, E1, E2, E3. by rewrite (proj2 (Z.eqb_neq _ _)).
Qed.

Lemma ipv6_check_facts data iph q :
  bytes_ok data -> ipv6_check data = Some (iph, q) ->
  iph = ipv6_of data /\ 40 <= zlen data /\ ip_version data = 6 /\ ld8 data 6 = next_header iph /\
  zlen q = ntoh16 (payload_length iph) /\ 40 + zlen q <= zlen data /\ bytes_ok q /\
  bytes_ok (source_address6 iph) /\ bytes_ok (destination_address6 iph) /\
  zlen (source_address6 iph) = 16 /\ zlen (destination_address6 iph) = 16.
Proof.
  intros Hd. unfold ipv6_check, sizeof_ipv6_header. destruct (Z.ltb_spec (zlen data) 40); [done|].
  destruct (negb (Z.shiftr (version4_tc4 (ipv6_of data)) 4 =? 6)) eqn:Ev; [done|].
  destruct (Z.gtb_spec (ntoh16 (payload_length (ipv6_of data))) (zlen data - 40)); [done|]. intros Heq.
  assert (iph = ipv6_of data /\ q = slice 40 (ntoh16 (payload_length (ipv6_of data))) data) as [-> ->]
    by (split; congruence).
  assert (0 <= ntoh16 (payload_length (ipv6_of data)) < 65536) by apply hton16_range.
  assert (zlen (slice 40 (ntoh16 (payload_length (ipv6_of data))) data) = ntoh16 (payload_length (ipv6_of data)))
    as Hz by (apply zlen_slice; lia).
  apply negb_false_iff, Z.eqb_eq in Ev. split_and!; try done; try lia; try by apply bytes_ok_slice.
  - unfold ip_version. rewrite Z.gtb_ltb, (proj2 (Z.ltb_lt _ _)) by lia. exact Ev.
  - apply zlen_slice; lia.
  - apply zlen_slice; lia.
Qed.

Lemma udp_parse6_eval o data iph udph p :
  bytes_ok data -> netif_ip6addr o = true -> udp6_packet data iph udph p ->
  udp_parse6 o data =
    Some (Some (BADDR_IPV6 (source_address6 iph) (source_port udph),
                BADDR_IPV6 (destination_address6 iph) (dest_port udph), false, p)).
Proof.
  intros Hd H6 (q & H1 & H2 & H3 & H4). destruct (ipv6_check_facts _ _ _ Hd H1) as (_ & Hl & _ & Hn & _).
  unfold udp_parse6, sizeof_ipv6_header. rewrite H6, Hn, H2, Z.eqb_refl. rewrite (proj2 (Z.ltb_ge _ _)) by lia.
  cbn [negb orb]. by rewrite H1, H3, H4, Z.eqb_refl.
Qed.

(** Whatever the packet, the IPv6 branch finishes, and what it yields is a packet. *)
Lemma udp_parse6_result o data :
  bytes_ok data ->
  exists r, udp_parse6 o data = Some r /\
    forall l rm b p, r = Some (l, rm, b, p) ->
      netif_ip6addr o = true /\ b = false /\ exists iph udph, udp6_packet data iph udph p /\
        l = BADDR_IPV6 (source_address6 iph) (source_port udph) /\
        rm = BADDR_IPV6 (destination_address6 iph) (dest_port udph).
Proof.
  intros Hd. unfold udp_parse6, sizeof_ipv6_header. destruct (netif_ip6addr o); [|by eexists]. cbn [negb].
  destruct ((zlen data <? 40) || negb (ld8 data 6 =? IPV6_NEXT_UDP)) eqn:E; [by eexists|].
  destruct (ipv6_check data) as [[iph q]|] eqn:E1; [|by eexists].
  destruct (udp_check q) as [[udph p]|] eqn:E2; [|by eexists].
  destruct (ipv6_check_facts _ _ _ Hd E1) as (Hi & ? & ? & Hn & ? & ? & Hq & B1 & B2 & L1 & L2).
  destruct (udp_check_sound q udph p Hq E2) as (Hu & ? & Lp & ? & Hpe).
  assert (0 <= ntoh16 (length_ udph) < 65536) by apply hton16_range.
  assert (bytes_ok p) as Hp by (rewrite Hpe; by apply bytes_ok_slice).
  rewrite udp_ip6_checksum_spec by (done || lia).
  match goal with |- context [udp_cksum udph =? ?c] => destruct (Z.eqb_spec (udp_cksum udph) c) as [Hc|Hc] end;
    [|by eexists].
  eexists. split; [done|]. intros l rm b p' [= <- <- <- <-]. split_and!; try done. exists iph, udph.
  split; [|done]. exists q. split; [done|]. split; [|split; [done|]].
  - apply orb_false_iff in E as [_ E]. apply negb_false_iff, Z.eqb_eq in E. congruence.
  - rewrite udp_ip6_checksum_spec by (done || lia). by rewrite <- Hc.
Qed.

(** What the parsing of either version yields. *)
Definition udp_source (o : config) (data : list Z) (l r : BAddr) (is_dns : bool) (p : list Z) : Prop :=
  (exists iph udph, udp4_packet data iph udph p /\
     l = BADDR_IPV4 (source_address iph) (source_port udph) /\
     r = BADDR_IPV4 (destination_address iph) (dest_port udph) /\
     is_dns = udpgw_transparent_dns o && (destination_address iph =? netif_ipaddr o) && (dest_port udph =? hton16 53)) \/
  (netif_ip6addr o = true /\ is_dns = false /\ exists iph udph, udp6_packet data iph udph p /\
     l = BADDR_IPV6 (source_address6 iph) (source_port udph) /\
     r = BADDR_IPV6 (destination_address6 iph) (dest_port udph)).

Lemma udp_parse_cases o data :
  bytes_ok data ->
  let parse := if ip_version data =? 4 then udp_parse4 o data
               else if ip_version data =? 6 then udp_parse6 o data else Some None in
  (exists l r b p, parse = Some (Some (l, r, b, p)) /\ udp_source o data l r b p) \/
  (parse = Some None /\ forall l r b p, ~ udp_source o data l r b p).
Proof.
  intros Hd. cbv zeta.
  assert (forall iph udph p, udp6_packet data iph udph p -> ip_version data = 6) as H6.
  { intros iph udph p (q & H1 & _). by destruct (ipv6_check_facts _ _ _ Hd H1) as (_ & _ & ? & _). }
  destruct (udp4_em data Hd) as [(iph & udph & p & Hp)|Hn].
  { left. destruct (udp4_gate _ _ _ _ Hd Hp) as [-> _]. rewrite Z.eqb_refl.
    rewrite (udp_parse4_eval _ _ _ _ _ Hd Hp). eexists _, _, _, _. split; [done|]. left. by exists iph, udph. }
  destruct (Z.eqb_spec (ip_version data) 4) as [E4|E4].
  { right. split; [by apply udp_parse4_other|]. intros l r b p [(iph & udph & Hp & _)|(_ & _ & iph & udph & Hp & _)].
    - by apply Hn in Hp.
    - apply H6 in Hp. lia. }
  destruct (Z.eqb_spec (ip_version data) 6) as [E6|E6].
  2: { right. split; [done|]. intros l r b p [(iph & udph & Hp & _)|(_ & _ & iph & udph & Hp & _)].
    - by apply Hn in Hp.
    - by apply H6 in Hp. }
  destruct (udp_parse6_result o data Hd) as (res & Ep & Hres). rewrite Ep.
  destruct res as [[[[l r] b] p]|].
  - left. exists l, r, b, p. split; [done|]. right. by apply Hres.
  - right. split; [done|]. intros l r b p [(iph & udph & Hp & _)|(Hi & _ & iph & udph & Hp & _)].
    + by apply Hn in Hp.
    + rewrite (udp_parse6_eval _ _ _ _ _ Hd Hi Hp) in Ep. congruence.
Qed.

Lemma udp_eval o data d :
  bytes_ok data -> udpgw_remote_server_addr o = true ->
  (exists l r b p, udp_source o data l r b p /\ zlen p <= udp_mtu o /\
     process_device_udp_packet o data d = Some (true, emit d (UdpSubmit l r b p))) \/
  ((forall l r b p, udp_source o data l r b p -> udp_mtu o < zlen p) /\
     process_device_udp_packet o data d = Some (false, d)).
Proof.
  intros Hd Hu. unfold process_device_udp_packet. rewrite Hu. cbn [negb].
  destruct (udp_parse_cases o data Hd) as [(l & r & b & p & He & Hs)|[He Hn]]; cbv zeta in He; rewrite He.
  - destruct (Z.gtb_spec (zlen p) (udp_mtu o)) as [Hgt|Hle].
    + right. split; [|done]. intros l' r' b' p' Hs'.
      enough (p' = p) as -> by done. clear -Hs Hs' Hd.
      destruct Hs as [(i & u & H & _)|(_ & _ & i & u & H & _)], Hs' as [(i' & u' & H' & _)|(_ & _ & i' & u' & H' & _)].
      * by destruct (udp4_unique _ _ _ _ _ _ _ H H') as (_ & _ & ->).
      * destruct (udp4_gate _ _ _ _ Hd H) as [Hv _]. destruct H' as (q & H1 & _).
        destruct (ipv6_check_facts _ _ _ Hd H1) as (_ & _ & ? & _). lia.
      * destruct (udp4_gate _ _ _ _ Hd H') as [Hv _]. destruct H as (q & H1 & _).
        destruct (ipv6_check_facts _ _ _ Hd H1) as (_ & _ & ? & _). lia.
      * destruct H as (q & H1 & _ & H2 & _), H' as (q' & H1' & _ & H2' & _). by simplify_eq.
    + left. exists l, r, b, p. split; [done|]. split; [done|].
      unfold submit_packet. by rewrite (proj2 (Z.leb_le _ _)).
  - right. split; [|done]. intros l r b p Hs. by apply Hn in Hs.
Qed.

(** ** The handler of packets read from the device *)

Section Handler.
Context (o : config) (ip_input ip6_input : list (list Z) -> bool) (pbuf_alloc : Z -> option (list Z)).

(** lwIP: an allocated chain has the bytes asked for, and none in its first
    chunk only when none were asked for. *)
Definition pbuf_alloc_ok : Prop :=
  forall n lens, pbuf_alloc n = Some lens ->
    exists l ls, lens = l :: ls /\ Forall (fun x => 0 <= x) lens /\ foldr Z.add 0 lens = n /\ (0 < n -> 0 < l).

Lemma foldr_nonneg l : Forall (fun x => 0 <= x) l -> 0 <= foldr Z.add 0 l.
Proof. induction 1; simpl; lia. Qed.

Lemma pbuf_take_concat lens : forall data,
  Forall (fun x => 0 <= x) lens -> foldr Z.add 0 lens = zlen data -> concat (pbuf_take lens data) = data.
Proof.
  induction lens as [|n lens IH]; intros data Hf Hs; simpl in *.
  { symmetry. apply zlen_zero_inv. lia. }
  apply Forall_cons_1 in Hf as [Hn Hf]. pose proof (foldr_nonneg _ Hf).
  rewrite IH; [apply take_drop|done|zl].
Qed.

Inductive handled (data : list Z) : list effect -> Prop :=
| H_dropped : handled data []
| H_tap out : zlen out <= device_mtu o -> handled data [TapSend out]
| H_udp l r b p : udpgw_remote_server_addr o = true -> udp_source o data l r b p -> zlen p <= udp_mtu o ->
    handled data [UdpSubmit l r b p]
| H_ip4 p : concat p = data -> ip_version data = 4 ->
    handled data (IpInput p :: if ip_input p then [] else [PbufFree p])
| H_ip6 p : concat p = data -> ip_version data = 6 -> netif_ip6addr o = true ->
    handled data (Ip6Input p :: if ip6_input p then [] else [PbufFree p])
| H_free p : concat p = data -> ip_version data <> 4 -> (ip_version data = 6 -> netif_ip6addr o = false) ->
    handled data [PbufFree p].

Lemma netif_input_handled p d data :
  concat p = data -> (exists c cs, p = c :: cs /\ (0 < zlen data -> 0 < zlen c)) ->
  exists ok d', netif_input_func o ip_input ip6_input p d = Some (ok, d') /\
    let d2 := if ok : bool then d' else emit d' (PbufFree p) in
    init d2 = init d /\ connections_tree d2 = connections_tree d /\ device_write_buf d2 = device_write_buf d /\
    exists es, effects d2 = effects d ++ es /\ handled data es.
Proof.
  intros Hc (c & cs & -> & Hpos). pose proof (zlen_nonneg (concat cs)).
  assert (zlen data = zlen c + zlen (concat cs)) as Hz by (rewrite <- Hc; simpl; by rewrite zlen_app).
  assert ((if zlen c >? 0 then Z.shiftr (ld8 c 0) 4 else 0) = ip_version data) as Hv.
  { unfold ip_version. rewrite !Z.gtb_ltb. destruct (Z.ltb_spec 0 (zlen c)).
    - rewrite (proj2 (Z.ltb_lt 0 (zlen data))) by lia. rewrite <- Hc. simpl. by rewrite ld8_app_l by lia.
    - destruct (Z.ltb_spec 0 (zlen data)); lia. }
  unfold netif_input_func. cbn [head]. cbv zeta. rewrite Hv.
  destruct (Z.eqb_spec (ip_version data) 4) as [E4|E4].
  { eexists _, _. split; [done|]. cbv zeta. destruct (ip_input (c :: cs)) eqn:Ei.
    - split_and!; try done. eexists. split; [done|]. pose proof (H_ip4 data _ Hc E4) as Hh. by rewrite Ei in Hh.
    - split_and!; try done. eexists. cbn [emit effects]. rewrite <- app_assoc. split; [done|].
      pose proof (H_ip4 data _ Hc E4) as Hh. by rewrite Ei in Hh. }
  destruct (Z.eqb_spec (ip_version data) 6) as [E6|E6]; destruct (netif_ip6addr o) eqn:En; cbn [andb].
  - eexists _, _. split; [done|]. cbv zeta. destruct (ip6_input (c :: cs)) eqn:Ei.
    + split_and!; try done. eexists. split; [done|]. pose proof (H_ip6 data _ Hc E6 En) as Hh. by rewrite Ei in Hh.
    + split_and!; try done. eexists. cbn [emit effects]. rewrite <- app_assoc. split; [done|].
      pose proof (H_ip6 data _ Hc E6 En) as Hh. by rewrite Ei in Hh.
  - eexists _, _. split; [done|]. cbv zeta. split_and!; try done. eexists. split; [done|]. by apply H_free.
  - eexists _, _. split; [done|]. cbv zeta. split_and!; try done. eexists. split; [done|]. by apply H_free.
  - eexists _, _. split; [done|]. cbv zeta. split_and!; try done. eexists. split; [done|]. by apply H_free.
Qed.

(** One packet: stuck only without memory for a new query, invariants kept, one of
    the outcomes; the table is changed by the DNS translation only. *)
Lemma handler_step data m d :
  pbuf_alloc_ok -> config_ok o -> device_ok o d -> bytes_ok data -> zlen data <= device_mtu o -> ~ (m = false /\ new_query o data d) ->
  exists d', device_read_handler_send o ip_input ip6_input pbuf_alloc data m d = Some d' /\ device_ok o d' /\
    (exists es, effects d' = effects d ++ es /\ handled data es) /\
    exists r d1, process_device_dns_packet o data m d = Some (r, d1) /\
      init d' = init d1 /\ connections_tree d' = connections_tree d1 /\ (r = true -> d' = d1).
Proof.
  intros Ha Hc Hd Hb Hl Hnull. unfold device_read_handler_send.
  destruct (dns_step o data m d Hc Hd Hb Hl Hnull) as (r & d1 & Hdns & Hd1 & Hf & Ht). rewrite Hdns. destruct r.
  { exists d1. split; [done|]. split; [done|]. split; [|by exists true, d1].
    destruct (Ht eq_refl) as (out & He & Lo). eexists. split; [done|]. apply H_tap. lia. }
  rewrite (Hf eq_refl) in *. clear Hf Ht d1 Hd1.
  assert (forall d', device_ok o d' -> init d' = init d -> connections_tree d' = connections_tree d ->
    (exists es, effects d' = effects d ++ es /\ handled data es) ->
    exists d'', Some d' = Some d'' /\ device_ok o d'' /\ (exists es, effects d'' = effects d ++ es /\ handled data es) /\
      exists r d1, Some (false, d) = Some (r, d1) /\ init d'' = init d1 /\
        connections_tree d'' = connections_tree d1 /\ (r = true -> d'' = d1)) as Hfin.
  { intros d' ????. exists d'. split_and!; try done. exists false, d. by split_and!. }
  assert (effects d = effects d ++ []) as Hnil by by rewrite app_nil_r.
  assert ((exists d', process_device_udp_packet o data d = Some (true, d') /\ device_ok o d' /\ init d' = init d /\
     connections_tree d' = connections_tree d /\ exists es, effects d' = effects d ++ es /\ handled data es) \/
     process_device_udp_packet o data d = Some (false, d)) as Hudp.
  { destruct (udpgw_remote_server_addr o) eqn:Eu.
    - destruct (udp_eval o data d Hb Eu) as [(l & rm & b & p & Hs & Hp & He)|[_ He]]; [left|by right].
      eexists. split; [done|]. destruct Hd. split_and!; try done. eexists. split; [done|]. by apply H_udp.
    - unfold process_device_udp_packet. rewrite Eu. cbn [negb].
      destruct (rejectable_em data Hb) as [(orig & quote & Hr)|Hn]; [left|right; by apply reject_eval_other].
      destruct (reject_eval o data d orig quote Hb Hd Hr) as [[_ He]|(Hm & out & d' & Hrp & Hs & He)].
      + exists d. split_and!; try done. eexists. split; [done|]. constructor.
      + exists d'. split; [done|]. split; [by eapply sent_ok|]. destruct Hs as (? & ? & Hef & _). split_and!; try done.
        eexists. split; [done|]. apply H_tap. destruct Hrp as (c & -> & _).
        unfold icmp_unreachable. rewrite !zlen_app, ipv4_bytes_zlen. rewrite !zlen_cons, zlen_nil. lia. }
  destruct Hudp as [(d' & -> & Hok & Hi & Ht & Hes)| ->]; [by apply Hfin|].
  destruct (Z.gtb_spec (zlen data) UINT16_MAX).
  { apply Hfin; try done. eexists. split; [done|]. constructor. }
  destruct (pbuf_alloc (zlen data)) as [lens|] eqn:El.
  2: { apply Hfin; try done. eexists. split; [done|]. constructor. }
  destruct (Ha _ _ El) as (l & ls & -> & Hpos & Hsum & Hfirst).
  destruct (netif_input_handled (pbuf_take (l :: ls) data) d data) as (ok & d' & -> & Hi & Ht & Hbuf & Hes).
  { by apply pbuf_take_concat. }
  { eexists _, _. split; [done|]. intros Hz. specialize (Hfirst Hz). apply Forall_cons_1 in Hpos as [? Hpos].
    apply foldr_nonneg in Hpos. simpl in Hsum. zl. }
  destruct ok; apply Hfin; try done; destruct Hd; split; congruence || by rewrite Ht.
Qed.

End Handler.

(** ** Histories of DNS translation *)

Section DnsHistory.
Context (o : config) (ip_input ip6_input : list (list Z) -> bool) (pbuf_alloc : Z -> option (list Z)).
Context (gip gport : Z).
Hypothesis Hgw : dnsgw o = Some (gip, gport).

(** [x] is not an answer of the DNS gateway for [sp]. *)
Definition not_reply (sp : Z) (x : list Z) : Prop :=
  forall iph udph p, udp4_packet x iph udph p -> source_port udph = gport ->
    dest_port udph = hton16 53 \/ dest_port udph <> sp.

(** The addresses stored for a port. *)
Definition keeps (sp : Z) (l r : BAddr) (d : device) : Prop :=
  init d = true /\ exists n, 1 <= n /\ connections_tree d !! sp = Some (mkConnection l r sp n).

Lemma dns_translate_keeps iph udph t f m d iph' udph' d' sp l r :
  device_ok o d -> keeps sp l r d -> (f = true -> t = false -> dest_port udph <> sp) ->
  dns_translate o gip gport iph udph t f m d = Some (Some (iph', udph', d')) -> keeps sp l r d'.
Proof.
  intros Hd [Hi (n & Hn & Hl)] Hne. unfold dns_translate. rewrite Hi. destruct t.
  - unfold insert_connection, find_connection; simpl.
    destruct (decide (source_port udph = sp)) as [->|Hs].
    + rewrite Hl. intros [= _ _ <-]. split; [done|]. exists (n + 1). split; [lia|]. simpl. by rewrite lookup_insert_eq.
    + destruct (_ !! source_port udph) as [con|] eqn:E; [|destruct m; [|done]]; intros [= _ _ <-]; split; try done; exists n; split; try lia; simpl.
      * destruct (dv_conns _ _ Hd _ _ E) as (-> & _). by rewrite lookup_insert_ne.
      * by rewrite lookup_insert_ne.
  - destruct f; [|by intros [= _ _ <-]; split; [|exists n]]. cbn [negb]. unfold find_connection.
    destruct (_ !! dest_port udph) as [con|] eqn:E; [|done]. intros [= _ _ <-]. specialize (Hne eq_refl eq_refl).
    destruct (dv_conns _ _ Hd _ _ E) as (Hk & _). unfold remove_connection; simpl. rewrite Hk.
    destruct (count con - 1 <=? 0); split; try done; exists n; split; try lia; simpl.
    + by rewrite lookup_delete_ne.
    + by rewrite lookup_insert_ne.
Qed.

Lemma handler_keeps x d d' sp l r :
  pbuf_alloc_ok pbuf_alloc -> config_ok o -> device_ok o d -> bytes_ok x -> zlen x <= device_mtu o ->
  not_reply sp x -> keeps sp l r d ->
  device_read_handler_send o ip_input ip6_input pbuf_alloc x true d = Some d' -> keeps sp l r d'.
Proof.
  intros Ha Hc Hd Hb Hl Hnr Hk He.
  destruct (handler_step o ip_input ip6_input pbuf_alloc x true d Ha Hc Hd Hb Hl ltac:(by intros []))
    as (d2 & He2 & _ & _ & r0 & d1 & Hdns & Hi & Ht & _).
  assert (d2 = d') as -> by congruence. clear He He2.
  enough (keeps sp l r d1) as [H1 (n & H2 & H3)]. { split; [congruence|]. exists n. by rewrite Ht. }
  destruct (udp4_em x Hb) as [(iph & udph & p & Hp)|Hn].
  2: { rewrite dns_eval_other in Hdns by done. by inversion Hdns; subst. }
  rewrite (dns_eval _ _ _ _ _ _ _ _ _ Hb Hp Hgw) in Hdns. cbv zeta in Hdns.
  destruct (negb _ && negb _); [by inversion Hdns; subst|].
  destruct (dns_translate _ _ _ _ _ _ _ _ _) as [[[[iph' udph'] dt]|]|] eqn:Et; [|by inversion Hdns; subst..].
  assert (keeps sp l r dt) as [K1 K2].
  { eapply dns_translate_keeps; [done..| |exact Et]. intros Hf Htn. apply Z.eqb_eq in Hf. apply Z.eqb_neq in Htn.
    destruct (Hnr _ _ _ Hp Hf); [done|]. done. }
  destruct (udp4_facts _ _ _ _ Hb Hp) as (Hip & Hup & Hbp & Hl1 & Hl2 & _).
  assert (udp_ok (with_udp_cksum udph 0)) as Hu0 by (destruct Hup; split; simpl; lia).
  destruct (dns_translate_ok _ _ _ _ _ _ _ _ _ _ _ _ Hc Hgw Hd Hip Hu0 Et) as (Hi' & Hu' & Hd1 & He1).
  destruct (dns_send_sent o iph' udph' p dt Hi' Hbp (dv_buf _ _ Hd1) ltac:(lia) Hl2)
    as (c1 & c2 & d3 & Hs & _ & _ & (S1 & S2 & _)). rewrite Hs in Hdns. inversion Hdns; subst.
  split; [congruence|]. by rewrite S2.
Qed.

Lemma run_keeps xs : forall d sp l r,
  pbuf_alloc_ok pbuf_alloc -> config_ok o -> device_ok o d ->
  Forall (fun x => snd x = true /\ bytes_ok (fst x) /\ zlen (fst x) <= device_mtu o /\ not_reply sp (fst x)) xs -> keeps sp l r d ->
  exists d', device_run o ip_input ip6_input pbuf_alloc xs d = Some d' /\ device_ok o d' /\ keeps sp l r d'.
Proof.
  induction xs as [|x xs IH]; intros d sp l r Ha Hc Hd Hf Hk; simpl.
  { by exists d. }
  apply Forall_cons_1 in Hf as [(Hm & Hb & Hl & Hnr) Hf]. destruct x as [x m]. cbn [fst snd] in *. subst m.
  destruct (handler_step o ip_input ip6_input pbuf_alloc x true d Ha Hc Hd Hb Hl ltac:(by intros [])) as (d1 & He & Hd1 & _). rewrite He.
  apply IH; try done. by apply (handler_keeps x d d1).
Qed.

(** The packet has no options and nothing after the datagram. *)
Definition plain4 (iph : ipv4_header) (p : list Z) : Prop :=
  version4_ihl4 iph = 69 /\ total_length iph = hton16 (28 + zlen p).

(** Sending translated headers. *)
Lemma dns_send_packet iph udph p d :
  ipv4_ok iph -> udp_ok udph -> bytes_ok p -> protocol iph = 17 -> plain4 iph p ->
  length_ udph = hton16 (8 + zlen p) -> device_ok o d -> 28 + zlen p <= device_mtu o -> zlen p <= 65507 ->
  exists out iph' udph' d', dns_send o iph udph p d = Some d' /\ sent d out d' /\ udp4_packet out iph' udph' p /\
    source_address iph' = source_address iph /\ destination_address iph' = destination_address iph /\
    source_port udph' = source_port udph /\ dest_port udph' = dest_port udph.
Proof.
  intros Hi Hu Hp Hpr [Hv Ht] Hlen Hd Hl Hl2.
  destruct (dns_send_sent o iph udph p d Hi Hp (dv_buf _ _ Hd) Hl Hl2) as (c1 & c2 & d' & Hs & Hc1 & Hc2 & Hsent).
  destruct (udp4_built iph udph p Hi Hu Hp Hv Hpr Ht Hlen ltac:(lia)) as (c1' & c2' & Hc1' & Hc2' & Hout).
  assert (c1' = c1) as -> by congruence. assert (c2' = c2) as -> by congruence.
  by eexists _, _, _, d'.
Qed.

(** A query: the packet sent and what is remembered. *)
Lemma dns_query x d iph udph p l r :
  config_ok o -> device_ok o d -> bytes_ok x -> zlen x <= device_mtu o ->
  udp4_packet x iph udph p -> plain4 iph p -> dest_port udph = hton16 53 ->
  (if init d then match connections_tree d !! source_port udph with
                  | Some con => l = local_addr con /\ r = remote_addr con
                  | None => l = BADDR_IPV4 (source_address iph) (source_port udph) /\
                            r = BADDR_IPV4 (destination_address iph) (dest_port udph)
                  end
   else l = BADDR_IPV4 (source_address iph) (source_port udph) /\
        r = BADDR_IPV4 (destination_address iph) (dest_port udph)) ->
  exists out iph' udph' d', process_device_dns_packet o x true d = Some (true, d') /\ device_ok o d' /\
    effects d' = effects d ++ [TapSend out] /\ udp4_packet out iph' udph' p /\
    source_address iph' = netif_ipaddr o /\ destination_address iph' = gip /\
    source_port udph' = source_port udph /\ dest_port udph' = gport /\ keeps (source_port udph) l r d'.
Proof.
  intros Hc Hd Hb Hl Hp Hpl H53 Hlr. rewrite (dns_eval _ _ _ _ _ _ _ _ _ Hb Hp Hgw). cbv zeta.
  rewrite (proj2 (Z.eqb_eq (dest_port udph) _)) by done. cbn [negb andb].
  destruct (udp4_facts _ _ _ _ Hb Hp) as (Hip & Hup & Hbp & Hl1 & Hl2 & _ & _ & Hlen).
  assert (udp_ok (with_udp_cksum udph 0)) as Hu0 by (destruct Hup; split; simpl; lia).
  destruct (dns_translate o gip gport iph (with_udp_cksum udph 0) true (source_port udph =? gport) true d)
    as [[[[iph' udph'] dt]|]|] eqn:Et; [|unfold dns_translate in Et; by destruct (insert_connection _ _ _ _ _)|by apply dns_translate_null in Et as (_ & ? & _)].
  destruct (dns_translate_ok _ _ _ _ _ _ _ _ _ _ _ _ Hc Hgw Hd Hip Hu0 Et) as (Hi' & Hu' & Hd1 & He1).
  assert (keeps (source_port udph) l r dt) as Hk.
  { unfold dns_translate, insert_connection, find_connection in Et. simpl in Et.
    destruct (init d); simpl in *.
    - destruct (connections_tree d !! source_port udph) as [con|] eqn:E; injection Et as _ _ <-.
      + destruct (dv_conns _ _ Hd _ _ E) as (Hk & Hn & _). destruct Hlr as [-> ->]. split; [done|].
        exists (count con + 1). split; [lia|]. simpl. rewrite Hk. by rewrite lookup_insert_eq.
      + destruct Hlr as [-> ->]. split; [done|]. exists 1. split; [lia|]. simpl. by rewrite lookup_insert_eq.
    - rewrite lookup_empty in Et. injection Et as _ _ <-. destruct Hlr as [-> ->]. split; [done|]. exists 1. split; [lia|]. simpl.
      by rewrite lookup_insert_eq. }
  assert (iph' = with_addrs iph (netif_ipaddr o) gip /\ udph' = with_ports (with_udp_cksum udph 0) (source_port udph) gport)
    as [-> ->] by (unfold dns_translate in Et; destruct (insert_connection _ _ _ _ _); [|done]; by injection Et as <- <- _).
  assert (length_ udph = hton16 (8 + zlen p)) as Hlu.
  { rewrite <- Hlen. symmetry. apply hton16_ntoh16. by apply u_len. }
  assert (protocol iph = 17) as Hpr by by destruct Hp as (? & ? & _ & ? & _).
  destruct (dns_send_packet (with_addrs iph (netif_ipaddr o) gip)
    (with_ports (with_udp_cksum udph 0) (source_port udph) gport) p dt) as (out & iph' & udph' & d' & Hs & Hst & Hout & A1 & A2 & A3 & A4);
    try done; [lia|]. rewrite Hs. exists out, iph', udph', d'. pose proof Hst as (S1 & S2 & S3 & S4).
  split_and!; try done; [by eapply sent_ok|congruence|]. destruct Hk as [K1 K2]. split; [congruence|by rewrite S2].
Qed.

(** An answer: it appears to come from the stored server, to the stored client. *)
Lemma dns_reply x m d iph udph p lip lport rip rport :
  config_ok o -> device_ok o d -> bytes_ok x -> zlen x <= device_mtu o ->
  udp4_packet x iph udph p -> plain4 iph p -> source_port udph = gport -> dest_port udph <> hton16 53 ->
  keeps (dest_port udph) (BADDR_IPV4 lip lport) (BADDR_IPV4 rip rport) d ->
  exists out iph' udph' d', process_device_dns_packet o x m d = Some (true, d') /\ device_ok o d' /\
    effects d' = effects d ++ [TapSend out] /\ udp4_packet out iph' udph' p /\
    source_address iph' = rip /\ destination_address iph' = lip /\
    source_port udph' = rport /\ dest_port udph' = dest_port udph.
Proof.
  intros Hc Hd Hb Hl Hp Hpl Hsp Hdp [Ki (n & Kn & Kl)]. rewrite (dns_eval _ _ _ _ _ _ _ _ _ Hb Hp Hgw). cbv zeta.
  rewrite (proj2 (Z.eqb_neq (dest_port udph) _)) by done. rewrite (proj2 (Z.eqb_eq (source_port udph) _)) by done.
  cbn [negb andb].
  destruct (udp4_facts _ _ _ _ Hb Hp) as (Hip & Hup & Hbp & Hl1 & Hl2 & _ & _ & Hlen).
  assert (udp_ok (with_udp_cksum udph 0)) as Hu0 by (destruct Hup; split; simpl; lia).
  destruct (dns_translate o gip gport iph (with_udp_cksum udph 0) false true m d) as [[[[iph' udph'] dt]|]|] eqn:Et.
  2-3: unfold dns_translate in Et; rewrite Ki in Et; simpl in Et; unfold find_connection in Et; by rewrite Kl in Et.
  destruct (dns_translate_ok _ _ _ _ _ _ _ _ _ _ _ _ Hc Hgw Hd Hip Hu0 Et) as (Hi' & Hu' & Hd1 & He1).
  assert (iph' = with_addrs iph rip lip /\ udph' = with_ports (with_udp_cksum udph 0) rport (dest_port udph)) as [-> ->].
  { unfold dns_translate in Et. rewrite Ki in Et. simpl in Et. unfold find_connection in Et. rewrite Kl in Et.
    by injection Et as <- <- _. }
  assert (length_ udph = hton16 (8 + zlen p)) as Hlu.
  { rewrite <- Hlen. symmetry. apply hton16_ntoh16. by apply u_len. }
  assert (protocol iph = 17) as Hpr by by destruct Hp as (? & ? & _ & ? & _).
  destruct (dns_send_packet (with_addrs iph rip lip) (with_ports (with_udp_cksum udph 0) rport (dest_port udph)) p dt)
    as (out & iph' & udph' & d' & Hs & Hst & Hout & A1 & A2 & A3 & A4);
    try done; [lia|]. rewrite Hs. exists out, iph', udph', d'. pose proof Hst as (S1 & S2 & S3 & S4).
  split_and!; try done; [by eapply sent_ok|congruence].
Qed.

End DnsHistory.

(** ** UDP from the gateway *)

Inductive addrs_ok : BAddr -> BAddr -> Prop :=
| AO_4 lip lport rip rport :
    0 <= lip < 4294967296 -> 0 <= rip < 4294967296 -> 0 <= lport < 65536 -> 0 <= rport < 65536 ->
    addrs_ok (BADDR_IPV4 lip lport) (BADDR_IPV4 rip rport)
| AO_6 lip lport rip rport :
    bytes_ok lip -> bytes_ok rip -> zlen lip = 16 -> zlen rip = 16 -> 0 <= lport < 65536 -> 0 <= rport < 65536 ->
    addrs_ok (BADDR_IPV6 lip lport) (BADDR_IPV6 rip rport).

(** The packet around [data] can be sent. *)
Definition udp_fits (o : config) (local : BAddr) (data : list Z) : Prop :=
  match local with
  | BADDR_IPV4 _ _ => zlen data <= 65507 /\ 28 + zlen data <= device_mtu o
  | BADDR_IPV6 _ _ => netif_ip6addr o = true /\ zlen data <= 65527 /\ 48 + zlen data <= device_mtu o
  | BADDR_NONE => False
  end.

Lemma udp_packet4_built lip lport rip rport data :
  addrs_ok (BADDR_IPV4 lip lport) (BADDR_IPV4 rip rport) -> bytes_ok data -> zlen data <= 65507 ->
  exists i u iph udph, udp_packet4 lip lport rip rport data = Some (i, u) /\ zlen i = 20 /\ zlen u = 8 /\
    udp4_packet (i ++ u ++ data) iph udph data /\
    source_address iph = rip /\ destination_address iph = lip /\ source_port udph = rport /\ dest_port udph = lport.
Proof.
  intros Ha Hd Hl. inversion Ha; subst. pose proof (zlen_nonneg data).
  set (iph := mkIPv4 69 0 (hton16 (28 + zlen data)) 0 0 64 17 0 rip lip).
  set (udph := mkUdp rport lport (hton16 (8 + zlen data)) 0).
  destruct (udp4_built iph udph data) as (c1 & c2 & Hc1 & Hc2 & Hp); try done.
  { split; simpl; try done; try apply hton16_range; unfold byte_ok; lia. }
  { split; simpl; try done; apply hton16_range. }
  { lia. }
  unfold udp_packet4, sizeof_ipv4_header, sizeof_udp_header. change (20 + 8 + zlen data) with (28 + zlen data).
  change (ipv4_checksum _ []) with (ipv4_checksum (with_checksum iph 0) []). rewrite Hc1.
  change (udp_checksum _ data _ _) with
    (udp_checksum (with_udp_cksum udph 0) data (source_address iph) (destination_address iph)). rewrite Hc2.
  by eexists _, _, _, _.
Qed.

Lemma ipv6_bytes_zlen h :
  zlen (source_address6 h) = 16 -> zlen (destination_address6 h) = 16 -> zlen (ipv6_bytes h) = 40.
Proof. intros Hs Hd. unfold ipv6_bytes. rewrite !zlen_app, Hs, Hd. reflexivity. Qed.

Lemma ipv6_of_bytes h r :
  0 <= fl h < 65536 -> 0 <= payload_length h < 65536 ->
  zlen (source_address6 h) = 16 -> zlen (destination_address6 h) = 16 -> ipv6_of (ipv6_bytes h ++ r) = h.
Proof.
  intros Hf Hp Hs Hd. destruct h as [a b c l e f src dst].
  cbn [fl payload_length source_address6 destination_address6] in *.
  pose (hd := [a; b] ++ le16 c ++ le16 l ++ [e; f]).
  assert (ipv6_bytes (mkIPv6 a b c l e f src dst) ++ r = hd ++ src ++ dst ++ r) as ->.
  { unfold ipv6_bytes, hd; simpl. by rewrite <- !app_assoc. }
  unfold ipv6_of. f_equal; try (unfold hd, ld16, ld8, le16; simpl; dm).
  - rewrite app_assoc, slice_app_l by first [lia | rewrite zlen_app, Hs; done].
    by apply slice_app_exact.
  - rewrite !app_assoc, slice_app_l by first [lia | rewrite !zlen_app, Hs, Hd; done].
    apply slice_app_exact; [rewrite zlen_app, Hs; reflexivity|done].
Qed.

Lemma udp_packet6_built lip lport rip rport data :
  addrs_ok (BADDR_IPV6 lip lport) (BADDR_IPV6 rip rport) -> bytes_ok data -> zlen data <= 65527 ->
  exists i u iph udph, udp_packet6 lip lport rip rport data = Some (i, u) /\ zlen i = 40 /\ zlen u = 8 /\
    udp6_packet (i ++ u ++ data) iph udph data /\
    source_address6 iph = rip /\ destination_address6 iph = lip /\ source_port udph = rport /\ dest_port udph = lport.
Proof.
  intros Ha Hd Hl. inversion Ha; subst. pose proof (zlen_nonneg data).
  set (iph := mkIPv6 96 0 0 (hton16 (8 + zlen data)) 17 64 rip lip).
  set (udph := mkUdp rport lport (hton16 (8 + zlen data)) 0).
  pose proof (udp_ip6_checksum_spec udph data rip lip ltac:(done) ltac:(done) ltac:(done) ltac:(done) ltac:(done) Hl) as Hc.
  match type of Hc with _ = Some ?x => set (c := x) in Hc end.
  assert (zlen (ipv6_bytes iph) = 40) as Li by by apply ipv6_bytes_zlen.
  exists (ipv6_bytes iph), (udp_bytes (with_udp_cksum udph c)), iph, (with_udp_cksum udph c).
  split. { unfold udp_packet6, sizeof_udp_header. change (udp_ip6_checksum _ data _ _) with (udp_ip6_checksum udph data rip lip).
    by rewrite Hc. }
  split_and!; try done. exists (udp_bytes (with_udp_cksum udph c) ++ data). split_and!; try done.
  - unfold ipv6_check, sizeof_ipv6_header. rewrite ipv6_of_bytes; try done; [|apply hton16_range].
    rewrite !zlen_app, Li, udp_bytes_zlen. rewrite (proj2 (Z.ltb_ge _ _)) by lia.
    change (negb (Z.shiftr (version4_tc4 iph) 4 =? 6)) with false. cbv iota.
    change (payload_length iph) with (hton16 (8 + zlen data)). rewrite ntoh16_hton16 by lia.
    rewrite Z.gtb_ltb, (proj2 (Z.ltb_ge _ _)) by lia. do 2 f_equal.
    apply slice_app_exact; [done|]. by rewrite zlen_app, udp_bytes_zlen.
  - rewrite <- (app_nil_r data) at 1. apply udp_check_built; [|done|lia].
    split; simpl; try done; apply hton16_range.
Qed.

(** ** Output of the TCP/IP stack *)

Lemma output_chunks_spec o p : forall len d acc,
  zlen (device_write_buf d) = device_mtu o -> len = zlen acc -> slice 0 len (device_write_buf d) = acc ->
  len <= device_mtu o ->
  exists r d', output_chunks o p len d = Some (r, d') /\
    init d' = init d /\ connections_tree d' = connections_tree d /\ effects d' = effects d /\
    zlen (device_write_buf d') = device_mtu o /\
    if decide (len + zlen (concat p) <= device_mtu o)
    then r = Some (len + zlen (concat p)) /\ slice 0 (len + zlen (concat p)) (device_write_buf d') = acc ++ concat p
    else r = None.
Proof.
  induction p as [|c p IH]; intros len d acc Hb Hl Hs Hm; cbn [output_chunks concat].
  { eexists _, _. split; [done|]. rewrite zlen_nil, Z.add_0_r, app_nil_r, decide_True by lia. by split_and!. }
  pose proof (zlen_nonneg c) as N1. pose proof (zlen_nonneg acc) as N2. pose proof (zlen_nonneg (concat p)) as N3.
  rewrite zlen_app. destruct (Z.gtb_spec (zlen c) (device_mtu o - len)) as [Hgt|Hfit].
  { eexists _, _. split; [done|]. rewrite decide_False by lia. by split_and!. }
  destruct (mem_write_Some len c (device_write_buf d)) as (m & Hw & Lm); [lia|lia|].
  unfold write_buf. rewrite Hw.
  destruct (IH (len + zlen c) (mkDevice (init d) (connections_tree d) m (effects d)) (acc ++ c))
    as (r & d' & He & H1 & H2 & H3 & H4 & H5).
  - cbn [device_write_buf]. lia.
  - rewrite zlen_app. lia.
  - cbn [device_write_buf]. rewrite slice_add by lia. f_equal.
    + rewrite (slice_write_disj 0 len _ _ _ _ Hw) by lia. done.
    + apply (slice_write_same _ _ _ _ Hw).
  - lia.
  - exists r, d'. split; [exact He|]. split_and!; try done.
    rewrite <- Z.add_assoc, <- app_assoc in H5. exact H5.
Qed.

(** ** Properties *)

Section Properties.
Context (o : config) (ip_input ip6_input : list (list Z) -> bool) (pbuf_alloc : Z -> option (list Z)).

Abbreviation handler := (device_read_handler_send o ip_input ip6_input pbuf_alloc).
Abbreviation run := (device_run o ip_input ip6_input pbuf_alloc).

Lemma device_run_app xs ys : forall d, run (xs ++ ys) d = let* d := run xs d in run ys d.
Proof. induction xs as [|[x m] xs IH]; intros d; [done|]. cbn [app device_run]. destruct (handler x m d); [apply IH|done]. Qed.

(** C17. Whatever packets arrive from the device, the handler never fails an
    assertion nor leaves its write buffer; each packet has exactly one fate:
    dropped, one packet of at most the MTU sent back, one datagram submitted to
    the gateway, or its exact bytes handed to the TCP/IP stack (and freed when
    the stack refuses it). The one exception is a DNS query from a port without
    an entry when [malloc] gives no memory for it: exactly then the program fails,
    with a write through a null pointer. *)
Theorem device_packets_handled packets d :
  pbuf_alloc_ok pbuf_alloc -> config_ok o -> device_ok o d ->
  Forall (fun x => bytes_ok (fst x) /\ zlen (fst x) <= device_mtu o) packets ->
  (forall d', run packets d = Some d' -> device_ok o d' /\
     exists ess, effects d' = effects d ++ concat ess /\ Forall2 (handled o ip_input ip6_input) packets.*1 ess) /\
  (run packets d = None <->
     exists before x after d0, packets = before ++ (x, false) :: after /\ run before d = Some d0 /\ new_query o x d0).
Proof.
  intros Ha Hc Hd Hf. split.
  - revert d Hd. induction Hf as [|[x m] xs [Hb Hl] Hf IH]; intros d Hd d'; cbn [device_run fst snd fmap list_fmap] in *.
    { intros [= <-]. split; [done|]. exists []. by rewrite app_nil_r. }
    destruct (handler x m d) as [d1|] eqn:E; [|done]. cbn [mbind option_bind]. intros Hr. assert (~ (m = false /\ new_query o x d)) as Hn.
    { intros [-> Hq]. unfold device_read_handler_send in E. by rewrite dns_malloc_null in E. }
    destruct (handler_step o ip_input ip6_input pbuf_alloc x m d Ha Hc Hd Hb Hl Hn) as (d2 & E2 & Hd1 & (es & Hes & Hh) & _).
    assert (d2 = d1) as -> by congruence. destruct (IH d1 Hd1 d' Hr) as (Hd' & ess & Hef & Hall).
    split; [done|]. exists (es :: ess). split; [by rewrite Hef, Hes, <- app_assoc|by constructor].
  - split.
    + revert d Hd. induction Hf as [|[x m] xs [Hb Hl] Hf IH]; intros d Hd Hr; cbn [device_run fst snd] in *; [done|].
      assert ((m = false /\ new_query o x d) \/ ~ (m = false /\ new_query o x d)) as [[-> Hq]|Hn] by (destruct m, (new_query_em o x d Hb); naive_solver).
      { by exists [], x, xs, d. }
      destruct (handler_step o ip_input ip6_input pbuf_alloc x m d Ha Hc Hd Hb Hl Hn) as (d1 & E & Hd1 & _). rewrite E in Hr.
      destruct (IH d1 Hd1 Hr) as (before & y & after & d0 & -> & Hr0 & Hq). exists ((x, m) :: before), y, after, d0. cbn [app device_run]. by rewrite E.
    + intros (before & x & after & d0 & -> & Hr & Hq). apply Forall_app in Hf as [_ Hf]. apply Forall_cons_1 in Hf as [[Hb _] _]. rewrite device_run_app, Hr. cbn [mbind option_bind device_run].
      unfold device_read_handler_send. by rewrite dns_malloc_null.
Qed.

(** C8. DNS translation and back, while [malloc] gives memory: a query to port 53,
    from a port other than 53 that has no outstanding query, is sent on to the gateway
    with our own address; after any other packets that are no answers of the
    gateway for that port, the gateway's answer reaches the client from the address
    and port it had asked, with the payloads unchanged and both packets valid,
    as long as query and answer have no IPv4 options and nothing after the datagram. *)
Theorem dns_nat_roundtrip gip gport d q iph udph p others a m aiph audph ap :
  dnsgw o = Some (gip, gport) ->
  pbuf_alloc_ok pbuf_alloc -> config_ok o -> device_ok o d ->
  bytes_ok q -> zlen q <= device_mtu o -> udp4_packet q iph udph p -> plain4 iph p -> dest_port udph = hton16 53 ->
  (init d = true -> connections_tree d !! source_port udph = None) ->
  Forall (fun x => snd x = true /\ bytes_ok (fst x) /\ zlen (fst x) <= device_mtu o /\ not_reply gport (source_port udph) (fst x)) others ->
  bytes_ok a -> zlen a <= device_mtu o -> udp4_packet a aiph audph ap -> plain4 aiph ap ->
  source_port audph = gport -> dest_port audph = source_port udph -> source_port udph <> hton16 53 ->
  exists d1 d2 d3 qout aout iph1 udph1 iph2 udph2,
    handler q true d = Some d1 /\ run others d1 = Some d2 /\ handler a m d2 = Some d3 /\
    effects d1 = effects d ++ [TapSend qout] /\ udp4_packet qout iph1 udph1 p /\
    (source_address iph1, source_port udph1) = (netif_ipaddr o, source_port udph) /\
    (destination_address iph1, dest_port udph1) = (gip, gport) /\
    effects d3 = effects d2 ++ [TapSend aout] /\ udp4_packet aout iph2 udph2 ap /\
    (source_address iph2, source_port udph2) = (destination_address iph, dest_port udph) /\
    (destination_address iph2, dest_port udph2) = (source_address iph, source_port udph).
Proof.
  intros Hgw Ha Hc Hd Bq Lq Pq Plq H53 Hnew Hoth Ba La Pa Pla Hs Hdp Hne.
  destruct (dns_query o gip gport Hgw q d iph udph p (BADDR_IPV4 (source_address iph) (source_port udph))
      (BADDR_IPV4 (destination_address iph) (dest_port udph)) Hc Hd Bq Lq Pq Plq H53)
    as (qout & iph1 & udph1 & d1 & Hq & Hd1 & He1 & Hp1 & A1 & A2 & A3 & A4 & Hk).
  { destruct (init d); [|done]. by rewrite Hnew. }
  destruct (run_keeps o ip_input ip6_input pbuf_alloc gip gport Hgw others d1 _ _ _ Ha Hc Hd1 Hoth Hk)
    as (d2 & Hr & Hd2 & Hk2).
  rewrite <- Hdp in Hk2, Hne.
  destruct (dns_reply o gip gport Hgw a m d2 aiph audph ap _ _ _ _ Hc Hd2 Ba La Pa Pla Hs Hne Hk2)
    as (aout & iph2 & udph2 & d3 & Hq2 & Hd3 & He3 & Hp2 & B1 & B2 & B3 & B4).
  exists d1, d2, d3, qout, aout, iph1, udph1, iph2, udph2. unfold device_read_handler_send. rewrite Hq, Hq2.
  split_and!; try done; congruence.
Qed.

(** While an answer is outstanding for a port, another query from the same
    port keeps the first entry: its answer is given the address of the server
    the first query was for, whatever server the second one asked. *)
Theorem dns_same_port_first_server gip gport d con q iph udph p a aiph audph ap :
  dnsgw o = Some (gip, gport) -> config_ok o -> device_ok o d -> init d = true ->
  connections_tree d !! source_port udph = Some con ->
  bytes_ok q -> zlen q <= device_mtu o -> udp4_packet q iph udph p -> plain4 iph p -> dest_port udph = hton16 53 ->
  bytes_ok a -> zlen a <= device_mtu o -> udp4_packet a aiph audph ap -> plain4 aiph ap ->
  source_port audph = gport -> dest_port audph = source_port udph -> source_port udph <> hton16 53 ->
  exists d1 d2 aout iph2 udph2,
    process_device_dns_packet o q true d = Some (true, d1) /\ process_device_dns_packet o a true d1 = Some (true, d2) /\
    effects d2 = effects d1 ++ [TapSend aout] /\ udp4_packet aout iph2 udph2 ap /\
    BADDR_IPV4 (source_address iph2) (source_port udph2) = remote_addr con /\
    destination_address iph2 = ipv4_ip (local_addr con).
Proof.
  intros Hgw Hc Hd Hi Hcon Bq Lq Pq Plq H53 Ba La Pa Pla Hs Hdp Hne.
  destruct (dns_query o gip gport Hgw q d iph udph p (local_addr con) (remote_addr con) Hc Hd Bq Lq Pq Plq H53)
    as (qout & iph1 & udph1 & d1 & Hq & Hd1 & He1 & Hp1 & _ & _ & _ & _ & Hk).
  { by rewrite Hi, Hcon. }
  destruct (dv_conns _ _ Hd _ _ Hcon) as (_ & _ & lip & lport & rip & rport & El & Er & _). rewrite El, Er in Hk |- *.
  rewrite <- Hdp in Hk, Hne.
  destruct (dns_reply o gip gport Hgw a true d1 aiph audph ap _ _ _ _ Hc Hd1 Ba La Pa Pla Hs Hne Hk)
    as (aout & iph2 & udph2 & d3 & Hq2 & Hd3 & He3 & Hp2 & B1 & B2 & B3 & B4).
  exists d1, d3, aout, iph2, udph2. split_and!; try done. by subst.
Qed.

(** A translated DNS packet whose IPv4 header had options, or that had
    bytes after the datagram, is sent with the old header length and total
    length over fewer bytes: the packet on the wire is malformed. *)
Theorem dns_options_malformed data m d iph udph p d' out :
  config_ok o -> device_ok o d -> bytes_ok data -> zlen data <= device_mtu o ->
  udp4_packet data iph udph p -> ntoh16 (total_length iph) <> 28 + zlen p ->
  process_device_dns_packet o data m d = Some (true, d') -> effects d' = effects d ++ [TapSend out] ->
  ipv4_check out = Some None.
Proof.
  intros Hc Hd Hb Hl Hp Hne He Hef. destruct (dnsgw o) as [[gip gport]|] eqn:Hgw.
  2: { unfold process_device_dns_packet in He. by rewrite Hgw in He. }
  rewrite (dns_eval _ _ _ _ _ _ _ _ _ Hb Hp Hgw) in He. cbv zeta in He.
  destruct (negb _ && negb _); [done|].
  destruct (dns_translate _ _ _ _ _ _ _ _ _) as [[[[iph' udph'] dt]|]|] eqn:Et; [|done..].
  destruct (udp4_facts _ _ _ _ Hb Hp) as (Hip & Hup & Hbp & Hl1 & Hl2 & Hl3 & Hl4 & Hlen).
  assert (udp_ok (with_udp_cksum udph 0)) as Hu0 by (destruct Hup; split; simpl; lia).
  destruct (dns_translate_ok _ _ _ _ _ _ _ _ _ _ _ _ Hc Hgw Hd Hip Hu0 Et) as (Hi' & Hu' & Hd1 & He1).
  assert (20 <= IPV4_GET_IHL iph * 4) as Hihl.
  { destruct Hp as (q & hl & H1 & _). destruct (ipv4_check_facts _ _ _ _ Hb H1) as (_ & _ & _ & _ & _ & _ & ? & ? & _). lia. }
  assert (exists s t, iph' = with_addrs iph s t) as (s & t & ->).
  { revert Et. unfold dns_translate. destruct (dest_port _ =? _); [destruct (insert_connection _ _ _ _ _); [|done]; intros [= <- _ _]; by eexists _, _|].
    destruct (source_port _ =? _); [|intros [= <- _ _]; exists (source_address iph), (destination_address iph); by destruct iph].
    destruct (init d); [|done]. cbn [negb]. destruct (find_connection _ d); [|done]. intros [= <- _ _]. by eexists _, _. }
  destruct (dns_send_sent o (with_addrs iph s t) udph' p dt Hi' Hbp (dv_buf _ _ Hd1) ltac:(lia) Hl2)
    as (c1 & c2 & d3 & Hs & Hc1 & _ & (S1 & S2 & S3 & S4)). rewrite Hs in He. injection He as ->.
  rewrite S3, He1 in Hef. apply app_inv_head in Hef. injection Hef as <-.
  rewrite ipv4_checksum_spec in Hc1; [|apply with_checksum_ok; [done|lia]|constructor|done|done].
  apply (inj Some) in Hc1. assert (0 <= c1 < 65536) by (rewrite <- Hc1; apply hton16_range).
  set (h := with_checksum (with_addrs iph s t) c1). assert (ipv4_ok h) as Hh by by apply with_checksum_ok.
  set (out := ipv4_bytes h ++ udp_bytes (with_udp_cksum udph' c2) ++ p).
  assert (zlen out = 28 + zlen p) as Lo by (unfold out; rewrite !zlen_app, ipv4_bytes_zlen, udp_bytes_zlen; lia).
  assert (bytes_ok out) as Bo.
  { unfold out. apply bytes_ok_app. split; [by apply ipv4_bytes_ok|]. apply bytes_ok_app. split; [apply udp_bytes_ok|done]. }
  destruct (ipv4_check_sound out Bo) as (r & Hr & Hsnd). destruct r as [[[h' q'] hl']|]; [|done]. exfalso.
  destruct (Hsnd _ _ _ eq_refl) as (-> & _ & _ & _ & _ & Htl & _).
  unfold out in Htl. rewrite ipv4_of_bytes in Htl by done. fold out in Htl. rewrite Lo in Htl.
  change (total_length h) with (total_length iph) in Htl. lia.
Qed.

(** UDP from the device: with a gateway configured, a packet is submitted
    exactly when it is a valid UDP datagram (over IPv6 only with IPv6 enabled)
    of at most [udp_mtu] bytes, once, with its addresses, its payload and the
    DNS mark; otherwise nothing is changed. *)
Theorem udp_submitted data d :
  udpgw_remote_server_addr o = true -> bytes_ok data ->
  (exists l r b p, udp_source o data l r b p /\ zlen p <= udp_mtu o /\
     process_device_udp_packet o data d = Some (true, emit d (UdpSubmit l r b p))) \/
  ((forall l r b p, udp_source o data l r b p -> udp_mtu o < zlen p) /\
     process_device_udp_packet o data d = Some (false, d)).
Proof. intros Hu Hb. by apply udp_eval. Qed.

(** Without a gateway a UDP packet is answered, if the answer fits the
    MTU, by one ICMP port unreachable: an IPv4 packet our own checks accept,
    from the destination to the source of the original, whose message has a
    valid checksum and quotes the original header and 8 bytes (RFC 792). *)
Theorem udp_rejected_with_icmp data d orig quote :
  udpgw_remote_server_addr o = false -> bytes_ok data -> device_ok o d -> rejectable data orig quote ->
  28 + zlen quote <= device_mtu o ->
  exists out d' h icmp, process_device_udp_packet o data d = Some (true, d') /\ sent d out d' /\
    ipv4_check out = Some (Some (h, icmp, 20)) /\ protocol h = 1 /\
    source_address h = destination_address orig /\ destination_address h = source_address orig /\
    inet_valid icmp /\ slice 0 2 icmp = [3; 3] /\ slice 8 (zlen icmp - 8) icmp = quote.
Proof.
  intros Hu Hb Hd Hr Hm. unfold process_device_udp_packet. rewrite Hu. cbn [negb].
  destruct (rejectable_quote _ _ _ Hb Hr) as (Ho & Hq & Lq & Mq & Rq & Dq).
  destruct (reject_eval o data d orig quote Hb Hd Hr) as [[? _]|(_ & out & d' & (c & -> & Hc) & Hs & He)]; [lia|].
  destruct (icmp_valid quote Hq Mq ltac:(lia)) as (Hsum & Bi & Vi). cbv zeta in Hsum, Bi, Vi.
  set (s := inet_checksum (icmp_unreachable 0 quote)) in *. set (icmp := icmp_unreachable s quote) in *.
  assert (zlen icmp = 8 + zlen quote) as Li by (unfold icmp, icmp_unreachable; rewrite zlen_app; reflexivity).
  eexists _, d', _, icmp. split; [done|]. split; [done|].
  pose proof Hc as Hc'. rewrite ipv4_checksum_spec in Hc'; [|by apply icmp_reply_ok|constructor|done|done].
  apply (inj Some) in Hc'. assert (0 <= c < 65536) by (rewrite <- Hc'; apply hton16_range).
  split. { rewrite <- (app_nil_r icmp) at 1. apply (ipv4_check_built _ _ [] c); try done.
    - apply with_checksum_ok; [by apply icmp_reply_ok|done].
    - cbn [with_checksum icmp_reply_header total_length]. f_equal. lia.
    - lia. }
  split_and!; try done. rewrite Li. replace (8 + zlen quote - 8) with (zlen quote) by lia.
  unfold icmp, icmp_unreachable. by apply slice_app_exact.
Qed.

(** A datagram from the gateway is sent to the device exactly when the
    packet fits, as a packet that the parsing of the other direction reads back
    as that datagram with the addresses exchanged. *)
Theorem udp_received_delivered local remote data d :
  udpgw_remote_server_addr o = true -> device_ok o d -> addrs_ok local remote -> bytes_ok data ->
  exists d', udpgw_client_handler_received o local remote data d = Some d' /\
    ((udp_fits o local data /\ exists out b, sent d out d' /\ udp_source o out remote local b data) \/
     (~ udp_fits o local data /\ d' = d)).
Proof.
  intros Hu Hd Ha Hb. unfold udpgw_client_handler_received, sizeof_ipv4_header, sizeof_ipv6_header, sizeof_udp_header.
  rewrite Hu. change (UINT16_MAX - (20 + 8)) with 65507. change (UINT16_MAX - 8) with 65527.
  pose proof (zlen_nonneg data). destruct Ha as [lip lport rip rport ???? | lip lport rip rport].
  - destruct ((zlen data >? 65507) || (zlen data >? device_mtu o - (20 + 8))) eqn:E.
    { exists d. split; [done|]. right. split; [|done]. unfold udp_fits. lia. }
    destruct (udp_packet4_built lip lport rip rport data) as (i & u & iph & udph & Hp & Li & Lu & Hpk & A1 & A2 & A3 & A4);
      [by constructor|done|lia|]. rewrite Hp.
    destruct (write_packet_sent o i u data d (dv_buf _ _ Hd)) as (d' & Hw & Hs); [lia|].
    exists d'. split; [done|]. left. split; [unfold udp_fits; lia|]. eexists _, _. split; [exact Hs|]. left.
    exists iph, udph. by subst.
  - destruct (netif_ip6addr o) eqn:E6; cbn [negb].
    2: { exists d. split; [done|]. right. split; [|done]. unfold udp_fits. rewrite E6. intros [? _]. done. }
    destruct ((zlen data >? 65527) || (zlen data >? device_mtu o - (40 + 8))) eqn:E.
    { exists d. split; [done|]. right. split; [|done]. unfold udp_fits. lia. }
    destruct (udp_packet6_built lip lport rip rport data) as (i & u & iph & udph & Hp & Li & Lu & Hpk & A1 & A2 & A3 & A4);
      [by constructor|done|lia|]. rewrite Hp.
    destruct (write_packet_sent o i u data d (dv_buf _ _ Hd)) as (d' & Hw & Hs); [lia|].
    exists d'. split; [done|]. left. split; [split; [done|lia]|]. eexists _, _. split; [exact Hs|]. right.
    split_and!; try done. exists iph, udph. by subst.
Qed.

(** A packet of the TCP/IP stack, however it is chained, is sent to the
    device as the concatenation of its chunks when that is at most the MTU and
    the program is not quitting, and is dropped otherwise. *)
Theorem netif_output_concat quitting p d :
  device_ok o d -> p <> [] ->
  exists d', common_netif_output o quitting p d = Some d' /\ device_ok o d' /\
    if bool_decide (quitting = false /\ zlen (concat p) <= device_mtu o) then sent d (concat p) d'
    else effects d' = effects d.
Proof.
  intros Hd Hp. unfold common_netif_output. destruct quitting.
  { exists d. by rewrite bool_decide_false by (intros [? _]; done). }
  pose proof (dv_buf _ _ Hd) as Hb. pose proof (zlen_nonneg (device_write_buf d)).
  destruct p as [|c [|c' p]]; [done| |].
  - simpl. rewrite app_nil_r. destruct (Z.gtb_spec (zlen c) (device_mtu o)).
    + exists d. by rewrite bool_decide_false by lia.
    + unfold BTap_Send. rewrite (proj2 (Z.leb_le _ _)) by lia. eexists. split; [done|].
      rewrite bool_decide_true by lia. split; [by destruct Hd|]. by split_and!.
  - set (q := c :: c' :: p).
    destruct (output_chunks_spec o q 0 d []) as (r & d' & He & H1 & H2 & H3 & H4 & H5); [done|done|done|lia|].
    rewrite He. rewrite Z.add_0_l in H5. assert (device_ok o d') as Hd' by (destruct Hd; split; [done|by rewrite H2]).
    destruct (decide (zlen (concat q) <= device_mtu o)) as [Hle|Hgt].
    + destruct H5 as [-> H5]. unfold send_buf. rewrite mem_read_Some by (pose proof (zlen_nonneg (concat q)); lia).
      rewrite H5, app_nil_l. unfold BTap_Send. rewrite (proj2 (Z.leb_le _ _)) by lia. eexists. split; [done|].
      rewrite bool_decide_true by lia. split; [by destruct Hd'|]. split_and!; try done; cbn [emit effects device_write_buf]; congruence.
    + subst r. exists d'. rewrite bool_decide_false by lia. done.
Qed.

End Properties.

(** ** Witnesses *)

Definition ex_config (gw : bool) : config :=
  mkConfig (Some (hton32 167772162, hton16 8153)) gw true true (hton32 167772161) 172 200.
Definition ex_device (o : config) : device := mkDevice false ∅ (replicate (Z.to_nat (device_mtu o)) 0) [].
Definition ex_alloc (n : Z) : option (list Z) := Some [n].

Definition ex_packet (src sport dst dport : Z) (data : list Z) : list Z :=
  match udp_packet4 dst dport src sport data with Some (i, u) => i ++ u ++ data | None => [] end.

(** A query to 8.8.8.8, one to 1.1.1.1, and the gateway's answer. *)
Definition ex_query : list Z := ex_packet (hton32 167772170) (hton16 4000) (hton32 134744072) (hton16 53) [1; 2; 3].
Definition ex_query2 : list Z := ex_packet (hton32 167772170) (hton16 4000) (hton32 16843009) (hton16 53) [4].
Definition ex_answer : list Z := ex_packet (hton32 167772162) (hton16 8153) (hton32 167772161) (hton16 4000) [9; 8].
(** A query with one word of IPv4 options. *)
Definition ex_options : list Z :=
  let h := mkIPv4 70 0 (hton16 33) 0 0 64 17 0 (hton32 167772170) (hton32 16843009) in
  match ipv4_checksum h [1; 1; 1; 1] with
  | Some c => ipv4_bytes (with_checksum h c) ++ [1; 1; 1; 1] ++ drop 20 ex_query2
  | None => []
  end.

(** The chain of one chunk, for lengths a packet can have. *)
Definition ex_alloc_nonneg (n : Z) : option (list Z) := if 0 <=? n then ex_alloc n else None.

Lemma ex_alloc_ok : pbuf_alloc_ok ex_alloc_nonneg.
Proof.
  intros n lens. unfold ex_alloc_nonneg, ex_alloc. destruct (Z.leb_spec 0 n); [|done]. intros [= <-].
  exists n, []. split_and!; try done; [by constructor|simpl; lia].
Qed.

Ltac bytes := repeat (apply Forall_cons_2; [unfold byte_ok; lia|]); apply Forall_nil_2.
Ltac bytes_vm := match goal with |- bytes_ok ?l => let v := eval vm_compute in l in change (bytes_ok v); bytes end.

Lemma ex_config_ok gw : config_ok (ex_config gw).
Proof. split; [intros ip p [= <- <-]|..]; vm_compute; repeat split; congruence. Qed.

Lemma ex_device_ok gw : device_ok (ex_config gw) (ex_device (ex_config gw)).
Proof. split; [by vm_compute|apply map_Forall_empty]. Qed.

Lemma ex_packet_is x :
  x = ex_query \/ x = ex_query2 \/ x = ex_answer ->
  udp4_packet x (ipv4_of x) (udp_of (drop 20 x)) (drop 28 x) /\ plain4 (ipv4_of x) (drop 28 x) /\
  bytes_ok x /\ zlen x <= 200.
Proof.
  intros Hx. split; [exists (drop 20 x), 20|]; destruct Hx as [->|[->| ->]].
  1-3: split_and!; vm_compute; reflexivity.
  all: split; [split; vm_compute; reflexivity|]; split; [bytes_vm|vm_compute; congruence].
Qed.

Lemma device_packets_handled_witness :
  (exists d' ess, device_run (ex_config true) (fun _ => true) (fun _ => true) ex_alloc_nonneg [(ex_query, true); (ex_answer, false); ([96], false)]
      (ex_device (ex_config true)) = Some d' /\ effects d' = concat ess /\
    Forall2 (handled (ex_config true) (fun _ => true) (fun _ => true)) [ex_query; ex_answer; [96]] ess) /\
  exists before x after d0, [([96], false); (ex_query, false); (ex_answer, true)] = before ++ (x, false) :: after /\
    device_run (ex_config true) (fun _ => true) (fun _ => true) ex_alloc_nonneg before (ex_device (ex_config true)) = Some d0 /\ new_query (ex_config true) x d0.
Proof.
  assert (forall m1 m2 m3, Forall (fun x : list Z * bool => bytes_ok (fst x) /\ zlen (fst x) <= 200) [(ex_query, m1); (ex_answer, m2); ([96], m3)]) as Hp.
  { intros m1 m2 m3. repeat apply Forall_cons_2; try apply Forall_nil_2; cbn [fst].
    + by destruct (ex_packet_is ex_query (or_introl eq_refl)) as (_ & _ & ? & ?).
    + by destruct (ex_packet_is ex_answer (or_intror (or_intror eq_refl))) as (_ & _ & ? & ?).
    + split; [bytes|vm_compute; congruence]. }
  split.
  - destruct (device_packets_handled (ex_config true) (fun _ => true) (fun _ => true) ex_alloc_nonneg
      [(ex_query, true); (ex_answer, false); ([96], false)] (ex_device (ex_config true)) ex_alloc_ok (ex_config_ok true) (ex_device_ok true) (Hp _ _ _)) as [H _].
    edestruct H as (_ & ess & H1 & H2); [vm_compute; reflexivity|]. eexists _, ess. split; [vm_compute; reflexivity|]. split; [exact H1|exact H2].
  - apply (device_packets_handled (ex_config true) (fun _ => true) (fun _ => true) ex_alloc_nonneg
      [([96], false); (ex_query, false); (ex_answer, true)] (ex_device (ex_config true)) ex_alloc_ok (ex_config_ok true) (ex_device_ok true)).
    + specialize (Hp false true false). apply Forall_cons_1 in Hp as [H1 Hp]. apply Forall_cons_1 in Hp as [H2 Hp]. apply Forall_cons_1 in Hp as [H3 _].
      by repeat apply Forall_cons_2.
    + vm_compute. reflexivity.
Defined.

Lemma dns_nat_roundtrip_witness :
  exists d1 d2 d3 aout,
    process_device_dns_packet (ex_config true) ex_query true (ex_device (ex_config true)) = Some (true, d1) /\
    device_run (ex_config true) (fun _ => true) (fun _ => true) ex_alloc_nonneg [([64], true)] d1 = Some d2 /\
    process_device_dns_packet (ex_config true) ex_answer false d2 = Some (true, d3) /\
    effects d3 = effects d2 ++ [TapSend aout] /\
    aout = ex_packet (hton32 134744072) (hton16 53) (hton32 167772170) (hton16 4000) [9; 8].
Proof.
  destruct (ex_packet_is ex_query (or_introl eq_refl)) as (Q1 & Q2 & Q3 & Q4).
  destruct (ex_packet_is ex_answer (or_intror (or_intror eq_refl))) as (A1 & A2 & A3 & A4).
  assert (Forall (fun x : list Z * bool => snd x = true /\ bytes_ok (fst x) /\ zlen (fst x) <= 200 /\ not_reply (hton16 8153) (hton16 4000) (fst x)) [([64], true)]) as Ho.
  { apply Forall_cons_2; [|apply Forall_nil_2]. split; [done|]. cbn [fst]. split; [bytes|]. split; [vm_compute; congruence|].
    intros iph udph p (q & hl & Hc & _). vm_compute in Hc. congruence. }
  destruct (dns_nat_roundtrip (ex_config true) (fun _ => true) (fun _ => true) ex_alloc_nonneg
    (hton32 167772162) (hton16 8153) (ex_device (ex_config true)) ex_query (ipv4_of ex_query) (udp_of (drop 20 ex_query))
    (drop 28 ex_query) [([64], true)] ex_answer false (ipv4_of ex_answer) (udp_of (drop 20 ex_answer)) (drop 28 ex_answer)
    eq_refl ex_alloc_ok (ex_config_ok true) (ex_device_ok true) Q3 Q4 Q1 Q2 ltac:(vm_compute; reflexivity)
    ltac:(intros _; vm_compute; reflexivity)
    ltac:(replace (source_port (udp_of (drop 20 ex_query))) with (hton16 4000) by (vm_compute; reflexivity); exact Ho)
    A3 A4 A1 A2 ltac:(vm_compute; reflexivity) ltac:(vm_compute; reflexivity) ltac:(vm_compute; congruence))
    as (d1 & d2 & d3 & qout & aout & i1 & u1 & i2 & u2 & H1 & H2 & H3 & H4 & H5 & H6 & H7 & H8 & H9 & H10 & H11).
  vm_compute in H1. injection H1 as <-. vm_compute in H2. injection H2 as <-. vm_compute in H3. injection H3 as <-.
  vm_compute in H8. injection H8 as <-. eexists _, _, _, _. split; [vm_compute; reflexivity|].
  split; [vm_compute; reflexivity|]. split; [vm_compute; reflexivity|]. split; vm_compute; reflexivity.
Defined.

Lemma dns_same_port_first_server_witness :
  exists d1 d2 d3 aout,
    process_device_dns_packet (ex_config true) ex_query true (ex_device (ex_config true)) = Some (true, d1) /\
    process_device_dns_packet (ex_config true) ex_query2 true d1 = Some (true, d2) /\
    process_device_dns_packet (ex_config true) ex_answer true d2 = Some (true, d3) /\
    effects d3 = effects d2 ++ [TapSend aout] /\ source_address (ipv4_of aout) = hton32 134744072.
Proof.
  destruct (ex_packet_is ex_query (or_introl eq_refl)) as (Q1 & Q2 & Q3 & Q4).
  destruct (ex_packet_is ex_query2 (or_intror (or_introl eq_refl))) as (R1 & R2 & R3 & R4).
  destruct (ex_packet_is ex_answer (or_intror (or_intror eq_refl))) as (A1 & A2 & A3 & A4).
  destruct (dns_step (ex_config true) ex_query true (ex_device (ex_config true)) (ex_config_ok true) (ex_device_ok true) Q3 Q4 ltac:(by intros []))
    as (r & d1 & E1 & Hd1 & _). pose proof E1 as V. vm_compute in V. injection V as <- V.
  destruct (dns_same_port_first_server (ex_config true) (hton32 167772162) (hton16 8153) d1
    (mkConnection (BADDR_IPV4 (hton32 167772170) (hton16 4000)) (BADDR_IPV4 (hton32 134744072) (hton16 53)) (hton16 4000) 1)
    ex_query2 (ipv4_of ex_query2) (udp_of (drop 20 ex_query2)) (drop 28 ex_query2)
    ex_answer (ipv4_of ex_answer) (udp_of (drop 20 ex_answer)) (drop 28 ex_answer))
    as (d2 & d3 & aout & i2 & u2 & H1 & H2 & H3 & H4 & H5 & H6).
  - reflexivity.
  - apply ex_config_ok.
  - exact Hd1.
  - rewrite <- V. reflexivity.
  - rewrite <- V. vm_compute. reflexivity.
  - exact R3.
  - exact R4.
  - exact R1.
  - exact R2.
  - vm_compute. reflexivity.
  - exact A3.
  - exact A4.
  - exact A1.
  - exact A2.
  - vm_compute. reflexivity.
  - vm_compute. reflexivity.
  - vm_compute. congruence.
  - exists d1, d2, d3, aout. split; [exact E1|]. split; [exact H1|]. split; [exact H2|]. split; [exact H3|].
    injection H5 as H5 _. rewrite <- H5. destruct H4 as (q & hl & Hc & _). symmetry. f_equal.
    unfold ipv4_check in Hc. repeat (case_match; try discriminate Hc). congruence.
Defined.

Lemma dns_options_malformed_witness :
  exists d' out, process_device_dns_packet (ex_config true) ex_options true (ex_device (ex_config true)) = Some (true, d') /\
    effects d' = [TapSend out] /\ ipv4_check out = Some None.
Proof.
  eexists _, _. split; [vm_compute; reflexivity|]. split; [reflexivity|].
  eapply (dns_options_malformed (ex_config true) ex_options true (ex_device (ex_config true)) (ipv4_of ex_options)
    (udp_of (drop 24 ex_options)) [4]).
  - apply ex_config_ok.
  - apply ex_device_ok.
  - bytes_vm.
  - vm_compute. congruence.
  - exists (drop 24 ex_options), 24. split_and!; vm_compute; reflexivity.
  - vm_compute. congruence.
  - vm_compute. reflexivity.
  - reflexivity.
Defined.

Lemma udp_submitted_witness :
  exists l r, process_device_udp_packet (ex_config true) ex_query (ex_device (ex_config true)) =
    Some (true, emit (ex_device (ex_config true)) (UdpSubmit l r false [1; 2; 3])).
Proof.
  destruct (ex_packet_is ex_query (or_introl eq_refl)) as (Q1 & Q2 & Q3 & Q4).
  destruct (udp_submitted (ex_config true) ex_query (ex_device (ex_config true)) eq_refl Q3)
    as [(l & r & b & p & Hs & Hp & He)|[Hn _]].
  - exists l, r. rewrite He. vm_compute in He. injection He as <- <- <- <-. reflexivity.
  - exfalso. specialize (Hn _ _ _ _ (or_introl (ex_intro _ _ (ex_intro _ _ (conj Q1 (conj eq_refl (conj eq_refl eq_refl))))))).
    revert Hn. vm_compute. congruence.
Defined.

Lemma udp_rejected_with_icmp_witness :
  exists out d' h icmp, process_device_udp_packet (ex_config false) ex_query (ex_device (ex_config false)) = Some (true, d') /\
    effects d' = [TapSend out] /\ ipv4_check out = Some (Some (h, icmp, 20)) /\ slice 8 (zlen icmp - 8) icmp = slice 0 28 ex_query.
Proof.
  destruct (ex_packet_is ex_query (or_introl eq_refl)) as (Q1 & Q2 & Q3 & Q4).
  destruct (udp_rejected_with_icmp (ex_config false) ex_query (ex_device (ex_config false)) (ipv4_of ex_query) (slice 0 28 ex_query))
    as (out & d' & h & icmp & H1 & H2 & H3 & H4 & H5 & H6 & H7 & H8 & H9).
  - reflexivity.
  - exact Q3.
  - apply ex_device_ok.
  - exists (drop 20 ex_query), 20. split_and!; vm_compute; congruence.
  - vm_compute. congruence.
  - exists out, d', h, icmp. destruct H2 as (_ & _ & He & _). split; [exact H1|]. split; [exact He|].
    split; [exact H3|exact H9].
Defined.

Lemma udp_received_delivered_witness :
  exists d' out b, udpgw_client_handler_received (ex_config true) (BADDR_IPV6 (replicate 16 1) 5) (BADDR_IPV6 (replicate 16 2) 6)
      [7; 7; 7] (ex_device (ex_config true)) = Some d' /\ sent (ex_device (ex_config true)) out d' /\
    udp_source (ex_config true) out (BADDR_IPV6 (replicate 16 2) 6) (BADDR_IPV6 (replicate 16 1) 5) b [7; 7; 7].
Proof.
  destruct (udp_received_delivered (ex_config true) (BADDR_IPV6 (replicate 16 1) 5) (BADDR_IPV6 (replicate 16 2) 6)
    [7; 7; 7] (ex_device (ex_config true))) as (d' & He & [(_ & out & b & Hs & Hu)|[Hn _]]).
  - reflexivity.
  - apply ex_device_ok.
  - constructor; try (apply Forall_replicate; unfold byte_ok); try reflexivity; lia.
  - bytes.
  - exists d', out, b. split; [exact He|]. split; [exact Hs|exact Hu].
  - exfalso. apply Hn. vm_compute. split_and!; congruence.
Defined.

Lemma netif_output_concat_witness :
  exists d', common_netif_output (ex_config true) false [[69; 1]; []; [2]] (ex_device (ex_config true)) = Some d' /\
    sent (ex_device (ex_config true)) [69; 1; 2] d'.
Proof.
  destruct (netif_output_concat (ex_config true) false [[69; 1]; []; [2]] (ex_device (ex_config true)))
    as (d' & H1 & _ & H2); [apply ex_device_ok|done|].
  exists d'. split; [done|]. rewrite bool_decide_true in H2 by (split; [done|vm_compute; congruence]). exact H2.
Defined.
