(* ===== verification/SocksClient.v ===== *)
(** * The SOCKS5 client

    [socksclient/BSocksClient.c]: connecting to the server, the handshake with
    optional username and password authentication, and the up state. The
    connector and the connection ([BConnection]) are the environment: their
    callbacks are the events of the model. *)

From S2P Require Import Prelude ByteOrder InetProto Device.

(** ** Data *)

Definition SOCKS_VERSION : Z := 5.
Definition SOCKS_METHOD_NO_AUTHENTICATION_REQUIRED : Z := 0.
Definition SOCKS_METHOD_USERNAME_PASSWORD : Z := 2.
Definition SOCKS_CMD_CONNECT : Z := 1.
Definition SOCKS_ATYP_IPV4 : Z := 1.
Definition SOCKS_ATYP_IPV6 : Z := 4.
Definition SOCKS_REP_SUCCEEDED : Z := 0.

Definition sizeof_hello_header : Z := 2.
Definition sizeof_hello_method : Z := 1.
Definition sizeof_server_hello : Z := 2.
Definition sizeof_request_header : Z := 4.
Definition sizeof_reply_header : Z := 4.
Definition sizeof_addr_ipv4 : Z := 6.
Definition sizeof_addr_ipv6 : Z := 18.

Record auth_info := mkAuth { auth_type : Z; username : list Z; password : list Z }.

Definition BSocksClient_auth_none : auth_info := mkAuth SOCKS_METHOD_NO_AUTHENTICATION_REQUIRED [] [].
Definition BSocksClient_auth_password (u p : list Z) : auth_info := mkAuth SOCKS_METHOD_USERNAME_PASSWORD u p.

Inductive socks_state :=
| STATE_CONNECTING | STATE_SENDING_HELLO | STATE_SENT_HELLO | STATE_SENDING_PASSWORD | STATE_SENT_PASSWORD
| STATE_SENDING_REQUEST | STATE_SENT_REQUEST | STATE_RECEIVED_REPLY_HEADER | STATE_UP.

#[global] Instance socks_state_eq_dec : EqDecision socks_state.
Proof. solve_decision. Defined.

Inductive socks_event := EVENT_ERROR | EVENT_UP | EVENT_ERROR_CLOSED.

(** The I/O objects: which exist, the receive in progress, the send in progress. *)
Record socks_io := mkIO {
  connector : bool;
  con : bool;
  control_io : bool;
  up_io : bool;
  recv_dest : Z;
  recv_len : Z;
  recv_total : Z;
  recv_busy : bool;
  send_busy : bool
}.

Record BSocksClient := mkSocks {
  auth : list auth_info;
  dest_addr : BAddr;
  state : socks_state;
  buffer : option (list Z);
  io : socks_io;
  d_err : bool;
  sent_packets : list (list Z);
  reported : list socks_event
}.

Definition set_state (o : BSocksClient) (s : socks_state) : BSocksClient :=
  mkSocks (auth o) (dest_addr o) s (buffer o) (io o) (d_err o) (sent_packets o) (reported o).
Definition set_buffer (o : BSocksClient) (b : option (list Z)) : BSocksClient :=
  mkSocks (auth o) (dest_addr o) (state o) b (io o) (d_err o) (sent_packets o) (reported o).
Definition set_io (o : BSocksClient) (i : socks_io) : BSocksClient :=
  mkSocks (auth o) (dest_addr o) (state o) (buffer o) i (d_err o) (sent_packets o) (reported o).

Section Socks.

(** The contents of fresh memory. *)
Context (junk : Z -> list Z).

(** [DEBUGERROR(&o->d_err, o->handler(o->user, error))]: an error is reported once. *)
Definition report_error (o : BSocksClient) (e : socks_event) : option BSocksClient :=
  ASSERT (negb (d_err o)) ;;
  Some (mkSocks (auth o) (dest_addr o) (state o) (buffer o) (io o) true (sent_packets o) (reported o ++ [e])).

Definition init_control_io (o : BSocksClient) : option BSocksClient :=
  let i := io o in
  ASSERT (con i && negb (control_io i) && negb (up_io i)) ;;
  Some (set_io o (mkIO (connector i) (con i) true (up_io i) (recv_dest i) (recv_len i) (recv_total i) false false)).

Definition free_control_io (o : BSocksClient) : option BSocksClient :=
  let i := io o in
  ASSERT (con i && control_io i) ;;
  Some (set_io o (mkIO (connector i) (con i) false (up_io i) (recv_dest i) (recv_len i) (recv_total i) false false)).

Definition init_up_io (o : BSocksClient) : option BSocksClient :=
  let i := io o in
  ASSERT (con i && negb (control_io i) && negb (up_io i)) ;;
  Some (set_io o (mkIO (connector i) (con i) (control_io i) true (recv_dest i) (recv_len i) (recv_total i) false false)).

Definition free_up_io (o : BSocksClient) : option BSocksClient :=
  let i := io o in
  ASSERT (con i && up_io i) ;;
  Some (set_io o (mkIO (connector i) (con i) (control_io i) false (recv_dest i) (recv_len i) (recv_total i) false false)).

Definition BConnection_Init (o : BSocksClient) : option BSocksClient :=
  let i := io o in
  ASSERT (negb (con i)) ;;
  Some (set_io o (mkIO (connector i) true (control_io i) (up_io i) (recv_dest i) (recv_len i) (recv_total i)
                   (recv_busy i) (send_busy i))).

Definition BConnection_Free (o : BSocksClient) : option BSocksClient :=
  let i := io o in
  ASSERT (con i && negb (control_io i) && negb (up_io i)) ;;
  Some (set_io o (mkIO (connector i) false (control_io i) (up_io i) (recv_dest i) (recv_len i) (recv_total i)
                   (recv_busy i) (send_busy i))).

(** [BRealloc] keeps the bytes that fit; [mem] is whether there is memory. The
    buffer must not be in use, since it may move. The [bool] is the result. *)
Definition reserve_buffer (mem : bool) (o : BSocksClient) (size : bsize_t) : option (bool * BSocksClient) :=
  if is_overflow size then Some (false, o)
  else if negb mem then Some (false, o)
  else
    ASSERT (negb (recv_busy (io o)) && negb (send_busy (io o))) ;;
    let old := take (Z.to_nat (bsize_value size)) (match buffer o with Some b => b | None => [] end) in
    Some (true, set_buffer o (Some (old ++ junk (bsize_value size - zlen old)))).

Definition do_receive (o : BSocksClient) : option BSocksClient :=
  let i := io o in
  ASSERT (recv_len i <? recv_total i) ;;
  ASSERT (control_io i && negb (recv_busy i)) ;;
  Some (set_io o (mkIO (connector i) (con i) (control_io i) (up_io i) (recv_dest i) (recv_len i) (recv_total i)
                    true (send_busy i))).

Definition start_receive (o : BSocksClient) (dest total : Z) : option BSocksClient :=
  ASSERT (total >? 0) ;;
  let i := io o in
  do_receive (set_io o (mkIO (connector i) (con i) (control_io i) (up_io i) dest 0 total (recv_busy i) (send_busy i))).

(** [memcpy(o->buffer + off, bs, n)] *)
Definition write_buffer (o : BSocksClient) (off : Z) (bs : list Z) : option BSocksClient :=
  let* b := buffer o in
  let* b := mem_write off bs b in
  Some (set_buffer o (Some b)).

(** [PacketPassInterface_Sender_Send(o->control.send_if, o->buffer, size)] *)
Definition send_buffer (o : BSocksClient) (size : Z) : option BSocksClient :=
  let i := io o in
  ASSERT (control_io i && negb (send_busy i)) ;;
  let* b := buffer o in
  let* p := mem_read 0 size b in
  Some (mkSocks (auth o) (dest_addr o) (state o) (buffer o)
          (mkIO (connector i) (con i) (control_io i) (up_io i) (recv_dest i) (recv_len i) (recv_total i)
             (recv_busy i) true)
          (d_err o) (sent_packets o ++ [p]) (reported o)).

(** ** Handlers *)

(** The loop writing the hello methods, from index [i]. *)
Fixpoint write_methods (o : BSocksClient) (i : Z) (l : list auth_info) : option BSocksClient :=
  match l with
  | [] => Some o
  | a :: l =>
      let* o := write_buffer o (sizeof_hello_header + i * sizeof_hello_method) [u8 (auth_type a)] in
      write_methods o (i + 1) l
  end.

(** [fail0] and [fail1] of [connector_handler]. *)
Definition connector_fail0 (o : BSocksClient) : option BSocksClient := report_error o EVENT_ERROR.
Definition connector_fail1 (o : BSocksClient) : option BSocksClient :=
  let* o := free_control_io o in let* o := BConnection_Free o in connector_fail0 o.

(** [con_ok]: whether [BConnection_Init] succeeds. *)
Definition connector_handler (is_error con_ok mem : bool) (o : BSocksClient) : option BSocksClient :=
  ASSERT (bool_decide (state o = STATE_CONNECTING)) ;;
  if is_error then connector_fail0 o
  else if negb con_ok then connector_fail0 o
  else
    let* o := BConnection_Init o in
    let* o := init_control_io o in
    let n := zlen (auth o) in
    if (n =? 0) || (n >? 255) then connector_fail1 o
    else
      let size := bsize_add (bsize_fromsize sizeof_hello_header)
                    (bsize_mul (bsize_fromsize n) (bsize_fromsize sizeof_hello_method)) in
      let* (r, o) := reserve_buffer mem o size in
      if negb r then connector_fail1 o
      else
        let* o := write_buffer o 0 [SOCKS_VERSION; u8 n] in
        let* o := write_methods o 0 (auth o) in
        let* o := send_buffer o (bsize_value size) in
        Some (set_state o STATE_SENDING_HELLO).

Definition connection_handler (recvclosed : bool) (o : BSocksClient) : option BSocksClient :=
  ASSERT (negb (bool_decide (state o = STATE_CONNECTING))) ;;
  if bool_decide (state o = STATE_UP) && recvclosed then report_error o EVENT_ERROR_CLOSED
  else report_error o EVENT_ERROR.

Definition auth_finished (mem : bool) (o : BSocksClient) : option BSocksClient :=
  let size := bsize_fromsize sizeof_request_header in
  let size := match dest_addr o with
              | BADDR_IPV4 _ _ => bsize_add size (bsize_fromsize sizeof_addr_ipv4)
              | BADDR_IPV6 _ _ => bsize_add size (bsize_fromsize sizeof_addr_ipv6)
              | _ => size
              end in
  let* (r, o) := reserve_buffer mem o size in
  if negb r then report_error o EVENT_ERROR
  else
    let* (atyp, o) := match dest_addr o with
                      | BADDR_IPV4 ip p =>
                          let* o := write_buffer o sizeof_request_header (le32 ip ++ le16 p) in
                          Some (SOCKS_ATYP_IPV4, o)
                      | BADDR_IPV6 ip p =>
                          let* o := write_buffer o sizeof_request_header (ip ++ le16 p) in
                          Some (SOCKS_ATYP_IPV6, o)
                      | _ => None
                      end in
    let* o := write_buffer o 0 [SOCKS_VERSION; SOCKS_CMD_CONNECT; 0; atyp] in
    let* o := send_buffer o (bsize_value size) in
    Some (set_state o STATE_SENDING_REQUEST).

(** The search loop over [auth_info]. *)
Fixpoint find_auth (m : Z) (l : list auth_info) : option auth_info :=
  match l with
  | [] => None
  | a :: l => if auth_type a =? m then Some a else find_auth m l
  end.

(** The writes of the password packet at [ptr]. *)
Definition write_password (o : BSocksClient) (a : auth_info) : option BSocksClient :=
  let ul := zlen (username a) in
  let pl := zlen (password a) in
  let* o := write_buffer o 0 [1] in
  let* o := write_buffer o 1 [u8 ul] in
  let* o := write_buffer o 2 (username a) in
  let* o := write_buffer o (2 + ul) [u8 pl] in
  write_buffer o (2 + ul + 1) (password a).

Definition received_hello (mem : bool) (o : BSocksClient) : option BSocksClient :=
  let* b := buffer o in
  let* imsg := mem_read 0 sizeof_server_hello b in
  if negb (ld8 imsg 0 =? SOCKS_VERSION) then report_error o EVENT_ERROR
  else match find_auth (ld8 imsg 1) (auth o) with
       | None => report_error o EVENT_ERROR
       | Some ai =>
           if auth_type ai =? SOCKS_METHOD_NO_AUTHENTICATION_REQUIRED then auth_finished mem o
           else if auth_type ai =? SOCKS_METHOD_USERNAME_PASSWORD then
             let ul := zlen (username ai) in
             let pl := zlen (password ai) in
             if (ul =? 0) || (ul >? 255) || (pl =? 0) || (pl >? 255) then report_error o EVENT_ERROR
             else
               let size := bsize_fromsize (1 + 1 + ul + 1 + pl) in
               let* (r, o) := reserve_buffer mem o size in
               if negb r then report_error o EVENT_ERROR
               else
                 let* o := write_password o ai in
                 let* o := send_buffer o (bsize_value size) in
                 Some (set_state o STATE_SENDING_PASSWORD)
           else None
       end.

Definition received_reply_header (o : BSocksClient) : option BSocksClient :=
  let* b := buffer o in
  let* imsg := mem_read 0 sizeof_reply_header b in
  if negb (ld8 imsg 0 =? SOCKS_VERSION) then report_error o EVENT_ERROR
  else if negb (ld8 imsg 1 =? SOCKS_REP_SUCCEEDED) then report_error o EVENT_ERROR
  else
    let atyp := ld8 imsg 3 in
    if atyp =? SOCKS_ATYP_IPV4 then
      let* o := start_receive o sizeof_reply_header sizeof_addr_ipv4 in
      Some (set_state o STATE_RECEIVED_REPLY_HEADER)
    else if atyp =? SOCKS_ATYP_IPV6 then
      let* o := start_receive o sizeof_reply_header sizeof_addr_ipv6 in
      Some (set_state o STATE_RECEIVED_REPLY_HEADER)
    else report_error o EVENT_ERROR.

Definition received_password_reply (mem : bool) (o : BSocksClient) : option BSocksClient :=
  let* b := buffer o in
  let* r := mem_read 0 2 b in
  if negb (ld8 r 0 =? 1) then report_error o EVENT_ERROR
  else if negb (ld8 r 1 =? 0) then report_error o EVENT_ERROR
  else auth_finished mem o.

Definition received_reply_rest (o : BSocksClient) : option BSocksClient :=
  let o := set_buffer o None in
  let* o := free_control_io o in
  let* o := init_up_io o in
  let o := set_state o STATE_UP in
  Some (mkSocks (auth o) (dest_addr o) (state o) (buffer o) (io o) (d_err o) (sent_packets o)
          (reported o ++ [EVENT_UP])).

Definition recv_handler_done (mem : bool) (data_len : Z) (o : BSocksClient) : option BSocksClient :=
  let i := io o in
  ASSERT (data_len >=? 0) ;;
  ASSERT (data_len <=? recv_total i - recv_len i) ;;
  let o := set_io o (mkIO (connector i) (con i) (control_io i) (up_io i) (recv_dest i) (recv_len i + data_len)
                       (recv_total i) (recv_busy i) (send_busy i)) in
  if recv_len (io o) <? recv_total (io o) then do_receive o
  else match state o with
       | STATE_SENT_HELLO => received_hello mem o
       | STATE_SENT_REQUEST => received_reply_header o
       | STATE_SENT_PASSWORD => received_password_reply mem o
       | STATE_RECEIVED_REPLY_HEADER => received_reply_rest o
       | _ => None
       end.

Definition send_handler_done (mem : bool) (o : BSocksClient) : option BSocksClient :=
  let* _ := buffer o in
  match state o with
  | STATE_SENDING_HELLO =>
      let size := bsize_fromsize sizeof_server_hello in
      let* (r, o) := reserve_buffer mem o size in
      if negb r then report_error o EVENT_ERROR
      else let* o := start_receive o 0 (bsize_value size) in Some (set_state o STATE_SENT_HELLO)
  | STATE_SENDING_REQUEST =>
      let size := bsize_add (bsize_fromsize sizeof_reply_header)
                    (bsize_max (bsize_fromsize sizeof_addr_ipv4) (bsize_fromsize sizeof_addr_ipv6)) in
      let* (r, o) := reserve_buffer mem o size in
      if negb r then report_error o EVENT_ERROR
      else let* o := start_receive o 0 sizeof_reply_header in Some (set_state o STATE_SENT_REQUEST)
  | STATE_SENDING_PASSWORD =>
      let size := bsize_fromsize 2 in
      let* (r, o) := reserve_buffer mem o size in
      if negb r then report_error o EVENT_ERROR
      else let* o := start_receive o 0 (bsize_value size) in Some (set_state o STATE_SENT_PASSWORD)
  | _ => None
  end.

Definition BSocksClient_Init (server_valid : bool) (auth : list auth_info) (dest : BAddr) (connector_ok : bool)
    : option (option BSocksClient) :=
  ASSERT server_valid ;;
  ASSERT (match dest with BADDR_NONE => false | _ => true end) ;;
  ASSERT (forallb (fun a => (auth_type a =? SOCKS_METHOD_NO_AUTHENTICATION_REQUIRED) ||
                            (auth_type a =? SOCKS_METHOD_USERNAME_PASSWORD)) auth) ;;
  if negb connector_ok then Some None
  else Some (Some (mkSocks auth dest STATE_CONNECTING None
                     (mkIO true false false false 0 0 0 false false) false [] [])).

(** What is left allocated. *)
Definition BSocksClient_Free (o : BSocksClient) : option BSocksClient :=
  let* o := (if bool_decide (state o = STATE_CONNECTING) then Some o
             else let* o := (if bool_decide (state o = STATE_UP) then free_up_io o else free_control_io o) in
                  BConnection_Free o) in
  let i := io o in
  ASSERT (connector i) ;;
  let o := set_io o (mkIO false (con i) (control_io i) (up_io i) (recv_dest i) (recv_len i) (recv_total i)
                       (recv_busy i) (send_busy i)) in
  Some (set_buffer o None).

(** ** Histories *)

Inductive socks_ev :=
| SE_connector (is_error con_ok mem : bool)
| SE_connection (recvclosed : bool)
| SE_recv (mem : bool) (data : list Z)
| SE_sent (mem : bool).

(** The environment completes a receive by writing [data] at the destination,
    and a send; both end the operation before calling back. *)
Definition socks_exec (o : BSocksClient) (e : socks_ev) : option BSocksClient :=
  let i := io o in
  match e with
  | SE_connector err ok mem => connector_handler err ok mem o
  | SE_connection c => connection_handler c o
  | SE_recv mem data =>
      let* o := write_buffer o (recv_dest i + recv_len i) data in
      recv_handler_done mem (zlen data)
        (set_io o (mkIO (connector i) (con i) (control_io i) (up_io i) (recv_dest i) (recv_len i) (recv_total i)
                     false (send_busy i)))
  | SE_sent mem =>
      send_handler_done mem
        (set_io o (mkIO (connector i) (con i) (control_io i) (up_io i) (recv_dest i) (recv_len i) (recv_total i)
                     (recv_busy i) false))
  end.

(** What the environment may do: nothing after an error was reported, when the
    user frees the object. *)
Definition socks_enabled (o : BSocksClient) (e : socks_ev) : bool :=
  negb (d_err o) &&
  match e with
  | SE_connector _ _ _ => bool_decide (state o = STATE_CONNECTING)
  | SE_connection _ => negb (bool_decide (state o = STATE_CONNECTING))
  | SE_recv _ data => control_io (io o) && recv_busy (io o) && (0 <? zlen data) &&
      (zlen data <=? recv_total (io o) - recv_len (io o)) && forallb (fun b => (0 <=? b) && (b <? 256)) data
  | SE_sent _ => control_io (io o) && send_busy (io o)
  end.

Fixpoint socks_run (o : BSocksClient) (evs : list socks_ev) : option (option BSocksClient) :=
  match evs with
  | [] => Some (Some o)
  | e :: evs => if socks_enabled o e
                then match socks_exec o e with Some o => socks_run o evs | None => Some None end
                else None
  end.

End Socks.

(** ** The handshake as a function of the bytes received (RFC 1928, RFC 1929) *)

Inductive outcome := Waiting | Established | Refused.

Definition hello_packet (auth : list auth_info) : list Z := [5; zlen auth mod 256] ++ map (fun a => auth_type a mod 256) auth.
Definition password_packet (a : auth_info) : list Z :=
  [1] ++ [zlen (username a)] ++ username a ++ [zlen (password a)] ++ password a.
Definition request_packet (dest : BAddr) : list Z :=
  match dest with
  | BADDR_IPV4 ip p => [5; 1; 0; 1] ++ le32 ip ++ le16 p
  | BADDR_IPV6 ip p => [5; 1; 0; 4] ++ ip ++ le16 p
  | BADDR_NONE => []
  end.

Definition reply_addr_len (atyp : Z) : option Z :=
  if atyp =? 1 then Some 6 else if atyp =? 4 then Some 18 else None.

Definition spec_reply (rx : list Z) : outcome :=
  match rx with
  | v :: rep :: _ :: atyp :: rest =>
      if (v =? 5) && (rep =? 0) then
        match reply_addr_len atyp with
        | Some n => if zlen rest <? n then Waiting else Established
        | None => Refused
        end
      else Refused
  | _ => Waiting
  end.

Definition password_ok (a : auth_info) : bool :=
  (1 <=? zlen (username a)) && (zlen (username a) <=? 255) && (1 <=? zlen (password a)) && (zlen (password a) <=? 255).

Definition socks_spec (auth : list auth_info) (dest : BAddr) (rx : list Z) : list (list Z) * outcome :=
  match rx with
  | v :: m :: rx =>
      if negb (v =? 5) then ([hello_packet auth], Refused)
      else match find_auth m auth with
           | None => ([hello_packet auth], Refused)
           | Some a =>
               if auth_type a =? 0 then ([hello_packet auth; request_packet dest], spec_reply rx)
               else if negb (password_ok a) then ([hello_packet auth], Refused)
               else match rx with
                    | v' :: st :: rx =>
                        if (v' =? 1) && (st =? 0)
                        then ([hello_packet auth; password_packet a; request_packet dest], spec_reply rx)
                        else ([hello_packet auth; password_packet a], Refused)
                    | _ => ([hello_packet auth; password_packet a], Waiting)
                    end
           end
  | _ => ([hello_packet auth], Waiting)
  end.

(** The bytes received in a history. *)
Definition ev_data (e : socks_ev) : list Z := match e with SE_recv _ d => d | _ => [] end.
Definition socks_rx (evs : list socks_ev) : list Z := concat (map ev_data evs).

(** Failures that are not the server's answers. *)
Definition ev_fails (e : socks_ev) : bool :=
  match e with
  | SE_connector err ok mem => err || negb ok || negb mem
  | SE_connection _ => true
  | SE_recv mem _ => negb mem
  | SE_sent mem => negb mem
  end.

(** ** Lemmas on the buffer *)

Section Proofs.
Context (junk : Z -> list Z).
Hypothesis junk_len : forall n, 0 <= n -> zlen (junk n) = n.

Lemma reserve_ok o size :
  is_overflow size = false -> 0 <= bsize_value size -> recv_busy (io o) = false -> send_busy (io o) = false ->
  exists b, reserve_buffer junk true o size = Some (true, set_buffer o (Some b)) /\ zlen b = bsize_value size.
Proof.
  intros Ho Hs Hr Hsd. unfold reserve_buffer. rewrite Ho, Hr, Hsd. cbn [negb andb]. eexists. split; [done|].
  set (old := take _ _). assert (zlen old <= bsize_value size) by (unfold old; zl).
  rewrite zlen_app, junk_len by lia. lia.
Qed.

Lemma reserve_no_mem o size : reserve_buffer junk false o size = Some (false, o).
Proof. unfold reserve_buffer. by destruct (is_overflow size). Qed.

Lemma write_next o pre rest bs off :
  buffer o = Some (pre ++ rest) -> off = zlen pre -> zlen bs <= zlen rest ->
  exists rest', write_buffer o off bs = Some (set_buffer o (Some ((pre ++ bs) ++ rest'))) /\
    zlen rest' = zlen rest - zlen bs.
Proof.
  intros Hb -> Hl. pose proof (zlen_nonneg bs). destruct (split_len rest (zlen bs)) as (r1 & r2 & -> & L1); [lia|].
  exists r2. unfold write_buffer. rewrite Hb, (mem_write_mid pre r1 bs r2) by done.
  rewrite <- app_assoc. split; [done|]. rewrite zlen_app. lia.
Qed.

Lemma write_mid o a b b' c off :
  buffer o = Some (a ++ b ++ c) -> off = zlen a -> zlen b = zlen b' ->
  write_buffer o off b' = Some (set_buffer o (Some (a ++ b' ++ c))).
Proof. intros Hb Ho Hl. unfold write_buffer. by rewrite Hb, (mem_write_mid a b b' c). Qed.

Lemma set_buffer_twice o a b : set_buffer (set_buffer o a) b = set_buffer o b.
Proof. done. Qed.

Lemma write_methods_spec l : forall o pre rest i,
  buffer o = Some (pre ++ rest) -> zlen pre = 2 + i -> zlen rest = zlen l ->
  write_methods o i l = Some (set_buffer o (Some (pre ++ map (fun a => auth_type a mod 256) l))).
Proof.
  induction l as [|a l IH]; intros o pre rest i Hb Hp Hr; cbn [write_methods map].
  { assert (rest = []) as -> by by apply zlen_zero_inv. rewrite <- Hb. by destruct o. }
  rewrite zlen_cons in Hr. pose proof (zlen_nonneg l).
  destruct (write_next o pre rest [u8 (auth_type a)] (sizeof_hello_header + i * sizeof_hello_method) Hb) as (r' & Hw & Hl).
  { unfold sizeof_hello_header, sizeof_hello_method. lia. }
  { change (zlen [u8 (auth_type a)]) with 1. lia. }
  rewrite Hw. change (zlen [u8 (auth_type a)]) with 1 in Hl.
  rewrite (IH _ (pre ++ [u8 (auth_type a)]) r'); [|done|rewrite zlen_app; change (zlen [u8 (auth_type a)]) with 1; lia|lia].
  by rewrite set_buffer_twice, <- app_assoc.
Qed.

Lemma send_buffer_spec o p size :
  buffer o = Some p -> size = zlen p -> control_io (io o) = true -> send_busy (io o) = false ->
  send_buffer o size =
    Some (mkSocks (auth o) (dest_addr o) (state o) (buffer o)
      (mkIO (connector (io o)) (con (io o)) (control_io (io o)) (up_io (io o)) (recv_dest (io o)) (recv_len (io o))
         (recv_total (io o)) (recv_busy (io o)) true) (d_err o) (sent_packets o ++ [p]) (reported o)).
Proof.
  intros Hb -> Hc Hs. unfold send_buffer. rewrite Hc, Hs, Hb. cbn [negb andb].
  pose proof (zlen_nonneg p). by rewrite mem_read_Some, slice_all by lia.
Qed.

(** Writing and sending the password packet. *)
Lemma write_password_spec o a b :
  buffer o = Some b -> zlen b = zlen (password_packet a) -> password_ok a = true ->
  write_password o a = Some (set_buffer o (Some (password_packet a))).
Proof.
  intros Hb Hl Hp. unfold password_ok in Hp. pose proof (zlen_nonneg (username a)). pose proof (zlen_nonneg (password a)).
  assert (zlen b = 3 + zlen (username a) + zlen (password a)) as Lb.
  { rewrite Hl. unfold password_packet. rewrite !zlen_app. change (zlen [?x]) with 1. lia. }
  unfold write_password. assert (u8 (zlen (username a)) = zlen (username a)) as -> by (unfold u8; apply Z.mod_small; lia).
  assert (u8 (zlen (password a)) = zlen (password a)) as -> by (unfold u8; apply Z.mod_small; lia).
  destruct (write_next o [] b [1] 0) as (r1 & -> & L1); [done|done|change (zlen [1]) with 1; lia|].
  change (zlen [1]) with 1 in L1.
  destruct (write_next (set_buffer o (Some (([] ++ [1]) ++ r1))) ([] ++ [1]) r1 [zlen (username a)] 1) as (r2 & -> & L2);
    [done|done|change (zlen [zlen (username a)]) with 1; lia|]. change (zlen [zlen (username a)]) with 1 in L2.
  rewrite set_buffer_twice. set (p2 := ([] ++ [1]) ++ [zlen (username a)]).
  destruct (write_next (set_buffer o (Some (p2 ++ r2))) p2 r2 (username a) 2) as (r3 & -> & L3); [done|done|lia|].
  rewrite set_buffer_twice. set (p3 := p2 ++ username a).
  assert (zlen p3 = 2 + zlen (username a)) as P3 by (unfold p3; rewrite zlen_app; reflexivity).
  destruct (write_next (set_buffer o (Some (p3 ++ r3))) p3 r3 [zlen (password a)] (2 + zlen (username a))) as (r4 & -> & L4);
    [done|lia|change (zlen [zlen (password a)]) with 1; lia|]. change (zlen [zlen (password a)]) with 1 in L4.
  rewrite set_buffer_twice. set (p4 := p3 ++ [zlen (password a)]).
  destruct (write_next (set_buffer o (Some (p4 ++ r4))) p4 r4 (password a) (2 + zlen (username a) + 1)) as (r5 & -> & L5);
    [done|unfold p4; rewrite zlen_app, P3; reflexivity|lia|].
  assert (r5 = []) as -> by (apply zlen_zero_inv; lia).
  rewrite set_buffer_twice, app_nil_r. unfold p4, p3, p2, password_packet. by rewrite <- !app_assoc.
Qed.

Definition dest_ok (a : BAddr) : Prop :=
  match a with BADDR_IPV4 _ _ => True | BADDR_IPV6 ip _ => zlen ip = 16 | BADDR_NONE => False end.

(** [auth_finished] sends the request. *)
Lemma auth_finished_spec o :
  dest_ok (dest_addr o) -> recv_busy (io o) = false -> send_busy (io o) = false -> control_io (io o) = true ->
  auth_finished junk true o =
    Some (mkSocks (auth o) (dest_addr o) STATE_SENDING_REQUEST (Some (request_packet (dest_addr o)))
      (mkIO (connector (io o)) (con (io o)) (control_io (io o)) (up_io (io o)) (recv_dest (io o)) (recv_len (io o))
         (recv_total (io o)) (recv_busy (io o)) true) (d_err o) (sent_packets o ++ [request_packet (dest_addr o)]) (reported o)).
Proof.
  intros Hd Hr Hs Hc. unfold auth_finished. destruct (dest_addr o) as [|ip p|ip p] eqn:Ed; [done|..]; cbv zeta; simpl in Hd.
  - set (size := bsize_add _ _). destruct (reserve_ok o size eq_refl ltac:(vm_compute; congruence) Hr Hs) as (b & -> & Lb).
    change (bsize_value size) with 10 in *. cbn [negb]. cbn [set_buffer dest_addr]. rewrite Ed.
    destruct (split_len b 4) as (b1 & b2 & -> & L1); [lia|]. rewrite zlen_app in Lb.
    assert (zlen b2 = zlen (le32 ip ++ le16 p)) as L2 by (change (zlen (le32 ip ++ le16 p)) with 6; lia).
    rewrite (write_mid _ b1 b2 (le32 ip ++ le16 p) []) by (done || rewrite ?app_nil_r; done || lia).
    rewrite (write_mid _ [] b1 [SOCKS_VERSION; SOCKS_CMD_CONNECT; 0; SOCKS_ATYP_IPV4] ((le32 ip ++ le16 p) ++ [])) by (done || lia).
    rewrite app_nil_r. change (_ ++ _ ++ le32 ip ++ le16 p) with (request_packet (BADDR_IPV4 ip p)).
    rewrite (send_buffer_spec _ (request_packet (BADDR_IPV4 ip p))) by done. cbn. by rewrite Ed.
  - set (size := bsize_add _ _). destruct (reserve_ok o size eq_refl ltac:(vm_compute; congruence) Hr Hs) as (b & -> & Lb).
    change (bsize_value size) with 22 in *. cbn [negb]. cbn [set_buffer dest_addr]. rewrite Ed.
    destruct (split_len b 4) as (b1 & b2 & -> & L1); [lia|]. rewrite zlen_app in Lb.
    assert (zlen (ip ++ le16 p) = 18) as L0 by (rewrite zlen_app, Hd; reflexivity).
    assert (zlen b2 = zlen (ip ++ le16 p)) as L2 by lia.
    rewrite (write_mid _ b1 b2 (ip ++ le16 p) []) by (done || rewrite ?app_nil_r; done || lia).
    rewrite (write_mid _ [] b1 [SOCKS_VERSION; SOCKS_CMD_CONNECT; 0; SOCKS_ATYP_IPV6] ((ip ++ le16 p) ++ [])) by (done || lia).
    rewrite app_nil_r. change (_ ++ _ ++ ip ++ le16 p) with (request_packet (BADDR_IPV6 ip p)).
    rewrite (send_buffer_spec _ (request_packet (BADDR_IPV6 ip p))); [cbn; by rewrite Ed|done| |done|done].
    unfold request_packet. rewrite zlen_app, L0. reflexivity.
Qed.

Lemma auth_finished_no_mem o : d_err o = false -> auth_finished junk false o = report_error o EVENT_ERROR.
Proof. intros. unfold auth_finished. cbv zeta. by rewrite reserve_no_mem. Qed.

(** ** Invariant *)

Context (A : list auth_info) (D : BAddr).
Hypothesis A_types : Forall (fun a => auth_type a = 0 \/ auth_type a = 2) A.
Hypothesis D_ok : dest_ok D.

Abbreviation hello := (hello_packet A).
Abbreviation request := (request_packet D).
Abbreviation spec := (socks_spec A D).

(** The objects that exist in each state. *)
Definition flags_ok (o : BSocksClient) : Prop :=
  connector (io o) = true /\
  match state o with
  | STATE_CONNECTING => con (io o) = false /\ control_io (io o) = false /\ up_io (io o) = false
  | STATE_UP => con (io o) = true /\ control_io (io o) = false /\ up_io (io o) = true
  | _ => con (io o) = true /\ control_io (io o) = true /\ up_io (io o) = false
  end.

Definition receiving (o : BSocksClient) (dest total : Z) (cur : list Z) : Prop :=
  recv_busy (io o) = true /\ send_busy (io o) = false /\ recv_dest (io o) = dest /\ recv_total (io o) = total /\
  recv_len (io o) = zlen cur /\ zlen cur < total /\
  exists b, buffer o = Some b /\ slice dest (zlen cur) b = cur /\ dest + total <= zlen b.

Definition sending (o : BSocksClient) : Prop :=
  send_busy (io o) = true /\ recv_busy (io o) = false /\ exists b, buffer o = Some b.

(** The server's part of a completed authentication and what was sent for it. *)
Inductive authed : list Z -> list (list Z) -> Prop :=
| A_none m a : find_auth m A = Some a -> auth_type a = 0 -> authed [5; m] [hello]
| A_pw m a : find_auth m A = Some a -> auth_type a = 2 -> password_ok a = true ->
    authed [5; m; 1; 0] [hello; password_packet a].

Definition pw_pending (rx0 : list Z) (pre : list (list Z)) : Prop :=
  exists m a, rx0 = [5; m] /\ pre = [hello; password_packet a] /\ find_auth m A = Some a /\ auth_type a = 2 /\
    password_ok a = true.

Definition phase (o : BSocksClient) (rx : list Z) : Prop :=
  match state o with
  | STATE_CONNECTING => rx = [] /\ sent_packets o = [] /\ reported o = [] /\ recv_busy (io o) = false /\ send_busy (io o) = false
  | STATE_SENDING_HELLO => sending o /\ rx = [] /\ sent_packets o = [hello] /\ reported o = []
  | STATE_SENT_HELLO => receiving o 0 2 rx /\ sent_packets o = [hello] /\ reported o = []
  | STATE_SENDING_PASSWORD => sending o /\ pw_pending rx (sent_packets o) /\ reported o = []
  | STATE_SENT_PASSWORD => reported o = [] /\
      exists rx0 cur, rx = rx0 ++ cur /\ pw_pending rx0 (sent_packets o) /\ receiving o 0 2 cur
  | STATE_SENDING_REQUEST => sending o /\ reported o = [] /\ exists pre, authed rx pre /\ sent_packets o = pre ++ [request]
  | STATE_SENT_REQUEST => reported o = [] /\
      exists rx0 pre cur, rx = rx0 ++ cur /\ authed rx0 pre /\ sent_packets o = pre ++ [request] /\ receiving o 0 4 cur /\
        (exists b, buffer o = Some b /\ zlen b = 22)
  | STATE_RECEIVED_REPLY_HEADER => reported o = [] /\
      exists rx0 pre x atyp n cur, rx = rx0 ++ [5; 0; x; atyp] ++ cur /\ authed rx0 pre /\
        sent_packets o = pre ++ [request] /\ reply_addr_len atyp = Some n /\ receiving o 4 n cur
  | STATE_UP => reported o = [EVENT_UP] /\ buffer o = None /\
      exists rx0 pre x atyp cur, rx = rx0 ++ [5; 0; x; atyp] ++ cur /\ authed rx0 pre /\
        sent_packets o = pre ++ [request] /\ reply_addr_len atyp = Some (zlen cur)
  end.

Record good (o : BSocksClient) (rx : list Z) : Prop := {
  g_err : d_err o = false;
  g_auth : auth o = A;
  g_dest : dest_addr o = D;
  g_flags : flags_ok o;
  g_phase : phase o rx
}.

(** An error was reported. *)
Record refused (o : BSocksClient) (rx : list Z) : Prop := {
  r_err : d_err o = true;
  r_flags : flags_ok o;
  r_sent : sent_packets o = fst (spec rx);
  r_out : snd (spec rx) = Refused;
  r_rep : reported o = [EVENT_ERROR]
}.

Record failed (o : BSocksClient) (rx : list Z) : Prop := {
  f_err : d_err o = true;
  f_flags : flags_ok o;
  f_sent : sent_packets o `prefix_of` fst (spec rx);
  f_rep : (reported o = [EVENT_ERROR] /\ snd (spec rx) = Waiting) \/
          (exists e, reported o = [EVENT_UP; e] /\ e <> EVENT_UP /\ snd (spec rx) = Established)
}.

Lemma authed_spec rx0 pre cur : authed rx0 pre -> spec (rx0 ++ cur) = (pre ++ [request], spec_reply cur).
Proof.
  intros [m a Hf Ht|m a Hf Ht Hp]; simpl; rewrite Hf, Ht; [done|]. simpl. by rewrite Hp.
Qed.

Lemma spec_short cur : zlen cur < 2 -> spec cur = ([hello], Waiting).
Proof.
  destruct cur as [|x [|y cur]]; [done|done|]. rewrite !zlen_cons. pose proof (zlen_nonneg cur). lia.
Qed.

Lemma reply_short cur : zlen cur < 4 -> spec_reply cur = Waiting.
Proof.
  destruct cur as [|x [|y [|z [|w cur]]]]; try done. rewrite !zlen_cons. pose proof (zlen_nonneg cur). lia.
Qed.

Lemma pw_short rx0 pre cur : pw_pending rx0 pre -> zlen cur < 2 -> spec (rx0 ++ cur) = (pre, Waiting).
Proof.
  intros (m & a & -> & -> & Hf & Ht & Hp) Hl. simpl. rewrite Hf, Ht. simpl. rewrite Hp. simpl.
  destruct cur as [|x [|y cur]]; [done|done|]. rewrite !zlen_cons in Hl. pose proof (zlen_nonneg cur). lia.
Qed.

(** While the handshake goes on, what was sent is what the specification says. *)
Lemma phase_spec o rx :
  phase o rx -> state o <> STATE_CONNECTING ->
  sent_packets o = fst (spec rx) /\
  ((state o <> STATE_UP /\ reported o = [] /\ snd (spec rx) = Waiting) \/
   (state o = STATE_UP /\ reported o = [EVENT_UP] /\ snd (spec rx) = Established)).
Proof.
  unfold phase. intros H Hc. destruct (state o) eqn:Es; [done|..].
  - destruct H as (_ & -> & -> & ->). split; [done|]. by left.
  - destruct H as ((_ & _ & _ & _ & _ & Hl & _) & -> & ->). rewrite spec_short by done. split; [done|]. by left.
  - destruct H as (_ & Hp & ->). rewrite <- (app_nil_r rx), (pw_short _ _ [] Hp) by done. split; [done|]. by left.
  - destruct H as (-> & rx0 & cur & -> & Hp & (_ & _ & _ & _ & _ & Hl & _)).
    rewrite (pw_short _ _ cur Hp) by done. split; [done|]. by left.
  - destruct H as (_ & -> & pre & Ha & ->). rewrite <- (app_nil_r rx), (authed_spec _ _ [] Ha). split; [done|]. by left.
  - destruct H as (-> & rx0 & pre & cur & -> & Ha & -> & (_ & _ & _ & _ & _ & Hl & _) & _).
    rewrite (authed_spec _ _ cur Ha), reply_short by done. split; [done|]. by left.
  - destruct H as (-> & rx0 & pre & x & atyp & n & cur & -> & Ha & -> & Hn & (_ & _ & _ & _ & _ & Hl & _)).
    rewrite (authed_spec _ _ _ Ha). simpl. rewrite Hn. rewrite (proj2 (Z.ltb_lt _ _)) by done. split; [done|]. by left.
  - destruct H as (-> & _ & rx0 & pre & x & atyp & cur & -> & Ha & -> & Hn).
    rewrite (authed_spec _ _ _ Ha). simpl. rewrite Hn, Z.ltb_irrefl. split; [done|]. by right.
Qed.

Lemma report_ok o e : d_err o = false ->
  report_error o e = Some (mkSocks (auth o) (dest_addr o) (state o) (buffer o) (io o) true (sent_packets o) (reported o ++ [e])).
Proof. intros H. unfold report_error. by rewrite H. Qed.

Lemma sent_prefix o rx : phase o rx -> sent_packets o `prefix_of` fst (spec rx).
Proof.
  intros Hp. destruct (decide (state o = STATE_CONNECTING)) as [Hc|Hc].
  - unfold phase in Hp. rewrite Hc in Hp. destruct Hp as (_ & -> & _). apply prefix_nil.
  - destruct (phase_spec o rx Hp Hc) as [-> _]. done.
Qed.

(** ** Steps *)

Definition bad_count : Prop := zlen A = 0 \/ 255 < zlen A.

Definition step_result (fails : bool) (o : BSocksClient) (rx : list Z) : Prop :=
  good o rx \/ refused o rx \/ (failed o rx /\ (fails = true \/ bad_count)).

(** An error of the environment. *)
Lemma report_failed o rx e :
  good o rx -> e <> EVENT_UP ->
  (state o = STATE_UP \/ e = EVENT_ERROR) ->
  exists o', report_error o e = Some o' /\ failed o' rx.
Proof.
  intros [He Ha Hd Hf Hp] Hne Hev. rewrite report_ok by done. eexists. split; [done|]. split; try done.
  - apply (sent_prefix o rx Hp).
  - cbn [reported]. destruct (decide (state o = STATE_CONNECTING)) as [Hc|Hc].
    { left. unfold phase in Hp. rewrite Hc in Hp. destruct Hp as (-> & _ & -> & _). destruct Hev as [| ->]; [congruence|done]. }
    destruct (phase_spec o rx Hp Hc) as [_ [(Hs & -> & Hw)|(Hs & -> & Hw)]].
    + left. destruct Hev as [| ->]; done.
    + right. by exists e.
Qed.

Lemma connection_step o rx c :
  good o rx -> state o <> STATE_CONNECTING ->
  exists o', connection_handler c o = Some o' /\ step_result true o' rx.
Proof.
  intros Hg Hs. unfold connection_handler. rewrite bool_decide_false by done. cbn [negb].
  destruct (bool_decide (state o = STATE_UP) && c) eqn:E.
  - apply andb_true_iff in E as [E _]. apply bool_decide_eq_true in E.
    destruct (report_failed o rx EVENT_ERROR_CLOSED Hg) as (o' & -> & Hf); [done|by left|].
    exists o'. split; [done|]. right. right. split; [done|by left].
  - destruct (report_failed o rx EVENT_ERROR Hg) as (o' & -> & Hf); [done|by right|].
    exists o'. split; [done|]. right. right. split; [done|by left].
Qed.

Lemma connector_step o rx err ok mem :
  good o rx -> state o = STATE_CONNECTING ->
  exists o', connector_handler junk err ok mem o = Some o' /\ step_result (err || negb ok || negb mem) o' rx.
Proof.
  intros Hg Hs. unfold connector_handler, connector_fail1, connector_fail0. rewrite bool_decide_true by done.
  assert (forall fl, fl = true \/ bad_count -> exists o', report_error o EVENT_ERROR = Some o' /\ step_result fl o' rx) as Hrep.
  { intros fl Hfl. destruct (report_failed o rx EVENT_ERROR Hg) as (o' & -> & Hf); [done|by right|].
    exists o'. split; [done|]. right. by right. }
  destruct err; [apply Hrep; by left|]. destruct ok; cbn [negb orb]; [|apply Hrep; by left].
  destruct Hg as [He Ha Hd [Hcn Hf] Hp]. unfold phase in Hp. rewrite Hs in Hf, Hp.
  destruct Hf as (F1 & F2 & F3). destruct Hp as (-> & P1 & P2 & P3 & P4).
  unfold BConnection_Init. rewrite F1. cbn [negb]. unfold init_control_io. cbn [set_io io con control_io up_io]. rewrite F2, F3.
  cbn [negb andb auth set_io]. set (o1 := set_io (set_io o _) _).
  assert (forall fl, fl = true \/ bad_count -> exists o',
    (let* o := free_control_io o1 in let* o := BConnection_Free o in report_error o EVENT_ERROR) = Some o' /\
    step_result fl o' []) as Hrep1.
  { intros fl Hfl. unfold free_control_io, BConnection_Free, o1. cbn. rewrite ?F3. cbn. unfold report_error. cbn. rewrite He. cbn.
    eexists. split; [done|]. right. right. split; [|done]. split; cbn; try done.
    - split; [done|]. cbn. rewrite Hs. by split_and!.
    - rewrite P1. apply prefix_nil.
    - left. by rewrite P2. }
  rewrite Ha. destruct ((zlen A =? 0) || (zlen A >? 255)) eqn:En.
  { apply Hrep1. right. unfold bad_count. lia. }
  destruct mem; cbn [negb]; [|rewrite reserve_no_mem; cbn [negb]; apply Hrep1; by left].
  pose proof (zlen_nonneg A). set (size := bsize_add _ _).
  assert (is_overflow size = false /\ bsize_value size = 2 + zlen A) as [Ho Hz].
  { unfold size, bsize_add, bsize_mul, bsize_fromsize, sizeof_hello_header, sizeof_hello_method, u64, SIZE_MAX, UINT64_MAX.
    cbn [is_overflow bsize_value orb]. rewrite Z.mul_1_r. rewrite !Z.mod_small by lia. split; [|done].
    change (negb (1 =? 0)) with true. assert (18446744073709551615 / zlen A >= 1) by dm. lia. }
  destruct (reserve_ok o1 size Ho) as (b & Hr & Lb); [lia|done|done|]. rewrite Hr. cbn [negb].
  destruct (split_len b 2) as (b1 & b2 & -> & L1); [lia|]. rewrite zlen_app in Lb.
  rewrite (write_mid _ [] b1 [SOCKS_VERSION; u8 (zlen A)] b2); [|done|done|rewrite L1; done].
  cbn [auth set_buffer]. assert (auth o1 = A) as -> by done.
  rewrite (write_methods_spec A _ [SOCKS_VERSION; u8 (zlen A)] b2 0); [|done|done|lia].
  rewrite (send_buffer_spec _ hello); [|done| |done|done].
  2: { rewrite Hz. unfold hello_packet, zlen. rewrite length_app, length_map. simpl. lia. }
  eexists. split; [done|]. left. split; cbn; try done.
  unfold phase. cbn. split_and!; try done; [|by rewrite P1]. unfold sending. cbn. split_and!; try done. by eexists.
Qed.

Lemma start_receive_ok o dest total :
  0 < total -> control_io (io o) = true -> recv_busy (io o) = false ->
  start_receive o dest total = Some (set_io o (mkIO (connector (io o)) (con (io o)) (control_io (io o)) (up_io (io o))
    dest 0 total true (send_busy (io o)))).
Proof.
  intros Ht Hc Hr. unfold start_receive, do_receive. rewrite Z.gtb_ltb, (proj2 (Z.ltb_lt 0 total)) by done.
  cbn [set_io io recv_len recv_total control_io recv_busy]. rewrite (proj2 (Z.ltb_lt 0 total)) by done.
  by rewrite Hc, Hr.
Qed.

Lemma control_flags o : flags_ok o -> state o <> STATE_CONNECTING -> state o <> STATE_UP ->
  connector (io o) = true /\ con (io o) = true /\ control_io (io o) = true /\ up_io (io o) = false.
Proof. unfold flags_ok. intros [H1 H2]. destruct (state o); naive_solver. Qed.

(** A completed send leads to the receive of the answer. *)
Lemma sent_receives o o1 size dest total st :
  state o1 = state o -> buffer o1 = buffer o -> io o1 = mkIO (connector (io o)) (con (io o)) (control_io (io o)) (up_io (io o))
    (recv_dest (io o)) (recv_len (io o)) (recv_total (io o)) (recv_busy (io o)) false ->
  is_overflow size = false -> dest + total <= bsize_value size -> 0 <= dest -> 0 < total ->
  control_io (io o) = true -> recv_busy (io o) = false ->
  exists b, zlen b = bsize_value size /\
    (let* (r, o) := reserve_buffer junk true o1 size in
     if negb r then report_error o EVENT_ERROR
     else let* o := start_receive o dest total in Some (set_state o st)) =
    Some (mkSocks (auth o1) (dest_addr o1) st (Some b)
            (mkIO (connector (io o)) (con (io o)) (control_io (io o)) (up_io (io o)) dest 0 total true false)
            (d_err o1) (sent_packets o1) (reported o1)).
Proof.
  intros Hs Hb Hi Ho Hl Hd Ht Hc Hr.
  destruct (reserve_ok o1 size Ho) as (b & -> & Lb); [lia|by rewrite Hi|by rewrite Hi|].
  exists b. split; [done|]. cbn [negb]. rewrite start_receive_ok; [|done|by cbn; rewrite Hi|by cbn; rewrite Hi].
  cbn. by rewrite Hi.
Qed.

Lemma receiving_start o dest total b :
  buffer o = Some b -> recv_busy (io o) = true -> send_busy (io o) = false -> recv_dest (io o) = dest ->
  recv_total (io o) = total -> recv_len (io o) = 0 -> 0 < total -> dest + total <= zlen b -> receiving o dest total [].
Proof. intros. unfold receiving. rewrite zlen_nil. split_and!; try done. by exists b. Qed.

Lemma sent_step o rx mem :
  good o rx -> control_io (io o) = true -> send_busy (io o) = true ->
  exists o', socks_exec junk o (SE_sent mem) = Some o' /\ step_result (negb mem) o' rx.
Proof.
  intros Hg Hc Hsb. cbn [socks_exec]. set (o1 := set_io o _). pose proof (g_phase _ _ Hg) as Hp.
  assert (sending o /\ (state o = STATE_SENDING_HELLO \/ state o = STATE_SENDING_REQUEST \/ state o = STATE_SENDING_PASSWORD))
    as [(_ & Hrb & b0 & Hb) Hst].
  { unfold phase in Hp. destruct (state o) eqn:Es.
    - destruct Hp as (_ & _ & _ & _ & ?). congruence.
    - destruct Hp as (? & _). tauto.
    - destruct Hp as ((_ & ? & _) & _). congruence.
    - destruct Hp as (? & _). tauto.
    - destruct Hp as (_ & ? & ? & _ & _ & (_ & ? & _)). congruence.
    - destruct Hp as (? & _). tauto.
    - destruct Hp as (_ & ? & ? & ? & _ & _ & _ & (_ & ? & _) & _). congruence.
    - destruct Hp as (_ & ? & ? & ? & ? & ? & ? & _ & _ & _ & _ & (_ & ? & _)). congruence.
    - destruct (g_flags _ _ Hg) as [_ Hf]. rewrite Es in Hf. destruct Hf as (_ & ? & _). congruence. }
  assert (buffer o1 = Some b0) as Hb1 by done. assert (state o1 = state o) as Hs1 by done.
  unfold send_handler_done. rewrite Hb1, Hs1.
  destruct (control_flags o (g_flags _ _ Hg)) as (C1 & C2 & C3 & C4); [destruct Hst as [E|[E|E]]; rewrite E; done..|].
  destruct mem; cbn [negb].
  - destruct Hg as [He Ha Hd Hf _].
    destruct Hst as [Es|[Es|Es]]; unfold phase in Hp; rewrite Es in Hp |- *;
      [destruct (sent_receives o o1 (bsize_fromsize sizeof_server_hello) 0 2 STATE_SENT_HELLO) as (b & Lb & E)
      |destruct (sent_receives o o1 (bsize_add (bsize_fromsize sizeof_reply_header)
          (bsize_max (bsize_fromsize sizeof_addr_ipv4) (bsize_fromsize sizeof_addr_ipv6))) 0 4 STATE_SENT_REQUEST) as (b & Lb & E)
      |destruct (sent_receives o o1 (bsize_fromsize 2) 0 2 STATE_SENT_PASSWORD) as (b & Lb & E)];
      try done; try (vm_compute; congruence); (eexists; split; [exact E|]; left; split; try done).
    + unfold phase. cbn. destruct Hp as (_ & -> & ? & ?). split_and!; try done.
      apply (receiving_start _ _ _ b); try done. rewrite Lb. vm_compute. congruence.
    + unfold phase. cbn. destruct Hp as (_ & ? & pre & Hpa & Hps). split; [done|]. exists rx, pre, []. rewrite app_nil_r.
      split_and!; try done; [|by exists b]. apply (receiving_start _ _ _ b); try done. rewrite Lb. vm_compute. congruence.
    + unfold phase. cbn. destruct Hp as (_ & Hpp & ?). split; [done|]. exists rx, []. rewrite app_nil_r.
      split_and!; try done. apply (receiving_start _ _ _ b); try done. rewrite Lb. vm_compute. congruence.
  - assert (exists o', report_error o1 EVENT_ERROR = Some o' /\ step_result true o' rx) as (o' & Hr & Hres).
    { destruct (report_failed o rx EVENT_ERROR Hg) as (o' & Hr & [F1 F2 F3 F4]); [done|by right|].
      rewrite (report_ok o) in Hr by apply (g_err _ _ Hg). injection Hr as <-.
      rewrite report_ok by apply (g_err _ _ Hg). eexists. split; [done|]. right. right. split; [|by left]. by split. }
    exists o'. split; [|done]. destruct Hst as [-> |[-> | ->]]; cbv zeta; rewrite reserve_no_mem; exact Hr.
Qed.

(** A message was received completely. *)
Record base (o : BSocksClient) : Prop := {
  b_err : d_err o = false;
  b_auth : auth o = A;
  b_dest : dest_addr o = D;
  b_flags : connector (io o) = true /\ con (io o) = true /\ control_io (io o) = true /\ up_io (io o) = false;
  b_state : state o <> STATE_CONNECTING /\ state o <> STATE_UP;
  b_rb : recv_busy (io o) = false;
  b_sb : send_busy (io o) = false;
  b_rep : reported o = []
}.

Definition received (o : BSocksClient) (dest : Z) (cur : list Z) : Prop :=
  exists b, buffer o = Some b /\ slice dest (zlen cur) b = cur /\ dest + zlen cur <= zlen b.

Lemma base_flags o : base o -> flags_ok o.
Proof. intros []. unfold flags_ok. destruct b_flags0 as (? & ? & ? & ?), b_state0. by destruct (state o). Qed.

Lemma base_refused o rx fl :
  base o -> sent_packets o = fst (spec rx) -> snd (spec rx) = Refused ->
  exists o', report_error o EVENT_ERROR = Some o' /\ step_result fl o' rx.
Proof.
  intros Hb Hs Hr. rewrite report_ok by apply (b_err _ Hb). eexists. split; [done|]. right. left.
  split; try done; [by apply base_flags in Hb|]. cbn. by rewrite (b_rep _ Hb).
Qed.

Lemma base_failed o rx :
  base o -> sent_packets o `prefix_of` fst (spec rx) -> snd (spec rx) = Waiting ->
  exists o', report_error o EVENT_ERROR = Some o' /\ step_result true o' rx.
Proof.
  intros Hb Hs Hr. rewrite report_ok by apply (b_err _ Hb). eexists. split; [done|]. right. right. split; [|by left].
  split; try done; [by apply base_flags in Hb|]. cbn. left. by rewrite (b_rep _ Hb).
Qed.

(** Authentication is over: the request. *)
Lemma request_step o rx pre mem :
  base o -> authed rx pre -> sent_packets o = pre ->
  exists o', auth_finished junk mem o = Some o' /\ step_result (negb mem) o' rx.
Proof.
  intros Hb Ha Hs. pose proof (authed_spec rx pre [] Ha) as Hsp. rewrite app_nil_r in Hsp. destruct mem.
  - destruct (b_flags _ Hb) as (F1 & F2 & F3 & F4).
    rewrite auth_finished_spec; [|by rewrite (b_dest _ Hb)|apply (b_rb _ Hb)|apply (b_sb _ Hb)|done].
    eexists. split; [done|]. left. destruct Hb. split; try done. unfold phase. cbn. rewrite b_dest0. split_and!; try done.
    + split_and!; try done. by eexists.
    + exists pre. split; [done|]. by rewrite Hs.
  - rewrite auth_finished_no_mem by apply (b_err _ Hb). apply base_failed; [done| |by rewrite Hsp].
    rewrite Hsp, Hs. by apply prefix_app_r.
Qed.

Lemma find_auth_type m l a : find_auth m l = Some a -> auth_type a = m /\ In a l.
Proof.
  induction l as [|x l IH]; [done|]. simpl. destruct (Z.eqb_spec (auth_type x) m).
  - intros [= ->]. split; [done|by left].
  - intros H. apply IH in H as [? ?]. split; [done|by right].
Qed.

Lemma hello_done o v m mem :
  base o -> received o 0 [v; m] -> sent_packets o = [hello] ->
  exists o', received_hello junk mem o = Some o' /\ step_result (negb mem) o' [v; m].
Proof.
  intros Hb (b & Hbf & Hsl & Hl) Hs. change (zlen [v; m]) with 2 in *. unfold received_hello, sizeof_server_hello.
  rewrite Hbf, mem_read_Some, Hsl by lia. unfold SOCKS_VERSION. cbn [ld8 nth Z.to_nat].
  change (ld8 [v; m] 0) with v. change (ld8 [v; m] 1) with m. rewrite (b_auth _ Hb).
  destruct (v =? 5) eqn:Ev; cbn [negb].
  2: { apply base_refused; [done|..]; cbn; by rewrite Ev. }
  destruct (find_auth m A) as [a|] eqn:Ef.
  2: { apply base_refused; [done|..]; cbn; by rewrite Ev, Ef. }
  assert (v = 5) as -> by by apply Z.eqb_eq.
  destruct (find_auth_type _ _ _ Ef) as [Hm Hin].
  unfold SOCKS_METHOD_NO_AUTHENTICATION_REQUIRED, SOCKS_METHOD_USERNAME_PASSWORD.
  destruct (Z.eqb_spec (auth_type a) 0) as [E0|E0].
  { apply (request_step o [5; m] [hello]); [done|by eapply A_none|done]. }
  assert (auth_type a = 2) as E2.
  { rewrite Forall_forall in A_types. destruct (A_types a) as [?|?]; [exact Hin|done|done]. }
  rewrite E2. change (2 =? 2) with true. cbv iota zeta.
  assert (spec [5; m] = if password_ok a then ([hello; password_packet a], Waiting) else ([hello], Refused)) as Hsp.
  { cbn. rewrite Ef, E2. cbn. by destruct (password_ok a). }
  destruct (_ || _) eqn:Ebad.
  { assert (password_ok a = false) as Ep by (unfold password_ok; lia).
    apply base_refused; [done|..]; rewrite Hsp, Ep; done. }
  assert (password_ok a = true) as Ep.
  { unfold password_ok. pose proof (zlen_nonneg (username a)). pose proof (zlen_nonneg (password a)). lia. }
  destruct mem; cbn [negb].
  2: { rewrite reserve_no_mem. cbn [negb]. apply base_failed; [done|..]; rewrite Hsp, Ep, ?Hs; cbn.
       - apply (prefix_app_r [hello] [hello] [password_packet a]). done.
       - done. }
  set (n := 1 + 1 + zlen (username a) + 1 + zlen (password a)).
  assert (n = zlen (password_packet a)) as Hn.
  { unfold n, password_packet. rewrite !zlen_app. change (zlen [1]) with 1.
    change (zlen [zlen (username a)]) with 1. change (zlen [zlen (password a)]) with 1. lia. }
  destruct (reserve_ok o (bsize_fromsize n) eq_refl) as (b' & -> & Lb); [cbn; unfold password_ok in Ep; unfold n; lia|apply (b_rb _ Hb)|apply (b_sb _ Hb)|].
  cbn [negb]. rewrite (write_password_spec _ _ b'); [|done|by rewrite Lb|done]. rewrite set_buffer_twice.
  destruct (b_flags _ Hb) as (F1 & F2 & F3 & F4).
  rewrite (send_buffer_spec _ (password_packet a)); [|done|exact Hn|done|apply (b_sb _ Hb)].
  eexists. split; [done|]. left. destruct Hb. split; try done. unfold phase. cbn. split_and!; try done.
  - split_and!; try done. by eexists.
  - exists m, a. by rewrite Hs.
Qed.

Lemma password_done o rx0 v st mem :
  base o -> received o 0 [v; st] -> pw_pending rx0 (sent_packets o) ->
  exists o', received_password_reply junk mem o = Some o' /\ step_result (negb mem) o' (rx0 ++ [v; st]).
Proof.
  intros Hb (b & Hbf & Hsl & Hl) Hpw. change (zlen [v; st]) with 2 in *. unfold received_password_reply.
  rewrite Hbf, mem_read_Some, Hsl by lia. change (ld8 [v; st] 0) with v. change (ld8 [v; st] 1) with st.
  destruct Hpw as (m & a & -> & Hs & Ef & E2 & Ep).
  assert (spec ([5; m] ++ [v; st]) = if (v =? 1) && (st =? 0) then ([hello; password_packet a; request], Waiting)
            else ([hello; password_packet a], Refused)) as Hsp.
  { cbn. rewrite Ef, E2. cbn. rewrite Ep. cbn. done. }
  destruct (Z.eqb_spec v 1) as [->|Hv]; cbn [negb andb] in *; [|apply base_refused; [done|by rewrite Hsp..]].
  destruct (Z.eqb_spec st 0) as [->|Hst]; cbn [negb] in *; [|apply base_refused; [done|by rewrite Hsp..]].
  apply (request_step o ([5; m] ++ [1; 0]) [hello; password_packet a]); [done| |done]. by eapply A_pw.
Qed.

Lemma reply_header_done o rx0 pre v rep x atyp mem :
  base o -> received o 0 [v; rep; x; atyp] -> (exists b, buffer o = Some b /\ zlen b = 22) ->
  authed rx0 pre -> sent_packets o = pre ++ [request] ->
  exists o', received_reply_header o = Some o' /\ step_result (negb mem) o' (rx0 ++ [v; rep; x; atyp]).
Proof.
  intros Hb (b & Hbf & Hsl & Hl) (b2 & Hb2 & Lb2) Ha Hs. assert (b2 = b) as -> by congruence.
  change (zlen [v; rep; x; atyp]) with 4 in *. unfold received_reply_header, sizeof_reply_header.
  rewrite Hbf, mem_read_Some, Hsl by lia. unfold SOCKS_VERSION, SOCKS_REP_SUCCEEDED.
  change (ld8 [v; rep; x; atyp] 0) with v. change (ld8 [v; rep; x; atyp] 1) with rep. change (ld8 [v; rep; x; atyp] 3) with atyp.
  pose proof (authed_spec rx0 pre [v; rep; x; atyp] Ha) as Hsp. cbn [spec_reply] in Hsp.
  destruct (Z.eqb_spec v 5) as [->|Hv]; cbn [negb andb] in *; [|apply base_refused; [done|by rewrite Hsp..]].
  destruct (Z.eqb_spec rep 0) as [->|Hr]; cbn [negb] in *; [|apply base_refused; [done|by rewrite Hsp..]].
  destruct (b_flags _ Hb) as (F1 & F2 & F3 & F4).
  assert (forall n, reply_addr_len atyp = Some n -> 0 < n <= 18 ->
    exists o', (let* o := start_receive o 4 n in Some (set_state o STATE_RECEIVED_REPLY_HEADER)) = Some o' /\
      step_result (negb mem) o' (rx0 ++ [5; 0; x; atyp])) as Hgo.
  { intros n Hn Hn2. rewrite start_receive_ok; [|lia|done|apply (b_rb _ Hb)]. eexists. split; [done|]. left.
    destruct Hb. split; try done. unfold phase. cbn. split; [done|].
    exists rx0, pre, x, atyp, n, []. split_and!; try done.
    apply (receiving_start _ _ _ b); try done; lia. }
  unfold SOCKS_ATYP_IPV4, SOCKS_ATYP_IPV6, reply_addr_len in *.
  destruct (atyp =? 1) eqn:E1; [apply Hgo; [done|vm_compute; split; congruence]|]. destruct (atyp =? 4) eqn:E4; [apply Hgo; [done|vm_compute; split; congruence]|].
  apply base_refused; [done|by rewrite Hsp..].
Qed.

Lemma reply_rest_done o rx0 pre x atyp cur mem :
  base o -> authed rx0 pre -> sent_packets o = pre ++ [request] -> reply_addr_len atyp = Some (zlen cur) ->
  exists o', received_reply_rest o = Some o' /\ step_result (negb mem) o' (rx0 ++ [5; 0; x; atyp] ++ cur).
Proof.
  intros Hb Ha Hs Hn. destruct (b_flags _ Hb) as (F1 & F2 & F3 & F4).
  unfold received_reply_rest, free_control_io, init_up_io. cbn. rewrite F2, F3, F4. cbn. eexists. split; [done|]. left.
  destruct Hb. split; cbn; try done. unfold phase. cbn. rewrite b_rep0. split_and!; try done.
  by exists rx0, pre, x, atyp, cur.
Qed.

(** Received bytes are appended to the current message. *)
Lemma recv_write o dest total cur data :
  receiving o dest total cur -> 0 <= dest -> zlen data <= total - zlen cur ->
  exists b b', buffer o = Some b /\ zlen b' = zlen b /\
    write_buffer o (recv_dest (io o) + recv_len (io o)) data = Some (set_buffer o (Some b')) /\
    slice dest (zlen (cur ++ data)) b' = cur ++ data /\ dest + total <= zlen b'.
Proof.
  intros (_ & _ & Hd & _ & Hl & Hlt & b & Hb & Hs & Hz) Hd0 Hdl. pose proof (zlen_nonneg cur). pose proof (zlen_nonneg data).
  destruct (mem_write_Some (dest + zlen cur) data b) as (b' & Hw & Lw); [lia|lia|].
  exists b, b'. split; [done|]. split; [done|]. unfold write_buffer. rewrite Hd, Hl, Hb, Hw. split; [done|].
  split; [|lia]. rewrite zlen_app, slice_add by lia. f_equal; [|apply (slice_write_same _ _ _ _ Hw)].
  rewrite (slice_write_disj dest (zlen cur) _ _ _ _ Hw) by lia. done.
Qed.

(** The object seen by [recv_handler_done] after its counting. *)
Definition after_recv (o : BSocksClient) (b : list Z) (n : Z) : BSocksClient :=
  set_io (set_buffer o (Some b))
    (mkIO (connector (io o)) (con (io o)) (control_io (io o)) (up_io (io o)) (recv_dest (io o)) (recv_len (io o) + n)
       (recv_total (io o)) false (send_busy (io o))).

Lemma recv_eval o dest total cur data mem :
  receiving o dest total cur -> 0 <= dest -> 0 < zlen data <= total - zlen cur -> control_io (io o) = true ->
  exists b b', buffer o = Some b /\ zlen b' = zlen b /\
    slice dest (zlen (cur ++ data)) b' = cur ++ data /\ dest + total <= zlen b' /\
    socks_exec junk o (SE_recv mem data) =
      let o2 := after_recv o b' (zlen data) in
      if zlen cur + zlen data <? total then do_receive o2
      else match state o with
           | STATE_SENT_HELLO => received_hello junk mem o2
           | STATE_SENT_REQUEST => received_reply_header o2
           | STATE_SENT_PASSWORD => received_password_reply junk mem o2
           | STATE_RECEIVED_REPLY_HEADER => received_reply_rest o2
           | _ => None
           end.
Proof.
  intros Hr Hd Hl Hc. destruct (recv_write o dest total cur data Hr Hd ltac:(lia)) as (b & b' & Hb & Lb & Hw & Hs & Hz).
  exists b, b'. split_and!; try done. cbn [socks_exec]. rewrite Hw. unfold recv_handler_done. cbv zeta.
  destruct Hr as (H1 & H2 & H3 & H4 & H5 & H6 & _). cbn [set_io io recv_total recv_len]. rewrite H4, H5.
  rewrite Z.geb_leb. rewrite (proj2 (Z.leb_le 0 (zlen data))) by lia.
  rewrite (proj2 (Z.leb_le (zlen data) (total - zlen cur))) by lia. unfold after_recv. rewrite <- H4, <- H5. reflexivity.
Qed.

Lemma do_receive_ok o b n :
  control_io (io o) = true -> recv_len (io o) + n < recv_total (io o) ->
  do_receive (after_recv o b n) =
    Some (set_io (set_buffer o (Some b))
      (mkIO (connector (io o)) (con (io o)) (control_io (io o)) (up_io (io o)) (recv_dest (io o)) (recv_len (io o) + n)
         (recv_total (io o)) true (send_busy (io o)))).
Proof.
  intros Hc Hl. unfold do_receive, after_recv. cbn [io set_io recv_len recv_total control_io recv_busy].
  rewrite (proj2 (Z.ltb_lt _ _)) by done. by rewrite Hc.
Qed.

Lemma after_base o b n rx :
  good o rx -> control_io (io o) = true -> recv_busy (io o) = true -> send_busy (io o) = false -> reported o = [] ->
  base (after_recv o b n).
Proof.
  intros [He Ha Hd [Hf1 Hf] Hp] Hc Hr Hs Hrep. split; try done.
  - cbn. destruct (state o); destruct Hf as (? & ? & ?); split_and!; congruence.
  - cbn. destruct (state o); destruct Hf as (? & ? & ?); split; congruence.
Qed.

(** The receive continues. *)
Lemma recv_more o dest total cur data b b' :
  receiving o dest total cur -> buffer o = Some b -> zlen b' = zlen b -> zlen (cur ++ data) < total ->
  slice dest (zlen (cur ++ data)) b' = cur ++ data -> dest + total <= zlen b' ->
  receiving (set_io (set_buffer o (Some b'))
    (mkIO (connector (io o)) (con (io o)) (control_io (io o)) (up_io (io o)) (recv_dest (io o)) (recv_len (io o) + zlen data)
         (recv_total (io o)) true (send_busy (io o)))) dest total (cur ++ data).
Proof.
  intros (H1 & H2 & H3 & H4 & H5 & H6 & _) Hb Lb Hl Hs Hz. unfold receiving. cbn. split_and!; try done.
  - rewrite zlen_app. lia.
  - by exists b'.
Qed.

Lemma split2 (l : list Z) : zlen l = 2 -> exists x y, l = [x; y].
Proof.
  destruct l as [|x [|y [|z l]]]; rewrite ?zlen_cons, ?zlen_nil; intros; try lia; [by eexists _, _|].
  pose proof (zlen_nonneg l). lia.
Qed.

Lemma split4 (l : list Z) : zlen l = 4 -> exists x y z w, l = [x; y; z; w].
Proof.
  destruct l as [|x [|y [|z [|w [|v l]]]]]; rewrite ?zlen_cons, ?zlen_nil; intros; try lia; [by eexists _, _, _, _|].
  pose proof (zlen_nonneg l). lia.
Qed.

(** Received bytes, in any amount. *)
Lemma recv_step o rx mem data :
  good o rx -> control_io (io o) = true -> recv_busy (io o) = true -> 0 < zlen data ->
  zlen data <= recv_total (io o) - recv_len (io o) ->
  exists o', socks_exec junk o (SE_recv mem data) = Some o' /\ step_result (negb mem) o' (rx ++ data).
Proof.
  intros Hg Hc Hr Hd1 Hd2. pose proof (g_phase _ _ Hg) as Hp. unfold phase in Hp.
  destruct (state o) eqn:Es.
  - destruct Hp as (_ & _ & _ & ? & _). congruence.
  - destruct Hp as ((_ & ? & _) & _). congruence.
  - destruct Hp as (Hrc & Hs & Hrep). pose proof Hrc as (R1 & R2 & R3 & R4 & R5 & R6 & _).
    destruct (recv_eval o 0 2 rx data mem Hrc ltac:(lia) ltac:(lia) Hc) as (b & b' & Hb & Lb & Hsl & Hz & ->). cbv zeta. rewrite Es.
    destruct (Z.ltb_spec (zlen rx + zlen data) 2) as [Hlt|Hge].
    + rewrite do_receive_ok by (done || lia). eexists. split; [done|]. left. destruct Hg. split; try done.
      unfold phase. cbn. rewrite Es. split_and!; try done. eapply recv_more; try done. rewrite zlen_app. lia.
    + assert (zlen (rx ++ data) = 2) as L2 by (rewrite zlen_app; lia). destruct (split2 _ L2) as (v & m & Ev).
      pose proof (hello_done (after_recv o b' (zlen data)) v m mem) as Hh. rewrite Ev in *. apply Hh; [by eapply after_base| |done].
      exists b'. split_and!; [done|done|]. change (zlen [v; m]) with 2. lia.
  - destruct Hp as ((_ & ? & _) & _). congruence.
  - destruct Hp as (Hrep & rx0 & cur & -> & Hpw & Hrc). pose proof Hrc as (R1 & R2 & R3 & R4 & R5 & R6 & _).
    destruct (recv_eval o 0 2 cur data mem Hrc ltac:(lia) ltac:(lia) Hc) as (b & b' & Hb & Lb & Hsl & Hz & ->). cbv zeta. rewrite Es.
    rewrite <- app_assoc. destruct (Z.ltb_spec (zlen cur + zlen data) 2) as [Hlt|Hge].
    + rewrite do_receive_ok by (done || lia). eexists. split; [done|]. left. destruct Hg. split; try done.
      unfold phase. cbn. rewrite Es. split; [done|]. exists rx0, (cur ++ data). split_and!; try done.
      eapply recv_more; try done. rewrite zlen_app. lia.
    + assert (zlen (cur ++ data) = 2) as L2 by (rewrite zlen_app; lia). destruct (split2 _ L2) as (v & m & Ev).
      rewrite Ev in *. apply password_done; [by eapply after_base| |done].
      exists b'. split_and!; [done|done|]. change (zlen [v; m]) with 2. lia.
  - destruct Hp as ((_ & ? & _) & _). congruence.
  - destruct Hp as (Hrep & rx0 & pre & cur & -> & Ha & Hs & Hrc & b0 & Hb0 & Lb0). pose proof Hrc as (R1 & R2 & R3 & R4 & R5 & R6 & _).
    destruct (recv_eval o 0 4 cur data mem Hrc ltac:(lia) ltac:(lia) Hc) as (b & b' & Hb & Lb & Hsl & Hz & ->). cbv zeta. rewrite Es.
    assert (b0 = b) as -> by congruence.
    rewrite <- app_assoc. destruct (Z.ltb_spec (zlen cur + zlen data) 4) as [Hlt|Hge].
    + rewrite do_receive_ok by (done || lia). eexists. split; [done|]. left. destruct Hg. split; try done.
      unfold phase. cbn. rewrite Es. split; [done|]. exists rx0, pre, (cur ++ data). split_and!; try done.
      * eapply recv_more; try done. rewrite zlen_app. lia.
      * exists b'. split; [done|lia].
    + assert (zlen (cur ++ data) = 4) as L4 by (rewrite zlen_app; lia). destruct (split4 _ L4) as (v & rep & x & atyp & Ev).
      rewrite Ev in *. apply (reply_header_done _ _ pre); try done; [by eapply after_base| |].
      * exists b'. split_and!; [done|done|]. change (zlen [v; rep; x; atyp]) with 4. lia.
      * exists b'. split; [done|lia].
  - destruct Hp as (Hrep & rx0 & pre & x & atyp & n & cur & -> & Ha & Hs & Hn & Hrc). pose proof Hrc as (R1 & R2 & R3 & R4 & R5 & R6 & _).
    destruct (recv_eval o 4 n cur data mem Hrc ltac:(lia) ltac:(lia) Hc) as (b & b' & Hb & Lb & Hsl & Hz & ->). cbv zeta. rewrite Es.
    rewrite <- !app_assoc. destruct (Z.ltb_spec (zlen cur + zlen data) n) as [Hlt|Hge].
    + rewrite do_receive_ok by (done || lia). eexists. split; [done|]. left. destruct Hg. split; try done.
      unfold phase. cbn. rewrite Es. split; [done|]. exists rx0, pre, x, atyp, n, (cur ++ data). split_and!; try done.
      eapply recv_more; try done. rewrite zlen_app. lia.
    + apply (reply_rest_done _ _ pre); try done; [by eapply after_base|]. rewrite Hn. f_equal. rewrite zlen_app. lia.
  - destruct (g_flags _ _ Hg) as [_ Hf]. rewrite Es in Hf. destruct Hf as (_ & ? & _). congruence.
Qed.

Lemma socks_step o rx e :
  good o rx -> socks_enabled o e = true ->
  exists o', socks_exec junk o e = Some o' /\ step_result (ev_fails e) o' (rx ++ ev_data e).
Proof.
  intros Hg He. unfold socks_enabled in He. apply andb_true_iff in He as [_ He].
  destruct e as [err ok mem|c|mem data|mem]; cbn [ev_data ev_fails]; rewrite ?app_nil_r.
  - apply bool_decide_eq_true in He. by apply connector_step.
  - apply connection_step; [done|]. apply negb_true_iff, bool_decide_eq_false in He. done.
  - repeat (apply andb_true_iff in He as [He ?]). apply recv_step; try done; lia.
  - apply andb_true_iff in He as [? ?]. by apply sent_step.
Qed.

Lemma after_error o evs r :
  d_err o = true -> socks_run junk o evs = Some r -> evs = [] /\ r = Some o.
Proof.
  intros He. destruct evs as [|e evs]; simpl; [by intros [= <-]|]. unfold socks_enabled. by rewrite He.
Qed.

Lemma socks_run_result evs : forall o rx r,
  good o rx -> socks_run junk o evs = Some r ->
  exists o', r = Some o' /\ step_result (existsb ev_fails evs) o' (rx ++ socks_rx evs).
Proof.
  induction evs as [|e evs IH]; intros o rx r Hg Hr.
  { injection Hr as <-. exists o. rewrite app_nil_r. split; [done|]. by left. }
  cbn [socks_run] in Hr. destruct (socks_enabled o e) eqn:He; [|done].
  destruct (socks_step o rx e Hg He) as (o1 & Hx & Hres). rewrite Hx in Hr.
  change (socks_rx (e :: evs)) with (ev_data e ++ socks_rx evs). rewrite app_assoc. cbn [existsb].
  destruct Hres as [Hgood|[Href|[Hf Hfl]]].
  - destruct (IH o1 _ r Hgood Hr) as (o' & -> & Hres). exists o'. split; [done|].
    destruct Hres as [?|[?|[? [Hx'|?]]]]; [by left|right; by left|..]; right; right; (split; [done|]).
    + left. rewrite Hx'. apply orb_true_r.
    + by right.
  - destruct (after_error _ _ _ (r_err _ _ Href) Hr) as [-> ->]. exists o1. rewrite app_nil_r. split; [done|]. right. by left.
  - destruct (after_error _ _ _ (f_err _ _ Hf) Hr) as [-> ->]. exists o1. rewrite app_nil_r. split; [done|]. right. right.
    split; [done|]. destruct Hfl as [->|?]; [by left|by right].
Qed.

End Proofs.

(** ** Properties *)

Section Theorems.
Context (junk : Z -> list Z) (A : list auth_info) (D : BAddr).
Hypothesis junk_len : forall n, 0 <= n -> zlen (junk n) = n.
Hypothesis D_ok : dest_ok D.

Lemma init_types v c o :
  BSocksClient_Init v A D c = Some (Some o) ->
  Forall (fun a => auth_type a = 0 \/ auth_type a = 2) A /\ good A D o [].
Proof.
  unfold BSocksClient_Init. destruct v; [|done]. destruct (match D with BADDR_NONE => false | _ => true end); [|done].
  destruct (forallb _ A) eqn:Ef; [|done]. destruct c; [|done]. intros [= <-]. split; [|done].
  apply List.Forall_forall. intros a Ha. rewrite forallb_forall in Ef. specialize (Ef a Ha).
  unfold SOCKS_METHOD_NO_AUTHENTICATION_REQUIRED, SOCKS_METHOD_USERNAME_PASSWORD in Ef. lia.
Qed.

(** C7. The SOCKS handshake: however the server's bytes are split, the client
    fails no assertion and stays in its buffer; what it sends is a prefix of
    what RFC 1928 and RFC 1929 prescribe for the bytes received, it reports up
    exactly when those bytes are a complete positive answer, and without
    failures of memory or of the connection it sends all of it and reports
    exactly the outcome. *)
Theorem socks_handshake o0 evs r :
  BSocksClient_Init true A D true = Some (Some o0) -> socks_run junk o0 evs = Some r ->
  exists o, r = Some o /\
    let (packets, out) := socks_spec A D (socks_rx evs) in
    sent_packets o `prefix_of` packets /\
    (In EVENT_UP (reported o) <-> out = Established) /\
    (existsb ev_fails evs = false -> 1 <= zlen A <= 255 ->
       (state o <> STATE_CONNECTING -> sent_packets o = packets) /\
       reported o = match out with Waiting => [] | Established => [EVENT_UP] | Refused => [EVENT_ERROR] end).
Proof.
  intros Hi Hr. destruct (init_types _ _ _ Hi) as [Ht Hg].
  destruct (socks_run_result junk junk_len A D Ht D_ok evs o0 [] r Hg Hr) as (o & -> & Hres). exists o. split; [done|].
  simpl app in Hres. destruct (socks_spec A D (socks_rx evs)) as [packets out] eqn:Esp.
  destruct Hres as [[He Ha Hd Hf Hp]|[[He Hf Hs Ho Hrep]|[[He Hf Hs Hrep] Hfl]]].
  - pose proof (sent_prefix A D _ _ Hp) as Hpre. rewrite Esp in Hpre. split; [done|].
    destruct (decide (state o = STATE_CONNECTING)) as [Hc|Hc].
    + unfold phase in Hp. rewrite Hc in Hp. destruct Hp as (Hrx & _ & -> & _). rewrite Hrx in Esp. injection Esp as <- <-.
      split; [split; [done|discriminate]|]. intros _ _. by split.
    + destruct (phase_spec A D o _ Hp Hc) as [Hs [(_ & Hrep & Hw)|(_ & Hrep & Hw)]]; rewrite Esp in Hs, Hw; simpl in Hs, Hw; subst out; rewrite Hrep.
      * split; [split; [done|discriminate]|]. intros _ _. by split.
      * split; [split; [done|by left]|]. intros _ _. by split.
  - rewrite Esp in Hs, Ho. simpl in Hs, Ho. subst out. rewrite Hrep. split; [by rewrite Hs|].
    split; [split; [intros [|[]]; done|discriminate]|]. intros _ _. by split.
  - rewrite Esp in Hs, Hrep. simpl in Hs, Hrep. split; [done|]. split.
    + destruct Hrep as [[-> ->]|(e & -> & _ & ->)]; [split; [intros [|[]]; done|discriminate]|]. split; [done|by left].
    + intros Hnf Hn. destruct Hfl as [Hfl|Hfl]; [congruence|]. unfold bad_count in Hfl. lia.
Qed.

(** The object can be freed after every history, during or after the
    handshake and after every error, and nothing it allocated is left. *)
Theorem socks_free o0 evs o :
  BSocksClient_Init true A D true = Some (Some o0) -> socks_run junk o0 evs = Some (Some o) ->
  exists o', BSocksClient_Free o = Some o' /\ buffer o' = None /\ connector (io o') = false /\ con (io o') = false /\
    control_io (io o') = false /\ up_io (io o') = false.
Proof.
  intros Hi Hr. destruct (init_types _ _ _ Hi) as [Ht Hg].
  destruct (socks_run_result junk junk_len A D Ht D_ok evs o0 [] _ Hg Hr) as (o1 & [= <-] & Hres).
  assert (flags_ok o) as [Hc Hf].
  { destruct Hres as [[]|[[]|[[] _]]]; done. }
  unfold BSocksClient_Free, free_up_io, free_control_io, BConnection_Free.
  destruct (state o) eqn:Es; destruct Hf as (F1 & F2 & F3);
    rewrite ?(bool_decide_true (STATE_CONNECTING = STATE_CONNECTING)), ?(bool_decide_true (STATE_UP = STATE_UP)) by done;
    rewrite ?bool_decide_false by done; cbn [set_io io con control_io up_io]; rewrite F1, F2, F3;
    cbn [andb negb set_io io con control_io up_io connector]; rewrite Hc; eexists; (split; [done|]); by split_and!.
Qed.

End Theorems.

(** ** Witnesses *)

Definition ex_junk (n : Z) : list Z := replicate (Z.to_nat n) 165.
Lemma ex_junk_len n : 0 <= n -> zlen (ex_junk n) = n.
Proof. intros. unfold zlen, ex_junk. rewrite length_replicate. lia. Qed.

Definition ex_auths : list auth_info := [BSocksClient_auth_none; BSocksClient_auth_password [117] [112; 119]].
Definition ex_dest : BAddr := BADDR_IPV4 (hton32 134744072) (hton16 443).
(** The server asks for the password; its answers arrive in odd pieces. *)
Definition ex_socks_events : list socks_ev :=
  [SE_connector false true true; SE_sent true; SE_recv true [5]; SE_recv true [2]; SE_sent true;
   SE_recv true [1; 0]; SE_sent true; SE_recv true [5; 0; 0]; SE_recv true [1]; SE_recv true [0; 0; 0; 0; 0]; SE_recv true [0]].

Lemma socks_handshake_witness :
  exists o0 o, BSocksClient_Init true ex_auths ex_dest true = Some (Some o0) /\
    socks_run ex_junk o0 ex_socks_events = Some (Some o) /\ reported o = [EVENT_UP] /\
    sent_packets o = [[5; 2; 0; 2]; [1; 1; 117; 2; 112; 119]; [5; 1; 0; 1; 8; 8; 8; 8; 1; 187]].
Proof.
  destruct (BSocksClient_Init true ex_auths ex_dest true) as [[o0|]|] eqn:Ei; [|vm_compute in Ei; congruence..].
  destruct (socks_run ex_junk o0 ex_socks_events) as [r|] eqn:Er.
  2: { exfalso. revert Er. injection Ei as <-. vm_compute. congruence. }
  destruct (socks_handshake ex_junk ex_auths ex_dest ex_junk_len I o0 ex_socks_events r Ei Er) as (o & -> & H).
  exists o0, o. split; [done|]. split; [done|]. vm_compute in H. destruct H as (_ & _ & H).
  destruct (H eq_refl ltac:(split; congruence)) as [Hs Hr]. split; [done|]. apply Hs.
  revert Er. injection Ei as <-. vm_compute. intros [= <-]. discriminate.
Defined.

Lemma socks_free_witness :
  exists o0 o o', BSocksClient_Init true ex_auths ex_dest true = Some (Some o0) /\
    socks_run ex_junk o0 (take 4 ex_socks_events ++ [SE_connection true]) = Some (Some o) /\
    BSocksClient_Free o = Some o' /\ buffer o' = None.
Proof.
  destruct (BSocksClient_Init true ex_auths ex_dest true) as [[o0|]|] eqn:Ei; [|vm_compute in Ei; congruence..].
  destruct (socks_run ex_junk o0 (take 4 ex_socks_events ++ [SE_connection true])) as [[o|]|] eqn:Er.
  2-3: exfalso; revert Er; injection Ei as <-; vm_compute; congruence.
  destruct (socks_free ex_junk ex_auths ex_dest ex_junk_len I o0 _ o Ei Er) as (o' & H1 & H2 & _).
  exists o0, o, o'. split; [reflexivity|]. split; [exact Er|]. split; [exact H1|exact H2].
Defined.
