(* ===== verification/UdpGw.v ===== *)
(** * The UDP gateway client

    [udpgw_client/UdpGwClient.c], with the message format of
    [protocol/udpgw_proto.h] (the [ANDROID] variant of its MTU). Connection
    structures live in a heap indexed by pointers; the two AVL trees
    are maps from their keys to pointers ([ConnTrees] shows that they are) and the linked list is the list of its
    pointers. The per-connection PacketProtoFlow is seen through the
    BufferWriter it exposes: whether it has room, and the messages it is given. *)

From S2P Require Import Prelude ByteOrder PacketProto InetProto Device SocksClient.

(** ** Messages *)

Definition UDPGW_CLIENT_FLAG_KEEPALIVE : Z := 1.
Definition UDPGW_CLIENT_FLAG_REBIND : Z := 2.
Definition UDPGW_CLIENT_FLAG_DNS : Z := 4.
Definition UDPGW_CLIENT_FLAG_IPV6 : Z := 8.

Definition sizeof_udpgw_header : Z := 3.
Definition sizeof_udpgw_addr_ipv4 : Z := 6.
Definition sizeof_udpgw_addr_ipv6 : Z := 18.
Definition sizeof_socks_udp_header : Z := 4.

(** [bsize_toint] fails with -1. *)
Definition udpgw_compute_mtu (dgram_mtu : Z) : Z :=
  let bs := bsize_add (bsize_fromsize sizeof_socks_udp_header)
              (bsize_add (bsize_max (bsize_fromsize sizeof_udpgw_addr_ipv4) (bsize_fromsize sizeof_udpgw_addr_ipv6))
                 (bsize_fromint dgram_mtu)) in
  match bsize_toint bs with Some s => s | None => -1 end.

(** ** State *)

#[global] Instance BAddr_countable : Countable BAddr.
Proof.
  refine (inj_countable'
    (fun a => match a with
              | BADDR_NONE => inl ()
              | BADDR_IPV4 ip p => inr (inl (ip, p))
              | BADDR_IPV6 ip p => inr (inr (ip, p))
              end)
    (fun x => match x with
              | inl _ => BADDR_NONE
              | inr (inl (ip, p)) => BADDR_IPV4 ip p
              | inr (inr (ip, p)) => BADDR_IPV6 ip p
              end) _).
  by intros [].
Defined.

(** The local and the remote address of a connection. *)
Abbreviation conaddr_t := (BAddr * BAddr)%type.

Record UdpGwClient_connection := mkCon {
  conaddr : conaddr_t;
  conid : Z;
  first_flags : Z;
  first_data : list Z;
  first_job : bool
}.

(** What leaves the component: a message written to the buffer of a connection,
    a datagram for the user, a keep-alive, an error report. *)
Inductive gw_output :=
| Message (m : list Z)
| Received (local remote : BAddr) (data : list Z)
| Keepalive (m : list Z)
| ServerError.

Record UdpGwClient := mkGw {
  udp_mtu : Z;
  max_connections : Z;
  udpgw_mtu : Z;
  pp_mtu : Z;
  heap : gmap Z UdpGwClient_connection;
  next_ptr : Z;
  connections_tree_by_conaddr : gmap conaddr_t Z;
  connections_tree_by_conid : gmap Z Z;
  connections_list : list Z;
  num_connections : Z;
  next_conid : Z;
  keepalive_sending : bool;
  have_server : bool;
  outputs : list gw_output
}.

Definition set_tables (o : UdpGwClient) h byaddr byid l n : UdpGwClient :=
  mkGw (udp_mtu o) (max_connections o) (udpgw_mtu o) (pp_mtu o) h (next_ptr o) byaddr byid l n (next_conid o)
    (keepalive_sending o) (have_server o) (outputs o).
Definition set_next_conid (o : UdpGwClient) n : UdpGwClient :=
  mkGw (udp_mtu o) (max_connections o) (udpgw_mtu o) (pp_mtu o) (heap o) (next_ptr o) (connections_tree_by_conaddr o)
    (connections_tree_by_conid o) (connections_list o) (num_connections o) n (keepalive_sending o) (have_server o) (outputs o).
Definition set_server (o : UdpGwClient) b : UdpGwClient :=
  mkGw (udp_mtu o) (max_connections o) (udpgw_mtu o) (pp_mtu o) (heap o) (next_ptr o) (connections_tree_by_conaddr o)
    (connections_tree_by_conid o) (connections_list o) (num_connections o) (next_conid o) (keepalive_sending o) b (outputs o).
Definition set_keepalive (o : UdpGwClient) b : UdpGwClient :=
  mkGw (udp_mtu o) (max_connections o) (udpgw_mtu o) (pp_mtu o) (heap o) (next_ptr o) (connections_tree_by_conaddr o)
    (connections_tree_by_conid o) (connections_list o) (num_connections o) (next_conid o) b (have_server o) (outputs o).
Definition output (o : UdpGwClient) (x : gw_output) : UdpGwClient :=
  mkGw (udp_mtu o) (max_connections o) (udpgw_mtu o) (pp_mtu o) (heap o) (next_ptr o) (connections_tree_by_conaddr o)
    (connections_tree_by_conid o) (connections_list o) (num_connections o) (next_conid o) (keepalive_sending o)
    (have_server o) (outputs o ++ [x]).
(** [malloc] of a connection: a pointer not in use. *)
Definition alloc (o : UdpGwClient) (c : UdpGwClient_connection) : Z * UdpGwClient :=
  (next_ptr o,
   mkGw (udp_mtu o) (max_connections o) (udpgw_mtu o) (pp_mtu o) (<[next_ptr o := c]> (heap o)) (next_ptr o + 1)
     (connections_tree_by_conaddr o) (connections_tree_by_conid o) (connections_list o) (num_connections o) (next_conid o)
     (keepalive_sending o) (have_server o) (outputs o)).

Definition find_connection_by_conaddr (o : UdpGwClient) (a : conaddr_t) : option Z := connections_tree_by_conaddr o !! a.
Definition find_connection_by_conid (o : UdpGwClient) (id : Z) : option Z := connections_tree_by_conid o !! id.

(** The loop runs at most [max_connections] times ([find_unused_total]). *)
Fixpoint find_unused_loop (fuel : nat) (o : UdpGwClient) : option (Z * UdpGwClient) :=
  match fuel with
  | O => None
  | S fuel =>
      match find_connection_by_conid o (next_conid o) with
      | None => Some (next_conid o, o)
      | Some _ =>
          find_unused_loop fuel
            (set_next_conid o (if next_conid o =? max_connections o - 1 then 0 else next_conid o + 1))
      end
  end.

Definition find_unused_conid (o : UdpGwClient) : option (Z * UdpGwClient) :=
  ASSERT (num_connections o <? max_connections o) ;;
  find_unused_loop (Z.to_nat (max_connections o)) o.

(** [BAVL_Insert] under [ASSERT_EXECUTE] fails when the key is present. *)
Definition insert_by_conaddr (o : UdpGwClient) (a : conaddr_t) (p : Z) : option UdpGwClient :=
  match connections_tree_by_conaddr o !! a with
  | Some _ => None
  | None => Some (set_tables o (heap o) (<[a := p]> (connections_tree_by_conaddr o)) (connections_tree_by_conid o)
                    (connections_list o) (num_connections o))
  end.
Definition insert_by_conid (o : UdpGwClient) (id p : Z) : option UdpGwClient :=
  match connections_tree_by_conid o !! id with
  | Some _ => None
  | None => Some (set_tables o (heap o) (connections_tree_by_conaddr o) (<[id := p]> (connections_tree_by_conid o))
                    (connections_list o) (num_connections o))
  end.

(** ** Connections *)

(** [mem], [flow_ok]: whether [malloc] and [PacketProtoFlow_Init] succeed. *)
Definition connection_init (mem flow_ok : bool) (o : UdpGwClient) (a : conaddr_t) (flags : Z) (data : list Z)
    : option UdpGwClient :=
  ASSERT (num_connections o <? max_connections o) ;;
  ASSERT (match find_connection_by_conaddr o a with Some _ => false | None => true end) ;;
  ASSERT (zlen data <=? udp_mtu o) ;;
  if negb mem then Some o
  else
    let* (id, o) := find_unused_conid o in
    if negb flow_ok then Some o
    else
      let (p, o) := alloc o (mkCon a (u16 id) flags data true) in
      let* o := insert_by_conaddr o a p in
      let* o := insert_by_conid o (u16 id) p in
      Some (set_tables o (heap o) (connections_tree_by_conaddr o) (connections_tree_by_conid o)
              (connections_list o ++ [p]) (num_connections o + 1)).

Definition connection_free (o : UdpGwClient) (p : Z) : option UdpGwClient :=
  let* con := heap o !! p in
  Some (set_tables o (delete p (heap o)) (delete (conaddr con) (connections_tree_by_conaddr o))
          (delete (conid con) (connections_tree_by_conid o)) (list_remove p (connections_list o)) (num_connections o - 1)).

(** [buf_ok]: whether [BufferWriter_StartPacket] yields the buffer, of
    [udpgw_mtu] bytes. *)
Definition connection_send (buf_ok : bool) (o : UdpGwClient) (p : Z) (flags : Z) (data : list Z) : option UdpGwClient :=
  let* con := heap o !! p in
  ASSERT (zlen data <=? udp_mtu o) ;;
  if negb buf_ok then Some o
  else
    let out := replicate (Z.to_nat (udpgw_mtu o)) 0 in
    let out_pos := 0 in
    let flags := match snd (conaddr con) with BADDR_IPV6 _ _ => Z.lor flags UDPGW_CLIENT_FLAG_IPV6 | _ => flags end in
    let* out := mem_write out_pos ([u8 flags] ++ le16 (ltoh16 (conid con))) out in
    let out_pos := out_pos + sizeof_udpgw_header in
    let* (out, out_pos) :=
      match snd (conaddr con) with
      | BADDR_IPV4 ip port =>
          let* out := mem_write out_pos (le32 ip ++ le16 port) out in Some (out, out_pos + sizeof_udpgw_addr_ipv4)
      | BADDR_IPV6 ip port =>
          let* out := mem_write out_pos (ip ++ le16 port) out in Some (out, out_pos + sizeof_udpgw_addr_ipv6)
      | BADDR_NONE => Some (out, out_pos)
      end in
    let* out := mem_write out_pos data out in
    let out_pos := out_pos + zlen data in
    let* m := mem_read 0 out_pos out in
    Some (output o (Message m)).

(** The job of a new connection; running it clears it. *)
Definition connection_first_job_handler (buf_ok : bool) (o : UdpGwClient) (p : Z) : option UdpGwClient :=
  let* con := heap o !! p in
  ASSERT (first_job con) ;;
  let o := set_tables o (<[p := mkCon (conaddr con) (conid con) (first_flags con) (first_data con) false]> (heap o))
             (connections_tree_by_conaddr o) (connections_tree_by_conid o) (connections_list o) (num_connections o) in
  connection_send buf_ok o p (Z.lor UDPGW_CLIENT_FLAG_REBIND (first_flags con)) (first_data con).

Definition reuse_connection (o : UdpGwClient) (a : conaddr_t) : option (Z * UdpGwClient) :=
  ASSERT (match find_connection_by_conaddr o a with Some _ => false | None => true end) ;;
  ASSERT (num_connections o >? 0) ;;
  let* p := head (connections_list o) in
  let* con := heap o !! p in
  let o := set_tables o (heap o) (delete (conaddr con) (connections_tree_by_conaddr o)) (connections_tree_by_conid o)
             (connections_list o) (num_connections o) in
  let o := set_tables o (<[p := mkCon a (conid con) (first_flags con) (first_data con) (first_job con)]> (heap o))
             (connections_tree_by_conaddr o) (connections_tree_by_conid o) (connections_list o) (num_connections o) in
  let* o := insert_by_conaddr o a p in
  Some (p, o).

(** [LinkedList1_Remove] and [LinkedList1_Append]. *)
Definition move_to_end (o : UdpGwClient) (p : Z) : UdpGwClient :=
  set_tables o (heap o) (connections_tree_by_conaddr o) (connections_tree_by_conid o)
    (list_remove p (connections_list o) ++ [p]) (num_connections o).

Definition is_ip (a : BAddr) : bool := match a with BADDR_NONE => false | _ => true end.

Definition UdpGwClient_SubmitPacket (mem flow_ok buf_ok : bool) (o : UdpGwClient) (local remote : BAddr) (is_dns : bool)
    (data : list Z) : option UdpGwClient :=
  ASSERT (is_ip local) ;;
  ASSERT (is_ip remote) ;;
  ASSERT (zlen data <=? udp_mtu o) ;;
  let a := (local, remote) in
  let con := find_connection_by_conaddr o a in
  let flags := if is_dns then Z.lor 0 UDPGW_CLIENT_FLAG_DNS else 0 in
  let* (con, flags, o) :=
    match con with
    | None => if num_connections o =? max_connections o
              then let* (p, o) := reuse_connection o a in Some (Some p, Z.lor flags UDPGW_CLIENT_FLAG_REBIND, o)
              else Some (None, flags, o)
    | Some p => Some (Some p, flags, o)
    end in
  match con with
  | None => connection_init mem flow_ok o a flags data
  | Some p => connection_send buf_ok (move_to_end o p) p flags data
  end.

(** A datagram and the job it may have set: [BPending] runs the job that was set
    last first, so [first_job] runs before anything else can reach the client. *)
Definition submit_and_first_job (mem flow_ok buf_ok : bool) (o : UdpGwClient) (local remote : BAddr) (is_dns : bool)
    (data : list Z) : option UdpGwClient :=
  let* o := UdpGwClient_SubmitPacket mem flow_ok buf_ok o local remote is_dns data in
  match find_connection_by_conaddr o (local, remote) with
  | None => Some o
  | Some p => let* con := heap o !! p in
              if first_job con then connection_first_job_handler buf_ok o p else Some o
  end.

(** ** The server *)

Definition recv_interface_handler_send (o : UdpGwClient) (data : list Z) : option UdpGwClient :=
  ASSERT (have_server o) ;;
  ASSERT (zlen data <=? udpgw_mtu o) ;;
  if zlen data <? sizeof_udpgw_header then Some o
  else
    let flags := ld8 data 0 in
    let conid := ltoh16 (ld16 data 1) in
    let data := slice sizeof_udpgw_header (zlen data - sizeof_udpgw_header) data in
    let parsed :=
      if negb (Z.land flags UDPGW_CLIENT_FLAG_IPV6 =? 0) then
        if zlen data <? sizeof_udpgw_addr_ipv6 then None
        else Some (BADDR_IPV6 (slice 0 16 data) (ld16 data 16),
                   slice sizeof_udpgw_addr_ipv6 (zlen data - sizeof_udpgw_addr_ipv6) data)
      else
        if zlen data <? sizeof_udpgw_addr_ipv4 then None
        else Some (BADDR_IPV4 (ld32 data 0) (ld16 data 4),
                   slice sizeof_udpgw_addr_ipv4 (zlen data - sizeof_udpgw_addr_ipv4) data) in
    match parsed with
    | None => Some o
    | Some (remote_addr, data) =>
        if zlen data >? udp_mtu o then Some o
        else match find_connection_by_conid o conid with
             | None => Some o
             | Some p =>
                 let* con := heap o !! p in
                 if negb (bool_decide (snd (conaddr con) = remote_addr)) then Some o
                 else
                   let o := move_to_end o p in
                   Some (output o (Received (fst (conaddr con)) (snd (conaddr con)) data))
             end
    end.

Definition decoder_handler_error (o : UdpGwClient) : option UdpGwClient :=
  ASSERT (have_server o) ;; Some (output o ServerError).

(** The keep-alive packet: header of PacketProto and of udpgw. *)
Definition keepalive_packet : list Z := le16 sizeof_udpgw_header ++ [UDPGW_CLIENT_FLAG_KEEPALIVE; 0; 0].

Definition send_monitor_handler (o : UdpGwClient) : option UdpGwClient :=
  if keepalive_sending o then Some o
  else
    ASSERT (zlen keepalive_packet <=? pp_mtu o) ;;
    Some (set_keepalive (output o (Keepalive keepalive_packet)) true).

Definition keepalive_if_handler_done (o : UdpGwClient) : option UdpGwClient :=
  ASSERT (keepalive_sending o) ;; Some (set_keepalive o false).

Definition UdpGwClient_Init (mtu max : Z) (send_buffer_size : Z) (queue_ok : bool) : option (option UdpGwClient) :=
  ASSERT (mtu >=? 0) ;;
  ASSERT (udpgw_compute_mtu mtu >=? 0) ;;
  ASSERT (udpgw_compute_mtu mtu <=? PACKETPROTO_MAXPAYLOAD) ;;
  ASSERT (max >? 0) ;;
  ASSERT (send_buffer_size >? 0) ;;
  let max := if max >? UINT16_MAX + 1 then UINT16_MAX + 1 else max in
  let m := udpgw_compute_mtu mtu in
  if negb queue_ok then Some None
  else Some (Some (mkGw mtu max m (m + sizeof_packetproto_header) ∅ 0 ∅ ∅ [] 0 0 false false [])).

(** [decoder_ok]: whether [PacketProtoDecoder_Init] succeeds. *)
Definition UdpGwClient_ConnectServer (decoder_ok : bool) (o : UdpGwClient) : option (bool * UdpGwClient) :=
  ASSERT (negb (have_server o)) ;;
  if negb decoder_ok then Some (false, o) else Some (true, set_server o true).

Definition UdpGwClient_DisconnectServer (o : UdpGwClient) : option UdpGwClient :=
  ASSERT (have_server o) ;; Some (set_server o false).

Fixpoint free_connections_loop (fuel : nat) (o : UdpGwClient) : option UdpGwClient :=
  match connections_list o with
  | [] => Some o
  | p :: _ => match fuel with
              | O => None
              | S fuel => let* o := connection_free o p in free_connections_loop fuel o
              end
  end.

Definition UdpGwClient_Free (o : UdpGwClient) : option UdpGwClient :=
  let* o := free_connections_loop (length (connections_list o)) o in
  Some (if have_server o then set_server o false else o).

(** ** Invariant *)

Definition addr_wf (a : BAddr) : Prop :=
  match a with
  | BADDR_NONE => False
  | BADDR_IPV4 ip p => 0 <= ip < 4294967296 /\ 0 <= p < 65536
  | BADDR_IPV6 ip p => zlen ip = 16 /\ bytes_ok ip /\ 0 <= p < 65536
  end.

Record con_ok (o : UdpGwClient) (p : Z) (c : UdpGwClient_connection) : Prop := {
  c_id : 0 <= conid c < max_connections o;
  c_local : addr_wf (fst (conaddr c));
  c_remote : addr_wf (snd (conaddr c));
  c_data : zlen (first_data c) <= udp_mtu o;
  c_flags : first_flags c = 0 \/ first_flags c = UDPGW_CLIENT_FLAG_DNS;
  c_ptr : p < next_ptr o
}.

Record gw_ok (o : UdpGwClient) : Prop := {
  gw_mtu : 0 <= udp_mtu o /\ udpgw_mtu o = udp_mtu o + 22 /\ udpgw_mtu o <= 65535 /\ pp_mtu o = udpgw_mtu o + 2;
  gw_max : 0 < max_connections o <= 65536;
  gw_next : 0 <= next_conid o < max_connections o;
  gw_num : num_connections o = zlen (connections_list o);
  gw_le : num_connections o <= max_connections o;
  gw_nodup : NoDup (connections_list o);
  gw_list : forall p, p ∈ connections_list o <-> is_Some (heap o !! p);
  gw_addr : forall a p, connections_tree_by_conaddr o !! a = Some p <-> exists c, heap o !! p = Some c /\ conaddr c = a;
  gw_id : forall i p, connections_tree_by_conid o !! i = Some p <-> exists c, heap o !! p = Some c /\ conid c = i;
  gw_cons : map_Forall (con_ok o) (heap o)
}.

(** ** Allocation of connection identifiers *)

Lemma next_id_mod o : 0 < max_connections o -> 0 <= next_conid o < max_connections o ->
  (if next_conid o =? max_connections o - 1 then 0 else next_conid o + 1) = (next_conid o + 1) mod max_connections o.
Proof.
  intros Hm Hn. destruct (Z.eqb_spec (next_conid o) (max_connections o - 1)) as [->|].
  - replace (max_connections o - 1 + 1) with (max_connections o) by lia. by rewrite Z_mod_same_full.
  - by rewrite Z.mod_small by lia.
Qed.

Lemma find_unused_loop_spec fuel : forall o,
  0 < max_connections o -> 0 <= next_conid o < max_connections o ->
  match find_unused_loop fuel o with
  | Some (i, o') => 0 <= i < max_connections o /\ connections_tree_by_conid o !! i = None /\ o' = set_next_conid o i
  | None => forall j, 0 <= j < Z.of_nat fuel ->
              is_Some (connections_tree_by_conid o !! ((next_conid o + j) mod max_connections o))
  end.
Proof.
  induction fuel as [|fuel IH]; intros o Hm Hn; cbn [find_unused_loop]; [lia|].
  unfold find_connection_by_conid. destruct (connections_tree_by_conid o !! next_conid o) as [p|] eqn:E.
  2: { split_and!; try done; [lia..|]. by destruct o. }
  rewrite next_id_mod by done. set (o1 := set_next_conid o ((next_conid o + 1) mod max_connections o)).
  assert (0 <= next_conid o1 < max_connections o1) as Hn1 by (cbn; apply Z.mod_pos_bound; lia).
  specialize (IH o1 Hm Hn1). destruct (find_unused_loop fuel o1) as [[i o']|].
  - destruct IH as (H1 & H2 & ->). split; [exact H1|]. split; [exact H2|done].
  - intros j Hj. destruct (decide (j = 0)) as [->|Hj0].
    + rewrite Z.add_0_r, Z.mod_small by lia. by rewrite E.
    + specialize (IH (j - 1) ltac:(lia)). cbn in IH. rewrite Zplus_mod_idemp_l in IH.
      by replace (next_conid o + 1 + (j - 1)) with (next_conid o + j) in IH by lia.
Qed.

(** The pointers of all identifiers in use. *)
Lemma ids_full_length o :
  gw_ok o -> (forall i, 0 <= i < max_connections o -> is_Some (connections_tree_by_conid o !! i)) ->
  max_connections o <= num_connections o.
Proof.
  intros Ho Hall. pose proof (gw_max o Ho).
  set (ids := seqZ 0 (max_connections o)).
  set (ps := omap (fun i => connections_tree_by_conid o !! i) ids).
  assert (length ps = length ids) as Hlen.
  { unfold ps. assert (Forall (fun i => is_Some (connections_tree_by_conid o !! i)) ids) as Hf.
    { apply Forall_forall. intros i Hi. apply list_elem_of_In, elem_of_seqZ in Hi. apply Hall. lia. }
    clear -Hf. induction Hf as [|i l [p Hp] Hf IH]; [done|]. simpl. rewrite Hp. simpl. f_equal. exact IH. }
  assert (NoDup ps) as Hnd.
  { unfold ps. assert (NoDup ids) as Hni by apply NoDup_seqZ. clear Hlen.
    induction ids as [|i l IH]; [constructor|]. apply list.NoDup_cons in Hni as [Hi Hni]. simpl.
    destruct (connections_tree_by_conid o !! i) as [p|] eqn:E; [|by apply IH]. constructor; [|by apply IH].
    intros Hp. apply list_elem_of_omap in Hp as (j & Hj & Ej). apply (gw_id o Ho) in E as (c & Hc & <-).
    apply (gw_id o Ho) in Ej as (c' & Hc' & <-). assert (c' = c) as -> by congruence. done. }
  assert (forall p, p ∈ ps -> p ∈ connections_list o) as Hsub.
  { intros p Hp. unfold ps in Hp. apply list_elem_of_omap in Hp as (j & _ & Ej). apply (gw_id o Ho) in Ej as (c & Hc & _).
    apply (gw_list o Ho). by exists c. }
  assert (length ps <= length (connections_list o))%nat as Hle.
  { apply NoDup_incl_length; [by apply NoDup_ListNoDup|]. intros p Hp. apply list_elem_of_In, Hsub. by apply list_elem_of_In. }
  rewrite (gw_num o Ho). unfold zlen. rewrite Hlen in Hle. unfold ids in Hle. rewrite length_seqZ in Hle. lia.
Qed.

Lemma find_unused_total o :
  gw_ok o -> num_connections o < max_connections o ->
  exists i, find_unused_conid o = Some (i, set_next_conid o i) /\ 0 <= i < max_connections o /\
    connections_tree_by_conid o !! i = None.
Proof.
  intros Ho Hlt. pose proof (gw_max o Ho). pose proof (gw_next o Ho) as Hn. unfold find_unused_conid.
  rewrite (proj2 (Z.ltb_lt _ _)) by done.
  pose proof (find_unused_loop_spec (Z.to_nat (max_connections o)) o ltac:(lia) Hn) as Hs.
  destruct (find_unused_loop _ o) as [[i o']|].
  - destruct Hs as (H1 & H2 & ->). by exists i.
  - exfalso. assert (max_connections o <= num_connections o); [|lia]. apply ids_full_length; [done|].
    intros i Hi. specialize (Hs ((i - next_conid o) mod max_connections o)).
    rewrite Z2Nat.id in Hs by lia. specialize (Hs (Z.mod_pos_bound (i - next_conid o) (max_connections o) ltac:(lia))).
    rewrite Zplus_mod_idemp_r in Hs. replace (next_conid o + (i - next_conid o)) with i in Hs by lia.
    by rewrite Z.mod_small in Hs.
Qed.

(** ** Messages *)

Definition addr_bytes (a : BAddr) : list Z :=
  match a with
  | BADDR_IPV4 ip p => le32 ip ++ le16 p
  | BADDR_IPV6 ip p => ip ++ le16 p
  | BADDR_NONE => []
  end.
Definition ip6_flag (a : BAddr) : Z := match a with BADDR_IPV6 _ _ => UDPGW_CLIENT_FLAG_IPV6 | _ => 0 end.

(** The udpgw message for [data] of connection [id] with [remote]. *)
Definition udpgw_message (flags id : Z) (remote : BAddr) (data : list Z) : list Z :=
  ([u8 (Z.lor flags (ip6_flag remote))] ++ le16 id) ++ addr_bytes remote ++ data.

Lemma ltoh16_id i : 0 <= i < 65536 -> ltoh16 i = i.
Proof. intros. unfold ltoh16, htol16, u16. by apply Z.mod_small. Qed.

Lemma connection_send_spec b o p c flags data :
  gw_ok o -> heap o !! p = Some c -> zlen data <= udp_mtu o ->
  connection_send b o p flags data =
    Some (if b then output o (Message (udpgw_message flags (conid c) (snd (conaddr c)) data)) else o).
Proof.
  intros Ho Hc Hd. unfold connection_send. rewrite Hc. rewrite (proj2 (Z.leb_le _ _)) by done.
  destruct b; cbn [negb]; [|done]. destruct (gw_mtu o Ho) as (M1 & M2 & M3 & _). pose proof (zlen_nonneg data).
  destruct (gw_cons o Ho _ _ Hc) as [Hid _ Hr _ _ _]. pose proof (gw_max o Ho).
  rewrite ltoh16_id by lia. set (fl := match snd (conaddr c) with BADDR_IPV6 _ _ => _ | _ => flags end).
  assert (fl = Z.lor flags (ip6_flag (snd (conaddr c)))) as Hfl.
  { unfold fl. destruct (snd (conaddr c)); [|by rewrite Z.lor_0_r..|done]. done. }
  set (h := [u8 fl] ++ le16 (conid c)). assert (zlen h = 3) as Lh by reflexivity.
  assert (zlen (replicate (Z.to_nat (udpgw_mtu o)) 0) = udpgw_mtu o) as Lm by (unfold zlen; rewrite length_replicate; lia).
  destruct (write_three h (addr_bytes (snd (conaddr c))) data (replicate (Z.to_nat (udpgw_mtu o)) 0))
    as (m1 & m2 & m3 & W1 & W2 & W3 & _ & Hrd).
  { rewrite Lh, Lm. destruct (snd (conaddr c)) as [|ip pt|ip pt]; cbn [addr_wf addr_bytes] in Hr |- *; [done|..].
    - change (zlen (le32 ip ++ le16 pt)) with 6. lia.
    - rewrite zlen_app. change (zlen (le16 pt)) with 2. lia. }
  rewrite Lh in W2, W3, Hrd. rewrite W1. unfold udpgw_message. rewrite <- Hfl. fold h.
  destruct (snd (conaddr c)) as [|ip pt|ip pt]; cbn [addr_wf addr_bytes] in *; [done|..];
    unfold sizeof_udpgw_header; rewrite Z.add_0_l, W2.
  - change (zlen (le32 ip ++ le16 pt)) with 6 in *. unfold sizeof_udpgw_addr_ipv4. by rewrite W3, Hrd.
  - assert (zlen (ip ++ le16 pt) = 18) as L18 by (rewrite zlen_app; change (zlen (le16 pt)) with 2; lia).
    rewrite L18 in *. unfold sizeof_udpgw_addr_ipv6. by rewrite W3, Hrd.
Qed.

(** ** Invariants under updates *)

Lemma con_ok_ext o o' p c :
  max_connections o' = max_connections o -> udp_mtu o' = udp_mtu o -> next_ptr o <= next_ptr o' ->
  con_ok o p c -> con_ok o' p c.
Proof. intros Hm Hu Hn []. split; congruence || by (rewrite ?Hm, ?Hu) || lia. Qed.

Lemma cons_ext o o' (h : gmap Z UdpGwClient_connection) :
  max_connections o' = max_connections o -> udp_mtu o' = udp_mtu o -> next_ptr o <= next_ptr o' ->
  map_Forall (con_ok o) h -> map_Forall (con_ok o') h.
Proof. intros Hm Hu Hn Hf p c Hp. eapply con_ok_ext; [done..|]. by apply Hf. Qed.

Lemma move_to_end_ok o p : gw_ok o -> is_Some (heap o !! p) -> gw_ok (move_to_end o p).
Proof.
  intros Ho Hp. destruct Ho as [H1 H2 H3 H4 H5 H6 H7 H8 H9 H10].
  assert (p ∈ connections_list o) as Hin by by apply H7.
  assert (zlen (list_remove p (connections_list o) ++ [p]) = zlen (connections_list o)) as Hlen.
  { rewrite zlen_app, length_list_remove by done. change (zlen [p]) with 1. lia. }
  split; cbn; try done.
  - by rewrite Hlen.
  - apply list.NoDup_app. split; [by apply NoDup_list_remove|]. split; [|apply NoDup_singleton].
    intros q Hq. apply elem_list_remove in Hq as [_ Hq]. rewrite list_elem_of_singleton. done.
  - intros q. rewrite elem_of_app, elem_list_remove, list_elem_of_singleton, <- H7.
    destruct (decide (q = p)) as [->|]; [|tauto]. split; [intros _; done|]. intros _. by right.
  - by apply (cons_ext o).
Qed.

(** ** The specification: a least-recently-used table of bounded size *)

Abbreviation entry := (conaddr_t * Z)%type.

Definition lru_find (a : conaddr_t) (l : list entry) : option Z :=
  snd <$> List.find (fun e => bool_decide (fst e = a)) l.
Definition lru_remove (a : conaddr_t) (l : list entry) : list entry :=
  List.filter (fun e => negb (bool_decide (fst e = a))) l.

(** A datagram for [a]: the new table, and the identifier it is sent on, with
    the rebind mark. A new entry, with an
    identifier the table chooses, is made when there is room and memory. Taken
    over and new entries carry the rebind mark. *)
Definition lru_submit (max : Z) (memory : bool) (fresh : Z) (a : conaddr_t) (l : list entry) : list entry * option (Z * bool) :=
  match lru_find a l with
  | Some id => (lru_remove a l ++ [(a, id)], Some (id, false))
  | None => if zlen l =? max
            then match l with
                 | (_, id) :: l => (l ++ [(a, id)], Some (id, true))
                 | [] => ([], None)
                 end
            else if memory then (l ++ [(a, fresh)], Some (fresh, true)) else (l, None)
  end.

(** A message for identifier [id] claiming to be from [remote]. *)
Definition lru_receive (id : Z) (remote : BAddr) (l : list entry) : list entry * option BAddr :=
  match List.find (fun e => snd e =? id) l with
  | Some (a, _) => if bool_decide (snd a = remote) then (lru_remove a l ++ [(a, id)], Some (fst a)) else (l, None)
  | None => (l, None)
  end.

(** The table of a client. *)
Definition entry_of (c : UdpGwClient_connection) : entry := (conaddr c, conid c).
Definition entries (h : gmap Z UdpGwClient_connection) (l : list Z) : list entry := omap (fun p => entry_of <$> h !! p) l.
Definition table (o : UdpGwClient) : list entry := entries (heap o) (connections_list o).

#[global] Arguments entries : simpl never.

Lemma entries_app h l k : entries h (l ++ k) = entries h l ++ entries h k.
Proof. apply omap_app. Qed.

Lemma entries_ext h h' l :
  (forall p, p ∈ l -> entry_of <$> h' !! p = entry_of <$> h !! p) -> entries h' l = entries h l.
Proof.
  induction l as [|p l IH]; intros Hx; [done|]. unfold entries. simpl.
  rewrite (Hx p) by constructor. destruct (entry_of <$> h !! p); [f_equal|]; apply IH; intros q Hq; apply Hx; by constructor.
Qed.

Lemma entries_length (h : gmap Z UdpGwClient_connection) l :
  (forall p, p ∈ l -> is_Some (h !! p)) -> zlen (entries h l) = zlen l.
Proof.
  induction l as [|p l IH]; intros Hx; [done|]. destruct (Hx p) as [c Hc]; [constructor|].
  unfold entries. simpl. rewrite Hc. simpl. rewrite !zlen_cons. f_equal. apply IH. intros q Hq. apply Hx. by constructor.
Qed.

Lemma entries_cons h p c l : h !! p = Some c -> entries h (p :: l) = entry_of c :: entries h l.
Proof. intros Hc. unfold entries. simpl. by rewrite Hc. Qed.

(** Finding the entry of the one connection [ptr] that passes a test. *)
Lemma entries_find (h : gmap Z UdpGwClient_connection) (tst : entry -> bool) (ptr : option Z) l :
  (forall q c, h !! q = Some c -> tst (entry_of c) = true <-> ptr = Some q) ->
  (forall p, p ∈ l -> is_Some (h !! p)) ->
  List.find tst (entries h l) =
    match ptr with Some p => if bool_decide (p ∈ l) then entry_of <$> h !! p else None | None => None end.
Proof.
  intros Ht. induction l as [|q l IH]; intros Hl; [by destruct ptr|].
  destruct (Hl q) as [c Hc]; [constructor|]. rewrite (entries_cons _ _ _ _ Hc). cbn [List.find].
  destruct (tst (entry_of c)) eqn:E.
  - apply (Ht q c Hc) in E as ->. rewrite bool_decide_true by constructor. by rewrite Hc.
  - rewrite IH by (intros; apply Hl; by constructor). destruct ptr as [p|]; [|done].
    assert (p <> q) as Hpq. { intros ->. rewrite (proj2 (Ht q c Hc)) in E by done. done. }
    destruct (decide (p ∈ l)).
    + rewrite !bool_decide_true; [done|by constructor|done].
    + rewrite !bool_decide_false; [done| |done]. rewrite elem_of_cons. tauto.
Qed.

Lemma table_find o tst ptr :
  gw_ok o -> (forall q c, heap o !! q = Some c -> tst (entry_of c) = true <-> ptr = Some q) ->
  (forall p, ptr = Some p -> is_Some (heap o !! p)) ->
  List.find tst (table o) = match ptr with Some p => entry_of <$> heap o !! p | None => None end.
Proof.
  intros Ho Ht Hp. unfold table. rewrite (entries_find _ _ ptr) by (done || intros p; apply (gw_list o Ho)).
  destruct ptr as [p|]; [|done]. rewrite bool_decide_true; [done|]. by apply (gw_list o Ho), Hp.
Qed.

(** Entries are found by address and by identifier. *)
Lemma table_find_addr o a :
  gw_ok o -> List.find (fun e => bool_decide (fst e = a)) (table o) =
    match find_connection_by_conaddr o a with Some p => entry_of <$> heap o !! p | None => None end.
Proof.
  intros Ho. apply table_find; [done|..].
  - intros q c Hc. unfold find_connection_by_conaddr. rewrite (gw_addr o Ho), bool_decide_eq_true. naive_solver.
  - intros p Hp. apply (gw_addr o Ho) in Hp as (c & Hc & _). by exists c.
Qed.

Lemma table_find_id o i :
  gw_ok o -> List.find (fun e => snd e =? i) (table o) =
    match find_connection_by_conid o i with Some p => entry_of <$> heap o !! p | None => None end.
Proof.
  intros Ho. apply table_find; [done|..].
  - intros q c Hc. unfold find_connection_by_conid. rewrite (gw_id o Ho), Z.eqb_eq. naive_solver.
  - intros p Hp. apply (gw_id o Ho) in Hp as (c & Hc & _). by exists c.
Qed.

Lemma table_move o p c :
  gw_ok o -> heap o !! p = Some c -> table (move_to_end o p) = lru_remove (conaddr c) (table o) ++ [entry_of c].
Proof.
  intros Ho Hc. unfold table. cbn [move_to_end set_tables heap connections_list]. rewrite entries_app.
  rewrite (entries_cons _ _ _ _ Hc). f_equal.
  assert (forall q, q ∈ connections_list o -> is_Some (heap o !! q)) as Hl by (intros; by apply (gw_list o Ho)).
  induction (connections_list o) as [|q l IH]; [done|]. destruct (Hl q) as [c' Hc']; [constructor|].
  assert (forall q, q ∈ l -> is_Some (heap o !! q)) as Hl' by (intros; apply Hl; by constructor).
  rewrite (entries_cons _ _ _ _ Hc'). unfold lru_remove, list_remove. simpl. fold (list_remove p l).
  fold (lru_remove (conaddr c) (entries (heap o) l)). destruct (Z.eqb_spec q p) as [->|Hne]; cbn [negb].
  - assert (c' = c) as -> by congruence. rewrite bool_decide_true by done. cbn [negb]. by apply IH.
  - rewrite bool_decide_false; cbn [negb].
    + rewrite (entries_cons _ _ _ _ Hc'). f_equal. by apply IH.
    + intros E. apply Hne. assert (connections_tree_by_conaddr o !! conaddr c = Some q) as E1.
      { apply (gw_addr o Ho). by exists c'. }
      assert (connections_tree_by_conaddr o !! conaddr c = Some p) as E2. { apply (gw_addr o Ho). by exists c. }
      congruence.
Qed.

Lemma table_length o : gw_ok o -> zlen (table o) = num_connections o.
Proof. intros Ho. unfold table. rewrite entries_length, (gw_num o Ho); [done|]. intros p. apply (gw_list o Ho). Qed.

(** ** Steps *)

(** Taking over the least recently used connection. *)
Lemma reuse_spec o a :
  gw_ok o -> find_connection_by_conaddr o a = None -> 0 < num_connections o ->
  addr_wf (fst a) -> addr_wf (snd a) ->
  exists p c o', reuse_connection o a = Some (p, o') /\ gw_ok o' /\ head (connections_list o) = Some p /\
    heap o !! p = Some c /\ heap o' !! p = Some (mkCon a (conid c) (first_flags c) (first_data c) (first_job c)) /\
    table (move_to_end o' p) = tail (table o) ++ [(a, conid c)] /\ head (table o) = Some (entry_of c) /\
    outputs o' = outputs o /\ max_connections o' = max_connections o /\ udp_mtu o' = udp_mtu o /\
    have_server o' = have_server o /\ (forall q, q <> p -> heap o' !! q = heap o !! q) /\ next_ptr o' = next_ptr o /\
    next_conid o' = next_conid o /\ keepalive_sending o' = keepalive_sending o /\ num_connections o' = num_connections o.
Proof.
  intros Ho Hf Hn W1 W2. unfold reuse_connection. rewrite Hf, Z.gtb_ltb, (proj2 (Z.ltb_lt _ _)) by done.
  pose proof (gw_num o Ho) as Hnum. pose proof (gw_nodup o Ho) as Hnd.
  destruct (connections_list o) as [|p l] eqn:El; [rewrite zlen_nil in Hnum; lia|].
  assert (is_Some (heap o !! p)) as [c Hc] by (apply (gw_list o Ho); rewrite El; constructor).
  apply list.NoDup_cons in Hnd as [Hpl Hnd]. cbn [head]. rewrite Hc. set (c' := mkCon a _ _ _ _). unfold insert_by_conaddr.
  cbn [set_tables connections_tree_by_conaddr heap connections_tree_by_conid connections_list num_connections].
  unfold find_connection_by_conaddr in Hf. rewrite (proj2 (lookup_delete_None _ _ _)) by by right.
  assert (table o = entry_of c :: entries (heap o) l) as Ht by (unfold table; rewrite El; by apply entries_cons).
  eexists p, c, _. split; [done|]. cbn [set_tables heap]. rewrite Ht, lookup_insert_eq. split_and!; try done.
  - destruct Ho as [H1 H2 H3 H4 H5 H6 H7 H8 H9 H10]. rewrite <- El. split; cbn; try done.
    + intros q. rewrite H7. destruct (decide (q = p)) as [->|]; [|by rewrite lookup_insert_ne].
      rewrite lookup_insert_eq, Hc. split; intros; by eexists.
    + intros b q. destruct (decide (b = a)) as [->|Hb].
      * rewrite lookup_insert_eq. split.
        -- intros [= <-]. exists c'. by rewrite lookup_insert_eq.
        -- intros (d & Hd & Ed). destruct (decide (q = p)) as [->|Hq]; [done|]. rewrite lookup_insert_ne in Hd by done.
           assert (connections_tree_by_conaddr o !! a = Some q) by (apply H8; by exists d). congruence.
      * rewrite lookup_insert_ne by done. destruct (decide (b = conaddr c)) as [->|Hbc].
        -- rewrite lookup_delete_eq. split; [done|]. intros (d & Hd & Ed).
           destruct (decide (q = p)) as [->|Hq]; [rewrite lookup_insert_eq in Hd; injection Hd as <-; done|].
           rewrite lookup_insert_ne in Hd by done.
           assert (connections_tree_by_conaddr o !! conaddr c = Some q) by (apply H8; by exists d).
           assert (connections_tree_by_conaddr o !! conaddr c = Some p) by (apply H8; by exists c). congruence.
        -- rewrite lookup_delete_ne by done. rewrite H8. destruct (decide (q = p)) as [->|Hq].
           ++ rewrite lookup_insert_eq. split; [|intros (d & [= <-] & Ed); done].
              intros (d & Hd & Ed). congruence.
           ++ by rewrite lookup_insert_ne by done.
    + intros i q. rewrite H9. destruct (decide (q = p)) as [->|Hq]; [|by rewrite lookup_insert_ne].
      rewrite lookup_insert_eq, Hc. split; intros (d & [= <-] & Ed); by eexists.
    + apply (cons_ext o); [done..|]. apply map_Forall_insert_2; [|done]. destruct (H10 _ _ Hc). by split.
  - unfold table. cbn [move_to_end set_tables heap connections_list]. rewrite entries_app.
    unfold list_remove. cbn [List.filter]. rewrite Z.eqb_refl. cbn [negb]. fold (list_remove p l).
    rewrite list_remove_notin by done. f_equal.
    + apply entries_ext. intros q Hq. rewrite lookup_insert_ne; [done|]. intros ->. done.
    + rewrite (entries_cons _ _ c' []); [done|]. by rewrite lookup_insert_eq.
  - intros q Hq. by rewrite lookup_insert_ne.
Qed.

(** States that differ only outside of the tables. *)
Record same_tables (o o' : UdpGwClient) : Prop := {
  st_heap : heap o' = heap o;
  st_addr : connections_tree_by_conaddr o' = connections_tree_by_conaddr o;
  st_id : connections_tree_by_conid o' = connections_tree_by_conid o;
  st_list : connections_list o' = connections_list o;
  st_num : num_connections o' = num_connections o;
  st_umtu : udp_mtu o' = udp_mtu o;
  st_max : max_connections o' = max_connections o;
  st_gmtu : udpgw_mtu o' = udpgw_mtu o;
  st_pp : pp_mtu o' = pp_mtu o;
  st_ptr : next_ptr o' = next_ptr o
}.

Lemma same_tables_ok o o' :
  same_tables o o' -> 0 <= next_conid o' < max_connections o' -> gw_ok o -> gw_ok o'.
Proof.
  intros [] Hn []. split; rewrite ?st_heap0, ?st_addr0, ?st_id0, ?st_list0, ?st_num0, ?st_umtu0, ?st_gmtu0, ?st_pp0; try done.
  - by rewrite st_max0.
  - by rewrite st_max0.
  - apply (cons_ext o); [done|done|lia|done].
Qed.

Lemma same_tables_table o o' : same_tables o o' -> table o' = table o.
Proof. intros []. unfold table. congruence. Qed.

Lemma output_same o x : same_tables o (output o x).
Proof. by split. Qed.

Lemma output_ok o x : gw_ok o -> gw_ok (output o x).
Proof. intros Ho. apply (same_tables_ok o); [apply output_same|apply (gw_next o Ho)|done]. Qed.

Lemma connection_init_spec mem flow_ok o a flags data :
  gw_ok o -> find_connection_by_conaddr o a = None -> num_connections o < max_connections o ->
  addr_wf (fst a) -> addr_wf (snd a) -> zlen data <= udp_mtu o -> flags = 0 \/ flags = UDPGW_CLIENT_FLAG_DNS ->
  exists o', connection_init mem flow_ok o a flags data = Some o' /\ gw_ok o' /\ outputs o' = outputs o /\
    have_server o' = have_server o /\ udp_mtu o' = udp_mtu o /\ max_connections o' = max_connections o /\
    keepalive_sending o' = keepalive_sending o /\
    if mem && flow_ok
    then exists i, 0 <= i < max_connections o /\ find_connection_by_conid o i = None /\
           table o' = table o ++ [(a, i)] /\ heap o' = <[next_ptr o := mkCon a i flags data true]> (heap o)
    else table o' = table o /\ heap o' = heap o.
Proof.
  intros Ho Hf Hn W1 W2 Hd Hfl. unfold connection_init. rewrite (proj2 (Z.ltb_lt _ _)) by done.
  rewrite Hf, (proj2 (Z.leb_le _ _)) by done. destruct mem; cbn [negb andb]; [|by exists o].
  destruct (find_unused_total o Ho Hn) as (i & Hi & Hr & Hu). rewrite Hi.
  destruct flow_ok; cbn [negb].
  2: { eexists. split; [done|]. split; [|done]. apply (same_tables_ok o); [by split|done|done]. }
  assert (u16 i = i) as Ei by (unfold u16; apply Z.mod_small; pose proof (gw_max o Ho); lia).
  unfold alloc. cbn [set_next_conid next_ptr]. rewrite Ei. set (c := mkCon a i flags data true). set (p := next_ptr o).
  unfold insert_by_conaddr. cbn [connections_tree_by_conaddr set_next_conid]. unfold find_connection_by_conaddr in Hf. rewrite Hf.
  unfold insert_by_conid. cbn [set_tables connections_tree_by_conid set_next_conid]. rewrite Hu.
  eexists. split; [done|]. cbn.
  assert (heap o !! p = None) as Hp.
  { destruct (heap o !! p) as [d|] eqn:E; [|done]. destruct (gw_cons o Ho _ _ E). unfold p in *. lia. }
  assert (forall q, q ∈ connections_list o -> q <> p) as Hql.
  { intros q Hq ->. apply (gw_list o Ho) in Hq as [d Hq]. congruence. }
  split.
  - destruct Ho as [H1 H2 H3 H4 H5 H6 H7 H8 H9 H10]. split; cbn; try done.
    + rewrite zlen_app, H4. reflexivity.
    + lia.
    + apply list.NoDup_app. split; [done|]. split; [|apply NoDup_singleton].
      intros q Hq. rewrite list_elem_of_singleton. by apply Hql.
    + intros q. rewrite elem_of_app, list_elem_of_singleton, H7. destruct (decide (q = p)) as [->|Hq].
      * rewrite lookup_insert_eq. split; [intros _; by eexists|by right].
      * rewrite lookup_insert_ne by done. tauto.
    + intros b q. destruct (decide (b = a)) as [->|Hb].
      * rewrite lookup_insert_eq. split; [intros [= <-]; exists c; by rewrite lookup_insert_eq|].
        intros (d & Hdd & Ed). destruct (decide (q = p)) as [->|Hq]; [done|]. rewrite lookup_insert_ne in Hdd by done.
        assert (connections_tree_by_conaddr o !! a = Some q) by (apply H8; by exists d). congruence.
      * rewrite lookup_insert_ne, H8 by done. destruct (decide (q = p)) as [->|Hq]; [|by rewrite lookup_insert_ne].
        rewrite lookup_insert_eq, Hp. split; [intros (d & Hx & _); done|]. intros (d & [= <-] & Ed). done.
    + intros j q. destruct (decide (j = i)) as [->|Hb].
      * rewrite lookup_insert_eq. split; [intros [= <-]; exists c; by rewrite lookup_insert_eq|].
        intros (d & Hdd & Ed). destruct (decide (q = p)) as [->|Hq]; [done|]. rewrite lookup_insert_ne in Hdd by done.
        assert (connections_tree_by_conid o !! i = Some q) by (apply H9; by exists d). congruence.
      * rewrite lookup_insert_ne, H9 by done. destruct (decide (q = p)) as [->|Hq]; [|by rewrite lookup_insert_ne].
        rewrite lookup_insert_eq, Hp. split; [intros (d & Hx & _); done|]. intros (d & [= <-] & Ed). done.
    + apply map_Forall_insert_2; [split; cbn; try done; unfold p; lia|]. apply (cons_ext o); cbn; try done. lia.
  - split_and!; try done. exists i. split; [done|]. split; [done|]. split; [|done]. unfold table. cbn. rewrite entries_app. f_equal.
    + apply entries_ext. intros q Hq. rewrite lookup_insert_ne; [done|]. intros E. by apply (Hql q Hq).
    + by rewrite (entries_cons _ _ c []) by by rewrite lookup_insert_eq.
Qed.

(** The first job of a connection is cleared when it runs. *)
Lemma clear_job_ok o p c :
  gw_ok o -> heap o !! p = Some c ->
  gw_ok (set_tables o (<[p := mkCon (conaddr c) (conid c) (first_flags c) (first_data c) false]> (heap o))
           (connections_tree_by_conaddr o) (connections_tree_by_conid o) (connections_list o) (num_connections o)).
Proof.
  intros Ho Hc. destruct Ho as [H1 H2 H3 H4 H5 H6 H7 H8 H9 H10]. split; cbn; try done.
  - intros q. rewrite H7. destruct (decide (q = p)) as [->|]; [|by rewrite lookup_insert_ne].
    rewrite lookup_insert_eq, Hc. split; intros; by eexists.
  - intros b q. rewrite H8. destruct (decide (q = p)) as [->|Hq]; [|by rewrite lookup_insert_ne].
    rewrite lookup_insert_eq, Hc. split; intros (d & [= <-] & Ed); by eexists.
  - intros i q. rewrite H9. destruct (decide (q = p)) as [->|Hq]; [|by rewrite lookup_insert_ne].
    rewrite lookup_insert_eq, Hc. split; intros (d & [= <-] & Ed); by eexists.
  - apply (cons_ext o); [done|done|cbn; lia|]. apply map_Forall_insert_2; [|done]. destruct (H10 _ _ Hc). by split.
Qed.

Definition no_pending (o : UdpGwClient) : Prop := map_Forall (fun _ c => first_job c = false) (heap o).

(** The flags of a datagram's message. *)
Definition datagram_flags (is_dns rebind : bool) : Z :=
  Z.lor (if rebind then UDPGW_CLIENT_FLAG_REBIND else 0) (if is_dns then UDPGW_CLIENT_FLAG_DNS else 0).

(** Sending on an existing connection, after it was moved in the list. *)
Lemma send_existing o p c buf flags data :
  gw_ok o -> heap o !! p = Some c -> zlen data <= udp_mtu o ->
  exists o', connection_send buf (move_to_end o p) p flags data = Some o' /\ gw_ok o' /\
    table o' = table (move_to_end o p) /\ heap o' = heap o /\
    connections_tree_by_conaddr o' = connections_tree_by_conaddr o /\ udp_mtu o' = udp_mtu o /\
    max_connections o' = max_connections o /\ have_server o' = have_server o /\
    keepalive_sending o' = keepalive_sending o /\
    outputs o' = outputs o ++ (if buf then [Message (udpgw_message flags (conid c) (snd (conaddr c)) data)] else []).
Proof.
  intros Ho Hc Hd. assert (gw_ok (move_to_end o p)) as Hm by (apply move_to_end_ok; [done|by exists c]).
  rewrite (connection_send_spec _ _ _ c) by done. eexists. split; [done|].
  destruct buf; split_and!; try done.
  - by apply output_ok.
  - by rewrite app_nil_r.
Qed.

Lemma table_remove_head o : gw_ok o -> forall e l, table o = e :: l -> lru_remove (fst e) (table o) = l.
Proof.
  intros Ho e l Ht. unfold table in Ht.
  destruct (connections_list o) as [|p ps] eqn:El; [done|].
  assert (is_Some (heap o !! p)) as [c Hc] by (apply (gw_list o Ho); rewrite El; constructor).
  rewrite (entries_cons _ _ _ _ Hc) in Ht. injection Ht as <- <-.
  pose proof (table_move o p c Ho Hc) as Hm. unfold table in Hm at 1.
  cbn [move_to_end set_tables heap connections_list] in Hm. rewrite entries_app, (entries_cons _ _ _ _ Hc) in Hm.
  apply app_inj_tail in Hm as [Hm _]. cbn [fst entry_of]. rewrite <- Hm, El.
  pose proof (gw_nodup o Ho) as Hnd. rewrite El in Hnd. apply list.NoDup_cons in Hnd as [Hp _].
  unfold list_remove. cbn [List.filter]. rewrite Z.eqb_refl. cbn [negb]. fold (list_remove p ps). by rewrite list_remove_notin.
Qed.

(** One datagram: the table changes as the specification says, and one message
    goes out when there is room for it. *)
Lemma submit_step mem flow_ok buf o l r is_dns data :
  gw_ok o -> no_pending o -> addr_wf l -> addr_wf r -> zlen data <= udp_mtu o ->
  exists o' fresh, submit_and_first_job mem flow_ok buf o l r is_dns data = Some o' /\ gw_ok o' /\ no_pending o' /\
    have_server o' = have_server o /\ udp_mtu o' = udp_mtu o /\ max_connections o' = max_connections o /\
    keepalive_sending o' = keepalive_sending o /\
    0 <= fresh < max_connections o /\ (num_connections o < max_connections o -> find_connection_by_conid o fresh = None) /\
    let (t, s) := lru_submit (max_connections o) (mem && flow_ok) fresh (l, r) (table o) in
    table o' = t /\
    outputs o' = outputs o ++
      match s with
      | Some (id, rebind) => if buf then [Message (udpgw_message (datagram_flags is_dns rebind) id r data)] else []
      | None => []
      end.
Proof.
  intros Ho Hnp Wl Wr Hd. unfold submit_and_first_job, UdpGwClient_SubmitPacket.
  assert (is_ip l = true) as -> by by destruct l. assert (is_ip r = true) as -> by by destruct r.
  rewrite (proj2 (Z.leb_le _ _)) by done.
  set (df := if is_dns then Z.lor 0 UDPGW_CLIENT_FLAG_DNS else 0).
  unfold lru_submit, lru_find. rewrite table_find_addr, table_length by done. pose proof (gw_max o Ho).
  destruct (find_connection_by_conaddr o (l, r)) as [p|] eqn:Ef.
  - assert (exists fresh, 0 <= fresh < max_connections o /\
      (num_connections o < max_connections o -> find_connection_by_conid o fresh = None)) as (fresh & Hf1 & Hf2).
    { destruct (decide (num_connections o < max_connections o)) as [Hlt|Hge]; [|exists 0; split; [lia|done]].
      destruct (find_unused_total o Ho Hlt) as (i & _ & ? & ?). by exists i. }
    pose proof Ef as (c & Hc & Ea)%(gw_addr o Ho). rewrite Hc. cbn [fmap option_fmap option_map snd entry_of].
    destruct (send_existing o p c buf df data Ho Hc Hd) as (o' & -> & Hok & Ht & Hh & Hta & Hu & Hmx & Hs & Hka & Hout).
    unfold find_connection_by_conaddr in *. rewrite Hta, Ef, Hh, Hc. rewrite (Hnp _ _ Hc). exists o', fresh.
    split; [done|]. split; [done|]. split; [by unfold no_pending; rewrite Hh|]. do 6 (split; [done|]). split.
    + rewrite Ht, (table_move _ _ c) by done. unfold entry_of. by rewrite Ea.
    + rewrite Hout, Ea. unfold datagram_flags. by destruct is_dns.
  - destruct (Z.eqb_spec (num_connections o) (max_connections o)) as [Hfull|Hfull].
    + destruct (reuse_spec o (l, r) Ho Ef ltac:(lia) Wl Wr)
        as (p & c & o1 & -> & Ho1 & Hhd & Hc & Hc1 & Ht1 & Hht & R1 & R2 & R3 & R4 & R5 & R6 & R7 & R8 & R9).
      destruct (send_existing o1 p _ buf (Z.lor df UDPGW_CLIENT_FLAG_REBIND) data Ho1 Hc1 ltac:(lia))
        as (o' & -> & Hok & Ht & Hh & Hta & Hu & Hmx & Hs & Hka & Hout).
      assert (connections_tree_by_conaddr o1 !! (l, r) = Some p) as Ef1 by (apply (gw_addr o1 Ho1); eexists; done).
      unfold find_connection_by_conaddr. rewrite Hta, Ef1, Hh, Hc1. cbn [first_job]. rewrite (Hnp _ _ Hc). exists o', 0.
      split; [done|]. split; [done|]. split.
      { unfold no_pending. rewrite Hh. intros q d Hq. destruct (decide (q = p)) as [->|Hne].
        - rewrite Hc1 in Hq. injection Hq as <-. apply (Hnp _ _ Hc).
        - rewrite R5 in Hq by done. apply (Hnp _ _ Hq). }
      do 4 (split; [congruence|]). split; [lia|]. split; [lia|].
      destruct (table o) as [|e t] eqn:Et; [done|]. injection Hht as ->. cbn [tail] in Ht1. unfold entry_of. split.
      * by rewrite Ht, Ht1.
      * rewrite Hout, R1. cbn [conid conaddr snd]. unfold datagram_flags, df. by destruct is_dns.
    + destruct (connection_init_spec mem flow_ok o (l, r) df data Ho Ef) as (o1 & -> & Ho1 & I1 & I2 & I3 & I4 & I5 & I6);
        try done; [pose proof (gw_le o Ho); lia|unfold df; destruct is_dns; [by right|by left]|].
      destruct (mem && flow_ok) eqn:Emem.
      * destruct I6 as (i & Hi & Hfr & Ht & Hh). set (p := next_ptr o) in *.
        assert (heap o1 !! p = Some (mkCon (l, r) i df data true)) as Hc1 by (rewrite Hh; apply lookup_insert_eq).
        assert (connections_tree_by_conaddr o1 !! (l, r) = Some p) as Ef1 by (apply (gw_addr o1 Ho1); by eexists).
        unfold find_connection_by_conaddr. rewrite Ef1, Hc1. cbn [first_job]. unfold connection_first_job_handler.
        rewrite Hc1. cbn [first_job conaddr conid first_flags first_data].
        set (o2 := set_tables o1 _ _ _ _ _). assert (gw_ok o2) as Ho2 by apply (clear_job_ok o1 p _ Ho1 Hc1).
        assert (heap o2 !! p = Some (mkCon (l, r) i df data false)) as Hc2 by apply lookup_insert_eq.
        rewrite (connection_send_spec _ _ _ _ _ _ Ho2 Hc2) by (cbn; lia). cbn [conid conaddr snd].
        eexists _, i. split; [done|]. split; [destruct buf; [by apply output_ok|done]|].
        assert (no_pending o2) as Hnp2.
        { intros q d Hq. destruct (decide (q = p)) as [->|Hne].
          - rewrite Hc2 in Hq. by injection Hq as <-.
          - cbn in Hq. rewrite lookup_insert_ne, Hh, lookup_insert_ne in Hq by done. apply (Hnp _ _ Hq). }
        do 5 (split; [by destruct buf|]). split; [done|]. split; [done|]. split.
        -- rewrite <- Ht. transitivity (table o2); [by destruct buf|]. apply entries_ext. intros q _. cbn.
           destruct (decide (q = p)) as [->|Hne]; [by rewrite lookup_insert_eq, Hc1|by rewrite lookup_insert_ne].
        -- unfold datagram_flags, df. destruct buf; cbn; [|by rewrite app_nil_r, I1]. rewrite I1. by destruct is_dns.
      * destruct I6 as [Ht Hh]. destruct (find_unused_total o Ho) as (i & _ & Hi1 & Hi2); [pose proof (gw_le o Ho); lia|].
        assert (connections_tree_by_conaddr o1 !! (l, r) = None) as Ef1.
        { destruct (connections_tree_by_conaddr o1 !! (l, r)) as [q|] eqn:E; [|done].
          apply (gw_addr o1 Ho1) in E as (d & Hd1 & Ed). rewrite Hh in Hd1.
          assert (connections_tree_by_conaddr o !! (l, r) = Some q) as E by (apply (gw_addr o Ho); by exists d).
          unfold find_connection_by_conaddr in Ef. congruence. }
        unfold find_connection_by_conaddr. rewrite Ef1. exists o1, i. split; [done|]. split; [done|].
        split; [by unfold no_pending; rewrite Hh|]. do 6 (split; [done|]). split; [done|]. by rewrite app_nil_r.
Qed.

(** ** Receiving *)

(** A message as the server writes it: the address family is that of the flag. *)
Definition server_message (flags id : Z) (remote : BAddr) (data : list Z) : list Z :=
  ([flags] ++ le16 id) ++ addr_bytes remote ++ data.

Record message_ok (flags id : Z) (remote : BAddr) : Prop := {
  m_flags : byte_ok flags;
  m_id : 0 <= id < 65536;
  m_remote : addr_wf remote;
  m_family : Z.land flags UDPGW_CLIENT_FLAG_IPV6 = 0 <-> (exists ip p, remote = BADDR_IPV4 ip p)
}.

Lemma addr_bytes_zlen a : addr_wf a -> zlen (addr_bytes a) = match a with BADDR_IPV6 _ _ => 18 | _ => 6 end.
Proof.
  destruct a as [|ip p|ip p]; cbn [addr_wf addr_bytes]; [done|done|]. intros (H & _). rewrite zlen_app, H. reflexivity.
Qed.

Lemma recv_eval_msg o flags id remote data :
  have_server o = true -> message_ok flags id remote ->
  zlen (server_message flags id remote data) <= udpgw_mtu o ->
  recv_interface_handler_send o (server_message flags id remote data) =
    if zlen data >? udp_mtu o then Some o
    else match find_connection_by_conid o id with
         | None => Some o
         | Some p =>
             let* con := heap o !! p in
             if negb (bool_decide (snd (conaddr con) = remote)) then Some o
             else Some (output (move_to_end o p) (Received (fst (conaddr con)) (snd (conaddr con)) data))
         end.
Proof.
  intros Hs [Hf Hi Hr Hfam] Hl. unfold recv_interface_handler_send. rewrite Hs, (proj2 (Z.leb_le _ _)) by done.
  pose proof (addr_bytes_zlen remote Hr) as La. pose proof (zlen_nonneg data).
  assert (zlen (server_message flags id remote data) = 3 + zlen (addr_bytes remote ++ data)) as Lm.
  { unfold server_message. rewrite zlen_app. reflexivity. }
  rewrite zlen_app in Lm. unfold sizeof_udpgw_header.
  rewrite (proj2 (Z.ltb_ge _ _)) by (destruct remote; lia).
  assert (ld8 (server_message flags id remote data) 0 = flags) as -> by reflexivity.
  assert (ltoh16 (ld16 (server_message flags id remote data) 1) = id) as ->.
  { rewrite <- (ltoh16_id id) at 2 by done. f_equal. apply (ld16_le16 id Hi). }
  assert (slice 3 (zlen (server_message flags id remote data) - 3) (server_message flags id remote data) = addr_bytes remote ++ data) as ->.
  { apply slice_app_exact; [done|]. rewrite zlen_app. lia. }
  cbv zeta. destruct remote as [|ip p|ip p]; [done|..]; cbn [addr_wf] in Hr.
  - assert (Z.land flags UDPGW_CLIENT_FLAG_IPV6 = 0) as -> by (apply Hfam; by eexists _, _).
    cbn [Z.eqb negb]. unfold sizeof_udpgw_addr_ipv4. rewrite zlen_app, La. rewrite (proj2 (Z.ltb_ge _ _)) by lia.
    cbn [addr_bytes]. assert (ld32 ((le32 ip ++ le16 p) ++ data) 0 = ip) as -> by (apply (ld32_le32 ip); lia).
    assert (ld16 ((le32 ip ++ le16 p) ++ data) 4 = p) as -> by (apply (ld16_le16 p); lia).
    replace (slice 6 (6 + zlen data - 6) ((le32 ip ++ le16 p) ++ data)) with data; [done|].
    symmetry. apply slice_app_exact; [done|lia].
  - assert ((Z.land flags UDPGW_CLIENT_FLAG_IPV6 =? 0) = false) as ->.
    { apply Z.eqb_neq. intros E. apply Hfam in E as (? & ? & ?). done. }
    cbn [negb]. unfold sizeof_udpgw_addr_ipv6. rewrite zlen_app, La. rewrite (proj2 (Z.ltb_ge _ _)) by lia.
    cbn [addr_bytes]. destruct Hr as (L16 & Bi & Hp).
    assert (slice 0 16 ((ip ++ le16 p) ++ data) = ip) as ->.
    { rewrite <- app_assoc. rewrite slice_app_l by lia. rewrite <- L16. apply slice_all. }
    assert (ld16 ((ip ++ le16 p) ++ data) 16 = p) as ->.
    { rewrite <- app_assoc. unfold ld16. rewrite (ld8_app_r ip _ 16), (ld8_app_r ip _ (16 + 1)) by lia. rewrite L16.
      transitivity (ld16 (le16 p) 0); [reflexivity|by apply ld16_le16]. }
    replace (slice 18 (18 + zlen data - 18) ((ip ++ le16 p) ++ data)) with data; [done|].
    symmetry. apply slice_app_exact; [rewrite zlen_app, L16; done|lia].
Qed.

(** Whatever else is received changes nothing. *)
Lemma recv_cases o data :
  bytes_ok data ->
  (exists flags id remote p, data = server_message flags id remote p /\ message_ok flags id remote) \/
  ((forall flags id remote p, data = server_message flags id remote p -> ~ message_ok flags id remote) /\
   (have_server o = true -> zlen data <= udpgw_mtu o -> recv_interface_handler_send o data = Some o)).
Proof.
  intros Hb. pose proof (zlen_nonneg data).
  destruct (decide (zlen data < 3)) as [Hlt|Hge].
  { right. split.
    - intros flags id remote p -> Hm. revert Hlt. unfold server_message. rewrite !zlen_app.
      change (zlen [flags]) with 1. change (zlen (le16 id)) with 2. pose proof (zlen_nonneg (addr_bytes remote)). pose proof (zlen_nonneg p). lia.
    - intros Hs Hl. unfold recv_interface_handler_send. rewrite Hs, (proj2 (Z.leb_le _ _)) by done.
      by rewrite (proj2 (Z.ltb_lt (zlen data) sizeof_udpgw_header)). }
  set (rest := slice 3 (zlen data - 3) data). assert (zlen rest = zlen data - 3) as Lr by (apply zlen_slice; lia).
  assert (bytes_ok rest) as Br by by apply bytes_ok_slice.
  assert (data = ([ld8 data 0] ++ le16 (ld16 data 1)) ++ rest) as Hd.
  { rewrite le16_ld16 by (done || lia). unfold rest.
    assert ([ld8 data 0] = slice 0 1 data) as ->.
    { destruct data; [rewrite zlen_nil in Hge; lia|reflexivity]. }
    rewrite <- (slice_add 0 1 2) by lia. rewrite <- (slice_add 0 (1 + 2)) by lia.
    replace (1 + 2 + (zlen data - 3)) with (zlen data) by lia. symmetry. apply slice_all. }
  assert (0 <= ld16 data 1 < 65536) as Hid by by apply ld16_bounds.
  assert (byte_ok (ld8 data 0)) as Hfl by by apply ld8_ok.
  destruct (Z.land (ld8 data 0) UDPGW_CLIENT_FLAG_IPV6 =? 0) eqn:E6.
  - destruct (decide (zlen rest < 6)) as [Hs|Hs].
    + right. split.
      * intros flags id remote p Heq [_ _ Hr Hfam]. assert (ld8 data 0 = flags) as Ef by by rewrite Heq.
        apply Z.eqb_eq in E6. rewrite Ef in E6. apply Hfam in E6 as (ip & pt & ->).
        pose proof (zlen_nonneg p). revert Lr Hs. rewrite Heq. unfold server_message. rewrite !zlen_app.
        rewrite (addr_bytes_zlen _ Hr). change (zlen [flags]) with 1. change (zlen (le16 id)) with 2. lia.
      * intros Hsv Hl. unfold recv_interface_handler_send. rewrite Hsv, (proj2 (Z.leb_le _ _)) by done.
        unfold sizeof_udpgw_header. rewrite (proj2 (Z.ltb_ge _ _)) by lia. cbv zeta. fold rest. rewrite E6. cbn [negb].
        by rewrite (proj2 (Z.ltb_lt (zlen rest) sizeof_udpgw_addr_ipv4)).
    + left. exists (ld8 data 0), (ld16 data 1), (BADDR_IPV4 (ld32 rest 0) (ld16 rest 4)), (slice 6 (zlen rest - 6) rest).
      split.
      * rewrite Hd at 1. unfold server_message. f_equal. cbn [addr_bytes]. rewrite le32_ld32 by done.
        rewrite !le16_ld16 by (done || lia). rewrite <- !app_assoc. change (0 + 2) with 2.
        rewrite <- (slice_add 4 2) by lia. rewrite <- (slice_add 2 2) by lia. rewrite <- (slice_add 0 2) by lia.
        replace (2 + (2 + (2 + (zlen rest - 6)))) with (zlen rest) by lia. symmetry. apply slice_all.
      * split; [done|done| |].
        -- split; [by apply ld32_bounds|by apply ld16_bounds].
        -- apply Z.eqb_eq in E6. split; [intros _; by eexists _, _|done].
  - destruct (decide (zlen rest < 18)) as [Hs|Hs].
    + right. split.
      * intros flags id remote p Heq [_ _ Hr Hfam]. assert (ld8 data 0 = flags) as Ef by by rewrite Heq.
        apply Z.eqb_neq in E6. rewrite Ef in E6.
        destruct remote as [|ip pt|ip pt]; [done|apply E6, Hfam; by eexists _, _|].
        pose proof (zlen_nonneg p). revert Lr Hs. rewrite Heq. unfold server_message. rewrite !zlen_app.
        rewrite (addr_bytes_zlen _ Hr). change (zlen [flags]) with 1. change (zlen (le16 id)) with 2. lia.
      * intros Hsv Hl. unfold recv_interface_handler_send. rewrite Hsv, (proj2 (Z.leb_le _ _)) by done.
        unfold sizeof_udpgw_header. rewrite (proj2 (Z.ltb_ge _ _)) by lia. cbv zeta. fold rest. rewrite E6. cbn [negb].
        by rewrite (proj2 (Z.ltb_lt (zlen rest) sizeof_udpgw_addr_ipv6)).
    + left. exists (ld8 data 0), (ld16 data 1), (BADDR_IPV6 (slice 0 16 rest) (ld16 rest 16)), (slice 18 (zlen rest - 18) rest).
      split.
      * rewrite Hd at 1. unfold server_message. f_equal. cbn [addr_bytes].
        rewrite !le16_ld16 by (done || lia). rewrite <- !app_assoc.
        rewrite <- (slice_add 16 2) by lia. rewrite <- (slice_add 0 16) by lia.
        replace (16 + (2 + (zlen rest - 18))) with (zlen rest) by lia. symmetry. apply slice_all.
      * split; [done|done| |].
        -- split; [apply zlen_slice; lia|]. split; [by apply bytes_ok_slice|by apply ld16_bounds].
        -- apply Z.eqb_neq in E6. split; [done|]. intros (? & ? & ?). done.
Qed.

(** One received message: the table is used as the specification says. *)
Lemma recv_step_msg o flags id remote data :
  gw_ok o -> no_pending o -> have_server o = true -> message_ok flags id remote ->
  zlen (server_message flags id remote data) <= udpgw_mtu o ->
  exists o', recv_interface_handler_send o (server_message flags id remote data) = Some o' /\ gw_ok o' /\ no_pending o' /\
    have_server o' = have_server o /\ udp_mtu o' = udp_mtu o /\ max_connections o' = max_connections o /\
    keepalive_sending o' = keepalive_sending o /\
    let (t, l) := if zlen data <=? udp_mtu o then lru_receive id remote (table o) else (table o, None) in
    table o' = t /\ outputs o' = outputs o ++ match l with Some l => [Received l remote data] | None => [] end.
Proof.
  intros Ho Hnp Hs Hm Hl. rewrite recv_eval_msg by done. rewrite Z.gtb_ltb, Z.leb_antisym.
  destruct (udp_mtu o <? zlen data); cbn [negb]; [exists o; rewrite app_nil_r; by split_and!|].
  unfold lru_receive. rewrite table_find_id by done.
  destruct (find_connection_by_conid o id) as [p|] eqn:Ef; [|exists o; rewrite app_nil_r; by split_and!].
  pose proof Ef as (c & Hc & Ei)%(gw_id o Ho). rewrite Hc. cbn [fmap option_fmap option_map entry_of].
  destruct (bool_decide_reflect (snd (conaddr c) = remote)) as [Er|Er]; cbn [negb].
  - eexists. split; [done|]. assert (gw_ok (move_to_end o p)) as Hmv by (apply move_to_end_ok; [done|by exists c]).
    split; [by apply output_ok|]. split_and!; try done.
    + transitivity (table (move_to_end o p)); [done|]. rewrite (table_move _ _ c) by done. unfold entry_of. by rewrite Ei.
    + cbn. by rewrite Er.
  - exists o. rewrite app_nil_r. by split_and!.
Qed.

(** ** Histories *)

Inductive gw_ev :=
| GE_submit (mem flow_ok buf : bool) (l r : BAddr) (is_dns : bool) (data : list Z)
| GE_message (data : list Z)
| GE_decoder_error
| GE_monitor
| GE_keepalive_done
| GE_connect (decoder_ok : bool)
| GE_disconnect.

Definition gw_exec (o : UdpGwClient) (e : gw_ev) : option UdpGwClient :=
  match e with
  | GE_submit mem flow_ok buf l r dns data => submit_and_first_job mem flow_ok buf o l r dns data
  | GE_message data => recv_interface_handler_send o data
  | GE_decoder_error => decoder_handler_error o
  | GE_monitor => send_monitor_handler o
  | GE_keepalive_done => keepalive_if_handler_done o
  | GE_connect ok => let* (_, o) := UdpGwClient_ConnectServer ok o in Some o
  | GE_disconnect => UdpGwClient_DisconnectServer o
  end.

Definition bytesb (l : list Z) : bool := forallb (fun b => (0 <=? b) && (b <? 256)) l.
Definition addr_wfb (a : BAddr) : bool :=
  match a with
  | BADDR_NONE => false
  | BADDR_IPV4 ip p => (0 <=? ip) && (ip <? 4294967296) && (0 <=? p) && (p <? 65536)
  | BADDR_IPV6 ip p => (zlen ip =? 16) && bytesb ip && (0 <=? p) && (p <? 65536)
  end.

(** The calling rules of the component. *)
Definition gw_enabled (o : UdpGwClient) (e : gw_ev) : bool :=
  match e with
  | GE_submit _ _ _ l r _ data => addr_wfb l && addr_wfb r && (zlen data <=? udp_mtu o)
  | GE_message data => have_server o && (zlen data <=? udpgw_mtu o) && bytesb data
  | GE_decoder_error | GE_disconnect => have_server o
  | GE_keepalive_done => keepalive_sending o
  | GE_connect _ => negb (have_server o)
  | GE_monitor => true
  end.

(** [None]: the rules were broken; [Some None]: the client failed. *)
Fixpoint gw_run (o : UdpGwClient) (evs : list gw_ev) : option (option UdpGwClient) :=
  match evs with
  | [] => Some (Some o)
  | e :: evs => if gw_enabled o e
                then match gw_exec o e with Some o => gw_run o evs | None => Some None end
                else None
  end.

Lemma bytesb_ok l : bytesb l = true -> bytes_ok l.
Proof. intros H. apply List.Forall_forall. intros b Hb. unfold bytesb in H. rewrite forallb_forall in H. specialize (H b Hb). unfold byte_ok. lia. Qed.

Lemma addr_wfb_ok a : addr_wfb a = true -> addr_wf a.
Proof.
  destruct a as [|ip p|ip p]; cbn; [done|lia|]. intros H. repeat (apply andb_true_iff in H as [H ?]).
  split; [lia|]. split; [by apply bytesb_ok|lia].
Qed.

(** The specification: the table, and whether a keep-alive is being sent. *)
Inductive lru_step (max mtu : Z) : list entry -> bool -> gw_ev -> list entry -> bool -> list gw_output -> Prop :=
| LS_submit t ka mem flow_ok buf l r dns data fresh t' s :
    0 <= fresh < max -> (zlen t < max -> Forall (fun e => snd e <> fresh) t) ->
    lru_submit max (mem && flow_ok) fresh (l, r) t = (t', s) ->
    lru_step max mtu t ka (GE_submit mem flow_ok buf l r dns data) t' ka
      match s with
      | Some (id, rebind) => if buf then [Message (udpgw_message (datagram_flags dns rebind) id r data)] else []
      | None => []
      end
| LS_message t ka flags id remote p t' l :
    message_ok flags id remote ->
    (if zlen p <=? mtu then lru_receive id remote t else (t, None)) = (t', l) ->
    lru_step max mtu t ka (GE_message (server_message flags id remote p)) t' ka
      match l with Some l => [Received l remote p] | None => [] end
| LS_garbage t ka data :
    (forall flags id remote p, data = server_message flags id remote p -> ~ message_ok flags id remote) ->
    lru_step max mtu t ka (GE_message data) t ka []
| LS_decoder_error t ka : lru_step max mtu t ka GE_decoder_error t ka [ServerError]
| LS_monitor t ka : lru_step max mtu t ka GE_monitor t true (if ka then [] else [Keepalive keepalive_packet])
| LS_keepalive_done t : lru_step max mtu t true GE_keepalive_done t false []
| LS_connect t ka ok : lru_step max mtu t ka (GE_connect ok) t ka []
| LS_disconnect t ka : lru_step max mtu t ka GE_disconnect t ka [].

Inductive lru_steps (max mtu : Z) : list entry -> bool -> list gw_ev -> list entry -> bool -> list gw_output -> Prop :=
| LSs_nil t ka : lru_steps max mtu t ka [] t ka []
| LSs_cons t ka e t1 ka1 out evs t' ka' outs :
    lru_step max mtu t ka e t1 ka1 out -> lru_steps max mtu t1 ka1 evs t' ka' outs ->
    lru_steps max mtu t ka (e :: evs) t' ka' (out ++ outs).

Record gw_inv (o : UdpGwClient) : Prop := { inv_ok : gw_ok o; inv_jobs : no_pending o }.

Lemma table_ids o i : gw_ok o -> find_connection_by_conid o i = None -> Forall (fun e => snd e <> i) (table o).
Proof.
  intros Ho Hn. apply List.Forall_forall. intros e He E. apply list_elem_of_In in He. unfold table, entries in He.
  apply list_elem_of_omap in He as (p & _ & Hp). destruct (heap o !! p) as [c|] eqn:Hc; [|done]. injection Hp as <-.
  assert (connections_tree_by_conid o !! conid c = Some p) as E2 by (apply (gw_id o Ho); by exists c).
  cbn in E. unfold find_connection_by_conid in Hn. congruence.
Qed.

(** Each event is a step of the specification. *)
Lemma gw_step o e :
  gw_inv o -> gw_enabled o e = true ->
  exists o' out, gw_exec o e = Some o' /\ gw_inv o' /\ outputs o' = outputs o ++ out /\
    udp_mtu o' = udp_mtu o /\ max_connections o' = max_connections o /\
    lru_step (max_connections o) (udp_mtu o) (table o) (keepalive_sending o) e (table o') (keepalive_sending o') out.
Proof.
  intros [Ho Hj] He. destruct e as [mem fl buf l r dns data|data| | | |ok|]; cbn [gw_exec gw_enabled] in *.
  - repeat (apply andb_true_iff in He as [He ?]).
    destruct (submit_step mem fl buf o l r dns data Ho Hj) as (o' & fresh & -> & Ho' & Hj' & _ & Hu & Hm & Hk & Hf & Hfr & Hsp);
      [by apply addr_wfb_ok|by apply addr_wfb_ok|lia|].
    destruct (lru_submit _ _ _ _ _) as [t s] eqn:El. destruct Hsp as [<- Hout]. eexists o', _.
    split; [done|]. split; [done|]. split; [exact Hout|]. split; [done|]. split; [done|]. rewrite Hk.
    eapply LS_submit; [done| |done]. intros Hlt. apply table_ids; [done|]. apply Hfr. rewrite <- table_length; done.
  - repeat (apply andb_true_iff in He as [He ?]). assert (bytes_ok data) as Hb by by apply bytesb_ok.
    destruct (recv_cases o data Hb) as [(flags & id & remote & p & -> & Hm)|[Hn Hr]].
    + destruct (recv_step_msg o flags id remote p Ho Hj He Hm) as (o' & -> & Ho' & Hj' & _ & Hu & Hmx & Hk & Hsp); [lia|].
      destruct (if zlen p <=? udp_mtu o then _ else _) as [t lo] eqn:El. destruct Hsp as [<- Hout]. eexists o', _.
      split; [done|]. split; [done|]. split; [exact Hout|]. split; [done|]. split; [done|]. rewrite Hk. by eapply LS_message.
    + exists o, []. rewrite Hr by (done || lia). rewrite app_nil_r. split_and!; try done. by apply LS_garbage.
  - unfold decoder_handler_error. rewrite He. eexists _, _. split; [done|]. split; [|split; [done|]].
    + split; [by apply output_ok|done].
    + split_and!; try done. constructor.
  - unfold send_monitor_handler. destruct (keepalive_sending o) eqn:Ek.
    + exists o, []. rewrite app_nil_r, Ek. split_and!; try done. pose proof (LS_monitor (max_connections o) (udp_mtu o) (table o) true) as H. exact H.
    + destruct (gw_mtu o Ho) as (M1 & M2 & M3 & M4).
      rewrite (proj2 (Z.leb_le _ _)) by (change (zlen keepalive_packet) with 5; lia).
      eexists _, [Keepalive keepalive_packet]. split; [done|]. split; [|split; [done|]].
      * split; [|done]. apply (same_tables_ok o); [by split|apply (gw_next o Ho)|done].
      * split_and!; try done. pose proof (LS_monitor (max_connections o) (udp_mtu o) (table o) false) as H. exact H.
  - unfold keepalive_if_handler_done. rewrite He. eexists _, []. split; [done|]. rewrite app_nil_r. split; [|split; [done|]].
    + split; [|done]. apply (same_tables_ok o); [by split|apply (gw_next o Ho)|done].
    + split_and!; try done. constructor.
  - unfold UdpGwClient_ConnectServer. rewrite He. destruct ok; cbn [negb]; eexists _, []; rewrite app_nil_r; (split; [done|]).
    + split; [|split_and!; try done; constructor]. split; [|done]. apply (same_tables_ok o); [by split|apply (gw_next o Ho)|done].
    + split; [done|]. split_and!; try done. constructor.
  - unfold UdpGwClient_DisconnectServer. rewrite He. eexists _, []. rewrite app_nil_r. split; [done|].
    split; [|split_and!; try done; constructor]. split; [|done]. apply (same_tables_ok o); [by split|apply (gw_next o Ho)|done].
Qed.

Lemma gw_run_steps evs : forall o r,
  gw_inv o -> gw_run o evs = Some r ->
  exists o' outs, r = Some o' /\ gw_inv o' /\ outputs o' = outputs o ++ outs /\ max_connections o' = max_connections o /\
    lru_steps (max_connections o) (udp_mtu o) (table o) (keepalive_sending o) evs (table o') (keepalive_sending o') outs.
Proof.
  induction evs as [|e evs IH]; intros o r Hi Hr; cbn [gw_run] in Hr.
  { injection Hr as <-. exists o, []. rewrite app_nil_r. split_and!; try done. constructor. }
  destruct (gw_enabled o e) eqn:He; [|done]. destruct (gw_step o e Hi He) as (o1 & out & Hx & Hi1 & Ho1 & Hu & Hm & Hst).
  rewrite Hx in Hr. destruct (IH o1 r Hi1 Hr) as (o' & outs & -> & Hi' & Ho' & Hm' & Hs). rewrite Hu, Hm in Hs.
  exists o', (out ++ outs). split_and!; try done; [|congruence|by eapply LSs_cons]. by rewrite Ho', Ho1, app_assoc.
Qed.

(** ** The entry of a recently used address survives *)

(** The addresses used in a history: those of submitted datagrams and those of
    delivered messages. *)
Definition submitted (evs : list gw_ev) : list conaddr_t :=
  omap (fun e => match e with GE_submit _ _ _ l r _ _ => Some (l, r) | _ => None end) evs.
Definition delivered (outs : list gw_output) : list conaddr_t :=
  omap (fun x => match x with Received l r _ => Some (l, r) | _ => None end) outs.
Definition used (evs : list gw_ev) (outs : list gw_output) : gset conaddr_t :=
  list_to_set (submitted evs) ∪ list_to_set (delivered outs).

(** [a] has its entry [id], and everything used after it is in [T]. *)
Definition recent (a : conaddr_t) (id : Z) (T : gset conaddr_t) (t : list entry) : Prop :=
  exists t1 t2, t = t1 ++ (a, id) :: t2 /\ Forall (fun e => fst e ∈ T) t2.

Definition lru_wf (max : Z) (t : list entry) : Prop := NoDup (map fst t) /\ zlen t <= max.

Lemma lru_remove_app a t k : lru_remove a (t ++ k) = lru_remove a t ++ lru_remove a k.
Proof. apply List.filter_app. Qed.

Lemma lru_remove_sub a t e : e ∈ lru_remove a t <-> e ∈ t /\ fst e <> a.
Proof.
  unfold lru_remove. rewrite !list_elem_of_In, filter_In. split; intros [H1 H2]; (split; [done|]).
  - apply negb_true_iff, bool_decide_eq_false in H2. done.
  - by apply negb_true_iff, bool_decide_eq_false.
Qed.

Lemma lru_remove_map a t : map fst (lru_remove a t) = List.filter (fun b => negb (bool_decide (b = a))) (map fst t).
Proof. induction t as [|e t IH]; [done|]. cbn. case_bool_decide; cbn; [done|]. f_equal. exact IH. Qed.

Lemma lru_find_Some a t id : lru_find a t = Some id -> (a, id) ∈ t.
Proof.
  unfold lru_find. destruct (List.find _ t) as [[b i]|] eqn:E; [|done]. intros [= <-].
  apply find_some in E as [Hin Hb]. apply bool_decide_eq_true in Hb. cbn in Hb. subst. by apply list_elem_of_In.
Qed.

Lemma lru_find_None a t : lru_find a t = None -> a ∉ map fst t.
Proof.
  unfold lru_find. destruct (List.find _ t) as [[b i]|] eqn:E; [done|]. intros _ Ha.
  apply list_elem_of_In, in_map_iff in Ha as ([b i] & <- & Hin). apply (find_none _ _ E) in Hin.
  apply bool_decide_eq_false in Hin. done.
Qed.

Lemma fst_functional (t : list entry) a i j : NoDup (map fst t) -> (a, i) ∈ t -> (a, j) ∈ t -> i = j.
Proof.
  induction t as [|e t IH]; intros Hnd Hi Hj; [inversion Hi|].
  cbn in Hnd. apply list.NoDup_cons in Hnd as [He Hnd].
  apply elem_of_cons in Hi as [<-|Hi]; apply elem_of_cons in Hj as [Hj|Hj].
  - by injection Hj.
  - exfalso. apply He. apply list_elem_of_In, in_map_iff. exists (a, j). split; [done|by apply list_elem_of_In].
  - exfalso. apply He. subst e. apply list_elem_of_In, in_map_iff. exists (a, i). split; [done|by apply list_elem_of_In].
  - by apply IH.
Qed.

(** Moving the entry of [b] to the end keeps tables well formed. *)
Lemma lru_move_wf max b i t : lru_wf max t -> (b, i) ∈ t -> lru_wf max (lru_remove b t ++ [(b, i)]).
Proof.
  intros [Hnd Hl] Hin. split.
  - rewrite map_app, lru_remove_map. apply list.NoDup_app. split; [|split].
    + apply NoDup_ListNoDup, NoDup_filter, NoDup_ListNoDup. done.
    + intros x Hx. apply list_elem_of_In, filter_In in Hx as [_ Hx]. apply negb_true_iff, bool_decide_eq_false in Hx.
      cbn. by rewrite list_elem_of_singleton.
    + apply NoDup_singleton.
  - enough (length (lru_remove b t ++ [(b, i)]) <= length t)%nat by (unfold zlen in *; lia).
    rewrite length_app. cbn. clear Hl. induction t as [|e t IH]; [inversion Hin|]. cbn in Hnd.
    apply list.NoDup_cons in Hnd as [He Hnd]. unfold lru_remove. cbn [List.filter]. fold (lru_remove b t).
    case_bool_decide as Hb; cbn [negb].
    + assert (lru_remove b t = t) as ->; [|cbn; lia]. apply forallb_filter_id. apply forallb_forall. intros x Hx.
      apply negb_true_iff, bool_decide_eq_false. intros E. apply He. rewrite Hb, <- E. by apply list_elem_of_In, in_map.
    + apply elem_of_cons in Hin as [<-|Hin]; [done|]. specialize (IH Hnd Hin). cbn. lia.
Qed.

Lemma recent_move a id T t b i :
  NoDup (map fst t) -> recent a id T t -> (b, i) ∈ t -> b ∈ T \/ b = a -> recent a id T (lru_remove b t ++ [(b, i)]).
Proof.
  intros Hnd (t1 & t2 & -> & Hf) Hin Hb. destruct (decide (b = a)) as [->|Hne].
  - assert (i = id) as ->. { apply (fst_functional _ a _ _ Hnd Hin). apply elem_of_app. right. constructor. }
    exists (lru_remove a (t1 ++ (a, id) :: t2)), []. split; [done|constructor].
  - exists (lru_remove b t1), (lru_remove b t2 ++ [(b, i)]). split.
    + rewrite lru_remove_app. unfold lru_remove at 2. cbn [List.filter fst]. rewrite bool_decide_false by done. cbn [negb].
      fold (lru_remove b t2). by rewrite <- app_assoc.
    + apply Forall_app. split.
      * apply List.Forall_forall. intros e He. apply list_elem_of_In, lru_remove_sub in He as [He _].
        rewrite List.Forall_forall in Hf. apply Hf. by apply list_elem_of_In.
      * constructor; [|constructor]. cbn. by destruct Hb.
Qed.

Lemma recent_mono a id T T' t : T ⊆ T' -> recent a id T t -> recent a id T' t.
Proof. intros Hs (t1 & t2 & -> & Hf). exists t1, t2. split; [done|]. eapply Forall_impl; [|exact Hf]. cbn. set_solver. Qed.

Lemma NoDup_size (l : list conaddr_t) (S : gset conaddr_t) :
  NoDup l -> (forall x, x ∈ l -> x ∈ S) -> (length l <= size S)%nat.
Proof.
  intros Hnd Hs. rewrite <- (size_list_to_set (C := gset conaddr_t) l) by done. apply subseteq_size.
  intros x Hx. apply Hs. by apply (elem_of_list_to_set (C := gset conaddr_t)) in Hx.
Qed.

Lemma lru_submit_recent max mem fresh b t t' s a id T :
  lru_wf max t -> recent a id T t -> lru_submit max mem fresh b t = (t', s) -> b ∈ T ->
  Z.of_nat (size (T ∖ {[a]})) < max -> 0 < max -> lru_wf max t' /\ recent a id T t'.
Proof.
  intros Hwf Hr Hs Hb Hsz Hmax. unfold lru_submit in Hs. destruct (lru_find b t) as [i|] eqn:Ef.
  { injection Hs as <- <-. apply lru_find_Some in Ef. split; [by apply lru_move_wf|].
    apply recent_move; [apply Hwf|done|done|by left]. }
  apply lru_find_None in Ef. pose proof Hwf as [Hnd Hl]. destruct Hr as (t1 & t2 & -> & Hf).
  destruct (Z.eqb_spec (zlen (t1 ++ (a, id) :: t2)) max) as [Hfull|Hfull].
  - destruct t1 as [|[h i] t1]; cbn [app] in Hs.
    + exfalso. cbn in Hnd, Ef. apply list.NoDup_cons in Hnd as [Ha Hnd]. apply not_elem_of_cons in Ef as [Hba Ef].
      assert (length (b :: map fst t2) <= size (T ∖ {[a]}))%nat as Hc.
      { apply NoDup_size; [by apply list.NoDup_cons|]. intros x Hx. apply elem_of_cons in Hx as [->|Hx]; [set_solver|].
        apply elem_of_difference. split; [|rewrite elem_of_singleton; by intros ->].
        apply list_elem_of_In, in_map_iff in Hx as (e & <- & He). rewrite List.Forall_forall in Hf. by apply Hf. }
      cbn [app] in Hfull. rewrite zlen_cons in Hfull. unfold zlen in Hfull. cbn in Hc. rewrite length_map in Hc. lia.
    + injection Hs as <- <-. cbn [app map] in Hnd. apply list.NoDup_cons in Hnd as [Hh Hnd]. cbn in Ef.
      apply not_elem_of_cons in Ef as [_ Ef]. split.
      * split; [|rewrite zlen_app; cbn [app] in Hl; rewrite zlen_cons in Hl; change (zlen [(b, i)]) with 1; lia].
        rewrite map_app. apply list.NoDup_app. split; [done|]. split; [|apply NoDup_singleton].
        intros x Hx Hxb. cbn in Hxb. apply list_elem_of_singleton in Hxb as ->. done.
      * exists t1, (t2 ++ [(b, i)]). split; [by rewrite <- app_assoc|]. apply Forall_app. split; [done|].
        constructor; [done|constructor].
  - destruct mem; injection Hs as <- <-; [|split; [done|by exists t1, t2]]. split.
    + split; [|rewrite zlen_app; change (zlen [(b, fresh)]) with 1; lia].
      rewrite map_app. apply list.NoDup_app. split; [done|]. split; [|apply NoDup_singleton].
      intros x Hx Hxb. cbn in Hxb. apply list_elem_of_singleton in Hxb as ->. done.
    + exists t1, (t2 ++ [(b, fresh)]). split; [by rewrite <- app_assoc|]. apply Forall_app. split; [done|].
      constructor; [done|constructor].
Qed.

Lemma lru_receive_recent max i remote t t' l a id T :
  lru_wf max t -> recent a id T t -> lru_receive i remote t = (t', l) ->
  (forall x, l = Some x -> (x, remote) ∈ T) -> lru_wf max t' /\ recent a id T t'.
Proof.
  intros Hwf Hr Hs Ht. unfold lru_receive in Hs. destruct (List.find _ t) as [[b j]|] eqn:Ef; [|by injection Hs as <- <-].
  apply find_some in Ef as [Hin Hj]. apply Z.eqb_eq in Hj. cbn in Hj. subst j. apply list_elem_of_In in Hin.
  case_bool_decide as Hb; injection Hs as <- <-; [|done]. split; [by apply lru_move_wf|].
  apply recent_move; [apply Hwf|done|done|]. left. destruct b as [x y]. cbn in *. subst y. by apply Ht.
Qed.

Lemma lru_steps_recent max mtu t ka evs t' ka' outs :
  lru_steps max mtu t ka evs t' ka' outs -> forall a id T,
  0 < max -> lru_wf max t -> recent a id T t ->
  Z.of_nat (size ((T ∪ used evs outs) ∖ {[a]})) < max -> lru_wf max t' /\ recent a id (T ∪ used evs outs) t'.
Proof.
  induction 1 as [t ka|t ka e t1 ka1 out evs t' ka' outs Hst Hsts IH]; intros a id T Hmax Hwf Hr Hsz.
  { split; [done|]. eapply recent_mono; [|done]. set_solver. }
  assert (used (e :: evs) (out ++ outs) = used [e] out ∪ used evs outs) as Hu.
  { unfold used, submitted, delivered. rewrite !omap_app. change (e :: evs) with ([e] ++ evs). rewrite omap_app, !list_to_set_app_L. set_solver. }
  rewrite Hu in *. rewrite (assoc_L (∪)) in *.
  assert (lru_wf max t1 /\ recent a id (T ∪ used [e] out) t1) as [Hwf1 Hr1]; [|by apply IH].
  assert (Z.of_nat (size ((T ∪ used [e] out) ∖ {[a]})) < max) as Hsz1.
  { eapply Z.le_lt_trans; [|exact Hsz]. apply Nat2Z.inj_le. apply subseteq_size. set_solver. }
  assert (recent a id (T ∪ used [e] out) t) as Hr0 by (eapply recent_mono; [|done]; set_solver).
  inversion Hst; subst; try done.
  - eapply lru_submit_recent; try done. unfold used, submitted. cbn. set_solver.
  - destruct (zlen p <=? mtu); [|match goal with H : (_, _) = (_, _) |- _ => injection H as <- <- end; done].
    eapply lru_receive_recent; try done. intros x ->. unfold used, delivered. cbn. set_solver.
Qed.

(** ** Freeing *)

Lemma connection_free_ok o p :
  gw_ok o -> p ∈ connections_list o ->
  exists o', connection_free o p = Some o' /\ gw_ok o' /\ connections_list o' = list_remove p (connections_list o) /\
    have_server o' = have_server o.
Proof.
  intros Ho Hp. assert (is_Some (heap o !! p)) as [c Hc] by by apply (gw_list o Ho).
  unfold connection_free. rewrite Hc. eexists. split; [done|]. split; [|done].
  destruct Ho as [H1 H2 H3 H4 H5 H6 H7 H8 H9 H10].
  assert (forall q d, delete p (heap o) !! q = Some d <-> q <> p /\ heap o !! q = Some d) as Hdel.
  { intros q d. rewrite lookup_delete_Some. naive_solver. }
  split; cbn; try done.
  - rewrite length_list_remove by done. lia.
  - lia.
  - by apply NoDup_list_remove.
  - intros q. rewrite elem_list_remove, H7. destruct (decide (q = p)) as [->|Hq].
    + rewrite lookup_delete_eq. split; [tauto|]. intros []. done.
    + rewrite lookup_delete_ne by done. tauto.
  - intros a q. setoid_rewrite Hdel. destruct (decide (a = conaddr c)) as [->|Ha].
    + rewrite lookup_delete_eq. split; [done|]. intros (d & [Hq Hd] & Ed).
      assert (connections_tree_by_conaddr o !! conaddr c = Some q) by (apply H8; by exists d).
      assert (connections_tree_by_conaddr o !! conaddr c = Some p) by (apply H8; by exists c). congruence.
    + rewrite lookup_delete_ne, H8 by done. split; intros (d & Hd & Ed); exists d; [|naive_solver].
      split; [|done]. split; [|done]. intros ->. congruence.
  - intros i q. setoid_rewrite Hdel. destruct (decide (i = conid c)) as [->|Ha].
    + rewrite lookup_delete_eq. split; [done|]. intros (d & [Hq Hd] & Ed).
      assert (connections_tree_by_conid o !! conid c = Some q) by (apply H9; by exists d).
      assert (connections_tree_by_conid o !! conid c = Some p) by (apply H9; by exists c). congruence.
    + rewrite lookup_delete_ne, H9 by done. split; intros (d & Hd & Ed); exists d; [|naive_solver].
      split; [|done]. split; [|done]. intros ->. congruence.
  - apply (cons_ext o); [done|done|cbn; lia|]. by apply map_Forall_delete.
Qed.

Lemma free_loop_ok n : forall o,
  gw_ok o -> length (connections_list o) = n ->
  exists o', free_connections_loop n o = Some o' /\ gw_ok o' /\ connections_list o' = [] /\ have_server o' = have_server o.
Proof.
  induction n as [|n IH]; intros o Ho Hn; destruct (connections_list o) as [|p l] eqn:El; try done.
  - exists o. cbn. by rewrite El.
  - cbn. rewrite El. destruct (connection_free_ok o p Ho) as (o1 & -> & Ho1 & El1 & Hs1); [rewrite El; constructor|].
    destruct (IH o1 Ho1) as (o' & -> & Ho' & El' & Hs'); [|exists o'; split_and!; try done; congruence].
    pose proof (length_list_remove p (p :: l)) as Hl. rewrite <- El in Hl at 1.
    specialize (Hl (gw_nodup o Ho) ltac:(constructor)). rewrite El1, El. unfold zlen in Hl. cbn in Hl, Hn. lia.
Qed.

Lemma empty_tables o : gw_ok o -> connections_list o = [] ->
  heap o = ∅ /\ connections_tree_by_conaddr o = ∅ /\ connections_tree_by_conid o = ∅ /\ num_connections o = 0.
Proof.
  intros Ho El.
  assert (heap o = ∅) as Hh.
  { apply map_eq. intros p. rewrite lookup_empty. destruct (heap o !! p) as [c|] eqn:E; [|done].
    assert (p ∈ connections_list o) as Hp by (apply (gw_list o Ho); by exists c). rewrite El in Hp. inversion Hp. }
  split_and!; [done|..].
  - apply map_eq. intros a. rewrite lookup_empty. destruct (_ !! a) as [p|] eqn:E; [|done].
    apply (gw_addr o Ho) in E as (c & Hc & _). by rewrite Hh in Hc.
  - apply map_eq. intros a. rewrite lookup_empty. destruct (_ !! a) as [p|] eqn:E; [|done].
    apply (gw_id o Ho) in E as (c & Hc & _). by rewrite Hh in Hc.
  - by rewrite (gw_num o Ho), El.
Qed.

Lemma compute_mtu mtu :
  0 <= mtu -> 0 <= udpgw_compute_mtu mtu <= 65535 -> udpgw_compute_mtu mtu = mtu + 22.
Proof.
  intros Hm. unfold udpgw_compute_mtu, bsize_toint, bsize_add, bsize_max, bsize_fromsize, bsize_fromint,
    sizeof_socks_udp_header, sizeof_udpgw_addr_ipv4, sizeof_udpgw_addr_ipv6, SIZE_MAX, UINT64_MAX, INT_MAX, u64.
  cbn [is_overflow bsize_value orb]. change (18 <? 6) with false. cbv iota. cbn [orb].
  destruct (Z.ltb_spec mtu 0); [lia|]. destruct (Z.ltb_spec 18446744073709551615 mtu); cbn [orb]; [lia|].
  rewrite (Z.mod_small mtu) by lia.
  destruct (Z.ltb_spec (18446744073709551615 - 18) mtu); cbn [orb]; [lia|]. rewrite (Z.mod_small (18 + mtu)) by lia.
  destruct (Z.ltb_spec (18446744073709551615 - 4) (18 + mtu)); cbn [orb]; [lia|]. rewrite (Z.mod_small (4 + (18 + mtu))) by lia.
  destruct (2147483647 <? 4 + (18 + mtu)); lia.
Qed.

Lemma gw_init_ok mtu max sbs q o :
  UdpGwClient_Init mtu max sbs q = Some (Some o) ->
  gw_inv o /\ table o = [] /\ outputs o = [] /\ keepalive_sending o = false /\ udp_mtu o = mtu /\
  max_connections o = Z.min max 65536.
Proof.
  unfold UdpGwClient_Init. pose proof (compute_mtu mtu) as Hc. cbv zeta. revert Hc. generalize (udpgw_compute_mtu mtu).
  intros m Hc. rewrite !Z.geb_leb. destruct (Z.leb_spec 0 mtu); [|done].
  destruct (Z.leb_spec 0 m); [|done]. destruct (Z.leb_spec m PACKETPROTO_MAXPAYLOAD) as [Hp|]; [|done].
  destruct (max >? 0) eqn:Em; [|done]. destruct (sbs >? 0); [|done]. destruct q; [|done]. cbn [negb].
  unfold PACKETPROTO_MAXPAYLOAD, UINT16_MAX in *. specialize (Hc ltac:(lia) ltac:(lia)).
  assert ((if max >? 65535 + 1 then 65535 + 1 else max) = Z.min max 65536) as -> by (rewrite Z.gtb_ltb; destruct (Z.ltb_spec (65535 + 1) max); lia).
  intros [= <-]. split_and!; try done.
  split; [|intros ? ? ?; done]. split; cbn -[Z.min]; try done; try lia.
  - constructor.
  - intros p. rewrite lookup_empty. split; [intros Hx; inversion Hx|intros []; done].
  - intros a p. rewrite !lookup_empty. split; [done|intros (? & ? & _); done].
  - intros a p. rewrite !lookup_empty. split; [done|intros (? & ? & _); done].
Qed.

Lemma gw_init_server mtu max sbs q o : UdpGwClient_Init mtu max sbs q = Some (Some o) -> have_server o = false.
Proof.
  unfold UdpGwClient_Init. generalize (udpgw_compute_mtu mtu). intros m Hx. cbv zeta in Hx.
  repeat match type of Hx with (if ?b then _ else None) = _ => destruct b; [|done] end.
  destruct q; [|done]. cbn [negb] in Hx. by injection Hx as <-.
Qed.

(** ** Well-formed tables *)

Lemma table_wf o : gw_ok o -> lru_wf (max_connections o) (table o).
Proof.
  intros Ho. split; [|rewrite table_length by done; apply (gw_le o Ho)].
  pose proof (gw_nodup o Ho) as Hnd. unfold table. generalize dependent (connections_list o). intros l Hnd.
  induction l as [|p l IH]; [constructor|]. apply list.NoDup_cons in Hnd as [Hp Hnd]. specialize (IH Hnd).
  unfold entries in *. cbn [omap list_omap]. destruct (heap o !! p) as [c|] eqn:Hc; [|exact IH]. cbn.
  apply list.NoDup_cons. split; [|exact IH]. intros Hin. apply list_elem_of_In, in_map_iff in Hin as (e & He & Hin).
  apply list_elem_of_In, list_elem_of_omap in Hin as (q & Hq & Eq). destruct (heap o !! q) as [d|] eqn:Hd; [|done].
  injection Eq as <-. cbn in He.
  assert (connections_tree_by_conaddr o !! conaddr c = Some p) by (apply (gw_addr o Ho); by exists c).
  assert (connections_tree_by_conaddr o !! conaddr c = Some q) by (apply (gw_addr o Ho); by exists d). congruence.
Qed.

(** The identifier of an entry leads back to it. *)
Lemma table_find_entry o a id :
  gw_ok o -> (a, id) ∈ table o -> List.find (fun e => snd e =? id) (table o) = Some (a, id).
Proof.
  intros Ho Hin. rewrite table_find_id by done. unfold table, entries in Hin.
  apply list_elem_of_omap in Hin as (p & _ & Hp). destruct (heap o !! p) as [c|] eqn:Hc; [|done]. injection Hp as <- <-.
  unfold find_connection_by_conid. rewrite (proj2 (gw_id o Ho (conid c) p)) by (by exists c). by rewrite Hc.
Qed.

Lemma table_id_bound o a id : gw_ok o -> (a, id) ∈ table o -> 0 <= id < max_connections o.
Proof.
  intros Ho Hin. unfold table, entries in Hin. apply list_elem_of_omap in Hin as (p & _ & Hp).
  destruct (heap o !! p) as [c|] eqn:Hc; [|done]. injection Hp as <- <-. apply (gw_cons o Ho _ _ Hc).
Qed.

(** An accepted datagram makes its address the most recent entry. *)
Lemma lru_submit_sent max fresh a t t' s :
  0 < max -> lru_submit max true fresh a t = (t', s) ->
  exists id rebind, s = Some (id, rebind) /\ recent a id ∅ t'.
Proof.
  intros Hmax Hs. unfold lru_submit in Hs. destruct (lru_find a t) as [i|].
  - injection Hs as <- <-. exists i, false. split; [done|]. by exists (lru_remove a t), [].
  - destruct (Z.eqb_spec (zlen t) max) as [He|He].
    + destruct t as [|[b i] t]; [rewrite zlen_nil in He; lia|]. injection Hs as <- <-. exists i, true. split; [done|]. by exists t, [].
    + injection Hs as <- <-. exists fresh, true. split; [done|]. by exists t, [].
Qed.

(** A message on the identifier of a recent entry reaches its local address. *)
Lemma recent_delivered o a id T flags reply :
  gw_inv o -> recent a id T (table o) -> have_server o = true -> message_ok flags id (snd a) ->
  zlen reply <= udp_mtu o ->
  exists o', recv_interface_handler_send o (server_message flags id (snd a) reply) = Some o' /\
    outputs o' = outputs o ++ [Received (fst a) (snd a) reply].
Proof.
  intros [Ho Hj] (t1 & t2 & Ht & _) Hs Hm Hl. destruct (gw_mtu o Ho) as (M1 & M2 & _).
  destruct (recv_step_msg o flags id (snd a) reply Ho Hj Hs Hm) as (o' & Hx & _ & _ & _ & _ & _ & _ & Hsp).
  { unfold server_message. rewrite !zlen_app, (addr_bytes_zlen _ (m_remote _ _ _ Hm)).
    change (zlen [flags]) with 1. change (zlen (le16 id)) with 2. destruct (snd a); lia. }
  rewrite (proj2 (Z.leb_le _ _)) in Hsp by done. unfold lru_receive in Hsp.
  rewrite (table_find_entry o a id Ho) in Hsp by (rewrite Ht; apply elem_of_app; right; constructor).
  rewrite bool_decide_true in Hsp by done. exists o'. split; [done|]. apply Hsp.
Qed.

(** The MTU never changes. *)
Lemma gw_run_mtu evs : forall o o', gw_inv o -> gw_run o evs = Some (Some o') -> udp_mtu o' = udp_mtu o.
Proof.
  induction evs as [|e evs IH]; intros o o' Hi Hr; cbn [gw_run] in Hr; [by injection Hr as <-|].
  destruct (gw_enabled o e) eqn:He; [|done]. destruct (gw_step o e Hi He) as (o1 & out & Hx & Hi1 & _ & Hu & _).
  rewrite Hx in Hr. rewrite <- Hu. by apply IH.
Qed.

Lemma gw_free_ok o : gw_ok o ->
  exists o', UdpGwClient_Free o = Some o' /\ heap o' = ∅ /\ connections_tree_by_conaddr o' = ∅ /\
    connections_tree_by_conid o' = ∅ /\ connections_list o' = [] /\ num_connections o' = 0 /\ have_server o' = false.
Proof.
  intros Ho. unfold UdpGwClient_Free. destruct (free_loop_ok _ o Ho eq_refl) as (o1 & -> & Ho1 & El & Hs).
  destruct (empty_tables o1 Ho1 El) as (E1 & E2 & E3 & E4). eexists. split; [done|].
  destruct (have_server o1) eqn:Es; by split_and!.
Qed.

(** ** Properties *)

Section Theorems.
Context (mtu max sbs : Z) (o0 : UdpGwClient).
Hypothesis Hinit : UdpGwClient_Init mtu max sbs true = Some (Some o0).

(** C6. The client with its heap, trees, list and identifier counter behaves as
    a least-recently-used table of bounded size: under its calling rules no
    assertion fails and every pointer followed is live, each datagram goes out
    on the identifier the table gives, each message is delivered to the local
    address the table gives, and everything else received changes nothing. *)
Theorem udpgw_refines_lru evs r :
  gw_run o0 evs = Some r ->
  exists o, r = Some o /\ gw_inv o /\
    lru_steps (Z.min max 65536) mtu [] false evs (table o) (keepalive_sending o) (outputs o).
Proof using Hinit.
  intros Hr. destruct (gw_init_ok _ _ _ _ _ Hinit) as (Hi & Ht & Hou & Hk & Hu & Hm).
  destruct (gw_run_steps evs o0 r Hi Hr) as (o & outs & -> & Hio & Ho & _ & Hs). exists o. split; [done|]. split; [done|].
  rewrite Hm, Hu, Ht, Hk in Hs. by rewrite Ho, Hou.
Qed.

(** C16. A datagram submitted in any reachable state (with memory and buffer
    space) is sent with its addresses on some identifier, and a reply that
    carries this identifier and the remote address is delivered to the local
    address, as long as fewer than [max_connections] other address pairs were
    used in between. *)
Theorem udpgw_reply_delivered evs1 o1 l r dns data :
  gw_run o0 evs1 = Some (Some o1) -> addr_wf l -> addr_wf r -> zlen data <= mtu ->
  exists o2 id rebind, submit_and_first_job true true true o1 l r dns data = Some o2 /\
    outputs o2 = outputs o1 ++ [Message (udpgw_message (datagram_flags dns rebind) id r data)] /\
    0 <= id < Z.min max 65536 /\
    forall evs2 o3 outs flags reply,
      gw_run o2 evs2 = Some (Some o3) -> outputs o3 = outputs o2 ++ outs ->
      Z.of_nat (size (used evs2 outs ∖ {[(l, r)]})) < Z.min max 65536 ->
      have_server o3 = true -> message_ok flags id r -> zlen reply <= mtu ->
      exists o4, recv_interface_handler_send o3 (server_message flags id r reply) = Some o4 /\
        outputs o4 = outputs o3 ++ [Received l r reply].
Proof using Hinit.
  intros Hr1 Wl Wr Hd. destruct (gw_init_ok _ _ _ _ _ Hinit) as (Hi & _ & _ & _ & Hu & Hm).
  destruct (gw_run_steps evs1 o0 _ Hi Hr1) as (o1' & outs1 & [= <-] & Hi1 & _ & Hm1 & _).
  pose proof (gw_run_mtu _ _ _ Hi Hr1) as Hu1.
  destruct (submit_step true true true o1 l r dns data (inv_ok _ Hi1) (inv_jobs _ Hi1) Wl Wr)
    as (o2 & fresh & Hx & Ho2 & Hj2 & _ & Hu2 & Hm2 & _ & _ & _ & Hsp); [by rewrite Hu1, Hu|].
  destruct (lru_submit _ _ _ _ _) as [t s] eqn:El. destruct Hsp as [Ht Hout].
  destruct (lru_submit_sent _ _ _ _ _ _ (proj1 (gw_max _ (inv_ok _ Hi1))) El) as (id & rebind & -> & Hrec).
  exists o2, id, rebind. split; [exact Hx|]. split; [exact Hout|].
  assert (max_connections o2 = Z.min max 65536) as Hmx by congruence. subst t. split.
  { rewrite <- Hmx. apply (table_id_bound o2 (l, r)); [done|]. destruct Hrec as (t1 & t2 & -> & _). apply elem_of_app. right. constructor. }
  intros evs2 o3 outs flags reply Hr2 Hos Hsz Hs Hmo Hl.
  destruct (gw_run_steps evs2 o2 _ ltac:(by split) Hr2) as (o3' & outs' & [= <-] & Hi3 & Ho3 & Hm3 & Hst).
  assert (outs' = outs) as -> by (rewrite Ho3 in Hos; by apply app_inv_head in Hos).
  destruct (lru_steps_recent _ _ _ _ _ _ _ _ Hst (l, r) id ∅) as [_ Hrec3].
  - apply (gw_max _ Ho2).
  - by apply table_wf.
  - exact Hrec.
  - rewrite Hmx. by rewrite (left_id_L ∅ (∪)).
  - apply (recent_delivered o3 (l, r) id _ flags reply Hi3 Hrec3 Hs Hmo). rewrite (gw_run_mtu _ o2 o3 ltac:(by split) Hr2). by rewrite Hu2, Hu1, Hu.
Qed.

(** After any history freeing the client succeeds: all connections are
    freed, both trees and the list are empty, the server is disconnected. *)
Theorem udpgw_free evs o :
  gw_run o0 evs = Some (Some o) ->
  exists o', UdpGwClient_Free o = Some o' /\ heap o' = ∅ /\ connections_tree_by_conaddr o' = ∅ /\
    connections_tree_by_conid o' = ∅ /\ connections_list o' = [] /\ num_connections o' = 0 /\ have_server o' = false.
Proof using Hinit.
  intros Hr. destruct (gw_init_ok _ _ _ _ _ Hinit) as (Hi & _).
  destruct (gw_run_steps evs o0 _ Hi Hr) as (o' & _ & [= <-] & [Ho _] & _). by apply gw_free_ok.
Qed.

End Theorems.

(** ** Witnesses: two connections at most, three address pairs *)

Definition ex_local : BAddr := BADDR_IPV4 (hton32 167772162) (hton16 5353).
Definition ex_server (i : Z) : BAddr := BADDR_IPV4 (hton32 (134744072 + i)) (hton16 53).
Definition ex_send (i : Z) : gw_ev := GE_submit true true true ex_local (ex_server i) (i =? 0) [i; 7].
Definition ex_gw : UdpGwClient := mkGw 100 2 122 124 ∅ 0 ∅ ∅ [] 0 0 false false [].
Definition ex_gw_events : list gw_ev :=
  [ex_send 0; GE_connect true; ex_send 1; GE_monitor; ex_send 0; ex_send 2;
   GE_message (server_message 0 0 (ex_server 0) [9]); GE_message (server_message 0 1 (ex_server 1) [9]); GE_message [1; 2]].

Lemma udpgw_refines_lru_witness :
  exists o, gw_run ex_gw ex_gw_events = Some (Some o) /\ gw_inv o /\
    list.last (outputs o) = Some (Received ex_local (ex_server 0) [9]) /\
    table o = [((ex_local, ex_server 2), 1); ((ex_local, ex_server 0), 0)].
Proof.
  destruct (gw_run ex_gw ex_gw_events) as [r|] eqn:Er; [|exfalso; revert Er; vm_compute; congruence].
  destruct (udpgw_refines_lru 100 2 1 ex_gw eq_refl ex_gw_events r Er) as (o & -> & Hi & _). exists o. split; [done|].
  split; [exact Hi|]. clear Hi. revert Er. vm_compute. intros [= <-]. split; reflexivity.
Defined.

Definition or_ex (r : option (option UdpGwClient)) : UdpGwClient := match r with Some (Some o) => o | _ => ex_gw end.
Definition ex_o1 : UdpGwClient := or_ex (gw_run ex_gw [ex_send 1; GE_connect true]).
Definition ex_o2 : UdpGwClient := or_ex (Some (submit_and_first_job true true true ex_o1 ex_local (ex_server 0) true [1])).
Definition ex_o3 : UdpGwClient := or_ex (gw_run ex_o2 [ex_send 1; ex_send 1]).

Lemma udpgw_reply_delivered_witness :
  exists o4 id rebind, gw_run ex_gw [ex_send 1; GE_connect true] = Some (Some ex_o1) /\
    submit_and_first_job true true true ex_o1 ex_local (ex_server 0) true [1] = Some ex_o2 /\
    outputs ex_o2 = outputs ex_o1 ++ [Message (udpgw_message (datagram_flags true rebind) id (ex_server 0) [1])] /\
    gw_run ex_o2 [ex_send 1; ex_send 1] = Some (Some ex_o3) /\
    recv_interface_handler_send ex_o3 (server_message 0 id (ex_server 0) [8]) = Some o4 /\
    outputs o4 = outputs ex_o3 ++ [Received ex_local (ex_server 0) [8]].
Proof.
  destruct (udpgw_reply_delivered 100 2 1 ex_gw eq_refl [ex_send 1; GE_connect true] ex_o1 ex_local (ex_server 0) true [1])
    as (o2 & id & rebind & H1 & H2 & H3 & H4); [vm_compute; intuition congruence..|].
  assert (submit_and_first_job true true true ex_o1 ex_local (ex_server 0) true [1] = Some ex_o2) as E2 by (vm_compute; reflexivity).
  assert (o2 = ex_o2) as -> by congruence.
  destruct (H4 [ex_send 1; ex_send 1] ex_o3 (drop 2 (outputs ex_o3)) 0 [8]) as (o4 & H9 & H10).
  - vm_compute. reflexivity.
  - vm_compute. reflexivity.
  - vm_compute. reflexivity.
  - vm_compute. reflexivity.
  - clear -H3. split; [unfold byte_ok; lia|lia|vm_compute; intuition congruence|]. split; [|reflexivity]. intros _. eexists _, _. reflexivity.
  - vm_compute. congruence.
  - exists o4, id, rebind. split; [vm_compute; reflexivity|]. split; [exact H1|]. split; [exact H2|].
    split; [vm_compute; reflexivity|]. split; [exact H9|exact H10].
Defined.

Lemma udpgw_free_witness :
  exists o o', gw_run ex_gw ex_gw_events = Some (Some o) /\ UdpGwClient_Free o = Some o' /\ heap o' = ∅.
Proof.
  destruct (gw_run ex_gw ex_gw_events) as [[o|]|] eqn:Er; [|exfalso; revert Er; vm_compute; congruence..].
  destruct (udpgw_free 100 2 1 ex_gw eq_refl ex_gw_events o Er) as (o' & H1 & H2 & _). exists o, o'.
  split; [reflexivity|]. split; [exact H1|exact H2].
Defined.
