(* ===== verification/SocksPort.v ===== *)
(** * What a SOCKS client promises to its user

    The interface between [socksclient/BSocksClient.c] and the two components
    that own such a client ([tun2socks/SocksUdpGwClient.c] and the TCP clients of
    [tun2socks/tun2socks.c]): a class of operations with their laws, against
    which the owners are verified, and its instance for the model of
    BSocksClient. The promise is the order of the reports: up at most once,
    then at most one error, "closed" only after up, and the object can be freed
    at any time. *)

From S2P Require Import Prelude ByteOrder InetProto Device SocksClient.

Inductive socks_phase := Connecting | Up | Down.

#[global] Instance socks_phase_eq : EqDecision socks_phase.
Proof. solve_decision. Defined.
#[global] Instance socks_event_eq : EqDecision socks_event.
Proof. solve_decision. Defined.

(** [sp_new dest connector_ok] is the result of [BSocksClient_Init]; [sp_exec]
    runs the client on one event of its environment and yields what it reports. *)
Class SocksPort (S E : Type) := {
  sp_new : BAddr -> bool -> option (option S);
  sp_enabled : S -> E -> bool;
  sp_exec : S -> E -> option (S * option socks_event);
  sp_free : S -> option S;
  sp_inv : socks_phase -> S -> Prop;
  sp_new_ok : forall dest, dest_ok dest -> exists s, sp_new dest true = Some (Some s) /\ sp_inv Connecting s;
  sp_new_fails : forall dest, dest_ok dest -> sp_new dest false = Some None;
  sp_exec_ok : forall ph s e, sp_inv ph s -> sp_enabled s e = true ->
    exists s' r, sp_exec s e = Some (s', r) /\
      match r with
      | None => sp_inv ph s'
      | Some EVENT_UP => ph = Connecting /\ sp_inv Up s'
      | Some EVENT_ERROR => sp_inv Down s'
      | Some EVENT_ERROR_CLOSED => ph = Up /\ sp_inv Down s'
      end;
  sp_free_ok : forall ph s, sp_inv ph s -> is_Some (sp_free s)
}.

(** ** At most one report per event *)

Definition quiet (o o' : BSocksClient) : Prop := reported o' = reported o.
Definition reports1 (o o' : BSocksClient) : Prop := quiet o o' \/ exists x, reported o' = reported o ++ [x].

Ltac split_some H :=
  repeat match type of H with
  | context [match ?x with _ => _ end] => let E := fresh "E" in destruct x eqn:E; try discriminate H
  end.

Section Reports.
Context (junk : Z -> list Z).

Lemma quiet_reports1 o o' : quiet o o' -> reports1 o o'.
Proof. by left. Qed.

Lemma reports1_after o o1 o' : quiet o o1 -> reports1 o1 o' -> reports1 o o'.
Proof. unfold reports1, quiet. by intros ->. Qed.

Lemma report_error_reports o e o' : report_error o e = Some o' -> reports1 o o'.
Proof. unfold report_error. destruct (d_err o); [done|]. intros [= <-]. right. by exists e. Qed.

Lemma set_io_quiet o i : quiet o (set_io o i).
Proof. done. Qed.

Lemma write_buffer_quiet o off bs o' : write_buffer o off bs = Some o' -> quiet o o'.
Proof. unfold write_buffer. intros H. split_some H. by injection H as <-. Qed.

Lemma free_control_quiet o o' : free_control_io o = Some o' -> quiet o o'.
Proof. unfold free_control_io. intros H. split_some H. by injection H as <-. Qed.
Lemma init_up_quiet o o' : init_up_io o = Some o' -> quiet o o'.
Proof. unfold init_up_io. intros H. split_some H. by injection H as <-. Qed.
Lemma con_free_quiet o o' : BConnection_Free o = Some o' -> quiet o o'.
Proof. unfold BConnection_Free. intros H. split_some H. by injection H as <-. Qed.

Lemma write_methods_quiet l : forall o i o', write_methods o i l = Some o' -> quiet o o'.
Proof.
  induction l as [|a l IH]; intros o i o' H; cbn [write_methods] in H; [by injection H as <-|].
  destruct (write_buffer _ _ _) as [o1|] eqn:E; [|done]. apply write_buffer_quiet in E. apply IH in H. by transitivity (reported o1).
Qed.

Lemma send_buffer_quiet o n o' : send_buffer o n = Some o' -> quiet o o'.
Proof. unfold send_buffer. intros H. split_some H. by injection H as <-. Qed.

Lemma start_receive_quiet o d n o' : start_receive o d n = Some o' -> quiet o o'.
Proof. unfold start_receive, do_receive. intros H. split_some H. by injection H as <-. Qed.

Lemma reserve_quiet m o n r o' : reserve_buffer junk m o n = Some (r, o') -> quiet o o'.
Proof. unfold reserve_buffer. intros H. split_some H; by injection H as <- <-. Qed.

Lemma write_password_quiet o a o' : write_password o a = Some o' -> quiet o o'.
Proof.
  unfold write_password. intros H.
  repeat match type of H with
  | match write_buffer ?o ?i ?b with _ => _ end = _ =>
      let E := fresh "E" in destruct (write_buffer o i b) eqn:E; [apply write_buffer_quiet in E|done]
  end.
  apply write_buffer_quiet in H. unfold quiet in *. congruence.
Qed.

Lemma auth_finished_reports m o o' : auth_finished junk m o = Some o' -> reports1 o o'.
Proof.
  unfold auth_finished. cbv zeta. destruct (reserve_buffer _ _ _ _) as [[r o1]|] eqn:E; [|done]. apply reserve_quiet in E.
  destruct r; cbn [negb]; [|intros H; by eapply reports1_after, report_error_reports].
  intros H. apply quiet_reports1.
  destruct (dest_addr o1); [done|..];
    (destruct (write_buffer o1 _ _) as [o2|] eqn:E2; [|done]); apply write_buffer_quiet in E2;
    (destruct (write_buffer o2 _ _) as [o3|] eqn:E3; [|done]); apply write_buffer_quiet in E3;
    (destruct (send_buffer o3 _) as [o4|] eqn:E4; [|done]); apply send_buffer_quiet in E4; injection H as <-;
    unfold quiet in *; cbn; congruence.
Qed.

Create HintDb reports.
#[local] Hint Resolve report_error_reports auth_finished_reports quiet_reports1 : reports.

Lemma received_hello_reports m o o' : received_hello junk m o = Some o' -> reports1 o o'.
Proof.
  unfold received_hello. destruct (buffer o) as [b|]; [|done]. destruct (mem_read _ _ b) as [imsg|]; [|done].
  destruct (negb _); [eauto with reports|]. destruct (find_auth _ _) as [ai|]; [|eauto with reports].
  destruct (auth_type ai =? _); [eauto with reports|]. destruct (auth_type ai =? _); [|done].
  destruct (_ || _); [eauto with reports|]. destruct (reserve_buffer _ _ _ _) as [[r o1]|] eqn:E; [|done].
  apply reserve_quiet in E. destruct r; cbn [negb]; [|intros H; by eapply reports1_after, report_error_reports].
  destruct (write_password o1 ai) as [o2|] eqn:E2; [|done]. apply write_password_quiet in E2.
  destruct (send_buffer o2 _) as [o3|] eqn:E3; [|done]. apply send_buffer_quiet in E3. intros [= <-].
  left. unfold quiet in *. cbn. congruence.
Qed.

Lemma received_reply_header_reports o o' : received_reply_header o = Some o' -> reports1 o o'.
Proof.
  unfold received_reply_header. destruct (buffer o) as [b|]; [|done]. destruct (mem_read _ _ b) as [imsg|]; [|done].
  destruct (negb _); [eauto with reports|]. destruct (negb _); [eauto with reports|].
  destruct (_ =? _); [|destruct (_ =? _); [|eauto with reports]];
    (destruct (start_receive o _ _) as [o1|] eqn:E; [|done]; apply start_receive_quiet in E; intros [= <-]; by left).
Qed.

Lemma received_password_reply_reports m o o' : received_password_reply junk m o = Some o' -> reports1 o o'.
Proof.
  unfold received_password_reply. destruct (buffer o) as [b|]; [|done]. destruct (mem_read _ _ b) as [r|]; [|done].
  destruct (negb _); [eauto with reports|]. destruct (negb _); eauto with reports.
Qed.

Lemma received_reply_rest_reports o o' : received_reply_rest o = Some o' -> reports1 o o'.
Proof.
  unfold received_reply_rest. cbv zeta. destruct (free_control_io _) as [o1|] eqn:E1; [|done]. apply free_control_quiet in E1.
  destruct (init_up_io o1) as [o2|] eqn:E2; [|done]. apply init_up_quiet in E2. intros [= <-]. right. exists EVENT_UP.
  unfold quiet in *. cbn in *. congruence.
Qed.

Lemma recv_done_reports m n o o' : recv_handler_done junk m n o = Some o' -> reports1 o o'.
Proof.
  unfold recv_handler_done. destruct (n >=? 0); [|done]. destruct (n <=? _); [|done]. cbv zeta.
  destruct (_ <? _); [unfold do_receive; intros H; split_some H; apply (inj Some) in H as <-; by left|].
  destruct (state _); try done; intros H; eapply reports1_after; try apply set_io_quiet;
    eauto using received_hello_reports, received_reply_header_reports, received_password_reply_reports, received_reply_rest_reports.
Qed.

Lemma send_done_reports m o o' : send_handler_done junk m o = Some o' -> reports1 o o'.
Proof.
  unfold send_handler_done. destruct (buffer o); [|done].
  destruct (state o); try done; cbv zeta;
    (destruct (reserve_buffer _ _ _ _) as [[r o1]|] eqn:E; [|done]; apply reserve_quiet in E;
     destruct r; cbn [negb]; [|intros H; by eapply reports1_after, report_error_reports];
     destruct (start_receive o1 _ _) as [o2|] eqn:E2; [|done]; apply start_receive_quiet in E2; intros [= <-];
     left; unfold quiet in *; cbn; congruence).
Qed.

Lemma connector_fail1_reports o o' : connector_fail1 o = Some o' -> reports1 o o'.
Proof.
  unfold connector_fail1, connector_fail0. destruct (free_control_io o) as [o1|] eqn:E1; [|done]. apply free_control_quiet in E1.
  destruct (BConnection_Free o1) as [o2|] eqn:E2; [|done]. apply con_free_quiet in E2. intros H.
  eapply reports1_after; [|by apply report_error_reports in H]. unfold quiet in *. congruence.
Qed.

Lemma connector_reports e c m o o' : connector_handler junk e c m o = Some o' -> reports1 o o'.
Proof.
  unfold connector_handler. destruct (bool_decide _); [|done].
  destruct e; [eauto with reports|]. destruct c; cbn [negb]; [|eauto with reports].
  unfold BConnection_Init. destruct (negb _); [|done]. unfold init_control_io.
  destruct (_ && _ && _); [|done]. cbv zeta. set (o2 := set_io _ _). assert (quiet o o2) as Hq by done.
  clearbody o2. destruct (_ || _); [intros H; by eapply reports1_after, connector_fail1_reports|].
  destruct (reserve_buffer _ _ _ _) as [[r o3]|] eqn:E; [|done]. apply reserve_quiet in E.
  assert (quiet o o3) as Hq3 by (unfold quiet in *; congruence).
  destruct r; cbn [negb]; [|intros H; by eapply reports1_after, connector_fail1_reports].
  destruct (write_buffer o3 _ _) as [o4|] eqn:E4; [|done]. apply write_buffer_quiet in E4.
  destruct (write_methods o4 _ _) as [o5|] eqn:E5; [|done]. apply write_methods_quiet in E5.
  destruct (send_buffer o5 _) as [o6|] eqn:E6; [|done]. apply send_buffer_quiet in E6. intros [= <-].
  left. unfold quiet in *. cbn. congruence.
Qed.

Lemma exec_reports o e o' : socks_exec junk o e = Some o' -> reports1 o o'.
Proof.
  destruct e as [er ok m|c|m data|m]; cbn [socks_exec].
  - apply connector_reports.
  - unfold connection_handler. destruct (negb _); [|done]. destruct (_ && _); eauto with reports.
  - destruct (write_buffer _ _ _) as [o1|] eqn:E; [|done]. apply write_buffer_quiet in E. intros H.
    eapply reports1_after; [|by eapply recv_done_reports]. exact E.
  - intros H. eapply reports1_after; [|by eapply send_done_reports]. done.
Qed.

End Reports.

(** ** The instance *)

Section Instance_.
Context (junk : Z -> list Z) (A : list auth_info).
Context (junk_len : forall n, 0 <= n -> zlen (junk n) = n).
Context (A_types : Forall (fun a => auth_type a = 0 \/ auth_type a = 2) A).

Definition port_exec (o : BSocksClient) (e : socks_ev) : option (BSocksClient * option socks_event) :=
  let* o' := socks_exec junk o e in
  Some (o', head (drop (length (reported o)) (reported o'))).

Definition port_inv (ph : socks_phase) (o : BSocksClient) : Prop :=
  flags_ok o /\
  match ph with
  | Connecting => exists D rx, dest_ok D /\ good A D o rx /\ reported o = []
  | Up => exists D rx, dest_ok D /\ good A D o rx /\ reported o = [EVENT_UP]
  | Down => d_err o = true
  end.

Lemma good_reported D o rx : good A D o rx ->
  (reported o = [] /\ state o <> STATE_UP /\ snd (socks_spec A D rx) = Waiting) \/
  (reported o = [EVENT_UP] /\ state o = STATE_UP /\ snd (socks_spec A D rx) = Established).
Proof.
  intros Hg. pose proof (g_phase _ _ _ _ Hg) as Hp. destruct (decide (state o = STATE_CONNECTING)) as [Hc|Hc].
  - left. unfold phase in Hp. rewrite Hc in *. by destruct Hp as (-> & _ & -> & _).
  - destruct (phase_spec A D o rx Hp Hc) as [_ [(? & ? & ?)|(? & ? & ?)]]; [by left|by right].
Qed.

(** After up only the connection can have an event. *)
Lemma up_event D o rx e : good A D o rx -> state o = STATE_UP -> socks_enabled o e = true -> exists c, e = SE_connection c.
Proof.
  intros Hg Hs He. destruct (g_flags _ _ _ _ Hg) as [_ Hf]. rewrite Hs in Hf. destruct Hf as (_ & Hc & _).
  unfold socks_enabled in He. rewrite Hc in He. destruct e as [| | |]; [|by eexists|..]; exfalso.
  - rewrite bool_decide_false in He by congruence. by destruct (negb (d_err o)).
  - by destruct (negb (d_err o)).
  - by destruct (negb (d_err o)).
Qed.

Lemma closed_only_up o c o' : connection_handler c o = Some o' ->
  exists x, reported o' = reported o ++ [x] /\ (x = EVENT_ERROR \/ (x = EVENT_ERROR_CLOSED /\ state o = STATE_UP)).
Proof.
  unfold connection_handler, report_error. destruct (negb _); [|done].
  destruct (bool_decide (state o = STATE_UP) && c) eqn:E; destruct (negb (d_err o)); try done; intros [= <-].
  - apply andb_true_iff in E as [E _]. apply bool_decide_eq_true in E. exists EVENT_ERROR_CLOSED. split; [done|by right].
  - exists EVENT_ERROR. split; [done|by left].
Qed.

Lemma exec_connecting D o rx e :
  dest_ok D -> good A D o rx -> reported o = [] -> socks_enabled o e = true ->
  exists o', socks_exec junk o e = Some o' /\
    ((reported o' = [] /\ port_inv Connecting o') \/ (reported o' = [EVENT_UP] /\ port_inv Up o') \/
     (reported o' = [EVENT_ERROR] /\ port_inv Down o')).
Proof using junk_len A_types.
  intros HD Hg Hr He. destruct (socks_step junk junk_len A D A_types HD o rx e Hg He) as (o' & Hx & Hres).
  exists o'. split; [done|]. pose proof (exec_reports junk o e o' Hx) as Hrep. unfold reports1, quiet in Hrep; rewrite Hr in Hrep.
  destruct Hres as [Hg'|[Hf|[Hf _]]].
  - destruct (good_reported D o' _ Hg') as [(Hr' & _)|(Hr' & _)]; [left|right; left]; (split; [done|]);
      (split; [apply Hg'|]); by exists D, (rx ++ ev_data e).
  - right. right. destruct Hf. split; [done|]. by split.
  - right. right. destruct Hf as [Herr Hfl _ [[Hr' _]|(x & Hr' & _)]]; [split; [done|]; by split|].
    exfalso. rewrite Hr' in Hrep. by destruct Hrep as [|(? & ?)].
Qed.

Lemma exec_up D o rx e :
  dest_ok D -> good A D o rx -> reported o = [EVENT_UP] -> socks_enabled o e = true ->
  exists o' x, socks_exec junk o e = Some o' /\ reported o' = [EVENT_UP; x] /\ x <> EVENT_UP /\ port_inv Down o'.
Proof using junk_len A_types.
  intros HD Hg Hr He. destruct (good_reported D o rx Hg) as [(? & _)|(_ & Hs & Hest)]; [congruence|].
  destruct (up_event D o rx e Hg Hs He) as [c ->].
  destruct (socks_step junk junk_len A D A_types HD o rx _ Hg He) as (o' & Hx & Hres). rewrite app_nil_r in Hres.
  destruct (closed_only_up _ _ _ Hx) as (x & Hr' & Hxx). rewrite Hr in Hr'. exists o', x. split; [done|]. split; [done|].
  assert (x <> EVENT_UP) as Hne by (intros ->; by destruct Hxx as [|[? _]]). split; [done|].
  destruct Hres as [Hg'|[Hf|[Hf _]]].
  - exfalso. destruct (good_reported D o' _ Hg') as [(Hr2 & _)|(Hr2 & _)]; rewrite Hr2 in Hr'; done.
  - destruct Hf. by split.
  - destruct Hf. by split.
Qed.

Lemma port_free_ok ph o : port_inv ph o -> is_Some (BSocksClient_Free o).
Proof.
  intros [[Hc Hf] _]. unfold BSocksClient_Free, free_up_io, free_control_io, BConnection_Free.
  destruct (state o) eqn:Es; destruct Hf as (F1 & F2 & F3);
    rewrite ?(bool_decide_true (STATE_CONNECTING = STATE_CONNECTING)), ?(bool_decide_true (STATE_UP = STATE_UP)) by done;
    rewrite ?bool_decide_false by done; cbn [set_io io con control_io up_io]; rewrite F1, F2, F3;
    cbn [andb negb set_io io con control_io up_io connector]; rewrite Hc; by eexists.
Qed.

#[global, refine] Instance BSocksClient_port : SocksPort BSocksClient socks_ev := {
  sp_new dest ok := BSocksClient_Init true A dest ok;
  sp_enabled := socks_enabled;
  sp_exec := port_exec;
  sp_free := BSocksClient_Free;
  sp_inv := port_inv
}.
Proof.
  all: cbv beta.
  - intros dest Hd. unfold BSocksClient_Init.
    assert (match dest with BADDR_NONE => false | _ => true end = true) as -> by by destruct dest.
    rewrite (proj2 (forallb_forall _ _)).
    2: { intros a Ha. rewrite List.Forall_forall in A_types. specialize (A_types a Ha).
         unfold SOCKS_METHOD_NO_AUTHENTICATION_REQUIRED, SOCKS_METHOD_USERNAME_PASSWORD. lia. }
    cbn [negb]. eexists. split; [done|]. split; [done|]. exists dest, []. split; [done|]. split; [|done]. by split.
  - intros dest Hd. unfold BSocksClient_Init.
    assert (match dest with BADDR_NONE => false | _ => true end = true) as -> by by destruct dest.
    rewrite (proj2 (forallb_forall _ _)); [done|].
    intros a Ha. rewrite List.Forall_forall in A_types. specialize (A_types a Ha).
    unfold SOCKS_METHOD_NO_AUTHENTICATION_REQUIRED, SOCKS_METHOD_USERNAME_PASSWORD. lia.
  - intros ph o e [Hfl Hi] He. unfold port_exec. destruct ph.
    + destruct Hi as (D & rx & HD & Hg & Hr). destruct (exec_connecting D o rx e HD Hg Hr He) as (o' & -> & Hres).
      eexists _, _. split; [done|]. rewrite Hr. destruct Hres as [[-> ?]|[[-> ?]|[-> ?]]]; done.
    + destruct Hi as (D & rx & HD & Hg & Hr). destruct (exec_up D o rx e HD Hg Hr He) as (o' & x & -> & Hr' & Hne & Hd).
      eexists _, _. split; [done|]. rewrite Hr, Hr'. cbn. by destruct x.
    + exfalso. unfold socks_enabled in He. by rewrite Hi in He.
  - intros ph o. apply port_free_ok.
Defined.

End Instance_.

(** ** An example of the interface *)

Lemma ex_auths_types : Forall (fun a => auth_type a = 0 \/ auth_type a = 2) ex_auths.
Proof. constructor; [by left|]. constructor; [by right|constructor]. Qed.

Definition ex_port : SocksPort BSocksClient socks_ev := BSocksClient_port ex_junk ex_auths ex_junk_len ex_auths_types.
