(* ===== verification/SocksUdpGw.v ===== *)
(** * The UDP gateway client over SOCKS

    [tun2socks/SocksUdpGwClient.c] (without [ANDROID_UDP]): a gateway client
    ([UdpGw]) connected through a SOCKS client, which is known by its interface
    ([SocksPort]) only and is made again, after a delay, whenever it fails. *)

From S2P Require Import Prelude ByteOrder InetProto Device SocksClient SocksPort UdpGw.

Section SocksUdpGw.
Context {S E : Type} `{SocksPort S E}.

Record SocksUdpGwClient := mkSug {
  remote_udpgw_addr : BAddr;
  udpgw_client : UdpGwClient;
  reconnect_timer : bool;     (** [BTimer_IsRunning] *)
  have_socks : bool;
  socks_client : option S;    (** the structure, [None] when it is not initialised *)
  socks_up : bool
}.

Definition sug_udpgw (o : SocksUdpGwClient) (u : UdpGwClient) : SocksUdpGwClient :=
  mkSug (remote_udpgw_addr o) u (reconnect_timer o) (have_socks o) (socks_client o) (socks_up o).
Definition sug_timer (o : SocksUdpGwClient) (b : bool) : SocksUdpGwClient :=
  mkSug (remote_udpgw_addr o) (udpgw_client o) b (have_socks o) (socks_client o) (socks_up o).
Definition sug_socks (o : SocksUdpGwClient) (have : bool) (s : option S) (up : bool) : SocksUdpGwClient :=
  mkSug (remote_udpgw_addr o) (udpgw_client o) (reconnect_timer o) have s up.

Definition free_socks (o : SocksUdpGwClient) : option SocksUdpGwClient :=
  ASSERT (have_socks o) ;;
  let* o := (if socks_up o
             then let* u := UdpGwClient_DisconnectServer (udpgw_client o) in Some (sug_udpgw o u)
             else Some o) in
  let* s := socks_client o in
  let* _ := sp_free s in
  Some (sug_socks o false None (socks_up o)).

(** [connector_ok]: whether [BSocksClient_Init] succeeds. *)
Definition try_connect (connector_ok : bool) (o : SocksUdpGwClient) : option SocksUdpGwClient :=
  ASSERT (negb (have_socks o)) ;;
  ASSERT (negb (reconnect_timer o)) ;;
  let* r := sp_new (remote_udpgw_addr o) connector_ok in
  match r with
  | None => Some (sug_timer o true)
  | Some s => Some (sug_socks o true (Some s) false)
  end.

(** The reactor stops the timer before it calls the handler. *)
Definition reconnect_timer_handler (connector_ok : bool) (o : SocksUdpGwClient) : option SocksUdpGwClient :=
  ASSERT (reconnect_timer o) ;;
  let o := sug_timer o false in
  ASSERT (negb (have_socks o)) ;;
  try_connect connector_ok o.

(** [BReactor_SetTimer] after [free_socks]. *)
Definition free_and_wait (o : SocksUdpGwClient) : option SocksUdpGwClient :=
  let* o := free_socks o in
  Some (sug_timer o true).

(** [decoder_ok]: whether [UdpGwClient_ConnectServer] gets its memory. *)
Definition socks_client_handler (decoder_ok : bool) (o : SocksUdpGwClient) (event : socks_event) : option SocksUdpGwClient :=
  ASSERT (have_socks o) ;;
  match event with
  | EVENT_UP =>
      ASSERT (negb (socks_up o)) ;;
      let* (r, u) := UdpGwClient_ConnectServer decoder_ok (udpgw_client o) in
      let o := sug_udpgw o u in
      if negb r then free_and_wait o
      else Some (sug_socks o (have_socks o) (socks_client o) true)
  | EVENT_ERROR | EVENT_ERROR_CLOSED => free_and_wait o
  end.

Definition udpgw_handler_servererror (o : SocksUdpGwClient) : option SocksUdpGwClient :=
  ASSERT (have_socks o) ;;
  ASSERT (socks_up o) ;;
  free_and_wait o.

Definition SocksUdpGwClient_Init (udp_mtu max_connections send_buffer_size : Z) (remote : BAddr) (queue_ok connector_ok : bool)
    : option (option SocksUdpGwClient) :=
  ASSERT (match remote with BADDR_NONE => false | _ => true end) ;;
  let* r := UdpGwClient_Init udp_mtu max_connections send_buffer_size queue_ok in
  match r with
  | None => Some None
  | Some u => let* o := try_connect connector_ok (mkSug remote u false false None false) in Some (Some o)
  end.

Definition SocksUdpGwClient_Free (o : SocksUdpGwClient) : option SocksUdpGwClient :=
  let* o := (if have_socks o then free_socks o else Some o) in
  let o := sug_timer o false in
  let* u := UdpGwClient_Free (udpgw_client o) in
  Some (sug_udpgw o u).

Definition SocksUdpGwClient_SubmitPacket (mem flow_ok buf_ok : bool) (o : SocksUdpGwClient) (local remote : BAddr)
    (is_dns : bool) (data : list Z) : option SocksUdpGwClient :=
  let* u := submit_and_first_job mem flow_ok buf_ok (udpgw_client o) local remote is_dns data in
  Some (sug_udpgw o u).

(** ** Histories *)

Inductive sug_ev :=
| SU_submit (mem flow_ok buf : bool) (l r : BAddr) (is_dns : bool) (data : list Z)
| SU_socks (decoder_ok : bool) (e : E)
| SU_timer (connector_ok : bool)
| SU_message (data : list Z)
| SU_decoder_error
| SU_monitor
| SU_keepalive_done.

(** An event of the SOCKS client; its report is handled at once. *)
Definition socks_event_exec (decoder_ok : bool) (o : SocksUdpGwClient) (e : E) : option SocksUdpGwClient :=
  let* s := socks_client o in
  let* (s, r) := sp_exec s e in
  let o := sug_socks o (have_socks o) (Some s) (socks_up o) in
  match r with
  | Some ev => socks_client_handler decoder_ok o ev
  | None => Some o
  end.

Definition lift (o : SocksUdpGwClient) (r : option UdpGwClient) : option SocksUdpGwClient :=
  let* u := r in Some (sug_udpgw o u).

Definition sug_exec (o : SocksUdpGwClient) (e : sug_ev) : option SocksUdpGwClient :=
  match e with
  | SU_submit mem fl buf l r dns data => SocksUdpGwClient_SubmitPacket mem fl buf o l r dns data
  | SU_socks ok e => socks_event_exec ok o e
  | SU_timer ok => reconnect_timer_handler ok o
  | SU_message data => lift o (recv_interface_handler_send (udpgw_client o) data)
  | SU_decoder_error => let* o := lift o (decoder_handler_error (udpgw_client o)) in udpgw_handler_servererror o
  | SU_monitor => lift o (send_monitor_handler (udpgw_client o))
  | SU_keepalive_done => lift o (keepalive_if_handler_done (udpgw_client o))
  end.

Definition sug_enabled (o : SocksUdpGwClient) (e : sug_ev) : bool :=
  match e with
  | SU_submit _ _ _ l r _ data => addr_wfb l && addr_wfb r && (zlen data <=? udp_mtu (udpgw_client o))
  | SU_socks _ e => match socks_client o with Some s => sp_enabled s e | None => false end
  | SU_timer _ => reconnect_timer o
  | SU_message data => gw_enabled (udpgw_client o) (GE_message data)
  | SU_decoder_error => have_server (udpgw_client o)
  | SU_monitor => true
  | SU_keepalive_done => keepalive_sending (udpgw_client o)
  end.

Fixpoint sug_run (o : SocksUdpGwClient) (evs : list sug_ev) : option (option SocksUdpGwClient) :=
  match evs with
  | [] => Some (Some o)
  | e :: evs => if sug_enabled o e
                then match sug_exec o e with Some o => sug_run o evs | None => Some None end
                else None
  end.

(** The events among them that the gateway client sees from its user. *)
Definition sug_submitted (evs : list sug_ev) : list conaddr_t :=
  omap (fun e => match e with SU_submit _ _ _ l r _ _ => Some (l, r) | _ => None end) evs.

(** ** Invariant *)

Record sug_inv (o : SocksUdpGwClient) : Prop := {
  sug_dest : dest_ok (remote_udpgw_addr o);
  sug_wait : reconnect_timer o = negb (have_socks o);
  sug_server : have_server (udpgw_client o) = have_socks o && socks_up o;
  sug_client : if have_socks o
               then exists s, socks_client o = Some s /\ sp_inv (if socks_up o then Up else Connecting) s
               else socks_client o = None
}.

(** The gateway client is left in a state of a legal history of its own. *)
Record legal (u u' : UdpGwClient) (subs : list conaddr_t) : Prop := {
  legal_run : exists gevs, gw_run u gevs = Some (Some u') /\ submitted gevs = subs
}.

Lemma gw_run_app evs1 : forall u u1 evs2,
  gw_run u evs1 = Some (Some u1) -> gw_run u (evs1 ++ evs2) = gw_run u1 evs2.
Proof using.
  induction evs1 as [|e evs1 IH]; intros u u1 evs2 Hr; cbn [gw_run app] in *; [by injection Hr as <-|].
  destruct (gw_enabled u e); [|done]. destruct (gw_exec u e); [|done]. by apply IH.
Qed.

Lemma legal_trans u u1 u2 s1 s2 : legal u u1 s1 -> legal u1 u2 s2 -> legal u u2 (s1 ++ s2).
Proof using.
  intros [(g1 & H1 & <-)] [(g2 & H2 & <-)]. split. exists (g1 ++ g2). rewrite (gw_run_app _ _ _ _ H1).
  split; [done|]. apply omap_app.
Qed.

Lemma legal_refl u : legal u u [].
Proof using. split. by exists []. Qed.

Lemma legal_step u e u' : gw_enabled u e = true -> gw_exec u e = Some u' -> legal u u' (submitted [e]).
Proof using. intros He Hx. split. exists [e]. cbn [gw_run]. by rewrite He, Hx. Qed.

(** Datagrams, messages and keep-alives leave the server connection alone. *)
Definition data_event (e : gw_ev) : bool :=
  match e with GE_connect _ | GE_disconnect => false | _ => true end.

Lemma data_event_server u e u' :
  gw_inv u -> gw_enabled u e = true -> data_event e = true -> gw_exec u e = Some u' -> have_server u' = have_server u.
Proof using.
  intros [Ho Hj] He Hd Hx. destruct e as [mem fl buf l r dns data|data| | | |ok|]; cbn [gw_exec gw_enabled] in *; try done.
  - repeat (apply andb_true_iff in He as [He ?]).
    destruct (submit_step mem fl buf u l r dns data Ho Hj) as (u1 & _ & Hx' & _ & _ & Hs & _);
      [by apply addr_wfb_ok|by apply addr_wfb_ok|lia|]. congruence.
  - unfold recv_interface_handler_send in Hx. destruct (have_server u) eqn:Es; [|done].
    destruct (zlen data <=? udpgw_mtu u); [|done]. destruct (zlen data <? _); [by injection Hx as <-|]. cbv zeta in Hx.
    destruct (if negb _ then _ else _) as [[ra dt]|]; [|by injection Hx as <-].
    destruct (zlen dt >? _); [by injection Hx as <-|]. destruct (find_connection_by_conid u _) as [p|]; [|by injection Hx as <-].
    destruct (heap u !! p) as [c|]; [|done]. destruct (negb _); by injection Hx as <-.
  - unfold decoder_handler_error in Hx. destruct (have_server u) eqn:Es; [|done]. by injection Hx as <-.
  - unfold send_monitor_handler in Hx. destruct (keepalive_sending u); [by injection Hx as <-|].
    destruct (_ <=? _); [|done]. by injection Hx as <-.
  - unfold keepalive_if_handler_done in Hx. destruct (keepalive_sending u); [|done]. by injection Hx as <-.
Qed.

(** Such an event of the gateway client inside the composition. *)
Lemma data_event_ok o e :
  sug_inv o -> gw_inv (udpgw_client o) -> gw_enabled (udpgw_client o) e = true -> data_event e = true ->
  exists o', lift o (gw_exec (udpgw_client o) e) = Some o' /\ sug_inv o' /\ have_socks o' = have_socks o /\
    socks_up o' = socks_up o /\ legal (udpgw_client o) (udpgw_client o') (submitted [e]).
Proof using.
  intros [Hd Hw Hs Hc] Hg He Hde. destruct (gw_step _ _ Hg He) as (u' & _ & Hx & _ & _).
  pose proof (data_event_server _ _ _ Hg He Hde Hx) as Hs'. rewrite Hx. cbn [lift]. eexists. split; [done|].
  split; [split; cbn; try done; congruence|]. split; [done|]. split; [done|]. cbn. by apply legal_step.
Qed.

(** Giving up the SOCKS client: the timer runs, the server is disconnected. *)
Lemma free_socks_ok o ph s :
  have_socks o = true -> have_server (udpgw_client o) = socks_up o -> socks_client o = Some s -> sp_inv ph s ->
  exists o', free_socks o = Some o' /\ have_socks o' = false /\ socks_client o' = None /\
    have_server (udpgw_client o') = false /\ remote_udpgw_addr o' = remote_udpgw_addr o /\
    reconnect_timer o' = reconnect_timer o /\ legal (udpgw_client o) (udpgw_client o') [].
Proof using.
  intros Hh Hs Hc Hi. unfold free_socks. rewrite Hh. destruct (sp_free_ok ph s Hi) as [s' Hf].
  destruct (socks_up o) eqn:Eu.
  - unfold UdpGwClient_DisconnectServer. rewrite Hs. cbn [sug_udpgw socks_client]. rewrite Hc, Hf. eexists. split; [done|].
    split_and!; try done. cbn. apply (legal_step _ GE_disconnect); [done|]. cbn. unfold UdpGwClient_DisconnectServer. by rewrite Hs.
  - rewrite Hc, Hf. eexists. split; [done|]. split_and!; try done. cbn. apply legal_refl.
Qed.

Lemma free_and_wait_ok o ph s :
  dest_ok (remote_udpgw_addr o) -> have_socks o = true -> have_server (udpgw_client o) = socks_up o ->
  socks_client o = Some s -> sp_inv ph s ->
  exists o', free_and_wait o = Some o' /\ sug_inv o' /\ legal (udpgw_client o) (udpgw_client o') [].
Proof using.
  intros Hd Hh Hs Hc Hi. unfold free_and_wait. destruct (free_socks_ok o ph s Hh Hs Hc Hi) as (o' & -> & E1 & E2 & E3 & E4 & _ & Hl).
  eexists. split; [done|]. split; [|done]. split; cbn; rewrite ?E1; try done; congruence.
Qed.

(** A report of the SOCKS client that follows its promise. *)
Lemma socks_client_handler_ok ok o ev s :
  dest_ok (remote_udpgw_addr o) -> have_socks o = true -> reconnect_timer o = false ->
  have_server (udpgw_client o) = socks_up o -> socks_client o = Some s ->
  (ev = EVENT_UP -> socks_up o = false /\ sp_inv Up s) -> (exists ph, sp_inv ph s) ->
  exists o', socks_client_handler ok o ev = Some o' /\ sug_inv o' /\ legal (udpgw_client o) (udpgw_client o') [].
Proof using.
  intros Hd Hh Ht Hs Hc Hup [ph Hi]. unfold socks_client_handler. rewrite Hh. destruct ev; [by eapply free_and_wait_ok| |by eapply free_and_wait_ok].
  destruct (Hup eq_refl) as [Eu Hiu]. rewrite Eu in *. cbn [negb]. unfold UdpGwClient_ConnectServer. rewrite Hs. cbn [negb].
  destruct ok; cbn [negb].
  - eexists. split; [done|]. split; [|apply (legal_step _ (GE_connect true)); cbn; unfold UdpGwClient_ConnectServer; by rewrite Hs].
    split; cbn; rewrite ?Hh, ?Ht; try done. by exists s.
  - destruct (free_and_wait_ok (sug_udpgw o (udpgw_client o)) ph s) as (o' & -> & Hi' & Hl); try done; [by cbn; congruence|].
    exists o'. split; [done|]. split; [done|]. exact Hl.
Qed.

Lemma try_connect_ok ok o :
  dest_ok (remote_udpgw_addr o) -> have_socks o = false -> reconnect_timer o = false ->
  have_server (udpgw_client o) = false -> socks_client o = None ->
  exists o', try_connect ok o = Some o' /\ sug_inv o' /\ udpgw_client o' = udpgw_client o.
Proof using.
  intros Hd Hh Ht Hs Hc. unfold try_connect. rewrite Hh, Ht. cbn [negb]. destruct ok.
  - destruct (sp_new_ok _ Hd) as (s & -> & Hi). eexists. split; [done|]. split; [|done].
    split; cbn; try done. by exists s.
  - rewrite sp_new_fails by done. eexists. split; [done|]. split; [|done]. split; cbn; rewrite ?Hh, ?Hs; done.
Qed.

(** Every enabled event. *)
Lemma sug_step o e :
  sug_inv o -> gw_inv (udpgw_client o) -> sug_enabled o e = true ->
  exists o', sug_exec o e = Some o' /\ sug_inv o' /\ legal (udpgw_client o) (udpgw_client o') (sug_submitted [e]).
Proof using.
  intros Hi Hg He. destruct e as [mem fl buf l r dns data|ok e|ok|data| | |]; cbn [sug_exec sug_enabled] in *.
  - destruct (data_event_ok o (GE_submit mem fl buf l r dns data) Hi Hg He eq_refl) as (o' & Hx & Hi' & _ & _ & Hl). by exists o'.
  - destruct Hi as [Hd Hw Hs Hc]. unfold socks_event_exec. destruct (have_socks o) eqn:Eh; [|by rewrite Hc in He].
    destruct Hc as (s & Ec & Hp). rewrite Ec in *. destruct (sp_exec_ok _ _ _ Hp He) as (s' & r & -> & Hr).
    destruct r as [ev|].
    + destruct (socks_client_handler_ok ok (sug_socks o true (Some s') (socks_up o)) ev s') as (o' & Hx & Hi' & Hl); try done.
      * intros ->. by destruct (socks_up o), Hr.
      * destruct ev; [by exists Down|destruct Hr; by exists Up|destruct Hr; by exists Down].
      * exists o'. by rewrite Hx.
    + eexists. split; [done|]. split; [|apply legal_refl]. split; cbn; try done. by exists s'.
  - destruct Hi as [Hd Hw Hs Hc]. unfold reconnect_timer_handler. rewrite He in *. cbn [sug_timer have_socks].
    destruct (have_socks o) eqn:Eh; [done|]. cbn [negb].
    destruct (try_connect_ok ok (sug_timer o false)) as (o' & Hx & Hi' & Hu); try done.
    exists o'. split; [by rewrite <- Hx|]. split; [done|]. rewrite Hu. apply legal_refl.
  - destruct (data_event_ok o (GE_message data) Hi Hg He eq_refl) as (o' & Hx & Hi' & _ & _ & Hl). by exists o'.
  - destruct (data_event_ok o GE_decoder_error Hi Hg He eq_refl) as (o1 & Hx & Hi1 & Eh & Eu & Hl). cbn [gw_exec] in Hx. rewrite Hx.
    destruct Hi as [_ _ Hs _]. rewrite Hs in He. apply andb_true_iff in He as [E1 E2]. rewrite E1 in Eh. rewrite E2 in Eu.
    unfold udpgw_handler_servererror. destruct Hi1 as [Hd Hw Hs1 Hc].
    assert (have_server (udpgw_client o1) = socks_up o1) as Hsv by by rewrite Hs1, Eh. rewrite Eh, Eu in Hc |- *. destruct Hc as (s & Ec & Hp).
    destruct (free_and_wait_ok o1 Up s) as (o' & -> & Hi' & Hl'); try done. exists o'. split; [done|]. split; [done|].
    apply (legal_trans _ _ _ [] [] Hl Hl').
  - destruct (data_event_ok o GE_monitor Hi Hg He eq_refl) as (o' & Hx & Hi' & _ & _ & Hl). by exists o'.
  - destruct (data_event_ok o GE_keepalive_done Hi Hg He eq_refl) as (o' & Hx & Hi' & _ & _ & Hl). by exists o'.
Qed.

Lemma legal_inv u u' l : gw_inv u -> legal u u' l -> gw_inv u'.
Proof using. intros Hi [(g & Hr & _)]. destruct (gw_run_steps _ _ _ Hi Hr) as (o & _ & [= <-] & ? & _). done. Qed.

Lemma sug_run_ok evs : forall o r,
  sug_inv o -> gw_inv (udpgw_client o) -> sug_run o evs = Some r ->
  exists o', r = Some o' /\ sug_inv o' /\ legal (udpgw_client o) (udpgw_client o') (sug_submitted evs).
Proof using.
  induction evs as [|e evs IH]; intros o r Hi Hg Hr; cbn [sug_run] in Hr.
  { injection Hr as <-. exists o. split; [done|]. split; [done|]. apply legal_refl. }
  destruct (sug_enabled o e) eqn:He; [|done]. destruct (sug_step o e Hi Hg He) as (o1 & Hx & Hi1 & Hl). rewrite Hx in Hr.
  destruct (IH o1 r Hi1 (legal_inv _ _ _ Hg Hl) Hr) as (o' & -> & Hi' & Hl'). exists o'. split; [done|]. split; [done|].
  change (e :: evs) with ([e] ++ evs). unfold sug_submitted. rewrite omap_app. by eapply legal_trans.
Qed.

Lemma sug_init_ok mtu max sbs dest q ok o :
  dest_ok dest -> SocksUdpGwClient_Init mtu max sbs dest q ok = Some (Some o) ->
  UdpGwClient_Init mtu max sbs q = Some (Some (udpgw_client o)) /\ sug_inv o /\ gw_inv (udpgw_client o).
Proof using.
  intros Hd Hx. unfold SocksUdpGwClient_Init in Hx. destruct (match dest with BADDR_NONE => false | _ => true end); [|done].
  destruct (UdpGwClient_Init mtu max sbs q) as [[u|]|] eqn:Eu; try done.
  destruct (gw_init_ok _ _ _ _ _ Eu) as (Hg & _). pose proof (gw_init_server _ _ _ _ _ Eu) as Hs.
  destruct (try_connect_ok ok (mkSug dest u false false None false)) as (o' & Ho' & Hi & Hu); try done.
  rewrite Ho' in Hx. injection Hx as <-. rewrite Hu. done.
Qed.

Lemma sug_free_ok o :
  sug_inv o -> gw_inv (udpgw_client o) ->
  exists o', SocksUdpGwClient_Free o = Some o' /\ have_socks o' = false /\ socks_client o' = None /\ reconnect_timer o' = false /\
    heap (udpgw_client o') = ∅ /\ connections_list (udpgw_client o') = [] /\ have_server (udpgw_client o') = false.
Proof using.
  intros [Hd Hw Hs Hc] Hg. unfold SocksUdpGwClient_Free. destruct (have_socks o) eqn:Eh.
  - destruct Hc as (s & Ec & Hp). destruct (free_socks_ok o _ s Eh Hs Ec Hp) as (o1 & -> & E1 & E2 & E3 & _ & _ & Hl).
    destruct (gw_free_ok (udpgw_client o1) (inv_ok _ (legal_inv _ _ _ Hg Hl))) as (u & Hu & F1 & _ & _ & F2 & _ & F3).
    cbn [sug_timer udpgw_client]. rewrite Hu. eexists. split; [done|]. by split_and!.
  - destruct (gw_free_ok (udpgw_client o) (inv_ok _ Hg)) as (u & Hu & F1 & _ & _ & F2 & _ & F3).
    cbn [sug_timer udpgw_client]. rewrite Hu. eexists. split; [done|]. by split_and!.
Qed.

(** ** Properties *)

Context (mtu max sbs : Z) (dest : BAddr) (connector_ok : bool) (o0 : SocksUdpGwClient).
Hypothesis Hdest : dest_ok dest.
Hypothesis Hinit : SocksUdpGwClient_Init mtu max sbs dest true connector_ok = Some (Some o0).

(** C39. With any SOCKS client that keeps its promise, and through every failure
    of it, of its handshake, of the stream decoder or of memory, no assertion
    fails; always either a SOCKS client exists or the reconnect timer runs, never
    both; the gateway client is connected exactly while the SOCKS client is up;
    what happens to the gateway client is a legal history of its own with the
    datagrams submitted here, so that its theorems apply to it; and the whole can
    be freed at any time, leaving no SOCKS client, timer or connection. *)
Theorem socks_udpgw_reconnects evs r :
  sug_run o0 evs = Some r ->
  exists o, r = Some o /\ reconnect_timer o = negb (have_socks o) /\ (is_Some (socks_client o) <-> have_socks o = true) /\
    have_server (udpgw_client o) = have_socks o && socks_up o /\
    (exists u0 gevs, UdpGwClient_Init mtu max sbs true = Some (Some u0) /\
       gw_run u0 gevs = Some (Some (udpgw_client o)) /\ submitted gevs = sug_submitted evs) /\
    exists o', SocksUdpGwClient_Free o = Some o' /\ have_socks o' = false /\ socks_client o' = None /\ reconnect_timer o' = false /\
      heap (udpgw_client o') = ∅ /\ connections_list (udpgw_client o') = [] /\ have_server (udpgw_client o') = false.
Proof using Hdest Hinit.
  intros Hr. destruct (sug_init_ok _ _ _ _ _ _ _ Hdest Hinit) as (Hu & Hi & Hg).
  destruct (sug_run_ok evs o0 r Hi Hg Hr) as (o & -> & Hi' & Hlg). pose proof (sug_free_ok o Hi' (legal_inv _ _ _ Hg Hlg)) as Hfree.
  destruct Hi' as [Hd Hw Hs Hc]. destruct Hlg as [(gevs & Hl & Hsub)]. exists o. split; [done|]. split; [done|].
  split; [|split; [done|split; [by exists (udpgw_client o0), gevs|done]]]. clear Hfree.
  destruct (have_socks o); [destruct Hc as (s & -> & _); split; [done|by eexists]|rewrite Hc; split; [intros []; done|done]].
Qed.

End SocksUdpGw.

(** ** Witnesses: the SOCKS client is BSocksClient *)

#[local] Existing Instance ex_port.

Definition ex_submit (i : Z) : sug_ev (E := socks_ev) := SU_submit true true true ex_local (ex_server i) (i =? 0) [i; 7].
(** The first connection is refused; the second comes up, carries a datagram,
    and ends with a decoder error. *)
Definition ex_sug_events : list (sug_ev (E := socks_ev)) :=
  [SU_socks true (SE_connector true true true); ex_submit 1; SU_timer true] ++
  map (SU_socks true) ex_socks_events ++ [ex_submit 0; SU_message [1; 2]; SU_decoder_error; SU_timer false].

Definition ex_sug0 : option (option (SocksUdpGwClient (S := BSocksClient))) := SocksUdpGwClient_Init 100 2 1 ex_dest true true.

Lemma socks_udpgw_reconnects_witness :
  exists o0 o, ex_sug0 = Some (Some o0) /\ sug_run o0 ex_sug_events = Some (Some o) /\
    reconnect_timer o = true /\ have_socks o = false /\ have_server (udpgw_client o) = false.
Proof.
  destruct ex_sug0 as [[o0|]|] eqn:Ei; [|exfalso; revert Ei; vm_compute; congruence..].
  destruct (sug_run o0 ex_sug_events) as [r|] eqn:Er.
  2: { exfalso. revert Er. injection Ei as <-. vm_compute. congruence. }
  destruct (socks_udpgw_reconnects 100 2 1 ex_dest true o0 I Ei ex_sug_events r Er) as (o & -> & H1 & H2 & H3 & _).
  exists o0, o. split; [reflexivity|]. split; [exact Er|].
  assert (have_socks o = false) as Eh by (clear -Er Ei; revert Er; injection Ei as <-; vm_compute; intros [= <-]; reflexivity).
  rewrite H1, H3, Eh. split; [reflexivity|]. split; reflexivity.
Defined.
