(* ===== verification/TcpClient.v ===== *)
(** * The TCP clients of tun2socks

    The relay between a TCP connection accepted by lwIP and a SOCKS client:
    [listener_accept_func] and the [client_*] functions of
    [tun2socks/tun2socks.c]. lwIP is the environment: a pcb is what the program
    did to it (callbacks set, bytes written, bytes confirmed), the answers of
    its functions are arguments of the event, and the SOCKS client is known by
    its interface [SocksPort]. [SYNC_COMMIT] runs the jobs set since
    [SYNC_FROMHERE]: a list of events of the SOCKS side. Every function takes
    the client as an [option], [None] once it is freed, so that a use after
    free fails like an assertion. *)

From S2P Require Import Prelude ByteOrder InetProto Device SocksClient SocksPort.

Definition TCP_MSS : Z := 1460.
Definition TCP_WND : Z := 4 * TCP_MSS.
Definition CLIENT_SOCKS_RECV_BUF_SIZE : Z := 8192.

Inductive err_t := ERR_OK | ERR_MEM | ERR_ABRT.

(** ** lwIP *)

Inductive pcb_state := P_open | P_closed | P_aborted | P_failed.

#[global] Instance pcb_state_eq : EqDecision pcb_state.
Proof. solve_decision. Defined.

(** [delivered], [got_fin], [acked]: the bytes given to the program and kept by
    it, whether the end of them was signalled, how many written bytes were
    confirmed by the peer. [recved]: how many bytes the program confirmed. *)
Record tcp_pcb := mkPcb {
  pcb_st : pcb_state;
  cb_err : bool;
  cb_recv : bool;
  cb_sent : bool;
  delivered : list Z;
  got_fin : bool;
  recved : Z;
  written : list Z;
  acked : Z
}.

Definition pcb_open (p : tcp_pcb) : bool := bool_decide (pcb_st p = P_open).

(** What lwIP answers during one event: to [tcp_close], to the n-th [tcp_sndbuf]
    and [tcp_write], to [tcp_output]. *)
Inductive write_result := W_OK | W_MEM | W_OTHER.
Record lwip := mkLwip {
  close_ok : bool;
  sndbuf : Z -> Z;
  write_res : Z -> write_result;
  output_ok : bool
}.

Definition set_st (p : tcp_pcb) (s : pcb_state) : tcp_pcb :=
  mkPcb s (cb_err p) (cb_recv p) (cb_sent p) (delivered p) (got_fin p) (recved p) (written p) (acked p).
Definition set_callbacks (p : tcp_pcb) (e r s : bool) : tcp_pcb :=
  mkPcb (pcb_st p) e r s (delivered p) (got_fin p) (recved p) (written p) (acked p).

(** No function is called on a pcb that is no longer ours. *)
Definition tcp_err (b : bool) (p : tcp_pcb) : option tcp_pcb :=
  ASSERT (pcb_open p) ;; Some (set_callbacks p b (cb_recv p) (cb_sent p)).
Definition tcp_recv (b : bool) (p : tcp_pcb) : option tcp_pcb :=
  ASSERT (pcb_open p) ;; Some (set_callbacks p (cb_err p) b (cb_sent p)).
Definition tcp_sent (b : bool) (p : tcp_pcb) : option tcp_pcb :=
  ASSERT (pcb_open p) ;; Some (set_callbacks p (cb_err p) (cb_recv p) b).
(** [tcp_abort] calls the error callback: it must have been removed. *)
Definition tcp_abort (p : tcp_pcb) : option tcp_pcb :=
  ASSERT (pcb_open p) ;; ASSERT (negb (cb_err p)) ;; Some (set_st p P_aborted).
Definition tcp_close (ok : bool) (p : tcp_pcb) : option (bool * tcp_pcb) :=
  ASSERT (pcb_open p) ;; Some (if ok then (true, set_st p P_closed) else (false, p)).
Definition tcp_recved (n : Z) (p : tcp_pcb) : option tcp_pcb :=
  ASSERT (pcb_open p) ;;
  Some (mkPcb (pcb_st p) (cb_err p) (cb_recv p) (cb_sent p) (delivered p) (got_fin p) (recved p + n) (written p) (acked p)).
(** With [TCP_WRITE_FLAG_COPY]. *)
Definition tcp_write (r : write_result) (data : list Z) (p : tcp_pcb) : option tcp_pcb :=
  ASSERT (pcb_open p) ;;
  Some (match r with
        | W_OK => mkPcb (pcb_st p) (cb_err p) (cb_recv p) (cb_sent p) (delivered p) (got_fin p) (recved p) (written p ++ data) (acked p)
        | _ => p
        end).

(** A pbuf is the list of its chunks. *)
Abbreviation pbuf := (list (list Z)).
Definition tot_len (p : pbuf) : Z := zlen (concat p).

(** [pbuf_copy_partial(buf, dst + base, len, offset)]: the number of bytes copied
    and the destination. *)
Fixpoint pbuf_copy_partial (buf : pbuf) (dst : list Z) (base len offset : Z) : option (Z * list Z) :=
  match buf with
  | [] => Some (0, dst)
  | payload :: next =>
      if len =? 0 then Some (0, dst)
      else if negb (offset =? 0) && (offset >=? zlen payload)
           then pbuf_copy_partial next dst base len (offset - zlen payload)
           else
             let buf_copy_len := zlen payload - offset in
             let buf_copy_len := if buf_copy_len >? len then len else buf_copy_len in
             let* bs := mem_read offset buf_copy_len payload in
             let* dst := mem_write base bs dst in
             let* (copied_total, dst) := pbuf_copy_partial next dst (base + buf_copy_len) (len - buf_copy_len) 0 in
             Some (buf_copy_len + copied_total, dst)
  end.

Section TcpClient.
Context {S E : Type} `{SocksPort S E}.

(** ** State *)

(** The receiving half of the SOCKS side. *)
Record recv_half := mkRecv {
  socks_recv_buf : list Z;
  socks_recv_buf_used : Z;
  socks_recv_buf_sent : Z;
  socks_recv_waiting : bool;
  socks_recv_tcp_pending : Z
}.

(** The stream interfaces of the SOCKS client: the length of the send in
    progress, whether a receive is in progress; the bytes that went through and
    whether the SOCKS client has reported that it is over (an error or the end). *)
Record stream := mkStream {
  send_op : option Z;
  recv_op : bool;
  sent_log : list Z;
  rcvd_log : list Z;
  sock_failed : bool
}.

Record tcp_client := mkClient {
  pcb : tcp_pcb;
  client_closed : bool;
  buf : list Z;
  buf_used : Z;
  socks_client : S;
  socks_up : bool;
  socks_closed : bool;
  rh : recv_half;
  sk : stream
}.

(** A client while one of its handlers runs: the globals, its address, the
    structure ([None] once freed), [badvpn__dead], and the structures freed, as
    they were. *)
Record ctx := mkCtx {
  num_clients : Z;
  tcp_clients : list Z;
  self : Z;
  cl : option tcp_client;
  killed : bool;
  gone : list tcp_client
}.

Definition upd (x : ctx) (c : tcp_client) : ctx := mkCtx (num_clients x) (tcp_clients x) (self x) (Some c) (killed x) (gone x).
Definition set_killed (x : ctx) (b : bool) : ctx := mkCtx (num_clients x) (tcp_clients x) (self x) (cl x) b (gone x).

Definition set_pcb (c : tcp_client) (p : tcp_pcb) : tcp_client :=
  mkClient p (client_closed c) (buf c) (buf_used c) (socks_client c) (socks_up c) (socks_closed c) (rh c) (sk c).
Definition set_client_closed (c : tcp_client) : tcp_client :=
  mkClient (pcb c) true (buf c) (buf_used c) (socks_client c) (socks_up c) (socks_closed c) (rh c) (sk c).
Definition set_buf (c : tcp_client) (b : list Z) (n : Z) : tcp_client :=
  mkClient (pcb c) (client_closed c) b n (socks_client c) (socks_up c) (socks_closed c) (rh c) (sk c).
Definition set_socks (c : tcp_client) (s : S) (up closed : bool) : tcp_client :=
  mkClient (pcb c) (client_closed c) (buf c) (buf_used c) s up closed (rh c) (sk c).
Definition set_rh (c : tcp_client) (r : recv_half) : tcp_client :=
  mkClient (pcb c) (client_closed c) (buf c) (buf_used c) (socks_client c) (socks_up c) (socks_closed c) r (sk c).
Definition set_sk (c : tcp_client) (s : stream) : tcp_client :=
  mkClient (pcb c) (client_closed c) (buf c) (buf_used c) (socks_client c) (socks_up c) (socks_closed c) (rh c) s.

(** ** Closing *)

Definition client_dealloc (x : ctx) : option ctx :=
  let* c := cl x in
  ASSERT (client_closed c) ;;
  ASSERT (socks_closed c) ;;
  ASSERT (num_clients x >? 0) ;;
  Some (mkCtx (num_clients x - 1) (list_remove (self x) (tcp_clients x)) (self x) None (killed x) (gone x ++ [c])).

(** [tcp_err(pcb, NULL); tcp_recv(pcb, NULL); tcp_sent(pcb, NULL)] *)
Definition remove_callbacks (p : tcp_pcb) : option tcp_pcb :=
  let* p := tcp_err false p in
  let* p := tcp_recv false p in
  tcp_sent false p.

(** [client_handle_freed_client], [client_free_client] and [client_free_socks] call
    each other; a call has been made for each side after two rounds, and [FUEL]
    is enough ([free_socks_ok], [handle_freed_ok]). *)
Definition FUEL : nat := 4.

Fixpoint client_handle_freed_client (fuel : nat) (lw : lwip) (x : ctx) : option ctx :=
  match fuel with
  | O => None
  | Datatypes.S fuel =>
      let* c := cl x in
      ASSERT (negb (client_closed c)) ;;
      let x := set_killed x true in
      let x := upd x (set_client_closed c) in
      if (buf_used c >? 0) && negb (socks_closed c) then Some x
      else if negb (socks_closed c) then client_free_socks fuel lw x
      else client_dealloc x
  end
with client_free_socks (fuel : nat) (lw : lwip) (x : ctx) : option ctx :=
  match fuel with
  | O => None
  | Datatypes.S fuel =>
      let* c := cl x in
      ASSERT (negb (socks_closed c)) ;;
      let* p := (if socks_up c && negb (client_closed c) then tcp_recv false (pcb c) else Some (pcb c)) in
      let c := set_pcb c p in
      let* s := sp_free (socks_client c) in
      let c := set_sk c (mkStream None false (sent_log (sk c)) (rcvd_log (sk c)) (sock_failed (sk c))) in
      let c := set_socks c s (socks_up c) true in
      let x := upd x c in
      if socks_up c && ((socks_recv_buf_used (rh c) >=? 0) || (socks_recv_tcp_pending (rh c) >? 0)) && negb (client_closed c)
      then Some x
      else if negb (client_closed c)
           then (* client_free_client *)
             ASSERT (negb (client_closed c)) ;;
             let* p := remove_callbacks (pcb c) in
             let* (ok, p) := tcp_close (close_ok lw) p in
             let* p := (if negb ok then tcp_abort p else Some p) in
             client_handle_freed_client fuel lw (upd x (set_pcb c p))
           else client_dealloc x
  end.

Definition client_free_client (lw : lwip) (x : ctx) : option ctx :=
  let* c := cl x in
  ASSERT (negb (client_closed c)) ;;
  let* p := remove_callbacks (pcb c) in
  let* (ok, p) := tcp_close (close_ok lw) p in
  let* p := (if negb ok then tcp_abort p else Some p) in
  client_handle_freed_client FUEL lw (upd x (set_pcb c p)).

Definition client_abort_client (lw : lwip) (x : ctx) : option ctx :=
  let* c := cl x in
  ASSERT (negb (client_closed c)) ;;
  let* p := remove_callbacks (pcb c) in
  let* p := tcp_abort p in
  client_handle_freed_client FUEL lw (upd x (set_pcb c p)).

Definition client_murder (x : ctx) : option ctx :=
  let* c := cl x in
  let* (c, x) :=
    (if negb (client_closed c)
     then let* p := remove_callbacks (pcb c) in
          let* p := tcp_abort p in
          Some (set_client_closed (set_pcb c p), set_killed x true)
     else Some (c, x)) in
  let* c :=
    (if negb (socks_closed c)
     then let* s := sp_free (socks_client c) in Some (set_socks c s (socks_up c) true)
     else Some c) in
  client_dealloc (upd x c).

(** lwIP has freed the pcb before it calls this. *)
Definition client_err_func (lw : lwip) (x : ctx) : option ctx :=
  let* c := cl x in
  ASSERT (negb (client_closed c)) ;;
  client_handle_freed_client FUEL lw x.

(** ** The SOCKS side *)

(** [StreamPassInterface_Sender_Send(client->socks_send_if, client->buf, client->buf_used)] *)
Definition sender_send (c : tcp_client) : option tcp_client :=
  let s := sk c in
  ASSERT (match send_op s with None => true | Some _ => false end) ;;
  ASSERT (buf_used c >? 0) ;;
  Some (set_sk c (mkStream (Some (buf_used c)) (recv_op s) (sent_log s) (rcvd_log s) (sock_failed s))).

Definition client_send_to_socks (x : ctx) : option ctx :=
  let* c := cl x in
  ASSERT (negb (socks_closed c)) ;;
  ASSERT (socks_up c) ;;
  ASSERT (buf_used c >? 0) ;;
  let* c := sender_send c in
  Some (upd x c).

Definition client_socks_recv_initiate (x : ctx) : option ctx :=
  let* c := cl x in
  ASSERT (negb (client_closed c)) ;;
  ASSERT (negb (socks_closed c)) ;;
  ASSERT (socks_up c) ;;
  ASSERT (socks_recv_buf_used (rh c) =? -1) ;;
  let s := sk c in
  ASSERT (negb (recv_op s)) ;;
  Some (upd x (set_sk c (mkStream (send_op s) true (sent_log s) (rcvd_log s) (sock_failed s)))).

Definition client_socks_handler (lw : lwip) (x : ctx) (event : socks_event) : option ctx :=
  let* c := cl x in
  ASSERT (negb (socks_closed c)) ;;
  match event with
  | EVENT_ERROR => client_free_socks FUEL lw x
  | EVENT_UP =>
      ASSERT (negb (socks_up c)) ;;
      let r := rh c in
      let c := set_rh c (mkRecv (socks_recv_buf r) (-1) (socks_recv_buf_sent r) (socks_recv_waiting r) 0) in
      let* p := (if negb (client_closed c) then tcp_sent true (pcb c) else Some (pcb c)) in
      let c := set_pcb c p in
      let c := set_socks c (socks_client c) true (socks_closed c) in
      let x := upd x c in
      let* x := (if buf_used c >? 0 then client_send_to_socks x else Some x) in
      if negb (client_closed c) then client_socks_recv_initiate x else Some x
  | EVENT_ERROR_CLOSED =>
      ASSERT (socks_up c) ;;
      client_free_socks FUEL lw x
  end.

Definition client_socks_send_handler_done (lw : lwip) (x : ctx) (data_len : Z) : option ctx :=
  let* c := cl x in
  ASSERT (negb (socks_closed c)) ;;
  ASSERT (socks_up c) ;;
  ASSERT (buf_used c >? 0) ;;
  ASSERT (data_len >? 0) ;;
  ASSERT (data_len <=? buf_used c) ;;
  let* b := mem_move 0 data_len (buf_used c - data_len) (buf c) in
  let c := set_buf c b (buf_used c - data_len) in
  let* p := (if negb (client_closed c) then tcp_recved data_len (pcb c) else Some (pcb c)) in
  let c := set_pcb c p in
  let x := upd x c in
  if buf_used c >? 0 then let* c := sender_send c in Some (upd x c)
  else if client_closed c then client_free_socks FUEL lw x
  else Some x.

(** The loop of [client_socks_recv_send_out], from its [i]-th round; the [bool]
    says that the client was aborted. Each round but the last writes at least
    one byte. *)
Fixpoint send_out_loop (fuel : nat) (lw : lwip) (i : Z) (x : ctx) : option (bool * ctx) :=
  match fuel with
  | O => None
  | Datatypes.S fuel =>
      let* c := cl x in
      let r := rh c in
      let* _ := (if pcb_open (pcb c) then Some tt else None) in
      let to_write := Z.min (socks_recv_buf_used r - socks_recv_buf_sent r) (u16 (sndbuf lw i)) in
      if to_write =? 0 then Some (false, x)
      else
        let* data := mem_read (socks_recv_buf_sent r) to_write (socks_recv_buf r) in
        let* p := tcp_write (write_res lw i) data (pcb c) in
        let c := set_pcb c p in
        match write_res lw i with
        | W_MEM => Some (false, upd x c)
        | W_OTHER => let* x := client_abort_client lw (upd x c) in Some (true, x)
        | W_OK =>
            let c := set_rh c (mkRecv (socks_recv_buf r) (socks_recv_buf_used r) (socks_recv_buf_sent r + to_write)
                                 (socks_recv_waiting r) (socks_recv_tcp_pending r + to_write)) in
            let x := upd x c in
            if socks_recv_buf_sent (rh c) <? socks_recv_buf_used (rh c) then send_out_loop fuel lw (i + 1) x
            else Some (false, x)
        end
  end.

(** The [bool] is the result -1. *)
Definition client_socks_recv_send_out (lw : lwip) (x : ctx) : option (bool * ctx) :=
  let* c := cl x in
  ASSERT (negb (client_closed c)) ;;
  ASSERT (socks_up c) ;;
  ASSERT (socks_recv_buf_used (rh c) >? 0) ;;
  ASSERT (socks_recv_buf_sent (rh c) <? socks_recv_buf_used (rh c)) ;;
  ASSERT (negb (socks_recv_waiting (rh c))) ;;
  let* (aborted, x) := send_out_loop (Z.to_nat (socks_recv_buf_used (rh c) - socks_recv_buf_sent (rh c))) lw 0 x in
  if aborted : bool then Some (true, x)
  else
    let* c := cl x in
    let* _ := (if pcb_open (pcb c) then Some tt else None) in
    if negb (output_ok lw) then let* x := client_abort_client lw x in Some (true, x)
    else
      let r := rh c in
      if socks_recv_buf_sent r <? socks_recv_buf_used r
      then if socks_recv_tcp_pending r =? 0
           then let* x := client_abort_client lw x in Some (true, x)
           else Some (false, upd x (set_rh c (mkRecv (socks_recv_buf r) (socks_recv_buf_used r) (socks_recv_buf_sent r) true
                                                 (socks_recv_tcp_pending r))))
      else Some (false, upd x (set_rh c (mkRecv (socks_recv_buf r) (-1) (socks_recv_buf_sent r) (socks_recv_waiting r)
                                           (socks_recv_tcp_pending r)))).

Definition client_socks_recv_handler_done (lw : lwip) (x : ctx) (data_len : Z) : option ctx :=
  let* c := cl x in
  ASSERT (data_len >? 0) ;;
  ASSERT (data_len <=? CLIENT_SOCKS_RECV_BUF_SIZE) ;;
  ASSERT (negb (socks_closed c)) ;;
  ASSERT (socks_up c) ;;
  ASSERT (socks_recv_buf_used (rh c) =? -1) ;;
  if client_closed c then Some x
  else
    let r := rh c in
    let x := upd x (set_rh c (mkRecv (socks_recv_buf r) data_len 0 false (socks_recv_tcp_pending r))) in
    let* (aborted, x) := client_socks_recv_send_out lw x in
    if aborted : bool then Some x
    else
      let* c := cl x in
      if socks_recv_buf_used (rh c) =? -1 then client_socks_recv_initiate x else Some x.

(** ** Events of the SOCKS side *)

Inductive sock_ev :=
| SK_socks (e : E)
| SK_sent (n : Z)
| SK_recv (data : list Z).

Definition sock_enabled (x : ctx) (e : sock_ev) : bool :=
  match cl x with
  | None => false
  | Some c =>
      negb (socks_closed c) &&
      match e with
      | SK_socks e => sp_enabled (socks_client c) e
      | SK_sent n => match send_op (sk c) with Some m => (0 <? n) && (n <=? m) | None => false end
      | SK_recv data => recv_op (sk c) && (0 <? zlen data) && (zlen data <=? CLIENT_SOCKS_RECV_BUF_SIZE)
      end
  end.

(** A step of the SOCKS client, whose report is handled at once; the end of a
    send, which took the first [n] bytes of the buffer; the end of a receive,
    which wrote [data] to the buffer. *)
Definition sock_exec (lw : lwip) (x : ctx) (e : sock_ev) : option ctx :=
  let* c := cl x in
  let s := sk c in
  match e with
  | SK_socks e =>
      let* (o, r) := sp_exec (socks_client c) e in
      let c := set_socks c o (socks_up c) (socks_closed c) in
      match r with
      | None => Some (upd x c)
      | Some ev =>
          let c := set_sk c (mkStream (send_op s) (recv_op s) (sent_log s) (rcvd_log s)
                               (sock_failed s || negb (bool_decide (ev = EVENT_UP)))) in
          client_socks_handler lw (upd x c) ev
      end
  | SK_sent n =>
      let* bs := mem_read 0 n (buf c) in
      client_socks_send_handler_done lw
        (upd x (set_sk c (mkStream None (recv_op s) (sent_log s ++ bs) (rcvd_log s) (sock_failed s)))) n
  | SK_recv data =>
      let r := rh c in
      let* b := mem_write 0 data (socks_recv_buf r) in
      let c := set_rh c (mkRecv b (socks_recv_buf_used r) (socks_recv_buf_sent r) (socks_recv_waiting r) (socks_recv_tcp_pending r)) in
      client_socks_recv_handler_done lw
        (upd x (set_sk c (mkStream (send_op s) false (sent_log s) (rcvd_log s ++ data) (sock_failed s)))) (zlen data)
  end.

(** A sequence of events; those that cannot happen are skipped. *)
Fixpoint sock_run (x : ctx) (evs : list (lwip * sock_ev)) : option ctx :=
  match evs with
  | [] => Some x
  | (lw, e) :: evs => if sock_enabled x e then let* x := sock_exec lw x e in sock_run x evs else sock_run x evs
  end.

(** [DEAD_ENTER(client->dead_client) SYNC_COMMIT DEAD_LEAVE2(client->dead_client)] *)
Definition sync_commit (x : ctx) (evs : list (lwip * sock_ev)) : option ctx := sock_run (set_killed x false) evs.

(** ** lwIP callbacks *)

(** The result is the returned code and whether the pbuf was freed. *)
Definition client_recv_func (lw : lwip) (sync : list (lwip * sock_ev)) (x : ctx) (p : option pbuf) : option (err_t * bool * ctx) :=
  let* c := cl x in
  ASSERT (negb (client_closed c)) ;;
  match p with
  | None => let* x := client_free_client lw x in Some (ERR_ABRT, false, x)
  | Some p =>
      ASSERT (tot_len p >? 0) ;;
      if tot_len p >? zlen (buf c) - buf_used c then Some (ERR_MEM, false, x)
      else
        let* (n, b) := pbuf_copy_partial p (buf c) (buf_used c) (tot_len p) 0 in
        ASSERT (n =? tot_len p) ;;
        let c := set_buf c b (buf_used c + tot_len p) in
        let x := upd x c in
        if (buf_used c =? tot_len p) && socks_up c
        then
          ASSERT (negb (socks_closed c)) ;;
          let* x := client_send_to_socks x in
          let* x := sync_commit x sync in
          if killed x then Some (ERR_ABRT, false, x) else Some (ERR_OK, true, x)
        else Some (ERR_OK, true, x)
  end.

Definition client_sent_func (lw : lwip) (sync : list (lwip * sock_ev)) (x : ctx) (len : Z) : option (err_t * ctx) :=
  let* c := cl x in
  ASSERT (negb (client_closed c)) ;;
  ASSERT (socks_up c) ;;
  ASSERT (len >? 0) ;;
  ASSERT (len <=? socks_recv_tcp_pending (rh c)) ;;
  let r := rh c in
  let r := mkRecv (socks_recv_buf r) (socks_recv_buf_used r) (socks_recv_buf_sent r) (socks_recv_waiting r)
             (socks_recv_tcp_pending r - len) in
  let x := upd x (set_rh c r) in
  if socks_recv_buf_used r >? 0 then
    ASSERT (socks_recv_waiting r) ;;
    ASSERT (socks_recv_buf_sent r <? socks_recv_buf_used r) ;;
    let r := mkRecv (socks_recv_buf r) (socks_recv_buf_used r) (socks_recv_buf_sent r) false (socks_recv_tcp_pending r) in
    let x := upd x (set_rh c r) in
    let* (aborted, x) := client_socks_recv_send_out lw x in
    if aborted : bool then Some (ERR_ABRT, x)
    else
      let* c := cl x in
      ASSERT (socks_recv_tcp_pending (rh c) >? 0) ;;
      if (socks_recv_buf_used (rh c) =? -1) && negb (socks_closed c)
      then
        let* x := client_socks_recv_initiate x in
        let* x := sync_commit x sync in
        if killed x then Some (ERR_ABRT, x) else Some (ERR_OK, x)
      else Some (ERR_OK, x)
  else if socks_closed c && (socks_recv_tcp_pending r =? 0)
  then let* x := client_free_client lw x in Some (ERR_ABRT, x)
  else Some (ERR_OK, x).

(** ** All clients *)

Record world := mkWorld {
  w_num : Z;
  w_list : list Z;
  w_heap : gmap Z tcp_client;
  w_next : Z;
  w_gone : list tcp_client
}.

Definition enter (w : world) (p : Z) : ctx := mkCtx (w_num w) (w_list w) p (w_heap w !! p) false (w_gone w).
Definition leave (w : world) (x : ctx) : world :=
  mkWorld (num_clients x) (tcp_clients x) (match cl x with Some c => <[self x := c]> (w_heap w) | None => delete (self x) (w_heap w) end)
    (w_next w) (gone x).

Definition fresh_pcb : tcp_pcb := mkPcb P_open false false false [] false 0 [] 0.

(** [mem], [name_ok], [connector_ok]: whether the structure, the username (when
    the source is appended to it) and the SOCKS client get their memory.
    [garbage]: the contents of the fresh structure. *)
Definition listener_accept_func (mem name_ok connector_ok : bool) (sync : list (lwip * sock_ev)) (addr : BAddr)
    (garbage : list Z * recv_half) (w : world) : option (err_t * world) :=
  if negb mem then Some (ERR_MEM, w)
  else if negb name_ok then Some (ERR_MEM, w)
  else
    let* r := sp_new addr connector_ok in
    match r with
    | None => Some (ERR_MEM, w)
    | Some s =>
        let p := w_next w in
        let w_list' := w_list w ++ [p] in
        ASSERT (w_num w >=? 0) ;;
        let num := w_num w + 1 in
        let* pcb := tcp_err true fresh_pcb in
        let* pcb := tcp_recv true pcb in
        let c := mkClient pcb false (fst garbage) 0 s false false (snd garbage) (mkStream None false [] [] false) in
        let x := mkCtx num w_list' p (Some c) false (w_gone w) in
        let* x := sync_commit x sync in
        let w := leave (mkWorld (w_num w) (w_list w) (w_heap w) (w_next w + 1) (w_gone w)) x in
        Some (if killed x then ERR_ABRT else ERR_OK, w)
    end.

(** The loop over [tcp_clients] when the program ends. *)
Fixpoint murder_loop (fuel : nat) (w : world) : option world :=
  match w_list w with
  | [] => Some w
  | p :: _ => match fuel with
              | O => None
              | Datatypes.S fuel => let* x := client_murder (enter w p) in murder_loop fuel (leave w x)
              end
  end.

Definition free_clients (w : world) : option world := murder_loop (length (w_list w)) w.

(** ** Histories *)

Inductive world_ev :=
| WE_accept (mem name_ok connector_ok : bool) (sync : list (lwip * sock_ev)) (addr : BAddr) (garbage : list Z * recv_half)
| WE_recv (p : Z) (lw : lwip) (sync : list (lwip * sock_ev)) (data : option pbuf)
| WE_sent (p : Z) (lw : lwip) (sync : list (lwip * sock_ev)) (len : Z)
| WE_err (p : Z) (lw : lwip)
| WE_sock (p : Z) (lw : lwip) (e : sock_ev).

(** What lwIP records about a pcb when it calls back. *)
Definition pcb_deliver (p : tcp_pcb) (d : option pbuf) : tcp_pcb :=
  match d with
  | None => mkPcb (pcb_st p) (cb_err p) (cb_recv p) (cb_sent p) (delivered p) true (recved p) (written p) (acked p)
  | Some d => mkPcb (pcb_st p) (cb_err p) (cb_recv p) (cb_sent p) (delivered p ++ concat d) (got_fin p) (recved p) (written p) (acked p)
  end.
Definition pcb_ack (p : tcp_pcb) (n : Z) : tcp_pcb :=
  mkPcb (pcb_st p) (cb_err p) (cb_recv p) (cb_sent p) (delivered p) (got_fin p) (recved p) (written p) (acked p + n).

(** Refused data stays with lwIP, and the handler has changed nothing. *)
Definition recv_exec (w : world) (p : Z) (lw : lwip) (sync : list (lwip * sock_ev)) (d : option pbuf) : option (err_t * bool * world) :=
  let* c := w_heap w !! p in
  let* (code, freed, x) := client_recv_func lw sync (upd (enter w p) (set_pcb c (pcb_deliver (pcb c) d))) d in
  Some (code, freed, match code with ERR_MEM => w | _ => leave w x end).

Definition sent_exec (w : world) (p : Z) (lw : lwip) (sync : list (lwip * sock_ev)) (len : Z) : option (err_t * world) :=
  let* c := w_heap w !! p in
  let* (code, x) := client_sent_func lw sync (upd (enter w p) (set_pcb c (pcb_ack (pcb c) len))) len in
  Some (code, leave w x).

Definition err_exec (w : world) (p : Z) (lw : lwip) : option world :=
  let* c := w_heap w !! p in
  let* x := client_err_func lw (upd (enter w p) (set_pcb c (set_st (pcb c) P_failed))) in
  Some (leave w x).

Definition world_exec (w : world) (e : world_ev) : option world :=
  match e with
  | WE_accept mem name_ok ok sync addr garbage => let* (_, w) := listener_accept_func mem name_ok ok sync addr garbage w in Some w
  | WE_recv p lw sync d => let* (_, _, w) := recv_exec w p lw sync d in Some w
  | WE_sent p lw sync len => let* (_, w) := sent_exec w p lw sync len in Some w
  | WE_err p lw => err_exec w p lw
  | WE_sock p lw e => let* x := sock_exec lw (enter w p) e in Some (leave w x)
  end.

Definition dest_okb (a : BAddr) : bool :=
  match a with BADDR_IPV4 _ _ => true | BADDR_IPV6 ip _ => zlen ip =? 16 | BADDR_NONE => false end.

(** What lwIP does: it calls only callbacks that are set, on open pcbs; it
    delivers no more than the window, whose size is [TCP_WND] and which
    [tcp_recved] opens again; it confirms only what was written. *)
Definition recv_allowed (c : tcp_client) (d : option pbuf) : bool :=
  pcb_open (pcb c) && cb_recv (pcb c) && negb (got_fin (pcb c)) &&
  match d with
  | None => true
  | Some d => (0 <? tot_len d) && (tot_len d <=? TCP_WND - (zlen (delivered (pcb c)) - recved (pcb c)))
  end.
Definition sent_allowed (c : tcp_client) (len : Z) : bool :=
  pcb_open (pcb c) && cb_sent (pcb c) && (0 <? len) && (len <=? zlen (written (pcb c)) - acked (pcb c)).

Definition world_enabled (w : world) (e : world_ev) : bool :=
  match e with
  | WE_accept _ _ _ _ addr garbage =>
      dest_okb addr && (zlen (fst garbage) =? TCP_WND) && (zlen (socks_recv_buf (snd garbage)) =? CLIENT_SOCKS_RECV_BUF_SIZE)
  | WE_recv p _ _ d => match w_heap w !! p with Some c => recv_allowed c d | None => false end
  | WE_sent p _ _ len => match w_heap w !! p with Some c => sent_allowed c len | None => false end
  | WE_err p _ => match w_heap w !! p with Some c => pcb_open (pcb c) && cb_err (pcb c) | None => false end
  | WE_sock p _ e => sock_enabled (enter w p) e
  end.

(** Events that cannot happen are skipped. *)
Fixpoint world_run (w : world) (evs : list world_ev) : option world :=
  match evs with
  | [] => Some w
  | e :: evs => if world_enabled w e then let* w := world_exec w e in world_run w evs else world_run w evs
  end.

Definition world0 : world := mkWorld 0 [] ∅ 0 [].

(** ** Invariant of a client *)

(** The peer has ended the connection, or it was aborted. *)
Definition peer_end (c : tcp_client) : bool :=
  got_fin (pcb c) || bool_decide (pcb_st (pcb c) = P_aborted) || bool_decide (pcb_st (pcb c) = P_failed).

Abbreviation used c := (socks_recv_buf_used (rh c)).
Abbreviation rsent c := (socks_recv_buf_sent (rh c)).
Abbreviation pending c := (socks_recv_tcp_pending (rh c)).

(** The bytes of both directions. *)
Record flows (c : tcp_client) : Prop := {
  fl_buf : zlen (buf c) = TCP_WND /\ 0 <= buf_used c <= TCP_WND;
  fl_rbuf : zlen (socks_recv_buf (rh c)) = CLIENT_SOCKS_RECV_BUF_SIZE;
  fl_out : delivered (pcb c) = sent_log (sk c) ++ slice 0 (buf_used c) (buf c);
  fl_prefix : written (pcb c) `prefix_of` rcvd_log (sk c)
}.

Definition idle (c : tcp_client) : Prop := used c = -1 /\ written (pcb c) = rcvd_log (sk c).
Definition half_sent (c : tcp_client) : Prop :=
  0 <= rsent c < used c /\ used c <= CLIENT_SOCKS_RECV_BUF_SIZE /\
  rcvd_log (sk c) = written (pcb c) ++ slice (rsent c) (used c - rsent c) (socks_recv_buf (rh c)).
Definition waiting (c : tcp_client) : Prop := half_sent c /\ socks_recv_waiting (rh c) = true /\ 0 < pending c.

Definition counted (c : tcp_client) : Prop := pending c = zlen (written (pcb c)) - acked (pcb c) /\ 0 <= pending c.

(** An open connection to the peer. *)
Record open_ok (c : tcp_client) : Prop := {
  op_pcb : pcb_st (pcb c) = P_open;
  op_err : cb_err (pcb c) = true;
  op_recv : cb_recv (pcb c) = negb (socks_closed c);
  op_sent : cb_sent (pcb c) = socks_up c;
  op_fin : got_fin (pcb c) = false;
  op_recved : recved (pcb c) = zlen (sent_log (sk c));
  op_in : if socks_up c then counted c /\ (idle c \/ waiting c)
          else written (pcb c) = [] /\ rcvd_log (sk c) = [] /\ acked (pcb c) = 0;
  op_op : recv_op (sk c) = socks_up c && negb (socks_closed c) && (used c =? -1);
  op_drain : socks_closed c = true -> sock_failed (sk c) = true /\ socks_up c = true /\ (0 <= used c \/ 0 < pending c)
}.

(** A closed one, kept while data for the SOCKS server is left. *)
Record closed_ok (c : tcp_client) : Prop := {
  cs_pcb : pcb_st (pcb c) <> P_open;
  cs_end : peer_end c = true;
  cs_socks : socks_closed c = false;
  cs_data : 0 < buf_used c;
  cs_op : recv_op (sk c) = true -> socks_up c = true /\ used c = -1
}.

Record cinv (c : tcp_client) : Prop := {
  ci_flows : flows c;
  ci_side : if client_closed c then closed_ok c else open_ok c;
  ci_send : match send_op (sk c) with
            | None => socks_up c && negb (socks_closed c) && (0 <? buf_used c) = false
            | Some m => socks_up c = true /\ socks_closed c = false /\ 0 < m <= buf_used c
            end;
  ci_socks : socks_closed c = false -> sock_failed (sk c) = false /\ sp_inv (if socks_up c then Up else Connecting) (socks_client c)
}.

(** A client that is gone. *)
Record done_ok (c : tcp_client) : Prop := {
  dn_flows : flows c;
  dn_cause : sock_failed (sk c) = true \/ peer_end c = true;
  dn_out : sock_failed (sk c) = false -> buf_used c = 0;
  dn_in : peer_end c = false -> written (pcb c) = rcvd_log (sk c) /\ acked (pcb c) = zlen (written (pcb c))
}.

(** ** What a handler leaves *)

Record kept (x x' : ctx) (c : tcp_client) : Prop := {
  kp_cl : cl x' = Some c;
  kp_num : num_clients x' = num_clients x;
  kp_list : tcp_clients x' = tcp_clients x;
  kp_self : self x' = self x;
  kp_gone : gone x' = gone x
}.

Record freed (x x' : ctx) : Prop := {
  fr_cl : cl x' = None;
  fr_num : num_clients x' = num_clients x - 1;
  fr_list : tcp_clients x' = list_remove (self x) (tcp_clients x);
  fr_self : self x' = self x;
  fr_gone : exists c, gone x' = gone x ++ [c] /\ done_ok c
}.

(** [was_closed]: whether the connection to the peer was closed before. *)
Definition result (was_closed : bool) (x x' : ctx) : Prop :=
  (freed x x' /\ (killed x' = true \/ (killed x' = killed x /\ was_closed = true))) \/
  (exists c, kept x x' c /\ cinv c /\ (killed x' = true \/ (killed x' = killed x /\ client_closed c = was_closed))).

Lemma kept_upd x c : kept x (upd x c) c.
Proof using. done. Qed.

(** Results do not depend on the client they start from. *)
Lemma result_upd b x c x' : result b (upd x c) x' -> result b x x'.
Proof using.
  intros [[[F1 F2 F3 F4 F5] K]|(c' & [K1 K2 K3 K4 K5] & Hi & K)]; [left|right].
  - split; [split; done|done].
  - exists c'. split; [split; done|]. done.
Qed.

Lemma result_killed b x x' : result b (set_killed x true) x' -> killed x' = true -> result b x x'.
Proof using.
  intros [[[F1 F2 F3 F4 F5] K]|(c' & [K1 K2 K3 K4 K5] & Hi & K)] Hk; [left|right].
  - split; [split; done|by left].
  - exists c'. split; [split; done|]. split; [done|by left].
Qed.

Lemma dealloc_ok x c :
  cl x = Some c -> client_closed c = true -> socks_closed c = true -> 0 < num_clients x -> done_ok c ->
  exists x', client_dealloc x = Some x' /\ freed x x' /\ killed x' = killed x.
Proof using.
  intros Hc H1 H2 Hn Hd. unfold client_dealloc. rewrite Hc, H1, H2. rewrite (proj2 (Z.gtb_lt _ _)) by done.
  eexists. split; [done|]. split; [|done]. split; try done. by exists c.
Qed.

Lemma done_free c s st :
  flows c -> sock_failed st = sock_failed (sk c) -> sent_log st = sent_log (sk c) -> rcvd_log st = rcvd_log (sk c) ->
  (sock_failed (sk c) = true \/ buf_used c = 0) -> peer_end c = true -> done_ok (set_socks (set_sk c st) s (socks_up c) true).
Proof using.
  intros [F1 F2 F3 F4] E1 E2 E3 Hf He. split.
  - split; cbn; rewrite ?E2, ?E3; done.
  - by right.
  - cbn. rewrite E1. intros Hn. destruct Hf; [congruence|done].
  - intros Hn. assert (peer_end c = false) by exact Hn. congruence.
Qed.

(** Freeing the SOCKS side of a client whose peer is gone. *)
Lemma free_socks_closed n lw x c :
  cl x = Some c -> client_closed c = true -> socks_closed c = false -> 0 < num_clients x -> flows c ->
  (exists ph, sp_inv ph (socks_client c)) -> (sock_failed (sk c) = true \/ buf_used c = 0) -> peer_end c = true ->
  exists x', client_free_socks (Datatypes.S n) lw x = Some x' /\ freed x x' /\ killed x' = killed x.
Proof using.
  intros Hc H1 H2 Hn Hf [ph Hi] Hd He. cbn [client_free_socks]. rewrite Hc, H1, H2, andb_false_r. cbn [negb].
  destruct (sp_free_ok ph _ Hi) as [s Hs]. cbn [set_pcb socks_client]. rewrite Hs. cbn [set_sk set_socks set_pcb client_closed socks_up rh].
  rewrite H1. cbn [negb]. rewrite andb_false_r.
  match goal with |- context [client_dealloc (upd x ?d)] => destruct (dealloc_ok (upd x d) d) as (x' & Hx & Hfr & Hk); try done end.
  - pose proof (done_free c s (mkStream None false (sent_log (sk c)) (rcvd_log (sk c)) (sock_failed (sk c))) Hf eq_refl eq_refl eq_refl Hd He) as HH.
    destruct c; exact HH.
  - exists x'. split; [exact Hx|]. split; [|done]. destruct Hfr. by split.
Qed.

(** The peer is gone: the state in which [client_handle_freed_client] is called. *)
Record lost (c : tcp_client) : Prop := {
  lo_open : client_closed c = false;
  lo_flows : flows c;
  lo_pcb : pcb_st (pcb c) <> P_open;
  lo_op : recv_op (sk c) = true -> socks_up c = true /\ used c = -1;
  lo_send : match send_op (sk c) with
            | None => socks_up c && negb (socks_closed c) && (0 <? buf_used c) = false
            | Some m => socks_up c = true /\ socks_closed c = false /\ 0 < m <= buf_used c
            end;
  lo_socks : if socks_closed c then done_ok c
             else peer_end c = true /\ sock_failed (sk c) = false /\ sp_inv (if socks_up c then Up else Connecting) (socks_client c)
}.

Lemma handle_freed_ok n lw x c :
  cl x = Some c -> lost c -> 0 < num_clients x ->
  exists x', client_handle_freed_client (Datatypes.S (Datatypes.S n)) lw x = Some x' /\ result false x x' /\ killed x' = true.
Proof using.
  intros Hc [L1 L2 L3 L4 L5 L6] Hn. remember (Datatypes.S n) as m. cbn [client_handle_freed_client]. rewrite Hc, L1. cbn [negb].
  destruct (socks_closed c) eqn:Es; cbn [negb]; [rewrite andb_false_r|rewrite andb_true_r].
  - destruct (dealloc_ok (upd (set_killed x true) (set_client_closed c)) (set_client_closed c)) as (x' & Hx & Hfr & Hk); try done.
    { destruct L6 as [D1 D2 D3 D4]. split; try done. destruct D1. by split. }
    exists x'. split; [exact Hx|]. split; [|done]. left. split; [destruct Hfr; by split|by left].
  - destruct L6 as (Hp & Hf & Hi). destruct (buf_used c >? 0) eqn:Eb.
    + apply Z.gtb_lt in Eb. eexists. split; [done|]. split; [|done]. right. exists (set_client_closed c). split; [done|].
      split; [|by left]. split; [destruct L2; by split|split; done|cbn; rewrite Es; exact L5|done].
    + subst m. destruct (free_socks_closed n lw (upd (set_killed x true) (set_client_closed c)) (set_client_closed c))
        as (x' & Hx & Hfr & Hk); try done.
      { destruct L2. by split. }
      { by eexists. }
      { right. cbn. destruct (fl_buf c L2). lia. }
      exists x'. split; [exact Hx|]. split; [|done]. left. split; [destruct Hfr; by split|by left].
Qed.

(** An open client, possibly in the middle of a handler. *)
Definition send_ok (c : tcp_client) : Prop :=
  match send_op (sk c) with
  | None => socks_up c && negb (socks_closed c) && (0 <? buf_used c) = false
  | Some m => socks_up c = true /\ socks_closed c = false /\ 0 < m <= buf_used c
  end.

Record mid (c : tcp_client) : Prop := {
  mi_open : client_closed c = false;
  mi_flows : flows c;
  mi_pcb : pcb_st (pcb c) = P_open;
  mi_op : recv_op (sk c) = true -> socks_up c = true /\ used c = -1;
  mi_send : send_ok c;
  mi_socks : if socks_closed c then sock_failed (sk c) = true
             else sock_failed (sk c) = false /\ sp_inv (if socks_up c then Up else Connecting) (socks_client c)
}.

Lemma cinv_mid c : cinv c -> client_closed c = false -> mid c.
Proof using.
  intros [Hf Hs Hse Hso] Hc. rewrite Hc in Hs. destruct Hs. split; try done.
  - rewrite op_op0. intros Hr. destruct (socks_up c), (socks_closed c), (Z.eqb_spec (used c) (-1)); done.
  - destruct (socks_closed c); [by apply op_drain0|by apply Hso].
Qed.

(** What ending the connection keeps of a pcb. *)
Record pcb_same (p p' : tcp_pcb) : Prop := {
  ps_delivered : delivered p' = delivered p;
  ps_written : written p' = written p;
  ps_acked : acked p' = acked p
}.

Lemma flows_pcb c p : flows c -> pcb_same (pcb c) p -> flows (set_pcb c p).
Proof using. intros [F1 F2 F3 F4] [P1 P2 P3]. split; cbn; rewrite ?P1, ?P2; done. Qed.

Definition drained (c : tcp_client) : Prop := written (pcb c) = rcvd_log (sk c) /\ acked (pcb c) = zlen (written (pcb c)).

Lemma lost_intro c p :
  mid c -> pcb_same (pcb c) p -> pcb_st p <> P_open ->
  (peer_end (set_pcb c p) = true \/ (socks_closed c = true /\ drained c)) -> lost (set_pcb c p).
Proof using.
  intros [M1 M2 M3 M4 M5 M6] Hp Hst He. pose proof (flows_pcb c p M2 Hp) as Hf. destruct Hp as [P1 P2 P3]. split; try done.
  cbn. destruct (socks_closed c) eqn:Es.
  - split; [done|by left|by intros HE; cbn in HE; congruence|]. intros Hn. destruct He as [He|[_ [D1 D2]]]; [congruence|].
    cbn. by rewrite P2, P3.
  - destruct He as [He|[? _]]; [|done]. by destruct M6.
Qed.

(** Removing the callbacks and closing or aborting. *)
Definition close_pcb (ok : bool) (p : tcp_pcb) : tcp_pcb :=
  set_st (set_callbacks p false false false) (if ok then P_closed else P_aborted).

Lemma remove_callbacks_ok p : pcb_st p = P_open -> remove_callbacks p = Some (set_callbacks p false false false).
Proof using.
  intros Hp. unfold remove_callbacks, tcp_err, tcp_recv, tcp_sent, pcb_open, set_callbacks. cbn. rewrite Hp.
  rewrite bool_decide_true by done. done.
Qed.

Lemma tcp_abort_ok p : pcb_st p = P_open -> tcp_abort (set_callbacks p false false false) = Some (close_pcb false p).
Proof using. intros Hp. unfold tcp_abort, pcb_open. cbn. rewrite Hp. by rewrite bool_decide_true. Qed.

Lemma tcp_close_ok ok p : pcb_st p = P_open ->
  tcp_close ok (set_callbacks p false false false) =
    Some (ok, if ok then close_pcb true p else set_callbacks p false false false).
Proof using. intros Hp. unfold tcp_close, pcb_open. cbn. rewrite Hp. rewrite bool_decide_true by done. by destruct ok. Qed.

(** [client_free_client] when the peer has closed or everything was passed to it. *)
Lemma free_client_ok lw x c :
  cl x = Some c -> mid c -> 0 < num_clients x ->
  (got_fin (pcb c) = true \/ (socks_closed c = true /\ drained c)) ->
  exists x', client_free_client lw x = Some x' /\ result false x x' /\ killed x' = true.
Proof using.
  intros Hc Hm Hn He. unfold client_free_client. rewrite Hc, (mi_open c Hm). cbn [negb].
  rewrite remove_callbacks_ok, tcp_close_ok by apply (mi_pcb c Hm).
  assert (lost (set_pcb c (close_pcb (close_ok lw) (pcb c)))) as Hl.
  { apply lost_intro; [done|done|by cbn; destruct (close_ok lw)|]. destruct He as [He|He]; [left|by right].
    unfold peer_end. cbn. by rewrite He. }
  destruct (handle_freed_ok 2 lw (upd x (set_pcb c (close_pcb (close_ok lw) (pcb c)))) _ eq_refl Hl Hn) as (x' & Hx & Hr & Hk).
  exists x'. split; [|by split; [eapply result_upd|]]. destruct (close_ok lw); cbn [negb]; [done|].
  rewrite tcp_abort_ok by apply (mi_pcb c Hm). done.
Qed.

Lemma abort_client_ok lw x c :
  cl x = Some c -> mid c -> 0 < num_clients x ->
  exists x', client_abort_client lw x = Some x' /\ result false x x' /\ killed x' = true.
Proof using.
  intros Hc Hm Hn. unfold client_abort_client. rewrite Hc, (mi_open c Hm). cbn [negb].
  rewrite remove_callbacks_ok, tcp_abort_ok by apply (mi_pcb c Hm).
  assert (lost (set_pcb c (close_pcb false (pcb c)))) as Hl.
  { apply lost_intro; [done|done|done|]. left. unfold peer_end. cbn. by rewrite orb_true_r. }
  destruct (handle_freed_ok 2 lw (upd x (set_pcb c (close_pcb false (pcb c)))) _ eq_refl Hl Hn) as (x' & Hx & Hr & Hk).
  exists x'. split; [done|]. by split; [eapply result_upd|].
Qed.

(** The SOCKS client failed while the peer was there. *)
Lemma free_socks_open lw x c :
  cl x = Some c -> client_closed c = false -> flows c -> open_ok c -> socks_closed c = false -> 0 < num_clients x ->
  (exists ph, sp_inv ph (socks_client c)) -> sock_failed (sk c) = true ->
  exists x', client_free_socks FUEL lw x = Some x' /\ result false x x'.
Proof using.
  intros Hc Hcl Hf Ho Hs Hn [ph Hi] Hfail. unfold FUEL. remember 3%nat as n eqn:En. cbn [client_free_socks]. rewrite Hc, Hs, Hcl.
  cbn [negb]. rewrite andb_true_r. destruct (sp_free_ok ph _ Hi) as [s Es].
  destruct Ho as [O1 O2 O3 O4 O5 O6 O7 O8 O9].
  set (p1 := set_callbacks (pcb c) (cb_err (pcb c)) (if socks_up c then false else cb_recv (pcb c)) (cb_sent (pcb c))).
  assert ((if socks_up c then tcp_recv false (pcb c) else Some (pcb c)) = Some p1) as ->.
  { unfold p1, tcp_recv, pcb_open. rewrite O1. rewrite bool_decide_true by done. destruct (socks_up c); [done|]. by destruct (pcb c). }
  cbn [set_pcb socks_client]. rewrite Es. set (st := mkStream _ _ _ _ _).
  set (c1 := set_socks _ _ _ _).
  assert (flows c1) as Hf1 by (destruct Hf; by split).
  assert (mid c1) as Hm1 by (split; try done; unfold send_ok; cbn; by rewrite andb_false_r).
  cbn [set_sk set_pcb set_socks socks_up rh client_closed c1]. rewrite Hcl. cbn [negb]. rewrite andb_true_r.
  destruct (socks_up c && ((used c >=? 0) || (pending c >? 0))) eqn:Ed.
  - apply andb_true_iff in Ed as [Eu Ed]. eexists. split; [done|]. right. exists c1. split; [done|].
    split; [|by right]. split; [done| |exact (mi_send c1 Hm1)|done]. cbn. rewrite Hcl. rewrite Eu in O4, O7. split; cbn; try done; rewrite ?Eu; try done.
    split; [done|]. split; [done|]. lia.
  - assert (drained c) as Hd.
    { unfold drained. destruct (socks_up c); [|by destruct O7 as (-> & -> & ->)]. cbn [andb] in Ed.
      destruct O7 as [[O7 O7'] [[_ O7'']|[[? _] _]]]; [split; [done|lia]|lia]. }
    rewrite remove_callbacks_ok, tcp_close_ok by done.
    assert (lost (set_pcb c1 (close_pcb (close_ok lw) p1))) as Hl.
    { apply lost_intro; [done|done|by cbn; destruct (close_ok lw)|]. right. split; [done|exact Hd]. }
    destruct (handle_freed_ok 1 lw (upd x (set_pcb c1 (close_pcb (close_ok lw) p1))) _ eq_refl Hl Hn) as (x' & Hx & Hr & Hk).
    rewrite <- En in Hx. exists x'. split; [|by eapply result_upd].
    destruct (close_ok lw); cbn [negb]; [exact Hx|]. rewrite tcp_abort_ok by done. exact Hx.
Qed.

(** ** The SOCKS side *)

Lemma mem_move_down n k m :
  0 <= n -> 0 <= k -> n + k <= zlen m ->
  exists m', mem_move 0 n k m = Some m' /\ zlen m' = zlen m /\ slice 0 k m' = slice n k m.
Proof using.
  intros Hn Hk Hl. unfold mem_move. rewrite mem_read_Some by lia.
  assert (zlen (slice n k m) = k) as Lk by (apply zlen_slice; lia).
  destruct (mem_write_Some 0 (slice n k m) m) as (m' & Hw & Hz); [lia|lia|].
  exists m'. split; [done|]. split; [done|]. rewrite <- Lk at 1. by rewrite (slice_write_same _ _ _ _ Hw).
Qed.

Lemma sender_send_ok c : send_op (sk c) = None -> 0 < buf_used c ->
  sender_send c = Some (set_sk c (mkStream (Some (buf_used c)) (recv_op (sk c)) (sent_log (sk c)) (rcvd_log (sk c)) (sock_failed (sk c)))).
Proof using. intros Hs Hb. unfold sender_send. rewrite Hs. by rewrite (proj2 (Z.gtb_lt _ _)). Qed.

(** The SOCKS client is up. *)
Lemma socks_up_ok lw x c :
  cl x = Some c -> flows c -> (if client_closed c then closed_ok c else open_ok c) -> send_ok c ->
  socks_up c = false -> socks_closed c = false -> sock_failed (sk c) = false -> sp_inv Up (socks_client c) ->
  exists x', client_socks_handler lw x EVENT_UP = Some x' /\ result (client_closed c) x x'.
Proof using.
  intros Hc Hf Hside Hse Hu Hs Hfl Hi. unfold client_socks_handler. rewrite Hc, Hs, Hu. cbn [negb].
  assert (send_op (sk c) = None) as Hop by (unfold send_ok in Hse; destruct (send_op (sk c)); [destruct Hse; congruence|done]).
  set (r1 := mkRecv _ _ _ _ _). cbn [set_rh client_closed pcb].
  set (p1 := if client_closed c then pcb c else set_callbacks (pcb c) (cb_err (pcb c)) (cb_recv (pcb c)) true).
  assert ((if negb (client_closed c) then tcp_sent true (pcb c) else Some (pcb c)) = Some p1) as ->.
  { unfold p1. destruct (client_closed c); [done|]. unfold tcp_sent, pcb_open. rewrite (op_pcb c Hside). by rewrite bool_decide_true. }
  cbn [set_pcb set_rh set_socks socks_client socks_closed buf_used client_closed].
  match goal with |- context [upd x ?d] => set (c1 := d) end. destruct (fl_buf c Hf) as [Hbl Hbu].
  assert (flows c1) as Hf1 by (destruct Hf; split; unfold c1, p1; cbn; destruct (client_closed c); done).
  set (so := if 0 <? buf_used c then Some (buf_used c) else None).
  assert ((if buf_used c >? 0 then client_send_to_socks (upd x c1) else Some (upd x c1)) =
          Some (upd x (set_sk c1 (mkStream so (recv_op (sk c)) (sent_log (sk c)) (rcvd_log (sk c)) (sock_failed (sk c)))))) as ->.
  { unfold so. rewrite Z.gtb_ltb. destruct (Z.ltb_spec 0 (buf_used c)).
    - unfold client_send_to_socks. cbn [upd cl]. rewrite (Hs : socks_closed c1 = false), (eq_refl : socks_up c1 = true). cbn [negb].
      rewrite (proj2 (Z.gtb_lt (buf_used c1) 0)) by done. by rewrite sender_send_ok.
    - assert (sk c = mkStream None (recv_op (sk c)) (sent_log (sk c)) (rcvd_log (sk c)) (sock_failed (sk c))) as Hsk
        by (rewrite <- Hop; by destruct (sk c)).
      rewrite <- Hsk. by destruct c. }
  assert (forall b, send_ok (set_sk c1 (mkStream so b (sent_log (sk c)) (rcvd_log (sk c)) (sock_failed (sk c))))) as Hso.
  { intros b. unfold send_ok, so. cbn. rewrite Hs. cbn [negb andb]. destruct (Z.ltb_spec 0 (buf_used c)); [|lia].
    split; [done|]. split; [done|]. lia. }
  destruct (client_closed c) eqn:Ec; cbn [negb].
  - eexists. split; [done|]. right. eexists. split; [done|]. split; [|by right].
    split; [destruct Hf1; by split| |apply Hso|by intros _; cbn]. cbn. rewrite Ec. destruct Hside. by split.
  - unfold client_socks_recv_initiate. cbn [upd cl set_sk client_closed socks_closed socks_up rh sk recv_op].
    rewrite (Ec : client_closed c1 = false), (Hs : socks_closed c1 = false). cbn [negb socks_up c1 set_socks rh set_pcb set_rh r1 socks_recv_buf_used].
    destruct Hside as [O1 O2 O3 O4 O5 O6 O7 O8 O9]. rewrite Hu in O7, O8. cbn [andb] in O8. rewrite O8. cbn [negb].
    eexists. split; [done|]. right. eexists. split; [done|]. split; [|by right].
    split; [destruct Hf1; by split| |apply Hso|by intros _; cbn]. cbn. rewrite Ec. destruct O7 as (W & R & A).
    rewrite Hs in O3. split; cbn; rewrite ?Hs; try done. split; [unfold counted; cbn; rewrite W, A; done|].
    left. split; [done|]. cbn. by rewrite W, R.
Qed.

(** The SOCKS client has reported an error. *)
Lemma socks_error_ok lw x c ev :
  cl x = Some c -> flows c -> (if client_closed c then closed_ok c else open_ok c) -> 0 < num_clients x ->
  socks_closed c = false -> sock_failed (sk c) = true -> (exists ph, sp_inv ph (socks_client c)) ->
  ev <> EVENT_UP -> (ev = EVENT_ERROR_CLOSED -> socks_up c = true) ->
  exists x', client_socks_handler lw x ev = Some x' /\ result (client_closed c) x x'.
Proof using.
  intros Hc Hf Hside Hn Hs Hfl Hi Hne Hev.
  assert (exists x', client_free_socks FUEL lw x = Some x' /\ result (client_closed c) x x') as (x' & Hx & Hr).
  { destruct (client_closed c) eqn:Ec.
    - destruct (free_socks_closed 3 lw x c) as (x' & Hx & Hfr & Hk); try done; [by left|apply Hside|].
      exists x'. split; [exact Hx|]. left. split; [done|by right].
    - destruct (free_socks_open lw x c) as (x' & Hx & Hr); try done. by exists x'. }
  exists x'. unfold client_socks_handler. rewrite Hc, Hs. cbn [negb]. destruct ev; [done|done|]. by rewrite Hev.
Qed.

(** The bytes of a completed send leave the buffer. *)
Definition after_sent (c : tcp_client) (b : list Z) (n : Z) (p : tcp_pcb) : tcp_client :=
  set_pcb (set_buf (set_sk c (mkStream None (recv_op (sk c)) (sent_log (sk c) ++ slice 0 n (buf c)) (rcvd_log (sk c))
                                (sock_failed (sk c)))) b (buf_used c - n)) p.

Lemma after_sent_flows c b n p :
  flows c -> 0 < n <= buf_used c -> zlen b = zlen (buf c) -> slice 0 (buf_used c - n) b = slice n (buf_used c - n) (buf c) ->
  delivered p = delivered (pcb c) -> written p = written (pcb c) -> flows (after_sent c b n p).
Proof using.
  intros [[F1 F1'] F2 F3 F4] Hn Hl Hb Hd Hw. split; cbn; rewrite ?Hd, ?Hw; try done; [split; lia|].
  rewrite F3, Hb, <- app_assoc. f_equal. replace (buf_used c) with (n + (buf_used c - n)) at 1 by lia.
  rewrite slice_add by lia. done.
Qed.

Lemma sent_done_ok lw x c n m :
  cl x = Some c -> cinv c -> 0 < num_clients x -> send_op (sk c) = Some m -> 0 < n <= m ->
  exists x', sock_exec lw x (SK_sent n) = Some x' /\ result (client_closed c) x x'.
Proof using.
  intros Hc [Hf Hside Hse Hso] Hnum Hop Hn. rewrite Hop in Hse. destruct Hse as (Hu & Hs & Hm).
  destruct (Hso Hs) as [Hfl Hi]. rewrite Hu in Hi. destruct (fl_buf c Hf) as [Hbl Hbu].
  unfold sock_exec. rewrite Hc. rewrite mem_read_Some by lia.
  unfold client_socks_send_handler_done. cbn [upd cl set_sk socks_closed socks_up buf_used buf client_closed]. rewrite Hs, Hu. cbn [negb].
  rewrite (proj2 (Z.gtb_lt (buf_used c) 0)), (proj2 (Z.gtb_lt n 0)), (proj2 (Z.leb_le n (buf_used c))) by lia.
  destruct (mem_move_down n (buf_used c - n) (buf c)) as (b & Hmv & Hbz & Hbs); [lia..|]. rewrite Hmv.
  cbn [set_buf set_sk client_closed pcb].
  set (p1 := if client_closed c then pcb c else
    mkPcb (pcb_st (pcb c)) (cb_err (pcb c)) (cb_recv (pcb c)) (cb_sent (pcb c)) (delivered (pcb c)) (got_fin (pcb c))
      (recved (pcb c) + n) (written (pcb c)) (acked (pcb c))).
  assert ((if negb (client_closed c) then tcp_recved n (pcb c) else Some (pcb c)) = Some p1) as ->.
  { unfold p1. destruct (client_closed c); [done|]. unfold tcp_recved, pcb_open. rewrite (op_pcb c Hside). by rewrite bool_decide_true. }
  match goal with |- context [set_pcb ?a p1] => change (set_pcb a p1) with (after_sent c b n p1) end.
  assert (flows (after_sent c b n p1)) as Hf1.
  { apply after_sent_flows; try done; [lia|..]; unfold p1; by destruct (client_closed c). }
  assert (zlen (slice 0 n (buf c)) = n) as Ln by (apply zlen_slice; lia).
  assert (if client_closed c then 0 < buf_used c - n -> closed_ok (after_sent c b n p1) else open_ok (after_sent c b n p1)) as Hside1.
  { destruct (client_closed c).
    - intros Hpos. destruct Hside as [C1 C2 C3 C4 C5]. split; done.
    - destruct Hside as [O1 O2 O3 O4 O5 O6 O7 O8 O9]. split; try done. cbn. rewrite zlen_app. lia. }
  assert (buf_used (after_sent c b n p1) = buf_used c - n) as Hbu1 by done.
  change (client_closed (after_sent c b n p1)) with (client_closed c). rewrite Hbu1, Z.gtb_ltb.
  destruct (Z.ltb_spec 0 (buf_used c - n)) as [Hpos|Hpos].
  - rewrite sender_send_ok by done. eexists. split; [done|]. right. eexists. split; [done|]. split; [|by right].
    split; [destruct Hf1; by split| |split; [done|]; split; [done|]; cbn; lia|].
    + cbn. destruct (client_closed c); [destruct (Hside1 Hpos); by split|destruct Hside1; by split].
    + intros _. cbn. by rewrite Hu.
  - destruct (client_closed c) eqn:Ec.
    + destruct (free_socks_closed 3 lw (upd (upd x (set_sk c (mkStream None (recv_op (sk c)) (sent_log (sk c) ++ slice 0 n (buf c)) (rcvd_log (sk c)) (sock_failed (sk c))))) (after_sent c b n p1)) (after_sent c b n p1))
        as (x' & Hx & Hfr & Hk); try done; [by eexists|right; lia|apply Hside|].
      exists x'. split; [exact Hx|]. left. split; [destruct Hfr; by split|by right].
    + eexists. split; [done|]. right. eexists. split; [done|]. split; [|by right].
      split; [done|by change (client_closed (after_sent c b n p1)) with (client_closed c); rewrite Ec| |].
      * cbn. rewrite Hu, Hs. cbn. lia.
      * intros _. cbn. by rewrite Hu.
Qed.

(** ** Passing received data to the peer *)

(** [k] more bytes given to [tcp_write]. *)
Definition adv (c : tcp_client) (k : Z) : tcp_client :=
  let p := pcb c in
  let r := rh c in
  set_rh (set_pcb c (mkPcb (pcb_st p) (cb_err p) (cb_recv p) (cb_sent p) (delivered p) (got_fin p) (recved p)
                       (written p ++ slice (rsent c) k (socks_recv_buf r)) (acked p)))
    (mkRecv (socks_recv_buf r) (used c) (rsent c + k) (socks_recv_waiting r) (pending c + k)).

Lemma adv_0 c : adv c 0 = c.
Proof using. unfold adv. destruct c as [[] ? ? ? ? ? ? [] ?]. cbn. by rewrite slice_zero, app_nil_r, !Z.add_0_r. Qed.

Lemma adv_adv c k j : 0 <= rsent c -> 0 <= k -> 0 <= j -> adv (adv c k) j = adv c (k + j).
Proof using.
  intros Hs Hk Hj. unfold adv. cbn. rewrite slice_add, app_assoc, !Z.add_assoc by lia. done.
Qed.

(** Data received from SOCKS that is being written. *)
Record sending_out (c : tcp_client) : Prop := {
  so_mid : mid c;
  so_up : socks_up c = true;
  so_range : 0 <= rsent c <= used c /\ used c <= CLIENT_SOCKS_RECV_BUF_SIZE;
  so_rcvd : rcvd_log (sk c) = written (pcb c) ++ slice (rsent c) (used c - rsent c) (socks_recv_buf (rh c));
  so_count : counted c
}.

Lemma sending_adv c k : sending_out c -> 0 <= k <= used c - rsent c -> sending_out (adv c k).
Proof using.
  intros [Hm Hu Hr Hrc [Hc1 Hc2]] Hk.
  assert (zlen (slice (rsent c) k (socks_recv_buf (rh c))) = k) as Lk.
  { apply zlen_slice; [lia|lia|]. rewrite (fl_rbuf c (mi_flows c Hm)). lia. }
  assert (rcvd_log (sk c) = (written (pcb c) ++ slice (rsent c) k (socks_recv_buf (rh c))) ++
    slice (rsent c + k) (used c - (rsent c + k)) (socks_recv_buf (rh c))) as Hrc1.
  { rewrite Hrc. replace (used c - rsent c) with (k + (used c - (rsent c + k))) by lia. rewrite slice_add by lia. by rewrite app_assoc. }
  split; [|done|cbn; lia|done|unfold counted; cbn; rewrite zlen_app; lia].
  destruct Hm as [M1 [F1 F2 F3 F4] M3 M4 M5 M6]. split; try done. split; try done. cbn. rewrite Hrc1. by eexists.
Qed.

Lemma tcp_write_ok r data p : pcb_st p = P_open ->
  tcp_write r data p = Some (match r with
    | W_OK => mkPcb (pcb_st p) (cb_err p) (cb_recv p) (cb_sent p) (delivered p) (got_fin p) (recved p) (written p ++ data) (acked p)
    | _ => p end).
Proof using. intros Hp. unfold tcp_write, pcb_open. rewrite Hp. by rewrite bool_decide_true. Qed.

Lemma u16_range z : 0 <= u16 z.
Proof using. unfold u16. apply Z.mod_pos_bound. lia. Qed.

Lemma upd_same x c : cl x = Some c -> upd x c = x.
Proof using. intros Hc. unfold upd. rewrite <- Hc. by destruct x. Qed.

Lemma send_out_loop_ok fuel : forall lw i x c,
  cl x = Some c -> sending_out c -> rsent c < used c -> 0 < num_clients x -> used c - rsent c <= Z.of_nat fuel ->
  exists ab x', send_out_loop fuel lw i x = Some (ab, x') /\
    if ab : bool then result false x x' /\ killed x' = true
    else exists k, 0 <= k <= used c - rsent c /\ x' = upd x (adv c k).
Proof using.
  induction fuel as [|fuel IH]; intros lw i x c Hc Hs Hlt Hn Hfu; [lia|].
  cbn [send_out_loop]. rewrite Hc. destruct Hs as [Hm Hu Hr Hrc Hct] eqn:EHs. clear EHs. pose proof (mi_pcb c Hm) as Hp.
  unfold pcb_open. rewrite Hp. rewrite bool_decide_true by done. pose proof (u16_range (sndbuf lw i)) as Hsb.
  set (tw := Z.min (used c - rsent c) (u16 (sndbuf lw i))). destruct (Z.eqb_spec tw 0) as [E0|E0].
  { exists false, x. split; [done|]. exists 0. split; [lia|]. by rewrite adv_0, upd_same. }
  rewrite mem_read_Some by (rewrite ?(fl_rbuf c (mi_flows c Hm)); lia). rewrite tcp_write_ok by done.
  destruct (write_res lw i) eqn:Ew.
  - change (set_rh (set_pcb c _) _) with (adv c tw). assert (sending_out (adv c tw)) as Hs1 by (apply sending_adv; [by split|lia]).
    change (socks_recv_buf_sent (rh (adv c tw))) with (rsent c + tw). change (socks_recv_buf_used (rh (adv c tw))) with (used c).
    destruct (Z.ltb_spec (rsent c + tw) (used c)) as [Hl|Hl].
    + destruct (IH lw (i + 1) (upd x (adv c tw)) (adv c tw)) as (ab & x' & Hx & Hres); try done; [cbn; lia|].
      exists ab, x'. split; [done|]. destruct ab; [destruct Hres; split; [by eapply result_upd|done]|].
      destruct Hres as (k & Hk & ->). exists (tw + k). cbn in Hk. split; [lia|]. rewrite adv_adv by lia. done.
    + exists false, (upd x (adv c tw)). split; [done|]. exists tw. split; [lia|done].
  - exists false, (upd x (set_pcb c (pcb c))). split; [done|]. exists 0. split; [lia|]. rewrite adv_0. by destruct c.
  - assert (set_pcb c (pcb c) = c) as -> by by destruct c.
    destruct (abort_client_ok lw (upd x c) c) as (x' & -> & Hres & Hk); try done.
    exists true, x'. split; [done|]. split; [by eapply result_upd|done].
Qed.

(** [client_socks_recv_send_out]: aborted, or everything is queued, or the rest
    waits and bytes are unconfirmed. *)
Lemma send_out_ok lw x c :
  cl x = Some c -> sending_out c -> 0 < used c -> rsent c < used c -> socks_recv_waiting (rh c) = false -> 0 < num_clients x ->
  exists ab x', client_socks_recv_send_out lw x = Some (ab, x') /\
    if ab : bool then result false x x' /\ killed x' = true
    else exists k r, x' = upd x (set_rh (adv c k) r) /\ 0 <= k <= used c - rsent c /\ socks_recv_buf r = socks_recv_buf (rh c) /\
      socks_recv_tcp_pending r = pending c + k /\ 0 < pending c + k /\
      ((socks_recv_buf_used r = -1 /\ k = used c - rsent c) \/
       (socks_recv_buf_used r = used c /\ socks_recv_buf_sent r = rsent c + k /\ socks_recv_waiting r = true /\ k < used c - rsent c)).
Proof using.
  intros Hc Hs Hpos Hlt Hw Hn. unfold client_socks_recv_send_out. rewrite Hc, (mi_open c (so_mid c Hs)), (so_up c Hs), Hw. cbn [negb].
  rewrite (proj2 (Z.gtb_lt _ _)), (proj2 (Z.ltb_lt _ _)) by done.
  destruct (send_out_loop_ok (Z.to_nat (used c - rsent c)) lw 0 x c Hc Hs Hlt Hn) as (ab & x1 & -> & Hres); [lia|].
  destruct ab; [by exists true, x1|]. destruct Hres as (k & Hk & ->). change (cl (upd x (adv c k))) with (Some (adv c k)).
  assert (sending_out (adv c k)) as Hs1 by by apply sending_adv. pose proof (so_mid _ Hs1) as Hm1.
  unfold pcb_open. rewrite (mi_pcb _ Hm1). rewrite bool_decide_true by done.
  destruct (output_ok lw); cbn [negb].
  2: { destruct (abort_client_ok lw (upd x (adv c k)) (adv c k)) as (x' & Hx & Hres & Hkk); try done.
       rewrite Hx. exists true, x'. split; [done|]. split; [by eapply result_upd|done]. }
  change (socks_recv_buf_sent (rh (adv c k))) with (rsent c + k). change (socks_recv_buf_used (rh (adv c k))) with (used c).
  change (socks_recv_tcp_pending (rh (adv c k))) with (pending c + k). destruct (so_count c Hs) as [_ Hp0].
  destruct (Z.ltb_spec (rsent c + k) (used c)) as [Hl|Hl].
  - destruct (Z.eqb_spec (pending c + k) 0) as [E0|E0].
    + destruct (abort_client_ok lw (upd x (adv c k)) (adv c k)) as (x' & Hx & Hres & Hkk); try done.
      rewrite Hx. exists true, x'. split; [done|]. split; [by eapply result_upd|done].
    + exists false. eexists. split; [done|]. exists k. eexists. split; [done|]. split; [lia|]. split; [done|]. split; [done|].
      split; [lia|]. right. cbn. split_and!; try done. lia.
  - exists false. eexists. split; [done|]. exists k. eexists. split; [done|]. split; [lia|]. split; [done|]. split; [done|].
    split; [lia|]. left. cbn. split; [done|lia].
Qed.

(** The part of [open_ok] that writing does not touch. *)
Record open_base (c : tcp_client) : Prop := {
  ob_pcb : pcb_st (pcb c) = P_open;
  ob_err : cb_err (pcb c) = true;
  ob_recv : cb_recv (pcb c) = negb (socks_closed c);
  ob_sent : cb_sent (pcb c) = socks_up c;
  ob_fin : got_fin (pcb c) = false;
  ob_recved : recved (pcb c) = zlen (sent_log (sk c))
}.

Lemma open_ok_base c : open_ok c -> open_base c.
Proof using. by intros []. Qed.

Definition set_recv_op (c : tcp_client) (b : bool) : tcp_client :=
  set_sk c (mkStream (send_op (sk c)) b (sent_log (sk c)) (rcvd_log (sk c)) (sock_failed (sk c))).

Lemma recv_initiate_ok x c :
  cl x = Some c -> client_closed c = false -> socks_closed c = false -> socks_up c = true -> used c = -1 -> recv_op (sk c) = false ->
  client_socks_recv_initiate x = Some (upd x (set_recv_op c true)).
Proof using. intros Hc H1 H2 H3 H4 H5. unfold client_socks_recv_initiate. by rewrite Hc, H1, H2, H3, H4, H5. Qed.

(** The client after [client_socks_recv_send_out]. *)
Definition written_out (c : tcp_client) (k : Z) (r : recv_half) : Prop :=
  0 <= k <= used c - rsent c /\ socks_recv_buf r = socks_recv_buf (rh c) /\
  socks_recv_tcp_pending r = pending c + k /\ 0 < pending c + k /\
  ((socks_recv_buf_used r = -1 /\ k = used c - rsent c) \/
   (socks_recv_buf_used r = used c /\ socks_recv_buf_sent r = rsent c + k /\ socks_recv_waiting r = true /\ k < used c - rsent c)).

Lemma written_out_inv c k r :
  sending_out c -> open_base c -> written_out c k r ->
  cinv (set_recv_op (set_rh (adv c k) r) (negb (socks_closed c) && (socks_recv_buf_used r =? -1))).
Proof using.
  intros Hs [B1 B2 B3 B4 B5 B6] (Hk & Hb & Hp & Hpp & Hcase). pose proof (sending_adv c k Hs Hk) as Hs1.
  destruct Hs1 as [Hm1 Hu1 Hr1 Hrc1 [Hc1 Hc1']]. pose proof (so_up c Hs) as Hu. destruct Hm1 as [M1 [F1 F2 F3 F4] M3 M4 M5 M6].
  assert (client_closed c = false) as Ec by exact M1.
  split.
  - split; try done. cbn. rewrite Hb. exact F2.
  - cbn. rewrite Ec. rewrite Hu in B4. split; cbn; rewrite ?Hu; try done.
    + split; [unfold counted; cbn in Hc1 |- *; rewrite Hp; lia|]. destruct Hcase as [[E1 E2]|(E1 & E2 & E3 & E4)]; [left|right].
      * split; [done|]. cbn in Hrc1 |- *. rewrite Hrc1. replace (used c - (rsent c + k)) with 0 by lia.
        by rewrite slice_zero, app_nil_r.
      * split; [|cbn; rewrite Hp; split; [done|lia]]. pose proof (so_range c Hs). unfold half_sent. cbn. rewrite E1, E2, Hb. split; [lia|]. split; [apply Hs|].
        exact Hrc1.
    + intros Hcl. split; [|split; [done|rewrite Hp; by right]]. revert M6. cbn. by rewrite Hcl.
  - exact M5.
  - intros Hcl. cbn in Hcl. revert M6. cbn. by rewrite Hcl.
Qed.

Lemma recv_ok lw x c data :
  cl x = Some c -> cinv c -> 0 < num_clients x -> socks_closed c = false -> recv_op (sk c) = true ->
  0 < zlen data <= CLIENT_SOCKS_RECV_BUF_SIZE ->
  exists x', sock_exec lw x (SK_recv data) = Some x' /\ result (client_closed c) x x'.
Proof using.
  intros Hc Hi Hn Hs Hro Hd. pose proof Hi as [Hf Hside Hse Hso]. destruct (Hso Hs) as [Hfl Hsi].
  unfold sock_exec. rewrite Hc. destruct (mem_write_Some 0 data (socks_recv_buf (rh c))) as (b & Hw & Hbl); [lia|rewrite (fl_rbuf c Hf); lia|].
  rewrite Hw. pose proof (slice_write_same _ _ _ _ Hw) as Hsl.
  assert (socks_up c = true /\ used c = -1) as [Hu Hused].
  { destruct (client_closed c); [by apply Hside|]. rewrite (op_op c Hside) in Hro.
    destruct (socks_up c), (socks_closed c), (Z.eqb_spec (used c) (-1)); done. }
  set (c1 := set_sk _ _). unfold client_socks_recv_handler_done. change (cl (upd x c1)) with (Some c1).
  rewrite (proj2 (Z.gtb_lt _ _)), (proj2 (Z.leb_le _ _)) by lia.
  rewrite (Hs : socks_closed c1 = false), (Hu : socks_up c1 = true), (Hused : used c1 = -1), Z.eqb_refl. cbn [negb].
  change (client_closed c1) with (client_closed c).
  assert (flows c1) as Hf1.
  { destruct Hf as [F1 F2 F3 F4]. split; try done; cbn; [by rewrite Hbl|]. by apply prefix_app_r. }
  destruct (client_closed c) eqn:Ec.
  - eexists. split; [done|]. right. exists c1. split; [done|]. split; [|by right]. split; [done| |exact Hse|done].
    cbn. rewrite Ec. destruct Hside. by split.
  - set (c2 := set_rh c1 _). pose proof (open_ok_base c Hside) as Hbase.
    assert (written (pcb c) = rcvd_log (sk c)) as Hwr.
    { pose proof (op_in c Hside) as Hin. rewrite Hu in Hin. destruct Hin as [_ [[_ ?]|[[? _] _]]]; [done|lia]. }
    assert (counted c) as Hct by (pose proof (op_in c Hside) as Hin; rewrite Hu in Hin; apply Hin).
    assert (sending_out c2) as Hs2.
    { split; [|done|cbn; lia| |done].
      - split; try done; [destruct Hf1; by split|apply Hbase|]. cbn. rewrite Hs. rewrite Hu in *. done.
      - cbn. rewrite Z.sub_0_r, Hsl, Hwr. done. }
    destruct (send_out_ok lw (upd (upd x c1) c2) c2) as (ab & x' & Hx & Hres); try done; [cbn; lia..|].
    rewrite Hx. destruct ab.
    + exists x'. split; [done|]. destruct Hres as [Hres _]. by repeat apply result_upd in Hres.
    + destruct Hres as (k & r & -> & Hwo). change (cl (upd (upd (upd x c1) c2) (set_rh (adv c2 k) r))) with (Some (set_rh (adv c2 k) r)).
      cbv beta iota.
      assert (open_base c2) as Hb2 by (destruct Hbase; by split). pose proof (written_out_inv c2 k r Hs2 Hb2 Hwo) as Hi2.
      rewrite (Hs : socks_closed c2 = false) in Hi2. cbn [negb andb] in Hi2.
      change (used (set_rh (adv c2 k) r)) with (socks_recv_buf_used r).
      destruct (Z.eqb_spec (socks_recv_buf_used r) (-1)) as [E1|E1].
      * rewrite (recv_initiate_ok _ (set_rh (adv c2 k) r)) by done.
        eexists. split; [done|]. right. eexists. split; [done|]. split; [exact Hi2|by right].
      * eexists. split; [done|]. right. eexists. split; [done|]. split; [|by right].
        assert (set_recv_op (set_rh (adv c2 k) r) false = set_rh (adv c2 k) r) as Heq by done. rewrite Heq in Hi2. exact Hi2.
Qed.

Lemma result_trans b x x1 c1 x2 :
  kept x x1 c1 -> (killed x1 = true \/ (killed x1 = killed x /\ client_closed c1 = b)) ->
  result (client_closed c1) x1 x2 -> result b x x2.
Proof using.
  intros [K1 K2 K3 K4 K5] Hk [[[F1 F2 F3 F4 F5] Hk2]|(c2 & [L1 L2 L3 L4 L5] & Hi & Hk2)]; [left|right].
  - split; [split; congruence || by rewrite <- K5|]. destruct Hk2 as [?|[-> ?]]; [by left|]. destruct Hk as [?|[? ?]]; [by left|].
    right. split; congruence.
  - exists c2. split; [split; congruence|]. split; [done|]. destruct Hk2 as [?|[-> ?]]; [by left|]. destruct Hk as [?|[? ?]]; [by left|].
    right. split; congruence.
Qed.

Lemma sock_step lw x c e :
  cl x = Some c -> cinv c -> 0 < num_clients x -> sock_enabled x e = true ->
  exists x', sock_exec lw x e = Some x' /\ result (client_closed c) x x'.
Proof using.
  intros Hc Hi Hn He. unfold sock_enabled in He. rewrite Hc in He. apply andb_true_iff in He as [Hs He]. apply negb_true_iff in Hs.
  pose proof Hi as [Hf Hside Hse Hso]. destruct (Hso Hs) as [Hfl Hsi]. destruct e as [e|n|data].
  - unfold sock_exec. rewrite Hc. destruct (sp_exec_ok _ _ _ Hsi He) as (s & r & -> & Hr).
    destruct r as [ev|].
    + set (c1 := set_sk _ _).
      assert (flows c1) as Hf1 by (destruct Hf; by split).
      assert (if client_closed c1 then closed_ok c1 else open_ok c1) as Hside1.
      { cbn. destruct (client_closed c); [destruct Hside; by split|]. destruct Hside. split; try done. cbn. by rewrite Hs. }
      change (client_closed c) with (client_closed c1).
      assert (forall b x', result b (upd x c1) x' -> result b x x') as Hup by (intros; by eapply result_upd).
      destruct ev.
      * destruct (socks_error_ok lw (upd x c1) c1 EVENT_ERROR) as (x' & Hx & Hres); try done.
        -- cbn. by rewrite orb_true_r.
        -- by exists Down.
        -- exists x'. split; [done|by apply Hup].
      * destruct Hr as [Hph Hsu]. destruct (socks_up c) eqn:Eu; [done|].
        destruct (socks_up_ok lw (upd x c1) c1) as (x' & Hx & Hres); try done.
        -- cbn. by rewrite Hfl.
        -- exists x'. split; [done|by apply Hup].
      * destruct Hr as [Hph Hsd]. destruct (socks_up c) eqn:Eu; [|done].
        destruct (socks_error_ok lw (upd x c1) c1 EVENT_ERROR_CLOSED) as (x' & Hx & Hres); try done.
        -- cbn. by rewrite orb_true_r.
        -- by exists Down.
        -- exists x'. split; [done|by apply Hup].
    + eexists. split; [done|]. right. eexists. split; [done|]. split; [|by right].
      split; [destruct Hf; by split| |exact Hse|by intros _].
      cbn. destruct (client_closed c); [destruct Hside; by split|]. destruct Hside. by split.
  - destruct (send_op (sk c)) as [m|] eqn:Eop; [|done]. apply andb_true_iff in He as [H1 H2]. eapply sent_done_ok; try done. lia.
  - repeat (apply andb_true_iff in He as [He ?]). apply recv_ok; try done. lia.
Qed.

Lemma sock_run_freed evs : forall x, cl x = None -> sock_run x evs = Some x.
Proof using.
  induction evs as [|[lw e] evs IH]; intros x Hx; [done|]. cbn. unfold sock_enabled. rewrite Hx. by apply IH.
Qed.

Lemma sock_run_ok evs : forall x c,
  cl x = Some c -> cinv c -> 0 < num_clients x -> exists x', sock_run x evs = Some x' /\ result (client_closed c) x x'.
Proof using.
  induction evs as [|[lw e] evs IH]; intros x c Hc Hi Hn; cbn [sock_run].
  { exists x. split; [done|]. right. exists c. split; [done|]. split; [done|by right]. }
  destruct (sock_enabled x e) eqn:He; [|by apply IH]. destruct (sock_step lw x c e Hc Hi Hn He) as (x1 & -> & Hres).
  destruct Hres as [[Hfr Hk]|(c1 & Hkp & Hi1 & Hk)].
  - rewrite sock_run_freed by apply Hfr. exists x1. split; [done|]. by left.
  - destruct (IH x1 c1 (kp_cl _ _ _ Hkp) Hi1) as (x2 & Hx2 & Hres2); [by rewrite (kp_num _ _ _ Hkp)|].
    exists x2. split; [done|]. by eapply result_trans.
Qed.

(** ** lwIP callbacks *)

Lemma pbuf_copy_all d : forall dst base,
  0 <= base -> base + tot_len d <= zlen dst ->
  exists b, pbuf_copy_partial d dst base (tot_len d) 0 = Some (tot_len d, b) /\ zlen b = zlen dst /\
    slice 0 base b = slice 0 base dst /\ slice base (tot_len d) b = concat d.
Proof using.
  unfold tot_len. induction d as [|p d IH]; intros dst base Hb Hl; [by exists dst|].
  cbn [pbuf_copy_partial concat] in *. rewrite zlen_app in *. pose proof (zlen_nonneg p). pose proof (zlen_nonneg (concat d)).
  destruct (Z.eqb_spec (zlen p + zlen (concat d)) 0) as [E0|E0].
  { exists dst. rewrite E0. assert (p = []) as -> by (apply zlen_zero_inv; lia).
    assert (concat d = []) as -> by (apply zlen_zero_inv; lia). by split_and!. }
  cbn [Z.eqb negb andb]. rewrite Z.sub_0_r, Z.gtb_ltb. rewrite (proj2 (Z.ltb_ge _ _)) by lia.
  rewrite mem_read_Some by lia. rewrite slice_all. destruct (mem_write_Some base p dst) as (m1 & Hw & Hz); [lia|lia|].
  rewrite Hw. replace (zlen p + zlen (concat d) - zlen p) with (zlen (concat d)) by lia.
  destruct (IH m1 (base + zlen p)) as (b & -> & Hbz & Hpre & Hpost); [lia|lia|]. exists b. split; [done|]. split; [congruence|].
  assert (forall o l, 0 <= o -> 0 <= l -> o + l <= base + zlen p -> slice o l b = slice o l m1) as Hsub.
  { intros o l Ho Hll Hol. rewrite <- (Z.add_0_l o), <- (slice_slice 0 (base + zlen p) o l b), <- (slice_slice 0 (base + zlen p) o l m1) by lia.
    by rewrite Hpre. }
  split.
  - rewrite Hsub by lia. apply (slice_write_disj _ _ _ _ _ _ Hw); lia.
  - rewrite slice_add, Hpost, Hsub by lia. by rewrite (slice_write_same _ _ _ _ Hw).
Qed.

Lemma window_used c : cinv c -> client_closed c = false -> zlen (delivered (pcb c)) - recved (pcb c) = buf_used c.
Proof using.
  intros [Hf Hside _ _] Hc. rewrite Hc in Hside. destruct Hf as [[F1 F1'] F2 F3 F4]. rewrite F3, (op_recved c Hside), zlen_app.
  rewrite zlen_slice by lia. lia.
Qed.

(** The outcome of a callback: unless lwIP is told of an abort, its pcb is still open. *)
Definition code_ok (code : err_t) (x' : ctx) : Prop :=
  code <> ERR_MEM /\ (code = ERR_OK -> exists c, cl x' = Some c /\ client_closed c = false).

Lemma result_code x x' : result false x x' -> killed x = false ->
  code_ok (if killed x' then ERR_ABRT else ERR_OK) x'.
Proof using.
  intros Hr Hk. split; [by destruct (killed x')|]. destruct (killed x') eqn:Ek; [done|]. intros _.
  destruct Hr as [[_ [?|[_ ?]]]|(c & Hkp & _ & [?|[_ ?]])]; try congruence. exists c. split; [apply Hkp|done].
Qed.

(** A sync after the handler changed the client. *)
Lemma sync_ok evs x c :
  cl x = Some c -> cinv c -> client_closed c = false -> 0 < num_clients x ->
  exists x', sync_commit x evs = Some x' /\ result false (set_killed x false) x' /\ code_ok (if killed x' then ERR_ABRT else ERR_OK) x'.
Proof using.
  intros Hc Hi Hcl Hn. destruct (sock_run_ok evs (set_killed x false) c Hc Hi Hn) as (x' & Hx & Hr). rewrite Hcl in Hr.
  exists x'. split; [done|]. split; [done|]. by apply (result_code (set_killed x false)).
Qed.

Lemma result_unkill b x x' : killed x = false -> result b (set_killed x false) x' -> result b x x'.
Proof using.
  intros Hk Hr. assert (set_killed x false = x) as Heq by (rewrite <- Hk; by destruct x). by rewrite Heq in Hr.
Qed.

Lemma recv_func_ok lw sync x c d :
  cl x = Some (set_pcb c (pcb_deliver (pcb c) d)) -> killed x = false -> cinv c -> client_closed c = false -> 0 < num_clients x ->
  recv_allowed c d = true ->
  exists code fr x', client_recv_func lw sync x d = Some (code, fr, x') /\ result false x x' /\ code_ok code x' /\
    (code = ERR_OK -> fr = true).
Proof using.
  intros Hx Hk Hi Hc Hn Hall. unfold recv_allowed in Hall. apply andb_true_iff in Hall as [Hall Hd].
  repeat (apply andb_true_iff in Hall as [Hall ?]). pose proof Hi as [Hf Hside Hse Hso]. rewrite Hc in Hside.
  assert (socks_closed c = false) as Hs by (rewrite (op_recv c Hside) in *; by apply negb_true_iff).
  pose proof (window_used c Hi Hc) as Hwin. pose proof (cinv_mid c Hi Hc) as Hm. pose proof Hf as [[F1 F1'] F2 F3 F4].
  unfold client_recv_func. rewrite Hx. change (client_closed (set_pcb c _)) with (client_closed c). rewrite Hc. cbn [negb].
  destruct d as [d|].
  2: { destruct (free_client_ok lw x (set_pcb c (pcb_deliver (pcb c) None))) as (x' & -> & Hr & Hkx); try done; [|by left|].
       - destruct Hm. by split.
       - exists ERR_ABRT, false, x'. by split_and!. }
  apply andb_true_iff in Hd as [Hpos Hle]. rewrite Hwin in Hle. rewrite (proj2 (Z.gtb_lt _ _)) by lia.
  cbn [set_pcb buf buf_used]. rewrite F1, Z.gtb_ltb. rewrite (proj2 (Z.ltb_ge _ _)) by lia.
  destruct (pbuf_copy_all d (buf c) (buf_used c)) as (b & -> & Hbz & Hpre & Hpost); [lia|lia|]. rewrite Z.eqb_refl. cbv zeta.
  set (c1 := set_buf _ b _).
  assert (flows c1) as Hf1.
  { split; try done; cbn; [split; lia|]. rewrite F3, slice_add, Z.add_0_l, Hpre, Hpost by lia. by rewrite app_assoc. }
  assert (open_ok c1) as Ho1 by (destruct Hside; by split).
  change (buf_used c1) with (buf_used c + tot_len d). change (socks_up c1) with (socks_up c). change (socks_closed c1) with (socks_closed c).
  destruct (Z.eqb_spec (buf_used c + tot_len d) (tot_len d)) as [E0|E0]; cbn [andb].
  - destruct (socks_up c) eqn:Eu.
    + rewrite Hs. cbn [negb]. unfold client_send_to_socks. change (cl (upd x c1)) with (Some c1). cbv beta iota.
      rewrite (Hs : socks_closed c1 = false), (Eu : socks_up c1 = true). cbn [negb].
      rewrite (proj2 (Z.gtb_lt (buf_used c1) 0)) by (cbn; lia).
      assert (send_op (sk c) = None) as Hop by (destruct (send_op (sk c)); [destruct Hse as (_ & _ & ?); lia|done]).
      rewrite sender_send_ok by (done || (cbn; lia)). set (c2 := set_sk c1 _).
      assert (cinv c2) as Hi2.
      { split; [destruct Hf1; by split| |cbn; split; [done|]; split; [done|]; lia|].
        - cbn. rewrite Hc. destruct Ho1; by split.
        - intros _. cbn. rewrite Eu. destruct (Hso Hs). done. }
      destruct (sync_ok sync (upd (upd x c1) c2) c2) as (x' & -> & Hr & Hcode); try done.
      assert (result false x x') as Hr' by (apply result_unkill in Hr; [by repeat apply result_upd in Hr|done]).
      destruct (killed x'); eexists _, _, x'; (split; [done|]); by split_and!.
    + eexists _, _, _. split; [done|]. split; [|split; [|done]].
      * right. exists c1. split; [done|]. split; [|by right]. split; [done|by cbn; rewrite Hc| |].
        -- destruct (send_op (sk c)) eqn:Eop; [destruct Hse; congruence|]. cbn. by rewrite Eop, Eu.
        -- intros _. cbn. rewrite Eu. by destruct (Hso Hs).
      * split; [done|]. intros _. by exists c1.
  - eexists _, _, _. split; [done|]. split; [|split; [|done]].
    + right. exists c1. split; [done|]. split; [|by right]. split; [done|by cbn; rewrite Hc| |].
      * destruct (send_op (sk c)) eqn:Eop; cbn; rewrite Eop; [destruct Hse as (? & ? & ?); split_and!; try done; lia|].
        rewrite Hs in *. cbn [negb] in *. rewrite andb_true_r in *. destruct (socks_up c); [|done]. cbn [andb] in *. lia.
      * intros _. cbn. by destruct (Hso Hs).
    + split; [done|]. intros _. by exists c1.
Qed.

Lemma sent_func_ok lw sync x c len :
  cl x = Some (set_pcb c (pcb_ack (pcb c) len)) -> killed x = false -> cinv c -> client_closed c = false -> 0 < num_clients x ->
  sent_allowed c len = true ->
  exists code x', client_sent_func lw sync x len = Some (code, x') /\ result false x x' /\ code_ok code x'.
Proof using.
  intros Hx Hk Hi Hc Hn Hall. unfold sent_allowed in Hall. repeat (apply andb_true_iff in Hall as [Hall ?]).
  pose proof Hi as [Hf Hside Hse Hso]. rewrite Hc in Hside. pose proof (cinv_mid c Hi Hc) as Hm.
  assert (socks_up c = true) as Hu by (rewrite (op_sent c Hside) in *; done).
  pose proof (op_in c Hside) as Hin. rewrite Hu in Hin. destruct Hin as [[Hct Hct'] Hio].
  unfold client_sent_func. rewrite Hx. cbv beta iota.
  change (client_closed (set_pcb c _)) with (client_closed c). change (socks_up (set_pcb c _)) with (socks_up c).
  change (rh (set_pcb c _)) with (rh c). change (socks_closed (set_pcb c _)) with (socks_closed c). rewrite Hc, Hu. cbn [negb].
  rewrite (proj2 (Z.gtb_lt _ _)), (proj2 (Z.leb_le _ _)) by lia. cbv zeta.
  cbn [socks_recv_buf_used socks_recv_buf_sent socks_recv_waiting socks_recv_tcp_pending socks_recv_buf].
  set (c1 := set_rh _ (mkRecv _ _ _ (socks_recv_waiting (rh c)) _)).
  assert (flows c1) as Hf1 by (destruct Hf; by split).
  assert (open_base c1) as Hb1 by (destruct Hside; by split).
  assert (counted c1) as Hc1 by (unfold counted; cbn; lia).
  destruct (used c >? 0) eqn:Eu0.
  - destruct Hio as [[? _]|[[Hr [Hr8 Hrc]] [Hw Hpp]]]; [lia|]. rewrite Hw. rewrite (proj2 (Z.ltb_lt _ _)) by lia.
    set (c2 := set_rh (set_pcb c _) (mkRecv _ _ _ false _)).
    assert (sending_out c2) as Hs2.
    { split; try done; [|cbn; lia]. destruct Hm. split; try done. by destruct Hf1. }
    assert (open_base c2) as Hb2 by (destruct Hb1; by split).
    destruct (send_out_ok lw (upd (upd x c1) c2) c2) as (ab & x' & Hx' & Hres); try done; [cbn; lia..|].
    rewrite Hx'. destruct ab.
    + destruct Hres as [Hres Hkx]. exists ERR_ABRT, x'. split; [done|]. split; [by repeat apply result_upd in Hres|]. done.
    + destruct Hres as (k & r & -> & Hwo). change (cl (upd (upd (upd x c1) c2) (set_rh (adv c2 k) r))) with (Some (set_rh (adv c2 k) r)).
      cbv beta iota. pose proof (written_out_inv c2 k r Hs2 Hb2 Hwo) as Hi3. destruct Hwo as (Hk1 & Hk2 & Hk3 & Hk4 & Hk5).
      change (pending (set_rh (adv c2 k) r)) with (socks_recv_tcp_pending r). rewrite (proj2 (Z.gtb_lt _ _)) by lia.
      change (used (set_rh (adv c2 k) r)) with (socks_recv_buf_used r). change (socks_closed (set_rh (adv c2 k) r)) with (socks_closed c).
      change (socks_closed c2) with (socks_closed c) in Hi3.
      assert (recv_op (sk c) = false) as Hro.
      { rewrite (op_op c Hside). destruct (Z.eqb_spec (used c) (-1)); [lia|]. by rewrite andb_false_r. }
      rewrite andb_comm. destruct (negb (socks_closed c) && (socks_recv_buf_used r =? -1)) eqn:Ed.
      * apply andb_true_iff in Ed as [Es Eu1]. apply negb_true_iff in Es. apply Z.eqb_eq in Eu1.
        rewrite (recv_initiate_ok _ (set_rh (adv c2 k) r)) by done.
        destruct (sync_ok sync (upd (upd (upd (upd x c1) c2) (set_rh (adv c2 k) r)) (set_recv_op (set_rh (adv c2 k) r) true))
          (set_recv_op (set_rh (adv c2 k) r) true)) as (x' & -> & Hr' & Hcode); try done.
        assert (result false x x') as Hr2 by (apply result_unkill in Hr'; [by repeat apply result_upd in Hr'|done]).
        destruct (killed x'); eexists _, x'; (split; [done|]); by split.
      * assert (set_recv_op (set_rh (adv c2 k) r) false = set_rh (adv c2 k) r) as Heq.
        { unfold set_recv_op, set_sk. cbn. rewrite <- Hro. destruct c as [? ? ? ? ? ? ? ? []]. done. }
        rewrite Heq in Hi3. eexists _, _. split; [done|]. split; [|split; [done|intros _; by eexists]].
        right. eexists. split; [done|]. split; [exact Hi3|by right].
  - assert (idle c) as Hid by (destruct Hio as [?|[[? _] _]]; [done|lia]). destruct Hid as [Hi1 Hi2].
    destruct (socks_closed c && (pending c - len =? 0)) eqn:Ed.
    + apply andb_true_iff in Ed as [Es Ep]. apply Z.eqb_eq in Ep.
      destruct (free_client_ok lw (upd x c1) c1) as (x' & -> & Hr & Hkx); try done.
      * destruct Hm. split; done.
      * right. split; [done|]. split; [done|]. cbn. lia.
      * exists ERR_ABRT, x'. split; [done|]. split; [by eapply result_upd|done].
    + eexists _, _. split; [done|]. split; [|split; [done|intros _; by eexists]].
      right. exists c1. split; [done|]. split; [|by right]. split; [done| |exact Hse|exact Hso].
      cbn. rewrite Hc. destruct Hside as [O1 O2 O3 O4 O5 O6 O7 O8 O9]. split; try done.
      * cbn. rewrite Hu. split; [exact Hc1|]. left. done.
      * cbn. intros Es. rewrite Es in *. cbn [andb] in Ed. apply Z.eqb_neq in Ed. destruct (O9 eq_refl) as (? & ? & _).
        split; [done|]. split; [done|]. lia.
Qed.

Lemma err_func_ok lw x c :
  cl x = Some (set_pcb c (set_st (pcb c) P_failed)) -> cinv c -> client_closed c = false -> 0 < num_clients x ->
  exists x', client_err_func lw x = Some x' /\ result false x x'.
Proof using.
  intros Hx Hi Hc Hn. unfold client_err_func. rewrite Hx. change (client_closed (set_pcb c _)) with (client_closed c). rewrite Hc. cbn [negb].
  assert (lost (set_pcb c (set_st (pcb c) P_failed))) as Hl.
  { apply lost_intro; [by apply cinv_mid|done|done|]. left. unfold peer_end. cbn. by rewrite !orb_true_r. }
  destruct (handle_freed_ok 2 lw x _ Hx Hl Hn) as (x' & Hx' & Hr & _). by exists x'.
Qed.

(** ** All clients *)

Record winv (w : world) : Prop := {
  wi_nodup : NoDup (w_list w);
  wi_num : w_num w = zlen (w_list w);
  wi_dom : forall p, p ∈ w_list w <-> is_Some (w_heap w !! p);
  wi_next : forall p, p ∈ w_list w -> p < w_next w;
  wi_clients : forall p c, w_heap w !! p = Some c -> cinv c;
  wi_gone : Forall done_ok (w_gone w)
}.

(** What a handler of client [p] leaves of the world it started in. *)
Lemma leave_inv w p x' b :
  winv w -> p ∈ w_list w -> result b (enter w p) x' -> winv (leave w x').
Proof using.
  intros [W1 W2 W3 W4 W5 W6] Hp [[[F1 F2 F3 F4 (d & F5 & Hd)] _]|(c & [K1 K2 K3 K4 K5] & Hi & _)].
  - cbn in F2, F3, F4, F5. unfold leave. rewrite F1, F2, F3, F4, F5. split; cbn.
    + by apply NoDup_list_remove.
    + rewrite length_list_remove by done. lia.
    + intros q. rewrite elem_list_remove, W3. destruct (decide (q = p)) as [->|Hq].
      * rewrite lookup_delete_eq. split; [tauto|]. intros []. done.
      * rewrite lookup_delete_ne by done. tauto.
    + intros q Hq. apply elem_list_remove in Hq as [Hq _]. by apply W4.
    + intros q c Hq. apply lookup_delete_Some in Hq as [_ Hq]. by eapply W5.
    + apply Forall_app. split; [done|]. by constructor.
  - cbn in K2, K3, K4, K5. unfold leave. rewrite K1, K2, K3, K4, K5. split; cbn; try done.
    + intros q. rewrite W3. destruct (decide (q = p)) as [->|Hq]; [|by rewrite lookup_insert_ne].
      rewrite lookup_insert_eq. split; [done|]. intros _. by apply W3.
    + intros q c' Hq. destruct (decide (q = p)) as [->|Hne].
      * rewrite lookup_insert_eq in Hq. by injection Hq as <-.
      * rewrite lookup_insert_ne in Hq by done. by eapply W5.
Qed.

Lemma client_in w p c : winv w -> w_heap w !! p = Some c -> p ∈ w_list w /\ 0 < w_num w /\ cinv c.
Proof using.
  intros Hw Hp. assert (p ∈ w_list w) as Hin by (apply (wi_dom w Hw); by exists c). split; [done|].
  split; [|by eapply wi_clients]. rewrite (wi_num w Hw). destruct (w_list w); [inversion Hin|]. rewrite zlen_cons.
  pose proof (zlen_nonneg l). lia.
Qed.

Lemma dest_okb_ok a : dest_okb a = true -> dest_ok a.
Proof using. destruct a; cbn; [done|done|lia]. Qed.

Lemma accept_ok mem name_ok ok sync addr g w :
  winv w -> dest_ok addr -> zlen (fst g) = TCP_WND -> zlen (socks_recv_buf (snd g)) = CLIENT_SOCKS_RECV_BUF_SIZE ->
  exists code w', listener_accept_func mem name_ok ok sync addr g w = Some (code, w') /\ winv w' /\
    (code = ERR_OK -> exists c, w_heap w' !! w_next w = Some c /\ client_closed c = false).
Proof using.
  intros Hw Hd Hg1 Hg2. unfold listener_accept_func. destruct mem; [|by exists ERR_MEM, w]. destruct name_ok; [|by exists ERR_MEM, w].
  cbn [negb]. destruct ok; [|rewrite sp_new_fails by done; by exists ERR_MEM, w].
  destruct (sp_new_ok addr Hd) as (s & -> & Hi). pose proof (zlen_nonneg (w_list w)) as Hnn.
  assert ((w_num w >=? 0) = true) as -> by (rewrite (wi_num w Hw); lia).
  unfold tcp_err, tcp_recv, pcb_open. cbn [fresh_pcb set_callbacks pcb_st cb_err cb_recv cb_sent].
  rewrite bool_decide_true by done. cbn [set_callbacks pcb_st]. rewrite bool_decide_true by done.
  set (c := mkClient _ _ _ _ _ _ _ _ _). set (p := w_next w).
  assert (cinv c) as Hc.
  { split; [by split| |done|done].
    cbn. split; cbn; try done. }
  set (w1 := mkWorld (w_num w + 1) (w_list w ++ [p]) (<[p := c]> (w_heap w)) (w_next w + 1) (w_gone w)).
  assert (w_heap w !! p = None) as Hnone.
  { destruct (w_heap w !! p) eqn:Hh; [|done]. assert (p ∈ w_list w) as Hin by (apply (wi_dom w Hw); by eexists).
    apply (wi_next w Hw) in Hin. unfold p in Hin. lia. }
  assert (winv w1) as Hw1.
  { destruct Hw as [W1 W2 W3 W4 W5 W6]. split; cbn; try done.
    - apply list.NoDup_app. split; [done|]. split; [|apply NoDup_singleton]. intros q Hq Hqp. apply list_elem_of_singleton in Hqp as ->.
      apply W4 in Hq. unfold p in Hq. lia.
    - rewrite zlen_app. change (zlen [p]) with 1. lia.
    - intros q. rewrite elem_of_app, list_elem_of_singleton, W3. destruct (decide (q = p)) as [->|Hq].
      + rewrite lookup_insert_eq. split; [done|]. intros _. by right.
      + rewrite lookup_insert_ne by done. tauto.
    - intros q Hq. apply elem_of_app in Hq as [Hq|Hq%list_elem_of_singleton]; [apply W4 in Hq|subst q; unfold p]; lia.
    - intros q c' Hq. destruct (decide (q = p)) as [->|Hne].
      + rewrite lookup_insert_eq in Hq. by injection Hq as <-.
      + rewrite lookup_insert_ne in Hq by done. by eapply W5. }
  assert (enter w1 p = mkCtx (w_num w + 1) (w_list w ++ [p]) p (Some c) false (w_gone w)) as Hent.
  { unfold enter, w1. cbn. by rewrite lookup_insert_eq. }
  rewrite <- Hent. destruct (sync_ok sync (enter w1 p) c) as (x' & -> & Hr & Hcode); try done; [by rewrite Hent|rewrite Hent; cbn; rewrite (wi_num w Hw); lia|].
  apply result_unkill in Hr; [|by rewrite Hent].
  assert (leave (mkWorld (w_num w) (w_list w) (w_heap w) (p + 1) (w_gone w)) x' = leave w1 x') as Hlv.
  { assert (self x' = p) as Hself by (destruct Hr as [[[] _]|(? & [] & _)]; cbn in *; congruence).
    unfold leave, w1. cbn. rewrite Hself. f_equal. destruct (cl x'); [by rewrite insert_insert_eq|].
    rewrite delete_insert_eq. done. }
  rewrite Hlv. eexists _, _. split; [done|]. split; [eapply (leave_inv w1 p); [done| |done]; cbn; apply elem_of_app; right; by apply list_elem_of_singleton|].
  intros Hok. destruct Hcode as [_ Hcode]. destruct (Hcode Hok) as (c' & Hc' & Hcl'). exists c'. split; [|done].
  unfold leave. cbn. rewrite Hc'. assert (self x' = p) as -> by (destruct Hr as [[[] _]|(? & [] & _)]; cbn in *; congruence).
  by rewrite lookup_insert_eq.
Qed.

Lemma open_pcb c : cinv c -> pcb_open (pcb c) = true -> client_closed c = false.
Proof using.
  intros [_ Hs _ _] Ho. apply bool_decide_eq_true in Ho. destruct (client_closed c); [|done]. by destruct (cs_pcb c Hs).
Qed.

Lemma recv_exec_ok w p c lw sync d :
  winv w -> w_heap w !! p = Some c -> recv_allowed c d = true ->
  exists code fr w', recv_exec w p lw sync d = Some (code, fr, w') /\ winv w' /\ code <> ERR_MEM /\ (code = ERR_OK -> fr = true) /\
    (code = ERR_OK -> exists c', w_heap w' !! p = Some c' /\ client_closed c' = false).
Proof using.
  intros Hw Hp Ha. destruct (client_in w p c Hw Hp) as (Hin & Hn & Hi). unfold recv_exec. rewrite Hp.
  assert (client_closed c = false) as Hc by (apply open_pcb; [done|]; unfold recv_allowed in Ha; by destruct (pcb_open (pcb c))).
  destruct (recv_func_ok lw sync (upd (enter w p) (set_pcb c (pcb_deliver (pcb c) d))) c d) as (code & fr & x' & -> & Hr & [Hm Hcode] & Hfr);
    try done.
  apply result_upd in Hr. exists code, fr, (leave w x').
  assert ((match code with ERR_MEM => w | _ => leave w x' end) = leave w x') as -> by by destruct code.
  split; [done|]. split; [by eapply leave_inv|]. split; [done|]. split; [done|]. intros Hok. destruct (Hcode Hok) as (c' & Hc' & Hcl').
  exists c'. split; [|done]. unfold leave. cbn. rewrite Hc'.
  assert (self x' = p) as -> by (destruct Hr as [[[] _]|(? & [] & _)]; cbn in *; congruence). by rewrite lookup_insert_eq.
Qed.

Lemma sent_exec_ok w p c lw sync len :
  winv w -> w_heap w !! p = Some c -> sent_allowed c len = true ->
  exists code w', sent_exec w p lw sync len = Some (code, w') /\ winv w' /\
    (code = ERR_OK -> exists c', w_heap w' !! p = Some c' /\ client_closed c' = false).
Proof using.
  intros Hw Hp Ha. destruct (client_in w p c Hw Hp) as (Hin & Hn & Hi). unfold sent_exec. rewrite Hp.
  assert (client_closed c = false) as Hc by (apply open_pcb; [done|]; unfold sent_allowed in Ha; by destruct (pcb_open (pcb c))).
  destruct (sent_func_ok lw sync (upd (enter w p) (set_pcb c (pcb_ack (pcb c) len))) c len) as (code & x' & -> & Hr & [Hm Hcode]); try done.
  apply result_upd in Hr. exists code, (leave w x'). split; [done|]. split; [by eapply leave_inv|]. intros Hok.
  destruct (Hcode Hok) as (c' & Hc' & Hcl'). exists c'. split; [|done]. unfold leave. cbn. rewrite Hc'.
  assert (self x' = p) as -> by (destruct Hr as [[[] _]|(? & [] & _)]; cbn in *; congruence). by rewrite lookup_insert_eq.
Qed.

Lemma world_step w e : winv w -> world_enabled w e = true -> exists w', world_exec w e = Some w' /\ winv w'.
Proof using.
  intros Hw He. destruct e as [mem nm ok sync addr g|p lw sync d|p lw sync len|p lw|p lw e]; cbn [world_exec world_enabled] in *.
  - repeat (apply andb_true_iff in He as [He ?]).
    destruct (accept_ok mem nm ok sync addr g w Hw (dest_okb_ok _ He)) as (code & w' & -> & Hw' & _); [lia|lia|]. by exists w'.
  - destruct (w_heap w !! p) as [c|] eqn:Hp; [|done].
    destruct (recv_exec_ok w p c lw sync d Hw Hp He) as (code & fr & w' & -> & Hw' & _). by exists w'.
  - destruct (w_heap w !! p) as [c|] eqn:Hp; [|done].
    destruct (sent_exec_ok w p c lw sync len Hw Hp He) as (code & w' & -> & Hw' & _). by exists w'.
  - destruct (w_heap w !! p) as [c|] eqn:Hp; [|done]. apply andb_true_iff in He as [Ho _].
    destruct (client_in w p c Hw Hp) as (Hin & Hn & Hi). unfold err_exec. rewrite Hp.
    destruct (err_func_ok lw (upd (enter w p) (set_pcb c (set_st (pcb c) P_failed))) c) as (x' & -> & Hr); try done; [by apply open_pcb|].
    exists (leave w x'). split; [done|]. eapply leave_inv; [done|done|]. by eapply result_upd.
  - unfold sock_enabled in He. cbn [enter cl] in He. destruct (w_heap w !! p) as [c|] eqn:Hp; [|done].
    destruct (client_in w p c Hw Hp) as (Hin & Hn & Hi).
    destruct (sock_step lw (enter w p) c e) as (x' & -> & Hr); try done; [unfold sock_enabled; cbn; by rewrite Hp|].
    exists (leave w x'). split; [done|]. by eapply leave_inv.
Qed.

Lemma world_run_ok evs : forall w, winv w -> exists w', world_run w evs = Some w' /\ winv w'.
Proof using.
  induction evs as [|e evs IH]; intros w Hw; cbn [world_run]; [by exists w|].
  destruct (world_enabled w e) eqn:He; [|by apply IH]. destruct (world_step w e Hw He) as (w1 & -> & Hw1). by apply IH.
Qed.

Lemma world0_ok : winv world0.
Proof using.
  split; cbn; try done; [constructor|..].
  - intros p. rewrite lookup_empty. split; [intros Hx; inversion Hx|intros []; done].
  - intros p Hp. inversion Hp.
Qed.

(** ** The end *)

Definition no_gone (w : world) : world := mkWorld (w_num w) (w_list w) (w_heap w) (w_next w) [].

Lemma murder_step w p :
  winv (no_gone w) -> p ∈ w_list w ->
  exists x', client_murder (enter w p) = Some x' /\ winv (no_gone (leave w x')) /\ w_list (leave w x') = list_remove p (w_list w).
Proof using.
  intros Hw Hp. assert (is_Some (w_heap w !! p)) as [c Hc] by by apply (wi_dom _ Hw).
  destruct (client_in (no_gone w) p c Hw Hc) as (_ & Hn & Hi). cbn in Hn.
  assert (exists x', client_murder (enter w p) = Some x' /\ cl x' = None /\ num_clients x' = w_num w - 1 /\
    tcp_clients x' = list_remove p (w_list w) /\ self x' = p) as (x' & Hx & X1 & X2 & X3 & X4).
  { unfold client_murder. change (cl (enter w p)) with (w_heap w !! p). rewrite Hc.
    set (c1 := if client_closed c then c else set_client_closed (set_pcb c (close_pcb false (pcb c)))).
    set (x1 := if client_closed c then enter w p else set_killed (enter w p) true).
    destruct Hi as [_ Hside _ Hso].
    assert ((if negb (client_closed c) then let* pb := remove_callbacks (pcb c) in let* pb := tcp_abort pb in
      Some (set_client_closed (set_pcb c pb), set_killed (enter w p) true) else Some (c, enter w p)) = Some (c1, x1)) as Heq.
    { unfold c1, x1. destruct (client_closed c); [done|]. cbn [negb]. rewrite remove_callbacks_ok, tcp_abort_ok by apply Hside. done. }
    rewrite Heq. assert (socks_closed c1 = socks_closed c /\ socks_client c1 = socks_client c /\ client_closed c1 = true) as (E1 & E2 & E3).
    { unfold c1. by destruct (client_closed c) eqn:?. }
    rewrite E1, E2. assert (exists c2, (if negb (socks_closed c) then let* s := sp_free (socks_client c) in Some (set_socks c1 s (socks_up c1) true)
      else Some c1) = Some c2 /\ client_closed c2 = true /\ socks_closed c2 = true) as (c2 & -> & E4 & E5).
    { destruct (socks_closed c) eqn:Es; cbn [negb]; [by exists c1|]. destruct (Hso eq_refl) as [_ Hsi].
      destruct (sp_free_ok _ _ Hsi) as [s ->]. by eexists. }
    unfold client_dealloc. change (cl (upd x1 c2)) with (Some c2). cbv beta iota. rewrite E4, E5.
    assert (num_clients x1 = w_num w /\ tcp_clients x1 = w_list w /\ self x1 = p) as (N1 & N2 & N3) by (unfold x1; by destruct (client_closed c)).
    change (num_clients (upd x1 c2)) with (num_clients x1). rewrite N1. rewrite (proj2 (Z.gtb_lt _ _)) by done.
    eexists. split; [done|]. cbn [num_clients tcp_clients self cl upd]. by rewrite N2, N3. }
  exists x'. split; [done|]. destruct Hw as [W1 W2 W3 W4 W5 W6]. cbn in *. split; [|by unfold leave; cbn].
  unfold leave, no_gone. cbn. rewrite X1, X2, X3, X4. split; cbn; try done.
  - by apply NoDup_list_remove.
  - rewrite length_list_remove by done. lia.
  - intros q. rewrite elem_list_remove, W3. destruct (decide (q = p)) as [->|Hq].
    + rewrite lookup_delete_eq. split; [tauto|]. intros []. done.
    + rewrite lookup_delete_ne by done. tauto.
  - intros q Hq. apply elem_list_remove in Hq as [Hq _]. by apply W4.
  - intros q c' Hq. apply lookup_delete_Some in Hq as [_ Hq]. by eapply W5.
Qed.

Lemma murder_loop_ok n : forall w, winv (no_gone w) -> length (w_list w) = n ->
  exists w', murder_loop n w = Some w' /\ w_list w' = [] /\ w_heap w' = ∅ /\ w_num w' = 0.
Proof using.
  induction n as [|n IH]; intros w Hw Hn; cbn [murder_loop]; destruct (w_list w) as [|p l] eqn:El; try done.
  - exists w. split; [done|]. split; [done|]. destruct Hw as [W1 W2 W3 W4 W5 W6]. cbn in *. rewrite El in *. split; [|done].
    apply map_eq. intros q. rewrite lookup_empty. destruct (w_heap w !! q) eqn:Hq; [|done].
    assert (q ∈ @nil Z) as Hx by (apply W3; by eexists). inversion Hx.
  - destruct (murder_step w p Hw) as (x' & -> & Hw' & Hl); [rewrite El; constructor|]. apply IH; [done|].
    rewrite Hl, El. pose proof (length_list_remove p (p :: l)) as Hlen. pose proof (wi_nodup _ Hw) as Hnd. cbn in Hnd. rewrite El in Hnd.
    specialize (Hlen Hnd ltac:(constructor)). unfold zlen in Hlen. cbn [length] in *. lia.
Qed.

(** ** Properties *)

(** C9. Whatever connections are accepted and whatever lwIP and the SOCKS
    clients do, in any interleaving and with any failures: no assertion of the
    TCP relay fails, no freed client and no closed pcb is touched, the list, the
    counter and the allocated clients agree; and when the program ends the loop
    over the clients frees them all. *)
Theorem tcp_clients_safe evs :
  exists w, world_run world0 evs = Some w /\ NoDup (w_list w) /\ w_num w = zlen (w_list w) /\
    (forall p, p ∈ w_list w <-> is_Some (w_heap w !! p)) /\
    exists w', free_clients w = Some w' /\ w_list w' = [] /\ w_heap w' = ∅ /\ w_num w' = 0.
Proof using.
  destruct (world_run_ok evs world0 world0_ok) as (w & Hr & Hw). exists w. split; [done|]. split; [apply Hw|]. split; [apply Hw|].
  split; [apply Hw|]. apply murder_loop_ok; [|done]. destruct Hw. by split.
Qed.

(** C1. The relay loses, reorders and invents no bytes. While a client lives, what
    the peer sent is what SOCKS has taken followed by the buffer, and what was
    written to the peer is a prefix of what SOCKS sent, followed by the unsent
    part. A client disappears only after one side has ended; what the peer sent
    has then been passed on completely unless SOCKS ended (by an error or by an
    orderly close), and what SOCKS sent has been passed on and confirmed completely
    unless the peer ended (by an orderly close too) or the connection was aborted. *)
Theorem tcp_relay_bytes evs w :
  world_run world0 evs = Some w ->
  (forall p c, w_heap w !! p = Some c ->
     delivered (pcb c) = sent_log (sk c) ++ slice 0 (buf_used c) (buf c) /\
     (client_closed c = false -> socks_up c = true ->
        rcvd_log (sk c) = written (pcb c) ++
          (if used c =? -1 then [] else slice (rsent c) (used c - rsent c) (socks_recv_buf (rh c)))) /\
     written (pcb c) `prefix_of` rcvd_log (sk c)) /\
  (forall c, c ∈ w_gone w ->
     (sock_failed (sk c) = true \/ peer_end c = true) /\
     (sock_failed (sk c) = false -> sent_log (sk c) = delivered (pcb c)) /\
     (peer_end c = false -> written (pcb c) = rcvd_log (sk c) /\ acked (pcb c) = zlen (written (pcb c)))).
Proof using.
  intros Hr. destruct (world_run_ok evs world0 world0_ok) as (w' & Hr' & Hw). assert (w' = w) as -> by congruence. split.
  - intros p c Hp. pose proof (wi_clients w Hw p c Hp) as [Hf Hside _ _]. split; [apply Hf|]. split; [|apply Hf].
    intros Hc Hu. rewrite Hc in Hside. pose proof (op_in c Hside) as Hin. rewrite Hu in Hin.
    destruct Hin as [_ [[-> ->]|[(Hran & _ & Hrc) _]]]; [by rewrite app_nil_r|]. rewrite (proj2 (Z.eqb_neq _ _)) by lia. done.
  - intros c Hc. pose proof (wi_gone w Hw) as Hg. rewrite List.Forall_forall in Hg. apply list_elem_of_In in Hc.
    destruct (Hg c Hc) as [Hf D1 D2 D3]. split; [done|]. split; [|done]. intros Hnf. rewrite (fl_out c Hf), (D2 Hnf). by rewrite app_nil_r.
Qed.

(** C38. No client is stuck: data for the SOCKS server is being sent whenever SOCKS
    is up; with both sides open a receive from SOCKS is in progress, or written
    bytes are unconfirmed and their confirmation continues the transfer; a
    client whose peer is gone still has data to send, and one whose SOCKS side
    is gone has unwritten or unconfirmed data. *)
Theorem tcp_relay_progress evs w p c :
  world_run world0 evs = Some w -> w_heap w !! p = Some c ->
  (socks_up c = true -> socks_closed c = false -> 0 < buf_used c -> exists m, send_op (sk c) = Some m /\ 0 < m <= buf_used c) /\
  (client_closed c = false -> socks_up c = true -> socks_closed c = false ->
     recv_op (sk c) = true \/ (0 < zlen (written (pcb c)) - acked (pcb c) /\ cb_sent (pcb c) = true)) /\
  (client_closed c = true -> 0 < buf_used c /\ socks_closed c = false) /\
  (socks_closed c = true -> client_closed c = false /\ cb_sent (pcb c) = true /\ 0 < zlen (written (pcb c)) - acked (pcb c)).
Proof using.
  intros Hr Hp. destruct (world_run_ok evs world0 world0_ok) as (w' & Hr' & Hw). assert (w' = w) as -> by congruence.
  pose proof (wi_clients w Hw p c Hp) as [Hf Hside Hse Hso]. split; [|split; [|split]].
  - intros Hu Hs Hb. destruct (send_op (sk c)) as [m|]; [destruct Hse as (_ & _ & ?); by exists m|].
    rewrite Hu, Hs in Hse. cbn in Hse. lia.
  - intros Hc Hu Hs. rewrite Hc in Hside. rewrite (op_op c Hside), (op_sent c Hside), Hu, Hs. cbn.
    pose proof (op_in c Hside) as Hin. rewrite Hu in Hin. destruct Hin as [[H1 _] [[-> _]|[_ [_ H2]]]]; [by left|]. right. split; [lia|done].
  - intros Hc. rewrite Hc in Hside. split; apply Hside.
  - intros Hs. destruct (client_closed c) eqn:Hc; [destruct Hside; congruence|]. split; [done|].
    destruct (op_drain c Hside Hs) as (_ & Hu & Hd). rewrite (op_sent c Hside). split; [done|].
    pose proof (op_in c Hside) as Hin. rewrite Hu in Hin. destruct Hin as [[H1 _] [[H2 _]|[_ [_ H2]]]]; lia.
Qed.

(** The receive window is exact: the bytes delivered and not confirmed are
    those in the buffer. So data that lwIP may deliver always fits and is never
    refused, the pbuf is freed when it is accepted, and unless an abort is
    reported the pcb is still open when the callback returns. *)
Theorem tcp_window_exact evs w p c lw sync d :
  world_run world0 evs = Some w -> w_heap w !! p = Some c -> recv_allowed c d = true ->
  zlen (delivered (pcb c)) - recved (pcb c) = buf_used c /\ 0 <= buf_used c <= TCP_WND /\
  exists code fr w', recv_exec w p lw sync d = Some (code, fr, w') /\ code <> ERR_MEM /\
    (code = ERR_OK -> fr = true /\ exists c', w_heap w' !! p = Some c' /\ client_closed c' = false).
Proof using.
  intros Hr Hp Ha. destruct (world_run_ok evs world0 world0_ok) as (w' & Hr' & Hw). assert (w' = w) as -> by congruence.
  pose proof (wi_clients w Hw p c Hp) as Hi.
  assert (client_closed c = false) as Hc by (apply open_pcb; [done|]; unfold recv_allowed in Ha; by destruct (pcb_open (pcb c))).
  split; [by apply window_used|]. split; [by destruct (fl_buf c (ci_flows c Hi))|].
  destruct (recv_exec_ok w p c lw sync d Hw Hp Ha) as (code & fr & w1 & Hx & _ & H1 & H2 & H3). exists code, fr, w1.
  split; [done|]. split; [done|]. intros Hok. split; [by apply H2|by apply H3].
Qed.

End TcpClient.

(** ** Witnesses: the SOCKS client is BSocksClient *)

#[local] Existing Instance ex_port.

Definition ex_lw : lwip := mkLwip true (fun _ => 3) (fun _ => W_OK) true.
Definition ex_garbage : list Z * recv_half :=
  (replicate (Z.to_nat TCP_WND) 7, mkRecv (replicate (Z.to_nat CLIENT_SOCKS_RECV_BUF_SIZE) 7) 7 7 true 7).
Definition ex_accept : world_ev (E := socks_ev) := WE_accept true true true [] ex_dest ex_garbage.
(** A connection is accepted and its SOCKS client comes up. *)
Definition ex_connect : list (world_ev (E := socks_ev)) := ex_accept :: map (fun e => WE_sock 0 ex_lw (SK_socks e)) ex_socks_events.
(** Data goes both ways; the server closes; the confirmations end the client. *)
Definition ex_relay : list (world_ev (E := socks_ev)) :=
  [WE_recv 0 ex_lw [(ex_lw, SK_sent 2)] (Some [[1; 2]; [3]]); WE_sock 0 ex_lw (SK_recv [4; 5; 6; 7]); WE_sock 0 ex_lw (SK_sent 1);
   WE_sent 0 ex_lw [] 3; WE_sock 0 ex_lw (SK_socks (SE_connection true)); WE_sent 0 ex_lw [] 1].

Definition or_world0 (o : option (world (S := BSocksClient))) : world (S := BSocksClient) := match o with Some w => w | None => world0 end.
Definition ex_w1 := or_world0 (world_run world0 ex_connect).
Definition ex_w2 := or_world0 (world_run world0 (ex_connect ++ take 2 ex_relay)).
Definition ex_w3 := or_world0 (world_run world0 (ex_connect ++ ex_relay)).

(** What is seen of a client. *)
Definition view (c : tcp_client (S := BSocksClient)) :=
  (delivered (pcb c), sent_log (sk c), rcvd_log (sk c), written (pcb c), buf_used c).

Lemma tcp_relay_bytes_witness :
  world_run world0 (ex_connect ++ ex_relay) = Some ex_w3 /\
  map view (w_gone ex_w3) = [([1; 2; 3], [1; 2; 3], [4; 5; 6; 7], [4; 5; 6; 7], 0)] /\
  (forall c, c ∈ w_gone ex_w3 -> peer_end c = false -> written (pcb c) = rcvd_log (sk c)).
Proof.
  assert (world_run world0 (ex_connect ++ ex_relay) = Some ex_w3) as Hr by (vm_compute; reflexivity).
  split; [exact Hr|]. split; [vm_compute; reflexivity|]. intros c Hc Hp.
  destruct (tcp_relay_bytes (ex_connect ++ ex_relay) ex_w3 Hr) as [_ H]. exact (proj1 (proj2 (proj2 (H c Hc)) Hp)).
Defined.

Lemma tcp_relay_progress_witness :
  exists c, world_run world0 (ex_connect ++ take 2 ex_relay) = Some ex_w2 /\ w_heap ex_w2 !! 0 = Some c /\
    view c = ([1; 2; 3], [1; 2], [4; 5; 6; 7], [4; 5; 6; 7], 1) /\ (exists m, send_op (sk c) = Some m /\ 0 < m <= buf_used c).
Proof.
  assert (world_run world0 (ex_connect ++ take 2 ex_relay) = Some ex_w2) as Hr by (vm_compute; reflexivity).
  destruct (w_heap ex_w2 !! 0) as [c|] eqn:Hc; [|exfalso; revert Hc; vm_compute; congruence].
  destruct (tcp_relay_progress (ex_connect ++ take 2 ex_relay) ex_w2 0 c Hr Hc) as [H _].
  assert (view c = ([1; 2; 3], [1; 2], [4; 5; 6; 7], [4; 5; 6; 7], 1) /\ socks_up c = true /\ socks_closed c = false) as (H1 & H2 & H3).
  { clear H Hr. revert Hc. vm_compute. intros [= <-]. split; [reflexivity|]. split; reflexivity. }
  exists c. split; [exact Hr|]. split; [reflexivity|]. split; [exact H1|]. apply H; [exact H2|exact H3|].
  injection H1 as _ _ _ _ ->. lia.
Defined.

Lemma tcp_window_exact_witness :
  exists c code fr w', w_heap ex_w2 !! 0 = Some c /\ recv_allowed c (Some [[8; 9]]) = true /\
    recv_exec ex_w2 0 ex_lw [] (Some [[8; 9]]) = Some (code, fr, w') /\ code <> ERR_MEM.
Proof.
  assert (world_run world0 (ex_connect ++ take 2 ex_relay) = Some ex_w2) as Hr by (vm_compute; reflexivity).
  destruct (w_heap ex_w2 !! 0) as [c|] eqn:Hc; [|exfalso; revert Hc; vm_compute; congruence].
  assert (recv_allowed c (Some [[8; 9]]) = true) as Ha by (clear Hr; revert Hc; vm_compute; intros [= <-]; reflexivity).
  destruct (tcp_window_exact (ex_connect ++ take 2 ex_relay) ex_w2 0 c ex_lw [] (Some [[8; 9]]) Hr Hc Ha) as (_ & _ & code & fr & w' & H1 & H2 & _).
  exists c, code, fr, w'. split; [reflexivity|]. split; [exact Ha|]. split; [exact H1|exact H2].
Defined.

(** A pbuf can be lost: data arrives, passing it on makes the SOCKS connection
    fail within the callback, and [client_recv_func] returns [ERR_ABRT] without
    having freed the pbuf (lwIP does not free it either then). *)
Theorem tcp_recv_pbuf_leak :
  exists w c sync d w', world_run world0 ex_connect = Some w /\ w_heap w !! 0 = Some c /\ recv_allowed c (Some d) = true /\
    recv_exec w 0 ex_lw sync (Some d) = Some (ERR_ABRT, false, w') /\ tot_len d = 3 /\ w_list w' = [].
Proof.
  destruct (w_heap ex_w1 !! 0) as [c|] eqn:Hc; [|exfalso; revert Hc; vm_compute; congruence].
  destruct (recv_exec ex_w1 0 ex_lw [(ex_lw, SK_socks (SE_connection false))] (Some [[1; 2; 3]])) as [[[code fr] w']|] eqn:Hx;
    [|exfalso; revert Hx; vm_compute; congruence].
  exists ex_w1, c, [(ex_lw, SK_socks (SE_connection false))], [[1; 2; 3]], w'. split; [vm_compute; reflexivity|]. split; [done|].
  split; [clear Hx; revert Hc; vm_compute; intros [= <-]; reflexivity|]. clear Hc.
  assert (code = ERR_ABRT /\ fr = false /\ w_list w' = []) as (-> & -> & Hl).
  { revert Hx. vm_compute. intros [= <- <- <-]. split; [reflexivity|]. split; reflexivity. }
  split; [exact Hx|]. split; [reflexivity|exact Hl].
Qed.
