(* ===== verification/BAVL.v ===== *)
(** * The AVL tree

    [structure/BAVL.h] (without [BAVL_COUNT]): the tree that [tun2socks.c] and
    [UdpGwClient.c] keep their connections in. Nodes live in memory and are
    linked by parent and child pointers; the values are looked up through a
    function from node addresses, and compared by the comparator of the tree.
    [None] is a link followed to a node that is not there, a failed assertion or a
    loop that did not end. The lemmas relate the memory to an abstract tree seen
    from a node on its path ([rep]): every operation keeps the links, and
    rebalancing restores the balance factors after a change of height. The
    theorems are in [BAVLSpec]. *)

From S2P Require Import Prelude.

(** ** Nodes and trees *)

Record BAVLNode := mkN { parent : option Z; link0 : option Z; link1 : option Z; balance : Z }.

(** [n->link[s]] *)
Definition link (n : BAVLNode) (s : bool) : option Z := if s then link1 n else link0 n.

Definition set_parent (v : option Z) (n : BAVLNode) : BAVLNode := mkN v (link0 n) (link1 n) (balance n).
Definition set_link (s : bool) (v : option Z) (n : BAVLNode) : BAVLNode :=
  if s then mkN (parent n) (link0 n) v (balance n) else mkN (parent n) v (link1 n) (balance n).
Definition set_balance (v : Z) (n : BAVLNode) : BAVLNode := mkN (parent n) (link0 n) (link1 n) v.

(** [nodes]: the memory of the nodes. *)
Record BAVL := mkT { root : option Z; nodes : gmap Z BAVLNode }.

Definition set_root (o : BAVL) (r : option Z) : BAVL := mkT r (nodes o).
Definition upd (o : BAVL) (p : Z) (f : BAVLNode -> BAVLNode) : option BAVL :=
  let* n := nodes o !! p in Some (mkT (root o) (<[p := f n]> (nodes o))).

(** [if (p) p->parent = v;] *)
Definition set_parent_opt (o : BAVL) (p : option Z) (v : option Z) : option BAVL :=
  match p with Some p => upd o p (set_parent v) | None => Some o end.

(** [if (p) p->link[child == p->link[1]] = v; else tree->root = v;] *)
Definition set_link_from_parent (o : BAVL) (p : option Z) (child : Z) (v : option Z) : option BAVL :=
  match p with
  | Some p => let* n := nodes o !! p in upd o p (set_link (bool_decide (link1 n = Some child)) v)
  | None => Some (set_root o v)
  end.

Definition BAVL_MAX (a b : Z) : Z := if a >? b then a else b.
Definition BAVL_OPTNEG (a : Z) (neg : bool) : Z := if neg then - a else a.

(** ** Operations *)

Definition BAVL_rotate (o : BAVL) (r : Z) (dir : bool) : option BAVL :=
  let* n := nodes o !! r in
  let* nr := link n (negb dir) in
  let* nn := nodes o !! nr in
  let c := link nn dir in
  let* o := upd o r (set_link (negb dir) c) in
  let* o := set_parent_opt o c (Some r) in
  let* o := upd o nr (set_link dir (Some r)) in
  let* n := nodes o !! r in
  let* o := upd o nr (set_parent (parent n)) in
  let* o := set_link_from_parent o (parent n) r (Some nr) in
  upd o r (set_parent (Some nr)).

(** The loops walk down or up a path: the number of nodes is enough fuel. *)
Definition fuel_of (o : BAVL) : nat := S (size (nodes o)).

Fixpoint subtree_end (fuel : nat) (s : bool) (o : BAVL) (n : Z) : option Z :=
  match fuel with
  | O => None
  | S fuel => let* nd := nodes o !! n in
              match link nd s with Some m => subtree_end fuel s o m | None => Some n end
  end.

Definition BAVL_subtree_max (o : BAVL) (n : Z) : option Z := subtree_end (fuel_of o) true o n.

Definition BAVL_replace_subtree (o : BAVL) (dest : Z) (n : option Z) : option BAVL :=
  let* d := nodes o !! dest in
  let* o := set_link_from_parent o (parent d) dest n in
  set_parent_opt o n (parent d).

(** The first branch, with [n1] above [n2]. *)
Definition swap_adjacent (o : BAVL) (n1 n2 : Z) : option BAVL :=
  let* d1 := nodes o !! n1 in
  let* d2 := nodes o !! n2 in
  let side := bool_decide (link1 d1 = Some n2) in
  let c := link d1 (negb side) in
  let* o := upd o n1 (set_link false (link0 d2)) in
  let* o := set_parent_opt o (link0 d2) (Some n1) in
  let* o := upd o n1 (set_link true (link1 d2)) in
  let* o := set_parent_opt o (link1 d2) (Some n1) in
  let* o := upd o n2 (set_parent (parent d1)) in
  let* o := set_link_from_parent o (parent d1) n1 (Some n2) in
  let* o := upd o n2 (set_link side (Some n1)) in
  let* o := upd o n1 (set_parent (Some n2)) in
  let* o := upd o n2 (set_link (negb side) c) in
  set_parent_opt o c (Some n2).

(** The second branch. *)
Definition swap_apart (o : BAVL) (n1 n2 : Z) : option BAVL :=
  let* d1 := nodes o !! n1 in
  let* d2 := nodes o !! n2 in
  let* o := upd o n1 (set_parent (parent d2)) in
  let* o := set_link_from_parent o (parent d2) n2 (Some n1) in
  let* o := upd o n2 (set_parent (parent d1)) in
  let* o := set_link_from_parent o (parent d1) n1 (Some n2) in
  let* d1 := nodes o !! n1 in
  let* d2 := nodes o !! n2 in
  let* o := upd o n1 (set_link false (link0 d2)) in
  let* o := set_parent_opt o (link0 d2) (Some n1) in
  let* o := upd o n2 (set_link false (link0 d1)) in
  let* o := set_parent_opt o (link0 d1) (Some n2) in
  let* d1 := nodes o !! n1 in
  let* d2 := nodes o !! n2 in
  let* o := upd o n1 (set_link true (link1 d2)) in
  let* o := set_parent_opt o (link1 d2) (Some n1) in
  let* o := upd o n2 (set_link true (link1 d1)) in
  set_parent_opt o (link1 d1) (Some n2).

Definition BAVL_swap_nodes (o : BAVL) (n1 n2 : Z) : option BAVL :=
  let* d1 := nodes o !! n1 in
  let* d2 := nodes o !! n2 in
  let* o := (if bool_decide (parent d2 = Some n1) || bool_decide (parent d1 = Some n2)
             then if bool_decide (parent d1 = Some n2) then swap_adjacent o n2 n1 else swap_adjacent o n1 n2
             else swap_apart o n1 n2) in
  let* o := upd o n1 (set_balance (balance d2)) in
  upd o n2 (set_balance (balance d1)).

Definition in_pm1 (z : Z) : bool := (-1 <=? z) && (z <=? 1).

(** The transformations: the new top of the subtree and the change of its height. *)
Definition rebalance_node (o : BAVL) (node : Z) (delta : Z) : option (BAVL * Z * Z) :=
  let* n := nodes o !! node in
  if (balance n =? 2) || (balance n =? -2) then
    let bside := balance n =? 2 in
    let bsidef := if bside then 1 else -1 in
    let* child := link n bside in
    let* cn := nodes o !! child in
    if balance cn * bsidef =? 1 then
      let* o := BAVL_rotate o node (negb bside) in
      let* o := upd o node (set_balance 0) in
      let* o := upd o child (set_balance 0) in
      Some (o, child, delta - 1)
    else if balance cn * bsidef =? 0 then
      let* o := BAVL_rotate o node (negb bside) in
      let* o := upd o node (set_balance (1 * bsidef)) in
      let* o := upd o child (set_balance (-1 * bsidef)) in
      Some (o, child, delta)
    else if balance cn * bsidef =? -1 then
      let* gchild := link cn (negb bside) in
      let* gn := nodes o !! gchild in
      let* o := BAVL_rotate o child bside in
      let* o := BAVL_rotate o node (negb bside) in
      let* o := upd o node (set_balance (- BAVL_MAX 0 (balance gn * bsidef) * bsidef)) in
      let* o := upd o child (set_balance (BAVL_MAX 0 (- balance gn * bsidef) * bsidef)) in
      let* o := upd o gchild (set_balance 0) in
      Some (o, gchild, delta - 1)
    else None
  else Some (o, node, delta).

Fixpoint BAVL_rebalance (fuel : nat) (o : BAVL) (node : Z) (side : bool) (deltac : Z) : option BAVL :=
  match fuel with
  | O => None
  | S fuel =>
      let* n := nodes o !! node in
      ASSERT (in_pm1 deltac) ;;
      ASSERT (in_pm1 (balance n)) ;;
      if deltac =? 0 then Some o
      else
        let delta := BAVL_MAX deltac (BAVL_OPTNEG (balance n) side) - BAVL_MAX 0 (BAVL_OPTNEG (balance n) side) in
        ASSERT (in_pm1 delta) ;;
        let* o := upd o node (set_balance (balance n - BAVL_OPTNEG deltac side)) in
        let* (o, node, delta) := rebalance_node o node delta in
        ASSERT (in_pm1 delta) ;;
        let* n := nodes o !! node in
        match parent n with
        | Some p => let* pn := nodes o !! p in BAVL_rebalance fuel o p (bool_decide (link1 pn = Some node)) delta
        | None => Some o
        end
  end.

(** From "have at most one child now" on. *)
Definition remove_node (o : BAVL) (node : Z) : option BAVL :=
  let* n := nodes o !! node in
  ASSERT (negb (bool_decide (is_Some (link0 n)) && bool_decide (is_Some (link1 n)))) ;;
  let child := (match link0 n with Some l => Some l | None => link1 n end) in
  match parent n with
  | Some p =>
      let* pn := nodes o !! p in
      let side := bool_decide (link1 pn = Some node) in
      let* o := BAVL_replace_subtree o node child in
      BAVL_rebalance (fuel_of o) o p side (-1)
  | None => BAVL_replace_subtree o node child
  end.

Definition BAVL_Remove (o : BAVL) (node : Z) : option BAVL :=
  let* n := nodes o !! node in
  let* o := (match link0 n, link1 n with
             | Some l, Some _ => let* max := BAVL_subtree_max o l in BAVL_swap_nodes o node max
             | _, _ => Some o
             end) in
  remove_node o node.

Definition BAVL_IsEmpty (o : BAVL) : bool := bool_decide (root o = None).

(** In the results of the following functions, [None] is a loop that did not end
    or a failed assertion; the inner option is the node or [NULL]. *)
Definition get_end (s : bool) (o : BAVL) : option (option Z) :=
  match root o with
  | None => Some None
  | Some c => let* n := subtree_end (fuel_of o) s o c in Some (Some n)
  end.
Definition BAVL_GetFirst (o : BAVL) : option (option Z) := get_end false o.
Definition BAVL_GetLast (o : BAVL) : option (option Z) := get_end true o.

(** [while (n->parent && n == n->parent->link[s]) n = n->parent; n = n->parent;] *)
Fixpoint climb (fuel : nat) (s : bool) (o : BAVL) (n : Z) : option (option Z) :=
  match fuel with
  | O => None
  | S fuel =>
      let* nd := nodes o !! n in
      match parent nd with
      | Some p => let* pn := nodes o !! p in
                  if bool_decide (link pn s = Some n) then climb fuel s o p else Some (Some p)
      | None => Some None
      end
  end.

Definition get_adjacent (s : bool) (o : BAVL) (n : Z) : option (option Z) :=
  let* nd := nodes o !! n in
  match link nd s with
  | Some m => let* e := subtree_end (fuel_of o) (negb s) o m in Some (Some e)
  | None => climb (fuel_of o) s o n
  end.
Definition BAVL_GetNext (o : BAVL) (n : Z) : option (option Z) := get_adjacent true o n.
Definition BAVL_GetPrev (o : BAVL) (n : Z) : option (option Z) := get_adjacent false o n.

Definition BAVL_Init (mem : gmap Z BAVLNode) : BAVL := mkT None mem.

Section Values.
Context {K : Type} (value : Z -> K) (comparator : K -> K -> Z).

Definition BAVL_compare_values (v1 v2 : K) : option Z :=
  let res := comparator v1 v2 in
  ASSERT ((res =? -1) || (res =? 0) || (res =? 1)) ;; Some res.
Definition BAVL_compare_nodes (n1 n2 : Z) : option Z := BAVL_compare_values (value n1) (value n2).

(** The node to insert to and the side, or the node that compares equal. *)
Fixpoint insert_find (fuel : nat) (o : BAVL) (node c : Z) : option (Z * option bool) :=
  match fuel with
  | O => None
  | S fuel =>
      let* n := nodes o !! c in
      let* comp := BAVL_compare_nodes node c in
      if comp =? 0 then Some (c, None)
      else let side := comp =? 1 in
           match link n side with
           | None => Some (c, Some side)
           | Some d => insert_find fuel o node d
           end
  end.

(** The result, [*ref] and the tree. *)
Definition BAVL_Insert (o : BAVL) (node : Z) : option (bool * option Z * BAVL) :=
  match root o with
  | None => Some (true, None, mkT (Some node) (<[node := mkN None None None 0]> (nodes o)))
  | Some c =>
      let* (c, r) := insert_find (fuel_of o) o node c in
      match r with
      | None => Some (false, Some c, o)
      | Some side =>
          let* o := upd o c (set_link side (Some node)) in
          let o := mkT (root o) (<[node := mkN (Some c) None None 0]> (nodes o)) in
          let* o := BAVL_rebalance (fuel_of o) o c side 1 in
          Some (true, Some c, o)
      end
  end.

Fixpoint lookup_loop (fuel : nat) (exact_ : bool) (o : BAVL) (val : K) (c : Z) : option (option Z) :=
  match fuel with
  | O => None
  | S fuel =>
      let* n := nodes o !! c in
      let* comp := BAVL_compare_values val (value c) in
      if comp =? 0 then Some (Some c)
      else match link n (comp =? 1) with
           | None => Some (if exact_ then None else Some c)
           | Some d => lookup_loop fuel exact_ o val d
           end
  end.

Definition BAVL_Lookup (o : BAVL) (val : K) : option (option Z) :=
  match root o with None => Some None | Some c => lookup_loop (fuel_of o) false o val c end.
Definition BAVL_LookupExact (o : BAVL) (val : K) : option (option Z) :=
  match root o with None => Some None | Some c => lookup_loop (fuel_of o) true o val c end.

(** [_BAVL_assert_recurser]: the height of the subtree, when the checks pass. *)
Fixpoint assert_recurser (fuel : nat) (o : BAVL) (n : Z) : option Z :=
  match fuel with
  | O => None
  | S fuel =>
      let* nd := nodes o !! n in
      ASSERT (in_pm1 (balance nd)) ;;
      let check_child (s : bool) (res : Z) :=
        (match link nd s with
         | None => Some 0
         | Some m => let* md := nodes o !! m in
                     ASSERT (bool_decide (parent md = Some n)) ;;
                     let* comp := BAVL_compare_nodes m n in
                     ASSERT (comp =? res) ;; assert_recurser fuel o m
         end) in
      let* height_left := check_child false (-1) in
      let* height_right := check_child true 1 in
      ASSERT (balance nd =? height_right - height_left) ;;
      Some (BAVL_MAX height_left height_right + 1)
  end.

Definition BAVL_Verify (o : BAVL) : bool :=
  match root o with
  | None => true
  | Some r => match nodes o !! r with
              | Some nd => bool_decide (parent nd = None) && bool_decide (is_Some (assert_recurser (fuel_of o) o r))
              | None => false
              end
  end.
End Values.

(** ** The tree that a memory holds *)

Inductive tree := Leaf | Node (l : tree) (p b : Z) (r : tree).

(** The node [p] whose child on side [s] is [t] and whose other child is [u]. *)
Definition mk (s : bool) (t : tree) (p b : Z) (u : tree) : tree := if s then Node u p b t else Node t p b u.

Definition rt (t : tree) : option Z := match t with Leaf => None | Node _ p _ _ => Some p end.

Definition node_of (s : bool) (par a b : option Z) (bal : Z) : BAVLNode := if s then mkN par b a bal else mkN par a b bal.

Fixpoint treeAt (m : gmap Z BAVLNode) (par : option Z) (t : tree) : Prop :=
  match t with
  | Leaf => True
  | Node l p b r => m !! p = Some (mkN par (rt l) (rt r) b) /\ treeAt m (Some p) l /\ treeAt m (Some p) r
  end.

(** The way up from a subtree: on which side it is, the parent, its balance, the
    sibling. *)
Abbreviation frame := (bool * Z * Z * tree)%type.

Fixpoint plug (c : list frame) (t : tree) : tree :=
  match c with [] => t | (s, p, b, u) :: c => plug c (mk s t p b u) end.

Definition parD (pr : option Z) (c : list frame) : option Z := match c with [] => pr | (_, p, _, _) :: _ => Some p end.
Abbreviation par := (parD None).

Fixpoint top (c : list frame) (h : option Z) : option Z :=
  match c with [] => h | (_, p, _, _) :: c => top c (Some p) end.

(** The memory holds the frames [c], below the node [pr], around the child [h]. *)
Fixpoint segAt (m : gmap Z BAVLNode) (pr : option Z) (c : list frame) (h : option Z) : Prop :=
  match c with
  | [] => True
  | (s, p, b, u) :: c => m !! p = Some (node_of s (parD pr c) h (rt u) b) /\ treeAt m (Some p) u /\ segAt m pr c (Some p)
  end.
Abbreviation ctxAt m c h := (segAt m None c h).

(** How often an address occurs. *)
Definition one (p q : Z) : nat := if decide (p = q) then 1%nat else 0%nat.
Fixpoint cnt (t : tree) (q : Z) : nat :=
  match t with Leaf => 0 | Node l p _ r => one p q + cnt l q + cnt r q end.
Fixpoint ccnt (c : list frame) (q : Z) : nat :=
  match c with [] => 0 | (_, p, _, u) :: c => one p q + cnt u q + ccnt c q end.

Record rep (o : BAVL) (c : list frame) (t : tree) : Prop := {
  rep_uniq : forall q, (cnt t q + ccnt c q <= 1)%nat;
  rep_tree : treeAt (nodes o) (par c) t;
  rep_ctx : ctxAt (nodes o) c (rt t);
  rep_root : root o = top c (rt t)
}.

Lemma one_refl p : one p p = 1%nat.
Proof. unfold one. by rewrite decide_True. Qed.

Lemma cnt_mk s t p b u q : cnt (mk s t p b u) q = (one p q + cnt t q + cnt u q)%nat.
Proof. destruct s; simpl; lia. Qed.

Lemma rt_mk s t p b u : rt (mk s t p b u) = Some p.
Proof. by destruct s. Qed.

Lemma treeAt_mk m pr s t p b u :
  treeAt m pr (mk s t p b u) <-> m !! p = Some (node_of s pr (rt t) (rt u) b) /\ treeAt m (Some p) t /\ treeAt m (Some p) u.
Proof. destruct s; simpl; tauto. Qed.

Lemma treeAt_frame m m' pr t :
  treeAt m pr t -> (forall p, (0 < cnt t p)%nat -> m' !! p = m !! p) -> treeAt m' pr t.
Proof.
  revert pr. induction t as [|l IHl p b r IHr]; intros pr Ht Hf; [done|]. simpl in Ht. destruct Ht as (Hp & Hl & Hr). simpl.
  split_and!.
  - rewrite Hf; [done|]. simpl. rewrite one_refl. lia.
  - apply IHl; [done|]. intros q Hq. apply Hf. simpl. lia.
  - apply IHr; [done|]. intros q Hq. apply Hf. simpl. lia.
Qed.

Lemma segAt_frame m m' pr c h :
  segAt m pr c h -> (forall p, (0 < ccnt c p)%nat -> m' !! p = m !! p) -> segAt m' pr c h.
Proof.
  revert h. induction c as [|[[[s p] b] u] c IH]; intros h Hc Hf; [done|]. simpl in Hc. destruct Hc as (Hp & Hu & Hc). simpl. split_and!.
  - rewrite Hf; [done|]. simpl. rewrite one_refl. lia.
  - eapply treeAt_frame; [done|]. intros q Hq. apply Hf. simpl. lia.
  - apply IH; [done|]. intros q Hq. apply Hf. simpl. lia.
Qed.

(** Moving the focus between a node and its child. *)
Lemma rep_up o s p b u c t : rep o ((s, p, b, u) :: c) t <-> rep o c (mk s t p b u).
Proof.
  split; intros [H1 H2 H3 H4].
  - simpl in *. destruct H3 as (Hp & Hu & Hc). split.
    + intros q. rewrite cnt_mk. specialize (H1 q). simpl in H1. lia.
    + rewrite treeAt_mk. by split_and!.
    + by rewrite rt_mk.
    + by rewrite rt_mk.
  - rewrite treeAt_mk in H2. rewrite rt_mk in *. destruct H2 as (Hp & Ht & Hu). split; simpl; try done.
    intros q. specialize (H1 q). rewrite cnt_mk in H1. lia.
Qed.

Lemma rep_plug o c t : rep o c t <-> rep o [] (plug c t).
Proof.
  revert t. induction c as [|[[[s p] b] u] c IH]; intros t; [done|]. rewrite rep_up. simpl. apply IH.
Qed.

Lemma mk_cases t : t = Leaf \/ exists l p b r, t = Node l p b r.
Proof. destruct t; [by left|right; by eexists _, _, _, _]. Qed.

(** ** Reading and writing *)

Lemma link_node_of s pr a b bal : link (node_of s pr a b bal) s = a.
Proof. by destruct s. Qed.
Lemma link_node_of' s pr a b bal : link (node_of s pr a b bal) (negb s) = b.
Proof. by destruct s. Qed.
Lemma parent_node_of s pr a b bal : parent (node_of s pr a b bal) = pr.
Proof. by destruct s. Qed.
Lemma balance_node_of s pr a b bal : balance (node_of s pr a b bal) = bal.
Proof. by destruct s. Qed.
Lemma set_link_of s pr a b bal v : set_link s v (node_of s pr a b bal) = node_of s pr v b bal.
Proof. by destruct s. Qed.
Lemma set_link_of' s pr a b bal v : set_link (negb s) v (node_of s pr a b bal) = node_of s pr a v bal.
Proof. by destruct s. Qed.
Lemma set_parent_of s pr a b bal v : set_parent v (node_of s pr a b bal) = node_of s v a b bal.
Proof. by destruct s. Qed.
Lemma set_balance_of s pr a b bal v : set_balance v (node_of s pr a b bal) = node_of s pr a b v.
Proof. by destruct s. Qed.

Lemma upd_eq o p n f : nodes o !! p = Some n -> upd o p f = Some (mkT (root o) (<[p := f n]> (nodes o))).
Proof. intros H. unfold upd. by rewrite H. Qed.

(** The link of the parent is the one on the side of the child, when the other
    child is another node. *)
Lemma side_of s pr h a bal : a <> Some h -> bool_decide (link1 (node_of s pr (Some h) a bal) = Some h) = s.
Proof. intros Hne. destruct s; simpl; [by apply bool_decide_true|by apply bool_decide_false]. Qed.

Lemma rt_cnt t p : rt t = Some p -> (0 < cnt t p)%nat.
Proof. destruct t; simpl; [done|]. intros [= ->]. rewrite one_refl. lia. Qed.

Lemma par_cnt c p : par c = Some p -> (0 < ccnt c p)%nat.
Proof. destruct c as [|[[[s q] b] u] c]; simpl; [done|]. intros [= ->]. rewrite one_refl. lia. Qed.

Lemma top_cnt f c h p : top (f :: c) h = Some p -> (0 < ccnt (f :: c) p)%nat.
Proof.
  revert f h. induction c as [|f' c IH]; intros [[[s q] b] u] h; simpl; [intros [= ->]; rewrite one_refl; lia|].
  intros E. apply (IH f' (Some q)) in E. simpl in E. lia.
Qed.

Lemma treeAt_insert m pr t p n : treeAt m pr t -> cnt t p = 0%nat -> treeAt (<[p := n]> m) pr t.
Proof. intros Ht Hp. eapply treeAt_frame; [done|]. intros q Hq. rewrite lookup_insert_ne; [done|]. intros ->. lia. Qed.

Lemma segAt_insert m pr c h p n : segAt m pr c h -> ccnt c p = 0%nat -> segAt (<[p := n]> m) pr c h.
Proof. intros Ht Hp. eapply segAt_frame; [done|]. intros q Hq. rewrite lookup_insert_ne; [done|]. intros ->. lia. Qed.

(** [if (t) t->parent = v] *)
Lemma reparent o t pr v :
  treeAt (nodes o) pr t -> (forall q, cnt t q <= 1)%nat ->
  exists o', set_parent_opt o (rt t) v = Some o' /\ treeAt (nodes o') v t /\ root o' = root o /\
    (forall p, rt t <> Some p -> nodes o' !! p = nodes o !! p).
Proof.
  intros Ht Hu. destruct t as [|l p b r]; simpl; [by exists o|]. simpl in Ht. destruct Ht as (Hp & Hl & Hr).
  rewrite (upd_eq o p _ _ Hp). eexists. split; [done|]. cbn [nodes root]. pose proof (Hu p) as Hup. simpl in Hup. rewrite one_refl in Hup.
  split_and!; [by rewrite lookup_insert_eq|apply treeAt_insert; [done|lia]|apply treeAt_insert; [done|lia]|done|].
  intros q Hq. rewrite lookup_insert_ne; [done|congruence].
Qed.

(** The link that leads to [h] now leads to [v]. *)
Lemma relink o c h v :
  ctxAt (nodes o) c (Some h) -> root o = top c (Some h) -> (forall q, ccnt c q <= 1)%nat -> ccnt c h = 0%nat ->
  exists o', set_link_from_parent o (par c) h v = Some o' /\ ctxAt (nodes o') c v /\ root o' = top c v /\
    (forall p, par c <> Some p -> nodes o' !! p = nodes o !! p).
Proof.
  intros Hc Hr Hu Hh. destruct c as [|[[[s p] b] u] c]; simpl; [by exists (set_root o v)|]. simpl in Hc, Hr, Hh.
  destruct Hc as (Hp & Hut & Hc). rewrite Hp. assert (rt u <> Some h) as Hne by (intros E; apply rt_cnt in E; lia).
  rewrite (side_of s _ h _ b Hne), (upd_eq o p _ _ Hp), set_link_of. eexists. split; [done|]. cbn [nodes root].
  pose proof (Hu p) as Hup. simpl in Hup. rewrite one_refl in Hup.
  split_and!; [by rewrite lookup_insert_eq|apply treeAt_insert; [done|lia]|apply segAt_insert; [done|lia]|done|].
  intros q Hq. rewrite lookup_insert_ne; [done|congruence].
Qed.

(** Facts about addresses from the uniqueness of addresses. *)
Ltac uq :=
  let go q := (match goal with U : forall x, (_ <= 1)%nat |- _ => pose proof (U q) end;
               rewrite ?cnt_mk, ?one_refl in *; simpl in *; rewrite ?one_refl in *; lia) in
  try done;
  match goal with
  | |- forall q, (_ <= _)%nat => let q := fresh "q" in intros q; go q
  | |- cnt _ ?q = 0%nat => go q
  | |- ccnt _ ?q = 0%nat => go q
  | |- ?p <> ?q :> Z => let E := fresh "E" in intros E; subst; go q
  | |- rt ?t <> Some ?q => let E := fresh "E" in intros E; apply rt_cnt in E; go q
  | |- top ?k ?h <> Some ?q => let E := fresh "E" in intros E; apply top_cnt in E; go q
  | |- par ?t <> Some ?q => let E := fresh "E" in intros E; apply par_cnt in E; go q
  end.

(** Carry what a step from [o] to [o'] does not touch over it: [A] says where the
    memories agree. What it touches is dropped. *)
Ltac keep A :=
  first [ eapply treeAt_frame; [eassumption|]; let q := fresh "q" in let Hq := fresh "Hq" in intros q Hq; apply A; uq
        | eapply segAt_frame; [eassumption|]; let q := fresh "q" in let Hq := fresh "Hq" in intros q Hq; apply A; uq
        | rewrite A by uq; eassumption ].

Ltac carry o o' A :=
  let go H P := (let H' := fresh "H" in first [assert P as H' by keep A; clear H; rename H' into H | clear H]) in
  repeat match goal with
         | H : treeAt (nodes o) ?pr ?t |- _ => go H (treeAt (nodes o') pr t)
         | H : segAt (nodes o) ?pr ?c ?h |- _ => go H (segAt (nodes o') pr c h)
         | H : nodes o !! ?p = Some ?n |- _ => go H (nodes o' !! p = Some n)
         end;
  clear A.

(** ** Rotation *)

Lemma upd_step o p n f :
  nodes o !! p = Some n ->
  exists o', upd o p f = Some o' /\ nodes o' !! p = Some (f n) /\ root o' = root o /\ (forall q, q <> p -> nodes o' !! q = nodes o !! q).
Proof.
  intros H. rewrite (upd_eq _ _ _ _ H). eexists. split_and!; [done|apply lookup_insert_eq|done|].
  intros q Hq. by apply lookup_insert_ne.
Qed.

Tactic Notation "step" open_constr(L) "from" ident(o) "to" ident(o') "as" ident(N) :=
  let R := fresh "R" in let A := fresh "A" in
  destruct L as (o' & -> & N & R & A); [first [congruence | uq]..|]; carry o o' A.

Lemma rotate_ok o c bs y nr b' x r b a :
  rep o c (mk bs (mk bs y nr b' x) r b a) ->
  exists o', BAVL_rotate o r (negb bs) = Some o' /\ rep o' c (mk bs y nr b' (mk bs x r b a)).
Proof.
  intros [U Ht Hc Hr]. rewrite !treeAt_mk, rt_mk in Ht. rewrite rt_mk in Hc, Hr. destruct Ht as (Hpr & (Hpn & Hy & Hx) & Ha).
  unfold BAVL_rotate. rewrite Hpr, negb_involutive, link_node_of, Hpn, link_node_of'.
  step (upd_step o r _ (set_link bs (rt x)) Hpr) from o to o1 as N. rewrite set_link_of in N.
  step (reparent o1 x (Some nr) (Some r) Hx) from o1 to o2 as Hx'.
  step (upd_step o2 nr _ (set_link (negb bs) (Some r)) Hpn) from o2 to o3 as N1. rewrite set_link_of' in N1.
  rewrite N, parent_node_of.
  step (upd_step o3 nr _ (set_parent (par c)) N1) from o3 to o4 as N2. rewrite set_parent_of in N2.
  step (relink o4 c r (Some nr) Hc) from o4 to o5 as Hc'.
  step (upd_step o5 r _ (set_parent (Some nr)) N) from o5 to o6 as N4. rewrite set_parent_of in N4.
  exists o6. split; [done|]. split.
  - uq.
  - rewrite !treeAt_mk, rt_mk. done.
  - by rewrite rt_mk.
  - rewrite rt_mk. congruence.
Qed.

(** ** Heights and balance *)

Fixpoint height (t : tree) : Z := match t with Leaf => 0 | Node l _ _ r => 1 + Z.max (height l) (height r) end.

Fixpoint avl (t : tree) : Prop :=
  match t with
  | Leaf => True
  | Node l _ b r => b = height r - height l /\ -1 <= b <= 1 /\ avl l /\ avl r
  end.

(** The addresses in order. *)
Fixpoint elems (t : tree) : list Z := match t with Leaf => [] | Node l p _ r => elems l ++ p :: elems r end.

Definition sgn (s : bool) : Z := if s then 1 else -1.

(** The frames are balanced around a subtree of height [h]. *)
Fixpoint cavl (c : list frame) (h : Z) : Prop :=
  match c with
  | [] => True
  | (s, _, b, u) :: c => b = sgn s * (h - height u) /\ -1 <= b <= 1 /\ avl u /\ cavl c (1 + Z.max h (height u))
  end.

Lemma height_mk s t p b u : height (mk s t p b u) = 1 + Z.max (height t) (height u).
Proof. destruct s; simpl; lia. Qed.

Lemma avl_mk s t p b u : avl (mk s t p b u) <-> b = sgn s * (height t - height u) /\ -1 <= b <= 1 /\ avl t /\ avl u.
Proof. destruct s; simpl; intuition lia. Qed.

Lemma height_nonneg t : 0 <= height t.
Proof. induction t; simpl; lia. Qed.

Lemma mk_neg s t p b u : mk s t p b u = mk (negb s) u p b t.
Proof. by destruct s. Qed.

Lemma avl_plug c t : avl (plug c t) <-> avl t /\ cavl c (height t).
Proof.
  revert t. induction c as [|[[[s p] b] u] c IH]; intros t; [simpl; tauto|]. simpl. rewrite IH, avl_mk, height_mk. tauto.
Qed.

Lemma elems_plug c t t' : elems t = elems t' -> elems (plug c t) = elems (plug c t').
Proof.
  revert t t'. induction c as [|[[[s p] b] u] c IH]; intros t t' E; [done|]. simpl. apply IH. destruct s; simpl; by rewrite E.
Qed.

(** A tree higher than another has a root; its children on either side. *)
Lemma mk_inv (s : bool) t : 0 < height t -> exists x p b y, t = mk s x p b y.
Proof. destruct t as [|l p b r]; simpl; [lia|]. intros _. destruct s; [by exists r, p, b, l|by exists l, p, b, r]. Qed.

Lemma elems_rot s x p b y q b' z :
  forall b1 b2, elems (mk s (mk s x p b y) q b' z) = elems (mk s x p b1 (mk s y q b2 z)).
Proof. intros b1 b2. destruct s; simpl; by rewrite <- app_assoc. Qed.

Lemma rep_balance o s t p b u c v :
  rep o c (mk s t p b u) ->
  exists o', upd o p (set_balance v) = Some o' /\ rep o' c (mk s t p v u).
Proof.
  intros [U Ht Hc Hr]. rewrite treeAt_mk in Ht. rewrite rt_mk in Hc, Hr. destruct Ht as (Hp & Ht & Hu).
  step (upd_step o p _ (set_balance v) Hp) from o to o1 as N. rewrite set_balance_of in N.
  exists o1. split; [done|]. split; [uq|by rewrite treeAt_mk|by rewrite rt_mk|rewrite rt_mk; congruence].
Qed.

Lemma rep_node o s t p b u c : rep o c (mk s t p b u) -> nodes o !! p = Some (node_of s (par c) (rt t) (rt u) b).
Proof. intros [_ Ht _ _]. rewrite treeAt_mk in Ht. tauto. Qed.

Lemma rep_swap o s t p b u c : rep o c (mk s t p b u) <-> rep o c (mk (negb s) u p b t).
Proof. by rewrite mk_neg. Qed.

(** Rotate and set the two balance factors. *)
Lemma rep_balance2 o bs y ch b' x p b a c v1 v2 :
  rep o c (mk bs y ch b' (mk bs x p b a)) ->
  exists o1 o2, upd o p (set_balance v1) = Some o1 /\ upd o1 ch (set_balance v2) = Some o2 /\
    rep o2 c (mk bs y ch v2 (mk bs x p v1 a)).
Proof.
  intros H. rewrite rep_swap, <- rep_up in H. destruct (rep_balance _ _ _ _ _ _ _ v1 H) as (o1 & E1 & H1).
  rewrite rep_up, <- rep_swap in H1. destruct (rep_balance _ _ _ _ _ _ _ v2 H1) as (o2 & E2 & H2). eauto.
Qed.

Lemma sgn2 bs : (2 * sgn bs =? 2) = bs.
Proof. by destruct bs. Qed.

Lemma sgn_2_pm bs : (2 * sgn bs =? 2) || (2 * sgn bs =? -2) = true.
Proof. by destruct bs. Qed.

Lemma sgn_negb bs : sgn (negb bs) = - sgn bs.
Proof. by destruct bs. Qed.

Lemma sgn_sq bs z : sgn bs * z * sgn bs = z.
Proof. destruct bs; simpl; lia. Qed.

(** What a transformation has to deliver. *)
Definition rebal_post (c : list frame) (t : tree) (delta : Z) (r : BAVL * Z * Z) : Prop :=
  exists t', rt t' = Some (r.1.2) /\ rep r.1.1 c t' /\ avl t' /\ elems t' = elems t /\
    r.2 = delta + height t' - height t /\ height t - 1 <= height t' <= height t.

(** A single rotation, when the child leans to the heavy side or is level. *)
Lemma rebalance_single o c bs y ch bc x p a delta :
  rep o c (mk bs (mk bs y ch bc x) p (2 * sgn bs) a) -> avl (mk bs y ch bc x) -> avl a ->
  height (mk bs y ch bc x) = height a + 2 -> 0 <= height y - height x ->
  exists r, rebalance_node o p delta = Some r /\ rebal_post c (mk bs (mk bs y ch bc x) p (2 * sgn bs) a) delta r.
Proof.
  intros R Ax Aa Hh Hge. unfold rebalance_node. rewrite (rep_node _ _ _ _ _ _ _ R), balance_node_of, sgn_2_pm, sgn2, link_node_of, rt_mk.
  pose proof R as R'. rewrite <- rep_up in R'. rewrite (rep_node _ _ _ _ _ _ _ R'), balance_node_of. fold (sgn bs). clear R'.
  apply avl_mk in Ax. destruct Ax as (Hbc & Hb1 & Ay & Ax). rewrite Hbc, sgn_sq. rewrite height_mk in Hh.
  destruct (rotate_ok _ _ _ _ _ _ _ _ _ _ R) as (o1 & -> & R1).
  assert (height y - height x = 1 \/ height y - height x = 0) as [E|E] by (destruct bs; simpl in *; lia); rewrite E;
    cbn [Z.eqb Pos.eqb].
  - destruct (rep_balance2 _ _ _ _ _ _ _ _ _ _ 0 0 R1) as (o2 & o3 & -> & -> & R3). eexists. split; [done|].
    exists (mk bs y ch 0 (mk bs x p 0 a)). cbn [fst snd]. rewrite !avl_mk, !height_mk, rt_mk. split_and!; try done; try lia. symmetry. apply elems_rot.
  - destruct (rep_balance2 _ _ _ _ _ _ _ _ _ _ (1 * sgn bs) (-1 * sgn bs) R1) as (o2 & o3 & -> & -> & R3). eexists. split; [done|].
    exists (mk bs y ch (-1 * sgn bs) (mk bs x p (1 * sgn bs) a)). cbn [fst snd]. rewrite !avl_mk, !height_mk, rt_mk.
    split_and!; try done; try (destruct bs; simpl in *; lia). symmetry. apply elems_rot.
Qed.

(** The double rotation, when the child leans to the light side. *)
Lemma rebalance_double o c bs y ch bc g1 g bg g2 p a delta :
  rep o c (mk bs (mk bs y ch bc (mk (negb bs) g1 g bg g2)) p (2 * sgn bs) a) ->
  avl (mk bs y ch bc (mk (negb bs) g1 g bg g2)) -> avl a ->
  height (mk bs y ch bc (mk (negb bs) g1 g bg g2)) = height a + 2 -> height y = height (mk (negb bs) g1 g bg g2) - 1 ->
  exists r, rebalance_node o p delta = Some r /\ rebal_post c (mk bs (mk bs y ch bc (mk (negb bs) g1 g bg g2)) p (2 * sgn bs) a) delta r.
Proof.
  intros R Ax Aa Hh Hlt. unfold rebalance_node. rewrite (rep_node _ _ _ _ _ _ _ R), balance_node_of, sgn_2_pm, sgn2, link_node_of, rt_mk.
  pose proof R as R'. rewrite <- rep_up in R'. rewrite (rep_node _ _ _ _ _ _ _ R'), balance_node_of, link_node_of', rt_mk. fold (sgn bs).
  pose proof R' as Rg. rewrite rep_swap, <- rep_up in Rg. rewrite (rep_node _ _ _ _ _ _ _ Rg), balance_node_of. clear Rg.
  rewrite !avl_mk, !height_mk, sgn_negb in *. destruct Ax as (Hbc & Hb1 & Ay & Hbg & Hb2 & A1 & A2).
  rewrite Hbc, sgn_sq. replace (height y - (1 + Z.max (height g1) (height g2))) with (-1) by lia. cbn [Z.eqb Pos.eqb].
  rewrite (rep_swap _ _ y) in R'. destruct (rotate_ok _ _ _ _ _ _ _ _ _ _ R') as (o1 & E1 & R1). rewrite negb_involutive in E1. rewrite E1.
  rewrite rep_up in R1. rewrite (mk_neg (negb bs) g1), (mk_neg (negb bs) g2), negb_involutive in R1.
  destruct (rotate_ok _ _ _ _ _ _ _ _ _ _ R1) as (o2 & -> & R2). set (v1 := - BAVL_MAX 0 (bg * sgn bs) * sgn bs). set (v2 := BAVL_MAX 0 (- bg * sgn bs) * sgn bs).
  rewrite rep_swap, <- rep_up in R2. destruct (rep_balance _ _ _ _ _ _ _ v1 R2) as (o3 & -> & R3). rewrite rep_up, <- rep_swap, <- rep_up in R3.
  destruct (rep_balance _ _ _ _ _ _ _ v2 R3) as (o4 & -> & R4). rewrite rep_up in R4. destruct (rep_balance _ _ _ _ _ _ _ 0 R4) as (o5 & -> & R5).
  eexists. split; [done|]. exists (mk bs (mk bs y ch v2 g2) g 0 (mk bs g1 p v1 a)). cbn [fst snd]. rewrite !avl_mk, !height_mk, rt_mk.
  split_and!; try done; try lia; try (subst v1 v2 bg; unfold BAVL_MAX; destruct bs; simpl in *; repeat case_match; lia).
  destruct bs; simpl; by repeat (rewrite <- app_assoc; simpl).
Qed.

Lemma rebalance_heavy o c bs x p a delta :
  rep o c (mk bs x p (2 * sgn bs) a) -> avl x -> avl a -> height x = height a + 2 ->
  exists r, rebalance_node o p delta = Some r /\ rebal_post c (mk bs x p (2 * sgn bs) a) delta r.
Proof.
  intros R Ax Aa Hh. pose proof (height_nonneg a) as Ha0. destruct (mk_inv bs x) as (y & ch & bc & z & ->); [lia|].
  pose proof (proj1 (avl_mk _ _ _ _ _) Ax) as (Hbc & Hb1 & Ay & Az). pose proof (height_nonneg y).
  destruct (Z_le_gt_dec 0 (height y - height z)) as [Hge|Hlt]; [by apply rebalance_single|].
  destruct (mk_inv (negb bs) z) as (g1 & g & bg & g2 & ->); [lia|]. apply rebalance_double; try done.
  rewrite Hbc in Hb1. destruct bs; simpl sgn in *; lia.
Qed.

(** The node with the balance factor that the change of its subtree gives. *)
Lemma rebalance_node_ok o c s t p u delta :
  let b := sgn s * (height t - height u) in
  rep o c (mk s t p b u) -> avl t -> avl u -> -2 <= b <= 2 ->
  exists r, rebalance_node o p delta = Some r /\ rebal_post c (mk s t p b u) delta r /\ (-1 <= b <= 1 -> r.2 = delta).
Proof.
  intros b R At Au Hb. assert (-1 <= b <= 1 \/ b = 2 * sgn s \/ b = 2 * sgn (negb s)) as [H|[H|H]] by (subst b; destruct s; simpl in *; lia).
  - unfold rebalance_node. rewrite (rep_node _ _ _ _ _ _ _ R), balance_node_of. destruct (Z.eqb_spec b 2); [lia|]. destruct (Z.eqb_spec b (-2)); [lia|].
    eexists. split; [done|]. split; [|done]. exists (mk s t p b u). cbn [fst snd orb]. rewrite rt_mk, avl_mk, height_mk. split_and!; try done; lia.
  - rewrite H in *. destruct (rebalance_heavy _ _ _ _ _ _ delta R) as (r & E & P); [done..|subst b; destruct s; simpl in *; lia|].
    exists r. split_and!; [done|done|]. destruct s; simpl sgn; lia.
  - rewrite H in *. rewrite mk_neg in *. destruct (rebalance_heavy _ _ _ _ _ _ delta R) as (r & E & P); [done..|subst b; destruct s; simpl in *; lia|].
    exists r. split_and!; [done|done|]. destruct s; simpl sgn; lia.
Qed.

(** One round of [rebalance] at the parent of a subtree whose height changed. *)
Lemma rebalance_step o c s p b u t h d fuel :
  rep o ((s, p, b, u) :: c) t -> avl t -> cavl ((s, p, b, u) :: c) h -> height t = h + d -> -1 <= d <= 1 -> d <> 0 ->
  exists o' nd d' t', BAVL_rebalance (S fuel) o p s d =
      match par c with
      | Some q => let* pn := nodes o' !! q in BAVL_rebalance fuel o' q (bool_decide (link1 pn = Some nd)) d'
      | None => Some o'
      end /\
    rt t' = Some nd /\ rep o' c t' /\ avl t' /\ elems t' = elems (mk s t p b u) /\ height t' = 1 + Z.max h (height u) + d' /\ -1 <= d' <= 1.
Proof.
  intros R At (Hb & Hb1 & Au & Cc) Hh Hd Hd0. cbn [BAVL_rebalance].
  apply rep_up in R. rewrite (rep_node _ _ _ _ _ _ _ R), balance_node_of.
  replace (in_pm1 d) with true by (unfold in_pm1; lia). replace (in_pm1 b) with true by (unfold in_pm1; lia).
  destruct (Z.eqb_spec d 0) as [->|_]; [done|].
  set (delta := BAVL_MAX d (BAVL_OPTNEG b s) - BAVL_MAX 0 (BAVL_OPTNEG b s)).
  assert (delta = Z.max (height t) (height u) - Z.max h (height u)) as Edelta
    by (subst delta; unfold BAVL_MAX, BAVL_OPTNEG; destruct s; simpl in *; repeat case_match; lia).
  replace (in_pm1 delta) with true by (unfold in_pm1; lia).
  destruct (rep_balance _ _ _ _ _ _ _ (b - BAVL_OPTNEG d s) R) as (o1 & -> & R1).
  replace (b - BAVL_OPTNEG d s) with (sgn s * (height t - height u)) in R1 by (unfold BAVL_OPTNEG; destruct s; simpl in *; lia).
  destruct (rebalance_node_ok o1 _ s t p u delta R1 At Au) as ([[o2 nd] d2] & -> & (t' & Ert & R2 & At' & Eel & Ed2 & Hht) & Hs); [destruct s; simpl in *; lia|].
  cbn [fst snd] in *. rewrite height_mk in *. assert (-1 <= d2 <= 1) as Hd2 by (clearbody delta; destruct s; simpl sgn in *; lia).
  replace (in_pm1 d2) with true by (unfold in_pm1; lia).
  exists o2, nd, d2, t'. split_and!; try done; try lia; [|by destruct s].
  destruct (mk_cases t') as [->|(l & q & bq & r & ->)]; [done|]. simpl in Ert. injection Ert as ->.
  by rewrite (rep_node o2 false l nd bq r c R2), parent_node_of.
Qed.

Lemma rebalance_same o c s p b u t fuel : rep o ((s, p, b, u) :: c) t -> -1 <= b <= 1 -> BAVL_rebalance (S fuel) o p s 0 = Some o.
Proof.
  intros R Hb. apply rep_up in R. cbn [BAVL_rebalance]. rewrite (rep_node _ _ _ _ _ _ _ R), balance_node_of.
  by replace (in_pm1 b) with true by (unfold in_pm1; lia).
Qed.

(** [rebalance] from the parent of a subtree whose height changed by [d]. *)
Lemma rebalance_ok c : forall o s p b u t h d fuel,
  rep o ((s, p, b, u) :: c) t -> avl t -> cavl ((s, p, b, u) :: c) h -> height t = h + d -> -1 <= d <= 1 -> (length c < fuel)%nat ->
  exists o' t', BAVL_rebalance fuel o p s d = Some o' /\ rep o' [] t' /\ avl t' /\ elems t' = elems (plug ((s, p, b, u) :: c) t).
Proof.
  induction c as [|[[[s2 p2] b2] u2] c IH]; intros o s p b u t h d fuel R At Cc Hh Hd Hf; (destruct fuel as [|fuel]; [simpl in Hf; lia|]).
  all: destruct (decide (d = 0)) as [->|Hd0];
    [rewrite (rebalance_same _ _ _ _ _ _ _ _ R (proj1 (proj2 Cc))); match goal with R : rep ?o ?C ?t |- _ => exists o, (plug C t) end; split_and!;
     [done|exact (proj1 (rep_plug _ _ _) R)|apply avl_plug; split; [done|]; by replace (height t) with h by lia|done]|].
  all: destruct (rebalance_step _ _ _ _ _ _ _ _ _ fuel R At Cc Hh Hd Hd0) as (o' & nd & d' & t' & -> & Ert & R' & At' & Eel & Eh & Hd'); cbn [parD].
  - exists o', t'. split_and!; try done.
  - pose proof (proj1 (rep_up _ _ _ _ _ _ _) R') as R0. rewrite (rep_node _ _ _ _ _ _ _ R0), Ert, side_of.
    + destruct (IH _ _ _ _ _ _ _ _ fuel R' At' (proj2 (proj2 (proj2 Cc))) Eh Hd') as (o2 & t2 & E2 & R2 & A2 & El2); [simpl in Hf; lia|].
      exists o2, t2. split_and!; try done. rewrite El2. simpl. apply elems_plug. destruct s2; simpl; by rewrite Eel.
    + destruct R' as [U _ _ _]. intros E. apply rt_cnt in E, Ert. specialize (U nd). simpl in U. lia.
Qed.

(** ** The order of the elements *)

(** What comes before and after the subtree. *)
Fixpoint cpre (c : list frame) : list Z :=
  match c with [] => [] | (s, p, _, u) :: c => cpre c ++ (if s : bool then elems u ++ [p] else []) end.
Fixpoint cpost (c : list frame) : list Z :=
  match c with [] => [] | (s, p, _, u) :: c => (if s : bool then [] else p :: elems u) ++ cpost c end.

Lemma elems_plug_split c t : elems (plug c t) = cpre c ++ elems t ++ cpost c.
Proof.
  revert t. induction c as [|[[[s p] b] u] c IH]; intros t; simpl; [by rewrite app_nil_r|].
  rewrite IH. destruct s; simpl; by rewrite <- ?app_assoc, ?app_nil_r; simpl; rewrite <- ?app_assoc.
Qed.

Lemma cpre_app c1 c2 : cpre (c1 ++ c2) = cpre c2 ++ cpre c1.
Proof. induction c1 as [|[[[s p] b] u] c1 IH]; simpl; [by rewrite app_nil_r|]. by rewrite IH, app_assoc. Qed.

Lemma cpost_app c1 c2 : cpost (c1 ++ c2) = cpost c1 ++ cpost c2.
Proof. induction c1 as [|[[[s p] b] u] c1 IH]; simpl; [done|]. by rewrite IH, app_assoc. Qed.

Lemma plug_app c1 c2 t : plug (c1 ++ c2) t = plug c2 (plug c1 t).
Proof. revert t. induction c1 as [|[[[s p] b] u] c1 IH]; intros t; [done|]. apply IH. Qed.

Lemma elem_cnt t q : q ∈ elems t <-> (0 < cnt t q)%nat.
Proof.
  induction t as [|l IHl p b r IHr]; simpl; [rewrite elem_of_nil; lia|]. rewrite elem_of_app, elem_of_cons, IHl, IHr. unfold one.
  case_decide; subst; split; intros H'; try lia; destruct H' as [?|[?|?]]; lia || congruence.
Qed.

Lemma cnt_NoDup t : (forall q, cnt t q <= 1)%nat -> NoDup (elems t).
Proof.
  induction t as [|l IHl p b r IHr]; simpl; intros U; [constructor|].
  assert (forall q, cnt l q <= 1)%nat by (intros q; specialize (U q); lia). assert (forall q, cnt r q <= 1)%nat by (intros q; specialize (U q); lia).
  apply list.NoDup_app. split_and!; [auto| |apply list.NoDup_cons; split; [|auto]].
  - intros x Hx. apply elem_cnt in Hx. rewrite elem_of_cons, elem_cnt. specialize (U x). unfold one in U. case_decide; subst; intros [?|?]; lia || congruence.
  - rewrite elem_cnt. specialize (U p). rewrite one_refl in U. lia.
Qed.

Lemma treeAt_elem m pr t q : treeAt m pr t -> q ∈ elems t -> is_Some (m !! q).
Proof.
  revert pr. induction t as [|l IHl p b r IHr]; intros pr; simpl; [by intros _ ?%elem_of_nil|].
  intros (Hp & Hl & Hr) [?|[->|?]%elem_of_cons]%elem_of_app; eauto.
Qed.

(** The number of nodes is enough fuel. *)
Lemma rep_fuel o t : rep o [] t -> (length (elems t) < fuel_of o)%nat.
Proof.
  intros [U Ht _ _]. unfold fuel_of. assert (NoDup (elems t)) as Hn by (apply cnt_NoDup; intros q; specialize (U q); simpl in U; lia).
  rewrite <- (size_list_to_set (C := gset Z) _ Hn), <- (size_dom (D := gset Z) (nodes o)). apply Nat.lt_succ_r, subseteq_size.
  intros q Hq. apply elem_of_list_to_set in Hq. apply elem_of_dom. eapply treeAt_elem; eauto.
Qed.

Lemma length_plug c t : (length c + length (elems t) <= length (elems (plug c t)))%nat.
Proof.
  revert t. induction c as [|[[[s p] b] u] c IH]; intros t; [done|]. simpl. etransitivity; [|apply IH].
  destruct s; simpl; rewrite length_app; simpl; lia.
Qed.

(** The subtree at an element. *)
Lemma focus t q : q ∈ elems t -> exists c l b r, t = plug c (Node l q b r).
Proof.
  induction t as [|l IHl p b r IHr]; simpl; [by intros ?%elem_of_nil|]. intros [H|[->|H]%elem_of_cons]%elem_of_app.
  - destruct (IHl H) as (c & l' & b' & r' & ->). exists (c ++ [(false, p, b, r)]), l', b', r'. by rewrite plug_app.
  - by exists [], l, b, r.
  - destruct (IHr H) as (c & l' & b' & r' & ->). exists (c ++ [(true, p, b, l)]), l', b', r'. by rewrite plug_app.
Qed.

(** ** First, last, next and previous *)

(** The element at an end of a list. *)
Definition end_of (s : bool) (l : list Z) : option Z := if s then list.last l else head l.

Lemma end_of_mk s t p b u : end_of s (elems (mk s t p b u)) = match t with Leaf => Some p | _ => end_of s (elems t) end.
Proof.
  destruct s; simpl; [|destruct t as [|l q b' r]; [done|simpl; by destruct (elems l)]].
  rewrite last_app_cons, last_cons. destruct t as [|l q b' r]; [done|]. simpl. by rewrite last_app_cons, last_cons; destruct (list.last (elems r)).
Qed.

Lemma treeAt_node m pr t p : treeAt m pr t -> rt t = Some p -> forall s : bool, exists x b y, t = mk s x p b y /\ m !! p = Some (node_of s pr (rt x) (rt y) b) /\ treeAt m (Some p) x.
Proof.
  intros Ht Hr s. destruct t as [|l q b r]; [done|]. injection Hr as ->. simpl in Ht. destruct s; [exists r, b, l|exists l, b, r]; tauto.
Qed.

Lemma subtree_end_ok s o fuel : forall t pr p,
  treeAt (nodes o) pr t -> rt t = Some p -> (length (elems t) <= fuel)%nat -> subtree_end fuel s o p = end_of s (elems t).
Proof.
  induction fuel as [|fuel IH]; intros t pr p Ht Hr Hf; destruct (treeAt_node _ _ _ _ Ht Hr s) as (x & b & y & -> & Hp & Hx).
  - destruct s; simpl in Hf; rewrite length_app in Hf; simpl in Hf; lia.
  - cbn [subtree_end]. rewrite Hp, link_node_of, end_of_mk. destruct (mk_cases x) as [->|(xl & q & bq & xr & ->)]; [done|]. cbn [rt].
    apply (IH _ (Some p)); [done|done|]. destruct s; cbn [mk elems] in *; rewrite !length_app in *; simpl in *; rewrite ?length_app in *; simpl in *; lia.
Qed.

(** The element next to the subtree on side [s]. *)
Definition beside (s : bool) (c : list frame) : option Z := if s then head (cpost c) else list.last (cpre c).

Lemma beside_cons s s' p b u c : beside s ((s', p, b, u) :: c) = if eqb s s' then beside s c else Some p.
Proof. destruct s, s'; simpl; rewrite ?app_nil_r, ?app_assoc; [done|done|apply last_snoc|done]. Qed.

Lemma climb_ok s o fuel : forall c t n,
  rep o c t -> rt t = Some n -> (length c < fuel)%nat -> climb fuel s o n = Some (beside s c).
Proof.
  induction fuel as [|fuel IH]; intros c t n R Hr Hf; [lia|]. cbn [climb].
  destruct (treeAt_node _ _ _ _ (rep_tree _ _ _ R) Hr true) as (x & b & y & -> & Hp & _). rewrite Hp, parent_node_of.
  destruct c as [|[[[s' p] b'] u] c]; [by destruct s|]. cbn [parD]. pose proof (proj1 (rep_up _ _ _ _ _ _ _) R) as R'.
  rewrite (rep_node _ _ _ _ _ _ _ R'), rt_mk, beside_cons.
  destruct (Bool.eqb s s') eqn:Es.
  - apply eqb_prop in Es as ->. rewrite link_node_of, bool_decide_true by done. apply (IH c _ p R'); [by rewrite rt_mk|simpl in Hf; lia].
  - assert (s = negb s') as -> by (by destruct s, s'). rewrite link_node_of', bool_decide_false; [done|].
    destruct R as [U _ _ _]. intros E. apply rt_cnt in E. specialize (U n). simpl in U. rewrite one_refl in U. lia.
Qed.

Lemma get_end_ok s o t : rep o [] t -> get_end s o = Some (end_of s (elems t)).
Proof.
  intros R. pose proof R as [_ Ht _ Hr]. unfold get_end. rewrite Hr. cbn [top]. destruct (rt t) as [p|] eqn:E.
  - pose proof (rep_fuel _ _ R). rewrite (subtree_end_ok s o _ t None p Ht E) by lia.
    destruct t as [|l q b r]; [done|]. destruct s; simpl; [by rewrite last_app_cons, last_cons; destruct (list.last (elems r))|by destruct (elems l)].
  - destruct t; [|done]. by destruct s.
Qed.


Lemma rep_NoDup o t : rep o [] t -> NoDup (elems t).
Proof. intros [U _ _ _]. apply cnt_NoDup. intros q. specialize (U q). simpl in U. lia. Qed.

Lemma get_adjacent_ok s o c l n b r :
  rep o c (Node l n b r) ->
  get_adjacent s o n = Some (if s then head (elems r ++ cpost c) else list.last (cpre c ++ elems l)).
Proof.
  intros R. pose proof (rep_fuel _ _ (proj1 (rep_plug _ _ _) R)) as Hf. pose proof (length_plug c (Node l n b r)) as Hl.
  unfold get_adjacent. pose proof (rep_tree _ _ _ R) as (Hn & Htl & Htr). rewrite Hn.
  assert (forall t m, rt t = Some m -> exists x, end_of (negb s) (elems t) = Some x /\ (if s then head (elems t ++ cpost c) else list.last (cpre c ++ elems t)) = Some x) as Hx.
  { intros t m E. destruct t as [|tl q bq tr]; [done|]. destruct s; simpl.
    - destruct (elems tl); simpl; eauto.
    - rewrite !last_app, last_cons. destruct (list.last (elems tr)); eauto. }
  assert (length (elems l) <= fuel_of o /\ length (elems r) <= fuel_of o /\ length c < fuel_of o)%nat as (Hfl & Hfr & Hfc)
    by (simpl in Hl; rewrite length_app in Hl; simpl in Hl; lia).
  destruct s; cbn [link link0 link1].
  - destruct (rt r) as [m|] eqn:E.
    + rewrite (subtree_end_ok _ _ _ _ _ _ Htr E) by lia. destruct (Hx _ _ E) as (x & -> & ->). done.
    + rewrite (climb_ok true o _ _ _ _ R eq_refl Hfc). by destruct r.
  - destruct (rt l) as [m|] eqn:E.
    + rewrite (subtree_end_ok _ _ _ _ _ _ Htl E) by lia. destruct (Hx _ _ E) as (x & -> & ->). done.
    + rewrite (climb_ok false o _ _ _ _ R eq_refl Hfc). destruct l; [|done]. simpl. by rewrite app_nil_r.
Qed.

(** ** Adding a leaf *)

Lemma rep_grow o s q b u c node :
  rep o ((s, q, b, u) :: c) Leaf -> node ∉ elems (plug ((s, q, b, u) :: c) Leaf) ->
  exists o1, upd o q (set_link s (Some node)) = Some o1 /\
    rep (mkT (root o1) (<[node := mkN (Some q) None None 0]> (nodes o1))) ((s, q, b, u) :: c) (Node Leaf node 0 Leaf).
Proof.
  intros R Hn. rewrite elem_cnt in Hn. assert (forall c t, cnt (plug c t) node = ccnt c node + cnt t node)%nat as Hcp.
  { intros c'. induction c' as [|[[[s' p'] b'] u'] c' IH]; intros t; [done|]. simpl. rewrite IH, cnt_mk. lia. }
  rewrite Hcp in Hn. destruct R as [U _ (Hq & Hu & Hc) Hr]. assert (forall x, (cnt (Node Leaf node 0 Leaf) x + ccnt ((s, q, b, u) :: c) x <= 1)%nat) as U2.
  { intros x. specialize (U x). simpl in *. unfold one at 1. case_decide; [subst; lia|lia]. }
  clear Hcp Hn U. step (upd_step o q _ (set_link s (Some node)) Hq) from o to o1 as N. rewrite set_link_of in N.
  exists o1. split; [done|]. set (o2 := mkT _ _).
  assert (forall x, x <> node -> nodes o2 !! x = nodes o1 !! x) as A by (intros x Hx; by apply lookup_insert_ne).
  assert (nodes o2 !! node = Some (mkN (Some q) None None 0)) as Hnode by apply lookup_insert_eq.
  carry o1 o2 A. split; [done|by simpl|by simpl|]. simpl. simpl in Hr. congruence.
Qed.

(** ** Removing *)

(** The subtree that takes the place of a node with at most one child. *)
Definition only_child (l r : tree) : tree := match l with Leaf => r | _ => l end.

Lemma replace_ok o c l n b r :
  rep o c (Node l n b r) -> l = Leaf \/ r = Leaf ->
  exists o', BAVL_replace_subtree o n (rt (only_child l r)) = Some o' /\ rep o' c (only_child l r).
Proof.
  intros [U (Hn & Hl & Hr) Hc Hroot] Hlr. unfold BAVL_replace_subtree. rewrite Hn. cbn [parent].
  assert (treeAt (nodes o) (Some n) (only_child l r)) as Ht by (by destruct l). assert (forall q, (one n q + cnt (only_child l r) q + ccnt c q <= 1)%nat) as U'.
  { intros q. specialize (U q). destruct l; simpl in *; [|destruct Hlr as [?|Hlr]; [done|subst; simpl in *]]; lia. }
  clear U Hl Hr Hn. cbn [rt] in *. step (relink o c n (rt (only_child l r)) Hc) from o to o1 as Hc1.
  step (reparent o1 _ _ (par c) Ht) from o1 to o2 as Ht2. exists o2. split; [done|]. split; [uq|done|done|congruence].
Qed.

Lemma remove_node_ok o c l n b r :
  rep o c (Node l n b r) -> l = Leaf \/ r = Leaf -> avl (plug c (Node l n b r)) ->
  exists o' t', remove_node o n = Some o' /\ rep o' [] t' /\ avl t' /\ elems t' = elems (plug c (only_child l r)).
Proof.
  intros R Hlr Hb. unfold remove_node. pose proof (rep_tree _ _ _ R) as (Hn & _ & _). rewrite Hn. cbn [link0 link1 parent].
  destruct (replace_ok _ _ _ _ _ _ R Hlr) as (o1 & E1 & R1). pose proof (proj1 (rep_plug _ _ _) R1) as Rp. apply avl_plug in Hb as (Hb & Hc). simpl in Hb, Hc.
  assert (avl (only_child l r)) as Hoc by (destruct l; tauto).
  assert (1 + Z.max (height l) (height r) = height (only_child l r) + 1) as Hh
    by (pose proof (height_nonneg l); pose proof (height_nonneg r); destruct l; [simpl in *; lia|destruct Hlr as [?|Er]; [done|subst r; cbn [only_child] in *; simpl height in *; lia]]).
  replace (negb (bool_decide (is_Some (rt l)) && bool_decide (is_Some (rt r)))) with true
    by (destruct Hlr as [El | Er]; subst; simpl; [done|by destruct (rt l)]).
  replace (match rt l with Some l => Some l | None => rt r end) with (rt (only_child l r)) by by destruct l.
  destruct c as [|[[[s p] bp] u] c]; cbn [parD].
  - exists o1, (only_child l r). by split_and!.
  - pose proof (proj1 (rep_up _ _ _ _ _ _ _) R) as R0. rewrite (rep_node _ _ _ _ _ _ _ R0). cbn [rt].
    rewrite side_of, E1 by (destruct R as [U _ _ _]; intros E; apply rt_cnt in E; specialize (U n); simpl in U; rewrite one_refl in U; lia).
    pose proof (rep_fuel _ _ Rp) as Hf. pose proof (length_plug ((s, p, bp, u) :: c) (only_child l r)) as Hl.
    destruct (rebalance_ok c o1 s p bp u _ (1 + Z.max (height l) (height r)) (-1) (fuel_of o1) R1) as (o2 & t2 & E2 & R2 & A2 & El2);
      [done|done|lia|lia|cbn [length] in Hl; lia|]. exists o2, t2. by split_and!.
Qed.

(** ** Swapping a node with one below it *)

Ltac wr N := cbn [set_link set_parent set_balance parent link0 link1 balance negb link] in N |- *.

Lemma swap_adjacent_ok o c lm m bm rm n b r :
  rep o c (Node (Node lm m bm rm) n b r) ->
  exists o', BAVL_swap_nodes o n m = Some o' /\ rep o' c (Node (Node lm n bm rm) m b r).
Proof.
  intros [U (Hn & (Hm & Hlm & Hrm) & Hr) Hc Hroot]. cbn [rt] in *. unfold BAVL_swap_nodes. rewrite Hn, Hm. cbn [parent].
  rewrite (bool_decide_true (Some n = Some n)) by done. rewrite (bool_decide_false (par c = Some m)) by uq. cbn [orb].
  unfold swap_adjacent. rewrite Hn, Hm. cbn [link1 link0 parent]. rewrite (bool_decide_false (rt r = Some m)) by uq. cbn [negb link link1].
  step (upd_step o n _ (set_link false (rt lm)) Hn) from o to o1 as N1. wr N1.
  step (reparent o1 lm _ (Some n) Hlm) from o1 to o2 as Hlm'.
  step (upd_step o2 n _ (set_link true (rt rm)) N1) from o2 to o3 as N3. wr N3.
  step (reparent o3 rm _ (Some n) Hrm) from o3 to o4 as Hrm'.
  step (upd_step o4 m _ (set_parent (par c)) Hm) from o4 to o5 as M5. wr M5.
  step (relink o5 c n (Some m) Hc) from o5 to o6 as Hc'.
  step (upd_step o6 m _ (set_link false (Some n)) M5) from o6 to o7 as M7. wr M7.
  step (upd_step o7 n _ (set_parent (Some m)) N3) from o7 to o8 as N8. wr N8.
  step (upd_step o8 m _ (set_link true (rt r)) M7) from o8 to o9 as M9. wr M9.
  step (reparent o9 r _ (Some m) Hr) from o9 to o10 as Hr'.
  step (upd_step o10 n _ (set_balance bm) N8) from o10 to o11 as N11. wr N11.
  step (upd_step o11 m _ (set_balance b) M9) from o11 to o12 as M12. wr M12.
  exists o12. split; [done|]. split; [uq|done|done|cbn [rt]; congruence].
Qed.
Lemma segAt_app m pr k s n b r c h :
  segAt m pr (k ++ (s, n, b, r) :: c) h <->
    segAt m (Some n) k h /\ m !! n = Some (node_of s (parD pr c) (top k h) (rt r) b) /\ treeAt m (Some n) r /\ segAt m pr c (Some n).
Proof.
  revert h. induction k as [|[[[s' p] b'] u] k IH]; intros h; simpl; [tauto|]. rewrite IH.
  replace (parD pr (k ++ (s, n, b, r) :: c)) with (parD (Some n) k) by by destruct k as [|[[[]]]]. tauto.
Qed.

Lemma ccnt_app k c q : ccnt (k ++ c) q = (ccnt k q + ccnt c q)%nat.
Proof. induction k as [|[[[s p] b] u] k IH]; simpl; lia. Qed.

Lemma top_app k c h : top (k ++ c) h = top c (top k h).
Proof. revert h. induction k as [|[[[s p] b] u] k IH]; intros h; simpl; auto. Qed.

Lemma segAt_change m m' pr v f k h :
  segAt m pr (f :: k) h -> (forall q, ccnt (f :: k) q <= 1)%nat ->
  (forall q, top (f :: k) h <> Some q -> m' !! q = m !! q) ->
  (forall q nd, top (f :: k) h = Some q -> m !! q = Some nd -> m' !! q = Some (set_parent v nd)) ->
  segAt m' v (f :: k) h.
Proof.
  revert f h. induction k as [|f' k IH]; intros [[[s p] b] u] h (Hp & Hu & Hk) U A N.
  - cbn in *. split_and!; [|eapply treeAt_frame; [done|]; intros q Hq; apply A; intros [= ->]; specialize (U q); rewrite one_refl in U; lia|done]. rewrite (N p _ eq_refl Hp). by destruct s.
  - assert (forall q, top ((s, p, b, u) :: f' :: k) h = Some q -> (0 < ccnt (f' :: k) q)%nat) as Ht by (intros q Hq; by apply (top_cnt f' k (Some p))).
    split_and!.
    + rewrite A by (intros E; apply Ht in E; specialize (U p); destruct f' as [[[]]]; simpl in *; rewrite one_refl in *; lia).
      by destruct f' as [[[]]].
    + eapply treeAt_frame; [done|]. intros q Hq. apply A. intros E. apply Ht in E. specialize (U q). destruct f' as [[[]]]. simpl in *. lia.
    + apply IH; [done|intros q; specialize (U q); destruct f' as [[[]]]; simpl in *; lia|done|done].
Qed.

Lemma segAt_top_node m pr f k h : segAt m pr (f :: k) h -> exists q nd, top (f :: k) h = Some q /\ m !! q = Some nd.
Proof.
  revert f h. induction k as [|f' k IH]; intros [[[s p] b] u] h (Hp & Hu & Hk); [by eexists _, _|]. destruct (IH f' (Some p) Hk) as (q & nd & E & H). by exists q, nd.
Qed.

(** [top->parent = v] for the uppermost frame. *)
Lemma reparent_seg o pr f k h v :
  segAt (nodes o) pr (f :: k) h -> (forall q, ccnt (f :: k) q <= 1)%nat ->
  exists o', set_parent_opt o (top (f :: k) h) v = Some o' /\ segAt (nodes o') v (f :: k) h /\ root o' = root o /\
    (forall p, top (f :: k) h <> Some p -> nodes o' !! p = nodes o !! p).
Proof.
  intros Hs U. destruct (segAt_top_node _ _ _ _ _ Hs) as (q & nd & E & Hq). rewrite E. cbn [set_parent_opt].
  destruct (upd_step o q nd (set_parent v) Hq) as (o' & -> & N & R & A). exists o'.
  assert (forall p, Some q <> Some p -> nodes o' !! p = nodes o !! p) as A' by (intros p Hp; apply A; congruence). split_and!; try done.
  apply (segAt_change _ _ _ _ _ _ _ Hs U); rewrite E; [done|]. intros p nd' [= <-] Hp. by simplify_eq.
Qed.

Lemma swap_apart_ok o c sq q bq w k lm m bm rm n b r :
  rep o (((sq, q, bq, w) :: k) ++ (false, n, b, r) :: c) (Node lm m bm rm) ->
  exists o', BAVL_swap_nodes o n m = Some o' /\ rep o' (((sq, q, bq, w) :: k) ++ (false, m, b, r) :: c) (Node lm n bm rm).
Proof.
  intros [U (Hm & Hlm & Hrm) Hs Hroot]. apply segAt_app in Hs as (Hk & Hn & Hr & Hc). rewrite top_app in Hroot. cbn [rt top] in *. cbn [app parD] in Hm. cbn [node_of] in Hn.
  assert (forall x, one m x + cnt lm x + cnt rm x + (one q x + cnt w x + ccnt k x) + one n x + cnt r x + ccnt c x <= 1)%nat as U'.
  { intros x. specialize (U x). rewrite ccnt_app in U. simpl in U. lia. }
  clear U. unfold BAVL_swap_nodes. rewrite Hn, Hm. cbn [parent node_of].
  assert (q <> n) as Hqn by uq. rewrite (bool_decide_false (Some q = Some n)) by congruence. rewrite (bool_decide_false (par c = Some m)) by uq. cbn [orb].
  unfold swap_apart. rewrite Hn, Hm. cbn [link1 link0 parent node_of].
  step (upd_step o n _ (set_parent (Some q)) Hn) from o to o1 as N1. wr N1. cbn [set_link_from_parent].
  destruct Hk as (Hq & Hw & Hk). rewrite Hq, side_of by uq.
  step (upd_step o1 q _ (set_link sq (Some n)) Hq) from o1 to o2 as Q2. rewrite set_link_of in Q2.
  step (upd_step o2 m _ (set_parent (par c)) Hm) from o2 to o3 as M3. wr M3.
  step (relink o3 c n (Some m) Hc) from o3 to o4 as Hc'.
  assert (segAt (nodes o4) (Some n) ((sq, q, bq, w) :: k) (Some n)) as Hs by (by split_and!). clear Hw Hk Q2.
  rewrite N1, M3. wr N1.
  step (upd_step o4 n _ (set_link false (rt lm)) N1) from o4 to o5 as N5. wr N5.
  step (reparent o5 lm _ (Some n) Hlm) from o5 to o6 as Hlm'.
  step (upd_step o6 m _ (set_link false (top k (Some q))) M3) from o6 to o7 as M7. wr M7.
  change (top k (Some q)) with (top ((sq, q, bq, w) :: k) (Some n)).
  step (reparent_seg o7 _ _ _ _ (Some m) Hs) from o7 to o8 as Hs'.
  rewrite N5, M7. wr N5.
  step (upd_step o8 n _ (set_link true (rt rm)) N5) from o8 to o9 as N9. wr N9.
  step (reparent o9 rm _ (Some n) Hrm) from o9 to o10 as Hrm'.
  step (upd_step o10 m _ (set_link true (rt r)) M7) from o10 to o11 as M11. wr M11.
  step (reparent o11 r _ (Some m) Hr) from o11 to o12 as Hr'.
  step (upd_step o12 n _ (set_balance bm) N9) from o12 to o13 as N13. wr N13.
  step (upd_step o13 m _ (set_balance b) M11) from o13 to o14 as M14. wr M14.
  exists o14. split; [done|]. split.
  - intros x. specialize (U' x). rewrite ccnt_app. simpl. lia.
  - by split_and!.
  - by apply segAt_app.
  - rewrite top_app. cbn [rt top] in *. congruence.
Qed.
Lemma max_split t p : rt t = Some p -> exists k l m b, t = plug k (Node l m b Leaf) /\ cpost k = [].
Proof.
  revert p. induction t as [|l _ q b r IH]; intros p Hp; [done|]. destruct (rt r) as [p'|] eqn:E.
  - destruct (IH p' eq_refl) as (k & l' & m & b' & -> & Hk). exists (k ++ [(true, q, b, l)]), l', m, b'. by rewrite plug_app, cpost_app, Hk.
  - destruct r; [|done]. by exists [], l, q, b.
Qed.

Lemma cavl_addr k s p p' b u c h : cavl (k ++ (s, p, b, u) :: c) h -> cavl (k ++ (s, p', b, u) :: c) h.
Proof. revert h. induction k as [|[[[s' q] b'] u'] k IH]; intros h; simpl; [done|]. intros (? & ? & ? & ?); auto. Qed.

Lemma swap_ok o c k lm m bm n b r :
  rep o c (Node (plug k (Node lm m bm Leaf)) n b r) ->
  exists o', BAVL_swap_nodes o n m = Some o' /\ rep o' (k ++ (false, m, b, r) :: c) (Node lm n bm Leaf).
Proof.
  intros R. destruct k as [|[[[sq q] bq] w] k].
  - destruct (swap_adjacent_ok _ _ _ _ _ _ _ _ _ R) as (o' & E & R'). exists o'. split; [done|]. by apply rep_up.
  - apply swap_apart_ok. apply rep_plug. rewrite plug_app. by apply rep_plug in R.
Qed.

Lemma remove_ok o c l n b r :
  rep o c (Node l n b r) -> avl (plug c (Node l n b r)) ->
  exists o' t', BAVL_Remove o n = Some o' /\ rep o' [] t' /\ avl t' /\ elems t' = (cpre c ++ elems l) ++ elems r ++ cpost c.
Proof.
  intros R Hb. pose proof (rep_tree _ _ _ R) as (Hn & Hl & Hr). unfold BAVL_Remove. rewrite Hn. cbn [link0 link1].
  assert (l = Leaf \/ r = Leaf -> exists o' t', remove_node o n = Some o' /\ rep o' [] t' /\ avl t' /\ elems t' = (cpre c ++ elems l) ++ elems r ++ cpost c) as Hone.
  { intros Hlr. destruct (remove_node_ok _ _ _ _ _ _ R Hlr Hb) as (o' & t' & E & R' & A' & El). exists o', t'. split_and!; try done.
    rewrite El, elems_plug_split. destruct l; simpl; [by rewrite app_nil_r|]. destruct Hlr as [?|Hlr]; [done|]. subst. simpl. by rewrite app_assoc. }
  destruct (rt l) as [pl|] eqn:El; [|apply Hone; left; by destruct l]. destruct (rt r) as [pr|] eqn:Er; [|apply Hone; right; by destruct r].
  clear Hone. destruct (max_split l pl El) as (k & lm & m & bm & -> & Hk).
  assert (BAVL_subtree_max o pl = Some m) as ->.
  { unfold BAVL_subtree_max. rewrite (subtree_end_ok _ _ _ _ _ _ Hl El).
    - rewrite elems_plug_split, Hk. simpl. by rewrite app_nil_r, app_assoc, last_snoc.
    - pose proof (rep_fuel _ _ (proj1 (rep_plug _ _ _) R)) as Hf. pose proof (length_plug c (Node (plug k (Node lm m bm Leaf)) n b r)) as Hlen.
      cbn [elems] in Hlen. rewrite length_app in Hlen. lia. }
  destruct (swap_ok _ _ _ _ _ _ _ _ _ R) as (o1 & -> & R1). pose proof (plug_app k ((false, n, b, r) :: c) (Node lm m bm Leaf)) as Ep. cbn [plug mk] in Ep.
  rewrite <- Ep in Hb. apply avl_plug in Hb as (Hb & Hc).
  destruct (remove_node_ok _ _ _ _ _ _ R1) as (o' & t' & E & R' & A' & El'); [by right|apply avl_plug; split; [done|by eapply cavl_addr]|].
  exists o', t'. split_and!; try done. rewrite El', elems_plug_split, cpre_app, cpost_app, elems_plug_split, Hk. simpl.
  destruct lm; simpl; rewrite ?app_nil_r, <- ?app_assoc; simpl; by rewrite <- ?app_assoc.
Qed.
