(* ===== verification/BAVLSpec.v ===== *)
(** * The AVL tree as an ordered collection

    The searches of [structure/BAVL.h] on a tree whose elements are in order, the
    reference that the operations are compared with (a sorted list of nodes), and
    the theorems that any sequence of operations on the pointer structure answers
    as the reference does, with the tree balanced and so of logarithmic depth. *)

From stdpp Require Import sorting.
From S2P Require Import Prelude BAVL.

(** ** Searching

    What the tree expects of its comparator: a three-way comparison of a total
    order. *)

Class Comparator {K} (cmp : K -> K -> Z) : Prop := {
  cmp_range : forall a b, cmp a b = -1 \/ cmp a b = 0 \/ cmp a b = 1;
  cmp_sym : forall a b, cmp b a = - cmp a b;
  cmp_trans : forall a b c, cmp a b = -1 -> cmp b c = -1 -> cmp a c = -1;
  cmp_eq : forall a b c, cmp a b = 0 -> cmp a c = cmp b c
}.

(** Comparisons of integers, of projections, and in sequence. *)
Definition lex {K} (c1 c2 : K -> K -> Z) (a b : K) : Z := if negb (c1 a b =? 0) then c1 a b else c2 a b.

Lemma B_COMPARE_cases x y : (x < y /\ B_COMPARE x y = -1) \/ (x = y /\ B_COMPARE x y = 0) \/ (y < x /\ B_COMPARE x y = 1).
Proof. unfold B_COMPARE. destruct (x >? y) eqn:E1, (x <? y) eqn:E2; simpl; lia. Qed.

Lemma comparator_ext {K} (c c' : K -> K -> Z) : (forall a b, c a b = c' a b) -> Comparator c -> Comparator c'.
Proof.
  intros E [H1 H2 H3 H4]. split; intros; rewrite <- ?E in *; eauto.
Qed.

#[global] Instance compare_int : Comparator B_COMPARE.
Proof.
  split.
  - intros a b. destruct (B_COMPARE_cases a b) as [[_ E] | [[_ E] | [_ E]]]; auto.
  - intros a b. destruct (B_COMPARE_cases a b), (B_COMPARE_cases b a); lia.
  - intros a b c. destruct (B_COMPARE_cases a b), (B_COMPARE_cases b c), (B_COMPARE_cases a c); lia.
  - intros a b c. destruct (B_COMPARE_cases a b); intros; [lia|]. replace b with a by lia. done.
Qed.

#[global] Instance compare_on {K L} (f : K -> L) (c : L -> L -> Z) : Comparator c -> Comparator (fun a b => c (f a) (f b)).
Proof. intros [H1 H2 H3 H4]. split; intros; eauto. Qed.

#[global] Instance compare_lex {K} (c1 c2 : K -> K -> Z) : Comparator c1 -> Comparator c2 -> Comparator (lex c1 c2).
Proof.
  intros H1 H2. assert (forall a b c, c1 b c = 0 -> c1 a c = c1 a b) as Heqr.
  { intros a b c E. rewrite (cmp_sym c a), (cmp_sym b a), <- (cmp_eq _ _ a E). done. }
  unfold lex. split.
  - intros a b. case_match; [apply H1|apply H2].
  - intros a b. rewrite (cmp_sym a b). rewrite (cmp_sym (cmp := c2) a b). destruct (Z.eqb_spec (c1 a b) 0), (Z.eqb_spec (- c1 a b) 0); simpl; lia.
  - intros a b c. destruct (Z.eqb_spec (c1 a b) 0) as [E1|E1], (Z.eqb_spec (c1 b c) 0) as [E2|E2]; simpl; intros E3 E4.
    + rewrite (cmp_eq _ _ c E1), E2. simpl. eapply cmp_trans; eauto.
    + rewrite (cmp_eq _ _ c E1), E4. done.
    + rewrite (Heqr _ _ _ E2), E3. done.
    + rewrite (cmp_trans _ _ _ E3 E4). done.
  - intros a b c E. destruct (Z.eqb_spec (c1 a b) 0) as [E1|E1]; simpl in E; [|lia]. by rewrite (cmp_eq _ _ c E1), (cmp_eq _ _ c E).
Qed.

Lemma height_length t : height t <= Z.of_nat (length (elems t)).
Proof. induction t as [|l IHl p b r IHr]; simpl; [lia|]. rewrite length_app. simpl. lia. Qed.

(** The height of a balanced tree is logarithmic. *)
Lemma avl_size t : avl t -> 2 ^ (height t / 2) <= Z.of_nat (length (elems t)) + 1.
Proof.
  induction t as [|l IHl p b r IHr]; [by vm_compute|]. intros (Hb & Hb1 & Hl & Hr). specialize (IHl Hl). specialize (IHr Hr).
  cbn [elems height]. rewrite length_app. cbn [length]. pose proof (height_nonneg l). pose proof (height_nonneg r).
  set (hl := height l) in *. set (hr := height r) in *. clearbody hl hr.
  assert (forall x y, x <= y -> 2 ^ (x / 2) <= 2 ^ (y / 2)) as Hmono by (intros x y Hxy; apply Z.pow_le_mono_r; [lia|apply Z.div_le_mono; lia]).
  assert (2 ^ ((1 + Z.max hl hr) / 2) <= 2 * 2 ^ (Z.min hl hr / 2)) as H1.
  { etransitivity; [apply (Hmono _ (Z.min hl hr + 1 * 2)); lia|]. rewrite Z.div_add by lia. rewrite Z.pow_add_r by (try apply Z.div_pos; lia). lia. }
  pose proof (Hmono (Z.min hl hr) hl ltac:(lia)). pose proof (Hmono (Z.min hl hr) hr ltac:(lia)). lia.
Qed.

Lemma avl_log t : avl t -> height t <= 2 * Z.log2 (Z.of_nat (length (elems t)) + 1) + 1.
Proof.
  intros H. apply avl_size in H. set (n := Z.of_nat _) in *. assert (height t / 2 <= Z.log2 (n + 1)) by (apply Z.log2_le_pow2; [lia|done]).
  pose proof (Z.div_mod (height t) 2 ltac:(lia)). pose proof (Z.mod_pos_bound (height t) 2 ltac:(lia)). lia.
Qed.

Section Search.
Context {K : Type} (value : Z -> K) (cmp : K -> K -> Z) `{!Comparator cmp}.

Abbreviation insert_find := (insert_find value cmp).
Abbreviation lookup_loop := (lookup_loop value cmp).

(** The order of the nodes in the tree. *)
Definition lt_node (p q : Z) : Prop := cmp (value p) (value q) = -1.
Abbreviation sorted := (StronglySorted lt_node).

(** The nodes whose values are lower and greater. *)
Definition lower (val : K) (l : list Z) : list Z := List.filter (fun p => cmp val (value p) =? 1) l.
Definition upper (val : K) (l : list Z) : list Z := List.filter (fun p => cmp val (value p) =? -1) l.
Definition equal (val : K) (l : list Z) : option Z := List.find (fun p => cmp val (value p) =? 0) l.

Lemma compare_ok a b : BAVL_compare_values cmp a b = Some (cmp a b).
Proof. unfold BAVL_compare_values. destruct (cmp_range a b) as [E | [E | E]]; by rewrite E. Qed.

(** The walk down the tree that the three searches share. *)
Fixpoint walk (t : tree) (val : K) : option (Z * option bool) :=
  match t with
  | Leaf => None
  | Node l p _ r =>
      if cmp val (value p) =? 0 then Some (p, None)
      else let side := cmp val (value p) =? 1 in
           match walk (if side then r else l) val with None => Some (p, Some side) | res => res end
  end.

Lemma walk_leaf t val : walk t val = None -> t = Leaf.
Proof. destruct t; [done|]. simpl. by repeat case_match. Qed.

Lemma treeAt_link m pr l p b r (s : bool) : treeAt m pr (Node l p b r) -> m !! p = Some (mkN pr (rt l) (rt r) b) /\ treeAt m (Some p) (if s then r else l).
Proof. intros (? & ? & ?). by destruct s. Qed.

Lemma link_rt (s : bool) pr l r b : link (mkN pr (rt l) (rt r) b) s = rt (if s then r else l).
Proof. by destruct s. Qed.

Lemma insert_find_walk fuel : forall o t pr node c,
  treeAt (nodes o) pr t -> rt t = Some c -> height t <= Z.of_nat fuel -> insert_find fuel o node c = walk t (value node).
Proof.
  induction fuel as [|fuel IH]; intros o t pr node c Ht Hr Hf; (destruct t as [|l p b r]; [done|]); injection Hr as ->; simpl in Hf;
    pose proof (height_nonneg l); pose proof (height_nonneg r); [lia|].
  simpl. unfold BAVL_compare_nodes. rewrite compare_ok. set (s := cmp _ _ =? 1). destruct (treeAt_link _ _ _ _ _ _ s Ht) as (-> & Hs). rewrite link_rt.
  destruct (_ =? 0); [done|]. destruct (rt (if s then r else l)) as [d|] eqn:E.
  - rewrite (IH _ _ _ _ _ Hs E) by (destruct s; lia). destruct (walk _ _) eqn:W; [done|]. apply walk_leaf in W. by rewrite W in E.
  - destruct (if s then r else l); done.
Qed.

Lemma lookup_walk fuel : forall ex o t pr val c,
  treeAt (nodes o) pr t -> rt t = Some c -> height t <= Z.of_nat fuel ->
  lookup_loop fuel ex o val c =
    match walk t val with
    | Some (q, None) => Some (Some q)
    | Some (q, Some _) => Some (if ex then None else Some q)
    | None => None
    end.
Proof.
  induction fuel as [|fuel IH]; intros ex o t pr val c Ht Hr Hf; (destruct t as [|l p b r]; [done|]); injection Hr as ->; simpl in Hf;
    pose proof (height_nonneg l); pose proof (height_nonneg r); [lia|].
  simpl. rewrite compare_ok. set (s := cmp _ _ =? 1). destruct (treeAt_link _ _ _ _ _ _ s Ht) as (-> & Hs). rewrite link_rt.
  destruct (_ =? 0); [done|]. destruct (rt (if s then r else l)) as [d|] eqn:E.
  - rewrite (IH _ _ _ _ _ _ Hs E) by (destruct s; lia). destruct (walk _ _) eqn:W; [done|]. apply walk_leaf in W. by rewrite W in E.
  - destruct (if s then r else l); done.
Qed.

(** The order against a value: [val] is above or below a node. *)
Definition above (val : K) (p : Z) : Prop := cmp val (value p) = 1.
Definition below (val : K) (p : Z) : Prop := cmp val (value p) = -1.

Lemma above_lt val p q : lt_node q p -> above val p -> above val q.
Proof.
  unfold lt_node, above. intros H1 H2. rewrite cmp_sym in H2 |- *. apply (f_equal Z.opp) in H2. rewrite Z.opp_involutive in H2.
  by rewrite (cmp_trans _ _ _ H1 H2).
Qed.

Lemma below_lt val p q : lt_node p q -> below val p -> below val q.
Proof. unfold lt_node, below. intros H1 H2. by apply (cmp_trans _ _ _ H2 H1). Qed.

(** Where the walk ends. *)
Definition walk_at (t : tree) (val : K) (q : Z) : Prop :=
  (walk t val = Some (q, None) /\ q ∈ elems t /\ cmp val (value q) = 0) \/
  exists s b u c, walk t val = Some (q, Some s) /\ t = plug ((s, q, b, u) :: c) Leaf /\
    Forall (above val) (cpre ((s, q, b, u) :: c)) /\ Forall (below val) (cpost ((s, q, b, u) :: c)).

(** A step of the walk. *)
Lemma walk_step s t p b u val :
  cmp val (value p) = sgn s -> Forall (above val) (cpre [(s, p, b, u)]) -> Forall (below val) (cpost [(s, p, b, u)]) ->
  (t <> Leaf -> exists q, walk_at t val q) -> exists q, walk_at (mk s t p b u) val q.
Proof.
  intros E Hpre Hpost IH. assert (walk (mk s t p b u) val = match walk t val with None => Some (p, Some s) | res => res end) as Ew.
  { destruct s; simpl in *; by rewrite E. }
  destruct (mk_cases t) as [->|(l' & p' & b' & r' & Et)].
  - exists p. right. exists s, b, u, []. rewrite Ew. by split_and!.
  - destruct IH as (q & [(W & Hq & Heq)|(s' & bq & uq & c & W & Ht & H1 & H2)]); [by subst|..]; exists q; [left|right]; rewrite W in Ew.
    + split_and!; [done| |done]. destruct s; simpl; set_solver.
    + exists s', bq, uq, (c ++ [(s, p, b, u)]). rewrite app_comm_cons, cpre_app, cpost_app, plug_app, <- Ht. split_and!; [done|done|by apply Forall_app..].
Qed.

Lemma walk_ok t val : sorted (elems t) -> t <> Leaf -> exists q, walk_at t val q.
Proof.
  induction t as [|l IHl p b r IHr]; [done|]. intros Hs _. cbn [elems] in Hs. apply StronglySorted_app in Hs as (Hlt & Hl & Hr).
  apply StronglySorted_inv in Hr as (Hr & Hpr). destruct (cmp_range val (value p)) as [E | [E | E]].
  - apply (walk_step false l p b r); simpl; [done|done| |auto]. rewrite app_nil_r. constructor; [done|].
    eapply Forall_impl; [|exact Hpr]. intros q Hq. by eapply below_lt.
  - exists p. left. simpl. rewrite E. split_and!; [done|set_solver|done].
  - apply (walk_step true r p b l); simpl; [done| |done|auto]. apply Forall_app. split; [|by repeat constructor].
    apply list.Forall_forall. intros q Hq. eapply above_lt; [|exact E]. apply Hlt; [done|]. apply elem_of_cons. by left.
Qed.

Lemma lt_irrefl p : ~ lt_node p p.
Proof. unfold lt_node. pose proof (cmp_sym (value p) (value p)). lia. Qed.

Lemma equal_found l q val : sorted l -> q ∈ l -> cmp val (value q) = 0 -> equal val l = Some q.
Proof.
  unfold equal. intros Hs Hq E. induction Hs as [|p l Hs IH Hp]; [by apply elem_of_nil in Hq|]. simpl. destruct (Z.eqb_spec (cmp val (value p)) 0) as [E'|E'].
  - apply elem_of_cons in Hq as [->|Hq]; [done|]. apply (proj1 (list.Forall_forall _ _) Hp) in Hq. unfold lt_node in Hq.
    rewrite <- (cmp_eq _ _ (value q) E'), E in Hq. lia.
  - apply elem_of_cons in Hq as [->|Hq]; [done|auto].
Qed.

(** A list split at a value that it does not contain. *)
Lemma split_ok l1 l2 val :
  Forall (above val) l1 -> Forall (below val) l2 -> equal val (l1 ++ l2) = None /\ lower val (l1 ++ l2) = l1 /\ upper val (l1 ++ l2) = l2.
Proof.
  unfold equal, lower, upper, above, below. intros H1 H2. induction H1 as [|p l1 Hp H1 (IH1 & IH2 & IH3)]; simpl.
  - induction H2 as [|p l2 Hp H2 (IH1 & IH2 & IH3)]; simpl; [done|]. rewrite Hp. simpl. rewrite IH1, IH2, IH3. done.
  - rewrite Hp. simpl. rewrite IH1, IH2, IH3. done.
Qed.

(** The node that the search ends at: one that compares equal, or a neighbour of
    the place of the value. *)
Definition nearest (val : K) (l : list Z) (q : Z) : Prop :=
  equal val l = Some q \/ (equal val l = None /\ (list.last (lower val l) = Some q \/ head (upper val l) = Some q)).

Lemma walk_nearest t val q : sorted (elems t) -> walk_at t val q ->
  nearest val (elems t) q /\ forall ex : bool, match walk t val with
    | Some (q, None) => Some (Some q)
    | Some (q, Some _) => Some (if ex then None else Some q)
    | None => None
    end = Some (if ex then equal val (elems t) else Some q).
Proof.
  intros Hs [(W & Hq & E)|(s & b & u & c & W & -> & H1 & H2)]; rewrite W.
  - rewrite (equal_found _ _ _ Hs Hq E). split; [left; by apply equal_found|by intros []].
  - rewrite elems_plug_split. cbn [elems app]. destruct (split_ok _ _ _ H1 H2) as (E1 & E2 & E3). split; [|rewrite E1; by intros []].
    right. split; [done|]. rewrite E2, E3. destruct s; cbn [cpre cpost]; [left; by rewrite app_assoc, last_snoc|by right].
Qed.

Definition lookup_from (fuel : nat) (ex : bool) (o : BAVL) (val : K) : option (option Z) :=
  match root o with None => Some None | Some c => lookup_loop fuel ex o val c end.

Lemma lookup_ok fuel ex o t val : rep o [] t -> sorted (elems t) -> height t <= Z.of_nat fuel ->
  (lookup_from fuel ex o val = Some None /\ elems t = []) \/
  exists q, nearest val (elems t) q /\ lookup_from fuel ex o val = Some (if ex then equal val (elems t) else Some q).
Proof.
  intros R Hs Hf. pose proof R as [_ Ht _ Hr]. unfold lookup_from. rewrite Hr. cbn [top].
  destruct (mk_cases t) as [->|(l & p & b & r & Et)]; [by left|]. right. destruct (walk_ok t val Hs) as (q & Hq); [by subst|].
  destruct (walk_nearest _ _ _ Hs Hq) as (Hn & E). exists q. split; [done|]. assert (rt t = Some p) as Hp by by subst. rewrite Hp.
  rewrite (lookup_walk _ _ _ _ _ _ _ Ht Hp) by lia. apply E.
Qed.

Lemma insert_ok o t node : rep o [] t -> sorted (elems t) -> avl t -> node ∉ elems t ->
  exists res ref o' t', BAVL_Insert value cmp o node = Some (res, ref, o') /\ rep o' [] t' /\ avl t' /\
    (match ref with Some q => nearest (value node) (elems t) q | None => elems t = [] end) /\
    match equal (value node) (elems t) with
    | Some _ => res = false /\ o' = o /\ t' = t
    | None => res = true /\ elems t' = lower (value node) (elems t) ++ node :: upper (value node) (elems t)
    end.
Proof.
  intros R Hs Hb Hnode. pose proof (rep_fuel _ _ R) as Hf. pose proof R as [_ Ht _ Hr]. unfold BAVL_Insert. rewrite Hr. cbn [top].
  destruct (mk_cases t) as [->|(l & p & bp & r & Et)].
  { eexists _, _, _, (Node Leaf node 0 Leaf). split; [done|]. split_and!; simpl; try done; try lia. split; simpl; [|rewrite lookup_insert_eq; done|done|done].
    intros q. unfold one. case_decide; lia. }
  assert (rt t = Some p) as Hp by by subst. rewrite Hp, (insert_find_walk _ _ _ _ _ _ Ht Hp) by (pose proof (height_length t); lia).
  destruct (walk_ok t (value node) Hs) as (q & Hq); [by subst|]. destruct (walk_nearest _ _ _ Hs Hq) as (Hn & _).
  destruct Hq as [(W & Hq & E)|(s & b & u & c & W & Et' & H1 & H2)]; rewrite W.
  { eexists _, _, _, t. split; [done|]. rewrite (equal_found _ _ _ Hs Hq E). by split_and!. }
  clear Et Hp. rewrite Et' in R, Hb, Hnode. apply rep_plug in R. destruct (rep_grow _ _ _ _ _ _ _ R Hnode) as (o1 & -> & R1).
  pose proof (proj1 (avl_plug _ _) Hb) as (_ & Hc). set (o2 := mkT _ _) in *.
  pose proof (rep_fuel _ _ (proj1 (rep_plug _ _ _) R1)) as Hf2. pose proof (length_plug ((s, q, b, u) :: c) (Node Leaf node 0 Leaf)) as Hl2.
  destruct (rebalance_ok _ _ _ _ _ _ _ 0 1 (fuel_of o2) R1) as (o3 & t3 & -> & R3 & A3 & E3); [simpl; lia|done|done|lia|simpl in *; lia|].
  eexists _, _, _, t3. split; [done|]. split_and!; try done. rewrite Et', elems_plug_split. cbn [elems app].
  destruct (split_ok _ _ _ H1 H2) as (-> & -> & ->). split; [done|]. by rewrite E3, elems_plug_split.
Qed.

(** ** The checks of [BAVL_Verify] *)

Lemma assert_recurser_ok fuel : forall o t pr c,
  treeAt (nodes o) pr t -> rt t = Some c -> avl t -> sorted (elems t) -> height t <= Z.of_nat fuel ->
  assert_recurser value cmp fuel o c = Some (height t).
Proof.
  induction fuel as [|fuel IH]; intros o t pr c Ht Hr Hb Hs Hf; (destruct t as [|l p b r]; [done|]); injection Hr as ->; simpl in Hf;
    pose proof (height_nonneg l); pose proof (height_nonneg r); [lia|].
  destruct Ht as (Hp & Hl & Hrr), Hb as (Hb & Hb1 & Bl & Br). cbn [elems] in Hs. apply StronglySorted_app in Hs as (Hlt & Sl & Sr).
  apply StronglySorted_inv in Sr as (Sr & Hpr). cbn [assert_recurser]. rewrite Hp. cbn [balance link link0 link1].
  replace (in_pm1 b) with true by (unfold in_pm1; lia).
  assert (forall t (res : Z), treeAt (nodes o) (Some c) t -> avl t -> sorted (elems t) -> height t <= Z.of_nat fuel ->
    (forall m, m ∈ elems t -> cmp (value m) (value c) = res) ->
    match rt t with
    | None => Some 0
    | Some m => match nodes o !! m with
        | Some md => if bool_decide (parent md = Some c) then
            match BAVL_compare_nodes value cmp m c with Some comp => if comp =? res then assert_recurser value cmp fuel o m else None | None => None end else None
        | None => None
        end
    end = Some (height t)) as Hchild.
  { intros t res Tt Bt St Ft Hres. destruct (mk_cases t) as [->|(tl & m & bm & tr & Et)]; [done|]. assert (rt t = Some m) as Em by by subst. rewrite Em.
    destruct (treeAt_node _ _ _ _ Tt Em true) as (x & b' & y & _ & -> & _). rewrite parent_node_of, bool_decide_true by done.
    unfold BAVL_compare_nodes. rewrite compare_ok, Hres by (apply elem_cnt, rt_cnt, Em). rewrite Z.eqb_refl. by apply (IH _ _ (Some c)). }
  rewrite (Hchild l (-1)); [|done|done|done|lia|intros m Hm; apply Hlt; [done|]; apply elem_of_cons; by left].
  rewrite (Hchild r 1); [|done|done|done|lia|intros m Hm; rewrite cmp_sym; by rewrite (proj1 (list.Forall_forall _ _) Hpr m Hm)].
  replace (b =? height r - height l) with true by lia. f_equal. unfold BAVL_MAX. simpl. case_match; lia.
Qed.

Lemma verify_ok o t : rep o [] t -> avl t -> sorted (elems t) -> BAVL_Verify value cmp o = true.
Proof.
  intros R Hb Hs. pose proof R as [_ Ht _ Hr]. pose proof (rep_fuel _ _ R). pose proof (height_length t). unfold BAVL_Verify. rewrite Hr. cbn [top].
  destruct (rt t) as [c|] eqn:E; [|done]. destruct (treeAt_node _ _ _ _ Ht E true) as (x & b' & y & _ & -> & _).
  rewrite parent_node_of, (assert_recurser_ok _ _ _ _ _ Ht E Hb Hs) by lia. rewrite !bool_decide_true; [done|by eexists|done].
Qed.
End Search.

(** ** The reference: a sorted list of nodes *)

Section Reference.
Context {K : Type} (cmp : K -> K -> Z).

Inductive tree_op :=
  | OpInsert (node : Z) (val : K)   (* write the value of the node, then insert it *)
  | OpRemove (node : Z)
  | OpLookup (val : K)
  | OpLookupExact (val : K)
  | OpIsEmpty
  | OpGetFirst
  | OpGetLast
  | OpGetNext (node : Z)
  | OpGetPrev (node : Z).

Inductive tree_res :=
  | RInsert (res : bool) (ref : option Z)
  | RNode (node : option Z)
  | RBool (b : bool)
  | RUnit.

Definition write (node : Z) (val : K) (value : Z -> K) : Z -> K := fun p => if p =? node then val else value p.

(** The values of the nodes and the tree. *)
Abbreviation mem_t := ((Z -> K) * BAVL)%type.

Definition exec (st : mem_t) (op : tree_op) : option (tree_res * mem_t) :=
  let '(value, o) := st in
  match op with
  | OpInsert node val =>
      let value := write node val value in
      let* (res, ref, o) := BAVL_Insert value cmp o node in Some (RInsert res ref, (value, o))
  | OpRemove node => let* o := BAVL_Remove o node in Some (RUnit, (value, o))
  | OpLookup val => let* n := BAVL_Lookup value cmp o val in Some (RNode n, st)
  | OpLookupExact val => let* n := BAVL_LookupExact value cmp o val in Some (RNode n, st)
  | OpIsEmpty => Some (RBool (BAVL_IsEmpty o), st)
  | OpGetFirst => let* n := BAVL_GetFirst o in Some (RNode n, st)
  | OpGetLast => let* n := BAVL_GetLast o in Some (RNode n, st)
  | OpGetNext node => let* n := BAVL_GetNext o node in Some (RNode n, st)
  | OpGetPrev node => let* n := BAVL_GetPrev o node in Some (RNode n, st)
  end.

(** The values and the nodes in the tree, in order. *)
Abbreviation ref_t := ((Z -> K) * list Z)%type.

(** What the callers have to see to: a node is inserted when it is not in the
    tree, and removed or stepped from when it is. *)
Definition ref_legal (r : ref_t) (op : tree_op) : bool :=
  match op with
  | OpInsert node _ => bool_decide (node ∉ r.2)
  | OpRemove node | OpGetNext node | OpGetPrev node => bool_decide (node ∈ r.2)
  | _ => true
  end.

Definition ref_step (r : ref_t) (op : tree_op) : ref_t :=
  let '(value, l) := r in
  match op with
  | OpInsert node val =>
      let value := write node val value in
      (value, match equal value cmp val l with
              | Some _ => l
              | None => lower value cmp val l ++ node :: upper value cmp val l
              end)
  | OpRemove node => (value, list_remove node l)
  | _ => r
  end.

Fixpoint after (node : Z) (l : list Z) : option Z :=
  match l with [] => None | x :: l => if x =? node then head l else after node l end.

Definition ref_answer (r : ref_t) (op : tree_op) (res : tree_res) : Prop :=
  let '(value, l) := r in
  match op with
  | OpInsert node val =>
      let value := write node val value in
      exists ref, res = RInsert (bool_decide (equal value cmp val l = None)) ref /\
        match ref with Some q => nearest value cmp val l q | None => l = [] end
  | OpRemove _ => res = RUnit
  | OpLookup val => exists ref, res = RNode ref /\ match ref with Some q => nearest value cmp val l q | None => l = [] end
  | OpLookupExact val => res = RNode (equal value cmp val l)
  | OpIsEmpty => res = RBool (bool_decide (l = []))
  | OpGetFirst => res = RNode (head l)
  | OpGetLast => res = RNode (list.last l)
  | OpGetNext node => res = RNode (after node l)
  | OpGetPrev node => res = RNode (after node (reverse l))
  end.

(** Sequences of operations. *)
Fixpoint exec_all (st : mem_t) (ops : list tree_op) : option (list tree_res * mem_t) :=
  match ops with
  | [] => Some ([], st)
  | op :: ops => let* (res, st) := exec st op in
                 let* (ress, st) := exec_all st ops in Some (res :: ress, st)
  end.
Fixpoint all_legal (r : ref_t) (ops : list tree_op) : bool :=
  match ops with [] => true | op :: ops => ref_legal r op && all_legal (ref_step r op) ops end.
Fixpoint all_answers (r : ref_t) (ops : list tree_op) (ress : list tree_res) : Prop :=
  match ops, ress with
  | [], [] => True
  | op :: ops, res :: ress => ref_answer r op res /\ all_answers (ref_step r op) ops ress
  | _, _ => False
  end.

(** ** The operations answer as the reference does *)

Context `{!Comparator cmp}.

(** The tree holds the nodes of the reference. *)
Definition holds (st : mem_t) (r : ref_t) : Prop :=
  st.1 = r.1 /\ StronglySorted (lt_node (st.1) cmp) (r.2) /\ exists t, rep (st.2) [] t /\ avl t /\ elems t = r.2.

Lemma sorted_ext value value' l :
  (forall p, p ∈ l -> value p = value' p) -> StronglySorted (lt_node value cmp) l -> StronglySorted (lt_node value' cmp) l.
Proof.
  intros E. induction 1 as [|p l Hs IH Hp]; [constructor|]. constructor.
  - apply IH. intros q Hq. apply E. apply elem_of_cons. by right.
  - apply list.Forall_forall. intros q Hq. unfold lt_node. rewrite <- !E by (apply elem_of_cons; auto). by apply (proj1 (list.Forall_forall _ _) Hp).
Qed.

Lemma write_same node val value : write node val value node = val.
Proof. unfold write. by rewrite Z.eqb_refl. Qed.
Lemma write_other node val value p : p <> node -> write node val value p = value p.
Proof. unfold write. by intros ->%Z.eqb_neq. Qed.

Lemma sorted_filter R (f : Z -> bool) l : StronglySorted R l -> StronglySorted R (List.filter f l).
Proof.
  induction 1 as [|p l Hs IH Hp]; simpl; [constructor|]. destruct (f p); [|done]. constructor; [done|].
  apply List.Forall_forall. intros q [Hq _]%filter_In. by apply (proj1 (List.Forall_forall _ _) Hp).
Qed.

Lemma elem_lower value val l p : p ∈ lower value cmp val l -> cmp (value p) val = -1.
Proof. unfold lower. rewrite list_elem_of_In, filter_In. intros [_ E]. rewrite cmp_sym. lia. Qed.
Lemma elem_upper value val l p : p ∈ upper value cmp val l -> cmp val (value p) = -1.
Proof. unfold upper. rewrite list_elem_of_In, filter_In. intros [_ E]. lia. Qed.

(** Inserting at the place of the value keeps the order. *)
Lemma sorted_insert value l node val :
  value node = val -> StronglySorted (lt_node value cmp) l ->
  StronglySorted (lt_node value cmp) (lower value cmp val l ++ node :: upper value cmp val l).
Proof.
  intros Ev Hs. apply StronglySorted_app. split_and!; [|by apply sorted_filter|constructor; [by apply sorted_filter|]].
  - intros x y Hx Hy. apply elem_lower in Hx. unfold lt_node. apply elem_of_cons in Hy as [->|Hy]; [by rewrite Ev|].
    apply elem_upper in Hy. by apply (cmp_trans _ _ _ Hx Hy).
  - apply list.Forall_forall. intros y Hy. apply elem_upper in Hy. unfold lt_node. by rewrite Ev.
Qed.

Lemma after_split node l1 l2 : node ∉ l1 -> after node (l1 ++ node :: l2) = head l2.
Proof.
  induction l1 as [|x l1 IH]; simpl; intros Hn; [by rewrite Z.eqb_refl|]. apply not_elem_of_cons in Hn as (Hx & Hn).
  destruct (Z.eqb_spec x node); [congruence|auto].
Qed.

Lemma list_remove_split node l1 l2 : node ∉ l1 -> node ∉ l2 -> list_remove node (l1 ++ node :: l2) = l1 ++ l2.
Proof.
  intros H1 H2. unfold list_remove. rewrite List.filter_app. simpl. rewrite Z.eqb_refl. simpl. fold (list_remove node l1) (list_remove node l2).
  by rewrite !list_remove_notin.
Qed.

(** The outcome of a step. *)
Definition step_ok (st : mem_t) (r : ref_t) (op : tree_op) : Prop :=
  exists res st', exec st op = Some (res, st') /\ holds st' (ref_step r op) /\ ref_answer r op res.

Lemma step_insert st r node val : holds st r -> node ∉ r.2 -> step_ok st r (OpInsert node val).
Proof.
  destruct st as [value o], r as [value' l]. intros (Ev & Hs & t & R & Hb & El) Hn. cbn [fst snd] in *. subst value' l.
  set (value2 := write node val value). assert (StronglySorted (lt_node value2 cmp) (elems t)) as Hs2.
  { eapply sorted_ext; [|exact Hs]. intros p Hp. subst value2. rewrite write_other; [done|congruence]. }
  assert (value2 node = val) as Ev by apply write_same.
  destruct (insert_ok value2 cmp o t node R Hs2 Hb Hn) as (res & ref & o' & t' & E & R' & Hb' & Href & Hres). rewrite Ev in *.
  exists (RInsert res ref), (value2, o'). cbn [exec ref_step ref_answer]. fold value2. rewrite E. split_and!; [done| |].
  - destruct (equal value2 cmp val (elems t)) as [q|] eqn:Eq.
    + destruct Hres as (_ & -> & ->). split_and!; [done|done|]. by exists t.
    + destruct Hres as (_ & El'). split_and!; [done|by apply sorted_insert|]. by exists t'.
  - exists ref. split; [|done]. f_equal. destruct (equal value2 cmp val (elems t)); destruct Hres as (-> & _); [by rewrite bool_decide_false|by rewrite bool_decide_true].
Qed.

Lemma holds_focus st r node : holds st r -> node ∈ r.2 ->
  exists c l b r', rep (st.2) c (Node l node b r') /\ avl (plug c (Node l node b r')) /\
    r.2 = (cpre c ++ elems l) ++ (node :: elems r' ++ cpost c) /\ (node ∉ cpre c ++ elems l) /\ (node ∉ elems r' ++ cpost c).
Proof.
  intros (_ & _ & t & R & Hb & El) Hn. pose proof (rep_NoDup _ _ R) as Hnd. rewrite <- El in Hn. destruct (focus t node Hn) as (c & l & b & r' & ->).
  exists c, l, b, r'. rewrite elems_plug_split in *. cbn [elems] in *. rewrite <- El, <- !app_assoc in *. cbn [app] in *.
  split_and!; [by apply rep_plug|done|done|..]; rewrite app_assoc in Hnd; apply list.NoDup_app in Hnd as (_ & Hd & Hnd).
  - intros Hc. apply (Hd node Hc). apply elem_of_cons. by left.
  - by apply list.NoDup_cons in Hnd as (? & _).
Qed.

Lemma step_remove st r node : holds st r -> node ∈ r.2 -> step_ok st r (OpRemove node).
Proof.
  intros H Hn. destruct (holds_focus _ _ _ H Hn) as (c & l & b & r' & R & Hb & El & H1 & H2). destruct (remove_ok _ _ _ _ _ _ R Hb) as (o' & t' & E & R' & Hb' & El').
  destruct H as (Ev & Hs & _), st as [value o], r as [value' lst]. cbn [fst snd] in *. subst value' lst.
  exists RUnit, (value, o'). cbn [exec ref_step]. rewrite E. rewrite list_remove_split by done. split_and!; [done| |done]. split_and!; [done| |by exists t'].
  cbn [fst snd]. apply StronglySorted_app in Hs as (Hlt & Hs1 & Hs2). apply StronglySorted_inv in Hs2 as (Hs2 & _). apply StronglySorted_app.
  split_and!; [|done|done]. intros x y Hx Hy. apply Hlt; [done|]. apply elem_of_cons. by right.
Qed.

Lemma step_adjacent st r node :
  holds st r -> node ∈ r.2 -> step_ok st r (OpGetNext node) /\ step_ok st r (OpGetPrev node).
Proof.
  intros H Hn. destruct (holds_focus _ _ _ H Hn) as (c & l & b & r' & R & Hb & El & H1 & H2).
  pose proof (get_adjacent_ok true _ _ _ _ _ _ R) as En. pose proof (get_adjacent_ok false _ _ _ _ _ _ R) as Ep.
  destruct st as [value o], r as [value' lst]. cbn [fst snd] in *. split; eexists _, (value, o); unfold exec, BAVL_GetNext, BAVL_GetPrev; cbn [ref_step ref_answer].
  - rewrite En. split_and!; [done|done|]. f_equal. rewrite El. by rewrite after_split.
  - rewrite Ep. split_and!; [done|done|]. f_equal. rewrite El, reverse_app, reverse_cons, <- app_assoc. cbn [app].
    rewrite after_split by by rewrite elem_of_reverse. by rewrite head_reverse.
Qed.

Lemma step_lookup st r val : holds st r -> step_ok st r (OpLookup val) /\ step_ok st r (OpLookupExact val).
Proof.
  intros H. pose proof H as (Ev & Hs & t & R & Hb & El). destruct st as [value o], r as [value' lst]. cbn [fst snd] in *. subst value' lst.
  assert (height t <= Z.of_nat (fuel_of o)) as Hf by (pose proof (rep_fuel _ _ R); pose proof (height_length t); lia).
  split; unfold step_ok; cbn [exec ref_step ref_answer].
  - destruct (lookup_ok value cmp _ false _ _ val R Hs Hf) as [(E & El)|(q & Hq & E)]; change (BAVL_Lookup value cmp o val) with (lookup_from value cmp (fuel_of o) false o val);
      rewrite E; eexists _, (value, o); (split_and!; [done|done|]); by eexists.
  - destruct (lookup_ok value cmp _ true _ _ val R Hs Hf) as [(E & El)|(q & Hq & E)]; change (BAVL_LookupExact value cmp o val) with (lookup_from value cmp (fuel_of o) true o val);
      rewrite E; eexists _, (value, o); (split_and!; [done|done|]); by rewrite ?El.
Qed.

Lemma exec_ok st r op : holds st r -> ref_legal r op = true -> step_ok st r op.
Proof.
  intros H Hl. destruct op as [node val|node|val|val| | | |node|node]; cbn [ref_legal] in Hl; rewrite ?bool_decide_eq_true in Hl.
  - by apply step_insert.
  - by apply step_remove.
  - by apply step_lookup.
  - by apply step_lookup.
  - destruct H as (Ev & Hs & t & R & Hb & El), st as [value o], r as [value' l]. exists (RBool (BAVL_IsEmpty o)), (value, o). split_and!; [done|by split_and!; eauto|].
    cbn [ref_answer fst snd] in *. f_equal. unfold BAVL_IsEmpty. rewrite (rep_root _ _ _ R). cbn [top]. apply bool_decide_ext. rewrite <- El. destruct t as [|lt p b rt]; [done|]. simpl. by destruct (elems lt).
  - pose proof H as (_ & _ & t & R & _ & El). destruct st as [value o], r as [value' l]. cbn [fst snd] in *. exists (RNode (head l)), (value, o).
    cbn [exec]. unfold BAVL_GetFirst. rewrite (get_end_ok false _ _ R), El. by split_and!.
  - pose proof H as (_ & _ & t & R & _ & El). destruct st as [value o], r as [value' l]. cbn [fst snd] in *. exists (RNode (list.last l)), (value, o).
    cbn [exec]. unfold BAVL_GetLast. rewrite (get_end_ok true _ _ R), El. by split_and!.
  - by apply step_adjacent.
  - by apply step_adjacent.
Qed.

(** The reference after a sequence. *)
Definition ref_all (r : ref_t) (ops : list tree_op) : ref_t := foldl ref_step r ops.

Lemma exec_all_ok ops : forall st r, holds st r -> all_legal r ops = true ->
  exists ress st', exec_all st ops = Some (ress, st') /\ holds st' (ref_all r ops) /\ all_answers r ops ress.
Proof.
  induction ops as [|op ops IH]; intros st r H Hl; simpl in Hl; [by exists [], st|]. apply andb_true_iff in Hl as [Hl1 Hl2].
  destruct (exec_ok _ _ _ H Hl1) as (res & st1 & E1 & H1 & A1). destruct (IH _ _ H1 Hl2) as (ress & st2 & E2 & H2 & A2).
  exists (res :: ress), st2. simpl. rewrite E1, E2. by split_and!.
Qed.

Lemma holds_init mem value : holds (value, BAVL_Init mem) (value, []).
Proof. split_and!; [done|constructor|]. exists Leaf. split_and!; [|done|done]. split; simpl; [lia|done..]. Qed.

Lemma holds_verify st r : holds st r -> BAVL_Verify (st.1) cmp (st.2) = true.
Proof. intros (E & Hs & t & R & Hb & El). eapply verify_ok; [done..|by rewrite El]. Qed.

(** C2. Any sequence of calls on a fresh tree, in which nodes are inserted when they
    are not in the tree and removed or stepped from when they are, runs to its end
    (no loop runs on, no link is followed to nowhere and no assertion fails), and
    every answer is that of the reference, a list of the nodes sorted by value:
    insertion refuses a value that is present, the exact search finds the node of a
    value, the other search and the [ref] of an insertion give a neighbour of the
    value, first, last, next and previous follow the order. The parent links, the
    order, and the balance factors are then as [BAVL_Verify] demands. *)
Theorem bavl_refines mem value ops :
  all_legal (value, []) ops = true ->
  exists ress value' o', exec_all (value, BAVL_Init mem) ops = Some (ress, (value', o')) /\
    all_answers (value, []) ops ress /\ BAVL_Verify value' cmp o' = true.
Proof.
  intros Hl. destruct (exec_all_ok ops _ _ (holds_init mem value) Hl) as (ress & [value' o'] & E & H & A).
  exists ress, value', o'. split_and!; [done|done|]. exact (holds_verify _ _ H).
Qed.

(** The searches are logarithmic: after any such sequence the search loop needs at
    most [2 log2 (n + 1) + 1] comparisons for [n] nodes in the tree: with that
    many rounds it gives the answer of the reference. *)
Theorem bavl_depth mem value ops ress value' o' val :
  all_legal (value, []) ops = true -> exec_all (value, BAVL_Init mem) ops = Some (ress, (value', o')) ->
  let l := (ref_all (value, []) ops).2 in
  let rounds := Z.to_nat (2 * Z.log2 (zlen l + 1) + 1) in
  lookup_from value' cmp rounds true o' val = Some (equal value' cmp val l).
Proof.
  intros Hl E. destruct (exec_all_ok ops _ _ (holds_init mem value) Hl) as (ress' & st' & E' & (Ev & Hs & t & R & Hb & El) & _).
  rewrite E in E'. injection E' as <- <-. intros l rounds. cbn [fst snd] in Ev, Hs, R. rewrite <- El in Hs.
  destruct (lookup_ok value' cmp rounds true o' t val R Hs) as [(E1 & E2)|(q & _ & E1)]; [|rewrite E1; subst l; by rewrite <- El, ?E2..].
  pose proof (avl_log t Hb). subst rounds l. rewrite <- El. unfold zlen. pose proof (Z.log2_nonneg (Z.of_nat (length (elems t)) + 1)). lia.
Qed.
End Reference.

(** ** Witnesses *)

Definition ex_cmp (a b : Z) : Z := if a <? b then -1 else if b <? a then 1 else 0.

#[global] Instance ex_cmp_ok : Comparator ex_cmp.
Proof. unfold ex_cmp. split; intros; repeat case_match; lia. Qed.

(** Ascending insertions, a refused one, removals of a node with two children and
    of the root, and searches. *)
Definition ex_ops : list (@tree_op Z) :=
  [OpInsert 100 10; OpInsert 101 20; OpInsert 102 30; OpInsert 103 40; OpInsert 104 50; OpInsert 105 20; OpInsert 106 25;
   OpRemove 101; OpRemove 103; OpLookupExact 25; OpLookup 27; OpGetNext 106; OpGetPrev 100; OpGetLast; OpRemove 104; OpInsert 104 5; OpGetFirst; OpIsEmpty].

Lemma bavl_refines_witness : exists ress value' o', exec_all ex_cmp (fun _ => 0, BAVL_Init ∅) ex_ops = Some (ress, (value', o')) /\
  all_answers ex_cmp (fun _ => 0, []) ex_ops ress /\ BAVL_Verify value' ex_cmp o' = true.
Proof. apply (bavl_refines ex_cmp ∅ (fun _ => 0) ex_ops). vm_compute. reflexivity. Defined.

Definition ex_end : list tree_res * ((Z -> Z) * BAVL) :=
  match exec_all ex_cmp (fun _ => 0, BAVL_Init ∅) ex_ops with Some r => r | None => ([], (fun _ => 0, BAVL_Init ∅)) end.

Lemma bavl_depth_witness :
  lookup_from (ex_end.2.1) ex_cmp 5 true (ex_end.2.2) 25 = Some (equal (ex_end.2.1) ex_cmp 25 (ref_all ex_cmp (fun _ => 0, []) ex_ops).2).
Proof. apply (bavl_depth ex_cmp ∅ (fun _ => 0) ex_ops (ex_end.1)); vm_compute; reflexivity. Defined.

