(* ===== verification/CAvl.v ===== *)
(** * [structure/CAvl_impl.h] and [structure/SAvl_impl.h]: the other AVL tree

    The tree template that the reactor keeps its timers in
    ([BReactor_badvpn_timerstree.h]) and, through SAvl, PacketPassFairQueue its
    flows ([flow/PacketPassFairQueue_tree.h]). Both instances have no counts, no
    associative values and no keys, and their links are pointers, so [CAvlDeref]
    gives the node at the link and a reference is its link. The functions hand the
    parents of nodes on where [structure/BAVL.h] reads them; on every tree they
    compute what those of [BAVL] do, so that the theorems on [BAVL] hold of them. *)

From stdpp Require Import sorting.
From S2P Require Import Prelude BAVL BAVLSpec.

(** ** Operations *)

(** [None] is [NULL]. *)
Abbreviation CAvlRef := (option Z).

(** The node of a reference; [NULL] is not dereferenced. *)
Definition deref (o : BAVL) (r : CAvlRef) : option BAVLNode := let* p := r in nodes o !! p.

Definition CAvl_check_parent (o : BAVL) (p : CAvlRef) (c : Z) : option bool :=
  let* n := nodes o !! c in
  if bool_decide (p = parent n) then
    match p with
    | None => Some true
    | Some p => let* pn := nodes o !! p in
                Some (bool_decide (link0 pn = Some c) || bool_decide (link1 pn = Some c))
    end
  else Some false.

Definition CAvl_rotate (o : BAVL) (r : Z) (dir : bool) (r_parent : CAvlRef) : option BAVL :=
  let* ok := CAvl_check_parent o r_parent r in
  ASSERT (ok : bool) ;;
  let* n := nodes o !! r in
  let* nr := link n (negb dir) in
  let* nn := nodes o !! nr in
  let* o := upd o r (set_link (negb dir) (link nn dir)) in
  let* o := set_parent_opt o (link nn dir) (Some r) in
  let* o := upd o nr (set_link dir (Some r)) in
  let* o := upd o nr (set_parent r_parent) in
  let* o := set_link_from_parent o r_parent r (Some nr) in
  upd o r (set_parent (Some nr)).

Definition CAvl_subtree_min (o : BAVL) (n : Z) : option Z := subtree_end (fuel_of o) false o n.
Definition CAvl_subtree_max (o : BAVL) (n : Z) : option Z := subtree_end (fuel_of o) true o n.

Definition CAvl_replace_subtree_fix_assoc (o : BAVL) (dest : Z) (n dest_parent : CAvlRef) : option BAVL :=
  let* ok := CAvl_check_parent o dest_parent dest in
  ASSERT (ok : bool) ;;
  let* o := set_link_from_parent o dest_parent dest n in
  match n with
  | Some n => let* d := nodes o !! dest in upd o n (set_parent (parent d))
  | None => Some o
  end.

(** The branch for nodes that are directly connected. *)
Definition swap_connected (o : BAVL) (node enode : Z) (node_parent : CAvlRef) : option BAVL :=
  let* d := nodes o !! node in
  let* e := nodes o !! enode in
  let side := bool_decide (link1 d = Some enode) in
  let c := link d (negb side) in
  let* o := upd o node (set_link false (link0 e)) in
  let* o := set_parent_opt o (link0 e) (Some node) in
  let* o := upd o node (set_link true (link1 e)) in
  let* o := set_parent_opt o (link1 e) (Some node) in
  let* d := nodes o !! node in
  let* o := upd o enode (set_parent (parent d)) in
  let* o := set_link_from_parent o node_parent node (Some enode) in
  let* o := upd o enode (set_link side (Some node)) in
  let* o := upd o node (set_parent (Some enode)) in
  let* o := upd o enode (set_link (negb side) c) in
  set_parent_opt o c (Some enode).

(** The other branch. *)
Definition swap_distant (o : BAVL) (node enode : Z) (node_parent enode_parent : CAvlRef) : option BAVL :=
  let* e := nodes o !! enode in
  let* o := upd o node (set_parent (parent e)) in
  let* o := set_link_from_parent o enode_parent enode (Some node) in
  let* o := upd o enode (set_parent node_parent) in
  let* o := set_link_from_parent o node_parent node (Some enode) in
  let swap_children (s : bool) (o : BAVL) := (
    let* d := nodes o !! node in
    let* e := nodes o !! enode in
    let* o := upd o node (set_link s (link e s)) in
    let* o := set_parent_opt o (link e s) (Some node) in
    let* o := upd o enode (set_link s (link d s)) in
    set_parent_opt o (link d s) (Some enode)) in
  let* o := swap_children false o in
  swap_children true o.

Definition CAvl_swap_for_remove (o : BAVL) (node enode : Z) (node_parent enode_parent : CAvlRef) : option BAVL :=
  let* ok := CAvl_check_parent o node_parent node in
  ASSERT (ok : bool) ;;
  let* ok := CAvl_check_parent o enode_parent enode in
  ASSERT (ok : bool) ;;
  let* o := (if bool_decide (enode_parent = Some node) then swap_connected o node enode node_parent
             else swap_distant o node enode node_parent enode_parent) in
  let* d := nodes o !! node in
  let* e := nodes o !! enode in
  let* o := upd o node (set_balance (balance e)) in
  upd o enode (set_balance (balance d)).

(** "perform transformations if the balance factor is wrong" *)
Definition transform (o : BAVL) (node : Z) (delta : Z) : option (BAVL * Z * Z) :=
  let* n := nodes o !! node in
  if (balance n =? 2) || (balance n =? -2) then
    let bside := balance n =? 2 in
    let bsidef := if bside then 1 else -1 in
    let* child := link n bside in
    let* cn := nodes o !! child in
    if balance cn * bsidef =? 1 then
      let* o := CAvl_rotate o node (negb bside) (parent n) in
      let* o := upd o node (set_balance 0) in
      let* o := upd o child (set_balance 0) in
      Some (o, child, delta - 1)
    else if balance cn * bsidef =? 0 then
      let* o := CAvl_rotate o node (negb bside) (parent n) in
      let* o := upd o node (set_balance (1 * bsidef)) in
      let* o := upd o child (set_balance (-1 * bsidef)) in
      Some (o, child, delta)
    else if balance cn * bsidef =? -1 then
      let* gchild := link cn (negb bside) in
      let* gn := nodes o !! gchild in
      let* o := CAvl_rotate o child bside (Some node) in
      let* n := nodes o !! node in
      let* o := CAvl_rotate o node (negb bside) (parent n) in
      let* o := upd o node (set_balance (- BAVL_MAX 0 (balance gn * bsidef) * bsidef)) in
      let* o := upd o child (set_balance (BAVL_MAX 0 (- balance gn * bsidef) * bsidef)) in
      let* o := upd o gchild (set_balance 0) in
      Some (o, gchild, delta - 1)
    else None
  else Some (o, node, delta).

Fixpoint CAvl_rebalance (fuel : nat) (o : BAVL) (node : Z) (side : bool) (deltac : Z) : option BAVL :=
  match fuel with
  | O => None
  | S fuel =>
      let* n := nodes o !! node in
      ASSERT (in_pm1 deltac) ;;
      ASSERT (in_pm1 (balance n)) ;;
      if deltac =? 0 then Some o
      else
        let delta := BAVL_MAX deltac (BAVL_OPTNEG (balance n) side) - BAVL_MAX 0 (BAVL_OPTNEG (balance n) side) in
        ASSERT (in_pm1 delta) ;;
        let* o := upd o node (set_balance (balance n - BAVL_OPTNEG deltac side)) in
        let* (o, node, delta) := transform o node delta in
        ASSERT (in_pm1 delta) ;;
        let* n := nodes o !! node in
        match parent n with
        | Some p => let* pn := nodes o !! p in CAvl_rebalance fuel o p (bool_decide (link1 pn = Some node)) delta
        | None => Some o
        end
  end.

Definition CAvl_Init (mem : gmap Z BAVLNode) : BAVL := mkT None mem.

(** The part of [CAvl_Remove] after the swap. *)
Definition cut_node (o : BAVL) (node : Z) : option BAVL :=
  let* n := nodes o !! node in
  ASSERT (bool_decide (link0 n = None) || bool_decide (link1 n = None)) ;;
  let paren := parent n in
  let child := (if bool_decide (link0 n <> None) then link0 n else link1 n) in
  match paren with
  | Some p =>
      let* pn := nodes o !! p in
      let side := bool_decide (link1 pn = Some node) in
      let* o := CAvl_replace_subtree_fix_assoc o node child paren in
      CAvl_rebalance (fuel_of o) o p side (-1)
  | None => CAvl_replace_subtree_fix_assoc o node child paren
  end.

Definition CAvl_Remove (o : BAVL) (node : Z) : option BAVL :=
  ASSERT (bool_decide (root o <> None)) ;;
  let* n := nodes o !! node in
  let* o := (match link0 n, link1 n with
             | Some l, Some _ =>
                 let* max := CAvl_subtree_max o l in
                 let* m := nodes o !! max in
                 CAvl_swap_for_remove o node max (parent n) (parent m)
             | _, _ => Some o
             end) in
  cut_node o node.

Definition CAvl_GetFirst (o : BAVL) : option CAvlRef :=
  match root o with
  | None => Some None
  | Some c => let* n := CAvl_subtree_min o c in Some (Some n)
  end.
Definition CAvl_GetLast (o : BAVL) : option CAvlRef :=
  match root o with
  | None => Some None
  | Some c => let* n := CAvl_subtree_max o c in Some (Some n)
  end.

Definition CAvl_GetNext (o : BAVL) (node : Z) : option CAvlRef :=
  ASSERT (bool_decide (root o <> None)) ;;
  let* n := nodes o !! node in
  match link n true with
  | Some m => let* e := subtree_end (fuel_of o) false o m in Some (Some e)
  | None => climb (fuel_of o) true o node
  end.
Definition CAvl_GetPrev (o : BAVL) (node : Z) : option CAvlRef :=
  ASSERT (bool_decide (root o <> None)) ;;
  let* n := nodes o !! node in
  match link n false with
  | Some m => let* e := subtree_end (fuel_of o) true o m in Some (Some e)
  | None => climb (fuel_of o) false o node
  end.

Definition CAvl_IsEmpty (o : BAVL) : bool := bool_decide (root o = None).

Section Values.
Context {K : Type} (value : Z -> K) (cmp : K -> K -> Z).

Definition CAvl_compare_entries (node1 node2 : Z) : option Z :=
  let res := cmp (value node1) (value node2) in
  ASSERT (-1 <=? res) ;; ASSERT (res <=? 1) ;; Some res.

(** Down to the entry that compares equal, or the one to link the node to. *)
Fixpoint find_place (fuel : nat) (o : BAVL) (node c : Z) : option (Z * option bool) :=
  match fuel with
  | O => None
  | S fuel =>
      let* comp := CAvl_compare_entries node c in
      if comp =? 0 then Some (c, None)
      else
        let* n := nodes o !! c in
        let side := comp =? 1 in
        match link n side with
        | None => Some (c, Some side)
        | Some d => find_place fuel o node d
        end
  end.

(** The result, [*out_ref] and the tree. *)
Definition CAvl_Insert (o : BAVL) (node : Z) : option (bool * CAvlRef * BAVL) :=
  match root o with
  | None => Some (true, None, mkT (Some node) (<[node := mkN None None None 0]> (nodes o)))
  | Some c =>
      let* (c, r) := find_place (fuel_of o) o node c in
      match r with
      | None => Some (false, Some c, o)
      | Some side =>
          let* o := upd o c (set_link side (Some node)) in
          let o := mkT (root o) (<[node := mkN (Some c) None None 0]> (nodes o)) in
          let* o := CAvl_rebalance (fuel_of o) o c side 1 in
          Some (true, Some c, o)
      end
  end.
End Values.

(** ** The functions of [BAVL] *)

Lemma check_parent_ok o c t p : rep o c t -> rt t = Some p -> CAvl_check_parent o (par c) p = Some true.
Proof.
  intros R Hp. unfold CAvl_check_parent. destruct (treeAt_node _ _ _ _ (rep_tree _ _ _ R) Hp true) as (x & b & y & _ & -> & _).
  rewrite parent_node_of, bool_decide_true by done. destruct c as [|[[[s q] b'] u] c]; [done|]. cbn [parD].
  destruct (rep_ctx _ _ _ R) as (-> & _). rewrite Hp. destruct s; cbn [node_of link0 link1]; by rewrite (bool_decide_true (Some p = Some p)), ?orb_true_r.
Qed.

(** What an update leaves alone: a field of the nodes, through [upd] and the
    functions made of it. *)
Definition same {B} (f : BAVLNode -> B) (o o' : BAVL) (q : Z) : Prop := f <$> nodes o' !! q = f <$> nodes o !! q.

Lemma same_upd {B} (f : BAVLNode -> B) o p g o' q : upd o p g = Some o' -> (forall n, f (g n) = f n) -> same f o o' q.
Proof.
  unfold upd, same. intros E Hg. destruct (nodes o !! p) as [n|] eqn:En; [|done]. injection E as <-. cbn [nodes].
  destruct (decide (p = q)) as [->|Hne]; [by rewrite lookup_insert_eq, En; simpl; rewrite Hg|by rewrite lookup_insert_ne].
Qed.

Lemma same_link_from_parent {B} (f : BAVLNode -> B) o p ch v o' q :
  set_link_from_parent o p ch v = Some o' -> (forall n s w, f (set_link s w n) = f n) -> same f o o' q.
Proof.
  unfold set_link_from_parent. intros E Hf. destruct p as [p|]; [|by injection E as <-]. destruct (nodes o !! p) as [n|]; [|done].
  eapply same_upd; [done|]. intros n'. apply Hf.
Qed.

Lemma same_parent_opt {B} (f : BAVLNode -> B) o c v o' q :
  set_parent_opt o c v = Some o' -> (forall n w, f (set_parent w n) = f n) \/ c <> Some q -> same f o o' q.
Proof.
  unfold set_parent_opt. intros E Hf. destruct c as [c|]; [|by injection E as <-]. destruct Hf as [Hf|Hne].
  - eapply same_upd; [done|]. intros n. apply Hf.
  - unfold upd in E. destruct (nodes o !! c) as [n|]; [|done]. injection E as <-. unfold same. cbn [nodes]. rewrite lookup_insert_ne; [done|congruence].
Qed.

Lemma same_trans {B} (f : BAVLNode -> B) o1 o2 o3 q : same f o1 o2 q -> same f o2 o3 q -> same f o1 o3 q.
Proof. unfold same. congruence. Qed.

Lemma same_some {B} (f : BAVLNode -> B) o o' q n : same f o o' q -> nodes o !! q = Some n -> exists n', nodes o' !! q = Some n' /\ f n' = f n.
Proof. unfold same. intros E Hn. rewrite Hn in E. destruct (nodes o' !! q) as [n'|]; [|done]. injection E as E. eauto. Qed.

Lemma parent_set_link s v n : parent (set_link s v n) = parent n.
Proof. by destruct s. Qed.
Lemma balance_set_link s v n : balance (set_link s v n) = balance n.
Proof. by destruct s. Qed.

Lemma rotate_eq o c bs y nr b' x r b a :
  rep o c (mk bs (mk bs y nr b' x) r b a) -> CAvl_rotate o r (negb bs) (par c) = BAVL_rotate o r (negb bs).
Proof.
  intros R. unfold CAvl_rotate, BAVL_rotate. rewrite (check_parent_ok _ _ _ _ R) by apply rt_mk. pose proof (rep_node _ _ _ _ _ _ _ R) as Hr.
  rewrite Hr, negb_involutive, link_node_of, rt_mk. rewrite <- rep_up in R. rewrite (rep_node _ _ _ _ _ _ _ R), link_node_of'.
  destruct (upd o r _) as [o1|] eqn:E1; [|done]. destruct (set_parent_opt o1 (rt x) _) as [o2|] eqn:E2; [|done].
  destruct (upd o2 nr _) as [o3|] eqn:E3; [|done].
  assert (same parent o o3 r) as Hs.
  { eapply same_trans; [eapply same_upd; [done|by intros; apply parent_set_link]|]. eapply same_trans; [eapply same_parent_opt; [done|right]|eapply same_upd; [done|by intros; apply parent_set_link]].
    destruct R as [U _ _ _]. intros Ex%rt_cnt. specialize (U r). rewrite cnt_mk in U. simpl in U. rewrite one_refl in U. lia. }
  destruct (same_some _ _ _ _ _ Hs Hr) as (n' & -> & ->). by rewrite parent_node_of.
Qed.

Lemma transform_eq o c t p delta : rep o c t -> rt t = Some p -> transform o p delta = rebalance_node o p delta.
Proof.
  intros R Hp. unfold transform, rebalance_node. destruct (treeAt_node _ _ _ _ (rep_tree _ _ _ R) Hp true) as (x0 & b & y0 & Et & Hn & _).
  rewrite Hn. destruct (_ || _); [|done]. set (bs := balance _ =? 2). clearbody bs. rewrite parent_node_of.
  destruct (treeAt_node _ _ _ _ (rep_tree _ _ _ R) Hp bs) as (x & b2 & y & -> & Hn' & _). pose proof (eq_trans (eq_sym Hn) Hn') as En. apply Some_inj in En. rewrite En, link_node_of.
  destruct (rt x) as [ch|] eqn:Ex; [|done]. pose proof (proj2 (rep_up _ _ _ _ _ _ _) R) as Rx.
  destruct (treeAt_node _ _ _ _ (rep_tree _ _ _ Rx) Ex bs) as (x1 & b3 & y1 & -> & Hch & _). rewrite Hch. rewrite (rotate_eq _ _ _ _ _ _ _ _ _ _ R).
  destruct (_ =? 1); [done|]. destruct (_ =? 0); [done|]. destruct (_ =? -1); [|done]. rewrite link_node_of'. destruct (rt y1) as [g|] eqn:Ey; [|done].
  destruct (treeAt_node _ _ _ _ (rep_tree _ _ _ (proj2 (rep_up _ _ _ _ _ _ _) (proj1 (rep_swap _ _ _ _ _ _ _) Rx))) Ey (negb bs)) as (g1 & bg & g2 & -> & Hg & _).
  rewrite Hg. pose proof (proj1 (rep_swap _ _ _ _ _ _ _) Rx) as Rs. pose proof (rotate_eq _ _ _ _ _ _ _ _ _ _ Rs) as Er. rewrite negb_involutive in Er. cbn [parD] in Er. rewrite Er.
  destruct (rotate_ok _ _ _ _ _ _ _ _ _ _ Rs) as (o1 & E1 & R1). rewrite negb_involutive in E1. rewrite E1. rewrite rep_up in R1.
  rewrite (rep_node _ _ _ _ _ _ _ R1), parent_node_of. rewrite (mk_neg (negb bs) g1), (mk_neg (negb bs) g2), negb_involutive in R1.
  by rewrite (rotate_eq _ _ _ _ _ _ _ _ _ _ R1).
Qed.

(** A transformation keeps a tree below its frames, with the new top. *)
Lemma rebalance_node_rep o c t p delta o' nd d' :
  rep o c t -> rt t = Some p -> rebalance_node o p delta = Some (o', nd, d') -> exists t', rep o' c t' /\ rt t' = Some nd.
Proof.
  intros R Hp. unfold rebalance_node. destruct (treeAt_node _ _ _ _ (rep_tree _ _ _ R) Hp true) as (x0 & b & y0 & Et & Hn & _).
  rewrite Hn. destruct (_ || _); [|intros [= <- <- <-]; eauto]. set (bs := balance _ =? 2). clearbody bs.
  destruct (treeAt_node _ _ _ _ (rep_tree _ _ _ R) Hp bs) as (x & b2 & y & -> & Hn' & _). pose proof (eq_trans (eq_sym Hn) Hn') as En. apply Some_inj in En. rewrite En, link_node_of.
  destruct (rt x) as [ch|] eqn:Ex; [|done]. pose proof (proj2 (rep_up _ _ _ _ _ _ _) R) as Rx.
  destruct (treeAt_node _ _ _ _ (rep_tree _ _ _ Rx) Ex bs) as (x1 & b3 & y1 & -> & Hch & _). rewrite Hch.
  destruct (rotate_ok _ _ _ _ _ _ _ _ _ _ R) as (o1 & E1 & R1). rewrite E1.
  assert (forall v1 v2 dd, (let* o := upd o1 p (set_balance v1) in let* o := upd o ch (set_balance v2) in Some (o, ch, dd)) = Some (o', nd, d') ->
    exists t', rep o' c t' /\ rt t' = Some nd) as Hsingle.
  { intros v1 v2 dd. destruct (rep_balance2 _ _ _ _ _ _ _ _ _ _ v1 v2 R1) as (o2 & o3 & -> & -> & R3). intros [= <- <- <-]. eexists. split; [exact R3|apply rt_mk]. }
  destruct (_ =? 1); [apply Hsingle|]. destruct (_ =? 0); [apply Hsingle|]. clear Hsingle. destruct (_ =? -1); [|done].
  rewrite link_node_of'. destruct (rt y1) as [g|] eqn:Ey; [|done]. pose proof (proj1 (rep_swap _ _ _ _ _ _ _) Rx) as Rs.
  destruct (treeAt_node _ _ _ _ (rep_tree _ _ _ (proj2 (rep_up _ _ _ _ _ _ _) Rs)) Ey (negb bs)) as (g1 & bg & g2 & -> & Hg & _). rewrite Hg. clear o1 E1 R1.
  destruct (rotate_ok _ _ _ _ _ _ _ _ _ _ Rs) as (o1 & E1 & R1). rewrite negb_involutive in E1. rewrite E1. rewrite rep_up in R1.
  rewrite (mk_neg (negb bs) g1), (mk_neg (negb bs) g2), negb_involutive in R1. destruct (rotate_ok _ _ _ _ _ _ _ _ _ _ R1) as (o2 & -> & R2).
  rewrite rep_swap, <- rep_up in R2.
  match goal with |- context [upd o2 p (set_balance ?v)] => destruct (rep_balance _ _ _ _ _ _ _ v R2) as (o3 & -> & R3) end. rewrite rep_up, <- rep_swap, <- rep_up in R3.
  match goal with |- context [upd o3 ch (set_balance ?v)] => destruct (rep_balance _ _ _ _ _ _ _ v R3) as (o4 & -> & R4) end.
  rewrite rep_up in R4. destruct (rep_balance _ _ _ _ _ _ _ 0 R4) as (o5 & -> & R5). intros [= <- <- <-]. eexists. split; [exact R5|apply rt_mk].
Qed.

Lemma rebalance_eq fuel : forall o c t p side d,
  rep o c t -> rt t = Some p -> CAvl_rebalance fuel o p side d = BAVL_rebalance fuel o p side d.
Proof.
  induction fuel as [|fuel IH]; intros o c t p side d R Hp; [done|]. cbn [CAvl_rebalance BAVL_rebalance].
  destruct (treeAt_node _ _ _ _ (rep_tree _ _ _ R) Hp true) as (x & b & y & -> & Hn & _). rewrite Hn, balance_node_of.
  destruct (in_pm1 d); [|done]. destruct (in_pm1 b); [|done]. destruct (d =? 0); [done|]. destruct (in_pm1 _); [|done].
  destruct (rep_balance _ _ _ _ _ _ _ (b - BAVL_OPTNEG d side) R) as (o1 & -> & R1). rewrite (transform_eq _ _ _ _ _ R1) by apply rt_mk.
  destruct (rebalance_node o1 p _) as [[[o2 nd] d2]|] eqn:E; [|done]. destruct (rebalance_node_rep _ _ _ _ _ _ _ _ R1 (rt_mk _ _ _ _ _) E) as (t2 & R2 & Hnd).
  destruct (in_pm1 d2); [|done]. destruct (treeAt_node _ _ _ _ (rep_tree _ _ _ R2) Hnd true) as (x2 & b2 & y2 & -> & -> & _). rewrite parent_node_of.
  destruct c as [|[[[s q] bq] u] c]; [done|]. cbn [parD]. apply (proj1 (rep_up _ _ _ _ _ _ _)) in R2. rewrite (rep_node _ _ _ _ _ _ _ R2). apply (IH _ _ _ _ _ _ R2), rt_mk.
Qed.

Lemma find_place_eq {K} (value : Z -> K) cmp `{!Comparator cmp} fuel : forall o t pr node c,
  treeAt (nodes o) pr t -> rt t = Some c -> find_place value cmp fuel o node c = insert_find value cmp fuel o node c.
Proof.
  induction fuel as [|fuel IH]; intros o t pr node c Ht Hc; [done|]. cbn [find_place insert_find].
  destruct (treeAt_node _ _ _ _ Ht Hc true) as (x & b & y & _ & Hn & _). rewrite Hn.
  assert (CAvl_compare_entries value cmp node c = BAVL_compare_nodes value cmp node c) as ->.
  { unfold CAvl_compare_entries, BAVL_compare_nodes, BAVL_compare_values. by destruct (cmp_range (value node) (value c)) as [-> | [-> | ->]]. }
  destruct (BAVL_compare_nodes _ _ _ _) as [comp|]; [|done]. destruct (comp =? 0); [done|].
  destruct (treeAt_node _ _ _ _ Ht Hc (comp =? 1)) as (x' & b' & y' & -> & Hn' & Hx'). pose proof (eq_trans (eq_sym Hn) Hn') as En. apply Some_inj in En. rewrite En, link_node_of.
  destruct (rt x') as [d|] eqn:Ed; [|done]. by apply (IH _ _ _ _ _ Hx').
Qed.

Lemma insert_eq {K} (value : Z -> K) cmp `{!Comparator cmp} o t node :
  rep o [] t -> StronglySorted (lt_node value cmp) (elems t) -> (node ∉ elems t) ->
  CAvl_Insert value cmp o node = BAVL_Insert value cmp o node.
Proof.
  intros R Hs Hnode. pose proof R as [_ Ht _ Hr]. cbn [top] in Hr. unfold CAvl_Insert, BAVL_Insert. rewrite Hr.
  destruct (rt t) as [c|] eqn:Hc; [|done]. rewrite (find_place_eq value cmp _ _ _ _ _ _ Ht Hc).
  pose proof (rep_fuel _ _ R). pose proof (height_length t).
  rewrite (insert_find_walk value cmp _ _ _ _ _ _ Ht Hc) by lia. destruct (walk_ok value cmp t (value node) Hs) as (q & Hq); [by intros ->|].
  destruct Hq as [(-> & _)|(s & b & u & k & -> & Et & _)]; [done|]. subst t. apply rep_plug in R.
  destruct (rep_grow _ _ _ _ _ _ _ R Hnode) as (o1 & -> & R1). by rewrite (rebalance_eq _ _ _ _ _ _ _ (proj1 (rep_up _ _ _ _ _ _ _) R1)) by apply rt_mk.
Qed.

(** The fields that the swap leaves alone. *)
Ltac chain := repeat first [ eassumption | eapply same_trans; [|eassumption] ].

Lemma connected_eq o n m d e :
  nodes o !! n = Some d -> nodes o !! m = Some e -> link0 e <> Some n -> link1 e <> Some n ->
  swap_connected o n m (parent d) = swap_adjacent o n m.
Proof.
  intros Hd He H0 H1. unfold swap_connected, swap_adjacent. rewrite Hd, He.
  destruct (upd o n _) as [o1|] eqn:E1; [|done]. destruct (set_parent_opt o1 _ _) as [o2|] eqn:E2; [|done].
  destruct (upd o2 n _) as [o3|] eqn:E3; [|done]. destruct (set_parent_opt o3 _ _) as [o4|] eqn:E4; [|done].
  assert (same parent o o4 n) as Hs.
  { eapply same_trans; [eapply same_upd; [exact E1|by intros []]|]. eapply same_trans; [eapply same_parent_opt; [exact E2|by right]|].
    eapply same_trans; [eapply same_upd; [exact E3|by intros []]|]. eapply same_parent_opt; [exact E4|by right]. }
  destruct (same_some _ _ _ _ _ Hs Hd) as (n' & -> & ->). done.
Qed.

Lemma distant_eq o n m d e :
  nodes o !! n = Some d -> nodes o !! m = Some e -> swap_distant o n m (parent d) (parent e) = swap_apart o n m.
Proof.
  intros Hd He. unfold swap_distant, swap_apart, link. rewrite Hd, He.
  repeat match goal with |- context [match ?x with Some _ => _ | None => None end] =>
    lazymatch x with context [match _ with Some _ => _ | None => None end] => fail | _ => destruct x; [|done] end end. done.
Qed.

Ltac ends E := repeat match type of E with
  | match ?x with Some _ => _ | None => None end = Some _ => let E' := fresh "E" in destruct x eqn:E'; [|discriminate E] end.

Lemma swap_adjacent_balance o n m o' q : swap_adjacent o n m = Some o' -> same balance o o' q.
Proof.
  unfold swap_adjacent. intros E. ends E.
  repeat first
    [ eapply same_parent_opt; [eassumption|by left]
    | eapply same_trans; [first [eapply same_upd; [eassumption|by intros; first [apply balance_set_link|done]] | eapply same_parent_opt; [eassumption|by left]
        | eapply same_link_from_parent; [eassumption|by intros; apply balance_set_link]]|] ].
Qed.

Lemma swap_apart_balance o n m o' q : swap_apart o n m = Some o' -> same balance o o' q.
Proof.
  unfold swap_apart. intros E. ends E.
  repeat first
    [ eapply same_parent_opt; [eassumption|by left]
    | eapply same_trans; [first [eapply same_upd; [eassumption|by intros; first [apply balance_set_link|done]] | eapply same_parent_opt; [eassumption|by left]
        | eapply same_link_from_parent; [eassumption|by intros; apply balance_set_link]]|] ].
Qed.

Lemma swap_eq o c k lm m bm n b r :
  let kc := k ++ (false, n, b, r) :: c in
  rep o c (Node (plug k (Node lm m bm Leaf)) n b r) -> CAvl_swap_for_remove o n m (par c) (par kc) = BAVL_swap_nodes o n m.
Proof.
  intros kc R. pose proof (rep_tree _ _ _ R) as (Hn & _). assert (rep o kc (Node lm m bm Leaf)) as Rm.
  { apply rep_plug. subst kc. rewrite plug_app. by apply rep_plug in R. }
  pose proof (rep_tree _ _ _ Rm) as (Hm & _). unfold CAvl_swap_for_remove, BAVL_swap_nodes.
  rewrite (check_parent_ok _ _ _ _ R eq_refl), (check_parent_ok _ _ _ _ Rm eq_refl), Hn, Hm. cbn [parent].
  pose proof (rep_uniq _ _ _ Rm) as U. assert (forall q, (ccnt c q <= ccnt kc q)%nat) as Uc by (intros q; subst kc; rewrite ccnt_app; simpl; lia).
  rewrite (bool_decide_false (par c = Some m)).
  2: { intros E%par_cnt. specialize (U m). specialize (Uc m). simpl in U. rewrite one_refl in U. lia. }
  rewrite orb_false_r. assert (0 < ccnt kc n)%nat as Hk by (subst kc; rewrite ccnt_app; simpl; rewrite one_refl; lia).
  assert (forall t, (cnt t n <= cnt lm n)%nat -> rt t <> Some n) as Hne.
  { intros t Ht E%rt_cnt. specialize (U n). simpl in U. lia. }
  pose proof (connected_eq o n m _ _ Hn Hm (Hne _ ltac:(done)) (Hne Leaf ltac:(simpl; lia))) as Ec. pose proof (distant_eq o n m _ _ Hn Hm) as Ed.
  cbn [parent] in Ec, Ed. rewrite Ec, Ed. clear Ec Ed.
  destruct (if bool_decide (par kc = Some n) then _ else _) as [o1|] eqn:E; [|done].
  assert (forall q, same balance o o1 q) as Hs by (intros q; case_bool_decide; [by eapply swap_adjacent_balance|by eapply swap_apart_balance]).
  destruct (same_some _ _ _ _ _ (Hs n) Hn) as (n1 & -> & ->). by destruct (same_some _ _ _ _ _ (Hs m) Hm) as (m1 & -> & ->).
Qed.

Lemma replace_eq o c l n b r :
  rep o c (Node l n b r) -> CAvl_replace_subtree_fix_assoc o n (rt (only_child l r)) (par c) = BAVL_replace_subtree o n (rt (only_child l r)).
Proof.
  intros R. unfold CAvl_replace_subtree_fix_assoc, BAVL_replace_subtree. rewrite (check_parent_ok _ _ _ _ R eq_refl).
  pose proof (rep_tree _ _ _ R) as (Hn & _). rewrite Hn. cbn [parent]. destruct (set_link_from_parent o _ _ _) as [o1|] eqn:E; [|done].
  destruct (rt (only_child l r)) as [q|]; [|done].
  destruct (same_some _ _ _ _ _ (same_link_from_parent parent _ _ _ _ _ n E ltac:(intros; apply parent_set_link)) Hn) as (n' & -> & ->). done.
Qed.

Lemma cut_eq o c l n b r : rep o c (Node l n b r) -> l = Leaf \/ r = Leaf -> cut_node o n = remove_node o n.
Proof.
  intros R Hlr. unfold cut_node, remove_node. pose proof (rep_tree _ _ _ R) as (Hn & _). rewrite Hn. cbn [link0 link1 parent].
  assert ((bool_decide (rt l = None) || bool_decide (rt r = None)) = true) as -> by (destruct Hlr as [-> | ->]; [done|by rewrite orb_true_r]).
  assert (negb (bool_decide (is_Some (rt l)) && bool_decide (is_Some (rt r))) = true) as -> by (destruct Hlr as [-> | ->]; [done|by rewrite andb_false_r]).
  assert ((if bool_decide (rt l <> None) then rt l else rt r) = rt (only_child l r)) as -> by by destruct l.
  assert ((match rt l with Some p => Some p | None => rt r end) = rt (only_child l r)) as -> by by destruct l.
  pose proof (replace_eq _ _ _ _ _ _ R) as Er. destruct c as [|[[[s p] bp] u] c]; cbn [parD] in *; [done|]. rewrite Er.
  destruct (nodes o !! p); [|done]. destruct (replace_ok _ _ _ _ _ _ R Hlr) as (o1 & -> & R1).
  apply (rebalance_eq _ _ _ _ _ _ _ (proj1 (rep_up _ _ _ _ _ _ _) R1)), rt_mk.
Qed.

Lemma remove_eq o c l n b r : rep o c (Node l n b r) -> CAvl_Remove o n = BAVL_Remove o n.
Proof.
  intros R. unfold CAvl_Remove, BAVL_Remove. pose proof (rep_tree _ _ _ R) as (Hn & Hl & _). rewrite Hn. cbn [link0 link1 parent].
  rewrite bool_decide_true by (rewrite (rep_root _ _ _ R); destruct c as [|f c]; [done|]; intros E; destruct (segAt_top_node _ _ _ _ _ (rep_ctx _ _ _ R)) as (? & ? & E' & _); cbn [rt] in *; congruence).
  destruct (rt l) as [pl|] eqn:El; [|apply (cut_eq _ _ _ _ _ _ R); left; by destruct l]. destruct (rt r) as [pr|] eqn:Er; [|apply (cut_eq _ _ _ _ _ _ R); right; by destruct r].
  destruct (max_split l pl El) as (k & lm & m & bm & -> & Hk).
  assert (CAvl_subtree_max o pl = Some m /\ BAVL_subtree_max o pl = Some m) as [-> ->].
  { unfold CAvl_subtree_max, BAVL_subtree_max. rewrite (subtree_end_ok _ _ _ _ _ _ Hl El).
    - rewrite elems_plug_split, Hk. simpl. by rewrite app_nil_r, app_assoc, last_snoc.
    - pose proof (rep_fuel _ _ (proj1 (rep_plug _ _ _) R)) as Hf. pose proof (length_plug c (Node (plug k (Node lm m bm Leaf)) n b r)) as Hlen.
      cbn [elems] in Hlen. rewrite length_app in Hlen. lia. }
  assert (rep o (k ++ (false, n, b, r) :: c) (Node lm m bm Leaf)) as Rm by (apply rep_plug; rewrite plug_app; by apply rep_plug in R).
  destruct (rep_tree _ _ _ Rm) as (-> & _). cbn [parent]. rewrite (swap_eq _ _ _ _ _ _ _ _ _ R). destruct (swap_ok _ _ _ _ _ _ _ _ _ R) as (o1 & -> & R1).
  apply (cut_eq _ _ _ _ _ _ R1). by right.
Qed.

Lemma adjacent_eq o c l n b r : rep o c (Node l n b r) -> CAvl_GetNext o n = BAVL_GetNext o n /\ CAvl_GetPrev o n = BAVL_GetPrev o n.
Proof.
  intros R. unfold CAvl_GetNext, CAvl_GetPrev, BAVL_GetNext, BAVL_GetPrev, get_adjacent.
  rewrite bool_decide_true by (rewrite (rep_root _ _ _ R); destruct c as [|f c]; [done|]; intros E; destruct (segAt_top_node _ _ _ _ _ (rep_ctx _ _ _ R)) as (? & ? & E' & _); cbn [rt] in *; congruence).
  done.
Qed.

(** ** SAvl: the same with entries for references. *)

Definition SAvl_Init := CAvl_Init.
Definition SAvl_Insert {K} (value : Z -> K) (cmp : K -> K -> Z) (o : BAVL) (entry : Z) : option (bool * option Z * BAVL) :=
  let* (res, out_ref, o) := CAvl_Insert value cmp o entry in Some (res, out_ref, o).
Definition SAvl_Remove (o : BAVL) (entry : Z) : option BAVL := CAvl_Remove o entry.
Definition SAvl_GetFirst (o : BAVL) : option (option Z) := CAvl_GetFirst o.
Definition SAvl_GetLast (o : BAVL) : option (option Z) := CAvl_GetLast o.
Definition SAvl_GetNext (o : BAVL) (entry : Z) : option (option Z) := CAvl_GetNext o entry.
Definition SAvl_GetPrev (o : BAVL) (entry : Z) : option (option Z) := CAvl_GetPrev o entry.
Definition SAvl_IsEmpty (o : BAVL) : bool := CAvl_IsEmpty o.

(** ** A tree as a sorted list, for its clients *)

Section Clients.
Context {K : Type} (cmp : K -> K -> Z) `{!Comparator cmp}.

(** The tree holds the nodes of [l], sorted by their values. *)
Definition tree_rel (value : Z -> K) (o : BAVL) (l : list Z) : Prop :=
  StronglySorted (lt_node value cmp) l /\ exists t, rep o [] t /\ avl t /\ elems t = l.

Lemma tree_rel_holds value o l : tree_rel value o l <-> holds cmp (value, o) (value, l).
Proof. unfold tree_rel, holds. cbn [fst snd]. tauto. Qed.

Lemma tree_rel_init value mem : tree_rel value (CAvl_Init mem) [].
Proof. apply tree_rel_holds, holds_init. Qed.

Lemma tree_rel_ext value value' o l : (forall p, p ∈ l -> value p = value' p) -> tree_rel value o l -> tree_rel value' o l.
Proof. intros E [Hs Ht]. split; [|done]. by eapply sorted_ext. Qed.

Lemma tree_rel_NoDup value o l : tree_rel value o l -> NoDup l.
Proof. intros (_ & t & R & _ & <-). by eapply rep_NoDup. Qed.

Lemma tree_rel_node value o l p : tree_rel value o l -> p ∈ l -> is_Some (nodes o !! p).
Proof. intros (_ & t & R & _ & <-) Hp. eapply treeAt_elem; [exact (rep_tree _ _ _ R)|done]. Qed.

(** A node that is not in the tree may be overwritten. *)
Lemma tree_rel_delete value o l p : (p ∉ l) -> tree_rel value o l -> tree_rel value (mkT (root o) (delete p (nodes o))) l.
Proof.
  intros Hp (Hs & t & [U Ht _ Hr] & Hb & El). split; [done|]. exists t. split_and!; [|done|done]. split; [done| |done|done].
  eapply treeAt_frame; [exact Ht|]. intros q Hq. apply lookup_delete_ne. intros ->. apply Hp. rewrite <- El. by apply elem_cnt.
Qed.

Lemma equal_none value val l : (forall p, p ∈ l -> cmp val (value p) <> 0) -> equal value cmp val l = None.
Proof.
  unfold equal. induction l as [|p l IH]; intros Hn; [done|]. simpl. rewrite (proj2 (Z.eqb_neq _ _)) by (apply Hn; by left).
  apply IH. intros q Hq. apply Hn. by right.
Qed.

Lemma tree_insert value o l node :
  tree_rel value o l -> (node ∉ l) -> equal value cmp (value node) l = None ->
  exists ref o', CAvl_Insert value cmp o node = Some (true, ref, o') /\
    tree_rel value o' (lower value cmp (value node) l ++ node :: upper value cmp (value node) l).
Proof.
  intros (Hs & t & R & Hb & <-) Hn He. rewrite (insert_eq value cmp o t node R Hs Hn).
  destruct (insert_ok value cmp o t node R Hs Hb Hn) as (res & ref & o' & t' & -> & R' & Hb' & _ & Hres). rewrite He in Hres.
  destruct Hres as (-> & El). exists ref, o'. split; [done|]. split; [by apply sorted_insert|]. by exists t'.
Qed.

Lemma tree_remove value o l node : tree_rel value o l -> node ∈ l ->
  exists o', CAvl_Remove o node = Some o' /\ tree_rel value o' (list_remove node l).
Proof.
  intros H%tree_rel_holds Hn. destruct (step_remove cmp _ _ _ H Hn) as (res & [v o'] & E & H' & _).
  destruct (holds_focus _ _ _ _ H Hn) as (c & tl & b & tr & R & _). cbn [snd] in R. cbn [exec] in E. rewrite <- (remove_eq _ _ _ _ _ _ R) in E.
  destruct (CAvl_Remove o node) as [o2|]; [|done]. injection E as <- <- <-. exists o2. split; [done|]. by apply tree_rel_holds.
Qed.

Lemma tree_first value o l : tree_rel value o l -> CAvl_GetFirst o = Some (head l).
Proof. intros (_ & t & R & _ & <-). pose proof (get_end_ok false _ _ R) as E. exact E. Qed.

Lemma tree_empty value o l : tree_rel value o l -> CAvl_IsEmpty o = bool_decide (l = []).
Proof.
  intros (_ & t & R & _ & <-). unfold CAvl_IsEmpty. rewrite (rep_root _ _ _ R). cbn [top]. apply bool_decide_ext.
  destruct t as [|lt p b rt]; [done|]. simpl. by destruct (elems lt).
Qed.
End Clients.

(** ** Which nodes the memory has

    The functions write to nodes that are there; only insertion makes one. *)

Definition kept (o o' : BAVL) : Prop := forall q, same (fun _ => tt) o o' q.

Lemma kept_trans o1 o2 o3 : kept o1 o2 -> kept o2 o3 -> kept o1 o3.
Proof. intros H1 H2 q. exact (same_trans _ _ _ _ _ (H1 q) (H2 q)). Qed.
Lemma kept_refl o : kept o o.
Proof. done. Qed.
Lemma kept_node_upd o p g o' : upd o p g = Some o' -> kept o o'.
Proof. intros E q. by eapply same_upd. Qed.
Lemma kept_link o p ch v o' : set_link_from_parent o p ch v = Some o' -> kept o o'.
Proof. intros E q. by eapply same_link_from_parent. Qed.
Lemma kept_parent o c v o' : set_parent_opt o c v = Some o' -> kept o o'.
Proof. intros E q. eapply same_parent_opt; [done|by left]. Qed.
Lemma kept_dom o o' : kept o o' -> dom (nodes o') = dom (nodes o).
Proof.
  intros H. apply set_eq. intros q. rewrite !elem_of_dom. specialize (H q). unfold same in H.
  destruct (nodes o' !! q), (nodes o !! q); try done; split; intros _; by eexists.
Qed.

(** Take a chain of updates apart and join what the links keep. *)
Ltac kept_chain :=
  intros; repeat match goal with
    | E : match ?x with Some _ => _ | None => None end = Some _ |- _ => let E' := fresh "E" in destruct x eqn:E'; [|discriminate E]
    | E : (if ?x then _ else _) = Some _ |- _ => destruct x; [|try discriminate E]
    | E : Some _ = Some _ |- _ => injection E as E; subst
    end; try discriminate;
  repeat match goal with H : upd ?o _ _ = Some ?o' |- _ => apply kept_node_upd in H
    | H : set_link_from_parent ?o _ _ _ = Some ?o' |- _ => apply kept_link in H
    | H : set_parent_opt ?o _ _ = Some ?o' |- _ => apply kept_parent in H end;
  repeat first [assumption | apply kept_refl | eapply kept_trans; [eassumption|]].

Lemma kept_rotate o r dir pr o' : CAvl_rotate o r dir pr = Some o' -> kept o o'.
Proof. unfold CAvl_rotate. kept_chain. Qed.

Lemma kept_transform o node delta o' nd d : transform o node delta = Some (o', nd, d) -> kept o o'.
Proof.
  unfold transform. intros E. ends E. destruct (_ || _); [|by injection E as <- _ _]. ends E.
  repeat (destruct (_ =? _) in E; [ends E; injection E as <- _ _;
    repeat match goal with H : CAvl_rotate _ _ _ _ = Some _ |- _ => apply kept_rotate in H | H : upd _ _ _ = Some _ |- _ => apply kept_node_upd in H end;
    repeat first [assumption | eapply kept_trans; [eassumption|]] |]). done.
Qed.

Lemma kept_rebalance fuel : forall o node side d o', CAvl_rebalance fuel o node side d = Some o' -> kept o o'.
Proof.
  induction fuel as [|fuel IH]; intros o node side d o'; [done|]. cbn [CAvl_rebalance]. intros E. ends E.
  do 2 (destruct (in_pm1 _) in E; [|done]). destruct (d =? 0); [by injection E as <-|]. destruct (in_pm1 _) in E; [|done].
  destruct (upd o node _) as [o1|] eqn:E1; [|done]. destruct (transform o1 node _) as [[[o2 nd] d2]|] eqn:E2; [|done]. destruct (in_pm1 d2); [|done].
  apply kept_node_upd in E1. apply kept_transform in E2. eapply kept_trans; [exact E1|]. eapply kept_trans; [exact E2|].
  destruct (nodes o2 !! nd) as [n2|]; [|done]. destruct (parent n2); [|by injection E as <-]. ends E. by eapply IH.
Qed.

Lemma kept_swap o n e np ep o' : CAvl_swap_for_remove o n e np ep = Some o' -> kept o o'.
Proof.
  unfold CAvl_swap_for_remove. intros E. ends E. destruct b; [|done]. ends E. destruct b; [|done]. ends E.
  assert (kept o b) as H by (destruct (bool_decide _) in *; unfold swap_connected, swap_distant in *; kept_chain).
  eapply kept_trans; [exact H|]. kept_chain.
Qed.

Lemma kept_replace o dest n dp o' : CAvl_replace_subtree_fix_assoc o dest n dp = Some o' -> kept o o'.
Proof. unfold CAvl_replace_subtree_fix_assoc. intros E. ends E. destruct b; [|done]. ends E. destruct n; kept_chain. Qed.

Lemma kept_cut o node o' : cut_node o node = Some o' -> kept o o'.
Proof.
  unfold cut_node. intros E. ends E. destruct (_ || _); [|done]. destruct (parent b) as [p|]; [|by eapply kept_replace].
  ends E. eapply kept_trans; [by eapply kept_replace|by eapply kept_rebalance].
Qed.

Lemma CAvl_Remove_dom o node o' : CAvl_Remove o node = Some o' -> dom (nodes o') = dom (nodes o).
Proof.
  intros E. apply kept_dom. unfold CAvl_Remove in E. destruct (bool_decide _); [|done]. ends E.
  eapply kept_trans; [|by eapply kept_cut]. destruct (link0 b), (link1 b); try (injection E1 as <-; apply kept_refl).
  ends E1. by eapply kept_swap.
Qed.

Lemma CAvl_Insert_dom {K} (value : Z -> K) cmp o node res ref o' :
  CAvl_Insert value cmp o node = Some (res, ref, o') -> forall q, q <> node -> is_Some (nodes o' !! q) <-> is_Some (nodes o !! q).
Proof.
  unfold CAvl_Insert. intros E q Hq. destruct (root o) as [c|].
  2: { injection E as _ _ <-. cbn [nodes]. by rewrite lookup_insert_ne. }
  destruct (find_place _ _ _ _ _ _) as [[c' [side|]]|]; [|by injection E as _ _ <-|done]. ends E. injection E as _ _ <-.
  rewrite <- !elem_of_dom. rewrite (kept_dom _ _ (kept_rebalance _ _ _ _ _ _ E1)). cbn [nodes]. rewrite dom_insert_L, (kept_dom _ _ (kept_node_upd _ _ _ _ E0)). set_solver.
Qed.

(** ** Sequences of operations *)

Section Sequences.
Context {K : Type} (cmp : K -> K -> Z) `{!Comparator cmp}.

(** The instances have no keys: there is no lookup. *)
Definition keyless (op : tree_op (K := K)) : bool := match op with OpLookup _ | OpLookupExact _ => false | _ => true end.

Definition savl_exec (st : (Z -> K) * BAVL) (op : tree_op (K := K)) : option (tree_res * ((Z -> K) * BAVL)) :=
  let '(value, o) := st in
  match op with
  | OpInsert node val =>
      let value := write node val value in
      let* (res, ref, o) := SAvl_Insert value cmp o node in Some (RInsert res ref, (value, o))
  | OpRemove node => let* o := SAvl_Remove o node in Some (RUnit, (value, o))
  | OpIsEmpty => Some (RBool (SAvl_IsEmpty o), st)
  | OpGetFirst => let* n := SAvl_GetFirst o in Some (RNode n, st)
  | OpGetLast => let* n := SAvl_GetLast o in Some (RNode n, st)
  | OpGetNext node => let* n := SAvl_GetNext o node in Some (RNode n, st)
  | OpGetPrev node => let* n := SAvl_GetPrev o node in Some (RNode n, st)
  | OpLookup _ | OpLookupExact _ => None
  end.

Fixpoint savl_exec_all (st : (Z -> K) * BAVL) (ops : list (tree_op (K := K))) : option (list tree_res * ((Z -> K) * BAVL)) :=
  match ops with
  | [] => Some ([], st)
  | op :: ops => let* (res, st) := savl_exec st op in
                 let* (ress, st) := savl_exec_all st ops in Some (res :: ress, st)
  end.

Lemma exec_eq st r op : holds cmp st r -> ref_legal r op = true -> keyless op = true -> savl_exec st op = exec cmp st op.
Proof.
  intros H Hl Hk. destruct op as [node val|node|val|val| | | |node|node]; cbn [ref_legal] in Hl; rewrite ?bool_decide_eq_true in Hl; try done.
  2, 3, 4: destruct (holds_focus _ _ _ _ H Hl) as (c & l & b & r' & R & _); destruct st as [value o]; cbn [snd savl_exec exec] in *.
  - destruct st as [value o], r as [value' lst], H as (Ev & Hs & t & R & Hb & El). cbn [fst snd savl_exec exec] in *. subst value' lst. unfold SAvl_Insert.
    rewrite (insert_eq (write node val value) cmp o t node R); [by destruct (BAVL_Insert _ _ _ _) as [[[]]|]| |done].
    eapply sorted_ext; [|exact Hs]. intros p Hp. rewrite write_other; [done|congruence].
  - unfold SAvl_Remove. by rewrite (remove_eq _ _ _ _ _ _ R).
  - unfold SAvl_GetNext. by rewrite (proj1 (adjacent_eq _ _ _ _ _ _ R)).
  - unfold SAvl_GetPrev. by rewrite (proj2 (adjacent_eq _ _ _ _ _ _ R)).
Qed.

(** C36. The tree of [CAvl_impl.h], with the SAvl interface, is the tree of [BAVL.h]:
    on a fresh tree, any sequence of insertions of nodes that are not in the tree,
    removals of and steps from nodes that are, and queries of the ends gives the
    same results and leaves the same pointers as [BAVL]'s functions do, no assertion
    fails and no loop runs on; so the answers are those of the reference, the list
    of the nodes sorted by value. *)
Theorem savl_is_bavl mem value ops :
  all_legal cmp (value, []) ops = true -> forallb keyless ops = true ->
  exists ress st', savl_exec_all (value, SAvl_Init mem) ops = Some (ress, st') /\
    exec_all cmp (value, BAVL_Init mem) ops = Some (ress, st') /\ all_answers cmp (value, []) ops ress.
Proof.
  intros Hl Hk. destruct (exec_all_ok cmp ops _ _ (holds_init cmp mem value) Hl) as (ress & st' & E & _ & A). exists ress, st'.
  split_and!; [|done|done]. rewrite <- E. change (SAvl_Init mem) with (BAVL_Init mem). clear E A ress st'.
  generalize (holds_init cmp mem value) Hl. generalize (value, BAVL_Init mem) (value, @nil Z). clear Hl mem value.
  induction ops as [|op ops IH]; intros st r H Hl; [done|]. cbn [all_legal forallb] in *. apply andb_true_iff in Hl as [Hl1 Hl2]. apply andb_true_iff in Hk as [Hk1 Hk2].
  cbn [savl_exec_all exec_all]. rewrite (exec_eq _ _ _ H Hl1 Hk1). destruct (exec_ok cmp _ _ _ H Hl1) as (res & st1 & -> & H1 & _). by rewrite (IH Hk2 _ _ H1 Hl2).
Qed.
End Sequences.

Definition keyless_ops : list (@tree_op Z) := List.filter keyless ex_ops.

Lemma savl_is_bavl_witness : exists ress st', savl_exec_all ex_cmp (fun _ => 0, SAvl_Init ∅) keyless_ops = Some (ress, st') /\
  exec_all ex_cmp (fun _ => 0, BAVL_Init ∅) keyless_ops = Some (ress, st') /\ all_answers ex_cmp (fun _ => 0, []) keyless_ops ress.
Proof. apply (savl_is_bavl ex_cmp ∅ (fun _ => 0) keyless_ops); vm_compute; reflexivity. Defined.
