(* ===== verification/Timers.v ===== *)
(** * Timers: [system/BReactor_badvpn.c], [system/BTime.h]

    A reactor keeps running timers in an AVL tree ordered by time and address and
    expired ones in a linked list, both threaded through the timer objects: the
    links of the list ([u.list_node]) and of the tree ([u.tree_child]) are members
    of one union. Here the active member is the memory that has an entry for the
    timer: writing one member deletes the entry of the other, so that reading the
    wrong one is [None]. The theorems relate the structures to a sorted list of
    deadlines and a queue. *)

From stdpp Require Import sorting.
From S2P Require Import Prelude LinkedLists BAVL BAVLSpec CAvl.

(** ** Time *)

Definition INT64_MAX : Z := 9223372036854775807.
Definition INT64_MIN : Z := -9223372036854775808.

(** [misc/overflow.h]: 1 for overflow, -1 for underflow. *)
Definition add_int64_overflows (a b : Z) : Z :=
  if xorb (a <? 0) (b <? 0) then 0
  else if a <? 0 then - Z.b2z (a <? INT64_MIN - b)
  else Z.b2z (a >? INT64_MAX - b).

Definition btime_add (t1 t2 : Z) : Z :=
  let overflows := add_int64_overflows t1 t2 in
  if negb (overflows =? 0) then
    if overflows >? 0 then INT64_MAX else INT64_MIN
  else t1 + t2.

(** ** Timers *)

Inductive timer_state := TIMER_STATE_INACTIVE | TIMER_STATE_RUNNING | TIMER_STATE_EXPIRED.

#[export] Instance timer_state_eq_dec : EqDecision timer_state.
Proof. solve_decision. Defined.

(** The fields but the links; whose handler is called is the address. *)
Record BSmallTimer := mkTimer { absTime : Z; state : timer_state; is_small : bool }.

Definition set_state (s : timer_state) (bt : BSmallTimer) : BSmallTimer := mkTimer (absTime bt) s (is_small bt).
Definition set_absTime (t : Z) (bt : BSmallTimer) : BSmallTimer := mkTimer t (state bt) (is_small bt).

(** The timers' part of the reactor and the timers in memory. *)
Record Timers := mkTimers {
  timers : gmap Z BSmallTimer;
  timers_tree : BAVL;                       (* nodes: tree_child, tree_parent, tree_balance *)
  timers_expired_list : LinkedList1 (A := Z);
  list_nodes : gmap Z (ListNode (A := Z))   (* u.list_node *)
}.

(** What [compare_timers] compares: the time and the address. *)
Definition timer_key (ts : gmap Z BSmallTimer) (t : Z) : Z * Z :=
  (match ts !! t with Some bt => absTime bt | None => 0 end, t).
Definition compare_timers (t1 t2 : Z * Z) : Z :=
  let cmp := B_COMPARE (t1.1) (t2.1) in
  if negb (cmp =? 0) then cmp else B_COMPARE (t1.2) (t2.2).

Definition Timers_Init (ts : gmap Z BSmallTimer) (mem : gmap Z BAVLNode) (lmem : gmap Z ListNode) : Timers :=
  mkTimers ts (CAvl_Init mem) LinkedList1_Init lmem.

(** [absTime] is not initialised: it is what the memory held. *)
Definition BSmallTimer_Init (T : Timers) (bt : Z) (junk : Z) : Timers :=
  mkTimers (<[bt := mkTimer junk TIMER_STATE_INACTIVE true]> (timers T)) (timers_tree T) (timers_expired_list T) (list_nodes T).
Definition BTimer_Init (T : Timers) (bt : Z) (junk : Z) : Timers :=
  mkTimers (<[bt := mkTimer junk TIMER_STATE_INACTIVE false]> (timers T)) (timers_tree T) (timers_expired_list T) (list_nodes T).

Definition BSmallTimer_IsRunning (T : Timers) (bt : Z) : option bool :=
  let* b := timers T !! bt in Some (negb (bool_decide (state b = TIMER_STATE_INACTIVE))).

(** Removed from the tree, appended to the expired list (which makes [list_node]
    the member in use), and set expired: the lines that both of the following
    functions share. *)
Definition expire (T : Timers) (timer : Z) : option Timers :=
  let* tree := CAvl_Remove (timers_tree T) timer in
  let* (ln, el) := LinkedList1_Append (list_nodes T) (timers_expired_list T) timer in
  let* bt := timers T !! timer in
  Some (mkTimers (<[timer := set_state TIMER_STATE_EXPIRED bt]> (timers T)) (mkT (root tree) (delete timer (nodes tree))) el ln).

(** The loop: timers are expired up to the time. [at_least]: the assertion of
    [move_first_timers]. *)
Fixpoint expire_until (fuel : nat) (T : Timers) (now : Z) (at_least : option Z) (moved : bool) : option (bool * Timers) :=
  match fuel with
  | O => None
  | S fuel =>
      let* ref := CAvl_GetFirst (timers_tree T) in
      match ref with
      | None => Some (moved, T)
      | Some timer =>
          let* bt := timers T !! timer in
          ASSERT (bool_decide (state bt = TIMER_STATE_RUNNING)) ;;
          ASSERT (match at_least with Some t => absTime bt >=? t | None => true end) ;;
          if absTime bt >? now then Some (moved, T)
          else let* T := expire T timer in expire_until fuel T now at_least true
      end
  end.

Definition move_expired_timers (T : Timers) (now : Z) : option (bool * Timers) :=
  expire_until (fuel_of (timers_tree T)) T now None false.

Definition move_first_timers (T : Timers) : option Timers :=
  let* ref := CAvl_GetFirst (timers_tree T) in
  let* first_timer := ref in
  let* bt := timers T !! first_timer in
  ASSERT (bool_decide (state bt = TIMER_STATE_RUNNING)) ;;
  let first_time := absTime bt in
  let* T := expire T first_timer in
  let* (_, T) := expire_until (fuel_of (timers_tree T)) T first_time (Some first_time) false in
  Some T.

Definition BReactor_RemoveSmallTimer (T : Timers) (bt : Z) : option Timers :=
  let* b := timers T !! bt in
  match state b with
  | TIMER_STATE_INACTIVE => Some T
  | TIMER_STATE_EXPIRED =>
      let* (ln, el) := LinkedList1_Remove (list_nodes T) (timers_expired_list T) bt in
      Some (mkTimers (<[bt := set_state TIMER_STATE_INACTIVE b]> (timers T)) (timers_tree T) el ln)
  | TIMER_STATE_RUNNING =>
      let* tree := CAvl_Remove (timers_tree T) bt in
      Some (mkTimers (<[bt := set_state TIMER_STATE_INACTIVE b]> (timers T)) tree (timers_expired_list T) (list_nodes T))
  end.

Inductive timer_mode := BTIMER_SET_ABSOLUTE | BTIMER_SET_RELATIVE.

(** [now]: the answer of [btime_gettime]. Insertion makes [tree_child] the member
    of the union in use. *)
Definition BReactor_SetSmallTimer (T : Timers) (bt : Z) (mode : timer_mode) (time now : Z) : option Timers :=
  let* T := BReactor_RemoveSmallTimer T bt in
  let time := (match mode with BTIMER_SET_RELATIVE => btime_add now time | BTIMER_SET_ABSOLUTE => time end) in
  let* b := timers T !! bt in
  let ts := <[bt := set_state TIMER_STATE_RUNNING (set_absTime time b)]> (timers T) in
  let* (res, _, tree) := CAvl_Insert (timer_key ts) compare_timers (timers_tree T) bt in
  ASSERT (res : bool) ;;
  Some (mkTimers ts tree (timers_expired_list T) (delete bt (list_nodes T))).

(** A [BTimer] is a [BSmallTimer] with its interval [msTime]. *)
Definition BReactor_SetTimer (T : Timers) (bt msTime now : Z) : option Timers :=
  BReactor_SetSmallTimer T bt BTIMER_SET_RELATIVE msTime now.
Definition BReactor_SetTimerAfter (T : Timers) (bt after now : Z) : option Timers :=
  BReactor_SetSmallTimer T bt BTIMER_SET_RELATIVE after now.
Definition BReactor_SetTimerAbsolute (T : Timers) (bt time now : Z) : option Timers :=
  BReactor_SetSmallTimer T bt BTIMER_SET_ABSOLUTE time now.
Definition BReactor_RemoveTimer (T : Timers) (bt : Z) : option Timers := BReactor_RemoveSmallTimer T bt.

(** "dispatch timer" of [BReactor_Exec]: the timer whose handler is called. *)
Definition dispatch_timer (T : Timers) : option (Timers * option (Z * bool)) :=
  match LinkedList1_GetFirst (timers_expired_list T) with
  | None => Some (T, None)
  | Some timer =>
      let* bt := timers T !! timer in
      ASSERT (bool_decide (state bt = TIMER_STATE_EXPIRED)) ;;
      let* (ln, el) := LinkedList1_Remove (list_nodes T) (timers_expired_list T) timer in
      Some (mkTimers (<[timer := set_state TIMER_STATE_INACTIVE bt]> (timers T)) (timers_tree T) el ln, Some (timer, is_small bt))
  end.

(** ** The specification: deadlines in order and a queue *)

Record tspec := mkSpec {
  running : list (Z * Z);    (* deadline and timer, in order *)
  expired : list Z
}.

Definition before (a b : Z * Z) : bool := (a.1 <? b.1) || ((a.1 =? b.1) && (a.2 <? b.2)).

Definition spec_remove (t : Z) (s : tspec) : tspec :=
  mkSpec (List.filter (fun x => negb (x.2 =? t)) (running s)) (list_remove t (expired s)).
Definition insert_run (x : Z * Z) (l : list (Z * Z)) : list (Z * Z) :=
  List.filter (fun y => before y x) l ++ x :: List.filter (before x) l.
Definition spec_set (t d : Z) (s : tspec) : tspec :=
  let s := spec_remove t s in mkSpec (insert_run (d, t) (running s)) (expired s).

(** The timers due at a time move to the queue, in order. *)
Definition due (now : Z) (s : tspec) : list Z := map snd (List.filter (fun x => x.1 <=? now) (running s)).
Definition spec_due (now : Z) (s : tspec) : tspec :=
  mkSpec (List.filter (fun x => negb (x.1 <=? now)) (running s)) (expired s ++ due now s).

Definition first_deadline (s : tspec) : option Z := match running s with (d, _) :: _ => Some d | [] => None end.

(** ** The structures hold the specification *)

#[global] Instance compare_timers_ok : Comparator compare_timers.
Proof. apply (compare_lex (fun a b => B_COMPARE (a.1) (b.1)) (fun a b => B_COMPARE (a.2) (b.2))); exact (compare_on _ _ compare_int). Qed.

Lemma before_compare a b : before a b = (compare_timers a b =? -1).
Proof.
  unfold before, compare_timers, B_COMPARE. destruct (Z.ltb_spec (a.1) (b.1)), (Z.gtb_spec (a.1) (b.1)), (Z.eqb_spec (a.1) (b.1)); try lia; simpl;
    destruct (Z.ltb_spec (a.2) (b.2)), (Z.gtb_spec (a.2) (b.2)); simpl; lia.
Qed.

Record holds_timers (T : Timers) (s : tspec) : Prop := {
  ht_list : llist_rel (list_nodes T) (timers_expired_list T) (expired s);
  ht_tree : tree_rel compare_timers (timer_key (timers T)) (timers_tree T) (map snd (running s));
  ht_run : forall d t, (d, t) ∈ running s -> exists small, timers T !! t = Some (mkTimer d TIMER_STATE_RUNNING small);
  ht_state : forall t bt, timers T !! t = Some bt ->
    (t ∈ map snd (running s) <-> state bt = TIMER_STATE_RUNNING) /\ (t ∈ expired s <-> state bt = TIMER_STATE_EXPIRED);
  ht_mem : forall t, t ∈ expired s -> is_Some (timers T !! t);
  ht_union_tree : forall t, t ∈ map snd (running s) -> list_nodes T !! t = None;
  ht_union_list : forall t, t ∈ expired s -> nodes (timers_tree T) !! t = None
}.

Lemma elem_run d t (l : list (Z * Z)) : (d, t) ∈ l -> t ∈ map snd l.
Proof. intros H. apply list_elem_of_fmap. by exists (d, t). Qed.

Lemma elem_run_inv t (l : list (Z * Z)) : t ∈ map snd l -> exists d, (d, t) ∈ l.
Proof. intros ([d t'] & -> & H)%list_elem_of_fmap. by exists d. Qed.

(** The deadlines are the keys in memory. *)
Lemma ht_key T s d t : holds_timers T s -> (d, t) ∈ running s -> timer_key (timers T) t = (d, t).
Proof. intros H Hd. destruct (ht_run _ _ H _ _ Hd) as (small & E). unfold timer_key. by rewrite E. Qed.

Lemma ht_sorted T s : holds_timers T s -> StronglySorted (fun a b => before a b = true) (running s).
Proof.
  intros H. pose proof (proj1 (ht_tree _ _ H)) as Hs. assert (forall d t, (d, t) ∈ running s -> timer_key (timers T) t = (d, t)) as Hk by (intros; by eapply ht_key).
  revert Hs Hk. induction (running s) as [|[d t] l IH]; intros Hs Hk; [constructor|]. cbn [map snd] in Hs. apply StronglySorted_inv in Hs as [Hs Hf].
  constructor; [apply IH; [done|]; intros d' t' H'; apply Hk; by right|].
  apply list.Forall_forall. intros [d' t'] H'. rewrite before_compare. apply Z.eqb_eq.
  assert (t' ∈ map snd l) as Hm by by eapply elem_run. apply (proj1 (list.Forall_forall _ _) Hf) in Hm. unfold lt_node in Hm.
  rewrite (Hk d t) in Hm by by left. rewrite (Hk d' t') in Hm by by right. done.
Qed.

Lemma ht_NoDup T s : holds_timers T s -> NoDup (map snd (running s)).
Proof. intros H. exact (tree_rel_NoDup _ _ _ _ (ht_tree _ _ H)). Qed.

Lemma map_filter_snd (f : Z -> bool) (l : list (Z * Z)) : map snd (List.filter (fun x => f (x.2)) l) = List.filter f (map snd l).
Proof. induction l as [|[d t] l IH]; [done|]. simpl. destruct (f t); simpl; by rewrite IH. Qed.

Lemma filter_filter_ext {A} (f g : A -> bool) (l : list A) : (forall x, x ∈ l -> f x = g x) -> List.filter f l = List.filter g l.
Proof.
  induction l as [|x l IH]; intros E; [done|]. simpl. rewrite (E x) by by left. rewrite IH; [done|]. intros y Hy. apply E. by right.
Qed.

Lemma filter_all {A} (f : A -> bool) (l : list A) : (forall x, x ∈ l -> f x = true) -> List.filter f l = l.
Proof. induction l as [|x l IH]; intros E; [done|]. simpl. rewrite (E x) by by left. f_equal. apply IH. intros y Hy. apply E. by right. Qed.

Lemma filter_none {A} (f : A -> bool) (l : list A) : (forall x, x ∈ l -> f x = false) -> List.filter f l = [].
Proof. induction l as [|x l IH]; intros E; [done|]. simpl. rewrite (E x) by by left. apply IH. intros y Hy. apply E. by right. Qed.

Lemma not_both T s t : holds_timers T s -> t ∈ map snd (running s) -> t ∈ expired s -> False.
Proof.
  intros H Hr He. destruct (ht_mem _ _ H _ He) as (bt & E). destruct (ht_state _ _ H _ _ E) as [H1 H2].
  rewrite (proj1 H1 Hr) in H2. by apply H2 in He.
Qed.

Lemma ht_init ts mem lmem : (forall t bt, ts !! t = Some bt -> state bt = TIMER_STATE_INACTIVE) -> holds_timers (Timers_Init ts mem lmem) (mkSpec [] []).
Proof.
  intros Hi. split; cbn [Timers_Init list_nodes timers_expired_list timers timers_tree running expired map].
  - split_and!; [done|split_and!; [done|constructor|done]].
  - apply tree_rel_init; apply _.
  - by intros d t ?%elem_of_nil.
  - intros t bt E. rewrite (Hi _ _ E), !elem_of_nil. by split.
  - by intros t ?%elem_of_nil.
  - by intros t ?%elem_of_nil.
  - by intros t ?%elem_of_nil.
Qed.

(** The timers in memory, and which are small: no operation but initialisation
    changes it. *)
Definition smalls (T : Timers) : gmap Z bool := is_small <$> timers T.

Lemma smalls_insert ts t bt f tree el ln T :
  ts = timers T -> ts !! t = Some bt -> is_small f = is_small bt -> smalls (mkTimers (<[t := f]> ts) tree el ln) = smalls T.
Proof.
  intros -> E Hf. unfold smalls. cbn [timers]. rewrite fmap_insert, Hf. apply insert_id. by rewrite lookup_fmap, E.
Qed.

(** ** One timer expires *)

Lemma expire_ok T s d t l :
  holds_timers T s -> running s = (d, t) :: l ->
  exists T', expire T t = Some T' /\ holds_timers T' (mkSpec l (expired s ++ [t])) /\ smalls T' = smalls T.
Proof.
  intros H El. pose proof (ht_NoDup _ _ H) as Hnd. rewrite El in Hnd. cbn [map snd] in Hnd. apply list.NoDup_cons in Hnd as [Htl Hnd].
  assert (t ∈ map snd (running s)) as Ht by (rewrite El; by left). assert (t ∉ expired s) as Hte by (intros He; by eapply not_both).
  unfold expire. destruct (tree_remove _ _ _ _ _ (ht_tree _ _ H) Ht) as (tree & Etree & Rtree). rewrite Etree.
  destruct (LinkedList1_Append_ok _ _ _ _ (ht_list _ _ H) Hte) as (-> & Rl). set (ln := join _ _ _ _) in *.
  destruct (ht_run _ _ H d t) as (small & E); [rewrite El; by left|]. rewrite E.
  assert (list_remove t (map snd (running s)) = map snd l) as El' by (rewrite El; unfold list_remove; simpl; rewrite Z.eqb_refl; simpl; by apply list_remove_notin).
  rewrite El' in Rtree. eexists. split; [done|]. split.
  2: { by eapply smalls_insert. }
  assert (forall y, y ∉ expired s -> y <> t -> ln !! y = list_nodes T !! y) as Hln.
  { intros y Hy Hne. subst ln. rewrite join_other by (try done; apply not_elem_of_nil). by apply lookup_insert_ne. }
  split; cbn [list_nodes timers_expired_list timers timers_tree running expired nodes].
  - exact Rl.
  - apply tree_rel_delete; [done|]. eapply tree_rel_ext; [|exact Rtree]. intros p Hp. unfold timer_key. rewrite lookup_insert_ne; [done|]. by intros ->.
  - intros d' t' H'. rewrite lookup_insert_ne by (intros <-; apply Htl; by eapply elem_run). apply (ht_run _ _ H). rewrite El. by right.
  - intros t' bt Hbt. destruct (decide (t' = t)) as [->|Hne].
    + rewrite lookup_insert_eq in Hbt. injection Hbt as <-. cbn [state set_state]. split; [by split|]. split; [done|]. intros _. apply elem_of_app. right. by left.
    + rewrite lookup_insert_ne in Hbt by done. destruct (ht_state _ _ H _ _ Hbt) as [H1 H2]. rewrite El in H1. cbn [map snd] in H1.
      rewrite <- H1, <- H2, elem_of_cons, elem_of_app, list_elem_of_singleton. split; split; tauto.
  - intros t' [Ht' | ?%list_elem_of_singleton]%elem_of_app; [|subst t'; by rewrite lookup_insert_eq].
    rewrite lookup_insert_ne by (intros ->; done). by apply (ht_mem _ _ H).
  - intros t' Ht'. assert (t' ∈ map snd (running s)) as Hr by (rewrite El; by right). rewrite Hln; [by apply (ht_union_tree _ _ H)| |by intros ->].
    intros He. by eapply not_both.
  - intros t' [Ht' | ?%list_elem_of_singleton]%elem_of_app; [|subst t'; apply lookup_delete_eq].
    apply lookup_delete_None. right. apply not_elem_of_dom. rewrite (CAvl_Remove_dom _ _ _ Etree). apply not_elem_of_dom. by apply (ht_union_list _ _ H).
Qed.

(** ** Timers expire up to a time *)

Lemma spec_due_cons now d t l e : d <= now -> spec_due now (mkSpec ((d, t) :: l) e) = spec_due now (mkSpec l (e ++ [t])).
Proof. intros Hd. unfold spec_due, due. simpl. rewrite (proj2 (Z.leb_le d now)) by done. simpl. f_equal. by rewrite <- app_assoc. Qed.

Lemma spec_due_none now s : (forall d t, (d, t) ∈ running s -> now < d) -> spec_due now s = s /\ due now s = [].
Proof.
  intros H. unfold spec_due, due. rewrite (filter_none (fun x => x.1 <=? now) (running s)) by (intros [d t] Hx; apply H in Hx; cbn [fst]; lia).
  rewrite filter_all by (intros [d t] Hx; apply H in Hx; cbn [fst]; lia). rewrite app_nil_r. by destruct s.
Qed.

Lemma sorted_ge d t l : StronglySorted (fun a b => before a b = true) ((d, t) :: l) -> forall d' t', (d', t') ∈ (d, t) :: l -> d <= d'.
Proof.
  intros [_ Hf]%StronglySorted_inv d' t' [[= -> ->]|H]%elem_of_cons; [done|]. apply (proj1 (list.Forall_forall _ _) Hf) in H.
  unfold before in H. simpl in H. lia.
Qed.

Lemma running_fuel T s : holds_timers T s -> (length (running s) < fuel_of (timers_tree T))%nat.
Proof. intros H. destruct (ht_tree _ _ H) as (_ & t & R & _ & E). pose proof (rep_fuel _ _ R) as Hf. by rewrite E, length_map in Hf. Qed.

Lemma first_timer T s : holds_timers T s ->
  CAvl_GetFirst (timers_tree T) = Some (match running s with (_, t) :: _ => Some t | [] => None end).
Proof. intros H. rewrite (tree_first _ _ _ _ (ht_tree _ _ H)). by destruct (running s) as [|[]]. Qed.

Lemma expire_until_ok fuel : forall T s now at_least moved,
  holds_timers T s -> (length (running s) < fuel)%nat ->
  match at_least with Some a => forall d t, (d, t) ∈ running s -> a <= d | None => True end ->
  exists T', expire_until fuel T now at_least moved = Some (moved || bool_decide (due now s <> []), T') /\
    holds_timers T' (spec_due now s) /\ smalls T' = smalls T.
Proof.
  induction fuel as [|fuel IH]; intros T s now al moved H Hf Hal; [lia|]. cbn [expire_until]. rewrite (first_timer _ _ H).
  pose proof (ht_sorted _ _ H) as Hs. destruct s as [[|[d t] l] e]; cbn [running] in *.
  { destruct (spec_due_none now (mkSpec [] e)) as [-> ->]; [by intros d t ?%elem_of_nil|]. exists T. rewrite bool_decide_false by auto. by rewrite orb_false_r. }
  destruct (ht_run _ _ H d t) as (small & E); [by left|]. rewrite E. cbn [state absTime].
  rewrite bool_decide_true by done. assert ((match al with Some a => d >=? a | None => true end) = true) as ->.
  { destruct al as [a|]; [|done]. specialize (Hal d t ltac:(by left)). lia. }
  destruct (Z.gtb_spec d now) as [Hd|Hd].
  - destruct (spec_due_none now (mkSpec ((d, t) :: l) e)) as [-> ->].
    { intros d' t' H'. apply (sorted_ge _ _ _ Hs) in H'. lia. }
    exists T. rewrite bool_decide_false by auto. by rewrite orb_false_r.
  - destruct (expire_ok _ _ _ _ _ H eq_refl) as (T1 & -> & H1 & Hdom). rewrite (spec_due_cons _ _ _ _ _ Hd). cbn [expired] in H1.
    destruct (IH T1 _ now al true H1) as (T2 & -> & H2 & Hdom2); [simpl in *; lia|destruct al; [intros d' t' H'; eapply Hal; by right|done]|].
    exists T2. split_and!; [|done|congruence]. rewrite (bool_decide_true (due now (mkSpec ((d, t) :: l) e) <> [])); [by rewrite orb_true_r|].
    unfold due. simpl. by rewrite (proj2 (Z.leb_le d now)).
Qed.

Lemma move_expired_timers_ok T s now : holds_timers T s ->
  exists T', move_expired_timers T now = Some (bool_decide (due now s <> []), T') /\
    holds_timers T' (spec_due now s) /\ smalls T' = smalls T.
Proof. intros H. exact (expire_until_ok _ T s now None false H (running_fuel _ _ H) I). Qed.

Lemma move_first_timers_ok T s d : holds_timers T s -> first_deadline s = Some d ->
  exists T', move_first_timers T = Some T' /\ holds_timers T' (spec_due d s) /\ smalls T' = smalls T.
Proof.
  intros H Hd. unfold move_first_timers. rewrite (first_timer _ _ H). pose proof (ht_sorted _ _ H) as Hs.
  destruct s as [[|[d' t] l] e]; [done|]. cbn [running] in *. injection Hd as ->.
  destruct (ht_run _ _ H d t) as (small & E); [by left|]. rewrite E. cbn [state absTime]. rewrite bool_decide_true by done.
  destruct (expire_ok _ _ _ _ _ H eq_refl) as (T1 & -> & H1 & Hdom). cbn [expired] in H1.
  destruct (expire_until_ok _ T1 _ d (Some d) false H1 (running_fuel _ _ H1)) as (T2 & -> & H2 & Hdom2).
  { intros d' t' H'. cbn [running] in H'. eapply sorted_ge; [exact Hs|]. by right. }
  exists T2. rewrite spec_due_cons by done. split_and!; [done|done|congruence].
Qed.

(** ** Removing, setting and dispatching *)

Lemma spec_remove_none t s : (t ∉ map snd (running s)) -> (t ∉ expired s) -> spec_remove t s = s.
Proof.
  intros Hr He. unfold spec_remove. rewrite (list_remove_notin _ _ He), filter_all; [by destruct s|].
  intros [d t'] H. apply elem_run in H. simpl. destruct (Z.eqb_spec t' t); [by subst|done].
Qed.

Lemma map_spec_remove t s : map snd (running (spec_remove t s)) = list_remove t (map snd (running s)).
Proof. apply (map_filter_snd (fun q => negb (q =? t))). Qed.

Lemma elem_spec_remove d t x s : (d, x) ∈ running (spec_remove t s) -> (d, x) ∈ running s /\ x <> t.
Proof. cbn [spec_remove running]. rewrite list_elem_of_In, filter_In. simpl. rewrite <- list_elem_of_In. intros [H E]. split; [done|]. lia. Qed.

(** The specification after the timer is taken out, when it is in the memory as
    [f bt], not running and not expired. *)
Lemma remove_holds T s t bt tree ln el f :
  holds_timers T s -> timers T !! t = Some bt -> state (f bt) = TIMER_STATE_INACTIVE ->
  llist_rel ln el (list_remove t (expired s)) -> tree_rel compare_timers (timer_key (timers T)) tree (list_remove t (map snd (running s))) ->
  (forall y, y ∉ expired s -> ln !! y = list_nodes T !! y) -> dom (nodes tree) = dom (nodes (timers_tree T)) ->
  holds_timers (mkTimers (<[t := f bt]> (timers T)) tree el ln) (spec_remove t s).
Proof.
  intros H E Hst Rl Rt Hln Hdom. split; cbn [list_nodes timers_expired_list timers timers_tree]; [exact Rl| | | | | |].
  - rewrite map_spec_remove. eapply tree_rel_ext; [|exact Rt]. intros p [_ Hp]%elem_list_remove. unfold timer_key. by rewrite lookup_insert_ne.
  - intros d x [Hx Hne]%elem_spec_remove. rewrite lookup_insert_ne by done. by apply (ht_run _ _ H).
  - intros x b Hb. rewrite map_spec_remove. cbn [spec_remove expired]. rewrite !elem_list_remove. destruct (decide (x = t)) as [->|Hne].
    + rewrite lookup_insert_eq in Hb. injection Hb as <-. rewrite Hst. split; split; naive_solver.
    + rewrite lookup_insert_ne in Hb by done. destruct (ht_state _ _ H _ _ Hb). tauto.
  - intros x [Hx Hne]%elem_list_remove. rewrite lookup_insert_ne by done. by apply (ht_mem _ _ H).
  - intros x Hx. rewrite map_spec_remove in Hx. apply elem_list_remove in Hx as [Hx Hne]. rewrite Hln; [by apply (ht_union_tree _ _ H)|].
    intros He. by eapply not_both.
  - intros x [Hx Hne]%elem_list_remove. apply not_elem_of_dom. rewrite Hdom. apply not_elem_of_dom. by apply (ht_union_list _ _ H).
Qed.

(** Taking a timer out of the expired list. *)
Lemma unlist_ok T s t : holds_timers T s -> t ∈ expired s ->
  exists ln el, LinkedList1_Remove (list_nodes T) (timers_expired_list T) t = Some (ln, el) /\
    llist_rel ln el (list_remove t (expired s)) /\ (forall y, y ∉ expired s -> ln !! y = list_nodes T !! y).
Proof.
  intros H He. pose proof (ht_list _ _ H) as R. pose proof (proj1 (proj2 (proj2 R))) as Hnd. apply list_elem_of_split in He as (l1 & l2 & El). rewrite El in *.
  apply list.NoDup_app in Hnd as (_ & D & Hnd). apply list.NoDup_cons in Hnd as [Hn _].
  destruct (LinkedList1_Remove_ok _ _ _ _ _ R) as (-> & R'). eexists _, _. split; [done|]. rewrite list_remove_split; [|intros Hx; apply (D t Hx); by left|done].
  split; [done|]. intros y Hy. rewrite elem_of_app, elem_of_cons in Hy. apply join_other; tauto.
Qed.

Lemma remove_timer_ok T s t : holds_timers T s -> is_Some (timers T !! t) ->
  exists T', BReactor_RemoveSmallTimer T t = Some T' /\ holds_timers T' (spec_remove t s) /\ smalls T' = smalls T /\
    exists bt, timers T' !! t = Some bt /\ state bt = TIMER_STATE_INACTIVE.
Proof.
  intros H [bt E]. unfold BReactor_RemoveSmallTimer. rewrite E. destruct (ht_state _ _ H _ _ E) as [H1 H2].
  destruct (state bt) eqn:Es.
  - rewrite spec_remove_none by naive_solver. exists T. split_and!; [done|done|done|]. by exists bt.
  - destruct (tree_remove _ _ _ _ _ (ht_tree _ _ H) (proj2 H1 eq_refl)) as (tree & Et & Rt). rewrite Et. eexists. split; [done|]. split_and!; [|by eapply smalls_insert|].
    + apply (remove_holds _ _ _ _ _ _ _ (set_state TIMER_STATE_INACTIVE) H E); [done| |done|done|by eapply CAvl_Remove_dom].
      rewrite list_remove_notin by naive_solver. exact (ht_list _ _ H).
    + eexists. split; [apply lookup_insert_eq|done].
  - destruct (unlist_ok _ _ _ H (proj2 H2 eq_refl)) as (ln & el & -> & Rl & Hln). eexists. split; [done|]. split_and!; [|by eapply smalls_insert|].
    + apply (remove_holds _ _ _ _ _ _ _ (set_state TIMER_STATE_INACTIVE) H E); [done|done| |done|done].
      rewrite list_remove_notin by naive_solver. exact (ht_tree _ _ H).
    + eexists. split; [apply lookup_insert_eq|done].
Qed.

Lemma dispatch_timer_ok T s : holds_timers T s ->
  exists T', dispatch_timer T = Some (T', match expired s with
      | [] => None
      | t :: _ => Some (t, match timers T !! t with Some bt => is_small bt | None => true end) end) /\
    holds_timers T' (match expired s with [] => s | t :: l => mkSpec (running s) l end) /\ smalls T' = smalls T.
Proof.
  intros H. unfold dispatch_timer, LinkedList1_GetFirst. pose proof (ht_list _ _ H) as (_ & Ef & Hnd & _). rewrite Ef. destruct (expired s) as [|t l] eqn:El; cbn [head]; [by exists T|].
  assert (t ∈ expired s) as He by (rewrite El; by left). destruct (ht_mem _ _ H _ He) as (bt & E). destruct (ht_state _ _ H _ _ E) as [H1 H2]. rewrite E.
  rewrite bool_decide_true by by apply H2. destruct (unlist_ok _ _ _ H He) as (ln & el & -> & Rl & Hln). eexists. split; [done|].
  split; [|by eapply smalls_insert].
  assert (spec_remove t s = mkSpec (running s) l) as <-.
  { assert (t ∉ map snd (running s)) as Hr by (intros Hr; by eapply not_both). unfold spec_remove. f_equal.
    - apply filter_all. intros [d t'] Hx%elem_run. simpl. destruct (Z.eqb_spec t' t); [by subst|done].
    - rewrite El. unfold list_remove. simpl. rewrite Z.eqb_refl. simpl. apply list.NoDup_cons in Hnd as [Hn _]. by apply list_remove_notin. }
  apply (remove_holds _ _ _ _ _ _ _ (set_state TIMER_STATE_INACTIVE) H E); [done|done| |done|done].
  rewrite list_remove_notin by (intros Hr; by eapply not_both). exact (ht_tree _ _ H).
Qed.

Lemma map_filter_key (f : Z * Z -> bool) (k : Z -> Z * Z) (l : list (Z * Z)) :
  (forall d t, (d, t) ∈ l -> k t = (d, t)) -> map snd (List.filter f l) = List.filter (fun t => f (k t)) (map snd l).
Proof.
  induction l as [|[d t] l IH]; intros Hk; [done|]. simpl. rewrite (Hk d t) by by left.
  assert (map snd (List.filter f l) = List.filter (fun t => f (k t)) (map snd l)) as <- by (apply IH; intros d' t' H; apply Hk; by right). by destruct (f (d, t)).
Qed.

Lemma elem_insert_run x y l : y ∈ insert_run x l <-> y = x \/ y ∈ l.
Proof.
  unfold insert_run. rewrite elem_of_app, elem_of_cons, !list_elem_of_In, !filter_In. split; [tauto|]. intros [->|H]; [tauto|].
  assert (before y x = true \/ y = x \/ before x y = true) as Hc; [|tauto].
  destruct x as [d t], y as [d' t']. unfold before. cbn [fst snd]. destruct (Z.ltb_spec d' d), (Z.ltb_spec d d'), (Z.eqb_spec d' d), (Z.eqb_spec d d'); try lia; auto.
  simpl. destruct (Z.ltb_spec t' t), (Z.ltb_spec t t'); try lia; auto. right. left. f_equal; lia.
Qed.

Lemma elem_insert_timer d t x l : x ∈ map snd (insert_run (d, t) l) <-> x = t \/ x ∈ map snd l.
Proof.
  split.
  - intros (d' & H)%elem_run_inv. apply elem_insert_run in H as [[= _ ->]|H]; [by left|]. right. by eapply elem_run.
  - intros [->|(d' & H)%elem_run_inv]; [apply (elem_run d)|apply (elem_run d')]; apply elem_insert_run; auto.
Qed.

(** Insertion into the tree is insertion into the list of deadlines. *)
Lemma insert_run_tree ts o d t l :
  (forall d t, (d, t) ∈ l -> timer_key ts t = (d, t)) -> timer_key ts t = (d, t) -> (t ∉ map snd l) ->
  tree_rel compare_timers (timer_key ts) o (map snd l) ->
  exists ref o', CAvl_Insert (timer_key ts) compare_timers o t = Some (true, ref, o') /\
    tree_rel compare_timers (timer_key ts) o' (map snd (insert_run (d, t) l)).
Proof.
  intros Hks Hk Ht R. destruct (tree_insert _ (timer_key ts) _ _ t R Ht) as (ref & tree & Ei & R').
  { apply equal_none. intros p Hp. destruct (elem_run_inv _ _ Hp) as (d' & Hx). rewrite Hk, (Hks _ _ Hx).
    assert (p <> t) by by intros ->. unfold compare_timers, B_COMPARE. cbn [fst snd]. destruct (Z.eqb_spec (Z.b2z (d >? d') - Z.b2z (d <? d')) 0) as [E0|E0]; cbn [negb]; [|lia].
    destruct (Z.gtb_spec t p), (Z.ltb_spec t p); simpl; lia. }
  exists ref, tree. split; [done|]. unfold insert_run. rewrite map_app. cbn [map snd]. rewrite !(map_filter_key _ _ _ Hks).
  replace (List.filter (fun t0 => before (timer_key ts t0) (d, t)) (map snd l)) with (lower (timer_key ts) compare_timers (timer_key ts t) (map snd l));
    [replace (List.filter (fun t0 => before (d, t) (timer_key ts t0)) (map snd l)) with (upper (timer_key ts) compare_timers (timer_key ts t) (map snd l)); [done|]|].
  all: unfold lower, upper; rewrite Hk; apply filter_filter_ext; intros x _.
  - symmetry. apply before_compare.
  - rewrite before_compare, (cmp_sym (cmp := compare_timers) (timer_key ts x)). lia.
Qed.

Lemma set_timer_ok T s t mode time now : holds_timers T s -> is_Some (timers T !! t) ->
  exists T', BReactor_SetSmallTimer T t mode time now = Some T' /\
    holds_timers T' (spec_set t (match mode with BTIMER_SET_RELATIVE => btime_add now time | BTIMER_SET_ABSOLUTE => time end) s) /\
    smalls T' = smalls T.
Proof.
  intros H Hm. unfold BReactor_SetSmallTimer. destruct (remove_timer_ok _ _ _ H Hm) as (T1 & -> & H1 & Hdom & bt & E & Hst).
  set (d := match mode with BTIMER_SET_RELATIVE => _ | _ => _ end). rewrite E. unfold spec_set. set (s1 := spec_remove t s) in *.
  destruct (ht_state _ _ H1 _ _ E) as [Hr He]. rewrite Hst in Hr, He. assert (t ∉ map snd (running s1)) as Htr by naive_solver.
  assert (t ∉ expired s1) as Hte by naive_solver. clear Hr He. set (ts := <[t := _]> (timers T1)).
  assert (forall x, x <> t -> ts !! x = timers T1 !! x) as Hts by (intros x Hx; by apply lookup_insert_ne).
  assert (timer_key ts t = (d, t)) as Hk by (unfold timer_key, ts; by rewrite lookup_insert_eq).
  assert (forall d' x, (d', x) ∈ running s1 -> timer_key ts x = (d', x)) as Hks.
  { intros d' x Hx. rewrite <- (ht_key _ _ _ _ H1 Hx). unfold timer_key. rewrite Hts; [done|]. intros ->. apply Htr. by eapply elem_run. }
  assert (tree_rel compare_timers (timer_key ts) (timers_tree T1) (map snd (running s1))) as Rt.
  { eapply tree_rel_ext; [|exact (ht_tree _ _ H1)]. intros p Hp. unfold timer_key. rewrite Hts; [done|]. by intros ->. }
  destruct (insert_run_tree ts _ d t _ Hks Hk Htr Rt) as (ref & tree & Ei & Rt').
  rewrite Ei. eexists. split; [done|]. split; [|rewrite <- Hdom; by eapply smalls_insert].
  split; cbn [list_nodes timers_expired_list timers timers_tree].
  - cbn [expired]. destruct (ht_list _ _ H1) as (? & ? & ? & Hd). split_and!; [done|]. split_and!; [done|done|]. eapply dseg_frame; [|exact Hd].
    intros y Hy. apply lookup_delete_ne. by intros ->.
  - exact Rt'.
  - intros d' x [[= -> ->]|Hx]%elem_insert_run; [exists (is_small bt); subst ts; by rewrite lookup_insert_eq|].
    rewrite Hts by (intros ->; apply Htr; by eapply elem_run). by apply (ht_run _ _ H1).
  - intros x b Hb. destruct (decide (x = t)) as [->|Hne].
    + subst ts. rewrite lookup_insert_eq in Hb. injection Hb as <-. cbn [state set_state]. split; split; try done.
      intros _. apply elem_insert_timer. by left.
    + rewrite Hts in Hb by done. destruct (ht_state _ _ H1 _ _ Hb) as [<- <-]. split; [|done]. cbn [running]. rewrite elem_insert_timer. naive_solver.
  - cbn [expired]. intros x Hx. rewrite Hts by by intros ->. by apply (ht_mem _ _ H1).
  - intros x [->|Hx]%elem_insert_timer; [apply lookup_delete_eq|]. apply lookup_delete_None. right. by apply (ht_union_tree _ _ H1).
  - cbn [expired]. intros x Hx. assert (x <> t) as Hne by by intros ->. apply eq_None_not_Some. rewrite (CAvl_Insert_dom _ _ _ _ _ _ _ Ei x Hne).
    rewrite (ht_union_list _ _ H1 x Hx). by intros [? ?].
Qed.
