(* ===== verification/Reactor.v ===== *)
(** * The event loop: [system/BReactor_badvpn.c]

    The reactor as built for Android ([BADVPN_USE_EPOLL]): jobs ([BPending]), timers
    ([Timers]), file descriptors and limits. [exec_step] is one round of the loop
    of [BReactor_Exec]; its result says whose handler is called, and what the
    handlers do is any sequence of the other operations. The clock and the kernel
    answer each [btime_gettime] and [epoll_wait]. [None] is a failed assertion or
    an access to an object that is not there. The theorems are in [ReactorSpec]. *)

From S2P Require Import Prelude LinkedLists BPending BAVL CAvl Timers.

Definition BSYSTEM_MAX_RESULTS : Z := 64.
Definition BREACTOR_READ : Z := 1.
Definition BREACTOR_WRITE : Z := 2.
Definition BREACTOR_ERROR : Z := 4.
Definition BREACTOR_HUP : Z := 8.

(** ** State *)

(** The results array is indexed from 0. *)
Record BFileDescriptor := mkFd {
  fd : Z;
  active : bool;
  waitEvents : Z;
  epoll_returned_ptr : option nat     (* which element's [data.ptr] it points to *)
}.

(** [struct epoll_event]: [data.ptr], and the bits of [events]. *)
Record epoll_event := mkEvent { data_ptr : option Z; EPOLLIN : bool; EPOLLOUT : bool; EPOLLERR : bool; EPOLLHUP : bool }.

Record BReactorLimit := mkLimit { limit : Z; count : Z }.

(** [epoll_results]: the elements below [epoll_results_num]. *)
Record BReactor := mkReactor {
  exiting : bool;
  exit_code : Z;
  pending_jobs : BPendingGroup;
  r_timers : Timers;
  active_limits_list : LinkedList1 (A := Z);
  limit_nodes : gmap Z (ListNode (A := Z));
  limits : gmap Z BReactorLimit;
  epoll_results : list epoll_event;
  epoll_results_pos : nat;
  fds : gmap Z BFileDescriptor
}.

Definition with_exit (r : BReactor) e c : BReactor :=
  mkReactor e c (pending_jobs r) (r_timers r) (active_limits_list r) (limit_nodes r) (limits r) (epoll_results r) (epoll_results_pos r) (fds r).
Definition with_jobs (r : BReactor) g : BReactor :=
  mkReactor (exiting r) (exit_code r) g (r_timers r) (active_limits_list r) (limit_nodes r) (limits r) (epoll_results r) (epoll_results_pos r) (fds r).
Definition with_timers (r : BReactor) T : BReactor :=
  mkReactor (exiting r) (exit_code r) (pending_jobs r) T (active_limits_list r) (limit_nodes r) (limits r) (epoll_results r) (epoll_results_pos r) (fds r).
Definition with_limits (r : BReactor) l n m : BReactor :=
  mkReactor (exiting r) (exit_code r) (pending_jobs r) (r_timers r) l n m (epoll_results r) (epoll_results_pos r) (fds r).
Definition with_results (r : BReactor) es p f : BReactor :=
  mkReactor (exiting r) (exit_code r) (pending_jobs r) (r_timers r) (active_limits_list r) (limit_nodes r) (limits r) es p f.

(** [BReactor_Init], when [epoll_create] succeeds; the exit code is not
    initialised. *)
Definition BReactor_Init (junk : Z) : BReactor :=
  mkReactor false junk BPendingGroup_Init (Timers_Init ∅ ∅ ∅) LinkedList1_Init ∅ ∅ [] 0 ∅.

(** [BReactor_Free]: its assertions; what it frees is the kernel's. *)
Definition BReactor_Free (r : BReactor) : option unit :=
  ASSERT (negb (BPendingGroup_HasJobs (pending_jobs r))) ;;
  ASSERT (CAvl_IsEmpty (timers_tree (r_timers r))) ;;
  ASSERT (LinkedList1_IsEmpty (timers_expired_list (r_timers r))) ;;
  ASSERT (LinkedList1_IsEmpty (active_limits_list r)) ;;
  Some tt.

(** ** File descriptors *)

Definition BFileDescriptor_Init (r : BReactor) (bs f : Z) : BReactor :=
  with_results r (epoll_results r) (epoll_results_pos r) (<[bs := mkFd f false 0 None]> (fds r)).

(** [ok]: that [epoll_ctl] succeeds. *)
Definition BReactor_AddFileDescriptor (r : BReactor) (bs : Z) (ok : bool) : option (bool * BReactor) :=
  let* b := fds r !! bs in
  ASSERT (negb (active b)) ;;
  if negb ok then Some (false, r)
  else Some (true, with_results r (epoll_results r) (epoll_results_pos r) (<[bs := mkFd (fd b) true 0 None]> (fds r))).

(** [*ptr = NULL] for a pointer into the results. *)
Definition clear_result (es : list epoll_event) (i : nat) : option (list epoll_event) :=
  let* e := es !! i in Some (<[i := mkEvent None (EPOLLIN e) (EPOLLOUT e) (EPOLLERR e) (EPOLLHUP e)]> es).

Definition BReactor_RemoveFileDescriptor (r : BReactor) (bs : Z) (ok : bool) : option BReactor :=
  let* b := fds r !! bs in
  ASSERT (active b) ;;
  ASSERT ok ;;
  let* es := (match epoll_returned_ptr b with Some i => clear_result (epoll_results r) i | None => Some (epoll_results r) end) in
  Some (with_results r es (epoll_results_pos r) (<[bs := mkFd (fd b) false (waitEvents b) (epoll_returned_ptr b)]> (fds r))).

Definition BReactor_SetFileDescriptorEvents (r : BReactor) (bs events : Z) (ok : bool) : option BReactor :=
  let* b := fds r !! bs in
  ASSERT (active b) ;;
  ASSERT (Z.land events (Z.lnot (Z.lor BREACTOR_READ BREACTOR_WRITE)) =? 0) ;;
  if waitEvents b =? events then Some r
  else ASSERT ok ;;
       Some (with_results r (epoll_results r) (epoll_results_pos r) (<[bs := mkFd (fd b) (active b) events (epoll_returned_ptr b)]> (fds r))).

(** From element [i] on. *)
Fixpoint set_epoll_fd_pointers (i : nat) (es : list epoll_event) (m : gmap Z BFileDescriptor) : option (gmap Z BFileDescriptor) :=
  match es with
  | [] => Some m
  | e :: es =>
      let* p := data_ptr e in
      let* b := m !! p in
      ASSERT (active b) ;;
      ASSERT (bool_decide (epoll_returned_ptr b = None)) ;;
      set_epoll_fd_pointers (S i) es (<[p := mkFd (fd b) (active b) (waitEvents b) (Some i)]> m)
  end.

(** "calculate events to report" *)
Definition events_to_report (wait : Z) (e : epoll_event) : Z :=
  let events := 0 in
  let events := (if negb (Z.land wait BREACTOR_READ =? 0) && EPOLLIN e then Z.lor events BREACTOR_READ else events) in
  let events := (if negb (Z.land wait BREACTOR_WRITE =? 0) && EPOLLOUT e then Z.lor events BREACTOR_WRITE else events) in
  let events := (if EPOLLERR e then Z.lor events BREACTOR_ERROR else events) in
  if EPOLLHUP e then Z.lor events BREACTOR_HUP else events.

(** ** Limits *)

Definition BReactorLimit_Init (r : BReactor) (o lim : Z) : option BReactor :=
  ASSERT (lim >? 0) ;;
  Some (with_limits r (active_limits_list r) (limit_nodes r) (<[o := mkLimit lim 0]> (limits r))).

Definition BReactorLimit_Free (r : BReactor) (o : Z) : option BReactor :=
  let* l := limits r !! o in
  let* (ln, al) := (if count l >? 0 then LinkedList1_Remove (limit_nodes r) (active_limits_list r) o
                    else Some (limit_nodes r, active_limits_list r)) in
  Some (with_limits r al ln (delete o (limits r))).

Definition BReactorLimit_Increment (r : BReactor) (o : Z) : option (bool * BReactor) :=
  let* l := limits r !! o in
  if count l >=? limit l then Some (false, r)
  else
    let l := mkLimit (limit l) (count l + 1) in
    let* (ln, al) := (if count l =? 1 then LinkedList1_Append (limit_nodes r) (active_limits_list r) o
                      else Some (limit_nodes r, active_limits_list r)) in
    Some (true, with_limits r al ln (<[o := l]> (limits r))).

Definition BReactorLimit_SetLimit (r : BReactor) (o lim : Z) : option BReactor :=
  let* l := limits r !! o in
  ASSERT (lim >? 0) ;;
  Some (with_limits r (active_limits_list r) (limit_nodes r) (<[o := mkLimit lim (count l)]> (limits r))).

(** "reset limit objects" *)
Fixpoint reset_limits (fuel : nat) (r : BReactor) : option BReactor :=
  match fuel with
  | O => None
  | S fuel =>
      match LinkedList1_GetFirst (active_limits_list r) with
      | None => Some r
      | Some o =>
          let* l := limits r !! o in
          ASSERT (count l >? 0) ;;
          let* (ln, al) := LinkedList1_Remove (limit_nodes r) (active_limits_list r) o in
          reset_limits fuel (with_limits r al ln (<[o := mkLimit (limit l) 0]> (limits r)))
      end
  end.

(** ** Waiting *)

(** What [epoll_wait] does: it is interrupted, or returns events (none when the
    time is over). *)
Inductive wait_result := WInterrupted | WReturned (events : list epoll_event).

(** One call of [epoll_wait], and the answer of [btime_gettime] after it. *)
Abbreviation wait_round := (wait_result * Z)%type.

(** How far the wait got: done, or still waiting in the last call; with the
    timeouts given to [epoll_wait] ([None] is -1). *)
Abbreviation wait_outcome := (list (option Z) * option BReactor)%type.

Definition to_wait (have_timeout : option Z) (now : Z) : option Z :=
  let* timeout_abs := have_timeout in
  let timeout_rel := timeout_abs - now in
  Some (if timeout_rel >? INT_MAX then INT_MAX else timeout_rel).

(** [timeout_rel_trunc == timeout_rel]; both are 0 without a timeout. *)
Definition not_truncated (have_timeout : option Z) (now : Z) : bool :=
  match have_timeout, to_wait have_timeout now with
  | Some timeout_abs, Some trunc => trunc =? timeout_abs - now
  | _, _ => true
  end.

Definition first_timers (r : BReactor) : option BReactor :=
  let* T := move_first_timers (r_timers r) in Some (with_timers r T).

(** The loop of [wait_for_events]. *)
Fixpoint wait_loop (r : BReactor) (have_timeout : option Z) (now : Z) (rounds : list wait_round) : option wait_outcome :=
  let again (now' : Z) (rounds : list wait_round) := (
    match have_timeout with
    | None => wait_loop r have_timeout now rounds
    | Some timeout_abs =>
        if now' >=? timeout_abs then let* r := first_timers r in Some ([], Some r)
        else wait_loop r have_timeout now' rounds
    end) in
  let* (timeouts, end_) :=
    (match rounds with
     | [] => Some ([], None)
     | (WInterrupted, now') :: rounds => again now' rounds
     | (WReturned evs, now') :: rounds =>
         ASSERT (negb (zlen evs =? 0) || bool_decide (have_timeout <> None)) ;;
         ASSERT (zlen evs <=? BSYSTEM_MAX_RESULTS) ;;
         if negb (zlen evs =? 0) || not_truncated have_timeout now then
           if negb (zlen evs =? 0) then
             let* m := set_epoll_fd_pointers 0 evs (fds r) in
             Some ([], Some (with_results r evs 0 m))
           else let* r := first_timers r in Some ([], Some r)
         else again now' rounds
     end) in
  Some (to_wait have_timeout now :: timeouts, end_).

(** The limits are reset after the loop. *)
Definition finish_wait (o : wait_outcome) : option wait_outcome :=
  match o with
  | (ts, Some r) => let* r := reset_limits (S (size (limits r))) r in Some (ts, Some r)
  | (ts, None) => Some (ts, None)
  end.

Definition wait_for_events (r : BReactor) (now : Z) (rounds : list wait_round) : option wait_outcome :=
  ASSERT (negb (BPendingGroup_HasJobs (pending_jobs r))) ;;
  ASSERT (LinkedList1_IsEmpty (timers_expired_list (r_timers r))) ;;
  ASSERT (bool_decide (epoll_results_pos r = length (epoll_results r))) ;;
  let r := with_results r [] 0 (fds r) in
  let* first_timer := CAvl_GetFirst (timers_tree (r_timers r)) in
  match first_timer with
  | None => let* o := wait_loop r None 0 rounds in finish_wait o
  | Some t =>
      let* bt := timers (r_timers r) !! t in
      ASSERT (bool_decide (state bt = TIMER_STATE_RUNNING)) ;;
      let* (moved, T) := move_expired_timers (r_timers r) now in
      let r := with_timers r T in
      if moved : bool then Some ([], Some r)
      else let* bt := timers (r_timers r) !! t in
           let* o := wait_loop r (Some (absTime bt)) now rounds in finish_wait o
  end.

(** ** The loop *)

Inductive called :=
  | CExit (code : Z)                          (* the loop has ended *)
  | CJob (p : addr)
  | CTimer (t : Z) (small : bool)
  | CFd (bs events : Z)
  | CSkip                                     (* an element of the results that is not dispatched *)
  | CWaited (timeouts : list (option Z))
  | CWaiting (timeouts : list (option Z)).    (* still in [epoll_wait] *)

(** "dispatch file descriptor", when there is a result to process. *)
Definition dispatch_fd (r : BReactor) (event : epoll_event) : option (called * BReactor) :=
  let pos := S (epoll_results_pos r) in
  match data_ptr event with
  | None => Some (CSkip, with_results r (epoll_results r) pos (fds r))
  | Some bs =>
      let* b := fds r !! bs in
      ASSERT (active b) ;;
      ASSERT (bool_decide (epoll_returned_ptr b = Some (epoll_results_pos r))) ;;
      let r := with_results r (epoll_results r) pos (<[bs := mkFd (fd b) (active b) (waitEvents b) None]> (fds r)) in
      let events := events_to_report (waitEvents b) event in
      if events =? 0 then Some (CSkip, r) else Some (CFd bs events, r)
  end.

(** One round of the loop of [BReactor_Exec]. *)
Definition exec_step (r : BReactor) (now : Z) (rounds : list wait_round) : option (called * BReactor) :=
  if exiting r then Some (CExit (exit_code r), r)
  else if BPendingGroup_HasJobs (pending_jobs r) then
    let* (g, p) := BPendingGroup_ExecuteJob (pending_jobs r) in Some (CJob p, with_jobs r g)
  else
    let* (T, t) := dispatch_timer (r_timers r) in
    match t with
    | Some (t, small) => Some (CTimer t small, with_timers r T)
    | None =>
        match epoll_results r !! epoll_results_pos r with
        | Some event => dispatch_fd r event
        | None =>
            let* o := wait_for_events r now rounds in
            match o with
            | (ts, Some r) => Some (CWaited ts, r)
            | (ts, None) => Some (CWaiting ts, with_results r [] 0 (fds r))
            end
        end
    end.

Definition BReactor_Quit (r : BReactor) (code : Z) : BReactor := with_exit r true code.

(** One round of the loop of [BReactor_Synchronize]: it returns, or a job is run. *)
Inductive sync_result := SReturn (res : bool) | SJob (p : addr).

Definition sync_step (r : BReactor) (ref : addr) : option (sync_result * BReactor) :=
  if exiting r then Some (SReturn false, r)
  else
    ASSERT (BPendingGroup_HasJobs (pending_jobs r)) ;;
    if bool_decide (BPendingGroup_PeekJob (pending_jobs r) = Some ref) then Some (SReturn true, r)
    else let* (g, p) := BPendingGroup_ExecuteJob (pending_jobs r) in Some (SJob p, with_jobs r g).
