(* ===== verification/ReactorSpec.v ===== *)
(** * The event loop implements its specification

    The specification of the reactor is a stack of jobs, deadlines in order, a
    queue of expired timers, the descriptors with the events they wait for, the
    events still to be dispatched, and counters. The theorems say that the
    structures of [Reactor] implement it through every legal sequence of calls and
    rounds of the loop, and what follows for timers, descriptors and limits. *)

From S2P Require Import Prelude LinkedLists BPending BAVL BAVLSpec CAvl Timers Reactor.

(** ** The specification *)

Record rspec := mkRS {
  s_exiting : bool;
  s_code : Z;
  s_jobs : jobs;
  s_timers : tspec;
  s_smalls : gmap Z bool;                (* initialised timers *)
  s_limits : gmap Z (Z * Z);             (* limit and count *)
  s_results : list epoll_event;          (* to be dispatched *)
  s_fds : gmap Z (option Z)              (* initialised descriptors, with the events when active *)
}.

Inductive op :=
  | TimerInit (t junk : Z) (small : bool) | TimerSet (t : Z) (mode : timer_mode) (time now : Z) | TimerRemove (t : Z)
  | FdInit (bs f : Z) | FdAdd (bs : Z) (ok : bool) | FdRemove (bs : Z) | FdSetEvents (bs events : Z)
  | LimitInit (o lim : Z) | LimitFree (o : Z) | LimitIncrement (o : Z) | LimitSet (o lim : Z)
  | Job (j : job_op) | Quit (code : Z)
  | Step (now : Z) (rounds : list wait_round) | Sync (ref : addr) | JobIsSet (p : addr).

Inductive out := OUnit | OBool (b : bool) | OCalled (c : called) | OSync (s : sync_result).

(** The code: [epoll_ctl] succeeds for a descriptor that is registered. *)
Definition exec_op (r : BReactor) (o : op) : option (out * BReactor) :=
  match o with
  | TimerInit t junk small =>
      Some (OUnit, with_timers r (if small then BSmallTimer_Init (r_timers r) t junk else BTimer_Init (r_timers r) t junk))
  | TimerSet t mode time now => let* T := BReactor_SetSmallTimer (r_timers r) t mode time now in Some (OUnit, with_timers r T)
  | TimerRemove t => let* T := BReactor_RemoveSmallTimer (r_timers r) t in Some (OUnit, with_timers r T)
  | FdInit bs f => Some (OUnit, BFileDescriptor_Init r bs f)
  | FdAdd bs ok => let* (b, r) := BReactor_AddFileDescriptor r bs ok in Some (OBool b, r)
  | FdRemove bs => let* r := BReactor_RemoveFileDescriptor r bs true in Some (OUnit, r)
  | FdSetEvents bs events => let* r := BReactor_SetFileDescriptorEvents r bs events true in Some (OUnit, r)
  | LimitInit o lim => let* r := BReactorLimit_Init r o lim in Some (OUnit, r)
  | LimitFree o => let* r := BReactorLimit_Free r o in Some (OUnit, r)
  | LimitIncrement o => let* (b, r) := BReactorLimit_Increment r o in Some (OBool b, r)
  | LimitSet o lim => let* r := BReactorLimit_SetLimit r o lim in Some (OUnit, r)
  | Job j => let* (g, _) := group_exec (pending_jobs r) j in Some (OUnit, with_jobs r g)
  | Quit code => Some (OUnit, BReactor_Quit r code)
  | Step now rounds => let* (c, r) := exec_step r now rounds in Some (OCalled c, r)
  | Sync ref => let* (s, r) := sync_step r ref in Some (OSync s, r)
  | JobIsSet p => let* b := BPending_IsSet (pending_jobs r) p in Some (OBool b, r)
  end.

Definition su_timers (s : rspec) t sm := mkRS (s_exiting s) (s_code s) (s_jobs s) t sm (s_limits s) (s_results s) (s_fds s).
Definition su_fds (s : rspec) es f := mkRS (s_exiting s) (s_code s) (s_jobs s) (s_timers s) (s_smalls s) (s_limits s) es f.
Definition su_limits (s : rspec) l := mkRS (s_exiting s) (s_code s) (s_jobs s) (s_timers s) (s_smalls s) l (s_results s) (s_fds s).
Definition su_jobs (s : rspec) j := mkRS (s_exiting s) (s_code s) j (s_timers s) (s_smalls s) (s_limits s) (s_results s) (s_fds s).

(** How a wait ends: at the first deadline, with events, or not yet. *)
Inductive wait_end := EFirst | EEvents (evs : list epoll_event) | EPending.

Fixpoint rounds_end (d : option Z) (now : Z) (rounds : list wait_round) : list (option Z) * wait_end :=
  let again (now' : Z) (rounds : list wait_round) := (
    match d with
    | None => rounds_end d now rounds
    | Some a => if now' >=? a then ([], EFirst) else rounds_end d now' rounds
    end) in
  let r := (match rounds with
            | [] => ([], EPending)
            | (WInterrupted, now') :: rounds => again now' rounds
            | (WReturned [], now') :: rounds => if not_truncated d now then ([], EFirst) else again now' rounds
            | (WReturned evs, _) :: _ => ([], EEvents evs)
            end) in
  (to_wait d now :: r.1, r.2).

Definition reset_counts (l : gmap Z (Z * Z)) : gmap Z (Z * Z) := (fun x => (x.1, 0)) <$> l.

Definition spec_wait (s : rspec) (now : Z) (rounds : list wait_round) : called * rspec :=
  let first := first_deadline (s_timers s) in
  if match first with Some d => d <=? now | None => false end
  then (CWaited [], su_timers s (spec_due now (s_timers s)) (s_smalls s))
  else
    let e := rounds_end first (match first with Some _ => now | None => 0 end) rounds in
    match e.2 with
    | EPending => (CWaiting e.1, s)
    | EEvents evs => (CWaited e.1, su_limits (su_fds s evs (s_fds s)) (reset_counts (s_limits s)))
    | EFirst => (CWaited e.1, su_limits (su_timers s (match first with Some d => spec_due d (s_timers s) | None => s_timers s end) (s_smalls s)) (reset_counts (s_limits s)))
    end.

Definition spec_step (s : rspec) (now : Z) (rounds : list wait_round) : called * rspec :=
  if s_exiting s then (CExit (s_code s), s)
  else match stack (s_jobs s) with
  | p :: l => (CJob p, su_jobs s (mkJobs (objs (s_jobs s)) l))
  | [] =>
      match expired (s_timers s) with
      | t :: l => (CTimer t (default true (s_smalls s !! t)), su_timers s (mkSpec (running (s_timers s)) l) (s_smalls s))
      | [] =>
          match s_results s with
          | e :: es =>
              let s := su_fds s es (s_fds s) in
              match data_ptr e with
              | None => (CSkip, s)
              | Some bs =>
                  let events := (match s_fds s !! bs with Some (Some w) => events_to_report w e | _ => 0 end) in
                  if events =? 0 then (CSkip, s) else (CFd bs events, s)
              end
          | [] => spec_wait s now rounds
          end
      end
  end.

Definition clear_fd (bs : Z) (es : list epoll_event) : list epoll_event :=
  map (fun e => if bool_decide (data_ptr e = Some bs) then mkEvent None (EPOLLIN e) (EPOLLOUT e) (EPOLLERR e) (EPOLLHUP e) else e) es.

Definition spec_op (s : rspec) (o : op) : out * rspec :=
  match o with
  | TimerInit t _ small => (OUnit, su_timers s (s_timers s) (<[t := small]> (s_smalls s)))
  | TimerSet t mode time now =>
      (OUnit, su_timers s (spec_set t (match mode with BTIMER_SET_RELATIVE => btime_add now time | BTIMER_SET_ABSOLUTE => time end) (s_timers s)) (s_smalls s))
  | TimerRemove t => (OUnit, su_timers s (spec_remove t (s_timers s)) (s_smalls s))
  | FdInit bs _ => (OUnit, su_fds s (s_results s) (<[bs := None]> (s_fds s)))
  | FdAdd bs ok => (OBool ok, if ok then su_fds s (s_results s) (<[bs := Some 0]> (s_fds s)) else s)
  | FdRemove bs => (OUnit, su_fds s (clear_fd bs (s_results s)) (<[bs := None]> (s_fds s)))
  | FdSetEvents bs events => (OUnit, su_fds s (s_results s) (<[bs := Some events]> (s_fds s)))
  | LimitInit o lim => (OUnit, su_limits s (<[o := (lim, 0)]> (s_limits s)))
  | LimitFree o => (OUnit, su_limits s (delete o (s_limits s)))
  | LimitIncrement o =>
      match s_limits s !! o with
      | Some (lim, c) => if c <? lim then (OBool true, su_limits s (<[o := (lim, c + 1)]> (s_limits s))) else (OBool false, s)
      | None => (OUnit, s)
      end
  | LimitSet o lim => (OUnit, su_limits s (match s_limits s !! o with Some (_, c) => <[o := (lim, c)]> (s_limits s) | None => s_limits s end))
  | Job j => (OUnit, match spec_exec (s_jobs s) j with Some (js, _) => su_jobs s js | None => s end)
  | Quit code => (OUnit, mkRS true code (s_jobs s) (s_timers s) (s_smalls s) (s_limits s) (s_results s) (s_fds s))
  | Step now rounds => let r := spec_step s now rounds in (OCalled r.1, r.2)
  | Sync ref =>
      if s_exiting s then (OSync (SReturn false), s)
      else match stack (s_jobs s) with
           | p :: l => if bool_decide (p = ref) then (OSync (SReturn true), s) else (OSync (SJob p), su_jobs s (mkJobs (objs (s_jobs s)) l))
           | [] => (OUnit, s)
           end
  | JobIsSet p => (OBool (bool_decide (p ∈ stack (s_jobs s))), s)
  end.

(** ** What the callers and the kernel see to *)

Definition is_active (s : rspec) (bs : Z) : bool := match s_fds s !! bs with Some (Some _) => true | _ => false end.

(** The kernel returns active descriptors, each once, not more than it may, and
    none only when a timeout was given. *)
Definition round_legal (s : rspec) (r : wait_round) : bool :=
  match r.1 with
  | WInterrupted => true
  | WReturned evs =>
      bool_decide (NoDup (data_ptr <$> evs)) &&
      forallb (fun e => match data_ptr e with Some bs => is_active s bs | None => false end) evs &&
      (zlen evs <=? BSYSTEM_MAX_RESULTS) &&
      (negb (zlen evs =? 0) || bool_decide (running (s_timers s) <> []))
  end.

Definition op_legal (s : rspec) (o : op) : bool :=
  match o with
  | TimerInit t _ _ => bool_decide (t ∉ map snd (running (s_timers s))) && bool_decide (t ∉ expired (s_timers s))
  | TimerSet t _ _ _ | TimerRemove t => bool_decide (is_Some (s_smalls s !! t))
  | FdInit bs _ => negb (is_active s bs)
  | FdAdd bs _ => bool_decide (s_fds s !! bs = Some None)
  | FdRemove bs => is_active s bs
  | FdSetEvents bs events => is_active s bs && (Z.land events (Z.lnot (Z.lor BREACTOR_READ BREACTOR_WRITE)) =? 0)
  | LimitInit o lim => bool_decide (s_limits s !! o = None) && (lim >? 0)
  | LimitFree o | LimitIncrement o => bool_decide (is_Some (s_limits s !! o))
  | LimitSet o lim => bool_decide (is_Some (s_limits s !! o)) && (lim >? 0)
  | Job JExecute => false
  | Job j => bool_decide (is_Some (spec_exec (s_jobs s) j))
  | Quit _ => true
  | Step _ rounds => forallb (round_legal s) rounds
  | Sync _ => s_exiting s || bool_decide (stack (s_jobs s) <> [])
  | JobIsSet p => bool_decide (p ∈ objs (s_jobs s))
  end.

Definition s_init (junk : Z) : rspec := mkRS false junk (mkJobs ∅ []) (mkSpec [] []) ∅ ∅ [] ∅.

Fixpoint run_ops (r : BReactor) (ops : list op) : option (list out * BReactor) :=
  match ops with
  | [] => Some ([], r)
  | o :: ops => let* (x, r) := exec_op r o in let* (xs, r) := run_ops r ops in Some (x :: xs, r)
  end.
Fixpoint spec_ops (s : rspec) (ops : list op) : list out * rspec :=
  match ops with
  | [] => ([], s)
  | o :: ops => let x := spec_op s o in let xs := spec_ops x.2 ops in (x.1 :: xs.1, xs.2)
  end.
Fixpoint ops_legal (s : rspec) (ops : list op) : bool :=
  match ops with [] => true | o :: ops => op_legal s o && ops_legal (spec_op s o).2 ops end.

(** ** The structures hold the specification *)

Record holds_fds (es : list epoll_event) (pos : nat) (m : gmap Z BFileDescriptor) (pend : list epoll_event) (f : gmap Z (option Z)) : Prop := {
  hf_pos : (pos <= length es)%nat;
  hf_pend : drop pos es = pend;
  hf_fds : forall bs, f !! bs = (fun b => if active b then Some (waitEvents b) else None) <$> m !! bs;
  hf_ptr : forall bs b i, m !! bs = Some b -> active b = true ->
    (epoll_returned_ptr b = Some i <-> (pos <= i)%nat /\ exists e, es !! i = Some e /\ data_ptr e = Some bs);
  hf_active : forall i e bs, (pos <= i)%nat -> es !! i = Some e -> data_ptr e = Some bs -> exists b, m !! bs = Some b /\ active b = true
}.

Record holds_limits (al : LinkedList1) (ln : gmap Z ListNode) (m : gmap Z BReactorLimit) (s : gmap Z (Z * Z)) : Prop := {
  hl_map : m = (fun x => mkLimit (x.1) (x.2)) <$> s;
  hl_list : exists l, llist_rel ln al l /\ forall o, o ∈ l <-> exists lim c, s !! o = Some (lim, c) /\ 0 < c;
  hl_count : forall o lim c, s !! o = Some (lim, c) -> 0 <= c
}.

Record holds_reactor (r : BReactor) (s : rspec) : Prop := {
  hr_exit : exiting r = s_exiting s /\ exit_code r = s_code s;
  hr_jobs : group_rel (pending_jobs r) (s_jobs s);
  hr_timers : holds_timers (r_timers r) (s_timers s) /\ smalls (r_timers r) = s_smalls s;
  hr_limits : holds_limits (active_limits_list r) (limit_nodes r) (limits r) (s_limits s);
  hr_fds : holds_fds (epoll_results r) (epoll_results_pos r) (fds r) (s_results s) (s_fds s)
}.

(** ** Limits *)

Lemma limits_lookup al ln m s o : holds_limits al ln m s -> m !! o = (fun x => mkLimit (x.1) (x.2)) <$> s !! o.
Proof. intros H. rewrite (hl_map _ _ _ _ H). apply lookup_fmap. Qed.

(** A count that stays zero or positive is changed. *)
Lemma limits_set al ln m s o lim c : holds_limits al ln m s -> 0 <= c ->
  (forall lim' c', s !! o = Some (lim', c') -> 0 < c' <-> 0 < c) -> (s !! o = None -> c = 0) ->
  holds_limits al ln (<[o := mkLimit lim c]> m) (<[o := (lim, c)]> s).
Proof.
  intros [Hm (l & R & Hl) Hc] H0 Hiff Hnew. split.
  - by rewrite Hm, fmap_insert.
  - exists l. split; [done|]. intros o'. rewrite Hl. destruct (decide (o' = o)) as [->|Hne]; [|by rewrite lookup_insert_ne].
    rewrite lookup_insert_eq. destruct (s !! o) as [[lim' c']|] eqn:E.
    + specialize (Hiff _ _ eq_refl). split; intros (? & ? & [= <- <-] & ?); eexists _, _; (split; [done|tauto]).
    + specialize (Hnew eq_refl). split; intros (? & ? & ? & ?); simplify_eq; lia.
  - intros o' lim' c'. destruct (decide (o' = o)) as [->|Hne]; [rewrite lookup_insert_eq; by intros [= <- <-]|rewrite lookup_insert_ne by done; apply Hc].
Qed.

Lemma llist_remove_in ln al l o : llist_rel ln al l -> o ∈ l ->
  exists ln' al', LinkedList1_Remove ln al o = Some (ln', al') /\ llist_rel ln' al' (list_remove o l).
Proof.
  intros R He. pose proof (proj1 (proj2 (proj2 R))) as Hnd. apply list_elem_of_split in He as (l1 & l2 & El). rewrite El in *.
  apply list.NoDup_app in Hnd as (_ & D & Hnd). apply list.NoDup_cons in Hnd as [Hn _].
  destruct (LinkedList1_Remove_ok _ _ _ _ _ R) as (-> & R'). eexists _, _. split; [done|]. rewrite list_remove_split; [done| |done].
  intros Hx. apply (D o Hx). by left.
Qed.

Lemma limit_increment_ok r s o lim c : holds_limits (active_limits_list r) (limit_nodes r) (limits r) s -> s !! o = Some (lim, c) ->
  exists al ln m, BReactorLimit_Increment r o = Some (c <? lim, if c <? lim then with_limits r al ln m else r) /\
    (c < lim -> holds_limits al ln m (<[o := (lim, c + 1)]> s)).
Proof.
  intros H E. pose proof H as [Hm (l & R & Hl) Hc]. unfold BReactorLimit_Increment. rewrite (limits_lookup _ _ _ _ o H), E. cbn [fmap option_fmap option_map fst snd count limit].
  destruct (Z.geb_spec c lim) as [Hge|Hlt].
  { rewrite (proj2 (Z.ltb_ge _ _)) by lia. exists LinkedList1_Init, ∅, ∅. split; [done|lia]. }
  rewrite (proj2 (Z.ltb_lt _ _)) by lia. pose proof (Hc _ _ _ E) as H0. destruct (Z.eqb_spec (c + 1) 1) as [E1|E1].
  - assert (o ∉ l) as Ho by (rewrite Hl; intros (? & ? & ? & ?); simplify_eq; lia).
    destruct (LinkedList1_Append_ok _ _ _ _ R Ho) as (-> & R'). eexists _, _, _. split; [done|]. intros _. split.
    + by rewrite Hm, fmap_insert.
    + eexists. split; [exact R'|]. intros o'. rewrite elem_of_app, list_elem_of_singleton, Hl. destruct (decide (o' = o)) as [->|Hne].
      * rewrite lookup_insert_eq. split; [intros _; eexists _, _; split; [done|lia]|auto].
      * rewrite lookup_insert_ne by done. tauto.
    + intros o' lim' c'. destruct (decide (o' = o)) as [->|Hne]; [rewrite lookup_insert_eq; intros [= <- <-]; lia|rewrite lookup_insert_ne by done; apply Hc].
  - exists (active_limits_list r), (limit_nodes r), (<[o := mkLimit lim (c + 1)]> (limits r)). split; [done|]. intros _.
    apply limits_set; [done|lia| |congruence]. intros lim' c' E'. simplify_eq. lia.
Qed.

Lemma limit_free_ok r s o : holds_limits (active_limits_list r) (limit_nodes r) (limits r) s -> is_Some (s !! o) ->
  exists al ln, BReactorLimit_Free r o = Some (with_limits r al ln (delete o (limits r))) /\ holds_limits al ln (delete o (limits r)) (delete o s).
Proof.
  intros H [[lim c] E]. pose proof H as [Hm (l & R & Hl) Hc]. unfold BReactorLimit_Free. rewrite (limits_lookup _ _ _ _ o H), E. cbn [fmap option_fmap option_map fst snd count limit].
  assert (forall al ln l', llist_rel ln al l' -> (forall o', o' ∈ l' <-> o' ∈ l /\ o' <> o) -> holds_limits al ln (delete o (limits r)) (delete o s)) as Hgo.
  { intros al ln l' R' Hl'. split.
    - by rewrite Hm, fmap_delete.
    - exists l'. split; [done|]. intros o'. rewrite Hl', Hl. destruct (decide (o' = o)) as [->|Hne]; [rewrite lookup_delete_eq; naive_solver|rewrite lookup_delete_ne by done; naive_solver].
    - intros o' lim' c'. intros [_ E']%lookup_delete_Some. by eapply Hc. }
  destruct (Z.gtb_spec c 0) as [Hc0|Hc0].
  - destruct (llist_remove_in _ _ _ o R) as (ln & al & -> & R'); [apply Hl; eauto|]. eexists _, _. split; [done|]. eapply Hgo; [exact R'|].
    intros o'. by rewrite elem_list_remove.
  - eexists _, _. split; [done|]. eapply Hgo; [exact R|]. intros o'. split; [|tauto]. intros Ho'. split; [done|]. intros ->.
    apply Hl in Ho' as (? & ? & ? & ?). simplify_eq. lia.
Qed.

Lemma reset_limits_ok fuel : forall r s l,
  holds_limits (active_limits_list r) (limit_nodes r) (limits r) s -> llist_rel (limit_nodes r) (active_limits_list r) l ->
  (forall o, o ∈ l <-> exists lim c, s !! o = Some (lim, c) /\ 0 < c) -> (length l < fuel)%nat ->
  exists al ln m, reset_limits fuel r = Some (with_limits r al ln m) /\ holds_limits al ln m (reset_counts s).
Proof.
  induction fuel as [|fuel IH]; intros r s l H R Hl Hf; [lia|]. cbn [reset_limits]. unfold LinkedList1_GetFirst. pose proof R as (_ & Ef & Hnd & _). rewrite Ef.
  destruct l as [|o l]; cbn [head].
  - exists (active_limits_list r), (limit_nodes r), (limits r). split; [by destruct r|]. assert (reset_counts s = s) as ->; [|done].
    apply map_eq. intros o. unfold reset_counts. rewrite lookup_fmap. destruct (s !! o) as [[lim c]|] eqn:E; [|done]. simpl. f_equal. f_equal.
    pose proof (hl_count _ _ _ _ H _ _ _ E). destruct (decide (0 < c)) as [Hc|]; [|lia]. exfalso. apply (not_elem_of_nil o), Hl. eauto.
  - destruct (proj1 (Hl o) ltac:(by left)) as (lim & c & E & Hc). rewrite (limits_lookup _ _ _ _ o H), E. cbn [fmap option_fmap option_map fst snd count limit].
    rewrite (proj2 (Z.gtb_lt _ _)) by lia. destruct (llist_remove_in _ _ _ o R ltac:(by left)) as (ln & al & -> & R').
    apply list.NoDup_cons in Hnd as [Hn Hnd]. assert (list_remove o (o :: l) = l) as El by (unfold list_remove; simpl; rewrite Z.eqb_refl; simpl; by apply list_remove_notin). rewrite El in R'.
    set (s' := <[o := (lim, 0)]> s).
    assert (forall o', o' ∈ l <-> exists lim c, s' !! o' = Some (lim, c) /\ 0 < c) as Hl'.
    { intros o'. subst s'. destruct (decide (o' = o)) as [->|Hne]; [rewrite lookup_insert_eq; split; [done|intros (? & ? & ? & ?); simplify_eq; lia]|].
      rewrite lookup_insert_ne by done. rewrite <- Hl, elem_of_cons. tauto. }
    destruct (IH (with_limits r al ln (<[o := mkLimit lim 0]> (limits r))) s' l) as (al2 & ln2 & m2 & E2 & H2); [|exact R'|exact Hl'|simpl in Hf; lia|].
    + cbn [active_limits_list limit_nodes limits with_limits]. split; [unfold s'; by rewrite (hl_map _ _ _ _ H), fmap_insert|eauto|].
      intros o' lim' c'. subst s'. destruct (decide (o' = o)) as [->|Hne]; [rewrite lookup_insert_eq; intros [= <- <-]; lia|rewrite lookup_insert_ne by done; apply (hl_count _ _ _ _ H)].
    + exists al2, ln2, m2. split; [exact E2|]. replace (reset_counts s) with (reset_counts s'); [done|]. unfold reset_counts, s'. rewrite fmap_insert. cbn [fst].
      apply insert_id. by rewrite lookup_fmap, E.
Qed.

Lemma reset_all_ok r s : holds_limits (active_limits_list r) (limit_nodes r) (limits r) s ->
  exists al ln m, reset_limits (S (size (limits r))) r = Some (with_limits r al ln m) /\ holds_limits al ln m (reset_counts s).
Proof.
  intros H. pose proof H as [Hm (l & R & Hl) _]. apply (reset_limits_ok _ r s l H R Hl). apply Nat.lt_succ_r.
  rewrite Hm, map_size_fmap, <- (size_dom (D := gset Z)). rewrite <- (size_list_to_set (C := gset Z) l) by apply R. apply subseteq_size.
  intros o Ho. apply elem_of_list_to_set, Hl in Ho as (lim & c & E & _). by eapply elem_of_dom_2.
Qed.

(** ** File descriptors *)

Section Fds.
Context (es : list epoll_event) (pos : nat) (m : gmap Z BFileDescriptor) (pend : list epoll_event) (f : gmap Z (option Z)).
Hypothesis H : holds_fds es pos m pend f.

Lemma fd_lookup bs w : f !! bs = Some (Some w) -> exists b, m !! bs = Some b /\ active b = true /\ waitEvents b = w.
Proof. rewrite (hf_fds _ _ _ _ _ H). destruct (m !! bs) as [b|]; simpl; [|done]. destruct (active b) eqn:E; [|done]. intros [= <-]. eauto. Qed.

Lemma fd_lookup_inactive bs : f !! bs = Some None -> exists b, m !! bs = Some b /\ active b = false.
Proof. rewrite (hf_fds _ _ _ _ _ H). destruct (m !! bs) as [b|]; simpl; [|done]. destruct (active b) eqn:E; [done|]. eauto. Qed.

(** No result is left for a descriptor that is not active. *)
Lemma fd_no_result bs : (forall w, f !! bs <> Some (Some w)) -> forall i e, (pos <= i)%nat -> es !! i = Some e -> data_ptr e <> Some bs.
Proof.
  intros Hf i e Hi He Hp. destruct (hf_active _ _ _ _ _ H _ _ _ Hi He Hp) as (b & Hb & Ha). apply (Hf (waitEvents b)).
  rewrite (hf_fds _ _ _ _ _ H), Hb. simpl. by rewrite Ha.
Qed.

(** A descriptor without results is replaced by one without a pointer. *)
Lemma fd_replace bs b : (forall i e, (pos <= i)%nat -> es !! i = Some e -> data_ptr e <> Some bs) -> epoll_returned_ptr b = None ->
  holds_fds es pos (<[bs := b]> m) pend (<[bs := if active b then Some (waitEvents b) else None]> f).
Proof.
  intros Hn Hb. split; [apply (hf_pos _ _ _ _ _ H)|apply (hf_pend _ _ _ _ _ H)| | |].
  - intros bs'. destruct (decide (bs' = bs)) as [->|Hne]; [by rewrite !lookup_insert_eq|]. rewrite !lookup_insert_ne by done. apply (hf_fds _ _ _ _ _ H).
  - intros bs' b' i. destruct (decide (bs' = bs)) as [->|Hne]; [|rewrite lookup_insert_ne by done; apply (hf_ptr _ _ _ _ _ H)].
    rewrite lookup_insert_eq. intros [= <-] Ha. rewrite Hb. split; [done|]. intros (Hi & e & He & Hp). by destruct (Hn _ _ Hi He).
  - intros i e bs' Hi He Hp. destruct (decide (bs' = bs)) as [->|Hne]; [by destruct (Hn _ _ Hi He)|]. rewrite lookup_insert_ne by done.
    by apply (hf_active _ _ _ _ _ H i e).
Qed.

Lemma fd_set_events bs b w : m !! bs = Some b -> active b = true ->
  holds_fds es pos (<[bs := mkFd (fd b) (active b) w (epoll_returned_ptr b)]> m) pend (<[bs := Some w]> f).
Proof.
  intros Hb Ha. split; [apply (hf_pos _ _ _ _ _ H)|apply (hf_pend _ _ _ _ _ H)| | |].
  - intros bs'. destruct (decide (bs' = bs)) as [->|Hne]; [rewrite !lookup_insert_eq; simpl; by rewrite Ha|]. rewrite !lookup_insert_ne by done. apply (hf_fds _ _ _ _ _ H).
  - intros bs' b' i. destruct (decide (bs' = bs)) as [->|Hne]; [|rewrite lookup_insert_ne by done; apply (hf_ptr _ _ _ _ _ H)].
    rewrite lookup_insert_eq. intros [= <-] _. exact (hf_ptr _ _ _ _ _ H _ _ i Hb Ha).
  - intros i e bs' Hi He Hp. destruct (hf_active _ _ _ _ _ H _ _ _ Hi He Hp) as (b' & Hb' & Ha').
    destruct (decide (bs' = bs)) as [->|Hne]; [rewrite lookup_insert_eq; eexists; split; [done|done]|rewrite lookup_insert_ne by done; eauto].
Qed.

Lemma clear_fd_lookup bs l k : clear_fd bs l !! k =
  (fun e => if bool_decide (data_ptr e = Some bs) then mkEvent None (EPOLLIN e) (EPOLLOUT e) (EPOLLERR e) (EPOLLHUP e) else e) <$> l !! k.
Proof. apply list_lookup_fmap. Qed.

(** Removal: the pointer leads to the one result of the descriptor, if any. *)
Lemma fd_remove bs b : m !! bs = Some b -> active b = true ->
  exists es', (match epoll_returned_ptr b with Some i => clear_result es i | None => Some es end) = Some es' /\
    holds_fds es' pos (<[bs := mkFd (fd b) false (waitEvents b) (epoll_returned_ptr b)]> m) (clear_fd bs pend) (<[bs := None]> f).
Proof.
  intros Hb Ha.
  assert (exists es', (match epoll_returned_ptr b with Some i => clear_result es i | None => Some es end) = Some es' /\ length es' = length es /\
    forall k, (pos <= k)%nat -> es' !! k = (fun e => if bool_decide (data_ptr e = Some bs) then mkEvent None (EPOLLIN e) (EPOLLOUT e) (EPOLLERR e) (EPOLLHUP e) else e) <$> es !! k)
    as (es' & E & Hlen & Hes).
  { destruct (epoll_returned_ptr b) as [i|] eqn:Ei.
    - destruct (proj1 (hf_ptr _ _ _ _ _ H _ _ _ Hb Ha) Ei) as (Hi & e & He & Hp). unfold clear_result. rewrite He. eexists. split; [done|].
      split; [apply length_insert|]. intros k Hk. destruct (decide (k = i)) as [->|Hne].
      + rewrite list_lookup_insert_eq by (by eapply lookup_lt_Some). rewrite He. simpl. by rewrite bool_decide_true.
      + rewrite list_lookup_insert_ne by done. destruct (es !! k) as [e'|] eqn:Ek; [|done]. simpl. rewrite bool_decide_false; [done|].
        intros Hp'. assert (epoll_returned_ptr b = Some k) by (apply (hf_ptr _ _ _ _ _ H _ _ _ Hb Ha); eauto). congruence.
    - exists es. split_and!; [done|done|]. intros k Hk. destruct (es !! k) as [e'|] eqn:Ek; [|done]. simpl. rewrite bool_decide_false; [done|].
      intros Hp'. assert (epoll_returned_ptr b = Some k) by (apply (hf_ptr _ _ _ _ _ H _ _ _ Hb Ha); eauto). congruence. }
  exists es'. split; [exact E|]. split.
  - rewrite Hlen. apply (hf_pos _ _ _ _ _ H).
  - apply list_eq. intros k. rewrite clear_fd_lookup, <- (hf_pend _ _ _ _ _ H), !lookup_drop. apply Hes. lia.
  - intros bs'. destruct (decide (bs' = bs)) as [->|Hne]; [by rewrite !lookup_insert_eq|]. rewrite !lookup_insert_ne by done. apply (hf_fds _ _ _ _ _ H).
  - intros bs' b' i. destruct (decide (bs' = bs)) as [->|Hne]; [rewrite lookup_insert_eq; by intros [= <-]|]. rewrite lookup_insert_ne by done.
    intros Hb' Ha'. rewrite (hf_ptr _ _ _ _ _ H _ _ _ Hb' Ha'). split; intros (Hi & e & He & Hp); (split; [done|]).
    + exists e. rewrite Hes, He by done. simpl. rewrite bool_decide_false by congruence. done.
    + rewrite Hes in He by done. destruct (es !! i) as [e0|]; [|done]. simpl in He. injection He as <-. case_bool_decide; [done|]. by exists e0.
  - intros i e bs' Hi He Hp. rewrite Hes in He by done. destruct (es !! i) as [e0|] eqn:E0; [|done]. simpl in He. injection He as <-. case_bool_decide as Hd; [done|].
    destruct (decide (bs' = bs)) as [->|Hne]; [done|]. rewrite lookup_insert_ne by done. by apply (hf_active _ _ _ _ _ H i e0).
Qed.

(** The next result: its descriptor is active and points back to it. *)
Lemma fd_next e l : pend = e :: l -> es !! pos = Some e.
Proof. intros E. rewrite <- (Nat.add_0_r pos), <- lookup_drop, (hf_pend _ _ _ _ _ H), E. done. Qed.

Lemma fd_skip e l : pend = e :: l -> data_ptr e = None -> holds_fds es (S pos) m l f.
Proof.
  intros E Hp. pose proof (fd_next _ _ E) as He. split.
  - by apply lookup_lt_Some in He.
  - pose proof (hf_pend _ _ _ _ _ H) as Ed. rewrite (drop_S _ _ _ He), E in Ed. by injection Ed.
  - apply (hf_fds _ _ _ _ _ H).
  - intros bs b i Hb Ha. rewrite (hf_ptr _ _ _ _ _ H _ _ _ Hb Ha). split; intros (Hi & e' & He' & Hp'); (split; [|eauto]); [|lia].
    destruct (decide (i = pos)) as [->|]; [|lia]. congruence.
  - intros i e' bs Hi. apply (hf_active _ _ _ _ _ H). lia.
Qed.

Lemma fd_dispatch e l bs : pend = e :: l -> data_ptr e = Some bs ->
  exists b, m !! bs = Some b /\ active b = true /\ epoll_returned_ptr b = Some pos /\ f !! bs = Some (Some (waitEvents b)) /\
    holds_fds es (S pos) (<[bs := mkFd (fd b) (active b) (waitEvents b) None]> m) l f.
Proof.
  intros E Hp. pose proof (fd_next _ _ E) as He. destruct (hf_active _ _ _ _ _ H pos e bs ltac:(lia) He Hp) as (b & Hb & Ha).
  assert (epoll_returned_ptr b = Some pos) as Hr by (apply (hf_ptr _ _ _ _ _ H _ _ _ Hb Ha); eauto).
  exists b. split_and!; [done|done|done|rewrite (hf_fds _ _ _ _ _ H), Hb; simpl; by rewrite Ha|]. split.
  - by apply lookup_lt_Some in He.
  - pose proof (hf_pend _ _ _ _ _ H) as Ed. rewrite (drop_S _ _ _ He), E in Ed. by injection Ed.
  - intros bs'. rewrite (hf_fds _ _ _ _ _ H). destruct (decide (bs' = bs)) as [->|Hne]; [by rewrite lookup_insert_eq, Hb|]. by rewrite lookup_insert_ne.
  - intros bs' b' i. destruct (decide (bs' = bs)) as [->|Hne].
    + rewrite lookup_insert_eq. intros [= <-] _. simpl. split; [done|]. intros (Hi & e' & He' & Hp').
      assert (epoll_returned_ptr b = Some i) by (apply (hf_ptr _ _ _ _ _ H _ _ _ Hb Ha); split; [lia|eauto]). simplify_eq. lia.
    + rewrite lookup_insert_ne by done. intros Hb' Ha'. rewrite (hf_ptr _ _ _ _ _ H _ _ _ Hb' Ha'). split; intros (Hi & e' & He' & Hp'); (split; [|eauto]); [|lia].
      destruct (decide (i = pos)) as [->|]; [|lia]. congruence.
  - intros i e' bs' Hi He' Hp'. destruct (hf_active _ _ _ _ _ H i e' bs' ltac:(lia) He' Hp') as (b' & Hb' & Ha').
    destruct (decide (bs' = bs)) as [->|Hne]; [rewrite lookup_insert_eq; simplify_eq; eauto|rewrite lookup_insert_ne by done; eauto].
Qed.
End Fds.

Lemma set_pointers_ok es : forall i m, NoDup (data_ptr <$> es) ->
  (forall e, e ∈ es -> exists bs b, data_ptr e = Some bs /\ m !! bs = Some b /\ active b = true /\ epoll_returned_ptr b = None) ->
  exists m', set_epoll_fd_pointers i es m = Some m' /\ forall bs,
    (Some bs ∉ data_ptr <$> es -> m' !! bs = m !! bs) /\
    (forall k e, es !! k = Some e -> data_ptr e = Some bs ->
       exists b, m !! bs = Some b /\ m' !! bs = Some (mkFd (fd b) (active b) (waitEvents b) (Some (i + k)%nat))).
Proof.
  induction es as [|e es IH]; intros i m Hnd Ha; cbn [set_epoll_fd_pointers]; [exists m; split; [done|]; intros bs; split; [done|by intros k e]|].
  destruct (Ha e ltac:(by left)) as (p & b & Ep & Hb & Hba & Hr). rewrite Ep, Hb, Hba, Hr. rewrite bool_decide_true by done.
  cbn [fmap list_fmap] in Hnd. rewrite Ep in Hnd. apply list.NoDup_cons in Hnd as [Hn Hnd].
  destruct (IH (S i) (<[p := mkFd (fd b) true (waitEvents b) (Some i)]> m) Hnd) as (m' & -> & Hm').
  { intros e' He'. destruct (Ha e' ltac:(by right)) as (p' & b' & Ep' & Hb' & Hx). exists p', b'. rewrite lookup_insert_ne; [done|].
    intros ->. apply Hn. rewrite <- Ep'. by apply list_elem_of_fmap_2. }
  exists m'. split; [done|]. intros bs. destruct (Hm' bs) as [H1 H2]. split.
  - cbn [fmap list_fmap]. rewrite Ep. intros [Hne Hn']%not_elem_of_cons. rewrite H1 by done. apply lookup_insert_ne. congruence.
  - intros [|k] e' He' Hp'; cbn in He'.
    + injection He' as <-. assert (bs = p) as -> by congruence. exists b. rewrite H1 by done. rewrite lookup_insert_eq, Hba. by rewrite Nat.add_0_r.
    + destruct (H2 k e' He' Hp') as (b' & Hb' & ->). assert (bs <> p) by (intros ->; apply Hn; rewrite <- Hp'; apply list_elem_of_fmap_2; by eapply list_elem_of_lookup_2).
      rewrite lookup_insert_ne in Hb' by done. exists b'. by rewrite Nat.add_succ_r.
Qed.

(** New results, when the old ones are dispatched. *)
Lemma fd_results m f es pos evs : holds_fds es pos m [] f -> NoDup (data_ptr <$> evs) ->
  (forall e, e ∈ evs -> exists bs w, data_ptr e = Some bs /\ f !! bs = Some (Some w)) ->
  exists m', set_epoll_fd_pointers 0 evs m = Some m' /\ holds_fds evs 0 m' evs f.
Proof.
  intros H Hnd Ha. assert (forall bs b, m !! bs = Some b -> active b = true -> epoll_returned_ptr b = None) as Hnone.
  { intros bs b Hb Hba. destruct (epoll_returned_ptr b) as [i|] eqn:E; [|done]. destruct (proj1 (hf_ptr _ _ _ _ _ H _ _ _ Hb Hba) E) as (Hi & e & He & _).
    assert (drop pos es !! (i - pos)%nat = Some e) as Hd by (rewrite lookup_drop, <- He; f_equal; lia). by rewrite (hf_pend _ _ _ _ _ H) in Hd. }
  destruct (set_pointers_ok evs 0 m Hnd) as (m' & -> & Hm').
  { intros e He. destruct (Ha e He) as (bs & w & Ep & Hf). destruct (fd_lookup _ _ _ _ _ H _ _ Hf) as (b & Hb & Hba & _). exists bs, b. eauto. }
  exists m'. split; [done|].
  assert (forall bs, m' !! bs = m !! bs \/ exists b i, m !! bs = Some b /\ m' !! bs = Some (mkFd (fd b) (active b) (waitEvents b) (Some i)) /\ exists e, evs !! i = Some e /\ data_ptr e = Some bs) as Hcases.
  { intros bs. destruct (Hm' bs) as [H1 H2]. destruct (decide (Some bs ∈ data_ptr <$> evs)) as [Hin|Hin]; [right|left; by apply H1].
    apply list_elem_of_fmap in Hin as (e & Ee & (i & He)%list_elem_of_lookup_1). destruct (H2 i e He (eq_sym Ee)) as (b & Hb & Hb'). by exists b, i; eauto 10. }
  split.
  - lia.
  - done.
  - intros bs. rewrite (hf_fds _ _ _ _ _ H). destruct (Hcases bs) as [->|(b & i & -> & -> & _)]; done.
  - intros bs b i Hb Hba. destruct (Hm' bs) as [H1 H2]. split.
    + intros Hr. split; [lia|]. destruct (Hcases bs) as [E|(b' & i' & Hb' & E & e & He & Hp)].
      * rewrite E in Hb. by rewrite (Hnone _ _ Hb Hba) in Hr.
      * rewrite E in Hb. injection Hb as <-. simpl in Hr. injection Hr as ->. eauto.
    + intros (_ & e & He & Hp). destruct (H2 i e He Hp) as (b' & _ & E). rewrite E in Hb. by injection Hb as <-.
  - intros i e bs _ He Hp. destruct (Ha e ltac:(by eapply list_elem_of_lookup_2)) as (bs' & w & Ep & Hf). assert (bs' = bs) as -> by congruence.
    destruct (fd_lookup _ _ _ _ _ H _ _ Hf) as (b & Hb & Hba & _). destruct (Hcases bs) as [->|(b' & i' & Hb' & -> & _)]; [eauto|]. simplify_eq. eauto.
Qed.

(** ** Waiting *)

Lemma first_deadline_none s : first_deadline s = None <-> running s = [].
Proof. unfold first_deadline. destruct (running s) as [|[]]; split; done. Qed.

Lemma round_legal_events s evs now : round_legal s (WReturned evs, now) = true ->
  NoDup (data_ptr <$> evs) /\ (forall e, e ∈ evs -> exists bs w, data_ptr e = Some bs /\ s_fds s !! bs = Some (Some w)) /\
  zlen evs <= BSYSTEM_MAX_RESULTS /\ (evs = [] -> first_deadline (s_timers s) <> None).
Proof.
  unfold round_legal. cbn [fst]. rewrite !andb_true_iff, bool_decide_eq_true, Z.leb_le, orb_true_iff, bool_decide_eq_true. intros (((Hnd & Ha) & Hl) & He).
  split_and!; [done| |done|].
  - intros e Hin. apply list_elem_of_In in Hin. apply (proj1 (forallb_forall _ _) Ha) in Hin. unfold is_active in Hin.
    destruct (data_ptr e) as [bs|]; [|done]. destruct (s_fds s !! bs) as [[w|]|] eqn:E; [|done..]. eauto.
  - intros ->. rewrite first_deadline_none. by destruct He as [He|He].
Qed.

(** What the end of the wait leaves. *)
Definition end_post (r : BReactor) (s : rspec) (e : wait_end) (end_ : option BReactor) : Prop :=
  match e with
  | EPending => end_ = None
  | EEvents evs => exists m, end_ = Some (with_results r evs 0 m) /\ holds_fds evs 0 m evs (s_fds s)
  | EFirst => exists T d, first_deadline (s_timers s) = Some d /\ end_ = Some (with_timers r T) /\
                holds_timers T (spec_due d (s_timers s)) /\ smalls T = smalls (r_timers r)
  end.

Lemma first_timers_ok r s d : holds_timers (r_timers r) (s_timers s) -> first_deadline (s_timers s) = Some d ->
  exists T, first_timers r = Some (with_timers r T) /\ end_post r s EFirst (Some (with_timers r T)).
Proof.
  intros H Hd. destruct (move_first_timers_ok _ _ _ H Hd) as (T & E & H' & Hs). exists T. unfold first_timers. rewrite E. split; [done|]. exists T, d. done.
Qed.

Lemma wait_loop_ok r s rounds : forall now,
  holds_timers (r_timers r) (s_timers s) -> holds_fds (epoll_results r) (epoll_results_pos r) (fds r) [] (s_fds s) ->
  forallb (round_legal s) rounds = true ->
  let d := first_deadline (s_timers s) in
  exists end_, wait_loop r d now rounds = Some ((rounds_end d now rounds).1, end_) /\ end_post r s (rounds_end d now rounds).2 end_.
Proof.
  intros now Ht Hf Hl d. revert now. induction rounds as [|[res now'] rounds IH]; intros now; [by exists None|].
  cbn [forallb] in Hl. apply andb_true_iff in Hl as [Hr Hl]. specialize (IH Hl).
  assert (exists ts end_, (match d with
      | None => wait_loop r d now rounds
      | Some timeout_abs => if now' >=? timeout_abs then let* r := first_timers r in Some ([], Some r) else wait_loop r d now' rounds
      end) = Some (ts, end_) /\ (match d with
      | None => rounds_end d now rounds
      | Some a => if now' >=? a then ([], EFirst) else rounds_end d now' rounds end).1 = ts /\
      end_post r s (match d with
      | None => rounds_end d now rounds
      | Some a => if now' >=? a then ([], EFirst) else rounds_end d now' rounds end).2 end_) as Hagain.
  { destruct d as [a|] eqn:Ed.
    - destruct (now' >=? a); [|destruct (IH now') as (end_ & E & P); rewrite E; by eexists _, _].
      destruct (first_timers_ok r s a Ht Ed) as (T & -> & P). by eexists _, _.
    - destruct (IH now) as (end_ & E & P). rewrite E. by eexists _, _. }
  destruct Hagain as (ts & end_ & Ea & Ets & P). destruct res as [|evs].
  - exists end_. cbn [wait_loop rounds_end]. rewrite Ea, Ets. done.
  - destruct (round_legal_events _ _ _ Hr) as (Hnd & Hact & Hlen & Hempty). cbn [wait_loop rounds_end]. rewrite (proj2 (Z.leb_le _ _) Hlen).
    destruct evs as [|e evs].
    + specialize (Hempty eq_refl). fold d in Hempty. rewrite bool_decide_true by done. change (zlen [] =? 0) with true. cbn [negb orb].
      destruct (not_truncated d now); [|exists end_; by rewrite Ea, Ets]. destruct d as [a|] eqn:Ed; [|done].
      destruct (first_timers_ok r s a Ht Ed) as (T & -> & P'). by eexists.
    + destruct (fd_results _ _ _ _ (e :: evs) Hf Hnd Hact) as (m' & Em & Hm). assert ((zlen (e :: evs) =? 0) = false) as E0 by (rewrite zlen_cons; pose proof (zlen_nonneg evs); lia).
      rewrite E0, Em. cbn [negb orb]. eexists. split; [done|]. by exists m'.
Qed.

Lemma holds_timers_no_expired T s : holds_timers T s -> LinkedList1_IsEmpty (timers_expired_list T) = bool_decide (expired s = []).
Proof. intros H. unfold LinkedList1_IsEmpty. destruct (ht_list _ _ H) as (_ & -> & _). by destruct (expired s). Qed.

(** The loop and the reset of the limits. *)
Lemma wait_rest_ok r s now rounds :
  holds_reactor r s -> s_results s = [] -> forallb (round_legal s) rounds = true ->
  let d := first_deadline (s_timers s) in
  exists end_, (let* o := wait_loop r d now rounds in finish_wait o) = Some ((rounds_end d now rounds).1, end_) /\
    match (rounds_end d now rounds).2 with
    | EPending => end_ = None
    | EEvents evs => exists r', end_ = Some r' /\ holds_reactor r' (su_limits (su_fds s evs (s_fds s)) (reset_counts (s_limits s)))
    | EFirst => exists r' d', d = Some d' /\ end_ = Some r' /\
        holds_reactor r' (su_limits (su_timers s (spec_due d' (s_timers s)) (s_smalls s)) (reset_counts (s_limits s)))
    end.
Proof.
  intros [Hx Hj [Ht Hsm] Hlim Hf] Hres Hl d. rewrite Hres in Hf.
  destruct (wait_loop_ok r s rounds now Ht Hf Hl) as (end_ & E & P). fold d in E, P. rewrite E. destruct (rounds_end d now rounds) as [ts e]. cbn [fst snd] in *.
  unfold finish_wait. destruct e as [|evs|].
  - destruct P as (T & d' & Hd & -> & HT & HsT). destruct (reset_all_ok (with_timers r T) _ Hlim) as (al & ln & m & -> & Hlim').
    eexists. split; [done|]. eexists _, d'. split_and!; [done|done|]. split; cbn; [done|done|split; [done|by rewrite HsT]|exact Hlim'|by rewrite Hres].
  - destruct P as (m' & -> & Hm'). destruct (reset_all_ok (with_results r evs 0 m') _ Hlim) as (al & ln & m & -> & Hlim').
    eexists. split; [done|]. eexists. split; [done|]. split; cbn; [done|done|by split|exact Hlim'|exact Hm'].
  - rewrite P. by eexists.
Qed.

(** The results are cleared when all are dispatched. *)
Lemma holds_fds_clear es pos m f : holds_fds es pos m [] f -> pos = length es /\ holds_fds [] 0 m [] f.
Proof.
  intros H. pose proof (f_equal length (hf_pend _ _ _ _ _ H)) as E. rewrite length_drop in E. simpl in E. pose proof (hf_pos _ _ _ _ _ H) as Hpos. split; [lia|].
  split; [done|done|apply (hf_fds _ _ _ _ _ H)| |by intros i e bs _ ?]. intros bs b i Hb Ha. rewrite (hf_ptr _ _ _ _ _ H _ _ _ Hb Ha).
  split; [|by intros (_ & e & ? & _)]. intros (Hi & e & He & _). apply lookup_lt_Some in He. lia.
Qed.

Lemma due_first T s d t l now : holds_timers T s -> running s = (d, t) :: l ->
  bool_decide (due now s <> []) = (d <=? now) /\ (now < d -> spec_due now s = s).
Proof.
  intros Ht Er. assert (now < d -> spec_due now s = s /\ due now s = []) as Hn.
  { intros Hd. apply spec_due_none. pose proof (ht_sorted _ _ Ht) as Hs. rewrite Er in Hs |- *. intros d' t' H'. apply (sorted_ge _ _ _ Hs) in H'. lia. }
  split; [|by intros; apply Hn]. destruct (Z.leb_spec d now) as [Hd|Hd]; [apply bool_decide_eq_true|apply bool_decide_eq_false].
  - unfold due. rewrite Er. simpl. by rewrite (proj2 (Z.leb_le d now)).
  - intros Hne. by apply Hne, Hn.
Qed.

(** Waiting, when no job, no expired timer and no result is left. *)
Lemma wait_ok r s now rounds :
  holds_reactor r s -> stack (s_jobs s) = [] -> expired (s_timers s) = [] -> s_results s = [] -> forallb (round_legal s) rounds = true ->
  exists ts end_, wait_for_events r now rounds = Some (ts, end_) /\
    match end_ with
    | Some r' => (spec_wait s now rounds).1 = CWaited ts /\ holds_reactor r' (spec_wait s now rounds).2
    | None => spec_wait s now rounds = (CWaiting ts, s)
    end.
Proof.
  intros [Hx Hj [Ht Hsm] Hlim Hf] Hstack Hexp Hres Hl. unfold wait_for_events, BPendingGroup_HasJobs, SLinkedList_IsEmpty.
  destruct (gr_list _ _ Hj) as (-> & _). rewrite Hstack. change (negb (negb (bool_decide (@head addr [] = None)))) with true.
  rewrite (holds_timers_no_expired _ _ Ht), bool_decide_true by done. rewrite Hres in Hf. destruct (holds_fds_clear _ _ _ _ Hf) as [Hpos Hf0].
  rewrite bool_decide_true by done. set (r0 := with_results r [] 0 (fds r)).
  assert (holds_reactor r0 s) as H0 by (split; cbn; [done|done|by split|done|by rewrite Hres]).
  change (timers_tree (r_timers r0)) with (timers_tree (r_timers r)). rewrite (first_timer _ _ Ht). unfold spec_wait.
  destruct (running (s_timers s)) as [|[d t] l] eqn:Er.
  - destruct (wait_rest_ok r0 s 0 rounds H0 Hres Hl) as (end_ & E & P). rewrite (proj2 (first_deadline_none _) Er) in *. rewrite E.
    eexists _, end_. split; [done|]. destruct (rounds_end None 0 rounds) as [ts e]. cbn [fst snd] in *.
    destruct e as [|evs|]; [by destruct P as (r' & d' & ? & _)|destruct P as (r' & -> & P); by split|by rewrite P].
  - assert (first_deadline (s_timers s) = Some d) as Ed by (unfold first_deadline; by rewrite Er). rewrite Ed.
    destruct (ht_run _ _ Ht d t) as (small & Et); [rewrite Er; by left|]. cbn [r0 with_results r_timers]. rewrite Et. cbn [state]. rewrite bool_decide_true by done.
    destruct (move_expired_timers_ok _ _ now Ht) as (T & -> & HT & HsT). destruct (due_first _ _ _ _ _ now Ht Er) as [-> Hsame].
    destruct (Z.leb_spec d now) as [Hd|Hd].
    { eexists [], (Some _). split; [done|]. split; [done|]. split; cbn; [done|done|split; [done|by rewrite HsT]|done|by rewrite Hres]. }
    rewrite (Hsame Hd) in HT. cbn [with_timers r_timers]. destruct (ht_run _ _ HT d t) as (small' & Et'); [rewrite Er; by left|]. rewrite Et'. cbn [absTime].
    destruct (wait_rest_ok (with_timers r0 T) s now rounds) as (end_ & E & P); [split; cbn; [done|done|split; [done|by rewrite HsT]|done|by rewrite Hres]|done|done|].
    rewrite Ed in E, P. rewrite E. eexists _, end_. split; [done|]. destruct (rounds_end (Some d) now rounds) as [ts e]. cbn [fst snd] in *.
    destruct e as [|evs|]; [destruct P as (r' & d' & [= <-] & -> & P); by split|destruct P as (r' & -> & P); by split|by rewrite P].
Qed.

(** ** Every operation *)

Section Parts.
Context (r : BReactor) (s : rspec) (H : holds_reactor r s).

Lemma holds_with_jobs g j : group_rel g j -> holds_reactor (with_jobs r g) (su_jobs s j).
Proof. destruct H. by split. Qed.
Lemma holds_with_timers T t sm : holds_timers T t -> smalls T = sm -> holds_reactor (with_timers r T) (su_timers s t sm).
Proof. destruct H. by split. Qed.
Lemma holds_with_fds es pos m l f : holds_fds es pos m l f -> holds_reactor (with_results r es pos m) (su_fds s l f).
Proof. destruct H. by split. Qed.
Lemma holds_with_limits al ln m l : holds_limits al ln m l -> holds_reactor (with_limits r al ln m) (su_limits s l).
Proof. destruct H. by split. Qed.
End Parts.

Lemma exec_step_ok r s now rounds :
  holds_reactor r s -> forallb (round_legal s) rounds = true ->
  exists r', exec_step r now rounds = Some ((spec_step s now rounds).1, r') /\ holds_reactor r' (spec_step s now rounds).2.
Proof.
  intros H Hl. pose proof H as [[Hx Hc] Hj [Ht Hsm] Hlim Hf]. unfold exec_step, spec_step. rewrite Hx, Hc. destruct (s_exiting s); [by exists r|].
  unfold BPendingGroup_HasJobs, SLinkedList_IsEmpty. pose proof (gr_list _ _ Hj) as (Ej & _). rewrite Ej.
  destruct (stack (s_jobs s)) as [|p l] eqn:Es; cbn [head].
  2: { destruct (group_step _ _ JExecute (mkJobs (objs (s_jobs s)) l) [p] Hj) as (g & Eg & Hg); [simpl; by rewrite Es|]. simpl in Eg.
       destruct (BPendingGroup_ExecuteJob (pending_jobs r)) as [[g' p']|]; [|done]. injection Eg as -> ->. eexists. split; [done|]. by apply holds_with_jobs. }
  change (negb (bool_decide (@None addr = None))) with false. cbv beta iota.
  destruct (dispatch_timer_ok _ _ Ht) as (T & -> & HT & HsT). destruct (expired (s_timers s)) as [|t l] eqn:Ee.
  2: { eexists. split; [|apply (holds_with_timers _ _ H _ _ _ HT); congruence]. cbn [fst]. rewrite <- Hsm. unfold smalls. rewrite lookup_fmap.
       by destruct (timers (r_timers r) !! t). }
  destruct (s_results s) as [|e es] eqn:Er.
  - destruct (holds_fds_clear _ _ _ _ Hf) as [Hpos Hf0]. rewrite Hpos, lookup_ge_None_2 by done.
    destruct (wait_ok r s now rounds H Es Ee Er Hl) as (ts & [r'|] & -> & P).
    + destruct P as [P H']. exists r'. split; [by rewrite P|done].
    + rewrite P. eexists. split; [done|]. cbn [snd]. replace s with (su_fds s [] (s_fds s)) by (rewrite <- Er; by destruct s). by apply holds_with_fds.
  - rewrite (fd_next _ _ _ _ _ Hf _ _ eq_refl). unfold dispatch_fd. destruct (data_ptr e) as [bs|] eqn:Ep.
    + destruct (fd_dispatch _ _ _ _ _ Hf _ _ _ eq_refl Ep) as (b & -> & Ha & Hp & Hfb & Hf'). rewrite Ha, Hp, bool_decide_true by done.
      cbn [s_fds su_fds]. rewrite Hfb. rewrite Ha in Hf'. destruct (_ =? 0); eexists; (split; [done|]); by apply holds_with_fds.
    + eexists. split; [done|]. apply (holds_with_fds _ _ H). exact (fd_skip _ _ _ _ _ Hf _ _ eq_refl Ep).
Qed.

Lemma not_active s bs : is_active s bs = false -> forall w, s_fds s !! bs <> Some (Some w).
Proof. unfold is_active. intros E w Hw. by rewrite Hw in E. Qed.

Lemma is_active_true s bs : is_active s bs = true -> exists w, s_fds s !! bs = Some (Some w).
Proof. unfold is_active. destruct (s_fds s !! bs) as [[w|]|]; [eauto|done..]. Qed.

Lemma fd_op_ok r s o :
  match o with FdInit _ _ | FdAdd _ _ | FdRemove _ | FdSetEvents _ _ => True | _ => False end ->
  holds_reactor r s -> op_legal s o = true ->
  exists r', exec_op r o = Some ((spec_op s o).1, r') /\ holds_reactor r' (spec_op s o).2.
Proof.
  intros Ho [Hx Hj Ht Hlim Hf] Hl. destruct o as [| | |bs f|bs ok|bs|bs events| | | | | | | | |]; try done; clear Ho; cbn [op_legal exec_op spec_op fst snd] in *.
  - eexists. split; [done|]. split; cbn; [done..|]. apply (fd_replace _ _ _ _ _ Hf bs (mkFd f false 0 None)); [|done].
    apply (fd_no_result _ _ _ _ _ Hf), not_active. by destruct (is_active s bs).
  - apply bool_decide_eq_true in Hl. destruct (fd_lookup_inactive _ _ _ _ _ Hf _ Hl) as (b & Hb & Ha). unfold BReactor_AddFileDescriptor. rewrite Hb, Ha. cbn [negb].
    destruct ok; cbn [negb]; eexists; (split; [done|]); [|done]. split; cbn; [done..|]. apply (fd_replace _ _ _ _ _ Hf bs (mkFd (fd b) true 0 None)); [|done].
    apply (fd_no_result _ _ _ _ _ Hf). intros w Hw. congruence.
  - apply is_active_true in Hl as (w & Hw). destruct (fd_lookup _ _ _ _ _ Hf _ _ Hw) as (b & Hb & Ha & _). unfold BReactor_RemoveFileDescriptor. rewrite Hb, Ha.
    destruct (fd_remove _ _ _ _ _ Hf _ _ Hb Ha) as (es' & -> & Hf'). eexists. split; [done|]. by split.
  - apply andb_true_iff in Hl as [Hl He]. apply is_active_true in Hl as (w & Hw). destruct (fd_lookup _ _ _ _ _ Hf _ _ Hw) as (b & Hb & Ha & Ew).
    unfold BReactor_SetFileDescriptorEvents. rewrite Hb, Ha, He. destruct (Z.eqb_spec (waitEvents b) events) as [E|E].
    + eexists. split; [done|]. split; cbn; [done..|]. rewrite insert_id; [done|congruence].
    + eexists. split; [done|]. split; cbn; [done..|]. pose proof (fd_set_events _ _ _ _ _ Hf _ _ events Hb Ha) as Hf'. by rewrite Ha in Hf'.
Qed.

Lemma limit_op_ok r s o :
  match o with LimitInit _ _ | LimitFree _ | LimitIncrement _ | LimitSet _ _ => True | _ => False end ->
  holds_reactor r s -> op_legal s o = true ->
  exists r', exec_op r o = Some ((spec_op s o).1, r') /\ holds_reactor r' (spec_op s o).2.
Proof.
  intros Ho [Hx Hj Ht Hlim Hf] Hl. destruct o as [| | | | | | |o lim|o|o|o lim| | | | |]; try done; clear Ho; cbn [op_legal exec_op spec_op fst snd] in *.
  - apply andb_true_iff in Hl as [Hn Hl]. apply bool_decide_eq_true in Hn. unfold BReactorLimit_Init. rewrite Hl. eexists. split; [done|]. split; cbn; [done..| |done].
    apply limits_set; [done|lia|intros; congruence|done].
  - apply bool_decide_eq_true in Hl. destruct (limit_free_ok r _ o Hlim Hl) as (al & ln & -> & Hlim'). eexists. split; [done|]. by split.
  - apply bool_decide_eq_true in Hl as [[lim c] E]. destruct (limit_increment_ok r _ o lim c Hlim E) as (al & ln & m & -> & Hlim'). rewrite E.
    destruct (Z.ltb_spec c lim); eexists; (split; [done|]); [|done]. split; cbn; [done..|by apply Hlim'|done].
  - apply andb_true_iff in Hl as [Hn Hl]. apply bool_decide_eq_true in Hn as [[lim' c] E]. unfold BReactorLimit_SetLimit. rewrite (limits_lookup _ _ _ _ o Hlim), E.
    cbn [fmap option_fmap option_map fst snd count]. rewrite Hl. eexists. split; [done|]. split; cbn; [done..| |done].
    apply limits_set; [done|by eapply (hl_count _ _ _ _ Hlim)|intros; by simplify_eq|congruence].
Qed.

Lemma timer_init_holds T s t b : holds_timers T s -> (t ∉ map snd (running s)) -> (t ∉ expired s) -> state b = TIMER_STATE_INACTIVE ->
  holds_timers (mkTimers (<[t := b]> (timers T)) (timers_tree T) (timers_expired_list T) (list_nodes T)) s.
Proof.
  intros H Hr He Hb. split; cbn [list_nodes timers_expired_list timers timers_tree].
  - apply (ht_list _ _ H).
  - eapply tree_rel_ext; [|exact (ht_tree _ _ H)]. intros p Hp. unfold timer_key. rewrite lookup_insert_ne; [done|]. by intros ->.
  - intros d x Hx. rewrite lookup_insert_ne by (intros ->; apply Hr; by eapply elem_run). by apply (ht_run _ _ H).
  - intros x b' Hb'. destruct (decide (x = t)) as [->|Hne]; [|rewrite lookup_insert_ne in Hb' by done; by apply (ht_state _ _ H)].
    rewrite lookup_insert_eq in Hb'. injection Hb' as <-. rewrite Hb. naive_solver.
  - intros x Hx. rewrite lookup_insert_ne by by intros ->. by apply (ht_mem _ _ H).
  - apply (ht_union_tree _ _ H).
  - apply (ht_union_list _ _ H).
Qed.

Lemma timer_op_ok r s o :
  match o with TimerInit _ _ _ | TimerSet _ _ _ _ | TimerRemove _ => True | _ => False end ->
  holds_reactor r s -> op_legal s o = true ->
  exists r', exec_op r o = Some ((spec_op s o).1, r') /\ holds_reactor r' (spec_op s o).2.
Proof.
  intros Ho [Hx Hj [Ht Hsm] Hlim Hf] Hl. destruct o as [t junk small|t mode time now|t| | | | | | | | | | | | |]; try done; clear Ho; cbn [op_legal exec_op spec_op fst snd] in *.
  - apply andb_true_iff in Hl as [Hr He]. apply bool_decide_eq_true in Hr, He. eexists. split; [done|]. split; [done|done| |done|done]. cbn. rewrite <- Hsm.
    destruct small; (split; [by apply timer_init_holds|]); unfold smalls; cbn [BSmallTimer_Init BTimer_Init timers]; by rewrite fmap_insert.
  - assert (is_Some (timers (r_timers r) !! t)) as Hm by (apply bool_decide_eq_true in Hl; rewrite <- Hsm in Hl; unfold smalls in Hl; by rewrite lookup_fmap, fmap_is_Some in Hl).
    destruct (set_timer_ok _ _ t mode time now Ht Hm) as (T & -> & HT & HsT). eexists. split; [done|]. split; cbn; [done|done|split; [done|by rewrite HsT]|done|done].
  - assert (is_Some (timers (r_timers r) !! t)) as Hm by (apply bool_decide_eq_true in Hl; rewrite <- Hsm in Hl; unfold smalls in Hl; by rewrite lookup_fmap, fmap_is_Some in Hl).
    destruct (remove_timer_ok _ _ t Ht Hm) as (T & -> & HT & HsT & _). eexists. split; [done|]. split; cbn; [done|done|split; [done|by rewrite HsT]|done|done].
Qed.

Lemma exec_op_ok r s o : holds_reactor r s -> op_legal s o = true ->
  exists r', exec_op r o = Some ((spec_op s o).1, r') /\ holds_reactor r' (spec_op s o).2.
Proof.
  intros H Hl. destruct o as [| | | | | | | | | | |j|code|now rounds|ref|p];
    [by apply timer_op_ok..|by apply fd_op_ok|by apply fd_op_ok|by apply fd_op_ok|by apply fd_op_ok|by apply limit_op_ok|by apply limit_op_ok|by apply limit_op_ok|by apply limit_op_ok| | | | |].
  - pose proof H as [Hx Hj Ht Hlim Hf]. cbn [op_legal exec_op spec_op] in *.
    assert (exists js outs, spec_exec (s_jobs s) j = Some (js, outs)) as (js & outs & E).
    { destruct j; try done; apply bool_decide_eq_true in Hl as [[js outs] E]; eauto. }
    destruct (group_step _ _ _ _ _ Hj E) as (g & -> & Hg). rewrite E. eexists. split; [done|]. by split.
  - destruct H as [Hx Hj Ht Hlim Hf]. eexists. split; [done|]. by split.
  - destruct (exec_step_ok r s now rounds H Hl) as (r' & E & H'). exists r'. cbn [exec_op spec_op]. by rewrite E.
  - pose proof H as [[Hx Hc] Hj Ht Hlim Hf]. cbn [op_legal exec_op spec_op] in *. unfold sync_step. rewrite Hx. destruct (s_exiting s); [by exists r|].
    cbn [orb] in Hl. apply bool_decide_eq_true in Hl. unfold BPendingGroup_HasJobs, SLinkedList_IsEmpty, BPendingGroup_PeekJob, SLinkedList_First.
    pose proof (gr_list _ _ Hj) as (Ej & _). rewrite Ej. destruct (stack (s_jobs s)) as [|p l] eqn:Es; [done|]. cbn [head].
    rewrite (bool_decide_false (Some p = None)) by done. cbn [negb].
    destruct (decide (p = ref)) as [->|Hne]; [rewrite !bool_decide_true by done; by exists r|]. rewrite !bool_decide_false by congruence.
    destruct (group_step _ _ JExecute (mkJobs (objs (s_jobs s)) l) [p] Hj) as (g & Eg & Hg); [simpl; by rewrite Es|]. simpl in Eg.
    destruct (BPendingGroup_ExecuteJob (pending_jobs r)) as [[g' p']|]; [|done]. injection Eg as -> ->. eexists. split; [done|]. by apply holds_with_jobs.
  - apply bool_decide_eq_true in Hl. exists r. cbn [exec_op spec_op]. unfold BPending_IsSet, BSmallPending_IsSet.
    by rewrite (rel_agrees _ _ _ (hr_jobs _ _ H) Hl).
Qed.

(** ** Sequences *)

Lemma holds_reactor_init junk : holds_reactor (BReactor_Init junk) (s_init junk).
Proof.
  split; cbn; [done|exact group_init_rel| | |].
  - split; [|done]. apply ht_init. by intros t bt ?%lookup_empty_Some.
  - split; [done| |by intros o lim c ?%lookup_empty_Some]. exists []. split; [split_and!; [done|split_and!; [done|constructor|done]]|].
    intros o. split; [by intros ?%elem_of_nil|by intros (? & ? & ?%lookup_empty_Some & _)].
  - split; [done|done|done|by intros bs b i ?%lookup_empty_Some|by intros i e bs _ ?].
Qed.

Lemma run_ops_ok ops : forall r s, holds_reactor r s -> ops_legal s ops = true ->
  exists r', run_ops r ops = Some ((spec_ops s ops).1, r') /\ holds_reactor r' (spec_ops s ops).2.
Proof.
  induction ops as [|o ops IH]; intros r s H Hl; cbn [run_ops spec_ops ops_legal] in *; [by exists r|].
  apply andb_true_iff in Hl as [Hl1 Hl2]. destruct (exec_op_ok _ _ _ H Hl1) as (r1 & -> & H1). destruct (IH _ _ H1 Hl2) as (r2 & -> & H2). by exists r2.
Qed.

(** What is reached, for the theorems: the code's state holds the specification's. *)
Lemma reached junk ops outs r :
  ops_legal (s_init junk) ops = true -> run_ops (BReactor_Init junk) ops = Some (outs, r) ->
  outs = (spec_ops (s_init junk) ops).1 /\ holds_reactor r (spec_ops (s_init junk) ops).2.
Proof.
  intros Hl E. destruct (run_ops_ok ops _ _ (holds_reactor_init junk) Hl) as (r' & E' & H). rewrite E in E'. by injection E' as -> ->.
Qed.

(** What the users must have done before the reactor is freed. *)
Definition idle (s : rspec) : Prop :=
  stack (s_jobs s) = [] /\ running (s_timers s) = [] /\ expired (s_timers s) = [] /\
  forall o lim c, s_limits s !! o = Some (lim, c) -> c = 0.

Lemma free_ok r s : holds_reactor r s -> idle s -> BReactor_Free r = Some tt.
Proof.
  intros [Hx Hj [Ht _] [Hm (l & R & Hl) Hc] Hf] (Ej & Er & Ee & El). unfold BReactor_Free.
  unfold BPendingGroup_HasJobs, SLinkedList_IsEmpty. pose proof (gr_list _ _ Hj) as (E & _). rewrite E, Ej. cbn [head].
  rewrite bool_decide_true by done. cbn [negb]. pose proof (ht_tree _ _ Ht) as Htree. erewrite tree_empty by exact Htree. rewrite Er. cbn [map].
  pose proof (ht_list _ _ Ht) as (_ & E2 & _). unfold LinkedList1_IsEmpty. rewrite E2, Ee. cbn [head].
  assert (l = []) as -> by (destruct l as [|o l]; [done|]; destruct (proj1 (Hl o) ltac:(by left)) as (lim & c & E3 & H3); apply El in E3; lia).
  pose proof R as (_ & E4 & _). rewrite E4. cbn [head]. by rewrite !bool_decide_true by done.
Qed.

(** C13. The event loop implements its specification. Every sequence of calls (timers
    set and removed, descriptors added, removed and given events, limits counted, jobs
    set and unset, the loop quit) and rounds of the loops of [BReactor_Exec] and
    [BReactor_Synchronize], in which objects are used after they are initialised and
    the kernel returns registered descriptors, runs without a failed assertion or a
    dangling pointer, and its results are those of the specification: each round calls
    the job set last; without a job, the handler of the timer that expired first;
    without either, that of the next descriptor returned, with the events it waits
    for; else it waits, and then the timers due are queued by time and address, or
    the returned events are, and the limits are reset. When nothing is left running,
    the reactor can be freed. *)
Theorem reactor_refines junk ops :
  ops_legal (s_init junk) ops = true ->
  exists r, run_ops (BReactor_Init junk) ops = Some ((spec_ops (s_init junk) ops).1, r) /\
    exiting r = s_exiting (spec_ops (s_init junk) ops).2 /\
    (idle (spec_ops (s_init junk) ops).2 -> BReactor_Free r = Some tt).
Proof.
  intros Hl. destruct (run_ops_ok ops _ _ (holds_reactor_init junk) Hl) as (r & E & H). exists r. split; [done|]. split; [apply (hr_exit _ _ H)|by apply free_ok].
Qed.

(** Three timers of which one is removed, two descriptors returned of which the first
    removes the second, a job, and the end of the loop. *)
Definition ev (bs : Z) : epoll_event := mkEvent (Some bs) true false false false.
Definition demo_ops : list op :=
  [Job (JInit 7%positive); TimerInit 10 55 true; TimerInit 11 66 false; TimerInit 12 77 true; FdInit 20 3; FdInit 21 4; FdAdd 20 true; FdAdd 21 true;
   FdSetEvents 20 1; FdSetEvents 21 1; TimerSet 10 BTIMER_SET_RELATIVE 50 100; TimerSet 11 BTIMER_SET_ABSOLUTE 130 100; TimerSet 12 BTIMER_SET_ABSOLUTE 120 100;
   TimerRemove 12; LimitInit 30 2; LimitIncrement 30; LimitIncrement 30; LimitIncrement 30;
   Step 110 [(WInterrupted, 112); (WReturned [ev 20; ev 21], 115)]; Step 115 []; FdRemove 21; Job (JSet 7%positive); Step 115 []; Step 115 []; LimitIncrement 30;
   Step 116 [(WReturned [], 131)]; Step 131 []; Step 155 []; Step 155 []; Quit 3; Step 155 []].

Lemma reactor_refines_witness :
  exists r, run_ops (BReactor_Init 0) demo_ops = Some ((spec_ops (s_init 0) demo_ops).1, r) /\
    exiting r = s_exiting (spec_ops (s_init 0) demo_ops).2 /\
    (idle (spec_ops (s_init 0) demo_ops).2 -> BReactor_Free r = Some tt).
Proof. apply (reactor_refines 0 demo_ops). vm_compute. reflexivity. Defined.

Example demo_calls : List.filter (fun o => match o with OCalled _ => true | _ => false end) (spec_ops (s_init 0) demo_ops).1 =
  map OCalled [CWaited [Some 20; Some 18]; CFd 20 1; CJob 7%positive; CSkip; CWaited [Some 14]; CTimer 11 false; CWaited []; CTimer 10 true; CExit 3].
Proof. vm_compute. reflexivity. Qed.
