(* ===== verification/ReactorProps.v ===== *)
(** * Properties of the event loop

    What the refinement of [ReactorSpec] gives for the users of the reactor: the
    union in a timer is always used as the member it holds, no timer fires early,
    a wait ends when a timer is due, only registered descriptors are dispatched,
    and a limit holds between two waits. *)

From S2P Require Import Prelude LinkedLists BPending BAVL BAVLSpec CAvl Timers Reactor ReactorSpec.

(** ** The union in a timer *)

(** C37. The union of the links in a timer is typed by its state: after any legal
    sequence of operations, a running timer holds [tree_child] (its node of the tree,
    reachable from the root) and not [list_node], and an expired one holds
    [list_node] and not [tree_child]. So the tree and the list never follow a link
    that the other wrote. *)
Theorem timer_union_typed junk ops outs r t bt :
  ops_legal (s_init junk) ops = true -> run_ops (BReactor_Init junk) ops = Some (outs, r) ->
  timers (r_timers r) !! t = Some bt ->
  match state bt with
  | TIMER_STATE_RUNNING => is_Some (nodes (timers_tree (r_timers r)) !! t) /\ list_nodes (r_timers r) !! t = None
  | TIMER_STATE_EXPIRED => nodes (timers_tree (r_timers r)) !! t = None /\ is_Some (list_nodes (r_timers r) !! t)
  | TIMER_STATE_INACTIVE => True
  end.
Proof.
  intros Hl E Ht. destruct (reached _ _ _ _ Hl E) as (_ & H). destruct (hr_timers _ _ H) as [HT _]. destruct (ht_state _ _ HT _ _ Ht) as [H1 H2].
  destruct (state bt); [done|..].
  - assert (t ∈ map snd (running (s_timers (spec_ops (s_init junk) ops).2))) as Hr by by apply H1.
    split; [exact (tree_rel_node _ _ _ _ _ (ht_tree _ _ HT) Hr)|by apply (ht_union_tree _ _ HT)].
  - assert (t ∈ expired (s_timers (spec_ops (s_init junk) ops).2)) as He by by apply H2.
    split; [by apply (ht_union_list _ _ HT)|]. destruct (ht_list _ _ HT) as (_ & _ & _ & Hd). destruct (dseg_node _ _ _ _ _ Hd He) as (n & Hn). by exists n.
Qed.

Definition union_ops : list op := [TimerInit 10 55 true; TimerInit 11 66 false; TimerSet 10 BTIMER_SET_RELATIVE 50 100; TimerSet 11 BTIMER_SET_ABSOLUTE 130 100; Step 140 []].
Definition union_end : list out * BReactor := match run_ops (BReactor_Init 0) union_ops with Some x => x | None => ([], BReactor_Init 0) end.

Lemma timer_union_typed_witness :
  nodes (timers_tree (r_timers union_end.2)) !! 11 = None /\ is_Some (list_nodes (r_timers union_end.2) !! 11).
Proof.
  assert (timers (r_timers union_end.2) !! 11 = Some (mkTimer 130 TIMER_STATE_EXPIRED false)) as E by (vm_compute; reflexivity).
  exact (timer_union_typed 0 union_ops union_end.1 union_end.2 11 _ ltac:(vm_compute; reflexivity) ltac:(vm_compute; reflexivity) E).
Defined.

(** ** Time

    The contract of the clock and of [epoll_wait]: time does not go back, and a call
    that returns without events has taken at least its timeout. The second part of
    a round is the time when the call returns. *)

Definition reached_by (d : option Z) (c : Z) : bool := match d with Some a => c >=? a | None => false end.

Definition wait_stops (d : option Z) (cur : Z) (r : wait_round) : bool :=
  match r.1 with
  | WReturned (_ :: _) => true
  | WReturned [] => not_truncated d cur || reached_by d r.2
  | WInterrupted => reached_by d r.2
  end.

(** The clock when the wait is over, if the contract is kept. *)
Fixpoint clock_rounds (d : option Z) (cur : Z) (rounds : list wait_round) : option Z :=
  match rounds with
  | [] => Some cur
  | r :: rounds =>
      if (cur <=? r.2) && match r.1, to_wait d cur with WReturned [], Some t => cur + t <=? r.2 | _, _ => true end
      then if wait_stops d cur r then Some (r.2) else clock_rounds d (r.2) rounds
      else None
  end.

(** Only setting a timer and waiting read the clock. *)
Definition clock_op (c : Z) (s : rspec) (o : op) : option Z :=
  match o with
  | TimerSet _ _ _ now => if c <=? now then Some now else None
  | Step now rounds =>
      match (spec_step s now rounds).1 with
      | CWaited _ | CWaiting _ =>
          if c <=? now then
            let first := first_deadline (s_timers s) in
            if reached_by first now then Some now else clock_rounds first now rounds
          else None
      | _ => Some c
      end
  | _ => Some c
  end.

Fixpoint clock_ops (c : Z) (s : rspec) (ops : list op) : option Z :=
  match ops with
  | [] => Some c
  | o :: ops => let* c := clock_op c s o in clock_ops c (spec_op s o).2 ops
  end.

(** The deadlines that the calls have set. *)
Definition arm (a : gmap Z Z) (o : op) : gmap Z Z :=
  match o with
  | TimerSet t BTIMER_SET_RELATIVE time now => <[t := btime_add now time]> a
  | TimerSet t BTIMER_SET_ABSOLUTE time _ => <[t := time]> a
  | TimerRemove t => delete t a
  | _ => a
  end.
Definition armed (ops : list op) : gmap Z Z := foldl arm ∅ ops.

Lemma clock_rounds_le d rounds : forall cur c, clock_rounds d cur rounds = Some c -> cur <= c.
Proof.
  induction rounds as [|r rounds IH]; intros cur c; cbn [clock_rounds]; [by intros [= ->]|].
  destruct ((cur <=? r.2) && _) eqn:E; [|done]. apply andb_true_iff in E as [E _]. destruct (wait_stops _ _ _); [intros [= <-]; lia|]. intros H%IH. lia.
Qed.

(** A wait that ends without events ends when the first deadline has passed. *)
Lemma first_not_early d rounds : forall cur c,
  clock_rounds (Some d) cur rounds = Some c -> (rounds_end (Some d) cur rounds).2 = EFirst -> d <= c.
Proof.
  induction rounds as [|[res c1] rounds IH]; intros cur c; cbn [clock_rounds rounds_end]; [done|]. cbn [fst snd].
  destruct (cur <=? c1); cbn [andb]; [|done].
  assert ((if c1 >=? d then Some c1 else clock_rounds (Some d) c1 rounds) = Some c ->
    (if c1 >=? d then ([], EFirst) else rounds_end (Some d) c1 rounds).2 = EFirst -> d <= c) as Hagain.
  { destruct (Z.geb_spec c1 d); [intros [= ->]; lia|apply IH]. }
  destruct res as [|[|e evs]]; cbn [wait_stops fst snd reached_by]; [exact Hagain| |done].
  destruct (not_truncated (Some d) cur) eqn:En; cbn [orb]; [|destruct (match to_wait _ _ with Some _ => _ | None => _ end); [exact Hagain|done]].
  unfold not_truncated, to_wait in *. set (t := if _ >? INT_MAX then INT_MAX else _) in *. apply Z.eqb_eq in En. rewrite En.
  destruct (Z.leb_spec (cur + (d - cur)) c1); [|done]. intros [= ->] _. lia.
Qed.

(** The invariant: running timers have the deadlines that were set, and those of
    expired timers have passed. *)
Definition on_time (s : tspec) (a : gmap Z Z) (c : Z) : Prop :=
  (forall d t, (d, t) ∈ running s -> a !! t = Some d) /\ forall t, t ∈ expired s -> exists d, a !! t = Some d /\ d <= c.

Lemma on_time_le s a c c' : on_time s a c -> c <= c' -> on_time s a c'.
Proof. intros [H1 H2] Hc. split; [done|]. intros t (d & E & Hd)%H2. exists d. split; [done|lia]. Qed.

Lemma on_time_due s a c now : on_time s a c -> now <= c -> on_time (spec_due now s) a c.
Proof.
  intros [H1 H2] Hc. split; cbn [spec_due running expired].
  - intros d t. rewrite list_elem_of_In, filter_In, <- list_elem_of_In. intros [H _]. by apply H1.
  - intros t [H|H]%elem_of_app; [by apply H2|]. unfold due in H. apply elem_run_inv in H as (d & H).
    rewrite list_elem_of_In, filter_In, <- list_elem_of_In in H. destruct H as [H Hd]. cbn [fst] in Hd. exists d. split; [by apply H1|lia].
Qed.

Lemma on_time_remove s a c t : on_time s a c -> on_time (spec_remove t s) (delete t a) c.
Proof.
  intros [H1 H2]. split.
  - intros d x [Hx Hne]%elem_spec_remove. rewrite lookup_delete_ne by done. by apply H1.
  - intros x [Hx Hne]%elem_list_remove. rewrite lookup_delete_ne by done. by apply H2.
Qed.

Lemma on_time_set s a c t d : on_time s a c -> on_time (spec_set t d s) (<[t := d]> a) c.
Proof.
  intros H%(on_time_remove _ _ _ t). destruct H as [H1 H2]. unfold spec_set. split; cbn [running expired].
  - intros d' x [[= -> ->]|Hx]%elem_insert_run; [apply lookup_insert_eq|]. apply H1 in Hx. apply lookup_delete_Some in Hx as [Hne Hx]. by rewrite lookup_insert_ne.
  - intros x (d' & E & Hd)%H2. apply lookup_delete_Some in E as [Hne E]. exists d'. by rewrite lookup_insert_ne.
Qed.

Lemma reached_by_leb d now : (match d with Some d => d <=? now | None => false end) = reached_by d now.
Proof. unfold reached_by. destruct d; [|done]. by rewrite Z.geb_leb. Qed.

Lemma on_time_step s a c c' now rounds :
  on_time (s_timers s) a c -> clock_op c s (Step now rounds) = Some c' -> on_time (s_timers (spec_step s now rounds).2) a c'.
Proof.
  intros H. cbn [clock_op]. unfold spec_step. destruct (s_exiting s); [by intros [= <-]|]. destruct (stack (s_jobs s)); [|by intros [= <-]].
  destruct (expired (s_timers s)) as [|t l] eqn:Ee.
  2: { intros [= <-]. destruct H as [H1 H2]. split; cbn; [done|]. intros x Hx. apply H2. rewrite Ee. by right. }
  destruct (s_results s) as [|e es].
  2: { destruct (data_ptr e) as [bs|]; [|by intros [= <-]]. destruct (_ =? 0); by intros [= <-]. }
  unfold spec_wait. rewrite reached_by_leb.
  destruct (reached_by (first_deadline (s_timers s)) now) eqn:Er; cbn [fst snd].
  { destruct (c <=? now) eqn:Ec; [|done]. intros [= <-]. apply on_time_due; [|done]. eapply on_time_le; [exact H|lia]. }
  destruct (first_deadline (s_timers s)) as [d|] eqn:Ed.
  - destruct (rounds_end (Some d) now rounds) as [ts e] eqn:Ew. cbn [fst snd]. destruct e as [|evs|]; cbn [fst snd]; (destruct (Z.leb_spec c now); [|done]); intros Hc; pose proof (clock_rounds_le _ _ _ _ Hc) as Hle.
    + apply on_time_due; [eapply on_time_le; [exact H|lia]|]. eapply first_not_early; [exact Hc|by rewrite Ew].
    + cbn. eapply on_time_le; [exact H|lia].
    + cbn. eapply on_time_le; [exact H|lia].
  - destruct (rounds_end None 0 rounds) as [ts e]. cbn [fst snd]. destruct e as [|evs|]; cbn [fst snd]; (destruct (Z.leb_spec c now); [|done]); intros Hc; pose proof (clock_rounds_le _ _ _ _ Hc) as Hle; cbn; (eapply on_time_le; [exact H|lia]).
Qed.

Lemma on_time_op s a c c' o : on_time (s_timers s) a c -> clock_op c s o = Some c' -> on_time (s_timers (spec_op s o).2) (arm a o) c'.
Proof.
  intros H Hc. destruct o as [| t mode time now | | | | | | | | | | | | now rounds | | ]; try (injection Hc as <-); try done.
  - cbn [clock_op] in Hc. destruct (Z.leb_spec c now); [|done]. injection Hc as <-. destruct mode; apply on_time_set; (eapply on_time_le; [exact H|lia]).
  - by apply on_time_remove.
  - by destruct ok.
  - cbn [spec_op]. destruct (s_limits s !! o) as [[lim n]|]; [|done]. by destruct (n <? lim).
  - cbn [spec_op]. by destruct (spec_exec (s_jobs s) j) as [[]|].
  - by eapply on_time_step.
  - cbn [spec_op]. destruct (s_exiting s); [done|]. destruct (stack (s_jobs s)); [done|]. by destruct (bool_decide _).
Qed.

Lemma on_time_ops ops : forall s a c c', on_time (s_timers s) a c -> clock_ops c s ops = Some c' ->
  on_time (s_timers (spec_ops s ops).2) (foldl arm a ops) c'.
Proof.
  induction ops as [|o ops IH]; intros s a c c' H; cbn [clock_ops spec_ops foldl]; [by intros [= <-]|].
  destruct (clock_op c s o) as [c1|] eqn:E; [|done]. intros H2. exact (IH _ _ _ _ (on_time_op _ _ _ _ _ H E) H2).
Qed.

Lemma spec_ops_app ops : forall s ops', (spec_ops s (ops ++ ops')).1 = (spec_ops s ops).1 ++ (spec_ops (spec_ops s ops).2 ops').1.
Proof. induction ops as [|o ops IH]; intros s ops'; [done|]. simpl. by rewrite IH. Qed.

Lemma ops_legal_app ops : forall s ops', ops_legal s (ops ++ ops') = ops_legal s ops && ops_legal (spec_ops s ops).2 ops'.
Proof. induction ops as [|o ops IH]; intros s ops'; [done|]. simpl. by rewrite IH, andb_assoc. Qed.

(** C23. No timer fires early: when a round of the loop calls the handler of a timer,
    the timer was set, and the deadline of the last call that set it has been reached
    by the clock (when last read, or at the return of the last wait), provided that
    time does not go back and [epoll_wait] takes at least its timeout when it returns
    nothing. This goes through interrupted waits, waits cut short at [INT_MAX]
    milliseconds, and timers that are set again while they run. *)
Theorem timer_never_early junk c0 ops now rounds outs r t small c :
  ops_legal (s_init junk) (ops ++ [Step now rounds]) = true -> clock_ops c0 (s_init junk) ops = Some c ->
  run_ops (BReactor_Init junk) (ops ++ [Step now rounds]) = Some (outs ++ [OCalled (CTimer t small)], r) ->
  exists d, armed ops !! t = Some d /\ d <= c.
Proof.
  intros Hl Hc E. destruct (reached _ _ _ _ Hl E) as (Eo & _). rewrite spec_ops_app in Eo. cbn [spec_ops fst snd spec_op] in Eo.
  apply app_inj_tail in Eo as [_ [= Eo]]. assert (on_time (s_timers (s_init junk)) ∅ c0) as H0 by (split; [intros d x Hx|intros x Hx]; by apply elem_of_nil in Hx).
  destruct (on_time_ops ops _ _ _ _ H0 Hc) as [_ H2]. apply H2. unfold spec_step in Eo.
  destruct (s_exiting _); [done|]. destruct (stack _); [|done]. destruct (expired _) as [|t' l]; [|injection Eo as -> _; by left]. exfalso. revert Eo.
  destruct (s_results _) as [|e es]; [|destruct (data_ptr e); [destruct (_ =? 0)|]; done]. unfold spec_wait. destruct (match first_deadline _ with Some _ => _ | None => _ end); [done|].
  destruct (rounds_end _ _ _) as [ts []]; done.
Qed.

Definition early_ops : list op :=
  [TimerInit 10 55 true; TimerInit 11 66 false; TimerSet 10 BTIMER_SET_RELATIVE 50 100; TimerSet 11 BTIMER_SET_ABSOLUTE 130 100; TimerSet 10 BTIMER_SET_RELATIVE 40 101;
   Step 110 [(WInterrupted, 112); (WReturned [], 131)]; Step 131 []; Step 132 [(WReturned [], 141)]].
Definition early_end : list out * BReactor := match run_ops (BReactor_Init 0) (early_ops ++ [Step 141 []]) with Some x => x | None => ([], BReactor_Init 0) end.

Lemma timer_never_early_witness : exists d, armed early_ops !! 10 = Some d /\ d <= 141.
Proof.
  exact (timer_never_early 0 100 early_ops 141 [] (removelast early_end.1) early_end.2 10 true 141
    ltac:(vm_compute; reflexivity) ltac:(vm_compute; reflexivity) ltac:(vm_compute; reflexivity)).
Defined.

(** ** A wait ends *)

Definition returned_rounds (rounds : list wait_round) : Z := zlen (List.filter (fun r => match r.1 with WReturned _ => true | WInterrupted => false end) rounds).
Definition some_events (rounds : list wait_round) : bool := existsb (fun r => match r.1 with WReturned (_ :: _) => true | _ => false end) rounds.

Definition good_timeout (t : option Z) : Prop := exists v, t = Some v /\ 0 < v <= INT_MAX.

Lemma to_wait_good d cur : cur < d -> good_timeout (to_wait (Some d) cur).
Proof. intros H. unfold to_wait. cbn. eexists. split; [done|]. destruct (Z.gtb_spec (d - cur) INT_MAX); unfold INT_MAX in *; lia. Qed.

Lemma rounds_end_good d rounds : forall cur, cur < d -> Forall good_timeout (rounds_end (Some d) cur rounds).1.
Proof.
  induction rounds as [|[res c1] rounds IH]; intros cur Hc; cbn [rounds_end fst]; (constructor; [by apply to_wait_good|]); [constructor|].
  assert (Forall good_timeout (if c1 >=? d then ([], EFirst) else rounds_end (Some d) c1 rounds).1) as Hagain
    by (destruct (Z.geb_spec c1 d); [constructor|by apply IH]).
  destruct res as [|[|e evs]]; [done| |constructor]. destruct (not_truncated _ _); [constructor|done].
Qed.

(** While a wait is pending, its deadline is ahead, and each return took
    [INT_MAX]. *)
Lemma pending_ahead d rounds : forall cur c, cur < d -> (rounds_end (Some d) cur rounds).2 = EPending ->
  clock_rounds (Some d) cur rounds = Some c -> INT_MAX * returned_rounds rounds <= c - cur /\ c < d /\ some_events rounds = false.
Proof.
  induction rounds as [|[res c1] rounds IH]; intros cur c Hc; cbn [rounds_end clock_rounds snd fst].
  { intros _ [= ->]. unfold returned_rounds, zlen. cbn. lia. }
  destruct (Z.leb_spec cur c1) as [Hle|]; cbn [andb]; [|done].
  assert (forall n, n <= c1 - cur -> (if c1 >=? d then ([], EFirst) else rounds_end (Some d) c1 rounds).2 = EPending ->
    (if c1 >=? d then Some c1 else clock_rounds (Some d) c1 rounds) = Some c ->
    n + INT_MAX * returned_rounds rounds <= c - cur /\ c < d /\ some_events rounds = false) as Hagain.
  { intros n Hn. destruct (Z.geb_spec c1 d); [done|]. intros E1 E2. destruct (IH c1 c ltac:(lia) E1 E2) as (H1 & H2 & H3). split; [lia|done]. }
  destruct res as [|[|e evs]]; cbn [wait_stops fst snd reached_by]; [| |done].
  - intros E1 E2. destruct (Hagain 0 ltac:(lia) E1 E2) as (H1 & H2 & H3). split; [|done]. unfold returned_rounds in *. cbn [List.filter fst]. lia.
  - destruct (not_truncated (Some d) cur) eqn:En; cbn [orb]; [done|]. unfold not_truncated, to_wait in *.
    cbn [mbind option_bind] in *. destruct (Z.gtb_spec (d - cur) INT_MAX) as [Hg|Hg]; [|by rewrite Z.eqb_refl in En].
    destruct (Z.leb_spec (cur + INT_MAX) c1) as [Hi|]; [|done]. intros E1 E2. destruct (Hagain INT_MAX ltac:(lia) E1 E2) as (H1 & H2 & H3). split; [|done].
    unfold returned_rounds in *. cbn [List.filter fst]. rewrite zlen_cons. lia.
Qed.

(** With a timer running, a wait ends. Every timeout given to [epoll_wait] is
    positive and fits an [int], and a round that waits is over when [epoll_wait]
    returned events, when the clock has reached the first deadline [d], or after
    enough returns for the time left in steps of [INT_MAX] milliseconds: an interrupted
    call and a call that is cut short make the loop wait again, but not forever. *)
Theorem timer_wait_ends junk ops now rounds outs x r d c :
  ops_legal (s_init junk) (ops ++ [Step now rounds]) = true ->
  run_ops (BReactor_Init junk) (ops ++ [Step now rounds]) = Some (outs ++ [OCalled x], r) ->
  first_deadline (s_timers (spec_ops (s_init junk) ops).2) = Some d -> clock_rounds (Some d) now rounds = Some c ->
  match x with
  | CWaited ts => Forall good_timeout ts
  | CWaiting ts => Forall good_timeout ts /\ c < d /\ INT_MAX * returned_rounds rounds < d - now /\ some_events rounds = false
  | _ => True
  end.
Proof.
  intros Hl E Hd Hc. destruct (reached _ _ _ _ Hl E) as (Eo & _). rewrite spec_ops_app in Eo. cbn [spec_ops fst snd spec_op] in Eo.
  apply app_inj_tail in Eo as [_ [= ->]]. unfold spec_step.
  destruct (s_exiting _); [done|]. destruct (stack _); [|done]. destruct (expired _) as [|t' l]; [|done].
  destruct (s_results _) as [|e es]; [|destruct (data_ptr e); [destruct (_ =? 0)|]; done]. unfold spec_wait. rewrite Hd.
  destruct (Z.leb_spec d now) as [|Hlt]; [constructor|]. pose proof (rounds_end_good d rounds now Hlt) as Hg. pose proof (pending_ahead d rounds now c Hlt) as Hp.
  destruct (rounds_end _ _ _) as [ts []]; cbn [fst snd] in *; [done..|]. destruct (Hp eq_refl Hc) as (H1 & H2 & H3). repeat split; [done|lia..|done].
Qed.

(** A deadline further than [INT_MAX]: the first call is cut short. *)
Definition far_ops : list op := [TimerInit 10 55 true; TimerSet 10 BTIMER_SET_RELATIVE 2200000000 100].
Definition far_step : op := Step 101 [(WReturned [], 2147483749); (WInterrupted, 2147483800)].
Definition far_end : list out * BReactor := match run_ops (BReactor_Init 0) (far_ops ++ [far_step]) with Some x => x | None => ([], BReactor_Init 0) end.

Lemma timer_wait_ends_witness :
  list.last far_end.1 = Some (OCalled (CWaiting [Some 2147483647; Some 52516351; Some 52516300])) /\
  Forall good_timeout [Some 2147483647; Some 52516351; Some 52516300] /\ 2147483800 < 2200000100 /\ INT_MAX * 1 < 2200000100 - 101.
Proof.
  pose proof (timer_wait_ends 0 far_ops 101 [(WReturned [], 2147483749); (WInterrupted, 2147483800)] (removelast far_end.1)
    (CWaiting [Some 2147483647; Some 52516351; Some 52516300]) far_end.2 2200000100 2147483800
    ltac:(vm_compute; reflexivity) ltac:(vm_compute; reflexivity) ltac:(vm_compute; reflexivity) ltac:(vm_compute; reflexivity)) as (H1 & H2 & H3 & _).
  split; [vm_compute; reflexivity|]. split; [exact H1|]. split; [exact H2|]. exact H3.
Defined.

(** ** Descriptors *)

(** What the calls and their results say about the descriptors: those that are
    registered, the events asked for, and whether the last wait returned the
    descriptor and it was not dispatched since. *)
Definition returned_fds (rounds : list wait_round) : list (option Z) :=
  flat_map (fun r => match r.1 with WReturned evs => data_ptr <$> evs | WInterrupted => [] end) rounds.

Definition watch (a : gmap Z (Z * bool)) (x : op * out) : gmap Z (Z * bool) :=
  match x with
  | (FdAdd bs _, OBool true) => <[bs := (0, false)]> a
  | (FdRemove bs, _) => delete bs a
  | (FdSetEvents bs events, _) => alter (fun w => (events, w.2)) bs a
  | (Step _ _, OCalled (CFd bs _)) => alter (fun w => (w.1, false)) bs a
  | (Step _ rounds, OCalled (CWaited _)) => map_imap (fun bs w => Some (w.1, bool_decide (Some bs ∈ returned_fds rounds))) a
  | _ => a
  end.
Definition watched (ops : list op) (outs : list out) : gmap Z (Z * bool) := foldl watch ∅ (combine ops outs).

Definition fds_of (es : list epoll_event) : list Z := omap data_ptr es.

Record watches (s : rspec) (a : gmap Z (Z * bool)) : Prop := {
  w_fds : forall bs w, s_fds s !! bs = Some (Some w) <-> fst <$> a !! bs = Some w;
  w_ready : forall bs, bs ∈ fds_of (s_results s) -> snd <$> a !! bs = Some true;
  w_once : NoDup (fds_of (s_results s))
}.

Lemma fds_of_clear bs es : fds_of (clear_fd bs es) = list_remove bs (fds_of es).
Proof.
  induction es as [|e es IH]; [done|]. unfold clear_fd, fds_of, list_remove in *. simpl. destruct (bool_decide (data_ptr e = Some bs)) eqn:E; simpl.
  - apply bool_decide_eq_true in E. rewrite E. simpl. by rewrite Z.eqb_refl.
  - apply bool_decide_eq_false in E. destruct (data_ptr e) as [p|]; [|done]. simpl. destruct (Z.eqb_spec p bs) as [->|]; [done|]. simpl. f_equal. exact IH.
Qed.

Lemma rounds_end_events d rounds : forall cur evs, (rounds_end d cur rounds).2 = EEvents evs ->
  exists r, r ∈ rounds /\ r.1 = WReturned evs.
Proof.
  induction rounds as [|[res c1] rounds IH]; intros cur evs; cbn [rounds_end snd]; [done|].
  assert ((match d with None => rounds_end d cur rounds | Some a => if c1 >=? a then ([], EFirst) else rounds_end d c1 rounds end).2 = EEvents evs ->
    exists r, r ∈ (res, c1) :: rounds /\ r.1 = WReturned evs) as Hagain.
  { intros H. assert (exists r, r ∈ rounds /\ r.1 = WReturned evs) as (r & Hr & Er).
    { destruct d as [a|]; [destruct (c1 >=? a); [done|]|]; by eapply IH. }
    exists r. split; [by right|done]. }
  destruct res as [|[|e es]]; [exact Hagain|destruct (not_truncated _ _); [done|exact Hagain]|].
  intros [= <-]. exists (WReturned (e :: es), c1). split; [by left|done].
Qed.

Lemma fds_of_elem bs es : bs ∈ fds_of es <-> Some bs ∈ data_ptr <$> es.
Proof. unfold fds_of. rewrite list_elem_of_omap, list_elem_of_fmap. split; intros (e & H1 & H2); exists e; [done|]. by split. Qed.

Lemma fds_of_NoDup es : NoDup (data_ptr <$> es) -> NoDup (fds_of es).
Proof.
  induction es as [|e es IH]; [by constructor|]. rewrite fmap_cons. intros [Hn Hd]%list.NoDup_cons. unfold fds_of. simpl.
  destruct (data_ptr e) as [p|]; [|by apply IH]. constructor; [|by apply IH]. intros H%fds_of_elem. done.
Qed.

Lemma watches_fds s s' a : watches s a -> s_fds s' = s_fds s -> s_results s' = s_results s -> watches s' a.
Proof. intros [H1 H2 H3] E1 E2. by split; rewrite ?E1, ?E2. Qed.

(** A change of one descriptor that has no result left. *)
Lemma watches_insert s s' a bs w : watches s a -> bs ∉ fds_of (s_results s') -> (forall p, p ∈ fds_of (s_results s') -> p ∈ fds_of (s_results s)) ->
  NoDup (fds_of (s_results s')) -> s_fds s' = <[bs := w]> (s_fds s) ->
  watches s' (partial_alter (fun _ => (fun e => (e, false)) <$> w) bs a).
Proof.
  intros [H1 H2 H3] Hn Hin Hd E. split; [|intros p Hp|done].
  - intros p e. rewrite E. destruct (decide (p = bs)) as [->|Hne].
    + rewrite lookup_insert_eq, lookup_partial_alter_eq. destruct w; simpl; split; by intros [= <-].
    + rewrite lookup_insert_ne, lookup_partial_alter_ne by done. apply H1.
  - rewrite lookup_partial_alter_ne by (intros ->; done). apply H2, Hin, Hp.
Qed.

Lemma watches_none s a bs : watches s a -> (forall w, s_fds s !! bs <> Some (Some w)) -> a !! bs = None /\ bs ∉ fds_of (s_results s).
Proof.
  intros [H1 H2 H3] H. destruct (a !! bs) as [[w m]|] eqn:E.
  - exfalso. apply (H w), H1. by rewrite E.
  - split; [done|]. intros Hp%H2. by rewrite E in Hp.
Qed.

Lemma watches_wait s a now rounds : watches s a -> s_results s = [] -> forallb (round_legal s) rounds = true ->
  watches (spec_wait s now rounds).2 (watch a (Step now rounds, OCalled (spec_wait s now rounds).1)).
Proof.
  intros Hw Er Hl. assert (forall s' f, s_fds s' = s_fds s -> NoDup (fds_of (s_results s')) ->
    (forall bs, bs ∈ fds_of (s_results s') -> f bs = true /\ is_active s bs = true) -> watches s' (map_imap (fun bs w => Some (w.1, f bs)) a)) as Hmark.
  { intros s' f E Hd Hf. split; [|intros bs Hbs|done].
    - intros bs w. rewrite E, (w_fds _ _ Hw), map_lookup_imap. by destruct (a !! bs).
    - destruct (Hf bs Hbs) as [Hm Ha]. rewrite map_lookup_imap. unfold is_active in Ha.
      destruct (s_fds s !! bs) as [[w|]|] eqn:Ew; [|done..]. apply (w_fds _ _ Hw) in Ew. destruct (a !! bs); [|done]. simpl. by rewrite Hm. }
  assert (forall s', s_results s' = [] -> NoDup (fds_of (s_results s'))) as Hnil by (intros s' ->; constructor).
  unfold spec_wait. destruct (match first_deadline _ with Some d => d <=? now | None => false end).
  { apply Hmark; [done|by apply Hnil|]. cbn [snd s_results su_timers]. rewrite Er. by intros bs ?%elem_of_nil. }
  destruct (rounds_end _ _ _) as [ts e] eqn:Ew. destruct e as [|evs|]; cbn [fst snd].
  - apply Hmark; [done|by apply Hnil|]. cbn [s_results su_timers su_limits]. rewrite Er. by intros bs ?%elem_of_nil.
  - apply (f_equal snd) in Ew. apply rounds_end_events in Ew as ([res c1] & Hr & Hres). cbn [fst snd] in Hres. subst res.
    pose proof (proj1 (forallb_forall _ _) Hl _ (proj1 (list_elem_of_In _ _) Hr)) as Hrl. unfold round_legal in Hrl. cbn [fst] in Hrl.
    apply andb_true_iff in Hrl as [Hrl _]. apply andb_true_iff in Hrl as [Hrl _]. apply andb_true_iff in Hrl as [Hnd Hact]. apply bool_decide_eq_true in Hnd.
    apply Hmark; [done|by apply fds_of_NoDup|]. cbn [s_results su_fds su_limits]. intros bs Hbs. split.
    + apply bool_decide_eq_true. unfold returned_fds. apply list_elem_of_In, in_flat_map. exists (WReturned evs, c1). split; [by apply list_elem_of_In|].
      cbn [fst]. by apply list_elem_of_In, fds_of_elem.
    + apply fds_of_elem, list_elem_of_fmap in Hbs as (e & Ep & He). pose proof (proj1 (forallb_forall _ _) Hact _ (proj1 (list_elem_of_In _ _) He)) as H.
      cbn beta in H. by rewrite <- Ep in H.
  - by apply (watches_fds s).
Qed.

Lemma watches_results s es a : watches s a -> NoDup (fds_of es) -> (forall p, p ∈ fds_of es -> p ∈ fds_of (s_results s)) -> watches (su_fds s es (s_fds s)) a.
Proof. intros [H1 H2 H3] Hd Hin. split; [done| |done]. intros p Hp. apply H2, Hin, Hp. Qed.

Lemma watches_step s a now rounds : watches s a -> forallb (round_legal s) rounds = true ->
  watches (spec_step s now rounds).2 (watch a (Step now rounds, OCalled (spec_step s now rounds).1)).
Proof.
  intros Hw Hl. unfold spec_step. destruct (s_exiting s); [done|]. destruct (stack _); [|by apply (watches_fds s)].
  destruct (expired _); [|by apply (watches_fds s)]. destruct (s_results s) as [|e es] eqn:Er; [by apply watches_wait|].
  pose proof (w_once _ _ Hw) as Hd. rewrite Er in Hd. unfold fds_of in Hd. simpl in Hd. destruct (data_ptr e) as [bs|] eqn:Ep.
  - apply list.NoDup_cons in Hd as [Hn Hd]. assert (watches (su_fds s es (s_fds s)) a) as Hw'.
    { apply watches_results; [done|done|]. intros p Hp. rewrite Er. unfold fds_of. simpl. rewrite Ep. by right. }
    cbn [s_fds su_fds]. destruct (_ =? 0); [done|]. cbn [fst snd watch]. destruct Hw' as [H1 H2 H3]. split; [|intros p Hp|done].
    + intros p w. rewrite H1. destruct (decide (p = bs)) as [->|Hne]; [|by rewrite lookup_alter_ne]. rewrite lookup_alter_eq. by destruct (a !! bs).
    + rewrite lookup_alter_ne by (intros ->; done). by apply H2.
  - apply watches_results; [done|done|]. intros p Hp. rewrite Er. unfold fds_of. simpl. by rewrite Ep.
Qed.

Lemma watches_op s a o : watches s a -> op_legal s o = true -> watches (spec_op s o).2 (watch a (o, (spec_op s o).1)).
Proof.
  intros Hw Hl. destruct o as [| | |bs f|bs ok|bs|bs events| |o|o| |j|code|now rounds|ref|p]; try (by apply (watches_fds s)); cbn [op_legal] in Hl.
  - apply negb_true_iff in Hl. destruct (watches_none _ _ bs Hw (not_active _ _ Hl)) as [Ha Hn].
    pose proof (watches_insert s (spec_op s (FdInit bs f)).2 a bs None Hw Hn (fun _ H => H) (w_once _ _ Hw) eq_refl) as H. cbn [fmap option_fmap option_map] in H.
    change (partial_alter _ bs a) with (delete bs a) in H. by rewrite delete_id in H.
  - apply bool_decide_eq_true in Hl. destruct (watches_none _ _ bs Hw ltac:(intros w; congruence)) as [Ha Hn]. destruct ok; [|done].
    exact (watches_insert s (spec_op s (FdAdd bs true)).2 a bs (Some 0) Hw Hn (fun _ H => H) (w_once _ _ Hw) eq_refl).
  - assert (fds_of (s_results (spec_op s (FdRemove bs)).2) = list_remove bs (fds_of (s_results s))) as E by apply fds_of_clear.
    refine (watches_insert s (spec_op s (FdRemove bs)).2 a bs None Hw _ _ _ eq_refl); rewrite E.
    + rewrite elem_list_remove. tauto.
    + intros p. rewrite elem_list_remove. tauto.
    + apply NoDup_list_remove, (w_once _ _ Hw).
  - apply andb_true_iff in Hl as [Hl _]. apply is_active_true in Hl as (w & Ew). destruct Hw as [H1 H2 H3]. pose proof (proj1 (H1 _ _) Ew) as Ea.
    destruct (a !! bs) as [[w' m]|] eqn:E; [|done]. split; cbn [spec_op fst snd s_fds s_results su_fds watch]; [|intros p Hp|done].
    + intros p e. destruct (decide (p = bs)) as [->|Hne]; [|rewrite lookup_insert_ne, lookup_alter_ne by done; apply H1].
      rewrite lookup_insert_eq, lookup_alter_eq, E. simpl. split; by intros [= <-].
    + apply H2 in Hp. destruct (decide (p = bs)) as [->|Hne]; [|by rewrite lookup_alter_ne]. rewrite lookup_alter_eq. by destruct (a !! bs).
  - cbn [spec_op watch]. destruct (s_limits s !! o) as [[lim n]|]; [|done]. destruct (n <? lim); [|done]. by apply (watches_fds s).
  - cbn [spec_op watch snd]. destruct (spec_exec (s_jobs s) j) as [[]|]; [|done]. by apply (watches_fds s).
  - by apply watches_step.
  - cbn [spec_op watch snd]. destruct (s_exiting s); [done|]. destruct (stack (s_jobs s)) as [|p l]; [done|]. destruct (bool_decide (p = ref)); [exact Hw|]. by apply (watches_fds s).
Qed.

Lemma watches_ops ops : forall s a, watches s a -> ops_legal s ops = true ->
  watches (spec_ops s ops).2 (foldl watch a (combine ops (spec_ops s ops).1)).
Proof.
  induction ops as [|o ops IH]; intros s a Hw; cbn [ops_legal spec_ops fst snd combine foldl]; [done|].
  intros [Hl1 Hl2]%andb_true_iff. apply IH; [|done]. by apply watches_op.
Qed.

Lemma report_bits w e : let ev := events_to_report w e in
  0 <= ev <= 15 /\ (Z.land ev BREACTOR_READ <> 0 -> Z.land w BREACTOR_READ <> 0) /\ (Z.land ev BREACTOR_WRITE <> 0 -> Z.land w BREACTOR_WRITE <> 0).
Proof.
  unfold events_to_report. destruct (Z.eqb_spec (Z.land w BREACTOR_READ) 0), (Z.eqb_spec (Z.land w BREACTOR_WRITE) 0), (EPOLLIN e), (EPOLLOUT e), (EPOLLERR e), (EPOLLHUP e);
    cbn; repeat split; done.
Qed.

(** C24. Descriptors are dispatched safely: when a round of the loop calls the handler of
    a descriptor, the descriptor was added and not removed since (though handlers that
    ran after the wait may have removed others), the last wait returned it, it has not
    been dispatched since, nor removed and added again, and the events reported are
    not empty and hold a read or write only when asked for by the last call that set
    them. *)
Theorem fd_dispatch_safe junk ops now rounds outs bs ev r :
  ops_legal (s_init junk) (ops ++ [Step now rounds]) = true ->
  run_ops (BReactor_Init junk) (ops ++ [Step now rounds]) = Some (outs ++ [OCalled (CFd bs ev)], r) ->
  exists w, watched ops outs !! bs = Some (w, true) /\ 0 < ev <= 15 /\
    (Z.land ev BREACTOR_READ <> 0 -> Z.land w BREACTOR_READ <> 0) /\ (Z.land ev BREACTOR_WRITE <> 0 -> Z.land w BREACTOR_WRITE <> 0).
Proof.
  intros Hl E. destruct (reached _ _ _ _ Hl E) as (Eo & _). rewrite spec_ops_app in Eo. cbn [spec_ops fst snd spec_op] in Eo.
  apply app_inj_tail in Eo as [-> [= Eo]]. rewrite ops_legal_app in Hl. apply andb_true_iff in Hl as [Hl _].
  assert (watches (s_init junk) ∅) as H0 by (split; [done|by intros p ?%elem_of_nil|constructor]).
  pose proof (watches_ops ops _ _ H0 Hl) as Hw. fold (watched ops (spec_ops (s_init junk) ops).1) in Hw. revert Eo Hw. set (s := (spec_ops _ _).2). intros Eo Hw.
  unfold spec_step in Eo. destruct (s_exiting s); [done|]. destruct (stack _); [|done]. destruct (expired _); [|done].
  destruct (s_results s) as [|e es] eqn:Er.
  { revert Eo. unfold spec_wait. destruct (match first_deadline _ with Some _ => _ | None => _ end); [done|]. by destruct (rounds_end _ _ _) as [ts []]. }
  destruct (data_ptr e) as [p|] eqn:Ep; [|done]. cbn [s_fds su_fds] in Eo.
  destruct (s_fds s !! p) as [[w|]|] eqn:Ew; [|done..]. destruct (Z.eqb_spec (events_to_report w e) 0) as [|H]; [done|].
  injection Eo as -> ->. pose proof (proj1 (w_fds _ _ Hw _ _) Ew) as H1. pose proof (w_ready _ _ Hw p) as H2. rewrite Er in H2. unfold fds_of in H2. simpl in H2. rewrite Ep in H2.
  specialize (H2 ltac:(by left)). destruct (watched _ _ !! p) as [[w' m]|]; [|done]. injection H1 as ->. injection H2 as ->. exists w. split; [done|].
  destruct (report_bits w e) as (? & ? & ?). repeat split; [lia|lia|done|done].
Qed.

(** Two descriptors returned; the handler of the first removes the second and adds it
    again; only the next wait returns it. *)
Definition fd_ops : list op :=
  [FdInit 20 3; FdInit 21 4; FdAdd 20 true; FdAdd 21 true; FdSetEvents 20 3; FdSetEvents 21 1; Step 5 [(WReturned [ev 20; ev 21], 6)]; Step 6 []; FdRemove 21; FdAdd 21 true;
   FdSetEvents 21 2; Step 6 []; Step 6 [(WInterrupted, 7); (WReturned [mkEvent (Some 21) true true false true], 8)]].
Definition fd_end : list out * BReactor := match run_ops (BReactor_Init 0) (fd_ops ++ [Step 8 []]) with Some x => x | None => ([], BReactor_Init 0) end.

Lemma fd_dispatch_safe_witness : exists w, watched fd_ops (removelast fd_end.1) !! 21 = Some (w, true) /\ 0 < 10 <= 15 /\
    (Z.land 10 BREACTOR_READ <> 0 -> Z.land w BREACTOR_READ <> 0) /\ (Z.land 10 BREACTOR_WRITE <> 0 -> Z.land w BREACTOR_WRITE <> 0).
Proof.
  exact (fd_dispatch_safe 0 fd_ops 8 [] (removelast fd_end.1) 21 10 fd_end.2 ltac:(vm_compute; reflexivity) ltac:(vm_compute; reflexivity)).
Defined.

Example fd_calls : List.filter (fun o => match o with OCalled _ => true | _ => false end) fd_end.1 =
  map OCalled [CWaited [None]; CFd 20 1; CSkip; CWaited [None; None]; CFd 21 10].
Proof. vm_compute. reflexivity. Qed.
