(* ===== verification/ReactorPort.v ===== *)
(** * Programs that use the reactor

    The interface between the event loop and the components that call it. A
    component's function is a [prog]: it calls operations of the reactor, one after
    another, and computes in between. [ReactorPort] is what a reactor promises to such
    programs: any call that is legal in its specification's state succeeds and answers
    as the specification. The model of [BReactor] keeps the promise
    ([BReactor_port]), and so does the specification itself ([rspec_port]): a
    component verified against the interface works on both. *)

From S2P Require Import Prelude LinkedLists BPending Timers Reactor ReactorSpec.

(** ** Programs *)

Inductive prog (A : Type) := Ret (a : A) | Crash | Call (o : op) (k : out -> prog A).
Arguments Ret {A}.
Arguments Crash {A}.
Arguments Call {A}.

Fixpoint pbind {A B} (p : prog A) (f : A -> prog B) : prog B :=
  match p with
  | Ret a => f a
  | Crash => Crash
  | Call o k => Call o (fun x => pbind (k x) f)
  end.

Notation "'do*' x ':=' p 'in' k" := (pbind p (fun x => k))
  (at level 10, x pattern, p at level 100, k at level 200, only parsing) : flux_scope.
Notation "'do' p ';;' k" := (pbind p (fun _ => k))
  (at level 10, p at level 99, k at level 200, only parsing) : flux_scope.
Notation "'PASSERT' b ';;' k" := (if b then k else Crash)
  (at level 10, b at level 99, k at level 200, only parsing) : flux_scope.

Definition lift {A} (x : option A) : prog A := match x with Some a => Ret a | None => Crash end.

(** A call that returns nothing, a boolean, the result of a round. *)
Definition call (o : op) : prog unit := Call o (fun _ => Ret tt).
Definition call_bool (o : op) : prog bool := Call o (fun x => match x with OBool b => Ret b | _ => Crash end).
Definition call_step (now : Z) (rounds : list wait_round) : prog called :=
  Call (Step now rounds) (fun x => match x with OCalled c => Ret c | _ => Crash end).
Definition call_sync (ref : addr) : prog (option addr) :=
  Call (Sync ref) (fun x => match x with OSync (SJob p) => Ret (Some p) | _ => Ret None end).

(** ** The interface *)

Class ReactorPort (R : Type) := {
  rp_call : R -> op -> option (out * R);
  rp_holds : R -> rspec -> Prop;
  rp_ok : forall r s o, rp_holds r s -> op_legal s o = true ->
    exists r', rp_call r o = Some ((spec_op s o).1, r') /\ rp_holds r' (spec_op s o).2
}.

#[export] Instance BReactor_port : ReactorPort BReactor :=
  {| rp_call := exec_op; rp_holds := holds_reactor; rp_ok := exec_op_ok |}.

#[export, refine] Instance rspec_port : ReactorPort rspec :=
  {| rp_call s o := if op_legal s o then Some (spec_op s o) else None; rp_holds := eq |}.
Proof. intros r s o -> ->. eexists. split; [|done]. by destruct (spec_op s o). Defined.

Fixpoint interp {R} `{ReactorPort R} {A} (r : R) (p : prog A) : option (A * R) :=
  match p with
  | Ret a => Some (a, r)
  | Crash => None
  | Call o k => let* (x, r) := rp_call r o in interp r (k x)
  end.

(** ** Verifying programs on the specification

    [wp s p Q]: from the state [s] the program makes legal calls only, does not crash,
    and ends in [Q]. *)
Fixpoint wp {A} (s : rspec) (p : prog A) (Q : A -> rspec -> Prop) : Prop :=
  match p with
  | Ret a => Q a s
  | Crash => False
  | Call o k => op_legal s o = true /\ wp (spec_op s o).2 (k (spec_op s o).1) Q
  end.

Lemma wp_bind {A B} (p : prog A) (f : A -> prog B) Q : forall s, wp s p (fun a s => wp s (f a) Q) -> wp s (pbind p f) Q.
Proof. induction p as [a| |o k IH]; intros s; simpl; [done|done|]. intros [Hl H]. split; [done|]. by apply IH. Qed.

Lemma wp_mono {A} (p : prog A) (Q Q' : A -> rspec -> Prop) : (forall a s, Q a s -> Q' a s) -> forall s, wp s p Q -> wp s p Q'.
Proof. intros HQ. induction p as [a| |o k IH]; intros s; simpl; [apply HQ|done|]. intros [Hl H]. split; [done|]. by apply IH. Qed.

Lemma wp_lift {A} (x : option A) s Q : (exists a, x = Some a /\ Q a s) -> wp s (lift x) Q.
Proof. intros (a & -> & H). exact H. Qed.

(** What is proved on the specification holds on every reactor. *)
Lemma wp_interp {R} `{ReactorPort R} {A} (p : prog A) Q : forall r s, rp_holds r s -> wp s p Q ->
  exists a r' s', interp r p = Some (a, r') /\ rp_holds r' s' /\ Q a s'.
Proof.
  induction p as [a| |o k IH]; intros r s Hr; simpl; [by eauto 6|done|]. intros [Hl Hp].
  destruct (rp_ok r s o Hr Hl) as (r' & -> & Hr'). exact (IH _ _ _ Hr' Hp).
Qed.

(** On the specification a program has one result, and the postcondition is about it. *)
Lemma wp_result {A} (p : prog A) Q : forall s, wp s p Q ->
  exists a s', interp s p = Some (a, s') /\ wp s p (fun x s1 => Q x s1 /\ x = a /\ s1 = s').
Proof.
  induction p as [a| |o k IH]; intros s; simpl; [by eauto 6|done|]. intros [Hl Hp]. rewrite Hl.
  destruct (IH _ _ Hp) as (a & s' & E & H). destruct (spec_op s o) as [x s1]. by exists a, s'.
Qed.

(** Two reactors run a program alike. *)
Lemma interp_agree {R} `{ReactorPort R} {A} (p : prog A) : forall r s a s', rp_holds r s -> interp s p = Some (a, s') ->
  exists r', interp r p = Some (a, r') /\ rp_holds r' s'.
Proof.
  induction p as [a| |o k IH]; intros r s b s' Hr; simpl; [intros [= <- <-]; eauto|done|].
  destruct (op_legal s o) eqn:El; [|done]. destruct (rp_ok r s o Hr El) as (r' & -> & Hr').
  destruct (spec_op s o) as [x s1]. simpl in *. by apply IH.
Qed.
