(* ===== verification/Connection.v ===== *)
(** * Connections: [system/BConnection_unix.c]

    [BConnector] and [BConnection] over the reactor ([ReactorPort]): connecting,
    sending and receiving through a socket that does not block, waiting for it with
    the reactor's events, limits and jobs. The kernel answers each [connect],
    [getsockopt], [write] and [read]. The jobs of the two stream interfaces are
    those of [Flow]; [DebugError] is the flag that an error was reported. The
    listener and UNIX sockets, which tun2socks does not use, are left out. The
    theorems are in [ConnectionProps]. *)

From S2P Require Import Prelude Flow Device LinkedLists BPending Timers Reactor ReactorSpec ReactorPort.

(** ** Socket addresses *)

(** [struct sys_addr], with the members of the union that are in use. *)
Inductive sockaddr :=
  | sockaddr_in (sin_port sin_addr : Z)
  | sockaddr_in6 (sin6_port sin6_flowinfo : Z) (sin6_addr : list Z) (sin6_scope_id : Z)
  | sockaddr_other.
Record sys_addr := mkSys { sys_len : Z; sys_sockaddr : sockaddr }.

Definition sizeof_sockaddr_in : Z := 16.
Definition sizeof_sockaddr_in6 : Z := 28.

Definition addr_socket_to_sys (a : BAddr) : option sys_addr :=
  match a with
  | BADDR_IPV4 ip port => Some (mkSys sizeof_sockaddr_in (sockaddr_in port ip))
  | BADDR_IPV6 ip port => Some (mkSys sizeof_sockaddr_in6 (sockaddr_in6 port 0 ip 0))
  | _ => None
  end.

Definition addr_sys_to_socket (a : sys_addr) : option BAddr :=
  match sys_sockaddr a with
  | sockaddr_in port ip => ASSERT (sys_len a =? sizeof_sockaddr_in) ;; Some (BADDR_IPV4 ip port)
  | sockaddr_in6 port _ ip _ => ASSERT (sys_len a =? sizeof_sockaddr_in6) ;; Some (BADDR_IPV6 ip port)
  | sockaddr_other => Some BADDR_NONE
  end.

Definition BConnection_AddressSupported (a : BAddr) : bool :=
  match a with BADDR_IPV4 _ _ | BADDR_IPV6 _ _ => true | _ => false end.

(** ** State *)

Definition BCONNECTION_SEND_LIMIT : Z := 2.
Definition BCONNECTION_RECV_LIMIT : Z := 2.

Inductive send_states := SEND_STATE_NOT_INITED | SEND_STATE_READY | SEND_STATE_BUSY.
Inductive recv_states :=
  RECV_STATE_NOT_INITED | RECV_STATE_READY | RECV_STATE_BUSY | RECV_STATE_INITED_CLOSED | RECV_STATE_NOT_INITED_CLOSED.

#[export] Instance send_states_eq : EqDecision send_states.
Proof. solve_decision. Defined.
#[export] Instance recv_states_eq : EqDecision recv_states.
Proof. solve_decision. Defined.

Record BConnector := mkConnector { co_fd : Z; connected : bool; have_bfd : bool }.

(** What is sent is the data at the user's pointer; what is received goes to a
    pointer. An interface exists while it is initialised. *)
Record BConnection := mkConnection {
  con_fd : Z;
  close_fd : bool;
  is_hupd : bool;
  wait_events : Z;
  send_iface : option (StreamInterface (list Z));
  send_busy_data : list Z;
  send_busy_data_len : Z;
  send_state : send_states;
  recv_iface : option (StreamInterface Z);
  recv_busy_data : option Z;
  recv_busy_data_avail : Z;
  recv_state : recv_states;
  errored : bool                        (* d_err *)
}.

Definition with_events (o : BConnection) e : BConnection :=
  mkConnection (con_fd o) (close_fd o) (is_hupd o) e (send_iface o) (send_busy_data o) (send_busy_data_len o) (send_state o) (recv_iface o) (recv_busy_data o) (recv_busy_data_avail o) (recv_state o) (errored o).
Definition with_hupd (o : BConnection) : BConnection :=
  mkConnection (con_fd o) (close_fd o) true (wait_events o) (send_iface o) (send_busy_data o) (send_busy_data_len o) (send_state o) (recv_iface o) (recv_busy_data o) (recv_busy_data_avail o) (recv_state o) (errored o).
Definition with_send (o : BConnection) i d l s : BConnection :=
  mkConnection (con_fd o) (close_fd o) (is_hupd o) (wait_events o) i d l s (recv_iface o) (recv_busy_data o) (recv_busy_data_avail o) (recv_state o) (errored o).
Definition with_recv (o : BConnection) i d l s : BConnection :=
  mkConnection (con_fd o) (close_fd o) (is_hupd o) (wait_events o) (send_iface o) (send_busy_data o) (send_busy_data_len o) (send_state o) i d l s (errored o).
Definition with_error (o : BConnection) : BConnection :=
  mkConnection (con_fd o) (close_fd o) (is_hupd o) (wait_events o) (send_iface o) (send_busy_data o) (send_busy_data_len o) (send_state o) (recv_iface o) (recv_busy_data o) (recv_busy_data_avail o) (recv_state o) true.
Definition with_send_state (o : BConnection) s : BConnection := with_send o (send_iface o) (send_busy_data o) (send_busy_data_len o) s.
Definition with_recv_state (o : BConnection) s : BConnection := with_recv o (recv_iface o) (recv_busy_data o) (recv_busy_data_avail o) s.
Definition with_send_iface (o : BConnection) i : BConnection := with_send o i (send_busy_data o) (send_busy_data_len o) (send_state o).
Definition with_recv_iface (o : BConnection) i : BConnection := with_recv o i (recv_busy_data o) (recv_busy_data_avail o) (recv_state o).

(** ** The kernel's answers, and what is observed *)

Inductive connect_answer := ConnectDone | ConnectInProgress | ConnectFails.
Inductive write_answer := Wrote (bytes : Z) | WriteAgain | WriteFails.
Inductive read_answer := GotData (data : list Z) | ReadAgain | ReadFails.   (* no data: the end *)

(** Calls of the user (U), effects on the kernel's objects (K) and reports of the
    handlers to the user (R). *)
Inductive obs :=
  | USendInit | USend (data : list Z) | USendFree
  | URecvInit | URecv (data avail : Z) | URecvFree
  | KSocket (fd : Z) | KClose (fd : Z) | KWrite (data : list Z) | KRead (to : Z) (data : list Z)
  | RConnector (is_error : bool) | RSent (len : Z) | RReceived (len : Z) | RError | RRecvClosed.

Section Connections.
(** The addresses of the objects inside of the connector and the connection. *)
Context (connector_bfd bfd send_limit recv_limit : Z) (connector_job send_job recv_job : addr).

Abbreviation result := (prog (BConnection * list obs)).

(** ** The connection *)

Definition connection_report_error (o : BConnection) : result :=
  PASSERT (negb (errored o)) ;;
  Ret (with_error o, [RError]).

(** "wait for fd" *)
Definition wait_for_fd (o : BConnection) (event : Z) : result :=
  let o := with_events o (Z.lor (wait_events o) event) in
  do call (FdSetEvents bfd (wait_events o)) ;;
  Ret (o, []).

Definition connection_send (o : BConnection) (answer : write_answer) : result :=
  PASSERT (negb (errored o)) ;;
  PASSERT (bool_decide (send_state o = SEND_STATE_BUSY)) ;;
  do* go := (if negb (is_hupd o) then call_bool (LimitIncrement send_limit) else Ret true) in
  if negb go then wait_for_fd o BREACTOR_WRITE
  else
    match answer with
    | WriteAgain => if negb (is_hupd o) then wait_for_fd o BREACTOR_WRITE else connection_report_error o
    | WriteFails => connection_report_error o
    | Wrote bytes =>
        PASSERT (bytes >? 0) ;;
        PASSERT (bytes <=? send_busy_data_len o) ;;
        let o := with_send_state o SEND_STATE_READY in
        do* i := lift (send_iface o) in
        do* i := lift (StreamPassInterface_Done i bytes) in
        Ret (with_send_iface o (Some i), [KWrite (take (Z.to_nat bytes) (send_busy_data o))])
    end.

Definition connection_recv (o : BConnection) (answer : read_answer) : result :=
  PASSERT (negb (errored o)) ;;
  PASSERT (bool_decide (recv_state o = RECV_STATE_BUSY)) ;;
  do* go := (if negb (is_hupd o) then call_bool (LimitIncrement recv_limit) else Ret true) in
  if negb go then wait_for_fd o BREACTOR_READ
  else
    match answer with
    | ReadAgain => if negb (is_hupd o) then wait_for_fd o BREACTOR_READ else connection_report_error o
    | ReadFails => connection_report_error o
    | GotData [] => Ret (with_recv_state o RECV_STATE_INITED_CLOSED, [RRecvClosed])
    | GotData data =>
        let bytes := zlen data in
        PASSERT (bytes >? 0) ;;
        PASSERT (bytes <=? recv_busy_data_avail o) ;;
        do* to := lift (recv_busy_data o) in
        let o := with_recv_state o RECV_STATE_READY in
        do* i := lift (recv_iface o) in
        do* i := lift (StreamRecvInterface_Done i bytes) in
        Ret (with_recv_iface o (Some i), [KRead to data])
    end.

Definition has (events bits : Z) : bool := negb (Z.land events bits =? 0).

Definition connection_fd_handler (o : BConnection) (events : Z) (w : write_answer) (r : read_answer) : result :=
  PASSERT (negb (errored o)) ;;
  PASSERT (negb (is_hupd o)) ;;
  let o := with_events o (Z.land (wait_events o) (Z.lnot events)) in
  do call (FdSetEvents bfd (wait_events o)) ;;
  do* o := (if has events BREACTOR_HUP then do call (FdRemove bfd) ;; Ret (with_hupd o) else Ret o) in
  let have_send := has events BREACTOR_WRITE || (has events (Z.lor BREACTOR_ERROR BREACTOR_HUP) && bool_decide (send_state o = SEND_STATE_BUSY)) in
  PASSERT (implb have_send (bool_decide (send_state o = SEND_STATE_BUSY))) ;;
  let have_recv := has events BREACTOR_READ || (has events (Z.lor BREACTOR_ERROR BREACTOR_HUP) && bool_decide (recv_state o = RECV_STATE_BUSY)) in
  PASSERT (implb have_recv (bool_decide (recv_state o = RECV_STATE_BUSY))) ;;
  if have_send then
    do (if have_recv then call (Job (JSet recv_job)) else Ret tt) ;;
    connection_send o w
  else if have_recv then connection_recv o r
  else if negb (is_hupd o) then connection_report_error o
  else Ret (o, []).

Definition connection_send_job_handler (o : BConnection) (w : write_answer) : result :=
  PASSERT (negb (errored o)) ;;
  PASSERT (bool_decide (send_state o = SEND_STATE_BUSY)) ;;
  connection_send o w.

Definition connection_recv_job_handler (o : BConnection) (r : read_answer) : result :=
  PASSERT (negb (errored o)) ;;
  PASSERT (bool_decide (recv_state o = RECV_STATE_BUSY)) ;;
  connection_recv o r.

Definition connection_send_if_handler_send (o : BConnection) (data : list Z) (data_len : Z) (w : write_answer) : result :=
  PASSERT (negb (errored o)) ;;
  PASSERT (bool_decide (send_state o = SEND_STATE_READY)) ;;
  PASSERT (data_len >? 0) ;;
  connection_send (with_send o (send_iface o) data data_len SEND_STATE_BUSY) w.

Definition connection_recv_if_handler_recv (o : BConnection) (data : Z) (data_avail : Z) (r : read_answer) : result :=
  PASSERT (negb (errored o)) ;;
  PASSERT (bool_decide (recv_state o = RECV_STATE_READY)) ;;
  PASSERT (data_avail >? 0) ;;
  connection_recv (with_recv o (recv_iface o) (Some data) data_avail RECV_STATE_BUSY) r.

Definition BConnection_SendAsync_Init (o : BConnection) : result :=
  PASSERT (negb (errored o)) ;;
  PASSERT (bool_decide (send_state o = SEND_STATE_NOT_INITED)) ;;
  do call (Job (JInit send_job)) ;;
  Ret (with_send o (Some StreamPassInterface_Init) (send_busy_data o) (send_busy_data_len o) SEND_STATE_READY, [USendInit]).

Definition BConnection_SendAsync_Free (o : BConnection) : result :=
  PASSERT (bool_decide (send_state o = SEND_STATE_READY) || bool_decide (send_state o = SEND_STATE_BUSY)) ;;
  do* o := (if negb (is_hupd o) then
              let o := with_events o (Z.land (wait_events o) (Z.lnot BREACTOR_WRITE)) in
              do call (FdSetEvents bfd (wait_events o)) ;; Ret o
            else Ret o) in
  do call (Job (JFree send_job)) ;;
  Ret (with_send o None (send_busy_data o) (send_busy_data_len o) SEND_STATE_NOT_INITED, [USendFree]).

Definition BConnection_RecvAsync_Init (o : BConnection) : result :=
  PASSERT (negb (errored o)) ;;
  PASSERT (bool_decide (recv_state o = RECV_STATE_NOT_INITED)) ;;
  do call (Job (JInit recv_job)) ;;
  Ret (with_recv o (Some StreamRecvInterface_Init) (recv_busy_data o) (recv_busy_data_avail o) RECV_STATE_READY, [URecvInit]).

Definition BConnection_RecvAsync_Free (o : BConnection) : result :=
  PASSERT (bool_decide (recv_state o = RECV_STATE_READY) || bool_decide (recv_state o = RECV_STATE_BUSY) || bool_decide (recv_state o = RECV_STATE_INITED_CLOSED)) ;;
  do* o := (if negb (is_hupd o) then
              let o := with_events o (Z.land (wait_events o) (Z.lnot BREACTOR_READ)) in
              do call (FdSetEvents bfd (wait_events o)) ;; Ret o
            else Ret o) in
  do call (Job (JFree recv_job)) ;;
  Ret (with_recv o None (recv_busy_data o) (recv_busy_data_avail o) RECV_STATE_NOT_INITED, [URecvFree]).

Definition BConnection_Free (o : BConnection) : prog (list obs) :=
  PASSERT (bool_decide (send_state o = SEND_STATE_NOT_INITED)) ;;
  PASSERT (bool_decide (recv_state o = RECV_STATE_NOT_INITED) || bool_decide (recv_state o = RECV_STATE_NOT_INITED_CLOSED)) ;;
  do call (LimitFree recv_limit) ;;
  do call (LimitFree send_limit) ;;
  do (if negb (is_hupd o) then call (FdRemove bfd) else Ret tt) ;;
  Ret (if close_fd o then [KClose (con_fd o)] else []).

(** ** Connecting *)

(** [fail2] and [fail1] of [BConnector_Init]. *)
Definition connector_fail2 (fd : Z) : prog (option BConnector * list obs) :=
  do call (Job (JFree connector_job)) ;; Ret (None, [KSocket fd; KClose fd]).
Definition connector_fail1 : prog (option BConnector * list obs) :=
  do call (Job (JFree connector_job)) ;; Ret (None, []).

(** [fd]: the answer of [socket]; [nonblocking], [added]: that
    [badvpn_set_nonblocking] and [epoll_ctl] succeed. *)
Definition BConnector_Init (a : BAddr) (fd : option Z) (nonblocking : bool) (answer : connect_answer) (added : bool)
  : prog (option BConnector * list obs) :=
  if negb (BConnection_AddressSupported a) then Ret (None, [])
  else
    do* _ := lift (addr_socket_to_sys a) in
    do call (Job (JInit connector_job)) ;;
    match fd with
    | None => connector_fail1
    | Some fd =>
        if negb nonblocking then connector_fail2 fd
        else
          match answer with
          | ConnectFails => connector_fail2 fd
          | ConnectInProgress =>
              do call (FdInit connector_bfd fd) ;;
              do* ok := call_bool (FdAdd connector_bfd added) in
              if negb ok then connector_fail2 fd
              else
                do call (FdSetEvents connector_bfd BREACTOR_WRITE) ;;
                Ret (Some (mkConnector fd false true), [KSocket fd])
          | ConnectDone =>
              do call (Job (JSet connector_job)) ;;
              Ret (Some (mkConnector fd true false), [KSocket fd])
          end
    end.

(** [so_error]: the answer of [getsockopt], if it succeeds. *)
Definition connector_fd_handler (o : BConnector) (so_error : option Z) : prog (BConnector * list obs) :=
  PASSERT (co_fd o >=? 0) ;;
  PASSERT (negb (connected o)) ;;
  PASSERT (have_bfd o) ;;
  do call (FdRemove connector_bfd) ;;
  let ok := (match so_error with Some result => result =? 0 | None => false end) in
  Ret (mkConnector (co_fd o) ok false, [RConnector (negb ok)]).

Definition connector_job_handler (o : BConnector) : prog (BConnector * list obs) :=
  PASSERT (co_fd o >=? 0) ;;
  PASSERT (connected o) ;;
  PASSERT (negb (have_bfd o)) ;;
  Ret (o, [RConnector false]).

Definition BConnector_Free (o : BConnector) : prog (list obs) :=
  do (if have_bfd o then call (FdRemove connector_bfd) else Ret tt) ;;
  do call (Job (JFree connector_job)) ;;
  Ret (if negb (co_fd o =? -1) then [KClose (co_fd o)] else []).

(** The lines of [BConnection_Init] after the socket is known. *)
Definition connection_init (fd : Z) (close_fd added : bool) : prog (option BConnection * list obs) :=
  do call (FdInit bfd fd) ;;
  do* ok := call_bool (FdAdd bfd added) in
  if negb ok then Ret (None, if close_fd then [KClose fd] else [])
  else
    do call (LimitInit send_limit BCONNECTION_SEND_LIMIT) ;;
    do call (LimitInit recv_limit BCONNECTION_RECV_LIMIT) ;;
    Ret (Some (mkConnection fd close_fd false 0 None [] 0 SEND_STATE_NOT_INITED None None 0 RECV_STATE_NOT_INITED false), []).

(** From a connector, which loses its socket, or from a pipe. *)
Definition BConnection_Init_connector (connector : BConnector) (added : bool) : prog (BConnector * option BConnection * list obs) :=
  PASSERT (co_fd connector >=? 0) ;;
  PASSERT (connected connector) ;;
  PASSERT (negb (have_bfd connector)) ;;
  do* set := call_bool (JobIsSet connector_job) in
  PASSERT (negb set) ;;
  do* (o, out) := connection_init (co_fd connector) true added in
  Ret (mkConnector (-1) (connected connector) (have_bfd connector), o, out).

Definition BConnection_Init_pipe (pipefd : Z) (nonblocking added : bool) : prog (option BConnection * list obs) :=
  PASSERT (pipefd >=? 0) ;;
  if negb nonblocking then Ret (None, [])
  else connection_init pipefd false added.

(** ** A user with a connector and a connection, and the loop *)

Record world := mkWorld {
  connector : option BConnector;
  established : bool;              (* the connector's success was reported *)
  connection : option BConnection
}.

Definition with_connection (w : world) c : world := mkWorld (connector w) (established w) c.

Inductive event :=
  | EvConnect (a : BAddr) (fd : option Z) (nonblocking : bool) (answer : connect_answer) (added : bool)
  | EvConnectorFree
  | EvInit (added : bool) | EvInitPipe (fd : Z) (nonblocking added : bool) | EvFree
  | EvSendInit | EvSend (data : list Z) | EvSendFree
  | EvRecvInit | EvRecv (data avail : Z) | EvRecvFree
  | EvSendJob (w : write_answer) | EvSendDoneJob | EvRecvJob (r : read_answer) | EvRecvDoneJob
  | EvStep (now : Z) (rounds : list wait_round) (so_error : option Z) (w : write_answer) (r : read_answer)
  | EvSync (ref : addr) (w : write_answer) (r : read_answer)
  | EvOther (o : op).

Abbreviation outcome := (prog (world * list obs)).

Definition on_connection (w : world) (f : BConnection -> result) : outcome :=
  do* o := lift (connection w) in
  do* (o, out) := f o in
  Ret (with_connection w (Some o), out).

(** A job of the group is run: one of these objects', or another one. *)
Definition run_job (w : world) (p : addr) (wa : write_answer) (ra : read_answer) : outcome :=
  if bool_decide (p = connector_job) then
    do* o := lift (connector w) in
    do* (o, out) := connector_job_handler o in
    Ret (mkWorld (Some o) true (connection w), out)
  else if bool_decide (p = send_job) then on_connection w (fun o => connection_send_job_handler o wa)
  else if bool_decide (p = recv_job) then on_connection w (fun o => connection_recv_job_handler o ra)
  else Ret (w, []).

Definition run_called (w : world) (c : called) (so_error : option Z) (wa : write_answer) (ra : read_answer) : outcome :=
  match c with
  | CJob p => run_job w p wa ra
  | CFd bs events =>
      if bs =? connector_bfd then
        do* o := lift (connector w) in
        do* (o, out) := connector_fd_handler o so_error in
        Ret (mkWorld (Some o) (connected o) (connection w), out)
      else if bs =? bfd then on_connection w (fun o => connection_fd_handler o events wa ra)
      else Ret (w, [])
  | _ => Ret (w, [])
  end.

Definition step (w : world) (e : event) : outcome :=
  match e with
  | EvConnect a fd nonblocking answer added =>
      do* (o, out) := BConnector_Init a fd nonblocking answer added in
      Ret (mkWorld o false (connection w), out)
  | EvConnectorFree =>
      do* o := lift (connector w) in
      do* out := BConnector_Free o in
      Ret (mkWorld None false (connection w), out)
  | EvInit added =>
      do* o := lift (connector w) in
      do* (o, c, out) := BConnection_Init_connector o added in
      Ret (mkWorld (Some o) false c, out)
  | EvInitPipe fd nonblocking added =>
      do* (c, out) := BConnection_Init_pipe fd nonblocking added in
      Ret (with_connection w c, out)
  | EvFree =>
      do* o := lift (connection w) in
      do* out := BConnection_Free o in
      Ret (with_connection w None, out)
  | EvSendInit => on_connection w (fun o =>
      do* (o, out) := BConnection_SendAsync_Init o in
      do* i := lift (send_iface o) in
      do* i := lift (StreamPassInterface_Sender_Init i) in
      Ret (with_send_iface o (Some i), out))
  | EvSend data => on_connection w (fun o =>
      do* i := lift (send_iface o) in
      do* i := lift (StreamPassInterface_Sender_Send i data (zlen data)) in
      Ret (with_send_iface o (Some i), [USend data]))
  | EvSendFree => on_connection w BConnection_SendAsync_Free
  | EvRecvInit => on_connection w (fun o =>
      do* (o, out) := BConnection_RecvAsync_Init o in
      do* i := lift (recv_iface o) in
      do* i := lift (StreamRecvInterface_Receiver_Init i) in
      Ret (with_recv_iface o (Some i), out))
  | EvRecv data avail => on_connection w (fun o =>
      do* i := lift (recv_iface o) in
      do* i := lift (StreamRecvInterface_Receiver_Recv i data avail) in
      Ret (with_recv_iface o (Some i), [URecv data avail]))
  | EvRecvFree => on_connection w BConnection_RecvAsync_Free
  | EvSendJob wa => on_connection w (fun o =>
      do* i := lift (send_iface o) in
      do* (i, x) := lift (StreamPassInterface_job_operation i) in
      do* data := lift (x.1) in
      connection_send_if_handler_send (with_send_iface o (Some i)) data (x.2) wa)
  | EvSendDoneJob => on_connection w (fun o =>
      do* i := lift (send_iface o) in
      do* (i, len) := lift (StreamPassInterface_job_done i) in
      Ret (with_send_iface o (Some i), [RSent len]))
  | EvRecvJob ra => on_connection w (fun o =>
      do* i := lift (recv_iface o) in
      do* (i, x) := lift (StreamRecvInterface_job_operation i) in
      do* data := lift (x.1) in
      connection_recv_if_handler_recv (with_recv_iface o (Some i)) data (x.2) ra)
  | EvRecvDoneJob => on_connection w (fun o =>
      do* i := lift (recv_iface o) in
      do* (i, len) := lift (StreamRecvInterface_job_done i) in
      Ret (with_recv_iface o (Some i), [RReceived len]))
  | EvStep now rounds so_error wa ra =>
      do* c := call_step now rounds in run_called w c so_error wa ra
  | EvSync ref wa ra =>
      do* p := call_sync ref in
      match p with Some p => run_job w p wa ra | None => Ret (w, []) end
  | EvOther o => do call o ;; Ret (w, [])
  end.

Fixpoint steps (w : world) (es : list event) : outcome :=
  match es with
  | [] => Ret (w, [])
  | e :: es =>
      do* (w, out) := step w e in
      do* (w, outs) := steps w es in
      Ret (w, out ++ outs)
  end.

(** ** What the users and the kernel see to *)

(** A socket that [epoll_wait] reported for an error, but not as ready, fails the next
    call: so no call succeeds while the event is still waited for. *)
Definition ready (o : BConnection) (event : Z) : bool := is_hupd o || negb (has (wait_events o) event).

Definition write_ok (o : BConnection) (len : Z) (w : write_answer) : bool :=
  match w with Wrote n => (0 <? n) && (n <=? len) && ready o BREACTOR_WRITE | _ => true end.
Definition read_ok (o : BConnection) (avail : Z) (r : read_answer) : bool :=
  match r with GotData data => (zlen data <=? avail) && ready o BREACTOR_READ | _ => true end.

(** The connection as its handler sees it. *)
Definition handled (o : BConnection) (events : Z) : BConnection :=
  let o := with_events o (Z.land (wait_events o) (Z.lnot events)) in
  if has events BREACTOR_HUP then with_hupd o else o.

Definition job_ok (w : world) (wa : write_answer) (ra : read_answer) : bool :=
  match connection w with
  | Some o => write_ok o (send_busy_data_len o) wa && read_ok o (recv_busy_data_avail o) ra
  | None => true
  end.
Definition called_ok (w : world) (c : called) (wa : write_answer) (ra : read_answer) : bool :=
  match c with
  | CJob _ => job_ok w wa ra
  | CFd bs events =>
      match connection w with
      | Some o => negb (bs =? bfd) || (write_ok (handled o events) (send_busy_data_len o) wa && read_ok (handled o events) (recv_busy_data_avail o) ra)
      | None => true
      end
  | _ => true
  end.

(** Calls of others: on their own objects. *)
Definition foreign (o : op) : bool :=
  match o with
  | FdInit bs _ | FdAdd bs _ | FdRemove bs | FdSetEvents bs _ => negb (bs =? connector_bfd) && negb (bs =? bfd)
  | LimitInit l _ | LimitFree l | LimitIncrement l | LimitSet l _ => negb (l =? send_limit) && negb (l =? recv_limit)
  | Job (JInit p) | Job (JFree p) | Job (JSet p) | Job (JUnset p) =>
      bool_decide (p <> connector_job) && bool_decide (p <> send_job) && bool_decide (p <> recv_job)
  | TimerInit _ _ _ | TimerSet _ _ _ _ | TimerRemove _ | Quit _ | JobIsSet _ => true
  | Job JExecute | Step _ _ | Sync _ => false
  end.

Definition usable (w : world) (f : BConnection -> bool) : bool :=
  match connection w with Some o => negb (errored o) && f o | None => false end.
Definition iface_is {A} (i : option (StreamInterface A)) (st : if_state) : bool :=
  match i with Some i => st_is (si_state i) st | None => false end.
Definition op_len {A} (i : option (StreamInterface A)) : Z := match i with Some i => si_job_operation_len i | None => 0 end.

(** After an error the connection must be freed before anything else is done. *)
Definition failed (w : world) : bool := match connection w with Some o => errored o | None => false end.

Definition enabled (s : rspec) (w : world) (e : event) : bool :=
  match e with
  | EvConnect _ fd _ _ _ => bool_decide (connector w = None) && match fd with Some fd => 0 <=? fd | None => true end
  | EvConnectorFree => bool_decide (connector w <> None)
  | EvInit _ => established w && bool_decide (connection w = None)
  | EvInitPipe fd _ _ => bool_decide (connection w = None) && (0 <=? fd)
  | EvFree =>
      match connection w with
      | Some o => bool_decide (send_state o = SEND_STATE_NOT_INITED) && bool_decide (recv_state o = RECV_STATE_NOT_INITED)
      | None => false
      end
  | EvSendInit => usable w (fun o => bool_decide (send_state o = SEND_STATE_NOT_INITED))
  | EvRecvInit => usable w (fun o => bool_decide (recv_state o = RECV_STATE_NOT_INITED))
  | EvSend data => usable w (fun o => iface_is (send_iface o) ST_NONE && (0 <? zlen data))
  | EvRecv _ avail => usable w (fun o => iface_is (recv_iface o) ST_NONE && (0 <? avail))
  | EvSendFree => match connection w with Some o => bool_decide (send_state o <> SEND_STATE_NOT_INITED) | None => false end
  | EvRecvFree => match connection w with Some o => bool_decide (recv_state o <> RECV_STATE_NOT_INITED) | None => false end
  | EvSendJob wa => usable w (fun o => iface_is (send_iface o) ST_OPERATION_PENDING && write_ok o (op_len (send_iface o)) wa)
  | EvRecvJob ra => usable w (fun o => iface_is (recv_iface o) ST_OPERATION_PENDING && read_ok o (op_len (recv_iface o)) ra)
  | EvSendDoneJob => usable w (fun o => iface_is (send_iface o) ST_DONE_PENDING)
  | EvRecvDoneJob => usable w (fun o => iface_is (recv_iface o) ST_DONE_PENDING)
  | EvStep now rounds _ wa ra =>
      negb (failed w) && op_legal s (Step now rounds) && called_ok w (spec_step s now rounds).1 wa ra
  | EvSync ref wa ra => negb (failed w) && op_legal s (Sync ref) && job_ok w wa ra
  | EvOther o => op_legal s o && foreign o
  end.

Fixpoint legal (s : rspec) (w : world) (es : list event) : bool :=
  match es with
  | [] => true
  | e :: es =>
      enabled s w e &&
      match interp s (step w e) with
      | Some ((w', _), s') => legal s' w' es
      | None => true
      end
  end.
End Connections.
