(* ===== verification/ConnectionProps.v ===== *)
(** * Connections are safe, exact and never stuck

    The invariant of a connector and a connection over the specification of the
    reactor, and what it gives on the reactor itself through [ReactorPort]. *)

From S2P Require Import Prelude Flow Device LinkedLists BPending Timers Reactor ReactorSpec ReactorPort Connection.

(** ** Addresses *)

Lemma addr_roundtrip a sys : addr_socket_to_sys a = Some sys -> addr_sys_to_socket sys = Some a.
Proof. by destruct a; intros [= <-]. Qed.

Lemma addr_supported a : is_Some (addr_socket_to_sys a) <-> BConnection_AddressSupported a = true.
Proof. destruct a; simpl; split; try done; by intros []. Qed.

(** ** The traffic that is observed

    Each side of a connection is idle, has an operation of its user, or has finished it
    and not reported yet. *)

Inductive send_side := SNone | SIdle | SBusy (data : list Z) | SDone (len : Z).
Inductive recv_side := RNone | RIdle | RBusy (to avail : Z) | RDone (len : Z) | RClosed.

Abbreviation port := (send_side * recv_side)%type.

(** What may happen: a non-empty prefix of the data is written, once, and its length
    reported; data is read into the user's buffer, once, not more than fits, and its
    length reported; or the end, and then no more. *)
Definition accept1 (q : port) (x : obs) : option port :=
  match x, q with
  | USendInit, (SNone, r) => Some (SIdle, r)
  | USend data, (SIdle, r) => Some (SBusy data, r)
  | KWrite data, (SBusy all, r) =>
      ASSERT (0 <? zlen data) ;; ASSERT (bool_decide (data = take (length data) all)) ;; Some (SDone (zlen data), r)
  | RSent len, (SDone n, r) => ASSERT (len =? n) ;; Some (SIdle, r)
  | USendFree, (SNone, _) => None
  | USendFree, (_, r) => Some (SNone, r)
  | URecvInit, (s, RNone) => Some (s, RIdle)
  | URecv to avail, (s, RIdle) => Some (s, RBusy to avail)
  | KRead to data, (s, RBusy to' avail) =>
      ASSERT (to =? to') ;; ASSERT (0 <? zlen data) ;; ASSERT (zlen data <=? avail) ;; Some (s, RDone (zlen data))
  | RReceived len, (s, RDone n) => ASSERT (len =? n) ;; Some (s, RIdle)
  | RRecvClosed, (s, RBusy _ _) => Some (s, RClosed)
  | URecvFree, (_, RNone) => None
  | URecvFree, (s, _) => Some (s, RNone)
  | KSocket _, _ | KClose _, _ | RConnector _, _ | RError, _ => Some q
  | _, _ => None
  end.

Fixpoint accept (q : port) (l : list obs) : option port :=
  match l with [] => Some q | x :: l => let* q := accept1 q x in accept q l end.

Lemma accept_app l l' : forall q, accept q (l ++ l') = let* q := accept q l in accept q l'.
Proof. induction l as [|x l IH]; intros q; simpl; [done|]. by destruct (accept1 q x). Qed.

(** Sockets opened and closed. *)
Definition balance1 (fd : Z) (x : obs) : Z :=
  match x with KSocket f => Z.b2z (f =? fd) | KClose f => - Z.b2z (f =? fd) | _ => 0 end.
Fixpoint balance (fd : Z) (l : list obs) : Z := match l with [] => 0 | x :: l => balance1 fd x + balance fd l end.

Lemma balance_app fd l l' : balance fd (l ++ l') = balance fd l + balance fd l'.
Proof. induction l as [|x l IH]; simpl; [done|]. lia. Qed.

Definition held (w : world) (fd : Z) : Z :=
  (match connector w with Some c => Z.b2z (co_fd c =? fd) | None => 0 end) +
  (match connection w with Some o => Z.b2z (close_fd o && (con_fd o =? fd)) | None => 0 end).

Definition send_side_of (o : BConnection) : send_side :=
  match send_state o, send_iface o with
  | SEND_STATE_BUSY, _ => SBusy (send_busy_data o)
  | SEND_STATE_READY, Some i =>
      match si_state i with
      | ST_OPERATION_PENDING => SBusy (default [] (si_job_operation_data i))
      | ST_DONE_PENDING => SDone (si_job_done_len i)
      | _ => SIdle
      end
  | _, _ => SNone
  end.
Definition recv_side_of (o : BConnection) : recv_side :=
  match recv_state o, recv_iface o with
  | RECV_STATE_BUSY, _ => RBusy (default 0 (recv_busy_data o)) (recv_busy_data_avail o)
  | RECV_STATE_READY, Some i =>
      match si_state i with
      | ST_OPERATION_PENDING => RBusy (default 0 (si_job_operation_data i)) (si_job_operation_len i)
      | ST_DONE_PENDING => RDone (si_job_done_len i)
      | _ => RIdle
      end
  | RECV_STATE_INITED_CLOSED, _ => RClosed
  | _, _ => RNone
  end.
Definition port_of (w : world) : port :=
  match connection w with Some o => (send_side_of o, recv_side_of o) | None => (SNone, RNone) end.

Section Props.
Context (connector_bfd bfd send_limit recv_limit : Z) (connector_job send_job recv_job : addr).

(** ** What the reactor knows of these objects *)

Record view := mkView {
  v_cfd : option Z;          (* the events waited for, when active *)
  v_fd : option Z;
  v_sl : option Z;           (* the limits *)
  v_rl : option Z;
  v_cj : option bool;        (* initialised jobs: whether they are set *)
  v_sj : option bool;
  v_rj : option bool
}.

Definition fd_view (s : rspec) (bs : Z) : option Z := match s_fds s !! bs with Some x => x | None => None end.
Definition limit_view (s : rspec) (l : Z) : option Z := fst <$> s_limits s !! l.
Definition job_view (s : rspec) (p : addr) : option bool := if decide (p ∈ objs (s_jobs s)) then Some (bool_decide (p ∈ stack (s_jobs s))) else None.
Definition look (s : rspec) : view :=
  mkView (fd_view s connector_bfd) (fd_view s bfd) (limit_view s send_limit) (limit_view s recv_limit)
    (job_view s connector_job) (job_view s send_job) (job_view s recv_job).

Definition jobs_ok (s : rspec) : Prop := NoDup (stack (s_jobs s)) /\ forall p, p ∈ stack (s_jobs s) -> p ∈ objs (s_jobs s).

Definition set_cfd (v : view) x := mkView x (v_fd v) (v_sl v) (v_rl v) (v_cj v) (v_sj v) (v_rj v).
Definition set_fd (v : view) x := mkView (v_cfd v) x (v_sl v) (v_rl v) (v_cj v) (v_sj v) (v_rj v).
Definition set_sl (v : view) x := mkView (v_cfd v) (v_fd v) x (v_rl v) (v_cj v) (v_sj v) (v_rj v).
Definition set_rl (v : view) x := mkView (v_cfd v) (v_fd v) (v_sl v) x (v_cj v) (v_sj v) (v_rj v).
Definition set_cj (v : view) x := mkView (v_cfd v) (v_fd v) (v_sl v) (v_rl v) x (v_sj v) (v_rj v).
Definition set_sj (v : view) x := mkView (v_cfd v) (v_fd v) (v_sl v) (v_rl v) (v_cj v) x (v_rj v).
Definition set_rj (v : view) x := mkView (v_cfd v) (v_fd v) (v_sl v) (v_rl v) (v_cj v) (v_sj v) x.

(** The objects are different ones. *)
Hypothesis (Hfds : connector_bfd <> bfd) (Hlims : send_limit <> recv_limit).
Hypothesis (Hj1 : connector_job <> send_job) (Hj2 : connector_job <> recv_job) (Hj3 : send_job <> recv_job).

Lemma fd_view_insert s es bs x bs' : fd_view (su_fds s es (<[bs := x]> (s_fds s))) bs' = if decide (bs' = bs) then x else fd_view s bs'.
Proof. unfold fd_view. cbn [s_fds su_fds]. destruct (decide (bs' = bs)) as [->|]; [by rewrite lookup_insert_eq|by rewrite lookup_insert_ne]. Qed.

Lemma active_view s bs : is_active s bs = bool_decide (fd_view s bs <> None).
Proof. unfold is_active, fd_view. destruct (s_fds s !! bs) as [[]|]; done. Qed.

Lemma limit_view_insert s l x l' : limit_view (su_limits s (<[l := x]> (s_limits s))) l' = if decide (l' = l) then Some (x.1) else limit_view s l'.
Proof. unfold limit_view. cbn [s_limits su_limits]. destruct (decide (l' = l)) as [->|]; [by rewrite lookup_insert_eq|by rewrite lookup_insert_ne]. Qed.

Lemma limit_view_delete s l l' : limit_view (su_limits s (delete l (s_limits s))) l' = if decide (l' = l) then None else limit_view s l'.
Proof. unfold limit_view. cbn [s_limits su_limits]. destruct (decide (l' = l)) as [->|]; [by rewrite lookup_delete_eq|by rewrite lookup_delete_ne]. Qed.

(** What a job operation makes of a job. *)
Definition job_after (j : job_op) (p : addr) (x : option bool) : option bool :=
  match j with
  | JInit q => if decide (p = q) then Some false else x
  | JFree q => if decide (p = q) then None else x
  | JSet q => if decide (p = q) then Some true else x
  | JUnset q => if decide (p = q) then Some false else x
  | JExecute => x
  end.

Lemma without_NoDup q l : NoDup l -> NoDup (without q l).
Proof. apply list.NoDup_filter. Qed.

Lemma job_view_exec s j js outs p : jobs_ok s -> j <> JExecute -> spec_exec (s_jobs s) j = Some (js, outs) ->
  job_view (su_jobs s js) p = job_after j p (job_view s p) /\ jobs_ok (su_jobs s js).
Proof.
  intros [Hd Hs] Hj E. unfold job_view, jobs_ok. cbn [s_jobs su_jobs]. destruct j as [q|q|q|q|]; [| | | |done]; simpl in E;
    destruct (decide (q ∈ objs (s_jobs s))) as [Hq|Hq]; try done; injection E as <- _; cbn [objs stack job_after].
  - split; [|split; [done|intros x Hx; apply elem_of_union; right; by apply Hs]].
    destruct (decide (p = q)) as [->|Hne].
    + rewrite decide_True by set_solver. f_equal. apply bool_decide_eq_false. intros H. apply Hq, Hs, H.
    + destruct (decide (p ∈ objs (s_jobs s))); [rewrite decide_True by set_solver|rewrite decide_False by set_solver]; done.
  - split; [|split; [by apply without_NoDup|intros x [Hx Hne]%elem_of_without; apply elem_of_difference; split; [by apply Hs|set_solver]]].
    destruct (decide (p = q)) as [->|Hne]; [by rewrite decide_False by set_solver|].
    destruct (decide (p ∈ objs (s_jobs s))); [rewrite decide_True by set_solver|by rewrite decide_False by set_solver].
    f_equal. apply bool_decide_ext. rewrite elem_of_without. tauto.
  - split; [|split; [constructor; [rewrite elem_of_without; tauto|by apply without_NoDup]|intros x [->|Hx]%elem_of_cons; [done|apply elem_of_without in Hx as [Hx _]; by apply Hs]]].
    destruct (decide (p = q)) as [->|Hne]; [rewrite decide_True by done; f_equal; apply bool_decide_eq_true; by left|].
    destruct (decide (p ∈ objs (s_jobs s))); [|done]. f_equal. apply bool_decide_ext. rewrite elem_of_cons, elem_of_without. tauto.
  - split; [|split; [by apply without_NoDup|intros x [Hx _]%elem_of_without; by apply Hs]].
    destruct (decide (p = q)) as [->|Hne].
    + rewrite decide_True by done. f_equal. apply bool_decide_eq_false. rewrite elem_of_without. tauto.
    + destruct (decide (p ∈ objs (s_jobs s))); [|done]. f_equal. apply bool_decide_ext. rewrite elem_of_without. tauto.
Qed.

(** ** The calls *)

Ltac decide_all := repeat (case_decide; try (exfalso; congruence)).
Ltac look_fd := unfold look, set_fd, set_cfd; rewrite !fd_view_insert; decide_all; reflexivity.
Ltac look_lim := unfold look, set_sl, set_rl; rewrite ?limit_view_insert, ?limit_view_delete; decide_all; reflexivity.

Lemma look_set_fd s es x : look (su_fds s es (<[bfd := x]> (s_fds s))) = set_fd (look s) x.
Proof. look_fd. Qed.
Lemma look_set_cfd s es x : look (su_fds s es (<[connector_bfd := x]> (s_fds s))) = set_cfd (look s) x.
Proof. look_fd. Qed.

Lemma events_legal e : 0 <= e <= 3 -> (Z.land e (Z.lnot (Z.lor BREACTOR_READ BREACTOR_WRITE)) =? 0) = true.
Proof. intros H. assert (e = 0 \/ e = 1 \/ e = 2 \/ e = 3) as [-> | [-> | [-> | ->]]] by lia; reflexivity. Qed.

Lemma wp_events s e w Q : v_fd (look s) = Some w -> 0 <= e <= 3 -> jobs_ok s ->
  (forall s', jobs_ok s' -> look s' = set_fd (look s) (Some e) -> Q tt s') -> wp s (call (FdSetEvents bfd e)) Q.
Proof.
  intros Hv He Hj H. split; [|apply H; [done|apply look_set_fd]]. cbn [op_legal]. rewrite active_view. cbn in Hv. rewrite Hv. by apply events_legal.
Qed.

Lemma wp_cevents s e w Q : v_cfd (look s) = Some w -> 0 <= e <= 3 -> jobs_ok s ->
  (forall s', jobs_ok s' -> look s' = set_cfd (look s) (Some e) -> Q tt s') -> wp s (call (FdSetEvents connector_bfd e)) Q.
Proof.
  intros Hv He Hj H. split; [|apply H; [done|apply look_set_cfd]]. cbn [op_legal]. rewrite active_view. cbn in Hv. rewrite Hv. by apply events_legal.
Qed.

Lemma wp_remove s w Q : v_fd (look s) = Some w -> jobs_ok s ->
  (forall s', jobs_ok s' -> look s' = set_fd (look s) None -> Q tt s') -> wp s (call (FdRemove bfd)) Q.
Proof. intros Hv Hj H. split; [|apply H; [done|apply look_set_fd]]. cbn [op_legal]. rewrite active_view. cbn in Hv. by rewrite Hv. Qed.

Lemma wp_cremove s w Q : v_cfd (look s) = Some w -> jobs_ok s ->
  (forall s', jobs_ok s' -> look s' = set_cfd (look s) None -> Q tt s') -> wp s (call (FdRemove connector_bfd)) Q.
Proof. intros Hv Hj H. split; [|apply H; [done|apply look_set_cfd]]. cbn [op_legal]. rewrite active_view. cbn in Hv. by rewrite Hv. Qed.

(** [BFileDescriptor_Init] and [BReactor_AddFileDescriptor] *)
Lemma wp_add {A} s f (ok : bool) (k : bool -> prog A) Q : v_fd (look s) = None -> jobs_ok s ->
  (forall s', jobs_ok s' -> look s' = set_fd (look s) (if ok then Some 0 else None) -> wp s' (k ok) Q) ->
  wp s (do call (FdInit bfd f) ;; do* ok := call_bool (FdAdd bfd ok) in k ok) Q.
Proof.
  intros Hv Hj H. cbn in Hv. cbn [pbind call call_bool wp spec_op fst snd op_legal]. split; [rewrite active_view, Hv; done|].
  split; [apply bool_decide_eq_true; apply lookup_insert_eq|]. apply H; [by destruct ok|]. destruct ok; [|by rewrite look_set_fd].
  rewrite look_set_fd, look_set_fd. done.
Qed.

Lemma wp_cadd {A} s f (ok : bool) (k : bool -> prog A) Q : v_cfd (look s) = None -> jobs_ok s ->
  (forall s', jobs_ok s' -> look s' = set_cfd (look s) (if ok then Some 0 else None) -> wp s' (k ok) Q) ->
  wp s (do call (FdInit connector_bfd f) ;; do* ok := call_bool (FdAdd connector_bfd ok) in k ok) Q.
Proof.
  intros Hv Hj H. cbn in Hv. cbn [pbind call call_bool wp spec_op fst snd op_legal]. split; [rewrite active_view, Hv; done|].
  split; [apply bool_decide_eq_true; apply lookup_insert_eq|]. apply H; [by destruct ok|]. destruct ok; [|by rewrite look_set_cfd].
  rewrite look_set_cfd, look_set_cfd. done.
Qed.

Lemma limit_some s l x : limit_view s l = Some x -> exists n, s_limits s !! l = Some (x, n).
Proof. unfold limit_view. destruct (s_limits s !! l) as [[y n]|]; [|done]. simpl. intros [= ->]. eauto. Qed.

Lemma wp_increment {A} s l (k : bool -> prog A) Q x : limit_view s l = Some x -> jobs_ok s ->
  (forall s' b, jobs_ok s' -> look s' = look s -> wp s' (k b) Q) -> wp s (do* b := call_bool (LimitIncrement l) in k b) Q.
Proof.
  intros Hv Hj H. apply limit_some in Hv as (n & E). cbn [pbind call_bool wp spec_op op_legal]. split; [apply bool_decide_eq_true; by eexists|].
  rewrite E. destruct (n <? x); cbn [fst snd]; apply H; [done| |done|done].
  unfold look. rewrite !limit_view_insert. cbn [fst]. unfold limit_view.
  destruct (decide (send_limit = l)) as [->|], (decide (recv_limit = l)) as [->|]; rewrite ?E; done.
Qed.

Lemma wp_limits {A} s (k : prog A) Q : v_sl (look s) = None -> v_rl (look s) = None -> jobs_ok s ->
  (forall s', jobs_ok s' -> look s' = set_sl (set_rl (look s) (Some BCONNECTION_RECV_LIMIT)) (Some BCONNECTION_SEND_LIMIT) -> wp s' k Q) ->
  wp s (do call (LimitInit send_limit BCONNECTION_SEND_LIMIT) ;; do call (LimitInit recv_limit BCONNECTION_RECV_LIMIT) ;; k) Q.
Proof.
  intros H1 H2 Hj H. cbn in H1, H2. unfold limit_view in H1, H2. apply fmap_None in H1, H2. cbn [pbind call wp spec_op fst snd op_legal].
  split; [rewrite H1; done|]. split; [cbn [s_limits su_limits]; rewrite lookup_insert_ne by done; by rewrite H2|]. apply H; [done|]. look_lim.
Qed.

Lemma wp_limits_free {A} s (k : prog A) Q : v_sl (look s) <> None -> v_rl (look s) <> None -> jobs_ok s ->
  (forall s', jobs_ok s' -> look s' = set_sl (set_rl (look s) None) None -> wp s' k Q) ->
  wp s (do call (LimitFree recv_limit) ;; do call (LimitFree send_limit) ;; k) Q.
Proof.
  intros H1 H2 Hj H. cbn in H1, H2. unfold limit_view in H1, H2. cbn [pbind call wp spec_op fst snd op_legal].
  split; [apply bool_decide_eq_true; by destruct (s_limits s !! recv_limit); [eexists|]|].
  split; [cbn [s_limits su_limits]; rewrite lookup_delete_ne by done; apply bool_decide_eq_true; by destruct (s_limits s !! send_limit); [eexists|]|].
  apply H; [done|]. look_lim.
Qed.

Lemma wp_job s j Q : j <> JExecute -> is_Some (spec_exec (s_jobs s) j) -> jobs_ok s ->
  (forall s', jobs_ok s' -> look s' = mkView (v_cfd (look s)) (v_fd (look s)) (v_sl (look s)) (v_rl (look s))
     (job_after j connector_job (v_cj (look s))) (job_after j send_job (v_sj (look s))) (job_after j recv_job (v_rj (look s))) -> Q tt s') ->
  wp s (call (Job j)) Q.
Proof.
  intros Hj [[js outs] E] Hok H. cbn [pbind call wp spec_op fst snd op_legal]. rewrite E. split; [by destruct j|]. apply H.
  - by eapply job_view_exec.
  - unfold look. cbn [v_cfd v_fd v_sl v_rl v_cj v_sj v_rj]. f_equal; by eapply job_view_exec.
Qed.

Lemma job_ready s p : job_view s p <> None -> forall j, j = JFree p \/ j = JSet p \/ j = JUnset p -> is_Some (spec_exec (s_jobs s) j).
Proof. unfold job_view. destruct (decide _) as [Hp|]; [|done]. intros _ j [-> | [-> | ->]]; simpl; rewrite decide_True by done; eauto. Qed.

Lemma job_absent s p : job_view s p = None -> is_Some (spec_exec (s_jobs s) (JInit p)).
Proof. unfold job_view. destruct (decide _) as [Hp|Hp]; [done|]. intros _. simpl. rewrite decide_False by done. eauto. Qed.

(** One of these objects' jobs. *)
Ltac job_tac s p Hv H := apply wp_job; [done| |done|];
  [first [exact (job_absent s p Hv) | apply (job_ready s p Hv); tauto]|intros s' Hok' Hl'; apply H; [done|]; rewrite Hl'; unfold job_after, set_cj, set_sj, set_rj;
   decide_all; reflexivity].

Lemma wp_cinit s Q : v_cj (look s) = None -> jobs_ok s ->
  (forall s', jobs_ok s' -> look s' = set_cj (look s) (Some false) -> Q tt s') -> wp s (call (Job (JInit connector_job))) Q.
Proof. intros Hv Hok H. job_tac s connector_job Hv H. Qed.
Lemma wp_cfree s Q : v_cj (look s) <> None -> jobs_ok s ->
  (forall s', jobs_ok s' -> look s' = set_cj (look s) None -> Q tt s') -> wp s (call (Job (JFree connector_job))) Q.
Proof. intros Hv Hok H. job_tac s connector_job Hv H. Qed.
Lemma wp_cset s Q : v_cj (look s) <> None -> jobs_ok s ->
  (forall s', jobs_ok s' -> look s' = set_cj (look s) (Some true) -> Q tt s') -> wp s (call (Job (JSet connector_job))) Q.
Proof. intros Hv Hok H. job_tac s connector_job Hv H. Qed.
Lemma wp_sinit s Q : v_sj (look s) = None -> jobs_ok s ->
  (forall s', jobs_ok s' -> look s' = set_sj (look s) (Some false) -> Q tt s') -> wp s (call (Job (JInit send_job))) Q.
Proof. intros Hv Hok H. job_tac s send_job Hv H. Qed.
Lemma wp_sfree s Q : v_sj (look s) <> None -> jobs_ok s ->
  (forall s', jobs_ok s' -> look s' = set_sj (look s) None -> Q tt s') -> wp s (call (Job (JFree send_job))) Q.
Proof. intros Hv Hok H. job_tac s send_job Hv H. Qed.
Lemma wp_rinit s Q : v_rj (look s) = None -> jobs_ok s ->
  (forall s', jobs_ok s' -> look s' = set_rj (look s) (Some false) -> Q tt s') -> wp s (call (Job (JInit recv_job))) Q.
Proof. intros Hv Hok H. job_tac s recv_job Hv H. Qed.
Lemma wp_rfree s Q : v_rj (look s) <> None -> jobs_ok s ->
  (forall s', jobs_ok s' -> look s' = set_rj (look s) None -> Q tt s') -> wp s (call (Job (JFree recv_job))) Q.
Proof. intros Hv Hok H. job_tac s recv_job Hv H. Qed.
Lemma wp_rset s Q : v_rj (look s) <> None -> jobs_ok s ->
  (forall s', jobs_ok s' -> look s' = set_rj (look s) (Some true) -> Q tt s') -> wp s (call (Job (JSet recv_job))) Q.
Proof. intros Hv Hok H. job_tac s recv_job Hv H. Qed.

(** ** Others' calls, and the loop *)

Lemma foreign_ok s o : foreign connector_bfd bfd send_limit recv_limit connector_job send_job recv_job o = true -> op_legal s o = true -> jobs_ok s ->
  jobs_ok (spec_op s o).2 /\ look (spec_op s o).2 = look s.
Proof.
  intros Hf Hl Hok. destruct o as [| | |bs f|bs ok|bs|bs e|l lim|l|l|l lim|j|code| | |p]; try done; cbn [foreign op_legal] in Hf, Hl; cbn [spec_op snd].
  1-4: split; [by (destruct ok || idtac)|]; try (destruct ok; [|done]); apply andb_true_iff in Hf as [H1%negb_true_iff%Z.eqb_neq H2%negb_true_iff%Z.eqb_neq];
    unfold look; rewrite !fd_view_insert; decide_all; reflexivity.
  - apply andb_true_iff in Hf as [H1%negb_true_iff%Z.eqb_neq H2%negb_true_iff%Z.eqb_neq]. split; [done|]. unfold look. rewrite !limit_view_insert. by decide_all.
  - apply andb_true_iff in Hf as [H1%negb_true_iff%Z.eqb_neq H2%negb_true_iff%Z.eqb_neq]. split; [done|]. unfold look. rewrite !limit_view_delete. by decide_all.
  - apply andb_true_iff in Hf as [H1%negb_true_iff%Z.eqb_neq H2%negb_true_iff%Z.eqb_neq]. destruct (s_limits s !! l) as [[lim n]|]; [|done].
    destruct (n <? lim); [|done]. split; [done|]. unfold look. cbn [snd]. rewrite !limit_view_insert. by decide_all.
  - apply andb_true_iff in Hf as [H1%negb_true_iff%Z.eqb_neq H2%negb_true_iff%Z.eqb_neq]. destruct (s_limits s !! l) as [[lim' n]|]; [|by destruct s].
    split; [done|]. unfold look. rewrite !limit_view_insert. by decide_all.
  - destruct (spec_exec (s_jobs s) j) as [[js outs]|] eqn:E; [|done]. assert (j <> JExecute) as Hj by by intros ->.
    pose proof (fun p => job_view_exec s j js outs p Hok Hj E) as H. split; [apply (H connector_job)|]. unfold look. f_equal;
      rewrite (proj1 (H _)); destruct j; try done; cbn [job_after foreign] in *;
      rewrite !andb_true_iff, !bool_decide_eq_true in Hf; destruct Hf as [[? ?] ?]; by decide_all.
Qed.

Definition ran (p q : addr) (x : option bool) : option bool := if decide (q = p) then Some false else x.
Definition look_ran (p : addr) (v : view) : view :=
  mkView (v_cfd v) (v_fd v) (v_sl v) (v_rl v) (ran p connector_job (v_cj v)) (ran p send_job (v_sj v)) (ran p recv_job (v_rj v)).

Lemma run_top s p l : stack (s_jobs s) = p :: l -> jobs_ok s ->
  jobs_ok (su_jobs s (mkJobs (objs (s_jobs s)) l)) /\ look (su_jobs s (mkJobs (objs (s_jobs s)) l)) = look_ran p (look s) /\
  (p ∈ objs (s_jobs s)) /\ (p ∈ stack (s_jobs s)).
Proof.
  intros E [Hd Hs]. rewrite E in Hd, Hs. apply list.NoDup_cons in Hd as [Hn Hd]. assert (p ∈ objs (s_jobs s)) as Hp by (apply Hs; by left).
  assert (forall q, job_view (su_jobs s (mkJobs (objs (s_jobs s)) l)) q = ran p q (job_view s q)) as H.
  { intros q. unfold job_view, ran. cbn [s_jobs su_jobs objs stack]. rewrite E. destruct (decide (q = p)) as [->|Hne].
    - rewrite decide_True by done. f_equal. by apply bool_decide_eq_false.
    - destruct (decide _); [|done]. f_equal. apply bool_decide_ext. rewrite elem_of_cons. tauto. }
  split; [split; [done|intros q Hq; apply Hs; by right]|]. split; [|split; [done|rewrite E; by left]]. unfold look, look_ran. f_equal; apply H.
Qed.

Lemma job_set s p : (p ∈ objs (s_jobs s)) -> (p ∈ stack (s_jobs s)) -> job_view s p = Some true.
Proof. intros Ho Hs. unfold job_view. rewrite decide_True by done. f_equal. by apply bool_decide_eq_true. Qed.

Lemma limit_view_reset s s' l : s_limits s' = reset_counts (s_limits s) -> limit_view s' l = limit_view s l.
Proof. intros E. unfold limit_view. rewrite E. unfold reset_counts. rewrite lookup_fmap. by destruct (s_limits s !! l). Qed.

Lemma no_jobs_view s p : stack (s_jobs s) = [] -> job_view s p <> Some true.
Proof. intros E. unfold job_view. rewrite E. by destruct (decide _). Qed.

Lemma wait_look s now rounds : look (spec_wait s now rounds).2 = look s /\ (jobs_ok s -> jobs_ok (spec_wait s now rounds).2) /\
  match (spec_wait s now rounds).1 with CWaited _ | CWaiting _ => True | _ => False end.
Proof.
  unfold spec_wait. destruct (match first_deadline _ with Some _ => _ | None => _ end); [done|].
  destruct (rounds_end _ _ _) as [ts []]; cbn [fst snd]; (split; [|done]); unfold look; [..|done]; f_equal; by apply limit_view_reset.
Qed.

(** The bits of the events: what the handler may be told. *)
Definition reported (w ev : Z) : Prop :=
  0 < ev <= 15 /\ (has ev BREACTOR_READ = true -> has w BREACTOR_READ = true) /\ (has ev BREACTOR_WRITE = true -> has w BREACTOR_WRITE = true).

Lemma reported_events w e : events_to_report w e <> 0 -> reported w (events_to_report w e).
Proof.
  unfold reported, events_to_report, has. destruct (Z.eqb_spec (Z.land w BREACTOR_READ) 0) as [H1|H1], (Z.eqb_spec (Z.land w BREACTOR_WRITE) 0) as [H2|H2];
    rewrite ?H1, ?H2; destruct (EPOLLIN e), (EPOLLOUT e), (EPOLLERR e), (EPOLLHUP e); cbn; intros H; split_and!; done.
Qed.

Lemma step_look s now rounds : jobs_ok s -> jobs_ok (spec_step s now rounds).2 /\
  match (spec_step s now rounds).1 with
  | CJob p => look (spec_step s now rounds).2 = look_ran p (look s) /\ job_view s p = Some true
  | CFd bs ev => look (spec_step s now rounds).2 = look s /\ (forall p, job_view s p <> Some true) /\ exists w, fd_view s bs = Some w /\ reported w ev
  | _ => look (spec_step s now rounds).2 = look s
  end.
Proof.
  intros Hok. unfold spec_step. destruct (s_exiting s); [done|]. destruct (stack (s_jobs s)) as [|p l] eqn:Es.
  2: { destruct (run_top s p l Es Hok) as (H1 & H2 & H3 & H4). split; [done|]. split; [done|]. by apply job_set. }
  destruct (expired (s_timers s)); [|done]. destruct (s_results s) as [|e es].
  { destruct (wait_look s now rounds) as (H1 & H2 & H3). split; [by apply H2|]. destruct (spec_wait s now rounds).1; done. }
  destruct (data_ptr e) as [bs|]; [|done]. cbn [s_fds su_fds]. destruct (Z.eqb_spec (match s_fds s !! bs with Some (Some w) => events_to_report w e | _ => 0 end) 0) as [|H]; [done|].
  split; [done|]. split; [done|]. split; [intros p; by apply no_jobs_view|]. unfold fd_view. destruct (s_fds s !! bs) as [[w|]|]; [|done..].
  exists w. split; [done|]. by apply reported_events.
Qed.

(** ** The invariant *)

Definition idle_iface {A} (i : StreamInterface A) : Prop :=
  si_handler_done i = true /\ si_state i <> ST_BUSY /\ (si_state i = ST_OPERATION_PENDING -> exists d, si_job_operation_data i = Some d /\ 0 < si_job_operation_len i).

Definition send_inv (v : view) (o : BConnection) : Prop :=
  match send_state o with
  | SEND_STATE_NOT_INITED => v_sj v = None /\ send_iface o = None
  | SEND_STATE_READY => v_sj v = Some false /\ exists i, send_iface o = Some i /\ idle_iface i /\
      (si_state i = ST_OPERATION_PENDING -> si_job_operation_len i = zlen (default [] (si_job_operation_data i)))
  | SEND_STATE_BUSY => v_sj v = Some false /\ exists i, send_iface o = Some i /\ si_handler_done i = true /\ si_state i = ST_BUSY /\
      0 < send_busy_data_len o /\ send_busy_data_len o = si_job_operation_len i /\ send_busy_data_len o = zlen (send_busy_data o)
  end.

Definition recv_inv (v : view) (o : BConnection) : Prop :=
  match recv_state o with
  | RECV_STATE_NOT_INITED => v_rj v = None /\ recv_iface o = None
  | RECV_STATE_READY => v_rj v = Some false /\ exists i, recv_iface o = Some i /\ idle_iface i
  | RECV_STATE_BUSY => v_rj v <> None /\ exists i to, recv_iface o = Some i /\ si_handler_done i = true /\ si_state i = ST_BUSY /\
      recv_busy_data o = Some to /\ 0 < recv_busy_data_avail o /\ recv_busy_data_avail o = si_job_operation_len i
  | RECV_STATE_INITED_CLOSED => v_rj v = Some false /\ exists i, recv_iface o = Some i /\ si_state i = ST_BUSY
  | RECV_STATE_NOT_INITED_CLOSED => False
  end.

(** An operation in progress is continued by an event or a job. *)
Definition not_stuck (v : view) (o : BConnection) : Prop :=
  (send_state o = SEND_STATE_BUSY -> is_hupd o = false /\ has (wait_events o) BREACTOR_WRITE = true) /\
  (recv_state o = RECV_STATE_BUSY -> v_rj v = Some true \/ (is_hupd o = false /\ has (wait_events o) BREACTOR_READ = true)).

(** The reactor waits only for what is in progress. *)
Definition waits_in_progress (o : BConnection) : Prop :=
  is_hupd o = false ->
  (has (wait_events o) BREACTOR_WRITE = true -> send_state o = SEND_STATE_BUSY) /\
  (has (wait_events o) BREACTOR_READ = true -> recv_state o = RECV_STATE_BUSY).

Record con_base (v : view) (o : BConnection) : Prop := {
  cb_fd : v_fd v = if is_hupd o then None else Some (wait_events o);
  cb_events : 0 <= wait_events o <= 3;
  cb_limits : v_sl v = Some BCONNECTION_SEND_LIMIT /\ v_rl v = Some BCONNECTION_RECV_LIMIT;
  cb_send : send_inv v o;
  cb_recv : recv_inv v o
}.

Definition con_inv (v : view) (o : BConnection) : Prop :=
  con_base v o /\ (errored o = false -> not_stuck v o /\ waits_in_progress o).

Definition connector_inv (v : view) (w : world) : Prop :=
  match connector w with
  | None => v_cfd v = None /\ v_cj v = None /\ established w = false
  | Some c =>
      if have_bfd c then is_Some (v_cfd v) /\ v_cj v = Some false /\ connected c = false /\ 0 <= co_fd c /\ established w = false
      else v_cfd v = None /\ (v_cj v = Some true -> connected c = true /\ 0 <= co_fd c /\ established w = false) /\ v_cj v <> None /\
           (established w = true -> connected c = true /\ 0 <= co_fd c) /\ -1 <= co_fd c
  end.

Definition connection_inv (v : view) (w : world) : Prop :=
  match connection w with
  | None => v_fd v = None /\ v_sl v = None /\ v_rl v = None /\ v_sj v = None /\ v_rj v = None
  | Some o => con_inv v o
  end.

Definition inv (v : view) (w : world) : Prop := connector_inv v w /\ connection_inv v w.

(** What a step of the world does: the invariant, the traffic, the sockets. *)
Definition result_ok (w : world) (x : world * list obs) (s : rspec) : Prop :=
  jobs_ok s /\ inv (look s) (x.1) /\ accept (port_of w) (x.2) = Some (port_of (x.1)) /\ forall fd, 0 <= fd -> balance fd (x.2) = held (x.1) fd - held w fd.

(** A step of the connection alone: what a handler of it does. *)
Definition same_others (v v' : view) : Prop := v_cfd v' = v_cfd v /\ v_cj v' = v_cj v.
Definition con_ok (v : view) (o : BConnection) (x : BConnection * list obs) (s : rspec) : Prop :=
  jobs_ok s /\ same_others v (look s) /\ con_inv (look s) (x.1) /\
  accept (send_side_of o, recv_side_of o) (x.2) = Some (send_side_of (x.1), recv_side_of (x.1)) /\
  con_fd (x.1) = con_fd o /\ close_fd (x.1) = close_fd o /\ forall fd, balance fd (x.2) = 0.

Lemma connector_inv_ext v v' w w' : same_others v v' -> connector w' = connector w -> established w' = established w -> connector_inv v w -> connector_inv v' w'.
Proof. intros [H1 H2] E1 E2. unfold connector_inv. by rewrite H1, H2, E1, E2. Qed.

(** From the connection's step to the world's. *)
Lemma on_connection_ok s w o f : connection w = Some o -> connector_inv (look s) w ->
  wp s (f o) (con_ok (look s) o) -> wp s (on_connection w f) (result_ok w).
Proof.
  intros E Hc H. unfold on_connection. rewrite E. cbn [lift pbind]. apply wp_bind. eapply wp_mono; [|exact H].
  intros [o' out] s' (Hj & Hs & Hi & Ha & Hfd & Hcl & Hb). cbn [wp fst snd] in *. split; [done|]. cbn [fst snd]. split; [split; [by eapply connector_inv_ext|done]|].
  unfold port_of, held. rewrite E. cbn [connection with_connection connector]. split; [done|]. intros fd _. rewrite Hb, Hfd, Hcl. lia.
Qed.

Lemma mask_events e m : 0 <= e <= 3 -> 0 <= Z.land e m <= 3.
Proof.
  intros H. split; [apply Z.land_nonneg; lia|]. replace e with (Z.land e 3) by (assert (e = 0 \/ e = 1 \/ e = 2 \/ e = 3) as [-> | [-> | [-> | ->]]] by lia; done).
  rewrite <- Z.land_assoc, (Z.land_comm 3), Z.land_assoc. change 3 with (Z.ones 2). rewrite Z.land_ones by lia.
  pose proof (Z.mod_pos_bound (Z.land e m) (2 ^ 2)). change (Z.ones 2) with 3. change (2 ^ 2) with 4 in *. lia.
Qed.

Lemma has_bit x k : 0 <= k -> has x (2 ^ k) = Z.testbit x k.
Proof.
  intros Hk. unfold has. destruct (Z.testbit x k) eqn:E.
  - apply negb_true_iff, Z.eqb_neq. intros H. apply (f_equal (fun y => Z.testbit y k)) in H. by rewrite Z.land_spec, E, Z.pow2_bits_true, Z.bits_0 in H.
  - apply negb_false_iff, Z.eqb_eq, Z.bits_inj'. intros n Hn. rewrite Z.land_spec, Z.bits_0, Z.pow2_bits_eqb by done.
    destruct (Z.eqb_spec k n) as [<-|]; [by rewrite E|apply andb_false_r].
Qed.

Lemma has_read x : has x BREACTOR_READ = Z.testbit x 0.
Proof. by apply (has_bit x 0). Qed.
Lemma has_write x : has x BREACTOR_WRITE = Z.testbit x 1.
Proof. by apply (has_bit x 1). Qed.

Lemma lor_events e b : 0 <= e <= 3 -> b = BREACTOR_READ \/ b = BREACTOR_WRITE -> 0 <= Z.lor e b <= 3.
Proof. intros H Hb. assert (e = 0 \/ e = 1 \/ e = 2 \/ e = 3) as [-> | [-> | [-> | ->]]] by lia; destruct Hb as [-> | ->]; done. Qed.

(** ** Sending and receiving *)

Lemma same_others_look v v' : v' = v -> same_others v v'.
Proof. by intros ->. Qed.

(** Waiting for the descriptor again. *)
Lemma wait_for_fd_ok s o b : con_base (look s) o -> is_hupd o = false -> jobs_ok s -> b = BREACTOR_READ \/ b = BREACTOR_WRITE ->
  con_inv (set_fd (look s) (Some (Z.lor (wait_events o) b))) (with_events o (Z.lor (wait_events o) b)) ->
  wp s (wait_for_fd bfd o b) (con_ok (look s) o).
Proof.
  intros Hb Hh Hok Hev Hi. unfold wait_for_fd. apply wp_bind. pose proof (cb_fd _ _ Hb) as Hfd. rewrite Hh in Hfd.
  eapply wp_events; [exact Hfd|by apply lor_events; [apply Hb|]|done|]. intros s' Hok' Hl'. split; [done|]. rewrite Hl'. cbn [fst snd]. split; [done|]. split; [done|]. by split_and!.
Qed.

(** The error report. *)
Lemma error_ok s o : con_base (look s) o -> errored o = false -> jobs_ok s -> wp s (connection_report_error o) (con_ok (look s) o).
Proof.
  intros Hb He Hok. unfold connection_report_error. rewrite He. cbn [negb wp]. split; [done|]. split; [done|]. cbn [fst snd].
  split; [split; [by destruct Hb|done]|]. by split_and!.
Qed.

Lemma with_events_base v o e : con_base v o -> is_hupd o = false -> 0 <= e <= 3 -> con_base (set_fd v (Some e)) (with_events o e).
Proof. intros [H1 H2 H3 H4 H5] Hh He. split; cbn; [by rewrite Hh|done..]. Qed.

Lemma connection_send_ok s o wa : con_base (look s) o -> send_state o = SEND_STATE_BUSY -> errored o = false -> jobs_ok s -> write_ok o (send_busy_data_len o) wa = true ->
  (recv_state o = RECV_STATE_BUSY -> v_rj (look s) = Some true \/ (is_hupd o = false /\ has (wait_events o) BREACTOR_READ = true)) ->
  (is_hupd o = false -> has (wait_events o) BREACTOR_READ = true -> recv_state o = RECV_STATE_BUSY) ->
  wp s (connection_send bfd send_limit o wa) (con_ok (look s) o).
Proof.
  intros Hb Hs He Hok Hw Hr Hrw. unfold connection_send. rewrite He, Hs. rewrite (bool_decide_true (SEND_STATE_BUSY = _)) by done. cbn [negb].
  assert (forall s1, jobs_ok s1 -> look s1 = look s -> is_hupd o = false -> wp s1 (wait_for_fd bfd o BREACTOR_WRITE) (con_ok (look s) o)) as Hwait.
  { intros s1 Hok1 El Hh. rewrite <- El in *. apply wait_for_fd_ok; [done..|by right|]. split; [apply with_events_base; [done..|apply lor_events; [apply Hb|by right]]|].
    intros _. unfold not_stuck, waits_in_progress. cbn [send_state recv_state is_hupd wait_events with_events with_send with_recv]. rewrite !has_write, !has_read, !Z.lor_spec in *.
    change (Z.testbit BREACTOR_WRITE 1) with true. change (Z.testbit BREACTOR_WRITE 0) with false. rewrite !orb_false_r, orb_true_r. auto. }
  assert (forall s1, jobs_ok s1 -> look s1 = look s -> wp s1 (match wa with
    | WriteAgain => if negb (is_hupd o) then wait_for_fd bfd o BREACTOR_WRITE else connection_report_error o
    | WriteFails => connection_report_error o
    | Wrote bytes =>
        PASSERT (bytes >? 0) ;; PASSERT (bytes <=? send_busy_data_len o) ;;
        let o1 := with_send_state o SEND_STATE_READY in
        do* i := lift (send_iface o1) in do* i := lift (StreamPassInterface_Done i bytes) in
        Ret (with_send_iface o1 (Some i), [KWrite (take (Z.to_nat bytes) (send_busy_data o1))])
    end) (con_ok (look s) o)) as Hgo.
  { intros s1 Hok1 El. destruct wa as [n| |].
    - cbn [write_ok] in Hw. apply andb_true_iff in Hw as [Hw Hrd]. apply andb_true_iff in Hw as [Hn1 Hn2].
      destruct Hb as [H1 H2 H3 H4 H5]. unfold send_inv in H4. rewrite Hs in H4. destruct H4 as (Hj & i & Ei & Hh & Hst & Hl1 & Hl2 & Hl3).
      rewrite (proj2 (Z.gtb_lt _ _)) by lia. rewrite Hn2. cbn [send_iface with_send_state with_send]. rewrite Ei. cbn [lift pbind].
      destruct (si_done i n Hst ltac:(lia)) as (i' & Ed & Hs' & Hd' & Hlen' & Hdl' & Hh'). unfold StreamPassInterface_Done. rewrite Ed. cbn [lift pbind wp].
      split; [done|]. split; [by rewrite El|]. cbn [fst snd]. rewrite El. split.
      + split; [split; try done|].
        * unfold send_inv. cbn. split; [done|]. exists i'. split; [done|]. split; [split; [congruence|split; congruence]|congruence].
        * intros _. split; [split; [done|exact Hr]|]. intros Hhup. split; [|by apply Hrw]. intros Hc. exfalso. unfold ready in Hrd. cbn in Hc, Hhup. by rewrite Hhup, Hc in Hrd.
      + split_and!; [|done..]. unfold send_side_of. cbn. rewrite Hs, Hs'. unfold recv_side_of. cbn.
        assert (Hz : zlen (take (Z.to_nat n) (send_busy_data o)) = n) by (unfold zlen in *; rewrite length_take; lia). rewrite Hz, Hdl', Hn1.
        rewrite bool_decide_true; [done|]. rewrite length_take. unfold zlen in *. f_equal. lia.
    - destruct (is_hupd o) eqn:Hh; cbn [negb]; [rewrite <- El in *; by apply error_ok|by apply Hwait].
    - rewrite <- El in *. by apply error_ok. }
  destruct (is_hupd o) eqn:Hh; cbn [negb]; [by apply Hgo|].
  eapply wp_increment; [exact (proj1 (cb_limits _ _ Hb))|done|]. intros s1 [] Hok1 El; cbn [negb]; [by apply Hgo|by apply Hwait].
Qed.

Lemma connection_recv_ok s o ra : con_base (look s) o -> recv_state o = RECV_STATE_BUSY -> v_rj (look s) = Some false -> errored o = false -> jobs_ok s ->
  read_ok o (recv_busy_data_avail o) ra = true ->
  (send_state o = SEND_STATE_BUSY -> is_hupd o = false /\ has (wait_events o) BREACTOR_WRITE = true) ->
  (is_hupd o = false -> has (wait_events o) BREACTOR_WRITE = true -> send_state o = SEND_STATE_BUSY) ->
  wp s (connection_recv bfd recv_limit o ra) (con_ok (look s) o).
Proof.
  intros Hb Hs Hrj He Hok Hw Hsp Hsw. unfold connection_recv. rewrite He, Hs. rewrite (bool_decide_true (RECV_STATE_BUSY = _)) by done. cbn [negb].
  assert (forall s1, jobs_ok s1 -> look s1 = look s -> is_hupd o = false -> wp s1 (wait_for_fd bfd o BREACTOR_READ) (con_ok (look s) o)) as Hwait.
  { intros s1 Hok1 El Hh. rewrite <- El in *. apply wait_for_fd_ok; [done..|by left|]. split; [apply with_events_base; [done..|apply lor_events; [apply Hb|by left]]|].
    intros _. unfold not_stuck, waits_in_progress. cbn [send_state recv_state is_hupd wait_events with_events with_send with_recv]. rewrite !has_write, !has_read, !Z.lor_spec in *.
    change (Z.testbit BREACTOR_READ 1) with false. change (Z.testbit BREACTOR_READ 0) with true. rewrite !orb_false_r, orb_true_r. auto. }
  assert (forall data s1, jobs_ok s1 -> look s1 = look s -> read_ok o (recv_busy_data_avail o) (GotData data) = true -> 0 < zlen data ->
    wp s1 (PASSERT (zlen data >? 0) ;; PASSERT (zlen data <=? recv_busy_data_avail o) ;;
        do* to := lift (recv_busy_data o) in
        let o1 := with_recv_state o RECV_STATE_READY in
        do* i := lift (recv_iface o1) in do* i := lift (StreamRecvInterface_Done i (zlen data)) in
        Ret (with_recv_iface o1 (Some i), [KRead to data])) (con_ok (look s) o)) as Hdata.
  { intros data s1 Hok1 El Hrd Hn. cbn [read_ok] in Hrd. apply andb_true_iff in Hrd as [Hn2 Hrd].
    destruct Hb as [H1 H2 H3 H4 H5]. unfold recv_inv in H5. rewrite Hs in H5. destruct H5 as (Hj & i & to & Ei & Hh & Hst & Hto & Hl1 & Hl2).
    rewrite (proj2 (Z.gtb_lt _ _)) by lia. rewrite Hn2, Hto. cbn [lift pbind recv_iface with_recv_state with_recv]. rewrite Ei. cbn [lift pbind].
    destruct (si_done i (zlen data) Hst ltac:(lia)) as (i' & Ed & Hs' & Hd' & Hlen' & Hdl' & Hh'). unfold StreamRecvInterface_Done. rewrite Ed. cbn [lift pbind wp].
    split; [done|]. split; [by rewrite El|]. cbn [fst snd]. rewrite El. split.
    - split; [split; try done|].
      + unfold recv_inv. cbn. split; [done|]. exists i'. split; [done|]. split; [congruence|split; congruence].
      + intros _. split; [split; [exact Hsp|done]|]. intros Hhup. split; [by apply Hsw|]. intros Hc. exfalso. unfold ready in Hrd. cbn in Hc, Hhup. by rewrite Hhup, Hc in Hrd.
    - split_and!; [|done..]. unfold recv_side_of. cbn. rewrite Hs, Hs', Hto, Hdl'. unfold send_side_of. cbn. rewrite Z.eqb_refl, (proj2 (Z.ltb_lt _ _)), Hn2 by done. done. }
  assert (forall s1, jobs_ok s1 -> look s1 = look s -> wp s1 (match ra with
    | ReadAgain => if negb (is_hupd o) then wait_for_fd bfd o BREACTOR_READ else connection_report_error o
    | ReadFails => connection_report_error o
    | GotData [] => Ret (with_recv_state o RECV_STATE_INITED_CLOSED, [RRecvClosed])
    | GotData data =>
        PASSERT (zlen data >? 0) ;; PASSERT (zlen data <=? recv_busy_data_avail o) ;;
        do* to := lift (recv_busy_data o) in
        let o1 := with_recv_state o RECV_STATE_READY in
        do* i := lift (recv_iface o1) in do* i := lift (StreamRecvInterface_Done i (zlen data)) in
        Ret (with_recv_iface o1 (Some i), [KRead to data])
    end) (con_ok (look s) o)) as Hgo.
  { intros s1 Hok1 El. destruct ra as [[|b data]| |].
    - destruct Hb as [H1 H2 H3 H4 H5]. unfold recv_inv in H5. rewrite Hs in H5. destruct H5 as (Hj & i & to & Ei & Hh & Hst & Hto & Hl1 & Hl2).
      cbn [read_ok] in Hw. apply andb_true_iff in Hw as [_ Hrd].
      split; [done|]. split; [by rewrite El|]. cbn [fst snd]. rewrite El. split.
      + split; [split; try done|].
        * unfold recv_inv. cbn. eauto.
        * intros _. split; [split; [exact Hsp|done]|]. intros Hhup. split; [by apply Hsw|]. intros Hc. exfalso. unfold ready in Hrd. cbn in Hc, Hhup. by rewrite Hhup, Hc in Hrd.
      + split_and!; [|done..]. unfold recv_side_of. cbn. by rewrite Hs.
    - apply Hdata; [done..|rewrite zlen_cons; pose proof (zlen_nonneg data); lia].
    - destruct (is_hupd o) eqn:Hh; cbn [negb]; [rewrite <- El in *; by apply error_ok|by apply Hwait].
    - rewrite <- El in *. by apply error_ok. }
  destruct (is_hupd o) eqn:Hh; cbn [negb]; [by apply Hgo|].
  eapply wp_increment; [exact (proj2 (cb_limits _ _ Hb))|done|]. intros s1 [] Hok1 El; cbn [negb]; [by apply Hgo|by apply Hwait].
Qed.

(** ** The events of the descriptor *)

Lemma con_ok_from v v2 o o2 x s : same_others v v2 -> send_side_of o2 = send_side_of o -> recv_side_of o2 = recv_side_of o -> con_fd o2 = con_fd o -> close_fd o2 = close_fd o ->
  con_ok v2 o2 x s -> con_ok v o x s.
Proof.
  intros [H1 H2] E1 E2 E3 E4 (Hok & [H3 H4] & Hi & Ha & Hf & Hc & Hb). rewrite E1, E2, E3, E4 in *. split_and!; try done. split; congruence.
Qed.

Definition handled_view (v : view) (o : BConnection) (ev : Z) : view :=
  set_fd v (if has ev BREACTOR_HUP then None else Some (Z.land (wait_events o) (Z.lnot ev))).

Lemma handled_base v o ev : con_base v o -> is_hupd o = false -> con_base (handled_view v o ev) (handled o ev).
Proof.
  intros [H1 H2 H3 H4 H5] Hh. unfold handled, handled_view. destruct (has ev BREACTOR_HUP); split; cbn; rewrite ?Hh; try done; by apply mask_events.
Qed.

Lemma handled_sides o ev : send_state (handled o ev) = send_state o /\ recv_state (handled o ev) = recv_state o /\ send_side_of (handled o ev) = send_side_of o /\
  recv_side_of (handled o ev) = recv_side_of o /\ con_fd (handled o ev) = con_fd o /\ close_fd (handled o ev) = close_fd o /\ errored (handled o ev) = errored o /\
  send_busy_data_len (handled o ev) = send_busy_data_len o /\ recv_busy_data_avail (handled o ev) = recv_busy_data_avail o.
Proof. unfold handled. by destruct (has ev BREACTOR_HUP). Qed.

Lemma handled_bit o ev b : b = BREACTOR_READ \/ b = BREACTOR_WRITE -> has (wait_events (handled o ev)) b = has (wait_events o) b && negb (has ev b).
Proof.
  intros Hb. assert (wait_events (handled o ev) = Z.land (wait_events o) (Z.lnot ev)) as -> by (unfold handled; by destruct (has ev BREACTOR_HUP)).
  destruct Hb as [-> | ->]; rewrite ?has_read, ?has_write, Z.land_spec, Z.lnot_spec by done; done.
Qed.

Lemma handled_hupd o ev : is_hupd o = false -> is_hupd (handled o ev) = has ev BREACTOR_HUP.
Proof. intros H. unfold handled. by destruct (has ev BREACTOR_HUP). Qed.

Lemma hup_failed ev : has ev BREACTOR_HUP = true -> has ev (Z.lor BREACTOR_ERROR BREACTOR_HUP) = true.
Proof.
  intros H. assert (has ev BREACTOR_HUP = Z.testbit ev 3) as E by by apply (has_bit ev 3). rewrite E in H. unfold has. apply negb_true_iff, Z.eqb_neq. intros Hz.
  apply (f_equal (fun y => Z.testbit y 3)) in Hz. by rewrite Z.land_spec, H, Z.bits_0 in Hz.
Qed.

Lemma fd_handler_ok s o ev wa ra : con_inv (look s) o -> errored o = false -> is_hupd o = false -> jobs_ok s -> reported (wait_events o) ev -> v_rj (look s) <> Some true ->
  write_ok (handled o ev) (send_busy_data_len o) wa = true -> read_ok (handled o ev) (recv_busy_data_avail o) ra = true ->
  wp s (connection_fd_handler bfd send_limit recv_limit recv_job o ev wa ra) (con_ok (look s) o).
Proof.
  intros [Hb Hi] He Hh Hok (Hev & HR & HW) Hrj Hwa Hra. destruct (Hi He) as [[Hns Hnr] Hwp]. destruct (Hwp Hh) as [Hws Hwr].
  unfold connection_fd_handler. rewrite He, Hh. cbn [negb]. apply wp_bind.
  eapply wp_events; [rewrite (cb_fd _ _ Hb), Hh; done|by apply mask_events, Hb|done|]. intros s1 Hok1 El1. apply wp_bind.
  apply (wp_mono _ (fun o' s2 => o' = handled o ev /\ jobs_ok s2 /\ look s2 = handled_view (look s) o ev)).
  2: { unfold handled, handled_view. destruct (has ev BREACTOR_HUP); [|done]. apply wp_bind. eapply wp_remove; [by rewrite El1|done|].
       intros s2 Hok2 El2. split; [done|]. split; [done|]. by rewrite El2, El1. }
  intros o' s2 (-> & Hok2 & El2). destruct (handled_sides o ev) as (Es & Er & Ess & Ers & Ef & Ec & Ee & Esl & Era). rewrite Es, Er.
  pose proof (handled_base _ _ ev Hb Hh) as Hb2. rewrite <- El2 in Hb2. pose proof (handled_hupd o ev Hh) as Hh2.
  pose proof (handled_bit o ev _ (or_introl eq_refl)) as HbR. pose proof (handled_bit o ev _ (or_intror eq_refl)) as HbW. pose proof (hup_failed ev) as Hhf.
  assert (same_others (look s) (look s2)) as Hso by (rewrite El2; done). rewrite <- Esl in Hwa. rewrite <- Era in Hra. rewrite He in Ee.
  assert (v_rj (look s2) = v_rj (look s)) as Erj by by rewrite El2. rewrite <- Erj in Hrj, Hnr. unfold has in HW, HR. fold (has (wait_events o) BREACTOR_WRITE) in HW.
  fold (has (wait_events o) BREACTOR_READ) in HR. fold (has ev BREACTOR_WRITE) in HW. fold (has ev BREACTOR_READ) in HR.
  clear Hb Hi Hwp Hok Hok1 El1 El2. rewrite <- Es in Hns, Hws |- *. rewrite <- Er in Hnr, Hwr |- *. rewrite Hh in Hns, Hnr.
  eapply wp_mono; [intros x s'; apply (con_ok_from (look s) (look s2) o (handled o ev)); try done; congruence|].
  revert Hwa Hra Hb2 Hh2 HbR HbW Ee Hns Hnr Hws Hwr. generalize (handled o ev) as o2. clear - Hok2 Hrj HR HW Hhf Hj1 Hj2 Hj3 Hfds Hlims. intros o2 Hwa Hra Hb2 Hh2 HbR HbW Ee Hns Hnr Hws Hwr.
  set (fail := has ev (Z.lor BREACTOR_ERROR BREACTOR_HUP)) in *.
  assert (recv_state o2 = RECV_STATE_BUSY -> v_rj (look s2) = Some false) as Hrf.
  { intros H. pose proof (cb_recv _ _ Hb2) as Hri. unfold recv_inv in Hri. rewrite H in Hri. destruct Hri as [Hri _]. destruct (v_rj (look s2)) as [[]|]; done. }
  assert (forall b P (D : Decision P), (b = true -> P) -> (b || (fail && bool_decide P) = true -> P) /\ (b || (fail && bool_decide P) = false -> P -> b = false /\ fail = false)) as Hhave.
  { intros b P D H. destruct b; cbn; [split; [auto|done]|]. destruct fail; cbn; [|split; done]. split; [apply bool_decide_eq_true|intros H1%bool_decide_eq_false; done]. }
  destruct (Hhave _ _ _ (fun H => Hws (HW H))) as [Hs1 Hs2]. destruct (Hhave _ _ _ (fun H => Hwr (HR H))) as [Hr1 Hr2]. clear Hhave.
  set (hs := has ev BREACTOR_WRITE || _) in *. set (hr := has ev BREACTOR_READ || _) in *. clearbody hs hr.
  assert (implb hs (bool_decide (send_state o2 = SEND_STATE_BUSY)) = true) as -> by (destruct hs; [cbn; apply bool_decide_eq_true; auto|done]).
  assert (implb hr (bool_decide (recv_state o2 = RECV_STATE_BUSY)) = true) as -> by (destruct hr; [cbn; apply bool_decide_eq_true; auto|done]).
  assert (forall s3, v_rj (look s3) = v_rj (look s2) -> hr = false -> recv_state o2 = RECV_STATE_BUSY -> is_hupd o2 = false /\ has (wait_events o2) BREACTOR_READ = true) as Hkeep.
  { intros s3 _ E H. destruct (Hr2 E H) as [H1 H2]. destruct (Hnr H) as [H3|[_ H3]]; [by rewrite (Hrf H) in H3|]. rewrite Hh2, HbR, H1, H3. split; [|done].
    destruct (has ev BREACTOR_HUP); [|done]. by rewrite (Hhf eq_refl) in H2. }
  assert (hs = false -> send_state o2 = SEND_STATE_BUSY -> is_hupd o2 = false /\ has (wait_events o2) BREACTOR_WRITE = true) as Hskeep.
  { intros E H. destruct (Hs2 E H) as [H1 H2]. destruct (Hns H) as [_ H3]. rewrite Hh2, HbW, H1, H3. split; [|done].
    destruct (has ev BREACTOR_HUP); [|done]. by rewrite (Hhf eq_refl) in H2. }
  assert (has (wait_events o2) BREACTOR_READ = true -> recv_state o2 = RECV_STATE_BUSY) as HwR by (rewrite HbR; intros [H _]%andb_true_iff; auto).
  assert (has (wait_events o2) BREACTOR_WRITE = true -> send_state o2 = SEND_STATE_BUSY) as HwW by (rewrite HbW; intros [H _]%andb_true_iff; auto).
  destruct hs; [|destruct hr].
  - apply wp_bind. apply (wp_mono _ (fun _ s3 => jobs_ok s3 /\ same_others (look s2) (look s3) /\ con_base (look s3) o2 /\
      (recv_state o2 = RECV_STATE_BUSY -> v_rj (look s3) = Some true \/ (is_hupd o2 = false /\ has (wait_events o2) BREACTOR_READ = true)))).
    + intros _ s3 (Hok3 & Hso & Hb3 & Hp). eapply wp_mono; [intros x s'; by apply (con_ok_from _ (look s3) o2 o2)|]. apply connection_send_ok; auto.
    + destruct hr.
      * eapply wp_rset; [by rewrite (Hrf (Hr1 eq_refl))|done|]. intros s3 Hok3 El. rewrite El. split; [done|]. split; [done|]. split; [|by left].
        destruct Hb2 as [B1 B2 B3 B4 B5]. split; try done. unfold recv_inv in *. rewrite (Hr1 eq_refl) in *. by destruct B5 as [_ B5].
      * split; [done|]. split; [done|]. split; [done|]. intros H. right. by apply (Hkeep s2).
  - apply connection_recv_ok; auto.
  - destruct (is_hupd o2) eqn:Eh; cbn [negb]; [|by apply error_ok].
    split; [done|]. split; [done|]. split; [split; [done|]|by split_and!]. intros _. cbn [fst]. split; [split|].
    + intros H. by destruct (Hskeep eq_refl H).
    + intros H. by destruct (Hkeep s2 eq_refl eq_refl H).
    + intros H. congruence.
Qed.

(** ** The user's calls *)

(** A change of one interface while its side is not busy. *)
Lemma send_iface_inv v o i d l st : con_inv v o -> send_state o <> SEND_STATE_BUSY -> st <> SEND_STATE_BUSY ->
  send_inv v (with_send o i d l st) -> con_inv v (with_send o i d l st).
Proof.
  intros [[H1 H2 H3 H4 H5] Hi] Hn Hst Hs. split; [by split|]. cbn [errored with_send]. intros He. destruct (Hi He) as [[Ha Hb] Hw].
  split; [split; [done|exact Hb]|]. intros Hh. destruct (Hw Hh) as [Hw1 Hw2]. split; [|exact Hw2]. intros H. by apply Hw1 in H.
Qed.

Lemma recv_iface_inv v o i d l st : con_inv v o -> recv_state o <> RECV_STATE_BUSY -> st <> RECV_STATE_BUSY ->
  recv_inv v (with_recv o i d l st) -> con_inv v (with_recv o i d l st).
Proof.
  intros [[H1 H2 H3 H4 H5] Hi] Hn Hst Hs. split; [by split|]. cbn [errored with_recv]. intros He. destruct (Hi He) as [[Ha Hb] Hw].
  split; [split; [exact Ha|done]|]. intros Hh. destruct (Hw Hh) as [Hw1 Hw2]. split; [exact Hw1|]. intros H. by apply Hw2 in H.
Qed.

(** What [Init], [Free] and the jobs of the other side leave as it is. *)
Lemma con_inv_sj v o x : con_inv v o -> send_state o <> SEND_STATE_BUSY -> (forall i d l st, send_inv (set_sj v x) (with_send o i d l st) -> st <> SEND_STATE_BUSY ->
  con_inv (set_sj v x) (with_send o i d l st)).
Proof.
  intros [[H1 H2 H3 H4 H5] Hi] Hn i d l st Hs Hst. split; [by split|]. cbn [errored with_send]. intros He. destruct (Hi He) as [[Ha Hb] Hw].
  split; [split; [done|exact Hb]|]. intros Hh. destruct (Hw Hh) as [Hw1 Hw2]. split; [|exact Hw2]. intros H. by apply Hw1 in H.
Qed.

Lemma con_inv_rj v o x : con_inv v o -> recv_state o <> RECV_STATE_BUSY -> (forall i d l st, recv_inv (set_rj v x) (with_recv o i d l st) -> st <> RECV_STATE_BUSY ->
  con_inv (set_rj v x) (with_recv o i d l st)).
Proof.
  intros [[H1 H2 H3 H4 H5] Hi] Hn i d l st Hs Hst. split; [by split|]. cbn [errored with_recv]. intros He. destruct (Hi He) as [[Ha Hb] Hw].
  split; [split; [exact Ha|done]|]. intros Hh. destruct (Hw Hh) as [Hw1 Hw2]. split; [exact Hw1|]. intros H. by apply Hw2 in H.
Qed.

(** The events of one side are no longer waited for. *)
Lemma unwait_ok s o b : con_inv (look s) o -> jobs_ok s -> b = BREACTOR_READ \/ b = BREACTOR_WRITE ->
  wp s (if negb (is_hupd o) then
          let o := with_events o (Z.land (wait_events o) (Z.lnot b)) in do call (FdSetEvents bfd (wait_events o)) ;; Ret o
        else Ret o)
    (fun o' s' => jobs_ok s' /\ con_base (look s') o' /\ same_others (look s) (look s') /\ v_sj (look s') = v_sj (look s) /\ v_rj (look s') = v_rj (look s) /\
       (is_hupd o' = is_hupd o) /\ (is_hupd o = false -> wait_events o' = Z.land (wait_events o) (Z.lnot b)) /\
       exists e, o' = with_events o e).
Proof.
  intros [Hb _] Hok Hbit. destruct (is_hupd o) eqn:Hh; cbn [negb].
  - split; [done|]. split; [done|]. split_and!; try done. exists (wait_events o). by destruct o.
  - apply wp_bind. eapply wp_events; [rewrite (cb_fd _ _ Hb), Hh; done|by apply mask_events, Hb|done|]. intros s1 Hok1 El.
    split; [done|]. rewrite El. split; [apply with_events_base; [done..|by apply mask_events, Hb]|]. split_and!; try done. by eexists.
Qed.

Lemma lnot_bits e : Z.testbit (Z.land e (Z.lnot BREACTOR_WRITE)) 0 = Z.testbit e 0 /\ Z.testbit (Z.land e (Z.lnot BREACTOR_WRITE)) 1 = false /\
  Z.testbit (Z.land e (Z.lnot BREACTOR_READ)) 1 = Z.testbit e 1 /\ Z.testbit (Z.land e (Z.lnot BREACTOR_READ)) 0 = false.
Proof. rewrite !Z.land_spec, !Z.lnot_spec by done. cbn [Z.testbit]. split_and!; cbn; rewrite ?andb_true_r, ?andb_false_r; done. Qed.

Lemma accept_send_free v o : con_base v o -> send_state o <> SEND_STATE_NOT_INITED ->
  accept (send_side_of o, recv_side_of o) [USendFree] = Some (SNone, recv_side_of o).
Proof.
  intros Hb Hs. pose proof (cb_send _ _ Hb) as H. unfold send_inv in H. unfold send_side_of. destruct (send_state o); [done| |done].
  destruct H as (_ & i & -> & _). by destruct (si_state i).
Qed.

Lemma accept_recv_free v o : con_base v o -> recv_state o <> RECV_STATE_NOT_INITED ->
  accept (send_side_of o, recv_side_of o) [URecvFree] = Some (send_side_of o, RNone).
Proof.
  intros Hb Hs. pose proof (cb_recv _ _ Hb) as H. unfold recv_inv in H. unfold recv_side_of.
  destruct (recv_state o); [done| |by destruct (send_side_of o)|by destruct (send_side_of o)|done].
  destruct H as (_ & i & -> & _). destruct (send_side_of o); by destruct (si_state i).
Qed.

Lemma send_free_ok s o : con_inv (look s) o -> jobs_ok s -> send_state o <> SEND_STATE_NOT_INITED -> wp s (BConnection_SendAsync_Free bfd send_job o) (con_ok (look s) o).
Proof.
  intros Hc Hok Hs. pose proof Hc as [Hb Hi]. unfold BConnection_SendAsync_Free.
  assert (bool_decide (send_state o = SEND_STATE_READY) || bool_decide (send_state o = SEND_STATE_BUSY) = true) as -> by by destruct (send_state o).
  assert (v_sj (look s) <> None) as Hsj by (pose proof (cb_send _ _ Hb) as H; unfold send_inv in H; destruct (send_state o); [done|by destruct H as [-> _]..]).
  apply wp_bind. eapply wp_mono; [|apply unwait_ok; [done..|by right]]. intros o1 s1 (Hok1 & Hb1 & Hso & Esj & Erj & Eh & Ew & (e & ->)).
  apply wp_bind. eapply wp_sfree; [congruence|done|]. intros s2 Hok2 El2. split; [done|]. rewrite El2. cbn [fst snd]. split; [done|]. split.
  - destruct Hb1 as [H1 H2 H3 H4 H5]. split; [split; done|]. cbn [errored with_send with_events]. intros He. destruct (Hi He) as [[Ha Hr] Hw]. split; [split; [done|]|].
    + cbn. intros H. rewrite <- Erj in Hr. destruct (Hr H) as [|[Hh Hread]]; [by left|]. right. split; [done|]. specialize (Ew Hh). cbn in Ew. subst e. rewrite has_read in *. by rewrite (proj1 (lnot_bits _)).
    + intros Hh. cbn in Hh. destruct (Hw Hh) as [_ Hw2]. specialize (Ew Hh). cbn in Ew. subst e. cbn. rewrite has_read, has_write in *. destruct (lnot_bits (wait_events o)) as (-> & -> & _). done.
  - split_and!; try done. by rewrite (accept_send_free (look s) o).
Qed.

Lemma recv_free_ok s o : con_inv (look s) o -> jobs_ok s -> recv_state o <> RECV_STATE_NOT_INITED -> wp s (BConnection_RecvAsync_Free bfd recv_job o) (con_ok (look s) o).
Proof.
  intros Hc Hok Hs. pose proof Hc as [Hb Hi]. unfold BConnection_RecvAsync_Free. pose proof (cb_recv _ _ Hb) as Hri.
  assert (bool_decide (recv_state o = RECV_STATE_READY) || bool_decide (recv_state o = RECV_STATE_BUSY) || bool_decide (recv_state o = RECV_STATE_INITED_CLOSED) = true) as ->
    by (unfold recv_inv in Hri; by destruct (recv_state o)).
  assert (v_rj (look s) <> None) as Hrj by (unfold recv_inv in Hri; destruct (recv_state o); [done|by destruct Hri as [-> _]|by destruct Hri|by destruct Hri as [-> _]|done]).
  apply wp_bind. eapply wp_mono; [|apply unwait_ok; [done..|by left]]. intros o1 s1 (Hok1 & Hb1 & Hso & Esj & Erj & Eh & Ew & (e & ->)).
  apply wp_bind. eapply wp_rfree; [congruence|done|]. intros s2 Hok2 El2. split; [done|]. rewrite El2. cbn [fst snd]. split; [done|]. split.
  - destruct Hb1 as [H1 H2 H3 H4 H5]. split; [split; done|]. cbn [errored with_recv with_events]. intros He. destruct (Hi He) as [[Ha Hr] Hw]. split; [split; [|done]|].
    + cbn. intros H. destruct (Ha H) as [Hh Hwrite]. split; [done|]. specialize (Ew Hh). cbn in Ew. subst e. rewrite has_write in *. by destruct (lnot_bits (wait_events o)) as (_ & _ & -> & _).
    + intros Hh. cbn in Hh. destruct (Hw Hh) as [Hw1 _]. specialize (Ew Hh). cbn in Ew. subst e. cbn. rewrite has_read, has_write in *. destruct (lnot_bits (wait_events o)) as (_ & _ & -> & ->). done.
  - split_and!; try done. by rewrite (accept_recv_free (look s) o).
Qed.

(** A call that leaves the reactor alone. *)
Lemma con_ret s o o' out : jobs_ok s -> con_inv (look s) o' -> accept (send_side_of o, recv_side_of o) out = Some (send_side_of o', recv_side_of o') ->
  con_fd o' = con_fd o -> close_fd o' = close_fd o -> (forall fd, balance fd out = 0) -> con_ok (look s) o (o', out) s.
Proof. intros. unfold con_ok. by split_and!. Qed.

Lemma send_init_ok s o : con_inv (look s) o -> jobs_ok s -> errored o = false -> send_state o = SEND_STATE_NOT_INITED ->
  wp s (do* (o, out) := BConnection_SendAsync_Init send_job o in
        do* i := lift (send_iface o) in do* i := lift (StreamPassInterface_Sender_Init i) in Ret (with_send_iface o (Some i), out)) (con_ok (look s) o).
Proof.
  intros Hc Hok He Hs. unfold BConnection_SendAsync_Init. rewrite He, Hs. cbn [negb]. rewrite bool_decide_true by done.
  pose proof (cb_send _ _ (proj1 Hc)) as H. unfold send_inv in H. rewrite Hs in H. destruct H as [Hj Ei].
  apply wp_bind, wp_bind. eapply wp_sinit; [done|done|]. intros s1 Hok1 El. cbn -[con_ok look]. split; [done|]. rewrite El. split; [done|]. split.
  - apply (con_inv_sj _ _ _ Hc ltac:(congruence)); [|done]. split; [done|]. eexists. split; [done|]. split; [by split_and!|done].
  - split_and!; try done. unfold send_side_of, recv_side_of. cbn. by rewrite Hs.
Qed.

Lemma recv_init_ok s o : con_inv (look s) o -> jobs_ok s -> errored o = false -> recv_state o = RECV_STATE_NOT_INITED ->
  wp s (do* (o, out) := BConnection_RecvAsync_Init recv_job o in
        do* i := lift (recv_iface o) in do* i := lift (StreamRecvInterface_Receiver_Init i) in Ret (with_recv_iface o (Some i), out)) (con_ok (look s) o).
Proof.
  intros Hc Hok He Hs. unfold BConnection_RecvAsync_Init. rewrite He, Hs. cbn [negb]. rewrite bool_decide_true by done.
  pose proof (cb_recv _ _ (proj1 Hc)) as H. unfold recv_inv in H. rewrite Hs in H. destruct H as [Hj Ei].
  apply wp_bind, wp_bind. eapply wp_rinit; [done|done|]. intros s1 Hok1 El. cbn -[con_ok look]. split; [done|]. rewrite El. split; [done|]. split.
  - apply (con_inv_rj _ _ _ Hc ltac:(congruence)); [|done]. split; [done|]. eexists. split; [done|]. by split_and!.
  - split_and!; try done. unfold send_side_of, recv_side_of. cbn. rewrite Hs. by destruct (send_state o), (send_iface o) as [i|]; try destruct (si_state i).
Qed.

(** An interface in a state other than busy is that of a side that is ready. *)
Lemma send_ready v o st : con_base v o -> iface_is (send_iface o) st = true -> st <> ST_BUSY ->
  exists i, send_iface o = Some i /\ si_state i = st /\ send_state o = SEND_STATE_READY /\ v_sj v = Some false /\ idle_iface i /\
    (si_state i = ST_OPERATION_PENDING -> si_job_operation_len i = zlen (default [] (si_job_operation_data i))).
Proof.
  intros Hb Hi Hn. pose proof (cb_send _ _ Hb) as H. unfold send_inv in H. unfold iface_is, st_is in Hi. destruct (send_iface o) as [i|]; [|done].
  apply bool_decide_eq_true in Hi. destruct (send_state o); [by destruct H| |].
  - destruct H as (Hj & i' & [= <-] & H1 & H2). exists i. by split_and!.
  - destruct H as (Hj & i' & [= <-] & _ & H & _). congruence.
Qed.

Lemma recv_ready v o st : con_base v o -> iface_is (recv_iface o) st = true -> st <> ST_BUSY ->
  exists i, recv_iface o = Some i /\ si_state i = st /\ recv_state o = RECV_STATE_READY /\ v_rj v = Some false /\ idle_iface i.
Proof.
  intros Hb Hi Hn. pose proof (cb_recv _ _ Hb) as H. unfold recv_inv in H. unfold iface_is, st_is in Hi. destruct (recv_iface o) as [i|]; [|by destruct (recv_state o); naive_solver].
  apply bool_decide_eq_true in Hi. destruct (recv_state o); [by destruct H| | | |done].
  - destruct H as (Hj & i' & [= <-] & H). exists i. by split_and!.
  - destruct H as (Hj & i' & to & [= <-] & _ & H & _). congruence.
  - destruct H as (Hj & i' & [= <-] & H). congruence.
Qed.

Lemma send_start_ok s o data : con_inv (look s) o -> jobs_ok s -> iface_is (send_iface o) ST_NONE = true -> 0 < zlen data ->
  wp s (do* i := lift (send_iface o) in do* i := lift (StreamPassInterface_Sender_Send i data (zlen data)) in Ret (with_send_iface o (Some i), [USend data])) (con_ok (look s) o).
Proof.
  intros Hc Hok Hi Hn. destruct (send_ready _ _ _ (proj1 Hc) Hi) as (i & Ei & Est & Es & Hj & (Hh & _) & _); [done|]. rewrite Ei. cbn [lift pbind].
  destruct (si_start i data (zlen data) Hh Est Hn) as (i' & E & Hs' & Hd & Hl & Hh'). unfold StreamPassInterface_Sender_Send. rewrite E. cbn [lift pbind wp].
  apply con_ret; try done.
  - apply send_iface_inv; [done|congruence|congruence|]. unfold send_inv. cbn. rewrite Es. split; [done|]. exists i'. split; [done|].
    split; [split_and!; [done|congruence|intros _; exists data; split; [done|lia]]|intros _; by rewrite Hd, Hl].
  - unfold send_side_of, recv_side_of. cbn. by rewrite Ei, Es, Est, Hs', Hd.
Qed.

Lemma recv_start_ok s o to avail : con_inv (look s) o -> jobs_ok s -> iface_is (recv_iface o) ST_NONE = true -> 0 < avail ->
  wp s (do* i := lift (recv_iface o) in do* i := lift (StreamRecvInterface_Receiver_Recv i to avail) in Ret (with_recv_iface o (Some i), [URecv to avail])) (con_ok (look s) o).
Proof.
  intros Hc Hok Hi Hn. destruct (recv_ready _ _ _ (proj1 Hc) Hi) as (i & Ei & Est & Es & Hj & (Hh & _)); [done|]. rewrite Ei. cbn [lift pbind].
  destruct (si_start i to avail Hh Est Hn) as (i' & E & Hs' & Hd & Hl & Hh'). unfold StreamRecvInterface_Receiver_Recv. rewrite E. cbn [lift pbind wp].
  apply con_ret; try done.
  - apply recv_iface_inv; [done|congruence|congruence|]. unfold recv_inv. cbn. rewrite Es. split; [done|]. exists i'. split; [done|].
    split_and!; [done|congruence|intros _; exists to; split; [done|lia]].
  - unfold send_side_of, recv_side_of. cbn. rewrite Ei, Es, Est, Hs', Hd, Hl. cbn. by destruct (send_state o), (send_iface o) as [j|]; try destruct (si_state j).
Qed.

Lemma send_done_ok s o : con_inv (look s) o -> jobs_ok s -> iface_is (send_iface o) ST_DONE_PENDING = true ->
  wp s (do* i := lift (send_iface o) in do* (i, len) := lift (StreamPassInterface_job_done i) in Ret (with_send_iface o (Some i), [RSent len])) (con_ok (look s) o).
Proof.
  intros Hc Hok Hi. destruct (send_ready _ _ _ (proj1 Hc) Hi) as (i & Ei & Est & Es & Hj & (Hh & _) & _); [done|]. rewrite Ei. cbn [lift pbind].
  destruct (si_jobdone i Est) as (i' & E & Hs' & Hh'). unfold StreamPassInterface_job_done. rewrite E. cbn [lift pbind wp].
  apply con_ret; try done.
  - apply send_iface_inv; [done|congruence|congruence|]. unfold send_inv. cbn. rewrite Es. split; [done|]. exists i'. split; [done|]. split; [split_and!; congruence|congruence].
  - unfold send_side_of, recv_side_of. cbn. by rewrite Ei, Es, Est, Hs', Z.eqb_refl.
Qed.

Lemma recv_done_ok s o : con_inv (look s) o -> jobs_ok s -> iface_is (recv_iface o) ST_DONE_PENDING = true ->
  wp s (do* i := lift (recv_iface o) in do* (i, len) := lift (StreamRecvInterface_job_done i) in Ret (with_recv_iface o (Some i), [RReceived len])) (con_ok (look s) o).
Proof.
  intros Hc Hok Hi. destruct (recv_ready _ _ _ (proj1 Hc) Hi) as (i & Ei & Est & Es & Hj & (Hh & _)); [done|]. rewrite Ei. cbn [lift pbind].
  destruct (si_jobdone i Est) as (i' & E & Hs' & Hh'). unfold StreamRecvInterface_job_done. rewrite E. cbn [lift pbind wp].
  apply con_ret; try done.
  - apply recv_iface_inv; [done|congruence|congruence|]. unfold recv_inv. cbn. rewrite Es. split; [done|]. exists i'. split; [done|]. split_and!; congruence.
  - unfold send_side_of, recv_side_of. cbn. rewrite Ei, Es, Est, Hs', Z.eqb_refl. by destruct (send_state o), (send_iface o) as [j|]; try destruct (si_state j).
Qed.

Lemma send_job_ok s o wa : con_inv (look s) o -> jobs_ok s -> errored o = false -> iface_is (send_iface o) ST_OPERATION_PENDING = true -> write_ok o (op_len (send_iface o)) wa = true ->
  wp s (do* i := lift (send_iface o) in do* (i, x) := lift (StreamPassInterface_job_operation i) in do* data := lift (x.1) in
        connection_send_if_handler_send bfd send_limit (with_send_iface o (Some i)) data (x.2) wa) (con_ok (look s) o).
Proof.
  intros [Hb Hi] Hok He Hif Hw. destruct (send_ready _ _ _ Hb Hif) as (i & Ei & Est & Es & Hj & (Hh & _ & Hop) & Hlen); [done|]. rewrite Ei in *. cbn [lift pbind op_len] in *.
  destruct (Hop Est) as (d & Ed & Hn). specialize (Hlen Est). rewrite Ed in Hlen. cbn in Hlen. destruct (si_op i Est) as (i' & E & Hs' & Hd' & Hl' & Hh').
  unfold StreamPassInterface_job_operation. rewrite E, Ed. cbn [lift pbind fst snd]. unfold connection_send_if_handler_send. cbn [errored send_state with_send_iface with_send].
  rewrite He, Es. cbn [negb]. rewrite bool_decide_true by done. rewrite (proj2 (Z.gtb_lt _ _)) by lia. set (o2 := with_send _ _ _ _ _).
  destruct (Hi He) as [[Hns Hnr] Hwp]. eapply wp_mono; [intros x s'; apply (con_ok_from (look s) (look s) o o2); try done|].
  - unfold send_side_of. cbn. by rewrite Ei, Es, Est, Ed.
  - apply connection_send_ok; try done.
    + destruct Hb as [H1 H2 H3 H4 H5]. split; try done. unfold send_inv, o2. cbn. split; [done|]. exists i'. split_and!; try done; congruence || lia.
    + intros Hhup. cbn. intros Hread. by apply (Hwp Hhup).
Qed.

Lemma recv_job_ok s o ra : con_inv (look s) o -> jobs_ok s -> errored o = false -> iface_is (recv_iface o) ST_OPERATION_PENDING = true -> read_ok o (op_len (recv_iface o)) ra = true ->
  wp s (do* i := lift (recv_iface o) in do* (i, x) := lift (StreamRecvInterface_job_operation i) in do* data := lift (x.1) in
        connection_recv_if_handler_recv bfd recv_limit (with_recv_iface o (Some i)) data (x.2) ra) (con_ok (look s) o).
Proof.
  intros [Hb Hi] Hok He Hif Hw. destruct (recv_ready _ _ _ Hb Hif) as (i & Ei & Est & Es & Hj & (Hh & _ & Hop)); [done|]. rewrite Ei in *. cbn [lift pbind op_len] in *.
  destruct (Hop Est) as (d & Ed & Hn). destruct (si_op i Est) as (i' & E & Hs' & Hd' & Hl' & Hh').
  unfold StreamRecvInterface_job_operation. rewrite E, Ed. cbn [lift pbind fst snd]. unfold connection_recv_if_handler_recv. cbn [errored recv_state with_recv_iface with_recv].
  rewrite He, Es. cbn [negb]. rewrite bool_decide_true by done. rewrite (proj2 (Z.gtb_lt _ _)) by lia. set (o2 := with_recv _ _ _ _ _).
  destruct (Hi He) as [[Hns Hnr] Hwp]. eapply wp_mono; [intros x s'; apply (con_ok_from (look s) (look s) o o2); try done|].
  - unfold recv_side_of. cbn. by rewrite Ei, Es, Est, Ed.
  - apply connection_recv_ok; try done.
    + destruct Hb as [H1 H2 H3 H4 H5]. split; try done. unfold recv_inv, o2. cbn. split; [change (v_rj (look s) <> None); by rewrite Hj|]. exists i', d. split_and!; try done; congruence || lia.
    + intros Hhup. cbn. intros Hwrite. by apply (Hwp Hhup).
Qed.

(** ** The connector, and the ends of a connection *)

(** The connection's part depends only on its own objects. *)
Lemma connection_inv_ext v v' w w' : connection w' = connection w -> v_fd v' = v_fd v -> v_sl v' = v_sl v -> v_rl v' = v_rl v -> v_sj v' = v_sj v -> v_rj v' = v_rj v ->
  connection_inv v w -> connection_inv v' w'.
Proof.
  intros E E1 E2 E3 E4 E5. unfold connection_inv, con_inv, not_stuck. rewrite E. destruct (connection w) as [o|]; [|by rewrite E1, E2, E3, E4, E5].
  intros [[K1 K2 K3 K4 K5] Hk]. rewrite E5. split; [split|done].
  - by rewrite E1.
  - done.
  - by rewrite E2, E3.
  - unfold send_inv in *. by rewrite E4.
  - unfold recv_inv in *. by rewrite E5.
Qed.

(** No connector: nothing is left of it. *)
Lemma nothing_ok s s0 w out : look s = look s0 -> inv (look s0) w -> connector w = None -> jobs_ok s ->
  (forall fd, balance fd out = 0) -> accept (port_of w) out = Some (port_of w) -> result_ok w (mkWorld None false (connection w), out) s.
Proof.
  intros El [Hc Hk] Ec Hok Hb Ha. split; [done|]. rewrite El. unfold connector_inv in Hc. rewrite Ec in Hc. destruct Hc as (H1 & H2 & H3). split; [split|].
  - done.
  - by eapply connection_inv_ext; [..|exact Hk].
  - split; [exact Ha|]. intros fd _. rewrite Hb. unfold held. cbn. rewrite Ec. lia.
Qed.

(** A new connector. *)
Lemma connected_ok s s0 w c : inv (look s0) w -> connector w = None -> jobs_ok s -> connector_inv (look s) (mkWorld (Some c) false (connection w)) ->
  v_fd (look s) = v_fd (look s0) -> v_sl (look s) = v_sl (look s0) -> v_rl (look s) = v_rl (look s0) -> v_sj (look s) = v_sj (look s0) -> v_rj (look s) = v_rj (look s0) ->
  result_ok w (mkWorld (Some c) false (connection w), [KSocket (co_fd c)]) s.
Proof.
  intros [_ Hk] Ec Hok Hi E1 E2 E3 E4 E5. split; [done|]. split; [split; [done|]|]; [by eapply connection_inv_ext; [..|exact Hk]|]. split; [done|].
  intros fd _. unfold held. cbn. rewrite Ec. lia.
Qed.

Lemma set_cj_back v x : v_cj v = None -> set_cj (set_cj v x) None = v.
Proof. destruct v. by intros [= ->]. Qed.
Lemma set_cfd_same v : v_cfd v = None -> set_cfd v None = v.
Proof. destruct v. by intros [= ->]. Qed.

Lemma connect_ok s w a fd nonblocking answer added : inv (look s) w -> jobs_ok s -> connector w = None -> (forall f, fd = Some f -> 0 <= f) ->
  wp s (do* (o, out) := BConnector_Init connector_bfd connector_job a fd nonblocking answer added in Ret (mkWorld o false (connection w), out)) (result_ok w).
Proof.
  intros Hi Hok Ec Hfd. pose proof Hi as [Hc Hk]. unfold connector_inv in Hc. rewrite Ec in Hc. destruct Hc as (H1 & H2 & H3). unfold BConnector_Init.
  destruct (BConnection_AddressSupported a) eqn:Ea; cbn [negb]; [|by apply (nothing_ok s s)].
  destruct (proj2 (addr_supported a) Ea) as [sys ->]. cbn [lift pbind]. apply wp_bind, wp_bind. eapply wp_cinit; [done|done|]. intros s1 Hok1 El.
  apply (wp_mono _ (fun x s' => result_ok w (mkWorld (x.1) false (connection w), x.2) s')); [by intros []|].
  assert (forall s2 out, look s2 = look s1 -> jobs_ok s2 -> (forall f, balance f out = 0) -> accept (port_of w) out = Some (port_of w) ->
    wp s2 (do call (Job (JFree connector_job)) ;; Ret (None, out)) (fun x s' => result_ok w (mkWorld (x.1) false (connection w), x.2) s')) as Hfail.
  { intros s2 out El2 Hok2 Hb Ha. apply wp_bind. eapply wp_cfree; [by rewrite El2, El|done|]. intros s3 Hok3 El3. cbn [wp fst snd].
    apply (nothing_ok s3 s); try done. rewrite El3, El2, El. by apply set_cj_back. }
  destruct fd as [f|]; [|by apply Hfail]. specialize (Hfd _ eq_refl).
  assert (forall g, balance g [KSocket f; KClose f] = 0) as Hb by (intros g; cbn; lia).
  destruct nonblocking; cbn [negb]; [|by apply Hfail]. destruct answer.
  - apply wp_bind. eapply wp_cset; [by rewrite El|done|]. intros s2 Hok2 El2. cbn [wp fst snd]. apply (connected_ok s2 s w (mkConnector f true false)); try done; rewrite ?El2, ?El; try done.
    unfold connector_inv. cbn. split_and!; try done; lia.
  - apply wp_cadd; [by rewrite El|done|]. intros s2 Hok2 El2. destruct added; cbn [negb].
    + apply wp_bind. eapply wp_cevents; [by rewrite El2|done|done|]. intros s3 Hok3 El3. cbn [wp fst snd]. apply (connected_ok s3 s w (mkConnector f false true)); try done; rewrite ?El3, ?El2, ?El; try done.
    + apply Hfail; try done. rewrite El2. apply set_cfd_same. by rewrite El.
  - by apply Hfail.
Qed.

Lemma connector_free_ok s w o : inv (look s) w -> jobs_ok s -> connector w = Some o ->
  wp s (do* out := BConnector_Free connector_bfd connector_job o in Ret (mkWorld None false (connection w), out)) (result_ok w).
Proof.
  intros [Hc Hk] Hok Ec. unfold connector_inv in Hc. rewrite Ec in Hc. unfold BConnector_Free. apply wp_bind, wp_bind.
  assert (v_cj (look s) <> None) as Hj by (destruct (have_bfd o); destruct Hc as (_ & H & Hc); [congruence|by destruct Hc]).
  apply (wp_mono _ (fun _ s1 => jobs_ok s1 /\ look s1 = set_cfd (look s) None)).
  2: { destruct (have_bfd o).
       - destruct Hc as ([e He] & _). eapply wp_cremove; [exact He|done|]. by intros s1 Hok1 El.
       - split; [done|]. symmetry. apply set_cfd_same. by destruct Hc. }
  intros _ s1 [Hok1 El1]. apply wp_bind. eapply wp_cfree; [by rewrite El1|done|]. intros s2 Hok2 El2. split; [done|]. cbn [fst snd]. split; [split|].
  - unfold connector_inv. cbn [connector established]. by rewrite El2, El1.
  - eapply connection_inv_ext; [..|exact Hk]; by rewrite ?El2, ?El1.
  - split; [by destruct (negb (co_fd o =? -1))|]. intros fd Hfd. unfold held. cbn. rewrite Ec. destruct (Z.eqb_spec (co_fd o) (-1)) as [E|E]; cbn; [|lia].
    rewrite E. destruct (Z.eqb_spec (-1) fd); [lia|]. cbn. lia.
Qed.

(** [connection_init], in a world without a connection. *)
Lemma connection_init_ok s fd cl added : v_fd (look s) = None -> v_sl (look s) = None -> v_rl (look s) = None -> v_sj (look s) = None -> v_rj (look s) = None -> jobs_ok s ->
  wp s (connection_init bfd send_limit recv_limit fd cl added) (fun x s' => jobs_ok s' /\ same_others (look s) (look s') /\
    match x.1 with
    | None => look s' = look s /\ x.2 = (if cl then [KClose fd] else [])
    | Some o => con_inv (look s') o /\ x.2 = [] /\ con_fd o = fd /\ close_fd o = cl /\ send_side_of o = SNone /\ recv_side_of o = RNone
    end).
Proof.
  intros H1 H2 H3 H4 H5 Hok. unfold connection_init. apply wp_add; [done|done|]. intros s1 Hok1 El1. destruct added; cbn [negb].
  - apply wp_limits; [by rewrite El1|by rewrite El1|done|]. intros s2 Hok2 El2. split; [done|]. cbn [fst snd]. rewrite El2, El1. split; [done|].
    split; [|done]. split; [split; try done|].
    intros _. by split.
  - split; [done|]. cbn [fst snd]. rewrite El1. split; [done|]. split; [|done]. destruct (look s). cbn in *. by rewrite H1.
Qed.

Lemma init_ok s w c added : inv (look s) w -> jobs_ok s -> connector w = Some c -> established w = true -> connection w = None ->
  wp s (do* (o, c, out) := BConnection_Init_connector bfd send_limit recv_limit connector_job c added in Ret (mkWorld (Some o) false c, out)) (result_ok w).
Proof.
  intros [Hc Hk] Hok Ec Ee Ek. unfold connector_inv in Hc. rewrite Ec in Hc. unfold connection_inv in Hk. rewrite Ek in Hk. destruct Hk as (K1 & K2 & K3 & K4 & K5).
  destruct (have_bfd c) eqn:Eb; [by destruct Hc as (_ & _ & _ & _ & Hc); congruence|]. destruct Hc as (H1 & H2 & H3 & H4 & H5). destruct (H4 Ee) as [Hcon Hfd].
  unfold BConnection_Init_connector. rewrite Hcon, Eb. rewrite (proj2 (Z.geb_le _ _)) by done. cbn [negb].
  assert (job_view s connector_job = Some false) as Hj.
  { cbn in H2, H3. destruct (job_view s connector_job) as [[]|]; [|done|done]. destruct (H2 eq_refl) as (_ & _ & H). congruence. }
  apply wp_bind. unfold job_view in Hj. destruct (decide (connector_job ∈ objs (s_jobs s))) as [Ho|]; [|done]. injection Hj as Hj.
  cbn [pbind call_bool wp spec_op fst snd op_legal]. split; [by apply bool_decide_eq_true|]. rewrite Hj. cbn [negb]. apply wp_bind.
  eapply wp_mono; [|apply (connection_init_ok s (co_fd c) true added); done]. intros [o out] s1 (Hok1 & [Hs1 Hs2] & Hx). cbn [fst snd wp] in *.
  assert (connector_inv (look s1) (mkWorld (Some (mkConnector (-1) true false)) false o)) as Hci.
  { unfold connector_inv. cbn [connector established have_bfd connected co_fd]. rewrite Hs1, Hs2. split_and!; try done.
    unfold job_view. cbn [look v_cj]. unfold job_view. rewrite decide_True by done. by rewrite Hj. }
  split; [done|]. destruct o as [o|].
  - destruct Hx as (Hi & -> & Hf & Hcl & Hs & Hr). cbn [fst snd]. split; [by split|]. split; [unfold port_of; cbn; by rewrite Ek, Hs, Hr|].
    intros fd Hfd'. unfold held. cbn -[Z.eqb]. rewrite Ec, Ek, Hf, Hcl, (proj2 (Z.eqb_neq (-1) fd)) by lia. cbn -[Z.eqb]. lia.
  - destruct Hx as [El ->]. cbn [fst snd]. split; [split; [done|unfold connection_inv; cbn [connection]; by rewrite El]|]. split; [unfold port_of; cbn; by rewrite Ek|].
    intros fd Hfd'. unfold held. cbn -[Z.eqb]. rewrite Ec, Ek, (proj2 (Z.eqb_neq (-1) fd)) by lia. cbn -[Z.eqb]. lia.
Qed.

Lemma init_pipe_ok s w fd nonblocking added : inv (look s) w -> jobs_ok s -> connection w = None -> 0 <= fd ->
  wp s (do* (c, out) := BConnection_Init_pipe bfd send_limit recv_limit fd nonblocking added in Ret (with_connection w c, out)) (result_ok w).
Proof.
  intros [Hc Hk] Hok Ek Hfd. pose proof Hk as Hk'. unfold connection_inv in Hk'. rewrite Ek in Hk'. destruct Hk' as (K1 & K2 & K3 & K4 & K5).
  assert (with_connection w None = w) as Ew by (destruct w; cbn in *; by subst).
  unfold BConnection_Init_pipe. rewrite (proj2 (Z.geb_le _ _)) by done. destruct nonblocking; cbn [negb].
  2: { cbn [pbind wp]. rewrite Ew. split; [done|]. split; [done|]. split; [done|]. intros f _. cbn. lia. }
  apply wp_bind. eapply wp_mono; [|apply (connection_init_ok s fd false added); done]. intros [o out] s1 (Hok1 & Hso & Hx). cbn [fst snd wp] in *.
  split; [done|]. cbn [fst snd]. destruct o as [o|].
  - destruct Hx as (Hi & -> & Hf & Hcl & Hs & Hr). split; [split; [by eapply connector_inv_ext|done]|]. split; [unfold port_of; cbn; by rewrite Ek, Hs, Hr|].
    intros f _. unfold held. cbn. rewrite Ek, Hcl. cbn. lia.
  - destruct Hx as [El ->]. rewrite Ew, El. split; [done|]. split; [done|]. intros f _. cbn. lia.
Qed.

Lemma free_ok_con s w o : inv (look s) w -> jobs_ok s -> connection w = Some o -> send_state o = SEND_STATE_NOT_INITED -> recv_state o = RECV_STATE_NOT_INITED ->
  wp s (do* out := BConnection_Free bfd send_limit recv_limit o in Ret (with_connection w None, out)) (result_ok w).
Proof.
  intros [Hc Hk] Hok Ek Es Er. unfold connection_inv in Hk. rewrite Ek in Hk. destruct Hk as [[H1 H2 [H3 H3'] H4 H5] _]. unfold send_inv in H4. unfold recv_inv in H5. rewrite Es in H4. rewrite Er in H5.
  unfold BConnection_Free. rewrite Es, Er. cbn [orb]. rewrite !bool_decide_true by done. cbn [orb].
  apply wp_bind, wp_limits_free; [by rewrite H3|by rewrite H3'|done|]. intros s1 Hok1 El1. apply wp_bind.
  apply (wp_mono _ (fun _ s2 => jobs_ok s2 /\ look s2 = set_fd (look s1) None)).
  2: { destruct (is_hupd o) eqn:Eh; cbn [negb].
       - split; [done|]. rewrite El1. unfold set_sl, set_rl, set_fd. cbn [v_cfd v_fd v_sl v_rl v_cj v_sj v_rj]. by rewrite H1.
       - eapply wp_remove; [by rewrite El1|done|]. by intros s2 Hok2 El2. }
  intros _ s2 [Hok2 El2]. split; [done|]. cbn [fst snd]. split; [split; [by eapply connector_inv_ext; [..|exact Hc]; rewrite ?El2, ?El1|]|].
  - unfold connection_inv. cbn [connection with_connection]. rewrite El2, El1. split_and!; try done; [by destruct H4|by destruct H5].
  - split; [unfold port_of; cbn; rewrite Ek; unfold send_side_of, recv_side_of; rewrite Es, Er; by destruct (close_fd o)|].
    intros fd _. unfold held. cbn. rewrite Ek. destruct (close_fd o); cbn; lia.
Qed.

(** ** The loop calls a handler *)

Lemma world_kept s w : jobs_ok s -> inv (look s) w -> wp s (Ret (w, [])) (result_ok w).
Proof. intros Hok Hi. split; [done|]. split; [done|]. split; [done|]. intros fd _. cbn. lia. Qed.

Lemma run_job_ok s s1 w p wa ra : inv (look s) w -> jobs_ok s1 -> look s1 = look_ran p (look s) -> job_view s p = Some true -> failed w = false -> job_ok w wa ra = true ->
  wp s1 (run_job bfd send_limit recv_limit connector_job send_job recv_job w p wa ra) (result_ok w).
Proof.
  intros [Hc Hk] Hok El Hp Hf Hw. unfold run_job. destruct (bool_decide (p = connector_job)) eqn:E1; [|destruct (bool_decide (p = send_job)) eqn:E2; [|destruct (bool_decide (p = recv_job)) eqn:E3]];
    rewrite ?bool_decide_eq_true, ?bool_decide_eq_false in *.
  - subst p. change (v_cj (look s) = Some true) in Hp. unfold connector_inv in Hc. destruct (connector w) as [c|] eqn:Ec; [|destruct Hc as (_ & Hc & _); congruence].
    destruct (have_bfd c) eqn:Eb; [destruct Hc as (_ & Hc & _); congruence|]. destruct Hc as (H1 & H2 & H3 & H4 & H5). destruct (H2 Hp) as (Hcon & Hfd & Hes).
    unfold connector_job_handler. cbn [lift pbind]. rewrite Hcon, Eb, (proj2 (Z.geb_le _ _)) by done. cbn [negb pbind wp]. split; [done|]. cbn [fst snd]. rewrite El. split; [split|].
    + unfold connector_inv. cbn [connector established]. rewrite Eb. unfold look_ran, ran. cbn [v_cfd v_cj]. rewrite decide_True by done. split_and!; try done.
    + eapply connection_inv_ext; [..|exact Hk]; unfold look_ran, ran; cbn [v_fd v_sl v_rl v_sj v_rj]; try done; by rewrite decide_False by congruence.
    + split; [done|]. intros fd _. unfold held. cbn. rewrite Ec. lia.
  - subst p. exfalso. change (v_sj (look s) = Some true) in Hp. unfold connection_inv in Hk. destruct (connection w) as [o|]; [|destruct Hk as (_ & _ & _ & Hk & _); congruence].
    destruct Hk as [[_ _ _ Hk _] _]. unfold send_inv in Hk. destruct (send_state o); destruct Hk as [Hk _]; congruence.
  - subst p. change (v_rj (look s) = Some true) in Hp. unfold connection_inv in Hk. destruct (connection w) as [o|] eqn:Ek; [|destruct Hk as (_ & _ & _ & _ & Hk); congruence].
    destruct Hk as [Hb Hi]. unfold failed in Hf. rewrite Ek in Hf. unfold job_ok in Hw. rewrite Ek in Hw. apply andb_true_iff in Hw as [_ Hw]. destruct (Hi Hf) as [[Hns _] Hwp].
    assert (recv_state o = RECV_STATE_BUSY) as Hr by (pose proof (cb_recv _ _ Hb) as H; unfold recv_inv in H; destruct (recv_state o); [destruct H; congruence|destruct H; congruence|done|destruct H; congruence|done]).
    apply (on_connection_ok s1 w o); [done| |].
    + eapply connector_inv_ext; [|done|done|exact Hc]. rewrite El. unfold look_ran, ran. split; cbn [v_cfd v_cj]; [done|by rewrite decide_False by congruence].
    + unfold connection_recv_job_handler. rewrite Hf, Hr. cbn [negb]. rewrite bool_decide_true by done. apply connection_recv_ok; try done.
      * destruct Hb as [B1 B2 B3 B4 B5]. rewrite El. unfold look_ran, ran. split; cbn [v_fd v_sl v_rl]; try done.
        -- unfold send_inv in *. cbn [v_sj]. by rewrite decide_False by congruence.
        -- unfold recv_inv in *. cbn [v_rj]. rewrite Hr, decide_True in * by done. by destruct B5 as [_ B5].
      * rewrite El. unfold look_ran, ran. cbn [v_rj]. by rewrite decide_True by done.
      * intros Hh Hwr. by apply (Hwp Hh).
  - apply world_kept; [done|]. rewrite El. unfold look_ran, ran. rewrite !decide_False by congruence. by split.
Qed.

Lemma run_called_ok s w now rounds so_error wa ra : inv (look s) w -> jobs_ok s -> failed w = false -> called_ok bfd w (spec_step s now rounds).1 wa ra = true ->
  wp (spec_step s now rounds).2 (run_called connector_bfd bfd send_limit recv_limit connector_job send_job recv_job w (spec_step s now rounds).1 so_error wa ra) (result_ok w).
Proof.
  intros Hi Hok Hf Hw. destruct (step_look s now rounds Hok) as [Hok1 H]. revert Hok1 H Hw. generalize (spec_step s now rounds) as x. intros [c s1]. cbn [fst snd]. intros Hok1 H Hw.
  destruct c as [code|p|t sm|bs ev| |ts|ts]; cbn [run_called]; try (apply world_kept; [done|by rewrite H]).
  - destruct H as [El Hp]. by eapply run_job_ok.
  - destruct H as (El & Hnj & e & Hv & Hev). rewrite <- El in Hi. assert (v_rj (look s1) <> Some true) as Hrj by (rewrite El; exact (Hnj recv_job)). pose proof Hi as [Hc Hk].
    destruct (Z.eqb_spec bs connector_bfd) as [->|Hn1]; [|destruct (Z.eqb_spec bs bfd) as [->|Hn2]].
    + unfold connector_inv in Hc. change (v_cfd (look s) = Some e) in Hv. rewrite <- El in Hv. destruct (connector w) as [o|] eqn:Ec; [|destruct Hc; congruence].
      destruct (have_bfd o) eqn:Eb; [|destruct Hc; congruence]. destruct Hc as (H1 & H2 & H3 & H4 & H5). cbn [lift pbind]. unfold connector_fd_handler.
      rewrite Eb, H3, (proj2 (Z.geb_le _ _)) by done. cbn [negb]. apply wp_bind, wp_bind. eapply wp_cremove; [exact Hv|done|]. intros s2 Hok2 El2. cbn [wp fst snd connected].
      split; [done|]. cbn [fst snd]. rewrite El2. split; [split|].
      * unfold connector_inv. cbn [connector established have_bfd connected co_fd set_cfd v_cfd v_cj]. rewrite H2. split_and!; try done. lia.
      * by eapply connection_inv_ext; [..|exact Hk].
      * split; [done|]. intros fd _. unfold held. cbn. rewrite Ec. lia.
    + change (v_fd (look s) = Some e) in Hv. rewrite <- El in Hv. unfold connection_inv in Hk. cbn [called_ok] in Hw. unfold failed in Hf. destruct (connection w) as [o|] eqn:Ek; [|destruct Hk; congruence].
      rewrite Z.eqb_refl in Hw. cbn [negb orb] in Hw. apply andb_true_iff in Hw as [Hwa Hra]. pose proof (cb_fd _ _ (proj1 Hk)) as Hfd. rewrite Hv in Hfd.
      destruct (is_hupd o) eqn:Eh; [done|]. injection Hfd as ->. apply (on_connection_ok s1 w o); [done|done|]. by apply fd_handler_ok.
    + by apply world_kept.
Qed.

Lemma run_sync_ok s w ref wa ra : inv (look s) w -> jobs_ok s -> op_legal s (Sync ref) = true -> failed w = false -> job_ok w wa ra = true ->
  wp s (step connector_bfd bfd send_limit recv_limit connector_job send_job recv_job w (EvSync ref wa ra)) (result_ok w).
Proof.
  intros Hi Hok Hl Hf Hw. unfold step, call_sync. cbn [pbind wp]. split; [done|]. cbn [op_legal] in Hl. cbn [spec_op]. destruct (s_exiting s); [by apply world_kept|].
  cbn [orb] in Hl. destruct (stack (s_jobs s)) as [|p l] eqn:Es; [done|]. destruct (bool_decide (p = ref)); [by apply world_kept|]. cbn [fst snd pbind].
  destruct (run_top s p l Es Hok) as (H1 & H2 & H3 & H4). eapply run_job_ok; [exact Hi|done|done|by apply job_set|done|done].
Qed.

Lemma usable_inv s w f : inv (look s) w -> usable w f = true -> exists o, connection w = Some o /\ errored o = false /\ f o = true /\ con_inv (look s) o.
Proof.
  intros [_ Hk] Hu. unfold usable in Hu. unfold connection_inv in Hk. destruct (connection w) as [o|]; [|done]. apply andb_true_iff in Hu as [He Hf].
  apply negb_true_iff in He. by exists o.
Qed.

Abbreviation enabled_ := (enabled connector_bfd bfd send_limit recv_limit connector_job send_job recv_job).
Abbreviation step_ := (step connector_bfd bfd send_limit recv_limit connector_job send_job recv_job).

Lemma step_ok s w e : inv (look s) w -> jobs_ok s -> enabled_ s w e = true -> wp s (step_ w e) (result_ok w).
Proof.
  intros Hi Hok He. pose proof Hi as [Hc Hk]. destruct e as [a fd nb ans added| |added|fd nb added| | |data| | |to avail| |wa| |ra| |now rounds so wa ra|ref wa ra|o]; cbn [enabled] in He.
  - apply andb_true_iff in He as [H1 H2]. apply bool_decide_eq_true in H1. apply connect_ok; [done|done|done|]. intros f ->. by apply Z.leb_le.
  - destruct (connector w) as [c|] eqn:Ec; [|done]. cbn [step]. rewrite Ec. cbn [lift pbind]. by apply connector_free_ok.
  - apply andb_true_iff in He as [H1 H2]. apply bool_decide_eq_true in H2. cbn [step]. unfold connector_inv in Hc. destruct (connector w) as [c|] eqn:Ec; [|destruct Hc as (_ & _ & Hc); congruence].
    cbn [lift pbind]. by apply init_ok.
  - apply andb_true_iff in He as [H1 H2]. apply bool_decide_eq_true in H1. apply init_pipe_ok; [done|done|done|by apply Z.leb_le].
  - destruct (connection w) as [o|] eqn:Ek; [|done]. apply andb_true_iff in He as [H1 H2]. apply bool_decide_eq_true in H1, H2. cbn [step]. rewrite Ek. cbn [lift pbind]. by apply free_ok_con.
  - destruct (usable_inv _ _ _ Hi He) as (o & Ek & Ee & Hf & Hk'). apply bool_decide_eq_true in Hf. apply (on_connection_ok s w o); [done|done|]. by apply send_init_ok.
  - destruct (usable_inv _ _ _ Hi He) as (o & Ek & Ee & [Hf1 Hf2]%andb_true_iff & Hk'). apply (on_connection_ok s w o); [done|done|]. apply send_start_ok; [done|done|done|by apply Z.ltb_lt].
  - destruct (connection w) as [o|] eqn:Ek; [|done]. apply bool_decide_eq_true in He. unfold connection_inv in Hk. rewrite Ek in Hk. apply (on_connection_ok s w o); [done|done|]. by apply send_free_ok.
  - destruct (usable_inv _ _ _ Hi He) as (o & Ek & Ee & Hf & Hk'). apply bool_decide_eq_true in Hf. apply (on_connection_ok s w o); [done|done|]. by apply recv_init_ok.
  - destruct (usable_inv _ _ _ Hi He) as (o & Ek & Ee & [Hf1 Hf2]%andb_true_iff & Hk'). apply (on_connection_ok s w o); [done|done|]. apply recv_start_ok; [done|done|done|by apply Z.ltb_lt].
  - destruct (connection w) as [o|] eqn:Ek; [|done]. apply bool_decide_eq_true in He. unfold connection_inv in Hk. rewrite Ek in Hk. apply (on_connection_ok s w o); [done|done|]. by apply recv_free_ok.
  - destruct (usable_inv _ _ _ Hi He) as (o & Ek & Ee & [Hf1 Hf2]%andb_true_iff & Hk'). apply (on_connection_ok s w o); [done|done|]. by apply send_job_ok.
  - destruct (usable_inv _ _ _ Hi He) as (o & Ek & Ee & Hf & Hk'). apply (on_connection_ok s w o); [done|done|]. by apply send_done_ok.
  - destruct (usable_inv _ _ _ Hi He) as (o & Ek & Ee & [Hf1 Hf2]%andb_true_iff & Hk'). apply (on_connection_ok s w o); [done|done|]. by apply recv_job_ok.
  - destruct (usable_inv _ _ _ Hi He) as (o & Ek & Ee & Hf & Hk'). apply (on_connection_ok s w o); [done|done|]. by apply recv_done_ok.
  - apply andb_true_iff in He as [[Hf Hl]%andb_true_iff Hw]. apply negb_true_iff in Hf. cbn [step]. unfold call_step. cbn [pbind wp spec_op fst snd]. split; [done|]. by apply run_called_ok.
  - apply andb_true_iff in He as [[Hf Hl]%andb_true_iff Hw]. apply negb_true_iff in Hf. by apply run_sync_ok.
  - apply andb_true_iff in He as [Hl Hf]. cbn [step pbind wp call]. split; [done|]. destruct (foreign_ok _ _ Hf Hl Hok) as [Hok1 El]. cbn [wp]. split; [done|]. rewrite El.
    split; [done|]. split; [done|]. intros fd _. cbn. lia.
Qed.

(** ** Histories *)

Lemma steps_ok es : forall s w, inv (look s) w -> jobs_ok s -> legal connector_bfd bfd send_limit recv_limit connector_job send_job recv_job s w es = true ->
  wp s (steps connector_bfd bfd send_limit recv_limit connector_job send_job recv_job w es) (result_ok w).
Proof.
  induction es as [|e es IH]; intros s w Hi Hok Hl; cbn [steps legal] in *; [by apply world_kept|].
  apply andb_true_iff in Hl as [He Hl]. pose proof (step_ok s w e Hi Hok He) as Hs. apply wp_bind.
  destruct (wp_result _ _ _ Hs) as ([w1 out1] & s1 & E1 & Hs2). rewrite E1 in Hl.
  eapply wp_mono; [|exact Hs2]. intros [w' out'] s' ((Hok1 & Hi1 & Ha1 & Hb1) & [= -> ->] & ->). cbn [fst snd] in *. apply wp_bind.
  eapply wp_mono; [|by apply IH]. intros [w2 out2] s2 (Hok2 & Hi2 & Ha2 & Hb2). cbn [wp fst snd] in *. split; [done|]. split; [done|]. cbn [fst snd].
  split; [by rewrite accept_app, Ha1|]. intros fd Hfd. rewrite balance_app, Hb1, Hb2 by done. lia.
Qed.
End Props.

(** ** What holds on the reactor *)

Section Results.
Context (connector_bfd bfd send_limit recv_limit : Z) (connector_job send_job recv_job : addr).
Hypothesis (Hfds : connector_bfd <> bfd) (Hlims : send_limit <> recv_limit).
Hypothesis (Hj1 : connector_job <> send_job) (Hj2 : connector_job <> recv_job) (Hj3 : send_job <> recv_job).

Abbreviation steps_ := (steps connector_bfd bfd send_limit recv_limit connector_job send_job recv_job).
Abbreviation legal_ := (legal connector_bfd bfd send_limit recv_limit connector_job send_job recv_job).

Definition no_objects : world := mkWorld None false None.

Lemma history junk es : legal_ (s_init junk) no_objects es = true ->
  exists w out r s, interp (BReactor_Init junk) (steps_ no_objects es) = Some ((w, out), r) /\ holds_reactor r s /\
    result_ok connector_bfd bfd send_limit recv_limit connector_job send_job recv_job no_objects (w, out) s.
Proof.
  intros Hl. assert (wp (s_init junk) (steps_ no_objects es) (result_ok connector_bfd bfd send_limit recv_limit connector_job send_job recv_job no_objects)) as H.
  { apply steps_ok; try assumption; [split; [done|by split_and!]|split; [constructor|by intros p ?%elem_of_nil]]. }
  destruct (@wp_interp BReactor BReactor_port _ _ _ (BReactor_Init junk) _ (holds_reactor_init junk) H) as ([w out] & r & s & E & Hr & Hok). exists w, out, r, s. done.
Qed.

(** What a reactor knows of a descriptor, a limit and a job. *)
Definition waits_for (r : BReactor) (bs : Z) : option Z := let* b := fds r !! bs in if active b then Some (waitEvents b) else None.
Definition job_of (r : BReactor) (p : addr) : option bool :=
  if decide (p ∈ dom (g_heap (pending_jobs r))) then g_pending (pending_jobs r) !! p else None.

Lemma waits_view r s bs : holds_reactor r s -> waits_for r bs = fd_view s bs.
Proof. intros H. unfold waits_for, fd_view. rewrite (hf_fds _ _ _ _ _ (hr_fds _ _ H)). by destruct (fds r !! bs) as [b|]. Qed.

Lemma limits_view r s l : holds_reactor r s -> limit <$> limits r !! l = limit_view s l.
Proof. intros H. unfold limit_view. rewrite (limits_lookup _ _ _ _ l (hr_limits _ _ H)). by destruct (s_limits s !! l) as [[]|]. Qed.

Lemma job_of_view r s p : holds_reactor r s -> job_of r p = job_view s p.
Proof.
  intros H. unfold job_of, job_view. pose proof (hr_jobs _ _ H) as Hj. rewrite (gr_dom _ _ Hj). destruct (decide _) as [Hp|]; [|done]. by apply (gr_pending _ _ Hj).
Qed.

(** C22. Connecting, sending and receiving are safe: as long as the kernel fails the read or
    write after an event that reports only an error ([ready]), whatever else it answers, and whatever the
    user and the other users of the reactor do within their interfaces, in any order, no assertion fails in the
    connector, the connection or the reactor; sockets are closed exactly once, by whom
    holds them, when the connector fails or is freed or the connection is; and when both
    are freed the reactor knows nothing of their descriptors, limits and jobs any more. *)
Theorem connection_safe junk es : legal_ (s_init junk) no_objects es = true ->
  exists w out r, interp (BReactor_Init junk) (steps_ no_objects es) = Some ((w, out), r) /\
    (forall fd, 0 <= fd -> balance fd out = held w fd) /\
    (connector w = None -> waits_for r connector_bfd = None /\ job_of r connector_job = None) /\
    (connection w = None -> waits_for r bfd = None /\ limits r !! send_limit = None /\ limits r !! recv_limit = None /\ job_of r send_job = None /\ job_of r recv_job = None).
Proof.
  intros Hl. destruct (history _ _ Hl) as (w & out & r & s & E & Hr & (_ & [Hc Hk] & _ & Hb)). exists w, out, r. split; [done|].
  split; [intros fd Hfd; rewrite Hb by done; unfold held at 2; cbn; lia|]. rewrite !(waits_view _ _ _ Hr), !(job_of_view _ _ _ Hr). split.
  - intros Ec. unfold connector_inv in Hc. cbn [fst] in Hc. rewrite Ec in Hc. by destruct Hc as (H1 & H2 & _).
  - intros Ek. unfold connection_inv in Hk. cbn [fst] in Hk. rewrite Ek in Hk. destruct Hk as (H1 & H2 & H3 & H4 & H5). pose proof (limits_view r s send_limit Hr) as L1. pose proof (limits_view r s recv_limit Hr) as L2.
    cbn in H2, H3. rewrite H2 in L1. rewrite H3 in L2. apply fmap_None in L1, L2. by split_and!.
Qed.

(** C21. The traffic of a connection is exact: each operation of its user writes one
    non-empty prefix of the data, once, or reads once into the user's buffer, not more
    than fits, and is then reported with that number of bytes; nothing is written or read
    otherwise, through waits, limits, hang-ups and errors, and nothing after the end. *)
Theorem connection_io_exact junk es w out r : legal_ (s_init junk) no_objects es = true ->
  interp (BReactor_Init junk) (steps_ no_objects es) = Some ((w, out), r) -> accept (SNone, RNone) out = Some (port_of w).
Proof.
  intros Hl E. destruct (history _ _ Hl) as (w' & out' & r' & s & E' & Hr & (_ & _ & Ha & _)). rewrite E in E'. injection E' as <- <- <-. exact Ha.
Qed.

(** C25. A connection is never stuck: unless an error was reported, data to send waits for
    the descriptor to be writable, in the reactor, and a receive operation waits for it to
    be readable or its job is set. And the reactor reports no readiness for which no
    operation is in progress. *)
Theorem connection_progress junk es w out r o : legal_ (s_init junk) no_objects es = true ->
  interp (BReactor_Init junk) (steps_ no_objects es) = Some ((w, out), r) -> connection w = Some o -> errored o = false ->
  (send_state o = SEND_STATE_BUSY -> exists e, waits_for r bfd = Some e /\ has e BREACTOR_WRITE = true) /\
  (recv_state o = RECV_STATE_BUSY -> job_of r recv_job = Some true \/ exists e, waits_for r bfd = Some e /\ has e BREACTOR_READ = true) /\
  (forall e, waits_for r bfd = Some e -> (has e BREACTOR_WRITE = true -> send_state o = SEND_STATE_BUSY) /\ (has e BREACTOR_READ = true -> recv_state o = RECV_STATE_BUSY)).
Proof.
  intros Hl E Ek He. destruct (history _ _ Hl) as (w' & out' & r' & s & E' & Hr & (_ & [_ Hk] & _)). rewrite E in E'. injection E' as <- <- <-.
  unfold connection_inv in Hk. cbn [fst] in Hk. rewrite Ek in Hk. destruct Hk as [Hb Hi]. destruct (Hi He) as [[Hs Hrv] Hw]. pose proof (cb_fd _ _ Hb) as Hfd. cbn [v_fd look] in Hfd.
  rewrite (waits_view _ _ _ Hr), (job_of_view _ _ _ Hr), Hfd. split; [|split].
  - intros H. destruct (Hs H) as [-> H2]. eauto.
  - intros H. destruct (Hrv H) as [H1|[-> H2]]; [by left|right; eauto].
  - intros e. destruct (is_hupd o) eqn:Eh; [done|]. intros [= <-]. by apply Hw.
Qed.
End Results.

(** A connection that is made, sends, waits and receives, is hung up while both wait, and
    reads the end. *)
Definition kernel (bs : Z) (r w e h : bool) : list wait_round := [(WReturned [mkEvent (Some bs) r w e h], 0)].
Definition quiet_step (rounds : list wait_round) : event := EvStep 0 rounds None WriteAgain ReadAgain.
Definition demo_history : list event :=
  [EvConnect (BADDR_IPV4 1 2) (Some 9) true ConnectInProgress true; quiet_step (kernel 1 false true false false); EvStep 0 [] (Some 0) WriteAgain ReadAgain;
   EvInit true; EvConnectorFree; EvSendInit; EvRecvInit; EvSend [1; 2; 3]; EvSendJob (Wrote 2); EvSendDoneJob; EvSend [3]; EvSendJob WriteAgain; EvRecv 100 8; EvRecvJob ReadAgain;
   quiet_step (kernel 2 true true false true); EvStep 0 [] None (Wrote 1) ReadAgain].
Definition demo_end : list event :=
  [EvStep 0 [] None WriteAgain (GotData [7; 8]); EvSendDoneJob; EvRecvDoneJob; EvRecv 100 8; EvRecvJob (GotData []); EvSendFree; EvRecvFree; EvFree].

Definition demo_run (es : list event) : (world * list obs) * BReactor :=
  match interp (BReactor_Init 0) (steps 1 2 3 4 5 6 7 no_objects es) with Some x => x | None => ((no_objects, []), BReactor_Init 0) end.

Lemma connection_safe_witness :
  exists w out r, interp (BReactor_Init 0) (steps 1 2 3 4 5 6 7 no_objects (demo_history ++ demo_end)) = Some ((w, out), r) /\
    (forall fd, 0 <= fd -> balance fd out = held w fd) /\
    (connector w = None -> waits_for r 1 = None /\ job_of r 5 = None) /\
    (connection w = None -> waits_for r 2 = None /\ limits r !! 3 = None /\ limits r !! 4 = None /\ job_of r 6 = None /\ job_of r 7 = None).
Proof.
  exact (connection_safe 1 2 3 4 5 6 7 ltac:(lia) ltac:(lia) ltac:(congruence) ltac:(congruence) ltac:(congruence) 0 (demo_history ++ demo_end) ltac:(vm_compute; reflexivity)).
Defined.

Lemma connection_io_exact_witness : accept (SNone, RNone) (demo_run (demo_history ++ demo_end)).1.2 = Some (SNone, RNone).
Proof.
  exact (connection_io_exact 1 2 3 4 5 6 7 ltac:(lia) ltac:(lia) ltac:(congruence) ltac:(congruence) ltac:(congruence) 0 (demo_history ++ demo_end) _ _ (demo_run (demo_history ++ demo_end)).2
    ltac:(vm_compute; reflexivity) ltac:(vm_compute; reflexivity)).
Defined.

Definition demo_connection : BConnection := default (mkConnection 0 false false 0 None [] 0 SEND_STATE_NOT_INITED None None 0 RECV_STATE_NOT_INITED true) (connection (demo_run demo_history).1.1).

Lemma connection_progress_witness : recv_state demo_connection = RECV_STATE_BUSY /\ job_of (demo_run demo_history).2 7 = Some true.
Proof.
  assert (recv_state demo_connection = RECV_STATE_BUSY) as Hb by (vm_compute; reflexivity). split; [exact Hb|].
  destruct (connection_progress 1 2 3 4 5 6 7 ltac:(lia) ltac:(lia) ltac:(congruence) ltac:(congruence) ltac:(congruence) 0 demo_history (demo_run demo_history).1.1 (demo_run demo_history).1.2 (demo_run demo_history).2
    demo_connection ltac:(vm_compute; reflexivity) ltac:(vm_compute; reflexivity) ltac:(vm_compute; reflexivity) ltac:(vm_compute; reflexivity)) as (_ & H & _).
  destruct (H Hb) as [H1|(e & He & _)]; [exact H1|]. exfalso. vm_compute in He. discriminate He.
Defined.

Example demo_traffic : List.filter (fun x => match x with KWrite _ | KRead _ _ | RSent _ | RReceived _ | RRecvClosed | KClose _ => true | _ => false end) (demo_run (demo_history ++ demo_end)).1.2 =
  [KWrite [1; 2]; RSent 2; KWrite [3]; KRead 100 [7; 8]; RSent 1; RReceived 2; RRecvClosed; KClose 9].
Proof. vm_compute. reflexivity. Qed.

(** The rule that a reported error fails the next call is needed: the handler leaves the
    event it waited for registered when it goes on because of an error alone. Had the
    read succeeded, the next event would find no operation in progress. *)
Definition error_history : list event :=
  [EvInitPipe 9 true true; EvRecvInit; EvRecv 100 8; EvRecvJob ReadAgain; quiet_step (kernel 2 false false true false); EvStep 0 [] None WriteAgain (GotData [7]);
   quiet_step (kernel 2 true false false false); EvStep 0 [] None WriteAgain ReadAgain].

Example error_without_readiness :
  is_Some (interp (BReactor_Init 0) (steps 1 2 3 4 5 6 7 no_objects (removelast error_history))) /\
  interp (BReactor_Init 0) (steps 1 2 3 4 5 6 7 no_objects error_history) = None.
Proof. split; [by vm_compute; eexists|vm_compute; reflexivity]. Qed.
