(* ===== verification/ConnTrees.v ===== *)
(** * The trees of connections

    The keys and comparators of the trees in [udpgw_client/UdpGwClient.c] and
    [tun2socks/tun2socks.c], with [BAddr_CompareOrder] of [system/BAddr.h]: they
    order the keys totally and take only equal keys for equal, so that a tree
    answers as the finite map that the models of those files use. For the table of
    DNS connections this is carried through: the functions of [tun2socks.c] on
    [malloc]ed structures linked in the tree, as they are written, do what their
    models in [Device] do on a map. *)

From stdpp Require Import sorting.
From S2P Require Import Prelude ByteOrder FairQueue Device UdpGw BAVL BAVLSpec.

(** ** Comparators *)

(** [tun2socks.c] *)
Definition port_comparator (v1 v2 : Z) : Z := if v1 =? v2 then 0 else if v1 >? v2 then 1 else -1.

(** [UdpGwClient.c] *)
Definition uint16_comparator (v1 v2 : Z) : Z := B_COMPARE v1 v2.

(** [memcmp(a, b, n)]: the difference of the first bytes that differ. *)
Fixpoint memcmp (n : nat) (a b : list Z) : Z :=
  match n with
  | O => 0
  | S n => let d := hd 0 a - hd 0 b in if d =? 0 then memcmp n (tl a) (tl b) else d
  end.

Definition baddr_type (a : BAddr) : Z := match a with BADDR_NONE => 0 | BADDR_IPV4 _ _ => 1 | BADDR_IPV6 _ _ => 2 end.

Definition BAddr_CompareOrder (addr1 addr2 : BAddr) : Z :=
  let cmp := B_COMPARE (baddr_type addr1) (baddr_type addr2) in
  if negb (cmp =? 0) then cmp
  else match addr1, addr2 with
       | BADDR_IPV4 ip1 port1, BADDR_IPV4 ip2 port2 =>
           let cmp := B_COMPARE (ntoh32 ip1) (ntoh32 ip2) in
           if negb (cmp =? 0) then cmp else B_COMPARE (ntoh16 port1) (ntoh16 port2)
       | BADDR_IPV6 ip1 port1, BADDR_IPV6 ip2 port2 =>
           let cmp := memcmp 16 ip1 ip2 in
           if negb (cmp =? 0) then B_COMPARE cmp 0 else B_COMPARE (ntoh16 port1) (ntoh16 port2)
       | _, _ => 0
       end.

(** The keys of the model are the local and the remote address. *)
Definition conaddr_comparator (v1 v2 : conaddr_t) : Z :=
  let r := BAddr_CompareOrder (v1.2) (v2.2) in
  if negb (r =? 0) then r else BAddr_CompareOrder (v1.1) (v2.1).

(** ** The comparators order the keys *)

#[global] Instance compare_mem n : Comparator (fun a b => B_COMPARE (memcmp n a b) 0).
Proof.
  induction n as [|n IH]; [split; simpl; unfold B_COMPARE; simpl; auto|].
  eapply (comparator_ext (lex (fun a b => B_COMPARE (hd 0 a) (hd 0 b)) (fun a b => B_COMPARE (memcmp n (tl a) (tl b)) 0))).
  - intros a b. unfold lex. simpl. destruct (Z.eqb_spec (hd 0 a - hd 0 b) 0) as [E|E];
      destruct (B_COMPARE_cases (hd 0 a) (hd 0 b)) as [[? E'] | [[? E'] | [? E']]]; rewrite E'; simpl; try lia; try done;
      destruct (B_COMPARE_cases (hd 0 a - hd 0 b) 0); lia.
  - apply compare_lex; [|apply (compare_on (@tl Z) _ IH)]. apply (compare_on (hd 0) _ _).
Qed.

#[global] Instance port_comparator_ok : Comparator port_comparator.
Proof.
  eapply comparator_ext; [|apply compare_int]. intros a b. unfold port_comparator.
  destruct (B_COMPARE_cases a b) as [[? ->] | [[? ->] | [? ->]]]; repeat case_match; lia.
Qed.

#[global] Instance uint16_comparator_ok : Comparator uint16_comparator.
Proof. apply compare_int. Qed.

(** The address and the port, for the addresses of each type. *)
Definition key4 (a : BAddr) : Z * Z := match a with BADDR_IPV4 ip p => (ntoh32 ip, ntoh16 p) | _ => (0, 0) end.
Definition key6 (a : BAddr) : list Z * Z := match a with BADDR_IPV6 ip p => (ip, ntoh16 p) | _ => ([], 0) end.

#[global] Instance BAddr_CompareOrder_ok : Comparator BAddr_CompareOrder.
Proof.
  eapply (comparator_ext (lex (fun a b => B_COMPARE (baddr_type a) (baddr_type b))
    (lex (lex (fun a b => B_COMPARE ((key4 a).1) ((key4 b).1)) (fun a b => B_COMPARE ((key4 a).2) ((key4 b).2)))
         (lex (fun a b => B_COMPARE (memcmp 16 ((key6 a).1) ((key6 b).1)) 0) (fun a b => B_COMPARE ((key6 a).2) ((key6 b).2)))))).
  - intros a b. unfold lex, BAddr_CompareOrder. destruct a as [|ip1 p1|ip1 p1], b as [|ip2 p2|ip2 p2]; try reflexivity.
    + cbn [baddr_type key4 key6 fst snd]. change (B_COMPARE 1 1) with 0. cbn [negb Z.eqb].
      change (B_COMPARE (memcmp 16 [] []) 0) with 0. change (B_COMPARE 0 0) with 0. cbn [negb Z.eqb].
      destruct (negb (B_COMPARE (ntoh32 ip1) (ntoh32 ip2) =? 0)) eqn:E; [by rewrite E|]. by destruct (Z.eqb_spec (B_COMPARE (ntoh16 p1) (ntoh16 p2)) 0).
    + cbn [baddr_type key4 key6 fst snd]. change (B_COMPARE 2 2) with 0. change (B_COMPARE 0 0) with 0. cbn [negb Z.eqb].
      destruct (B_COMPARE_cases (memcmp 16 ip1 ip2) 0) as [[? E] | [[? E] | [? E]]]; rewrite E; destruct (Z.eqb_spec (memcmp 16 ip1 ip2) 0); try lia; done.
  - repeat apply compare_lex.
    + apply (compare_on baddr_type _ _).
    + apply (compare_on (fun a => (key4 a).1) _ _).
    + apply (compare_on (fun a => (key4 a).2) _ _).
    + apply (compare_on (fun a => (key6 a).1) _ (compare_mem 16)).
    + apply (compare_on (fun a => (key6 a).2) _ _).
Qed.

#[global] Instance conaddr_comparator_ok : Comparator conaddr_comparator.
Proof.
  apply (comparator_ext (lex (fun a b => BAddr_CompareOrder a.2 b.2) (fun a b => BAddr_CompareOrder a.1 b.1))); [done|].
  apply compare_lex; [apply (compare_on snd _ _)|apply (compare_on fst _ _)].
Qed.

(** ** Only equal keys compare equal *)

Class KeyComparator {K} (good : K -> Prop) (cmp : K -> K -> Z) : Prop :=
  cmp_zero : forall a b, good a -> good b -> cmp a b = 0 -> a = b.

Definition baddr_ok (a : BAddr) : Prop :=
  match a with
  | BADDR_NONE => True
  | BADDR_IPV4 ip p => 0 <= ip < 4294967296 /\ 0 <= p < 65536
  | BADDR_IPV6 ip p => length ip = 16%nat /\ 0 <= p < 65536
  end.
Definition conaddr_ok (a : conaddr_t) : Prop := baddr_ok (a.1) /\ baddr_ok (a.2).

Lemma B_COMPARE_zero x y : B_COMPARE x y = 0 -> x = y.
Proof. destruct (B_COMPARE_cases x y); lia. Qed.

Lemma memcmp_zero n : forall a b, length a = n -> length b = n -> memcmp n a b = 0 -> a = b.
Proof.
  induction n as [|n IH]; intros [|x a] [|y b] Ha Hb E; simpl in *; try lia; [done|]. destruct (Z.eqb_spec (x - y) 0) as [E'|E']; [|lia].
  replace y with x by lia. f_equal. apply IH; lia || done.
Qed.

Lemma bytes32 x : 0 <= x < 4294967296 ->
  x = x mod 256 + 256 * ((x / 256) mod 256) + 65536 * ((x / 65536) mod 256) + 16777216 * ((x / 16777216) mod 256).
Proof. intros H. dm. Qed.

Lemma ntoh32_inj x y : 0 <= x < 4294967296 -> 0 <= y < 4294967296 -> ntoh32 x = ntoh32 y -> x = y.
Proof.
  unfold ntoh32, hton32, u32, badvpn_reverse32. intros Hx Hy. rewrite (Z.mod_small x 4294967296), (Z.mod_small y 4294967296) by lia. intros E.
  rewrite (bytes32 x Hx), (bytes32 y Hy).
  assert (forall z, 0 <= z mod 256 < 256) as B by (intros; apply Z.mod_pos_bound; lia).
  pose proof (B x). pose proof (B (x / 256)). pose proof (B (x / 65536)). pose proof (B (x / 16777216)).
  pose proof (B y). pose proof (B (y / 256)). pose proof (B (y / 65536)). pose proof (B (y / 16777216)). lia.
Qed.

Lemma ntoh16_inj x y : 0 <= x < 65536 -> 0 <= y < 65536 -> ntoh16 x = ntoh16 y -> x = y.
Proof. intros Hx Hy E. by rewrite <- (hton16_ntoh16 x Hx), E, hton16_ntoh16. Qed.

#[global] Instance BAddr_CompareOrder_key : KeyComparator baddr_ok BAddr_CompareOrder.
Proof.
  intros a b Ha Hb. unfold BAddr_CompareOrder. destruct a as [|ip1 p1|ip1 p1], b as [|ip2 p2|ip2 p2]; try done; cbn [baddr_type].
  - change (B_COMPARE 1 1) with 0. cbn [negb Z.eqb]. destruct Ha, Hb. destruct (Z.eqb_spec (B_COMPARE (ntoh32 ip1) (ntoh32 ip2)) 0) as [E|E]; simpl; intros E'; [|lia].
    apply B_COMPARE_zero in E, E'. f_equal; [by apply ntoh32_inj|by apply ntoh16_inj].
  - change (B_COMPARE 2 2) with 0. cbn [negb Z.eqb]. destruct Ha, Hb. destruct (Z.eqb_spec (memcmp 16 ip1 ip2) 0) as [E|E]; cbn [negb]; intros E'.
    + apply B_COMPARE_zero in E'. f_equal; [by apply (memcmp_zero 16)|by apply ntoh16_inj].
    + apply B_COMPARE_zero in E'. done.
Qed.

#[global] Instance conaddr_comparator_key : KeyComparator conaddr_ok conaddr_comparator.
Proof.
  intros [a1 a2] [b1 b2] [Ha1 Ha2] [Hb1 Hb2]. unfold conaddr_comparator. cbn [fst snd] in *.
  destruct (Z.eqb_spec (BAddr_CompareOrder a2 b2) 0) as [E|E]; cbn [negb]; intros E'; [|done]. f_equal; by apply (cmp_zero (good := baddr_ok) (cmp := BAddr_CompareOrder)).
Qed.

#[global] Instance uint16_comparator_key : KeyComparator (fun _ => True) uint16_comparator.
Proof. intros a b _ _. apply B_COMPARE_zero. Qed.

#[global] Instance port_comparator_key : KeyComparator (fun _ => True) port_comparator.
Proof. intros a b _ _. unfold port_comparator. repeat case_match; lia. Qed.

(** ** A tree as a finite map *)

Section TreeMap.
Context {K : Type} `{Countable K} (good : K -> Prop) (cmp : K -> K -> Z) `{!Comparator cmp, !KeyComparator good cmp}.

(** The map from keys to nodes that the operations maintain. *)
Definition map_step (m : gmap K Z) (op : @tree_op K) : gmap K Z :=
  match op with
  | OpInsert node val => match m !! val with None => <[val := node]> m | Some _ => m end
  | OpRemove node => filter (fun kv => kv.2 <> node) m
  | _ => m
  end.
Definition map_all (m : gmap K Z) (ops : list tree_op) : gmap K Z := foldl map_step m ops.

Definition op_good (op : @tree_op K) : Prop := match op with OpInsert _ val => good val | _ => True end.

(** The map holds the nodes of the list under their values. *)
Definition is_map (value : Z -> K) (l : list Z) (m : gmap K Z) : Prop :=
  (forall p, p ∈ l -> good (value p)) /\ forall k p, m !! k = Some p <-> p ∈ l /\ value p = k.

Lemma cmp_refl a : cmp a a = 0.
Proof. pose proof (cmp_sym a a). lia. Qed.

Lemma equal_lookup value l m val :
  StronglySorted (lt_node value cmp) l -> is_map value l m -> good val -> equal value cmp val l = m !! val.
Proof.
  intros Hs [Hg Hm] Hv. destruct (m !! val) as [p|] eqn:E.
  - apply Hm in E as [Hp Ev]. apply equal_found; [done|done|done|]. rewrite Ev. apply cmp_refl.
  - unfold equal. destruct (List.find _ l) as [q|] eqn:Eq; [|done]. apply List.find_some in Eq as [Hq Eq]. apply list_elem_of_In in Hq.
    assert (val = value q) as -> by (apply cmp_zero; [done|by apply Hg|lia]).
    assert (m !! value q = Some q) as E' by (by apply Hm). congruence.
Qed.

Lemma elem_insert_at value val l node p :
  StronglySorted (lt_node value cmp) l -> equal value cmp val l = None ->
  p ∈ lower value cmp val l ++ node :: upper value cmp val l <-> p = node \/ p ∈ l.
Proof.
  intros Hs Heq. rewrite elem_of_app, elem_of_cons. unfold lower, upper. rewrite !list_elem_of_In, !filter_In. split; [tauto|].
  intros [->|Hp]; [by right; left|]. pose proof (List.find_none _ _ Heq p Hp) as Hne. cbv beta in Hne.
  destruct (cmp_range val (value p)) as [E | [E | E]]; rewrite E in *; [right; right|done|left]; done.
Qed.

Lemma map_step_ok value l m op :
  StronglySorted (lt_node value cmp) l -> is_map value l m -> op_good op -> ref_legal (value, l) op = true ->
  is_map (ref_step cmp (value, l) op).1 (ref_step cmp (value, l) op).2 (map_step m op).
Proof.
  intros Hs Hm Hg Hl. destruct op as [node val|node|val|val| | | |node|node]; try done; cbn [ref_step ref_legal map_step op_good fst snd] in *.
  - apply bool_decide_eq_true in Hl. set (v2 := write node val value).
    assert (forall p, p ∈ l -> v2 p = value p) as Hv2 by (intros p Hp; apply write_other; congruence).
    assert (is_map v2 l m) as Hm2.
    { destruct Hm as [H1 H2]. split; [intros p Hp; rewrite Hv2 by done; auto|]. intros k p. rewrite H2. split; intros [Hp E]; (split; [done|]); rewrite Hv2 in * by done; done. }
    assert (StronglySorted (lt_node v2 cmp) l) as Hs2 by (eapply sorted_ext; [|exact Hs]; intros p Hp; symmetry; auto).
    rewrite (equal_lookup v2 l m val Hs2 Hm2 Hg). destruct (m !! val) as [q|] eqn:E; [done|].
    assert (equal v2 cmp val l = None) as Heq by (by rewrite (equal_lookup v2 l m val Hs2 Hm2 Hg)). destruct Hm2 as [H1 H2]. assert (v2 node = val) as Hn by apply write_same.
    split; [intros p Hp; apply elem_insert_at in Hp as [->|Hp]; [by rewrite Hn|auto|done|done]|].
    intros k p. rewrite elem_insert_at by done. destruct (decide (k = val)) as [->|Hk].
    + rewrite lookup_insert_eq. split; [intros [= <-]; auto|]. intros [[->|Hp] Ep]; [done|]. assert (m !! val = Some p) as E' by (by apply H2). congruence.
    + rewrite lookup_insert_ne by done. rewrite H2. split; [tauto|]. intros [[->|Hp] Ep]; [congruence|done].
  - destruct Hm as [H1 H2]. split; [intros p Hp; apply elem_list_remove in Hp as [Hp _]; auto|].
    intros k p. rewrite map_lookup_filter_Some, H2, elem_list_remove. cbn [snd]. tauto.
Qed.

Lemma map_all_ok ops : forall st value l m,
  holds cmp st (value, l) -> is_map value l m -> all_legal cmp (value, l) ops = true -> Forall op_good ops ->
  is_map (ref_all cmp (value, l) ops).1 (ref_all cmp (value, l) ops).2 (map_all m ops).
Proof.
  induction ops as [|op ops IH]; intros st value l m Hh Hm Hl Hg; [done|]. cbn [all_legal] in Hl. apply andb_true_iff in Hl as [Hl1 Hl2].
  apply list.Forall_cons in Hg as [Hg1 Hg2]. destruct (exec_ok _ _ _ _ Hh Hl1) as (res & st1 & _ & Hh1 & _).
  assert (StronglySorted (lt_node value cmp) l) as Hs by (destruct Hh as (Ev & Hs & _); cbn [fst snd] in *; by rewrite <- Ev).
  pose proof (map_step_ok value l m op Hs Hm Hg1 Hl1) as Hm1. cbn [ref_all map_all foldl]. destruct (ref_step cmp (value, l) op) as [v1 l1]. by apply (IH st1).
Qed.

Lemma is_map_empty value : is_map value [] ∅.
Proof. split; [by intros p ?%elem_of_nil|]. intros k p. rewrite lookup_empty. split; [done|by intros [?%elem_of_nil _]]. Qed.

(** A tree of connections is a finite map: after any legal sequence of calls on a
    fresh tree with a comparator for which only equal keys compare equal, the
    exact search for a key gives the node that a finite map holds under it, where
    an insertion adds the key when it is absent and a removal deletes the key of
    the node. *)
Theorem bavl_is_map mem value ops ress value' o' val :
  all_legal cmp (value, []) ops = true -> Forall op_good ops -> good val ->
  exec_all cmp (value, BAVL_Init mem) ops = Some (ress, (value', o')) ->
  BAVL_LookupExact value' cmp o' val = Some (map_all ∅ ops !! val).
Proof.
  intros Hl Hg Hv E. pose proof (map_all_ok ops _ _ _ _ (holds_init cmp mem value) (is_map_empty value) Hl Hg) as Hm.
  destruct (exec_all_ok cmp ops _ _ (holds_init cmp mem value) Hl) as (ress' & st' & E' & Hh & _). rewrite E in E'. injection E' as <- <-.
  destruct (step_lookup cmp _ _ val Hh) as [_ (res & st' & Ex & _ & Ha)]. destruct (ref_all cmp (value, []) ops) as [vr lr]. cbn [ref_answer fst snd] in *. subst res.
  cbn [exec] in Ex. destruct (BAVL_LookupExact value' cmp o' val) as [n|]; [|done]. injection Ex as -> _. f_equal.
  destruct Hh as (Ev & Hs & _). cbn [fst snd] in *. subst vr. by apply equal_lookup.
Qed.
End TreeMap.

(** ** The table of DNS connections

    [structs]: the [malloc]ed structures by address. *)

Record dns_table := mkTab { structs : gmap Z Connection; conn_tree : BAVL; next_struct : Z }.

Definition struct_port (m : gmap Z Connection) (p : Z) : Z := match m !! p with Some c => port c | None => 0 end.

Definition tab_init (mem : gmap Z BAVLNode) : dns_table := mkTab ∅ (BAVL_Init mem) 0.

(** The address of the structure or [NULL]. *)
Definition tab_find_connection (t : dns_table) (p : Z) : option (option Z) :=
  BAVL_LookupExact (struct_port (structs t)) port_comparator (conn_tree t) p.

Definition tab_remove_connection (t : dns_table) (con : Z) : option dns_table :=
  let* c := structs t !! con in
  let c := mkConnection (local_addr c) (remote_addr c) (port c) (count c - 1) in
  if count c <=? 0 then
    let* o := BAVL_Remove (conn_tree t) con in Some (mkTab (delete con (structs t)) o (next_struct t))
  else Some (mkTab (<[con := c]> (structs t)) (conn_tree t) (next_struct t)).

(** [m]: whether [malloc] gives memory; writing through its result fails otherwise. *)
Definition tab_insert_connection (t : dns_table) (local remote : BAddr) (p : Z) (m : bool) : option dns_table :=
  let* con := tab_find_connection t p in
  match con with
  | Some con =>
      let* c := structs t !! con in
      Some (mkTab (<[con := mkConnection (local_addr c) (remote_addr c) (port c) (count c + 1)]> (structs t)) (conn_tree t) (next_struct t))
  | None =>
      if negb m then None
      else
        let tmp := next_struct t in
        let m := <[tmp := mkConnection local remote p 1]> (structs t) in
        let* (_, _, o) := BAVL_Insert (struct_port m) port_comparator (conn_tree t) tmp in
        Some (mkTab m o (tmp + 1))
  end.

(** The structures are not freed. *)
Fixpoint tab_free_loop (fuel : nat) (t : dns_table) : option dns_table :=
  match fuel with
  | O => None
  | S fuel =>
      if BAVL_IsEmpty (conn_tree t) then Some t
      else let* l := BAVL_GetLast (conn_tree t) in
           let* con := l in
           let* o := BAVL_Remove (conn_tree t) con in
           tab_free_loop fuel (mkTab (structs t) o (next_struct t))
  end.
Definition tab_free_connections (t : dns_table) : option dns_table := tab_free_loop (fuel_of (conn_tree t)) t.

(** What the packets do to the table: a query inserts, a reply finds the
    connection of its port and removes it. *)
Inductive tab_op := TabQuery (local remote : BAddr) (p : Z) (m : bool) | TabReply (p : Z).

Definition tab_exec (t : dns_table) (op : tab_op) : option (option Connection * dns_table) :=
  match op with
  | TabQuery local remote p m => let* t := tab_insert_connection t local remote p m in Some (None, t)
  | TabReply p =>
      let* con := tab_find_connection t p in
      match con with
      | None => Some (None, t)
      | Some con => let* c := structs t !! con in
                    let* t := tab_remove_connection t con in Some (Some c, t)
      end
  end.

Definition dev_exec (d : device) (op : tab_op) : option (option Connection * device) :=
  match op with
  | TabQuery local remote p m => let* d := insert_connection local remote p m d in Some (None, d)
  | TabReply p => match find_connection p d with
                  | None => Some (None, d)
                  | Some con => Some (Some con, remove_connection con d)
                  end
  end.

Fixpoint tab_run (t : dns_table) (ops : list tab_op) : option (list (option Connection) * dns_table) :=
  match ops with
  | [] => Some ([], t)
  | op :: ops => let* (r, t) := tab_exec t op in let* (rs, t) := tab_run t ops in Some (r :: rs, t)
  end.
Fixpoint dev_run (d : device) (ops : list tab_op) : option (list (option Connection) * device) :=
  match ops with
  | [] => Some ([], d)
  | op :: ops => let* (r, d) := dev_exec d op in let* (rs, d) := dev_run d ops in Some (r :: rs, d)
  end.

(** The same answer and related tables, or failure on both sides. *)
Definition same_result {A} (x : option (A * dns_table)) (y : option (A * device)) (R : dns_table -> device -> Prop) : Prop :=
  match x, y with Some (a, t), Some (b, d) => a = b /\ R t d | None, None => True | _, _ => False end.

(** The structures in the tree are the entries of the map. *)
Definition tab_nodes (t : dns_table) (l : list Z) : Prop :=
  holds port_comparator (struct_port (structs t), conn_tree t) (struct_port (structs t), l).

Record tab_rel (t : dns_table) (m : gmap Z Connection) (l : list Z) : Prop := {
  tr_nodes : tab_nodes t l;
  tr_alloc : forall p, p ∈ l -> is_Some (structs t !! p);
  tr_fresh : forall p, is_Some (structs t !! p) -> p < next_struct t;
  tr_map : forall k c, m !! k = Some c <-> exists p, p ∈ l /\ structs t !! p = Some c /\ port c = k
}.

Lemma holds_ext v v' o l : (forall p, p ∈ l -> v p = v' p) -> holds port_comparator (v, o) (v, l) -> holds port_comparator (v', o) (v', l).
Proof. intros E (_ & Hs & Ht). split_and!; [done| |done]. cbn [fst snd] in *. by eapply sorted_ext. Qed.

Lemma tab_find_ok t m l p : tab_rel t m l ->
  exists r, tab_find_connection t p = Some r /\
    match r with
    | Some q => q ∈ l /\ exists c, structs t !! q = Some c /\ port c = p /\ m !! p = Some c
    | None => m !! p = None /\ equal (struct_port (structs t)) port_comparator p l = None
    end.
Proof.
  intros [Hn Ha Hf Hm]. destruct (step_lookup port_comparator _ _ p Hn) as [_ (res & st & E & _ & A)]. cbn [ref_answer] in A. subst res.
  cbn [exec] in E. unfold tab_find_connection. destruct (BAVL_LookupExact _ _ _ _) as [r|]; [|done]. injection E as -> _. eexists. split; [done|].
  destruct (equal (struct_port (structs t)) port_comparator p l) as [q|] eqn:Eq.
  - apply List.find_some in Eq as [Hq Eq]. apply list_elem_of_In in Hq. split; [done|]. destruct (Ha q Hq) as [c Hc]. exists c.
    assert (port c = p) as Hp.
    { symmetry. apply (cmp_zero (good := fun _ => True) (cmp := port_comparator)); [done|done|]. unfold struct_port in Eq. rewrite Hc in Eq. lia. }
    split_and!; [done|done|]. apply Hm. by exists q.
  - split; [|done]. destruct (m !! p) as [c|] eqn:E; [|done]. apply Hm in E as (q & Hq & Hc & Hp). apply list_elem_of_In in Hq.
    pose proof (List.find_none _ _ Eq q Hq) as Hne. cbv beta in Hne. unfold struct_port in Hne. rewrite Hc, Hp in Hne. unfold port_comparator in Hne. by rewrite Z.eqb_refl in Hne.
Qed.

Lemma tab_ports_inj t l p q : tab_nodes t l -> p ∈ l -> q ∈ l -> struct_port (structs t) p = struct_port (structs t) q -> p = q.
Proof.
  intros (_ & Hs & _) Hp Hq E. cbn [fst snd] in *. pose proof (cmp_refl port_comparator (struct_port (structs t) p)) as R.
  assert (equal (struct_port (structs t)) port_comparator (struct_port (structs t) p) l = Some p) as E1 by by apply (equal_found _ port_comparator).
  rewrite E in E1, R. rewrite (equal_found _ port_comparator l q _ Hs Hq R) in E1. congruence.
Qed.

(** Changing the count of a structure in the tree. *)
Lemma tab_rel_update t m l q c c' :
  tab_rel t m l -> q ∈ l -> structs t !! q = Some c -> port c' = port c ->
  tab_rel (mkTab (<[q := c']> (structs t)) (conn_tree t) (next_struct t)) (<[port c := c']> m) l.
Proof.
  intros [Hn Ha Hf Hm] Hq Hc Hp. assert (forall p, struct_port (<[q := c']> (structs t)) p = struct_port (structs t) p) as Hv.
  { intros p. unfold struct_port. destruct (decide (p = q)) as [->|Hpq]; [by rewrite lookup_insert_eq, Hc|by rewrite lookup_insert_ne]. }
  split; cbn [structs conn_tree next_struct].
  - unfold tab_nodes. cbn [structs conn_tree]. eapply holds_ext; [|exact Hn]. intros p _. by rewrite Hv.
  - intros p Hpl. destruct (decide (p = q)) as [->|Hpq]; [rewrite lookup_insert_eq; by eexists|rewrite lookup_insert_ne by done; auto].
  - intros p. destruct (decide (p = q)) as [->|Hpq]; [intros _; apply Hf; by eexists|rewrite lookup_insert_ne by done; auto].
  - intros k x. destruct (decide (k = port c)) as [->|Hk].
    + rewrite lookup_insert_eq. split.
      * intros [= <-]. exists q. by rewrite lookup_insert_eq.
      * intros (p & Hpl & Hx & Hpx). destruct (decide (p = q)) as [->|Hpq]; [by rewrite lookup_insert_eq in Hx|]. exfalso. apply Hpq.
        rewrite lookup_insert_ne in Hx by done. apply (tab_ports_inj t l); [done..|]. unfold struct_port. by rewrite Hx, Hc.
    + rewrite lookup_insert_ne by done. rewrite Hm. split; intros (p & Hpl & Hx & Hpx); exists p; (split; [done|]).
      * rewrite lookup_insert_ne; [done|]. intros <-. congruence.
      * destruct (decide (p = q)) as [->|Hpq]; [rewrite lookup_insert_eq in Hx; congruence|by rewrite lookup_insert_ne in Hx].
Qed.

Lemma tab_rel_insert t m l local remote p :
  tab_rel t m l -> m !! p = None -> equal (struct_port (structs t)) port_comparator p l = None ->
  exists t' l', (let tmp := next_struct t in let m := <[tmp := mkConnection local remote p 1]> (structs t) in
      let* (_, _, o) := BAVL_Insert (struct_port m) port_comparator (conn_tree t) tmp in Some (mkTab m o (tmp + 1))) = Some t' /\
    tab_rel t' (<[p := mkConnection local remote p 1]> m) l'.
Proof.
  intros [Hn Ha Hf Hm] Hp Heq. set (tmp := next_struct t). cbv zeta. set (m2 := <[tmp := _]> (structs t)). set (c := mkConnection local remote p 1) in *.
  assert (structs t !! tmp = None) as Hfresh by (destruct (structs t !! tmp) eqn:E; [pose proof (Hf tmp (mk_is_Some _ _ E)); subst tmp; lia|done]).
  assert (tmp ∉ l) as Hnl by (intros Hin; destruct (Ha _ Hin); congruence).
  assert (struct_port m2 tmp = p) as Htmp by (unfold struct_port; subst m2; by rewrite lookup_insert_eq).
  assert (forall q, q ∈ l -> struct_port (structs t) q = struct_port m2 q) as Hv by (intros q Hq; unfold struct_port; subst m2; rewrite lookup_insert_ne; [done|congruence]).
  destruct (holds_ext _ _ _ _ Hv Hn) as (_ & Hs & tr & R & Hb & El). cbn [fst snd] in *. subst l.
  destruct (insert_ok (struct_port m2) port_comparator (conn_tree t) tr tmp R Hs Hb Hnl) as (res & ref & o & t' & -> & R' & Hb' & _ & Hres). rewrite Htmp in Hres.
  assert (equal (struct_port m2) port_comparator p (elems tr) = None) as Heq2.
  { destruct (equal (struct_port m2) port_comparator p (elems tr)) as [q|] eqn:E; [|done]. apply List.find_some in E as [Hq E].
    pose proof (List.find_none _ _ Heq q Hq) as Hne. cbv beta in Hne, E. rewrite Hv in Hne by by apply list_elem_of_In. congruence. }
  rewrite Heq2 in Hres. destruct Hres as (_ & El). eexists _, (elems t'). split; [done|].
  assert (forall q, q ∈ elems t' <-> q = tmp \/ q ∈ elems tr) as Hel by (intros q; rewrite El; exact (elem_insert_at port_comparator _ _ _ _ _ Hs Heq2)).
  split; cbn [structs conn_tree next_struct].
  - split_and!; [done| |by exists t']. cbn [fst snd structs]. rewrite El. exact (sorted_insert port_comparator _ _ _ _ Htmp Hs).
  - intros q Hq. apply Hel in Hq as [->|Hq]; subst m2; [rewrite lookup_insert_eq; by eexists|]. rewrite lookup_insert_ne; [auto|congruence].
  - intros q. subst m2. destruct (decide (q = tmp)) as [->|Hqt]; [lia|]. rewrite lookup_insert_ne by done. intros Hq. specialize (Hf q Hq). subst tmp. lia.
  - intros k x. destruct (decide (k = p)) as [->|Hk].
    + rewrite lookup_insert_eq. split; [intros [= <-]; exists tmp; subst m2; rewrite lookup_insert_eq, Hel; auto|].
      intros (q & Hq & Hx & Hpx). destruct (decide (q = tmp)) as [->|Hqt]; [subst m2; by rewrite lookup_insert_eq in Hx|].
      apply Hel in Hq as [?|Hq]; [done|]. subst m2. rewrite lookup_insert_ne in Hx by done. assert (m !! p = Some x) as E by (apply Hm; by exists q). congruence.
    + rewrite lookup_insert_ne by done. rewrite Hm. split; intros (q & Hq & Hx & Hpx); exists q; rewrite Hel in *; subst m2.
      * rewrite lookup_insert_ne by congruence. auto.
      * destruct (decide (q = tmp)) as [->|Hqt]; [rewrite lookup_insert_eq in Hx; injection Hx as <-; exfalso; apply Hk; symmetry; exact Hpx|]. rewrite lookup_insert_ne in Hx by done. naive_solver.
Qed.

Lemma tab_nodes_remove t l q : tab_nodes t l -> q ∈ l ->
  exists o, BAVL_Remove (conn_tree t) q = Some o /\ holds port_comparator (struct_port (structs t), o) (struct_port (structs t), list_remove q l).
Proof.
  intros Hn Hq. destruct (step_remove port_comparator _ _ q Hn Hq) as (res & [v o] & E & Hh & _). cbn [exec] in E.
  destruct (BAVL_Remove (conn_tree t) q) as [o'|]; [|done]. injection E as <- <- <-. by exists o'.
Qed.

Lemma tab_rel_remove t m l q c :
  tab_rel t m l -> q ∈ l -> structs t !! q = Some c ->
  exists o, BAVL_Remove (conn_tree t) q = Some o /\
    tab_rel (mkTab (delete q (structs t)) o (next_struct t)) (delete (port c) m) (list_remove q l).
Proof.
  intros [Hn Ha Hf Hm] Hq Hc. destruct (tab_nodes_remove t l q Hn Hq) as (o & E & Hh). exists o. split; [done|]. split; cbn [structs conn_tree next_struct].
  - unfold tab_nodes. cbn [structs conn_tree]. eapply holds_ext; [|exact Hh]. intros p Hp. apply elem_list_remove in Hp as [_ Hp]. unfold struct_port. by rewrite lookup_delete_ne.
  - intros p Hp. apply elem_list_remove in Hp as [Hp Hpq]. rewrite lookup_delete_ne by done. auto.
  - intros p. destruct (decide (p = q)) as [->|Hpq]; [rewrite lookup_delete_eq; by intros []|rewrite lookup_delete_ne by done; auto].
  - intros k x. destruct (decide (k = port c)) as [->|Hk].
    + rewrite lookup_delete_eq. split; [done|]. intros (p & Hp & Hx & Hpx). apply elem_list_remove in Hp as [Hp Hpq]. rewrite lookup_delete_ne in Hx by done.
      exfalso. apply Hpq. apply (tab_ports_inj t l); [done..|]. unfold struct_port. by rewrite Hx, Hc.
    + rewrite lookup_delete_ne by done. rewrite Hm. split; intros (p & Hp & Hx & Hpx); exists p; rewrite elem_list_remove in *.
      * assert (p <> q) by congruence. by rewrite lookup_delete_ne.
      * destruct Hp as [Hp Hpq]. by rewrite lookup_delete_ne in Hx.
Qed.

Definition tab_dev (t : dns_table) (d : device) : Prop := exists l, tab_rel t (connections_tree d) l.

Lemma tab_insert_ok t d l local remote p m : tab_rel t (connections_tree d) l ->
  same_result (pair (@None Connection) <$> tab_insert_connection t local remote p m) (pair None <$> insert_connection local remote p m d) tab_dev.
Proof.
  intros H. destruct (tab_find_ok _ _ _ p H) as (r & E & Hr). unfold tab_insert_connection, insert_connection, find_connection. rewrite E. destruct r as [q|].
  - destruct Hr as (Hq & c & Hc & Hp & Hd). rewrite Hc, Hd. split; [done|]. exists l. by apply tab_rel_update.
  - destruct Hr as (Hd & Heq). rewrite Hd. destruct m; [|done]. destruct (tab_rel_insert _ _ _ local remote p H Hd Heq) as (t' & l' & E' & H'). cbv zeta in E'. rewrite E'.
    split; [done|]. by exists l'.
Qed.

Lemma tab_remove_ok t d l q c : tab_rel t (connections_tree d) l -> q ∈ l -> structs t !! q = Some c ->
  exists t' l', tab_remove_connection t q = Some t' /\ tab_rel t' (connections_tree (remove_connection c d)) l'.
Proof.
  intros H Hq Hc. unfold tab_remove_connection, remove_connection. rewrite Hc. cbn [count port]. destruct (count c - 1 <=? 0).
  - destruct (tab_rel_remove _ _ _ _ _ H Hq Hc) as (o & -> & H'). by eexists _, _.
  - eexists _, l. split; [done|]. by apply tab_rel_update.
Qed.

Lemma tab_exec_ok t d op : tab_dev t d -> same_result (tab_exec t op) (dev_exec d op) tab_dev.
Proof.
  intros [l H]. destruct op as [local remote p m|p]; simpl.
  - pose proof (tab_insert_ok _ _ _ local remote p m H) as Hi. by destruct (tab_insert_connection _ _ _ _ _), (insert_connection _ _ _ _ _).
  - destruct (tab_find_ok _ _ _ p H) as (r & -> & Hr). unfold find_connection. destruct r as [q|].
    + destruct Hr as (Hq & c & Hc & Hp & ->). simpl. rewrite Hc. simpl. destruct (tab_remove_ok _ _ _ _ _ H Hq Hc) as (t' & l' & -> & H'). split; [done|]. by exists l'.
    + destruct Hr as (-> & _). split; [done|]. by exists l.
Qed.

Lemma tab_run_ok ops : forall t d, tab_dev t d -> same_result (tab_run t ops) (dev_run d ops) tab_dev.
Proof.
  induction ops as [|op ops IH]; intros t d H; [done|]. simpl. pose proof (tab_exec_ok t d op H) as He.
  destruct (tab_exec t op) as [[r t1]|], (dev_exec d op) as [[r' d1]|]; try done. destruct He as [-> H1]. simpl. specialize (IH t1 d1 H1).
  destruct (tab_run t1 ops) as [[rs t2]|], (dev_run d1 ops) as [[rs' d2]|]; try done. destruct IH as [-> H2]. done.
Qed.

(** Only a query without an entry and without memory fails. *)
Lemma dev_run_null ops : forall d, dev_run d ops = None <->
  exists before local remote p after rs d0, ops = before ++ TabQuery local remote p false :: after /\ dev_run d before = Some (rs, d0) /\ find_connection p d0 = None.
Proof.
  induction ops as [|op ops IH]; intros d; [split; [done|intros ([] & ? & ? & ? & ? & ? & ? & ? & _); done]|]. cbn [dev_run]. split.
  - destruct (dev_exec d op) as [[r d1]|] eqn:E; cbn [mbind option_bind].
    + intros Hr. destruct (dev_run d1 ops) as [[rs d2]|] eqn:E2; [done|]. apply IH in E2 as (before & local & remote & p & after & rs & d0 & -> & E2 & Hp).
      exists (op :: before), local, remote, p, after, (r :: rs), d0. cbn [app dev_run]. by rewrite E, E2.
    + intros _. destruct op as [local remote p m|p]; cbn in E; [|by destruct (find_connection p d)]. unfold insert_connection in E.
      destruct (find_connection p d) eqn:Ef; [done|]. destruct m; [done|]. by exists [], local, remote, p, ops, [], d.
  - intros (before & local & remote & p & after & rs & d0 & Eo & Eb & Hp). destruct before as [|op' before]; injection Eo as -> ->.
    + injection Eb as <- <-. cbn. unfold insert_connection. by rewrite Hp.
    + cbn [dev_run] in Eb. destruct (dev_exec d op') as [[r d1]|]; [|done]. cbn [mbind option_bind] in *.
      assert (dev_run d1 (before ++ TabQuery local remote p false :: after) = None) as ->; [|done]. apply IH.
      destruct (dev_run d1 before) as [[rs1 d2]|] eqn:E2; [|done]. injection Eb as <- <-. by exists before, local, remote, p, after, rs1, d2.
Qed.

(** Freeing ends with the empty tree. *)
Lemma tab_free_loop_ok fuel : forall t l, tab_nodes t l -> (length l < fuel)%nat ->
  exists t', tab_free_loop fuel t = Some t' /\ tab_nodes t' [] /\ structs t' = structs t.
Proof.
  induction fuel as [|fuel IH]; intros t l Hn Hf; [lia|]. cbn [tab_free_loop].
  destruct (exec_ok port_comparator _ _ OpIsEmpty Hn eq_refl) as (r1 & s1 & E1 & _ & A1). cbn [exec ref_answer] in E1, A1. injection E1 as <- _. injection A1 as ->.
  destruct (exec_ok port_comparator _ _ OpGetLast Hn eq_refl) as (r2 & s2 & E2 & _ & A2). cbn [exec ref_answer] in E2, A2. subst r2.
  destruct (BAVL_GetLast (conn_tree t)) as [lst|]; [|done]. injection E2 as -> _.
  destruct l as [|x l _] using rev_ind; [rewrite bool_decide_true by done; by exists t|]. rewrite bool_decide_false by (by destruct l). rewrite last_snoc.
  destruct (tab_nodes_remove t _ x Hn) as (o & -> & Hh); [apply elem_of_app; right; by apply list_elem_of_singleton|].
  destruct (IH (mkTab (structs t) o (next_struct t)) _ Hh) as (t' & E' & Hn' & Hs'); [|by exists t'].
  assert (zlen (list_remove x (l ++ [x])) = zlen (l ++ [x]) - 1) as Hlen.
  { apply length_list_remove; [|apply elem_of_app; right; by apply list_elem_of_singleton]. destruct Hn as (_ & _ & tr & R & _ & El). cbn [snd] in El. rewrite <- El. by eapply rep_NoDup. }
  unfold zlen in Hlen. rewrite length_app in *. simpl in *. lia.
Qed.

(** C15. The table of DNS connections: for every sequence of queries and replies and
    answers of [malloc], the functions of [tun2socks.c] on the structures linked in
    the tree do what their models on a map do. They run to their end, with no access
    to a structure that is not there and no loop that runs on, with one exception:
    exactly when a query needs a new entry and [malloc] gives no memory, they
    write through a null pointer. A reply finds the connection of its port exactly
    when the map has one. [free_connections] then empties the tree, without freeing
    any of the structures that are left. *)
Theorem dns_table_refines mem d ops :
  connections_tree d = ∅ ->
  match dev_run d ops with
  | Some (rs, d') =>
      exists t t', tab_run (tab_init mem) ops = Some (rs, t) /\
        (forall p, exists r, tab_find_connection t p = Some r /\
           match r with Some q => structs t !! q | None => None end = find_connection p d') /\
        tab_free_connections t = Some t' /\ BAVL_IsEmpty (conn_tree t') = true /\ structs t' = structs t
  | None => tab_run (tab_init mem) ops = None
  end /\
  (tab_run (tab_init mem) ops = None <->
   exists before local remote p after rs d0, ops = before ++ TabQuery local remote p false :: after /\
     dev_run d before = Some (rs, d0) /\ find_connection p d0 = None).
Proof.
  intros Hd. assert (tab_dev (tab_init mem) d) as H0.
  { exists []. rewrite Hd. split; [apply holds_init|by intros q ?%elem_of_nil|intros q; simpl; rewrite lookup_empty; by intros []|].
    intros k c. rewrite lookup_empty. split; [done|]. by intros (q & ?%elem_of_nil & _). }
  rewrite <- dev_run_null. pose proof (tab_run_ok ops _ _ H0) as Hr. destruct (tab_run (tab_init mem) ops) as [[rs t]|], (dev_run d ops) as [[rs' d']|]; try done.
  destruct Hr as [-> [l H]]. split; [|done].
  assert (length l < fuel_of (conn_tree t))%nat as Hf by (destruct (tr_nodes _ _ _ H) as (_ & _ & tr & R & _ & El); cbn [snd] in *; subst l; by apply rep_fuel).
  destruct (tab_free_loop_ok _ _ _ (tr_nodes _ _ _ H) Hf) as (t' & E' & Hn' & Hs). exists t, t'. split_and!; [done| |done| |done].
  - intros p. destruct (tab_find_ok _ _ _ p H) as (r & Er & Hr). exists r. split; [done|]. unfold find_connection. destruct r as [q|]; [by destruct Hr as (_ & c & -> & _ & ->)|by destruct Hr as (-> & _)].
  - destruct (exec_ok port_comparator _ _ OpIsEmpty Hn' eq_refl) as (r1 & s1 & E1 & _ & A1). cbn [exec ref_answer] in E1, A1. injection E1 as <- _. by injection A1.
Qed.

(** ** Witnesses *)

Definition ex_addr (i p : Z) : conaddr_t := (BADDR_IPV4 i p, BADDR_IPV6 (repeat i 16) p).

Definition ex_conaddr_ops : list (@tree_op conaddr_t) :=
  [OpInsert 1 (ex_addr 7 80); OpInsert 2 (ex_addr 9 80); OpInsert 3 (ex_addr 7 53); OpInsert 4 (ex_addr 9 80); OpRemove 1].

Definition ex_conaddr_end : list tree_res * ((Z -> conaddr_t) * BAVL) :=
  match exec_all conaddr_comparator (fun _ => ex_addr 0 0, BAVL_Init ∅) ex_conaddr_ops with Some r => r | None => ([], (fun _ => ex_addr 0 0, BAVL_Init ∅)) end.

Lemma bavl_is_map_witness :
  BAVL_LookupExact (ex_conaddr_end.2.1) conaddr_comparator (ex_conaddr_end.2.2) (ex_addr 9 80) = Some (map_all ∅ ex_conaddr_ops !! ex_addr 9 80).
Proof.
  apply (bavl_is_map conaddr_ok conaddr_comparator ∅ (fun _ => ex_addr 0 0) ex_conaddr_ops (ex_conaddr_end.1)).
  - vm_compute. reflexivity.
  - repeat constructor; simpl; lia.
  - repeat constructor; simpl; lia.
  - vm_compute. reflexivity.
Defined.

Definition ex_tab_ops (m : bool) : list tab_op :=
  [TabQuery (BADDR_IPV4 1 1000) (BADDR_IPV4 2 53) 1000 true; TabQuery (BADDR_IPV4 1 1001) (BADDR_IPV4 2 53) 1001 m;
   TabQuery (BADDR_IPV4 1 1000) (BADDR_IPV4 3 53) 1000 false; TabReply 1001; TabReply 1001; TabReply 1000].

Lemma dns_table_refines_witness : let d := mkDevice false ∅ [] [] in
  (exists rs d' t t', dev_run d (ex_tab_ops true) = Some (rs, d') /\ tab_run (tab_init ∅) (ex_tab_ops true) = Some (rs, t) /\
    (forall p, exists r, tab_find_connection t p = Some r /\
       match r with Some q => structs t !! q | None => None end = find_connection p d') /\
    tab_free_connections t = Some t' /\ BAVL_IsEmpty (conn_tree t') = true /\ structs t' = structs t) /\
  exists before local remote p after rs d0, ex_tab_ops false = before ++ TabQuery local remote p false :: after /\
     dev_run d before = Some (rs, d0) /\ find_connection p d0 = None.
Proof.
  intros d. split.
  - pose proof (proj1 (dns_table_refines ∅ d (ex_tab_ops true) eq_refl)) as H. cbn beta iota in H.
    destruct H as (t & t' & H). eexists _, _, t, t'. split; [reflexivity|exact H].
  - apply (dns_table_refines ∅ d (ex_tab_ops false) eq_refl). vm_compute. reflexivity.
Defined.
