(* ===== verification/Options.v ===== *)
(** * The command line

    [parse_arguments] of [tun2socks/tun2socks.c] (with [ANDROID], without
    [ANDROID_UDP]), [parse_loglevel] of [misc/loglevel.h] and
    [BLogGlobal_GetChannelByName] of [base/BLog.h]. [argv] is a list of strings
    read by index; the string members of [options] are the strings they point to.
    [None] is a read outside of [argv], [Some None] is the result 0. *)

From Stdlib Require Import Ascii String.
From S2P Require Import Prelude.

(** ** Data *)

Inductive str_field :=
  | logger_syslog_facility | logger_syslog_ident | netif_ipaddr | netif_netmask | netif_ip6addr | socks_server_addr
  | username | password | password_file | udpgw_remote_server_addr | pid | sock | dnsgw.
Inductive int_field :=
  | help | version | logger | loglevel | append_source_to_username | udpgw_max_connections
  | udpgw_connection_buffer_size | udpgw_transparent_dns | tun_fd | tun_mtu | fake_proc.

#[global] Instance str_field_eq_dec : EqDecision str_field.
Proof. solve_decision. Defined.
#[global] Instance int_field_eq_dec : EqDecision int_field.
Proof. solve_decision. Defined.

(** The struct [options]: the [char *] members, the [int] members, the array. *)
Record options := mkOptions { str : str_field -> option string; int : int_field -> Z; loglevels : Z -> Z }.

Definition set_str (o : options) (f : str_field) (v : option string) : options :=
  mkOptions (fun g => if decide (g = f) then v else str o g) (int o) (loglevels o).
Definition set_int (o : options) (f : int_field) (v : Z) : options :=
  mkOptions (str o) (fun g => if decide (g = f) then v else int o g) (loglevels o).
Definition set_loglevel (o : options) (ch : Z) (v : Z) : options :=
  mkOptions (str o) (int o) (fun c => if c =? ch then v else loglevels o c).

Definition LOGGER_STDOUT : Z := 1.
Definition LOGGER_SYSLOG : Z := 2.
Definition BLOG_DEBUG : Z := 5.
Definition DEFAULT_UDPGW_MAX_CONNECTIONS : Z := 256.
Definition DEFAULT_UDPGW_CONNECTION_BUFFER_SIZE : Z := 8.

(** ** Numbers *)

Definition LONG_MAX : Z := 9223372036854775807.
Definition LONG_MIN : Z := -9223372036854775808.

Definition isspace (c : ascii) : bool := let n := nat_of_ascii c in ((9 <=? n) && (n <=? 13) || (n =? 32))%nat.
Definition isdigit (c : ascii) : bool := let n := nat_of_ascii c in ((48 <=? n) && (n <=? 57))%nat.
Definition digit (c : ascii) : Z := Z.of_nat (nat_of_ascii c) - 48.

Fixpoint skip_space (s : string) : string :=
  match s with String c s' => if isspace c then skip_space s' else s | EmptyString => s end.
Fixpoint read_digits (s : string) (acc : Z) : Z * string :=
  match s with
  | String c s' => if isdigit c then read_digits s' (10 * acc + digit c) else (acc, s)
  | EmptyString => (acc, s)
  end.
Definition starts_digit (s : string) : bool := match s with String c _ => isdigit c | EmptyString => false end.

(** [strtol(str, &endptr, 10)]: the value and the rest of the string. *)
Definition strtol (s : string) : Z * string :=
  let t := skip_space s in
  let '(neg, t) := match t with
                   | String "-" t' => (true, t')
                   | String "+" t' => (false, t')
                   | _ => (false, t)
                   end in
  if starts_digit t then
    let '(n, e) := read_digits t 0 in
    (Z.max LONG_MIN (Z.min LONG_MAX (if neg then - n else n)), e)
  else (0, s).

(** [(int)strtol(str, NULL, 10)] *)
Definition atoi (s : string) : Z := let x := strtol s in (x.1 + 2147483648) mod 4294967296 - 2147483648.

Definition parse_loglevel (s : string) : Z :=
  if (s =? "none")%string then 0
  else if (s =? "error")%string then 1
  else if (s =? "warning")%string then 2
  else if (s =? "notice")%string then 3
  else if (s =? "info")%string then 4
  else if (s =? "debug")%string then BLOG_DEBUG
  else let '(res, endptr) := strtol s in
       if negb (s =? "")%string && (endptr =? "")%string && (0 <=? res) && (res <=? BLOG_DEBUG) then res else -1.

Section Parse.
(** The names in [blog_channel_list], which the build generates. *)
Context (channels : list string).

Fixpoint channel_loop (l : list string) (i : Z) (name : string) : Z :=
  match l with [] => -1 | c :: l => if (c =? name)%string then i else channel_loop l (i + 1) name end.
Definition BLogGlobal_GetChannelByName (name : string) : Z := channel_loop channels 0 name.

(** ** Parsing *)

(** [sock] and [dnsgw] keep their values. *)
Definition init_options (old : options) (argv0 : string) : options :=
  mkOptions
    (fun f => match f with
              | logger_syslog_facility => Some "daemon"%string
              | logger_syslog_ident => Some argv0
              | sock => str old sock
              | dnsgw => str old dnsgw
              | _ => None
              end)
    (fun f => match f with
              | logger => LOGGER_STDOUT
              | loglevel | tun_fd => -1
              | tun_mtu => 1500
              | udpgw_max_connections => DEFAULT_UDPGW_MAX_CONNECTIONS
              | udpgw_connection_buffer_size => DEFAULT_UDPGW_CONNECTION_BUFFER_SIZE
              | _ => 0
              end)
    (fun c => if (0 <=? c) && (c <? zlen channels) then -1 else loglevels old c).

(** The next index and the options after the option at [i]; the inner [None] is
    [return 0]. *)
Definition parse_one (argv : list string) (i : nat) (o : options) : option (option (nat * options)) :=
  let argc := length argv in
  let flag f := Some (Some (S i, set_int o f 1)) in
  let arg1 (k : string -> option options) :=
    if (argc - i <=? 1)%nat then Some None
    else let* a := argv !! S i in
         match k a with Some o => Some (Some (S (S i), o)) | None => Some None end in
  let str_arg f := arg1 (fun a => Some (set_str o f (Some a))) in
  let int_arg f := arg1 (fun a => if atoi a <=? 0 then None else Some (set_int o f (atoi a))) in
  let* arg := argv !! i in
  if (arg =? "--help")%string then flag help
  else if (arg =? "--version")%string then flag version
  else if (arg =? "--logger")%string then
    arg1 (fun a => if (a =? "stdout")%string then Some (set_int o logger LOGGER_STDOUT)
                   else if (a =? "syslog")%string then Some (set_int o logger LOGGER_SYSLOG)
                   else None)
  else if (arg =? "--syslog-facility")%string then str_arg logger_syslog_facility
  else if (arg =? "--syslog-ident")%string then str_arg logger_syslog_ident
  else if (arg =? "--loglevel")%string then
    arg1 (fun a => if parse_loglevel a <? 0 then None else Some (set_int o loglevel (parse_loglevel a)))
  else if (arg =? "--channel-loglevel")%string then
    if (argc - i <=? 2)%nat then Some None
    else let* a1 := argv !! S i in
         let channel := BLogGlobal_GetChannelByName a1 in
         if channel <? 0 then Some None
         else let* a2 := argv !! S (S i) in
              let lvl := parse_loglevel a2 in
              if lvl <? 0 then Some None else Some (Some (S (S (S i)), set_loglevel o channel lvl))
  else if (arg =? "--fake-proc")%string then flag fake_proc
  else if (arg =? "--tunfd")%string then int_arg tun_fd
  else if (arg =? "--tunmtu")%string then int_arg tun_mtu
  else if (arg =? "--dnsgw")%string then str_arg dnsgw
  else if (arg =? "--pid")%string then str_arg pid
  else if (arg =? "--sock")%string then str_arg sock
  else if (arg =? "--netif-ipaddr")%string then str_arg netif_ipaddr
  else if (arg =? "--netif-netmask")%string then str_arg netif_netmask
  else if (arg =? "--netif-ip6addr")%string then str_arg netif_ip6addr
  else if (arg =? "--socks-server-addr")%string then str_arg socks_server_addr
  else if (arg =? "--username")%string then str_arg username
  else if (arg =? "--password")%string then str_arg password
  else if (arg =? "--password-file")%string then str_arg password_file
  else if (arg =? "--append-source-to-username")%string then flag append_source_to_username
  else if (arg =? "--udpgw-remote-server-addr")%string then str_arg udpgw_remote_server_addr
  else if (arg =? "--udpgw-max-connections")%string then int_arg udpgw_max_connections
  else if (arg =? "--udpgw-connection-buffer-size")%string then int_arg udpgw_connection_buffer_size
  else if (arg =? "--udpgw-transparent-dns")%string then flag udpgw_transparent_dns
  else Some None.

Fixpoint parse_loop (fuel : nat) (argv : list string) (i : nat) (o : options) : option (option options) :=
  match fuel with
  | O => None
  | S fuel =>
      if (i <? length argv)%nat then
        let* r := parse_one argv i o in
        match r with Some (i, o) => parse_loop fuel argv i o | None => Some None end
      else Some (Some o)
  end.

Definition given (o : options) (f : str_field) : bool := match str o f with Some _ => true | None => false end.

(** The checks after the loop. *)
Definition check_options (o : options) : bool :=
  if negb (int o help =? 0) || negb (int o version =? 0) then true
  else if negb (given o netif_ipaddr) then false
  else if negb (given o netif_netmask) then false
  else if negb (given o socks_server_addr) then false
  else if given o username && (negb (given o password) && negb (given o password_file)) then false
  else if given o username && (given o password && given o password_file) then false
  else given o sock.

(** [argc] is the length of [argv]. *)
Definition parse_arguments (old : options) (argv : list string) : option (option options) :=
  if (length argv =? 0)%nat then Some None
  else let* argv0 := argv !! 0%nat in
       let* r := parse_loop (length argv) argv 1 (init_options old argv0) in
       match r with
       | None => Some None
       | Some o => if check_options o then Some (Some o) else Some None
       end.

(** ** The grammar

    A command line is a sequence of settings. *)

Definition str_name (f : str_field) : string :=
  match f with
  | logger_syslog_facility => "--syslog-facility" | logger_syslog_ident => "--syslog-ident"
  | netif_ipaddr => "--netif-ipaddr" | netif_netmask => "--netif-netmask" | netif_ip6addr => "--netif-ip6addr"
  | socks_server_addr => "--socks-server-addr" | username => "--username" | password => "--password"
  | password_file => "--password-file" | udpgw_remote_server_addr => "--udpgw-remote-server-addr"
  | pid => "--pid" | sock => "--sock" | dnsgw => "--dnsgw"
  end%string.

(** The members that a number sets, and those that a flag sets. *)
Inductive num_field := NTunFd | NTunMtu | NMaxConnections | NBufferSize.
Inductive flag_field := FHelp | FVersion | FFakeProc | FAppendSource | FTransparentDns.

Definition num_target (f : num_field) : int_field * string :=
  match f with
  | NTunFd => (tun_fd, "--tunfd") | NTunMtu => (tun_mtu, "--tunmtu")
  | NMaxConnections => (udpgw_max_connections, "--udpgw-max-connections")
  | NBufferSize => (udpgw_connection_buffer_size, "--udpgw-connection-buffer-size")
  end%string.
Definition flag_target (f : flag_field) : int_field * string :=
  match f with
  | FHelp => (help, "--help") | FVersion => (version, "--version") | FFakeProc => (fake_proc, "--fake-proc")
  | FAppendSource => (append_source_to_username, "--append-source-to-username")
  | FTransparentDns => (udpgw_transparent_dns, "--udpgw-transparent-dns")
  end%string.

Inductive setting :=
  | SetFlag (f : flag_field)
  | SetStr (f : str_field) (v : string)
  | SetNum (f : num_field) (v : string)
  | SetLogger (syslog : bool)
  | SetLoglevel (v : string)
  | SetChannel (name v : string).

Definition render (s : setting) : list string :=
  match s with
  | SetFlag f => [(flag_target f).2]
  | SetStr f v => [str_name f; v]
  | SetNum f v => [(num_target f).2; v]
  | SetLogger b => ["--logger"; if b then "syslog" else "stdout"]%string
  | SetLoglevel v => ["--loglevel"%string; v]
  | SetChannel name v => ["--channel-loglevel"%string; name; v]
  end.

(** Numbers are positive, log levels and channels are known. *)
Definition valid (s : setting) : bool :=
  match s with
  | SetNum _ v => 0 <? atoi v
  | SetLoglevel v => 0 <=? parse_loglevel v
  | SetChannel name v => (0 <=? BLogGlobal_GetChannelByName name) && (0 <=? parse_loglevel v)
  | _ => true
  end.

Definition apply (o : options) (s : setting) : options :=
  match s with
  | SetFlag f => set_int o (flag_target f).1 1
  | SetStr f v => set_str o f (Some v)
  | SetNum f v => set_int o (num_target f).1 (atoi v)
  | SetLogger b => set_int o logger (if b then LOGGER_SYSLOG else LOGGER_STDOUT)
  | SetLoglevel v => set_int o loglevel (parse_loglevel v)
  | SetChannel name v => set_loglevel o (BLogGlobal_GetChannelByName name) (parse_loglevel v)
  end.

(** ** Reading one option *)

Lemma lookup_pre (pre : list string) a l : (pre ++ a :: l) !! length pre = Some a.
Proof. rewrite lookup_app_r, Nat.sub_diag by lia. done. Qed.
Lemma lookup_pre1 (pre : list string) a b l : (pre ++ a :: b :: l) !! S (length pre) = Some b.
Proof. rewrite lookup_app_r by lia. by replace (S (length pre) - length pre)%nat with 1%nat by lia. Qed.
Lemma lookup_pre2 (pre : list string) a b c l : (pre ++ a :: b :: c :: l) !! S (S (length pre)) = Some c.
Proof. rewrite lookup_app_r by lia. by replace (S (S (length pre)) - length pre)%nat with 2%nat by lia. Qed.

Lemma parse_one_render pre s rest o :
  valid s = true ->
  parse_one (pre ++ render s ++ rest) (length pre) o = Some (Some ((length pre + length (render s))%nat, apply o s)).
Proof.
  intros Hv. unfold parse_one.
  assert (forall n l, (length (pre ++ l) - length pre <=? n)%nat = (length l <=? n)%nat) as Hlen by (intros n l; rewrite length_app; repeat f_equal; lia).
  destruct s as [f|f v|f v|b|v|name v]; cbn [render app length] in *; rewrite lookup_pre, ?lookup_pre1, ?lookup_pre2, !Hlen; cbn [length Nat.leb].
  all: replace (length pre + 1)%nat with (S (length pre)) by lia; replace (length pre + 2)%nat with (S (S (length pre))) by lia;
    replace (length pre + 3)%nat with (S (S (S (length pre)))) by lia.
  - by destruct f.
  - by destruct f.
  - cbn [valid] in Hv. destruct f; cbn; destruct (Z.leb_spec (atoi v) 0); try lia; done.
  - by destruct b.
  - cbn [valid] in Hv. cbn. destruct (Z.ltb_spec (parse_loglevel v) 0); [lia|done].
  - cbn [valid] in Hv. cbn. destruct (Z.ltb_spec (BLogGlobal_GetChannelByName name) 0); [lia|]. destruct (Z.ltb_spec (parse_loglevel v) 0); [lia|done].
Qed.

(** What reading an option at the end of [pre] gives. *)
Definition one_ok (pre l : list string) (o : options) (r : option (option (nat * options))) : Prop :=
  exists r', r = Some r' /\
    forall i o', r' = Some (i, o') -> exists s rest, l = render s ++ rest /\ valid s = true /\ i = (length pre + length (render s))%nat /\ o' = apply o s.

Lemma one_fail pre l o : one_ok pre l o (Some None).
Proof. exists None. by split. Qed.

Lemma one_setting pre s rest o i o' :
  valid s = true -> i = (length pre + length (render s))%nat -> o' = apply o s -> one_ok pre (render s ++ rest) o (Some (Some (i, o'))).
Proof. intros Hv Hi Ho. eexists. split; [done|]. intros i2 o2 [= <- <-]. by exists s, rest. Qed.

(** An option with an argument. *)
Lemma one_arg1 pre name rest o (k : string -> option options) :
  (forall a rest' o', rest = a :: rest' -> k a = Some o' ->
     exists s, valid s = true /\ render s = [name; a] /\ o' = apply o s) ->
  one_ok pre (name :: rest) o
    (if (length (pre ++ name :: rest) - length pre <=? 1)%nat then Some None
     else let* a := (pre ++ name :: rest) !! S (length pre) in
          match k a with Some o => Some (Some (S (S (length pre)), o)) | None => Some None end).
Proof.
  intros Hk. destruct (Nat.leb_spec (length (pre ++ name :: rest) - length pre) 1) as [Hl|Hl]; [apply one_fail|].
  rewrite length_app in Hl. destruct rest as [|a rest]; [simpl in Hl; lia|]. rewrite lookup_pre1. destruct (k a) as [o'|] eqn:E; [|apply one_fail].
  destruct (Hk a rest o' eq_refl E) as (s & Hv & Hr & ->). change (name :: a :: rest) with ([name; a] ++ rest). rewrite <- Hr.
  apply one_setting; [done| |done]. rewrite Hr. simpl. lia.
Qed.

Ltac next_option :=
  match goal with |- context [if (?a =? ?l)%string then _ else _] => destruct (String.eqb_spec a l) as [->|_] end.
Ltac flag_case f := next_option; [apply (one_setting _ (SetFlag f)); [done|simpl; lia|done]|].
Ltac str_case o f := next_option; [apply (one_arg1 _ _ _ _ (fun a => Some (set_str o f (Some a)))); intros a rest' o' _ [= <-]; by exists (SetStr f a)|].
Ltac num_case f :=
  next_option; [apply one_arg1; intros a rest' o' _ E; destruct (Z.leb_spec (atoi a) 0); [done|]; injection E as <-; exists (SetNum f a); simpl;
                split_and!; [lia|done|done]|].

Lemma parse_one_ok pre arg rest o : one_ok pre (arg :: rest) o (parse_one (pre ++ arg :: rest) (length pre) o).
Proof.
  unfold parse_one. rewrite lookup_pre. flag_case FHelp. flag_case FVersion.
  next_option.
  { apply one_arg1. intros a rest' o' _. destruct (String.eqb_spec a "stdout") as [->|_]; [intros [= <-]; by exists (SetLogger false)|].
    destruct (String.eqb_spec a "syslog") as [->|_]; [intros [= <-]; by exists (SetLogger true)|done]. }
  str_case o logger_syslog_facility. str_case o logger_syslog_ident.
  next_option.
  { apply one_arg1. intros a rest' o' _ E. destruct (Z.ltb_spec (parse_loglevel a) 0); [done|]. injection E as <-. exists (SetLoglevel a). simpl. split_and!; [lia|done|done]. }
  next_option.
  { destruct (Nat.leb_spec (length (pre ++ "--channel-loglevel"%string :: rest) - length pre) 2) as [Hl|Hl]; [apply one_fail|]. rewrite length_app in Hl.
    destruct rest as [|a1 [|a2 rest]]; [simpl in Hl; lia..|]. rewrite lookup_pre1, lookup_pre2. destruct (Z.ltb_spec (BLogGlobal_GetChannelByName a1) 0); [apply one_fail|].
    destruct (Z.ltb_spec (parse_loglevel a2) 0); [apply one_fail|]. apply (one_setting _ (SetChannel a1 a2)); [simpl; lia|simpl; lia|done]. }
  flag_case FFakeProc. num_case NTunFd. num_case NTunMtu. str_case o dnsgw. str_case o pid. str_case o sock. str_case o netif_ipaddr. str_case o netif_netmask.
  str_case o netif_ip6addr. str_case o socks_server_addr. str_case o username. str_case o password. str_case o password_file. flag_case FAppendSource.
  str_case o udpgw_remote_server_addr. num_case NMaxConnections. num_case NBufferSize. flag_case FTransparentDns. apply one_fail.
Qed.

(** ** The whole command line *)

Lemma parse_loop_ok fuel : forall pre l o, (length l < fuel)%nat ->
  exists r, parse_loop fuel (pre ++ l) (length pre) o = Some r /\
    forall o', r = Some o' <-> exists ss, l = concat (map render ss) /\ forallb valid ss = true /\ o' = fold_left apply ss o.
Proof.
  induction fuel as [|fuel IH]; intros pre l o Hf; [lia|]. cbn [parse_loop]. rewrite length_app. destruct l as [|arg rest].
  - replace (length pre <? length pre + length [])%nat with false by (symmetry; apply Nat.ltb_ge; simpl; lia). eexists. split; [done|].
    intros o'. split; [intros [= <-]; by exists []|]. intros (ss & El & _ & ->). destruct ss as [|s ss]; [done|]. by destruct s.
  - replace (length pre <? length pre + length (arg :: rest))%nat with true by (symmetry; apply Nat.ltb_lt; simpl; lia).
    destruct (parse_one_ok pre arg rest o) as (r & E & Hr). rewrite E. destruct r as [[i o1]|].
    + destruct (Hr i o1 eq_refl) as (s & rest' & El & Hv & -> & ->). rewrite El. destruct (IH (pre ++ render s) rest' (apply o s)) as (r' & E' & Hr').
      { assert (length (arg :: rest) = length (render s) + length rest')%nat as Hl by by rewrite El, length_app. destruct s; simpl in *; lia. }
      rewrite <- app_assoc, length_app in E'. rewrite E'. exists r'. split; [done|]. intros o'. rewrite Hr'. split.
      * intros (ss & -> & Hvs & ->). exists (s :: ss). simpl. by rewrite Hv.
      * intros (ss & Els & Hvs & ->). destruct ss as [|s' ss]; [by destruct s|]. simpl in *. apply andb_true_iff in Hvs as [Hv' Hvs].
        pose proof (parse_one_render pre s' (concat (map render ss)) o Hv') as E2. rewrite <- Els, <- El, E in E2. injection E2 as Ei Eo.
        rewrite Eo. exists ss. split_and!; [|done|done]. apply (app_inj_1 _ _ _ _) in Els as [_ ?]; [done|lia].
    + eexists. split; [done|]. intros o'. split; [done|]. intros (ss & El & Hvs & ->). destruct ss as [|s ss]; [done|]. simpl in *. apply andb_true_iff in Hvs as [Hv _].
      pose proof (parse_one_render pre s (concat (map render ss)) o Hv) as E2. rewrite <- El, E in E2. done.
Qed.

(** What is required, unless help or the version is asked for. *)
Definition complete (o : options) : Prop :=
  int o help <> 0 \/ int o version <> 0 \/
  (is_Some (str o netif_ipaddr) /\ is_Some (str o netif_netmask) /\ is_Some (str o socks_server_addr) /\ is_Some (str o sock) /\
   (is_Some (str o username) -> (is_Some (str o password) <-> str o password_file = None))).

Lemma check_complete o : check_options o = true <-> complete o.
Proof.
  unfold check_options, complete, given. destruct (Z.eqb_spec (int o help) 0) as [->|Hh]; [|simpl; split; auto].
  destruct (Z.eqb_spec (int o version) 0) as [->|Hv]; [|simpl; split; auto]. cbn [negb orb].
  destruct (str o netif_ipaddr), (str o netif_netmask), (str o socks_server_addr), (str o sock), (str o username), (str o password), (str o password_file); simpl;
    split; try done; intros H; try (right; right; split_and!; [by eexists..|]; intros; split; naive_solver);
    destruct H as [?|[?|(H1 & H2 & H3 & H4 & H5)]]; try done; try (by destruct H1); try (by destruct H2); try (by destruct H3); try (by destruct H4).
  all: exfalso; specialize (H5 ltac:(by eexists)); destruct H5 as [H5 H6]; first [discriminate (H5 ltac:(by eexists)) | destruct (H6 eq_refl); done].
Qed.

(** C35. The command line is read exactly by its grammar: for every [argv],
    [parse_arguments] ends without reading outside of it, and succeeds with some
    options if and only if the arguments are a sequence of settings, each option
    followed by its arguments, with positive numbers and known log levels and
    channels, such that the settings applied one after the other to the initial
    options (the last of several wins) give these options, and what is required is
    given: the addresses of the interface and of the SOCKS server, the socket, and
    with a user name either a password or a password file, not both. *)
Theorem options_grammar old argv :
  exists r, parse_arguments old argv = Some r /\
    forall o, r = Some o <->
      exists prog ss, argv = prog :: concat (map render ss) /\ forallb valid ss = true /\
        o = fold_left apply ss (init_options old prog) /\ complete o.
Proof.
  unfold parse_arguments. destruct argv as [|prog l]; [eexists; split; [done|]; intros o; split; [done|by intros (prog & ss & ? & _)]|].
  cbn [length Nat.eqb lookup list_lookup]. destruct (parse_loop_ok (S (length l)) [prog] l (init_options old prog)) as (r & E & Hr); [lia|].
  cbn [app length] in E. rewrite E. destruct r as [o|].
  - pose proof (check_complete o) as Hc. destruct (check_options o) eqn:Ec.
    + eexists. split; [done|]. intros o'. split.
      * intros [= <-]. destruct (proj1 (Hr o) eq_refl) as (ss & -> & Hv & Ho). exists prog, ss. split_and!; [done|done|done|by apply Hc].
      * intros (prog' & ss & [= <- El] & Hv & Ho & _). apply Hr. by exists ss.
    + eexists. split; [done|]. intros o'. split; [done|]. intros (prog' & ss & [= <- El] & Hv & Ho & Hco). exfalso.
      assert (Some o = Some o') as [= <-] by (apply Hr; by exists ss). apply Hc in Hco. done.
  - eexists. split; [done|]. intros o'. split; [done|]. intros (prog' & ss & [= <- El] & Hv & Ho & _). apply Hr. by exists ss.
Qed.

(** The numbers of accepted options are positive. *)
Definition numbers_ok (o : options) : Prop :=
  0 < int o udpgw_max_connections <= INT_MAX /\ 0 < int o udpgw_connection_buffer_size <= INT_MAX /\ 0 < int o tun_mtu <= INT_MAX.

Lemma atoi_range s : - INT_MAX - 1 <= atoi s <= INT_MAX.
Proof. unfold atoi, INT_MAX. cbv zeta. pose proof (Z.mod_pos_bound ((strtol s).1 + 2147483648) 4294967296 ltac:(lia)). lia. Qed.

Lemma apply_numbers o s : valid s = true -> numbers_ok o -> numbers_ok (apply o s).
Proof.
  intros Hv Ho. destruct s as [f|f v|f v|b|v|name v]; [destruct f; exact Ho|exact Ho| |destruct b; exact Ho|exact Ho|exact Ho].
  cbn [valid] in Hv. pose proof (atoi_range v). unfold numbers_ok in *. destruct f; simpl; lia.
Qed.

Lemma parse_numbers old argv o : parse_arguments old argv = Some (Some o) -> numbers_ok o.
Proof.
  unfold parse_arguments. destruct argv as [|prog l]; [done|]. cbn [length Nat.eqb lookup list_lookup].
  destruct (parse_loop_ok (S (length l)) [prog] l (init_options old prog)) as (r & E & Hr); [lia|]. cbn [app length] in E. rewrite E. destruct r as [o'|]; [|done].
  destruct (check_options o'); [|done]. intros [= <-]. destruct (proj1 (Hr o') eq_refl) as (ss & _ & Hv & ->).
  assert (numbers_ok (init_options old prog)) as H0 by (unfold numbers_ok, INT_MAX; simpl; unfold DEFAULT_UDPGW_MAX_CONNECTIONS, DEFAULT_UDPGW_CONNECTION_BUFFER_SIZE; lia).
  revert H0 Hv. generalize (init_options old prog). clear. induction ss as [|s ss IH]; intros o H0 Hv; [done|]. simpl in *. apply andb_true_iff in Hv as [Hv1 Hv2].
  apply IH; [by apply apply_numbers|done].
Qed.
End Parse.

(** ** Examples *)

Definition no_options : options := mkOptions (fun _ => None) (fun _ => 0) (fun _ => 0).

Definition ex_argv : list string :=
  ["tun2socks"; "--netif-ipaddr"; "26.26.26.2"; "--netif-netmask"; "255.255.255.0"; "--socks-server-addr"; "127.0.0.1:1080";
   "--tunmtu"; " +1500x"; "--sock"; "sock_path"; "--loglevel"; "notice"; "--channel-loglevel"; "tun2socks"; "5"; "--tunmtu"; "1400"]%string.

Example ex_argv_parsed : exists o, parse_arguments ["dummy"; "tun2socks"]%string no_options ex_argv = Some (Some o) /\
  int o tun_mtu = 1400 /\ int o loglevel = 3 /\ loglevels o 1 = 5 /\ loglevels o 0 = -1 /\ str o sock = Some "sock_path"%string.
Proof. eexists. split; [vm_compute; reflexivity|]. by vm_compute. Qed.

Example ex_argv_missing : parse_arguments [] no_options (ex_argv ++ ["--pid"%string]) = Some None.
Proof. by vm_compute. Qed.
