(* ===== verification/Startup.v ===== *)
(** * Starting the UDP gateway client

    The part of [main] in [tun2socks/tun2socks.c] that computes [udp_mtu] from the
    MTU of the device and makes the gateway client, from the options that
    [parse_arguments] accepted: what it checks is what the gateway client asserts
    and what the packet code needs. *)

From Stdlib Require Import String.
From S2P Require Import Options.
From S2P Require Import Prelude ByteOrder PacketProto InetProto Device SocksClient SocksPort UdpGw SocksUdpGw.

(** ** The code *)

(** The maximum UDP payload; [mtu] is [BTap_GetMTU(&device)]. *)
Definition compute_udp_mtu (ip6 : bool) (mtu : Z) : Z :=
  let udp_mtu := mtu - (sizeof_ipv4_header + sizeof_udp_header) in
  let udp_mtu := (if ip6 then
                    let udp_ip6_mtu := mtu - (sizeof_ipv6_header + sizeof_udp_header) in
                    if udp_mtu <? udp_ip6_mtu then udp_ip6_mtu else udp_mtu
                  else udp_mtu) in
  if udp_mtu <? 0 then 0 else udp_mtu.

Section Startup.
Context {S E : Type} `{SocksPort S E}.

(** The inner [None] is [goto fail4a]; [remote]: [udpgw_remote_server_addr]. *)
Definition init_udpgw (o : Options.options) (mtu : Z) (remote : BAddr) (queue_ok connector_ok : bool)
    : option (option (Z * option SocksUdpGwClient)) :=
  if Options.given o Options.udpgw_remote_server_addr then
    let udp_mtu := compute_udp_mtu (Options.given o Options.netif_ip6addr) mtu in
    let udpgw_mtu := udpgw_compute_mtu udp_mtu in
    if (udpgw_mtu <? 0) || (udpgw_mtu >? PACKETPROTO_MAXPAYLOAD) then Some None
    else let* r := SocksUdpGwClient_Init udp_mtu Options.DEFAULT_UDPGW_MAX_CONNECTIONS
                     (Options.int o Options.udpgw_connection_buffer_size) remote queue_ok connector_ok in
         match r with Some u => Some (Some (udp_mtu, Some u)) | None => Some None end
  else Some (Some (0, None)).

(** ** What it gives *)

Lemma compute_udp_mtu_eq ip6 mtu : compute_udp_mtu ip6 mtu = Z.max 0 (mtu - 28).
Proof.
  unfold compute_udp_mtu, sizeof_ipv4_header, sizeof_ipv6_header, sizeof_udp_header. destruct ip6; [|destruct (Z.ltb_spec (mtu - (20 + 8)) 0); lia].
  destruct (Z.ltb_spec (mtu - (20 + 8)) (mtu - (40 + 8))); [lia|]. destruct (Z.ltb_spec (mtu - (20 + 8)) 0); lia.
Qed.

(** The headers of a datagram take at least 28 bytes. *)
Lemma udp_source_len o data l r b p : bytes_ok data -> udp_source o data l r b p -> zlen p + 28 <= zlen data.
Proof.
  intros Hd [(iph & udph & (q & hl & H1 & _ & H2 & _) & _)|(_ & _ & iph & udph & (q & H1 & _ & H2 & _) & _)].
  - destruct (ipv4_check_facts _ _ _ _ Hd H1) as (_ & _ & _ & _ & _ & _ & Hhl & _ & _ & Hl & Hq & _).
    destruct (udp_check_sound _ _ _ Hq H2) as (_ & _ & Lp & Hlen & _). lia.
  - destruct (ipv6_check_facts _ _ _ Hd H1) as (_ & _ & _ & _ & _ & Hl & Hq & _). destruct (udp_check_sound _ _ _ Hq H2) as (_ & _ & Lp & Hlen & _). lia.
Qed.

(** A packet holds at most one datagram. *)
Lemma udp_source_unique o data l r b p l' r' b' p' :
  bytes_ok data -> udp_source o data l r b p -> udp_source o data l' r' b' p' -> l = l' /\ r = r' /\ b = b' /\ p = p'.
Proof.
  intros Hd Hs Hs'. assert (forall i u x i' u' x', udp4_packet data i u x -> ~ udp6_packet data i' u' x') as Hx.
  { intros i u x i' u' x' H4 (q & H1 & _). destruct (udp4_gate _ _ _ _ Hd H4) as [Hv _]. destruct (ipv6_check_facts _ _ _ Hd H1) as (_ & _ & ? & _). lia. }
  destruct Hs as [(i & u & H1 & -> & -> & ->)|(_ & -> & i & u & H1 & -> & ->)], Hs' as [(i' & u' & H1' & -> & -> & ->)|(_ & -> & i' & u' & H1' & -> & ->)].
  - by destruct (udp4_unique _ _ _ _ _ _ _ H1 H1') as (-> & -> & ->).
  - by apply (Hx _ _ _ _ _ _ H1) in H1'.
  - by apply (Hx _ _ _ _ _ _ H1') in H1.
  - destruct H1 as (q & H1 & _ & H2 & _), H1' as (q' & H1' & _ & H2' & _). by simplify_eq.
Qed.

Lemma compute_mtu_fits m : 0 <= m <= 65513 -> udpgw_compute_mtu m = m + 22.
Proof.
  intros Hm. unfold udpgw_compute_mtu, bsize_toint, bsize_add, bsize_max, bsize_fromsize, bsize_fromint,
    sizeof_socks_udp_header, sizeof_udpgw_addr_ipv4, sizeof_udpgw_addr_ipv6, SIZE_MAX, UINT64_MAX, INT_MAX, u64.
  cbn [is_overflow bsize_value orb]. change (18 <? 6) with false. cbv iota. cbn [orb].
  destruct (Z.ltb_spec m 0); [lia|]. destruct (Z.ltb_spec 18446744073709551615 m); cbn [orb]; [lia|]. rewrite (Z.mod_small m) by lia.
  destruct (Z.ltb_spec (18446744073709551615 - 18) m); cbn [orb]; [lia|]. rewrite (Z.mod_small (18 + m)) by lia.
  destruct (Z.ltb_spec (18446744073709551615 - 4) (18 + m)); cbn [orb]; [lia|]. rewrite (Z.mod_small (4 + (18 + m))) by lia.
  destruct (Z.ltb_spec 2147483647 (4 + (18 + m))); lia.
Qed.

(** The size check of [main], in terms of the payload. *)
Lemma mtu_check m : 0 <= m ->
  (udpgw_compute_mtu m <? 0) || (udpgw_compute_mtu m >? PACKETPROTO_MAXPAYLOAD) = (65513 <? m).
Proof.
  intros Hm. unfold PACKETPROTO_MAXPAYLOAD, UINT16_MAX. destruct (Z.ltb_spec 65513 m) as [Hb|Hs].
  - destruct (Z.ltb_spec (udpgw_compute_mtu m) 0) as [|H0]; [done|]. destruct (Z.gtb_spec (udpgw_compute_mtu m) 65535) as [|H1]; [done|].
    pose proof (compute_mtu m Hm ltac:(lia)). lia.
  - rewrite compute_mtu_fits by lia. destruct (Z.ltb_spec (m + 22) 0); [lia|]. by destruct (Z.gtb_spec (m + 22) 65535); [lia|].
Qed.

(** C18. Starting up: from options that [parse_arguments] accepted, with the UDP gateway
    asked for, the gateway client is made without a failed assertion; start-up is
    refused exactly when the payloads would not fit a gateway message (a device MTU
    over 65541) or the client gets no memory. Once it is made, every UDP datagram
    in a packet of at most the MTU, IPv4 or IPv6, is submitted to it, none is too
    large for it. *)
Theorem udpgw_startup channels old argv (o : Options.options) remote queue_ok connector_ok :
  Options.parse_arguments channels old argv = Some (Some o) ->
  Options.given o Options.udpgw_remote_server_addr = true -> dest_ok remote ->
  let mtu := Options.int o Options.tun_mtu in
  exists r, init_udpgw o mtu remote queue_ok connector_ok = Some r /\
    (r = None <-> 65541 < mtu \/ queue_ok = false) /\
    forall udp_mtu' u, r = Some (udp_mtu', Some u) ->
      udp_mtu (udpgw_client u) = udp_mtu' /\
      forall c d data l rm b p, Device.udp_mtu c = udp_mtu' -> udpgw_remote_server_addr c = true ->
        bytes_ok data -> zlen data <= mtu -> udp_source c data l rm b p ->
        process_device_udp_packet c data d = Some (true, emit d (UdpSubmit l rm b p)) /\ zlen p <= udp_mtu (udpgw_client u).
Proof.
  intros Hp Hg Hd mtu. destruct (Options.parse_numbers _ _ _ _ Hp) as (_ & Hbs & Hmtu). fold mtu in Hmtu. unfold init_udpgw. rewrite Hg, compute_udp_mtu_eq, mtu_check by lia.
  destruct (Z.ltb_spec 65513 (Z.max 0 (mtu - 28))) as [Hb|Hb].
  { exists None. split; [done|]. split; [split; [left; lia|done]|done]. }
  assert (UdpGwClient_Init (Z.max 0 (mtu - 28)) Options.DEFAULT_UDPGW_MAX_CONNECTIONS (Options.int o Options.udpgw_connection_buffer_size) queue_ok =
    UdpGwClient_Init (Z.max 0 (mtu - 28)) 256 1 queue_ok) as Ei.
  { unfold UdpGwClient_Init, Options.DEFAULT_UDPGW_MAX_CONNECTIONS. by rewrite (proj2 (Z.gtb_lt (Options.int o Options.udpgw_connection_buffer_size) 0)) by lia. }
  unfold SocksUdpGwClient_Init. rewrite Ei. replace (match remote with BADDR_NONE => false | _ => true end) with true by by destruct remote.
  destruct (UdpGwClient_Init (Z.max 0 (mtu - 28)) 256 1 queue_ok) as [[u|]|] eqn:Eu.
  - destruct (gw_init_ok _ _ _ _ _ Eu) as (_ & _ & _ & _ & Hum & _). pose proof (gw_init_server _ _ _ _ _ Eu) as Hs.
    assert (queue_ok = true) as -> by (destruct queue_ok; [done|]; unfold UdpGwClient_Init in Eu; repeat (case_match; try done)).
    destruct (try_connect_ok connector_ok (mkSug remote u false false None false)) as (s & -> & _ & Hu); [done..|]. cbn [udpgw_client] in Hu.
    eexists. split; [done|]. split; [split; [done|intros [?|?]; [lia|done]]|]. intros m' s' [= <- <-]. rewrite Hu, Hum. split; [done|].
    intros c d data l rm b p Hc Hr Hda Hl Hsrc. pose proof (udp_source_len _ _ _ _ _ _ Hda Hsrc) as Hlen. split; [|lia].
    destruct (udp_eval c data d Hda Hr) as [(l' & r' & b' & p' & Hs' & _ & E')|[Hn _]]; [|specialize (Hn _ _ _ _ Hsrc); lia].
    destruct (udp_source_unique _ _ _ _ _ _ _ _ _ _ Hda Hsrc Hs') as (-> & -> & -> & ->). done.
  - eexists. split; [done|]. split; [split; [|done]|done]. intros _. right. destruct queue_ok; [|done]. exfalso. revert Eu. unfold UdpGwClient_Init. repeat (case_match; try done).
  - exfalso. revert Eu. unfold UdpGwClient_Init. rewrite compute_mtu_fits by lia. unfold PACKETPROTO_MAXPAYLOAD, UINT16_MAX.
    rewrite !Z.geb_leb, !(proj2 (Z.leb_le _ _)) by lia. by destruct queue_ok.
Qed.
End Startup.

(** ** Witness *)

Definition ex_start_argv : list String.string :=
  ["tun2socks"; "--netif-ipaddr"; "26.26.26.2"; "--netif-netmask"; "255.255.255.0"; "--socks-server-addr"; "127.0.0.1:1080";
   "--tunmtu"; "1500"; "--sock"; "sock_path"; "--udpgw-remote-server-addr"; "127.0.0.1:7300"; "--udpgw-connection-buffer-size"; "16"]%string.

Definition ex_start_options : Options.options :=
  match Options.parse_arguments [] Options.no_options ex_start_argv with Some (Some o) => o | _ => Options.no_options end.

Lemma udpgw_startup_witness :
  Options.parse_arguments [] Options.no_options ex_start_argv = Some (Some ex_start_options) /\
  exists r, init_udpgw (H := ex_port) ex_start_options 1500 (BADDR_IPV4 0 0) true true = Some r /\ (r = None <-> 65541 < 1500 \/ true = false).
Proof.
  assert (Options.parse_arguments [] Options.no_options ex_start_argv = Some (Some ex_start_options)) as Hp by (vm_compute; reflexivity).
  split; [exact Hp|]. destruct (udpgw_startup (H := ex_port) [] Options.no_options ex_start_argv ex_start_options (BADDR_IPV4 0 0) true true Hp) as (r & Hr & Hn & _);
    [vm_compute; reflexivity|simpl; lia|]. exists r. split; [exact Hr|exact Hn].
Defined.
