(* ===== verification/IPAddr6.v ===== *)
(** * IPv6 addresses as text

    [ipaddr6_parse_ipv6_addr_bin] and [ipaddr6_print_addr] of [misc/ipaddr6.h],
    with the digits of [misc/parse_number.h]: how [tun2socks] reads
    [--netif-ip6addr]. Characters are their codes; the text is read by index and
    the address is written to a buffer of 16 bytes; [None] is an access outside of
    either. *)

From S2P Require Import Prelude ByteOrder.

Definition char_dot : Z := 46.
Definition char_colon : Z := 58.

(** ** Digits *)

Definition decode_decimal_digit (c : Z) : Z := if (48 <=? c) && (c <=? 57) then c - 48 else -1.
Definition decode_hex_digit (c : Z) : Z :=
  if (48 <=? c) && (c <=? 57) then c - 48
  else if (65 <=? c) && (c <=? 70) then c - 55
  else if (97 <=? c) && (c <=? 102) then c - 87
  else -1.

(** ** Parsing *)

(** The variables of the first loop; [p_bytes] is [out_addr->bytes]. *)
Record pstate := mkP { num_blocks : Z; compress_pos : Z; block : Z; empty : bool; pos : Z; p_bytes : list Z }.

(** [out_addr->bytes[2 * num_blocks + 0/1] = ...; num_blocks++] *)
Definition put_block (s : pstate) : option pstate :=
  let* b := mem_write (2 * num_blocks s + 0) [u8 (Z.shiftr (block s) 8)] (p_bytes s) in
  let* b := mem_write (2 * num_blocks s + 1) [u8 (Z.land (block s) 255)] b in
  Some (mkP (num_blocks s + 1) (compress_pos s) (block s) (empty s) (pos s) b).

(** How an iteration ends: with the next state, [return 0], or [goto ipv4_ending]. *)
Inductive iter := Next (s : pstate) | Refuse | Ipv4 (s : pstate).

Definition colon_iter (name : list Z) (s : pstate) : option iter :=
  let* is_double := (if pos s + 1 <? zlen name
                     then let* c := byte_at name (pos s + 1) in Some (c =? char_colon)
                     else Some false) in
  let* r := (if pos s >? 0 then
               if empty s || (num_blocks s =? 7) then Some None
               else let* s := put_block s in
                    Some (Some (mkP (num_blocks s) (compress_pos s) 0 true (pos s) (p_bytes s)))
             else if negb is_double then Some None
             else Some (Some s)) in
  match r with
  | None => Some Refuse
  | Some s =>
      if is_double && negb (compress_pos s =? -1) then Some Refuse
      else Some (Next (mkP (num_blocks s) (if is_double then num_blocks s else compress_pos s) (block s) (empty s)
                         (pos s + 1 + Z.b2z is_double) (p_bytes s)))
  end.

Definition digit_iter (c : Z) (s : pstate) : iter :=
  let digit := decode_hex_digit c in
  if digit <? 0 then Refuse
  else if block s >? UINT16_MAX / 16 then Refuse
  else let b := u16 (block s * 16) in
       if digit >? UINT16_MAX - b then Refuse
       else Next (mkP (num_blocks s) (compress_pos s) (u16 (b + digit)) false (pos s + 1) (p_bytes s)).

(** The loop; [Next]: it ended. *)
Fixpoint blocks_loop (fuel : nat) (name : list Z) (s : pstate) : option iter :=
  if pos s <? zlen name then
    match fuel with
    | O => None
    | S fuel =>
        let* c := byte_at name (pos s) in
        if c =? char_dot then Some (Ipv4 s)
        else let* r := (if c =? char_colon then colon_iter name s else Some (digit_iter c s)) in
             match r with Next s => blocks_loop fuel name s | r => Some r end
    end
  else Some (Next s).

(** [while (name[i - 1] != ':') i--;] *)
Fixpoint back_loop (fuel : nat) (name : list Z) (i : Z) : option Z :=
  match fuel with
  | O => None
  | S fuel => let* c := byte_at name (i - 1) in if c =? char_colon then Some i else back_loop fuel name (i - 1)
  end.

(** The loop over the dotted part: [bytes], [cur_byte], [byte], [empty]. *)
Fixpoint dotted_loop (fuel : nat) (name : list Z) (i : Z) (bytes : list Z) (cur_byte byte : Z) (empty : bool)
    : option (option (list Z * Z * Z * bool)) :=
  if i <? zlen name then
    match fuel with
    | O => None
    | S fuel =>
        let* c := byte_at name i in
        if c =? char_dot then
          if empty || (cur_byte =? 3) then Some None
          else let* bytes := mem_write cur_byte [byte] bytes in
               dotted_loop fuel name (i + 1) bytes (cur_byte + 1) 0 true
        else if negb empty && (byte =? 0) then Some None
        else let digit := decode_decimal_digit c in
             if digit <? 0 then Some None
             else if byte >? 255 / 10 then Some None
             else let b := u8 (byte * 10) in
                  if digit >? 255 - b then Some None
                  else dotted_loop fuel name (i + 1) bytes cur_byte (u8 (b + digit)) false
    end
  else Some (Some (bytes, cur_byte, byte, empty)).

(** From [ipv4_done] on. *)
Definition finish (num_blocks compress_pos : Z) (b : list Z) : option (option (list Z)) :=
  if (compress_pos =? -1) && negb (num_blocks =? 8) then Some None
  else let compress_pos := if compress_pos =? -1 then 0 else compress_pos in
       let num_rear := num_blocks - compress_pos in
       let* b := mem_move (2 * (8 - num_rear)) (2 * compress_pos) (2 * num_rear) b in
       let* b := mem_write (2 * compress_pos) (replicate (Z.to_nat (2 * (8 - num_rear - compress_pos))) 0) b in
       Some (Some b).

(** The initial contents of [bytes] are overwritten before it is used. *)
Definition ipv4_ending (name : list Z) (s : pstate) : option (option (list Z)) :=
  if empty s || ((num_blocks s =? 0) && (compress_pos s =? -1)) then Some None
  else let* i := back_loop (length name) name (pos s) in
       let* r := dotted_loop (length name) name i (replicate 4 0) 0 0 true in
       match r with
       | None => Some None
       | Some (bytes, cur_byte, byte, empty) =>
           if negb (cur_byte =? 3) || empty then Some None
           else let* bytes := mem_write cur_byte [byte] bytes in
                if 8 - num_blocks s <? 2 then Some None
                else let* b := mem_write (2 * num_blocks s) bytes (p_bytes s) in
                     finish (num_blocks s + 2) (compress_pos s) b
       end.

(** The address, when the result is 1. *)
Definition ipaddr6_parse_ipv6_addr_bin (name out_addr : list Z) : option (option (list Z)) :=
  let* r := blocks_loop (length name) name (mkP 0 (-1) 0 true 0 out_addr) in
  match r with
  | Refuse => Some None
  | Ipv4 s => ipv4_ending name s
  | Next s =>
      if negb (empty s) then
        let* s := put_block s in finish (num_blocks s) (compress_pos s) (p_bytes s)
      else if negb (num_blocks s =? compress_pos s) then Some None
      else finish (num_blocks s) (compress_pos s) (p_bytes s)
  end.

(** ** Printing *)

Definition IPADDR6_PRINT_MAX : Z := 44.

Definition hex_char (d : Z) : Z := if d <? 10 then 48 + d else 87 + d.

(** [sprintf("%x")] of a [uint16_t] *)
Definition print_hex (b : Z) : list Z :=
  if b <? 16 then [hex_char b]
  else if b <? 256 then [hex_char (b / 16); hex_char (b mod 16)]
  else if b <? 4096 then [hex_char (b / 256); hex_char (b / 16 mod 16); hex_char (b mod 16)]
  else [hex_char (b / 4096); hex_char (b / 256 mod 16); hex_char (b / 16 mod 16); hex_char (b mod 16)].

(** [((uint16_t)addr.bytes[2 * i] << 8) | addr.bytes[2 * i + 1]] *)
Definition block_of (addr : list Z) (i : Z) : Z := Z.lor (u16 (Z.shiftl (ld8 addr (2 * i)) 8)) (ld8 addr (2 * i + 1)).

(** The search for the longest run of zero blocks: its start and length. *)
Fixpoint run_loop (n : nat) (addr : list Z) (i largest_start largest_len current_start current_len : Z) : Z * Z :=
  match n with
  | O => (largest_start, largest_len)
  | S n =>
      if (ld8 addr (2 * i) =? 0) && (ld8 addr (2 * i + 1) =? 0) then
        let current_len := current_len + 1 in
        if current_len >? largest_len then run_loop n addr (i + 1) current_start current_len current_start current_len
        else run_loop n addr (i + 1) largest_start largest_len current_start current_len
      else run_loop n addr (i + 1) largest_start largest_len (i + 1) 0
  end.

Definition ipaddr6_print_addr (addr : list Z) : list Z :=
  let '(largest_start, largest_len) := run_loop 8 addr 0 0 0 0 0 in
  let blocks i n := block_of addr <$> seqZ i n in
  if largest_len >? 1 then
    concat ((fun b => print_hex b ++ [char_colon]) <$> blocks 0 largest_start) ++
    (if largest_start =? 0 then [char_colon] else []) ++
    concat ((fun b => char_colon :: print_hex b) <$> blocks (largest_start + largest_len) (8 - (largest_start + largest_len))) ++
    (if largest_start + largest_len =? 8 then [char_colon] else [])
  else
    (** [prefix] is empty the first time and a colon after that *)
    print_hex (block_of addr 0) ++ concat ((fun b => char_colon :: print_hex b) <$> blocks 1 7).

(** ** Every text is read safely *)

Lemma zlen_one (x : Z) : zlen [x] = 1.
Proof. reflexivity. Qed.

Lemma write_ok off bs m :
  0 <= off -> off + zlen bs <= zlen m -> bytes_ok bs -> bytes_ok m ->
  exists m', mem_write off bs m = Some m' /\ zlen m' = zlen m /\ bytes_ok m'.
Proof. intros H1 H2 H3 H4. destruct (mem_write_Some off bs m H1 H2) as (m' & E & L). exists m'. split_and!; [done|done|]. by eapply bytes_ok_write. Qed.

Lemma bytes_one x : 0 <= x < 256 -> bytes_ok [x].
Proof. intros H. constructor; [exact H|constructor]. Qed.

Lemma u8_ok x : bytes_ok [u8 x].
Proof. apply bytes_one. unfold u8. apply Z.mod_pos_bound. lia. Qed.

(** What holds in the first loop: in particular a colon has been read when a block
    or the compression mark has. *)
Record p_ok (name : list Z) (s : pstate) : Prop := {
  po_blocks : 0 <= num_blocks s <= 7;
  po_compress : -1 <= compress_pos s <= num_blocks s;
  po_block : 0 <= block s < 65536;
  po_pos : 0 <= pos s <= zlen name;
  po_len : zlen (p_bytes s) = 16;
  po_bytes : bytes_ok (p_bytes s);
  po_colon : 0 < num_blocks s \/ compress_pos s <> -1 -> exists j, 0 <= j < pos s /\ byte_at name j = Some char_colon
}.

Lemma put_block_ok name s : p_ok name s ->
  exists b, put_block s = Some (mkP (num_blocks s + 1) (compress_pos s) (block s) (empty s) (pos s) b) /\ zlen b = 16 /\ bytes_ok b.
Proof.
  intros [H1 H2 H3 H4 H5 H6 _]. unfold put_block.
  destruct (write_ok (2 * num_blocks s + 0) [u8 (Z.shiftr (block s) 8)] (p_bytes s)) as (b1 & -> & L1 & B1); [lia|rewrite zlen_one; lia|apply u8_ok|done|].
  destruct (write_ok (2 * num_blocks s + 1) [u8 (Z.land (block s) 255)] b1) as (b2 & -> & L2 & B2); [lia|rewrite zlen_one; lia|apply u8_ok|done|].
  exists b2. split_and!; [done|lia|done].
Qed.

Lemma colon_iter_ok name s :
  p_ok name s -> pos s < zlen name -> byte_at name (pos s) = Some char_colon ->
  exists r, colon_iter name s = Some r /\
    match r with Next s' => p_ok name s' /\ pos s < pos s' | Refuse => True | Ipv4 _ => False end.
Proof.
  intros Ho Hlt Hc. pose proof Ho as [H1 H2 H3 H4 H5 H6 H7]. unfold colon_iter.
  assert (exists d : bool, (if pos s + 1 <? zlen name then let* c := byte_at name (pos s + 1) in Some (c =? char_colon) else Some false) = Some d /\
    pos s + 1 + Z.b2z d <= zlen name) as (d & -> & Hd).
  { destruct (Z.ltb_spec (pos s + 1) (zlen name)); [|exists false; simpl; split; [done|lia]].
    destruct (byte_at_Some name (pos s + 1)) as (c & ->); [lia|]. exists (c =? char_colon). split; [done|]. destruct (c =? char_colon); simpl; lia. }
  assert (0 <= Z.b2z d <= 1) as Hdb by (destruct d; simpl; lia).
  destruct (Z.gtb_spec (pos s) 0) as [Hp|Hp].
  - destruct (empty s || (num_blocks s =? 7)) eqn:E; [by exists Refuse|]. apply orb_false_iff in E as [_ E]. apply Z.eqb_neq in E.
    destruct (put_block_ok name s Ho) as (b & -> & Lb & Bb). cbn [num_blocks compress_pos block empty pos p_bytes].
    destruct (d && negb (compress_pos s =? -1)); [by exists Refuse|]. eexists. split; [done|]. cbn [pos]. split; [|lia].
    split; cbn [num_blocks compress_pos block empty pos p_bytes]; try done; try lia; [destruct d; lia|]. intros _. exists (pos s). split; [lia|done].
  - destruct d; cbn [negb]; [|by exists Refuse]. destruct (true && negb (compress_pos s =? -1)) eqn:E; [by exists Refuse|].
    eexists. split; [done|]. cbn [pos]. split; [|simpl; lia]. split; cbn [num_blocks compress_pos block empty pos p_bytes]; try done; try lia.
    intros _. exists (pos s). split; [simpl; lia|done].
Qed.

Lemma digit_iter_ok name c s : p_ok name s -> pos s < zlen name ->
  match digit_iter c s with Next s' => p_ok name s' /\ pos s' = pos s + 1 | Refuse => True | Ipv4 _ => False end.
Proof.
  intros [H1 H2 H3 H4 H5 H6 H7] Hlt. unfold digit_iter. destruct (decode_hex_digit c <? 0); [done|].
  destruct (block s >? UINT16_MAX / 16); [done|]. destruct (decode_hex_digit c >? UINT16_MAX - u16 (block s * 16)); [done|]. split; [|done].
  split; cbn [num_blocks compress_pos block empty pos p_bytes]; try done; try lia; [unfold u16; apply Z.mod_pos_bound; lia|].
  intros Hx. destruct (H7 Hx) as (j & Hj & Ej). exists j. split; [lia|done].
Qed.

Lemma blocks_loop_ok fuel : forall name s, p_ok name s -> zlen name - pos s <= Z.of_nat fuel ->
  exists r, blocks_loop fuel name s = Some r /\
    match r with Next s' => p_ok name s' | Refuse => True | Ipv4 s' => p_ok name s' /\ pos s' < zlen name end.
Proof.
  induction fuel as [|fuel IH]; intros name s Ho Hf; cbn [blocks_loop]; (destruct (Z.ltb_spec (pos s) (zlen name)) as [Hlt|Hge]; [|by exists (Next s)]); [lia|].
  destruct (byte_at_Some name (pos s)) as (c & Hc); [pose proof (po_pos _ _ Ho); lia|]. rewrite Hc.
  destruct (c =? char_dot); [by exists (Ipv4 s)|]. destruct (Z.eqb_spec c char_colon) as [->|Hne].
  - destruct (colon_iter_ok name s Ho Hlt Hc) as (r & -> & Hr). destruct r as [s'| |s']; [|by exists Refuse|done]. destruct Hr as [Ho' Hp]. apply IH; [done|lia].
  - pose proof (digit_iter_ok name c s Ho Hlt) as Hr. destruct (digit_iter c s) as [s'| |s']; [|by exists Refuse|done]. destruct Hr as [Ho' Hp]. apply IH; [done|lia].
Qed.

Lemma back_loop_ok fuel : forall name i j, 0 <= j < i -> i <= zlen name -> byte_at name j = Some char_colon -> i - j <= Z.of_nat fuel ->
  exists i', back_loop fuel name i = Some i' /\ 0 < i' <= i.
Proof.
  induction fuel as [|fuel IH]; intros name i j Hj Hi Ec Hf; [lia|]. cbn [back_loop]. destruct (byte_at_Some name (i - 1)) as (c & Hc); [lia|]. rewrite Hc.
  destruct (Z.eqb_spec c char_colon) as [->|Hne]; [exists i; split; [done|lia]|].
  assert (j <> i - 1) by (intros ->; congruence). destruct (IH name (i - 1) j) as (i' & -> & Hi'); [lia|lia|done|lia|]. exists i'. split; [done|lia].
Qed.

Lemma dotted_loop_ok fuel : forall name i bytes cur byte e,
  0 <= i -> zlen name - i <= Z.of_nat fuel -> zlen bytes = 4 -> bytes_ok bytes -> 0 <= cur <= 3 -> 0 <= byte < 256 ->
  exists r, dotted_loop fuel name i bytes cur byte e = Some r /\
    match r with Some (bytes', cur', byte', _) => zlen bytes' = 4 /\ bytes_ok bytes' /\ 0 <= cur' <= 3 /\ 0 <= byte' < 256 | None => True end.
Proof.
  induction fuel as [|fuel IH]; intros name i bytes cur byte e Hi Hf Lb Bb Hc Hb; cbn [dotted_loop];
    (destruct (Z.ltb_spec i (zlen name)) as [Hlt|Hge]; [|by eexists]); [lia|].
  destruct (byte_at_Some name i) as (c & ->); [lia|]. destruct (c =? char_dot).
  - destruct (e || (cur =? 3)) eqn:E; [by eexists|]. apply orb_false_iff in E as [_ E]. apply Z.eqb_neq in E.
    destruct (write_ok cur [byte] bytes) as (b' & -> & L' & B'); [lia|rewrite zlen_one; lia|by apply bytes_one|done|]. apply IH; try done; lia.
  - repeat (case_match; [by eexists|]). apply IH; try done; try lia. unfold u8. apply Z.mod_pos_bound. lia.
Qed.

Lemma finish_ok nb cp b :
  0 <= nb <= 8 -> -1 <= cp <= nb -> zlen b = 16 -> bytes_ok b ->
  exists r, finish nb cp b = Some r /\ match r with Some a => zlen a = 16 /\ bytes_ok a | None => True end.
Proof.
  intros Hn Hc Lb Bb. unfold finish. destruct ((cp =? -1) && negb (nb =? 8)) eqn:E; [by eexists|].
  set (c := if cp =? -1 then 0 else cp). assert (0 <= c <= nb) as Hc' by (subst c; destruct (Z.eqb_spec cp (-1)); lia). clearbody c. unfold mem_move, mem_read.
  rewrite (proj2 (in_range_spec _ _ _)) by lia.
  destruct (write_ok (2 * (8 - (nb - c))) (slice (2 * c) (2 * (nb - c)) b) b) as (b1 & -> & L1 & B1); [lia|rewrite zlen_slice; lia|by apply bytes_ok_slice|done|].
  destruct (write_ok (2 * c) (replicate (Z.to_nat (2 * (8 - (nb - c) - c))) 0) b1) as (b2 & -> & L2 & B2);
    [lia|unfold zlen at 1; rewrite length_replicate; lia|apply Forall_replicate; unfold byte_ok; lia|done|].
  eexists. split; [done|]. split; [lia|done].
Qed.

(** Every text is read safely: whatever the characters, the parser ends, reads
    only inside of the text and writes only inside of the address, and what it
    accepts is an address of 16 bytes. *)
Theorem ipaddr6_parse_safe name out_addr :
  zlen out_addr = 16 -> bytes_ok out_addr ->
  exists r, ipaddr6_parse_ipv6_addr_bin name out_addr = Some r /\
    match r with Some a => zlen a = 16 /\ bytes_ok a | None => True end.
Proof.
  intros Lo Bo. unfold ipaddr6_parse_ipv6_addr_bin. pose proof (zlen_nonneg name) as Hz.
  destruct (blocks_loop_ok (length name) name (mkP 0 (-1) 0 true 0 out_addr)) as (r & -> & Hr).
  { split; simpl; try done; try lia. }
  { simpl. unfold zlen. lia. }
  destruct r as [s| |s]; [|by eexists|].
  - destruct (negb (empty s)).
    + destruct (put_block_ok name s Hr) as (b & -> & Lb & Bb). cbn [num_blocks compress_pos p_bytes]. pose proof (po_blocks _ _ Hr). pose proof (po_compress _ _ Hr). apply finish_ok; try done; lia.
    + destruct (negb (num_blocks s =? compress_pos s)); [by eexists|]. destruct Hr. apply finish_ok; try done; lia.
  - destruct Hr as [Ho Hlt]. unfold ipv4_ending. destruct (empty s || ((num_blocks s =? 0) && (compress_pos s =? -1))) eqn:E; [by eexists|].
    apply orb_false_iff in E as [_ E]. destruct Ho as [H1 H2 H3 H4 H5 H6 H7]. destruct H7 as (j & Hj & Ej); [destruct (Z.eqb_spec (num_blocks s) 0), (Z.eqb_spec (compress_pos s) (-1)); simpl in E; [done|lia..]|].
    destruct (back_loop_ok (length name) name (pos s) j Hj ltac:(lia) Ej) as (i & -> & Hi); [unfold zlen in *; lia|].
    destruct (dotted_loop_ok (length name) name i (replicate 4 0) 0 0 true) as (r & -> & Hr); [lia|unfold zlen in *; lia|done|apply Forall_replicate; unfold byte_ok; lia|lia|lia|].
    destruct r as [[[[bytes cur] byte] e]|]; [|by eexists]. destruct Hr as (Lb & Bb & Hcur & Hbyte). destruct (negb (cur =? 3) || e); [by eexists|].
    destruct (write_ok cur [byte] bytes) as (b1 & -> & L1 & B1); [lia|rewrite zlen_one; lia|by apply bytes_one|done|].
    destruct (Z.ltb_spec (8 - num_blocks s) 2); [by eexists|].
    destruct (write_ok (2 * num_blocks s) b1 (p_bytes s)) as (b2 & -> & L2 & B2); [lia|lia|done|done|]. apply finish_ok; try done; lia.
Qed.

(** ** Reading what was printed *)

(** An iteration of the first loop that goes on. *)
Definition istep (name : list Z) (s s' : pstate) : Prop :=
  pos s < pos s' /\ pos s < zlen name /\ exists c, byte_at name (pos s) = Some c /\ c <> char_dot /\
    (if c =? char_colon then colon_iter name s else Some (digit_iter c s)) = Some (Next s').

Lemma steps_loop name s s' : rtc (istep name) s s' -> forall fuel, zlen name <= pos s' -> zlen name - pos s <= Z.of_nat fuel ->
  blocks_loop fuel name s = Some (Next s').
Proof.
  induction 1 as [s|s s1 s' (Hp & Hl & c & Hc & Hd & Hi) _ IH]; intros fuel He Hf.
  - destruct fuel; cbn [blocks_loop]; by rewrite (proj2 (Z.ltb_ge _ _)) by lia.
  - destruct fuel as [|fuel]; [lia|]. cbn [blocks_loop]. rewrite (proj2 (Z.ltb_lt _ _)) by lia. rewrite Hc.
    destruct (Z.eqb_spec c char_dot); [done|]. rewrite Hi. apply IH; [done|lia].
Qed.

Lemma at_mid pre c rest : byte_at (pre ++ c :: rest) (zlen pre) = Some c.
Proof. unfold byte_at. rewrite (proj2 (Z.leb_le _ _)) by apply zlen_nonneg. unfold zlen. rewrite Nat2Z.id, lookup_app_r, Nat.sub_diag by lia. done. Qed.

Lemma at_next pre c d rest : byte_at (pre ++ c :: d :: rest) (zlen pre + 1) = Some d.
Proof. replace (pre ++ c :: d :: rest) with ((pre ++ [c]) ++ d :: rest) by by rewrite <- app_assoc. rewrite <- (at_mid (pre ++ [c]) d rest). f_equal. by rewrite zlen_app. Qed.

(** Hexadecimal digits. *)
Definition hex_value (x : Z) (ds : list Z) : Z := foldl (fun a d => 16 * a + d) x ds.

Lemma hex_value_cons x d ds : hex_value x (d :: ds) = hex_value (16 * x + d) ds.
Proof. reflexivity. Qed.

Lemma hex_value_mono ds : forall x, Forall (fun d => 0 <= d < 16) ds -> 0 <= x -> x <= hex_value x ds.
Proof. induction ds as [|d ds IH]; intros x Hd Hx; simpl; [done|]. apply list.Forall_cons in Hd as [Hd Hds]. specialize (IH (16 * x + d) Hds ltac:(lia)). unfold hex_value in *. simpl. lia. Qed.

Lemma decode_hex d : 0 <= d < 16 -> decode_hex_digit (hex_char d) = d.
Proof. intros H. unfold decode_hex_digit, hex_char. destruct (Z.ltb_spec d 10); repeat case_match; lia. Qed.

Lemma hex_not_special d : 0 <= d < 16 -> hex_char d <> char_dot /\ hex_char d <> char_colon.
Proof. intros H. unfold hex_char, char_dot, char_colon. case_match; lia. Qed.

Lemma digits_steps (ds : list Z) : forall name pre rest nb cp x e b,
  name = pre ++ (hex_char <$> ds) ++ rest -> Forall (fun d => 0 <= d < 16) ds -> 0 <= x -> hex_value x ds < 65536 ->
  rtc (istep name) (mkP nb cp x e (zlen pre) b) (mkP nb cp (hex_value x ds) (match ds with [] => e | _ => false end) (zlen pre + zlen ds) b).
Proof.
  induction ds as [|d ds IH]; intros name pre rest nb cp x e b En Hd Hx Hv; [rewrite zlen_nil, Z.add_0_r; apply rtc_refl|].
  apply list.Forall_cons in Hd as [Hd Hds]. rewrite hex_value_cons in *.
  pose proof (hex_value_mono ds (16 * x + d) Hds ltac:(lia)) as Hm. cbn [fmap list_fmap] in En. destruct (hex_not_special d Hd) as [Hn1 Hn2].
  apply (rtc_l _ _ (mkP nb cp (16 * x + d) false (zlen (pre ++ [hex_char d])) b)).
  2: { replace (zlen pre + zlen (d :: ds)) with (zlen (pre ++ [hex_char d]) + zlen ds) by (unfold zlen; rewrite length_app; simpl; lia).
       replace false with (match ds with [] => false | _ => false end) at 2 by by destruct ds.
       apply (IH name _ rest); [by rewrite En, <- app_assoc|done|lia|done]. }
  split; cbn [pos]; [rewrite zlen_app, zlen_one; lia|]. split; [rewrite En; unfold zlen; rewrite length_app; simpl; lia|].
  exists (hex_char d). split; [rewrite En; apply at_mid|]. split; [done|]. destruct (Z.eqb_spec (hex_char d) char_colon); [done|]. f_equal.
  unfold digit_iter. cbn [num_blocks compress_pos block pos p_bytes]. rewrite decode_hex by done. rewrite (proj2 (Z.ltb_ge d 0)) by lia.
  unfold UINT16_MAX, u16. change (65535 / 16) with 4095. destruct (Z.gtb_spec x 4095); [lia|]. rewrite (Z.mod_small (x * 16)) by lia.
  destruct (Z.gtb_spec d (65535 - x * 16)); [lia|]. rewrite Z.mod_small by lia. f_equal. f_equal; [lia|rewrite zlen_app, zlen_one; lia].
Qed.

Lemma print_hex_digits b : 0 <= b < 65536 ->
  exists d ds, print_hex b = hex_char <$> (d :: ds) /\ Forall (fun d => 0 <= d < 16) (d :: ds) /\ hex_value 0 (d :: ds) = b.
Proof.
  intros Hb. unfold print_hex. destruct (Z.ltb_spec b 16); [|destruct (Z.ltb_spec b 256); [|destruct (Z.ltb_spec b 4096)]].
  - exists b, []. split; [done|]. split; [repeat constructor; lia|]. unfold hex_value. simpl. lia.
  - exists (b / 16), [b mod 16]. split; [done|]. split; [repeat constructor; dm|]. unfold hex_value. cbn [foldl]. dm.
  - exists (b / 256), [b / 16 mod 16; b mod 16]. split; [done|]. split; [repeat constructor; dm|]. unfold hex_value. cbn [foldl]. dm.
  - exists (b / 4096), [b / 256 mod 16; b / 16 mod 16; b mod 16]. split; [done|]. split; [repeat constructor; dm|]. unfold hex_value. cbn [foldl]. dm.
Qed.

Lemma hex_steps name pre b rest nb cp e m :
  0 <= b < 65536 -> name = pre ++ print_hex b ++ rest ->
  rtc (istep name) (mkP nb cp 0 e (zlen pre) m) (mkP nb cp b false (zlen (pre ++ print_hex b)) m).
Proof.
  intros Hb En. destruct (print_hex_digits b Hb) as (d & ds & E & Hd & Hv). rewrite E in *.
  pose proof (digits_steps (d :: ds) name pre rest nb cp 0 e m En Hd ltac:(lia) ltac:(lia)) as H. rewrite Hv in H.
  replace (zlen (pre ++ (hex_char <$> d :: ds))) with (zlen pre + zlen (d :: ds)); [done|]. rewrite zlen_app. unfold zlen. by rewrite length_fmap.
Qed.

(** The bytes of blocks, in network byte order. *)
Definition enc (bs : list Z) : list Z := concat ((fun b => [b / 256; b mod 256]) <$> bs).

Lemma enc_app l k : enc (l ++ k) = enc l ++ enc k.
Proof. unfold enc. by rewrite fmap_app, concat_app. Qed.

Lemma zlen_enc l : zlen (enc l) = 2 * zlen l.
Proof. induction l as [|b l IH]; [done|]. change (enc (b :: l)) with ([b / 256; b mod 256] ++ enc l). rewrite zlen_app, IH. unfold zlen. simpl. lia. Qed.

(** The blocks written so far. *)
Definition holds_blocks (ws m : list Z) : Prop := zlen m = 16 /\ exists tl, m = enc ws ++ tl.

Lemma put_block_enc nb cp b e p m ws :
  0 <= b < 65536 -> nb = zlen ws -> nb <= 7 -> holds_blocks ws m ->
  exists m', put_block (mkP nb cp b e p m) = Some (mkP (nb + 1) cp b e p m') /\ holds_blocks (ws ++ [b]) m'.
Proof.
  intros Hb Hn H7 [L (tl & ->)]. unfold put_block. cbn [num_blocks compress_pos block empty pos p_bytes].
  assert (u8 (Z.shiftr b 8) = b / 256) as -> by (rewrite Z.shiftr_div_pow2 by lia; change (2 ^ 8) with 256; unfold u8; rewrite Z.mod_small; [done|dm]).
  assert (u8 (Z.land b 255) = b mod 256) as -> by (change 255 with (Z.ones 8); rewrite Z.land_ones by lia; change (2 ^ 8) with 256; unfold u8; rewrite Z.mod_small; [done|dm]).
  rewrite zlen_app, zlen_enc in L. pose proof (zlen_nonneg ws). destruct tl as [|t1 [|t2 tl]]; [rewrite ?zlen_cons, ?zlen_nil in L; lia..|].
  change (enc ws ++ t1 :: t2 :: tl) with (enc ws ++ [t1] ++ (t2 :: tl)). rewrite (mem_write_mid (enc ws) [t1] [b / 256] (t2 :: tl)) by (rewrite ?zlen_enc; lia || done).
  replace (enc ws ++ [b / 256] ++ t2 :: tl) with ((enc ws ++ [b / 256]) ++ [t2] ++ tl) by by rewrite <- app_assoc.
  rewrite (mem_write_mid _ [t2] [b mod 256] tl) by (rewrite ?zlen_app, ?zlen_enc, ?zlen_one; lia || done).
  eexists. split; [done|]. unfold holds_blocks. rewrite enc_app, <- !app_assoc. split; [|exists tl; by rewrite <- ?app_assoc].
  rewrite !zlen_app, zlen_enc in *. rewrite !zlen_cons in L. change (zlen [b / 256]) with 1. change (zlen [b mod 256]) with 1. lia.
Qed.

Lemma print_hex_head b : 0 <= b < 65536 -> exists h t, print_hex b = h :: t /\ h <> char_colon.
Proof.
  intros Hb. destruct (print_hex_digits b Hb) as (d & ds & -> & Hd & _). apply list.Forall_cons in Hd as [Hd _]. eexists _, _. split; [done|]. by apply hex_not_special.
Qed.

(** A colon between two blocks. *)
Lemma colon_step name pre h rest cp b p m ws :
  name = pre ++ char_colon :: h :: rest -> h <> char_colon -> 0 <= b < 65536 -> p = zlen pre -> 0 < p -> zlen ws <= 6 -> holds_blocks ws m ->
  exists m', istep name (mkP (zlen ws) cp b false p m) (mkP (zlen (ws ++ [b])) cp 0 true (zlen (pre ++ [char_colon])) m') /\ holds_blocks (ws ++ [b]) m'.
Proof.
  intros En Hh Hb -> Hp Hw Hm. destruct (put_block_enc (zlen ws) cp b false (zlen pre) m ws Hb eq_refl ltac:(lia) Hm) as (m' & Ep & Hm'). exists m'. split; [|done].
  assert (zlen pre + 1 < zlen name) as Hlen by (rewrite En; unfold zlen; rewrite length_app; simpl; lia).
  split; cbn [pos]; [rewrite zlen_app, zlen_one; lia|]. split; [lia|]. exists char_colon. split; [rewrite En; apply at_mid|]. split; [done|]. rewrite Z.eqb_refl.
  unfold colon_iter. cbn [num_blocks compress_pos block empty pos p_bytes]. rewrite (proj2 (Z.ltb_lt _ _)) by lia. rewrite En at 1. rewrite at_next.
  destruct (Z.eqb_spec h char_colon); [done|]. rewrite (proj2 (Z.gtb_lt _ _)) by lia. destruct (Z.eqb_spec (zlen ws) 7); [lia|]. cbn [orb]. rewrite Ep.
  cbn [num_blocks compress_pos block empty pos p_bytes andb]. do 3 f_equal; rewrite zlen_app, zlen_one; simpl; lia.
Qed.

(** The double colon, at the start or after a block. *)
Lemma double_step name pre rest b p m ws e :
  name = pre ++ char_colon :: char_colon :: rest -> 0 <= b < 65536 -> p = zlen pre -> zlen ws <= 6 -> holds_blocks ws m ->
  (p = 0 /\ ws = [] /\ b = 0 /\ e = true) \/ (0 < p /\ e = false) ->
  let ws' := (if e then ws else ws ++ [b]) in
  exists m', istep name (mkP (zlen ws) (-1) b e p m) (mkP (zlen ws') (zlen ws') 0 true (zlen (pre ++ [char_colon; char_colon])) m') /\ holds_blocks ws' m'.
Proof.
  intros En Hb -> Hw Hm Hc ws'. assert (zlen pre + 1 < zlen name) as Hlen by (rewrite En; unfold zlen; rewrite length_app; simpl; lia).
  assert (zlen (pre ++ [char_colon; char_colon]) = zlen pre + 2) as Hz by (unfold zlen; rewrite length_app; simpl; lia).
  assert (forall s', colon_iter name (mkP (zlen ws) (-1) b e (zlen pre) m) = Some (Next s') -> pos s' = zlen pre + 2 -> istep name (mkP (zlen ws) (-1) b e (zlen pre) m) s') as Hst.
  { intros s' Es Ep. split; cbn [pos]; [lia|]. split; [lia|]. exists char_colon. split; [rewrite En; apply at_mid|]. split; [done|]. by rewrite Z.eqb_refl. }
  assert ((if zlen pre + 1 <? zlen name then let* c := byte_at name (zlen pre + 1) in Some (c =? char_colon) else Some false) = Some true) as Hd.
  { rewrite (proj2 (Z.ltb_lt _ _)) by lia. rewrite En at 1. by rewrite at_next, Z.eqb_refl. }
  rewrite Hz. destruct Hc as [(Hp & -> & -> & ->)|[Hp ->]]; subst ws'; cbv iota in *.
  - exists m. split; [|done]. apply Hst; [|done]. unfold colon_iter. cbn [num_blocks compress_pos block empty pos p_bytes]. rewrite Hd.
    destruct (Z.gtb_spec (zlen pre) 0); [lia|]. cbn [negb andb]. change (-1 =? -1) with true. cbn [negb]. do 3 f_equal. simpl. lia.
  - destruct (put_block_enc (zlen ws) (-1) b false (zlen pre) m ws Hb eq_refl ltac:(lia) Hm) as (m' & Ep & Hm'). exists m'. split; [|done]. apply Hst; [|done].
    unfold colon_iter. cbn [num_blocks compress_pos block empty pos p_bytes]. rewrite Hd. rewrite (proj2 (Z.gtb_lt _ _)) by lia.
    destruct (Z.eqb_spec (zlen ws) 7); [lia|]. cbn [orb]. rewrite Ep. cbn [num_blocks compress_pos block empty pos p_bytes]. change (-1 =? -1) with true. cbn [negb andb].
    rewrite zlen_app, zlen_one. do 3 f_equal. simpl. lia.
Qed.

(** Blocks that each follow a colon. *)
Definition colon_blocks (bs : list Z) : list Z := concat ((fun b => char_colon :: print_hex b) <$> bs).

Definition blocks_ok (bs : list Z) : Prop := Forall (fun b => 0 <= b < 65536) bs.

Lemma colon_blocks_steps bs : forall name pre rest cp ws b m,
  name = pre ++ colon_blocks bs ++ rest -> blocks_ok (b :: bs) -> 0 < zlen pre -> zlen ws + zlen bs <= 7 -> holds_blocks ws m ->
  exists m' ws' b', rtc (istep name) (mkP (zlen ws) cp b false (zlen pre) m) (mkP (zlen ws') cp b' false (zlen (pre ++ colon_blocks bs)) m') /\
    holds_blocks ws' m' /\ ws' ++ [b'] = ws ++ b :: bs.
Proof.
  induction bs as [|c bs IH]; intros name pre rest cp ws b m En Hok Hp Hl Hm.
  { exists m, ws, b. cbn [colon_blocks fmap list_fmap concat]. rewrite app_nil_r. split_and!; [apply rtc_refl|done|done]. }
  apply list.Forall_cons in Hok as [Hb Hok]. pose proof Hok as Hok'. apply list.Forall_cons in Hok' as [Hc _]. rewrite zlen_cons in Hl. pose proof (zlen_nonneg bs).
  change (colon_blocks (c :: bs)) with ((char_colon :: print_hex c) ++ colon_blocks bs) in *. destruct (print_hex_head c Hc) as (h & t & Eh & Hh).
  destruct (colon_step name pre h (t ++ colon_blocks bs ++ rest) cp b (zlen pre) m ws) as (m1 & Hs1 & Hm1); try done; [rewrite En, Eh; simpl; by rewrite <- ?app_assoc|lia|].
  pose proof (hex_steps name (pre ++ [char_colon]) c (colon_blocks bs ++ rest) (zlen (ws ++ [b])) cp true m1 Hc) as Hs2.
  destruct (IH name ((pre ++ [char_colon]) ++ print_hex c) rest cp (ws ++ [b]) c m1) as (m2 & ws2 & b2 & Hs3 & Hm2 & Ew); try done.
  { rewrite En, <- !app_assoc. simpl. by rewrite <- ?app_assoc. }
  { unfold zlen. rewrite !length_app. simpl. lia. }
  { rewrite zlen_app, zlen_one. lia. }
  exists m2, ws2, b2. split_and!; [|done|by rewrite Ew, <- app_assoc]. eapply rtc_l; [exact Hs1|]. etransitivity; [apply Hs2; rewrite En, <- !app_assoc; simpl; by rewrite <- ?app_assoc|].
  replace (pre ++ (char_colon :: print_hex c) ++ colon_blocks bs) with (((pre ++ [char_colon]) ++ print_hex c) ++ colon_blocks bs); [done|]. rewrite <- !app_assoc. done.
Qed.

(** The blocks after the compression are moved to the end and zeros put between. *)
Lemma finish_compress ws ts m :
  zlen ws + zlen ts <= 8 -> holds_blocks (ws ++ ts) m ->
  finish (zlen (ws ++ ts)) (zlen ws) m = Some (Some (enc ws ++ replicate (Z.to_nat (2 * (8 - (zlen ws + zlen ts)))) 0 ++ enc ts)).
Proof.
  intros Hl [L (tl & ->)]. pose proof (zlen_nonneg ws). pose proof (zlen_nonneg ts). unfold finish. destruct (Z.eqb_spec (zlen ws) (-1)) as [?|_]; [lia|]. cbn [andb].
  rewrite zlen_app in *. rewrite zlen_enc in L. rewrite enc_app in *. rewrite zlen_app in L. replace (zlen ws + zlen ts - zlen ws) with (zlen ts) by lia. unfold mem_move.
  rewrite <- app_assoc, (mem_read_mid (enc ws) (enc ts) tl) by (rewrite zlen_enc; lia). rewrite app_assoc.
  set (n := Z.to_nat (2 * (8 - zlen ts))). assert (Z.of_nat n = 2 * (8 - zlen ts)) as Hn by lia.
  rewrite <- (take_drop n ((enc ws ++ enc ts) ++ tl)). rewrite <- (app_nil_r (drop n _)).
  assert (zlen ((enc ws ++ enc ts) ++ tl) = 16) as L16 by (rewrite !zlen_app, !zlen_enc; lia).
  assert (zlen (take n ((enc ws ++ enc ts) ++ tl)) = 2 * (8 - zlen ts)) as Lt by (unfold zlen in *; rewrite length_take; lia).
  rewrite (mem_write_mid (take n _) (drop n _) (enc ts) []) by (rewrite ?Lt, ?zlen_enc; try lia; unfold zlen in *; rewrite length_drop; lia). rewrite app_nil_r.
  assert (take n ((enc ws ++ enc ts) ++ tl) = enc ws ++ drop (length (enc ws)) (take n ((enc ws ++ enc ts) ++ tl))) as Et.
  { rewrite <- (take_drop (length (enc ws)) (take n _)) at 1. f_equal. rewrite take_take, Nat.min_l by (pose proof (zlen_enc ws); unfold zlen in *; lia).
    rewrite <- app_assoc. by apply take_app_length. }
  rewrite Et, <- app_assoc. set (mid := drop _ _). rewrite (mem_write_mid (enc ws) mid _ (enc ts)); [do 5 f_equal; lia|by rewrite zlen_enc|].
  assert (zlen mid = 2 * (8 - zlen ts) - 2 * zlen ws) as -> by (subst mid; unfold zlen at 1; rewrite length_drop; pose proof (zlen_enc ws); unfold zlen in *; lia).
  unfold zlen at 3. rewrite length_replicate. lia.
Qed.

Lemma finish_full bs m : zlen bs = 8 -> holds_blocks bs m -> finish 8 (-1) m = Some (Some (enc bs)).
Proof.
  intros Hl Hm. pose proof (finish_compress [] bs m) as H. cbn [app] in H. rewrite Hl in H. change (finish 8 (zlen [])) with (finish 8 (-1)) in H.
  apply H; [done|done].
Qed.

(** ** The run of zeros *)

Definition zero_block (addr : list Z) (j : Z) : Prop := ld8 addr (2 * j) = 0 /\ ld8 addr (2 * j + 1) = 0.

Lemma run_loop_ok n addr : forall i ls ll cs cl,
  0 <= cs -> 0 <= cl -> cs + cl = i -> 0 <= ls -> 0 <= ll -> ls + ll <= i ->
  (forall j, cs <= j < i -> zero_block addr j) -> (forall j, ls <= j < ls + ll -> zero_block addr j) ->
  let r := run_loop n addr i ls ll cs cl in
  0 <= r.1 /\ 0 <= r.2 /\ r.1 + r.2 <= i + Z.of_nat n /\ (forall j, r.1 <= j < r.1 + r.2 -> zero_block addr j).
Proof.
  induction n as [|n IH]; intros i ls ll cs cl H1 H2 H3 H4 H5 H6 Hc Hl; cbn [run_loop]; [simpl; split_and!; [done|done|lia|done]|].
  replace (i + Z.of_nat (S n)) with (i + 1 + Z.of_nat n) by lia. destruct (Z.eqb_spec (ld8 addr (2 * i)) 0) as [E1|E1], (Z.eqb_spec (ld8 addr (2 * i + 1)) 0) as [E2|E2]; cbn [andb].
  2-4: apply IH; try done; try lia.
  assert (forall j, cs <= j < i + 1 -> zero_block addr j) as Hc' by (intros j Hj; destruct (decide (j = i)) as [->|]; [done|apply Hc; lia]).
  destruct (Z.gtb_spec (cl + 1) ll); apply IH; try done; try lia. intros j Hj. apply Hc'. lia.
Qed.

Lemma block_of_zero addr j : zero_block addr j -> block_of addr j = 0.
Proof. intros [E1 E2]. unfold block_of. by rewrite E1, E2. Qed.

Lemma block_of_eq addr j : bytes_ok addr -> block_of addr j = 256 * ld8 addr (2 * j) + ld8 addr (2 * j + 1).
Proof.
  intros Ha. rewrite <- read_be16_alt by done. unfold block_of, badvpn_read_be16. pose proof (ld8_ok addr (2 * j) Ha) as H1. unfold byte_ok in H1.
  rewrite Z.shiftl_0_r. f_equal. unfold u16. rewrite Z.mod_small; [done|]. rewrite Z.shiftl_mul_pow2 by lia. change (2 ^ 8) with 256. lia.
Qed.

Lemma block_of_range addr j : bytes_ok addr -> 0 <= block_of addr j < 65536.
Proof.
  intros Ha. rewrite block_of_eq by done. pose proof (ld8_ok addr (2 * j) Ha). pose proof (ld8_ok addr (2 * j + 1) Ha). unfold byte_ok in *. lia.
Qed.

Definition blocks_of (addr : list Z) (i n : Z) : list Z := block_of addr <$> seqZ i n.

Lemma blocks_of_ok addr i n : bytes_ok addr -> blocks_ok (blocks_of addr i n).
Proof. intros Ha. apply Forall_fmap, list.Forall_forall. intros j _. by apply block_of_range. Qed.

Lemma zlen_blocks_of addr i n : 0 <= n -> zlen (blocks_of addr i n) = n.
Proof. intros Hn. unfold blocks_of, zlen. rewrite length_fmap, length_seqZ. lia. Qed.

Lemma enc_blocks addr : zlen addr = 16 -> bytes_ok addr -> enc (blocks_of addr 0 8) = addr.
Proof.
  intros L Ha. unfold blocks_of. cbn [seqZ]. change (seqZ 0 8) with [0; 1; 2; 3; 4; 5; 6; 7]. cbn [fmap list_fmap]. rewrite !block_of_eq by done.
  do 16 (destruct addr as [|? addr]; [done|]). destruct addr; [|rewrite !zlen_cons in L; pose proof (zlen_nonneg addr); lia].
  unfold ld8. cbn. unfold bytes_ok in Ha. repeat match goal with H : Forall _ (_ :: _) |- _ => apply list.Forall_cons in H as [? H] end. unfold byte_ok in *.
  assert (forall a b, 0 <= a < 256 -> 0 <= b < 256 -> (256 * a + b) / 256 = a /\ (256 * a + b) mod 256 = b) as Hdm by (intros; dm).
  repeat match goal with |- context [(256 * ?a + ?b) / 256] => destruct (Hdm a b) as [-> ->]; [done|done|] end. done.
Qed.

Lemma blocks_of_split addr s l :
  0 <= s -> 0 <= l -> s + l <= 8 -> (forall j, s <= j < s + l -> zero_block addr j) ->
  blocks_of addr 0 8 = blocks_of addr 0 s ++ replicate (Z.to_nat l) 0 ++ blocks_of addr (s + l) (8 - (s + l)).
Proof.
  intros Hs Hl H8 Hz. unfold blocks_of. replace 8 with (s + (l + (8 - (s + l)))) at 1 by lia. rewrite seqZ_app by lia. rewrite seqZ_app by lia. rewrite !fmap_app. f_equal. f_equal.
  apply list_eq. intros i. rewrite list_lookup_fmap. destruct (decide (i < Z.to_nat l)%nat) as [Hi|Hi].
  - rewrite lookup_seqZ_lt by lia. rewrite lookup_replicate_2 by done. cbn. f_equal. apply block_of_zero, Hz. lia.
  - rewrite lookup_seqZ_ge by lia. cbn. symmetry. apply lookup_ge_None_2. rewrite length_replicate. lia.
Qed.

(** ** The round trip *)

(** Blocks with colons between them. *)
Definition text_of (bs : list Z) : list Z := match bs with [] => [] | b :: bs => print_hex b ++ colon_blocks bs end.

(** Reading blocks, from where a block may begin. *)
Lemma text_steps name pre rest cp ws b bs m :
  name = pre ++ text_of (b :: bs) ++ rest -> blocks_ok (b :: bs) -> zlen ws + zlen bs <= 7 -> holds_blocks ws m ->
  exists m' ws' b', rtc (istep name) (mkP (zlen ws) cp 0 true (zlen pre) m) (mkP (zlen ws') cp b' false (zlen (pre ++ text_of (b :: bs))) m') /\
    holds_blocks ws' m' /\ ws' ++ [b'] = ws ++ b :: bs /\ 0 <= b' < 65536 /\ 0 < zlen (pre ++ text_of (b :: bs)).
Proof.
  intros En Hok Hl Hm. pose proof Hok as Hok'. apply list.Forall_cons in Hok' as [Hb _]. cbn [text_of] in *. rewrite <- app_assoc in En.
  assert (0 < zlen (pre ++ print_hex b)) as Hp by (destruct (print_hex_head b Hb) as (h & t & -> & _); unfold zlen; rewrite length_app; simpl; lia).
  destruct (colon_blocks_steps bs name (pre ++ print_hex b) rest cp ws b m) as (m' & ws' & b' & Hs & Hm' & Ew); try done; [by rewrite En, <- !app_assoc|].
  assert (0 <= b' < 65536) as Hb'.
  { assert (b' ∈ b :: bs) as Hin; [|by apply (proj1 (list.Forall_forall _ _) Hok)].
    apply last_Some_elem_of. rewrite <- (last_app_cons ws), <- Ew. apply last_snoc. }
  rewrite app_assoc. exists m', ws', b'. split; [etransitivity; [eapply (hex_steps name pre b); [exact Hb|exact En]|exact Hs]|]. split; [done|]. split; [done|]. split; [done|].
  pose proof (zlen_nonneg (colon_blocks bs)). rewrite zlen_app. lia.
Qed.

(** Blocks, a double colon, blocks. *)
Lemma parse_compressed b1 b3 out :
  blocks_ok b1 -> blocks_ok b3 -> zlen b1 + zlen b3 <= 6 -> zlen out = 16 ->
  ipaddr6_parse_ipv6_addr_bin (text_of b1 ++ [char_colon; char_colon] ++ text_of b3) out =
    Some (Some (enc b1 ++ replicate (Z.to_nat (2 * (8 - (zlen b1 + zlen b3)))) 0 ++ enc b3)).
Proof.
  intros H1 H3 Hl Lo. set (name := text_of b1 ++ [char_colon; char_colon] ++ text_of b3). pose proof (zlen_nonneg b1). pose proof (zlen_nonneg b3).
  assert (holds_blocks [] out) as Hm0 by (split; [done|by exists out]).
  assert (exists m, rtc (istep name) (mkP 0 (-1) 0 true 0 out) (mkP (zlen b1) (zlen b1) 0 true (zlen (text_of b1 ++ [char_colon; char_colon])) m) /\ holds_blocks b1 m) as (m1 & Hs1 & Hm1).
  { destruct b1 as [|b bs].
    - destruct (double_step name [] (text_of b3) 0 0 out [] true) as (m & Hs & Hm); try done; [by left|]. exists m. split; [by apply rtc_once|done].
    - rewrite zlen_cons in *. destruct (text_steps name [] ([char_colon; char_colon] ++ text_of b3) (-1) [] b bs out) as (m & ws & b' & Hs & Hm & Ew & Hb' & Hp); try done; [rewrite zlen_nil; lia|].
      cbn [app] in *. assert (zlen ws = zlen bs) as Hw by (apply (f_equal zlen) in Ew; rewrite zlen_app, zlen_one, zlen_cons in Ew; lia).
      destruct (double_step name (text_of (b :: bs)) (text_of b3) b' (zlen (text_of (b :: bs))) m ws false) as (m' & Hs' & Hm'); try done; [lia|by right|].
      cbv iota in *. rewrite Ew in *. exists m'. rewrite zlen_cons in Hs'. split; [|done]. etransitivity; [exact Hs|]. by apply rtc_once. }
  unfold ipaddr6_parse_ipv6_addr_bin. destruct b3 as [|b bs].
  - rewrite (steps_loop _ _ _ Hs1 (length name)) by (subst name; cbn [pos text_of]; rewrite ?app_nil_r; unfold zlen; lia).
    cbn [empty num_blocks compress_pos p_bytes negb]. rewrite Z.eqb_refl. cbn [negb]. pose proof (finish_compress b1 [] m1) as Hf. rewrite app_nil_r in Hf. apply Hf; [lia|done].
  - rewrite zlen_cons in *. destruct (text_steps name (text_of b1 ++ [char_colon; char_colon]) [] (zlen b1) b1 b bs m1) as (m & ws & b' & Hs & Hm & Ew & Hb' & _); try done;
      [subst name; by rewrite app_nil_r, <- app_assoc|lia|].
    rewrite (steps_loop name _ (mkP (zlen ws) (zlen b1) b' false (zlen ((text_of b1 ++ [char_colon; char_colon]) ++ text_of (b :: bs))) m) (transitivity Hs1 Hs) (length name))
      by (subst name; cbn [pos]; rewrite <- ?app_assoc; unfold zlen; lia).
    cbn [empty num_blocks compress_pos p_bytes negb]. assert (zlen ws + 1 = zlen b1 + (1 + zlen bs)) as Hw by (apply (f_equal zlen) in Ew; rewrite !zlen_app, zlen_one, zlen_cons in Ew; lia).
    destruct (put_block_enc (zlen ws) (zlen b1) b' false (zlen ((text_of b1 ++ [char_colon; char_colon]) ++ text_of (b :: bs))) m ws Hb' eq_refl ltac:(lia) Hm) as (m' & -> & Hm').
    cbn [num_blocks compress_pos p_bytes]. rewrite Ew in Hm'. rewrite Hw. pose proof (finish_compress b1 (b :: bs) m') as Hf. rewrite zlen_app, !zlen_cons in Hf. apply Hf; [lia|done].
Qed.

Lemma parse_full bs out : blocks_ok bs -> zlen bs = 8 -> zlen out = 16 ->
  ipaddr6_parse_ipv6_addr_bin (text_of bs) out = Some (Some (enc bs)).
Proof.
  intros Hok Hl Lo. destruct bs as [|b bs]; [done|]. rewrite zlen_cons in Hl. assert (holds_blocks [] out) as Hm0 by (split; [done|by exists out]).
  destruct (text_steps (text_of (b :: bs)) [] [] (-1) [] b bs out) as (m & ws & b' & Hs & Hm & Ew & Hb' & _); try done; [by rewrite app_nil_r|rewrite zlen_nil; lia|].
  cbn [app] in *. unfold ipaddr6_parse_ipv6_addr_bin. change (zlen []) with 0 in Hs. rewrite (steps_loop _ _ _ Hs (length (text_of (b :: bs)))) by (cbn [pos]; unfold zlen; lia).
  cbn [empty negb]. assert (zlen ws + 1 = 8) as Hw by (apply (f_equal zlen) in Ew; rewrite zlen_app, zlen_one, zlen_cons in Ew; lia).
  destruct (put_block_enc (zlen ws) (-1) b' false (zlen (text_of (b :: bs))) m ws Hb' eq_refl ltac:(lia) Hm) as (m' & -> & Hm').
  cbn [num_blocks compress_pos p_bytes]. rewrite Hw. apply finish_full; [rewrite zlen_cons; lia|by rewrite <- Ew].
Qed.

(** The two ways in which the printer writes colons. *)
Lemma block_colons b bs : concat ((fun b => print_hex b ++ [char_colon]) <$> b :: bs) = text_of (b :: bs) ++ [char_colon].
Proof.
  revert b. induction bs as [|c bs IH]; intros b; [cbn [fmap list_fmap concat text_of colon_blocks]; by rewrite !app_nil_r|].
  cbn [fmap list_fmap concat]. cbn [fmap list_fmap concat] in IH. rewrite IH. cbn [text_of]. change (colon_blocks (c :: bs)) with ((char_colon :: print_hex c) ++ colon_blocks bs).
  rewrite <- !app_assoc. done.
Qed.

(** What is printed: all blocks, or those before and after a run of zeros. *)
Lemma print_forms addr : bytes_ok addr ->
  ipaddr6_print_addr addr = text_of (blocks_of addr 0 8) \/
  exists s l, 0 <= s /\ 1 < l /\ s + l <= 8 /\ (forall j, s <= j < s + l -> zero_block addr j) /\
    ipaddr6_print_addr addr = text_of (blocks_of addr 0 s) ++ [char_colon; char_colon] ++ text_of (blocks_of addr (s + l) (8 - (s + l))).
Proof.
  intros Ha. unfold ipaddr6_print_addr. pose proof (run_loop_ok 8 addr 0 0 0 0 0) as Hr. cbv zeta in Hr. destruct (run_loop 8 addr 0 0 0 0 0) as [s l]. cbn [fst snd] in Hr.
  destruct Hr as (Hs & Hl & H8 & Hz); [lia..|]. change (0 + Z.of_nat 8) with 8 in H8. fold (blocks_of addr 0 s) (blocks_of addr (s + l) (8 - (s + l))) (blocks_of addr 1 7).
  destruct (Z.gtb_spec l 1) as [H1|_]; [|by left]. right. exists s, l. split_and!; try done.
  pose proof (zlen_blocks_of addr 0 s Hs) as L1. pose proof (zlen_blocks_of addr (s + l) (8 - (s + l)) ltac:(lia)) as L3.
  set (b1 := blocks_of addr 0 s) in *. set (b3 := blocks_of addr (s + l) (8 - (s + l))) in *. change (concat ((fun b => char_colon :: print_hex b) <$> b3)) with (colon_blocks b3).
  assert (colon_blocks b3 ++ (if s + l =? 8 then [char_colon] else []) = char_colon :: text_of b3) as E3.
  { destruct b3 as [|b bs]; [rewrite zlen_nil in L3; by rewrite (proj2 (Z.eqb_eq (s + l) 8)) by lia|]. rewrite zlen_cons in L3. pose proof (zlen_nonneg bs).
    destruct (Z.eqb_spec (s + l) 8); [lia|]. by rewrite app_nil_r. }
  rewrite E3. destruct b1 as [|b bs]; [rewrite zlen_nil in L1; by rewrite (proj2 (Z.eqb_eq s 0)) by lia|]. rewrite zlen_cons in L1. pose proof (zlen_nonneg bs).
  destruct (Z.eqb_spec s 0); [lia|]. rewrite block_colons. by rewrite <- app_assoc.
Qed.

Lemma enc_zeros n : enc (replicate n 0) = replicate (2 * n) 0.
Proof. induction n as [|n IH]; [done|]. change (enc (replicate (S n) 0)) with (0 :: 0 :: enc (replicate n 0)). rewrite IH. by replace (2 * S n)%nat with (S (S (2 * n))) by lia. Qed.

Lemma text_length bs : zlen (text_of bs) <= 5 * zlen bs.
Proof.
  assert (forall b, zlen (print_hex b) <= 4) as Hh by (intros b; unfold print_hex; repeat case_match; done).
  assert (forall bs, zlen (colon_blocks bs) <= 5 * zlen bs) as Hc.
  { clear bs. induction bs as [|b bs IH]; [done|]. change (colon_blocks (b :: bs)) with ((char_colon :: print_hex b) ++ colon_blocks bs). rewrite zlen_app, !zlen_cons. specialize (Hh b). lia. }
  destruct bs as [|b bs]; [done|]. cbn [text_of]. rewrite zlen_app, zlen_cons. specialize (Hh b). specialize (Hc bs). lia.
Qed.

(** C20. What is printed is read back: for every address, the text that
    [ipaddr6_print_addr] writes, with the longest run of zero blocks compressed, is
    parsed to the same address, and with its terminator it fits the buffer of
    [IPADDR6_PRINT_MAX] characters. *)
Theorem ipaddr6_roundtrip addr out_addr :
  zlen addr = 16 -> bytes_ok addr -> zlen out_addr = 16 ->
  ipaddr6_parse_ipv6_addr_bin (ipaddr6_print_addr addr) out_addr = Some (Some addr) /\
  zlen (ipaddr6_print_addr addr) + 1 <= IPADDR6_PRINT_MAX.
Proof.
  intros L Ha Lo. unfold IPADDR6_PRINT_MAX. destruct (print_forms addr Ha) as [->|(s & l & Hs & Hl & H8 & Hz & ->)].
  - pose proof (zlen_blocks_of addr 0 8 ltac:(lia)). pose proof (text_length (blocks_of addr 0 8)). split; [|lia].
    rewrite parse_full; [by rewrite enc_blocks|by apply blocks_of_ok|done|done].
  - pose proof (zlen_blocks_of addr 0 s Hs) as L1. pose proof (zlen_blocks_of addr (s + l) (8 - (s + l)) ltac:(lia)) as L3.
    pose proof (text_length (blocks_of addr 0 s)). pose proof (text_length (blocks_of addr (s + l) (8 - (s + l)))). split; [|rewrite !zlen_app, zlen_cons, zlen_one; lia].
    rewrite parse_compressed; [|by apply blocks_of_ok|by apply blocks_of_ok|lia|done]. do 2 f_equal. symmetry. rewrite <- (enc_blocks addr L Ha) at 1.
    rewrite (blocks_of_split addr s l Hs ltac:(lia) H8 Hz), !enc_app, enc_zeros, L1, L3. by replace (Z.to_nat (2 * (8 - (s + (8 - (s + l)))))) with (2 * Z.to_nat l)%nat by lia.
Qed.

(** ** Witnesses *)

Lemma ipaddr6_parse_safe_witness :
  zlen (replicate 16 9) = 16 /\ exists r, ipaddr6_parse_ipv6_addr_bin [49; 58; 58; 49; 46; 50] (replicate 16 9) = Some r /\
    match r with Some a => zlen a = 16 /\ bytes_ok a | None => True end.
Proof. split; [reflexivity|]. apply (ipaddr6_parse_safe [49; 58; 58; 49; 46; 50] (replicate 16 9)); [reflexivity|]. apply Forall_replicate. unfold byte_ok. lia. Defined.

Definition ex_addr6 : list Z := [254; 128; 0; 0; 0; 0; 0; 0; 0; 0; 0; 0; 18; 52; 0; 10].

Lemma ipaddr6_roundtrip_witness : ipaddr6_parse_ipv6_addr_bin (ipaddr6_print_addr ex_addr6) (replicate 16 9) = Some (Some ex_addr6) /\
  zlen (ipaddr6_print_addr ex_addr6) + 1 <= IPADDR6_PRINT_MAX.
Proof. apply (ipaddr6_roundtrip ex_addr6 (replicate 16 9)); [reflexivity| |reflexivity]. unfold ex_addr6, bytes_ok. repeat (apply Forall_cons_2; [unfold byte_ok; lia|]). apply Forall_nil_2. Defined.
