(* ===== verification/DnsNames.v ===== *)
(** * pdnsd: domain names in messages ([pdnsd/src/dns.c], [helpers.h])

    The readers and writers of domain names in DNS messages: [decompress_name],
    which follows the compression pointers of a received message,
    [domain_match] and [compress_name], which compress the names of an answer,
    and [rhnlen]. A message and a buffer are memory blocks; pointers into them
    are offsets. The list [cb] of the names written so far ([dlist] of
    [compel_t]) is the list of its items ([Dlist] shows that a [dlist] is one).

    Then what the format is: names as lists of labels, [wire] their form with
    length bytes, [encodes] the (compressed) names at a position of a message,
    and the lemmas on them that the theorems of [DnsNamesProps] use. *)

From S2P Require Import Prelude.
#[global] Open Scope Z_scope.

(** ** Characters *)

(** C library, in the "C" locale *)
Definition tolower (c : Z) : Z := if (65 <=? c) && (c <=? 90) then c + 32 else c.

Definition DNSNAMEBUFSIZE : Z := 256.

(** [while((lb=rhn[i++])) i+=lb;] *)
Fixpoint rhnlen_loop (fuel : nat) (rhn : list Z) (i : Z) : option Z :=
  match fuel with
  | O => None
  | S fuel => let* lb := byte_at rhn i in if lb =? 0 then Some (i + 1) else rhnlen_loop fuel rhn (i + 1 + lb)
  end.

Definition rhnlen (rhn : list Z) : option Z := rhnlen_loop (S (length rhn)) rhn 0.

(** ** [decompress_name] *)

(** The result code, with [*src], [*sz], the buffer and [*len] when it is [RC_OK]. *)
Inductive name_result := RC_OK (src sz : Z) (tgt : list Z) (len : Z) | RC_TRUNC | RC_FORMAT.

(** [do { tgt[tpos++]=*lptr++; } while(--lb);] *)
Fixpoint copy_label (lb : nat) (msg : list Z) (lptr : Z) (tgt : list Z) (tpos : Z) : option (list Z) :=
  match lb with
  | O => Some tgt
  | S lb =>
      let* c := byte_at msg lptr in
      let* tgt := mem_write tpos [c] tgt in
      copy_label lb msg (lptr + 1) tgt (tpos + 1)
  end.

(** The loop after [jumped], where only the message bounds the name: the buffer
    and its used length, or [None] inside when the name is refused. *)
Fixpoint jumped_loop (fuel : nat) (msg : list Z) (lptr : Z) (tgt : list Z) (tpos hops : Z) : option (option (list Z * Z)) :=
  match fuel with
  | O => None
  | S fuel =>
      let msgsz := zlen msg in
      let* lb := byte_at msg lptr in
      let lptr := lptr + 1 in
      if lb >? 0x3f then
        if lb <? 0xc0 then Some None
        else if lptr >=? msgsz then Some None
        else if hops + 1 >? 255 then Some None
        else let* b := byte_at msg lptr in
             let offs := Z.lor (Z.shiftl (Z.land lb 0x3f) 8) b in
             if offs >=? msgsz then Some None
             else jumped_loop fuel msg offs tgt tpos (hops + 1)
      else
        let* tgt := mem_write tpos [lb] tgt in
        let tpos := tpos + 1 in
        if lb =? 0 then Some (Some (tgt, tpos))
        else if lptr + lb >=? msgsz then Some None
        else if tpos + lb >? DNSNAMEBUFSIZE - 1 then Some None
        else let* tgt := copy_label (Z.to_nat lb) msg lptr tgt tpos in
             jumped_loop fuel msg (lptr + lb) tgt (tpos + lb) hops
  end.

Definition NAME_FUEL : nat := 520.

(** The first loop, in the data area. [done newsz tgt tpos] is [return_OK]. *)
Fixpoint data_loop (fuel : nat) (msg : list Z) (lptr newsz : Z) (tgt : list Z) (tpos : Z)
    (done : Z -> list Z -> Z -> name_result) : option name_result :=
  match fuel with
  | O => None
  | S fuel =>
      let msgsz := zlen msg in
      let newsz := newsz - 1 in
      let* lb := byte_at msg lptr in
      let lptr := lptr + 1 in
      if lb >? 0x3f then
        if lb <? 0xc0 then Some RC_FORMAT
        else if newsz =? 0 then Some RC_TRUNC
        else if lptr >=? msgsz then Some RC_FORMAT
        else let newsz := newsz - 1 in
             let* b := byte_at msg lptr in
             let offs := Z.lor (Z.shiftl (Z.land lb 0x3f) 8) b in
             if offs >=? msgsz then Some RC_FORMAT
             else let* r := jumped_loop NAME_FUEL msg offs tgt tpos 1 in
                  match r with
                  | Some (tgt, tpos) => Some (done newsz tgt tpos)
                  | None => Some RC_FORMAT
                  end
      else
        let* tgt := mem_write tpos [lb] tgt in
        let tpos := tpos + 1 in
        if lb =? 0 then Some (done newsz tgt tpos)
        else if newsz <=? lb then Some RC_TRUNC
        else if lptr + lb >=? msgsz then Some RC_FORMAT
        else if tpos + lb >? DNSNAMEBUFSIZE - 1 then Some RC_FORMAT
        else let newsz := newsz - lb in
             let* tgt := copy_label (Z.to_nat lb) msg lptr tgt tpos in
             data_loop fuel msg (lptr + lb) newsz tgt (tpos + lb) done
  end.

Definition decompress_name (msg : list Z) (src sz : Z) (tgt : list Z) : option name_result :=
  if sz =? 0 then Some RC_TRUNC
  else if src >=? zlen msg then Some RC_FORMAT
  else data_loop NAME_FUEL msg src sz tgt 0
         (fun newsz tgt tpos => RC_OK (src + (sz - newsz)) newsz tgt tpos).

(** ** [domain_match] *)

(** [while((lb=ms[i])) ...]: the length bytes and the end. *)
Fixpoint collect_loop (fuel : nat) (ms : list Z) (i ns : Z) : option (list Z * Z) :=
  match fuel with
  | O => None
  | S fuel =>
      let* lb := byte_at ms i in
      if lb =? 0 then Some ([], i)
      else ASSERT (ns <? 128) ;;
           let* r := collect_loop fuel ms (i + (lb + 1)) (ns + 1) in
           Some (lb :: fst r, snd r)
  end.

Definition collect_lengths (ms : list Z) : option (list Z * Z) := collect_loop 129 ms 0 0.

(** [for(;lb;--lb) if(tolower(ms[--i]) != tolower(md[--j])) goto mismatch;] *)
Fixpoint same_label (lb : nat) (ms : list Z) (i : Z) (md : list Z) (j : Z) : option bool :=
  match lb with
  | O => Some true
  | S lb =>
      let* c := byte_at ms (i - 1) in
      let* d := byte_at md (j - 1) in
      if negb (tolower c =? tolower d) then Some false
      else same_label lb ms (i - 1) md (j - 1)
  end.

(** The loop on [k], with [todo] values of [k] left: [k - 1], [offs] and [offd]. *)
Fixpoint match_loop (todo : nat) (ms : list Z) (ls : list Z) (i : Z) (md : list Z) (ld : list Z) (j k : Z) : option (Z * Z * Z) :=
  match todo with
  | O => Some (k - 1, i, j)
  | S todo =>
      let* lb := byte_at ls (zlen ls - k) in
      let* lb' := byte_at ld (zlen ld - k) in
      if negb (lb =? lb') then Some (k - 1, i, j)
      else let* same := same_label (Z.to_nat lb) ms i md j in
           if same then match_loop todo ms ls (i - lb - 1) md ld (j - lb - 1) (k + 1)
           else Some (k - 1, i, j)
  end.

(** The number of labels, [*os] and [*od]. *)
Definition domain_match (ms md : list Z) : option (Z * Z * Z) :=
  let* (ls, i) := collect_lengths ms in
  let* (ld, j) := collect_lengths md in
  let n := if zlen ls >? zlen ld then zlen ld else zlen ls in
  match_loop (Z.to_nat n) ms ls i md ld j 1.

(** ** [compress_name] *)

Record compel_t := mkCompel { index : Z; s : list Z }.

(** Part 1: [longest], [lrem] and [coffs]. *)
Fixpoint search_loop (inn : list Z) (cb : list compel_t) (longest lrem coffs : Z) : option (Z * Z * Z) :=
  match cb with
  | [] => Some (longest, lrem, coffs)
  | ci :: cb =>
      let* (rv, rem, to) := domain_match inn (s ci) in
      if rv >? longest then
        let newoffs := u32 (index ci + to) in
        if newoffs <=? 0x3fff then search_loop inn cb rv rem newoffs
        else search_loop inn cb longest lrem coffs
      else search_loop inn cb longest lrem coffs
  end.

(** [room]: [dlist_grow] finds memory; if not, it frees the list and the result is 0. *)
Definition compress_name (inn out : list Z) (offs : Z) (cb : list compel_t) (room : bool) : option (Z * list Z * list compel_t) :=
  let* ilen := rhnlen inn in
  ASSERT (ilen <=? DNSNAMEBUFSIZE) ;;
  let* (longest, lrem, coffs) := search_loop inn cb 0 0 0 in
  let* (out, rl, add) :=
    (if longest >? 0 then
       ASSERT (lrem + 2 <=? ilen) ;;
       let* bs := mem_read 0 lrem inn in
       let* out := mem_write 0 bs out in
       let* out := mem_write lrem [u8 (Z.lor 0xc0 (Z.shiftr (Z.land coffs 0x3f00) 8))] out in
       let* out := mem_write (lrem + 1) [u8 (Z.land coffs 0xff)] out in
       Some (out, lrem + 2, negb (lrem =? 0))
     else
       let* bs := mem_read 0 ilen inn in
       let* out := mem_write 0 bs out in
       Some (out, ilen, true)) in
  if (add : bool) then
    if room then
      let* bs := mem_read 0 ilen inn in
      Some (rl, out, cb ++ [mkCompel offs bs])
    else Some (0, out, [])
  else Some (rl, out, cb).

(** ** The format *)

Definition label_ok (l : list Z) : Prop := 1 <= zlen l <= 63.

(** A label with its length byte. *)
Definition lab (l : list Z) : list Z := zlen l :: l.

Definition labs (ls : list (list Z)) : list Z := concat (lab <$> ls).

(** A name in length-byte form. *)
Definition wire (ls : list (list Z)) : list Z := labs ls ++ [0].

Definition name_ok (ls : list (list Z)) : Prop := Forall label_ok ls /\ zlen (wire ls) <= DNSNAMEBUFSIZE.

(** A name at a position of a message: the compression pointers followed, the bytes
    it takes there, and its labels. *)
Inductive encodes (msg : list Z) : Z -> Z -> Z -> list (list Z) -> Prop :=
| enc_end off : byte_at msg off = Some 0 -> encodes msg off 0 1 []
| enc_label off l h e ls :
    label_ok l -> mem_read off (1 + zlen l) msg = Some (lab l) -> encodes msg (off + 1 + zlen l) h e ls ->
    encodes msg off h (1 + zlen l + e) (l :: ls)
| enc_ptr off b1 b2 h e ls :
    192 <= b1 -> byte_at msg off = Some b1 -> byte_at msg (off + 1) = Some b2 -> encodes msg ((b1 - 192) * 256 + b2) h e ls ->
    encodes msg off (h + 1) 2 ls.

(** Data that ends inside of a name. *)
Inductive cut : list Z -> Prop :=
| cut_nil : cut []
| cut_ptr b : 192 <= b -> cut [b]
| cut_label lb k : 1 <= lb <= 63 -> zlen k <= lb -> cut (lb :: k)
| cut_next l k : label_ok l -> cut k -> cut (lab l ++ k).

(** Names are compared without case. *)
Definition lower (l : list Z) : list Z := tolower <$> l.
Definition same_name (a b : list (list Z)) : Prop := lower <$> a = lower <$> b.

#[export] Instance same_name_dec a b : Decision (same_name a b).
Proof. unfold same_name. apply _. Defined.

(** ** Lemmas on the format *)

#[global] Arguments wire : simpl never.
#[global] Arguments lab : simpl never.

Lemma zlen_lab l : zlen (lab l) = 1 + zlen l.
Proof. unfold lab. by rewrite zlen_cons. Qed.

Lemma wire_nil : wire [] = [0].
Proof. reflexivity. Qed.

Lemma labs_cons l ls : labs (l :: ls) = lab l ++ labs ls.
Proof. reflexivity. Qed.

Lemma labs_app a b : labs (a ++ b) = labs a ++ labs b.
Proof. unfold labs. by rewrite fmap_app, concat_app. Qed.

Lemma wire_cons l ls : wire (l :: ls) = lab l ++ wire ls.
Proof. unfold wire. by rewrite labs_cons, <- app_assoc. Qed.

Lemma wire_app a b : wire (a ++ b) = labs a ++ wire b.
Proof. unfold wire. by rewrite labs_app, <- app_assoc. Qed.

Lemma zlen_wire ls : zlen (wire ls) = zlen (labs ls) + 1.
Proof. unfold wire. rewrite zlen_app. reflexivity. Qed.

Lemma zlen_wire_cons l ls : zlen (wire (l :: ls)) = 1 + zlen l + zlen (wire ls).
Proof. rewrite wire_cons, zlen_app, zlen_lab. lia. Qed.

Lemma zlen_labs_cons l ls : zlen (labs (l :: ls)) = 1 + zlen l + zlen (labs ls).
Proof. rewrite labs_cons, zlen_app, zlen_lab. lia. Qed.

Lemma wire_pos ls : 1 <= zlen (wire ls).
Proof. rewrite zlen_wire. pose proof (zlen_nonneg (labs ls)). lia. Qed.

(** A name takes at least two bytes for each label. *)
Lemma labs_size ls : Forall label_ok ls -> 2 * zlen ls <= zlen (labs ls).
Proof.
  induction 1 as [|l ls [Hl _] _ IH]; [reflexivity|]. rewrite zlen_labs_cons, zlen_cons. lia.
Qed.

Lemma encodes_bounds msg off h e ls : encodes msg off h e ls ->
  0 <= off < zlen msg /\ 0 <= h /\ 1 <= e /\ off + e <= zlen msg /\ Forall label_ok ls.
Proof.
  induction 1 as [off E|off l h e ls Hl Em _ IH|off b1 b2 h e ls Hb E1 E2 _ IH].
  - apply byte_at_range in E. split_and!; try lia. constructor.
  - destruct IH as (H1 & H2 & H3 & H4 & H5). unfold mem_read in Em. destruct (in_range _ _ _) eqn:E; [|done].
    apply in_range_spec in E. pose proof (zlen_nonneg l). split_and!; try lia. by constructor.
  - destruct IH as (H1 & H2 & H3 & H4 & H5). apply byte_at_range in E1, E2. split_and!; try lia. done.
Qed.

Lemma mem_read_at off len bs msg : mem_read off len msg = Some bs ->
  0 <= off /\ 0 <= len /\ off + len <= zlen msg /\ bs = slice off len msg /\ zlen bs = len.
Proof.
  unfold mem_read. destruct (in_range _ _ _) eqn:E; [|done]. apply in_range_spec in E. intros [= <-].
  split_and!; try lia; [done|]. apply zlen_slice; lia.
Qed.

(** A longer message has the same names. *)
Lemma encodes_app msg more off h e ls : encodes msg off h e ls -> encodes (msg ++ more) off h e ls.
Proof.
  induction 1 as [off E|off l h e ls Hl Em H IH|off b1 b2 h e ls Hb E1 E2 H IH].
  - apply enc_end. rewrite byte_at_app_l; [done|]. apply byte_at_range in E. lia.
  - apply enc_label; [done| |done]. apply mem_read_at in Em as (H1 & H2 & H3 & H4 & _). pose proof (zlen_nonneg more).
    rewrite mem_read_Some by (rewrite ?zlen_app; lia). by rewrite slice_app_l, H4 by lia.
  - apply (enc_ptr _ off b1 b2 h e ls); [done| | |done]; rewrite byte_at_app_l; try done; apply byte_at_range in E1, E2; lia.
Qed.

Lemma slice_one msg i c : byte_at msg i = Some c -> slice i 1 msg = [c].
Proof.
  intros E. pose proof (byte_at_range _ _ _ E). unfold byte_at in E. rewrite (proj2 (Z.leb_le 0 i)) in E by lia.
  unfold slice. rewrite (drop_S _ _ _ E). reflexivity.
Qed.

(** What the first byte says of a name. *)
Lemma encodes_inv msg off h e ls lb : byte_at msg off = Some lb -> encodes msg off h e ls ->
  (lb = 0 /\ h = 0 /\ e = 1 /\ ls = []) \/
  (1 <= lb <= 63 /\ exists ls' e', off + 1 + lb <= zlen msg /\ ls = slice (off + 1) lb msg :: ls' /\ e = 1 + lb + e' /\
     encodes msg (off + 1 + lb) h e' ls') \/
  (192 <= lb /\ exists b h' e', byte_at msg (off + 1) = Some b /\ encodes msg ((lb - 192) * 256 + b) h' e' ls /\ e = 2 /\ h = h' + 1).
Proof.
  intros Eb H. destruct H as [off E|off l h e ls Hl Em H|off b1 b2 h e ls Hb E1 E2 H].
  - left. rewrite Eb in E. injection E as ->. done.
  - right. left. apply mem_read_at in Em as (H1 & H2 & H3 & H4 & H5). rewrite slice_add in H4 by (unfold label_ok in Hl; lia).
    rewrite (slice_one _ _ _ Eb) in H4. injection H4 as <- H4. split; [exact Hl|]. exists ls, e. rewrite <- H4. split_and!; try done; lia.
  - right. right. rewrite Eb in E1. injection E1 as ->. split; [done|]. by exists b2, h, e.
Qed.

Lemma encodes_label msg off lb h e ls : byte_at msg off = Some lb -> 1 <= lb <= 63 -> off + 1 + lb <= zlen msg ->
  encodes msg (off + 1 + lb) h e ls -> encodes msg off h (1 + lb + e) (slice (off + 1) lb msg :: ls).
Proof.
  intros Eb Hl Hs H. pose proof (byte_at_range _ _ _ Eb). assert (zlen (slice (off + 1) lb msg) = lb) as Ez by (apply zlen_slice; lia).
  rewrite <- Ez at 1. apply enc_label; [unfold label_ok; lia| |by rewrite Ez].
  rewrite mem_read_Some by lia. f_equal. rewrite Ez, slice_add by lia. rewrite (slice_one _ _ _ Eb). unfold lab. by rewrite Ez.
Qed.

Lemma lor_low y x k : 0 <= k -> 0 <= x < 2 ^ k -> Z.lor (Z.shiftl y k) x = y * 2 ^ k + x.
Proof.
  intros Hk Hx. rewrite <- Z.add_nocarry_lor; [by rewrite Z.shiftl_mul_pow2|].
  apply Z.bits_inj'. intros n Hn. rewrite Z.land_spec, Z.bits_0. destruct (Z.ltb_spec n k).
  - rewrite Z.shiftl_spec_low by lia. done.
  - rewrite <- (Z.mod_small x (2 ^ k)), Z.mod_pow2_bits_high by lia. apply andb_false_r.
Qed.

(** The offset of a compression pointer, read and written. *)
Lemma pointer_offset b1 b2 : 192 <= b1 < 256 -> byte_ok b2 -> Z.lor (Z.shiftl (Z.land b1 0x3f) 8) b2 = (b1 - 192) * 256 + b2.
Proof.
  intros H1 H2. change 0x3f with (Z.ones 6). rewrite Z.land_ones by lia.
  replace (b1 mod 2 ^ 6) with (b1 - 192) by (change (2 ^ 6) with 64; Z.div_mod_to_equations; lia). by apply (lor_low _ _ 8).
Qed.

Lemma pointer_bytes c : 0 <= c <= 0x3fff ->
  u8 (Z.lor 0xc0 (Z.shiftr (Z.land c 0x3f00) 8)) = 192 + c / 256 /\ u8 (Z.land c 0xff) = c mod 256.
Proof.
  intros Hc. assert (0 <= c / 256 < 64) as Hd by (Z.div_mod_to_equations; lia). split.
  - rewrite Z.shiftr_land. change (Z.shiftr 0x3f00 8) with (Z.ones 6). rewrite Z.shiftr_div_pow2, Z.land_ones by lia.
    change (2 ^ 8) with 256. change (2 ^ 6) with 64. rewrite Z.mod_small by lia. change 0xc0 with (Z.shiftl 3 6). rewrite (lor_low 3 (c / 256) 6) by (change (2 ^ 6) with 64; lia).
    change (3 * 2 ^ 6) with 192. change (Z.shiftl 3 6) with 192. unfold u8. rewrite Z.mod_small; lia.
  - change 0xff with (Z.ones 8). rewrite Z.land_ones by lia. unfold u8. by rewrite Z.mod_mod.
Qed.
