(* ===== verification/DnsDecompress.v ===== *)
(** * pdnsd: decompressing domain names

    [decompress_name] reads exactly the names of a message ([DnsNames.encodes]),
    from any message, within the message and its buffer. *)

From S2P Require Import Prelude DnsNames.
#[global] Open Scope Z_scope.

(** ** Decompressing *)

Lemma write_one pre c r rest : mem_write (zlen pre) [c] (pre ++ r :: rest) = Some ((pre ++ [c]) ++ rest).
Proof. rewrite <- app_assoc. exact (mem_write_mid pre [r] [c] rest _ eq_refl eq_refl). Qed.

Lemma copy_label_spec n : forall msg lptr pre rest,
  0 <= lptr -> lptr + Z.of_nat n <= zlen msg -> Z.of_nat n <= zlen rest ->
  copy_label n msg lptr (pre ++ rest) (zlen pre) = Some ((pre ++ slice lptr (Z.of_nat n) msg) ++ drop n rest).
Proof.
  induction n as [|n IH]; intros msg lptr pre rest H1 H2 H3; cbn [copy_label].
  { rewrite slice_zero, app_nil_r. done. }
  destruct (byte_at_Some msg lptr) as (c & Ec); [lia|]. rewrite Ec. destruct rest as [|r rest]; [zl|]. rewrite zlen_cons in H3.
  rewrite write_one. replace (zlen pre + 1) with (zlen (pre ++ [c])) by (rewrite zlen_app; reflexivity).
  rewrite IH by lia. rewrite Nat2Z.inj_succ, <- Z.add_1_l, slice_add, (slice_one _ _ _ Ec) by lia. by rewrite !app_assoc.
Qed.

(** Both loops: the length byte and the label are put after what the buffer has. *)
Lemma put_label msg lptr lb pre rest :
  byte_at msg lptr = Some lb -> 1 <= lb -> lptr + 1 + lb <= zlen msg -> 1 + lb <= zlen rest ->
  exists t, mem_write (zlen pre) [lb] (pre ++ rest) = Some t /\
    copy_label (Z.to_nat lb) msg (lptr + 1) t (zlen pre + 1) =
      Some ((pre ++ lab (slice (lptr + 1) lb msg)) ++ drop (Z.to_nat (1 + lb)) rest).
Proof.
  intros Eb H1 H2 H3. pose proof (byte_at_range _ _ _ Eb). destruct rest as [|r rest]; [zl|]. rewrite zlen_cons in H3.
  exists ((pre ++ [lb]) ++ rest). split; [apply write_one|].
  replace (zlen pre + 1) with (zlen (pre ++ [lb])) by (rewrite zlen_app; reflexivity).
  rewrite copy_label_spec by lia. rewrite Z2Nat.id, Z2Nat.inj_add by lia. unfold lab. rewrite zlen_slice by lia. by rewrite <- (app_assoc pre).
Qed.

(** The buffer after a name was put after [pre]. *)
Definition filled (pre rest : list Z) (ls : list (list Z)) : list Z := pre ++ wire ls ++ drop (length (wire ls)) rest.

Lemma filled_cons pre rest l ls :
  filled (pre ++ lab l) (drop (Z.to_nat (1 + zlen l)) rest) ls = filled pre rest (l :: ls).
Proof.
  unfold filled. rewrite wire_cons, length_app, <- drop_drop, <- !app_assoc. do 5 f_equal. unfold lab, zlen. simpl. lia.
Qed.

Lemma filled_end pre r rest : (pre ++ [0]) ++ rest = filled pre (r :: rest) [].
Proof. unfold filled. by rewrite wire_nil, <- app_assoc. Qed.

Lemma jumped_loop_spec msg (Hm : bytes_ok msg) fuel : forall lptr pre rest hops,
  0 <= lptr < zlen msg -> zlen pre <= 255 -> 256 <= zlen pre + zlen rest -> 0 <= hops <= 255 ->
  512 - zlen pre - hops <= Z.of_nat fuel ->
  exists r, jumped_loop fuel msg lptr (pre ++ rest) (zlen pre) hops = Some r /\
    forall tgt tpos, r = Some (tgt, tpos) <->
      exists ls h e, encodes msg lptr h e ls /\ hops + h <= 255 /\ tpos = zlen pre + zlen (wire ls) /\ tpos <= 256 /\ tgt = filled pre rest ls.
Proof.
  induction fuel as [|fuel IH]; intros lptr pre rest hops H1 H2 H3 H4 Hf; [lia|]. cbn [jumped_loop].
  destruct (byte_at_Some msg lptr H1) as (lb & Eb). rewrite Eb. pose proof (byte_at_ok _ _ _ Hm Eb) as Hb. unfold byte_ok in Hb.
  destruct (Z.gtb_spec lb 0x3f) as [Hgt|Hle].
  - assert (forall P : Prop, (192 <= lb -> lptr + 1 < zlen msg -> hops < 255 -> forall b, byte_at msg (lptr + 1) = Some b -> (lb - 192) * 256 + b < zlen msg -> P) ->
      forall ls h e, encodes msg lptr h e ls -> hops + h <= 255 -> P) as Hinv.
    { intros P HP ls h e He Hh. destruct (encodes_inv _ _ _ _ _ _ Eb He) as [(-> & _)|[(? & _)|(Hlb & b & h' & e' & E2 & He' & -> & ->)]]; [lia..|].
      pose proof (byte_at_range _ _ _ E2). apply encodes_bounds in He'. apply HP with b; try done; lia. }
    destruct (Z.ltb_spec lb 0xc0) as [Hlt|Hge].
    { eexists. split; [done|]. intros tgt tpos. split; [done|]. intros (ls & h & e & He & Hh & _). exfalso; eapply (Hinv False); [intros; lia|exact He|lia]. }
    destruct (Z.geb_spec (lptr + 1) (zlen msg)) as [Hend|Hend].
    { eexists. split; [done|]. intros tgt tpos. split; [done|]. intros (ls & h & e & He & Hh & _). exfalso; eapply (Hinv False); [intros; lia|exact He|lia]. }
    destruct (Z.gtb_spec (hops + 1) 255) as [Hh1|Hh1].
    { eexists. split; [done|]. intros tgt tpos. split; [done|]. intros (ls & h & e & He & Hh & _). exfalso; eapply (Hinv False); [intros; lia|exact He|lia]. }
    destruct (byte_at_Some msg (lptr + 1)) as (b & E2); [lia|]. rewrite E2. pose proof (byte_at_ok _ _ _ Hm E2) as Hb2. rewrite pointer_offset by (done || lia).
    unfold byte_ok in Hb2. destruct (Z.geb_spec ((lb - 192) * 256 + b) (zlen msg)) as [Ho|Ho].
    { eexists. split; [done|]. intros tgt tpos. split; [done|]. intros (ls & h & e & He & Hh & _). exfalso; eapply (Hinv False); [|exact He|lia]. intros _ _ _ b'. rewrite E2. intros [= <-]. lia. }
    destruct (IH ((lb - 192) * 256 + b) pre rest (hops + 1)) as (r & -> & Hr); [lia..|]. exists r. split; [done|]. intros tgt tpos. rewrite Hr. split.
    + intros (ls & h & e & He & Hh & ?). exists ls, (h + 1), 2. split; [by apply (enc_ptr _ _ lb b h e)|]. split; [lia|done].
    + intros (ls & h & e & He & Hh & ?). destruct (encodes_inv _ _ _ _ _ _ Eb He) as [(-> & _)|[(? & _)|(Hlb & b' & h' & e' & E2' & He' & -> & ->)]]; [lia..|].
      rewrite E2 in E2'. injection E2' as <-. exists ls, h', e'. split; [done|]. split; [lia|done].
  - destruct rest as [|r0 rest0] eqn:Er; [zl|]. destruct (Z.eqb_spec lb 0) as [->|Hnz].
    { rewrite write_one. eexists. split; [done|]. intros tgt tpos. split.
      - intros [= <- <-]. exists [], 0, 1. split_and!; [by apply enc_end|lia|done|lia|]. apply filled_end.
      - intros (ls & h & e & He & _ & -> & _ & ->). destruct (encodes_inv _ _ _ _ _ _ Eb He) as [(_ & -> & -> & ->)|[(? & _)|(? & _)]]; [|lia..].
        rewrite <- filled_end. by rewrite wire_nil. }
    assert (forall P : Prop, (lptr + 1 + lb < zlen msg -> zlen pre + 1 + lb <= 255 -> P) ->
      forall ls h e, encodes msg lptr h e ls -> zlen pre + zlen (wire ls) <= 256 -> P) as Hinv.
    { intros P HP ls h e He Hz. destruct (encodes_inv _ _ _ _ _ _ Eb He) as [(-> & _)|[(Hl & ls' & e' & Hs & -> & -> & He')|(? & _)]]; [lia| |lia].
      apply encodes_bounds in He'. rewrite zlen_wire_cons, zlen_slice in Hz by lia. pose proof (wire_pos ls'). apply HP; lia. }
    destruct (Z.geb_spec (lptr + 1 + lb) (zlen msg)) as [Hend|Hend].
    { rewrite write_one. eexists. split; [done|]. intros tgt tpos. split; [done|]. intros (ls & h & e & He & _ & -> & Hz & _). exfalso; eapply (Hinv False); [intros; lia|exact He|lia]. }
    unfold DNSNAMEBUFSIZE. destruct (Z.gtb_spec (zlen pre + 1 + lb) (256 - 1)) as [Hfull|Hfull].
    { rewrite write_one. eexists. split; [done|]. intros tgt tpos. split; [done|]. intros (ls & h & e & He & _ & -> & Hz & _). exfalso; eapply (Hinv False); [intros; lia|exact He|lia]. }
    rewrite <- Er in *. destruct (put_label msg lptr lb pre rest Eb) as (t & -> & ->); [lia..|].
    set (l := slice (lptr + 1) lb msg). assert (zlen l = lb) as El by (apply zlen_slice; lia).
    replace (zlen pre + 1 + lb) with (zlen (pre ++ lab l)) by (rewrite zlen_app, zlen_lab; lia).
    destruct (IH (lptr + 1 + lb) (pre ++ lab l) (drop (Z.to_nat (1 + lb)) rest) hops) as (r & -> & Hr); try lia.
    { rewrite zlen_app, zlen_lab; lia. } { unfold zlen at 2. rewrite length_drop, zlen_app, zlen_lab. unfold zlen in *. lia. } { rewrite zlen_app, zlen_lab; lia. }
    exists r. split; [done|]. intros tgt tpos. rewrite Hr. rewrite zlen_app, zlen_lab, El. split.
    + intros (ls & h & e & He & Hh & -> & Hz & ->). exists (l :: ls), h, (1 + lb + e).
      split_and!; [apply encodes_label; (done || lia)|done|rewrite zlen_wire_cons; lia|done|]. rewrite <- filled_cons. by rewrite El.
    + intros (ls & h & e & He & Hh & -> & Hz & ->). destruct (encodes_inv _ _ _ _ _ _ Eb He) as [(-> & _)|[(Hl & ls' & e' & Hs & -> & -> & He')|(? & _)]]; [lia| |lia].
      fold l. exists ls', h, e'. split_and!; [done|done|rewrite zlen_wire_cons; lia|done|]. rewrite <- filled_cons. by rewrite El.
Qed.

Lemma slice_cons msg off n b : byte_at msg off = Some b -> 1 <= n -> slice off n msg = b :: slice (off + 1) (n - 1) msg.
Proof.
  intros Eb Hn. pose proof (byte_at_range _ _ _ Eb). replace n with (1 + (n - 1)) at 1 by lia.
  rewrite slice_add, (slice_one _ _ _ Eb) by lia. done.
Qed.

(** The results of a name with the data area [newsz] from [lptr] on. *)
Definition data_results (msg : list Z) (lptr newsz : Z) (f : Z -> Z) (pre rest : list Z) (r : name_result) : Prop :=
  (forall src sz tgt tpos, r = RC_OK src sz tgt tpos <->
     exists ls h e, encodes msg lptr h e ls /\ h <= 255 /\ e <= newsz /\ src = f (newsz - e) /\ sz = newsz - e /\
       tpos = zlen pre + zlen (wire ls) /\ tpos <= 256 /\ tgt = filled pre rest ls) /\
  (r = RC_TRUNC -> lptr + newsz <= zlen msg -> cut (slice lptr newsz msg)).

(** A refused name. *)
Lemma data_refused msg lptr newsz f pre rest r :
  r = RC_FORMAT \/ r = RC_TRUNC /\ (lptr + newsz <= zlen msg -> cut (slice lptr newsz msg)) ->
  (forall ls h e, encodes msg lptr h e ls -> h <= 255 -> e <= newsz -> zlen pre + zlen (wire ls) <= 256 -> False) ->
  data_results msg lptr newsz f pre rest r.
Proof.
  intros Hr Hno. split.
  - intros src sz tgt tpos. split; [by destruct Hr as [->|[-> _]]|].
    intros (ls & h & e & He & Hh & Hn & _ & _ & -> & Hz & _). destruct (Hno ls h e He Hh Hn Hz).
  - destruct Hr as [->|[-> Hc]]; [done|by intros _].
Qed.

(** A name that starts with a pointer. *)
Lemma data_loop_pointer msg (Hm : bytes_ok msg) f fuel lptr newsz pre rest lb :
  byte_at msg lptr = Some lb -> 63 < lb -> 1 <= newsz -> zlen pre <= 255 -> 256 <= zlen pre + zlen rest ->
  exists r, data_loop (S fuel) msg lptr newsz (pre ++ rest) (zlen pre) (fun newsz tgt tpos => RC_OK (f newsz) newsz tgt tpos) = Some r /\
    data_results msg lptr newsz f pre rest r.
Proof.
  intros Eb Hgt Hn H2 H3. pose proof (byte_at_range _ _ _ Eb) as H1. pose proof (byte_at_ok _ _ _ Hm Eb) as Hb. unfold byte_ok in Hb. cbn [data_loop]. rewrite Eb.
  pose proof (zlen_nonneg pre). destruct (Z.gtb_spec lb 0x3f) as [_|]; [|lia].
  assert (forall P : Prop, (192 <= lb -> lptr + 1 < zlen msg -> 2 <= newsz -> forall b, byte_at msg (lptr + 1) = Some b -> (lb - 192) * 256 + b < zlen msg -> P) ->
    forall ls h e, encodes msg lptr h e ls -> e <= newsz -> P) as Hinv.
  { intros P HP ls h e He Hh. destruct (encodes_inv _ _ _ _ _ _ Eb He) as [(-> & _)|[(? & _)|(Hlb & b & h' & e' & E2 & He' & -> & ->)]]; [lia..|].
    pose proof (byte_at_range _ _ _ E2). apply encodes_bounds in He'. apply HP with b; try done; lia. }
  destruct (Z.ltb_spec lb 0xc0) as [Hlt|Hge].
  { eexists. split; [done|]. apply data_refused; [by left|]. intros ls h e He _ Hh _. eapply (Hinv False); [intros; lia|exact He|lia]. }
  destruct (Z.eqb_spec (newsz - 1) 0) as [Hz|Hz].
  { eexists. split; [done|]. apply data_refused.
    - right. split; [done|]. intros _. replace newsz with 1 by lia. rewrite (slice_one _ _ _ Eb). by apply cut_ptr.
    - intros ls h e He _ Hh _. eapply (Hinv False); [intros; lia|exact He|lia]. }
  destruct (Z.geb_spec (lptr + 1) (zlen msg)) as [Hend|Hend].
  { eexists. split; [done|]. apply data_refused; [by left|]. intros ls h e He _ Hh _. eapply (Hinv False); [intros; lia|exact He|lia]. }
  destruct (byte_at_Some msg (lptr + 1)) as (b & E2); [lia|]. rewrite E2. pose proof (byte_at_ok _ _ _ Hm E2) as Hb2. rewrite pointer_offset by (done || lia).
  unfold byte_ok in Hb2. destruct (Z.geb_spec ((lb - 192) * 256 + b) (zlen msg)) as [Ho|Ho].
  { eexists. split; [done|]. apply data_refused; [by left|]. intros ls h e He _ Hh _.
    eapply (Hinv False); [|exact He|lia]. intros _ _ _ b'. rewrite E2. intros [= <-]. lia. }
  destruct (jumped_loop_spec msg Hm NAME_FUEL ((lb - 192) * 256 + b) pre rest 1) as (r & -> & Hr); [unfold NAME_FUEL; lia..|].
  assert (forall tgt tpos, r = Some (tgt, tpos) <-> exists ls h e, encodes msg lptr h e ls /\ h <= 255 /\ e = 2 /\
    tpos = zlen pre + zlen (wire ls) /\ tpos <= 256 /\ tgt = filled pre rest ls) as Hr'.
  { intros tgt tpos. rewrite Hr. split.
    - intros (ls & h & e & He & Hh & ?). exists ls, (h + 1), 2. split; [by apply (enc_ptr _ _ lb b h e)|]. split_and!; [lia|done|naive_solver..].
    - intros (ls & h & e & He & Hh & -> & ?). destruct (encodes_inv _ _ _ _ _ _ Eb He) as [(-> & _)|[(? & _)|(Hlb & b' & h' & e' & E2' & He' & _ & ->)]]; [lia..|].
      rewrite E2 in E2'. injection E2' as <-. exists ls, h', e'. split; [done|]. split; [lia|done]. }
  assert (forall ls h e, encodes msg lptr h e ls -> e = 2) as He2.
  { intros ls h e He. destruct (encodes_inv _ _ _ _ _ _ Eb He) as [(-> & _)|[(? & _)|(Hlb & b' & h' & e' & E2' & He' & -> & ->)]]; [lia..|done]. }
  replace (newsz - 1 - 1) with (newsz - 2) by lia. destruct r as [[tgt tpos]|].
  - eexists. split; [done|]. split; [|done]. intros src sz tgt' tpos'. split.
    + intros [= <- <- <- <-]. destruct (proj1 (Hr' tgt tpos) eq_refl) as (ls & h & e & He & Hh & -> & ?).
      exists ls, h, 2. split_and!; try done; naive_solver lia.
    + intros (ls & h & e & He & Hh & ? & -> & -> & ?). pose proof (He2 _ _ _ He) as ->.
      assert (Some (tgt, tpos) = Some (tgt', tpos')) as [= -> ->] by (apply Hr'; exists ls, h, 2; done). done.
  - eexists. split; [done|]. apply data_refused; [by left|]. intros ls h e He Hh _ Hz'.
    assert (None = Some (filled pre rest ls, zlen pre + zlen (wire ls))); [|done]. apply Hr'. exists ls, h, e. pose proof (He2 _ _ _ He). done.
Qed.

Lemma data_loop_spec msg (Hm : bytes_ok msg) f fuel : forall lptr newsz pre rest,
  0 <= lptr < zlen msg -> 1 <= newsz -> zlen pre <= 255 -> 256 <= zlen pre + zlen rest -> 256 - zlen pre <= Z.of_nat fuel ->
  exists r, data_loop fuel msg lptr newsz (pre ++ rest) (zlen pre) (fun newsz tgt tpos => RC_OK (f newsz) newsz tgt tpos) = Some r /\
    data_results msg lptr newsz f pre rest r.
Proof.
  induction fuel as [|fuel IH]; intros lptr newsz pre rest H1 Hn H2 H3 Hf; [lia|].
  destruct (byte_at_Some msg lptr H1) as (lb & Eb). pose proof (byte_at_ok _ _ _ Hm Eb) as Hb. unfold byte_ok in Hb.
  destruct (Z.le_gt_cases lb 63) as [Hle|Hgt]; [|by apply data_loop_pointer with lb].
  cbn [data_loop]. rewrite Eb. destruct (Z.gtb_spec lb 0x3f) as [|_]; [lia|].
  assert (forall P : Prop, (lb <> 0 -> lptr + 1 + lb < zlen msg -> lb < newsz - 1 -> zlen pre + 1 + lb <= 255 -> P) -> lb <> 0 ->
    forall ls h e, encodes msg lptr h e ls -> e <= newsz -> zlen pre + zlen (wire ls) <= 256 -> P) as Hinv.
  { intros P HP Hnz ls h e He Hs Hz. destruct (encodes_inv _ _ _ _ _ _ Eb He) as [(-> & _)|[(Hl & ls' & e' & Hm' & -> & -> & He')|(? & _)]]; [lia| |lia].
    apply encodes_bounds in He'. rewrite zlen_wire_cons, zlen_slice in Hz by lia. pose proof (wire_pos ls'). apply HP; lia. }
  destruct rest as [|r0 rest0] eqn:Er; [zl|]. destruct (Z.eqb_spec lb 0) as [->|Hnz].
  { rewrite write_one. eexists. split; [done|]. split; [|done]. intros src sz tgt tpos. split.
    - intros [= <- <- <- <-]. exists [], 0, 1. split_and!; [by apply enc_end|lia|lia|done|done|done|lia|]. apply filled_end.
    - intros (ls & h & e & He & _ & _ & -> & -> & -> & _ & ->). destruct (encodes_inv _ _ _ _ _ _ Eb He) as [(_ & -> & -> & ->)|[(? & _)|(? & _)]]; [|lia..].
      rewrite <- filled_end. by rewrite wire_nil. }
  specialize (fun P HP => Hinv P HP Hnz). rewrite write_one.
  destruct (Z.leb_spec (newsz - 1) lb) as [Hcut|Hcut].
  { eexists. split; [done|]. apply data_refused.
    - right. split; [done|]. intros Hin. rewrite (slice_cons _ _ _ _ Eb Hn). apply cut_label; [lia|]. rewrite zlen_slice by lia. lia.
    - intros ls h e He _ Hh Hz. eapply (Hinv False); [intros; lia|exact He|lia..]. }
  destruct (Z.geb_spec (lptr + 1 + lb) (zlen msg)) as [Hend|Hend].
  { eexists. split; [done|]. apply data_refused; [by left|]. intros ls h e He _ Hh Hz. eapply (Hinv False); [intros; lia|exact He|lia..]. }
  unfold DNSNAMEBUFSIZE. destruct (Z.gtb_spec (zlen pre + 1 + lb) (256 - 1)) as [Hfull|Hfull].
  { eexists. split; [done|]. apply data_refused; [by left|]. intros ls h e He _ Hh Hz. eapply (Hinv False); [intros; lia|exact He|lia..]. }
  rewrite <- Er in *. destruct (put_label msg lptr lb pre rest Eb) as (t & Et & Ec); [lia..|]. rewrite Er, write_one in Et. injection Et as <-. rewrite Ec.
  set (l := slice (lptr + 1) lb msg). assert (zlen l = lb) as El by (apply zlen_slice; lia).
  replace (zlen pre + 1 + lb) with (zlen (pre ++ lab l)) by (rewrite zlen_app, zlen_lab; lia).
  destruct (IH (lptr + 1 + lb) (newsz - 1 - lb) (pre ++ lab l) (drop (Z.to_nat (1 + lb)) rest)) as (r & -> & Hr & Hc); try lia.
  { rewrite zlen_app, zlen_lab; lia. } { unfold zlen at 2. rewrite length_drop, zlen_app, zlen_lab. unfold zlen in *. lia. } { rewrite zlen_app, zlen_lab; lia. }
  exists r. split; [done|]. split.
  - intros src sz tgt tpos. rewrite Hr. rewrite zlen_app, zlen_lab, El. split.
    + intros (ls & h & e & He & Hh & Hs & -> & -> & -> & Hz & ->). exists (l :: ls), h, (1 + lb + e).
      split_and!; [apply encodes_label; (done || lia)|done|lia|f_equal; lia|lia|rewrite zlen_wire_cons; lia|done|]. rewrite <- filled_cons. by rewrite El.
    + intros (ls & h & e & He & Hh & Hs & -> & -> & -> & Hz & ->). destruct (encodes_inv _ _ _ _ _ _ Eb He) as [(-> & _)|[(Hl & ls' & e' & Hs' & -> & -> & He')|(? & _)]]; [lia| |lia].
      fold l. exists ls', h, e'. split_and!; [done|done|lia|f_equal; lia|lia|rewrite zlen_wire_cons; lia|done|]. rewrite <- filled_cons. by rewrite El.
  - intros -> Hin. rewrite (slice_cons _ _ _ _ Eb Hn). replace (newsz - 1) with (lb + (newsz - 1 - lb)) by lia. rewrite slice_add by lia.
    fold l. rewrite <- El at 1. apply (cut_next l); [unfold label_ok; lia|]. apply Hc; [done|lia].
Qed.

(** A name that is there is read. *)
Lemma decompress_ok msg src sz tgt ls h e :
  bytes_ok msg -> DNSNAMEBUFSIZE <= zlen tgt -> encodes msg src h e ls -> h <= 255 -> zlen (wire ls) <= DNSNAMEBUFSIZE -> e <= sz ->
  decompress_name msg src sz tgt = Some (RC_OK (src + e) (sz - e) (wire ls ++ drop (length (wire ls)) tgt) (zlen (wire ls))).
Proof.
  unfold DNSNAMEBUFSIZE. intros Hm Ht He Hh Hw Hsz. pose proof (encodes_bounds _ _ _ _ _ He) as (H1 & _ & H2 & _). unfold decompress_name.
  destruct (Z.eqb_spec sz 0); [lia|]. destruct (Z.geb_spec src (zlen msg)); [lia|].
  destruct (data_loop_spec msg Hm (fun newsz => src + (sz - newsz)) NAME_FUEL src sz [] tgt) as (r & Er & Hr & _); rewrite ?zlen_nil; try lia; [unfold NAME_FUEL; lia|].
  rewrite zlen_nil in Er. simpl app in Er. rewrite Er. f_equal. apply Hr. exists ls, h, e. rewrite zlen_nil. split_and!; try done; lia.
Qed.

(** C5. A domain name of a received message is decompressed exactly. Whatever the
    message, [decompress_name] ends, reads only the message and writes only the
    first 256 bytes of the buffer; it succeeds exactly when a name is encoded at the
    source, with at most 255 pointers followed, at most 256 bytes decompressed and
    its own bytes within the data area, and then the buffer starts with that name and
    the source and the size are moved past it; and it reports truncation only of data
    that ends inside of a name. *)
Theorem decompress_exact msg src sz tgt :
  bytes_ok msg -> 0 <= src -> 0 <= sz -> DNSNAMEBUFSIZE <= zlen tgt ->
  exists r, decompress_name msg src sz tgt = Some r /\
    (forall src' sz' tgt' len, r = RC_OK src' sz' tgt' len <->
       exists ls h e, encodes msg src h e ls /\ h <= 255 /\ len <= DNSNAMEBUFSIZE /\ e <= sz /\
         src' = src + e /\ sz' = sz - e /\ len = zlen (wire ls) /\ tgt' = wire ls ++ drop (length (wire ls)) tgt) /\
    (r = RC_TRUNC -> src + sz <= zlen msg -> cut (slice src sz msg)).
Proof.
  unfold DNSNAMEBUFSIZE. intros Hm Hs Hz Ht. unfold decompress_name. destruct (Z.eqb_spec sz 0) as [->|Hnz].
  { eexists. split; [done|]. split; [|intros _ _; rewrite slice_zero; constructor]. intros. split; [done|].
    intros (ls & h & e & He & _ & _ & Hle & _). apply encodes_bounds in He. lia. }
  destruct (Z.geb_spec src (zlen msg)) as [Hend|Hin].
  { eexists. split; [done|]. split; [|done]. intros. split; [done|]. intros (ls & h & e & He & _). apply encodes_bounds in He. lia. }
  destruct (data_loop_spec msg Hm (fun newsz => src + (sz - newsz)) NAME_FUEL src sz [] tgt) as (r & Er & Hr & Hc); rewrite ?zlen_nil; try lia; [unfold NAME_FUEL; lia|].
  exists r. split; [exact Er|]. split; [|exact Hc]. intros src' sz' tgt' len. rewrite Hr, zlen_nil. split.
  - intros (ls & h & e & He & Hh & Hl & -> & -> & -> & Hz' & ->). exists ls, h, e. split_and!; try done; lia.
  - intros (ls & h & e & He & Hh & Hz' & Hl & -> & -> & -> & ->). exists ls, h, e. split_and!; try done; lia.
Qed.

(** [www.a] at 9, with [a] at 0. *)
Definition sample_msg : list Z := [1; 97; 0; 7; 7; 7; 7; 7; 7; 3; 119; 119; 119; 192; 0; 5].

Lemma decompress_exact_witness :
  exists r, decompress_name sample_msg 9 7 (replicate 256 255) = Some r /\
    r = RC_OK 15 1 ([3; 119; 119; 119; 1; 97; 0] ++ replicate 249 255) 7 /\
    exists ls h e, encodes sample_msg 9 h e ls /\ h <= 255 /\ 15 = 9 + e.
Proof.
  destruct (decompress_exact sample_msg 9 7 (replicate 256 255)) as (r & Er & Hr & _).
  - unfold bytes_ok, sample_msg. repeat (constructor; [unfold byte_ok; lia|]). constructor.
  - lia.
  - lia.
  - vm_compute. discriminate.
  - exists r. split; [exact Er|].
    assert (r = RC_OK 15 1 ([3; 119; 119; 119; 1; 97; 0] ++ replicate 249 255) 7) as E.
    { vm_compute in Er. injection Er as <-. reflexivity. }
    split; [exact E|]. apply Hr in E as (ls & h & e & He & Hh & _ & _ & E & _). exists ls, h, e. done.
Defined.
