(* ===== verification/DnsCompress.v ===== *)
(** * pdnsd: compressing domain names

    What [compress_name] puts in a message is read back by [decompress_name]: the
    search in the names written so far, which reads names whose own end may be a
    pointer, only ever yields positions where a name is. *)

From S2P Require Import Prelude DnsNames DnsDecompress.
#[global] Open Scope Z_scope.

(** ** [domain_match] finds the longest common end *)

Fixpoint common (ra rb : list (list Z)) : nat :=
  match ra, rb with
  | x :: ra, y :: rb => if decide (lower x = lower y) then S (common ra rb) else O
  | _, _ => O
  end.

(** The number of labels that two names share at their ends. *)
Definition match_len (a b : list (list Z)) : nat := common (rev a) (rev b).

Definition label_sizes (a : list (list Z)) : list Z := zlen <$> a.

Lemma byte_at_mid p c q i : i = zlen p -> byte_at (p ++ [c] ++ q) i = Some c.
Proof. apply byte_at_here. Qed.

Lemma collect_loop_spec a : forall fuel pre x ns, Forall label_ok a -> ns + zlen a <= 128 -> (length a < fuel)%nat ->
  collect_loop fuel (pre ++ wire a ++ x) (zlen pre) ns = Some (label_sizes a, zlen pre + zlen (labs a)).
Proof.
  induction a as [|l a IH]; intros [|fuel] pre x ns Ha Hn Hf; simpl in Hf; try lia; cbn [collect_loop].
  - rewrite wire_nil, byte_at_mid by done. simpl. rewrite Z.add_0_r. done.
  - apply Forall_cons_1 in Ha as [Hl Ha]. rewrite zlen_cons in Hn. pose proof (zlen_nonneg a). rewrite wire_cons. unfold lab at 1 2.
    rewrite <- app_assoc. change (pre ++ (zlen l :: l) ++ wire a ++ x) with (pre ++ [zlen l] ++ (l ++ wire a ++ x)). rewrite byte_at_mid by done.
    unfold label_ok in Hl. destruct (Z.eqb_spec (zlen l) 0); [lia|]. rewrite (proj2 (Z.ltb_lt ns 128)) by lia.
    replace (pre ++ [zlen l] ++ l ++ wire a ++ x) with ((pre ++ lab l) ++ wire a ++ x) by (unfold lab; by rewrite <- app_assoc).
    replace (zlen pre + (zlen l + 1)) with (zlen (pre ++ lab l)) by (rewrite zlen_app, zlen_lab; lia).
    rewrite IH by (done || lia). simpl. do 2 f_equal. rewrite zlen_labs_cons, zlen_app, zlen_lab. lia.
Qed.

Lemma same_label_spec l : forall l' p q p' q', length l' = length l ->
  same_label (length l) (p ++ l ++ q) (zlen p + zlen l) (p' ++ l' ++ q') (zlen p' + zlen l') = Some (bool_decide (lower l = lower l')).
Proof.
  induction l as [|c l IH] using rev_ind; intros l' p q p' q' Hl.
  { destruct l'; [|done]. done. }
  destruct l' as [|c' l' _] using rev_ind; rewrite !length_app in Hl; simpl in Hl; [lia|]. rewrite length_app, Nat.add_1_r. cbn [same_label].
  rewrite <- !app_assoc, !zlen_app. change (zlen [c]) with 1. change (zlen [c']) with 1.
  assert (forall (p l q : list Z) c, byte_at (p ++ l ++ [c] ++ q) (zlen p + (zlen l + 1) - 1) = Some c) as Hb.
  { intros p0 l0 q0 c0. rewrite (app_assoc p0). apply byte_at_mid. rewrite zlen_app. lia. }
  rewrite !Hb. replace (zlen p + (zlen l + 1) - 1) with (zlen p + zlen l) by lia. replace (zlen p' + (zlen l' + 1) - 1) with (zlen p' + zlen l') by lia.
  assert (lower (l ++ [c]) = lower (l' ++ [c']) <-> lower l = lower l' /\ tolower c = tolower c') as Hiff.
  { unfold lower. rewrite !fmap_app. split; [|by intros [-> Hc]; simpl; rewrite Hc]. intros H. by apply app_inj_2 in H as [-> [= ->]]. }
  destruct (Z.eqb_spec (tolower c) (tolower c')) as [Hc|Hc]; cbn [negb].
  - rewrite IH by lia. f_equal. apply bool_decide_ext. tauto.
  - f_equal. symmetry. apply bool_decide_false. tauto.
Qed.

Lemma match_len_snoc a b l l' : match_len (a ++ [l]) (b ++ [l']) = if decide (lower l = lower l') then S (match_len a b) else O.
Proof. unfold match_len. by rewrite !rev_unit. Qed.

Lemma match_len_nil_r a : match_len a [] = O.
Proof. unfold match_len. simpl. by destruct (rev a). Qed.

Lemma take_snoc {A} (a : list A) l m : take (length (a ++ [l]) - S m) (a ++ [l]) = take (length a - m) a.
Proof. rewrite length_app, Nat.add_1_r. simpl. apply take_app_le. lia. Qed.

Lemma take_all_snoc {A} (a : list A) : take (length a - 0) a = a.
Proof. rewrite Nat.sub_0_r. apply take_ge. done. Qed.

Lemma labs_snoc a l : labs (a ++ [l]) = labs a ++ lab l.
Proof. rewrite labs_app. unfold labs at 2. simpl. by rewrite app_nil_r. Qed.

Lemma size_at a l a2 : byte_at (label_sizes ((a ++ [l]) ++ a2)) (zlen (label_sizes ((a ++ [l]) ++ a2)) - (1 + zlen a2)) = Some (zlen l).
Proof.
  unfold label_sizes. rewrite !fmap_app, <- app_assoc. apply byte_at_mid. rewrite !zlen_app. unfold zlen. rewrite !length_fmap. simpl. lia.
Qed.

Lemma match_loop_spec a1 : forall a2 b1 b2 x y k, zlen b2 = zlen a2 -> k = 1 + zlen a2 ->
  match_loop (length a1 `min` length b1) (wire (a1 ++ a2) ++ x) (label_sizes (a1 ++ a2)) (zlen (labs a1))
    (wire (b1 ++ b2) ++ y) (label_sizes (b1 ++ b2)) (zlen (labs b1)) k =
  Some (k - 1 + Z.of_nat (match_len a1 b1), zlen (labs (take (length a1 - match_len a1 b1) a1)), zlen (labs (take (length b1 - match_len a1 b1) b1))).
Proof.
  induction a1 as [|l a1 IH] using rev_ind; intros a2 b1 b2 x y k Hb Hk; [simpl; rewrite Z.add_0_r, take_all_snoc; done|].
  destruct b1 as [|l' b1 _] using rev_ind; [rewrite Nat.min_0_r, match_len_nil_r, take_all_snoc; simpl; by rewrite Z.add_0_r|].
  rewrite match_len_snoc. replace (length (a1 ++ [l]) `min` length (b1 ++ [l']))%nat with (S (length a1 `min` length b1)) by (rewrite !length_app; simpl; lia).
  cbn [match_loop]. rewrite Hk. rewrite size_at. rewrite <- Hb. rewrite size_at.
  assert (zlen (label_sizes ((a1 ++ [l]) ++ a2)) = zlen a1 + 1 + zlen a2) as Ez by (unfold label_sizes, zlen; rewrite length_fmap, !length_app; simpl; lia).
  destruct (Z.eqb_spec (zlen l) (zlen l')) as [El|El]; cbn [negb].
  2: { rewrite decide_False; [rewrite !take_all_snoc; do 3 f_equal; lia|]. intros E. apply (f_equal length) in E. unfold lower in E. rewrite !length_fmap in E. zl. }
  replace (Z.to_nat (zlen l)) with (length l) by zl. rewrite !labs_snoc, !zlen_app, !zlen_lab.
  assert (forall a l a2 x, wire ((a ++ [l]) ++ a2) ++ x = (labs a ++ [zlen l]) ++ l ++ (wire a2 ++ x)) as Ew.
  { intros a0 l0 a3 x0. rewrite wire_app, labs_snoc. unfold lab. by rewrite <- !app_assoc. }
  rewrite !Ew. replace (zlen (labs a1) + (1 + zlen l)) with (zlen (labs a1 ++ [zlen l]) + zlen l) by (rewrite zlen_app; change (zlen [zlen l]) with 1; lia).
  replace (zlen (labs b1) + (1 + zlen l')) with (zlen (labs b1 ++ [zlen l']) + zlen l') by (rewrite zlen_app; change (zlen [zlen l']) with 1; lia).
  rewrite same_label_spec by zl. destruct (decide (lower l = lower l')) as [E|E].
  - rewrite bool_decide_true by done. rewrite <- !Ew, <- !app_assoc. simpl ([l] ++ a2). simpl ([l'] ++ b2).
    replace (zlen (labs a1 ++ [zlen l]) + zlen l - zlen l - 1) with (zlen (labs a1)) by (rewrite zlen_app; change (zlen [zlen l]) with 1; lia).
    replace (zlen (labs b1 ++ [zlen l']) + zlen l' - zlen l - 1) with (zlen (labs b1)) by (rewrite zlen_app; change (zlen [zlen l']) with 1; lia).
    rewrite IH by (rewrite ?zlen_cons; lia). rewrite !take_snoc. do 3 f_equal. lia.
  - rewrite bool_decide_false by done. assert (forall b l, zlen (labs b ++ [zlen l]) + zlen l = zlen (labs (b ++ [l]))) as El2.
    { intros b0 l0. rewrite labs_snoc, !zlen_app, zlen_lab. change (zlen [zlen l0]) with 1. lia. }
    by rewrite !take_all_snoc, !El2, Z.add_0_r.
Qed.

(** The number of labels that the names share at their ends, and where that end starts in each. *)
Lemma domain_match_spec a b x y : name_ok a -> name_ok b ->
  domain_match (wire a ++ x) (wire b ++ y) =
  Some (Z.of_nat (match_len a b), zlen (labs (take (length a - match_len a b) a)), zlen (labs (take (length b - match_len a b) b))).
Proof.
  intros [Ha Za] [Hb Zb]. unfold DNSNAMEBUFSIZE in *. rewrite zlen_wire in Za, Zb. pose proof (labs_size a Ha). pose proof (labs_size b Hb).
  unfold domain_match, collect_lengths. change (collect_loop 129 (wire a ++ x) 0 0) with (collect_loop 129 ([] ++ wire a ++ x) (zlen (@nil Z)) 0).
  change (collect_loop 129 (wire b ++ y) 0 0) with (collect_loop 129 ([] ++ wire b ++ y) (zlen (@nil Z)) 0).
  rewrite (collect_loop_spec a 129 [] x 0) by (done || unfold zlen in *; lia). rewrite (collect_loop_spec b 129 [] y 0) by (done || unfold zlen in *; lia).
  rewrite !zlen_nil, !Z.add_0_l. replace (Z.to_nat _) with (length a `min` length b)%nat.
  - pose proof (match_loop_spec a [] b [] x y 1 eq_refl eq_refl) as E. rewrite !app_nil_r in E. exact E.
  - unfold label_sizes, zlen. rewrite !length_fmap. destruct (Z.gtb_spec (Z.of_nat (length a)) (Z.of_nat (length b))); lia.
Qed.

(** ** Names up to case *)

#[export] Instance same_name_equivalence : Equivalence same_name.
Proof. unfold same_name. split; [by intros ?|by intros ??|by intros ??? ->]. Qed.

Lemma same_name_app a b a' b' : same_name a a' -> same_name b b' -> same_name (a ++ b) (a' ++ b').
Proof. unfold same_name. rewrite !fmap_app. by intros -> ->. Qed.

Lemma same_name_drop n a b : same_name a b -> same_name (drop n a) (drop n b).
Proof. unfold same_name. rewrite !fmap_drop. by intros ->. Qed.

Lemma same_name_snoc a b l l' : same_name (a ++ [l]) (b ++ [l']) <-> same_name a b /\ lower l = lower l'.
Proof.
  unfold same_name. rewrite !fmap_app. simpl. split; [|by intros [-> ->]]. intros E. apply app_inj_2 in E as [? [= ?]]; done.
Qed.

Lemma same_name_size a b : same_name a b -> zlen (wire a) = zlen (wire b).
Proof.
  rewrite !zlen_wire. revert b. induction a as [|l a IH]; intros [|l' b]; try done. intros [= El E]. rewrite !zlen_labs_cons.
  specialize (IH b E). apply (f_equal length) in El. unfold lower in El. rewrite !length_fmap in El. zl.
Qed.

Lemma same_name_length a b : same_name a b -> length a = length b.
Proof. intros E. apply (f_equal length) in E. by rewrite !length_fmap in E. Qed.

Lemma match_suffix a : forall b, (match_len a b <= length a)%nat /\ (match_len a b <= length b)%nat /\
  same_name (drop (length a - match_len a b) a) (drop (length b - match_len a b) b).
Proof.
  assert (forall (c : list (list Z)), drop (length c - 0) c = []) as Hd by (intros; apply drop_ge; lia).
  induction a as [|l a IH] using rev_ind; intros b; [change (match_len [] b) with O; rewrite !Hd; split_and!; [lia|lia|done]|].
  destruct b as [|l' b _] using rev_ind; [rewrite match_len_nil_r, !Hd; split_and!; [lia|lia|done]|].
  rewrite match_len_snoc, !length_app. simpl. destruct (decide _) as [E|E].
  - destruct (IH b) as (H1 & H2 & H3). split_and!; [lia..|]. rewrite !Nat.add_1_r. cbn [Nat.sub]. rewrite !drop_app_le by lia. by apply same_name_snoc.
  - rewrite !Nat.sub_0_r, !drop_ge by (rewrite length_app; simpl; lia). split_and!; [lia|lia|done].
Qed.

Lemma match_max a : forall b p q, (p <= length a)%nat -> (q <= length b)%nat -> same_name (drop p a) (drop q b) -> (length a - p <= match_len a b)%nat.
Proof.
  induction a as [|l a IH] using rev_ind; intros b p q Hp Hq E; [simpl; lia|]. rewrite length_app in *. simpl in *.
  destruct (decide (p = length a + 1)%nat) as [->|Hne]; [lia|]. rewrite drop_app_le in E by lia.
  destruct b as [|l' b _] using rev_ind; [apply same_name_length in E; rewrite drop_nil, length_app in E; simpl in E; lia|].
  destruct (decide (q = length (b ++ [l']))) as [->|Hne'].
  { rewrite (drop_ge (b ++ [l'])) in E by lia. apply same_name_length in E. rewrite length_app in E. simpl in E. lia. }
  rewrite length_app in *. simpl in *. rewrite drop_app_le in E by lia. apply same_name_snoc in E as [E El]. rewrite match_len_snoc.
  rewrite decide_True by done. specialize (IH b p q ltac:(lia) ltac:(lia) E). lia.
Qed.

(** ** The names written so far *)

(** An item of the list: where a name was put, and the name. *)
Definition entry : Type := Z * list (list Z).
Definition to_cb (es : list entry) : list compel_t := (fun e => mkCompel (fst e) (wire (snd e))) <$> es.

(** Where its labels from the [t]th on would be had it not been compressed. *)
Definition pos_of (e : entry) (t : nat) : Z := fst e + zlen (labs (take t (snd e))).

(** A name is really at a position. *)
Definition at_name (msg : list Z) (off : Z) (n : list (list Z)) : Prop :=
  exists n' h e, encodes msg off h e n' /\ same_name n' n /\ h <= zlen n.

(** A name is the end of an item, at a position below [lim]. *)
Definition listed (es : list entry) (lim : Z) (n : list (list Z)) : Prop :=
  exists e t, e ∈ es /\ (t <= length (snd e))%nat /\ same_name (drop t (snd e)) n /\ pos_of e t < lim.

(** Every end of an item is there, or it is the end of an earlier one. *)
Record entry_ok (msg : list Z) (pre : list entry) (e : entry) : Prop := {
  eo_name : name_ok (snd e);
  eo_index : 0 <= fst e <= zlen msg;
  eo_ends : forall t, (t < length (snd e))%nat -> at_name msg (pos_of e t) (drop t (snd e)) \/ listed pre (fst e) (drop t (snd e))
}.

Definition cb_ok (msg : list Z) (es : list entry) : Prop :=
  forall pre e post, es = pre ++ e :: post -> entry_ok msg pre e.

Lemma labs_take_mono (n : list (list Z)) t t' : (t <= t')%nat -> zlen (labs (take t n)) <= zlen (labs (take t' n)).
Proof.
  intros Ht. rewrite <- (take_drop t (take t' n)), take_take, Nat.min_l by done. rewrite labs_app, zlen_app.
  pose proof (zlen_nonneg (labs (drop t (take t' n)))). lia.
Qed.

Lemma at_name_same msg off n n' : same_name n n' -> at_name msg off n -> at_name msg off n'.
Proof.
  intros E (m & h & e & He & Hs & Hh). exists m, h, e. split_and!; [done|by transitivity n|]. unfold zlen in *. by rewrite <- (same_name_length _ _ E).
Qed.

Lemma at_name_app msg more off n : at_name msg off n -> at_name (msg ++ more) off n.
Proof. intros (m & h & e & He & Hs & Hh). exists m, h, e. split_and!; [by apply encodes_app|done|done]. Qed.

Lemma listed_same es lim n n' : same_name n n' -> listed es lim n -> listed es lim n'.
Proof. intros E (e & t & H1 & H2 & H3 & H4). exists e, t. split_and!; try done. by transitivity n. Qed.

Lemma listed_weaken es es' lim lim' n : listed es lim n -> (forall e, e ∈ es -> e ∈ es') -> lim <= lim' -> listed es' lim' n.
Proof. intros (e & t & H1 & H2 & H3 & H4) Hs Hl. exists e, t. split_and!; [by apply Hs|done|done|lia]. Qed.

Lemma cb_ok_app msg more es : cb_ok msg es -> cb_ok (msg ++ more) es.
Proof.
  intros H pre e post E. destruct (H pre e post E) as [H1 H2 H3]. pose proof (zlen_nonneg more). split; [done|rewrite zlen_app; lia|].
  intros t Ht. destruct (H3 t Ht); [left; by apply at_name_app|by right].
Qed.

Lemma cb_ok_snoc msg es e : cb_ok msg es -> entry_ok msg es e -> cb_ok msg (es ++ [e]).
Proof.
  intros H He pre e' post E. destruct post as [|x post _] using rev_ind.
  - apply app_inj_tail in E as [-> ->]. done.
  - rewrite app_comm_cons, app_assoc in E. apply app_inj_tail in E as [E _]. by apply (H pre e' post).
Qed.

(** ** The search *)

(** A match: its labels are at [coffs], and each of its ends is listed. *)
Definition found (msg : list Z) (es : list entry) (a : list (list Z)) (longest : nat) (lrem coffs : Z) : Prop :=
  (longest <= length a)%nat /\ lrem = zlen (labs (take (length a - longest) a)) /\ 0 <= coffs <= 0x3fff /\
  at_name msg coffs (drop (length a - longest) a) /\
  forall t, (length a - longest <= t < length a)%nat -> listed es (zlen msg) (drop t a).

(** The first longest match is really there. *)
Lemma match_there msg pre e post a longest :
  cb_ok msg (pre ++ e :: post) ->
  (forall e', e' ∈ pre -> (0 < match_len a (snd e'))%nat -> pos_of e' (length (snd e') - match_len a (snd e')) <= 0x3fff -> (match_len a (snd e') <= longest)%nat) ->
  (longest < match_len a (snd e))%nat -> pos_of e (length (snd e) - match_len a (snd e)) <= 0x3fff ->
  found msg (pre ++ e :: post) a (match_len a (snd e)) (zlen (labs (take (length a - match_len a (snd e)) a)))
    (pos_of e (length (snd e) - match_len a (snd e))).
Proof.
  intros Hcb Hpre Hlong Hpos. destruct (Hcb pre e post eq_refl) as [Hn Hi He]. set (m := match_len a (snd e)) in *.
  destruct (match_suffix a (snd e)) as (H1 & H2 & H3). fold m in H1, H2, H3. set (t0 := (length (snd e) - m)%nat) in *.
  pose proof (zlen_nonneg (labs (take t0 (snd e)))) as Hz. split_and!; [done|done|unfold pos_of; lia|done| |].
  - destruct (He t0) as [Hat|Hl]; [lia|apply (at_name_same _ _ (drop t0 (snd e))); [by symmetry|exact Hat]|]. exfalso. destruct Hl as (e0 & t1 & Hin & Ht1 & Hs & Hlt).
    assert (same_name (drop (length a - m) a) (drop t1 (snd e0))) as Hs' by (rewrite H3; by symmetry).
    pose proof (match_max a (snd e0) (length a - m) t1 ltac:(lia) Ht1 Hs') as Hmax.
    pose proof (same_name_length _ _ Hs') as Hlen. rewrite !length_drop in Hlen.
    specialize (Hpre e0 Hin). pose proof (labs_take_mono (snd e0) (length (snd e0) - match_len a (snd e0)) t1 ltac:(lia)).
    unfold pos_of in *. lia.
  - intros t Ht. destruct (He (t - (length a - m) + t0)%nat) as [Hat|Hl]; [lia| |].
    + exists e, (t - (length a - m) + t0)%nat. split_and!.
      * apply elem_of_app. right. by left.
      * lia.
      * apply (same_name_drop (t - (length a - m))) in H3. rewrite !drop_drop in H3.
        replace (length a - m + (t - (length a - m)))%nat with t in H3 by lia. rewrite Nat.add_comm. by symmetry.
      * destruct Hat as (n' & h & e' & Henc & _). apply encodes_bounds in Henc. lia.
    + apply listed_weaken with pre (fst e); [|intros; apply elem_of_app; by left|lia]. eapply listed_same; [|exact Hl].
      apply (same_name_drop (t - (length a - m))) in H3. rewrite !drop_drop in H3.
      replace (length a - m + (t - (length a - m)))%nat with t in H3 by lia. rewrite Nat.add_comm. by symmetry.
Qed.

Lemma search_loop_spec msg a x post : forall pre longest lrem coffs,
  name_ok a -> zlen msg <= UINT16_MAX -> cb_ok msg (pre ++ post) ->
  longest = O \/ found msg (pre ++ post) a longest lrem coffs ->
  (forall e, e ∈ pre -> (0 < match_len a (snd e))%nat -> pos_of e (length (snd e) - match_len a (snd e)) <= 0x3fff -> (match_len a (snd e) <= longest)%nat) ->
  exists longest' lrem' coffs', search_loop (wire a ++ x) (to_cb post) (Z.of_nat longest) lrem coffs = Some (Z.of_nat longest', lrem', coffs') /\
    (longest' = O \/ found msg (pre ++ post) a longest' lrem' coffs').
Proof.
  induction post as [|e post IH]; intros pre longest lrem coffs Ha Hm Hcb Hf Hpre; [by exists longest, lrem, coffs|].
  destruct (Hcb pre e post eq_refl) as [Hn Hi _]. cbn [to_cb fmap list_fmap search_loop s index]. fold (to_cb post).
  pose proof (domain_match_spec a (snd e) x [] Ha Hn) as Ed. rewrite app_nil_r in Ed. rewrite Ed. clear Ed.
  set (m := match_len a (snd e)) in *. fold (pos_of e (length (snd e) - m)).
  assert (0 <= pos_of e (length (snd e) - m) <= UINT16_MAX + 256) as Hpos.
  { unfold pos_of. pose proof (zlen_nonneg (labs (take (length (snd e) - m) (snd e)))). destruct Hn as [_ Hn]. rewrite zlen_wire in Hn. unfold DNSNAMEBUFSIZE in Hn.
    pose proof (labs_take_mono (snd e) (length (snd e) - m) (length (snd e)) ltac:(lia)) as Hle. rewrite (take_ge (snd e) (length (snd e))) in Hle by done. lia. }
  unfold u32. rewrite Z.mod_small by (unfold UINT16_MAX in Hpos; lia). replace (pre ++ e :: post) with ((pre ++ [e]) ++ post) in * by (by rewrite <- app_assoc).
  assert (forall l, (longest <= l)%nat -> ((0 < m)%nat -> pos_of e (length (snd e) - m) <= 0x3fff -> (m <= l)%nat) ->
    forall e', e' ∈ pre ++ [e] -> (0 < match_len a (snd e'))%nat -> pos_of e' (length (snd e') - match_len a (snd e')) <= 0x3fff -> (match_len a (snd e') <= l)%nat) as Hstep.
  { intros l Hl He e' [Hin|Hin]%elem_of_app H1 H2; [specialize (Hpre e' Hin H1 H2); lia|]. apply list_elem_of_singleton in Hin as ->. by apply He. }
  destruct (Z.gtb_spec (Z.of_nat m) (Z.of_nat longest)) as [Hgt|Hle].
  - destruct (Z.leb_spec (pos_of e (length (snd e) - m)) 0x3fff) as [Hle|Hbig].
    + apply IH; try done; [right|apply Hstep; lia]. rewrite <- app_assoc in *. by apply (match_there msg pre e post a longest); [done|done|lia|].
    + apply IH; try done. apply Hstep; lia.
  - apply IH; try done. apply Hstep; lia.
Qed.

(** ** The names of the output *)

Lemma encodes_labs b : forall P Q h e n, Forall label_ok b ->
  encodes (P ++ labs b ++ Q) (zlen P + zlen (labs b)) h e n -> encodes (P ++ labs b ++ Q) (zlen P) h (zlen (labs b) + e) (b ++ n).
Proof.
  induction b as [|l b IH]; intros P Q h e n Hb He; [change (zlen (labs [])) with 0 in *; by rewrite Z.add_0_r in He|].
  apply Forall_cons_1 in Hb as [Hl Hb]. rewrite zlen_labs_cons in *. rewrite labs_cons, <- app_assoc in *. replace (1 + zlen l + zlen (labs b) + e) with (1 + zlen l + (zlen (labs b) + e)) by lia.
  apply (enc_label _ _ l); [done|apply mem_read_mid; [done|by rewrite zlen_lab]|]. rewrite (app_assoc P) in *.
  replace (zlen P + 1 + zlen l) with (zlen (P ++ lab l)) by (rewrite zlen_app, zlen_lab; lia). apply IH; [done|].
  replace (zlen (P ++ lab l) + zlen (labs b)) with (zlen P + (1 + zlen l + zlen (labs b))) by (rewrite zlen_app, zlen_lab; lia). done.
Qed.

Lemma encodes_wire n P Q : Forall label_ok n -> encodes (P ++ wire n ++ Q) (zlen P) 0 (zlen (wire n)) n.
Proof.
  intros Hn. rewrite zlen_wire. unfold wire. rewrite <- app_assoc.
  pose proof (encodes_labs n P ([0] ++ Q) 0 1 [] Hn) as H. rewrite app_nil_r in H. apply H, enc_end.
  rewrite app_assoc. apply byte_at_mid. by rewrite zlen_app.
Qed.

(** A name whose end is a pointer to a name that is there. *)
Lemma encodes_pointer msg P b c n : at_name msg c n -> 0 <= c <= 0x3fff -> Forall label_ok b -> (exists Q, P = msg ++ Q) ->
  exists n' h, encodes (P ++ labs b ++ [192 + c / 256; c mod 256]) (zlen P) h (zlen (labs b) + 2) n' /\ same_name n' (b ++ n) /\ h <= zlen n + 1.
Proof.
  intros (n' & h & e & He & Hs & Hh) Hc Hb [Q ->]. exists (b ++ n'), (h + 1). split_and!; [|by apply same_name_app|lia].
  apply encodes_labs; [done|]. apply (enc_ptr _ _ (192 + c / 256) (c mod 256) h e).
  - Z.div_mod_to_equations; lia.
  - rewrite app_assoc. apply byte_at_here. by rewrite !zlen_app.
  - rewrite (app_assoc (msg ++ Q) (labs b)). change [192 + c / 256; c mod 256] with ([192 + c / 256] ++ [c mod 256]). rewrite app_assoc.
    apply byte_at_here. rewrite !zlen_app. change (zlen [192 + c / 256]) with 1. lia.
  - replace ((192 + c / 256 - 192) * 256 + c mod 256) with c by (Z.div_mod_to_equations; lia). rewrite <- app_assoc. by apply encodes_app.
Qed.

(** ** [compress_name] *)

Lemma rhnlen_loop_spec a : forall fuel pre x, Forall label_ok a -> (length a < fuel)%nat ->
  rhnlen_loop fuel (pre ++ wire a ++ x) (zlen pre) = Some (zlen pre + zlen (wire a)).
Proof.
  induction a as [|l a IH]; intros [|fuel] pre x Ha Hf; simpl in Hf; try lia; cbn [rhnlen_loop].
  - rewrite wire_nil, byte_at_mid by done. done.
  - apply Forall_cons_1 in Ha as [Hl Ha]. rewrite wire_cons, <- app_assoc. unfold lab at 1 2.
    change (pre ++ (zlen l :: l) ++ wire a ++ x) with (pre ++ [zlen l] ++ (l ++ wire a ++ x)). rewrite byte_at_mid by done.
    unfold label_ok in Hl. destruct (Z.eqb_spec (zlen l) 0); [lia|].
    replace (pre ++ [zlen l] ++ l ++ wire a ++ x) with ((pre ++ lab l) ++ wire a ++ x) by (unfold lab; by rewrite <- app_assoc).
    replace (zlen pre + 1 + zlen l) with (zlen (pre ++ lab l)) by (rewrite zlen_app, zlen_lab; lia).
    rewrite IH by (done || lia). f_equal. rewrite !zlen_app, zlen_lab. lia.
Qed.

Lemma rhnlen_spec a x : Forall label_ok a -> rhnlen (wire a ++ x) = Some (zlen (wire a)).
Proof.
  intros Ha. apply (rhnlen_loop_spec a (S (length (wire a ++ x))) [] x Ha).
  pose proof (labs_size a Ha). pose proof (zlen_wire a) as E. rewrite length_app. unfold zlen in *. lia.
Qed.

Lemma write_name out n : zlen n <= zlen out -> exists out', mem_write 0 n out = Some out' /\ slice 0 (zlen n) out' = n.
Proof.
  intros H. destruct (mem_write_Some 0 n out) as (out' & E & _); [lia|lia|]. exists out'. split; [done|]. by apply slice_write_same in E.
Qed.

Lemma write_pointer out bs b1 b2 : zlen bs + 2 <= zlen out -> exists o1 o2 o3,
  mem_write 0 bs out = Some o1 /\ mem_write (zlen bs) [b1] o1 = Some o2 /\ mem_write (zlen bs + 1) [b2] o2 = Some o3 /\
  slice 0 (zlen bs + 2) o3 = bs ++ [b1; b2].
Proof.
  intros H. pose proof (zlen_nonneg bs). destruct (mem_write_Some 0 bs out) as (o1 & E1 & L1); [lia|lia|].
  destruct (mem_write_Some (zlen bs) [b1] o1) as (o2 & E2 & L2); [lia|change (zlen [b1]) with 1; lia|].
  destruct (mem_write_Some (zlen bs + 1) [b2] o2) as (o3 & E3 & L3); [lia|change (zlen [b2]) with 1; lia|].
  exists o1, o2, o3. split_and!; try done. replace (zlen bs + 2) with (zlen bs + (1 + 1)) by lia. rewrite !slice_add by lia. rewrite !Z.add_0_l.
  rewrite (slice_write_disj 0 _ _ _ _ _ E3), (slice_write_disj 0 _ _ _ _ _ E2) by (change (zlen [b1]) with 1; lia). rewrite (slice_write_same _ _ _ _ E1).
  rewrite (slice_write_disj (zlen bs) _ _ _ _ _ E3) by lia. change 1 with (zlen [b1]) at 1. rewrite (slice_write_same _ _ _ _ E2).
  change 1 with (zlen [b2]) at 2. by rewrite (slice_write_same _ _ _ _ E3).
Qed.

(** What [compress_name] leaves: the name is at the end of the message, and the list is right again. *)
Definition written (msg : list Z) (a : list (list Z)) (bs : list Z) (es : list entry) : Prop :=
  1 <= zlen bs <= zlen (wire a) /\ bytes_ok bs /\ cb_ok (msg ++ bs) es /\
  exists n' h, encodes (msg ++ bs) (zlen msg) h (zlen bs) n' /\ same_name n' a /\ h <= zlen a + 1.

Lemma name_bytes a : Forall label_ok a -> Forall bytes_ok a -> bytes_ok (labs a) /\ bytes_ok (wire a).
Proof.
  intros Hl Hb. assert (bytes_ok (labs a)) as H.
  { induction Hl as [|l a H _ IH]; [constructor|]. apply Forall_cons_1 in Hb as [Hb1 Hb]. rewrite labs_cons. apply bytes_ok_app. split; [|by apply IH].
    constructor; [unfold byte_ok, label_ok in *; lia|done]. }
  split; [done|]. apply bytes_ok_app. split; [done|]. constructor; [unfold byte_ok; lia|constructor].
Qed.

Lemma label_ok_split a n : Forall label_ok a -> Forall label_ok (take n a) /\ Forall label_ok (drop n a).
Proof. split; [by apply Forall_take|by apply Forall_drop]. Qed.

Lemma written_whole msg es a : name_ok a -> Forall bytes_ok a -> cb_ok msg es -> written msg a (wire a) (es ++ [(zlen msg, a)]).
Proof.
  intros Ha Hb Hcb. pose proof Ha as [Hl _]. pose proof (wire_pos a). pose proof (zlen_nonneg msg). split_and!; try lia.
  - by apply name_bytes.
  - apply cb_ok_snoc; [by apply cb_ok_app|]. split; [done|simpl; rewrite zlen_app; lia|]. intros t Ht. cbn [fst snd] in *. left.
    exists (drop t a), 0, (zlen (wire (drop t a))). split_and!; [|done|apply zlen_nonneg].
    replace (msg ++ wire a) with ((msg ++ labs (take t a)) ++ wire (drop t a) ++ []).
    + replace (pos_of (zlen msg, a) t) with (zlen (msg ++ labs (take t a))) by (rewrite zlen_app; done). apply encodes_wire. by apply label_ok_split.
    + rewrite app_nil_r, <- app_assoc, <- wire_app. by rewrite take_drop.
  - exists a, 0. split_and!; [|done|pose proof (zlen_nonneg a); lia]. rewrite <- (app_nil_r (wire a)) at 1. by apply encodes_wire.
Qed.

Lemma labs_take_drop (a : list (list Z)) t u : (t <= u)%nat -> labs (take u a) = labs (take t a) ++ labs (take (u - t) (drop t a)).
Proof.
  intros H. rewrite <- labs_app. f_equal. rewrite <- (take_drop t (take u a)) at 1. rewrite take_take, Nat.min_l by done. f_equal. apply skipn_firstn_comm.
Qed.

Lemma written_found msg es a longest lrem coffs : name_ok a -> Forall bytes_ok a -> cb_ok msg es ->
  found msg es a longest lrem coffs -> (0 < longest)%nat ->
  written msg a (labs (take (length a - longest) a) ++ [192 + coffs / 256; coffs mod 256])
    (if lrem =? 0 then es else es ++ [(zlen msg, a)]).
Proof.
  intros Ha Hb Hcb (Hlen & -> & Hc & Hat & Hend) Hpos. pose proof Ha as [Hl _]. pose proof (zlen_nonneg msg). set (u := (length a - longest)%nat) in *.
  destruct (label_ok_split a u Hl) as [Hlt Hld]. pose proof (zlen_nonneg (labs (take u a))).
  assert (zlen (labs (take u a) ++ [192 + coffs / 256; coffs mod 256]) = zlen (labs (take u a)) + 2) as Ez by (rewrite zlen_app; done).
  split_and!.
  - lia.
  - assert (zlen (wire a) = zlen (labs (take u a)) + zlen (wire (drop u a))) as Ew by (by rewrite <- zlen_app, <- wire_app, take_drop).
    pose proof (labs_size (drop u a) Hld) as Hs. rewrite (zlen_wire (drop u a)) in Ew. unfold zlen at 1 in Hs. rewrite length_drop in Hs. lia.
  - apply bytes_ok_app. split; [apply name_bytes; [done|by apply Forall_take]|]. repeat constructor; unfold byte_ok; Z.div_mod_to_equations; lia.
  - destruct (Z.eqb_spec (zlen (labs (take u a))) 0); [by apply cb_ok_app|]. apply cb_ok_snoc; [by apply cb_ok_app|].
    split; [done|simpl; rewrite zlen_app; lia|]. intros t Ht. cbn [fst snd] in *. destruct (decide (t < u)%nat) as [Htu|Htu]; [left|right; apply Hend; lia].
    rewrite (labs_take_drop a t u) by lia. rewrite <- (app_assoc (labs (take t a))), (app_assoc msg).
    destruct (encodes_pointer msg (msg ++ labs (take t a)) (take (u - t) (drop t a)) coffs (drop u a) Hat Hc) as (n' & h & He & Hs & Hh); [by apply Forall_take, Forall_drop|by eexists|].
    exists n', h, (zlen (labs (take (u - t) (drop t a))) + 2). split_and!.
    + replace (pos_of (zlen msg, a) t) with (zlen (msg ++ labs (take t a))) by (rewrite zlen_app; done). exact He.
    + rewrite Hs. replace (drop u a) with (drop (u - t) (drop t a)) by (rewrite drop_drop; f_equal; lia). by rewrite take_drop.
    + unfold zlen in *. rewrite length_drop in *. lia.
  - destruct (encodes_pointer msg msg (take u a) coffs (drop u a) Hat Hc Hlt) as (n' & h & He & Hs & Hh); [exists []; by rewrite app_nil_r|].
    exists n', h. split_and!; [by rewrite Ez|by rewrite take_drop in Hs|]. unfold zlen in *. rewrite length_drop in *. lia.
Qed.

Lemma compress_name_spec msg es a x out room :
  name_ok a -> Forall bytes_ok a -> zlen msg <= UINT16_MAX -> cb_ok msg es -> zlen (wire a) <= zlen out ->
  exists rl out' cb', compress_name (wire a ++ x) out (zlen msg) (to_cb es) room = Some (rl, out', cb') /\
    (room = false /\ rl = 0 /\ cb' = [] \/ exists es', cb' = to_cb es' /\ zlen (slice 0 rl out') = rl /\ written msg a (slice 0 rl out') es').
Proof.
  intros Ha Hb Hm Hcb Ho. pose proof Ha as [Hl Hz]. unfold compress_name. rewrite rhnlen_spec by done. rewrite (proj2 (Z.leb_le _ _)) by done.
  assert (mem_read 0 (zlen (wire a)) (wire a ++ x) = Some (wire a)) as Eall by (by apply (mem_read_mid [] (wire a) x)).
  destruct (search_loop_spec msg a x es [] 0 0 0 Ha Hm Hcb) as (longest & lrem & coffs & Es0 & Hf); [by left|intros e He; by apply not_elem_of_nil in He|].
  change (Z.of_nat 0) with 0 in Es0. rewrite Es0.
  destruct (Z.gtb_spec (Z.of_nat longest) 0) as [Hpos|Hpos].
  - destruct Hf as [->|Hf]; [lia|]. pose proof (written_found msg es a longest lrem coffs Ha Hb Hcb Hf ltac:(lia)) as Hw.
    destruct Hf as (Hlen & Elrem & Hc & _). destruct (pointer_bytes coffs Hc) as [-> ->]. set (u := (length a - longest)%nat) in *.
    pose proof Hw as ([_ Hle] & _). rewrite zlen_app in Hle. change (zlen [192 + coffs / 256; coffs mod 256]) with 2 in Hle. rewrite <- Elrem in Hle.
    rewrite (proj2 (Z.leb_le _ _)) by lia. pose proof (wire_app (take u a) (drop u a)) as Ew. rewrite take_drop in Ew.
    assert (mem_read 0 lrem (wire a ++ x) = Some (labs (take u a))) as ->.
    { rewrite Ew, <- app_assoc. by apply (mem_read_mid [] (labs (take u a))). }
    destruct (write_pointer out (labs (take u a)) (192 + coffs / 256) (coffs mod 256)) as (o1 & o2 & o3 & -> & E2 & E3 & Es); [lia|].
    rewrite <- Elrem in E2, E3, Es. rewrite E2, E3. rewrite <- Es in Hw. assert (zlen (slice 0 (lrem + 2) o3) = lrem + 2) as Ez by (by rewrite Es, zlen_app, <- Elrem).
    destruct (Z.eqb_spec lrem 0) as [E0|E0]; cbn [negb]; [|destruct room; [rewrite Eall|by exists 0, o3, []; split; [done|left]]].
    + exists (lrem + 2), o3, (to_cb es). split; [done|]. right. by exists es.
    + exists (lrem + 2), o3, (to_cb es ++ [mkCompel (zlen msg) (wire a)]). split; [done|]. right. exists (es ++ [(zlen msg, a)]). split_and!; [|done|done].
      unfold to_cb. by rewrite fmap_app.
  - rewrite Eall. destruct (write_name out (wire a) Ho) as (out' & -> & Es). destruct room; [|by exists 0, out', []; split; [done|left]].
    exists (zlen (wire a)), out', (to_cb es ++ [mkCompel (zlen msg) (wire a)]). split; [done|]. right. exists (es ++ [(zlen msg, a)]). rewrite Es.
    split_and!; [unfold to_cb; by rewrite fmap_app|done|by apply written_whole].
Qed.

(** ** Messages under construction *)

(** The message, the list [cb] and the names put: position, bytes taken and name.
    The header and everything between the names are arbitrary bytes. *)
Inductive composed : list Z -> list compel_t -> list (Z * Z * list (list Z)) -> Prop :=
| co_start msg : bytes_ok msg -> composed msg [] []
| co_bytes msg cb ps bs : composed msg cb ps -> bytes_ok bs -> composed (msg ++ bs) cb ps
| co_name msg cb ps a x out room rl out' cb' :
    composed msg cb ps -> name_ok a -> Forall bytes_ok a -> zlen msg <= UINT16_MAX -> zlen (wire a) <= zlen out ->
    compress_name (wire a ++ x) out (zlen msg) cb room = Some (rl, out', cb') -> rl <> 0 ->
    composed (msg ++ slice 0 rl out') cb' (ps ++ [(zlen msg, rl, a)]).

Lemma composed_ok msg cb ps : composed msg cb ps ->
  bytes_ok msg /\ (exists es, cb = to_cb es /\ cb_ok msg es) /\
  Forall (fun '(off, rl, a) => name_ok a /\ exists n' h, encodes msg off h rl n' /\ same_name n' a /\ h <= zlen a + 1) ps.
Proof.
  assert (forall msg more ps, Forall (fun '(off, rl, a) => name_ok a /\ exists n' h, encodes msg off h rl n' /\ same_name n' a /\ h <= zlen a + 1) ps ->
    Forall (fun '(off, rl, a) => name_ok a /\ exists n' h, encodes (msg ++ more) off h rl n' /\ same_name n' a /\ h <= zlen a + 1) ps) as Hmore.
  { intros msg0 more ps0. apply Forall_impl. intros [[off rl] a] (Ha & n' & h & He & ?). split; [done|]. exists n', h. by split; [apply encodes_app|]. }
  induction 1 as [msg Hm|msg cb ps bs _ (Hm & (es & -> & Hcb) & Hps) Hbs|msg cb ps a x out room rl out' cb' _ (Hm & (es & -> & Hcb) & Hps) Ha Hb Hlen Ho E Hrl].
  - split_and!; [done| |constructor]. exists []. split; [done|]. intros [|] ? ? Eq; done.
  - split_and!; [by apply bytes_ok_app| |by apply Hmore]. exists es. split; [done|by apply cb_ok_app].
  - destruct (compress_name_spec msg es a x out room Ha Hb Hlen Hcb Ho) as (rl0 & out0 & cb0 & E0 & H0). rewrite E in E0. injection E0 as <- <- <-.
    destruct H0 as [(_ & -> & _)|(es' & -> & Ez & _ & Hbs & Hcb' & n' & h & He & Hs & Hh)]; [done|].
    split_and!; [by apply bytes_ok_app|by exists es'|]. apply Forall_app. split; [by apply Hmore|]. constructor; [|constructor].
    split; [done|]. exists n', h. rewrite Ez in He. done.
Qed.

(** C4. What [compress_name] writes is read back. In a message made of arbitrary bytes
    and of names written with [compress_name] in any order, every name written so far
    is decompressed at its position, whatever follows in the message, to the same name up
    to case, and the source moves past exactly the bytes written; and a further name is
    written safely, without failing an assertion, into at most the bytes that it takes
    uncompressed: the result is 0 only when there is no memory for the list. *)
Theorem compress_roundtrip msg cb ps more sz tgt :
  composed msg cb ps -> bytes_ok more -> DNSNAMEBUFSIZE <= zlen tgt ->
  (forall off rl a, (off, rl, a) ∈ ps -> rl <= sz ->
     exists n', same_name n' a /\
       decompress_name (msg ++ more) off sz tgt = Some (RC_OK (off + rl) (sz - rl) (wire n' ++ drop (length (wire n')) tgt) (zlen (wire a)))) /\
  (forall a x out room, name_ok a -> Forall bytes_ok a -> zlen msg <= UINT16_MAX -> zlen (wire a) <= zlen out ->
     exists rl out' cb', compress_name (wire a ++ x) out (zlen msg) cb room = Some (rl, out', cb') /\
       0 <= rl <= zlen (wire a) /\ (rl = 0 -> room = false)).
Proof.
  intros Hc Hmore Ht. destruct (composed_ok msg cb ps Hc) as (Hm & (es & -> & Hcb) & Hps). split.
  - intros off rl a Hin Hsz. rewrite list.Forall_forall in Hps. pose proof (Hps _ Hin) as Hp. cbn beta iota in Hp. destruct Hp as ([Hl Hz] & n' & h & He & Hs & Hh). exists n'. split; [done|].
    rewrite <- (same_name_size _ _ Hs). unfold DNSNAMEBUFSIZE in *. pose proof (labs_size a Hl) as H2. rewrite zlen_wire in Hz.
    apply decompress_ok with h; [by apply bytes_ok_app|done|by apply encodes_app|lia| |done].
    unfold DNSNAMEBUFSIZE. rewrite (same_name_size _ _ Hs), zlen_wire. lia.
  - intros a x out room Ha Hb Hlen Ho. destruct (compress_name_spec msg es a x out room Ha Hb Hlen Hcb Ho) as (rl & out' & cb' & E & H).
    exists rl, out', cb'. split; [done|]. destruct H as [(-> & -> & _)|(es' & _ & Ez & H12 & _)]; [pose proof (wire_pos a); lia|]. rewrite Ez in *. lia.
Qed.

(** [www.a], then four bytes, then [b.A], whose end is put as a pointer to the first. *)
Definition name1 : list (list Z) := [[119; 119; 119]; [97]].
Definition name2 : list (list Z) := [[98]; [65]].
Definition sample_header : list Z := replicate 12 0.

Lemma name1_ok : name_ok name1 /\ Forall bytes_ok name1.
Proof. split; [split; [repeat constructor; vm_compute; discriminate|vm_compute; discriminate]|]. repeat constructor; unfold byte_ok; lia. Qed.

Lemma name2_ok : name_ok name2 /\ Forall bytes_ok name2.
Proof. split; [split; [repeat constructor; vm_compute; discriminate|vm_compute; discriminate]|]. repeat constructor; unfold byte_ok; lia. Qed.

Definition sample_out : list Z := replicate 256 7.
Definition sample_answer : list Z := sample_header ++ [3; 119; 119; 119; 1; 97; 0] ++ [0; 1; 0; 1] ++ [1; 98; 192; 16].

Lemma sample_composed : exists cb, composed sample_answer cb [(12, 7, name1); (23, 4, name2)].
Proof.
  destruct name1_ok as [H1 B1], name2_ok as [H2 B2].
  assert (composed sample_header [] []) as C0 by (apply co_start; repeat constructor; unfold byte_ok; lia).
  destruct (compress_name (wire name1) sample_out 12 [] true) as [[[rl1 o1] cb1]|] eqn:E1; [|vm_compute in E1; discriminate].
  assert (E1' := E1). vm_compute in E1'. injection E1' as <- Eo1 Ecb1.
  pose proof (co_name sample_header [] [] name1 [] sample_out true 7 o1 cb1 C0 H1 B1 ltac:(vm_compute; discriminate) ltac:(vm_compute; discriminate) E1 ltac:(lia)) as C1.
  apply (co_bytes _ _ _ [0; 1; 0; 1]) in C1; [|repeat constructor; unfold byte_ok; lia].
  destruct (compress_name (wire name2) sample_out 23 cb1 true) as [[[rl2 o2] cb2]|] eqn:E2; [|subst cb1; vm_compute in E2; discriminate].
  assert (E2' := E2). rewrite <- Ecb1 in E2'. vm_compute in E2'. injection E2' as <- Eo2 Ecb2.
  replace 23 with (zlen ((sample_header ++ slice 0 7 o1) ++ [0; 1; 0; 1])) in E2 by (rewrite <- Eo1; reflexivity).
  assert (zlen ((sample_header ++ slice 0 7 o1) ++ [0; 1; 0; 1]) = 23) as Ez by (rewrite <- Eo1; reflexivity).
  pose proof (co_name _ cb1 _ name2 [] sample_out true 4 o2 cb2 C1 H2 B2 ltac:(rewrite Ez; vm_compute; discriminate) ltac:(vm_compute; discriminate) E2 ltac:(lia)) as C2.
  exists cb2. rewrite Ez in C2. assert (((sample_header ++ slice 0 7 o1) ++ [0; 1; 0; 1]) ++ slice 0 4 o2 = sample_answer) as <- by (rewrite <- Eo1, <- Eo2; reflexivity). exact C2.
Qed.

Lemma compress_roundtrip_witness : exists n', same_name n' name2 /\
  decompress_name (sample_answer ++ [9]) 23 5 sample_out = Some (RC_OK 27 1 (wire n' ++ drop (length (wire n')) sample_out) 5).
Proof.
  destruct sample_composed as (cb & C).
  exact (proj1 (compress_roundtrip sample_answer cb _ [9] 5 sample_out C
    ltac:(repeat constructor; unfold byte_ok; lia) ltac:(vm_compute; discriminate)) 23 4 name2
    ltac:(right; left) ltac:(lia)).
Defined.
