(* ===== verification/NameText.v ===== *)
(** * pdnsd: domain names as text ([pdnsd/src/helpers.c], [helpers.h])

    [str2rhn] and [parsestr2rhn] read names in dotted notation, from the
    configuration and from address records; [isnormalencdomname], [rhncpy], [skipsegs],
    [rhnsegcnt] walk names in length-byte form ([DnsNames.wire]). Texts are C
    strings: what follows the first zero is not read. *)

From S2P Require Import Prelude DnsNames.
#[global] Open Scope Z_scope.

Definition char_dot : Z := 46.

(** ** Reading *)

(** [for(j=i; str[j] && str[j]!='.'; ++j)]: the buffer and [j]; [None] inside is [return 0]. *)
Fixpoint label_loop (fuel : nat) (str : list Z) (j jlim : Z) (rhn : list Z) : option (option (list Z * Z)) :=
  match fuel with
  | O => None
  | S fuel =>
      let* c := byte_at str j in
      if (c =? 0) || (c =? char_dot) then Some (Some (rhn, j))
      else if j >=? jlim then Some None
      else let* rhn := mem_write (j + 1) [c] rhn in label_loop fuel str (j + 1) jlim rhn
  end.

Definition label_limit (i : Z) : Z :=
  let jlim := i + 63 in if jlim >? DNSNAMEBUFSIZE - 2 then DNSNAMEBUFSIZE - 2 else jlim.

(** The outer loop from [i]: the buffer, [i] and [j] at its end. *)
Fixpoint str_loop (fuel : nat) (str : list Z) (i : Z) (rhn : list Z) : option (option (list Z * Z * Z)) :=
  match fuel with
  | O => None
  | S fuel =>
      let* r := label_loop 65 str i (label_limit i) rhn in
      match r with
      | None => Some None
      | Some (rhn, j) =>
          let* c := byte_at str j in
          if c =? 0 then Some (Some (rhn, i, j))
          else if j <=? i then Some None
          else let* rhn := mem_write i [u8 (j - i)] rhn in str_loop fuel str (j + 1) rhn
      end
  end.

(** The buffer when the result is 1. *)
Definition str2rhn (str rhn : list Z) : option (option (list Z)) :=
  let* c0 := byte_at str 0 in
  let* root := (if c0 =? char_dot then let* c1 := byte_at str 1 in Some (c1 =? 0) else Some false) in
  if (root : bool) then let* rhn := mem_write 0 [0] rhn in Some (Some rhn)
  else let* r := str_loop 257 str 0 rhn in
       match r with
       | None => Some None
       | Some (rhn, i, j) =>
           let* rhn := mem_write i [0] rhn in
           if (j >? i) || (i =? 0) then Some None else Some (Some rhn)
       end.

(** ** [parsestr2rhn] *)

Inductive parse_result := Parsed (rhn : list Z) | Element_too_long | Empty_element | Empty_name.

(** [j<len && str[j]] *)
Definition more_text (str : list Z) (len j : Z) : option bool :=
  if j <? len then let* c := byte_at str j in Some (negb (c =? 0)) else Some false.

Fixpoint parse_label_loop (fuel : nat) (str : list Z) (len j jlim : Z) (rhn : list Z) : option (option (list Z * Z)) :=
  match fuel with
  | O => None
  | S fuel =>
      let* more := more_text str len j in
      if negb more then Some (Some (rhn, j))
      else let* c := byte_at str j in
           if c =? char_dot then Some (Some (rhn, j))
           else if j >=? jlim then Some None
           else let* rhn := mem_write (j + 1) [c] rhn in parse_label_loop fuel str len (j + 1) jlim rhn
  end.

Fixpoint parse_loop (fuel : nat) (str : list Z) (len i : Z) (rhn : list Z) : option (list Z * Z + parse_result) :=
  match fuel with
  | O => None
  | S fuel =>
      let* r := parse_label_loop 65 str len i (label_limit i) rhn in
      match r with
      | None => Some (inr Element_too_long)
      | Some (rhn, j) =>
          let* more := more_text str len j in
          if j <=? i then if more then Some (inr Empty_element) else Some (inl (rhn, i))
          else let* rhn := mem_write i [u8 (j - i)] rhn in
               if more then parse_loop fuel str len (j + 1) rhn else Some (inl (rhn, j + 1))
      end
  end.

Definition parsestr2rhn (str : list Z) (len : Z) (rhn : list Z) : option parse_result :=
  let* root :=
    (if len >? 0 then
       let* c0 := byte_at str 0 in
       if c0 =? char_dot then if len =? 1 then Some true else let* c1 := byte_at str 1 in Some (c1 =? 0)
       else Some false
     else Some false) in
  if (root : bool) then let* rhn := mem_write 0 [0] rhn in Some (Parsed rhn)
  else let* r := parse_loop 257 str len 0 rhn in
       match r with
       | inr e => Some e
       | inl (rhn, i) =>
           let* rhn := mem_write i [0] rhn in
           if i =? 0 then Some Empty_name else Some (Parsed rhn)
       end.

(** ** Walking names *)

Fixpoint isnormal_loop (fuel : nat) (rhn : list Z) (maxlen i : Z) : option bool :=
  match fuel with
  | O => None
  | S fuel =>
      if i >=? maxlen then Some false
      else let* lb := byte_at rhn i in
           let i := i + 1 in
           if lb =? 0 then Some true
           else if lb >? 0x3f then Some false
           else isnormal_loop fuel rhn maxlen (i + lb)
  end.

Definition isnormalencdomname (rhn : list Z) (maxlen : Z) : option bool :=
  let maxlen := if maxlen >? DNSNAMEBUFSIZE then DNSNAMEBUFSIZE else maxlen in
  isnormal_loop 258 rhn maxlen 0.

Definition rhncpy (dst src : list Z) : option (list Z * Z) :=
  let* len := rhnlen src in
  ASSERT (len <=? DNSNAMEBUFSIZE) ;;
  let* bs := mem_read 0 (if len >? DNSNAMEBUFSIZE then DNSNAMEBUFSIZE else len) src in
  let* dst := mem_write 0 bs dst in
  Some (dst, len).

Fixpoint skipsegs (nm : list Z) (i : Z) (k : nat) : option Z :=
  match k with
  | O => Some i
  | S k => let* lb := byte_at nm i in if lb =? 0 then Some i else skipsegs nm (i + (lb + 1)) k
  end.

Fixpoint segcnt_loop (fuel : nat) (rhn : list Z) (i res : Z) : option Z :=
  match fuel with
  | O => None
  | S fuel => let* lb := byte_at rhn i in if lb =? 0 then Some res else segcnt_loop fuel rhn (i + (lb + 1)) (res + 1)
  end.

Definition rhnsegcnt (rhn : list Z) : option Z := segcnt_loop (S (length rhn)) rhn 0 0.

(** ** Dotted notation *)

Definition dotted (ls : list (list Z)) : list Z := concat ((fun l => l ++ [char_dot]) <$> ls).

(** No character that ends a label of a text. *)
Definition plain (l : list Z) : Prop := Forall (fun c => c <> 0 /\ c <> char_dot) l.

Lemma dotted_cons l ls : dotted (l :: ls) = l ++ char_dot :: dotted ls.
Proof. unfold dotted. simpl. by rewrite <- app_assoc. Qed.

Lemma zlen_dotted ls : zlen (dotted ls) = zlen (labs ls).
Proof.
  induction ls as [|l ls IH]; [done|]. rewrite dotted_cons, zlen_labs_cons, zlen_app, zlen_cons, IH. lia.
Qed.

Lemma split_dot t : 0 ∉ t -> exists l, plain l /\ (t = l \/ exists t', t = l ++ char_dot :: t').
Proof.
  induction t as [|c t IH]; intros Hz; [exists []; split; [constructor|by left]|].
  apply not_elem_of_cons in Hz as [Hc Hz]. destruct (decide (c = char_dot)) as [->|Hne].
  { exists []. split; [constructor|]. right. by exists t. }
  destruct (IH Hz) as (l & Hl & H). exists (c :: l). split; [constructor; [done|done]|]. destruct H as [->|(t' & ->)]; [by left|right; by exists t'].
Qed.

Lemma plain_dot_inj l : forall l' t t', plain l -> plain l' -> l ++ char_dot :: t = l' ++ char_dot :: t' -> l = l' /\ t = t'.
Proof.
  induction l as [|c l IH]; intros [|c' l'] t t' Hl Hl'; simpl.
  - by intros [= ->].
  - intros [= <- _]. apply Forall_cons_1 in Hl' as [[_ []] _]. done.
  - intros [= -> _]. apply Forall_cons_1 in Hl as [[_ []] _]. done.
  - intros [= <- E]. apply Forall_cons_1 in Hl as [_ Hl]. apply Forall_cons_1 in Hl' as [_ Hl']. destruct (IH l' t t' Hl Hl' E) as [-> ->]. done.
Qed.

Lemma plain_no_dot l : plain l -> char_dot ∉ l.
Proof. intros Hl Hin. unfold plain in Hl. rewrite list.Forall_forall in Hl. by destruct (Hl _ Hin). Qed.

(** The texts of names that start with a label and end after it, or go on. *)
Lemma dotted_end l ls : plain l -> l = dotted ls -> l = [] /\ ls = [].
Proof.
  intros Hl E. destruct ls as [|l' ls]; [done|]. destruct (plain_no_dot l Hl). rewrite E, dotted_cons. apply elem_of_app. right. by left.
Qed.

Lemma dotted_more l t ls : plain l -> Forall plain ls -> l ++ char_dot :: t = dotted ls -> exists ls', ls = l :: ls' /\ t = dotted ls'.
Proof.
  intros Hl Hls E. destruct ls as [|l' ls]; [by destruct l|]. rewrite dotted_cons in E. apply Forall_cons_1 in Hls as [Hl' _].
  destruct (plain_dot_inj l l' _ _ Hl Hl' E) as [-> ->]. by exists ls.
Qed.

(** ** [str2rhn] reads exactly the names *)

Lemma label_loop_spec l : forall fuel q c y jlim p rest,
  plain l -> c = 0 \/ c = char_dot -> zlen p = zlen q + 1 -> jlim - zlen q < Z.of_nat fuel -> (0 < fuel)%nat -> jlim - zlen q <= zlen rest ->
  label_loop fuel (q ++ l ++ c :: y) (zlen q) jlim (p ++ rest) =
    Some (if (zlen l =? 0) || (zlen q + zlen l <=? jlim) then Some (p ++ l ++ drop (length l) rest, zlen q + zlen l) else None).
Proof.
  induction l as [|b l IH]; intros fuel q c y jlim p rest Hl Hc Hp Hf Hf0 Hr; (destruct fuel as [|fuel]; [lia|]); cbn [label_loop].
  - simpl app. rewrite byte_at_here by done. destruct ((c =? 0) || (c =? char_dot)) eqn:E; [by rewrite zlen_nil, Z.add_0_r|].
    apply orb_false_iff in E as [E1%Z.eqb_neq E2%Z.eqb_neq]. by destruct Hc.
  - apply Forall_cons_1 in Hl as [[H0 Hd] Hl]. simpl app. rewrite byte_at_here by done.
    rewrite (proj2 (Z.eqb_neq b 0)), (proj2 (Z.eqb_neq b char_dot)) by done. cbn [orb]. rewrite zlen_cons. pose proof (zlen_nonneg l).
    rewrite (proj2 (Z.eqb_neq (1 + zlen l) 0)) by lia. cbn [orb].
    destruct (Z.geb_spec (zlen q) jlim) as [Hge|Hlt]; [by rewrite (proj2 (Z.leb_gt _ _)) by lia|].
    destruct rest as [|r rest]; [rewrite zlen_nil in Hr; lia|]. rewrite zlen_cons in Hr.
    rewrite <- Hp. change (p ++ r :: rest) with (p ++ [r] ++ rest). rewrite (mem_write_mid p [r] [b] rest (zlen p) eq_refl eq_refl).
    replace (q ++ b :: l ++ c :: y) with ((q ++ [b]) ++ l ++ c :: y) by (by rewrite <- app_assoc). rewrite (app_assoc p).
    assert (zlen q + 1 = zlen (q ++ [b])) as Eq by (by rewrite zlen_app). rewrite Hp, Eq. rewrite IH; [|done|done|rewrite !zlen_app; change (zlen [b]) with 1; lia|lia..|].
    + rewrite zlen_app. change (zlen [b]) with 1. rewrite <- !app_assoc. simpl. replace (zlen q + 1 + zlen l) with (zlen q + (1 + zlen l)) by lia.
      destruct (Z.leb_spec (zlen q + (1 + zlen l)) jlim); [by rewrite orb_true_r|]. destruct (Z.eqb_spec (zlen l) 0); [lia|done].
    + lia.
Qed.

Lemma label_limit_spec i : label_limit i <= 254 /\ label_limit i <= i + 63 /\ (label_limit i = 254 \/ label_limit i = i + 63).
Proof. unfold label_limit, DNSNAMEBUFSIZE. destruct (Z.gtb_spec (i + 63) (256 - 2)); lia. Qed.

(** A label with its dot was read and its length put: the buffer. *)
Lemma put_length p r0 l rest : label_ok l ->
  mem_write (zlen p) [u8 (zlen l)] ((p ++ [r0]) ++ l ++ rest) = Some ((p ++ lab l) ++ rest).
Proof.
  intros Hl. unfold label_ok in Hl. unfold u8. rewrite Z.mod_small by lia. rewrite <- app_assoc.
  rewrite (mem_write_mid p [r0] [zlen l]) by done. unfold lab. by rewrite <- app_assoc.
Qed.

(** The names that a text from [i] on stands for, put after [p]. *)
Definition reads (t p rest rhn : list Z) (i : Z) : Prop :=
  exists ls, Forall label_ok ls /\ Forall plain ls /\ zlen p + zlen (labs ls) <= 255 /\ t = dotted ls /\
    rhn = p ++ labs ls ++ drop (length (labs ls)) rest /\ i = zlen p + zlen (labs ls).

Lemma reads_nil p rest rhn i : zlen p <= 255 -> reads [] p rest rhn i <-> rhn = p ++ rest /\ i = zlen p.
Proof.
  intros Hp. split.
  - intros (ls & _ & _ & _ & E & -> & ->). destruct (dotted_end [] ls) as [_ ->]; [constructor|done|]. split; [done|]. change (zlen (labs [])) with 0. lia.
  - intros [-> ->]. exists []. split_and!; [constructor|constructor|change (zlen (labs [])) with 0; lia|done|done|change (zlen (labs [])) with 0; lia].
Qed.

Lemma reads_cut l p rest rhn i : plain l -> reads l p rest rhn i -> l = [].
Proof. intros Hl (ls & _ & _ & _ & E & _). by destruct (dotted_end l ls Hl E) as [-> _]. Qed.

Lemma reads_label l t p rest rhn i : plain l ->
  reads (l ++ char_dot :: t) p rest rhn i <->
  label_ok l /\ zlen p + 1 + zlen l <= 255 /\ reads t (p ++ lab l) (drop (S (length l)) rest) rhn i.
Proof.
  intros Hl. assert (length (lab l) = S (length l)) as Ell by done. split.
  - intros (ls & Hok & Hpl & Hz & E & -> & ->). destruct (dotted_more l t ls Hl Hpl E) as (ls' & -> & ->).
    apply Forall_cons_1 in Hok as [Hok1 Hok]. apply Forall_cons_1 in Hpl as [_ Hpl]. rewrite zlen_labs_cons in Hz. pose proof (zlen_nonneg (labs ls')).
    split_and!; [done|lia|]. exists ls'. rewrite zlen_app, zlen_lab. split_and!; [done|done|lia|done| |rewrite zlen_labs_cons; lia].
    rewrite labs_cons, length_app, Ell, <- drop_drop, <- !app_assoc. done.
  - intros (Hok1 & Hz1 & ls & Hok & Hpl & Hz & -> & -> & ->). rewrite zlen_app, zlen_lab in Hz. exists (l :: ls).
    rewrite zlen_labs_cons, zlen_app, zlen_lab. split_and!; [by constructor|by constructor|lia|by rewrite dotted_cons| |lia].
    rewrite labs_cons, length_app, Ell, <- drop_drop, <- !app_assoc. done.
Qed.

Lemma size_kept (p : list Z) (r0 : Z) (l rest : list Z) : zlen l <= zlen rest -> zlen ((p ++ [r0]) ++ l ++ drop (length l) rest) = zlen p + zlen (r0 :: rest).
Proof. intros H. unfold zlen in *. rewrite !length_app, length_drop. simpl. lia. Qed.

Lemma str_loop_spec fuel : forall q t x p rest,
  0 ∉ t -> zlen p = zlen q -> zlen q <= 255 -> 256 <= zlen p + zlen rest -> 256 - zlen q < Z.of_nat fuel ->
  exists r, str_loop fuel (q ++ t ++ 0 :: x) (zlen q) (p ++ rest) = Some r /\
    (forall rhn i j, r = Some (rhn, i, j) -> 0 <= i <= 255 /\ zlen rhn = zlen p + zlen rest) /\
    (forall rhn i, (exists j, r = Some (rhn, i, j) /\ j <= i) <-> reads t p rest rhn i).
Proof.
  induction fuel as [|fuel IH]; intros q t x p rest Hz Hp Hq Hr Hf; [lia|]. cbn [str_loop]. pose proof (zlen_nonneg q).
  destruct rest as [|r0 rest]; [rewrite zlen_nil in Hr; lia|]. rewrite zlen_cons in Hr. destruct (label_limit_spec (zlen q)) as (L1 & L2 & L3).
  assert (zlen (p ++ [r0]) = zlen q + 1) as Ep by (rewrite zlen_app; change (zlen [r0]) with 1; lia).
  change (p ++ r0 :: rest) with (p ++ [r0] ++ rest). rewrite (app_assoc p). destruct (split_dot t Hz) as (l & Hl & [->|(t' & ->)]); pose proof (zlen_nonneg l).
  - rewrite (label_loop_spec l 65 q 0 x (label_limit (zlen q)) (p ++ [r0]) rest Hl) by (auto || lia).
    destruct ((zlen l =? 0) || _) eqn:Eok.
    + replace (byte_at _ (zlen q + zlen l)) with (Some 0) by (symmetry; rewrite (app_assoc q); apply byte_at_here; by rewrite zlen_app).
      cbn [Z.eqb]. eexists. split; [done|]. split.
      * intros rhn i j [= <- <- <-]. split; [lia|]. apply size_kept. lia.
      * intros rhn i. split.
        -- intros (j & [= <- <- <-] & Hle). destruct l; [|rewrite zlen_cons in *; pose proof (zlen_nonneg l); lia]. apply reads_nil; [lia|]. by rewrite <- app_assoc.
        -- intros Hrd. pose proof (reads_cut _ _ _ _ _ Hl Hrd) as ->. apply reads_nil in Hrd as [-> ->]; [|lia]. eexists. split; [|reflexivity].
           rewrite zlen_nil, Z.add_0_r, <- app_assoc, Hp. simpl. by rewrite drop_0.
    + eexists. split; [done|]. split; [done|]. intros rhn i. split; [by intros (? & ? & _)|]. intros Hrd. pose proof (reads_cut _ _ _ _ _ Hl Hrd) as ->. done.
  - rewrite <- (app_assoc l). simpl app. rewrite (label_loop_spec l 65 q char_dot (t' ++ 0 :: x) (label_limit (zlen q)) (p ++ [r0]) rest Hl) by (auto || lia).
    destruct ((zlen l =? 0) || _) eqn:Eok.
    + replace (byte_at _ (zlen q + zlen l)) with (Some char_dot) by (symmetry; rewrite (app_assoc q); apply byte_at_here; by rewrite zlen_app).
      change (char_dot =? 0) with false. cbn iota. destruct (Z.leb_spec (zlen q + zlen l) (zlen q)) as [Hle|Hgt].
      { eexists. split; [done|]. split; [done|]. intros rhn i. split; [by intros (? & ? & _)|]. rewrite reads_label by done. intros ([Hl1 _] & _). lia. }
      assert (label_ok l) as Hok by (unfold label_ok; lia). replace (zlen q + zlen l - zlen q) with (zlen l) by lia. replace (mem_write (zlen q)) with (mem_write (zlen p)) by (by rewrite Hp).
      rewrite put_length by done. destruct (IH (q ++ l ++ [char_dot]) t' x (p ++ lab l) (drop (length l) rest)) as (r & Er & Hsz & Hr').
      * intros Hin. apply Hz. apply elem_of_app. right. by right.
      * rewrite !zlen_app, zlen_lab. change (zlen [char_dot]) with 1. lia.
      * rewrite !zlen_app. change (zlen [char_dot]) with 1. lia.
      * rewrite zlen_app, zlen_lab. unfold zlen at 3. rewrite length_drop. unfold zlen in *. lia.
      * rewrite !zlen_app. change (zlen [char_dot]) with 1. lia.
      * replace ((q ++ l ++ [char_dot]) ++ t' ++ 0 :: x) with (q ++ l ++ char_dot :: t' ++ 0 :: x) in Er by (by rewrite <- !app_assoc).
        replace (zlen (q ++ l ++ [char_dot])) with (zlen q + zlen l + 1) in Er by (rewrite !zlen_app; change (zlen [char_dot]) with 1; lia).
        exists r. split; [exact Er|]. split.
        -- intros rhn i j E. destruct (Hsz _ _ _ E) as [H1 H2]. split; [done|]. rewrite H2, zlen_app, zlen_lab. unfold zlen at 3. rewrite length_drop. unfold zlen in *. simpl. lia.
        -- intros rhn i. rewrite Hr', reads_label by done. split; [|by intros (_ & _ & H')]. intros H'. split_and!; [done|lia|exact H'].
    + eexists. split; [done|]. split; [done|]. intros rhn i. split; [by intros (? & ? & _)|]. rewrite reads_label by done. intros ([Hl1 Hl2] & Hz1 & _). lia.
Qed.

(** The zero that ends the name. *)
Lemma put_end ls rest : zlen (labs ls) < zlen rest ->
  mem_write (zlen (labs ls)) [0] (labs ls ++ drop (length (labs ls)) rest) = Some (wire ls ++ drop (length (wire ls)) rest).
Proof.
  intros H. destruct (drop (length (labs ls)) rest) as [|r rest'] eqn:E.
  { apply (f_equal length) in E. rewrite length_drop in E. simpl in E. unfold zlen in H. lia. }
  unfold wire. rewrite length_app, <- drop_drop, E. change (drop (length [0]) (r :: rest')) with rest'.
  change (r :: rest') with ([r] ++ rest'). rewrite (mem_write_mid (labs ls) [r] [0]) by done. by rewrite <- !app_assoc.
Qed.

(** The names that a whole text stands for. *)
Lemma reads_all txt rhn ls : name_ok ls -> Forall plain ls -> txt = dotted ls -> 
  reads txt [] rhn (labs ls ++ drop (length (labs ls)) rhn) (zlen (labs ls)).
Proof.
  intros [Hok Hz'] Hpl Et. rewrite zlen_wire in Hz'. unfold DNSNAMEBUFSIZE in Hz'. exists ls. rewrite zlen_nil. split_and!; try done; lia.
Qed.

Lemma reads_name txt rhn rhn1 i : reads txt [] rhn rhn1 i -> 256 <= zlen rhn ->
  exists ls, name_ok ls /\ Forall plain ls /\ txt = dotted ls /\ i = zlen (labs ls) /\ (i = 0 <-> ls = []) /\
    mem_write i [0] rhn1 = Some (wire ls ++ drop (length (wire ls)) rhn).
Proof.
  intros (ls & Hok & Hpl & Hz & Et & -> & ->) Hr. cbn [app] in *. rewrite zlen_nil, ?Z.add_0_l in *. exists ls. split_and!; try done.
  - split; [done|]. rewrite zlen_wire. unfold DNSNAMEBUFSIZE. lia.
  - split; [|by intros ->]. intros E0. destruct ls; [done|]. pose proof (labs_size _ Hok). rewrite zlen_cons in *. pose proof (zlen_nonneg ls). lia.
  - apply put_end. lia.
Qed.

Lemma str2rhn_spec txt x rhn : 0 ∉ txt -> DNSNAMEBUFSIZE <= zlen rhn ->
  exists r, str2rhn (txt ++ 0 :: x) rhn = Some r /\
    forall rhn', r = Some rhn' <->
      txt = [char_dot] /\ rhn' = 0 :: drop 1 rhn \/
      exists ls, ls <> [] /\ name_ok ls /\ Forall plain ls /\ txt = dotted ls /\ rhn' = wire ls ++ drop (length (wire ls)) rhn.
Proof.
  unfold DNSNAMEBUFSIZE. intros Hz Hr. unfold str2rhn.
  assert (exists c0, byte_at (txt ++ 0 :: x) 0 = Some c0 /\
    (if c0 =? char_dot then let* c1 := byte_at (txt ++ 0 :: x) 1 in Some (c1 =? 0) else Some false) = Some (bool_decide (txt = [char_dot]))) as (c0 & -> & ->).
  { destruct txt as [|c txt]; [by exists 0|]. exists c. split; [done|]. apply not_elem_of_cons in Hz as [_ Hz]. destruct (Z.eqb_spec c char_dot) as [->|Hne].
    - destruct txt as [|d txt]; [done|]. apply not_elem_of_cons in Hz as [Hd _]. change (byte_at _ 1) with (Some d). rewrite bool_decide_false by done. by destruct (Z.eqb_spec d 0).
    - rewrite bool_decide_false; [done|]. by intros [= -> _]. }
  case_bool_decide as E.
  { destruct rhn as [|r0 rhn]; [rewrite zlen_nil in Hr; lia|]. rewrite (mem_write_mid [] [r0] [0] rhn 0 eq_refl eq_refl : mem_write 0 [0] (r0 :: rhn) = _). eexists. split; [done|].
    intros rhn'. split; [intros [= <-]; by left|]. intros [[_ ->]|(ls & Hne & [Hok _] & Hpl & Et & _)]; [done|]. exfalso.
    destruct ls as [|l ls]; [done|]. apply Forall_cons_1 in Hok as [Hl _]. rewrite Et, dotted_cons in E. unfold label_ok in Hl. destruct l as [|c [|]]; [rewrite zlen_nil in Hl; lia|done|done]. }
  destruct (str_loop_spec 257 [] txt x [] rhn Hz eq_refl) as (r & Er & Hsz & Hrd); rewrite ?zlen_nil; try lia.
  change (str_loop 257 (txt ++ 0 :: x) 0 rhn = Some r) in Er. rewrite Er.
  pose proof (fun ls => reads_all txt rhn ls) as Hreads.
  destruct r as [[[rhn1 i] j]|].
  - destruct (Hsz _ _ _ eq_refl) as [Hi Hs]. rewrite zlen_nil in Hs. destruct (mem_write_Some i [0] rhn1) as (rhn2 & Ew & _); [lia|change (zlen [0]) with 1; lia|]. rewrite Ew.
    exists (if (j >? i) || (i =? 0) then None else Some rhn2). split; [by case_match|]. intros rhn'. split.
    + destruct (Z.gtb_spec j i) as [|Hle]; [done|]. destruct (Z.eqb_spec i 0) as [|Hi0]; [done|]. cbn [orb]. intros [= <-]. right.
      destruct (reads_name txt rhn rhn1 i) as (ls & Hn & Hpl & Et & _ & Hi' & Ew'); [apply Hrd; by exists j|lia|].
      rewrite Ew' in Ew. injection Ew as <-. exists ls. split_and!; try done. by intros ->%Hi'.
    + intros [[-> _]|(ls & Hne & Hn & Hpl & Et & ->)]; [done|]. destruct (proj2 (Hrd _ _) (Hreads ls Hn Hpl Et)) as (j' & [= -> -> ->] & Hle).
      pose proof Hn as [Hok Hz']. rewrite zlen_wire in Hz'. unfold DNSNAMEBUFSIZE in Hz'. rewrite put_end in Ew by lia.
      injection Ew as <-. destruct (Z.gtb_spec j' (zlen (labs ls))); [lia|]. destruct (Z.eqb_spec (zlen (labs ls)) 0) as [E0|]; [|done].
      destruct ls; [done|]. pose proof (labs_size _ Hok). rewrite zlen_cons in *. pose proof (zlen_nonneg ls). lia.
  - eexists. split; [done|]. intros rhn'. split; [done|]. intros [[-> _]|(ls & Hne & Hn & Hpl & Et & ->)]; [done|].
    by destruct (proj2 (Hrd _ _) (Hreads ls Hn Hpl Et)) as (j' & ? & _).
Qed.

(** C33. [str2rhn] reads exactly the domain names in dotted notation: whatever the text,
    it ends, reads only the text and writes only the first 256 bytes of the buffer; it
    succeeds exactly for a single dot, the root, and for labels of 1 to 63
    characters, each followed by a dot, that fit in 256 bytes; and then the buffer
    starts with the name in length-byte form. *)
Theorem str2rhn_exact txt x rhn : 0 ∉ txt -> DNSNAMEBUFSIZE <= zlen rhn ->
  exists r, str2rhn (txt ++ 0 :: x) rhn = Some r /\
    forall rhn', r = Some rhn' <->
      txt = [char_dot] /\ rhn' = 0 :: drop 1 rhn \/
      exists ls, ls <> [] /\ name_ok ls /\ Forall plain ls /\ txt = dotted ls /\ rhn' = wire ls ++ drop (length (wire ls)) rhn.
Proof. exact (str2rhn_spec txt x rhn). Qed.

Definition sample_text : list Z := [119; 119; 119; 46; 97; 46].

Lemma str2rhn_exact_witness :
  exists r, str2rhn (sample_text ++ [0]) (replicate 256 7) = Some r /\ r = Some ([3; 119; 119; 119; 1; 97; 0] ++ replicate 249 7) /\
    exists ls, name_ok ls /\ sample_text = dotted ls.
Proof.
  destruct (str2rhn_exact sample_text [] (replicate 256 7)) as (r & Er & Hr).
  - intros H. repeat (apply elem_of_cons in H as [H|H]; [discriminate|]). by apply not_elem_of_nil in H.
  - vm_compute. discriminate.
  - exists r. split; [exact Er|].
    assert (r = Some ([3; 119; 119; 119; 1; 97; 0] ++ replicate 249 7)) as E by (vm_compute in Er; injection Er as <-; reflexivity).
    split; [exact E|]. apply Hr in E as [[E _]|(ls & _ & Hn & _ & E & _)]; [discriminate E|]. exists ls. done.
Defined.

(** ** [parsestr2rhn] reads the same names, with or without the last dot *)

(** What of [str] the function looks at: up to a zero or [len] characters. *)
Definition visible (str : list Z) (len : Z) (txt : list Z) : Prop :=
  (0 ∉ txt) /\ exists y, str = txt ++ y /\ (zlen txt = len \/ zlen txt < len /\ exists y', y = 0 :: y').

Lemma more_text_spec str len q t : visible str len (q ++ t) -> more_text str len (zlen q) = Some (negb (bool_decide (t = []))).
Proof.
  intros (Hz & y & -> & Hv). rewrite zlen_app in Hv. unfold more_text. rewrite <- app_assoc. destruct t as [|c t].
  - rewrite zlen_nil in Hv. destruct Hv as [Hv|[Hv (y' & ->)]]; [by rewrite (proj2 (Z.ltb_ge _ _)) by lia|].
    rewrite (proj2 (Z.ltb_lt _ _)) by lia. simpl app. by rewrite byte_at_here by done.
  - rewrite zlen_cons in Hv. pose proof (zlen_nonneg t). rewrite (proj2 (Z.ltb_lt _ _)) by lia. simpl app. rewrite byte_at_here by done.
    destruct (Z.eqb_spec c 0) as [->|]; [|done]. destruct Hz. apply elem_of_app. right. by left.
Qed.

Lemma parse_label_spec str len l : forall fuel q t jlim p rest,
  visible str len (q ++ l ++ t) -> plain l -> t = [] \/ (exists t', t = char_dot :: t') -> zlen p = zlen q + 1 ->
  jlim - zlen q < Z.of_nat fuel -> (0 < fuel)%nat -> jlim - zlen q <= zlen rest ->
  parse_label_loop fuel str len (zlen q) jlim (p ++ rest) =
    Some (if (zlen l =? 0) || (zlen q + zlen l <=? jlim) then Some (p ++ l ++ drop (length l) rest, zlen q + zlen l) else None).
Proof.
  induction l as [|b l IH]; intros fuel q t jlim p rest Hv Hl Ht Hp Hf Hf0 Hr; (destruct fuel as [|fuel]; [lia|]); cbn [parse_label_loop];
    rewrite (more_text_spec _ _ _ _ Hv); pose proof Hv as (_ & y & Es & _).
  - destruct Ht as [->|(t' & ->)]; [simpl; by rewrite Z.add_0_r|]. rewrite Es. simpl app. cbn [bool_decide negb]. rewrite bool_decide_false by done.
    rewrite <- app_assoc. simpl app. rewrite byte_at_here by done. simpl. by rewrite Z.add_0_r.
  - rewrite bool_decide_false by done. cbn [negb]. apply Forall_cons_1 in Hl as [[H0 Hd] Hl].
    assert (byte_at str (zlen q) = Some b) as -> by (rewrite Es, <- app_assoc; simpl app; by apply byte_at_here).
    rewrite (proj2 (Z.eqb_neq b char_dot)) by done. rewrite zlen_cons. pose proof (zlen_nonneg l).
    rewrite (proj2 (Z.eqb_neq (1 + zlen l) 0)) by lia. cbn [orb].
    destruct (Z.geb_spec (zlen q) jlim) as [Hge|Hlt]; [by rewrite (proj2 (Z.leb_gt _ _)) by lia|].
    destruct rest as [|r rest]; [rewrite zlen_nil in Hr; lia|]. rewrite zlen_cons in Hr.
    rewrite <- Hp. change (p ++ r :: rest) with (p ++ [r] ++ rest). rewrite (mem_write_mid p [r] [b] rest (zlen p) eq_refl eq_refl). rewrite (app_assoc p).
    assert (zlen q + 1 = zlen (q ++ [b])) as Eq by (by rewrite zlen_app). rewrite Hp, Eq. rewrite (IH _ _ t); [|by rewrite <- app_assoc|done|done|rewrite !zlen_app; change (zlen [b]) with 1; lia|lia..|].
    + rewrite zlen_app. change (zlen [b]) with 1. rewrite <- !app_assoc. simpl. replace (zlen q + 1 + zlen l) with (zlen q + (1 + zlen l)) by lia.
      destruct (Z.leb_spec (zlen q + (1 + zlen l)) jlim); [by rewrite orb_true_r|]. destruct (Z.eqb_spec (zlen l) 0); [lia|done].
    + lia.
Qed.

(** The names that a text from [i] on stands for when its last dot may be missing. *)
Definition reads_open (t p rest rhn : list Z) (i : Z) : Prop :=
  reads t p rest rhn i \/ t <> [] /\ reads (t ++ [char_dot]) p rest rhn i.

Lemma reads_last l p rest rhn i : plain l -> l <> [] ->
  reads_open l p rest rhn i <-> label_ok l /\ zlen p + 1 + zlen l <= 255 /\ rhn = (p ++ lab l) ++ drop (S (length l)) rest /\ i = zlen p + 1 + zlen l.
Proof.
  intros Hl Hne. unfold reads_open. split.
  - intros [H|[_ H]]; [by apply reads_cut in H|]. apply reads_label in H as (H1 & H2 & H3); [|done].
    apply reads_nil in H3 as [-> ->]; rewrite zlen_app, zlen_lab; [|lia]. split_and!; try done; lia.
  - intros (H1 & H2 & -> & ->). right. split; [done|]. apply reads_label; [done|]. split_and!; [done|done|].
    apply reads_nil; rewrite zlen_app, zlen_lab; [lia|]. split; [done|lia].
Qed.

Lemma reads_open_label l t p rest rhn i : plain l ->
  reads_open (l ++ char_dot :: t) p rest rhn i <->
  label_ok l /\ zlen p + 1 + zlen l <= 255 /\ reads_open t (p ++ lab l) (drop (S (length l)) rest) rhn i.
Proof.
  intros Hl. unfold reads_open. rewrite <- app_assoc. simpl app. rewrite !reads_label by done. destruct t as [|c t].
  - split; [intros [(H1 & H2 & H3)|[_ (H1 & H2 & H3)]]|intros (H1 & H2 & [H3|[[] _]]); [by left|done]].
    + split_and!; [done|done|by left].
    + apply (reads_label [] [] _ _ _ _ (Forall_nil_2 _)) in H3 as ([H3 _] & _). rewrite zlen_nil in H3. lia.
  - split; [intros [(H1 & H2 & H3)|[_ (H1 & H2 & H3)]]|intros (H1 & H2 & [H3|[_ H3]]); [by left|by right; split; [by destruct l|]]].
    + split_and!; [done|done|by left].
    + split_and!; [done|done|by right].
Qed.

Lemma parse_loop_spec str len fuel : forall q t p rest,
  visible str len (q ++ t) -> zlen p = zlen q -> zlen q <= 255 -> 256 <= zlen p + zlen rest -> 256 - zlen q < Z.of_nat fuel ->
  exists r, parse_loop fuel str len (zlen q) (p ++ rest) = Some r /\
    (forall rhn i, r = inl (rhn, i) <-> reads_open t p rest rhn i) /\ forall rhn, r <> inr (Parsed rhn).
Proof.
  induction fuel as [|fuel IH]; intros q t p rest Hv Hp Hq Hr Hf; [lia|]. cbn [parse_loop]. pose proof (zlen_nonneg q).
  destruct rest as [|r0 rest]; [rewrite zlen_nil in Hr; lia|]. rewrite zlen_cons in Hr. destruct (label_limit_spec (zlen q)) as (L1 & L2 & L3).
  assert (zlen (p ++ [r0]) = zlen q + 1) as Ep by (rewrite zlen_app; change (zlen [r0]) with 1; lia).
  assert (0 ∉ t) as Hz by (destruct Hv as [Hz _]; intros Hin; apply Hz, elem_of_app; by right).
  change (p ++ r0 :: rest) with (p ++ [r0] ++ rest). rewrite (app_assoc p).
  assert (forall l, (p ++ [r0]) ++ l ++ drop (length l) rest = p ++ r0 :: l ++ drop (length l) rest) as Ea by (intros; by rewrite <- app_assoc).
  destruct (split_dot t Hz) as (l & Hl & Ht). pose proof (zlen_nonneg l).
  assert (exists t0, t = l ++ t0 /\ (t0 = [] \/ exists t', t0 = char_dot :: t')) as (t0 & -> & Ht0).
  { destruct Ht as [->|(t' & ->)]; [exists []; rewrite app_nil_r; split; [done|by left]|by eexists; split; [|right; eexists]]. }
  clear Ht. rewrite (parse_label_spec str len l 65 q t0 _ (p ++ [r0]) rest Hv Hl Ht0) by lia.
  destruct ((zlen l =? 0) || _) eqn:Eok.
  2: { eexists. split; [done|]. split; [|done]. intros rhn i. split; [done|]. intros Hrd. exfalso. assert (label_ok l /\ zlen p + 1 + zlen l <= 255) as [[? ?] ?]; [|lia].
       destruct Ht0 as [->|(t' & ->)].
       - rewrite app_nil_r in Hrd. apply reads_last in Hrd; [tauto|done|]. by intros ->.
       - apply reads_open_label in Hrd; [tauto|done]. }
  rewrite (app_assoc q) in Hv. rewrite <- zlen_app. rewrite (more_text_spec _ _ _ _ Hv). rewrite zlen_app.
  destruct (Z.leb_spec (zlen q + zlen l) (zlen q)) as [Hle|Hgt].
  - assert (l = []) as -> by (apply zlen_zero_inv; lia). destruct Ht0 as [->|(t' & ->)].
    + cbn [bool_decide negb]. eexists. split; [done|]. split; [|done]. intros rhn i. unfold reads_open. rewrite app_nil_r, reads_nil by lia. rewrite <- app_assoc. simpl.
      rewrite Hp. split; [intros [= <- <-]; by left|by intros [[-> ->]|[[] _]]].
    + rewrite bool_decide_false by done. eexists. split; [done|]. split; [|done]. intros rhn i. split; [done|]. intros Hrd.
      apply reads_open_label in Hrd as ([Hl1 _] & _); [|done]. rewrite zlen_nil in Hl1. lia.
  - assert (label_ok l) as Hok by (unfold label_ok; lia). replace (zlen q + zlen l - zlen q) with (zlen l) by lia.
    replace (mem_write (zlen q)) with (mem_write (zlen p)) by (by rewrite Hp). rewrite put_length by done. destruct Ht0 as [->|(t' & ->)].
    + rewrite bool_decide_true by done. cbn [negb]. eexists. split; [done|]. split; [|done]. intros rhn i. rewrite app_nil_r, reads_last; [|done|intros ->; rewrite zlen_nil in Hgt; lia]. simpl.
      split; [intros [= <- <-]; split_and!; [done|lia|done|lia]|]. intros (_ & _ & -> & ->). do 2 f_equal. lia.
    + rewrite bool_decide_false by done. cbn [negb]. destruct (IH ((q ++ l) ++ [char_dot]) t' (p ++ lab l) (drop (length l) rest)) as (r & Er & Hr' & Hno).
      * by rewrite <- app_assoc.
      * rewrite !zlen_app, zlen_lab. change (zlen [char_dot]) with 1. lia.
      * rewrite !zlen_app. change (zlen [char_dot]) with 1. lia.
      * rewrite zlen_app, zlen_lab. unfold zlen at 3. rewrite length_drop. unfold zlen in *. lia.
      * rewrite !zlen_app. change (zlen [char_dot]) with 1. lia.
      * rewrite !zlen_app in Er. change (zlen [char_dot]) with 1 in Er. exists r. split; [exact Er|]. split; [|done].
        intros rhn i. rewrite Hr', reads_open_label by done. split; [|by intros (_ & _ & H')]. intros H'. split_and!; [done|lia|exact H'].
Qed.

Lemma root_test str len txt : visible str len txt ->
  (if len >? 0 then
     let* c0 := byte_at str 0 in
     if c0 =? char_dot then if len =? 1 then Some true else let* c1 := byte_at str 1 in Some (c1 =? 0) else Some false
   else Some false) = Some (bool_decide (txt = [char_dot])).
Proof.
  intros (Hz & y & -> & Hv). destruct txt as [|c txt].
  - rewrite zlen_nil in Hv. destruct Hv as [<-|[Hv (y' & ->)]]; [done|]. by rewrite (proj2 (Z.gtb_lt _ _)) by lia.
  - apply not_elem_of_cons in Hz as [Hc Hz]. rewrite zlen_cons in Hv. pose proof (zlen_nonneg txt). rewrite (proj2 (Z.gtb_lt _ _)) by lia.
    change (byte_at ((c :: txt) ++ y) 0) with (Some c). cbv beta iota.
    destruct (Z.eqb_spec c char_dot) as [->|Hne]; [|by rewrite bool_decide_false by (by intros [= -> _])].
    destruct txt as [|d txt].
    + rewrite bool_decide_true by done. rewrite zlen_nil in Hv. destruct (Z.eqb_spec len 1); [done|]. destruct Hv as [Hv|[_ (y' & ->)]]; [lia|done].
    + rewrite zlen_cons in Hv. pose proof (zlen_nonneg txt). destruct (Z.eqb_spec len 1); [lia|]. change (byte_at _ 1) with (Some d).
      apply not_elem_of_cons in Hz as [Hd _]. rewrite bool_decide_false by done. by destruct (Z.eqb_spec d 0).
Qed.

(** [parsestr2rhn] reads exactly the same names, of the first [len] characters of a
    text or up to a zero, and the last dot may be missing: whatever the text, it ends,
    reads at most those characters and writes only the first 256 bytes of the
    buffer, and it succeeds exactly when they are a name. *)
Theorem parsestr2rhn_exact str len txt rhn : visible str len txt -> DNSNAMEBUFSIZE <= zlen rhn ->
  exists r, parsestr2rhn str len rhn = Some r /\
    forall rhn', r = Parsed rhn' <->
      txt = [char_dot] /\ rhn' = 0 :: drop 1 rhn \/
      exists ls, ls <> [] /\ name_ok ls /\ Forall plain ls /\ (txt = dotted ls \/ txt <> [] /\ txt ++ [char_dot] = dotted ls) /\
        rhn' = wire ls ++ drop (length (wire ls)) rhn.
Proof.
  unfold DNSNAMEBUFSIZE. intros Hv Hr. unfold parsestr2rhn. rewrite (root_test _ _ _ Hv). case_bool_decide as E.
  { destruct rhn as [|r0 rhn]; [rewrite zlen_nil in Hr; lia|]. rewrite (mem_write_mid [] [r0] [0] rhn 0 eq_refl eq_refl : mem_write 0 [0] (r0 :: rhn) = _).
    eexists. split; [done|]. intros rhn'. split; [intros [= <-]; by left|]. intros [[_ ->]|(ls & Hne & [Hok _] & Hpl & Et & _)]; [done|]. exfalso.
    destruct ls as [|l ls]; [done|]. apply Forall_cons_1 in Hok as [Hl _]. rewrite E, dotted_cons in Et. unfold label_ok in Hl.
    apply Forall_cons_1 in Hpl as [Hp _]. destruct l as [|c l]; [rewrite zlen_nil in Hl; lia|]. apply Forall_cons_1 in Hp as [[_ Hp] _]. destruct Et as [[= Ec _]|[_ [= Ec _]]]; done. }
  destruct (parse_loop_spec str len 257 [] txt [] rhn Hv eq_refl) as (r & Er & Hrd & Hno); rewrite ?zlen_nil; try lia.
  change (parse_loop 257 str len 0 rhn = Some r) in Er. rewrite Er.
  assert (forall ls, name_ok ls -> Forall plain ls -> (txt = dotted ls \/ txt <> [] /\ txt ++ [char_dot] = dotted ls) ->
    r = inl (labs ls ++ drop (length (labs ls)) rhn, zlen (labs ls))) as Hreads.
  { intros ls Hn Hpl [Et|[Hne Et]]; apply Hrd; [left|right; split; [done|]]; by apply reads_all. }
  destruct r as [[rhn1 i]|e].
  - assert (exists ls, name_ok ls /\ Forall plain ls /\ (txt = dotted ls \/ txt <> [] /\ txt ++ [char_dot] = dotted ls) /\ i = zlen (labs ls) /\ (i = 0 <-> ls = []) /\
      mem_write i [0] rhn1 = Some (wire ls ++ drop (length (wire ls)) rhn)) as (ls & Hn & Hpl & Et & Ei & Hi & Ew).
    { destruct (proj1 (Hrd rhn1 i) eq_refl) as [H|[Hne H]]; apply reads_name in H as (ls & H1 & H2 & H3 & H4 & H5 & H6); try done; exists ls; split_and!; first [done|by left|by right]. }
    rewrite Ew. exists (if i =? 0 then Empty_name else Parsed (wire ls ++ drop (length (wire ls)) rhn)). split; [by case_match|]. intros rhn'. split.
    + destruct (Z.eqb_spec i 0) as [|Hi0]; [done|]. intros [= <-]. right. exists ls. split_and!; try done. by intros ->%Hi.
    + intros [[-> _]|(ls' & Hne & Hn' & Hpl' & Et' & ->)]; [done|]. pose proof (Hreads ls' Hn' Hpl' Et') as [= -> ->].
      destruct Hn' as [Hok' Hz']. rewrite zlen_wire in Hz'. unfold DNSNAMEBUFSIZE in Hz'. rewrite put_end in Ew by lia. injection Ew as ->.
      destruct (Z.eqb_spec (zlen (labs ls')) 0) as [E0|]; [|done]. destruct ls'; [done|].
      pose proof (labs_size _ Hok'). rewrite zlen_cons in *. pose proof (zlen_nonneg ls'). lia.
  - eexists. split; [done|]. intros rhn'. split; [by intros ->; destruct (Hno rhn')|]. intros [[-> _]|(ls & Hne & Hn & Hpl & Et & ->)]; [done|].
    by pose proof (Hreads ls Hn Hpl Et).
Qed.

Lemma parsestr2rhn_exact_witness :
  exists r, parsestr2rhn (sample_text ++ [98]) 5 (replicate 256 7) = Some r /\ r = Parsed ([3; 119; 119; 119; 1; 97; 0] ++ replicate 249 7) /\
    exists ls, name_ok ls /\ [119; 119; 119; 46; 97] ++ [char_dot] = dotted ls.
Proof.
  destruct (parsestr2rhn_exact (sample_text ++ [98]) 5 [119; 119; 119; 46; 97] (replicate 256 7)) as (r & Er & Hr).
  - split; [|exists [46; 98]; split; [reflexivity|left; reflexivity]].
    intros H. repeat (apply elem_of_cons in H as [H|H]; [discriminate|]). by apply not_elem_of_nil in H.
  - vm_compute. discriminate.
  - exists r. split; [exact Er|].
    assert (r = Parsed ([3; 119; 119; 119; 1; 97; 0] ++ replicate 249 7)) as E by (vm_compute in Er; injection Er as <-; reflexivity).
    split; [exact E|]. apply Hr in E as [[E _]|(ls & _ & Hn & _ & [E|[_ E]] & _)]; [discriminate E| |exists ls; done].
    exists [[119; 119; 119]; [97]]. split; [|reflexivity]. split; [repeat constructor; vm_compute; discriminate|vm_compute; discriminate].
Defined.

(** ** Walking names *)

(** The bytes from [i] on are a name. *)
Definition name_at (m : list Z) (i maxlen : Z) : Prop :=
  exists ls, Forall label_ok ls /\ i + zlen (wire ls) <= maxlen /\ slice i (zlen (wire ls)) m = wire ls.

Lemma slice_first m i n b : 0 <= i -> 1 <= n -> byte_at m i = Some b -> slice i n m = b :: slice (i + 1) (n - 1) m.
Proof. intros Hi Hn Eb. replace n with (1 + (n - 1)) at 1 by lia. rewrite slice_add, (slice_one _ _ _ Eb) by lia. done. Qed.

Lemma slice_le off n (m : list Z) : 0 <= n -> zlen (slice off n m) <= n.
Proof. intros. unfold slice, zlen. rewrite length_take. lia. Qed.

Lemma name_at_inv m i lb ls : 0 <= i -> byte_at m i = Some lb -> Forall label_ok ls -> slice i (zlen (wire ls)) m = wire ls ->
  lb = 0 /\ ls = [] \/
  exists l ls', ls = l :: ls' /\ lb = zlen l /\ label_ok l /\ Forall label_ok ls' /\ slice (i + 1 + lb) (zlen (wire ls')) m = wire ls'.
Proof.
  intros Hi Eb Hok E. rewrite (slice_first _ _ _ _ Hi (wire_pos ls) Eb) in E. destruct ls as [|l ls]; [left; rewrite wire_nil in E; by injection E|right].
  exists l, ls. apply Forall_cons_1 in Hok as [Hl Hok]. pose proof (wire_pos ls). pose proof Hl as Hl'. unfold label_ok in Hl'. rewrite zlen_wire_cons, wire_cons in E.
  unfold lab in E. simpl in E. injection E as -> E. split_and!; try done.
  replace (1 + zlen l + zlen (wire ls) - 1) with (zlen l + zlen (wire ls)) in E by lia. rewrite slice_add in E by lia.
  pose proof (f_equal zlen E) as El. rewrite !zlen_app in El.
  pose proof (slice_le (i + 1) (zlen l) m ltac:(lia)). pose proof (slice_le (i + 1 + zlen l) (zlen (wire ls)) m ltac:(lia)).
  apply app_inj_1 in E as [_ E]; [done|]. unfold zlen in *. lia.
Qed.

Lemma isnormal_loop_spec m maxlen : bytes_ok m -> maxlen <= zlen m -> forall fuel i, 0 <= i -> maxlen - i < Z.of_nat fuel -> (0 < fuel)%nat ->
  exists b, isnormal_loop fuel m maxlen i = Some b /\ (b = true <-> name_at m i maxlen).
Proof.
  intros Hm Hlen. induction fuel as [|fuel IH]; intros i Hi Hf Hf0; [lia|]. cbn [isnormal_loop]. destruct (Z.geb_spec i maxlen) as [Hge|Hlt].
  { eexists. split; [done|]. split; [done|]. intros (ls & _ & Hz & _). pose proof (wire_pos ls). lia. }
  destruct (byte_at_Some m i) as (lb & Eb); [lia|]. rewrite Eb. pose proof (byte_at_ok _ _ _ Hm Eb) as Hb. unfold byte_ok in Hb.
  destruct (Z.eqb_spec lb 0) as [->|Hnz].
  { eexists. split; [done|]. split; [|done]. intros _. exists []. rewrite wire_nil. change (zlen [0]) with 1. split_and!; [constructor|lia|]. by apply slice_one. }
  destruct (Z.gtb_spec lb 0x3f) as [Hgt|Hle].
  { eexists. split; [done|]. split; [done|]. intros (ls & Hok & _ & E). destruct (name_at_inv _ _ _ _ Hi Eb Hok E) as [[? _]|(l & ls' & _ & El & Hl & _)]; [done|].
    unfold label_ok in Hl. lia. }
  destruct (decide (maxlen <= i + 1 + lb)) as [Hend|Hmore].
  { destruct fuel as [|fuel]; [lia|]. cbn [isnormal_loop]. destruct (Z.geb_spec (i + 1 + lb) maxlen); [|lia]. eexists. split; [done|]. split; [done|].
    intros (ls & Hok & Hz & E). destruct (name_at_inv _ _ _ _ Hi Eb Hok E) as [[? _]|(l & ls' & -> & -> & _)]; [done|].
    rewrite zlen_wire_cons in Hz. pose proof (wire_pos ls'). lia. }
  destruct (IH (i + 1 + lb)) as (b & -> & Hiff); [lia..|]. exists b. split; [done|]. rewrite Hiff. split.
  - intros (ls & Hok & Hz & E). exists (slice (i + 1) lb m :: ls). assert (zlen (slice (i + 1) lb m) = lb) as El by (apply zlen_slice; lia).
    rewrite zlen_wire_cons, El, wire_cons. split_and!; [constructor; [unfold label_ok; lia|done]|lia|]. pose proof (wire_pos ls).
    rewrite (slice_first _ _ (1 + lb + zlen (wire ls)) _ Hi ltac:(lia) Eb). unfold lab. rewrite El. simpl. f_equal.
    replace (1 + lb + zlen (wire ls) - 1) with (lb + zlen (wire ls)) by lia. by rewrite slice_add, E by lia.
  - intros (ls & Hok & Hz & E). destruct (name_at_inv _ _ _ _ Hi Eb Hok E) as [[? _]|(l & ls' & -> & -> & Hl & Hok' & E')]; [done|].
    exists ls'. rewrite zlen_wire_cons in Hz. split_and!; [done|lia|done].
Qed.

(** [isnormalencdomname] accepts exactly the names, uncompressed and within the size,
    that the data starts with. *)
Lemma isnormalencdomname_exact m maxlen : bytes_ok m -> 0 <= maxlen -> Z.min maxlen DNSNAMEBUFSIZE <= zlen m ->
  exists b, isnormalencdomname m maxlen = Some b /\ (b = true <-> name_at m 0 (Z.min maxlen DNSNAMEBUFSIZE)).
Proof.
  intros Hm Hmax Hlen. unfold isnormalencdomname. unfold DNSNAMEBUFSIZE in *.
  replace (if maxlen >? 256 then 256 else maxlen) with (Z.min maxlen 256) by (destruct (Z.gtb_spec maxlen 256); lia).
  apply isnormal_loop_spec; [done|done|lia|lia|lia].
Qed.

Lemma byte_of_name pre l ls x : byte_at (pre ++ wire (l :: ls) ++ x) (zlen pre) = Some (zlen l).
Proof. rewrite wire_cons. by apply byte_at_here. Qed.

Lemma next_of_name pre l ls (x : list Z) : pre ++ wire (l :: ls) ++ x = (pre ++ lab l) ++ wire ls ++ x /\ zlen pre + (zlen l + 1) = zlen (pre ++ lab l).
Proof. rewrite wire_cons, <- !app_assoc, zlen_app, zlen_lab. split; [done|lia]. Qed.

(** [skipsegs] moves past [k] labels, or stops at the end of the name. *)
Lemma skipsegs_spec k : forall pre ls x, Forall label_ok ls ->
  skipsegs (pre ++ wire ls ++ x) (zlen pre) k = Some (zlen pre + zlen (labs (take k ls))).
Proof.
  induction k as [|k IH]; intros pre ls x Hok; cbn [skipsegs]; [by rewrite Z.add_0_r|]. destruct ls as [|l ls].
  - change (wire [] ++ x) with (0 :: x). rewrite byte_at_here by done. cbn [Z.eqb]. by rewrite Z.add_0_r.
  - apply Forall_cons_1 in Hok as [Hl Hok]. unfold label_ok in Hl. rewrite byte_of_name. destruct (Z.eqb_spec (zlen l) 0); [lia|].
    destruct (next_of_name pre l ls x) as [-> ->]. rewrite IH by done. simpl take. rewrite zlen_labs_cons, zlen_app, zlen_lab. f_equal. lia.
Qed.

Lemma segcnt_loop_spec ls : forall fuel pre x res, Forall label_ok ls -> (length ls < fuel)%nat ->
  segcnt_loop fuel (pre ++ wire ls ++ x) (zlen pre) res = Some (res + zlen ls).
Proof.
  induction ls as [|l ls IH]; intros [|fuel] pre x res Hok Hf; simpl in Hf; try lia; cbn [segcnt_loop].
  - change (wire [] ++ x) with (0 :: x). rewrite byte_at_here by done. cbn [Z.eqb]. by rewrite Z.add_0_r.
  - apply Forall_cons_1 in Hok as [Hl Hok]. unfold label_ok in Hl. rewrite byte_of_name. destruct (Z.eqb_spec (zlen l) 0); [lia|].
    destruct (next_of_name pre l ls x) as [-> ->]. rewrite IH by (done || lia). rewrite zlen_cons. f_equal. lia.
Qed.

(** The number of its labels. *)
Lemma rhnsegcnt_spec ls x : Forall label_ok ls -> rhnsegcnt (wire ls ++ x) = Some (zlen ls).
Proof.
  intros Hok. pose proof (labs_size ls Hok). apply (segcnt_loop_spec ls (S (length (wire ls ++ x))) [] x 0 Hok).
  rewrite length_app. pose proof (zlen_wire ls). unfold zlen in *. lia.
Qed.
