(* ===== verification/NamePrint.v ===== *)
(** * pdnsd: printing domain names ([rhn2str] of [pdnsd/src/helpers.c])

    [rhn2str] prints a name in length-byte form, with escapes, into a buffer of a
    given size, and truncates what does not fit. *)

From S2P Require Import Prelude DnsNames NameText.
#[global] Open Scope Z_scope.

Definition char_backslash : Z := 92.
Definition char_quote : Z := 34.

(** ** The model *)

(** C library, in the "C" locale *)
Definition isgraph (c : Z) : bool := (33 <=? c) && (c <=? 126).

(** What [snprintf(..., "\\%03o", c)] prints of a byte. *)
Definition octal (c : Z) : list Z := [char_backslash; 48 + c / 64; 48 + c / 8 mod 8; 48 + c mod 8].

(** Where the printing of a character stands, after the test of the size that comes
    before its reading: [j], or [goto overflow]. *)
Inductive printed := At (str : list Z) (j : Z) | Overflow (str : list Z).

Definition print_char (c : Z) (str : list Z) (j size : Z) : option printed :=
  if isgraph c then
    if (c =? char_dot) || (c =? char_backslash) || (c =? char_quote) then
      let* str := mem_write j [char_backslash] str in
      let j := j + 1 in
      if j + 2 >=? size then Some (Overflow str)
      else let* str := mem_write j [c] str in Some (At str (j + 1))
    else let* str := mem_write j [c] str in Some (At str (j + 1))
  else
    let rem := size - 1 - j in
    let* str := mem_write j (take (Z.to_nat (rem - 1)) (octal c) ++ [0]) str in
    if 4 >=? rem then let* str := mem_write j [char_dot] str in Some (Overflow str)
    else Some (At str (j + 4)).

(** [for (;lb;--lb)] *)
Fixpoint print_label (lb : nat) (rhn : list Z) (i : Z) (str : list Z) (j size : Z) : option printed :=
  match lb with
  | O => Some (At str j)
  | S lb =>
      if j + 2 >=? size then Some (Overflow str)
      else let* c := byte_at rhn i in
           let* p := print_char c str j size in
           match p with
           | At str j => print_label lb rhn (i + 1) str j size
           | Overflow str => Some (Overflow str)
           end
  end.

Fixpoint print_loop (fuel : nat) (rhn : list Z) (lb i : Z) (str : list Z) (j size : Z) : option printed :=
  match fuel with
  | O => None
  | S fuel =>
      let* p := print_label (Z.to_nat lb) rhn i str j size in
      match p with
      | Overflow str => Some (Overflow str)
      | At str j =>
          let* str := mem_write j [char_dot] str in
          let j := j + 1 in
          let i := i + lb in
          let* lb := byte_at rhn i in
          if lb =? 0 then Some (At str j) else print_loop fuel rhn lb (i + 1) str j size
      end
  end.

(** From [overflow] on. *)
Definition overflow (str : list Z) (size : Z) : option (list Z) :=
  let j := size - 1 in
  let* str := mem_write j [0] str in
  if j >? 0 then
    let j := j - 1 in
    let* str := mem_write j [char_dot] str in
    if j >? 0 then
      let j := j - 1 in
      let* str := mem_write j [char_dot] str in
      if j >? 0 then mem_write (j - 1) [char_dot] str else Some str
    else Some str
  else Some str.

(** The buffer; [None] inside is [NULL]. *)
Definition rhn2str (rhn str : list Z) (size : Z) : option (option (list Z)) :=
  if size =? 0 then Some None
  else
    let* lb := byte_at rhn 0 in
    let* p :=
      (if lb =? 0 then
         if size >=? 2 then let* str := mem_write 0 [char_dot] str in Some (At str 1) else Some (At str 0)
       else print_loop 129 rhn lb 1 str 0 size) in
    match p with
    | At str j => let* str := mem_write j [0] str in Some (Some str)
    | Overflow str => let* str := overflow str size in Some (Some str)
    end.

(** ** What is printed *)

(** A character, and a whole name. *)
Definition esc (c : Z) : list Z :=
  if isgraph c then if (c =? char_dot) || (c =? char_backslash) || (c =? char_quote) then [char_backslash; c] else [c] else octal c.

Definition label_text (l : list Z) : list Z := concat (esc <$> l) ++ [char_dot].

Definition name_text (ls : list (list Z)) : list Z :=
  match ls with [] => [char_dot] | _ => concat (label_text <$> ls) end.

(** Nothing at [size] or after changed. *)
Definition same_tail (size : Z) (m' m : list Z) : Prop := zlen m' = zlen m /\ drop (Z.to_nat size) m' = drop (Z.to_nat size) m.

Lemma same_tail_trans size a b c : same_tail size a b -> same_tail size b c -> same_tail size a c.
Proof. intros [H1 H2] [H3 H4]. split; congruence. Qed.

Lemma write_tail size off bs m m' : mem_write off bs m = Some m' -> off + zlen bs <= size -> same_tail size m' m.
Proof.
  intros E H. pose proof (mem_write_zlen _ _ _ _ E) as (H1 & H2 & H3). split; [done|]. pose proof (zlen_nonneg bs). apply list_eq. intros i. rewrite !lookup_drop.
  rewrite (lookup_mem_write _ _ _ _ _ E). rewrite !(proj2 (Z.ltb_ge _ _)) by lia. done.
Qed.

Lemma write_head n off bs m m' : mem_write off bs m = Some m' -> n <= off -> take (Z.to_nat n) m' = take (Z.to_nat n) m.
Proof.
  intros E H. apply list_eq. intros i. rewrite !lookup_take. case_decide; [|done].
  rewrite (lookup_mem_write _ _ _ _ _ E). by rewrite (proj2 (Z.ltb_lt _ _)) by lia.
Qed.

(** Writing after what the buffer has. *)
Lemma write_after p bs rest : zlen bs <= zlen rest -> mem_write (zlen p) bs (p ++ rest) = Some ((p ++ bs) ++ drop (length bs) rest).
Proof.
  intros H. rewrite <- (take_drop (length bs) rest) at 1. rewrite mem_write_mid; [by rewrite <- app_assoc|done|]. unfold zlen in *. rewrite length_take. lia.
Qed.

(** The result of printing the text [t] after [p] with [k] bytes to spare: all of it,
    or what fits. *)
Definition printed_ok (k size : Z) (p t str0 : list Z) (r : printed) : Prop :=
  match r with
  | At str j => exists rest, str = (p ++ t) ++ rest /\ j = zlen (p ++ t) /\ j + k <= size /\ same_tail size str str0
  | Overflow str => size < zlen (p ++ t) + k /\ same_tail size str str0 /\
      take (Z.to_nat (size - 5)) str = take (Z.to_nat (size - 5)) (p ++ t)
  end.

Lemma overflow_ok k size p t str str0 : size < zlen (p ++ t) + k -> size - 5 <= zlen p -> same_tail size str str0 ->
  take (Z.to_nat (size - 5)) str = take (Z.to_nat (size - 5)) p -> printed_ok k size p t str0 (Overflow str).
Proof. intros H1 H2 H3 H4. split_and!; [done|done|]. rewrite H4. symmetry. apply take_app_le. zl. Qed.

Lemma at_ok k size p t rest str0 : zlen (p ++ t) + k <= size -> same_tail size ((p ++ t) ++ rest) str0 ->
  printed_ok k size p t str0 (At ((p ++ t) ++ rest) (zlen (p ++ t))).
Proof. intros H1 H2. exists rest. done. Qed.

(** A character put after [p], with room for the dot and the zero. *)
Lemma put_char c p rest size : zlen p + 2 < size -> size <= zlen (p ++ rest) ->
  exists str, mem_write (zlen p) [c] (p ++ rest) = Some str /\ str = (p ++ [c]) ++ drop 1 rest /\ same_tail size str (p ++ rest) /\ zlen (p ++ [c]) = zlen p + 1.
Proof.
  intros Hp Hs. rewrite zlen_app in Hs. pose proof (write_after p [c] rest ltac:(change (zlen [c]) with 1; lia)) as E. eexists. split_and!; [exact E|done| |by rewrite zlen_app].
  eapply write_tail; [exact E|]. change (zlen [c]) with 1. lia.
Qed.

Lemma print_char_spec c p rest size : zlen p + 2 < size -> size <= zlen (p ++ rest) ->
  exists r, print_char c (p ++ rest) (zlen p) size = Some r /\ printed_ok 2 size p (esc c) (p ++ rest) r.
Proof.
  intros Hp Hs. unfold print_char, esc. destruct (isgraph c).
  - destruct ((c =? char_dot) || (c =? char_backslash) || (c =? char_quote)).
    + destruct (put_char char_backslash p rest size Hp Hs) as (s1 & E1 & Es1 & T1 & Ep). rewrite E1, <- Ep. destruct (Z.geb_spec (zlen (p ++ [char_backslash]) + 2) size) as [Hov|Hin].
      * eexists. split; [done|]. apply overflow_ok; [rewrite zlen_app; change (zlen [char_backslash; c]) with 2; lia|lia|done|].
        rewrite (write_head _ _ _ _ _ E1) by lia. apply take_app_le. zl.
      * destruct (put_char c (p ++ [char_backslash]) (drop 1 rest) size) as (s2 & E2 & Es2 & T2 & Ep2); [lia|rewrite <- Es1; destruct T1 as [-> _]; done|].
        rewrite Es1, E2, Es2, <- Ep2. rewrite <- (app_assoc p [char_backslash] [c]). eexists. split; [done|]. apply at_ok; [rewrite zlen_app; change (zlen ([char_backslash] ++ [c])) with 2; lia|].
        rewrite (app_assoc p [char_backslash] [c]), <- Es2. rewrite <- Es1 in T2. by eapply same_tail_trans.
    + destruct (put_char c p rest size Hp Hs) as (s1 & E1 & Es1 & T1 & Ep). rewrite E1, <- Ep, Es1. eexists. split; [done|]. apply at_ok; [lia|by rewrite <- Es1].
  - rewrite zlen_app in Hs. pose proof (zlen_nonneg p). set (rem := size - 1 - zlen p).
    assert (zlen (take (Z.to_nat (rem - 1)) (octal c) ++ [0]) = Z.min (rem - 1) 4 + 1) as Ez by (unfold octal, zlen; rewrite length_app, length_take; simpl; lia).
    assert (zlen (octal c) = 4) as Eo by done.
    pose proof (write_after p (take (Z.to_nat (rem - 1)) (octal c) ++ [0]) rest ltac:(lia)) as E. rewrite E. destruct (Z.geb_spec 4 rem) as [Hov|Hin].
    + destruct (mem_write_Some (zlen p) [char_dot] ((p ++ take (Z.to_nat (rem - 1)) (octal c) ++ [0]) ++ drop (length (take (Z.to_nat (rem - 1)) (octal c) ++ [0])) rest)) as (s2 & E2 & _).
      { lia. } { rewrite (mem_write_zlen _ _ _ _ E) at 1 || (destruct (mem_write_zlen _ _ _ _ E) as [-> _]). rewrite zlen_app. change (zlen [char_dot]) with 1. lia. }
      rewrite E2. eexists. split; [done|]. apply overflow_ok; [rewrite zlen_app; lia|lia| |].
      * eapply same_tail_trans; [eapply write_tail; [exact E2|change (zlen [char_dot]) with 1; lia]|eapply write_tail; [exact E|lia]].
      * rewrite (write_head _ _ _ _ _ E2), (write_head _ _ _ _ _ E) by lia. apply take_app_le. zl.
    + assert (take (Z.to_nat (rem - 1)) (octal c) = octal c) as Et by (apply take_ge; unfold zlen in Eo; lia). rewrite Et in *.
      replace (zlen p + 4) with (zlen (p ++ octal c)) by (rewrite zlen_app; lia). rewrite (app_assoc p), <- app_assoc. eexists. split; [done|].
      apply at_ok; [rewrite zlen_app; lia|]. rewrite app_assoc, <- (app_assoc p). eapply write_tail; [exact E|lia].
Qed.

Lemma esc_pos c : 1 <= zlen (esc c).
Proof. unfold esc, octal, zlen. repeat case_match; simpl; lia. Qed.

(** More text after what was printed. *)
Lemma printed_more k size p a b str0 str r : 
  same_tail size str str0 -> printed_ok k size (p ++ a) b str r -> printed_ok k size p (a ++ b) str0 r.
Proof.
  intros Ht. destruct r as [s j|s]; simpl; rewrite (app_assoc p).
  - intros (rest & H1 & H2 & H3 & H4). exists rest. split_and!; try done. by eapply same_tail_trans.
  - intros (H1 & H2 & H3). split_and!; try done. by eapply same_tail_trans.
Qed.

Lemma printed_cut k size p a b str0 str : 2 <= k + zlen b ->
  printed_ok 2 size p a str0 (Overflow str) -> printed_ok k size p (a ++ b) str0 (Overflow str).
Proof.
  intros Hk (H1 & H2 & H3). rewrite zlen_app in H1. split_and!; [rewrite !zlen_app; lia|done|]. rewrite H3, (app_assoc p). symmetry.
  apply take_app_le. unfold zlen in *. rewrite length_app. lia.
Qed.

Definition escs (l : list Z) : list Z := concat (esc <$> l).

Lemma print_label_spec l : forall q y p rest size,
  size <= zlen (p ++ rest) -> (l = [] -> zlen p + 2 <= size) ->
  exists r, print_label (length l) (q ++ l ++ y) (zlen q) (p ++ rest) (zlen p) size = Some r /\ printed_ok 2 size p (escs l) (p ++ rest) r.
Proof.
  induction l as [|c l IH]; intros q y p rest size Hs Hl; cbn [length print_label].
  { eexists. split; [done|]. unfold escs. simpl. exists rest. rewrite app_nil_r. split_and!; [done|done|by apply Hl|done]. }
  change (escs (c :: l)) with (esc c ++ escs l). pose proof (esc_pos c). destruct (Z.geb_spec (zlen p + 2) size) as [Hov|Hin].
  { eexists. split; [done|]. pose proof (zlen_nonneg (escs l)). apply overflow_ok; [rewrite !zlen_app; lia|lia|done|]. apply take_app_le. zl. }
  simpl app. rewrite byte_at_here by done. destruct (print_char_spec c p rest size Hin Hs) as (r & -> & Hr). destruct r as [s j|s].
  - destruct Hr as (rest' & -> & -> & Hj & Ht). replace (q ++ c :: l ++ y) with ((q ++ [c]) ++ l ++ y) by (by rewrite <- app_assoc).
    replace (zlen q + 1) with (zlen (q ++ [c])) by (by rewrite zlen_app). destruct (IH (q ++ [c]) y (p ++ esc c) rest' size) as (r & -> & Hr); [destruct Ht as [-> _]; done|lia|].
    exists r. split; [done|]. by eapply printed_more.
  - eexists. split; [done|]. apply printed_cut; [pose proof (zlen_nonneg (escs l)); lia|done].
Qed.

Lemma label_text_escs l : label_text l = escs l ++ [char_dot].
Proof. done. Qed.

(** A label and its dot. *)
Lemma print_dot l q y p rest size : l <> [] -> size <= zlen (p ++ rest) ->
  exists r, print_label (length l) (q ++ l ++ y) (zlen q) (p ++ rest) (zlen p) size = Some r /\
    match r with
    | At str j => exists str' rest', mem_write j [char_dot] str = Some str' /\ str' = (p ++ label_text l) ++ rest' /\
        j + 1 = zlen (p ++ label_text l) /\ j + 2 <= size /\ same_tail size str' (p ++ rest)
    | Overflow str => forall more, printed_ok 1 size p (label_text l ++ more) (p ++ rest) r
    end.
Proof.
  intros Hl Hs. destruct (print_label_spec l q y p rest size Hs) as (r & E & Hr); [done|]. exists r. split; [done|]. rewrite label_text_escs. destruct r as [s j|s].
  - destruct Hr as (rest' & -> & -> & Hj & Ht). pose proof Ht as [Hz _].
    assert (zlen [char_dot] <= zlen rest') as Hr by (rewrite zlen_app in Hz; change (zlen [char_dot]) with 1; lia).
    pose proof (write_after (p ++ escs l) [char_dot] rest' Hr) as E'. eexists _, _. split; [exact E'|]. split_and!.
    + by rewrite <- !(app_assoc p).
    + rewrite (app_assoc p), (zlen_app (p ++ escs l)). done.
    + done.
    + eapply same_tail_trans; [|exact Ht]. eapply write_tail; [exact E'|change (zlen [char_dot]) with 1; lia].
  - intros more. rewrite <- app_assoc. apply printed_cut; [|done]. rewrite zlen_app. change (zlen [char_dot]) with 1. pose proof (zlen_nonneg more). lia.
Qed.

Lemma print_loop_spec fuel : forall ls l q y p rest size,
  Forall label_ok (l :: ls) -> (length ls < fuel)%nat -> size <= zlen (p ++ rest) ->
  exists r, print_loop fuel (q ++ wire (l :: ls) ++ y) (zlen l) (zlen q + 1) (p ++ rest) (zlen p) size = Some r /\
    printed_ok 1 size p (concat (label_text <$> l :: ls)) (p ++ rest) r.
Proof.
  induction fuel as [|fuel IH]; intros ls l q y p rest size Hok Hf Hs; [lia|]. cbn [print_loop]. apply Forall_cons_1 in Hok as [Hl Hok].
  assert (l <> []) as Hne by (intros ->; unfold label_ok in Hl; rewrite zlen_nil in Hl; lia).
  replace (Z.to_nat (zlen l)) with (length l) by zl.
  assert (q ++ wire (l :: ls) ++ y = (q ++ [zlen l]) ++ l ++ (wire ls ++ y)) as Ew by (rewrite wire_cons; unfold lab; by rewrite <- !app_assoc).
  assert (q ++ wire (l :: ls) ++ y = (q ++ lab l) ++ wire ls ++ y) as Ew' by (rewrite wire_cons; by rewrite <- !app_assoc).
  replace (zlen q + 1) with (zlen (q ++ [zlen l])) by (by rewrite zlen_app). rewrite Ew.
  destruct (print_dot l (q ++ [zlen l]) (wire ls ++ y) p rest size Hne Hs) as (r & -> & Hr). rewrite <- Ew, Ew'.
  replace (zlen (q ++ [zlen l]) + zlen l) with (zlen (q ++ lab l)) by (rewrite !zlen_app, zlen_lab; change (zlen [zlen l]) with 1; lia).
  rewrite fmap_cons. cbn [concat]. destruct r as [s j|s]; [|eexists; split; [done|]; apply Hr].
  destruct Hr as (s' & rest' & -> & -> & Ej & Hj & Ht). rewrite Ej. destruct ls as [|l' ls].
  - rewrite wire_nil. change ([0] ++ y) with (0 :: y). rewrite byte_at_here by done. eexists. split; [done|]. simpl concat. rewrite app_nil_r. apply at_ok; [lia|done].
  - assert (byte_at ((q ++ lab l) ++ wire (l' :: ls) ++ y) (zlen (q ++ lab l)) = Some (zlen l')) as -> by (rewrite wire_cons; by apply byte_at_here).
    pose proof Hok as Hok'. apply Forall_cons_1 in Hok' as [Hl' _]. unfold label_ok in Hl'. destruct (Z.eqb_spec (zlen l') 0); [lia|].
    destruct (IH ls l' (q ++ lab l) y (p ++ label_text l) rest' size Hok) as (r & Er & Hr); [simpl in Hf; lia|destruct Ht as [-> _]; done|].
    exists r. split; [exact Er|]. by eapply printed_more.
Qed.

(** How a text that does not fit ends. *)
Definition dots (size : Z) : list Z := drop (Z.to_nat (4 - size)) [char_dot; char_dot; char_dot; 0].

Lemma write_last (a : list Z) x y c : mem_write (zlen a) [y] ((a ++ [x]) ++ c) = Some (a ++ y :: c).
Proof. rewrite <- app_assoc. exact (mem_write_mid a [x] [y] c (zlen a) eq_refl eq_refl). Qed.

Lemma snoc_cases (a : list Z) : a = [] \/ exists b x, a = b ++ [x] /\ zlen a = zlen b + 1.
Proof. destruct a as [|x b _] using rev_ind; [by left|right]. exists b, x. by rewrite zlen_app. Qed.

Lemma dots_of (a : list Z) n : zlen a = n -> dots n = drop (4 - length a) [char_dot; char_dot; char_dot; 0].
Proof. intros <-. unfold dots. f_equal. zl. Qed.

Lemma overflow_spec P c : P <> [] ->
  exists a b, P = a ++ b /\ zlen b = zlen (dots (zlen P)) /\ overflow (P ++ c) (zlen P) = Some (a ++ dots (zlen P) ++ c).
Proof.
  intros Hne. rewrite (dots_of P _ eq_refl). unfold overflow.
  destruct (snoc_cases P) as [->|(P1 & x1 & -> & E1)]; [done|]. rewrite E1. replace (zlen P1 + 1 - 1) with (zlen P1) by lia. rewrite write_last.
  pose proof (zlen_nonneg P1). destruct (snoc_cases P1) as [->|(P2 & x2 & -> & E2)]; [by exists [], [x1]|].
  rewrite (proj2 (Z.gtb_lt _ _)) by (rewrite E2; pose proof (zlen_nonneg P2); lia). rewrite E2. replace (zlen P2 + 1 - 1) with (zlen P2) by lia. rewrite write_last.
  destruct (snoc_cases P2) as [->|(P3 & x3 & -> & E3)]; [by exists [], [x2; x1]|].
  rewrite (proj2 (Z.gtb_lt _ _)) by (rewrite E3; pose proof (zlen_nonneg P3); lia). rewrite E3. replace (zlen P3 + 1 - 1) with (zlen P3) by lia. rewrite write_last.
  destruct (snoc_cases P3) as [->|(P4 & x4 & -> & E4)]; [by exists [], [x3; x2; x1]|].
  rewrite (proj2 (Z.gtb_lt _ _)) by (rewrite E4; pose proof (zlen_nonneg P4); lia). rewrite E4. replace (zlen P4 + 1 - 1) with (zlen P4) by lia. rewrite write_last.
  exists P4, [x4; x3; x2; x1]. rewrite !length_app. cbn [length]. replace (4 - (length P4 + 1 + 1 + 1 + 1))%nat with O by lia. split_and!; [by rewrite <- !app_assoc|done|done].
Qed.

(** From the end of the printing on. *)
Definition finished (size : Z) (text str str' : list Z) : Prop :=
  same_tail size str' str /\
  if zlen text <? size then take (S (length text)) str' = text ++ [0]
  else take (Z.to_nat (size - 5)) str' = take (Z.to_nat (size - 5)) text /\ exists a, take (Z.to_nat size) str' = a ++ dots size.

Lemma finish_at size text str s j : size <= zlen str -> printed_ok 1 size [] text str (At s j) ->
  exists str', mem_write j [0] s = Some str' /\ finished size text str str'.
Proof.
  intros Hs (rest & -> & -> & Hj & Ht). cbn [app] in *. pose proof Ht as [Hz _]. rewrite zlen_app in Hz.
  assert (zlen [0] <= zlen rest) as Hr by (change (zlen [0]) with 1; lia). pose proof (write_after text [0] rest Hr) as E.
  eexists. split; [exact E|]. split; [eapply same_tail_trans; [eapply write_tail; [exact E|change (zlen [0]) with 1; lia]|done]|].
  rewrite (proj2 (Z.ltb_lt _ _)) by lia. apply take_app_length'. rewrite length_app. simpl. lia.
Qed.

Lemma finish_overflow size text str s : 0 < size <= zlen str -> printed_ok 1 size [] text str (Overflow s) ->
  exists str', overflow s size = Some str' /\ finished size text str str'.
Proof.
  intros Hs (Hj & [Hz Ht] & Hp). cbn [app] in *. assert (zlen (take (Z.to_nat size) s) = size) as El by (unfold zlen in *; rewrite length_take; lia).
  destruct (overflow_spec (take (Z.to_nat size) s) (drop (Z.to_nat size) s)) as (a & b & Ea & Eb & E); [intros E0; rewrite E0 in El; rewrite zlen_nil in El; lia|].
  rewrite El in *. rewrite take_drop in E. eexists. split; [exact E|].
  assert (zlen (a ++ dots size) = size) as El' by (rewrite zlen_app, <- Eb, <- zlen_app, <- Ea; done). split.
  - split; [rewrite app_assoc, zlen_app, El'; unfold zlen in *; rewrite length_drop; lia|]. rewrite <- Ht, app_assoc. apply drop_app_length'. unfold zlen in El'. lia.
  - rewrite (proj2 (Z.ltb_ge _ _)) by lia. split.
    + rewrite <- Hp. assert (size - 5 <= zlen a) as Hle by (rewrite zlen_app in El'; unfold dots in El'; unfold zlen in El'; rewrite length_drop in El'; simpl in El'; unfold zlen; lia).
      rewrite take_app_le by (unfold zlen in Hle; lia).
      transitivity (take (Z.to_nat (size - 5)) (take (Z.to_nat size) s)); [rewrite Ea; symmetry; apply take_app_le; unfold zlen in Hle; lia|].
      rewrite take_take. f_equal. lia.
    + exists a. rewrite app_assoc. apply take_app_length'. unfold zlen in El'. lia.
Qed.

Lemma rhn2str_finished ls x str size : name_ok ls -> 0 < size <= zlen str ->
  exists str', rhn2str (wire ls ++ x) str size = Some (Some str') /\ finished size (name_text ls) str str'.
Proof.
  intros [Hok Hz] Hs. unfold rhn2str. destruct (Z.eqb_spec size 0); [lia|].
  assert (forall p, printed_ok 1 size [] (name_text ls) str p -> exists str',
    match p with At s j => let* s := mem_write j [0] s in Some (Some s) | Overflow s => let* s := overflow s size in Some (Some s) end = Some (Some str') /\
    finished size (name_text ls) str str') as Hend.
  { intros [s j|s] Hp.
    - destruct (finish_at size _ str s j ltac:(lia) Hp) as (str' & -> & Hf). by exists str'.
    - destruct (finish_overflow size _ str s Hs Hp) as (str' & -> & Hf). by exists str'. }
  destruct ls as [|l ls].
  - change (byte_at (wire [] ++ x) 0) with (Some 0). cbn [Z.eqb]. destruct (Z.geb_spec size 2) as [H2|H2].
    + pose proof (write_after [] [char_dot] str) as E. change (zlen [char_dot]) with 1 in E. specialize (E ltac:(lia)). change (zlen []) with 0 in E. simpl app in E. rewrite E.
      apply (Hend (At (char_dot :: drop 1 str) 1)). exists (drop 1 str). split_and!; [done|done|change (zlen (([] : list Z) ++ name_text [])) with 1; lia|].
      eapply write_tail; [exact E|change (zlen [char_dot]) with 1; lia].
    + replace size with 1 in * by lia. pose proof (write_after [] [0] str) as E. change (zlen [0]) with 1 in E. specialize (E ltac:(lia)). change (zlen []) with 0 in E. simpl app in E. rewrite E.
      eexists. split; [done|]. split; [eapply write_tail; [exact E|done]|]. simpl. split; [done|]. exists []. done.
  - assert (byte_at (wire (l :: ls) ++ x) 0 = Some (zlen l)) as -> by (rewrite wire_cons; done).
    pose proof Hok as Hok'. apply Forall_cons_1 in Hok' as [Hl _]. unfold label_ok in Hl. destruct (Z.eqb_spec (zlen l) 0); [lia|].
    destruct (print_loop_spec 129 ls l [] x [] str size Hok) as (r & Er & Hr); [|simpl; lia|].
    + pose proof (labs_size _ Hok) as H2. rewrite zlen_wire in Hz. unfold DNSNAMEBUFSIZE in Hz. rewrite zlen_cons in H2. unfold zlen in *. lia.
    + change (print_loop 129 (wire (l :: ls) ++ x) (zlen l) 1 str 0 size = Some r) in Er. rewrite Er. by apply Hend.
Qed.

(** C34. [rhn2str] prints every name within the size of its buffer: for every name and
    size it ends and writes nothing at [size] or after; a text that fits with its zero is
    printed in full, with the characters that are not printable in octal and dots,
    quotes and backslashes within labels escaped; of a longer one all but the
    last five bytes of the buffer are the start of the text, and the
    buffer ends in three dots and a zero (or the last of these when it is smaller). *)
Theorem rhn2str_exact ls x str size : name_ok ls -> 0 < size <= zlen str ->
  exists str', rhn2str (wire ls ++ x) str size = Some (Some str') /\ same_tail size str' str /\
    if zlen (name_text ls) <? size then take (S (length (name_text ls))) str' = name_text ls ++ [0]
    else take (Z.to_nat (size - 5)) str' = take (Z.to_nat (size - 5)) (name_text ls) /\
         exists a, take (Z.to_nat size) str' = a ++ dots size.
Proof.
  intros Hn Hs. destruct (rhn2str_finished ls x str size Hn Hs) as (str' & E & Hf). exists str'. split; [exact E|exact Hf].
Qed.

Definition name3 : list (list Z) := [[119; 119; 46]; [97; 200]].

Lemma rhn2str_exact_witness :
  exists str', rhn2str (wire name3) (replicate 12 7) 11 = Some (Some str') /\ str' = [119; 119; 92; 46; 46; 97; 46; 46; 46; 46; 0; 7] /\
    same_tail 11 str' (replicate 12 7) /\ take 6 str' = take 6 (name_text name3).
Proof.
  destruct (rhn2str_exact name3 [] (replicate 12 7) 11) as (str' & E & Ht & Hf).
  - split; [repeat constructor; vm_compute; discriminate|vm_compute; discriminate].
  - split; [reflexivity|vm_compute; discriminate].
  - exists str'. rewrite app_nil_r in E. split; [exact E|]. split; [|split; [exact Ht|exact (proj1 Hf)]].
    vm_compute in E. injection E as <-. reflexivity.
Defined.

(** ** What is printed is read back *)

(** Printable characters that are not escaped. *)
Definition printable (l : list Z) : Prop :=
  Forall (fun c => isgraph c = true /\ c <> char_dot /\ c <> char_backslash /\ c <> char_quote) l.

Lemma printable_escs l : printable l -> escs l = l /\ plain l.
Proof.
  induction 1 as [|c l (H1 & H2 & H3 & H4) _ [IH1 IH2]]; [split; [done|constructor]|]. split.
  - change (escs (c :: l)) with (esc c ++ escs l). rewrite IH1. unfold esc. rewrite H1, !(proj2 (Z.eqb_neq _ _)) by done. done.
  - constructor; [|done]. split; [|done]. intros ->. discriminate H1.
Qed.

Lemma printable_text ls : Forall printable ls -> ls <> [] -> name_text ls = dotted ls.
Proof.
  intros Hp Hne. destruct ls as [|l0 ls0]; [done|]. unfold name_text. clear Hne. induction Hp as [|l ls Hl _ IH]; [done|].
  rewrite fmap_cons, dotted_cons. cbn [concat]. rewrite IH, label_text_escs, (proj1 (printable_escs l Hl)), <- app_assoc. done.
Qed.

Lemma dotted_no_zero ls : Forall plain ls -> 0 ∉ dotted ls.
Proof.
  induction 1 as [|l ls Hl _ IH]; [apply not_elem_of_nil|]. rewrite dotted_cons. intros [Hin|[Hin|Hin]%elem_of_cons]%elem_of_app; [|done|done].
  unfold plain in Hl. rewrite list.Forall_forall in Hl. by destruct (Hl _ Hin).
Qed.

(** A name of printable characters other than dots, backslashes and quotes is printed
    by [rhn2str] in a buffer of [DNSNAMEBUFSIZE] bytes as a text that [str2rhn] reads
    back to the same name. *)
Theorem name_text_roundtrip ls x buf rhn :
  name_ok ls -> Forall printable ls -> DNSNAMEBUFSIZE <= zlen buf -> DNSNAMEBUFSIZE <= zlen rhn ->
  exists str', rhn2str (wire ls ++ x) buf DNSNAMEBUFSIZE = Some (Some str') /\
    str2rhn str' rhn = Some (Some (wire ls ++ drop (length (wire ls)) rhn)).
Proof.
  intros Hn Hp Hb Hr. destruct (rhn2str_finished ls x buf DNSNAMEBUFSIZE Hn) as (str' & E & _ & Hf); [unfold DNSNAMEBUFSIZE in *; lia|].
  exists str'. split; [exact E|]. pose proof Hn as [Hok Hz].
  assert (name_text ls = [char_dot] /\ ls = [] \/ name_text ls = dotted ls /\ ls <> []) as Ht by (destruct ls; [by left|right; split; [by apply printable_text|done]]).
  assert (zlen (name_text ls) < DNSNAMEBUFSIZE) as Hlt.
  { destruct Ht as [[-> _]|[-> _]]; [done|]. rewrite zlen_dotted. rewrite zlen_wire in Hz. lia. }
  rewrite (proj2 (Z.ltb_lt _ _) Hlt) in Hf. rewrite <- (take_drop (S (length (name_text ls))) str'), Hf, <- app_assoc. simpl app.
  set (y := drop _ str').
  assert (0 ∉ name_text ls) as Hz0.
  { destruct Ht as [[-> _]|[-> _]]; [by intros [?|?%not_elem_of_nil]%elem_of_cons|]. apply dotted_no_zero. eapply Forall_impl; [|exact Hp]. intros l Hl. by apply printable_escs. }
  destruct (str2rhn_spec (name_text ls) y rhn Hz0 Hr) as (r & -> & Hr'). f_equal. apply Hr'. destruct Ht as [[-> ->]|[-> Hne]]; [by left|right].
  exists ls. split_and!; try done. eapply Forall_impl; [|exact Hp]. intros l Hl. by apply printable_escs.
Qed.

Lemma name_text_roundtrip_witness :
  exists str', rhn2str (wire [[119; 119; 119]; [97]] ++ [9]) (replicate 256 7) DNSNAMEBUFSIZE = Some (Some str') /\
    str2rhn str' (replicate 300 8) = Some (Some ([3; 119; 119; 119; 1; 97; 0] ++ replicate 293 8)).
Proof.
  apply (name_text_roundtrip [[119; 119; 119]; [97]] [9] (replicate 256 7) (replicate 300 8)).
  - split; [repeat constructor; vm_compute; discriminate|vm_compute; discriminate].
  - repeat constructor; vm_compute; discriminate.
  - vm_compute. discriminate.
  - vm_compute. discriminate.
Defined.
