(* ===== verification/DnsHash.v ===== *)
(** * pdnsd: the hash table of the cache ([pdnsd/src/hash.c])

    The table is an array of chains of malloced entries, each with a second, longer
    hash by which its chain is ordered; [ents] is the memory of the entries, by address,
    and [cents] that of the names of the cache records they point to. A position
    ([dns_hash_loc_t]) is a pointer to the pointer where the next entry hangs: a bucket or
    the [next] of an entry. [unsigned long] has [long_bits] bits, 32 or 64. *)

From S2P Require Import Prelude DnsNames.
#[global] Open Scope Z_scope.

Definition HASH_SZ : Z := 10.
Definition HASH_NUM_BUCKETS : nat := 1024.
Definition HASH_BITMASK : Z := 1023.

(** C library, in the "C" locale *)
Definition toupper (c : Z) : Z := if (97 <=? c) && (c <=? 122) then c - 32 else c.

(** ** Comparing names: [rhnicmp] of [helpers.h] *)

Fixpoint icmp_label (lb : nat) (a b : list Z) (i : Z) : option bool :=
  match lb with
  | O => Some true
  | S lb =>
      let* c := byte_at a i in
      let* d := byte_at b i in
      if negb (tolower c =? tolower d) then Some false else icmp_label lb a b (i + 1)
  end.

Fixpoint icmp_loop (fuel : nat) (a b : list Z) (i : Z) : option bool :=
  match fuel with
  | O => None
  | S fuel =>
      let* lb := byte_at a i in
      let* lb' := byte_at b i in
      if negb (lb =? lb') then Some false
      else if lb =? 0 then Some true
      else let* same := icmp_label (Z.to_nat lb) a b (i + 1) in
           if same then icmp_loop fuel a b (i + 1 + lb) else Some false
  end.

Definition rhnicmp (a b : list Z) : option bool := icmp_loop (S (length a)) a b 0.

(** ** The table *)

Record dns_hash_ent := mkEnt { next : option Z; rhash : Z; data : Z }.
Record hash_table := mkHash { hash_buckets : list (option Z); ents : gmap Z dns_hash_ent }.

(** [dns_hash_ent_t **pos] *)
Inductive hash_pos := Bucket (i : nat) | NextOf (he : Z).
Record dns_hash_loc := mkLoc { pos : hash_pos; loc_rhash : Z }.

Definition load (t : hash_table) (hep : hash_pos) : option (option Z) :=
  match hep with
  | Bucket i => hash_buckets t !! i
  | NextOf p => next <$> ents t !! p
  end.

Definition store (t : hash_table) (hep : hash_pos) (o : option Z) : option hash_table :=
  match hep with
  | Bucket i => if decide (i < length (hash_buckets t))%nat then Some (mkHash (<[i := o]> (hash_buckets t)) (ents t)) else None
  | NextOf p => let* he := ents t !! p in Some (mkHash (hash_buckets t) (<[p := mkEnt o (rhash he) (data he)]> (ents t)))
  end.

Definition free_ent (t : hash_table) (p : Z) : option hash_table :=
  let* _ := ents t !! p in Some (mkHash (hash_buckets t) (delete p (ents t))).

Definition mk_dns_hash : hash_table := mkHash (replicate HASH_NUM_BUCKETS None) ∅.

(** The names of the cache records, by their address. *)
Abbreviation cents := (gmap Z (list Z)) (only parsing).

(** [del_cent], as far as the table is concerned: the record is freed. *)
Definition del_cent (d : Z) (cs : cents) : option cents := let* _ := cs !! d in Some (delete d cs).

(** An element of an include/exclude list. *)
Record slist_t := mkSlist { domain : list Z; exact : bool; included : bool }.

(** The inner loop of [free_dns_hash_selected]: is the entry deleted? *)
Fixpoint selected (name : list Z) (sla : list slist_t) : option bool :=
  match sla with
  | [] => Some false
  | sl :: sla =>
      let* (_, nrem, lrem) := domain_match name (domain sl) in
      if (lrem =? 0) && (negb (exact sl) || (nrem =? 0)) then Some (included sl)
      else selected name sla
  end.

Section Hash.

Variable long_bits : Z.

Definition ulong (x : Z) : Z := x mod 2 ^ long_bits.

(** One byte hashed at [i]. *)
Definition hash_step (c i : Z) (sr : Z * Z) : Z * Z :=
  (u32 (fst sr + Z.shiftl c (i mod (HASH_SZ - 5))), ulong (snd sr + Z.shiftl c (i mod (long_bits - 7)))).

(** [do { c=toupper(str[i]); ... ++i; } while(--lb)] *)
Fixpoint hash_label (lb : nat) (str : list Z) (i : Z) (sr : Z * Z) : option (Z * Z) :=
  match lb with
  | O => Some sr
  | S lb => let* c := byte_at str i in hash_label lb str (i + 1) (hash_step (toupper c) i sr)
  end.

Fixpoint hash_loop (fuel : nat) (str : list Z) (i : Z) (sr : Z * Z) : option (Z * Z) :=
  match fuel with
  | O => None
  | S fuel =>
      let* lb := byte_at str i in
      if lb =? 0 then Some sr
      else let* sr := hash_label (Z.to_nat lb) str (i + 1) (hash_step lb i sr) in
           hash_loop fuel str (i + 1 + lb) sr
  end.

(** [s=(s&HASH_BITMASK)+((s&(~HASH_BITMASK))>>HASH_SZ)] *)
Definition fold_hash (s : Z) : Z := u32 (Z.land s HASH_BITMASK + Z.shiftr (Z.land s (4294967295 - HASH_BITMASK)) HASH_SZ).

(** The bucket and [*rhash]. *)
Definition dns_hash (str : list Z) : option (nat * Z) :=
  let* (s, r) := hash_loop (S (length str)) str 0 (0, 0) in
  Some (Z.to_nat (Z.land (fold_hash (fold_hash s)) HASH_BITMASK), r).

(** The loop of [dns_lookup] and [del_dns_hash]: where it stops, and the entry found. *)
Fixpoint lookup_loop (fuel : nat) (t : hash_table) (cs : cents) (key : list Z) (rh : Z) (hep : hash_pos)
    : option (hash_pos * option (Z * dns_hash_ent)) :=
  match fuel with
  | O => None
  | S fuel =>
      let* o := load t hep in
      match o with
      | None => Some (hep, None)
      | Some p =>
          let* he := ents t !! p in
          if rhash he <=? rh then
            let* same := (if rhash he =? rh then let* q := cs !! data he in rhnicmp key q else Some false) in
            if same then Some (hep, Some (p, he)) else lookup_loop fuel t cs key rh (NextOf p)
          else Some (hep, None)
      end
  end.

Definition LOOKUP_FUEL (t : hash_table) : nat := S (size (ents t)).

(** The record, if there, and the location. *)
Definition dns_lookup (t : hash_table) (cs : cents) (key : list Z) : option (option Z * dns_hash_loc) :=
  let* (idx, rh) := dns_hash key in
  let* (hep, found) := lookup_loop (LOOKUP_FUEL t) t cs key rh (Bucket idx) in
  Some ((fun x => data (snd x)) <$> found, mkLoc hep rh).

(** [he]: the address that [malloc] returns. [false] is the result 0. *)
Definition add_dns_hash (t : hash_table) (d : Z) (loc : dns_hash_loc) (he : option Z) : option (hash_table * bool) :=
  match he with
  | None => Some (t, false)
  | Some he =>
      let* o := load t (pos loc) in
      let t := mkHash (hash_buckets t) (<[he := mkEnt o (loc_rhash loc) d]> (ents t)) in
      let* t := store t (pos loc) (Some he) in
      Some (t, true)
  end.

Definition del_dns_hash_ent (t : hash_table) (loc : dns_hash_loc) : option (hash_table * Z) :=
  let* o := load t (pos loc) in
  let* p := o in
  let* he := ents t !! p in
  let* t := store t (pos loc) (next he) in
  let* t := free_ent t p in
  Some (t, data he).

Definition del_dns_hash (t : hash_table) (cs : cents) (key : list Z) : option (hash_table * option Z) :=
  let* (idx, rh) := dns_hash key in
  let* (hep, found) := lookup_loop (LOOKUP_FUEL t) t cs key rh (Bucket idx) in
  match found with
  | Some (p, he) =>
      let* t := store t hep (next he) in
      let* t := free_ent t p in
      Some (t, Some (data he))
  | None => Some (t, None)
  end.

(** [while (he) ...] of [free_dns_hash_bucket] and [free_dns_hash]. *)
Fixpoint free_chain (fuel : nat) (t : hash_table) (cs : cents) (o : option Z) : option (hash_table * cents) :=
  match o with
  | None => Some (t, cs)
  | Some p =>
      match fuel with
      | O => None
      | S fuel =>
          let* he := ents t !! p in
          let* cs := del_cent (data he) cs in
          let* t := free_ent t p in
          free_chain fuel t cs (next he)
      end
  end.

Definition free_dns_hash_bucket (t : hash_table) (cs : cents) (i : nat) : option (hash_table * cents) :=
  let* o := load t (Bucket i) in
  let* t := store t (Bucket i) None in
  free_chain (LOOKUP_FUEL t) t cs o.

Fixpoint free_selected_loop (fuel : nat) (t : hash_table) (cs : cents) (hep : hash_pos) (o : option Z) (sla : list slist_t)
    : option (hash_table * cents) :=
  match o with
  | None => Some (t, cs)
  | Some p =>
      match fuel with
      | O => None
      | S fuel =>
          let* he := ents t !! p in
          let* name := cs !! data he in
          let* del := selected name sla in
          if (del : bool) then
            let* t := store t hep (next he) in
            let* cs := del_cent (data he) cs in
            let* t := free_ent t p in
            free_selected_loop fuel t cs hep (next he) sla
          else free_selected_loop fuel t cs (NextOf p) (next he) sla
      end
  end.

Definition free_dns_hash_selected (t : hash_table) (cs : cents) (i : nat) (sla : list slist_t) : option (hash_table * cents) :=
  let* o := load t (Bucket i) in free_selected_loop (LOOKUP_FUEL t) t cs (Bucket i) o sla.

(** The loop over the buckets from [i] on, [n] of them. *)
Fixpoint free_buckets (n : nat) (i : nat) (t : hash_table) (cs : cents) : option (hash_table * cents) :=
  match n with
  | O => Some (t, cs)
  | S n => let* (t, cs) := free_dns_hash_bucket t cs i in free_buckets n (S i) t cs
  end.

Definition free_dns_hash (t : hash_table) (cs : cents) : option (hash_table * cents) := free_buckets HASH_NUM_BUCKETS 0 t cs.

(** ** Iterating *)

Record dns_hash_pos := mkPos { bucket : nat; ent : option Z }.

(** The loop over the buckets from [i] on. *)
Fixpoint fetch_bucket (n : nat) (i : nat) (t : hash_table) : option (option (Z * dns_hash_pos)) :=
  match n with
  | O => Some None
  | S n =>
      let* o := hash_buckets t !! i in
      match o with
      | Some p => let* he := ents t !! p in Some (Some (data he, mkPos i (next he)))
      | None => fetch_bucket n (S i) t
      end
  end.

Definition fetch_first (t : hash_table) : option (option (Z * dns_hash_pos)) := fetch_bucket HASH_NUM_BUCKETS 0 t.

Definition fetch_next (t : hash_table) (p : dns_hash_pos) : option (option (Z * dns_hash_pos)) :=
  match ent p with
  | Some e => let* he := ents t !! e in Some (Some (data he, mkPos (bucket p) (next he)))
  | None => fetch_bucket (HASH_NUM_BUCKETS - S (bucket p)) (S (bucket p)) t
  end.

End Hash.
