(* ===== verification/DnsHashProps.v ===== *)
(** * pdnsd: the hash table of the cache is a finite map

    The table of [DnsHash] implements a map from names, without case, to cache records:
    looking up, adding and deleting at the location found, deleting by name, freeing
    buckets with or without include/exclude lists, and iterating, also while what
    was fetched is deleted. *)

From Stdlib Require Import Sorting.Sorted.
From S2P Require Import Prelude DnsNames DnsCompress DnsHash.
#[global] Open Scope Z_scope.

(** ** Names: comparing and hashing *)

Lemma byte_of_wire pre l ls x : byte_at (pre ++ wire (l :: ls) ++ x) (zlen pre) = Some (zlen l).
Proof. rewrite wire_cons. by apply byte_at_here. Qed.

Lemma wire_chars pre l ls (x : list Z) : pre ++ wire (l :: ls) ++ x = (pre ++ [zlen l]) ++ l ++ (wire ls ++ x) /\ zlen pre + 1 = zlen (pre ++ [zlen l]).
Proof. rewrite wire_cons, zlen_app. unfold lab. by rewrite <- !app_assoc. Qed.

Lemma wire_rest pre l ls (x : list Z) : pre ++ wire (l :: ls) ++ x = (pre ++ lab l) ++ wire ls ++ x /\ zlen pre + 1 + zlen l = zlen (pre ++ lab l).
Proof. rewrite wire_cons, <- !app_assoc, zlen_app, zlen_lab. split; [done|lia]. Qed.

Lemma icmp_label_spec l : forall l' p q p' q', length l' = length l -> zlen p' = zlen p ->
  icmp_label (length l) (p ++ l ++ q) (p' ++ l' ++ q') (zlen p) = Some (bool_decide (lower l = lower l')).
Proof.
  induction l as [|c l IH]; intros [|c' l'] p q p' q' Hl Hp; try done. cbn [length icmp_label]. simpl app. rewrite byte_at_here by done. rewrite <- Hp at 1. rewrite byte_at_here by done.
  unfold lower. rewrite !fmap_cons. destruct (Z.eqb_spec (tolower c) (tolower c')) as [->|Hne]; cbn [negb].
  - replace (p ++ c :: l ++ q) with ((p ++ [c]) ++ l ++ q) by (by rewrite <- app_assoc). replace (p' ++ c' :: l' ++ q') with ((p' ++ [c']) ++ l' ++ q') by (by rewrite <- app_assoc).
    replace (zlen p + 1) with (zlen (p ++ [c])) by (by rewrite zlen_app). rewrite IH; [|by injection Hl|rewrite !zlen_app; by rewrite Hp].
    f_equal. apply bool_decide_ext. unfold lower. split; [by intros ->|by intros [= ->]].
  - f_equal. symmetry. apply bool_decide_false. by intros [= ? _].
Qed.

Lemma icmp_loop_spec a : forall fuel b p p' x y, Forall label_ok a -> Forall label_ok b -> (length a < fuel)%nat -> zlen p' = zlen p ->
  icmp_loop fuel (p ++ wire a ++ x) (p' ++ wire b ++ y) (zlen p) = Some (bool_decide (same_name a b)).
Proof.
  induction a as [|l a IH]; intros [|fuel] b p p' x y Ha Hb Hf Hp; simpl in Hf; try lia; cbn [icmp_loop].
  - change (wire [] ++ x) with (0 :: x). rewrite byte_at_here by done. destruct b as [|l' b].
    + change (wire [] ++ y) with (0 :: y). rewrite byte_at_here by done. done.
    + apply Forall_cons_1 in Hb as [Hl _]. unfold label_ok in Hl. rewrite <- Hp, byte_of_wire. destruct (Z.eqb_spec 0 (zlen l')); [lia|]. done.
  - apply Forall_cons_1 in Ha as [Hl Ha]. unfold label_ok in Hl. rewrite byte_of_wire. destruct b as [|l' b].
    + change (wire [] ++ y) with (0 :: y). rewrite byte_at_here by done. destruct (Z.eqb_spec (zlen l) 0); [lia|]. done.
    + apply Forall_cons_1 in Hb as [Hl' Hb]. unfold label_ok in Hl'. rewrite <- Hp at 1. rewrite byte_of_wire. destruct (Z.eqb_spec (zlen l) (zlen l')) as [El|El]; cbn [negb].
      2: { f_equal. symmetry. apply bool_decide_false. unfold same_name. intros [= E _]. apply El. apply (f_equal length) in E. unfold lower in E. rewrite !length_fmap in E. zl. }
      destruct (Z.eqb_spec (zlen l) 0); [lia|]. replace (Z.to_nat (zlen l)) with (length l) by zl.
      destruct (wire_chars p l a x) as [E1 E2]. destruct (wire_chars p' l' b y) as [E1' _]. rewrite E2, E1, E1' at 1.
      rewrite icmp_label_spec; [|zl|rewrite !zlen_app; by rewrite Hp]. destruct (wire_rest p l a x) as [-> ->]. destruct (wire_rest p' l' b y) as [-> _].
      case_bool_decide as E.
      * rewrite IH; [|done|done|lia|rewrite !zlen_app, !zlen_lab; lia]. f_equal. apply bool_decide_ext. unfold same_name. rewrite !fmap_cons, E. split; [by intros ->|by intros [= ->]].
      * f_equal. symmetry. apply bool_decide_false. by intros [= ? _].
Qed.

Lemma rhnicmp_spec a b x y : Forall label_ok a -> Forall label_ok b -> rhnicmp (wire a ++ x) (wire b ++ y) = Some (bool_decide (same_name a b)).
Proof.
  intros Ha Hb. pose proof (labs_size a Ha). pose proof (zlen_wire a). apply (icmp_loop_spec a (S (length (wire a ++ x))) b [] [] x y); try done. rewrite length_app. unfold zlen in *. lia.
Qed.

Section Hash.

Variable long_bits : Z.

(** The hash of a name, as a function of its labels. *)
Fixpoint chars_hash (l : list Z) (i : Z) (sr : Z * Z) : Z * Z :=
  match l with [] => sr | c :: l => chars_hash l (i + 1) (hash_step long_bits (toupper c) i sr) end.

Fixpoint labels_hash (ls : list (list Z)) (i : Z) (sr : Z * Z) : Z * Z :=
  match ls with [] => sr | l :: ls => labels_hash ls (i + 1 + zlen l) (chars_hash l (i + 1) (hash_step long_bits (zlen l) i sr)) end.

Definition name_hash (ls : list (list Z)) : nat * Z :=
  let '(s, r) := labels_hash ls 0 (0, 0) in (Z.to_nat (Z.land (fold_hash (fold_hash s)) HASH_BITMASK), r).

Lemma hash_label_spec l : forall p q sr, hash_label long_bits (length l) (p ++ l ++ q) (zlen p) sr = Some (chars_hash l (zlen p) sr).
Proof.
  induction l as [|c l IH]; intros p q sr; [done|]. cbn [length hash_label]. simpl app. rewrite byte_at_here by done.
  replace (p ++ c :: l ++ q) with ((p ++ [c]) ++ l ++ q) by (by rewrite <- app_assoc). replace (zlen p + 1) with (zlen (p ++ [c])) by (by rewrite zlen_app).
  rewrite IH. cbn [chars_hash]. by rewrite zlen_app.
Qed.

Lemma hash_loop_spec a : forall fuel p x sr, Forall label_ok a -> (length a < fuel)%nat ->
  hash_loop long_bits fuel (p ++ wire a ++ x) (zlen p) sr = Some (labels_hash a (zlen p) sr).
Proof.
  induction a as [|l a IH]; intros [|fuel] p x sr Ha Hf; simpl in Hf; try lia; cbn [hash_loop].
  - change (wire [] ++ x) with (0 :: x). by rewrite byte_at_here by done.
  - apply Forall_cons_1 in Ha as [Hl Ha]. unfold label_ok in Hl. rewrite byte_of_wire. destruct (Z.eqb_spec (zlen l) 0); [lia|].
    replace (Z.to_nat (zlen l)) with (length l) by zl. destruct (wire_chars p l a x) as [E1 E2]. rewrite E2, E1 at 1. rewrite hash_label_spec.
    destruct (wire_rest p l a x) as [-> E3]. rewrite E3, IH by (done || lia). cbn [labels_hash]. by rewrite E3, E2.
Qed.

Lemma dns_hash_spec a x : Forall label_ok a -> dns_hash long_bits (wire a ++ x) = Some (name_hash a).
Proof.
  intros Ha. unfold dns_hash, name_hash. pose proof (labs_size a Ha). pose proof (zlen_wire a).
  pose proof (hash_loop_spec a (S (length (wire a ++ x))) [] x (0, 0) Ha) as E. change (zlen []) with 0 in E. simpl app in E. rewrite E.
  - by destruct (labels_hash a 0 (0, 0)).
  - rewrite length_app. unfold zlen in *. lia.
Qed.

Lemma name_hash_bound a : (fst (name_hash a) < HASH_NUM_BUCKETS)%nat.
Proof.
  unfold name_hash, HASH_NUM_BUCKETS. destruct (labels_hash a 0 (0, 0)) as [s r]. cbn [fst]. change HASH_BITMASK with (Z.ones 10). rewrite Z.land_ones by lia.
  pose proof (Z.mod_pos_bound (fold_hash (fold_hash s)) (2 ^ 10) ltac:(lia)). change (2 ^ 10) with 1024 in *. lia.
Qed.

Lemma toupper_tolower c : toupper (tolower c) = toupper c.
Proof. unfold toupper, tolower. repeat case_match; lia. Qed.

Lemma chars_hash_lower l : forall l' i sr, lower l = lower l' -> chars_hash l i sr = chars_hash l' i sr.
Proof.
  induction l as [|c l IH]; intros [|c' l'] i sr E; try done. injection E as Ec E. cbn [chars_hash]. rewrite <- (toupper_tolower c), <- (toupper_tolower c'), Ec. by apply IH.
Qed.

(** Names that are the same up to case have the same hash. *)
Lemma name_hash_same a b : same_name a b -> name_hash a = name_hash b.
Proof.
  intros E. unfold name_hash. assert (forall a b i sr, same_name a b -> labels_hash a i sr = labels_hash b i sr) as H; [|by rewrite (H a b)].
  clear. induction a as [|l a IH]; intros [|l' b] i sr E; try done. injection E as El E. cbn [labels_hash].
  assert (zlen l = zlen l') as Ez by (apply (f_equal length) in El; unfold lower in El; rewrite !length_fmap in El; zl).
  rewrite Ez, (chars_hash_lower l l') by done. by apply IH.
Qed.

(** ** Chains *)

(** An entry: its address, long hash, record and name. *)
Record node := mkNode { na : Z; nr : Z; nd : Z; nn : list (list Z) }.
Definition key_of (x : node) : list (list Z) := lower <$> nn x.

(** The entries from [o] on, up to [e]. *)
Fixpoint linked (m : gmap Z dns_hash_ent) (o : option Z) (c : list node) (e : option Z) : Prop :=
  match c with
  | [] => o = e
  | x :: c => o = Some (na x) /\ exists nxt, m !! na x = Some (mkEnt nxt (nr x) (nd x)) /\ linked m nxt c e
  end.

(** The position after some entries. *)
Fixpoint pos_after (h : hash_pos) (c : list node) : hash_pos :=
  match c with [] => h | x :: c => pos_after (NextOf (na x)) c end.

Lemma linked_app m c1 : forall o c2 e, linked m o (c1 ++ c2) e <-> exists k, linked m o c1 k /\ linked m k c2 e.
Proof.
  induction c1 as [|x c1 IH]; intros o c2 e; simpl; [naive_solver|]. setoid_rewrite IH. naive_solver.
Qed.

Lemma linked_frame m m' c : forall o e, (forall x, x ∈ c -> m' !! na x = m !! na x) -> linked m o c e -> linked m' o c e.
Proof.
  induction c as [|x c IH]; intros o e Hm; simpl; [done|]. intros (-> & nxt & E & H). split; [done|]. exists nxt. rewrite Hm by (by left).
  split; [done|]. apply IH; [|done]. intros y Hy. apply Hm. by right.
Qed.

Lemma pos_after_app c1 : forall h c2, pos_after h (c1 ++ c2) = pos_after (pos_after h c1) c2.
Proof. induction c1 as [|x c1 IH]; intros h c2; [done|]. apply IH. Qed.

Lemma load_after t c : forall h o k, load t h = Some o -> linked (ents t) o c k -> load t (pos_after h c) = Some k.
Proof.
  induction c as [|x c IH]; intros h o k Hl; simpl; [by intros <-|]. intros (-> & nxt & E & H). eapply IH; [|exact H]. simpl. by rewrite E.
Qed.

(** Storing at the position after [c]: its chain now goes on at [o']. *)
Lemma store_after t i c o k o' : hash_buckets t !! i = Some o -> linked (ents t) o c k -> NoDup (na <$> c) ->
  exists t', store t (pos_after (Bucket i) c) o' = Some t' /\
    (exists o1, hash_buckets t' !! i = Some o1 /\ linked (ents t') o1 c o') /\
    (forall j, j <> i -> hash_buckets t' !! j = hash_buckets t !! j) /\ length (hash_buckets t') = length (hash_buckets t) /\
    (forall q, q ∉ na <$> c -> ents t' !! q = ents t !! q) /\ dom (ents t') = dom (ents t).
Proof.
  intros Hb Hl Hnd. destruct c as [|x c _] using rev_ind.
  - simpl. pose proof (lookup_lt_Some _ _ _ Hb). rewrite decide_True by done. eexists. split; [done|]. simpl. split_and!; [|intros; by rewrite list_lookup_insert_ne|by rewrite length_insert|done|done].
    exists o'. by rewrite list_lookup_insert_eq.
  - rewrite pos_after_app. simpl. apply linked_app in Hl as (k' & Hl & -> & nxt & E & <-). rewrite E. eexists. split; [done|]. simpl.
    rewrite fmap_app in Hnd. apply list.NoDup_app in Hnd as (_ & Hx & _). split_and!; [|done|done| |].
    + exists o. split; [done|]. apply linked_app. exists (Some (na x)). split.
      * eapply linked_frame; [|exact Hl]. intros y Hy. rewrite lookup_insert_ne; [done|]. intros Eq. apply (Hx (na y)); [by apply list_elem_of_fmap_2|]. simpl. by apply list_elem_of_singleton.
      * simpl. split; [done|]. exists o'. by rewrite lookup_insert_eq.
    + intros q Hq. rewrite lookup_insert_ne; [done|]. intros Eq. apply Hq. rewrite fmap_app, <- Eq. apply elem_of_app. right. by left.
    + rewrite dom_insert_L. assert (na x ∈ dom (ents t)) by (by apply elem_of_dom_2 in E). set_solver.
Qed.

(** ** What a table holds *)

Definition node_ok (cs : cents) (i : nat) (x : node) : Prop :=
  cs !! nd x = Some (wire (nn x)) /\ name_ok (nn x) /\ name_hash (nn x) = (i, nr x).

(** The chains of a table, that hold its whole memory and all records. *)
Record rep (t : hash_table) (cs : cents) (ch : list (list node)) : Prop := {
  r_len : length ch = HASH_NUM_BUCKETS;
  r_blen : length (hash_buckets t) = HASH_NUM_BUCKETS;
  r_chain : forall i c, ch !! i = Some c -> exists o, hash_buckets t !! i = Some o /\ linked (ents t) o c None;
  r_node : forall i c x, ch !! i = Some c -> x ∈ c -> node_ok cs i x;
  r_sorted : forall i c, ch !! i = Some c -> StronglySorted (fun x y => nr x <= nr y) c;
  r_nodup : NoDup (na <$> concat ch);
  r_keys : NoDup (key_of <$> concat ch);
  r_data : NoDup (nd <$> concat ch);
  r_dom : dom (ents t) = list_to_set (na <$> concat ch);
  r_cents : dom cs = list_to_set (nd <$> concat ch)
}.

Definition amap (ch : list (list node)) : gmap (list (list Z)) Z := list_to_map ((fun x => (key_of x, nd x)) <$> concat ch).

Lemma concat_replicate_nil {A} n : concat (replicate n ([] : list A)) = [].
Proof. by induction n. Qed.

Lemma rep_empty : rep mk_dns_hash ∅ (replicate HASH_NUM_BUCKETS []).
Proof.
  unfold mk_dns_hash. split; cbn [hash_buckets ents]; rewrite ?concat_replicate_nil, ?length_replicate; cbn [fmap list_fmap list_to_set]; try apply NoDup_nil_2; try done.
  - intros i c Hi. apply lookup_replicate in Hi as [-> Hi]. exists None. split; [|done]. by apply lookup_replicate.
  - intros i c x Hi Hx. apply lookup_replicate in Hi as [-> _]. by apply not_elem_of_nil in Hx.
  - intros i c Hi. apply lookup_replicate in Hi as [-> _]. constructor.
Qed.

Lemma rep_size t cs ch i c : rep t cs ch -> ch !! i = Some c -> (length c <= size (ents t))%nat.
Proof.
  intros R Hi. rewrite <- size_dom, (r_dom _ _ _ R), size_list_to_set by apply (r_nodup _ _ _ R). rewrite length_fmap.
  apply take_drop_middle in Hi. rewrite <- Hi, concat_app, length_app. simpl. rewrite length_app. lia.
Qed.

Lemma chain_nodup t cs ch i c : rep t cs ch -> ch !! i = Some c -> NoDup (na <$> c).
Proof.
  intros R Hi. pose proof (r_nodup _ _ _ R) as H. apply take_drop_middle in Hi. rewrite <- Hi, concat_app, fmap_app in H. simpl in H. rewrite fmap_app in H.
  apply list.NoDup_app in H as (_ & _ & H). by apply list.NoDup_app in H as (H & _ & _).
Qed.

Lemma amap_lookup t cs ch k d : rep t cs ch -> amap ch !! k = Some d <-> exists x, x ∈ concat ch /\ key_of x = k /\ nd x = d.
Proof.
  intros R. unfold amap. rewrite <- elem_of_list_to_map.
  - rewrite list_elem_of_fmap. naive_solver.
  - rewrite <- list_fmap_compose. exact (r_keys _ _ _ R).
Qed.

Lemma elem_chain (ch : list (list node)) i c x : ch !! i = Some c -> x ∈ c -> x ∈ concat ch.
Proof. intros Hi Hx. rewrite list_elem_of_In, in_concat. exists c. rewrite <- !list_elem_of_In. split; [by eapply list_elem_of_lookup_2|done]. Qed.

Lemma elem_concat (ch : list (list node)) x : x ∈ concat ch -> exists i c, ch !! i = Some c /\ x ∈ c.
Proof.
  rewrite list_elem_of_In, in_concat. intros (c & Hc & Hx). apply list_elem_of_In in Hc, Hx. apply list_elem_of_lookup in Hc as (i & Hi). by exists i, c.
Qed.

(** A name is in the chain of its bucket. *)
Lemma amap_chain t cs ch a c : rep t cs ch -> ch !! fst (name_hash a) = Some c ->
  forall x, x ∈ concat ch -> same_name a (nn x) -> x ∈ c.
Proof.
  intros R Hc x Hx Hs. apply elem_concat in Hx as (i & c' & Hi & Hx). destruct (r_node _ _ _ R _ _ _ Hi Hx) as (_ & _ & Hh).
  rewrite (name_hash_same _ _ Hs), Hh in Hc. simpl in Hc. rewrite Hi in Hc. by injection Hc as <-.
Qed.

(** The result of the search in the chain of a bucket: where it stops. *)
Definition stops (t : hash_table) (a : list (list Z)) (rh : Z) (l1 l2 : list node) (found : option (Z * dns_hash_ent)) : Prop :=
  Forall (fun x => nr x <= rh /\ ~ same_name a (nn x)) l1 /\
  match found with
  | Some (p, he) => exists x l2', l2 = x :: l2' /\ same_name a (nn x) /\ p = na x /\ ents t !! p = Some he /\ data he = nd x
  | None => Forall (fun x => rh < nr x) l2
  end.

Lemma lookup_loop_spec t cs i a y rh l2 : forall fuel l1 k,
  Forall label_ok a -> snd (name_hash a) = rh -> load t (pos_after (Bucket i) l1) = Some k -> linked (ents t) k l2 None ->
  (forall x, x ∈ l2 -> node_ok cs i x) -> StronglySorted (fun x y => nr x <= nr y) l2 -> (length l2 < fuel)%nat ->
  exists l2a l2b found, l2 = l2a ++ l2b /\
    lookup_loop fuel t cs (wire a ++ y) rh (pos_after (Bucket i) l1) = Some (pos_after (Bucket i) (l1 ++ l2a), found) /\ stops t a rh l2a l2b found.
Proof.
  induction l2 as [|x l2 IH]; intros [|fuel] l1 k Ha Hrh Hload Hl Hok Hs Hf; simpl in Hf; try lia; cbn [lookup_loop]; rewrite Hload; simpl in Hl.
  - rewrite Hl. exists [], [], None. rewrite (app_nil_r l1). split_and!; [done|done|split; constructor].
  - destruct Hl as (-> & nxt & E & Hl). rewrite E. cbn [rhash data]. apply StronglySorted_inv in Hs as [Hs Hx].
    destruct (Hok x) as (Hq & [Hn _] & _); [by left|]. destruct (Z.leb_spec (nr x) rh) as [Hle|Hgt].
    2: { exists [], (x :: l2), None. rewrite (app_nil_r l1). split_and!; [done|done|]. split; [constructor|]. constructor; [done|]. eapply Forall_impl; [|exact Hx]. simpl. lia. }
    assert (snd (name_hash (nn x)) = nr x) as Hhx by (destruct (Hok x) as (_ & _ & ->); [by left|done]).
    assert (exists b, (if nr x =? rh then let* q := cs !! nd x in rhnicmp (wire a ++ y) q else Some false) = Some b /\ (b = true <-> same_name a (nn x))) as (b & -> & Hb).
    { destruct (Z.eqb_spec (nr x) rh) as [Er|Er].
      - rewrite Hq, <- (app_nil_r (wire (nn x))), rhnicmp_spec by done. eexists. split; [done|]. apply bool_decide_eq_true.
      - exists false. split; [done|]. split; [done|]. intros Hsame. apply name_hash_same in Hsame. congruence. }
    destruct b.
    + exists [], (x :: l2), (Some (na x, mkEnt nxt (nr x) (nd x))). rewrite (app_nil_r l1). split_and!; [done|done|]. split; [constructor|]. exists x, l2. split_and!; try done. by apply Hb.
    + destruct (IH fuel (l1 ++ [x]) nxt Ha) as (l2a & l2b & found & -> & El & Hst1 & Hst2); try done; try lia.
      * rewrite pos_after_app. simpl. by rewrite E.
      * intros z Hz. apply Hok. by right.
      * exists (x :: l2a), l2b, found. rewrite pos_after_app in El. simpl in El. rewrite <- app_assoc in El. split_and!; [done|exact El|]. split; [|done].
        constructor; [|done]. split; [done|]. intros Hsame. apply Hb in Hsame. done.
Qed.

Lemma concat_perm (ch : list (list node)) i c : ch !! i = Some c ->
  exists rest, concat ch ≡ₚ c ++ rest /\ forall c', concat (<[i := c']> ch) ≡ₚ c' ++ rest.
Proof.
  intros Hi. exists (concat (take i ch) ++ concat (drop (S i) ch)). split.
  - rewrite <- (take_drop_middle ch i c Hi) at 1. rewrite concat_app. simpl. by rewrite !app_assoc, (Permutation_app_comm _ c).
  - intros c'. rewrite insert_take_drop by (by apply lookup_lt_Some in Hi). rewrite concat_app. simpl. by rewrite !app_assoc, (Permutation_app_comm _ c').
Qed.

Lemma rep_chain t cs ch i : rep t cs ch -> (i < HASH_NUM_BUCKETS)%nat -> exists c, ch !! i = Some c.
Proof. intros R Hi. apply lookup_lt_is_Some_2. by rewrite (r_len _ _ _ R). Qed.

(** Entries of different chains have nothing in common. *)
Lemma other_chain t cs ch i j c c' x : rep t cs ch -> ch !! i = Some c -> ch !! j = Some c' -> j <> i -> x ∈ c' ->
  (na x ∉ na <$> c) /\ (nd x ∉ nd <$> c).
Proof.
  intros R Hi Hj Hne Hx. destruct (concat_perm ch i c Hi) as (rest & Hp & Hp').
  assert (x ∈ rest) as Hr.
  { assert (x ∈ concat (<[i := []]> ch)) as Hin by (eapply elem_chain; [by rewrite list_lookup_insert_ne|done]). by rewrite Hp' in Hin. }
  assert (forall (f : node -> Z), NoDup (f <$> concat ch) -> f x ∉ f <$> c) as H; [|split; apply H; apply R].
  intros f Hnd. rewrite Hp, fmap_app in Hnd. apply list.NoDup_app in Hnd as (_ & Hd & _). intros Hin. apply (Hd _ Hin). by apply list_elem_of_fmap_2.
Qed.

(** A chain changes, and the rest stays. *)
Lemma rep_update t cs ch i c c' t' cs' :
  rep t cs ch -> ch !! i = Some c ->
  (exists o, hash_buckets t' !! i = Some o /\ linked (ents t') o c' None) ->
  (forall j, j <> i -> hash_buckets t' !! j = hash_buckets t !! j) -> length (hash_buckets t') = length (hash_buckets t) ->
  (forall j cj x, j <> i -> ch !! j = Some cj -> x ∈ cj -> ents t' !! na x = ents t !! na x /\ cs' !! nd x = cs !! nd x) ->
  (forall x, x ∈ c' -> node_ok cs' i x) -> StronglySorted (fun x y => nr x <= nr y) c' ->
  NoDup (na <$> concat (<[i := c']> ch)) -> NoDup (key_of <$> concat (<[i := c']> ch)) -> NoDup (nd <$> concat (<[i := c']> ch)) ->
  dom (ents t') = list_to_set (na <$> concat (<[i := c']> ch)) -> dom cs' = list_to_set (nd <$> concat (<[i := c']> ch)) ->
  rep t' cs' (<[i := c']> ch).
Proof.
  intros R Hi Hc' Hb Hlen Hfr Hok Hs H1 H2 H3 H4 H5. pose proof (lookup_lt_Some _ _ _ Hi) as Hlt.
  assert (forall j cj, <[i := c']> ch !! j = Some cj -> j = i /\ cj = c' \/ j <> i /\ ch !! j = Some cj) as Hcase.
  { intros j cj Hj. destruct (decide (j = i)) as [->|Hne]; [left; rewrite list_lookup_insert_eq in Hj by done; by injection Hj as <-|right]. by rewrite list_lookup_insert_ne in Hj by done. }
  split; try done.
  - rewrite length_insert. apply R.
  - rewrite Hlen. apply R.
  - intros j cj [[-> ->]|[Hne Hj]]%Hcase; [done|]. destruct (r_chain _ _ _ R j cj Hj) as (o & Ho & Hl). exists o. rewrite Hb by done. split; [done|].
    eapply linked_frame; [|exact Hl]. intros x Hx. by apply (Hfr j cj).
  - intros j cj x [[-> ->]|[Hne Hj]]%Hcase Hx; [by apply Hok|]. destruct (r_node _ _ _ R j cj x Hj Hx) as (E1 & E2 & E3). split; [|done].
    by destruct (Hfr j cj x Hne Hj Hx) as [_ ->].
  - intros j cj [[-> ->]|[Hne Hj]]%Hcase; [done|]. by apply (r_sorted _ _ _ R j).
Qed.

Lemma amap_perm x (l l' : list (list node)) : concat l' ≡ₚ x :: concat l -> NoDup (key_of <$> concat l') -> amap l' = <[key_of x := nd x]> (amap l).
Proof.
  intros Hp Hnd. unfold amap. rewrite (list_to_map_proper _ ((fun x => (key_of x, nd x)) <$> x :: concat l)); [done| |by rewrite Hp].
  rewrite <- list_fmap_compose. exact Hnd.
Qed.

(** ** Looking up *)

Lemma lookup_spec t cs ch a y : rep t cs ch -> name_ok a ->
  exists l1 l2 found, ch !! fst (name_hash a) = Some (l1 ++ l2) /\
    lookup_loop (LOOKUP_FUEL t) t cs (wire a ++ y) (snd (name_hash a)) (Bucket (fst (name_hash a))) = Some (pos_after (Bucket (fst (name_hash a))) l1, found) /\
    stops t a (snd (name_hash a)) l1 l2 found /\ (fun x => data (snd x)) <$> found = amap ch !! (lower <$> a).
Proof.
  intros R [Ha _]. destruct (rep_chain _ _ _ (fst (name_hash a)) R (name_hash_bound a)) as (c & Hc). destruct (r_chain _ _ _ R _ _ Hc) as (o & Ho & Hl).
  destruct (lookup_loop_spec t cs (fst (name_hash a)) a y (snd (name_hash a)) c (LOOKUP_FUEL t) [] o Ha eq_refl) as (l1 & l2 & found & -> & E & Hst); try done.
  - intros x Hx. by apply (r_node _ _ _ R _ c).
  - by apply (r_sorted _ _ _ R (fst (name_hash a))).
  - unfold LOOKUP_FUEL. pose proof (rep_size _ _ _ _ _ R Hc). lia.
  - exists l1, l2, found. split_and!; [done|exact E|done|]. destruct Hst as [H1 H2]. symmetry. destruct found as [[p he]|].
    + destruct H2 as (x & l2' & -> & Hs & -> & He & Hd). simpl. apply (amap_lookup _ _ _ _ _ R). exists x. split; [|split; [by symmetry|done]].
      eapply elem_chain; [exact Hc|]. apply elem_of_app. right. by left.
    + simpl. destruct (amap ch !! (lower <$> a)) as [d|] eqn:Ed; [|done]. apply (amap_lookup _ _ _ _ _ R) in Ed as (x & Hx & Hk & _).
      assert (same_name a (nn x)) as Hs by (by symmetry in Hk). pose proof (amap_chain _ _ _ _ _ R Hc x Hx Hs) as Hin.
      rewrite list.Forall_forall in H1, H2. apply elem_of_app in Hin as [Hin|Hin]; [by destruct (H1 x Hin)|].
      destruct (r_node _ _ _ R _ _ x Hc) as (_ & _ & Hh); [apply elem_of_app; by right|]. specialize (H2 x Hin). apply name_hash_same in Hs. rewrite Hs, Hh in H2. simpl in H2. lia.
Qed.

(** ** Adding *)

Lemma chain_insert (l1 l2 : list node) x : StronglySorted (fun x y => nr x <= nr y) (l1 ++ l2) ->
  Forall (fun y => nr y <= nr x) l1 -> Forall (fun y => nr x < nr y) l2 -> StronglySorted (fun x y => nr x <= nr y) (l1 ++ x :: l2).
Proof.
  induction l1 as [|z l1 IH]; simpl; intros Hs H1 H2.
  - constructor; [done|]. eapply Forall_impl; [|exact H2]. simpl. lia.
  - apply StronglySorted_inv in Hs as [Hs Hz]. apply Forall_cons_1 in H1 as [H1 H1']. constructor; [by apply IH|].
    apply Forall_app in Hz as [Hz1 Hz2]. apply Forall_app. split; [done|]. by constructor.
Qed.

Lemma chain_remove (l1 l2 : list node) x : StronglySorted (fun x y => nr x <= nr y) (l1 ++ x :: l2) -> StronglySorted (fun x y => nr x <= nr y) (l1 ++ l2).
Proof.
  induction l1 as [|z l1 IH]; simpl; intros Hs; apply StronglySorted_inv in Hs as [Hs Hz]; [done|]. constructor; [by apply IH|].
  apply Forall_app in Hz as [Hz1 Hz2]. apply Forall_cons_1 in Hz2 as [_ Hz2]. by apply Forall_app.
Qed.

Lemma add_spec t cs ch a d he l1 l2 :
  rep t cs ch -> name_ok a -> ch !! fst (name_hash a) = Some (l1 ++ l2) -> stops t a (snd (name_hash a)) l1 l2 None -> amap ch !! (lower <$> a) = None ->
  he ∉ dom (ents t) -> d ∉ dom cs ->
  exists t' ch', add_dns_hash t d (mkLoc (pos_after (Bucket (fst (name_hash a))) l1) (snd (name_hash a))) (Some he) = Some (t', true) /\
    rep t' (<[d := wire a]> cs) ch' /\ amap ch' = <[lower <$> a := d]> (amap ch).
Proof.
  intros R Ha Hc [H1 H2] Hno Hhe Hd. set (i := fst (name_hash a)) in *. set (rh := snd (name_hash a)) in *. set (x := mkNode he rh d a).
  destruct (r_chain _ _ _ R _ _ Hc) as (o & Ho & Hl). apply linked_app in Hl as (k & Hl1 & Hl2). pose proof (load_after t l1 (Bucket i) o k Ho Hl1) as Hload.
  pose proof (chain_nodup _ _ _ _ _ R Hc) as Hnd. rewrite fmap_app in Hnd. apply list.NoDup_app in Hnd as (Hnd1 & Hnd12 & _).
  set (t1 := mkHash (hash_buckets t) (<[he := mkEnt k rh d]> (ents t))).
  assert (forall q, q ∈ na <$> concat ch -> q <> he) as Hfresh by (intros q Hq ->; apply Hhe; rewrite (r_dom _ _ _ R); by apply elem_of_list_to_set).
  assert (forall q, q ∈ nd <$> concat ch -> q <> d) as Hfreshd by (intros q Hq ->; apply Hd; rewrite (r_cents _ _ _ R); by apply elem_of_list_to_set).
  assert (forall y, y ∈ l1 ++ l2 -> na y <> he) as Hfresh' by (intros y Hy; apply Hfresh, list_elem_of_fmap_2; by eapply elem_chain).
  destruct (store_after t1 i l1 o k (Some he)) as (t' & Est & (o1 & Ho1 & Hl1') & Hb & Hlen & Hfr & Hdom); [done| |done|].
  { eapply linked_frame; [|exact Hl1]. intros y Hy. apply lookup_insert_ne. apply not_eq_sym, Hfresh'. apply elem_of_app. by left. }
  destruct (concat_perm ch i _ Hc) as (rest & Hp & Hp').
  assert (concat (<[i := l1 ++ x :: l2]> ch) ≡ₚ x :: concat ch) as Hperm by (rewrite Hp', Hp, <- !app_assoc; symmetry; apply Permutation_middle).
  assert (key_of x ∉ key_of <$> concat ch) as Hkey.
  { intros (y & Ey & Hy)%list_elem_of_fmap. assert (amap ch !! (lower <$> a) = Some (nd y)) as E by (apply (amap_lookup _ _ _ _ _ R); by exists y). congruence. }
  assert (NoDup (key_of <$> concat (<[i := l1 ++ x :: l2]> ch))) as Hk.
  { rewrite Hperm. rewrite fmap_cons. apply list.NoDup_cons. split; [done|apply R]. }
  exists t', (<[i := l1 ++ x :: l2]> ch). split_and!.
  - unfold add_dns_hash. cbn [pos loc_rhash]. rewrite Hload. fold t1. by rewrite Est.
  - assert (he ∉ na <$> l1) as Hhe1 by (intros (y & Ey & Hy)%list_elem_of_fmap; apply (Hfresh' y); [apply elem_of_app; by left|done]).
    apply (rep_update t cs ch i (l1 ++ l2)); try done.
    + exists o1. split; [done|]. apply linked_app. exists (Some he). split; [done|]. simpl. split; [done|]. exists k.
      rewrite Hfr by done. split; [by apply lookup_insert_eq|]. eapply linked_frame; [|exact Hl2]. intros y Hy. rewrite Hfr.
      * apply lookup_insert_ne, not_eq_sym, Hfresh'. apply elem_of_app. by right.
      * intros Hin. apply (Hnd12 _ Hin). by apply list_elem_of_fmap_2.
    + intros j cj y Hne Hj Hy. destruct (other_chain _ _ _ _ _ _ _ _ R Hc Hj Hne Hy) as [Ho1' _]. split.
      * rewrite Hfr by (rewrite fmap_app in Ho1'; intros Hin; apply Ho1', elem_of_app; by left). apply lookup_insert_ne, not_eq_sym, Hfresh, list_elem_of_fmap_2. by eapply elem_chain.
      * apply lookup_insert_ne, not_eq_sym, Hfreshd, list_elem_of_fmap_2. by eapply elem_chain.
    + intros y Hy. apply elem_of_app in Hy as [Hy|[->|Hy]%elem_of_cons].
      2: { split_and!; [by apply lookup_insert_eq|done|]. simpl. unfold i, rh. by destruct (name_hash a). }
      all: assert (y ∈ l1 ++ l2) as Hyc by (apply elem_of_app; auto); destruct (r_node _ _ _ R _ _ y Hc Hyc) as (E1 & E2 & E3); split; [|done];
        rewrite lookup_insert_ne; [done|]; apply not_eq_sym, Hfreshd, list_elem_of_fmap_2; by eapply elem_chain.
    + apply chain_insert; [by apply (r_sorted _ _ _ R i)| |done]. eapply Forall_impl; [|exact H1]. simpl. tauto.
    + rewrite Hperm, fmap_cons. apply list.NoDup_cons. split; [|apply R]. intros Hin. by apply (Hfresh he).
    + rewrite Hperm, fmap_cons. apply list.NoDup_cons. split; [|apply R]. intros Hin. by apply (Hfreshd d).
    + rewrite Hdom. simpl. rewrite dom_insert_L, (r_dom _ _ _ R), Hperm. done.
    + rewrite dom_insert_L, (r_cents _ _ _ R), Hperm. done.
  - by rewrite (amap_perm x ch).
Qed.

(** ** Deleting *)

Definition head_of (c : list node) : option Z := na <$> head c.

Lemma linked_head m o c : linked m o c None -> o = head_of c.
Proof. destruct c as [|x c]; simpl; [done|]. by intros [-> _]. Qed.

Lemma set_minus_new (x : Z) l : x ∉ l -> ({[x]} ∪ list_to_set l) ∖ {[x]} = (list_to_set l : gset Z).
Proof. intros Hx. rewrite <- (elem_of_list_to_set (C := gset Z)) in Hx. set_solver. Qed.

Lemma remove_spec t cs ch i l1 x l2 : rep t cs ch -> ch !! i = Some (l1 ++ x :: l2) ->
  exists t1 t', load t (pos_after (Bucket i) l1) = Some (Some (na x)) /\
    ents t !! na x = Some (mkEnt (head_of l2) (nr x) (nd x)) /\ cs !! nd x = Some (wire (nn x)) /\
    store t (pos_after (Bucket i) l1) (head_of l2) = Some t1 /\ free_ent t1 (na x) = Some t' /\
    rep t' (delete (nd x) cs) (<[i := l1 ++ l2]> ch) /\ amap (<[i := l1 ++ l2]> ch) = delete (key_of x) (amap ch).
Proof.
  intros R Hc. destruct (r_chain _ _ _ R _ _ Hc) as (o & Ho & Hl). apply linked_app in Hl as (k & Hl1 & -> & nxt & Ex & Hl2).
  pose proof (linked_head _ _ _ Hl2) as ->. pose proof (load_after t l1 (Bucket i) o _ Ho Hl1) as Hload.
  pose proof (chain_nodup _ _ _ _ _ R Hc) as Hnd. rewrite fmap_app, fmap_cons in Hnd. apply list.NoDup_app in Hnd as (Hnd1 & Hnd12 & Hnd2).
  apply list.NoDup_cons in Hnd2 as [Hx2 Hnd2]. assert (na x ∉ na <$> l1) as Hx1 by (intros Hin; apply (Hnd12 _ Hin); by left).
  destruct (store_after t i l1 o _ (head_of l2) Ho Hl1 Hnd1) as (t1 & Est & (o1 & Ho1 & Hl1') & Hb & Hlen & Hfr & Hdom).
  assert (ents t1 !! na x = Some (mkEnt (head_of l2) (nr x) (nd x))) as Ex1 by (by rewrite Hfr).
  set (t' := mkHash (hash_buckets t1) (delete (na x) (ents t1))). destruct (concat_perm ch i _ Hc) as (rest & Hp & Hp').
  assert (concat ch ≡ₚ x :: concat (<[i := l1 ++ l2]> ch)) as Hperm by (rewrite Hp', Hp, <- !app_assoc; symmetry; apply Permutation_middle).
  assert (forall f : node -> Z, NoDup (f <$> concat ch) -> NoDup (f <$> concat (<[i := l1 ++ l2]> ch)) /\ (f x ∉ f <$> concat (<[i := l1 ++ l2]> ch))) as Hnds.
  { intros f H. rewrite Hperm, fmap_cons in H. by apply list.NoDup_cons in H as [? ?]. }
  pose proof (r_keys _ _ _ R) as Hk. rewrite Hperm, fmap_cons in Hk. apply list.NoDup_cons in Hk as [Hk1 Hk2].
  destruct (Hnds na (r_nodup _ _ _ R)) as [Hna1 Hna2]. destruct (Hnds nd (r_data _ _ _ R)) as [Hd1 Hd2].
  exists t1, t'. split_and!; try done.
  - by apply (r_node _ _ _ R i _ x Hc), elem_of_app; right; left.
  - unfold free_ent. by rewrite Ex1.
  - apply (rep_update t cs ch i (l1 ++ x :: l2)); try done.
    + exists o1. split; [done|]. apply linked_app. exists (head_of l2). split.
      * eapply linked_frame; [|exact Hl1']. intros y Hy. apply lookup_delete_ne. intros E. apply Hx1. rewrite E. by apply list_elem_of_fmap_2.
      * eapply linked_frame; [|exact Hl2]. intros y Hy. simpl. rewrite lookup_delete_ne; [|intros E; apply Hx2; rewrite E; by apply list_elem_of_fmap_2].
        apply Hfr. intros Hin. apply (Hnd12 _ Hin). right. by apply list_elem_of_fmap_2.
    + intros j cj y Hne Hj Hy. destruct (other_chain _ _ _ _ _ _ _ _ R Hc Hj Hne Hy) as [Ho1' Ho2']. rewrite fmap_app, fmap_cons in Ho1', Ho2'.
      apply not_elem_of_app in Ho1' as [Ho1a Ho1b], Ho2' as [_ Ho2b]. apply not_elem_of_cons in Ho1b as [Ho1b _], Ho2b as [Ho2b _]. simpl. split.
      * rewrite lookup_delete_ne by done. by apply Hfr.
      * by apply lookup_delete_ne.
    + intros y Hy. assert (y ∈ l1 ++ x :: l2) as Hyc by (apply elem_of_app; apply elem_of_app in Hy as [Hy|Hy]; [by left|right; by right]).
      destruct (r_node _ _ _ R _ _ y Hc Hyc) as (E1 & E2 & E3). split; [|done]. rewrite lookup_delete_ne; [done|]. intros E. apply Hd2. rewrite E.
      apply list_elem_of_fmap_2. eapply elem_chain; [|exact Hy]. apply list_lookup_insert_eq. by apply lookup_lt_Some in Hc.
    + apply (chain_remove l1 l2 x). by apply (r_sorted _ _ _ R i).
    + simpl. rewrite dom_delete_L, Hdom, (r_dom _ _ _ R), Hperm, fmap_cons. simpl. by apply set_minus_new.
    + rewrite dom_delete_L, (r_cents _ _ _ R), Hperm, fmap_cons. simpl. by apply set_minus_new.
  - rewrite (amap_perm x _ ch Hperm (r_keys _ _ _ R)). symmetry. apply delete_insert_id.
    destruct (amap (<[i := l1 ++ l2]> ch) !! key_of x) eqn:E; [|done]. apply elem_of_list_to_map_2 in E. apply list_elem_of_fmap in E as (y & [= Ey _] & Hy).
    destruct Hk1. rewrite Ey. by apply list_elem_of_fmap_2.
Qed.

(** A node found by its name. *)
Lemma found_node t cs ch a l1 l2 p he : rep t cs ch -> ch !! fst (name_hash a) = Some (l1 ++ l2) -> stops t a (snd (name_hash a)) l1 l2 (Some (p, he)) ->
  exists x l2', l2 = x :: l2' /\ p = na x /\ data he = nd x /\ key_of x = lower <$> a /\ he = mkEnt (head_of l2') (nr x) (nd x).
Proof.
  intros R Hc [_ (x & l2' & -> & Hs & -> & He & Hd)]. exists x, l2'. split_and!; try done.
  destruct (remove_spec _ _ _ _ _ _ _ R Hc) as (t1 & t' & _ & Ex & _). rewrite Ex in He. by injection He as <-.
Qed.

(** ** Freeing chains *)

Lemma free_chain_spec c : forall fuel t cs o,
  linked (ents t) o c None -> NoDup (na <$> c) -> NoDup (nd <$> c) -> (forall x, x ∈ c -> is_Some (cs !! nd x)) -> (length c <= fuel)%nat ->
  exists t' cs', free_chain fuel t cs o = Some (t', cs') /\ hash_buckets t' = hash_buckets t /\
    (forall q, q ∉ na <$> c -> ents t' !! q = ents t !! q) /\ (forall d, d ∉ nd <$> c -> cs' !! d = cs !! d) /\
    dom (ents t') = dom (ents t) ∖ list_to_set (na <$> c) /\ dom cs' = dom cs ∖ list_to_set (nd <$> c).
Proof.
  induction c as [|x c IH]; intros fuel t cs o Hl Hn Hd Hcs Hf; simpl in Hl.
  - rewrite Hl. exists t, cs. destruct fuel; (split_and!; [done|done|done|done|set_solver|set_solver]).
  - destruct Hl as (-> & nxt & E & Hl). destruct fuel as [|fuel]; simpl in Hf; [lia|]. cbn [free_chain]. rewrite E. cbn [data next].
    destruct (Hcs x) as [q Eq]; [by left|]. unfold del_cent. rewrite Eq. unfold free_ent. rewrite E. rewrite fmap_cons in Hn, Hd.
    apply list.NoDup_cons in Hn as [Hnx Hn], Hd as [Hdx Hd].
    destruct (IH fuel (mkHash (hash_buckets t) (delete (na x) (ents t))) (delete (nd x) cs) nxt) as (t' & cs' & Ef & Hb & H1 & H2 & H3 & H4); try done; [| |lia|].
    + eapply linked_frame; [|exact Hl]. intros y Hy. apply lookup_delete_ne. intros Ey. apply Hnx. rewrite Ey. by apply list_elem_of_fmap_2.
    + intros y Hy. rewrite lookup_delete_ne; [apply Hcs; by right|]. intros Ey. apply Hdx. rewrite Ey. by apply list_elem_of_fmap_2.
    + exists t', cs'. split_and!; [exact Ef|done| | | |].
      * intros p [Hp1 Hp2]%not_elem_of_cons. rewrite H1 by done. simpl. by apply lookup_delete_ne.
      * intros d [Hp1 Hp2]%not_elem_of_cons. rewrite H2 by done. by apply lookup_delete_ne.
      * rewrite H3. simpl. rewrite dom_delete_L. set_solver.
      * rewrite H4. rewrite dom_delete_L. set_solver.
Qed.

Lemma set_minus_chain (l l' rest : list Z) : l' ≡ₚ l ++ rest -> NoDup l' -> (list_to_set l' : gset Z) ∖ list_to_set l = list_to_set rest.
Proof.
  intros Hp Hnd. rewrite Hp in Hnd. apply list.NoDup_app in Hnd as (_ & Hd & _). rewrite Hp, list_to_set_app_L.
  apply set_eq. intros x. rewrite elem_of_difference, elem_of_union, !elem_of_list_to_set. split; [intros [[?|?] ?]; done|]. intros Hx. split; [by right|]. intros Hin. by apply (Hd x).
Qed.

Lemma free_bucket_spec t cs ch i c : rep t cs ch -> ch !! i = Some c ->
  exists t' cs', free_dns_hash_bucket t cs i = Some (t', cs') /\ rep t' cs' (<[i := []]> ch).
Proof.
  intros R Hc. destruct (r_chain _ _ _ R _ _ Hc) as (o & Ho & Hl). unfold free_dns_hash_bucket. cbn [load]. rewrite Ho. cbn [store].
  pose proof (lookup_lt_Some _ _ _ Ho) as Hlt. rewrite decide_True by done. set (t1 := mkHash (<[i:=None]> (hash_buckets t)) (ents t)).
  destruct (concat_perm ch i _ Hc) as (rest & Hp & Hp').
  assert (forall (f : node -> Z), NoDup (f <$> concat ch) -> NoDup (f <$> c) /\ NoDup (f <$> rest)) as Hnds.
  { intros f H. rewrite Hp, fmap_app in H. by apply list.NoDup_app in H as (? & _ & ?). }
  destruct (Hnds na (r_nodup _ _ _ R)) as [Hn1 Hn2]. destruct (Hnds nd (r_data _ _ _ R)) as [Hd1 Hd2].
  pose proof (r_keys _ _ _ R) as Hk. rewrite Hp, fmap_app in Hk. apply list.NoDup_app in Hk as (_ & _ & Hk).
  destruct (free_chain_spec c (LOOKUP_FUEL t1) t1 cs o Hl Hn1 Hd1) as (t' & cs' & -> & Hb & H1 & H2 & H3 & H4).
  - intros x Hx. exists (wire (nn x)). by apply (r_node _ _ _ R i c).
  - pose proof (rep_size _ _ _ _ _ R Hc). unfold LOOKUP_FUEL, t1. simpl. lia.
  - exists t', cs'. split; [done|]. pose proof (Hp' []) as Hp0. simpl in Hp0. apply (rep_update t cs ch i c); try done; rewrite ?Hb, ?Hp0; try done.
    + exists None. split; [|done]. by apply list_lookup_insert_eq.
    + intros j Hne. simpl. by apply list_lookup_insert_ne, not_eq_sym.
    + simpl. apply length_insert.
    + intros j cj x Hne Hj Hx. destruct (other_chain _ _ _ _ _ _ _ _ R Hc Hj Hne Hx). split; [by apply H1|by apply H2].
    + intros x Hx. by apply not_elem_of_nil in Hx.
    + constructor.
    + rewrite H3. unfold t1. simpl. rewrite (r_dom _ _ _ R). apply set_minus_chain; [by rewrite Hp, fmap_app|apply R].
    + rewrite H4, (r_cents _ _ _ R). apply set_minus_chain; [by rewrite Hp, fmap_app|apply R].
Qed.

Lemma lower_lower l : lower (lower l) = lower l.
Proof. unfold lower. rewrite <- list_fmap_compose. apply list_fmap_ext. intros i c _. unfold compose, tolower. repeat case_match; lia. Qed.

Lemma same_lower a : same_name (lower <$> a) a.
Proof. unfold same_name. rewrite <- list_fmap_compose. apply list_fmap_ext. intros i l _. apply lower_lower. Qed.

(** The bucket of a key. *)
Definition in_bucket (i : nat) (k : list (list Z)) : Prop := fst (name_hash k) = i.

#[local] Instance in_bucket_dec i k : Decision (in_bucket i k).
Proof. unfold in_bucket. apply _. Defined.

Lemma node_bucket t cs ch i c x : rep t cs ch -> ch !! i = Some c -> x ∈ c -> in_bucket i (key_of x).
Proof. intros R Hc Hx. unfold in_bucket, key_of. rewrite (name_hash_same _ _ (same_lower (nn x))). by destruct (r_node _ _ _ R _ _ _ Hc Hx) as (_ & _ & ->). Qed.

(** The map of which only some of the names of a bucket are kept. *)
Definition keep (i : nat) (P : list (list Z) -> bool) (M : gmap (list (list Z)) Z) : gmap (list (list Z)) Z :=
  filter (fun kd => in_bucket i (fst kd) -> P (fst kd) = true) M.

Lemma amap_kept t cs ch t' cs' i c c' P :
  rep t cs ch -> ch !! i = Some c -> rep t' cs' (<[i := c']> ch) -> (forall x, x ∈ c' <-> x ∈ c /\ P (key_of x) = true) ->
  amap (<[i := c']> ch) = keep i P (amap ch).
Proof.
  unfold keep. intros R Hc R' Hc'. apply map_eq. intros k. apply option_eq. intros d.
  rewrite map_lookup_filter_Some, (amap_lookup _ _ _ _ _ R), (amap_lookup _ _ _ _ _ R'). pose proof (lookup_lt_Some _ _ _ Hc) as Hlt. simpl. split.
  - intros (x & Hx & <- & <-). apply elem_concat in Hx as (j & cj & Hj & Hx). destruct (decide (j = i)) as [->|Hne].
    + rewrite list_lookup_insert_eq in Hj by done. injection Hj as <-. apply Hc' in Hx as [Hx HP]. split; [|done]. exists x. split; [by eapply elem_chain|done].
    + rewrite list_lookup_insert_ne in Hj by done. split; [exists x; split; [by eapply elem_chain|done]|].
      intros Hin. pose proof (node_bucket _ _ _ _ _ _ R Hj Hx) as Hb. unfold in_bucket in *. congruence.
  - intros [(x & Hx & <- & <-) HP]. apply elem_concat in Hx as (j & cj & Hj & Hx). exists x. split; [|done]. destruct (decide (j = i)) as [->|Hne].
    + rewrite Hc in Hj. injection Hj as <-. eapply elem_chain; [by apply list_lookup_insert_eq|]. apply Hc'. split; [done|]. apply HP. exact (node_bucket _ _ _ _ _ _ R Hc Hx).
    + eapply elem_chain; [by rewrite list_lookup_insert_ne|done].
Qed.

(** ** Include/exclude lists *)

Definition rule : Type := list (list Z) * bool * bool.
Definition to_slist (r : rule) : slist_t := mkSlist (wire (fst (fst r))) (snd (fst r)) (snd r).

(** The first element that names the name, or a domain of it if it need not be exact,
    says whether the name is selected. *)
Fixpoint picked (k : list (list Z)) (rules : list rule) : bool :=
  match rules with
  | [] => false
  | (n, e, i) :: rules =>
      if bool_decide ((lower <$> n) `suffix_of` k) && (negb e || bool_decide (lower <$> n = k)) then i else picked k rules
  end.

Lemma labs_zero ls : Forall label_ok ls -> zlen (labs ls) = 0 <-> ls = [].
Proof.
  intros Hok. split; [|by intros ->]. intros E. pose proof (labs_size ls Hok). destruct ls; [done|]. rewrite zlen_cons in *. pose proof (zlen_nonneg ls). lia.
Qed.

Lemma take_minus_nil {A} (l : list A) m : (m <= length l)%nat -> take (length l - m) l = [] <-> m = length l.
Proof.
  intros Hm. split.
  - intros E. apply (f_equal length) in E. rewrite length_take in E. simpl in E. lia.
  - intros ->. by rewrite Nat.sub_diag.
Qed.

Lemma match_all a b : match_len a b = length b <-> (lower <$> b) `suffix_of` (lower <$> a).
Proof.
  split.
  - intros E. destruct (match_suffix a b) as (_ & _ & Hs). rewrite E, Nat.sub_diag in Hs. exists (lower <$> take (length a - length b) a).
    unfold same_name in Hs. change (drop 0 b) with b in Hs. rewrite <- Hs, <- fmap_app. by rewrite take_drop.
  - intros (k & E). destruct (match_suffix a b) as (_ & Hle & _). pose proof (f_equal length E) as El. rewrite length_app, !length_fmap in El.
    assert (same_name (drop (length k) a) (drop 0 b)) as Hs.
    { unfold same_name. rewrite fmap_drop, E. rewrite drop_app_length. done. }
    pose proof (match_max a b (length k) 0 ltac:(lia) ltac:(lia) Hs). lia.
Qed.

Lemma selected_spec a rules : name_ok a -> Forall (fun r => name_ok (fst (fst r))) rules ->
  selected (wire a) (to_slist <$> rules) = Some (picked (lower <$> a) rules).
Proof.
  intros Ha. induction 1 as [|[[n e] i] rules Hn _ IH]; [done|]. rewrite fmap_cons. cbn [selected to_slist fst snd domain exact included picked]. simpl in Hn.
  rewrite <- (app_nil_r (wire a)) at 1. rewrite <- (app_nil_r (wire n)) at 1. rewrite (domain_match_spec a n [] [] Ha Hn).
  destruct (match_suffix a n) as (H1 & H2 & _). destruct Ha as [Ha _]. destruct Hn as [Hn _].
  assert ((zlen (labs (take (length n - match_len a n) n)) =? 0) = bool_decide ((lower <$> n) `suffix_of` (lower <$> a))) as ->.
  { apply eq_true_iff_eq. rewrite Z.eqb_eq, bool_decide_eq_true, labs_zero, take_minus_nil, match_all by (try done; by apply Forall_take). done. }
  case_bool_decide as Hs; [|by rewrite IH]. cbn [andb].
  assert ((zlen (labs (take (length a - match_len a n) a)) =? 0) = bool_decide (lower <$> n = lower <$> a)) as ->.
  { apply eq_true_iff_eq. rewrite Z.eqb_eq, bool_decide_eq_true, labs_zero, take_minus_nil by (try done; by apply Forall_take). apply match_all in Hs as Hm. rewrite Hm. split.
    - intros El. destruct Hs as (k & E). pose proof (f_equal length E) as El'. rewrite length_app, !length_fmap in El'. destruct k; [done|simpl in El'; lia].
    - intros E. apply (f_equal length) in E. by rewrite !length_fmap in E. }
  destruct (negb e || _); [done|]. exact IH.
Qed.

Lemma free_selected_loop_spec i rules l2 : Forall (fun r => name_ok (fst (fst r))) rules -> forall fuel t cs ch l1,
  rep t cs ch -> ch !! i = Some (l1 ++ l2) -> (length l2 <= fuel)%nat ->
  exists t' cs', free_selected_loop fuel t cs (pos_after (Bucket i) l1) (head_of l2) (to_slist <$> rules) = Some (t', cs') /\
    rep t' cs' (<[i := l1 ++ filter (fun x => picked (key_of x) rules = false) l2]> ch).
Proof.
  intros Hr. induction l2 as [|x l2 IH]; intros fuel t cs ch l1 R Hc Hf.
  - exists t, cs. split; [by destruct fuel|]. change (filter _ []) with (@nil node). rewrite list_insert_id; done.
  - destruct fuel as [|fuel]; simpl in Hf; [lia|]. cbn [free_selected_loop]. change (head_of (x :: l2)) with (Some (na x)). cbv iota.
    destruct (remove_spec _ _ _ _ _ _ _ R Hc) as (t1 & t' & _ & Ex & Eq & Est & Efr & R' & _). rewrite Ex. cbn [data next]. rewrite Eq.
    destruct (r_node _ _ _ R i _ x Hc) as (_ & Hn & _); [apply elem_of_app; right; by left|]. rewrite (selected_spec _ _ Hn Hr). fold (key_of x).
    rewrite filter_cons. pose proof (lookup_lt_Some _ _ _ Hc) as Hlt. destruct (picked (key_of x) rules) eqn:Ep.
    + rewrite Est. unfold del_cent. rewrite Eq, Efr, decide_False by done.
      destruct (IH fuel t' (delete (nd x) cs) (<[i := l1 ++ l2]> ch) l1 R') as (t2 & cs2 & E & R2); [by apply list_lookup_insert_eq|lia|].
      exists t2, cs2. split; [exact E|]. by rewrite list_insert_insert_eq in R2.
    + rewrite decide_True by done. destruct (IH fuel t cs ch (l1 ++ [x]) R) as (t2 & cs2 & E & R2); [by rewrite <- app_assoc|lia|].
      exists t2, cs2. rewrite pos_after_app in E. split; [exact E|]. by rewrite <- app_assoc in R2.
Qed.

(** ** Iterating *)

Lemma fetch_bucket_spec t cs ch n : rep t cs ch -> forall i, (i + n = HASH_NUM_BUCKETS)%nat ->
  concat (drop i ch) = [] /\ fetch_bucket n i t = Some None \/
  exists j x l2, ch !! j = Some (x :: l2) /\ concat (drop i ch) = x :: l2 ++ concat (drop (S j) ch) /\
    fetch_bucket n i t = Some (Some (nd x, mkPos j (head_of l2))).
Proof.
  intros R. induction n as [|n IH]; intros i Hi.
  - left. split; [|done]. rewrite drop_ge; [done|]. rewrite (r_len _ _ _ R). lia.
  - destruct (rep_chain _ _ _ i R ltac:(lia)) as (c & Hc). destruct (r_chain _ _ _ R _ _ Hc) as (o & Ho & Hl). cbn [fetch_bucket]. rewrite Ho.
    rewrite (drop_S _ _ _ Hc). cbn [concat]. destruct c as [|x c]; simpl in Hl.
    + rewrite Hl. apply IH. lia.
    + right. destruct Hl as (-> & nxt & Ex & Hl). rewrite Ex. exists i, x, c. split_and!; [done|done|]. cbn [data next]. by rewrite (linked_head _ _ _ Hl).
Qed.

Lemma fetch_next_spec t cs ch j l1 l2 : rep t cs ch -> ch !! j = Some (l1 ++ l2) ->
  l2 ++ concat (drop (S j) ch) = [] /\ fetch_next t (mkPos j (head_of l2)) = Some None \/
  exists j' l1' x l2', ch !! j' = Some ((l1' ++ [x]) ++ l2') /\ l2 ++ concat (drop (S j) ch) = x :: l2' ++ concat (drop (S j') ch) /\
    fetch_next t (mkPos j (head_of l2)) = Some (Some (nd x, mkPos j' (head_of l2'))).
Proof.
  intros R Hc. unfold fetch_next. cbn [ent bucket]. destruct l2 as [|x l2].
  - change (head_of []) with (@None Z). cbv iota. pose proof (lookup_lt_Some _ _ _ Hc) as Hlt. rewrite (r_len _ _ _ R) in Hlt.
    destruct (fetch_bucket_spec t cs ch (HASH_NUM_BUCKETS - S j) R (S j)) as [[E1 E2]|(j' & x & l2 & H1 & H2 & H3)]; [lia|by left|right].
    exists j', [], x, l2. done.
  - right. destruct (remove_spec _ _ _ _ _ _ _ R Hc) as (t1 & t' & _ & Ex & _). change (head_of (x :: l2)) with (Some (na x)). cbv iota. rewrite Ex.
    exists j, l1, x, l2. split_and!; [by rewrite <- app_assoc|done|done].
Qed.

(** The loop of a caller, [for (d=fetch_first(&pos); d; d=fetch_next(&pos))], that deletes
    by name some of the records it fetches: those fetched, and what is left. *)
Fixpoint fetch_all (fuel : nat) (t : hash_table) (cs : cents) (pick : Z -> bool) (r : option (Z * dns_hash_pos))
    : option (list Z * hash_table * cents) :=
  match r with
  | None => Some ([], t, cs)
  | Some (d, p) =>
      match fuel with
      | O => None
      | S fuel =>
          let* (t, cs) :=
            (if pick d then
               let* name := cs !! d in
               let* (t, o) := del_dns_hash long_bits t cs name in
               let* d' := o in
               let* cs := del_cent d' cs in
               Some (t, cs)
             else Some (t, cs)) in
          let* r := fetch_next t p in
          let* (ds, t, cs) := fetch_all fuel t cs pick r in
          Some (d :: ds, t, cs)
      end
  end.

(** Deleting by name. *)
Lemma del_hash_spec t cs ch a : rep t cs ch -> name_ok a ->
  amap ch !! (lower <$> a) = None /\ del_dns_hash long_bits t cs (wire a) = Some (t, None) \/
  exists l1 x l2 t', ch !! fst (name_hash a) = Some (l1 ++ x :: l2) /\ key_of x = lower <$> a /\ amap ch !! (lower <$> a) = Some (nd x) /\ cs !! nd x = Some (wire (nn x)) /\
    del_dns_hash long_bits t cs (wire a) = Some (t', Some (nd x)) /\ rep t' (delete (nd x) cs) (<[fst (name_hash a) := l1 ++ l2]> ch) /\
    amap (<[fst (name_hash a) := l1 ++ l2]> ch) = delete (lower <$> a) (amap ch).
Proof.
  intros R Ha. pose proof Ha as [Hl _]. unfold del_dns_hash. pose proof (dns_hash_spec a [] Hl) as Eh. rewrite app_nil_r in Eh. rewrite Eh. destruct (name_hash a) as [i rh] eqn:Eih.
  destruct (lookup_spec t cs ch a [] R Ha) as (l1 & l2 & found & Hc & E & Hst & Em). rewrite app_nil_r, Eih in E. rewrite Eih in Hc, Hst. cbn [fst snd] in *. rewrite E.
  destruct found as [[p he]|]; [right|by left].
  destruct (found_node t cs ch a l1 l2 p he R) as (x & l2' & -> & -> & Ed & Ek & ->); [by rewrite Eih|by rewrite Eih|]. cbn [data next] in *. simpl in Em.
  destruct (remove_spec _ _ _ _ _ _ _ R Hc) as (t1 & t' & _ & Ex & Eq & Est & Efr & R' & Ea). rewrite Est, Efr. exists l1, x, l2', t'. split_and!; try done. by rewrite <- Ek.
Qed.

(** ** The table as a map *)

(** What is done with the table: looking up; adding a record [d] under a new name, with the
    memory that [malloc] gives; deleting at the position looked up, and by name;
    freeing a bucket, its records selected by a list, and everything. *)
Inductive hash_op :=
| HLookup (a : list (list Z))
| HAdd (a : list (list Z)) (d : Z) (he : option Z)
| HDelAt (a : list (list Z))
| HDel (a : list (list Z))
| HFreeBucket (i : nat)
| HFreeSelected (i : nat) (rules : list rule)
| HFreeAll.

(** Names are names; a new record and new memory are not in use. *)
Definition legal (t : hash_table) (cs : cents) (op : hash_op) : Prop :=
  match op with
  | HLookup a | HDelAt a | HDel a => name_ok a
  | HAdd a d he => name_ok a /\ (d ∉ dom cs) /\ match he with Some he => he ∉ dom (ents t) | None => True end
  | HFreeBucket i => (i < HASH_NUM_BUCKETS)%nat
  | HFreeSelected i rules => (i < HASH_NUM_BUCKETS)%nat /\ Forall (fun r => name_ok (fst (fst r))) rules
  | HFreeAll => True
  end.

(** The calls, as the cache makes them; the record that was found or deleted. *)
Definition exec (t : hash_table) (cs : cents) (op : hash_op) : option (hash_table * cents * option Z) :=
  match op with
  | HLookup a => let* (d, _) := dns_lookup long_bits t cs (wire a) in Some (t, cs, d)
  | HAdd a d he =>
      let* (found, loc) := dns_lookup long_bits t cs (wire a) in
      match found with
      | Some d0 => Some (t, cs, Some d0)
      | None => let* (t, ok) := add_dns_hash t d loc he in
                Some (t, if (ok : bool) then <[d := wire a]> cs else cs, None)
      end
  | HDelAt a =>
      let* (found, loc) := dns_lookup long_bits t cs (wire a) in
      match found with
      | Some _ => let* (t, d) := del_dns_hash_ent t loc in let* cs := del_cent d cs in Some (t, cs, Some d)
      | None => Some (t, cs, None)
      end
  | HDel a =>
      let* (t, o) := del_dns_hash long_bits t cs (wire a) in
      match o with
      | Some d => let* cs := del_cent d cs in Some (t, cs, Some d)
      | None => Some (t, cs, None)
      end
  | HFreeBucket i => let* (t, cs) := free_dns_hash_bucket t cs i in Some (t, cs, None)
  | HFreeSelected i rules => let* (t, cs) := free_dns_hash_selected t cs i (to_slist <$> rules) in Some (t, cs, None)
  | HFreeAll => let* (t, cs) := free_dns_hash t cs in Some (t, cs, None)
  end.

(** The same on a map from names, without case, to records. *)
Definition spec (M : gmap (list (list Z)) Z) (op : hash_op) : gmap (list (list Z)) Z * option Z :=
  match op with
  | HLookup a => (M, M !! (lower <$> a))
  | HAdd a d he =>
      match M !! (lower <$> a) with
      | Some d0 => (M, Some d0)
      | None => (match he with Some _ => <[lower <$> a := d]> M | None => M end, None)
      end
  | HDelAt a | HDel a => (delete (lower <$> a) M, M !! (lower <$> a))
  | HFreeBucket i => (keep i (fun _ => false) M, None)
  | HFreeSelected i rules => (keep i (fun k => negb (picked k rules)) M, None)
  | HFreeAll => (∅, None)
  end.

Lemma dns_lookup_spec t cs ch a : rep t cs ch -> name_ok a ->
  exists l1 l2 found, ch !! fst (name_hash a) = Some (l1 ++ l2) /\
    dns_lookup long_bits t cs (wire a) = Some (amap ch !! (lower <$> a), mkLoc (pos_after (Bucket (fst (name_hash a))) l1) (snd (name_hash a))) /\
    stops t a (snd (name_hash a)) l1 l2 found /\ (fun x => data (snd x)) <$> found = amap ch !! (lower <$> a).
Proof.
  intros R Ha. pose proof Ha as [Hl _]. destruct (lookup_spec t cs ch a [] R Ha) as (l1 & l2 & found & Hc & E & Hst & Em). exists l1, l2, found.
  split_and!; try done. unfold dns_lookup. rewrite <- (app_nil_r (wire a)), (dns_hash_spec a [] Hl). destruct (name_hash a) as [i rh]. cbn [fst snd] in *. rewrite E. by rewrite Em.
Qed.

Lemma free_buckets_spec n : forall i t cs ch, rep t cs ch -> (i + n = HASH_NUM_BUCKETS)%nat -> (forall j, (j < i)%nat -> ch !! j = Some []) ->
  exists t' cs' ch', free_buckets n i t cs = Some (t', cs') /\ rep t' cs' ch' /\ concat ch' = [].
Proof.
  induction n as [|n IH]; intros i t cs ch R Hi Hz.
  - exists t, cs, ch. split_and!; [done|done|]. destruct (concat ch) as [|x l] eqn:E; [done|]. assert (x ∈ concat ch) as Hx by (rewrite E; by left).
    apply elem_concat in Hx as (j & c & Hj & Hx). pose proof (lookup_lt_Some _ _ _ Hj) as Hlt. rewrite (r_len _ _ _ R) in Hlt. rewrite Hz in Hj by lia. injection Hj as <-. by apply not_elem_of_nil in Hx.
  - destruct (rep_chain _ _ _ i R ltac:(lia)) as (c & Hc). destruct (free_bucket_spec _ _ _ _ _ R Hc) as (t' & cs' & E & R'). cbn [free_buckets]. rewrite E.
    apply (IH (S i) t' cs' (<[i := []]> ch) R'); [lia|]. intros j Hj. destruct (decide (j = i)) as [->|Hne]; [apply list_lookup_insert_eq; by apply lookup_lt_Some in Hc|].
    rewrite list_lookup_insert_ne by done. apply Hz. lia.
Qed.

Lemma exec_spec t cs ch op : rep t cs ch -> legal t cs op ->
  exists t' cs' ch', exec t cs op = Some (t', cs', snd (spec (amap ch) op)) /\ rep t' cs' ch' /\ amap ch' = fst (spec (amap ch) op).
Proof.
  intros R Hop. destruct op as [a|a d he|a|a|i|i rules|]; cbn [exec spec legal fst snd] in *.
  - destruct (dns_lookup_spec t cs ch a R Hop) as (l1 & l2 & found & _ & -> & _). by exists t, cs, ch.
  - destruct Hop as (Ha & Hd & Hhe). destruct (dns_lookup_spec t cs ch a R Ha) as (l1 & l2 & found & Hc & -> & Hst & Em).
    destruct (amap ch !! (lower <$> a)) as [d0|] eqn:E; [by exists t, cs, ch|]. destruct found as [p|]; [done|]. destruct he as [he|]; [|by exists t, cs, ch].
    destruct (add_spec t cs ch a d he l1 l2 R Ha Hc Hst E Hhe Hd) as (t' & ch' & -> & R' & Ea). by exists t', (<[d := wire a]> cs), ch'.
  - destruct (dns_lookup_spec t cs ch a R Hop) as (l1 & l2 & found & Hc & -> & Hst & Em). destruct found as [[p he]|]; simpl in Em.
    + rewrite <- Em. destruct (found_node t cs ch a l1 l2 p he R Hc Hst) as (x & l2' & -> & -> & Ed & Ek & ->). cbn [data] in *. unfold del_dns_hash_ent. cbn [pos].
      destruct (remove_spec _ _ _ _ _ _ _ R Hc) as (t1 & t' & Hload & Ex & Eq & Est & Efr & R' & Ea). rewrite Hload, Ex. cbn [next data]. rewrite Est, Efr. unfold del_cent. rewrite Eq.
      eexists _, _, _. split; [done|]. split; [exact R'|]. by rewrite Ea, Ek.
    + rewrite <- Em. exists t, cs, ch. split_and!; [done|done|]. by rewrite delete_id.
  - destruct (del_hash_spec t cs ch a R Hop) as [[Em ->]|(l1 & x & l2 & t' & Hc & Ek & Em & Eq & -> & R' & Ea)]; rewrite Em.
    + exists t, cs, ch. split_and!; [done|done|]. by rewrite delete_id.
    + unfold del_cent. rewrite Eq. eexists _, _, _. split; [done|]. split; [exact R'|done].
  - destruct (rep_chain _ _ _ i R Hop) as (c & Hc). destruct (free_bucket_spec _ _ _ _ _ R Hc) as (t' & cs' & -> & R'). exists t', cs', (<[i := []]> ch). split_and!; [done|done|].
    apply (amap_kept t cs ch t' cs' i c [] (fun _ => false) R Hc R'). intros x. split; [by intros ?%not_elem_of_nil|by intros [_ [=]]].
  - destruct Hop as [Hi Hr]. destruct (rep_chain _ _ _ i R Hi) as (c & Hc). destruct (r_chain _ _ _ R _ _ Hc) as (o & Ho & Hl). unfold free_dns_hash_selected. cbn [load]. rewrite Ho.
    rewrite (linked_head _ _ _ Hl). destruct (free_selected_loop_spec i rules c Hr (LOOKUP_FUEL t) t cs ch [] R Hc) as (t' & cs' & E & R').
    { pose proof (rep_size _ _ _ _ _ R Hc). unfold LOOKUP_FUEL. lia. }
    change (pos_after (Bucket i) []) with (Bucket i) in E. rewrite E. eexists t', cs', _. split; [done|]. split; [exact R'|].
    apply (amap_kept t cs ch t' cs' i c _ (fun k => negb (picked k rules)) R Hc R'). intros x. simpl. rewrite list_elem_of_filter, negb_true_iff. tauto.
  - destruct (free_buckets_spec HASH_NUM_BUCKETS 0 t cs ch R eq_refl) as (t' & cs' & ch' & E & R' & Ec); [lia|]. unfold free_dns_hash. rewrite E.
    exists t', cs', ch'. split_and!; [done|done|]. unfold amap. by rewrite Ec.
Qed.

(** The states of the table under calls in any order, with the map it stands for. *)
Inductive reach : hash_table -> cents -> gmap (list (list Z)) Z -> Prop :=
| reach_init : reach mk_dns_hash ∅ ∅
| reach_step t cs M op t' cs' r : reach t cs M -> legal t cs op -> exec t cs op = Some (t', cs', r) -> reach t' cs' (fst (spec M op)).

Lemma reach_rep t cs M : reach t cs M -> exists ch, rep t cs ch /\ M = amap ch.
Proof.
  induction 1 as [|t cs M op t' cs' r _ (ch & R & ->) Hop E].
  - exists (replicate HASH_NUM_BUCKETS []). split; [apply rep_empty|]. unfold amap. by rewrite concat_replicate_nil.
  - destruct (exec_spec t cs ch op R Hop) as (t1 & cs1 & ch' & E' & R' & Ea). rewrite E in E'. injection E' as <- <- _. by exists ch'.
Qed.

(** ** Memory *)

Lemma rep_memory t cs ch : rep t cs ch ->
  size (ents t) = size (amap ch) /\ forall d, d ∈ dom cs <-> exists k, amap ch !! k = Some d.
Proof.
  intros R. split.
  - unfold amap. rewrite <- size_dom, (r_dom _ _ _ R), size_list_to_set, map_size_list_to_map; [by rewrite !length_fmap| |apply (r_nodup _ _ _ R)].
    rewrite <- list_fmap_compose. apply (r_keys _ _ _ R).
  - intros d. rewrite (r_cents _ _ _ R), elem_of_list_to_set, list_elem_of_fmap. split.
    + intros (x & -> & Hx). exists (key_of x). apply (amap_lookup _ _ _ _ _ R). by exists x.
    + intros (k & Hk). apply (amap_lookup _ _ _ _ _ R) in Hk as (x & Hx & _ & <-). by exists x.
Qed.

(** C19. The table is a finite map from names, without case, to records: after any
    calls in any order the next call answers as the map does and leaves the map changed
    likewise; it reads and frees only what is allocated, and afterwards there is one
    entry for each record of the map and no other record. *)
Theorem hash_refines t cs M op : reach t cs M -> legal t cs op ->
  exists t' cs', exec t cs op = Some (t', cs', snd (spec M op)) /\ reach t' cs' (fst (spec M op)) /\
    size (ents t') = size (fst (spec M op)) /\ forall d, d ∈ dom cs' <-> exists k, fst (spec M op) !! k = Some d.
Proof.
  intros Hr Hop. destruct (reach_rep t cs M Hr) as (ch & R & ->). destruct (exec_spec t cs ch op R Hop) as (t' & cs' & ch' & E & R' & Ea).
  exists t', cs'. split; [done|]. split; [by eapply reach_step|]. rewrite <- Ea. by apply rep_memory.
Qed.

(** ** Iterating while deleting *)

Lemma split_unique {A B} (f : A -> B) l1 : forall l1' x y l2 l2', NoDup (f <$> l1 ++ x :: l2) -> l1 ++ x :: l2 = l1' ++ y :: l2' -> f y = f x ->
  l1 = l1' /\ l2 = l2'.
Proof.
  induction l1 as [|z l1 IH]; intros [|z' l1'] x y l2 l2' Hn E Ef; simplify_list_eq; rewrite ?fmap_cons in Hn; try apply list.NoDup_cons in Hn as [Hz Hn].
  - done.
  - destruct Hz. rewrite ?fmap_app, ?fmap_cons. set_solver.
  - destruct Hz. rewrite ?fmap_app, ?fmap_cons. set_solver.
  - destruct (IH l1' x y l2 l2') as [-> ->]; [by rewrite fmap_app|done..].
Qed.

Lemma chain_keys t cs ch i c : rep t cs ch -> ch !! i = Some c -> NoDup (key_of <$> c).
Proof.
  intros R Hc. pose proof (r_keys _ _ _ R) as Hn. rewrite <- (take_drop_middle _ _ _ Hc), concat_app, fmap_app in Hn. simpl in Hn.
  apply list.NoDup_app in Hn as (_ & _ & Hn). rewrite fmap_app in Hn. by apply list.NoDup_app in Hn as (Hn & _).
Qed.

(** Deleting a record by its own name takes it out of its chain. *)
Lemma del_own t cs ch j l1 x l2 : rep t cs ch -> ch !! j = Some (l1 ++ x :: l2) ->
  exists t', cs !! nd x = Some (wire (nn x)) /\ del_dns_hash long_bits t cs (wire (nn x)) = Some (t', Some (nd x)) /\
    legal t cs (HDel (nn x)) /\ rep t' (delete (nd x) cs) (<[j := l1 ++ l2]> ch) /\ amap ch !! key_of x = Some (nd x) /\
    amap (<[j := l1 ++ l2]> ch) = delete (key_of x) (amap ch).
Proof.
  intros R Hc. destruct (r_node _ _ _ R _ _ x Hc) as (Hcs & Hn & Hh); [apply elem_of_app; right; by left|].
  assert (amap ch !! key_of x = Some (nd x)) as Hx by (apply (amap_lookup _ _ _ _ _ R); exists x; split; [|done]; eapply elem_chain, elem_of_app; [done|right; by left]).
  destruct (del_hash_spec t cs ch (nn x) R Hn) as [[Em _]|(l1' & y & l2' & t' & Hc' & Ek & Em & Eq & E & R' & Ea)].
  { unfold key_of in Hx. by rewrite Em in Hx. }
  rewrite Hh in Hc', R', Ea. cbn [fst] in Hc', R', Ea. rewrite Hc in Hc'. injection Hc' as El. fold (key_of x) in Em, Ek. rewrite Hx in Em. injection Em as Ed.
  pose proof (chain_keys _ _ _ _ _ R Hc) as Hk. destruct (split_unique key_of l1 l1' x y l2 l2' Hk El Ek) as [<- <-].
  rewrite <- Ed in *. by exists t'.
Qed.

(** What is left of the map when the picked ones of [ds] are deleted. *)
Definition left_by (pick : Z -> bool) (ds : list Z) (M : gmap (list (list Z)) Z) : gmap (list (list Z)) Z :=
  filter (fun kd => pick (snd kd) = true -> snd kd ∉ ds) M.

Lemma left_nil pick M : left_by pick [] M = M.
Proof. apply map_filter_id. intros k d _ _. apply not_elem_of_nil. Qed.

Lemma left_cons pick d ds M : left_by pick ds (left_by pick [d] M) = left_by pick (d :: ds) M.
Proof.
  apply map_eq. intros k. apply option_eq. intros d'. unfold left_by. rewrite !map_lookup_filter_Some. simpl. rewrite not_elem_of_cons, not_elem_of_cons.
  pose proof (not_elem_of_nil d'). tauto.
Qed.

Lemma amap_inj t cs ch k k' d : rep t cs ch -> amap ch !! k = Some d -> amap ch !! k' = Some d -> k = k'.
Proof.
  intros R Hk Hk'. apply (amap_lookup _ _ _ _ _ R) in Hk as (x & Hx & <- & Ed). apply (amap_lookup _ _ _ _ _ R) in Hk' as (x' & Hx' & <- & Ed').
  apply list_elem_of_lookup in Hx as (i & Hi). apply list_elem_of_lookup in Hx' as (i' & Hi').
  pose proof (NoDup_lookup (nd <$> concat ch) i i' d (r_data _ _ _ R)) as E. rewrite !list_lookup_fmap, Hi, Hi' in E. simpl in E. rewrite Ed, Ed' in E.
  rewrite (E eq_refl eq_refl), Hi' in Hi. by injection Hi as ->.
Qed.

Lemma delete_left t cs ch k d pick : rep t cs ch -> amap ch !! k = Some d -> pick d = true -> delete k (amap ch) = left_by pick [d] (amap ch).
Proof.
  intros R Hk Hp. apply map_eq. intros k'. apply option_eq. intros d'. unfold left_by. rewrite map_lookup_filter_Some, lookup_delete_Some. simpl.
  rewrite list_elem_of_singleton. split.
  - intros [Hne Hk']. split; [done|]. intros _ ->. apply Hne. by eapply amap_inj.
  - intros [Hk' Hd]. split; [|done]. intros ->. rewrite Hk in Hk'. injection Hk' as ->. by apply Hd.
Qed.

Lemma left_other pick d M : pick d = false -> left_by pick [d] M = M.
Proof. intros Hp. apply map_filter_id. intros k d' _. simpl. rewrite list_elem_of_singleton. intros Hd ->. congruence. Qed.

(** The caller's step: the record fetched last is deleted or not, and its chain is cut or not. *)
Lemma fetch_step t cs ch j l1 x l2 (pick : Z -> bool) : reach t cs (amap ch) -> rep t cs ch -> ch !! j = Some ((l1 ++ [x]) ++ l2) ->
  exists t0 cs0 lx, let ch0 := <[j := lx ++ l2]> ch in
    (if pick (nd x) then
       let* name := cs !! nd x in
       let* (t, o) := del_dns_hash long_bits t cs name in
       let* d' := o in let* cs := del_cent d' cs in Some (t, cs)
     else Some (t, cs)) = Some (t0, cs0) /\
    reach t0 cs0 (amap ch0) /\ rep t0 cs0 ch0 /\ ch0 !! j = Some (lx ++ l2) /\ amap ch0 = left_by pick [nd x] (amap ch) /\
    drop (S j) ch0 = drop (S j) ch.
Proof.
  intros Hr R Hc. assert (drop (S j) (<[j := l1 ++ l2]> ch) = drop (S j) ch) as Hd by (apply drop_insert_lt; lia).
  destruct (pick (nd x)) eqn:Ep.
  - rewrite <- app_assoc in Hc. simpl in Hc. destruct (del_own t cs ch j l1 x l2 R Hc) as (t1 & Hcs & E & Hleg & R1 & Hx & Ea).
    exists t1, (delete (nd x) cs), l1. cbv zeta. rewrite Hcs, E. unfold del_cent. rewrite Hcs, Ea. split_and!; try done.
    + apply (reach_step t cs (amap ch) (HDel (nn x)) t1 (delete (nd x) cs) (Some (nd x)) Hr Hleg). cbn [exec]. rewrite E. unfold del_cent. by rewrite Hcs.
    + apply list_lookup_insert_eq. by eapply lookup_lt_Some.
    + by eapply delete_left.
  - exists t, cs, (l1 ++ [x]). cbv zeta. rewrite list_insert_id by done. split_and!; try done. by rewrite left_other.
Qed.

Lemma fetch_all_spec pick n : forall t cs ch j l1 x l2 fuel, reach t cs (amap ch) -> rep t cs ch -> ch !! j = Some ((l1 ++ [x]) ++ l2) ->
  length (l2 ++ concat (drop (S j) ch)) = n -> (n < fuel)%nat ->
  let ds := nd <$> x :: l2 ++ concat (drop (S j) ch) in
  exists t' cs', fetch_all fuel t cs pick (Some (nd x, mkPos j (head_of l2))) = Some (ds, t', cs') /\ reach t' cs' (left_by pick ds (amap ch)).
Proof.
  induction n as [|n IH]; intros t cs ch j l1 x l2 fuel Hr R Hc Hn Hf ds; (destruct fuel as [|fuel]; [lia|]); cbn [fetch_all];
    destruct (fetch_step t cs ch j l1 x l2 pick Hr R Hc) as (t0 & cs0 & lx & -> & Hr0 & R0 & Hj & Ea & Hd);
    destruct (fetch_next_spec t0 cs0 _ j lx l2 R0 Hj) as [[El Ef]|(j' & l1' & x' & l2' & Hc2 & El & Ef)]; rewrite Ef; rewrite Hd in El;
    subst ds; rewrite El in Hn |- *; try done.
  - exists t0, cs0. split; [by destruct fuel|]. change (nd <$> [x]) with [nd x]. by rewrite <- Ea.
  - simpl in Hn. injection Hn as Hn. destruct (IH t0 cs0 _ j' l1' x' l2' fuel Hr0 R0 Hc2 Hn ltac:(lia)) as (t2 & cs2 & -> & Hr2).
    exists t2, cs2. split; [done|]. rewrite Ea, left_cons in Hr2. exact Hr2.
Qed.

(** C32. The loop of [fetch_first] and [fetch_next] ends and fetches every record once,
    also when any of the records are deleted as they are fetched, and leaves the others. *)
Theorem hash_iterates t cs M pick : reach t cs M ->
  exists r ds t' cs', fetch_first t = Some r /\ fetch_all (size (ents t)) t cs pick r = Some (ds, t', cs') /\
    NoDup ds /\ (forall d, d ∈ ds <-> exists k, M !! k = Some d) /\
    reach t' cs' (filter (fun kd => pick (snd kd) = false) M).
Proof.
  intros Hr. destruct (reach_rep t cs M Hr) as (ch & R & ->). unfold fetch_first.
  assert (forall ds, ds = nd <$> concat ch -> NoDup ds /\ (forall d, d ∈ ds <-> exists k, amap ch !! k = Some d) /\
    filter (fun kd => pick (snd kd) = false) (amap ch) = left_by pick ds (amap ch)) as Hds.
  { intros ds ->. pose proof (rep_memory _ _ _ R) as [_ Hm]. rewrite (r_cents _ _ _ R) in Hm. setoid_rewrite elem_of_list_to_set in Hm.
    split; [apply (r_data _ _ _ R)|]. split; [done|]. apply map_filter_ext. intros k d Hk. simpl. split; [congruence|].
    intros H. destruct (pick d); [|done]. exfalso. apply (H eq_refl), Hm. by exists k. }
  destruct (fetch_bucket_spec t cs ch HASH_NUM_BUCKETS R 0 eq_refl) as [[El Ef]|(j & x & l2 & Hj & El & Ef)]; rewrite drop_0 in El; rewrite Ef; eexists _.
  - exists [], t, cs. rewrite El in Hds. destruct (Hds [] eq_refl) as (H1 & H2 & ->). split_and!; [done|by destruct (size (ents t))|done|done|]. by rewrite left_nil.
  - rewrite El in Hds. destruct (fetch_all_spec pick _ t cs ch j [] x l2 (size (ents t)) Hr R Hj eq_refl) as (t' & cs' & E & Hr').
    { rewrite <- size_dom, (r_dom _ _ _ R), size_list_to_set, length_fmap, El by apply (r_nodup _ _ _ R). simpl. lia. }
    destruct (Hds _ eq_refl) as (H1 & H2 & ->). eexists _, t', cs'. split; [done|]. split; [exact E|]. done.
Qed.

End Hash.

(** ** Witnesses *)

(** The table after [add] of the name [www.a]. *)
Definition ex_add : hash_op := HAdd [[119; 119; 119]; [97]] 7 (Some 100).
Definition ex_table : hash_table := from_option (fun r => fst (fst r)) mk_dns_hash (exec 64 mk_dns_hash ∅ ex_add).
Definition ex_cents : cents := from_option (fun r => snd (fst r)) ∅ (exec 64 mk_dns_hash ∅ ex_add).
Definition ex_map : gmap (list (list Z)) Z := fst (spec 64 ∅ ex_add).

Lemma ex_reach : reach 64 ex_table ex_cents ex_map.
Proof.
  apply (reach_step 64 mk_dns_hash ∅ ∅ ex_add ex_table ex_cents None (reach_init 64)).
  - split; [split; [repeat constructor; vm_compute; done|vm_compute; done]|]. split; vm_compute; done.
  - vm_compute. reflexivity.
Qed.

Lemma hash_refines_witness : legal ex_table ex_cents (HDel [[87; 119; 87]; [65]]) /\
  (exists t' cs', exec 64 ex_table ex_cents (HDel [[87; 119; 87]; [65]]) = Some (t', cs', Some 7) /\ size (ents t') = 0%nat).
Proof.
  assert (legal ex_table ex_cents (HDel [[87; 119; 87]; [65]])) as Hop by (split; [repeat constructor; vm_compute; done|vm_compute; done]).
  split; [exact Hop|].
  destruct (hash_refines 64 ex_table ex_cents ex_map (HDel [[87; 119; 87]; [65]]) ex_reach Hop) as (t' & cs' & E & _ & Hs & _).
  exists t', cs'. split; [exact E|exact Hs].
Defined.

Lemma hash_iterates_witness : reach 64 ex_table ex_cents ex_map /\
  exists r ds t' cs', fetch_first ex_table = Some r /\ fetch_all 64 (size (ents ex_table)) ex_table ex_cents (fun d => d =? 7) r = Some (ds, t', cs') /\ 7 ∈ ds /\
    reach 64 t' cs' ∅.
Proof.
  split; [apply ex_reach|].
  destruct (hash_iterates 64 ex_table ex_cents ex_map (fun d => d =? 7) ex_reach) as (r & ds & t' & cs' & H1 & H2 & _ & H3 & H4).
  exists r, ds, t', cs'. split; [exact H1|]. split; [exact H2|]. split; [|exact H4]. apply H3. by exists [[119; 119; 119]; [97]].
Defined.
