(* ===== verification/CacheLock.v ===== *)
(** * pdnsd: the readers-writer lock of the cache ([pdnsd/src/cache.c])

    Threads take the lock for reading or writing, sleep on two condition variables, are
    woken by signal and broadcast, give the lock up for a while, time out, or only try.
    A step is what one thread does while it holds [lock_mutex]: from locking the mutex,
    or being given it back by [pthread_cond_wait], to unlocking it or sleeping. Which
    sleeper a signal wakes, wake-ups without a signal, time-outs and whether a mutex is
    got by trying are up to the environment. *)

From S2P Require Import Prelude.
#[global] Open Scope Z_scope.

Definition SOFTLOCK_MAXTRIES : Z := 1000.
Definition SUSP_THRESH (r_pend : Z) : Z := r_pend `quot` 2 + 2.

Record cache_lock := mkLock {
  use_cache_lock : bool;
  cache_w_lock : bool;
  cache_r_lock : Z;
  r_pend : Z;
  rw_pend : Z;
  r_susp : bool
}.

(** Where a thread is. *)
Inductive pc :=
| Out
| RSleep                (* in [lock_cache_r], on [r_cond] *)
| RWoken                (* woken, without the mutex yet *)
| Reading
| WSleep (timed : bool) (* in [lock_cache_rw], [yield_lock_cache_rw] or, timed, [timedlock_cache_rw], on [rw_cond] *)
| WWoken (timed : bool)
| WExpired              (* the time of [timedlock_cache_rw] is over *)
| Writing
| YieldGo               (* in [yield_lock_cache_rw], still holding the lock *)
| YieldSleep            (* in its [usleep_r] *)
| SoftR (tr : Z)        (* in [softlock_cache_r], after [tr] trials *)
| SoftRW (tr : Z).

(** What is done to the condition variables. *)
Inductive wake := NoWake | SignalRW | BroadcastR.

(** ** The lock's functions *)

Definition susp (b : bool) (l : cache_lock) : cache_lock := mkLock (use_cache_lock l) (cache_w_lock l) (cache_r_lock l) (r_pend l) (rw_pend l) b.
Definition pend_r (d : Z) (l : cache_lock) : cache_lock := mkLock (use_cache_lock l) (cache_w_lock l) (cache_r_lock l) (r_pend l + d) (rw_pend l) (r_susp l).
Definition pend_rw (d : Z) (l : cache_lock) : cache_lock := mkLock (use_cache_lock l) (cache_w_lock l) (cache_r_lock l) (r_pend l) (rw_pend l + d) (r_susp l).
Definition readers (d : Z) (l : cache_lock) : cache_lock := mkLock (use_cache_lock l) (cache_w_lock l) (cache_r_lock l + d) (r_pend l) (rw_pend l) (r_susp l).
Definition writer (b : bool) (l : cache_lock) : cache_lock := mkLock (use_cache_lock l) b (cache_r_lock l) (r_pend l) (rw_pend l) (r_susp l).

(** [while(((rw_pend>SUSP_THRESH(r_pend))?(r_susp=1):r_susp) || cache_w_lock)], and
    what follows. *)
Definition r_loop (l : cache_lock) : cache_lock * pc :=
  let l := if rw_pend l >? SUSP_THRESH (r_pend l) then susp true l else l in
  if r_susp l || cache_w_lock l then (l, RSleep) else (pend_r (-1) (readers 1 l), Reading).

Definition lock_cache_r (l : cache_lock) : cache_lock * pc :=
  if negb (use_cache_lock l) then (l, Reading) else r_loop (pend_r 1 l).

Definition drop_reader (l : cache_lock) : cache_lock := if cache_r_lock l >? 0 then readers (-1) l else l.

Definition unlock_cache_r (l : cache_lock) : cache_lock * wake :=
  if negb (use_cache_lock l) then (l, NoWake)
  else let l := drop_reader l in (l, if cache_r_lock l =? 0 then SignalRW else NoWake).

(** [while(cache_w_lock || cache_r_lock)], and what follows. *)
Definition rw_loop (timed : bool) (l : cache_lock) : cache_lock * pc :=
  if cache_w_lock l || negb (cache_r_lock l =? 0) then (l, WSleep timed) else (pend_rw (-1) (writer true l), Writing).

Definition lock_cache_rw (l : cache_lock) : cache_lock * pc :=
  if negb (use_cache_lock l) then (l, Writing) else rw_loop false (pend_rw 1 l).

Definition timedlock_cache_rw (l : cache_lock) : cache_lock * pc :=
  if negb (use_cache_lock l) then (l, Out) else rw_loop true (pend_rw 1 l).

(** [cleanup_return] after a time-out. *)
Definition timedlock_expired (l : cache_lock) : cache_lock * pc := (pend_rw (-1) l, Out).

(** The body of [unlock_cache_rw], and the first one of [yield_lock_cache_rw]. *)
Definition release_rw (l : cache_lock) : cache_lock * wake :=
  let l := susp false (writer false l) in
  (l, if (r_pend l =? 0) || (rw_pend l >? SUSP_THRESH (r_pend l)) then SignalRW else BroadcastR).

Definition unlock_cache_rw (l : cache_lock) : cache_lock * wake :=
  if negb (use_cache_lock l) then (l, NoWake) else release_rw l.

(** [yield_lock_cache_rw]: the test that is made without the mutex, giving the lock up,
    and getting it back. *)
Definition yield_check (l : cache_lock) : pc :=
  if negb (use_cache_lock l) || ((r_pend l =? 0) && (rw_pend l =? 0)) then Writing else YieldGo.
Definition yield_relock (l : cache_lock) : cache_lock * pc := rw_loop false (pend_rw 1 l).

(** A trial of [softlock_cache_r] and [softlock_cache_rw]; [got]: [softlock_mutex] got the mutex. *)
Definition soft_r_try (got : bool) (tr : Z) (l : cache_lock) : cache_lock * pc :=
  if negb got then (l, Out)
  else if negb (cache_w_lock l) then (readers 1 l, Reading)
  else (l, if tr + 1 >=? SOFTLOCK_MAXTRIES then Out else SoftR (tr + 1)).

Definition soft_rw_try (got : bool) (tr : Z) (l : cache_lock) : cache_lock * pc :=
  if negb got then (l, Out)
  else if negb (cache_w_lock l || negb (cache_r_lock l =? 0)) then (writer true l, Writing)
  else (l, if tr + 1 >=? SOFTLOCK_MAXTRIES then Out else SoftRW (tr + 1)).

Definition softlock_cache_r (got : bool) (l : cache_lock) : cache_lock * pc :=
  if negb (use_cache_lock l) then (l, Out) else soft_r_try got 0 l.

Definition softlock_cache_rw (got : bool) (l : cache_lock) : cache_lock * pc :=
  if negb (use_cache_lock l) then (l, Out) else soft_rw_try got 0 l.

(** Without the mutex the lock stays held. *)
Definition softunlock_cache_r (got : bool) (l : cache_lock) : cache_lock * pc :=
  if negb (use_cache_lock l) then (l, Reading) else if negb got then (l, Reading) else (drop_reader l, Out).

Definition softunlock_cache_rw (got : bool) (l : cache_lock) : cache_lock * pc :=
  if negb (use_cache_lock l) then (l, Writing) else if negb got then (l, Writing) else (writer false l, Out).

(** ** Threads *)

(** A call, a thread going on with the mutex, the time of a timed wait being over, and
    a wake-up without a signal. *)
Inductive event :=
| LockR | UnlockR | LockRW | TimedLockRW | UnlockRW | Yield
| SoftLockR | SoftUnlockR | SoftLockRW | SoftUnlockRW
| Continue | Expire | Wakeup.

Definition thread_step (e : event) (got : bool) (p : pc) (l : cache_lock) : option (cache_lock * pc * wake) :=
  let quiet (r : cache_lock * pc) := Some (r, NoWake) in
  let leave (r : cache_lock * wake) (p : pc) := Some (fst r, p, snd r) in
  match e, p with
  | LockR, Out => quiet (lock_cache_r l)
  | UnlockR, Reading => leave (unlock_cache_r l) Out
  | LockRW, Out => quiet (lock_cache_rw l)
  | TimedLockRW, Out => quiet (timedlock_cache_rw l)
  | UnlockRW, Writing => leave (unlock_cache_rw l) Out
  | Yield, Writing => quiet (l, yield_check l)
  | SoftLockR, Out => quiet (softlock_cache_r got l)
  | SoftUnlockR, Reading => quiet (softunlock_cache_r got l)
  | SoftLockRW, Out => quiet (softlock_cache_rw got l)
  | SoftUnlockRW, Writing => quiet (softunlock_cache_rw got l)
  | Continue, RWoken => quiet (r_loop l)
  | Continue, WWoken timed => quiet (rw_loop timed l)
  | Continue, WExpired => quiet (timedlock_expired l)
  | Continue, YieldGo => leave (release_rw l) YieldSleep
  | Continue, YieldSleep => quiet (yield_relock l)
  | Continue, SoftR tr => quiet (soft_r_try got tr l)
  | Continue, SoftRW tr => quiet (soft_rw_try got tr l)
  | Expire, WSleep true => quiet (l, WExpired)
  | Wakeup, RSleep => quiet (l, RWoken)
  | Wakeup, WSleep timed => quiet (l, WWoken timed)
  | _, _ => None
  end.

Definition wsleeps (p : pc) : bool := match p with WSleep _ => true | _ => false end.
Definition rwake (p : pc) : pc := match p with RSleep => RWoken | p => p end.

(** A signal wakes the sleeper [pick], if there is any sleeper. *)
Definition wake_up (w : wake) (pick : nat) (ts : list pc) : option (list pc) :=
  match w with
  | NoWake => Some ts
  | SignalRW =>
      match ts !! pick with
      | Some (WSleep timed) => Some (<[pick := WWoken timed]> ts)
      | _ => if existsb wsleeps ts then None else Some ts
      end
  | BroadcastR => Some (rwake <$> ts)
  end.

Record world := mkWorld { lock : cache_lock; threads : list pc }.
Record choice := mkChoice { who : nat; what : event; got : bool; pick : nat }.

Definition step (w : world) (c : choice) : option world :=
  let* p := threads w !! who c in
  let* (l, p, wk) := thread_step (what c) (got c) p (lock w) in
  let* ts := wake_up wk (pick c) (<[who c := p]> (threads w)) in
  Some (mkWorld l ts).

(** The static initial values, and [init_cache_lock]. *)
Definition cache_lock_0 : cache_lock := mkLock false false 0 0 0 false.
Definition init_cache_lock (l : cache_lock) : cache_lock := mkLock true (cache_w_lock l) (cache_r_lock l) (r_pend l) (rw_pend l) (r_susp l).
Definition init_world (n : nat) : world := mkWorld (init_cache_lock cache_lock_0) (replicate n Out).

(** The states of [n] threads under any of the events that [ok] allows. *)
Inductive reach (ok : event -> bool) (n : nat) : world -> Prop :=
| reach_init : reach ok n (init_world n)
| reach_step w c w' : reach ok n w -> ok (what c) = true -> step w c = Some w' -> reach ok n w'.

(** ** Counting threads *)

Definition cnt (f : pc -> bool) (ts : list pc) : Z := zlen (filter (fun p => f p = true) ts).

Definition rsleeps (p : pc) : bool := match p with RSleep => true | _ => false end.
Definition rwoken (p : pc) : bool := match p with RWoken => true | _ => false end.
Definition wwoken (p : pc) : bool := match p with WWoken _ => true | _ => false end.
Definition expired (p : pc) : bool := match p with WExpired => true | _ => false end.
Definition reads (p : pc) : bool := match p with Reading => true | _ => false end.
Definition writes (p : pc) : bool := match p with Writing | YieldGo => true | _ => false end.

Lemma cnt_cons f p ts : cnt f (p :: ts) = Z.b2z (f p) + cnt f ts.
Proof. unfold cnt. rewrite filter_cons. case_decide as H; destruct (f p); try done; rewrite ?zlen_cons; simpl; lia. Qed.

Lemma cnt_nonneg f ts : 0 <= cnt f ts.
Proof. apply zlen_nonneg. Qed.

Lemma cnt_insert f ts : forall i p q, ts !! i = Some p -> cnt f (<[i := q]> ts) = cnt f ts - Z.b2z (f p) + Z.b2z (f q).
Proof.
  induction ts as [|x ts IH]; intros [|i] p q Hi; try done; simpl.
  - injection Hi as ->. rewrite !cnt_cons. lia.
  - rewrite !cnt_cons, (IH i p q Hi). lia.
Qed.

Lemma cnt_pos f ts : 0 < cnt f ts <-> exists i p, ts !! i = Some p /\ f p = true.
Proof.
  induction ts as [|x ts IH].
  - split; [done|]. by intros (i & p & Hi & _).
  - rewrite cnt_cons. pose proof (cnt_nonneg f ts). split.
    + intros Hp. destruct (f x) eqn:E; [by exists O, x|]. destruct IH as [IH _]. destruct IH as (i & p & Hi & Hf); [simpl in Hp; lia|]. by exists (S i), p.
    + intros ([|i] & p & Hi & Hf); simpl in Hi; [injection Hi as <-; rewrite Hf; simpl; lia|]. destruct IH as [_ IH].
      enough (0 < cnt f ts) by (destruct (f x); simpl; lia). apply IH. by exists i, p.
Qed.

(** Two different threads count as two. *)
Lemma cnt_two f ts i j p q : f Out = false -> ts !! i = Some p -> ts !! j = Some q -> f p = true -> f q = true -> i <> j -> 2 <= cnt f ts.
Proof.
  intros Ho Hi Hj Hp Hq Hne. pose proof (cnt_insert f ts i p Out Hi) as E1. pose proof (cnt_insert f (<[i := Out]> ts) j q Out) as E2.
  rewrite list_lookup_insert_ne in E2 by done. specialize (E2 Hj). pose proof (cnt_nonneg f (<[j := Out]> (<[i := Out]> ts))). rewrite Hp, Ho in E1. rewrite Hq, Ho in E2. simpl in *. lia.
Qed.

Lemma cnt_replicate f n p : f p = false -> cnt f (replicate n p) = 0.
Proof. intros Hf. induction n as [|n IH]; [done|]. cbn [replicate]. rewrite cnt_cons, Hf, IH. done. Qed.

Lemma cnt_rwake f ts : f RWoken = false -> cnt f (rwake <$> ts) = cnt f ts - (if f RSleep then cnt rsleeps ts else 0).
Proof.
  intros Hf. induction ts as [|p ts IH]; [by destruct (f RSleep)|]. rewrite fmap_cons, !cnt_cons, IH. destruct p; simpl; rewrite ?Hf; destruct (f RSleep); simpl; lia.
Qed.

Lemma cnt_rwoken ts : cnt rwoken (rwake <$> ts) = cnt rwoken ts + cnt rsleeps ts.
Proof. induction ts as [|p ts IH]; [done|]. rewrite fmap_cons, !cnt_cons, IH. destruct p; simpl; lia. Qed.

Lemma existsb_cnt f ts : existsb f ts = false -> cnt f ts = 0.
Proof.
  intros He. pose proof (cnt_nonneg f ts). destruct (Z.eq_dec (cnt f ts) 0) as [|Hne]; [done|]. destruct (proj1 (cnt_pos f ts)) as (i & p & Hi & Hf); [lia|].
  enough (existsb f ts = true) by congruence. apply existsb_exists. exists p. split; [|done]. apply list_elem_of_In. by eapply list_elem_of_lookup_2.
Qed.

Lemma wake_up_spec wk pick ts ts' : wake_up wk pick ts = Some ts' ->
  cnt reads ts' = cnt reads ts /\ cnt writes ts' = cnt writes ts /\ cnt expired ts' = cnt expired ts /\
  match wk with
  | NoWake => cnt rsleeps ts' = cnt rsleeps ts /\ cnt rwoken ts' = cnt rwoken ts /\ cnt wsleeps ts' = cnt wsleeps ts /\ cnt wwoken ts' = cnt wwoken ts
  | SignalRW => cnt rsleeps ts' = cnt rsleeps ts /\ cnt rwoken ts' = cnt rwoken ts /\
      (cnt wsleeps ts' = cnt wsleeps ts - 1 /\ cnt wwoken ts' = cnt wwoken ts + 1 \/
       cnt wsleeps ts = 0 /\ cnt wsleeps ts' = 0 /\ cnt wwoken ts' = cnt wwoken ts)
  | BroadcastR => cnt rsleeps ts' = 0 /\ cnt rwoken ts' = cnt rwoken ts + cnt rsleeps ts /\ cnt wsleeps ts' = cnt wsleeps ts /\ cnt wwoken ts' = cnt wwoken ts
  end.
Proof.
  destruct wk; cbn [wake_up].
  - intros [= <-]. tauto.
  - destruct (ts !! pick) as [[]|] eqn:E; intros H;
      try (destruct (existsb wsleeps ts) eqn:Ex; [done|]; injection H as <-; apply existsb_cnt in Ex; rewrite !Ex; tauto).
    injection H as <-. rewrite !(cnt_insert _ _ _ _ _ E). simpl. repeat split; try lia.
  - intros [= <-]. rewrite cnt_rwoken, !cnt_rwake by done. simpl. repeat split; lia.
Qed.

(** ** Exclusion *)

(** What the lock's variables count. *)
Record lock_inv (w : world) : Prop := {
  i_use : use_cache_lock (lock w) = true;
  i_r : cache_r_lock (lock w) = cnt reads (threads w);
  i_w : Z.b2z (cache_w_lock (lock w)) = cnt writes (threads w);
  i_excl : cnt writes (threads w) = 0 \/ cnt reads (threads w) = 0;
  i_rpend : r_pend (lock w) = cnt rsleeps (threads w) + cnt rwoken (threads w);
  i_rwpend : rw_pend (lock w) = cnt wsleeps (threads w) + cnt wwoken (threads w) + cnt expired (threads w)
}.

Lemma inv_init n : lock_inv (init_world n).
Proof. split; cbn [init_world lock threads init_cache_lock cache_lock_0 use_cache_lock cache_r_lock cache_w_lock r_pend rw_pend]; rewrite ?cnt_replicate by done; auto. Qed.

(** The threads after a step, by kind. *)
Lemma step_threads w c w' : step w c = Some w' -> exists p q wk,
  threads w !! who c = Some p /\ thread_step (what c) (got c) p (lock w) = Some (lock w', q, wk) /\
  wake_up wk (pick c) (<[who c := q]> (threads w)) = Some (threads w') /\
  forall f, cnt f (<[who c := q]> (threads w)) = cnt f (threads w) - Z.b2z (f p) + Z.b2z (f q).
Proof.
  unfold step. destruct (threads w !! who c) as [p|] eqn:Hp; [|done]. destruct (thread_step _ _ _ _) as [[[l q] wk]|] eqn:Et; [|done].
  destruct (wake_up _ _ _) as [ts|] eqn:Ew; [|done]. intros [= <-]. exists p, q, wk. split_and!; try done. intros f. by apply cnt_insert.
Qed.

(** The bounds of the counts that the arithmetic needs. *)
Lemma cnt_bounds ts : 0 <= cnt reads ts /\ 0 <= cnt writes ts /\ 0 <= cnt rsleeps ts /\ 0 <= cnt rwoken ts /\ 0 <= cnt wsleeps ts /\ 0 <= cnt wwoken ts /\ 0 <= cnt expired ts.
Proof. repeat split; apply cnt_nonneg. Qed.

(** Unfold the functions of the lock and split on their tests. *)
Ltac lock_cases H :=
  cbv beta iota zeta delta [thread_step lock_cache_r r_loop unlock_cache_r drop_reader lock_cache_rw timedlock_cache_rw rw_loop timedlock_expired unlock_cache_rw release_rw
    yield_check yield_relock softlock_cache_r soft_r_try softlock_cache_rw soft_rw_try softunlock_cache_r softunlock_cache_rw susp pend_r pend_rw readers writer
    use_cache_lock cache_w_lock cache_r_lock r_pend rw_pend r_susp lock threads fst snd] in H;
  repeat match type of H with
  | context [if ?b then _ else _] => let E := fresh "E" in destruct b eqn:E
  | context [match ?b with _ => _ end] => let E := fresh "E" in destruct b eqn:E
  end; try discriminate H.

Lemma inv_step w c w' : lock_inv w -> step w c = Some w' -> lock_inv w'.
Proof.
  intros [Hu Hr Hw Hx Hp Hq] Hs. apply step_threads in Hs as (p & q & wk & _ & Et & Ew & Hc). apply wake_up_spec in Ew as (Cr & Cw & Ce & Ck).
  rewrite !Hc in Cr, Cw, Ce. pose proof (Hc rsleeps) as C1. pose proof (Hc rwoken) as C2. pose proof (Hc wsleeps) as C3. pose proof (Hc wwoken) as C4. pose proof (cnt_bounds (threads w)) as Hb. pose proof (cnt_bounds (threads w')) as Hb'. clear Hc.
  destruct w as [[u b r rp wp s] ts], w' as [[u' b' r' rp' wp' s'] ts']. cbn [lock threads use_cache_lock cache_w_lock cache_r_lock r_pend rw_pend] in *. subst u.
  destruct b, (what c), p; try discriminate Et; lock_cases Et; injection Et as <- <- <- <- <- <- <- <-;
    (split; cbn [lock threads use_cache_lock cache_w_lock cache_r_lock r_pend rw_pend]; [done|..]); simpl in Cr, Cw, Ce, Ck, C1, C2, C3, C4, Hw |- *; lia.
Qed.

Lemma reach_inv ok n w : reach ok n w -> lock_inv w.
Proof. induction 1 as [|w c w' _ IH _ Hs]; [apply inv_init|by eapply inv_step]. Qed.

(** A thread has the lock. *)
Definition holds (p : pc) : bool := reads p || writes p.

(** C29. Whatever the threads and the environment do, while one thread writes no
    other reads or writes, and the variables of the lock count exactly the threads
    that read, that write, and that wait to. *)
Theorem cache_lock_exclusive ok n w : reach ok n w ->
  (forall i j p q, threads w !! i = Some p -> threads w !! j = Some q -> writes p = true -> holds q = true -> i = j) /\
  cache_r_lock (lock w) = cnt reads (threads w) /\ Z.b2z (cache_w_lock (lock w)) = cnt writes (threads w) /\
  r_pend (lock w) = cnt rsleeps (threads w) + cnt rwoken (threads w) /\
  rw_pend (lock w) = cnt wsleeps (threads w) + cnt wwoken (threads w) + cnt expired (threads w).
Proof.
  intros Hr. apply reach_inv in Hr as [_ Hr Hw Hx Hp Hq]. split_and!; [|done..]. intros i j p q Hi Hj Hwp Hh.
  assert (0 < cnt writes (threads w)) by (apply cnt_pos; by exists i, p). unfold holds in Hh. apply orb_prop in Hh as [Hq'|Hq'].
  - assert (0 < cnt reads (threads w)) by (apply cnt_pos; by exists j, q). lia.
  - destruct (decide (i = j)) as [|Hne]; [done|]. pose proof (cnt_two writes _ _ _ _ _ eq_refl Hi Hj Hwp Hq' Hne). destruct (cache_w_lock (lock w)); simpl in Hw; lia.
Qed.

(** ** Progress *)

Lemma thresh_mono r : 0 <= r -> 2 <= SUSP_THRESH r <= SUSP_THRESH (r + 1).
Proof. unfold SUSP_THRESH. intros Hr. rewrite !Z.quot_div_nonneg by lia. pose proof (Z.div_pos r 2). pose proof (Z.div_le_mono r (r + 1) 2). lia. Qed.

(** The calls that wake nobody when they should: a timed wait that is over, and the
    unlocking at exit. *)
Definition waking (e : event) : bool := match e with Expire | SoftUnlockR | SoftUnlockRW => false | _ => true end.

(** Without them: who waits when the lock is free will be woken. *)
Record wake_inv (w : world) : Prop := {
  p_exp : cnt expired (threads w) = 0;
  p_rsleep : cnt rsleeps (threads w) = 0 \/ cache_w_lock (lock w) = true \/ 0 < rw_pend (lock w);
  p_susp : r_susp (lock w) = false \/ cache_w_lock (lock w) = true \/ 0 < rw_pend (lock w);
  p_free : cache_w_lock (lock w) = false -> cache_r_lock (lock w) = 0 -> 0 < r_pend (lock w) + rw_pend (lock w) ->
    0 < cnt wwoken (threads w) \/
    r_susp (lock w) = false /\ rw_pend (lock w) <= SUSP_THRESH (r_pend (lock w)) /\ 0 < cnt rwoken (threads w)
}.

Lemma wake_init n : wake_inv (init_world n).
Proof. split; cbn; rewrite ?cnt_replicate by done; auto. Qed.

Lemma wake_step w c w' : lock_inv w -> wake_inv w -> waking (what c) = true -> step w c = Some w' -> wake_inv w'.
Proof.
  intros [Hu Hr Hw Hx Hp Hq] [W1 W2 W3 W4] Hwk Hs. apply step_threads in Hs as (p & q & wk & _ & Et & Ew & Hc). apply wake_up_spec in Ew as (Cr & Cw & Ce & Ck).
  rewrite !Hc in Cr, Cw, Ce. pose proof (Hc rsleeps) as C1. pose proof (Hc rwoken) as C2. pose proof (Hc wsleeps) as C3. pose proof (Hc wwoken) as C4.
  pose proof (cnt_bounds (threads w)) as Hb. pose proof (cnt_bounds (threads w')) as Hb'. clear Hc.
  assert (2 <= SUSP_THRESH (r_pend (lock w)) <= SUSP_THRESH (r_pend (lock w) + 1)) as Ht by (apply thresh_mono; lia).
  destruct w as [[u b r rp wp s] ts], w' as [[u' b' r' rp' wp' s'] ts']. cbn [lock threads use_cache_lock cache_w_lock cache_r_lock r_pend rw_pend r_susp] in *. subst u.
  destruct b, s, (what c), p; try discriminate Et; try discriminate Hwk; lock_cases Et; injection Et as <- <- <- <- <- <- <- <-;
    (split; cbn [lock threads use_cache_lock cache_w_lock cache_r_lock r_pend rw_pend r_susp]); simpl in Cr, Cw, Ce, Ck, C1, C2, C3, C4, Hw, W2, W3, W4 |- *; lia.
Qed.

Lemma reach_wake n w : reach waking n w -> lock_inv w /\ wake_inv w.
Proof.
  induction 1 as [|w c w' _ [I W] Hok Hs]; [split; [apply inv_init|apply wake_init]|].
  split; [by eapply inv_step|by eapply wake_step].
Qed.

(** A thread waits for the lock. *)
Definition waits (p : pc) : bool := match p with RSleep | RWoken | WSleep _ | WWoken _ | WExpired => true | _ => false end.

Lemma waits_pend w i p : lock_inv w -> threads w !! i = Some p -> waits p = true -> 0 < r_pend (lock w) + rw_pend (lock w).
Proof.
  intros [_ _ _ _ -> ->] Hi Hp. pose proof (cnt_bounds (threads w)) as Hb.
  enough (exists f, f p = true /\ cnt f (threads w) <= cnt rsleeps (threads w) + cnt rwoken (threads w) + (cnt wsleeps (threads w) + cnt wwoken (threads w) + cnt expired (threads w)))
    as (f & Hf & Hle) by (assert (0 < cnt f (threads w)) by (apply cnt_pos; by exists i, p); lia).
  destruct p; try done; [exists rsleeps|exists rwoken|exists wsleeps|exists wwoken|exists expired]; (split; [done|lia]).
Qed.

(** Going on without waking anyone. *)
Lemma step_continue w i p l q : threads w !! i = Some p -> thread_step Continue true p (lock w) = Some (l, q, NoWake) -> 
  exists w', step w (mkChoice i Continue true 0) = Some w' /\ threads w' !! i = Some q.
Proof.
  intros Hi Ht. unfold step. cbn [who what got pick]. rewrite Hi, Ht. eexists. split; [done|]. cbn [threads]. apply list_lookup_insert_eq. by eapply lookup_lt_Some.
Qed.

(** C30. No wake-up is lost: as long as no timed wait is over and no lock is released by the
    functions for exiting ([softunlock_cache_r], [softunlock_cache_rw], which wake nobody),
    whenever a thread waits for the lock, some thread has it, or a thread that was woken
    gets it as soon as it has the mutex. *)
Theorem cache_lock_progress n w i p : reach waking n w -> threads w !! i = Some p -> waits p = true ->
  (exists j q, threads w !! j = Some q /\ holds q = true) \/
  exists j q w', step w (mkChoice j Continue true 0) = Some w' /\ threads w' !! j = Some q /\ holds q = true.
Proof.
  intros Hr Hi Hp. apply reach_wake in Hr as [I [_ _ _ Hf]]. pose proof (waits_pend w i p I Hi Hp) as Hpend. destruct I as [_ Hr Hw _ _ _].
  pose proof (cnt_bounds (threads w)) as Hb. destruct (cache_w_lock (lock w)) eqn:Ew.
  { left. destruct (proj1 (cnt_pos writes (threads w))) as (j & q & Hj & Hq); [simpl in Hw; lia|]. exists j, q. unfold holds. by rewrite Hq, orb_true_r. }
  destruct (Z.eq_dec (cache_r_lock (lock w)) 0) as [E|Hne].
  2:{ left. destruct (proj1 (cnt_pos reads (threads w))) as (j & q & Hj & Hq); [lia|]. exists j, q. unfold holds. by rewrite Hq. }
  right. destruct (Hf eq_refl E Hpend) as [Hk|(Es & Ht & Hk)]; apply cnt_pos in Hk as (j & q & Hj & Hq); destruct q as [| | | | |timed| | | | | |]; try done.
  - destruct (step_continue w j (WWoken timed) (pend_rw (-1) (writer true (lock w))) Writing Hj) as (w' & Hs & Hj'); [|by exists j, Writing, w'].
    cbn [thread_step]. unfold rw_loop. by rewrite Ew, E.
  - destruct (step_continue w j RWoken (pend_r (-1) (readers 1 (lock w))) Reading Hj) as (w' & Hs & Hj'); [|by exists j, Reading, w'].
    cbn [thread_step]. unfold r_loop. destruct (Z.gtb_spec (rw_pend (lock w)) (SUSP_THRESH (r_pend (lock w)))); [lia|]. by rewrite Es, Ew.
Qed.

(** ** A run, and the time-out that suspends readers for good *)

Fixpoint run (w : world) (cs : list choice) : option world :=
  match cs with
  | [] => Some w
  | c :: cs => let* w := step w c in run w cs
  end.

Lemma reach_run ok n cs : forall w w', reach ok n w -> Forall (fun c => ok (what c) = true) cs -> run w cs = Some w' -> reach ok n w'.
Proof.
  induction cs as [|c cs IH]; intros w w' Hr Hok Hs; simpl in Hs; [by injection Hs as <-|]. apply Forall_cons_1 in Hok as [Hc Hok].
  destruct (step w c) as [w1|] eqn:E; [|done]. eapply IH; [by eapply reach_step|done|done].
Qed.

Definition does (i : nat) (e : event) : choice := mkChoice i e true 0.

(** While thread 0 reads, three timed writers and a reader arrive; the writers time
    out; thread 0 unlocks, and wants to read again. *)
Definition ex_timeout : list choice :=
  [does 0 LockR; does 1 TimedLockRW; does 2 TimedLockRW; does 3 TimedLockRW; does 4 LockR;
   does 1 Expire; does 2 Expire; does 3 Expire; does 1 Continue; does 2 Continue; does 3 Continue;
   does 0 UnlockR; does 0 LockR].

(** After time-outs of [timedlock_cache_rw], that does not take back the suspension
    it may have caused, readers sleep though nobody has the lock or waits to write,
    and every reader that comes sleeps, too. *)
Theorem cache_lock_timeout_stuck : exists w, reach (fun _ => true) 5 w /\
  lock w = mkLock true false 0 2 0 true /\ threads w = [RSleep; Out; Out; Out; RSleep] /\
  forall r, snd (lock_cache_r (pend_r r (lock w))) = RSleep.
Proof.
  destruct (run (init_world 5) ex_timeout) as [w|] eqn:E; [|vm_compute in E; discriminate]. exists w.
  split; [eapply reach_run; [apply reach_init| |exact E]; by repeat constructor|].
  vm_compute in E. injection E as <-. split_and!; [done|done|]. intros r. unfold lock_cache_r, r_loop, pend_r, susp. cbn -[SUSP_THRESH]. by destruct (0 >? _).
Qed.

Definition ex_run : list choice := [does 0 LockR; does 1 LockRW; does 2 LockR; does 0 UnlockR; mkChoice 2 UnlockR true 1].
Definition ex_world : world := default (init_world 3) (run (init_world 3) ex_run).

Lemma cache_lock_exclusive_witness : reach waking 3 ex_world /\ rw_pend (lock ex_world) = cnt wwoken (threads ex_world).
Proof.
  assert (reach waking 3 ex_world) as Hr by (apply (reach_run waking 3 ex_run (init_world 3)); [apply reach_init|by repeat constructor|vm_compute; reflexivity]).
  split; [exact Hr|]. exact (proj2 (proj2 (proj2 (proj2 (cache_lock_exclusive waking 3 ex_world Hr))))).
Defined.

Lemma cache_lock_progress_witness : reach waking 3 ex_world /\ threads ex_world = [Out; WWoken false; Out] /\
  ((exists j q, threads ex_world !! j = Some q /\ holds q = true) \/
   exists j q w', step ex_world (mkChoice j Continue true 0) = Some w' /\ threads w' !! j = Some q /\ holds q = true).
Proof.
  assert (reach waking 3 ex_world) as Hr by (apply (reach_run waking 3 ex_run (init_world 3)); [apply reach_init|by repeat constructor|vm_compute; reflexivity]).
  split; [exact Hr|]. split; [vm_compute; reflexivity|]. apply (cache_lock_progress 3 ex_world 1 (WWoken false) Hr); vm_compute; reflexivity.
Defined.
