(* ===== verification/AgeList.v ===== *)
(** * pdnsd: the list of record sets by age ([pdnsd/src/cache.c])

    The cache keeps its record sets, and its negative entries, in a doubly linked list,
    the oldest first, for purging. Entries are malloced; [lents] is their memory, by
    address. Of the record sets ([rr_set_t]) and cache entries ([dns_cent_t]) the list
    uses the time stamps, the flags and the pointer back to the list. *)

From S2P Require Import Prelude.
#[global] Open Scope Z_scope.

Definition CF_LOCAL : Z := 2.
Definition CF_AUTH : Z := 4.
Definition DF_LOCAL : Z := 2.
Definition DF_AUTH : Z := 4.
Definition NTMPSORT : nat := 32.

Record rr_lent := mkLent { next : option Z; prev : option Z; rrset : option Z; cent : Z; idx : Z }.
Record rr_set := mkSet { lent : option Z; ts : Z; flags : Z }.
(** [cent->neg.lent], [cent->neg.ts], [cent->flags] *)
Record dns_cent := mkCent { neg_lent : option Z; neg_ts : Z; cent_flags : Z }.

Record age_list := mkAge {
  rrset_l : option Z;
  rrset_l_tail : option Z;
  insert_sort : bool;
  lents : gmap Z rr_lent;
  sets : gmap Z rr_set;
  cents : gmap Z dns_cent
}.

Definition init_list : age_list := mkAge None None true ∅ ∅ ∅.

Definition set_head (o : option Z) (s : age_list) : age_list := mkAge o (rrset_l_tail s) (insert_sort s) (lents s) (sets s) (cents s).
Definition set_tail (o : option Z) (s : age_list) : age_list := mkAge (rrset_l s) o (insert_sort s) (lents s) (sets s) (cents s).
Definition set_lents (h : gmap Z rr_lent) (s : age_list) : age_list := mkAge (rrset_l s) (rrset_l_tail s) (insert_sort s) h (sets s) (cents s).
Definition set_sets (m : gmap Z rr_set) (s : age_list) : age_list := mkAge (rrset_l s) (rrset_l_tail s) (insert_sort s) (lents s) m (cents s).
Definition set_cents (m : gmap Z dns_cent) (s : age_list) : age_list := mkAge (rrset_l s) (rrset_l_tail s) (insert_sort s) (lents s) (sets s) m.
Definition set_insert_sort (b : bool) (s : age_list) : age_list := mkAge (rrset_l s) (rrset_l_tail s) b (lents s) (sets s) (cents s).

(** [le->next=o] and [le->prev=o]; [None] where [le] is not allocated. *)
Definition set_next (h : gmap Z rr_lent) (le : Z) (o : option Z) : option (gmap Z rr_lent) :=
  let* e := h !! le in Some (<[le := mkLent o (prev e) (rrset e) (cent e) (idx e)]> h).
Definition set_prev (h : gmap Z rr_lent) (le : Z) (o : option Z) : option (gmap Z rr_lent) :=
  let* e := h !! le in Some (<[le := mkLent (next e) o (rrset e) (cent e) (idx e)]> h).

(** [if(x) x->prev=o; else rrset_l_tail=o;] and [if(x) x->next=o; else rrset_l=o;] *)
Definition link_prev (x o : option Z) (s : age_list) : option age_list :=
  match x with
  | Some x => let* h := set_prev (lents s) x o in Some (set_lents h s)
  | None => Some (set_tail o s)
  end.
Definition link_next (x o : option Z) (s : age_list) : option age_list :=
  match x with
  | Some x => let* h := set_next (lents s) x o in Some (set_lents h s)
  | None => Some (set_head o s)
  end.

(** The time stamp of what an entry is for. *)
Definition owner_ts (sets : gmap Z rr_set) (cents : gmap Z dns_cent) (rrs : option Z) (c : Z) : option Z :=
  match rrs with
  | Some r => ts <$> sets !! r
  | None => neg_ts <$> cents !! c
  end.

Definition get_rrlent_ts (sets : gmap Z rr_set) (cents : gmap Z dns_cent) (h : gmap Z rr_lent) (le : Z) : option Z :=
  let* e := h !! le in owner_ts sets cents (rrset e) (cent e).

(** ** Inserting and removing *)

(** [while (le) { if (ts>=get_rrlent_ts(le)) goto found; le=le->prev; }] *)
Fixpoint find_loop (fuel : nat) (s : age_list) (t : Z) (le : option Z) : option (option Z) :=
  match le with
  | None => Some None
  | Some p =>
      match fuel with
      | O => None
      | S fuel =>
          let* t' := get_rrlent_ts (sets s) (cents s) (lents s) p in
          if t >=? t' then Some (Some p)
          else let* e := lents s !! p in find_loop fuel s t (prev e)
      end
  end.

(** [rrs->lent=ne] or [cent->neg.lent=ne]. *)
Definition set_owner (rrs : option Z) (c : Z) (o : option Z) (s : age_list) : option age_list :=
  match rrs with
  | Some r => let* x := sets s !! r in Some (set_sets (<[r := mkSet o (ts x) (flags x)]> (sets s)) s)
  | None => let* x := cents s !! c in Some (set_cents (<[c := mkCent o (neg_ts x) (cent_flags x)]> (cents s)) s)
  end.

Definition is_local (s : age_list) (rrs : option Z) (c : Z) : option bool :=
  let* loc := match rrs with
              | Some r => let* x := sets s !! r in Some (negb (Z.land (flags x) CF_LOCAL =? 0))
              | None => Some false
              end in
  if (loc : bool) then Some true else let* x := cents s !! c in Some (negb (Z.land (cent_flags x) DF_LOCAL =? 0)).

(** [ne]: what [malloc] returns. *)
Definition insert_rrl (s : age_list) (rrs : option Z) (c i : Z) (ne : option Z) : option (age_list * bool) :=
  let* local := is_local s rrs c in
  if (local : bool) then Some (s, true)
  else match ne with
  | None => Some (s, false)
  | Some ne =>
      let s := set_lents (<[ne := mkLent None None rrs c i]> (lents s)) s in
      let* s :=
        (if insert_sort s then
           let* t := get_rrlent_ts (sets s) (cents s) (lents s) ne in
           let* le := find_loop (size (lents s)) s t (rrset_l_tail s) in
           match le with
           | None =>
               let* h := set_next (lents s) ne (rrset_l s) in
               let s := set_lents h s in
               let* s := link_prev (rrset_l s) (Some ne) s in
               Some (set_head (Some ne) s)
           | Some le =>
               let* e := lents s !! le in
               let* h := set_next (lents s) ne (next e) in
               let* h := set_prev h ne (Some le) in
               let s := set_lents h s in
               let* s := link_prev (next e) (Some ne) s in
               link_next (Some le) (Some ne) s
           end
         else
           let* h := set_prev (lents s) ne (rrset_l_tail s) in
           let s := set_lents h s in
           let* s := link_next (rrset_l_tail s) (Some ne) s in
           Some (set_tail (Some ne) s)) in
      let* s := set_owner rrs c (Some ne) s in
      Some (s, true)
  end.

Definition remove_rrl (s : age_list) (le : Z) : option age_list :=
  let* e := lents s !! le in
  let* s := link_prev (next e) (prev e) s in
  let* s := link_next (prev e) (next e) s in
  Some (set_lents (delete le (lents s)) s).

(** ** Sorting *)

(** [rr_lent_t **s]: the variable [l], or the [next] of an entry. *)
Inductive slot := L | NextOf (le : Z).

(** [*s=o] *)
Definition assign (h : gmap Z rr_lent) (l : option Z) (s : slot) (o : option Z) : option (gmap Z rr_lent * option Z) :=
  match s with
  | L => Some (h, o)
  | NextOf le => let* h := set_next h le o in Some (h, l)
  end.

Section Sort.

Variable sets : gmap Z rr_set.
Variable cents : gmap Z dns_cent.

Fixpoint merge_loop (fuel : nat) (h : gmap Z rr_lent) (l : option Z) (s : slot) (p q : Z) : option (gmap Z rr_lent * option Z) :=
  match fuel with
  | O => None
  | S fuel =>
      let* tp := get_rrlent_ts sets cents h p in
      let* tq := get_rrlent_ts sets cents h q in
      if tp <=? tq then
        let* (h, l) := assign h l s (Some p) in
        let* e := h !! p in
        match next e with
        | None => assign h l (NextOf p) (Some q)
        | Some p' => merge_loop fuel h l (NextOf p) p' q
        end
      else
        let* (h, l) := assign h l s (Some q) in
        let* e := h !! q in
        match next e with
        | None => assign h l (NextOf q) (Some p)
        | Some q' => merge_loop fuel h l (NextOf q) p q'
        end
  end.

Definition listmerge (h : gmap Z rr_lent) (p q : option Z) : option (gmap Z rr_lent * option Z) :=
  match p, q with
  | None, _ => Some (h, q)
  | _, None => Some (h, p)
  | Some p, Some q => merge_loop (size h) h None L p q
  end.

(** The loop over [counter], the array [tmp] from [counter] to [fill], and what follows;
    [None] where the assertion fails. *)
Fixpoint carry_loop (counter : nat) (h : gmap Z rr_lent) (tmp : list (option Z)) (carry : option Z) : option (gmap Z rr_lent * list (option Z)) :=
  match tmp with
  | Some c :: tmp =>
      let* (h, carry) := listmerge h (Some c) carry in
      let* (h, tmp) := carry_loop (S counter) h tmp carry in
      Some (h, None :: tmp)
  | None :: tmp => Some (h, carry :: tmp)
  | [] => if (counter =? NTMPSORT)%nat then None else Some (h, [carry])
  end.

(** [do ... while(rem)]; [tmp] up to [fill]. *)
Fixpoint sort_loop (fuel : nat) (h : gmap Z rr_lent) (tmp : list (option Z)) (rem : Z) : option (gmap Z rr_lent * list (option Z)) :=
  match fuel with
  | O => None
  | S fuel =>
      let* e := h !! rem in
      let* h := set_next h rem None in
      let* (h, tmp) := carry_loop 0 h tmp (Some rem) in
      match next e with
      | None => Some (h, tmp)
      | Some rem => sort_loop fuel h tmp rem
      end
  end.

(** [while(++counter!=fill) carry=listmerge( *counter, carry)] *)
Fixpoint final_loop (h : gmap Z rr_lent) (tmp : list (option Z)) (carry : option Z) : option (gmap Z rr_lent * option Z) :=
  match tmp with
  | [] => Some (h, carry)
  | c :: tmp => let* (h, carry) := listmerge h c carry in final_loop h tmp carry
  end.

(** [for(p=rrset_l; p; p=p->next) {p->prev=q; q=p;}] *)
Fixpoint back_loop (fuel : nat) (h : gmap Z rr_lent) (p q : option Z) : option (gmap Z rr_lent * option Z) :=
  match p with
  | None => Some (h, q)
  | Some p =>
      match fuel with
      | O => None
      | S fuel =>
          let* h := set_prev h p q in
          let* e := h !! p in
          back_loop fuel h (next e) (Some p)
      end
  end.

End Sort.

Definition sort_rrl (s : age_list) : option age_list :=
  match rrset_l s with
  | None => Some s
  | Some first =>
      let* e := lents s !! first in
      match next e with
      | None => Some s
      | Some _ =>
          let* (h, tmp) := sort_loop (sets s) (cents s) (size (lents s)) (lents s) [] first in
          let* carry := head tmp in
          let* (h, carry) := final_loop (sets s) (cents s) h (tail tmp) carry in
          let* (h, q) := back_loop (size h) h carry None in
          Some (set_tail q (set_head carry (set_lents h s)))
      end
  end.

(** [if(!insert_sort) { sort_rrl(); insert_sort=1; }] of [purge_cache] and [read_disk_cache] *)
Definition sort_if_needed (s : age_list) : option age_list :=
  if insert_sort s then Some s else let* s := sort_rrl s in Some (set_insert_sort true s).

(** ** The owners of entries *)

(** [rrset=cache_malloc(sizeof(rr_set_t))] and a new cache entry, as far as the list is concerned. *)
Definition new_rrset (s : age_list) (r t f : Z) : age_list := set_sets (<[r := mkSet None t f]> (sets s)) s.
Definition new_cent (s : age_list) (c t f : Z) : age_list := set_cents (<[c := mkCent None t f]> (cents s)) s.

(** [if(rrs->lent) remove_rrl(rrs->lent); ... cache_free(rrs);] of [del_rrset], and the
    same for a negative entry in [free_cent]. *)
Definition free_rrset (s : age_list) (r : Z) : option age_list :=
  let* x := sets s !! r in
  let* s := match lent x with Some le => remove_rrl s le | None => Some s end in
  Some (set_sets (delete r (sets s)) s).
Definition free_neg (s : age_list) (c : Z) : option age_list :=
  let* x := cents s !! c in
  let* s := match neg_lent x with Some le => remove_rrl s le | None => Some s end in
  Some (set_cents (delete c (cents s)) s).

(** What [invalidate_record] does to each record set of an entry, or to a negative one,
    and then to the entry. *)
Definition invalidate_rrset (s : age_list) (r : Z) : option age_list :=
  let* x := sets s !! r in Some (set_sets (<[r := mkSet (lent x) 0 (Z.land (flags x) (Z.lnot CF_AUTH))]> (sets s)) s).
Definition invalidate_neg (s : age_list) (c : Z) : option age_list :=
  let* x := cents s !! c in Some (set_cents (<[c := mkCent (neg_lent x) 0 (cent_flags x)]> (cents s)) s).
Definition invalidate_cent (s : age_list) (c : Z) : option age_list :=
  let* x := cents s !! c in Some (set_cents (<[c := mkCent (neg_lent x) (neg_ts x) (Z.land (cent_flags x) (Z.lnot DF_AUTH))]> (cents s)) s).
