(* ===== verification/AgeSort.v ===== *)
(** * pdnsd: sorting the list of record sets by age is insertion sort

    The merge sort of [AgeList.sort_rrl] on pointers is a stable sort: it ends without
    a failed assertion, changes nothing but links, and leaves the very list
    that inserting the entries one after the other would have made. *)

From Stdlib Require Import Sorting.Sorted.
From S2P Require Import Prelude AgeList.
#[global] Open Scope Z_scope.

(** An entry: its address, and what it is for. *)
Record node := mkNode { na : Z; no : option Z; nc : Z; ni : Z }.

(** ** Sorting lists *)

Section Lists.

Variable key : node -> Z.

Abbreviation le_key := (fun x y => key x <= key y) (only parsing).
Abbreviation sorted := (StronglySorted (fun x y => key x <= key y)) (only parsing).

Fixpoint merge (xs : list node) : list node -> list node :=
  fix go (ys : list node) : list node :=
    match xs, ys with
    | [], _ => ys
    | _, [] => xs
    | x :: xs', y :: ys' => if key x <=? key y then x :: merge xs' ys else y :: go ys'
    end.

Lemma merge_nil_r xs : merge xs [] = xs.
Proof. by destruct xs. Qed.

Lemma merge_nil_l ys : merge [] ys = ys.
Proof. by destruct ys. Qed.

Lemma merge_cons x xs y ys : merge (x :: xs) (y :: ys) = if key x <=? key y then x :: merge xs (y :: ys) else y :: merge (x :: xs) ys.
Proof. done. Qed.

Lemma merge_perm xs : forall ys, merge xs ys ≡ₚ xs ++ ys.
Proof.
  induction xs as [|x xs IHx]; intros ys; [by rewrite merge_nil_l|]. induction ys as [|y ys IHy]; [by rewrite merge_nil_r, app_nil_r|].
  rewrite merge_cons. destruct (_ <=? _); [by rewrite IHx|]. rewrite IHy. change (y :: (x :: xs) ++ ys) with ([y] ++ (x :: xs) ++ ys).
  change (y :: ys) with ([y] ++ ys). by rewrite Permutation_app_swap_app.
Qed.

Lemma sorted_cons x xs : sorted (x :: xs) <-> (forall y, y ∈ xs -> key x <= key y) /\ sorted xs.
Proof.
  split.
  - intros H. apply StronglySorted_inv in H as [Hs Hf]. split; [|done]. intros y Hy. rewrite list.Forall_forall in Hf. by apply Hf.
  - intros [Hf Hs]. constructor; [done|]. by apply list.Forall_forall.
Qed.

Lemma merge_sorted xs : forall ys, sorted xs -> sorted ys -> sorted (merge xs ys).
Proof.
  induction xs as [|x xs IHx]; intros ys Hx Hy; [by rewrite merge_nil_l|]. induction ys as [|y ys IHy]; [by rewrite merge_nil_r|].
  rewrite merge_cons. pose proof Hx as [Hx1 Hx2]%sorted_cons. pose proof Hy as [Hy1 Hy2]%sorted_cons. destruct (Z.leb_spec (key x) (key y)) as [Hle|Hgt]; apply sorted_cons.
  - split; [|by apply IHx]. intros z. rewrite merge_perm, elem_of_app, elem_of_cons. intros [Hz|[->|Hz]]; [by apply Hx1|done|]. specialize (Hy1 z Hz). lia.
  - split; [|by apply IHy]. intros z. rewrite merge_perm, elem_of_app, elem_of_cons. intros [[->|Hz]|Hz]; [lia| |by apply Hy1]. specialize (Hx1 z Hz). lia.
Qed.

(** The entries with a time stamp, in order. *)
Definition at_key (k : Z) (xs : list node) : list node := filter (fun x => key x = k) xs.

Lemma at_key_app k xs ys : at_key k (xs ++ ys) = at_key k xs ++ at_key k ys.
Proof. apply list.filter_app. Qed.

Lemma at_key_none k xs : (forall x, x ∈ xs -> key x <> k) -> at_key k xs = [].
Proof.
  induction xs as [|x xs IH]; intros Hx; [done|]. unfold at_key. rewrite filter_cons_False by (apply Hx; by left). apply IH. intros y Hy. apply Hx. by right.
Qed.

(** Merging keeps entries of the same age in order, the first list's first. *)
Lemma merge_stable k xs : forall ys, sorted xs -> sorted ys -> at_key k (merge xs ys) = at_key k xs ++ at_key k ys.
Proof.
  induction xs as [|x xs IHx]; intros ys Hx Hy; [by rewrite merge_nil_l|]. induction ys as [|y ys IHy]; [by rewrite merge_nil_r, app_nil_r|].
  rewrite merge_cons. pose proof Hx as [Hx1 Hx2]%sorted_cons. pose proof Hy as [Hy1 Hy2]%sorted_cons. destruct (Z.leb_spec (key x) (key y)) as [Hle|Hgt].
  - unfold at_key in *. rewrite !(filter_cons _ x). rewrite IHx by done. by case_decide.
  - specialize (IHy Hy2). unfold at_key in *. rewrite !(filter_cons _ y). rewrite IHy. case_decide as Hk; [|done].
    assert (at_key k (x :: xs) = []) as E; [|by unfold at_key in E; rewrite E].
    apply at_key_none. intros z [->|Hz]%elem_of_cons; [lia|]. specialize (Hx1 z Hz). lia.
Qed.

(** A sorted list is known by its entries of each age. *)
Lemma sorted_unique xs : forall ys, sorted xs -> sorted ys -> (forall k, at_key k xs = at_key k ys) -> xs = ys.
Proof.
  induction xs as [|x xs IH]; intros ys Hx Hy He.
  - destruct ys as [|y ys]; [done|]. specialize (He (key y)). unfold at_key in He. rewrite filter_cons_True in He by done. done.
  - destruct ys as [|y ys].
    { specialize (He (key x)). unfold at_key in He. rewrite filter_cons_True in He by done. done. }
    apply sorted_cons in Hx as [Hx1 Hx2], Hy as [Hy1 Hy2].
    assert (key x = key y) as Ek.
    { assert (forall a b l l', at_key (key a) (a :: l) = at_key (key a) (b :: l') -> (forall z, z ∈ l' -> key b <= key z) -> key b <= key a) as Hle.
      { intros a b l l' E Hb. unfold at_key in E. rewrite filter_cons_True in E by done. assert (a ∈ filter (fun x => key x = key a) (b :: l')) as Ha by (rewrite <- E; by left).
        apply list_elem_of_filter in Ha as [_ [->|Ha]%elem_of_cons]; [done|]. by apply Hb. }
      pose proof (Hle x y xs ys (He (key x)) Hy1). pose proof (Hle y x ys xs (eq_sym (He (key y))) Hx1). lia. }
    pose proof (He (key x)) as E. unfold at_key in E. rewrite !filter_cons_True in E by done. injection E as <- E. f_equal. apply IH; [done..|].
    intros k. specialize (He k). unfold at_key in *. rewrite !filter_cons in He. case_decide; [by injection He|done].
Qed.

(** ** Insertion sort *)

(** After the last entry that is not younger, or first. *)
Fixpoint age_insert (x : node) (ys : list node) : list node :=
  match ys with
  | [] => [x]
  | y :: ys' => if existsb (fun z => key z <=? key x) ys then y :: age_insert x ys' else x :: ys
  end.

Definition insertion_sort (xs : list node) : list node := foldl (fun ys x => age_insert x ys) [] xs.

Lemma age_insert_split x ys : exists l1 l2, ys = l1 ++ l2 /\ age_insert x ys = l1 ++ x :: l2 /\
  (forall z, z ∈ l2 -> key x < key z) /\ match list.last l1 with Some z => key z <= key x | None => True end.
Proof.
  induction ys as [|y ys IH].
  - exists [], []. split_and!; [done|done| |done]. by intros z ?%not_elem_of_nil.
  - cbn [age_insert]. destruct (existsb _ (y :: ys)) eqn:E.
    + destruct IH as (l1 & l2 & -> & -> & Hl2 & Hl1). exists (y :: l1), l2. split_and!; [done|done|done|]. destruct l1 as [|z l1]; [|by rewrite last_cons_cons].
      simpl. apply existsb_exists in E as (z & Hz & Hk). apply Z.leb_le in Hk. destruct Hz as [->|Hz]; [done|]. apply list_elem_of_In in Hz. specialize (Hl2 z Hz). lia.
    + exists [], (y :: ys). split_and!; [done|done| |done]. intros z Hz. destruct (Z.leb_spec (key z) (key x)) as [Hk|Hk]; [|done].
      assert (existsb (fun z => key z <=? key x) (y :: ys) = true); [|congruence]. apply existsb_exists. exists z. split; [by apply list_elem_of_In|]. by apply Z.leb_le.
Qed.

Lemma age_insert_unique x l1 l2 : (forall z, z ∈ l2 -> key x < key z) -> match list.last l1 with Some z => key z <= key x | None => True end ->
  age_insert x (l1 ++ l2) = l1 ++ x :: l2.
Proof.
  intros H2. induction l1 as [|y l1 IH]; intros H1.
  - simpl. destruct l2 as [|z l2]; [done|]. cbn [age_insert]. destruct (existsb _ _) eqn:E; [|done].
    apply existsb_exists in E as (z' & Hz & Hk). apply list_elem_of_In in Hz. apply Z.leb_le in Hk. specialize (H2 z' Hz). lia.
  - simpl app. cbn [age_insert]. assert (existsb (fun z => key z <=? key x) (y :: l1 ++ l2) = true) as ->.
    { apply existsb_exists. destruct (list.last (y :: l1)) as [z|] eqn:E; [|by apply last_None in E]. exists z. split; [|by apply Z.leb_le].
      apply list_elem_of_In. change (y :: l1 ++ l2) with ((y :: l1) ++ l2). apply elem_of_app. left. apply last_Some in E as (l & ->). apply elem_of_app. right. by left. }
    f_equal. apply IH. destruct l1; [done|]. by rewrite last_cons_cons in H1.
Qed.

Lemma age_insert_sorted x ys : sorted ys -> sorted (age_insert x ys) /\ forall k, at_key k (age_insert x ys) = at_key k ys ++ at_key k [x].
Proof.
  intros Hs. destruct (age_insert_split x ys) as (l1 & l2 & -> & -> & H2 & H1). split.
  - clear -Hs H1 H2. induction l1 as [|y l1 IH]; [apply sorted_cons; split; [|done]; intros z Hz; specialize (H2 z Hz); lia|].
    simpl in Hs. apply sorted_cons in Hs as [Hy Hs]. simpl. apply sorted_cons.
    assert (key y <= key x) as Hyx.
    { destruct (list.last (y :: l1)) as [z|] eqn:E; [|by apply last_None in E]. destruct l1 as [|y' l1]; [simpl in E; injection E as <-; done|].
      assert (z ∈ y' :: l1) as Hz by (rewrite last_cons_cons in E; apply last_Some in E as (l & ->); apply elem_of_app; right; by left).
      specialize (Hy z (proj2 (elem_of_app _ _ _) (or_introl Hz))). lia. }
    split; [|apply IH; [done|]; destruct l1; [done|]; by rewrite last_cons_cons in H1].
    intros z. rewrite elem_of_app, elem_of_cons. intros [Hz|[->|Hz]]; [apply Hy, elem_of_app; by left|done|apply Hy, elem_of_app; by right].
  - intros k. rewrite !at_key_app. change (x :: l2) with ([x] ++ l2). rewrite at_key_app, <- app_assoc. f_equal. destruct (decide (key x = k)) as [<-|Hk].
    + rewrite (at_key_none (key x) l2); [by rewrite app_nil_r|]. intros z Hz. specialize (H2 z Hz). lia.
    + rewrite (at_key_none k [x]); [by rewrite app_nil_r|]. by intros z ->%list_elem_of_singleton.
Qed.

Lemma insertion_sort_spec xs : sorted (insertion_sort xs) /\ forall k, at_key k (insertion_sort xs) = at_key k xs.
Proof.
  induction xs as [|x xs IH] using rev_ind; [split; [constructor|done]|]. unfold insertion_sort in *. rewrite foldl_app. simpl. destruct IH as [Hs He].
  destruct (age_insert_sorted x _ Hs) as [Hs' He']. split; [done|]. intros k. by rewrite He', He, at_key_app.
Qed.

End Lists.

(** ** Lists in memory, by their forward links *)

Fixpoint linked (h : gmap Z rr_lent) (o : option Z) (xs : list node) (e : option Z) : Prop :=
  match xs with
  | [] => o = e
  | x :: xs => o = Some (na x) /\ exists nxt pv, h !! na x = Some (mkLent nxt pv (no x) (nc x) (ni x)) /\ linked h nxt xs e
  end.

Lemma linked_by_app h xs : forall o ys e, linked h o (xs ++ ys) e <-> exists k, linked h o xs k /\ linked h k ys e.
Proof. induction xs as [|x xs IH]; intros o ys e; simpl; [naive_solver|]. setoid_rewrite IH. naive_solver. Qed.

Lemma linked_by_frame h h' xs : forall o e, (forall a, a ∈ na <$> xs -> h' !! a = h !! a) -> linked h o xs e -> linked h' o xs e.
Proof.
  induction xs as [|x xs IH]; intros o e Hm; simpl; [done|]. intros (-> & nxt & pv & E & H). split; [done|]. exists nxt, pv. rewrite Hm by (by left).
  split; [done|]. apply IH; [|done]. intros a Ha. apply Hm. by right.
Qed.

Lemma linked_mem h xs : forall o e a, linked h o xs e -> a ∈ na <$> xs -> a ∈ dom h.
Proof.
  induction xs as [|x xs IH]; intros o e a Hl Ha; [by apply not_elem_of_nil in Ha|]. destruct Hl as (_ & nxt & pv & E & Hl).
  apply elem_of_cons in Ha as [->|Ha]; [by eapply elem_of_dom_2|by eapply IH].
Qed.

Lemma mem_size (h : gmap Z rr_lent) (xs : list node) : (forall a, a ∈ na <$> xs -> a ∈ dom h) -> NoDup (na <$> xs) -> (length xs <= size h)%nat.
Proof.
  intros Hl Hn. rewrite <- (length_fmap na), <- size_dom, <- (size_list_to_set (C := gset Z)) by done. apply subseteq_size.
  intros a Ha. apply elem_of_list_to_set in Ha. by apply Hl.
Qed.

(** Memory of which only the given addresses may have changed. *)
Definition same_but (xs : list node) (h h' : gmap Z rr_lent) : Prop := dom h' = dom h /\ forall a, (a ∉ na <$> xs) -> h' !! a = h !! a.

Lemma same_but_refl xs h : same_but xs h h.
Proof. done. Qed.

Lemma same_but_trans xs h1 h2 h3 : same_but xs h1 h2 -> same_but xs h2 h3 -> same_but xs h1 h3.
Proof. intros [D1 H1] [D2 H2]. split; [by rewrite D2|]. intros a Ha. by rewrite H2, H1. Qed.

Lemma same_but_weak xs ys h h' : xs ⊆ ys -> same_but xs h h' -> same_but ys h h'.
Proof. intros Hs [D H]. split; [done|]. intros a Ha. apply H. intros Hx. apply Ha. apply list_elem_of_fmap in Hx as (x & -> & Hx). apply list_elem_of_fmap. exists x. split; [done|]. by apply Hs. Qed.

Lemma linked_but xs h h' ys o e : same_but xs h h' -> NoDup (na <$> xs ++ ys) -> linked h o ys e -> linked h' o ys e.
Proof.
  intros [_ H] Hn. apply linked_by_frame. intros a Ha. apply H. intros Hx. rewrite fmap_app in Hn. apply list.NoDup_app in Hn as (_ & Hd & _). by apply (Hd a Hx).
Qed.

Lemma set_next_spec h x nxt pv o : h !! na x = Some (mkLent nxt pv (no x) (nc x) (ni x)) ->
  exists h', set_next h (na x) o = Some h' /\ h' !! na x = Some (mkLent o pv (no x) (nc x) (ni x)) /\ same_but [x] h h'.
Proof.
  intros E. unfold set_next. rewrite E. eexists. split; [done|]. split; [apply lookup_insert_eq|]. split.
  - rewrite dom_insert_L. apply elem_of_dom_2 in E. set_solver.
  - intros a Ha. rewrite lookup_insert_ne; [done|]. intros <-. apply Ha. by left.
Qed.

(** The slot behind a list. *)
Definition slot_of (xs : list node) : slot := match list.last xs with Some x => NextOf (na x) | None => L end.

Lemma assign_spec h l xs e o : linked h l xs e -> NoDup (na <$> xs) ->
  exists h' l', assign h l (slot_of xs) o = Some (h', l') /\ linked h' l' xs o /\ same_but xs h h'.
Proof.
  intros Hl Hn. destruct xs as [|x xs _] using rev_ind; [exists h, o; done|]. unfold slot_of. rewrite last_snoc. cbn [assign].
  apply linked_by_app in Hl as (k & Hl & -> & nxt & pv & E & _). destruct (set_next_spec h x nxt pv o E) as (h' & -> & E' & Hb). exists h', l.
  split; [done|]. split.
  - apply linked_by_app. exists (Some (na x)). split; [|by split; [|exists o, pv]]. eapply linked_but; [exact Hb| |exact Hl]. by rewrite Permutation_app_comm.
  - eapply same_but_weak; [|exact Hb]. intros y ->%list_elem_of_singleton. apply elem_of_app. right. by left.
Qed.

Definition head_of (xs : list node) : option Z := na <$> head xs.

Lemma linked_by_head h xs o : linked h o xs None -> o = head_of xs.
Proof. destruct xs as [|x xs]; [done|]. by intros (-> & _). Qed.

Lemma slot_snoc zs x : slot_of (zs ++ [x]) = NextOf (na x).
Proof. unfold slot_of. by rewrite last_snoc. Qed.

(** The next entry is hung to the slot, and the slot goes on to it. *)
Lemma take_spec h l zs x xs e : linked h l zs e -> linked h (Some (na x)) (x :: xs) None -> NoDup (na <$> zs ++ x :: xs) ->
  exists h' l' pv, assign h l (slot_of zs) (Some (na x)) = Some (h', l') /\ h' !! na x = Some (mkLent (head_of xs) pv (no x) (nc x) (ni x)) /\
    linked h' l' (zs ++ [x]) (head_of xs) /\ linked h' (head_of xs) xs None /\ same_but zs h h'.
Proof.
  intros Hl Hx Hn. assert (NoDup (na <$> zs)) as Hz by (rewrite fmap_app in Hn; by apply list.NoDup_app in Hn as (Hz & _)).
  destruct (assign_spec h l zs e (Some (na x)) Hl Hz) as (h' & l' & E & Hl' & Hb). pose proof (linked_but zs h h' (x :: xs) _ _ Hb Hn Hx) as (_ & nxt & pv & Ex & Hxs).
  pose proof (linked_by_head _ _ _ Hxs) as ->. exists h', l', pv. split_and!; try done. apply linked_by_app. exists (Some (na x)). split; [done|]. split; [done|]. by exists (head_of xs), pv.
Qed.

Lemma nodup_sub (l1 l2 : list node) : l2 ⊆+ l1 -> NoDup (na <$> l1) -> NoDup (na <$> l2).
Proof.
  intros (k & E)%submseteq_Permutation Hn. rewrite E, fmap_app in Hn. by apply list.NoDup_app in Hn as (Hn & _).
Qed.

Ltac nodup H := eapply nodup_sub; [|exact H]; solve_submseteq.

(** ** Merging in memory *)

Section Memory.

Variable sets : gmap Z rr_set.
Variable cents : gmap Z dns_cent.

(** What an entry is for is there, and its time stamp. *)
Definition timed (x : node) : Prop := is_Some (owner_ts sets cents (no x) (nc x)).
Definition age (x : node) : Z := default 0 (owner_ts sets cents (no x) (nc x)).

Lemma get_ts_spec h x nxt pv : h !! na x = Some (mkLent nxt pv (no x) (nc x) (ni x)) -> timed x -> get_rrlent_ts sets cents h (na x) = Some (age x).
Proof. intros E [t Ht]. unfold get_rrlent_ts, age. rewrite E. cbn [rrset cent]. by rewrite Ht. Qed.

Lemma merge_loop_spec fuel : forall h l zs e x xs y ys,
  linked h l zs e -> linked h (Some (na x)) (x :: xs) None -> linked h (Some (na y)) (y :: ys) None ->
  NoDup (na <$> zs ++ (x :: xs) ++ (y :: ys)) -> Forall timed ((x :: xs) ++ (y :: ys)) -> (length xs + length ys < fuel)%nat ->
  exists h' o, merge_loop sets cents fuel h l (slot_of zs) (na x) (na y) = Some (h', o) /\
    linked h' o (zs ++ merge age (x :: xs) (y :: ys)) None /\ same_but (zs ++ (x :: xs) ++ (y :: ys)) h h'.
Proof.
  induction fuel as [|fuel IH]; intros h l zs e x xs y ys Hl Hx Hy Hn Ht Hf; [lia|]. cbn [merge_loop].
  pose proof Ht as [Htx Hty]%Forall_app. apply Forall_cons_1 in Htx as [Htx Htxs]. apply Forall_cons_1 in Hty as [Hty Htys].
  pose proof Hx as [_ (nx & px & Ex & _)]. pose proof Hy as [_ (ny & py & Ey & _)]. rewrite (get_ts_spec h x nx px Ex Htx), (get_ts_spec h y ny py Ey Hty), merge_cons.
  destruct (age x <=? age y).
  - destruct (take_spec h l zs x xs e Hl Hx) as (h1 & l1 & pv & E & E1 & Hl1 & Hx1 & Hb); [nodup Hn|]. rewrite E, E1. cbn [next]. rewrite <- slot_snoc with (zs := zs).
    assert (linked h1 (Some (na y)) (y :: ys) None) as Hy1 by (eapply linked_but; [exact Hb|nodup Hn|exact Hy]). destruct xs as [|x' xs].
    + change (head_of []) with (@None Z). cbv iota. destruct (assign_spec h1 l1 (zs ++ [x]) _ (Some (na y)) Hl1) as (h2 & l2 & -> & Hl2 & Hb2); [nodup Hn|].
      exists h2, l2. split; [done|]. rewrite merge_nil_l. split.
      * replace (zs ++ x :: y :: ys) with ((zs ++ [x]) ++ y :: ys) by (by rewrite <- app_assoc). apply linked_by_app. exists (Some (na y)). split; [done|]. eapply linked_but; [exact Hb2|nodup Hn|exact Hy1].
      * eapply same_but_trans; (eapply same_but_weak; [|eassumption]); set_solver.
    + change (head_of (x' :: xs)) with (Some (na x')) in *. cbv iota. apply Forall_cons_1 in Htxs as Htxs'. simpl in Hf.
      destruct (IH h1 l1 (zs ++ [x]) (Some (na x')) x' xs y ys Hl1 Hx1 Hy1) as (h2 & l2 & -> & Hl2 & Hb2); [nodup Hn| |lia|].
      { apply Forall_app. split; [done|]. by constructor. }
      exists h2, l2. split; [done|]. split; [by rewrite <- app_assoc in Hl2|]. eapply same_but_trans; (eapply same_but_weak; [|eassumption]); set_solver.
  - destruct (take_spec h l zs y ys e Hl Hy) as (h1 & l1 & pv & E & E1 & Hl1 & Hy1 & Hb); [nodup Hn|]. rewrite E, E1. cbn [next]. rewrite <- slot_snoc with (zs := zs).
    assert (linked h1 (Some (na x)) (x :: xs) None) as Hx1 by (eapply linked_but; [exact Hb|nodup Hn|exact Hx]). destruct ys as [|y' ys].
    + change (head_of []) with (@None Z). cbv iota. destruct (assign_spec h1 l1 (zs ++ [y]) _ (Some (na x)) Hl1) as (h2 & l2 & -> & Hl2 & Hb2); [nodup Hn|].
      exists h2, l2. split; [done|]. rewrite merge_nil_r. split.
      * replace (zs ++ y :: x :: xs) with ((zs ++ [y]) ++ x :: xs) by (by rewrite <- app_assoc). apply linked_by_app. exists (Some (na x)). split; [done|]. eapply linked_but; [exact Hb2|nodup Hn|exact Hx1].
      * eapply same_but_trans; (eapply same_but_weak; [|eassumption]); set_solver.
    + change (head_of (y' :: ys)) with (Some (na y')) in *. cbv iota. simpl in Hf.
      destruct (IH h1 l1 (zs ++ [y]) (Some (na y')) x xs y' ys Hl1 Hx1 Hy1) as (h2 & l2 & -> & Hl2 & Hb2); [nodup Hn| |lia|].
      { apply Forall_app. split; [by constructor|done]. }
      exists h2, l2. split; [done|]. split; [by rewrite <- app_assoc in Hl2|]. eapply same_but_trans; (eapply same_but_weak; [|eassumption]); set_solver.
Qed.

Lemma listmerge_spec h p q xs ys : linked h p xs None -> linked h q ys None -> NoDup (na <$> xs ++ ys) -> Forall timed (xs ++ ys) ->
  exists h' o, listmerge sets cents h p q = Some (h', o) /\ linked h' o (merge age xs ys) None /\ same_but (xs ++ ys) h h'.
Proof.
  intros Hx Hy Hn Ht. unfold listmerge. destruct xs as [|x xs]; [simpl in Hx; subst p; exists h, q; by rewrite merge_nil_l|]. pose proof Hx as [-> _].
  destruct ys as [|y ys]; [simpl in Hy; subst q; exists h, (Some (na x)); by rewrite merge_nil_r|]. pose proof Hy as [-> _].
  assert (length ((x :: xs) ++ y :: ys) <= size h)%nat as Hs.
  { apply mem_size; [|done]. intros a. rewrite fmap_app, elem_of_app. intros [Ha|Ha]; [exact (linked_mem _ _ _ _ _ Hx Ha)|exact (linked_mem _ _ _ _ _ Hy Ha)]. }
  rewrite length_app in Hs. simpl in Hs. apply (merge_loop_spec (size h) h None [] None x xs y ys eq_refl Hx Hy Hn Ht). lia.
Qed.

(** ** The array of sorted lists *)

Fixpoint carry_in (Ts : list (list node)) (c : list node) : list (list node) :=
  match Ts with
  | [] => [c]
  | [] :: Ts => c :: Ts
  | T :: Ts => [] :: carry_in Ts (merge age T c)
  end.

(** The lists are empty or of doubling length. *)
Fixpoint sized (n : nat) (Ts : list (list node)) : Prop :=
  match Ts with
  | [] => True
  | T :: Ts => (T = [] \/ zlen T = 2 ^ Z.of_nat n) /\ sized (S n) Ts
  end.

Abbreviation ordered := (StronglySorted (fun x y => age x <= age y)) (only parsing).

Lemma zlen_merge xs ys : zlen (merge age xs ys) = zlen xs + zlen ys.
Proof. unfold zlen. rewrite merge_perm, length_app. lia. Qed.

Lemma carry_sized Ts : forall n c, sized n Ts -> zlen c = 2 ^ Z.of_nat n -> sized n (carry_in Ts c).
Proof.
  induction Ts as [|[|x T] Ts IH]; intros n c Hs Hc; cbn [sized carry_in] in *; [tauto|tauto|]. destruct Hs as [[?|HT] Hs]; [done|]. split; [by left|].
  apply IH; [done|]. rewrite zlen_merge, HT, Hc, Nat2Z.inj_succ, Z.pow_succ_r by lia. lia.
Qed.

Lemma carry_perm Ts : forall c, concat (carry_in Ts c) ≡ₚ c ++ concat Ts.
Proof. induction Ts as [|[|x T] Ts IH]; intros c; [done|done|]. cbn [carry_in concat]. rewrite app_nil_l, IH, merge_perm. by rewrite (Permutation_app_comm (x :: T) c), <- app_assoc. Qed.

Lemma carry_ordered Ts : forall c, Forall ordered Ts -> ordered c -> Forall ordered (carry_in Ts c).
Proof.
  induction Ts as [|[|x T] Ts IH]; intros c Hs Hc; cbn [carry_in]; [by repeat constructor| |]; apply Forall_cons_1 in Hs as [HT Hs]; constructor; try done; [constructor|].
  apply IH; [done|]. by apply merge_sorted.
Qed.

Lemma carry_stable k Ts : forall c, Forall ordered Ts -> ordered c -> at_key age k (concat (rev (carry_in Ts c))) = at_key age k (concat (rev Ts)) ++ at_key age k c.
Proof.
  assert (forall T (Us : list (list node)), concat (rev (T :: Us)) = concat (rev Us) ++ T) as Er by (intros; simpl; by rewrite concat_app; simpl; rewrite app_nil_r).
  induction Ts as [|[|x T] Ts IH]; intros c Hs Hc; cbn [carry_in].
  - by rewrite Er.
  - rewrite !Er, !at_key_app, app_nil_r. done.
  - apply Forall_cons_1 in Hs as [HT Hs]. rewrite !Er, app_nil_r, IH by (try done; by apply merge_sorted). rewrite merge_stable, at_key_app by done. by rewrite <- app_assoc.
Qed.

Abbreviation tmps h := (Forall2 (fun o T => linked h o T None)) (only parsing).

Lemma tmps_but h h' tmp Ts xs : same_but xs h h' -> NoDup (na <$> xs ++ concat Ts) -> tmps h tmp Ts -> tmps h' tmp Ts.
Proof.
  intros Hb Hn H. induction H as [|o T tmp Ts Hl _ IH]; constructor; cbn [concat] in Hn.
  - eapply linked_but; [exact Hb|nodup Hn|exact Hl].
  - apply IH. nodup Hn.
Qed.

Lemma carry_loop_spec Ts : forall n h tmp carry c, tmps h tmp Ts -> linked h carry c None -> NoDup (na <$> c ++ concat Ts) -> Forall timed (c ++ concat Ts) ->
  sized n Ts -> zlen c = 2 ^ Z.of_nat n -> zlen (c ++ concat Ts) < 2 ^ 32 ->
  exists h' tmp', carry_loop sets cents n h tmp carry = Some (h', tmp') /\ tmps h' tmp' (carry_in Ts c) /\ same_but (c ++ concat Ts) h h'.
Proof.
  induction Ts as [|T Ts IH]; intros n h tmp carry c Ht Hc Hn Hd Hs Hz Hb; inversion Ht as [|o T' tmp' Ts' Ho Htmp]; subst; cbn [carry_loop].
  - destruct (Nat.eqb_spec n NTMPSORT) as [->|_].
    { rewrite app_nil_r, Hz in Hb. unfold NTMPSORT in Hb. change (Z.of_nat 32) with 32 in Hb. lia. }
    exists h, [carry]. split; [done|]. split; [by repeat constructor|done].
  - cbn [concat] in *. destruct T as [|x T].
    + simpl in Ho. subst o. exists h, (carry :: tmp'). split; [done|]. split; [by constructor|done].
    + pose proof Ho as [-> _]. destruct (listmerge_spec h (Some (na x)) carry (x :: T) c Ho Hc) as (h1 & o1 & -> & Hl & Hb1); [nodup Hn| |].
      { apply Forall_app in Hd as [Hd1 Hd2]. apply Forall_app in Hd2 as [Hd2 _]. by apply Forall_app. }
      destruct Hs as [[?|HT] Hs]; [done|]. assert (merge age (x :: T) c ++ concat Ts ≡ₚ c ++ (x :: T) ++ concat Ts) as Ep by (by rewrite merge_perm, (Permutation_app_comm (x :: T) c), <- app_assoc).
      destruct (IH (S n) h1 tmp' o1 (merge age (x :: T) c)) as (h2 & tmp2 & -> & Ht2 & Hb2).
      * eapply tmps_but; [exact Hb1| |exact Htmp]. nodup Hn.
      * done.
      * by rewrite Ep.
      * by rewrite Ep.
      * done.
      * rewrite zlen_merge, HT, Hz, Nat2Z.inj_succ, Z.pow_succ_r by lia. lia.
      * unfold zlen in *. by rewrite Ep.
      * exists h2, (None :: tmp2). split; [done|]. split; [by constructor|]. eapply same_but_trans; (eapply same_but_weak; [|eassumption]); [set_solver|]. intros y. by rewrite Ep.
Qed.

(** ** The whole sort *)

Definition carry_all (Ts : list (list node)) (xs : list node) : list (list node) := foldl (fun Ts x => carry_in Ts [x]) Ts xs.
Definition merge_all (c : list node) (Ts : list (list node)) : list node := foldl (fun c T => merge age T c) c Ts.
Definition merge_sort (xs : list node) : list node :=
  match carry_all [] xs with [] => [] | T :: Ts => merge_all T Ts end.

Lemma carry_all_spec xs : forall Ts, Forall ordered Ts ->
  Forall ordered (carry_all Ts xs) /\ forall k, at_key age k (concat (rev (carry_all Ts xs))) = at_key age k (concat (rev Ts)) ++ at_key age k xs.
Proof.
  induction xs as [|x xs IH]; intros Ts Ho; [split; [done|]; intros k; by rewrite app_nil_r|]. assert (ordered [x]) as Hx by (by repeat constructor).
  destruct (IH (carry_in Ts [x])) as [Hs He]; [by apply carry_ordered|]. split; [done|]. intros k. change (carry_all Ts (x :: xs)) with (carry_all (carry_in Ts [x]) xs).
  rewrite He, carry_stable by done. change (x :: xs) with ([x] ++ xs). by rewrite at_key_app, app_assoc.
Qed.

Lemma merge_all_spec Ts : forall c, Forall ordered Ts -> ordered c ->
  ordered (merge_all c Ts) /\ forall k, at_key age k (merge_all c Ts) = at_key age k (concat (rev Ts)) ++ at_key age k c.
Proof.
  induction Ts as [|T Ts IH]; intros c Hs Hc; [done|]. apply Forall_cons_1 in Hs as [HT Hs]. destruct (IH (merge age T c) Hs) as [Ho He]; [by apply merge_sorted|].
  split; [done|]. intros k. change (merge_all c (T :: Ts)) with (merge_all (merge age T c) Ts). rewrite He, merge_stable by done.
  simpl. rewrite concat_app, at_key_app. simpl. by rewrite app_nil_r, app_assoc.
Qed.

Lemma merge_sort_insertion xs : merge_sort xs = insertion_sort age xs.
Proof.
  destruct (insertion_sort_spec age xs) as [Hi Hie]. destruct (carry_all_spec xs []) as [Hc Hce]; [constructor|]. unfold merge_sort. destruct (carry_all [] xs) as [|T Ts].
  - apply (sorted_unique age); [constructor|done|]. intros k. rewrite Hie. exact (Hce k).
  - apply Forall_cons_1 in Hc as [HT Hc]. destruct (merge_all_spec Ts T Hc HT) as [Ho He]. apply (sorted_unique age); [done..|]. intros k. rewrite He, Hie.
    specialize (Hce k). simpl in Hce. rewrite <- Hce, concat_app, at_key_app. simpl. by rewrite app_nil_r.
Qed.

Lemma sort_loop_spec xs : forall x h tmp Ts fuel, linked h (Some (na x)) (x :: xs) None -> tmps h tmp Ts -> NoDup (na <$> (x :: xs) ++ concat Ts) -> Forall timed ((x :: xs) ++ concat Ts) ->
  sized 0 Ts -> zlen ((x :: xs) ++ concat Ts) < 2 ^ 32 -> (length xs < fuel)%nat ->
  exists h' tmp', sort_loop sets cents fuel h tmp (na x) = Some (h', tmp') /\ tmps h' tmp' (carry_all Ts (x :: xs)) /\ same_but ((x :: xs) ++ concat Ts) h h'.
Proof.
  induction xs as [|y xs IH]; intros x h tmp Ts fuel Hl Ht Hn Hd Hs Hb Hf; (destruct fuel as [|fuel]; [simpl in Hf; lia|]); cbn [sort_loop];
    pose proof Hl as (_ & nxt & pv & E & Hr); pose proof (linked_by_head _ _ _ Hr) as ->; rewrite E; cbn [next];
    destruct (set_next_spec h x _ pv None E) as (h1 & -> & E1 & Hb1); assert (linked h1 (Some (na x)) [x] None) as Hx1 by (split; [done|by exists None, pv]).
  - destruct (carry_loop_spec Ts 0 h1 tmp (Some (na x)) [x]) as (h2 & tmp2 & -> & Ht2 & Hb2); try done; [eapply tmps_but; [exact Hb1|done|done]|].
    exists h2, tmp2. split; [done|]. split; [done|]. eapply same_but_trans; (eapply same_but_weak; [|eassumption]); set_solver.
  - destruct (carry_loop_spec Ts 0 h1 tmp (Some (na x)) [x]) as (h2 & tmp2 & -> & Ht2 & Hb2); try done.
    + eapply tmps_but; [exact Hb1| |exact Ht]. nodup Hn.
    + nodup Hn.
    + apply Forall_app in Hd as [Hd1 Hd2]. apply Forall_cons_1 in Hd1 as [Hd1 _]. simpl. by constructor.
    + clear -Hb. rewrite zlen_app in *. rewrite !zlen_cons in Hb. change (zlen [x]) with 1. pose proof (zlen_nonneg xs). lia.
    + change (head_of (y :: xs)) with (Some (na y)) in *. cbv iota. assert ((y :: xs) ++ concat (carry_in Ts [x]) ≡ₚ (x :: y :: xs) ++ concat Ts) as Ep.
      { rewrite carry_perm. simpl. solve_Permutation. }
      destruct (IH y h2 tmp2 (carry_in Ts [x]) fuel) as (h3 & tmp3 & -> & Ht3 & Hb3).
      * eapply linked_but; [exact Hb2|nodup Hn|]. eapply linked_but; [exact Hb1|nodup Hn|exact Hr].
      * done.
      * by rewrite Ep.
      * by rewrite Ep.
      * by apply carry_sized.
      * unfold zlen in *. by rewrite Ep.
      * simpl in Hf. lia.
      * exists h3, tmp3. split; [done|]. split; [done|]. eapply same_but_trans; [|eapply same_but_trans; [|eapply same_but_weak; [|exact Hb3]]]; try (eapply same_but_weak; [|eassumption]); [set_solver|set_solver|].
        intros z. by rewrite Ep.
Qed.

Lemma final_loop_spec Ts : forall h tmp carry c, tmps h tmp Ts -> linked h carry c None -> NoDup (na <$> c ++ concat Ts) -> Forall timed (c ++ concat Ts) ->
  exists h' o, final_loop sets cents h tmp carry = Some (h', o) /\ linked h' o (merge_all c Ts) None /\ same_but (c ++ concat Ts) h h'.
Proof.
  induction Ts as [|T Ts IH]; intros h tmp carry c Ht Hc Hn Hd; inversion Ht as [|o T' tmp' Ts' Ho Htmp]; subst; cbn [final_loop]; [by exists h, carry|]. cbn [concat] in *.
  destruct (listmerge_spec h o carry T c Ho Hc) as (h1 & o1 & -> & Hl & Hb1); [nodup Hn| |].
  { apply Forall_app in Hd as [Hd1 Hd2]. apply Forall_app in Hd2 as [Hd2 _]. by apply Forall_app. }
  assert (merge age T c ++ concat Ts ≡ₚ c ++ T ++ concat Ts) as Ep by (by rewrite merge_perm, (Permutation_app_comm T c), <- app_assoc).
  destruct (IH h1 tmp' o1 (merge age T c)) as (h2 & o2 & -> & Hl2 & Hb2); [|done|by rewrite Ep|by rewrite Ep|].
  - eapply tmps_but; [exact Hb1| |exact Htmp]. nodup Hn.
  - exists h2, o2. split; [done|]. split; [done|]. eapply same_but_trans; (eapply same_but_weak; [|eassumption]); [set_solver|]. intros z. by rewrite Ep.
Qed.

End Memory.

(** ** Doubly linked lists *)

(** From [o], behind [q], to [e], the last entry being [last]. *)
Fixpoint dlinked (h : gmap Z rr_lent) (q o : option Z) (xs : list node) (last e : option Z) : Prop :=
  match xs with
  | [] => o = e /\ last = q
  | x :: xs => o = Some (na x) /\ exists nxt, h !! na x = Some (mkLent nxt q (no x) (nc x) (ni x)) /\ dlinked h (Some (na x)) nxt xs last e
  end.

Lemma dlinked_linked h xs : forall q o last e, dlinked h q o xs last e -> linked h o xs e.
Proof. induction xs as [|x xs IH]; intros q o last e; simpl; [by intros [-> _]|]. intros (-> & nxt & E & H). split; [done|]. exists nxt, q. split; [done|]. by eapply IH. Qed.

Lemma dlinked_frame h h' xs : forall q o last e, (forall a, a ∈ na <$> xs -> h' !! a = h !! a) -> dlinked h q o xs last e -> dlinked h' q o xs last e.
Proof.
  induction xs as [|x xs IH]; intros q o last e Hm; simpl; [done|]. intros (-> & nxt & E & H). split; [done|]. exists nxt. rewrite Hm by (by left).
  split; [done|]. apply IH; [|done]. intros a Ha. apply Hm. by right.
Qed.

Lemma set_prev_spec h x nxt pv o : h !! na x = Some (mkLent nxt pv (no x) (nc x) (ni x)) ->
  exists h', set_prev h (na x) o = Some h' /\ h' !! na x = Some (mkLent nxt o (no x) (nc x) (ni x)) /\ same_but [x] h h'.
Proof.
  intros E. unfold set_prev. rewrite E. eexists. split; [done|]. split; [apply lookup_insert_eq|]. split.
  - rewrite dom_insert_L. apply elem_of_dom_2 in E. set_solver.
  - intros a Ha. rewrite lookup_insert_ne; [done|]. intros <-. apply Ha. by left.
Qed.

Lemma back_loop_spec xs : forall fuel h q o, linked h o xs None -> NoDup (na <$> xs) -> (length xs <= fuel)%nat ->
  exists h' last, back_loop fuel h o q = Some (h', last) /\ dlinked h' q o xs last None /\ same_but xs h h'.
Proof.
  induction xs as [|x xs IH]; intros fuel h q o Hl Hn Hf.
  - simpl in Hl. subst o. exists h, q. by destruct fuel.
  - destruct fuel as [|fuel]; simpl in Hf; [lia|]. destruct Hl as (-> & nxt & pv & E & Hr). cbn [back_loop].
    destruct (set_prev_spec h x nxt pv q E) as (h1 & -> & E1 & Hb1). rewrite E1. cbn [next]. pose proof Hn as Hn'. rewrite fmap_cons in Hn. apply list.NoDup_cons in Hn as [Hx Hn].
    destruct (IH fuel h1 (Some (na x)) nxt) as (h2 & last & -> & Hd & Hb2); [by eapply (linked_but [x])|done|lia|].
    exists h2, last. split; [done|]. split.
    + split; [done|]. exists nxt. split; [|done]. by rewrite (proj2 Hb2).
    + eapply same_but_trans; (eapply same_but_weak; [|eassumption]); set_solver.
Qed.
