(* ===== verification/AgeListProps.v ===== *)
(** * pdnsd: the list of record sets by age, on pointers

    The doubly linked list of [AgeList] does what a list of entries does under insertion
    by age, removal and sorting, and stays sorted unless records are invalidated. *)

From Stdlib Require Import Sorting.Sorted.
From S2P Require Import Prelude AgeList AgeSort.
#[global] Open Scope Z_scope.

(** ** Changing links *)

Lemma dlinked_app h xs : forall q o ys last e, dlinked h q o (xs ++ ys) last e <-> exists m k, dlinked h q o xs m k /\ dlinked h m k ys last e.
Proof.
  induction xs as [|x xs IH]; intros q o ys last e; simpl.
  - split; [intros H; by exists q, o|]. by intros (m & k & [-> ->] & H).
  - setoid_rewrite IH. naive_solver.
Qed.

Lemma dlinked_but xs h h' ys q o last e : same_but xs h h' -> NoDup (na <$> xs ++ ys) -> dlinked h q o ys last e -> dlinked h' q o ys last e.
Proof.
  intros [_ H] Hn. apply dlinked_frame. intros a Ha. apply H. intros Hx. rewrite fmap_app in Hn. apply list.NoDup_app in Hn as (_ & Hd & _). by apply (Hd a Hx).
Qed.

Lemma dlinked_last h xs q o last e : dlinked h q o xs last e -> last = match list.last xs with Some x => Some (na x) | None => q end.
Proof.
  destruct xs as [|x xs _] using rev_ind; [by intros [_ ->]|]. rewrite last_snoc. intros (m & k & _ & _ & nxt & _ & _ & ->)%dlinked_app. done.
Qed.

(** Everything but the links. *)
Definition same_rest (s s' : age_list) : Prop := insert_sort s' = insert_sort s /\ sets s' = sets s /\ cents s' = cents s.

Lemma same_rest_trans s1 s2 s3 : same_rest s1 s2 -> same_rest s2 s3 -> same_rest s1 s3.
Proof. unfold same_rest. naive_solver congruence. Qed.

Lemma link_prev_spec s q o xs p : dlinked (lents s) q o xs (rrset_l_tail s) None -> NoDup (na <$> xs) ->
  exists s', link_prev o p s = Some s' /\ dlinked (lents s') p o xs (rrset_l_tail s') None /\ same_but xs (lents s) (lents s') /\
    rrset_l s' = rrset_l s /\ same_rest s s'.
Proof.
  intros Hd Hn. destruct xs as [|x xs]; [destruct Hd as [-> _]; by exists (set_tail p s)|]. pose proof Hd as (-> & nxt & E & Hr). cbn [link_prev].
  destruct (set_prev_spec (lents s) x nxt q p E) as (h & -> & E' & Hb). exists (set_lents h s). split; [done|]. cbn [lents set_lents rrset_l_tail]. split_and!; try done.
  - split; [done|]. exists nxt. split; [done|]. by eapply (dlinked_but [x]).
  - apply (same_but_weak [x]); [set_solver|done].
Qed.

Lemma link_next_spec s xs last k o : dlinked (lents s) None (rrset_l s) xs last k -> NoDup (na <$> xs) ->
  exists s', link_next last o s = Some s' /\ dlinked (lents s') None (rrset_l s') xs last o /\ same_but xs (lents s) (lents s') /\
    rrset_l_tail s' = rrset_l_tail s /\ same_rest s s'.
Proof.
  intros Hd Hn. destruct xs as [|x xs _] using rev_ind; [destruct Hd as [_ ->]; by exists (set_head o s)|].
  apply dlinked_app in Hd as (m & j & Hd & -> & nxt & E & -> & ->). cbn [link_next].
  destruct (set_next_spec (lents s) x k m o E) as (h & -> & E' & Hb). exists (set_lents h s). split; [done|]. cbn [lents set_lents rrset_l]. split_and!; try done.
  - apply dlinked_app. exists m, (Some (na x)). split; [|split; [done|by exists o]]. eapply dlinked_but; [exact Hb|nodup Hn|exact Hd].
  - apply (same_but_weak [x]); [set_solver|done].
Qed.

(** ** Representation *)

(** The pointers back: [m] has a pointer, or none, to the entry for each key, and
    the entries [xs] are those, [f] telling their keys. *)
Definition tracks (f : node -> option Z) (xs : list node) (m : gmap Z (option Z)) : Prop :=
  (forall x r, x ∈ xs -> f x = Some r -> is_Some (m !! r)) /\
  forall r o, m !! r = Some o -> forall le, o = Some le <-> exists x, x ∈ xs /\ na x = le /\ f x = Some r.

Lemma tracks_insert f xs xs' x r m : tracks f xs m -> xs' ≡ₚ x :: xs -> f x = Some r -> m !! r = Some None -> tracks f xs' (<[r := Some (na x)]> m).
Proof.
  intros [H1 H2] Hp Hf Hr. split.
  - intros y r' Hy Hfy. destruct (decide (r' = r)) as [->|Hne]; [rewrite lookup_insert_eq; by eexists|]. rewrite lookup_insert_ne by done.
    rewrite Hp in Hy. apply elem_of_cons in Hy as [->|Hy]; [congruence|by eapply H1].
  - intros r' o Ho le. setoid_rewrite Hp. setoid_rewrite elem_of_cons. destruct (decide (r' = r)) as [->|Hne].
    + rewrite lookup_insert_eq in Ho. injection Ho as <-. split; [intros [= <-]; exists x; split_and!; [by left|done|done]|].
      intros (y & [->|Hy] & <- & Hny); [done|]. by pose proof (proj2 (H2 r None Hr (na y)) (ex_intro _ y (conj Hy (conj eq_refl Hny)))).
    + rewrite lookup_insert_ne in Ho by done. rewrite (H2 r' o Ho le). split; [intros (y & Hy & H); exists y; split; [by right|done]|].
      intros (y & [->|Hy] & Hna & Hno); [congruence|]. by exists y.
Qed.

(** Entries without a key do not matter. *)
Lemma tracks_same f xs xs' m : tracks f xs m -> (forall y r, f y = Some r -> y ∈ xs' <-> y ∈ xs) -> tracks f xs' m.
Proof.
  intros [H1 H2] Hs. split.
  - intros y r Hy Hf. apply (H1 y r); [by apply (Hs y r Hf)|done].
  - intros r o Ho le. rewrite (H2 r o Ho le). split; intros (y & Hy & Hna & Hf); exists y; (split; [by apply (Hs y r Hf)|done]).
Qed.

Lemma tracks_delete f xs xs' r m : tracks f xs m -> (forall y, y ∈ xs' <-> y ∈ xs /\ f y <> Some r) -> tracks f xs' (delete r m).
Proof.
  intros [H1 H2] Hs. split.
  - intros y r' [Hy Hne]%Hs Hf. rewrite lookup_delete_ne by congruence. by eapply H1.
  - intros r' o [Hne Ho]%lookup_delete_Some le. rewrite (H2 r' o Ho le). split; intros (y & Hy & Hna & Hf); exists y; (split; [|done]); [|by apply Hs].
    apply Hs. split; [done|]. congruence.
Qed.

Lemma tracks_new f xs r m : tracks f xs m -> m !! r = None -> tracks f xs (<[r := None]> m).
Proof.
  intros [H1 H2] Hr. assert (forall y, y ∈ xs -> f y <> Some r) as Hn by (intros y Hy Hf; destruct (H1 y r Hy Hf); congruence). split.
  - intros y r' Hy Hf. rewrite lookup_insert_ne; [by eapply H1|]. intros <-. by apply (Hn y).
  - intros r' o Ho le. destruct (decide (r' = r)) as [->|Hne].
    + rewrite lookup_insert_eq in Ho. injection Ho as <-. split; [done|]. intros (y & Hy & _ & Hf). by apply (Hn y Hy) in Hf.
    + rewrite lookup_insert_ne in Ho by done. by apply H2.
Qed.

(** The key among the cache entries of an entry for a negative one. *)
Definition neg_key (x : node) : option Z := match no x with Some _ => None | None => Some (nc x) end.

Record rep (s : age_list) (xs : list node) : Prop := {
  a_list : dlinked (lents s) None (rrset_l s) xs (rrset_l_tail s) None;
  a_nodup : NoDup (na <$> xs);
  a_dom : dom (lents s) = list_to_set (na <$> xs);
  a_set : tracks no xs (lent <$> sets s);
  a_cent : tracks neg_key xs (neg_lent <$> cents s)
}.

Lemma rep_timed s xs : rep s xs -> Forall (timed (sets s) (cents s)) xs.
Proof.
  intros [_ _ _ [R1 _] [R2 _]]. apply list.Forall_forall. intros x Hx. unfold timed, owner_ts. specialize (R1 x). specialize (R2 x). unfold neg_key in R2.
  destruct (no x) as [r|]; apply fmap_is_Some; [specialize (R1 r Hx eq_refl)|specialize (R2 (nc x) Hx eq_refl)]; by rewrite lookup_fmap, fmap_is_Some in *.
Qed.

Lemma rep_init : rep init_list [].
Proof. split; [done|apply NoDup_nil_2|done| |]; (split; [by intros x r ?%not_elem_of_nil|]); intros r o; simpl; by rewrite fmap_empty, lookup_empty. Qed.

(** The search for the place, from the tail. *)
Lemma find_loop_spec s t e : forall xs last fuel, dlinked (lents s) None (rrset_l s) xs last e -> Forall (timed (sets s) (cents s)) xs -> (length xs <= fuel)%nat ->
  exists l1 l2 m k, xs = l1 ++ l2 /\ find_loop fuel s t last = Some m /\ dlinked (lents s) None (rrset_l s) l1 m k /\ dlinked (lents s) m k l2 last e /\
    (forall z, z ∈ l2 -> t < age (sets s) (cents s) z) /\ match list.last l1 with Some z => age (sets s) (cents s) z <= t | None => True end.
Proof.
  intros xs. revert e. induction xs as [|x xs IH] using rev_ind; intros e last fuel Hd Ht Hf.
  - pose proof Hd as [-> ->]. exists [], [], None, e. split_and!; try done; [by destruct fuel|]. by intros z ?%not_elem_of_nil.
  - rewrite length_app in Hf. simpl in Hf. destruct fuel as [|fuel]; [lia|]. pose proof Hd as (m & k & Hd1 & -> & nxt & E & -> & ->)%dlinked_app. cbn [find_loop].
    apply Forall_app in Ht as [Ht Htx]. apply Forall_cons_1 in Htx as [Htx _]. rewrite (get_ts_spec (sets s) (cents s) _ x _ _ E Htx). rewrite E. cbn [prev].
    destruct (Z.geb_spec t (age (sets s) (cents s) x)) as [Hle|Hgt].
    + exists (xs ++ [x]), [], (Some (na x)), e. rewrite app_nil_r, last_snoc. split_and!; try done. by intros z ?%not_elem_of_nil.
    + destruct (IH (Some (na x)) m fuel Hd1 Ht) as (l1 & l2 & m' & k' & -> & Ef & H1 & H2 & Hl2 & Hl1); [lia|].
      exists l1, (l2 ++ [x]), m', k'. rewrite <- app_assoc. split_and!; try done.
      * apply dlinked_app. exists m, (Some (na x)). split; [done|]. split; [done|]. by exists e.
      * intros z [Hz| ->%list_elem_of_singleton]%elem_of_app; [by apply Hl2|lia].
Qed.

(** ** Inserting *)

(** A new entry between two parts. *)
Lemma link_between s l1 l2 x m k : dlinked (lents s) None (rrset_l s) l1 m k -> dlinked (lents s) m k l2 (rrset_l_tail s) None ->
  lents s !! na x = Some (mkLent k m (no x) (nc x) (ni x)) -> NoDup (na <$> l1 ++ x :: l2) ->
  exists s1 s2, link_prev k (Some (na x)) s = Some s1 /\ link_next m (Some (na x)) s1 = Some s2 /\
    dlinked (lents s2) None (rrset_l s2) (l1 ++ x :: l2) (rrset_l_tail s2) None /\ dom (lents s2) = dom (lents s) /\ same_rest s s2.
Proof.
  intros H1 H2 E Hn. destruct (link_prev_spec s m k l2 (Some (na x)) H2) as (s1 & E1 & H2' & B1 & Eh & R1); [nodup Hn|].
  assert (dlinked (lents s1) None (rrset_l s1) l1 m k) as H1' by (rewrite Eh; eapply dlinked_but; [exact B1|nodup Hn|exact H1]).
  destruct (link_next_spec s1 l1 m k (Some (na x)) H1') as (s2 & E2 & H1'' & B2 & Et & R2); [nodup Hn|].
  exists s1, s2. split; [done|]. split; [done|]. split; [|split; [by rewrite (proj1 B2), (proj1 B1)|by eapply same_rest_trans]].
  apply dlinked_app. exists m, (Some (na x)). split; [done|]. split; [done|]. exists k. split.
  - assert (NoDup (na <$> (l1 ++ l2) ++ [x])) as Hx by nodup Hn. rewrite !fmap_app in Hx. apply list.NoDup_app in Hx as (_ & Hx & _).
    rewrite (proj2 B2), (proj2 B1), E; [done| |]; intros Ha; (apply (Hx (na x)); [|by left]); apply elem_of_app; [by right|by left].
  - rewrite Et. eapply dlinked_but; [exact B2|nodup Hn|exact H2'].
Qed.

(** The record sets and cache entries without the pointers back. *)
Definition info (s : age_list) : gmap Z (Z * Z) * gmap Z (Z * Z) :=
  ((fun e => (ts e, flags e)) <$> sets s, (fun e => (neg_ts e, cent_flags e)) <$> cents s).
Definition info_age (inf : gmap Z (Z * Z) * gmap Z (Z * Z)) (x : node) : Z :=
  default 0 (match no x with Some r => fst <$> fst inf !! r | None => fst <$> snd inf !! nc x end).

Lemma age_info s x : age (sets s) (cents s) x = info_age (info s) x.
Proof. unfold age, owner_ts, info_age, info. cbn [fst snd]. destruct (no x); rewrite lookup_fmap; [by destruct (sets s !! _)|by destruct (cents s !! _)]. Qed.

(** What the entry is for has no entry yet. *)
Definition unlisted (s : age_list) (x : node) : Prop :=
  match no x with Some r => exists e, sets s !! r = Some e /\ lent e = None | None => exists e, cents s !! nc x = Some e /\ neg_lent e = None end.

Lemma rep_insert s xs x xs' s2 : rep s xs -> xs' ≡ₚ x :: xs -> (na x ∉ dom (lents s)) -> unlisted s x ->
  dlinked (lents s2) None (rrset_l s2) xs' (rrset_l_tail s2) None -> dom (lents s2) = {[na x]} ∪ dom (lents s) -> same_rest s s2 ->
  exists s3, set_owner (no x) (nc x) (Some (na x)) s2 = Some s3 /\ rep s3 xs' /\ insert_sort s3 = insert_sort s /\ info s3 = info s.
Proof.
  intros [R1 R2 R3 R5 R6] Hp Hx Hu Hd Hdom (Ei & Es & Ec). rewrite R3, elem_of_list_to_set in Hx.
  assert (NoDup (na <$> xs')) as Hn by (rewrite Hp; by apply list.NoDup_cons).
  assert (dom (lents s2) = list_to_set (na <$> xs')) as Hdom' by (rewrite Hdom, R3, Hp; by rewrite fmap_cons, list_to_set_cons).
  assert (forall f : node -> option Z, f x = None -> forall y r, f y = Some r -> y ∈ xs' <-> y ∈ xs) as Hskip.
  { intros f Hf y r Hy. rewrite Hp, elem_of_cons. split; [intros [->|]; [congruence|done]|by right]. }
  unfold set_owner. rewrite Es, Ec. unfold unlisted in Hu. destruct (no x) as [r|] eqn:Eo; destruct Hu as (e & Ee & El); rewrite Ee.
  - eexists. split; [done|]. split; [split|split; [done|]]; cbn [lents sets cents rrset_l rrset_l_tail set_sets]; rewrite ?Ec; try done.
    + rewrite fmap_insert. cbn [lent]. apply (tracks_insert no xs); try done. by rewrite lookup_fmap, Ee, <- El.
    + apply (tracks_same neg_key xs); [done|]. apply Hskip. unfold neg_key. by rewrite Eo.
    + unfold info. cbn [sets cents set_sets]. rewrite Ec, fmap_insert, insert_id; [done|]. by rewrite lookup_fmap, Ee.
  - eexists. split; [done|]. split; [split|split; [done|]]; cbn [lents sets cents rrset_l rrset_l_tail set_cents]; rewrite ?Es; try done.
    + by apply (tracks_same no xs); [|apply Hskip].
    + rewrite fmap_insert. cbn [neg_lent]. apply (tracks_insert neg_key xs); [done..| |by rewrite lookup_fmap, Ee, <- El]. unfold neg_key. by rewrite Eo.
    + unfold info. cbn [sets cents set_cents]. rewrite Es, fmap_insert, insert_id; [done|]. by rewrite lookup_fmap, Ee.
Qed.

Lemma unlisted_timed s x : unlisted s x -> timed (sets s) (cents s) x.
Proof. unfold unlisted, timed, owner_ts. by destruct (no x); intros (e & -> & _); eexists. Qed.

Lemma insert_rrl_spec s xs x : rep s xs -> (na x ∉ dom (lents s)) -> unlisted s x -> is_local s (no x) (nc x) = Some false ->
  exists s', insert_rrl s (no x) (nc x) (ni x) (Some (na x)) = Some (s', true) /\
    rep s' (if insert_sort s then age_insert (age (sets s) (cents s)) x xs else xs ++ [x]) /\ insert_sort s' = insert_sort s /\ info s' = info s.
Proof.
  intros R Hx Hu Hloc. unfold insert_rrl. rewrite Hloc. set (s0 := set_lents _ s). assert (na x ∉ na <$> xs) as Hnx by (by rewrite (a_dom _ _ R), elem_of_list_to_set in Hx).
  assert (lents s0 !! na x = Some (mkLent None None (no x) (nc x) (ni x))) as E0 by apply lookup_insert_eq.
  assert (dlinked (lents s0) None (rrset_l s0) xs (rrset_l_tail s0) None) as Hd.
  { apply (dlinked_frame (lents s)); [|apply (a_list _ _ R)]. intros a Ha. apply lookup_insert_ne. by intros <-. }
  assert (dom (lents s0) = {[na x]} ∪ dom (lents s)) as Hdom by apply dom_insert_L.
  assert (forall l1 l2 m k h, xs = l1 ++ l2 -> dlinked (lents s0) None (rrset_l s0) l1 m k -> dlinked (lents s0) m k l2 (rrset_l_tail s0) None ->
    h !! na x = Some (mkLent k m (no x) (nc x) (ni x)) -> same_but [x] (lents s0) h ->
    exists s1 s2 s3, link_prev k (Some (na x)) (set_lents h s0) = Some s1 /\ link_next m (Some (na x)) s1 = Some s2 /\ set_owner (no x) (nc x) (Some (na x)) s2 = Some s3 /\
      rep s3 (l1 ++ x :: l2) /\ insert_sort s3 = insert_sort s /\ info s3 = info s) as Hlink.
  { intros l1 l2 m k h -> H1 H2 E Hb. assert (NoDup (na <$> [x] ++ l1 ++ l2)) as Hn by (rewrite fmap_app; apply list.NoDup_cons; split; [done|apply (a_nodup _ _ R)]).
    destruct (link_between (set_lents h s0) l1 l2 x m k) as (s1 & s2 & E1 & E2 & H & D & RR); try done; try (eapply dlinked_but; [exact Hb|nodup Hn|done]); [nodup Hn|].
    destruct (rep_insert s (l1 ++ l2) x (l1 ++ x :: l2) s2 R) as (s3 & E3 & R3); try done; [by rewrite Permutation_middle| |by exists s1, s2, s3].
    rewrite D. cbn [lents set_lents]. by rewrite (proj1 Hb). }
  change (insert_sort s0) with (insert_sort s). destruct (insert_sort s) eqn:Eis.
  - rewrite (get_ts_spec (sets s0) (cents s0) (lents s0) x _ _ E0 (unlisted_timed s x Hu)).
    destruct (find_loop_spec s0 (age (sets s0) (cents s0) x) None xs (rrset_l_tail s0) (size (lents s0)) Hd (rep_timed s xs R)) as (l1 & l2 & m & k & -> & -> & H1 & H2 & Hl2 & Hl1).
    { apply mem_size; [|apply (a_nodup _ _ R)]. intros a Ha. rewrite Hdom, (a_dom _ _ R). apply elem_of_union. right. by apply elem_of_list_to_set. }
    rewrite (age_insert_unique (age (sets s) (cents s)) x l1 l2 Hl2 Hl1). destruct m as [le|].
    + destruct l1 as [|z l1 _] using rev_ind; [by destruct H1|]. pose proof H1 as (m' & k' & _ & -> & nxt & Ez & -> & [= ->])%dlinked_app. rewrite Ez. cbn [next].
      destruct (set_next_spec (lents s0) x _ _ k E0) as (h1 & -> & Eh1 & B1). destruct (set_prev_spec h1 x _ _ (Some (na z)) Eh1) as (h2 & -> & Eh2 & B2).
      destruct (Hlink (l1 ++ [z]) l2 (Some (na z)) k h2 eq_refl H1 H2 Eh2 (same_but_trans _ _ _ _ B1 B2)) as (s1 & s2 & s3 & E1 & E2 & E3 & R3). rewrite E1, E2, E3. by exists s3.
    + pose proof (dlinked_last _ _ _ _ _ _ H1) as Hlast. destruct l1 as [|z l1 _] using rev_ind; [|by rewrite last_snoc in Hlast]. destruct H1 as [<- _].
      destruct (set_next_spec (lents s0) x _ _ (rrset_l s0) E0) as (h1 & -> & Eh1 & B1).
      destruct (Hlink [] l2 None (rrset_l s0) h1 eq_refl (conj eq_refl eq_refl) H2 Eh1 B1) as (s1 & s2 & s3 & E1 & E2 & E3 & R3). simpl in E2. injection E2 as E2.
      change (rrset_l (set_lents h1 s0)) with (rrset_l s0). rewrite E1, E2, E3. by exists s3.
  - destruct (set_prev_spec (lents s0) x _ _ (rrset_l_tail s0) E0) as (h1 & -> & Eh1 & B1).
    destruct (Hlink xs [] (rrset_l_tail s0) None h1) as (s1 & s2 & s3 & E1 & E2 & E3 & R3); try done; [by rewrite app_nil_r|].
    simpl in E1. injection E1 as <-. change (rrset_l_tail (set_lents h1 s0)) with (rrset_l_tail s0). revert E2. unfold link_next.
    destruct (rrset_l_tail s0) as [z|]; cbn [lents set_tail set_lents]; [destruct (set_next h1 z (Some (na x))) as [h2|]; [|done]|]; intros [= <-];
      (exists s3; split; [exact (f_equal (fun o => match o with Some s => Some (s, true) | None => None end) E3)|exact R3]).
Qed.

(** ** Removing *)

Lemma remove_rrl_spec s l1 x l2 : dlinked (lents s) None (rrset_l s) (l1 ++ x :: l2) (rrset_l_tail s) None -> NoDup (na <$> l1 ++ x :: l2) ->
  exists s', remove_rrl s (na x) = Some s' /\ dlinked (lents s') None (rrset_l s') (l1 ++ l2) (rrset_l_tail s') None /\
    dom (lents s') = dom (lents s) ∖ {[na x]} /\ same_rest s s'.
Proof.
  intros (m & k & H1 & -> & nxt & E & H2)%dlinked_app Hn. unfold remove_rrl. rewrite E. cbn [next prev].
  destruct (link_prev_spec s (Some (na x)) nxt l2 m H2) as (s1 & -> & H2' & B1 & Eh & R1); [nodup Hn|].
  assert (dlinked (lents s1) None (rrset_l s1) l1 m (Some (na x))) as H1' by (rewrite Eh; eapply dlinked_but; [exact B1|nodup Hn|exact H1]).
  destruct (link_next_spec s1 l1 m (Some (na x)) nxt H1') as (s2 & -> & H1'' & B2 & Et & R2); [nodup Hn|].
  exists (set_lents (delete (na x) (lents s2)) s2). split; [done|]. cbn [lents set_lents rrset_l rrset_l_tail]. split.
  - assert (NoDup (na <$> (l1 ++ l2) ++ [x])) as Hx by nodup Hn. rewrite !fmap_app in Hx. apply list.NoDup_app in Hx as (_ & Hx & _).
    apply (dlinked_frame (lents s2)).
    { intros a Ha. rewrite fmap_app in Ha. apply lookup_delete_ne. intros <-. apply (Hx (na x) Ha). by left. }
    apply dlinked_app. exists m, nxt. split; [done|]. rewrite Et. eapply dlinked_but; [exact B2|nodup Hn|exact H2'].
  - split; [by rewrite dom_delete_L, (proj1 B2), (proj1 B1)|]. exact (same_rest_trans s s1 s2 R1 R2).
Qed.

Lemma filter_keep_all {A} (P : A -> Prop) `{!forall x, Decision (P x)} (xs : list A) : (forall y, y ∈ xs -> P y) -> filter P xs = xs.
Proof. induction xs as [|x xs IH]; intros Hall; [done|]. rewrite filter_cons_True by (apply Hall; by left). f_equal. apply IH. intros y Hy. apply Hall. by right. Qed.

(** Taking out all entries with a key: there is one for a pointer back, and none without. *)
Lemma remove_key s xs f r o m (Hd : forall x, Decision (f x <> Some r)) : rep s xs -> tracks f xs m -> m !! r = Some o ->
  exists s', match o with Some le => remove_rrl s le | None => Some s end = Some s' /\
    dlinked (lents s') None (rrset_l s') (filter (fun x => f x <> Some r) xs) (rrset_l_tail s') None /\
    NoDup (na <$> filter (fun x => f x <> Some r) xs) /\ dom (lents s') = list_to_set (na <$> filter (fun x => f x <> Some r) xs) /\ same_rest s s'.
Proof.
  intros R [_ Ht] Hr. specialize (Ht r o Hr). pose proof (a_nodup _ _ R) as Hn. destruct o as [le|].
  - destruct (proj1 (Ht le) eq_refl) as (x & Hx & <- & Hf). apply list_elem_of_split in Hx as (l1 & l2 & ->).
    destruct (remove_rrl_spec s l1 x l2 (a_list _ _ R) Hn) as (s' & -> & H & D & RR). exists s'. split; [done|].
    assert (filter (fun x => f x <> Some r) (l1 ++ x :: l2) = l1 ++ l2) as ->.
    { assert (forall y, y ∈ l1 ++ l2 -> f y <> Some r) as Hy.
      { intros y Hy Hf'. assert (Some (na x) = Some (na y)) as E by (apply Ht; exists y; split; [set_solver|done]).
        assert (NoDup (na <$> (l1 ++ l2) ++ [x])) as Hn' by nodup Hn. rewrite fmap_app in Hn'. apply list.NoDup_app in Hn' as (_ & Hn' & _).
        apply (Hn' (na y)); [by apply list_elem_of_fmap_2|]. injection E as <-. by left. }
      rewrite list.filter_app, filter_cons_False by (intros H'; by apply H'). rewrite <- list.filter_app. by apply filter_keep_all. }
    split; [done|]. split; [nodup Hn|]. split; [|done]. rewrite D, (a_dom _ _ R). rewrite !fmap_app, fmap_cons in *. apply list.NoDup_app in Hn as (_ & Hn1 & Hn2). apply list.NoDup_cons in Hn2 as [Hn2 _].
    rewrite !list_to_set_app_L, list_to_set_cons. assert (na x ∉ na <$> l1) by (intros H1; apply (Hn1 _ H1); by left). apply set_eq. intros a.
    rewrite elem_of_difference, !elem_of_union, elem_of_singleton, !elem_of_list_to_set. naive_solver.
  - rewrite (filter_keep_all _ xs).
    + exists s. split_and!; try done; apply R.
    + intros y Hy Hf. by pose proof (proj2 (Ht (na y)) (ex_intro _ y (conj Hy (conj eq_refl Hf)))).
Qed.

Lemma free_rrset_spec s xs r : rep s xs -> r ∈ dom (sets s) ->
  exists s', free_rrset s r = Some s' /\ rep s' (filter (fun x => no x <> Some r) xs) /\ insert_sort s' = insert_sort s /\ info s' = (delete r (fst (info s)), snd (info s)).
Proof.
  intros R [e Ee]%elem_of_dom. unfold free_rrset. rewrite Ee.
  destruct (remove_key s xs no r (lent e) (lent <$> sets s) _ R (a_set _ _ R)) as (s1 & -> & H1 & H2 & H3 & Ei & Es & Ec); [by rewrite lookup_fmap, Ee|].
  eexists. split; [done|]. split; [split|split; [done|]]; cbn [lents sets cents rrset_l rrset_l_tail set_sets]; try done.
  - rewrite Es, fmap_delete. apply (tracks_delete no xs); [apply R|]. intros y. rewrite list_elem_of_filter. tauto.
  - rewrite Ec. apply (tracks_same neg_key xs); [apply R|]. intros y c Hy. rewrite list_elem_of_filter. unfold neg_key in Hy. destruct (no y); [done|]. split; [by intros []|done].
  - unfold info. cbn [sets cents set_sets fst snd]. by rewrite Es, Ec, fmap_delete.
Qed.

Lemma free_neg_spec s xs c : rep s xs -> c ∈ dom (cents s) ->
  exists s', free_neg s c = Some s' /\ rep s' (filter (fun x => neg_key x <> Some c) xs) /\ insert_sort s' = insert_sort s /\ info s' = (fst (info s), delete c (snd (info s))).
Proof.
  intros R [e Ee]%elem_of_dom. unfold free_neg. rewrite Ee.
  destruct (remove_key s xs neg_key c (neg_lent e) (neg_lent <$> cents s) _ R (a_cent _ _ R)) as (s1 & -> & H1 & H2 & H3 & Ei & Es & Ec); [by rewrite lookup_fmap, Ee|].
  eexists. split; [done|]. split; [split|split; [done|]]; cbn [lents sets cents rrset_l rrset_l_tail set_cents]; try done.
  - rewrite Es. apply (tracks_same no xs); [apply R|]. intros y r Hy. rewrite list_elem_of_filter. unfold neg_key. rewrite Hy. split; [by intros []|done].
  - rewrite Ec, fmap_delete. apply (tracks_delete neg_key xs); [apply R|]. intros y. rewrite list_elem_of_filter. tauto.
  - unfold info. cbn [sets cents set_cents fst snd]. by rewrite Es, Ec, fmap_delete.
Qed.

(** ** Sorting *)

Section Sorting.

Variable sets : gmap Z rr_set.
Variable cents : gmap Z dns_cent.

Lemma carry_all_perm xs : forall Ts, concat (carry_all sets cents Ts xs) ≡ₚ concat Ts ++ xs.
Proof.
  induction xs as [|x xs IH]; intros Ts; [by rewrite app_nil_r|]. change (carry_all sets cents Ts (x :: xs)) with (carry_all sets cents (carry_in sets cents Ts [x]) xs).
  rewrite IH, carry_perm. simpl. by rewrite Permutation_middle.
Qed.

Lemma merge_all_perm Ts : forall c, merge_all sets cents c Ts ≡ₚ c ++ concat Ts.
Proof.
  induction Ts as [|T Ts IH]; intros c; [by rewrite app_nil_r|]. change (merge_all sets cents c (T :: Ts)) with (merge_all sets cents (merge (age sets cents) T c) Ts).
  rewrite IH, merge_perm. cbn [concat]. by rewrite (Permutation_app_comm T c), <- app_assoc.
Qed.

Lemma insertion_sort_perm xs : insertion_sort (age sets cents) xs ≡ₚ xs.
Proof.
  rewrite <- merge_sort_insertion. unfold merge_sort. pose proof (carry_all_perm xs []) as Hp. destruct (carry_all sets cents [] xs) as [|T Ts]; [done|]. by rewrite merge_all_perm.
Qed.

(** The links of a list of two or more are sorted. *)
Lemma sort_links h x y xs : linked h (Some (na x)) (x :: y :: xs) None -> NoDup (na <$> x :: y :: xs) -> Forall (timed sets cents) (x :: y :: xs) -> zlen (x :: y :: xs) < 2 ^ 32 ->
  exists h1 c tmp h2 o h3 last, sort_loop sets cents (size h) h [] (na x) = Some (h1, c :: tmp) /\ final_loop sets cents h1 tmp c = Some (h2, o) /\
    back_loop (size h2) h2 o None = Some (h3, last) /\ dlinked h3 None o (insertion_sort (age sets cents) (x :: y :: xs)) last None /\ dom h3 = dom h.
Proof.
  intros Hl Hn Ht Hz. assert (length (x :: y :: xs) <= size h)%nat as Hs by (apply mem_size; [|done]; intros a Ha; exact (linked_mem _ _ _ _ _ Hl Ha)).
  destruct (sort_loop_spec sets cents (y :: xs) x h [] [] (size h) Hl) as (h1 & tmp & E1 & T1 & B1); try (by rewrite app_nil_r); [constructor|done|simpl in *; lia|].
  pose proof (carry_all_perm (x :: y :: xs) []) as Hp. simpl app in Hp. rewrite <- merge_sort_insertion. unfold merge_sort.
  destruct (carry_all sets cents [] (x :: y :: xs)) as [|T Ts]; [by apply Permutation_nil_cons in Hp|]. inversion T1 as [|c T' tmp' Ts' Hc Htmp]; subst. cbn [concat] in Hp.
  destruct (final_loop_spec sets cents Ts h1 tmp' c T Htmp Hc) as (h2 & o & E2 & Hl2 & B2); [by rewrite Hp|by rewrite Hp|].
  destruct (back_loop_spec (merge_all sets cents T Ts) (size h2) h2 None o Hl2) as (h3 & last & E3 & Hd & B3).
  { by rewrite merge_all_perm, Hp. }
  { apply mem_size; [intros a Ha; exact (linked_mem _ _ _ _ _ Hl2 Ha)|]. by rewrite merge_all_perm, Hp. }
  exists h1, c, tmp', h2, o, h3, last. split_and!; try done. by rewrite (proj1 B3), (proj1 B2), (proj1 B1).
Qed.

End Sorting.

Lemma sort_rrl_spec s xs : rep s xs -> zlen xs < 2 ^ 32 ->
  exists s', sort_rrl s = Some s' /\ rep s' (insertion_sort (age (sets s) (cents s)) xs) /\ same_rest s s'.
Proof.
  intros R Hz. unfold sort_rrl. pose proof (dlinked_linked _ _ _ _ _ _ (a_list _ _ R)) as Hl. destruct xs as [|x [|y xs]].
  - simpl in Hl. rewrite Hl. by exists s.
  - destruct Hl as (-> & nxt & pv & E & ->). rewrite E. by exists s.
  - pose proof Hl as (-> & nxt & pv & E & -> & _). rewrite E. cbn [next].
    destruct (sort_links (sets s) (cents s) (lents s) x y xs) as (h1 & c & tmp & h2 & o & h3 & last & E1 & E2 & E3 & Hd & D); [|apply R|by apply rep_timed|done|].
    { by destruct Hl as [_ Hl]. }
    rewrite E1. cbn [head tail]. rewrite E2, E3. eexists. split; [done|]. pose proof (insertion_sort_perm (sets s) (cents s) (x :: y :: xs)) as Hp.
    split; [split|done]; cbn [lents sets cents rrset_l rrset_l_tail set_tail set_head set_lents]; try done.
    + rewrite Hp. apply R.
    + rewrite D, (a_dom _ _ R). by rewrite Hp.
    + apply (tracks_same no (x :: y :: xs)); [apply R|]. intros z r _. by rewrite Hp.
    + apply (tracks_same neg_key (x :: y :: xs)); [apply R|]. intros z r _. by rewrite Hp.
Qed.

(** ** The list as a whole *)

(** What is done: a record set or a cache entry comes, with its time and flags; an
    entry is inserted, with the memory that [malloc] gives; a record set, or a negative
    entry, is freed or invalidated; loading the cache file begins; the list is sorted
    if it has to be. *)
Inductive age_op :=
| NewSet (r t f : Z)
| NewCent (c t f : Z)
| Insert (rrs : option Z) (c i : Z) (ne : option Z)
| FreeSet (r : Z)
| FreeNeg (c : Z)
| InvalidateSet (r : Z)
| InvalidateNeg (c : Z)
| InvalidateCent (c : Z)
| StartLoad
| SortIfNeeded.

Definition exec (s : age_list) (op : age_op) : option (age_list * bool) :=
  let done (s : option age_list) := let* s := s in Some (s, true) in
  match op with
  | NewSet r t f => Some (new_rrset s r t f, true)
  | NewCent c t f => Some (new_cent s c t f, true)
  | Insert rrs c i ne => insert_rrl s rrs c i ne
  | FreeSet r => done (free_rrset s r)
  | FreeNeg c => done (free_neg s c)
  | InvalidateSet r => done (invalidate_rrset s r)
  | InvalidateNeg c => done (invalidate_neg s c)
  | InvalidateCent c => done (invalidate_cent s c)
  | StartLoad => Some (set_insert_sort false s, true)
  | SortIfNeeded => done (sort_if_needed s)
  end.

(** New memory is not in use, what is inserted is there and not in the list, and the
    list that is sorted has less than 2^32 entries. *)
Definition legal (s : age_list) (op : age_op) : Prop :=
  match op with
  | NewSet r _ _ => r ∉ dom (sets s)
  | NewCent c _ _ => c ∉ dom (cents s)
  | Insert rrs c i ne => unlisted s (mkNode 0 rrs c i) /\ c ∈ dom (cents s) /\ match ne with Some ne => ne ∉ dom (lents s) | None => True end
  | FreeSet r | InvalidateSet r => r ∈ dom (sets s)
  | FreeNeg c | InvalidateNeg c | InvalidateCent c => c ∈ dom (cents s)
  | StartLoad => True
  | SortIfNeeded => Z.of_nat (size (lents s)) < 2 ^ 32
  end.

(** The same on a list of entries. *)
Record spec := mkSpec { order : list node; by_age : bool; infos : gmap Z (Z * Z) * gmap Z (Z * Z) }.

Definition has_flag (m : gmap Z (Z * Z)) (k fl : Z) : bool :=
  match m !! k with Some (_, f) => negb (Z.land f fl =? 0) | None => false end.
Definition local_entry (inf : gmap Z (Z * Z) * gmap Z (Z * Z)) (rrs : option Z) (c : Z) : bool :=
  match rrs with Some r => has_flag (fst inf) r CF_LOCAL | None => false end || has_flag (snd inf) c DF_LOCAL.
Definition forget_time (m : gmap Z (Z * Z)) (k : Z) : gmap Z (Z * Z) := alter (fun tf => (0, snd tf)) k m.
(** Bit 2 says that the answer was authoritative. *)
Definition forget_auth (m : gmap Z (Z * Z)) (k : Z) : gmap Z (Z * Z) := alter (fun tf => (fst tf, Z.clearbit (snd tf) 2)) k m.

Definition spec_step (sp : spec) (op : age_op) : spec * bool :=
  let (sm, cm) := infos sp in
  match op with
  | NewSet r t f => (mkSpec (order sp) (by_age sp) (<[r := (t, f)]> sm, cm), true)
  | NewCent c t f => (mkSpec (order sp) (by_age sp) (sm, <[c := (t, f)]> cm), true)
  | Insert rrs c i ne =>
      if local_entry (infos sp) rrs c then (sp, true)
      else match ne with
           | None => (sp, false)
           | Some ne =>
               let x := mkNode ne rrs c i in
               (mkSpec (if by_age sp then age_insert (info_age (infos sp)) x (order sp) else order sp ++ [x]) (by_age sp) (infos sp), true)
           end
  | FreeSet r => (mkSpec (filter (fun x => no x <> Some r) (order sp)) (by_age sp) (delete r sm, cm), true)
  | FreeNeg c => (mkSpec (filter (fun x => neg_key x <> Some c) (order sp)) (by_age sp) (sm, delete c cm), true)
  | InvalidateSet r => (mkSpec (order sp) (by_age sp) (forget_auth (forget_time sm r) r, cm), true)
  | InvalidateNeg c => (mkSpec (order sp) (by_age sp) (sm, forget_time cm c), true)
  | InvalidateCent c => (mkSpec (order sp) (by_age sp) (sm, forget_auth cm c), true)
  | StartLoad => (mkSpec (order sp) false (infos sp), true)
  | SortIfNeeded => (mkSpec (if by_age sp then order sp else insertion_sort (info_age (infos sp)) (order sp)) true (infos sp), true)
  end.

Definition init_spec : spec := mkSpec [] true (∅, ∅).

(** The states under calls of the kinds that [ok] allows, with the list they stand for. *)
Inductive reach (ok : age_op -> bool) : age_list -> spec -> Prop :=
| reach_init : reach ok init_list init_spec
| reach_step s sp op s' b : reach ok s sp -> ok op = true -> legal s op -> exec s op = Some (s', b) -> reach ok s' (fst (spec_step sp op)).

Definition stands_for (s : age_list) (sp : spec) : Prop := rep s (order sp) /\ insert_sort s = by_age sp /\ info s = infos sp.

Lemma age_insert_ext f g x xs : (forall y, f y = g y) -> age_insert f x xs = age_insert g x xs.
Proof.
  intros H. induction xs as [|y xs IH]; [done|]. cbn [age_insert]. rewrite IH.
  assert (existsb (fun z => f z <=? f x) (y :: xs) = existsb (fun z => g z <=? g x) (y :: xs)) as ->; [|done].
  generalize (y :: xs). intros zs. induction zs as [|z zs IHz]; [done|]. simpl. by rewrite IHz, !H.
Qed.

Lemma insertion_sort_ext f g xs : (forall y, f y = g y) -> insertion_sort f xs = insertion_sort g xs.
Proof.
  intros H. unfold insertion_sort. generalize (@nil node). induction xs as [|x xs IH]; intros ys; [done|]. simpl. by rewrite (age_insert_ext f g x ys H), IH.
Qed.

Lemma is_local_spec s rrs c : match rrs with Some r => r ∈ dom (sets s) | None => True end -> c ∈ dom (cents s) ->
  is_local s rrs c = Some (local_entry (info s) rrs c).
Proof.
  intros Hr [e Ee]%elem_of_dom. unfold is_local, local_entry, info, has_flag. cbn [fst snd]. rewrite !lookup_fmap, Ee. cbn [fmap option_fmap option_map].
  destruct rrs as [r|]; [|done]. apply elem_of_dom in Hr as [x Ex]. rewrite !lookup_fmap, Ex. cbn [fmap option_fmap option_map]. by destruct (negb _).
Qed.

Lemma forget_insert (m : gmap Z (Z * Z)) k t f : m !! k = Some (t, f) -> forget_time m k = <[k := (0, f)]> m.
Proof. intros E. unfold forget_time. apply map_eq. intros j. destruct (decide (j = k)) as [->|Hne]; [by rewrite lookup_alter_eq, lookup_insert_eq, E|by rewrite lookup_alter_ne, lookup_insert_ne]. Qed.

Lemma auth_insert (m : gmap Z (Z * Z)) k t f : m !! k = Some (t, f) -> forget_auth m k = <[k := (t, Z.land f (Z.lnot 4))]> m.
Proof.
  intros E. unfold forget_auth. apply map_eq. intros j. destruct (decide (j = k)) as [->|Hne]; [|by rewrite lookup_alter_ne, lookup_insert_ne].
  rewrite lookup_alter_eq, lookup_insert_eq, E. cbn. by rewrite <- Z.ldiff_land.
Qed.

(** The maps of record sets and cache entries change, the list does not. *)
Lemma rep_sets s xs m m' b : rep s xs -> tracks no xs (lent <$> m) -> tracks neg_key xs (neg_lent <$> m') ->
  rep (mkAge (rrset_l s) (rrset_l_tail s) b (lents s) m m') xs.
Proof. intros [R1 R2 R3 _ _] H H'. split; done. Qed.

Lemma rep_sort_flag s xs b : rep s xs -> rep (set_insert_sort b s) xs.
Proof. intros R. apply rep_sets; [done|apply R|apply R]. Qed.

Lemma new_stands s xs : rep s xs ->
  (forall r t f, (r ∉ dom (sets s)) -> stands_for (new_rrset s r t f) (mkSpec xs (insert_sort s) (<[r := (t, f)]> (fst (info s)), snd (info s)))) /\
  (forall c t f, (c ∉ dom (cents s)) -> stands_for (new_cent s c t f) (mkSpec xs (insert_sort s) (fst (info s), <[c := (t, f)]> (snd (info s))))).
Proof.
  intros R. split; intros k t f Hk%not_elem_of_dom; (split; [apply rep_sets; [done|..]|split; [done|]]); try apply R.
  - rewrite fmap_insert. apply tracks_new; [apply R|]. by rewrite lookup_fmap, Hk.
  - unfold info, new_rrset. cbn [sets cents set_sets fst snd infos]. by rewrite fmap_insert.
  - rewrite fmap_insert. apply tracks_new; [apply R|]. by rewrite lookup_fmap, Hk.
  - unfold info, new_cent. cbn [sets cents set_cents fst snd infos]. by rewrite fmap_insert.
Qed.

Lemma invalidate_stands s xs : rep s xs ->
  (forall r, r ∈ dom (sets s) -> exists s', invalidate_rrset s r = Some s' /\ stands_for s' (mkSpec xs (insert_sort s) (forget_auth (forget_time (fst (info s)) r) r, snd (info s)))) /\
  (forall c, c ∈ dom (cents s) -> exists s', invalidate_neg s c = Some s' /\ stands_for s' (mkSpec xs (insert_sort s) (fst (info s), forget_time (snd (info s)) c))) /\
  (forall c, c ∈ dom (cents s) -> exists s', invalidate_cent s c = Some s' /\ stands_for s' (mkSpec xs (insert_sort s) (fst (info s), forget_auth (snd (info s)) c))).
Proof.
  intros R. split_and!; intros k [e Ee]%elem_of_dom; [unfold invalidate_rrset|unfold invalidate_neg|unfold invalidate_cent]; rewrite Ee; (eexists; split; [done|]);
    (split; [apply rep_sets; [done|..]|split; [done|]]); try apply R; try (rewrite fmap_insert, insert_id; [apply R|]; by rewrite lookup_fmap, Ee).
  all: unfold info; cbn [sets cents set_sets set_cents fst snd infos]; rewrite fmap_insert.
  - rewrite (forget_insert _ k (ts e) (flags e)) by (by rewrite lookup_fmap, Ee). rewrite (auth_insert _ k 0 (flags e)) by apply lookup_insert_eq. by rewrite insert_insert_eq.
  - by rewrite (forget_insert _ k (neg_ts e) (cent_flags e)) by (by rewrite lookup_fmap, Ee).
  - by rewrite (auth_insert _ k (neg_ts e) (cent_flags e)) by (by rewrite lookup_fmap, Ee).
Qed.

Lemma insert_stands s xs rrs c i ne : rep s xs -> legal s (Insert rrs c i ne) ->
  exists s', exec s (Insert rrs c i ne) = Some (s', snd (spec_step (mkSpec xs (insert_sort s) (info s)) (Insert rrs c i ne))) /\
    stands_for s' (fst (spec_step (mkSpec xs (insert_sort s) (info s)) (Insert rrs c i ne))).
Proof.
  intros R (Hu & Hc & Hne). unfold spec_step. cbn [exec infos order by_age].
  assert (is_local s rrs c = Some (local_entry (info s) rrs c)) as Hloc.
  { apply is_local_spec; [|done]. unfold unlisted in Hu. cbn [no] in Hu. destruct rrs; [|done]. destruct Hu as (e & Ee & _). by eapply elem_of_dom_2. }
  destruct (info s) as [sm cm] eqn:Einf. cbv iota. destruct (local_entry (sm, cm) rrs c) eqn:El; [unfold insert_rrl; rewrite Hloc; exists s; split; [done|]; by split_and!|].
  destruct ne as [ne|]; [|unfold insert_rrl; rewrite Hloc; by exists s].
  destruct (insert_rrl_spec s xs (mkNode ne rrs c i) R Hne Hu Hloc) as (s' & E & R' & Ei & Ef). cbn [no nc ni na] in E. rewrite E. exists s'. split; [done|].
  rewrite Einf in Ef. split; [|by split]. cbn [fst order]. rewrite (age_insert_ext _ (info_age (sm, cm))) in R' by (intros y; rewrite age_info; by rewrite Einf). done.
Qed.

Lemma sort_stands s xs : rep s xs -> Z.of_nat (size (lents s)) < 2 ^ 32 ->
  exists s', sort_if_needed s = Some s' /\ stands_for s' (mkSpec (if insert_sort s then xs else insertion_sort (info_age (info s)) xs) true (info s)).
Proof.
  intros R Hz. unfold sort_if_needed. destruct (insert_sort s) eqn:Ei; [exists s; split; [done|]; by split_and!|].
  destruct (sort_rrl_spec s xs R) as (s' & -> & R' & Ei' & Es & Ec).
  { unfold zlen. enough (length xs <= size (lents s))%nat by lia. apply mem_size; [|apply R]. intros a Ha. rewrite (a_dom _ _ R). by apply elem_of_list_to_set. }
  eexists. split; [done|]. split; [|split; [done|unfold info; cbn [sets cents set_insert_sort infos]; by rewrite Es, Ec]]. cbn [order].
  rewrite (insertion_sort_ext _ (info_age (info s))) in R' by apply age_info. by apply rep_sort_flag.
Qed.

Lemma age_exec_spec s sp op : stands_for s sp -> legal s op ->
  exists s', exec s op = Some (s', snd (spec_step sp op)) /\ stands_for s' (fst (spec_step sp op)).
Proof.
  destruct sp as [xs b inf]. intros (R & Ei & Ein) Hop. cbn [order by_age infos] in *. subst b inf. destruct (info s) as [sm cm] eqn:Einf.
  destruct op as [r t f|c t f|rrs c i ne|r|c|r|c|c| |]; try (unfold spec_step; cbn [infos order by_age exec legal fst snd] in * ).
  - pose proof (proj1 (new_stands s xs R) r t f Hop) as H. rewrite Einf in H. by eexists.
  - pose proof (proj2 (new_stands s xs R) c t f Hop) as H. rewrite Einf in H. by eexists.
  - rewrite <- Einf. by apply insert_stands.
  - destruct (free_rrset_spec s xs r R Hop) as (s' & -> & R' & Ei & Ef). exists s'. split; [done|]. rewrite Einf in Ef. split; [exact R'|by split].
  - destruct (free_neg_spec s xs c R Hop) as (s' & -> & R' & Ei & Ef). exists s'. split; [done|]. rewrite Einf in Ef. split; [exact R'|by split].
  - destruct (proj1 (invalidate_stands s xs R) r Hop) as (s' & -> & H). exists s'. split; [done|]. by rewrite Einf in H.
  - destruct (proj1 (proj2 (invalidate_stands s xs R)) c Hop) as (s' & -> & H). exists s'. split; [done|]. by rewrite Einf in H.
  - destruct (proj2 (proj2 (invalidate_stands s xs R)) c Hop) as (s' & -> & H). exists s'. split; [done|]. by rewrite Einf in H.
  - eexists. split; [done|]. split; [by apply rep_sort_flag|]. split; [done|exact Einf].
  - destruct (sort_stands s xs R Hop) as (s' & -> & H). exists s'. split; [done|]. by rewrite Einf in H.
Qed.

Lemma reach_stands ok s sp : reach ok s sp -> stands_for s sp.
Proof.
  induction 1 as [|s sp op s' b _ IH _ Hop E]; [split; [apply rep_init|done]|]. destruct (age_exec_spec s sp op IH Hop) as (s1 & E1 & H). rewrite E in E1. by injection E1 as -> _.
Qed.

(** C27. The list of record sets behaves as a list of entries under any calls in any order:
    insertion by age or, while the cache file is loaded, at the end; freeing; sorting, whose
    merge sort on pointers gives what insertion by age would have given. No
    assertion fails, the links agree in both directions, every entry in memory is in the
    list, and a pointer back is that of the one entry there is. *)
Theorem age_list_refines ok s sp op : reach ok s sp -> legal s op -> ok op = true ->
  exists s', exec s op = Some (s', snd (spec_step sp op)) /\ reach ok s' (fst (spec_step sp op)) /\
    dlinked (lents s') None (rrset_l s') (order (fst (spec_step sp op))) (rrset_l_tail s') None /\
    dom (lents s') = list_to_set (na <$> order (fst (spec_step sp op))) /\
    tracks no (order (fst (spec_step sp op))) (lent <$> sets s') /\ tracks neg_key (order (fst (spec_step sp op))) (neg_lent <$> cents s').
Proof.
  intros Hr Hop Hok. destruct (age_exec_spec s sp op (reach_stands ok s sp Hr) Hop) as (s' & E & R & _). exists s'. split; [done|].
  split; [by eapply reach_step|]. split_and!; apply R.
Qed.

(** ** Oldest first *)

Abbreviation oldest_first inf := (StronglySorted (fun x y => info_age inf x <= info_age inf y)) (only parsing).

Lemma sorted_change (f g : node -> Z) xs (P : node -> Prop) `{!forall x, Decision (P x)} : (forall x, x ∈ xs -> P x -> f x = g x) ->
  StronglySorted (fun x y => f x <= f y) xs -> StronglySorted (fun x y => g x <= g y) (filter P xs).
Proof.
  induction xs as [|x xs IH]; intros Hfg Hs; [constructor|]. apply sorted_cons in Hs as [Hx Hs].
  assert (StronglySorted (fun x y => g x <= g y) (filter P xs)) as Hf by (apply IH; [|done]; intros y Hy; apply Hfg; by right). rewrite filter_cons. case_decide as HP; [|done].
  apply sorted_cons. split; [|done]. intros y [HPy Hy]%list_elem_of_filter. rewrite <- !Hfg; [by apply Hx|by right|done|by left|done].
Qed.

Lemma sorted_same (f g : node -> Z) xs : (forall x, x ∈ xs -> f x = g x) -> StronglySorted (fun x y => f x <= f y) xs -> StronglySorted (fun x y => g x <= g y) xs.
Proof. intros Hfg Hs. rewrite <- (filter_keep_all (fun _ => True) xs) by done. apply (sorted_change f g); [|done]. intros x Hx _. by apply Hfg. Qed.

(** No record is invalidated. *)
Definition keeps_time (op : age_op) : bool := match op with InvalidateSet _ | InvalidateNeg _ | InvalidateCent _ => false | _ => true end.

Lemma stands_keys s sp x : stands_for s sp -> x ∈ order sp -> (forall r, no x = Some r -> r ∈ dom (sets s)) /\ forall c, neg_key x = Some c -> c ∈ dom (cents s).
Proof.
  intros (R & _) Hx. split; intros k Hk; apply elem_of_dom; [pose proof (proj1 (a_set _ _ R) x k Hx Hk) as H|pose proof (proj1 (a_cent _ _ R) x k Hx Hk) as H];
    by rewrite lookup_fmap, fmap_is_Some in H.
Qed.

(** The age of an entry is looked up under its key alone. *)
Lemma info_age_key x m m' n n' : (forall r, no x = Some r -> m !! r = m' !! r) -> (forall c, neg_key x = Some c -> n !! c = n' !! c) -> info_age (m, n) x = info_age (m', n') x.
Proof. unfold info_age, neg_key. cbn [fst snd]. destruct (no x) as [r|]; intros H1 H2; [by rewrite (H1 r)|by rewrite (H2 (nc x))]. Qed.

Lemma sorted_step s sp op : stands_for s sp -> legal s op -> keeps_time op = true ->
  (by_age sp = true -> oldest_first (infos sp) (order sp)) ->
  by_age (fst (spec_step sp op)) = true -> oldest_first (infos (fst (spec_step sp op))) (order (fst (spec_step sp op))).
Proof.
  intros Hs Hop Hk Hsort. pose proof (fun x => stands_keys s sp x Hs) as Hkeys. destruct sp as [xs b [sm cm]]. destruct op as [r t f|c t f|rrs c i ne|r|c| | | | |]; try done;
    unfold spec_step; cbn [infos order by_age fst snd legal] in *; intros Hb; try specialize (Hsort Hb).
  - apply (sorted_same (info_age (sm, cm))); [|done]. intros x Hx. apply info_age_key; [|done]. intros r' Hr. rewrite lookup_insert_ne; [done|]. intros <-. by apply Hop, (Hkeys x Hx).
  - apply (sorted_same (info_age (sm, cm))); [|done]. intros x Hx. apply info_age_key; [done|]. intros c' Hc. rewrite lookup_insert_ne; [done|]. intros <-. by apply Hop, (Hkeys x Hx).
  - destruct (local_entry (sm, cm) rrs c); [by apply Hsort|]. destruct ne as [ne|]; [|by apply Hsort]. cbn [fst by_age infos order] in *. subst b. apply age_insert_sorted. by apply Hsort.
  - apply (sorted_change (info_age (sm, cm))); [|done]. intros x Hx Hn. apply info_age_key; [|done]. intros r' Hr. rewrite lookup_delete_ne by congruence. done.
  - apply (sorted_change (info_age (sm, cm))); [|done]. intros x Hx Hn. apply info_age_key; [done|]. intros c' Hc. rewrite lookup_delete_ne by congruence. done.
  - destruct b; [by apply Hsort|]. apply insertion_sort_spec.
Qed.

(** C31. As long as no record is invalidated, the list is in the order of age, the oldest
    first, whenever no sorting is pending: purging from its head deletes the oldest. *)
Theorem age_list_sorted s sp : reach keeps_time s sp -> insert_sort s = true ->
  dlinked (lents s) None (rrset_l s) (order sp) (rrset_l_tail s) None /\
  StronglySorted (fun x y => age (sets s) (cents s) x <= age (sets s) (cents s) y) (order sp).
Proof.
  intros Hr Hb. pose proof (reach_stands _ _ _ Hr) as (R & Ei & Ein). split; [apply R|].
  apply (sorted_same (info_age (infos sp))); [intros x _; by rewrite <- Ein, age_info|]. rewrite Ei in Hb. clear R Ei Ein. revert Hb. induction Hr as [|s sp op s' b Hr IH Hk Hop E]; [constructor|].
  apply (sorted_step s sp op); try done. by apply (reach_stands keeps_time).
Qed.

(** ** Runs *)

Fixpoint run (s : age_list) (sp : spec) (ops : list age_op) : option (age_list * spec) :=
  match ops with
  | [] => Some (s, sp)
  | op :: ops => let* (s, _) := exec s op in run s (fst (spec_step sp op)) ops
  end.

(** Three record sets are loaded, the second the youngest, and sorted; a fourth is inserted. *)
Definition ex_ops : list age_op :=
  [NewCent 1 0 0; StartLoad; NewSet 11 50 0; Insert (Some 11) 1 0 (Some 101); NewSet 12 70 0; Insert (Some 12) 1 1 (Some 102);
   NewSet 13 60 0; Insert (Some 13) 1 2 (Some 103)].
Definition ex_end (ops : list age_op) : age_list * spec := default (init_list, init_spec) (run init_list init_spec ops).

(** [legal], decided. *)
Definition unlisted_b (s : age_list) (rrs : option Z) (c : Z) : bool :=
  match rrs with
  | Some r => match sets s !! r with Some e => bool_decide (lent e = None) | None => false end
  | None => match cents s !! c with Some e => bool_decide (neg_lent e = None) | None => false end
  end.

Definition legal_b (s : age_list) (op : age_op) : bool :=
  match op with
  | NewSet r _ _ => bool_decide (r ∉ dom (sets s))
  | NewCent c _ _ => bool_decide (c ∉ dom (cents s))
  | Insert rrs c i ne => unlisted_b s rrs c && bool_decide (c ∈ dom (cents s)) && match ne with Some ne => bool_decide (ne ∉ dom (lents s)) | None => true end
  | FreeSet r | InvalidateSet r => bool_decide (r ∈ dom (sets s))
  | FreeNeg c | InvalidateNeg c | InvalidateCent c => bool_decide (c ∈ dom (cents s))
  | StartLoad => true
  | SortIfNeeded => Z.of_nat (size (lents s)) <? 2 ^ 32
  end.

Lemma legal_b_sound s op : legal_b s op = true -> legal s op.
Proof.
  destruct op; cbn [legal_b legal]; try (intros H%bool_decide_eq_true; exact H); [|done|by intros H%Z.ltb_lt].
  intros [[Hu Hc%bool_decide_eq_true]%andb_prop Hne]%andb_prop. split; [|split; [done|by destruct ne; [apply bool_decide_eq_true in Hne|]]].
  unfold unlisted_b in Hu. unfold unlisted. cbn [no nc]. destruct rrs as [r|]; [destruct (sets s !! r) as [e|]|destruct (cents s !! c) as [e|]]; try done; apply bool_decide_eq_true in Hu; by exists e.
Qed.

Fixpoint legal_run (ok : age_op -> bool) (s : age_list) (ops : list age_op) : bool :=
  match ops with
  | [] => true
  | op :: ops => ok op && legal_b s op && match exec s op with Some (s, _) => legal_run ok s ops | None => false end
  end.

Lemma age_reach_run ok ops : forall s sp s' sp', reach ok s sp -> run s sp ops = Some (s', sp') -> legal_run ok s ops = true -> reach ok s' sp'.
Proof.
  induction ops as [|op ops IH]; intros s sp s' sp' Hr E Hall; simpl in E, Hall; [by injection E as <- <-|]. apply andb_prop in Hall as [[Hok Hop%legal_b_sound]%andb_prop Hall].
  destruct (exec s op) as [[s1 b]|] eqn:Ex; [|done]. eapply IH; [by eapply reach_step|exact E|exact Hall].
Qed.

Lemma reach_end ops : legal_run keeps_time init_list ops = true -> is_Some (run init_list init_spec ops) -> reach keeps_time (fst (ex_end ops)) (snd (ex_end ops)).
Proof. intros Hl [[s sp] E]. unfold ex_end. rewrite E. eapply age_reach_run; [apply reach_init|exact E|exact Hl]. Qed.

Lemma age_list_refines_witness : reach keeps_time (fst (ex_end ex_ops)) (snd (ex_end ex_ops)) /\
  exists s', exec (fst (ex_end ex_ops)) SortIfNeeded = Some (s', true) /\ dom (lents s') = list_to_set [101; 103; 102].
Proof.
  assert (reach keeps_time (fst (ex_end ex_ops)) (snd (ex_end ex_ops))) as Hr by (apply reach_end; [vm_compute; reflexivity|eexists; vm_compute; reflexivity]).
  split; [exact Hr|]. destruct (age_list_refines keeps_time _ _ SortIfNeeded Hr) as (s' & E & _ & _ & D & _); [vm_compute; reflexivity|reflexivity|].
  exists s'. split; [exact E|exact D].
Defined.

Definition ex_sorted : list age_op := ex_ops ++ [SortIfNeeded; NewSet 14 65 0; Insert (Some 14) 1 3 (Some 104); FreeSet 13].

Lemma age_list_sorted_witness : reach keeps_time (fst (ex_end ex_sorted)) (snd (ex_end ex_sorted)) /\ (na <$> order (snd (ex_end ex_sorted))) = [101; 104; 102] /\
  StronglySorted (fun x y => age (sets (fst (ex_end ex_sorted))) (cents (fst (ex_end ex_sorted))) x <= age (sets (fst (ex_end ex_sorted))) (cents (fst (ex_end ex_sorted))) y) (order (snd (ex_end ex_sorted))).
Proof.
  assert (reach keeps_time (fst (ex_end ex_sorted)) (snd (ex_end ex_sorted))) as Hr by (apply reach_end; [vm_compute; reflexivity|eexists; vm_compute; reflexivity]).
  split; [exact Hr|]. split; [vm_compute; reflexivity|]. apply (age_list_sorted _ _ Hr). vm_compute. reflexivity.
Defined.

(** [invalidate_record] sets the time of a record set to 0 where it stands: the list is
    then not in the order of age any more, though no sorting is pending. *)
Lemma invalidate_unsorts : exists s sp, reach (fun _ => true) s sp /\ insert_sort s = true /\
  (age (sets s) (cents s) <$> order sp) = [50; 0; 65].
Proof.
  set (ops := ex_ops ++ [SortIfNeeded; FreeSet 12; NewSet 14 65 0; Insert (Some 14) 1 3 (Some 104); InvalidateSet 13]).
  exists (fst (ex_end ops)), (snd (ex_end ops)). split; [|split; vm_compute; reflexivity].
  unfold ex_end. destruct (run init_list init_spec ops) as [[s sp]|] eqn:E; [|vm_compute in E; discriminate].
  eapply age_reach_run; [apply reach_init|exact E|vm_compute; reflexivity].
Qed.
