(* ===== verification/Cent.v ===== *)
(** * pdnsd: the record sets of a cache entry ([pdnsd/src/cache.c], [cache.h], [rr_types.h])

    A cache entry ([dns_cent_t]) has, for each of the kinds of records, at most one
    set of records, the eight usual kinds in one array and the others in a second one that is
    allocated when needed, or it says that the name does not exist. It counts its
    sets and its bytes. A union is an inductive, and reading the arm that it is not in, or
    outside of an array, is [None]. The results of the calls of [malloc] are arguments, in
    their order; a clock gives the time at each place where the code reads it. Times are
    in [time_t] of 64 bits, where the sums of times to live and time stamps do not overflow. *)

From S2P Require Import Prelude.
#[global] Open Scope Z_scope.

Definition T_MIN : Z := 1.
Definition T_MAX : Z := 51.
Definition T_NUM : Z := 51.
Definition NRRMU : Z := 8.
Definition NRREXT : Z := 39.
Definition NRRTOT : Z := 47.

Definition rrlkuptab : list Z :=
  [0; 1; 8; 9; 2; 3; 10; 11; 12; 13; 14; 4; 15; 16; 5; 6; 17; 18; 19; 20; 21; 22; 23; 24; 25; 26; 27; 7; 28; 29; 30; 31; 32; 33; 34; 35; 36;
   47; 48; 49; 50; 37; 38; 39; 40; 41; 42; 43; 44; 45; 46].

Definition RRCL_ALIAS : Z := 1.
Definition RRCL_RECORD : Z := 2.
Definition RRCL_IDEM : Z := 4.
Definition RRCL_PTR : Z := 8.
Definition RRX_ALIAS : Z := Z.lor RRCL_RECORD RRCL_PTR.
Definition RRX_RECORD : Z := Z.lor RRCL_ALIAS RRCL_PTR.
Definition RRX_IDEM : Z := 0.
Definition RRX_PTR : Z := Z.lor RRCL_ALIAS RRCL_RECORD.

Record rr_infos := mkInfos { class : Z; excludes : Z }.

Definition rr_info : list rr_infos :=
  let R := mkInfos RRCL_RECORD RRX_RECORD in
  let I := mkInfos RRCL_IDEM RRX_IDEM in
  let A := mkInfos RRCL_ALIAS RRX_ALIAS in
  let P := mkInfos RRCL_PTR RRX_PTR in
  [R; I; A; I; P; I; I; R;
   I; I; I; I; I; I; R; R; I; R; R; R; R; R; R; P; I; I; I; R; R; I; R; R; R; R; R; R; R; I; I; I; I; I; I; I; I; I; I].

Definition CF_NEGATIVE : Z := 1.
Definition CF_LOCAL : Z := 2.
Definition CF_NOCACHE : Z := 8.
Definition CF_NOPURGE : Z := 32.
Definition DF_NEGATIVE : Z := 1.
Definition DF_LOCAL : Z := 2.
Definition DF_AUTH : Z := 4.
Definition DF_NOCACHE : Z := 8.
Definition CACHE_LAT : Z := 120.
Definition cundef : Z := 255.

Definition has (flags f : Z) : bool := negb (Z.land flags f =? 0).
(** [flags &= ~f] *)
Definition clear (flags f : Z) : Z := Z.land flags (Z.lnot f).

Record rr_set := mkSet { ttl : Z; ts : Z; flags : Z; rrs : list (list Z) }.

Inductive cent_body :=
| Neg (neg_ttl neg_ts : Z)
| RR (rrmu : list (option rr_set)) (rrext : option (list (option rr_set))).

Record dns_cent := mkCent { qname : list Z; cs : Z; num_rrs : Z; cent_flags : Z; body : cent_body; c_ns : Z; c_soa : Z }.

Definition set_body (b : cent_body) (c : dns_cent) : dns_cent := mkCent (qname c) (cs c) (num_rrs c) (cent_flags c) b (c_ns c) (c_soa c).
Definition add_cs (d : Z) (c : dns_cent) : dns_cent := mkCent (qname c) (cs c + d) (num_rrs c) (cent_flags c) (body c) (c_ns c) (c_soa c).
Definition set_num_rrs (n : Z) (c : dns_cent) : dns_cent := mkCent (qname c) (cs c) n (cent_flags c) (body c) (c_ns c) (c_soa c).
Definition set_cent_flags (f : Z) (c : dns_cent) : dns_cent := mkCent (qname c) (cs c) (num_rrs c) f (body c) (c_ns c) (c_soa c).

Definition CLAT_ADJ (ttl : Z) : Z := if ttl <? CACHE_LAT then CACHE_LAT else ttl.
Definition timedout (rrset : rr_set) (now : Z) : bool := ts rrset + CLAT_ADJ (ttl rrset) <? now.

(** An element of an array, and assigning it. *)
Definition at_index {A} (l : list A) (i : Z) : option A := if 0 <=? i then l !! Z.to_nat i else None.
Definition put_index {A} (l : list A) (i : Z) (x : A) : option (list A) :=
  let* _ := at_index l i in Some (<[Z.to_nat i := x]> l).

(** ** The arrays of a cache entry *)

Definition RRARR_LEN (c : dns_cent) : option Z :=
  if has (cent_flags c) DF_NEGATIVE then Some 0
  else match body c with
  | Neg _ _ => None
  | RR _ (Some _) => Some NRRTOT
  | RR _ None => Some NRRMU
  end.

Definition RRARR_INDEX (c : dns_cent) (i : Z) : option (option rr_set) :=
  match body c with
  | Neg _ _ => None
  | RR mu ext => if i <? NRRMU then at_index mu i else let* ext := ext in at_index ext (i - NRRMU)
  end.

(** [*RRARR_INDEX_PA(cent,i)=o] *)
Definition RRARR_PUT (c : dns_cent) (i : Z) (o : option rr_set) : option dns_cent :=
  match body c with
  | Neg _ _ => None
  | RR mu ext =>
      if i <? NRRMU then let* mu := put_index mu i o in Some (set_body (RR mu ext) c)
      else let* e := ext in let* e := put_index e (i - NRRMU) o in Some (set_body (RR mu (Some e)) c)
  end.

Definition RRARR_INDEX_TESTEXT (c : dns_cent) (i : Z) : option (option rr_set) :=
  if has (cent_flags c) DF_NEGATIVE then Some None
  else match body c with
  | RR _ None => if i <? NRRMU then RRARR_INDEX c i else Some None
  | _ => RRARR_INDEX c i
  end.

Definition getrrset (c : dns_cent) (type : Z) : option (option rr_set) :=
  if has (cent_flags c) DF_NEGATIVE then Some None
  else
    let tpi := type - T_MIN in
    if (0 <=? tpi) && (tpi <? T_NUM) then
      let* idx := at_index rrlkuptab tpi in
      match body c with
      | Neg _ _ => None
      | RR mu ext =>
          if idx <? NRRMU then at_index mu idx
          else if idx - NRRMU <? NRREXT then
            match ext with Some ext => at_index ext (idx - NRRMU) | None => Some None end
          else Some None
      end
    else Some None.

(** [getrrset_eff], for a kind that is known and an entry that is not negative. *)
Definition getrrset_eff (c : dns_cent) (type : Z) : option (option rr_set) :=
  let* idx := at_index rrlkuptab (type - T_MIN) in
  match body c with
  | Neg _ _ => None
  | RR mu ext =>
      if idx <? NRRMU then at_index mu idx
      else if idx - NRRMU <? NRREXT then
        match ext with Some ext => at_index ext (idx - NRRMU) | None => Some None end
      else Some None
  end.

Definition have_rr (c : dns_cent) (type : Z) : option bool :=
  if has (cent_flags c) DF_NEGATIVE then Some false
  else
    let* o := getrrset_eff c type in
    Some (match o with Some s => match rrs s with [] => false | _ => true end | None => false end).

Definition PDNSD_NOT_CACHED_TYPE (type : Z) : option bool :=
  if (type <? T_MIN) || (type >? T_MAX) then Some true
  else let* idx := at_index rrlkuptab (type - T_MIN) in Some (idx >=? NRRTOT).

(** [adjust_ttl]; the three are [global.min_ttl], [global.neg_ttl] and [global.max_ttl]. *)
Definition adjust_ttl (min_ttl neg_ttl max_ttl : Z) (rrset : rr_set) : rr_set :=
  if has (flags rrset) CF_NOCACHE then mkSet 0 (ts rrset) (clear (flags rrset) CF_NOCACHE) (rrs rrset)
  else
    let min_ttl := if has (flags rrset) CF_NEGATIVE && (neg_ttl <? min_ttl) then neg_ttl else min_ttl in
    if ttl rrset <? min_ttl then mkSet min_ttl (ts rrset) (flags rrset) (rrs rrset)
    else if ttl rrset >? max_ttl then mkSet max_ttl (ts rrset) (flags rrset) (rrs rrset)
    else rrset.

Definition adjust_dom_ttl (min_ttl neg_ttl max_ttl : Z) (c : dns_cent) : option dns_cent :=
  match body c with
  | Neg ttl ts =>
      if has (cent_flags c) DF_NOCACHE then Some (set_body (Neg 0 ts) (set_cent_flags (clear (cent_flags c) DF_NOCACHE) c))
      else
        let min_ttl := if neg_ttl <? min_ttl then neg_ttl else min_ttl in
        if ttl <? min_ttl then Some (set_body (Neg min_ttl ts) c)
        else if ttl >? max_ttl then Some (set_body (Neg max_ttl ts) c)
        else Some c
  | RR _ _ => None
  end.

Section Cent.

(** [sizeof(dns_cent_t)], [sizeof(rr_set_t)], [sizeof(rr_bucket_t)] and [sizeof(rr_set_t* )] *)
Variable sizeof_cent sizeof_set sizeof_bucket sizeof_ptr : Z.

Definition init_cent (name : list Z) (ttl ts flags : Z) (m : bool) : option dns_cent :=
  if negb m then None
  else Some (mkCent name (sizeof_cent + zlen name) 0 flags
    (if has flags DF_NEGATIVE then Neg ttl ts else RR (replicate (Z.to_nat NRRMU) None) None) cundef cundef).

(** [add_cent_rrset_by_index]; [m1], [m2]: the two [malloc]s. *)
Definition add_cent_rrset_by_index (c : dns_cent) (idx ttl ts flags : Z) (m1 m2 : bool) : option (dns_cent * bool) :=
  let c := if has (cent_flags c) DF_NEGATIVE
           then set_body (RR (replicate (Z.to_nat NRRMU) None) None) (set_cent_flags (clear (cent_flags c) DF_NEGATIVE) c)
           else c in
  let* r :=
    (if idx <? NRRMU then Some (Some c)
     else if idx - NRRMU <? NRREXT then
       match body c with
       | Neg _ _ => None
       | RR _ (Some _) => Some (Some c)
       | RR mu None =>
           if m1 then Some (Some (add_cs (sizeof_ptr * NRREXT) (set_body (RR mu (Some (replicate (Z.to_nat NRREXT) None))) c)))
           else Some None
       end
     else None) in
  match r with
  | None => Some (c, false)
  | Some c =>
      let* c := RRARR_PUT c idx (if m2 then Some (mkSet ttl ts flags []) else None) in
      if m2 then Some (set_num_rrs (num_rrs c + 1) (add_cs sizeof_set c), true) else Some (c, false)
  end.

Definition add_cent_rrset_by_type (c : dns_cent) (type ttl ts flags : Z) (m1 m2 : bool) : option (dns_cent * bool) :=
  let tpi := type - T_MIN in
  if (0 <=? tpi) && (tpi <? T_NUM) then
    let* idx := at_index rrlkuptab tpi in add_cent_rrset_by_index c idx ttl ts flags m1 m2
  else None.

(** [add_cent_rr_int]: [rtail] is the place, in the set, of the record to append
    after, if any; so is the last result. [m0]: the [malloc] of the record. *)
Definition add_cent_rr_int (c : dns_cent) (idx ttl ts flags : Z) (data : list Z) (rtail : option nat) (m0 m1 m2 : bool)
    : option (dns_cent * bool * option nat) :=
  if negb m0 then Some (c, false, rtail)
  else
    let* r :=
      match rtail with
      | None =>
          let* rrset := RRARR_INDEX_TESTEXT c idx in
          let* (c, ok) := match rrset with
                          | Some _ => Some (c, true)
                          | None => add_cent_rrset_by_index c idx ttl ts flags m1 m2
                          end in
          if (ok : bool) then
            let* o := RRARR_INDEX c idx in
            let* s := o in
            let* c := RRARR_PUT c idx (Some (mkSet (Cent.ttl s) (Cent.ts s) (Cent.flags s) (data :: rrs s))) in
            Some (c, Some O)
          else Some (c, None)
      | Some n =>
          let* o := RRARR_INDEX c idx in
          let* s := o in
          let* _ := rrs s !! n in
          let* c := RRARR_PUT c idx (Some (mkSet (Cent.ttl s) (Cent.ts s) (Cent.flags s) (take (S n) (rrs s) ++ data :: drop (S n) (rrs s)))) in
          Some (c, Some (S n))
      end in
    match r with
    | (c, Some n) => Some (add_cs (sizeof_bucket + zlen data) c, true, Some n)
    | (c, None) => Some (c, false, rtail)
    end.

(** The loop over the records: is [data] there, or the place of the last one. *)
Fixpoint same_loop (l : list (list Z)) (data : list Z) (n : nat) (rtail : option nat) : bool * option nat :=
  match l with
  | [] => (false, rtail)
  | x :: l => if bool_decide (x = data) then (true, rtail) else same_loop l data (S n) (Some n)
  end.

Definition add_cent_rr (c : dns_cent) (type ttl ts flags : Z) (data : list Z) (m0 m1 m2 : bool) : option (dns_cent * bool) :=
  if has (cent_flags c) DF_LOCAL && negb (has flags CF_LOCAL) then Some (c, true)
  else
    let tpi := type - T_MIN in
    if (0 <=? tpi) && (tpi <? T_NUM) then
      let* idx := at_index rrlkuptab tpi in
      if idx <? NRRTOT then
        let* rrset := RRARR_INDEX_TESTEXT c idx in
        match rrset with
        | Some s =>
            let* c := (if ttl <? Cent.ttl s then RRARR_PUT c idx (Some (mkSet ttl (Cent.ts s) (Cent.flags s) (rrs s))) else Some c) in
            let (found, rtail) := same_loop (rrs s) data 0 None in
            if (found : bool) then Some (c, true)
            else let* (c, ok, _) := add_cent_rr_int c idx ttl ts flags data rtail m0 m1 m2 in Some (c, ok)
        | None => let* (c, ok, _) := add_cent_rr_int c idx ttl ts flags data None m0 m1 m2 in Some (c, ok)
        end
      else None
    else None.

(** The size that [del_rrset] frees. *)
Definition del_rrset (s : rr_set) : Z := fold_right (fun data n => sizeof_bucket + zlen data + n) sizeof_set (rrs s).

Definition del_cent_rrset_by_index (c : dns_cent) (i : Z) : option (dns_cent * Z) :=
  let* o := RRARR_INDEX_TESTEXT c i in
  match o with
  | Some s =>
      let rv := del_rrset s in
      let* c := RRARR_PUT c i None in
      Some (set_cent_flags (clear (cent_flags c) DF_AUTH) (add_cs (- rv) (set_num_rrs (num_rrs c - 1) c)), rv)
  | None => Some (c, 0)
  end.

(** [cent->cs -= del_rrset(rrs)] for the sets of an array. *)
Definition free_sets (l : list (option rr_set)) (c : dns_cent) : dns_cent :=
  fold_left (fun c o => match o with Some s => add_cs (- del_rrset s) c | None => c end) l c.

Definition negate_cent (c : dns_cent) (ttl ts : Z) : option dns_cent :=
  if negb (has (cent_flags c) DF_NEGATIVE) then
    match body c with
    | Neg _ _ => None
    | RR mu ext =>
        let c := free_sets mu c in
        let c := match ext with Some ext => add_cs (- (sizeof_ptr * NRREXT)) (free_sets ext c) | None => c end in
        Some (set_body (Neg ttl ts) (set_cent_flags (Z.lor (cent_flags c) DF_NEGATIVE) (set_num_rrs 0 c)))
    end
  else match body c with
  | Neg _ _ => Some (set_body (Neg ttl ts) c)
  | RR _ _ => None
  end.

(** ** Purging *)

(** Must the set go at this time? *)
Definition must_go (s : rr_set) (now : Z) : bool := negb (has (flags s) CF_NOPURGE || has (flags s) CF_LOCAL) && timedout s now.

(** What is subtracted from [cache_size] is the last result. *)
Definition purge_rrset (c : dns_cent) (idx : Z) (test : bool) (now : Z) : option (dns_cent * bool * Z) :=
  let* o := RRARR_INDEX_TESTEXT c idx in
  match o with
  | Some s =>
      if must_go s now then
        if test then Some (c, true, 0) else let* (c, n) := del_cent_rrset_by_index c idx in Some (c, true, n)
      else Some (c, false, 0)
  | None => Some (c, false, 0)
  end.

(** The loop of [purge_all_rrsets] from [i], [n] sets to go: the counts [rv], [numrrs],
    [numrrext], and what is subtracted from [cache_size]. *)
Fixpoint purge_loop (n : nat) (i : Z) (c : dns_cent) (test : bool) (now : Z -> Z) (rv numrrs numrrext size : Z)
    : option (dns_cent * Z * Z * Z * Z) :=
  match n with
  | O => Some (c, rv, numrrs, numrrext, size)
  | S n =>
      let* o := RRARR_INDEX c i in
      match o with
      | Some s =>
          if must_go s (now i) then
            let* (c, d) := (if test then Some (c, 0) else del_cent_rrset_by_index c i) in
            purge_loop n (i + 1) c test now (rv + 1) numrrs numrrext (size + d)
          else purge_loop n (i + 1) c test now rv (numrrs + 1) (if i >=? NRRMU then numrrext + 1 else numrrext) size
      | None => purge_loop n (i + 1) c test now rv numrrs numrrext size
      end
  end.

(** The result, [*numrrsrem], and what is subtracted from [cache_size]. *)
Definition purge_all_rrsets (c : dns_cent) (test : bool) (now : Z -> Z) : option (dns_cent * Z * Z * Z) :=
  if negb (has (cent_flags c) DF_NEGATIVE) then
    let* ilim := RRARR_LEN c in
    let* (c, rv, numrrs, numrrext, size) := purge_loop (Z.to_nat ilim) 0 c test now 0 0 0 0 in
    match body c with
    | RR mu (Some _) =>
        if numrrext =? 0 then
          if test then Some (c, rv + 1, numrrs, size)
          else Some (add_cs (- (sizeof_ptr * NRREXT)) (set_body (RR mu None) c), rv + 1, numrrs, size + sizeof_ptr * NRREXT)
        else Some (c, rv, numrrs, size)
    | RR _ None => Some (c, rv, numrrs, size)
    | Neg _ _ => None
    end
  else Some (c, 0, 0, 0).

(** ** Conflicts *)

(** Do the kinds of records exclude each other? *)
Definition conflict (idx i : Z) : option bool :=
  let* a := at_index rr_info idx in
  let* b := at_index rr_info i in
  Some (has (class a) (excludes b) || has (excludes a) (class b)).

(** The first loop of [cr_check_add] from [i], [n] sets to go: [None] inside is
    [return 0], else [ncf] and [nttl]. *)
Fixpoint count_loop (n : nat) (i : Z) (c : dns_cent) (idx : Z) (now : Z -> Z) (ncf nttl : Z) : option (option (Z * Z)) :=
  match n with
  | O => Some (Some (ncf, nttl))
  | S n =>
      let* o := RRARR_INDEX c i in
      match o with
      | Some s =>
          let* x := (if has (flags s) CF_NEGATIVE then Some false else conflict idx i) in
          if (x : bool) then
            if has (flags s) CF_LOCAL then Some None
            else
              let rttl := ttl s + ts s - now i in
              count_loop n (i + 1) c idx now (ncf + 1) (if rttl >? 0 then nttl + rttl else nttl)
          else count_loop n (i + 1) c idx now ncf nttl
      | None => count_loop n (i + 1) c idx now ncf nttl
      end
  end.

(** The second loop. *)
Fixpoint resolve_loop (n : nat) (i : Z) (c : dns_cent) (idx : Z) : option dns_cent :=
  match n with
  | O => Some c
  | S n =>
      let* o := RRARR_INDEX c i in
      match o with
      | Some s =>
          let* x := (if has (flags s) CF_NEGATIVE then Some false else conflict idx i) in
          if (x : bool) then let* (c, _) := del_cent_rrset_by_index c i in resolve_loop n (i + 1) c idx
          else resolve_loop n (i + 1) c idx
      | None => resolve_loop n (i + 1) c idx
      end
  end.

Definition cr_check_add (c : dns_cent) (idx ttl ts flags : Z) (now : Z -> Z) : option (dns_cent * bool) :=
  if has flags CF_NEGATIVE then Some (c, true)
  else
    let* ilim := RRARR_LEN c in
    let resolve := let* c := resolve_loop (Z.to_nat ilim) 0 c idx in Some (c, true) in
    if negb (has flags CF_LOCAL) then
      if has (cent_flags c) DF_LOCAL then Some (c, false)
      else
        let* r := count_loop (Z.to_nat ilim) 0 c idx now 0 0 in
        match r with
        | None => Some (c, false)
        | Some (ncf, nttl) =>
            if ncf =? 0 then Some (c, true)
            else if ttl >? nttl `quot` ncf then resolve else Some (c, false)
        end
    else resolve.

End Cent.
