(* ===== verification/CentProps.v ===== *)
(** * pdnsd: a cache entry is a table of record sets

    The arrays, counts and flags of [Cent] represent a table of record sets by kind;
    the entry counts its sets and its bytes exactly, and resolving conflicts leaves
    no set that excludes the new one. *)

From S2P Require Import Prelude Cent.
#[global] Open Scope Z_scope.

Section Cent.

Variable sizeof_cent sizeof_set sizeof_bucket sizeof_ptr : Z.

(** ** The table *)

Definition slots (c : dns_cent) : list (option rr_set) :=
  match body c with
  | Neg _ _ => replicate 47 None
  | RR mu ext => mu ++ default (replicate 39 None) ext
  end.
Definition has_ext (c : dns_cent) : bool := match body c with RR _ (Some _) => true | _ => false end.
Definition negative (c : dns_cent) : option (Z * Z) := match body c with Neg t s => Some (t, s) | RR _ _ => None end.

Definition slot_size (o : option rr_set) : Z := match o with Some s => del_rrset sizeof_set sizeof_bucket s | None => 0 end.
Definition slot_one (o : option rr_set) : Z := match o with Some _ => 1 | None => 0 end.
Definition sum (f : option rr_set -> Z) (l : list (option rr_set)) : Z := fold_right (fun o n => f o + n) 0 l.

Lemma sum_app f l l' : sum f (l ++ l') = sum f l + sum f l'.
Proof. induction l as [|o l IH]; simpl; [done|]. rewrite IH. lia. Qed.

Lemma sum_replicate f n : f None = 0 -> sum f (replicate n None) = 0.
Proof. intros Hf. induction n as [|n IH]; [done|]. simpl. rewrite Hf, IH. done. Qed.

Lemma sum_insert f l : forall i o o', l !! i = Some o -> sum f (<[i := o']> l) = sum f l - f o + f o'.
Proof. induction l as [|x l IH]; intros [|i] o o' Hi; try done; simpl; [injection Hi as ->; lia|]. rewrite (IH i o o' Hi). lia. Qed.

(** The tag of the union, and the lengths of the arrays. *)
Definition shape (c : dns_cent) : Prop :=
  match body c with
  | Neg _ _ => has (cent_flags c) DF_NEGATIVE = true
  | RR mu ext => has (cent_flags c) DF_NEGATIVE = false /\ length mu = 8%nat /\ match ext with Some e => length e = 39%nat | None => True end
  end.

(** The bytes and the sets are counted exactly. *)
Definition counted (c : dns_cent) : Prop :=
  cs c = sizeof_cent + zlen (qname c) + sum slot_size (slots c) + (if has_ext c then sizeof_ptr * NRREXT else 0) /\
  num_rrs c = sum slot_one (slots c).

Definition ok (c : dns_cent) : Prop := shape c /\ counted c.

Lemma slots_length c : shape c -> length (slots c) = 47%nat.
Proof.
  unfold shape, slots. destruct (body c) as [t s|mu ext]; [done|]. intros (_ & Hm & He). rewrite length_app, Hm. destruct ext as [e|]; [|done]. simpl. by rewrite He.
Qed.

Definition kind_ok (i : Z) : Prop := 0 <= i < NRRTOT.
(** The array that has the kind is there. *)
Definition placed (c : dns_cent) (i : Z) : Prop :=
  match body c with Neg _ _ => False | RR _ None => i < NRRMU | RR _ (Some _) => True end.

Definition slot (c : dns_cent) (i : Z) : option rr_set := default None (slots c !! Z.to_nat i).

Lemma slot_lookup c i : shape c -> kind_ok i -> slots c !! Z.to_nat i = Some (slot c i).
Proof.
  intros Hs Hi. unfold slot. destruct (slots c !! Z.to_nat i) eqn:E; [done|]. apply lookup_ge_None in E. rewrite slots_length in E by done. unfold kind_ok, NRRTOT in Hi. lia.
Qed.

Lemma index_spec c i : shape c -> kind_ok i -> placed c i -> RRARR_INDEX c i = Some (slot c i).
Proof.
  intros Hs Hi Hp. unfold slot, slots, RRARR_INDEX, placed, shape, kind_ok, NRRMU, NRRTOT, at_index in *. destruct (body c) as [t s|mu ext]; [done|]. destruct Hs as (_ & Hm & He).
  destruct (Z.ltb_spec i 8) as [Hlt|Hge].
  - destruct (Z.leb_spec 0 i); [|lia]. rewrite lookup_app_l by lia. destruct (mu !! Z.to_nat i) eqn:E; [done|]. apply lookup_ge_None in E. lia.
  - destruct ext as [e|]; [|lia]. simpl. destruct (Z.leb_spec 0 (i - 8)); [|lia]. rewrite lookup_app_r by lia. rewrite Hm.
    replace (Z.to_nat (i - 8)) with (Z.to_nat i - 8)%nat by lia. destruct (e !! (Z.to_nat i - 8)%nat) eqn:E; [done|]. apply lookup_ge_None in E. lia.
Qed.

Lemma replicate_slot n i : default None ((replicate n None : list (option rr_set)) !! i) = None.
Proof. destruct (replicate n None !! i) eqn:E; [by apply lookup_replicate in E as [-> _]|done]. Qed.

Lemma unplaced_slot c i : shape c -> kind_ok i -> ~ placed c i -> slot c i = None.
Proof.
  intros Hs Hi Hp. unfold slot, slots, placed, shape, kind_ok, NRRMU, NRRTOT in *. destruct (body c) as [t s|mu ext]; [apply replicate_slot|].
  destruct Hs as (_ & Hm & He). destruct ext as [e|]; [tauto|]. rewrite lookup_app_r by lia. apply replicate_slot.
Qed.

Lemma testext_spec c i : shape c -> kind_ok i -> RRARR_INDEX_TESTEXT c i = Some (slot c i).
Proof.
  intros Hs Hi. pose proof (index_spec c i Hs Hi) as Hix. pose proof (unplaced_slot c i Hs Hi) as Hun. unfold RRARR_INDEX_TESTEXT, shape, placed in *.
  destruct (body c) as [t s|mu [e|]]; [rewrite Hs|rewrite (proj1 Hs)..]; [rewrite Hun; [done|by intros []]|by apply Hix|]. destruct (Z.ltb_spec i NRRMU); [by apply Hix|]. rewrite Hun; [done|lia].
Qed.

Lemma put_spec c i o : shape c -> kind_ok i -> placed c i -> exists c', RRARR_PUT c i o = Some c' /\ shape c' /\ slots c' = <[Z.to_nat i := o]> (slots c) /\
  has_ext c' = has_ext c /\ negative c' = None /\ qname c' = qname c /\ cs c' = cs c /\ num_rrs c' = num_rrs c /\ cent_flags c' = cent_flags c.
Proof.
  intros Hs Hi Hp. unfold slots, RRARR_PUT, placed, shape, has_ext, negative, kind_ok, NRRMU, NRRTOT, put_index, at_index in *. destruct (body c) as [t s|mu ext] eqn:Eb; [done|]. destruct Hs as (Ht & Hm & He).
  destruct (Z.ltb_spec i 8) as [Hlt|Hge].
  - destruct (Z.leb_spec 0 i); [|lia]. destruct (mu !! Z.to_nat i) eqn:E; [|apply lookup_ge_None in E; lia].
    eexists. split; [done|]. cbn [body set_body qname cs num_rrs cent_flags]. rewrite length_insert, insert_app_l by lia. by destruct ext.
  - destruct ext as [e|]; [|lia]. destruct (Z.leb_spec 0 (i - 8)); [|lia]. replace (Z.to_nat (i - 8)) with (Z.to_nat i - 8)%nat by lia.
    destruct (e !! (Z.to_nat i - 8)%nat) eqn:E; [|apply lookup_ge_None in E; lia].
    eexists. split; [done|]. cbn [body set_body qname cs num_rrs cent_flags default]. rewrite length_insert. split_and!; try done.
    by rewrite insert_app_r_alt, Hm by lia.
Qed.

(** The table that an entry stands for. *)
Record table := mkT { t_neg : option (Z * Z); t_flags : Z; t_ext : bool; t_slots : list (option rr_set) }.
Definition view (c : dns_cent) : table := mkT (negative c) (cent_flags c) (has_ext c) (slots c).

Definition t_slot (t : table) (i : Z) : option rr_set := default None (t_slots t !! Z.to_nat i).
Definition t_put (t : table) (i : Z) (o : option rr_set) : table := mkT (t_neg t) (t_flags t) (t_ext t) (<[Z.to_nat i := o]> (t_slots t)).
Definition t_set_flags (f : Z) (t : table) : table := mkT (t_neg t) f (t_ext t) (t_slots t).

Lemma has_clear f g : has (clear f g) g = false.
Proof.
  unfold has, clear. rewrite <- Z.land_assoc, (Z.land_comm (Z.lnot g)), Z.land_lnot_diag, Z.land_0_r. done.
Qed.

Lemma has_clear_other f g h : Z.land g h = 0 -> has (clear f g) h = has f h.
Proof.
  intros E. unfold has, clear. do 2 f_equal. rewrite <- Z.land_assoc. f_equal. apply Z.bits_inj'. intros n Hn. rewrite Z.land_spec, Z.lnot_spec by done.
  apply (f_equal (fun x => Z.testbit x n)) in E. rewrite Z.land_spec, Z.bits_0 in E. by destruct (Z.testbit g n), (Z.testbit h n).
Qed.

(** Putting a set where another or none was, and counting it. *)
Lemma put_ok c i o : ok c -> kind_ok i -> placed c i -> exists c', RRARR_PUT c i o = Some c' /\ view c' = t_put (view c) i o /\ negative c' = None /\
  qname c' = qname c /\ cs c' = cs c /\ num_rrs c' = num_rrs c /\
  forall f, has f DF_NEGATIVE = has (cent_flags c) DF_NEGATIVE ->
    ok (set_cent_flags f (add_cs (slot_size o - slot_size (slot c i)) (set_num_rrs (num_rrs c + (slot_one o - slot_one (slot c i))) c'))).
Proof.
  intros [Hs [Hc Hn]] Hi Hp. destruct (put_spec c i o Hs Hi Hp) as (c' & E & Hs' & El & Ex & En & Eq & Ec & Er & Ef). exists c'. split; [done|].
  assert (negative c = None) as En0 by (unfold placed, negative in *; by destruct (body c)).
  split; [unfold view, t_put; cbn; by rewrite El, Ex, En, Ef, En0|]. split_and!; try done. intros f Hf. split.
  - unfold shape in *. cbn. unfold negative in En. rewrite <- Ef in Hf. destruct (body c') as [t s|mu ext]; [done|]. by rewrite Hf.
  - pose proof (slot_lookup c i Hs Hi) as Hl. pose proof (sum_insert slot_size _ _ _ o Hl) as H1. pose proof (sum_insert slot_one _ _ _ o Hl) as H2.
    unfold counted, slots, has_ext in *. cbn [body qname cs num_rrs set_cent_flags add_cs set_num_rrs] in *. rewrite El, Eq, Ec. unfold negative in *. rewrite H1, H2.
    rewrite Ex. lia.
Qed.

(** ** Adding sets and records *)

Definition revive (t : table) : table :=
  match t_neg t with Some _ => mkT None (clear (t_flags t) DF_NEGATIVE) false (t_slots t) | None => t end.

Definition t_add_set (t : table) (idx : Z) (s : rr_set) (m1 m2 : bool) : table * bool :=
  let t := revive t in
  if (idx <? NRRMU) || t_ext t || m1 then
    (mkT None (t_flags t) ((NRRMU <=? idx) || t_ext t) (<[Z.to_nat idx := if m2 then Some s else None]> (t_slots t)), m2)
  else (t, false).

Lemma has_lor f g h : Z.land g h = h -> h <> 0 -> has (Z.lor f g) h = true.
Proof.
  intros E Hh. unfold has. destruct (Z.eqb_spec (Z.land (Z.lor f g) h) 0) as [E0|]; [|done]. exfalso. apply Hh. apply Z.bits_inj'. intros n Hn. rewrite Z.bits_0.
  apply (f_equal (fun x => Z.testbit x n)) in E, E0. rewrite !Z.land_spec in *. rewrite Z.lor_spec, Z.bits_0 in E0. by destruct (Z.testbit f n), (Z.testbit g n), (Z.testbit h n).
Qed.

Lemma negative_tag c : shape c -> has (cent_flags c) DF_NEGATIVE = match negative c with Some _ => true | None => false end.
Proof. unfold shape, negative. destruct (body c); [by intros ->|by intros [-> _]]. Qed.

(** A new entry. *)
Lemma cent_init_ok name t ts f : exists c, init_cent sizeof_cent name t ts f true = Some c /\ ok c /\ qname c = name /\
  view c = mkT (if has f DF_NEGATIVE then Some (t, ts) else None) f false (replicate 47 None).
Proof.
  unfold init_cent. cbn [negb]. eexists. split; [done|]. unfold ok, shape, counted, view, slots, has_ext, negative. cbn [body cent_flags qname cs num_rrs].
  destruct (has f DF_NEGATIVE) eqn:E; (split; [split; [try (split; done); done|]|done]); rewrite ?E; cbn [default];
    change (replicate (Z.to_nat NRRMU) None ++ replicate 39 None) with (replicate 47 (@None rr_set)); rewrite !sum_replicate by done; (split; [lia|done]).
Qed.

Lemma revive_ok c : ok c -> exists c', (if has (cent_flags c) DF_NEGATIVE
    then set_body (RR (replicate (Z.to_nat NRRMU) None) None) (set_cent_flags (clear (cent_flags c) DF_NEGATIVE) c) else c) = c' /\
  ok c' /\ view c' = revive (view c) /\ negative c' = None /\ qname c' = qname c.
Proof.
  intros [Hs [Hc Hn]]. eexists. split; [done|]. rewrite (negative_tag c Hs). unfold revive. cbn [t_neg view].
  unfold ok, shape, counted, view, slots, has_ext, negative in *. destruct (body c) as [t ts|mu ext] eqn:Eb; [|by rewrite Eb].
  cbn [body set_body set_cent_flags cent_flags qname cs num_rrs default t_flags t_slots]. rewrite has_clear. split_and!; done.
Qed.

Lemma add_set_ok c idx t ts f m1 m2 : ok c -> kind_ok idx -> slot c idx = None ->
  exists c', add_cent_rrset_by_index sizeof_set sizeof_ptr c idx t ts f m1 m2 = Some (c', snd (t_add_set (view c) idx (mkSet t ts f []) m1 m2)) /\
    ok c' /\ view c' = fst (t_add_set (view c) idx (mkSet t ts f []) m1 m2) /\ qname c' = qname c.
Proof.
  intros Hok Hi Hnone. unfold add_cent_rrset_by_index, t_add_set. destruct (revive_ok c Hok) as (c0 & -> & Hok0 & Ev & En & Eq).
  assert (slot c0 idx = None) as Hnone0 by (unfold slot; change (slots c0) with (t_slots (view c0)); rewrite Ev; unfold revive; by destruct (t_neg (view c))).
  rewrite <- Ev, <- Eq. clear c Hok Hnone Ev Eq. change (t_ext (view c0)) with (has_ext c0). change (t_flags (view c0)) with (cent_flags c0). change (t_slots (view c0)) with (slots c0).
  assert (forall c1, ok c1 -> placed c1 idx -> slot c1 idx = None -> qname c1 = qname c0 -> cent_flags c1 = cent_flags c0 -> slots c1 = slots c0 -> has_ext c1 = (NRRMU <=? idx) || has_ext c0 ->
    exists c', (let* c := RRARR_PUT c1 idx (if m2 then Some (mkSet t ts f []) else None) in
      if m2 then Some (set_num_rrs (num_rrs c + 1) (add_cs sizeof_set c), true) else Some (c, false)) = Some (c', m2) /\
      ok c' /\ view c' = mkT None (cent_flags c0) ((NRRMU <=? idx) || has_ext c0) (<[Z.to_nat idx := if m2 then Some (mkSet t ts f []) else None]> (slots c0)) /\ qname c' = qname c0) as Hput.
  { intros c1 Hok1 Hp H0 Eq Ef Es Ex. destruct (put_ok c1 idx (if m2 then Some (mkSet t ts f []) else None) Hok1 Hi Hp) as (c' & -> & Ev & En' & Eq' & Ec & Er & Hok').
    specialize (Hok' (cent_flags c') ltac:(by injection Ev as _ -> _)). rewrite H0 in Hok'. rewrite <- Er in Hok'.
    assert (view c' = mkT None (cent_flags c0) ((NRRMU <=? idx) || has_ext c0) (<[Z.to_nat idx := if m2 then Some (mkSet t ts f []) else None]> (slots c0))) as Ev'.
    { rewrite Ev. unfold t_put, view. cbn [t_neg t_flags t_ext t_slots]. rewrite Ef, Es, Ex. f_equal. unfold view in Ev. injection Ev as Ev _ _ _. by rewrite <- Ev. }
    destruct m2; eexists; (split; [done|]); (split; [|split; [exact Ev'|by rewrite <- Eq, <- Eq']]).
    - destruct c'. cbn in Hok' |- *. unfold del_rrset in Hok'. cbn in Hok'. by rewrite !Z.sub_0_r in Hok'.
    - destruct c'. unfold set_cent_flags, add_cs, set_num_rrs in Hok'. cbn in Hok'. by rewrite !Z.add_0_r in Hok'. }
  unfold kind_ok, NRRTOT, NRRMU, NRREXT in *. destruct (Z.ltb_spec idx 8) as [Hlt|Hge]; cbn [orb].
  - apply (Hput c0); try done; [unfold placed, negative in *; destruct (body c0) as [|mu [e|]]; done|]. by destruct (Z.leb_spec 8 idx); [lia|].
  - destruct (Z.ltb_spec (idx - 8) 39); [|lia]. unfold has_ext in *. destruct (body c0) as [|mu [e|]] eqn:Eb; [by unfold negative in En; rewrite Eb in En| |].
    + apply (Hput c0); try done; [by unfold placed; rewrite Eb|]. unfold has_ext. by rewrite Eb, orb_true_r.
    + destruct m1; cbn [orb]; [|by exists c0].
      assert (slots (add_cs (sizeof_ptr * 39) (set_body (RR mu (Some (replicate (Z.to_nat 39) None))) c0)) = slots c0) as Esl by (unfold slots; by rewrite Eb).
      apply Hput; try done.
      * clear Hput. destruct Hok0 as [Hs [Hc Hn]]. unfold ok, shape, counted, slots, has_ext in *. rewrite Eb in *. cbn [body set_body add_cs cent_flags qname cs num_rrs default] in *. destruct Hs as (H1 & H2 & _).
        split; [by split_and!|]. split; [|done]. change (replicate (Z.to_nat 39) None) with (replicate 39 (@None rr_set)). unfold NRREXT, id in *. lia.
      * unfold slot. by rewrite Esl.
      * unfold has_ext. cbn. by destruct (Z.leb_spec 8 idx); [|lia].
Qed.

Lemma slot_placed c i s : shape c -> kind_ok i -> slot c i = Some s -> placed c i.
Proof.
  intros Hs Hi E. pose proof (unplaced_slot c i Hs Hi) as Hun. unfold placed in *. destruct (body c) as [t ts|mu [e|]]; [|done|].
  - rewrite Hun in E; [done|by intros []].
  - destruct (Z.lt_ge_cases i NRRMU) as [|Hge]; [done|]. rewrite Hun in E; [done|lia].
Qed.

Lemma view_add_cs d c : view (add_cs d c) = view c.
Proof. done. Qed.

(** Changing a set that is there. *)
Lemma put_set_ok c i s s' : ok c -> kind_ok i -> slot c i = Some s ->
  exists c', RRARR_PUT c i (Some s') = Some c' /\ ok (add_cs (slot_size (Some s') - slot_size (Some s)) c') /\ view c' = t_put (view c) i (Some s') /\
    qname c' = qname c /\ RRARR_INDEX c' i = Some (Some s').
Proof.
  intros Hok Hi E. pose proof Hok as [Hs _]. pose proof (slot_placed c i s Hs Hi E) as Hp.
  destruct (put_ok c i (Some s') Hok Hi Hp) as (c' & Ep & Ev & En & Eq & Ec & Er & Hok'). exists c'. split; [done|].
  assert (ok (add_cs (slot_size (Some s') - slot_size (Some s)) c')) as Hok2.
  { specialize (Hok' (cent_flags c') ltac:(by injection Ev as _ -> _)). rewrite E, <- Er in Hok'. destruct c'. unfold set_cent_flags, add_cs, set_num_rrs in Hok'. cbn in Hok'. by rewrite !Z.add_0_r in Hok'. }
  split; [done|]. split; [done|]. split; [done|].
  assert (slot (add_cs (slot_size (Some s') - slot_size (Some s)) c') i = Some s') as E'.
  { unfold slot. change (slots (add_cs _ c')) with (t_slots (view c')). rewrite Ev. cbn [t_put t_slots]. rewrite list_lookup_insert_eq; [done|]. change (t_slots (view c)) with (slots c). rewrite slots_length by done. unfold kind_ok, NRRTOT in Hi. lia. }
  destruct Hok2 as [Hs2 _]. rewrite <- E'. apply (index_spec (add_cs (slot_size (Some s') - slot_size (Some s)) c') i Hs2 Hi). by eapply slot_placed.
Qed.

Lemma set_size t s f l : slot_size (Some (mkSet t s f l)) = sizeof_set + fold_right (fun x n => sizeof_bucket + zlen x + n) 0 l.
Proof. unfold slot_size, del_rrset. cbn [rrs]. induction l as [|x l IH]; simpl; [lia|]. simpl in IH. lia. Qed.

Lemma bytes_insert (x : list Z) l1 l2 : fold_right (fun x n => sizeof_bucket + zlen x + n) 0 (l1 ++ x :: l2) = fold_right (fun x n => sizeof_bucket + zlen x + n) 0 (l1 ++ l2) + (sizeof_bucket + zlen x).
Proof. induction l1 as [|y l1 IH]; simpl; [lia|]. simpl in IH. lia. Qed.

(** A record more in a set that is there, at the place that [rtail] says. *)
Lemma add_rr_int_set c idx t ts f data rtail m1 m2 s l1 l2 : ok c -> kind_ok idx -> slot c idx = Some s -> rrs s = l1 ++ l2 ->
  match rtail with Some n => l1 <> [] /\ n = pred (length l1) | None => l1 = [] end ->
  exists c' rt, add_cent_rr_int sizeof_set sizeof_bucket sizeof_ptr c idx t ts f data rtail true m1 m2 = Some (c', true, Some rt) /\ rt = length l1 /\
    ok c' /\ view c' = t_put (view c) idx (Some (mkSet (ttl s) (Cent.ts s) (flags s) (l1 ++ data :: l2))) /\ qname c' = qname c.
Proof.
  intros Hok Hi E Es Hrt. pose proof Hok as [Hs _]. unfold add_cent_rr_int. cbn [negb]. pose proof (index_spec c idx Hs Hi (slot_placed c idx s Hs Hi E)) as Eix. rewrite E in Eix.
  destruct (put_set_ok c idx s (mkSet (ttl s) (Cent.ts s) (flags s) (l1 ++ data :: l2)) Hok Hi E) as (c' & Ep & Hok' & Ev & Eq & _).
  assert (slot_size (Some (mkSet (ttl s) (Cent.ts s) (flags s) (l1 ++ data :: l2))) - slot_size (Some s) = sizeof_bucket + zlen data) as Ed.
  { destruct s as [t0 s0 f0 r0]. cbn [Cent.ts ttl flags rrs] in *. subst r0. rewrite !set_size, bytes_insert. lia. }
  rewrite Ed in Hok'. destruct rtail as [n|].
  - destruct Hrt as [Hne ->]. assert (length l1 <> 0)%nat by (by destruct l1). rewrite Eix. destruct (rrs s !! pred (length l1)) eqn:En; [|apply lookup_ge_None in En; rewrite Es, length_app in En; lia].
    rewrite Es. replace (S (pred (length l1))) with (length l1) by lia. rewrite take_app_length, drop_app_length, Ep. eexists _, _. split; [done|]. done.
  - subst l1. rewrite (testext_spec c idx Hs Hi), E, Eix, Es. simpl app in Ep. cbn [app]. rewrite Ep. eexists _, _. split; [done|]. done.
Qed.

(** The first record of a set that is not there. *)
Lemma add_rr_int_new c idx t ts f data m1 m2 : ok c -> kind_ok idx -> slot c idx = None ->
  exists c' rt, add_cent_rr_int sizeof_set sizeof_bucket sizeof_ptr c idx t ts f data None true m1 m2 = Some (c', snd (t_add_set (view c) idx (mkSet t ts f [data]) m1 m2), rt) /\
    ok c' /\ view c' = fst (t_add_set (view c) idx (mkSet t ts f [data]) m1 m2) /\ qname c' = qname c.
Proof.
  intros Hok Hi E. pose proof Hok as [Hs _]. unfold add_cent_rr_int. cbn [negb]. rewrite (testext_spec c idx Hs Hi), E.
  destruct (add_set_ok c idx t ts f m1 m2 Hok Hi E) as (c1 & -> & Hok1 & Ev1 & Eq1). destruct (t_add_set (view c) idx (mkSet t ts f []) m1 m2) as [t1 b] eqn:Et. cbn [fst snd] in *.
  assert (t_add_set (view c) idx (mkSet t ts f [data]) m1 m2 = if b then (t_put t1 idx (Some (mkSet t ts f [data])), true) else (t1, false)) as ->.
  { unfold t_add_set in *. destruct ((idx <? NRRMU) || _ || m1); injection Et as <- <-; [|done]. destruct m2; [|done]. unfold t_put. cbn [t_neg t_flags t_ext t_slots]. by rewrite list_insert_insert_eq. }
  destruct b; [|by exists c1, None].
  assert (slot c1 idx = Some (mkSet t ts f [])) as E1.
  { unfold slot. change (slots c1) with (t_slots (view c1)). rewrite Ev1. unfold t_add_set in Et. destruct ((idx <? NRRMU) || _ || m1); [|done]. injection Et as <- ->. cbn [t_slots].
    rewrite list_lookup_insert_eq; [done|]. assert (t_slots (revive (view c)) = slots c) as -> by (unfold revive; by destruct (t_neg (view c))). rewrite slots_length by done. unfold kind_ok, NRRTOT in Hi. lia. }
  pose proof Hok1 as [Hs1 _]. rewrite (index_spec c1 idx Hs1 Hi (slot_placed c1 idx _ Hs1 Hi E1)), E1. cbn [ttl Cent.ts flags rrs].
  destruct (put_set_ok c1 idx _ (mkSet t ts f [data]) Hok1 Hi E1) as (c' & -> & Hok' & Ev & Eq & _). rewrite !set_size in Hok'. cbn [fold_right] in Hok'.
  replace (sizeof_set + (sizeof_bucket + zlen data + 0) - (sizeof_set + 0)) with (sizeof_bucket + zlen data) in Hok' by lia.
  eexists _, _. split; [done|]. split; [done|]. split; [by rewrite view_add_cs, Ev, Ev1|]. by rewrite <- Eq1, <- Eq.
Qed.

(** A record is added at the end of its set, unless it is there; the least time to live counts. *)
Definition t_add_rr (t : table) (idx ttl ts flags : Z) (data : list Z) (m0 m1 m2 : bool) : table * bool :=
  match t_slot t idx with
  | Some s =>
      let keep := mkSet (Z.min ttl (Cent.ttl s)) (Cent.ts s) (Cent.flags s) in
      if bool_decide (data ∈ rrs s) then (t_put t idx (Some (keep (rrs s))), true)
      else if m0 then (t_put t idx (Some (keep (rrs s ++ [data]))), true)
      else (t_put t idx (Some (keep (rrs s))), false)
  | None => if m0 then t_add_set t idx (mkSet ttl ts flags [data]) m1 m2 else (t, false)
  end.

Lemma same_loop_spec data l : forall n rt, same_loop l data n rt = (bool_decide (data ∈ l), snd (same_loop l data n rt)) /\
  ((data ∉ l) -> snd (same_loop l data n rt) = match l with [] => rt | _ => Some (n + pred (length l))%nat end).
Proof.
  induction l as [|x l IH]; intros n rt; cbn [same_loop].
  - rewrite bool_decide_false by apply not_elem_of_nil. done.
  - destruct (decide (x = data)) as [Hx|Hx]; [rewrite (bool_decide_true (x = data) Hx)|rewrite (bool_decide_false (x = data) Hx)].
    + assert (data ∈ x :: l) as Hd by (rewrite Hx; by left). rewrite (bool_decide_true _ Hd). done.
    + destruct (IH (S n) (Some n)) as [E1 E2]. rewrite E1. assert (bool_decide (data ∈ x :: l) = bool_decide (data ∈ l)) as -> by (apply bool_decide_ext; rewrite elem_of_cons; naive_solver).
      split; [done|]. cbn [snd]. rewrite not_elem_of_cons. intros [_ Hn]. rewrite E2 by done. destruct l; simpl; f_equal; lia.
Qed.

Lemma t_put_same c i : shape c -> kind_ok i -> t_put (view c) i (slot c i) = view c.
Proof.
  intros Hs Hi. unfold t_put, view. cbn [t_neg t_flags t_ext t_slots]. f_equal. apply list_insert_id. by apply slot_lookup.
Qed.

Lemma t_put_put t i o o' : t_put (t_put t i o) i o' = t_put t i o'.
Proof. unfold t_put. cbn [t_neg t_flags t_ext t_slots]. by rewrite list_insert_insert_eq. Qed.

Lemma slot_put c c' i o : shape c -> kind_ok i -> view c' = t_put (view c) i o -> slot c' i = o.
Proof.
  intros Hs Hi Ev. unfold slot. change (slots c') with (t_slots (view c')). rewrite Ev. cbn [t_put t_slots]. rewrite list_lookup_insert_eq; [done|].
  change (t_slots (view c)) with (slots c). rewrite slots_length by done. unfold kind_ok, NRRTOT in Hi. lia.
Qed.

Lemma add_rr_ok c type idx t ts f data m0 m1 m2 : ok c -> 0 <= type - T_MIN < T_NUM -> at_index rrlkuptab (type - T_MIN) = Some idx -> kind_ok idx ->
  let r := if has (cent_flags c) DF_LOCAL && negb (has f CF_LOCAL) then (view c, true) else t_add_rr (view c) idx t ts f data m0 m1 m2 in
  exists c', add_cent_rr sizeof_set sizeof_bucket sizeof_ptr c type t ts f data m0 m1 m2 = Some (c', snd r) /\ ok c' /\ view c' = fst r /\ qname c' = qname c.
Proof.
  intros Hok Ht Hix Hi. unfold add_cent_rr. destruct (has (cent_flags c) DF_LOCAL && negb (has f CF_LOCAL)); [by exists c|]. cbv zeta.
  destruct (Z.leb_spec 0 (type - T_MIN)); [|lia]. destruct (Z.ltb_spec (type - T_MIN) T_NUM); [|lia]. cbn [andb]. rewrite Hix. destruct (Z.ltb_spec idx NRRTOT); [|unfold kind_ok in Hi; lia].
  pose proof Hok as [Hs _]. rewrite (testext_spec c idx Hs Hi). unfold t_add_rr. change (t_slot (view c) idx) with (slot c idx). destruct (slot c idx) as [s|] eqn:E.
  - assert (exists c1, (if t <? Cent.ttl s then RRARR_PUT c idx (Some (mkSet t (Cent.ts s) (Cent.flags s) (rrs s))) else Some c) = Some c1 /\ ok c1 /\
      view c1 = t_put (view c) idx (Some (mkSet (Z.min t (Cent.ttl s)) (Cent.ts s) (Cent.flags s) (rrs s))) /\ qname c1 = qname c) as (c1 & -> & Hok1 & Ev1 & Eq1).
    { destruct s as [t0 s0 f0 r0]. cbn [Cent.ttl Cent.ts Cent.flags rrs] in *. destruct (Z.ltb_spec t t0).
      - destruct (put_set_ok c idx _ (mkSet t s0 f0 r0) Hok Hi E) as (c1 & Ep & Hok1 & Ev & Eq & _). exists c1. rewrite Z.min_l by lia. split_and!; try done.
        rewrite !set_size, Z.sub_diag in Hok1. destruct c1. unfold add_cs in Hok1. cbn in Hok1. by rewrite Z.add_0_r in Hok1.
      - exists c. rewrite Z.min_r by lia. split_and!; try done. by rewrite <- E, t_put_same. }
    destruct (same_loop_spec data (rrs s) 0 None) as [E1 E2]. rewrite E1. pose proof (slot_put c c1 idx _ Hs Hi Ev1) as Es1. case_bool_decide as Hd; [by exists c1|]. specialize (E2 Hd).
    destruct m0; [|unfold add_cent_rr_int; cbn [negb]; by exists c1].
    destruct (add_rr_int_set c1 idx t ts f data (snd (same_loop (rrs s) data 0 None)) m1 m2 _ (rrs s) [] Hok1 Hi Es1) as (c' & rt & -> & _ & Hok' & Ev & Eq).
    { by rewrite app_nil_r. }
    { rewrite E2. by destruct (rrs s). }
    exists c'. split; [done|]. split; [done|]. split; [|by rewrite Eq]. by rewrite Ev, Ev1, t_put_put.
  - destruct m0; [|unfold add_cent_rr_int; cbn [negb]; by exists c]. destruct (add_rr_int_new c idx t ts f data m1 m2 Hok Hi E) as (c' & rt & -> & Hr). by exists c'.
Qed.

(** ** Deleting and negating *)

Definition t_del (t : table) (i : Z) : table :=
  match t_slot t i with Some _ => t_set_flags (clear (t_flags t) DF_AUTH) (t_put t i None) | None => t end.

Lemma del_ok c i : ok c -> kind_ok i ->
  exists c', del_cent_rrset_by_index sizeof_set sizeof_bucket c i = Some (c', slot_size (slot c i)) /\ ok c' /\ view c' = t_del (view c) i /\ qname c' = qname c.
Proof.
  intros Hok Hi. pose proof Hok as [Hs _]. unfold del_cent_rrset_by_index, t_del. rewrite (testext_spec c i Hs Hi). change (t_slot (view c) i) with (slot c i). destruct (slot c i) as [s|] eqn:E; [|by exists c].
  destruct (put_ok c i None Hok Hi (slot_placed c i s Hs Hi E)) as (c' & -> & Ev & En & Eq & Ec & Er & Hok'). eexists. split; [done|].
  assert (cent_flags c' = cent_flags c) as Ef by (by injection Ev). split.
  - specialize (Hok' (clear (cent_flags c) DF_AUTH)). rewrite E in Hok'. specialize (Hok' (has_clear_other _ DF_AUTH DF_NEGATIVE eq_refl)). unfold set_cent_flags, add_cs, set_num_rrs in *.
    cbn [qname cs num_rrs cent_flags body c_ns c_soa slot_one slot_size] in *. rewrite Ef, Er. replace (num_rrs c - 1) with (num_rrs c + (0 - 1)) by lia. by rewrite Z.sub_0_l in Hok'.
  - split; [|done]. change (t_set_flags (clear (cent_flags c') DF_AUTH) (view c') = t_set_flags (clear (cent_flags c) DF_AUTH) (t_put (view c) i None)). by rewrite Ev, Ef.
Qed.

Lemma free_sets_spec l : forall c, free_sets sizeof_set sizeof_bucket l c = add_cs (- sum slot_size l) c.
Proof.
  unfold free_sets. induction l as [|o l IH]; intros c; simpl; [destruct c; unfold add_cs; cbn; by rewrite Z.add_0_r|]. rewrite IH. destruct o as [s|]; destruct c; unfold add_cs; cbn; f_equal; lia.
Qed.

Definition t_negate (t : table) (ttl ts : Z) : table := mkT (Some (ttl, ts)) (Z.lor (t_flags t) DF_NEGATIVE) false (replicate 47 None).

Lemma negate_ok c t s : ok c -> exists c', negate_cent sizeof_set sizeof_bucket sizeof_ptr c t s = Some c' /\ ok c' /\
  view c' = (match negative c with Some _ => mkT (Some (t, s)) (cent_flags c) false (replicate 47 None) | None => t_negate (view c) t s end) /\ qname c' = qname c.
Proof.
  intros [Hs [Hc Hn]]. unfold negate_cent. rewrite (negative_tag c Hs). unfold ok, shape, counted, view, t_negate, slots, has_ext, negative in *. destruct (body c) as [t0 s0|mu ext] eqn:Eb; cbn [negb].
  - eexists. split; [done|]. cbn [body set_body cent_flags qname cs num_rrs]. done.
  - eexists. split; [done|]. rewrite !free_sets_spec. rewrite sum_app in Hc. cbn [t_flags].
    assert (forall b, cent_flags (if b : bool then add_cs (- (sizeof_ptr * NRREXT)) c else c) = cent_flags c) as Hf by by intros [].
    destruct ext as [e|]; rewrite ?free_sets_spec; cbn [body set_body set_cent_flags set_num_rrs add_cs cent_flags qname cs num_rrs default] in *; rewrite (sum_replicate slot_size 47), (sum_replicate slot_one 47) by done;
      (split; [split; [by apply has_lor|split; [|done]]|done]); [unfold id in Hc; lia|]. rewrite sum_replicate in Hc by done. lia.
Qed.

(** ** Deleting sets by a test, and purging *)

Fixpoint drop_if (g : Z -> rr_set -> bool) (i : Z) (l : list (option rr_set)) : list (option rr_set) :=
  match l with
  | [] => []
  | o :: l => match o with Some s => if g i s then None else o | None => None end :: drop_if g (i + 1) l
  end.

Lemma drop_if_length g l : forall i, length (drop_if g i l) = length l.
Proof. induction l as [|o l IH]; intros i; [done|]. simpl. by rewrite IH. Qed.

Lemma drop_if_app g l l' : forall i, drop_if g i (l ++ l') = drop_if g i l ++ drop_if g (i + Z.of_nat (length l)) l'.
Proof. induction l as [|o l IH]; intros i; simpl; [by rewrite Z.add_0_r|]. rewrite IH. do 2 f_equal. f_equal. lia. Qed.

Lemma drop_if_none g n : forall i, drop_if g i (replicate n None) = replicate n None.
Proof. induction n as [|n IH]; intros i; [done|]. simpl. by rewrite IH. Qed.

Lemma sum_one_drop g l : forall i, 0 <= sum slot_one (drop_if g i l) <= sum slot_one l.
Proof. induction l as [|o l IH]; intros i; simpl; [lia|]. specialize (IH (i + 1)). destruct o as [s|]; simpl; [destruct (g i s); simpl; lia|lia]. Qed.

Lemma drop_if_same g l : forall i, sum slot_one (drop_if g i l) = sum slot_one l -> drop_if g i l = l.
Proof.
  induction l as [|o l IH]; intros i E; simpl in *; [done|]. pose proof (sum_one_drop g l (i + 1)). destruct o as [s|]; [destruct (g i s); simpl in E; [lia|]|simpl in E]; f_equal; apply IH; lia.
Qed.

Definition gone (g : Z -> rr_set -> bool) (l : list (option rr_set)) : Z := sum slot_one l - sum slot_one (drop_if g 0 l).
Definition t_drop (t : table) (g : Z -> rr_set -> bool) : table :=
  mkT (t_neg t) (if gone g (t_slots t) =? 0 then t_flags t else clear (t_flags t) DF_AUTH) (t_ext t) (drop_if g 0 (t_slots t)).

Lemma placed_iff c i : placed c i <-> negative c = None /\ (i < NRRMU \/ has_ext c = true).
Proof. unfold placed, negative, has_ext. destruct (body c) as [|mu [e|]]; naive_solver. Qed.

(** One step of a loop over the arrays that deletes sets. *)
Lemma slot_at c pre o rest i : shape c -> slots c = pre ++ o :: rest -> Z.of_nat (length pre) = i -> placed c i -> kind_ok i /\ slot c i = o /\ RRARR_INDEX c i = Some o.
Proof.
  intros Hs E Hi Hp. pose proof (slots_length c Hs) as Hl. rewrite E, length_app in Hl. simpl in Hl. assert (kind_ok i) as Hk by (unfold kind_ok, NRRTOT; lia). split; [done|].
  assert (slot c i = o) as Eo by (unfold slot; rewrite E, lookup_app_r by lia; replace (Z.to_nat i - length pre)%nat with O by lia; done). split; [done|]. rewrite <- Eo. by apply index_spec.
Qed.

Lemma del_at c pre s rest i : ok c -> slots c = pre ++ Some s :: rest -> Z.of_nat (length pre) = i -> placed c i ->
  exists c', del_cent_rrset_by_index sizeof_set sizeof_bucket c i = Some (c', slot_size (Some s)) /\ ok c' /\ qname c' = qname c /\
    view c' = mkT (negative c) (clear (cent_flags c) DF_AUTH) (has_ext c) (pre ++ None :: rest).
Proof.
  intros Hok E Hi Hp. pose proof Hok as [Hs _]. destruct (slot_at c pre _ rest i Hs E Hi Hp) as (Hk & Eo & _). destruct (del_ok c i Hok Hk) as (c' & Ed & Hok' & Ev & Eq).
  rewrite Eo in Ed. exists c'. split_and!; try done. rewrite Ev. unfold t_del. change (t_slot (view c) i) with (slot c i). rewrite Eo. unfold t_set_flags, t_put, view. cbn [t_neg t_flags t_ext t_slots].
  f_equal. rewrite E, <- Hi, Nat2Z.id. by rewrite list_insert_middle || rewrite insert_app_r_alt, Nat.sub_diag by lia.
Qed.

Lemma clear_twice f g : clear (clear f g) g = clear f g.
Proof. unfold clear. by rewrite <- Z.land_assoc, Z.land_diag. Qed.

(** The test for purging: the set may be purged (bit 5), is not local (bit 1) and its time, at least two minutes, is over. *)
Definition expired (s : rr_set) (now : Z) : bool :=
  negb (Z.testbit (flags s) 5) && negb (Z.testbit (flags s) 1) && (Cent.ts s + Z.max 120 (ttl s) <? now).
Definition old_at (now : Z -> Z) (i : Z) (s : rr_set) : bool := expired s (now i).

Lemma has_flag_bit f n : 0 <= n -> has f (2 ^ n) = Z.testbit f n.
Proof.
  intros Hn. unfold has. destruct (Z.testbit f n) eqn:E; destruct (Z.eqb_spec (Z.land f (2 ^ n)) 0) as [E0|E0]; try done.
  - apply (f_equal (fun x => Z.testbit x n)) in E0. by rewrite Z.land_spec, Z.pow2_bits_true, E, Z.bits_0 in E0.
  - exfalso. apply E0, Z.bits_inj'. intros m Hm. rewrite Z.land_spec, Z.bits_0. destruct (Z.eq_dec n m) as [->|Hne]; [by rewrite E|]. by rewrite Z.pow2_bits_false, andb_false_r by lia.
Qed.

Lemma must_go_expired s now : must_go s now = expired s now.
Proof.
  unfold must_go, expired, timedout, CLAT_ADJ, CACHE_LAT. change CF_NOPURGE with (2 ^ 5). change CF_LOCAL with (2 ^ 1). rewrite !has_flag_bit, negb_orb by lia.
  do 2 f_equal. destruct (Z.ltb_spec (ttl s) 120); f_equal; lia.
Qed.

Lemma sum_cons f o l : sum f (o :: l) = f o + sum f l.
Proof. done. Qed.

(** How many are in the second array. *)
Fixpoint ext_ones (i : Z) (l : list (option rr_set)) : Z :=
  match l with [] => 0 | o :: l => (if i >=? NRRMU then slot_one o else 0) + ext_ones (i + 1) l end.

Lemma ext_ones_drop l : forall i, 0 <= i -> ext_ones i l = sum slot_one (drop (8 - Z.to_nat i) l).
Proof.
  induction l as [|o l IH]; intros i Hi; [by rewrite drop_nil|]. cbn [ext_ones]. rewrite IH by lia. unfold NRRMU. destruct (Z.geb_spec i 8).
  - replace (8 - Z.to_nat i)%nat with O by lia. replace (8 - Z.to_nat (i + 1))%nat with O by lia. done.
  - replace (8 - Z.to_nat i)%nat with (S (8 - Z.to_nat (i + 1)))%nat by lia. simpl. lia.
Qed.

Lemma quint_eq {A} (c : A) (a a' b b' d d' e e' : Z) : a = a' -> b = b' -> d = d' -> e = e' -> Some (c, a, b, d, e) = Some (c, a', b', d', e').
Proof. by intros -> -> -> ->. Qed.

Lemma purge_loop_ok test now rest : forall c pre suf i rv nr nx sz, ok c -> slots c = pre ++ rest ++ suf -> Z.of_nat (length pre) = i ->
  (forall j, i <= j < i + Z.of_nat (length rest) -> placed c j) ->
  let rest' := drop_if (old_at now) i rest in
  exists c', purge_loop sizeof_set sizeof_bucket (length rest) i c test now rv nr nx sz =
      Some (c', rv + (sum slot_one rest - sum slot_one rest'), nr + sum slot_one rest', nx + ext_ones i rest', sz + (if test then 0 else sum slot_size rest - sum slot_size rest')) /\
    ok c' /\ qname c' = qname c /\
    view c' = if test then view c else mkT (negative c) (if sum slot_one rest - sum slot_one rest' =? 0 then cent_flags c else clear (cent_flags c) DF_AUTH) (has_ext c) (pre ++ rest' ++ suf).
Proof.
  induction rest as [|o rest IH]; intros c pre suf i rv nr nx sz Hok E Hi Hp; cbn [length purge_loop drop_if ext_ones]; rewrite ?sum_cons.
  - exists c. change (sum slot_one []) with 0. change (sum slot_size []) with 0. rewrite !Z.add_0_r. replace (sz + (if test then 0 else 0 - 0)) with sz by (destruct test; lia). split; [done|]. split; [done|]. split; [done|]. destruct test; [done|]. by rewrite <- E.
  - pose proof Hok as [Hs _]. destruct (slot_at c pre o (rest ++ suf) i Hs E Hi) as (Hk & Eo & Eix); [apply Hp; simpl; lia|]. rewrite Eix. cbv zeta in IH.
    assert (forall o', slots c = pre ++ o' :: rest ++ suf -> slots c = (pre ++ [o']) ++ rest ++ suf) as Hsplit by (intros o' ->; by rewrite <- app_assoc).
    assert (Z.of_nat (length (pre ++ [o])) = i + 1) as Hi' by (rewrite length_app; simpl; lia). cbn [length] in Hp.
    destruct o as [s|].
    + change (old_at now i s) with (expired s (now i)). rewrite must_go_expired. destruct (expired s (now i)) eqn:Em.
      * destruct test.
        { destruct (IH c (pre ++ [Some s]) suf (i + 1) (rv + 1) nr nx (sz + 0) Hok) as (c' & -> & Hok' & Eq & Ev); [by apply Hsplit|done|intros j Hj; apply Hp; lia|].
          exists c'. split; [|done]. rewrite ?sum_cons. cbn [slot_one]. apply quint_eq; destruct (i >=? NRRMU); lia. }
        destruct (del_at c pre s (rest ++ suf) i Hok E Hi) as (c1 & -> & Hok1 & Eq1 & Ev1); [apply Hp; lia|]. unfold view in Ev1. injection Ev1 as En Ef Ex El.
        destruct (IH c1 (pre ++ [None]) suf (i + 1) (rv + 1) nr nx (sz + slot_size (Some s)) Hok1) as (c' & -> & Hok' & Eq & Ev).
        { rewrite El. by rewrite <- app_assoc. }
        { rewrite length_app. simpl. lia. }
        { intros j Hj. apply placed_iff. rewrite En, Ex. apply placed_iff, Hp. lia. }
        exists c'. pose proof (sum_one_drop (old_at now) rest (i + 1)). split; [rewrite ?sum_cons; cbn [slot_one slot_size]; apply quint_eq; destruct (i >=? NRRMU); lia|]. split; [done|]. split; [by rewrite Eq|].
        rewrite Ev, En, Ef, Ex, clear_twice. rewrite <- app_assoc. rewrite ?sum_cons. cbn [app slot_one]. f_equal. destruct (Z.eqb_spec (1 + sum slot_one rest - (0 + sum slot_one (drop_if (old_at now) (i + 1) rest))) 0); [lia|]. by destruct (_ =? 0).
      * destruct (IH c (pre ++ [Some s]) suf (i + 1) rv (nr + 1) (if i >=? NRRMU then nx + 1 else nx) sz Hok) as (c' & -> & Hok' & Eq & Ev); [by apply Hsplit|done|intros j Hj; apply Hp; lia|].
        exists c'. rewrite ?sum_cons. cbn [slot_one slot_size]. split; [apply quint_eq; destruct (i >=? NRRMU), test; lia|]. split; [done|]. split; [done|]. destruct test; [done|]. rewrite Ev, <- app_assoc. cbn [app]. f_equal.
        replace (1 + sum slot_one rest - (1 + sum slot_one (drop_if (old_at now) (i + 1) rest))) with (sum slot_one rest - sum slot_one (drop_if (old_at now) (i + 1) rest)) by lia. done.
    + destruct (IH c (pre ++ [None]) suf (i + 1) rv nr nx sz Hok) as (c' & -> & Hok' & Eq & Ev); [by apply Hsplit|done|intros j Hj; apply Hp; lia|].
      exists c'. rewrite ?sum_cons. cbn [slot_one slot_size]. split; [apply quint_eq; destruct (i >=? NRRMU), test; lia|]. split; [done|]. split; [done|]. destruct test; [done|]. rewrite Ev, <- app_assoc. cbn [app]. f_equal.
Qed.

(** The array of the rarer kinds goes when nothing is left in it. *)
Definition t_purge (t : table) (now : Z -> Z) : table * Z * Z * Z :=
  let l' := drop_if (old_at now) 0 (t_slots t) in
  let free := t_ext t && (sum slot_one (drop 8 l') =? 0) in
  let t' := t_drop t (old_at now) in
  (mkT (t_neg t') (t_flags t') (t_ext t && negb free) l',
   gone (old_at now) (t_slots t) + (if free then 1 else 0), sum slot_one l',
   sum slot_size (t_slots t) - sum slot_size l' + (if free then sizeof_ptr * NRREXT else 0)).

Lemma sum_zero f l : (forall o, 0 <= f o) -> sum f l = 0 -> Forall (fun o => f o = 0) l.
Proof. intros Hf. induction l as [|o l IH]; intros E; [constructor|]. rewrite sum_cons in E. assert (0 <= sum f l) as Hs by (clear -Hf; induction l as [|o l IH]; [done|rewrite sum_cons; specialize (Hf o); lia]). specialize (Hf o). constructor; [lia|apply IH; lia]. Qed.

Lemma none_left l : sum slot_one l = 0 -> l = replicate (length l) None.
Proof.
  intros E. apply sum_zero in E; [|by intros []]. induction E as [|o l Ho _ IH]; [done|]. simpl. rewrite <- IH. by destruct o.
Qed.

(** The entry's arrays, as the loops see them: [ilim] slots, and empty ones behind. *)
Lemma arrays c : shape c -> negative c = None -> exists ilim l n, RRARR_LEN c = Some ilim /\ slots c = l ++ replicate n None /\ length l = Z.to_nat ilim /\ 0 <= ilim /\
  (forall j, 0 <= j < ilim -> placed c j) /\ (has_ext c = true -> n = 0%nat) /\ (has_ext c = false -> length l = 8%nat).
Proof.
  intros Hs Hn. unfold shape, negative, RRARR_LEN, slots, has_ext, placed, NRRTOT, NRRMU in *. destruct (body c) as [|mu [e|]]; [done|rewrite (proj1 Hs); destruct Hs as (_ & Hm & He)..].
  - exists 47, (mu ++ e), 0%nat. rewrite app_nil_r, length_app, Hm, He. done.
  - exists 8, mu, 39%nat. split_and!; try done. intros j Hj. lia.
Qed.

Lemma quad_eq {A} (c : A) (a a' b b' d d' : Z) : a = a' -> b = b' -> d = d' -> Some (c, a, b, d) = Some (c, a', b', d').
Proof. by intros -> -> ->. Qed.

Lemma purge_loop_all test now c : ok c -> negative c = None -> let l' := drop_if (old_at now) 0 (slots c) in
  exists c' ilim, RRARR_LEN c = Some ilim /\
    purge_loop sizeof_set sizeof_bucket (Z.to_nat ilim) 0 c test now 0 0 0 0 =
      Some (c', gone (old_at now) (slots c), sum slot_one l', (if has_ext c then sum slot_one (drop 8 l') else 0), if test then 0 else sum slot_size (slots c) - sum slot_size l') /\
    ok c' /\ qname c' = qname c /\ view c' = if test then view c else t_drop (view c) (old_at now).
Proof.
  intros Hok Hn. pose proof Hok as [Hs _]. destruct (arrays c Hs Hn) as (ilim & l & n & El & Es & Hl & H0 & Hp & Hx1 & Hx2). cbv zeta.
  destruct (purge_loop_ok test now l c [] (replicate n None) 0 0 0 0 0 Hok) as (c' & E & Hok' & Eq & Ev); [done|done|intros j Hj; apply Hp; lia|].
  exists c', ilim. split; [done|]. rewrite <- Hl, E. unfold t_drop, gone. cbn [view t_slots t_neg t_flags t_ext]. rewrite Es, drop_if_app, drop_if_none, !sum_app, !(sum_replicate _ n) by done.
  split; [|split; [done|split; [done|]]].
  - apply quint_eq; [lia|lia| |destruct test; lia]. rewrite ext_ones_drop by lia. change (8 - Z.to_nat 0)%nat with 8%nat. destruct (has_ext c).
    + rewrite (Hx1 eq_refl). by rewrite app_nil_r.
    + rewrite drop_ge; [done|]. rewrite drop_if_length, Hx2 by done. lia.
  - rewrite Ev. destruct test; [done|]. cbn [app]. f_equal. by rewrite !Z.add_0_r.
Qed.

Lemma purge_loop_test now n : forall i c rv nr nx sz r, purge_loop sizeof_set sizeof_bucket n i c true now rv nr nx sz = Some r -> fst (fst (fst (fst r))) = c.
Proof.
  induction n as [|n IH]; intros i c rv nr nx sz r E; cbn in E; [by injection E as <-|].
  destruct (RRARR_INDEX c i) as [[s|]|]; [|by apply IH in E|done]. destruct (must_go s (now i)); by apply IH in E.
Qed.

(** Freeing the empty second array. *)
Lemma free_ext_ok c mu e : ok c -> body c = RR mu (Some e) -> sum slot_one (drop 8 (slots c)) = 0 ->
  let c' := add_cs (- (sizeof_ptr * NRREXT)) (set_body (RR mu None) c) in
  ok c' /\ view c' = mkT (negative c) (cent_flags c) false (slots c) /\ qname c' = qname c /\ cs c' = cs c - sizeof_ptr * NRREXT.
Proof.
  intros [Hs [Hc Hn]] Eb E0. cbv zeta. unfold ok, shape, counted, view, slots, has_ext, negative in *. rewrite Eb in *. cbn [body set_body add_cs cent_flags qname cs num_rrs default] in *. destruct Hs as (Ht & Hm & He). unfold id in *.
  rewrite drop_app_length' in E0 by done. apply none_left in E0. rewrite He in E0. rewrite <- E0. split_and!; try done; lia.
Qed.

(** Purging, and what purging would do: the same counts. *)
Lemma purge_ok c now : ok c -> let '(t, rv, n, sz) := match negative c with None => t_purge (view c) now | Some _ => (view c, 0, 0, 0) end in
  exists c', purge_all_rrsets sizeof_set sizeof_bucket sizeof_ptr c false now = Some (c', rv, n, sz) /\ ok c' /\ view c' = t /\ qname c' = qname c /\ cs c' = cs c - sz /\
    purge_all_rrsets sizeof_set sizeof_bucket sizeof_ptr c true now = Some (c, rv, n, 0).
Proof.
  intros Hok. pose proof Hok as [Hs [Hc _]]. unfold purge_all_rrsets. rewrite (negative_tag c Hs). destruct (negative c) as [x|] eqn:En; cbn [negb]; [exists c; split_and!; try done; lia|].
  unfold t_purge. cbn [t_slots t_ext view].
  destruct (purge_loop_all true now c Hok En) as (ct & ilim & El & Et & _). destruct (purge_loop_all false now c Hok En) as (c1 & ilim' & El' & E1 & Hok1 & Eq1 & Ev1). rewrite El in El'. injection El' as <-.
  pose proof (purge_loop_test _ _ _ _ _ _ _ _ _ Et) as Ec. cbn in Ec. subst ct. rewrite El. cbn [mbind]. rewrite Et, E1. clear Et E1 El.
  pose proof Hok1 as [_ [Hc1 _]]. unfold view, t_drop in Ev1. cbn [t_slots t_neg t_flags t_ext] in Ev1. injection Ev1 as En1 Ef1 Ex1 Es1. rewrite Ex1, Es1, Eq1 in Hc1.
  assert (cs c1 = cs c - (sum slot_size (slots c) - sum slot_size (drop_if (old_at now) 0 (slots c)))) as Hcs by lia.
  change (t_neg (t_drop (view c) (old_at now))) with (negative c). change (t_flags (t_drop (view c) (old_at now))) with (if gone (old_at now) (slots c) =? 0 then cent_flags c else clear (cent_flags c) DF_AUTH).
  set (l' := drop_if (old_at now) 0 (slots c)) in *. set (g := gone (old_at now) (slots c)) in *. clearbody l' g. clear Hc Hc1.
  assert (view c1 = mkT None (if g =? 0 then cent_flags c else clear (cent_flags c) DF_AUTH) (has_ext c) l') as Ev1 by (unfold view; by rewrite En1, Ef1, Ex1, Es1, En). rewrite En.
  unfold has_ext, negative in En, Ex1, En1, Ev1 |- *. destruct (body c) as [|mu e]; [done|]. destruct (body c1) as [|mu1 e1] eqn:Eb1; [done|]. destruct e as [e|], e1 as [e1|]; try done; cbn [andb negb].
  - destruct (Z.eqb_spec (sum slot_one (drop 8 l')) 0) as [E0|_]; cbn [negb].
    + rewrite <- Es1 in E0. destruct (free_ext_ok c1 mu1 e1 Hok1 Eb1 E0) as (Hok2 & Ev2 & Eq2 & Ec2). eexists. split; [done|]. split; [done|]. split; [rewrite Ev2; unfold negative; by rewrite Eb1, Ef1, Es1|]. split; [by rewrite Eq2|]. split; [lia|done].
    + exists c1. split_and!; try done; [by rewrite !Z.add_0_r|lia|by rewrite Z.add_0_r].
  - exists c1. split_and!; try done; [by rewrite !Z.add_0_r|lia|by rewrite Z.add_0_r].
Qed.

Definition t_purge_one (t : table) (i : Z) (now : Z) : table * bool * Z :=
  match t_slot t i with
  | Some s => if expired s now then (t_del t i, true, slot_size (Some s)) else (t, false, 0)
  | None => (t, false, 0)
  end.

Lemma purge_rrset_ok c i now : ok c -> kind_ok i -> let '(t, b, n) := t_purge_one (view c) i now in
  exists c', purge_rrset sizeof_set sizeof_bucket c i false now = Some (c', b, n) /\ ok c' /\ view c' = t /\ qname c' = qname c /\
    purge_rrset sizeof_set sizeof_bucket c i true now = Some (c, b, 0).
Proof.
  intros Hok Hi. pose proof Hok as [Hs _]. unfold purge_rrset, t_purge_one. rewrite (testext_spec c i Hs Hi). change (t_slot (view c) i) with (slot c i).
  destruct (slot c i) as [s|] eqn:E; [|by exists c]. rewrite must_go_expired. destruct (expired s now); [|by exists c]. destruct (del_ok c i Hok Hi) as (c' & -> & Hok' & Ev & Eq). rewrite E. by exists c'.
Qed.

(** ** Conflicts *)

Definition kind_of (type : Z) : option Z := if (T_MIN <=? type) && (type <=? T_MAX) then rrlkuptab !! Z.to_nat (type - T_MIN) else None.

(** The types of which a name has those of one class only: aliases, pointers, and records of a host. *)
Definition type_class (type : Z) : option Z :=
  if bool_decide (type ∈ [5; 39]) then Some 0
  else if bool_decide (type ∈ [12; 23]) then Some 1
  else if bool_decide (type ∈ [1; 11; 13; 17; 18; 19; 20; 21; 22; 27; 28; 29; 31; 32; 33; 34; 35; 36; 37]) then Some 2
  else None.
Definition types_exclude (type type' : Z) : bool :=
  match type_class type, type_class type' with Some x, Some y => negb (x =? y) | _, _ => false end.
Definition kind_type (i : Z) : Z := default 0 (List.find (fun type => bool_decide (kind_of type = Some i)) (seqZ 1 51)).
Definition kinds_exclude (i j : Z) : bool := types_exclude (kind_type i) (kind_type j).

(** Does the set exclude a new one of this kind? Not if it is negative (bit 0). *)
Definition clash (idx i : Z) (s : rr_set) : bool := negb (Z.testbit (flags s) 0) && kinds_exclude idx i.

Lemma conflict_kinds idx i : kind_ok idx -> kind_ok i -> conflict idx i = Some (kinds_exclude idx i).
Proof.
  intros H1 H2. assert (forall k, kind_ok k -> k ∈ seqZ 0 47) as Hin by (intros k Hk; apply elem_of_seqZ; unfold kind_ok, NRRTOT in Hk; lia).
  assert (Forall (fun x => Forall (fun y => conflict x y = Some (kinds_exclude x y)) (seqZ 0 47)) (seqZ 0 47)) as H by (apply (bool_decide_unpack _); vm_compute; exact I).
  exact (proj1 (list.Forall_forall _ _) (proj1 (list.Forall_forall _ _) H idx (Hin idx H1)) i (Hin i H2)).
Qed.

Lemma clash_test idx i s : kind_ok idx -> kind_ok i -> (if has (flags s) CF_NEGATIVE then Some false else conflict idx i) = Some (clash idx i s).
Proof.
  intros H1 H2. unfold clash. change CF_NEGATIVE with (2 ^ 0). rewrite has_flag_bit by lia. destruct (Z.testbit (flags s) 0); [done|]. by apply conflict_kinds.
Qed.

(** The sets of the table, from kind [i] on, that exclude a new one, with their kinds. *)
Fixpoint clashes (idx i : Z) (l : list (option rr_set)) : list (Z * rr_set) :=
  match l with
  | [] => []
  | o :: l => match o with Some s => if clash idx i s then [(i, s)] else [] | None => [] end ++ clashes idx (i + 1) l
  end.

Definition any_local (cl : list (Z * rr_set)) : bool := existsb (fun x => has (flags (snd x)) CF_LOCAL) cl.
(** The times to live that remain, added. *)
Definition remains (now : Z -> Z) (cl : list (Z * rr_set)) : Z := fold_right (fun x n => Z.max 0 (ttl (snd x) + Cent.ts (snd x) - now (fst x)) + n) 0 cl.

Lemma count_loop_ok idx now rest : kind_ok idx -> forall c pre suf i ncf nttl, ok c -> slots c = pre ++ rest ++ suf -> Z.of_nat (length pre) = i ->
  (forall j, i <= j < i + Z.of_nat (length rest) -> placed c j) ->
  count_loop (length rest) i c idx now ncf nttl =
    Some (if any_local (clashes idx i rest) then None else Some (ncf + zlen (clashes idx i rest), nttl + remains now (clashes idx i rest))).
Proof.
  intros Hx. induction rest as [|o rest IH]; intros c pre suf i ncf nttl Hok E Hi Hp; cbn [length count_loop clashes]; [by rewrite !Z.add_0_r|].
  pose proof Hok as [Hs _]. destruct (slot_at c pre o (rest ++ suf) i Hs E Hi) as (Hk & Eo & Eix); [apply Hp; simpl; lia|]. rewrite Eix.
  assert (forall ncf nttl, count_loop (length rest) (i + 1) c idx now ncf nttl = Some (if any_local (clashes idx (i + 1) rest) then None
    else Some (ncf + zlen (clashes idx (i + 1) rest), nttl + remains now (clashes idx (i + 1) rest)))) as IH'.
  { intros. apply (IH c (pre ++ [o]) suf); [done|by rewrite <- app_assoc|rewrite length_app; simpl; lia|intros j Hj; apply Hp; simpl; lia]. }
  destruct o as [s|]; [|by rewrite IH']. rewrite (clash_test idx i s Hx Hk). destruct (clash idx i s); [|by rewrite IH'].
  cbn [app any_local existsb snd]. destruct (has (flags s) CF_LOCAL); [done|]. cbn [orb]. rewrite IH'. fold (any_local (clashes idx (i + 1) rest)). destruct (any_local _); [done|].
  cbn [remains fold_right fst snd]. fold (remains now (clashes idx (i + 1) rest)). unfold zlen. cbn [length]. do 2 f_equal. f_equal; [lia|]. destruct (Z.gtb_spec (ttl s + Cent.ts s - now i) 0); lia.
Qed.

Lemma resolve_loop_ok idx rest : kind_ok idx -> forall c pre suf i, ok c -> slots c = pre ++ rest ++ suf -> Z.of_nat (length pre) = i ->
  (forall j, i <= j < i + Z.of_nat (length rest) -> placed c j) ->
  let rest' := drop_if (clash idx) i rest in
  exists c', resolve_loop sizeof_set sizeof_bucket (length rest) i c idx = Some c' /\ ok c' /\ qname c' = qname c /\
    view c' = mkT (negative c) (if sum slot_one rest - sum slot_one rest' =? 0 then cent_flags c else clear (cent_flags c) DF_AUTH) (has_ext c) (pre ++ rest' ++ suf).
Proof.
  intros Hx. induction rest as [|o rest IH]; intros c pre suf i Hok E Hi Hp; cbn [length resolve_loop drop_if]; rewrite ?sum_cons; [exists c; split_and!; try done; by rewrite <- E|].
  pose proof Hok as [Hs _]. destruct (slot_at c pre o (rest ++ suf) i Hs E Hi) as (Hk & Eo & Eix); [apply Hp; simpl; lia|]. rewrite Eix. cbv zeta in IH. cbn [length] in Hp.
  destruct (match o with Some s => clash idx i s | None => false end) eqn:Ec.
  - destruct o as [s|]; [|done]. rewrite (clash_test idx i s Hx Hk), Ec. destruct (del_at c pre s (rest ++ suf) i Hok E Hi) as (c1 & -> & Hok1 & Eq1 & Ev1); [apply Hp; lia|].
    unfold view in Ev1. injection Ev1 as En Ef Ex El. destruct (IH c1 (pre ++ [None]) suf (i + 1) Hok1) as (c' & -> & Hok' & Eq & Ev).
    { rewrite El. by rewrite <- app_assoc. }
    { rewrite length_app. simpl. lia. }
    { intros j Hj. apply placed_iff. rewrite En, Ex. apply placed_iff, Hp. lia. }
    exists c'. split; [done|]. split; [done|]. split; [by rewrite Eq|]. rewrite Ev, En, Ef, Ex, clear_twice, <- app_assoc. cbn [app slot_one]. rewrite ?sum_cons. cbn [slot_one]. f_equal.
    pose proof (sum_one_drop (clash idx) rest (i + 1)). destruct (Z.eqb_spec (1 + sum slot_one rest - (0 + sum slot_one (drop_if (clash idx) (i + 1) rest))) 0); [lia|]. by destruct (_ =? 0).
  - destruct (IH c (pre ++ [o]) suf (i + 1) Hok) as (c' & E' & Hok' & Eq & Ev); [by rewrite <- app_assoc|rewrite length_app; simpl; lia|intros j Hj; apply Hp; lia|].
    exists c'. split; [destruct o as [s|]; [rewrite (clash_test idx i s Hx Hk), Ec|]; exact E'|]. split; [done|]. split; [done|].
    rewrite Ev, <- app_assoc. replace (match o with Some s => if clash idx i s then None else o | None => None end) with o by (by destruct o as [s|]; [rewrite Ec|]).
    cbn [app]. rewrite ?sum_cons. f_equal. by replace (slot_one o + sum slot_one rest - (slot_one o + sum slot_one (drop_if (clash idx) (i + 1) rest))) with (sum slot_one rest - sum slot_one (drop_if (clash idx) (i + 1) rest)) by lia.
Qed.

(** May a new set of this kind be added? The sets that it excludes go, if it is local, or if none of
    them is local and its time to live is more than what remains of theirs on average. *)
Definition t_check (t : table) (idx ttl flags : Z) (now : Z -> Z) : table * bool :=
  let cl := clashes idx 0 (t_slots t) in
  if has flags CF_NEGATIVE then (t, true)
  else if has flags CF_LOCAL then (t_drop t (clash idx), true)
  else if has (t_flags t) DF_LOCAL || any_local cl then (t, false)
  else if (zlen cl =? 0) || (ttl >? remains now cl `div` zlen cl) then (t_drop t (clash idx), true)
  else (t, false).

Lemma clashes_app idx l l' : forall i, clashes idx i (l ++ l') = clashes idx i l ++ clashes idx (i + Z.of_nat (length l)) l'.
Proof. induction l as [|o l IH]; intros i; cbn [app clashes length]; [by rewrite Z.add_0_r|]. rewrite IH, app_assoc. do 2 f_equal. lia. Qed.

Lemma clashes_none idx n : forall i, clashes idx i (replicate n None) = [].
Proof. induction n as [|n IH]; intros i; [done|]. simpl. by rewrite IH. Qed.

Lemma clashes_drop idx l : forall i, zlen (clashes idx i l) = sum slot_one l - sum slot_one (drop_if (clash idx) i l).
Proof.
  induction l as [|o l IH]; intros i; [done|]. cbn [clashes drop_if]. rewrite !sum_cons, zlen_app, IH. destruct o as [s|]; [|done]. destruct (clash idx i s); unfold zlen; simpl; lia.
Qed.

Lemma t_drop_same t idx : zlen (clashes idx 0 (t_slots t)) = 0 -> t_drop t (clash idx) = t.
Proof.
  intros E. rewrite clashes_drop in E. unfold t_drop, gone. rewrite E, drop_if_same by lia. by destruct t.
Qed.

Lemma remains_nonneg now cl : 0 <= remains now cl.
Proof. unfold remains. induction cl as [|x cl IH]; simpl; lia. Qed.

Lemma check_ok c idx t ts f now : ok c -> kind_ok idx ->
  exists c', cr_check_add sizeof_set sizeof_bucket c idx t ts f now = Some (c', snd (t_check (view c) idx t f now)) /\ ok c' /\ view c' = fst (t_check (view c) idx t f now) /\ qname c' = qname c.
Proof.
  intros Hok Hx. unfold cr_check_add, t_check. destruct (has f CF_NEGATIVE); [by exists c|]. pose proof Hok as [Hs _].
  change (t_flags (view c)) with (cent_flags c). change (t_slots (view c)) with (slots c).
  assert (exists ilim, RRARR_LEN c = Some ilim /\
    count_loop (Z.to_nat ilim) 0 c idx now 0 0 = Some (if any_local (clashes idx 0 (slots c)) then None else Some (zlen (clashes idx 0 (slots c)), remains now (clashes idx 0 (slots c)))) /\
    exists c', resolve_loop sizeof_set sizeof_bucket (Z.to_nat ilim) 0 c idx = Some c' /\ ok c' /\ view c' = t_drop (view c) (clash idx) /\ qname c' = qname c) as (ilim & -> & Ec & c' & Er & Hok' & Ev & Eq).
  { destruct (negative c) as [x|] eqn:En.
    - exists 0. unfold RRARR_LEN. rewrite (negative_tag c Hs), En. split; [done|]. cbn [Z.to_nat count_loop resolve_loop].
      assert (slots c = replicate 47 None) as Es by (unfold negative, slots in *; by destruct (body c)). rewrite Es, clashes_none. split; [done|]. exists c. split_and!; try done.
      unfold t_drop, gone. cbn [t_slots t_flags t_neg t_ext view]. rewrite Es, drop_if_none, Z.sub_diag. unfold view. by rewrite Es.
    - destruct (arrays c Hs En) as (ilim & l & n & El & Es & Hl & H0 & Hp & _). exists ilim. split; [done|]. rewrite <- Hl.
      assert (forall j, 0 <= j < 0 + Z.of_nat (length l) -> placed c j) as Hp' by (intros j Hj; apply Hp; lia).
      rewrite (count_loop_ok idx now l Hx c [] (replicate n None) 0 0 0 Hok Es eq_refl Hp'). rewrite Es, clashes_app, clashes_none, app_nil_r. split; [done|].
      destruct (resolve_loop_ok idx l Hx c [] (replicate n None) 0 Hok Es eq_refl Hp') as (c' & E & Hok' & Eq & Ev). exists c'. split; [done|]. split; [done|]. split; [|done].
      rewrite Ev. unfold t_drop, gone. cbn [t_slots t_flags t_neg t_ext view]. rewrite Es, drop_if_app, drop_if_none, !sum_app, !(sum_replicate _ n), !Z.add_0_r by done. done. }
  cbn [mbind option_bind]. rewrite Er. destruct (has f CF_LOCAL); cbn [negb]; [by exists c'|]. destruct (has (cent_flags c) DF_LOCAL); [by exists c|]. rewrite Ec. cbn [orb].
  destruct (any_local (clashes idx 0 (slots c))); [by exists c|]. destruct (Z.eqb_spec (zlen (clashes idx 0 (slots c))) 0) as [E0|E0]; cbn [orb].
  - exists c. split; [done|]. split; [done|]. split; [|done]. cbn [fst]. symmetry. by apply t_drop_same.
  - rewrite Z.quot_div_nonneg by (pose proof (remains_nonneg now (clashes idx 0 (slots c))); unfold zlen in *; lia). destruct (_ >? _); [by exists c'|by exists c].
Qed.

(** ** Looking up *)

Lemma kind_some type : T_MIN <= type <= T_MAX -> exists idx, at_index rrlkuptab (type - T_MIN) = Some idx /\ kind_of type = Some idx /\ 0 <= idx < T_NUM.
Proof.
  intros Ht. unfold kind_of, at_index, T_MIN, T_MAX, T_NUM in *. destruct (Z.leb_spec 1 type); [|lia]. destruct (Z.leb_spec type 51); [|lia]. destruct (Z.leb_spec 0 (type - 1)); [|lia]. cbn [andb].
  destruct (rrlkuptab !! Z.to_nat (type - 1)) as [idx|] eqn:E; [|apply lookup_ge_None in E; change (length rrlkuptab) with 51%nat in E; lia]. exists idx. split_and!; try done.
  all: assert (Forall (fun i => 0 <= i < 51) rrlkuptab) as Hall by (apply (bool_decide_unpack _); vm_compute; exact I); apply (proj1 (Forall_lookup _ _) Hall) in E; cbv beta in E; lia.
Qed.

(** No two types share a kind. *)
Lemma kind_inj type type' idx : kind_of type = Some idx -> kind_of type' = Some idx -> type = type'.
Proof.
  unfold kind_of, T_MIN, T_MAX. destruct (Z.leb_spec 1 type), (Z.leb_spec type 51), (Z.leb_spec 1 type'), (Z.leb_spec type' 51); try done. intros E E'.
  assert (NoDup rrlkuptab) as Hnd by (apply (bool_decide_unpack _); vm_compute; exact I). pose proof (NoDup_lookup _ _ _ _ Hnd E E'). lia.
Qed.

Definition t_get (t : table) (type : Z) : option rr_set := let* idx := kind_of type in if idx <? NRRTOT then t_slot t idx else None.
Definition t_have (t : table) (type : Z) : bool := match t_get t type with Some s => negb (bool_decide (rrs s = [])) | None => false end.

Lemma get_eff_ok c type : shape c -> negative c = None -> T_MIN <= type <= T_MAX -> getrrset_eff c type = Some (t_get (view c) type).
Proof.
  intros Hs Hn Ht. destruct (kind_some type Ht) as (idx & E1 & E2 & H1). unfold getrrset_eff, t_get. rewrite E1, E2. cbn [mbind option_bind].
  destruct (Z.ltb_spec idx NRRTOT) as [Hlt|Hge].
  - assert (kind_ok idx) as Hk by (unfold kind_ok; lia). pose proof (testext_spec c idx Hs Hk) as E. unfold RRARR_INDEX_TESTEXT, RRARR_INDEX, negative, shape in *. destruct (body c) as [|mu ext]; [done|]. rewrite (proj1 Hs) in E.
    unfold kind_ok, NRRTOT, NRRMU, NRREXT in *. change (t_slot (view c) idx) with (slot c idx). rewrite <- E. destruct (Z.ltb_spec idx 8), (Z.ltb_spec (idx - 8) 39); try lia; by destruct ext.
  - unfold NRRTOT, NRRMU, NRREXT, negative in *. destruct (body c); [done|]. destruct (Z.ltb_spec idx 8); [lia|]. destruct (Z.ltb_spec (idx - 8) 39); [lia|done].
Qed.

Lemma t_get_negative c type : shape c -> negative c <> None -> t_get (view c) type = None.
Proof.
  intros Hs Hn. unfold t_get. destruct (kind_of type) as [idx|]; [|done]. cbn. destruct (idx <? NRRTOT); [|done]. unfold t_slot, view, slots, negative in *. cbn [t_slots]. destruct (body c); [apply replicate_slot|done].
Qed.

Lemma get_ok c type : shape c -> getrrset c type = Some (t_get (view c) type).
Proof.
  intros Hs. unfold getrrset. rewrite (negative_tag c Hs). destruct (negative c) as [x|] eqn:En; [by rewrite t_get_negative by (done || by rewrite En)|]. cbv zeta.
  destruct (Z.leb_spec 0 (type - T_MIN)), (Z.ltb_spec (type - T_MIN) T_NUM); cbn [andb]; [apply (get_eff_ok c type Hs En); unfold T_MIN, T_MAX, T_NUM in *; lia|..];
    unfold t_get, kind_of, T_MIN, T_MAX, T_NUM in *; destruct (Z.leb_spec 1 type), (Z.leb_spec type 51); try lia; done.
Qed.

Lemma have_ok c type : shape c -> T_MIN <= type <= T_MAX -> have_rr c type = Some (t_have (view c) type).
Proof.
  intros Hs Ht. unfold have_rr, t_have. rewrite (negative_tag c Hs). destruct (negative c) as [x|] eqn:En; [by rewrite t_get_negative by (done || by rewrite En)|].
  rewrite (get_eff_ok c type Hs En Ht). cbn [mbind option_bind]. f_equal. destruct (t_get (view c) type) as [s|]; [|done]. by destruct (rrs s).
Qed.

Lemma not_cached_ok type : PDNSD_NOT_CACHED_TYPE type = Some (match kind_of type with Some idx => NRRTOT <=? idx | None => true end).
Proof.
  unfold PDNSD_NOT_CACHED_TYPE. destruct (decide (T_MIN <= type <= T_MAX)) as [Ht|Ht].
  - destruct (kind_some type Ht) as (idx & E1 & E2 & _). destruct (Z.ltb_spec type T_MIN); [lia|]. destruct (Z.gtb_spec type T_MAX); [lia|]. cbn [orb]. rewrite E1, E2. cbn. by rewrite Z.geb_leb.
  - destruct (Z.ltb_spec type T_MIN), (Z.gtb_spec type T_MAX); cbn [orb]; try lia; unfold kind_of; destruct (Z.leb_spec T_MIN type), (Z.leb_spec type T_MAX); try lia; done.
Qed.

(** The time to live is between the limits, and a set that must not be cached expires at once. *)
Lemma adjust_ttl_ok min_ttl neg_ttl max_ttl s : min_ttl <= max_ttl -> let s' := adjust_ttl min_ttl neg_ttl max_ttl s in
  Cent.ts s' = Cent.ts s /\ rrs s' = rrs s /\ has (flags s') CF_NOCACHE = false /\
  if has (flags s) CF_NOCACHE then ttl s' = 0
  else flags s' = flags s /\ (if has (flags s) CF_NEGATIVE then Z.min neg_ttl min_ttl else min_ttl) <= ttl s' <= max_ttl /\
    (min_ttl <= ttl s <= max_ttl -> ttl s' = ttl s).
Proof.
  intros Hm. cbv zeta. unfold adjust_ttl. destruct (has (flags s) CF_NOCACHE) eqn:E; cbn [Cent.ts rrs flags ttl]; [by rewrite has_clear|].
  destruct (has (flags s) CF_NEGATIVE), (Z.ltb_spec neg_ttl min_ttl); cbn [andb]; repeat (match goal with |- context [if ?a <? ?b then _ else _] => destruct (Z.ltb_spec a b) | |- context [if ?a >? ?b then _ else _] => destruct (Z.gtb_spec a b) end); cbn [Cent.ts rrs flags ttl]; rewrite ?E; split_and!; try done; lia.
Qed.

(** A name that does not exist is treated like a negative set. *)
Lemma adjust_dom_ttl_ok min_ttl neg_ttl max_ttl c t s : body c = Neg t s -> 
  exists c', adjust_dom_ttl min_ttl neg_ttl max_ttl c = Some c' /\
    let r := adjust_ttl min_ttl neg_ttl max_ttl (mkSet t s (Z.lor CF_NEGATIVE (if has (cent_flags c) DF_NOCACHE then CF_NOCACHE else 0)) []) in
    body c' = Neg (ttl r) (Cent.ts r) /\ has (cent_flags c') DF_NOCACHE = false /\ slots c' = slots c /\ cs c' = cs c.
Proof.
  intros Eb. unfold adjust_dom_ttl, adjust_ttl, slots. rewrite Eb. destruct (has (cent_flags c) DF_NOCACHE) eqn:E; cbn; [eexists; split; [done|]; cbn; by rewrite has_clear|].
  destruct (neg_ttl <? min_ttl); (destruct (t <? _); [|destruct (t >? max_ttl)]); eexists; (split; [done|]); cbn; by rewrite ?Eb.
Qed.

(** ** Operations in any order *)

Inductive cent_op :=
| CAdd (type ttl ts flags : Z) (data : list Z) (m0 m1 m2 : bool)
| CAddSet (type ttl ts flags : Z) (m1 m2 : bool)
| CDel (idx : Z)
| CNegate (ttl ts : Z)
| CPurgeOne (idx : Z) (test : bool) (now : Z)
| CPurge (test : bool) (now : Z -> Z)
| CCheck (idx ttl ts flags : Z) (now : Z -> Z)
| CGet (type : Z)
| CHave (type : Z).

Inductive cent_out := ODone | OBool (b : bool) | OFreed (n : Z) | OPurgedOne (b : bool) (n : Z) | OPurged (rv left size : Z) | OSet (o : option rr_set).

Definition exec (c : dns_cent) (op : cent_op) : option (dns_cent * cent_out) :=
  match op with
  | CAdd type ttl ts flags data m0 m1 m2 =>
      let* (c, b) := add_cent_rr sizeof_set sizeof_bucket sizeof_ptr c type ttl ts flags data m0 m1 m2 in Some (c, OBool b)
  | CAddSet type ttl ts flags m1 m2 => let* (c, b) := add_cent_rrset_by_type sizeof_set sizeof_ptr c type ttl ts flags m1 m2 in Some (c, OBool b)
  | CDel idx => let* (c, n) := del_cent_rrset_by_index sizeof_set sizeof_bucket c idx in Some (c, OFreed n)
  | CNegate ttl ts => let* c := negate_cent sizeof_set sizeof_bucket sizeof_ptr c ttl ts in Some (c, ODone)
  | CPurgeOne idx test now => let* (c, b, n) := purge_rrset sizeof_set sizeof_bucket c idx test now in Some (c, OPurgedOne b n)
  | CPurge test now => let* (c, rv, n, size) := purge_all_rrsets sizeof_set sizeof_bucket sizeof_ptr c test now in Some (c, OPurged rv n size)
  | CCheck idx ttl ts flags now => let* (c, b) := cr_check_add sizeof_set sizeof_bucket c idx ttl ts flags now in Some (c, OBool b)
  | CGet type => let* o := getrrset c type in Some (c, OSet o)
  | CHave type => let* b := have_rr c type in Some (c, OBool b)
  end.

(** The kind of a type that is cached. *)
Definition cached_kind (type : Z) : option Z := let* idx := kind_of type in if idx <? NRRTOT then Some idx else None.
Definition is_kind (idx : Z) : bool := (0 <=? idx) && (idx <? NRRTOT).

(** What the callers guarantee. *)
Definition legal (t : table) (op : cent_op) : bool :=
  match op with
  | CAdd type _ _ _ _ _ _ _ => if cached_kind type is Some _ then true else false
  | CAddSet type _ _ _ _ _ => if cached_kind type is Some idx then if t_slot t idx is None then true else false else false
  | CDel idx | CPurgeOne idx _ _ | CCheck idx _ _ _ _ => is_kind idx
  | CNegate _ _ | CPurge _ _ | CGet _ => true
  | CHave type => (T_MIN <=? type) && (type <=? T_MAX)
  end.

Definition spec (t : table) (op : cent_op) : table * cent_out :=
  match op with
  | CAdd type ttl ts flags data m0 m1 m2 =>
      let (t, b) := if has (t_flags t) DF_LOCAL && negb (has flags CF_LOCAL) then (t, true) else t_add_rr t (default 0 (cached_kind type)) ttl ts flags data m0 m1 m2 in (t, OBool b)
  | CAddSet type ttl ts flags m1 m2 => let (t, b) := t_add_set t (default 0 (cached_kind type)) (mkSet ttl ts flags []) m1 m2 in (t, OBool b)
  | CDel idx => (t_del t idx, OFreed (slot_size (t_slot t idx)))
  | CNegate ttl ts => (match t_neg t with Some _ => mkT (Some (ttl, ts)) (t_flags t) false (t_slots t) | None => t_negate t ttl ts end, ODone)
  | CPurgeOne idx test now => let '(t', b, n) := t_purge_one t idx now in (if test then t else t', OPurgedOne b (if test then 0 else n))
  | CPurge test now =>
      let '(t', rv, n, size) := match t_neg t with None => t_purge t now | Some _ => (t, 0, 0, 0) end in (if test then t else t', OPurged rv n (if test then 0 else size))
  | CCheck idx ttl ts flags now => let (t, b) := t_check t idx ttl flags now in (t, OBool b)
  | CGet type => (t, OSet (t_get t type))
  | CHave type => (t, OBool (t_have t type))
  end.

Lemma cached_some type idx : cached_kind type = Some idx -> 0 <= type - T_MIN < T_NUM /\ at_index rrlkuptab (type - T_MIN) = Some idx /\ kind_ok idx.
Proof.
  unfold cached_kind. destruct (kind_of type) as [i|] eqn:E; [|done]. cbn [mbind option_bind]. destruct (Z.ltb_spec i NRRTOT); [|done]. intros [= ->].
  assert (T_MIN <= type <= T_MAX) as Ht by (unfold kind_of in E; destruct (Z.leb_spec T_MIN type), (Z.leb_spec type T_MAX); try done; lia).
  destruct (kind_some type Ht) as (j & E1 & E2 & Hj). assert (j = idx) as -> by congruence. split; [unfold T_MIN, T_MAX, T_NUM in *; lia|]. split; [done|]. unfold kind_ok. lia.
Qed.

Lemma is_kind_ok idx : is_kind idx = true -> kind_ok idx.
Proof. unfold is_kind, kind_ok. destruct (Z.leb_spec 0 idx), (Z.ltb_spec idx NRRTOT); try done; lia. Qed.

Lemma cent_exec_ok c op : ok c -> legal (view c) op = true -> exists c', exec c op = Some (c', snd (spec (view c) op)) /\ ok c' /\ view c' = fst (spec (view c) op) /\ qname c' = qname c.
Proof.
  intros Hok Hl. pose proof Hok as [Hs _]. destruct op as [ty t ts f d m0 m1 m2|ty t ts f m1 m2|i|t ts|i te now|te now|i t ts f now|ty|ty]; cbn [exec legal spec] in *.
  - destruct (cached_kind ty) as [idx|] eqn:E; [|done]. apply cached_some in E as (H1 & H2 & H3). cbn [default]. destruct (add_rr_ok c ty idx t ts f d m0 m1 m2 Hok H1 H2 H3) as (c' & -> & Hr).
    exists c'. cbn [mbind option_bind]. unfold id. change (t_flags (view c)) with (cent_flags c). by destruct (if has (cent_flags c) DF_LOCAL && _ then _ else _).
  - destruct (cached_kind ty) as [idx|] eqn:E; [|done]. apply cached_some in E as (H1 & H2 & H3). cbn [default]. unfold add_cent_rrset_by_type. change (t_slot (view c) idx) with (slot c idx) in Hl. destruct (slot c idx) eqn:E0; [done|].
    destruct (Z.leb_spec 0 (ty - T_MIN)); [|lia]. destruct (Z.ltb_spec (ty - T_MIN) T_NUM); [|lia]. cbn [andb]. rewrite H2. destruct (add_set_ok c idx t ts f m1 m2 Hok H3 E0) as (c' & -> & Hr).
    exists c'. cbn [mbind option_bind]. unfold id. by destruct (t_add_set _ _ _ _ _).
  - destruct (del_ok c i Hok (is_kind_ok i Hl)) as (c' & -> & Hr). by exists c'.
  - destruct (negate_ok c t ts Hok) as (c' & -> & Hok' & Ev & Eq). exists c'. split; [done|]. split; [done|]. split; [|done]. rewrite Ev. cbn [view t_neg fst]. destruct (negative c) eqn:En; [|done].
    f_equal. cbn [view t_slots]. unfold negative, slots in *. by destruct (body c).
  - pose proof (purge_rrset_ok c i now Hok (is_kind_ok i Hl)) as H. destruct (t_purge_one (view c) i now) as [[t' b] n]. destruct H as (c' & E1 & H1 & H2 & H3 & E2). destruct te; [exists c; by rewrite E2|exists c'; by rewrite E1].
  - pose proof (purge_ok c now Hok) as H. cbn [view t_neg]. destruct (match negative c with Some _ => _ | None => _ end) as [[[t' rv] n] size]. destruct H as (c' & E1 & H1 & H2 & H3 & _ & E2). destruct te; [exists c; by rewrite E2|exists c'; by rewrite E1].
  - destruct (check_ok c i t ts f now Hok (is_kind_ok i Hl)) as (c' & -> & Hr). exists c'. cbn [mbind option_bind]. by destruct (t_check _ _ _ _ _).
  - exists c. by rewrite (get_ok c ty Hs).
  - exists c. rewrite (have_ok c ty Hs); [done|]. destruct (Z.leb_spec T_MIN ty), (Z.leb_spec ty T_MAX); try done; lia.
Qed.

Fixpoint run (c : dns_cent) (ops : list cent_op) : option (dns_cent * list cent_out) :=
  match ops with
  | [] => Some (c, [])
  | op :: ops => let* (c, o) := exec c op in let* (c, os) := run c ops in Some (c, o :: os)
  end.

Fixpoint spec_run (t : table) (ops : list cent_op) : table * list cent_out :=
  match ops with
  | [] => (t, [])
  | op :: ops => let (t, o) := spec t op in let (t, os) := spec_run t ops in (t, o :: os)
  end.

Fixpoint legal_run (t : table) (ops : list cent_op) : bool :=
  match ops with [] => true | op :: ops => legal t op && legal_run (fst (spec t op)) ops end.

Lemma run_ok ops : forall c, ok c -> legal_run (view c) ops = true -> exists c', run c ops = Some (c', snd (spec_run (view c) ops)) /\ ok c' /\ view c' = fst (spec_run (view c) ops) /\ qname c' = qname c.
Proof.
  induction ops as [|op ops IH]; intros c Hok Hl; [by exists c|]. cbn [run spec_run legal_run] in *. apply andb_prop in Hl as [Hl1 Hl2]. destruct (cent_exec_ok c op Hok Hl1) as (c1 & -> & Hok1 & Ev1 & Eq1).
  rewrite <- Ev1 in Hl2. destruct (IH c1 Hok1 Hl2) as (c' & E & Hok' & Ev & Eq). cbn [mbind option_bind]. rewrite E. exists c'. rewrite Ev1 in *. destruct (spec (view c) op) as [t o]. cbn [fst snd] in *. destruct (spec_run t ops) as [t' os]. cbn [fst snd] in *.
  split; [done|]. split; [done|]. split; [done|]. by rewrite Eq.
Qed.

Definition new_table (ttl ts flags : Z) : table := mkT (if has flags DF_NEGATIVE then Some (ttl, ts) else None) flags false (replicate 47 None).

(** ** The properties *)

(** C26. A cache entry is a table of record sets: from a new entry, any sequence of the operations
    (adding records and sets with any results of [malloc], deleting, negating, purging
    or asking what purging would do, resolving conflicts, looking up), each called as its
    callers call it, gives exactly the results and the table that the specification
    gives, never reads the wrong arm of the union or outside of an array, and the entry counts the bytes and the sets that it has. *)
Theorem cent_refines name ttl ts flags ops : legal_run (new_table ttl ts flags) ops = true ->
  exists c0 c', init_cent sizeof_cent name ttl ts flags true = Some c0 /\ run c0 ops = Some (c', snd (spec_run (new_table ttl ts flags) ops)) /\
    view c' = fst (spec_run (new_table ttl ts flags) ops) /\ qname c' = name /\
    cs c' = sizeof_cent + zlen name + sum slot_size (slots c') + (if has_ext c' then sizeof_ptr * NRREXT else 0) /\ num_rrs c' = sum slot_one (slots c').
Proof.
  intros Hl. destruct (cent_init_ok name ttl ts flags) as (c0 & E0 & Hok0 & Eq0 & Ev0). fold (new_table ttl ts flags) in Ev0. rewrite <- Ev0 in *.
  destruct (run_ok ops c0 Hok0 Hl) as (c' & E & [_ [Hc Hn]] & Ev & Eq). exists c0, c'. rewrite Eq, Eq0 in *. done.
Qed.

Lemma drop_if_lookup g l k : forall i, drop_if g i l !! k = match l !! k with Some (Some s) => Some (if g (i + Z.of_nat k) s then None else Some s) | o => o end.
Proof.
  revert k. induction l as [|o l IH]; intros [|k] i; try done.
  - cbn [drop_if]. change ((?x :: ?y) !! 0%nat) with (Some x). rewrite Z.add_0_r. by destruct o.
  - cbn [drop_if]. change ((?x :: ?y) !! S k) with (y !! k). rewrite IH. by replace (i + 1 + Z.of_nat k) with (i + Z.of_nat (S k)) by lia.
Qed.

Lemma t_drop_slot t g i : 0 <= i -> t_slot (t_drop t g) i = match t_slot t i with Some s => if g i s then None else Some s | None => None end.
Proof.
  intros Hi. unfold t_slot, t_drop. cbn [t_slots]. rewrite drop_if_lookup, Z.add_0_l, Z2Nat.id by done. by destruct (t_slots t !! Z.to_nat i) as [[s|]|].
Qed.

Lemma check_same c idx t ts f now c' b : cr_check_add sizeof_set sizeof_bucket c idx t ts f now = Some (c', b) -> has f CF_NEGATIVE = true \/ b = false -> c' = c.
Proof.
  unfold cr_check_add. destruct (has f CF_NEGATIVE); [intros [= <- _]; done|]. intros E [ | ->]; [done|]. revert E. destruct (RRARR_LEN c) as [ilim|]; [|done]. cbn [mbind option_bind].
  destruct (has f CF_LOCAL); cbn [negb]; [by destruct (resolve_loop _ _ _ _ _ _)|]. destruct (has (cent_flags c) DF_LOCAL); [by intros [= <-]|].
  destruct (count_loop _ _ _ _ _ _ _) as [[[ncf nttl]|]|]; [|by intros [= <-]|done]. cbn [mbind option_bind]. destruct (ncf =? 0); [done|].
  destruct (_ >? _); [by destruct (resolve_loop _ _ _ _ _ _)|by intros [= <-]].
Qed.

(** C28. [cr_check_add] says that a set of a kind may be added exactly if the set is a negative
    one, or it is local, or the entry is not local, no set that it excludes is local, and
    there is none of these or its time to live is more than what remains of theirs on average.
    If the set is negative, or may not be added, the entry does not change. Otherwise exactly
    the sets that exclude it go: those, not negative, of types of another class (aliases,
    pointers, records of a host); all others stay. *)
Theorem cr_check_add_exact c idx ttl ts flags now : ok c -> kind_ok idx -> let cl := clashes idx 0 (slots c) in
  exists c' b, cr_check_add sizeof_set sizeof_bucket c idx ttl ts flags now = Some (c', b) /\ ok c' /\
    (b = true <-> has flags CF_NEGATIVE = true \/ has flags CF_LOCAL = true \/
      has (cent_flags c) DF_LOCAL = false /\ Forall (fun x => has (Cent.flags (snd x)) CF_LOCAL = false) cl /\ (cl = [] \/ remains now cl `div` zlen cl < ttl)) /\
    (has flags CF_NEGATIVE = true \/ b = false -> c' = c) /\
    (b = true -> has flags CF_NEGATIVE = false -> forall i s, kind_ok i -> slot c' i = Some s <-> slot c i = Some s /\ clash idx i s = false).
Proof.
  intros Hok Hi. destruct (check_ok c idx ttl ts flags now Hok Hi) as (c' & E & Hok' & Ev & _). exists c', (snd (t_check (view c) idx ttl flags now)). split; [done|]. split; [done|]. assert (has flags CF_NEGATIVE = true \/ snd (t_check (view c) idx ttl flags now) = false -> c' = c) as Hsame by (by apply (check_same c idx ttl ts flags now)). clear E.
  assert (forall i, slot c' i = t_slot (fst (t_check (view c) idx ttl flags now)) i) as Hslot by (intros i; rewrite <- Ev; done).
  assert (forall i, kind_ok i -> t_slot (t_drop (view c) (clash idx)) i = match slot c i with Some s => if clash idx i s then None else Some s | None => None end) as Hd by (intros i Hk; apply t_drop_slot; unfold kind_ok in Hk; lia).
  assert (any_local (clashes idx 0 (slots c)) = false <-> Forall (fun x => has (Cent.flags (snd x)) CF_LOCAL = false) (clashes idx 0 (slots c))) as Hloc.
  { clear. unfold any_local. induction (clashes idx 0 (slots c)) as [|x l IH]; cbn [existsb]; [by split; [constructor|]|]. rewrite orb_false_iff, Forall_cons_iff. tauto. }
  assert (zlen (clashes idx 0 (slots c)) = 0 <-> clashes idx 0 (slots c) = []) as Hnil by (destruct (clashes idx 0 (slots c)); unfold zlen; simpl; split; try done; lia).
  unfold t_check in *. change (t_slots (view c)) with (slots c) in *. change (t_flags (view c)) with (cent_flags c) in *.
  assert (forall i s, kind_ok i -> t_slot (t_drop (view c) (clash idx)) i = Some s -> clash idx i s = false /\ slot c i = Some s) as Hd1 by (intros i s Hk; rewrite Hd by done; destruct (slot c i) as [s'|]; [|done]; destruct (clash idx i s') eqn:Ec; [done|]; by intros [= <-]).
  assert (forall i s, kind_ok i -> slot c i = Some s -> clash idx i s = false -> t_slot (t_drop (view c) (clash idx)) i = Some s) as Hd2 by (intros i s Hk Es Ec; by rewrite Hd, Es, Ec).
  destruct (has flags CF_NEGATIVE), (has flags CF_LOCAL), (has (cent_flags c) DF_LOCAL), (any_local (clashes idx 0 (slots c))), (Z.eqb_spec (zlen (clashes idx 0 (slots c))) 0),
    (Z.gtb_spec ttl (remains now (clashes idx 0 (slots c)) `div` zlen (clashes idx 0 (slots c)))); cbn [orb fst snd] in *; (split; [|split; [done|]]).
  all: try (intros; split; [intros E; rewrite Hslot in E|intros [E1 E2]; rewrite Hslot]; naive_solver).
  all: clear Hd Hd1 Hd2; try (split; [done|]); try tauto; intros [?|[?|(? & ? & [?|?])]]; exfalso; first [done | lia | tauto | (assert (true = false) by tauto; done)].
Qed.

End Cent.

Theorem cent_refines_witness :
  let now := fun _ : Z => 100 in
  let ops := [CAdd 1 300 50 0 [7; 7; 7; 7] true true true; CAdd 1 200 50 0 [7; 7; 7; 7] true true true; CAdd 17 400 50 0 [3] true true true; CAdd 16 60 50 CF_NOPURGE [1; 2] true true false;
              CGet 1; CHave 16; CCheck 2 1000 90 0 now; CAdd 5 1000 90 0 [4] true false true; CPurge true (fun _ => 2000); CPurge false (fun _ => 2000); CNegate 9 9; CAdd 16 60 50 0 [1] true true true; CDel 6] in
  exists c0 c', init_cent 64 [1; 97; 0] 0 0 0 true = Some c0 /\
    run 40 16 8 c0 ops = Some (c', snd (spec_run 40 16 8 (new_table 0 0 0) ops)) /\
    view c' = fst (spec_run 40 16 8 (new_table 0 0 0) ops) /\ qname c' = [1; 97; 0] /\
    cs c' = 64 + zlen [1; 97; 0] + sum (slot_size 40 16) (slots c') + (if has_ext c' then 8 * NRREXT else 0) /\ num_rrs c' = sum slot_one (slots c').
Proof. intros now ops. apply cent_refines. vm_compute. reflexivity. Defined.

Example cent_runs :
  let now := fun _ : Z => 100 in
  snd (spec_run 40 16 8 (new_table 0 0 0)
    [CAdd 1 300 50 0 [7] true true true; CAdd 17 400 50 0 [3] true true true; CCheck 2 100 90 0 now; CCheck 2 1000 90 0 now; CGet 1; CHave 17; CPurge true (fun _ => 2000); CPurge false (fun _ => 2000)])
  = [OBool true; OBool true; OBool false; OBool true; OSet None; OBool false; OPurged 1 0 0; OPurged 1 0 312].
Proof. vm_compute. reflexivity. Qed.

Theorem cr_check_add_exact_witness :
  let c := mkCent [1; 97; 0] 124 1 0 (RR [Some (mkSet 300 50 0 [[7; 7; 7; 7]]); None; None; None; None; None; None; None] None) cundef cundef in
  let cl := clashes 2 0 (slots c) in
  exists c' b, cr_check_add 40 16 c 2 1000 90 0 (fun _ => 100) = Some (c', b) /\ ok 61 40 16 8 c' /\
    (b = true <-> has 0 CF_NEGATIVE = true \/ has 0 CF_LOCAL = true \/
      has (cent_flags c) DF_LOCAL = false /\ Forall (fun x => has (Cent.flags (snd x)) CF_LOCAL = false) cl /\ (cl = [] \/ remains (fun _ => 100) cl `div` zlen cl < 1000)) /\
    (has 0 CF_NEGATIVE = true \/ b = false -> c' = c) /\
    (b = true -> has 0 CF_NEGATIVE = false -> forall i s, kind_ok i -> slot c' i = Some s <-> slot c i = Some s /\ clash 2 i s = false).
Proof. intros c cl. apply (cr_check_add_exact 61 40 16 8); [vm_compute; split_and!; reflexivity|unfold kind_ok, NRRTOT; lia]. Defined.
